(* ===== verification/_CoqProject ===== *)
-Q . S2P
Prelude.v
Effects.v
Text.v
TextProps.v
Memory.v
Mempool.v
MempoolSpec.v
PoolProps.v
Buffer.v
BufferSpec.v
BufferProps.v
Numeric.v
Epoll.v
EpollProps.v
CxData.v
HostCX.v
HostCXProps.v
Meter.v
BaseProxy.v
BaseProxyProps.v
Dispatch.v
ProxySafety.v
MasterProxy.v
MasterProps.v
PtrCache.v
PtrCacheProps.v
Ltv.v
Fdq.v
FdqProps.v
Flow.v
Signature.v
SignatureProps.v
AppCX.v
AppCXProps.v
SockInfo.v
SockInfoProps.v
Pcap.v
PcapProps.v
Pcapng.v
PcapngProps.v
PcapLog.v
PcapLogProps.v
Writer.v
WriterProps.v
Capture.v
ComSock.v
Udp.v
Receiver.v
SockSim.v
UdpProps.v
ReceiverProps.v
Hello.v
HelloProps.v
Ocsp.v
OcspProps.v
Verify.v
VerifyProps.v
TlsData.v
Tls.v
TlsProps.v
SslSim.v
CertStore.v
CertProps.v
Mitm.v
MitmProps.v
CertSim.v
ShmTable.v
ShmProps.v
TcpCom.v
TcpProps.v
Acceptor.v
AcceptorProps.v
Internet.v
InternetProps.v
Log.v
LogProps.v
Codec.v
SObject.v
SObjectProps.v
TlsServer.v
