(* ===== verification/Prelude.v ===== *)
(** * Socle: a verification library for the socket library's core

    Socle is a C++ library on which proxies are built: one worker thread owns a poller,
    waits for ready sockets, finds the proxy that owns each of them and lets it move
    bytes between its left and its right side through the buffers of its socket
    contexts.  This library models that path, from the memory under the buffers up to
    the proxy that owns other proxies, the application contexts that inspect the traffic,
    the queue that feeds the workers, the UDP sessions and their sockets, the capture of the
    traffic into files, the TLS com with the checks of certificates, the store of certificates
    made for connections and the com that presents them, the text helpers, the
    acceptor and its workers, downloads, the log with its events, the registry of objects
    with its counted pointers, checksums and base64, and two data structures that stand beside
    them.

    ** Parts and how they interact

    - Shared: [Prelude] (machine integers with their wrap-around, byte lists, list
      lemmas, hint databases, tactics), [Effects] (the monad of a C++ member function:
      return, throw, or undefined behaviour), [Memory] (byte-addressed store, live heap
      blocks, the allocator as the class [Allocator]).
    - [Mempool] (src/common/mempool): chunks cut from ten buckets, canaries, the heap
      fallback, [mempool_alloc/realloc/free].  [MempoolSpec] states the pool's invariant
      and its abstract view, the outstanding blocks; [PoolProps] has its properties.
    - [Buffer] (src/common/buffer.cpp, buffer.hpp): every member function over the
      pool's world, a [const void*] argument being an address, so that aliasing is the
      code's.  [BufferSpec] has ownership and the frame rule, [BufferProps] the
      refinement to byte strings.
    - [Numeric] (src/common/convert.hpp, number.hpp, numops.hpp): checked casts and
      arithmetic by width and signedness.
    - [Epoll] (src/common/epoll.cpp, epoll.hpp, the monitors of basecom.cpp): the socket
      sets of one wait, rescans, idle detection, the handler table.  The kernel is the
      class [EpollKernel].  Properties: [EpollProps].
    - [CxData] and [HostCX] (src/hostcx.cpp, hostcx.hpp, state of basecom.hpp): socket
      contexts over a shared world of contexts by number, poller and network; a number
      that is not in the map stands for a destroyed object and using it is undefined.
      The com below a context is the class [Com].  A context's buffers are their bytes
      and their capacity, which the refinement of [BufferProps] justifies.
      Properties: [HostCXProps].
    - [Meter] (src/sobject.cpp): the transfer-rate meter.
    - [BaseProxy] (src/baseproxy.cpp, lrproxy.cpp): context lists, read and write
      events, errors, the write bottleneck, accepts, timers, shutdown;
      [handle_sockets_once] is one round.  [Dispatch] (run_poll, run, listen, connect of
      baseproxy.cpp) goes from ready sockets to handlers; [MasterProxy]
      (src/masterproxy.cpp) runs sub-proxies inline or in threads, whose steps a schedule
      puts between those of the master.  Properties:
      [BaseProxyProps], [ProxySafety], [MasterProps].
    - [Flow] and [Signature] (src/common/signature.hpp): recorded conversations, the
      resumable match of a chain of expressions, groups of signatures, and at the end the
      replacement of matches of src/common/buffer.cpp.  [AppCX]
      (src/apphostcx.cpp, apphostcx.hpp): the contexts that hook into read and write to
      record and inspect their traffic, over the base context of [HostCX].  Properties: at the
      end of [Flow], [SignatureProps], [AppCXProps].
    - [Fdq] (src/fdq.cpp, fdq.hpp): the queue through which the acceptor hands
      descriptors to the workers.  Properties: [FdqProps].
    - [SockInfo] (src/socketinfo.cpp, socketinfo.hpp): addresses as the bytes of their
      structures, session keys, the socket towards a client.  [ComSock] (src/basecom.cpp):
      socket options, names and resolution.  System calls are classes ([SockSys],
      [PeerSys], [UdpSys], [RecvSys]); [SockSim] has a kernel to evaluate them on.
      Properties: [SockInfoProps].
    - [Udp] (src/udpcom.cpp, udpcom.hpp): the shared pool of early datagrams behind
      virtual sockets, and the cache of connected sockets.  [Receiver]
      (src/threadedreceiver.cpp, threadedreceiver.hpp) files datagrams in that pool,
      announces sessions through [Fdq] and hands them to coms.  Properties: [UdpProps],
      [ReceiverProps].
    - [Pcap] and [Pcapng] (src/traflog/pcapapi.cpp, pcapapi.hpp): packets faked around a
      payload, with their checksums, and the blocks that hold them.  [PcapLog]
      (src/traflog/pcaplog.cpp, basetraflog.hpp): the capture log of a connection, over an
      interface of files whose laws [FilesOk] states; at its end the names of logs
      (fsoutput.cpp, traflog.cpp) and the text log (smcaplog.cpp).  [Writer] (filewriter.cpp,
      poolwriter.cpp, threadedpoolwriter.cpp of src/traflog): the writers over buffering
      streams, the threaded one being the instance of that interface.  [Capture] composes both.  Properties:
      [PcapProps], [PcapngProps], [PcapLogProps], [WriterProps], [Capture].
    - [Hello] (parse_peer_hello and its extensions in src/sslcom.tpp): the names in a peeked
      ClientHello, over the bytes and the allocation of the buffer.  [Ocsp]
      (src/sslcertval.cpp, sslcertval.hpp): what responses and revocation lists say, the
      blocking query of the responders and [OcspQuery], the query as a state machine.
      [Verify] (the callbacks of src/sslcom.tpp): the bits of [verify_status_] from the
      chain to the staple, the query, the lists and certificate transparency.  [TlsData] and
      [Tls] (src/sslcom.hpp, sslcom.tpp): the com, its peer and poller, upgrade, handshake,
      bypass, read and write.  OpenSSL, the network and the clock are the classes [Pki],
      [BioLib], [PkiMore] and [SslLib]; [SslStream] states what the manual says of the data
      stream; [SslSim] has instances of all of them.  Properties: [HelloProps],
      [OcspProps], [VerifyProps], [TlsProps].
    - [CertStore] (src/sslcertstore.cpp, sslcertstore.hpp): the factory, its files and
      contexts, the caches of certificates as owners of counted OpenSSL objects, and
      [spoof], which makes a certificate like another.  [Mitm] (src/sslmitmcom.tpp and the
      preferred certificates of sslcom.tpp): the check of the server's name, what is shown
      to the client for it, and the references a com holds.  OpenSSL and the files are the
      classes [CertLib] and [SslObj], with the laws [CertLaws]; [CertSim] has an instance
      of them.  Properties: [CertProps], [MitmProps].
    - [TlsServer] (src/sslcom.tpp, sslcom.cpp, sslcom_dh.cpp, sslcertstore.cpp): the accepting
      side of the com over [Tls] and a TCP com of [ComSock] or a UDP com of [Udp] below, the events of alerts and of
      certificate problems in the ring of [Log] with the text of a certificate as their detail,
      the names of connections, and the groups of the key exchange, with their properties.
    - [Text] (src/common/display.cpp, display.hpp, stringformat.hpp, mpdisplay.hpp,
      timeops.cpp): formatting into a growing buffer, dumps, escaping, splitting, numbers
      in text, versions, uptimes.  Properties: [TextProps].
    - [TcpCom] (src/tcpcom.cpp, uxcom.cpp and their headers): the coms of stream sockets, over
      [ComSock].  Properties: [TcpProps], whose end makes the TCP com an instance of the class
      [Com] that [HostCX] asks for and runs a context on it.
    - [ShmTable] (src/common/shmbuffer.hpp, shmtable.hpp): memory shared by name, tables with
      a version in it and maps over them.  System calls are the class [ShmSys].  Properties, and
      an instance: [ShmProps].
    - The end of [Fdq] (src/threadedworker.hpp) and [Acceptor] (src/threadedacceptor.cpp and
      its header): the proxies made for the threads, the acceptor that puts accepted sockets into
      [Fdq], and the round of a worker that pops one, resolves where it was going and hands
      it on.  A step is one round of one thread.  Properties, and a run
      over [TcpCom]: [AcceptorProps].
    - [Internet] (src/common/internet.cpp): taking addresses apart and downloading over the
      poller of [Epoll].  System calls are the class [NetSys].  Properties, and a
      server to download from: [InternetProps].
    - [Log] (src/common/log): levels and topics, the multiplexer that writes a message to its
      files and remote sockets, numbered events with their details in a ring, the objects
      that carry a level of their own, and clickers.  Properties: [LogProps].
    - [SObject] (src/sobject.cpp, sobject.hpp, src/vars.hpp, src/peering.hpp): the database
      of objects by address and by number with its listings, counted pointers and the
      references to them, owners with a deleter, cached casts, and pairs of objects that
      know each other.  Properties: [SObjectProps].
    - [Codec] (crc32.cpp and base64.cpp of src/common): the checksum by table and base64, with
      their properties.
    - [PtrCache] (src/common/ptr_cache.hpp): the bounded cache with first-in-first-out
      or second-chance eviction.  Properties, and what its clients use of the first
      mode: [PtrCacheProps].
    - [Ltv] (src/common/ltventry.cpp, ltventry.hpp): length-type-value packets, with their
      properties.

    Definitions keep the names of the code; a C++ class is a record, its member functions
    are definitions of that name that take and return the record or run in the monad.
    The [set_] functions that replace one field of a record stand for assignments.

    ** What the theorems show

    - Memory safety: no client of the pool is handed a block that overlaps one it holds,
      and blocks keep their bytes ([PoolProps]); no round of a proxy touches a destroyed
      context ([ProxySafety]); the handler table never points to a
      destroyed handler ([EpollProps]).
    - Inspection: a flow is the conversation cut into turns ([Flow]); a signature
      matches exactly when its chain embeds into the flow, and matching piecemeal is
      matching at once ([SignatureProps]); with continuous inspection on nothing is sent unrecorded, and
      each signature is reported once ([AppCXProps]).
    - UDP: datagrams go from the catch-all socket to their session complete and in order,
      each session is announced once ([ReceiverProps]); reads of a virtual socket are
      reads of a queue of packets, connecting registers what it returns, and sharing a
      connection or connecting without a source closes the wrong socket ([UdpProps]).
    - TLS: a ClientHello is understood as it was encoded, the parser ends but for one length,
      and believes the lengths of names ([HelloProps]); a query has a verdict only in its
      final state and it is the response's, a response's that of its last single response that says
      anything ([OcspProps]); the verified bit is earned, the
      options excuse exactly what they name, a bad staple is worth more than none
      ([VerifyProps]); read hands over the stream, write sends a prefix, the filter matches
      names and their subdomains, and half a ClientHello turns TLS off ([TlsProps]).
    - Certificates: what is made says what it should and nothing else changes, references
      are freed once and only once, the key of the cache tells apart exactly what it holds
      ([CertProps]); the name check passes exactly for covering entries, what the client is
      shown follows the policy, and clients of one key see one certificate ([MitmProps]);
      runs that end in a dangling or over-freed certificate are examples in [CertSim].
    - Accepting and reporting: what a com over TCP is after its first attempt, to the last field, one
      SSL object serves a connection, the record of a virtual socket is never found, a fatal alert is
      one event and an error, a problem two reports, a certificate with a long text overruns
      the formatting buffer, and the groups are the published ones ([TlsServer]).
    - Coms: every socket a connect or a bind makes is closed or held but for one that cannot
      listen, and a com believes itself connected in more cases than it is ([TcpProps]).
    - Connections: they reach the workers in the order they were accepted, each of them once,
      and a worker takes them over with the address the client meant ([AcceptorProps]).
    - Downloads: the body of an answer whose header, read as lines, says its length is delivered
      whole however the network cuts it, what
      an address says is what is asked for but for its port, and every socket is closed
      ([InternetProps]).
    - Log: the ring holds the newest events in their order whatever the threads do, a block owns
      its number, details go when their events go, and a message reaches the targets whose
      level takes it, once each ([LogProps]).
    - Objects: the database is the set of the live objects, counts of counted pointers are
      exact as long as [newref] is not used, and a peer that is reported is alive ([SObjectProps]).
    - Codes: the checksum is the one its polynomial defines, decoding gives back what was encoded
      ([Codec]).
    - Tables: writers and readers of a shared table behave as those of one register
      ([ShmProps]).
    - Captures: a reader that knows the protocols only gets addresses, ports, flags, numbers and
      payload back from a frame, and accepts its checksums ([PcapProps]), segments carry the data whatever its length and
      blocks announce their size but for a second comment ([PcapngProps]), writes reach
      the disk in order, the last ones with a flush or a close ([WriterProps]), a whole log reads back as the two streams of
      the connection ([Capture]), and a text log holds its entries in order ([PcapLogProps]).
    - Refinement: sequences of buffer operations are operations on a byte string
      ([BufferProps]); the cache is a window of the newest keys ([PtrCacheProps]); the
      descriptor queue keeps order and loses nothing ([FdqProps]).
    - Data flow: a read appends what arrives, writes send exactly the queued bytes in
      order ([HostCXProps]), forwarding passes every byte on ([BaseProxyProps]), a ready
      socket reaches its proxy ([ProxySafety]).
    - Back-pressure and pausing: a side with a backlog blocks reading on the other one
      until it is written ([BaseProxyProps]), a paused context is inert ([HostCXProps]).
    - Events: a wait reports exactly what the kernel said, idle and rescanned sockets are
      put back ([EpollProps]).
    - Life cycle and liveness: shutdown leaves nothing open or listed, the master's round
      ends under every fair schedule when its sub-proxies return, and may not end when one throws
      ([BaseProxyProps], [MasterProps]).
    - Round trips and bounds: packets ([Ltv]), accessors ([BufferProps]), casts
      ([Numeric]), joining and splitting, numbers and their text, escapes, the limit of the
      formatting buffer ([TextProps]).
    - Divergences: the theorems whose comments speak of a loss, a leak, an overrun or a
      wedge prove what the code really does there.

    ** Bounds and fuel

    Machine integers are [Z] with explicit wrap-around ([u64], [s32], ...).  Loops over
    containers are structural.  Fuel is used where the code loops on a condition:
    [Mempool.stockpile] (the number of chunks, exact), [PtrCache.evict] (the length of
    the queue, each turn shortens it), [Ltv.unpack] (one more than the bytes offered
    is enough, [Ltv]), and [MasterProxy.wait_for] and [timers_loop], which can wait
    for ever; there a run out of fuel is an outcome of its own, and [MasterProps] proves
    that every fair schedule of the threads has a fuel that is enough for a round.  The segment loop of
    [Pcapng] has the length of the data as fuel, which is enough ([PcapngProps]); the
    receive loop needs one turn for each datagram that waits ([ReceiverProps]).  The
    extension loop of [Hello] needs a turn per extension, at most the bytes of the message
    unless one length is 65532 ([HelloProps]); the read loop of [Tls] one more than the bytes
    asked for ([TlsProps]).  The blocking query of [Ocsp] loops as long as the network makes
    it; running out is an outcome of its own.  [Text.format_loop] takes at most twenty turns,
    [Internet.send_loop] one turn per byte of the request, [Internet.receive_loop] one per
    piece received, running out being an outcome of its own ([InternetProps]), and
    [CertStore.FILE_to_string] one more than the bytes of the file, or for ever when reading
    fails ([CertProps]).

    ** Not modelled

    Key logging and the information callback, which only log, the builds for OpenSSL before
    1.1 with their locks, OpenSSL's allocation failures, the strings over
    OpenSSL buffers of biostring.cpp, backtraces, the allocator adapters for containers, and the messages that the
    modelled code logs ([Log] models where they go, the components leave them out).
    The regular-expression engine is a function of the match
    that uses it, and what a derived application context does in its callbacks is
    reduced to the order of the calls.  Interleavings inside one locked operation are not
    modelled: an operation is one step; so is the round of a sub-proxy
    in its thread.  Making a thread does not fail.  Which part of what a stream holds the library
    writes on its own is a parameter ([written_on]).  The tests and the declarations
    of the headers that no definition needs are not modelled either. *)

From Stdlib Require Export ZArith Lia.
From stdpp Require Export base numbers gmap strings fin_maps option.
From stdpp Require Export list.

#[global] Open Scope Z_scope.

(** ** Machine integers

    Fixed-width integers are [Z] values with the wrap-around of C++ written
    out: [uN x] is the conversion to an unsigned [N]-bit type, [sN x] the (two's
    complement) conversion to a signed one. *)

Definition wrapu (w x : Z) : Z := x mod 2 ^ w.
Definition wraps (w x : Z) : Z := (x + 2 ^ (w - 1)) mod 2 ^ w - 2 ^ (w - 1).

Abbreviation u8 := (wrapu 8).
Abbreviation u16 := (wrapu 16).
Abbreviation u32 := (wrapu 32).
Abbreviation u64 := (wrapu 64).
Abbreviation s32 := (wraps 32).
Abbreviation s64 := (wraps 64).

(** [npos] and every other [static_cast<size_t>(-1)]. *)
Definition npos : Z := 2 ^ 64 - 1.

Lemma wrapu_bound w x : 0 <= w -> 0 <= wrapu w x < 2 ^ w.
Proof. intros ?. apply Z.mod_pos_bound. lia. Qed.

Lemma wrapu_small w x : 0 <= x < 2 ^ w -> wrapu w x = x.
Proof. apply Z.mod_small. Qed.

Lemma wrapu_idemp w x : 0 <= w -> wrapu w (wrapu w x) = wrapu w x.
Proof. intros ?. apply wrapu_small, wrapu_bound. lia. Qed.

Lemma wraps_small w x :
  0 < w -> - 2 ^ (w - 1) <= x < 2 ^ (w - 1) -> wraps w x = x.
Proof.
  intros ??. unfold wraps.
  assert (2 ^ w = 2 * 2 ^ (w - 1)) as E.
  { rewrite <- Z.pow_succ_r by lia. f_equal. lia. }
  rewrite Z.mod_small; lia.
Qed.

Lemma u64_small x : 0 <= x < 18446744073709551616 -> u64 x = x.
Proof. intros H. exact (wrapu_small 64 x H). Qed.

Lemma u64_bound x : 0 <= u64 x < 18446744073709551616.
Proof. assert (0 <= 64) as H by lia. exact (wrapu_bound 64 x H). Qed.

Lemma u32_small x : 0 <= x < 4294967296 -> u32 x = x.
Proof. intros H. exact (wrapu_small 32 x H). Qed.

Lemma u32_bound x : 0 <= u32 x < 4294967296.
Proof. assert (0 <= 32) as H by lia. exact (wrapu_bound 32 x H). Qed.

Lemma u16_small x : 0 <= x < 65536 -> u16 x = x.
Proof. intros H. exact (wrapu_small 16 x H). Qed.

Lemma u16_bound x : 0 <= u16 x < 65536.
Proof. assert (0 <= 16) as H by lia. exact (wrapu_bound 16 x H). Qed.

Lemma u8_small x : 0 <= x < 256 -> u8 x = x.
Proof. intros H. exact (wrapu_small 8 x H). Qed.

Lemma u8_bound x : 0 <= u8 x < 256.
Proof. assert (0 <= 8) as H by lia. exact (wrapu_bound 8 x H). Qed.

(** ** Bytes

    A byte is a [Z] in [0, 256); a byte string is a [list Z]. *)

Abbreviation bytes := (list Z).

Definition is_byte (b : Z) : Prop := 0 <= b < 256.
Abbreviation all_bytes := (Forall is_byte).

(** Length of a byte string as a [Z]: the [size()] of the code's containers. *)
Definition zlen {A} (l : list A) : Z := Z.of_nat (length l).

Definition ztake {A} (n : Z) (l : list A) : list A := take (Z.to_nat n) l.
Definition zdrop {A} (n : Z) (l : list A) : list A := drop (Z.to_nat n) l.
Definition zrep {A} (n : Z) (x : A) : list A := replicate (Z.to_nat n) x.

Lemma zlen_nonneg {A} (l : list A) : 0 <= zlen l.
Proof. unfold zlen. lia. Qed.

Lemma zlen_nil {A} : zlen (@nil A) = 0.
Proof. done. Qed.

Lemma zlen_cons {A} (x : A) l : zlen (x :: l) = zlen l + 1.
Proof. unfold zlen. simpl. lia. Qed.

Lemma zlen_app {A} (l k : list A) : zlen (l ++ k) = zlen l + zlen k.
Proof. unfold zlen. rewrite length_app. lia. Qed.

Lemma zlen_zrep {A} n (x : A) : 0 <= n -> zlen (zrep n x) = n.
Proof. intros. unfold zlen, zrep. rewrite length_replicate. lia. Qed.

Lemma zlen_ztake {A} n (l : list A) : 0 <= n <= zlen l -> zlen (ztake n l) = n.
Proof. unfold zlen, ztake. intros. rewrite length_take. lia. Qed.

Lemma zlen_zdrop {A} n (l : list A) : 0 <= n <= zlen l -> zlen (zdrop n l) = zlen l - n.
Proof. unfold zlen, zdrop. intros. rewrite length_drop. lia. Qed.

Lemma zlen_fmap {A B} (f : A -> B) l : zlen (f <$> l) = zlen l.
Proof. unfold zlen. by rewrite length_fmap. Qed.

Lemma zlen_length {A} (l : list A) : zlen l = Z.of_nat (length l).
Proof. done. Qed.

Lemma zlen_perm {A} (l k : list A) : Permutation l k -> zlen l = zlen k.
Proof. unfold zlen. by intros ->. Qed.

Lemma ztake_all {A} (l : list A) : ztake (zlen l) l = l.
Proof. unfold ztake, zlen. rewrite Nat2Z.id. apply firstn_all. Qed.

Lemma ztake_ge {A} n (l : list A) : zlen l <= n -> ztake n l = l.
Proof. rewrite zlen_length. intros H. apply take_ge. lia. Qed.

Lemma zdrop_ge {A} n (l : list A) : zlen l <= n -> zdrop n l = [].
Proof. rewrite zlen_length. intros H. apply drop_ge. lia. Qed.

Lemma ztake_app_exact {A} n (l k : list A) : zlen l = n -> ztake n (l ++ k) = l.
Proof. intros <-. unfold ztake, zlen. rewrite Nat2Z.id. apply take_app_length. Qed.

Lemma zdrop_app_exact {A} n (l k : list A) : zlen l = n -> zdrop n (l ++ k) = k.
Proof. intros <-. unfold zdrop, zlen. rewrite Nat2Z.id. apply drop_app_length. Qed.

Lemma ztake_zdrop {A} n (l : list A) : ztake n l ++ zdrop n l = l.
Proof. apply take_drop. Qed.

#[global] Opaque zlen.

(** Little-endian images of an unsigned value: the memory representation of
    the host (x86) integers the code copies byte by byte, and the big-endian
    (network) images produced by [htons]/[htonl]. *)

Fixpoint le_bytes (n : nat) (x : Z) : bytes :=
  match n with
  | O => []
  | S n' => x mod 256 :: le_bytes n' (x / 256)
  end.

Definition be_bytes (n : nat) (x : Z) : bytes := rev (le_bytes n x).

Fixpoint le_value (bs : bytes) : Z :=
  match bs with
  | [] => 0
  | b :: r => b + 256 * le_value r
  end.

Definition be_value (bs : bytes) : Z := le_value (rev bs).

Lemma length_le_bytes n x : length (le_bytes n x) = n.
Proof. revert x. induction n; intros; simpl; auto. Qed.

Lemma zlen_le_bytes n x : zlen (le_bytes n x) = Z.of_nat n.
Proof. Transparent zlen. unfold zlen. by rewrite length_le_bytes. Opaque zlen. Qed.

Lemma zlen_be_bytes n x : zlen (be_bytes n x) = Z.of_nat n.
Proof.
  Transparent zlen. unfold zlen, be_bytes. rewrite length_rev, length_le_bytes. done.
  Opaque zlen.
Qed.

Lemma all_bytes_le_bytes n x : all_bytes (le_bytes n x).
Proof.
  revert x. induction n; intros; simpl; constructor; auto.
  apply Z.mod_pos_bound. lia.
Qed.

Lemma all_bytes_be_bytes n x : all_bytes (be_bytes n x).
Proof. apply Forall_rev, all_bytes_le_bytes. Qed.

Lemma all_bytes_ztake n b : all_bytes b -> all_bytes (ztake n b).
Proof. apply Forall_take. Qed.

Lemma all_bytes_zdrop n b : all_bytes b -> all_bytes (zdrop n b).
Proof. apply Forall_drop. Qed.

Lemma all_bytes_zrep n x : is_byte x -> all_bytes (zrep n x).
Proof. apply Forall_replicate. Qed.

Lemma le_value_le_bytes n x : le_value (le_bytes n x) = x mod 256 ^ Z.of_nat n.
Proof.
  revert x. induction n as [|n IH]; intros; simpl le_value.
  - by rewrite Z.mod_1_r.
  - rewrite IH, Nat2Z.inj_succ, Z.pow_succ_r by lia.
    rewrite Z.rem_mul_r by lia. lia.
Qed.

Lemma be_value_be_bytes n x : be_value (be_bytes n x) = x mod 256 ^ Z.of_nat n.
Proof. unfold be_value, be_bytes. rewrite rev_involutive. apply le_value_le_bytes. Qed.

Lemma le_value_bound bs : all_bytes bs -> 0 <= le_value bs < 256 ^ Z.of_nat (length bs).
Proof.
  induction 1 as [|b bs Hb _ IH]; [done|].
  cbn [le_value length]. rewrite Nat2Z.inj_succ, Z.pow_succ_r by lia.
  unfold is_byte in Hb. lia.
Qed.

Lemma le_bytes_le_value bs : all_bytes bs -> le_bytes (length bs) (le_value bs) = bs.
Proof.
  induction 1 as [|b bs Hb _ IH]; [done|]. cbn [le_value length le_bytes].
  unfold is_byte in Hb. rewrite Z.mul_comm, Z.div_add, Z.mod_add by lia.
  rewrite Z.div_small, Z.mod_small by lia. f_equal. apply IH.
Qed.

Lemma be_bytes_be_value bs : all_bytes bs -> be_bytes (length bs) (be_value bs) = bs.
Proof.
  intros H. unfold be_bytes, be_value.
  rewrite <- (length_rev bs), le_bytes_le_value by (by apply Forall_rev).
  apply rev_involutive.
Qed.

(** ** Windows of a byte string *)

(** [n] bytes at offset [off]. *)
Definition at_off (off n : Z) (s : bytes) : bytes := ztake n (zdrop off s).
Definition put_at (off : Z) (v s : bytes) : bytes := ztake off s ++ v ++ zdrop (off + zlen v) s.

Lemma all_bytes_app a b : all_bytes (a ++ b) <-> all_bytes a /\ all_bytes b.
Proof. apply Forall_app. Qed.

(** Split a goal about the bytes of an append, part by part. *)
Ltac bytes_app :=
  repeat match goal with |- Forall is_byte (_ ++ _) => apply all_bytes_app; split end;
  auto with socle.

Lemma all_bytes_at_off o n s : all_bytes s -> all_bytes (at_off o n s).
Proof. intros. by apply all_bytes_ztake, all_bytes_zdrop. Qed.

Lemma zlen_at_off o n s : 0 <= o -> 0 <= n -> o + n <= zlen s -> zlen (at_off o n s) = n.
Proof. intros. unfold at_off. rewrite zlen_ztake; [done|]. rewrite zlen_zdrop; lia. Qed.

Lemma all_bytes_put_at o v s : all_bytes v -> all_bytes s -> all_bytes (put_at o v s).
Proof.
  intros. apply all_bytes_app; split; [by apply all_bytes_ztake |].
  apply all_bytes_app; split; [done | by apply all_bytes_zdrop].
Qed.

Lemma zlen_put_at o v s : 0 <= o -> o + zlen v <= zlen s -> zlen (put_at o v s) = zlen s.
Proof.
  intros. pose proof (zlen_nonneg v). unfold put_at.
  rewrite !zlen_app, zlen_ztake, zlen_zdrop by lia. lia.
Qed.

(** Reading back what a write stored. *)
Lemma at_off_put_same o v s : 0 <= o -> o + zlen v <= zlen s -> at_off o (zlen v) (put_at o v s) = v.
Proof.
  intros. pose proof (zlen_nonneg v). unfold at_off, put_at.
  rewrite (zdrop_app_exact o) by (rewrite zlen_ztake; lia). by rewrite ztake_app_exact.
Qed.

Lemma at_off_put o n v s : zlen v = n -> 0 <= o -> o + n <= zlen s -> at_off o n (put_at o v s) = v.
Proof. intros <-. apply at_off_put_same. Qed.

Lemma zlookup_put_other o v s i :
  0 <= o -> o + zlen v <= zlen s -> (Z.of_nat i < o \/ o + zlen v <= Z.of_nat i) ->
  put_at o v s !! i = s !! i.
Proof.
  intros Ho Hl Hi. pose proof (zlen_nonneg v). unfold put_at. rewrite zlen_length in *.
  assert (Ht : length (ztake o s) = Z.to_nat o).
  { unfold ztake. rewrite length_take. rewrite zlen_length in Hl. lia. }
  destruct Hi.
  - rewrite lookup_app_l by lia. unfold ztake. rewrite lookup_take_lt by lia. done.
  - rewrite lookup_app_r by lia. rewrite lookup_app_r by lia.
    unfold zdrop. rewrite lookup_drop. f_equal. lia.
Qed.

Lemma at_off_put_other o v s a n :
  0 <= o -> 0 <= a -> 0 <= n -> o + zlen v <= zlen s -> (a + n <= o \/ o + zlen v <= a) ->
  at_off a n (put_at o v s) = at_off a n s.
Proof.
  intros Ho Ha Hn Hl Hd. apply list_eq. intros i. unfold at_off, ztake, zdrop.
  destruct (decide (i < Z.to_nat n)%nat).
  - rewrite !lookup_take_lt, !lookup_drop by lia. apply zlookup_put_other; lia.
  - rewrite !lookup_take_ge by lia. done.
Qed.

(** A string literal as bytes. *)
Definition text (s : string) : bytes := (fun c => Z.of_nat (Ascii.nat_of_ascii c)) <$> String.list_ascii_of_string s.

(** ** Shared automation *)

Create HintDb socle.
#[export] Hint Resolve zlen_nonneg all_bytes_le_bytes all_bytes_be_bytes : socle.
#[export] Hint Rewrite @zlen_nil @zlen_cons @zlen_app @zlen_fmap
  zlen_le_bytes zlen_be_bytes : zlen.

(** Normalise the lengths of a goal and call [lia]. *)
Ltac zlen_lia := autorewrite with zlen in *; try lia.

(** Turn the boolean tests of the code into propositions. *)
Ltac reflect_bools :=
  repeat match goal with
  | H : (_ && _) = true |- _ => apply andb_prop in H as [??]
  | H : (_ || _) = false |- _ => apply orb_false_elim in H as [??]
  | H : negb _ = true |- _ => apply negb_true_iff in H
  | H : negb _ = false |- _ => apply negb_false_iff in H
  | H : (_ =? _) = true |- _ => apply Z.eqb_eq in H
  | H : (_ =? _) = false |- _ => apply Z.eqb_neq in H
  | H : (_ <=? _) = true |- _ => apply Z.leb_le in H
  | H : (_ <=? _) = false |- _ => apply Z.leb_gt in H
  | H : (_ <? _) = true |- _ => apply Z.ltb_lt in H
  | H : (_ <? _) = false |- _ => apply Z.ltb_ge in H
  end.

(** Case analysis on the innermost test of the goal, the shape every [if] of
    the translated code has. *)
Ltac case_if :=
  match goal with
  | |- context [if ?b then _ else _] =>
      lazymatch b with
      | context [if _ then _ else _] => fail
      | _ => let E := fresh "E" in destruct b eqn:E
      end
  end; reflect_bools.

(** The same in a hypothesis. *)
Ltac case_if_in H :=
  match type of H with
  | context [if ?b then _ else _] =>
      lazymatch b with
      | context [if _ then _ else _] => fail
      | _ => let E := fresh "E" in destruct b eqn:E
      end
  end; reflect_bools.
