(* ===== verification/Effects.v ===== *)
(** * Effects: the state and error monad of the translated code

    A C++ member function that mutates objects, may throw and may run into
    undefined behaviour is a computation [M W A]: from the state [W] it returns
    a value with the new state, throws with the state reached so far, or is
    undefined (no theorem of the library ever assumes anything of that case).
    The monad is total: loops are structural or carry explicit fuel. *)

From S2P Require Export Prelude.

(** The exceptions the modelled code throws. *)
Inductive exn : Type :=
  | invalid_argument
  | out_of_range
  | mempool_error
  | cast_overflow
  | com_error
  | bad_optional_access
  | clienthello_malformed
  | runtime_error
  | bad_alloc
  | process_exit (code : Z).          (* exit(code) *)

#[export] Instance exn_eq_dec : EqDecision exn.
Proof. solve_decision. Defined.

Inductive outcome (W A : Type) : Type :=
  | Ret (a : A) (w : W)
  | Throw (e : exn) (w : W)
  | Undef.
Arguments Ret {W A} a w.
Arguments Throw {W A} e w.
Arguments Undef {W A}.

Definition M (W A : Type) : Type := W -> outcome W A.

Section monad.
Context {W : Type}.

Definition mret_ {A} (a : A) : M W A := fun w => Ret a w.
Definition mbind_ {A B} (m : M W A) (k : A -> M W B) : M W B := fun w =>
  match m w with
  | Ret a w' => k a w'
  | Throw e w' => Throw e w'
  | Undef => Undef
  end.
Definition throw {A} (e : exn) : M W A := fun w => Throw e w.
Definition undef {A} : M W A := fun _ => Undef.
Definition get : M W W := fun w => Ret w w.
Definition gets {A} (f : W -> A) : M W A := fun w => Ret (f w) w.
Definition put (w : W) : M W unit := fun _ => Ret tt w.
Definition modify (f : W -> W) : M W unit := fun w => Ret tt (f w).
Definition when (b : bool) (m : M W unit) : M W unit := if b then m else mret_ tt.

(** [try { m } catch (e) { h }]: [h] runs in the state reached when [m] threw [e]. *)
Definition try_catch {A} (m : M W A) (e : exn) (h : M W A) : M W A := fun w =>
  match m w with
  | Throw e' w' => if decide (e' = e) then h w' else Throw e' w'
  | o => o
  end.

(** [m] does not throw and is defined from [w], with result [a] in [w']. *)
Definition returns {A} (m : M W A) (w : W) (a : A) (w' : W) : Prop := m w = Ret a w'.
End monad.

Declare Scope eff_scope.
Delimit Scope eff_scope with eff.
Notation "x <- c ;; k" := (mbind_ c (fun x => k))
  (at level 100, c at next level, right associativity) : eff_scope.
Notation "c ;;; k" := (mbind_ c (fun _ => k))
  (at level 100, right associativity) : eff_scope.
Notation "'let!' p := c 'in' k" := (mbind_ c (fun p => k))
  (at level 100, p strict pattern, c at level 99, k at level 100, right associativity) : eff_scope.
#[global] Open Scope eff_scope.

Section laws.
Context {W : Type}.

Lemma bind_ret {A B} (m : M W A) (k : A -> M W B) w a w' :
  m w = Ret a w' -> mbind_ m k w = k a w'.
Proof. unfold mbind_. by intros ->. Qed.

Lemma bind_throw {A B} (m : M W A) (k : A -> M W B) w e w' :
  m w = Throw e w' -> mbind_ m k w = Throw e w'.
Proof. unfold mbind_. by intros ->. Qed.

Lemma bind_undef {A B} (m : M W A) (k : A -> M W B) w : m w = Undef -> mbind_ m k w = Undef.
Proof. unfold mbind_. by intros ->. Qed.

Lemma bind_gets {A B} (f : W -> A) (k : A -> M W B) w :
  mbind_ (gets f) k w = k (f w) w.
Proof. done. Qed.

Lemma bind_modify {B} (f : W -> W) (k : unit -> M W B) w :
  mbind_ (modify f) k w = k tt (f w).
Proof. done. Qed.

Lemma bind_pure {A B} (a : A) (k : A -> M W B) w : mbind_ (mret_ a) k w = k a w.
Proof. done. Qed.

Lemma bind_assoc {A B C} (m : M W A) (f : A -> M W B) (k : B -> M W C) w :
  mbind_ (mbind_ m f) k w = mbind_ m (fun a => mbind_ (f a) k) w.
Proof. unfold mbind_. by destruct (m w). Qed.

Lemma try_ret {A} (m : M W A) e h w a w' : m w = Ret a w' -> try_catch m e h w = Ret a w'.
Proof. unfold try_catch. by intros ->. Qed.

Lemma try_caught {A} (m : M W A) e h w w' : m w = Throw e w' -> try_catch m e h w = h w'.
Proof. unfold try_catch. intros ->. by rewrite decide_True. Qed.

Lemma try_passed {A} (m : M W A) e e' h w w' :
  m w = Throw e' w' -> e' <> e -> try_catch m e h w = Throw e' w'.
Proof. unfold try_catch. intros -> ?. by rewrite decide_False. Qed.

Lemma bind_inv {A B} (m : M W A) (k : A -> M W B) w b w'' :
  mbind_ m k w = Ret b w'' -> exists a w', m w = Ret a w' /\ k a w' = Ret b w''.
Proof. unfold mbind_. destruct (m w); naive_solver. Qed.
End laws.

(** ** Invariants of a computation

    [keeps P m Q]: from a state with [P], [m] is defined and ends in a state with [P] whether it
    returns or throws, and a returned value has [Q]. *)
Definition keeps {W A} (P : W -> Prop) (m : M W A) (Q : A -> Prop) : Prop :=
  forall w, P w -> match m w with Ret a w' => P w' /\ Q a | Throw _ w' => P w' | Undef => False end.

Section keeps.
Context {W : Type} (P : W -> Prop).

Lemma keeps_ret {A} (a : A) (Q : A -> Prop) : Q a -> keeps P (mret_ a) Q.
Proof. intros HQ w Hw. by split. Qed.

Lemma keeps_throw {A} e (Q : A -> Prop) : keeps P (throw e) Q.
Proof. by intros w Hw. Qed.

Lemma keeps_bind {A B} (m : M W A) (k : A -> M W B) Q R :
  keeps P m Q -> (forall a, Q a -> keeps P (k a) R) -> keeps P (mbind_ m k) R.
Proof.
  intros Hm Hk w Hw. specialize (Hm w Hw). unfold mbind_.
  destruct (m w) as [a w' | e w' |]; [destruct Hm as [Hw' HQ]; by apply Hk | done | done].
Qed.

Lemma keeps_get : keeps P get P.
Proof. by intros w Hw. Qed.

Lemma keeps_gets {A} (f : W -> A) (Q : A -> Prop) : (forall w, P w -> Q (f w)) -> keeps P (gets f) Q.
Proof. intros Hf w Hw. split; [done | by apply Hf]. Qed.

Lemma keeps_modify f : (forall w, P w -> P (f w)) -> keeps P (modify f) (fun _ => True).
Proof. intros Hf w Hw. split; [by apply Hf | done]. Qed.

Lemma keeps_when b m : (b = true -> keeps P m (fun _ => True)) -> keeps P (when b m) (fun _ => True).
Proof. intros H. destruct b; [by apply H | by apply keeps_ret]. Qed.

Lemma keeps_weaken {A} (m : M W A) (Q R : A -> Prop) :
  keeps P m Q -> (forall a, Q a -> R a) -> keeps P m R.
Proof.
  intros H HQR w Hw. specialize (H w Hw). destruct (m w); [destruct H; split; auto | done | done].
Qed.
End keeps.

(** [upholds P m]: started with [P], [m] ends with [P] unless it is undefined. *)
Definition upholds {W A} (P : W -> Prop) (m : M W A) : Prop :=
  forall w, P w -> match m w with Ret _ w' => P w' | Throw _ w' => P w' | Undef => True end.

Section upholds.
Context {W : Type} (P : W -> Prop).

Lemma upholds_ret {A} (a : A) : upholds P (mret_ a).
Proof. by intros w H. Qed.
Lemma upholds_throw {A} e : upholds P (@throw W A e).
Proof. by intros w H. Qed.
Lemma upholds_undef {A} : upholds P (@undef W A).
Proof. by intros w H. Qed.
Lemma upholds_gets {A} (f : W -> A) : upholds P (gets f).
Proof. by intros w H. Qed.
Lemma upholds_modify f : (forall w, P w -> P (f w)) -> upholds P (modify f).
Proof. intros Hf w H. by apply Hf. Qed.
Lemma upholds_bind {A B} (m : M W A) (k : A -> M W B) :
  upholds P m -> (forall a, upholds P (k a)) -> upholds P (mbind_ m k).
Proof.
  intros Hm Hk w H. specialize (Hm w H). unfold mbind_. destruct (m w) as [a w' | e w' |]; [|done|done].
  by apply Hk.
Qed.
Lemma upholds_when b m : upholds P m -> upholds P (when b m).
Proof. intros Hm. destruct b; [exact Hm | apply upholds_ret]. Qed.
Lemma upholds_try {A} (m : M W A) e h : upholds P m -> upholds P h -> upholds P (try_catch m e h).
Proof.
  intros Hm Hh w H. specialize (Hm w H). unfold try_catch. destruct (m w) as [a w' | e' w' |]; [done| |done].
  case_decide; [by apply Hh | done].
Qed.
Lemma upholds_out {A} (m : M W A) w a w' : upholds P m -> P w -> m w = Ret a w' -> P w'.
Proof. intros Hm H E. specialize (Hm w H). by rewrite E in Hm. Qed.
End upholds.

Create HintDb upholds.
#[export] Hint Resolve upholds_ret upholds_throw upholds_undef upholds_gets upholds_bind upholds_when
  upholds_try : upholds.
#[export] Hint Extern 1 (upholds _ (if ?c then _ else _)) => destruct c : upholds.

(** Step a monadic goal whose head computation reduces. *)
Ltac mstep := unfold mret_, throw, get, gets, put, modify, when in *; cbn in *.
