(* ===== verification/Text.v ===== *)
(** Text and time helpers (src/common/display.cpp, display.hpp, stringformat.hpp,
    timeops.cpp, mpdisplay.cpp).

    A [std::string] is the list of its bytes; a [char] above 127 is negative, which matters
    where it is promoted to [int].  Character classes are those of the C locale.  What is
    printed is computed to the last character; [double] arithmetic is exact where it is
    used (integers divided by a power of two), with the rounding of the conversion and of
    [printf] written out. *)
From S2P Require Export Effects.

(** ** Characters and numbers *)

(** The value of a (signed) [char]. *)
Definition char_val (c : Z) : Z := wraps 8 c.

Definition isprint (c : Z) : bool := (32 <=? c) && (c <=? 126).
Definition isspace (c : Z) : bool := (c =? 32) || ((9 <=? c) && (c <=? 13)).
Definition isdigit (c : Z) : bool := (48 <=? c) && (c <=? 57).
Definition tolower (c : Z) : Z := if (65 <=? c) && (c <=? 90) then c + 32 else c.

(** The digit of a value; [up] selects the letters of %X. *)
Definition digit (up : bool) (v : Z) : Z :=
  if v <? 10 then 48 + v else (if up then 55 else 87) + v.

(** The digits of [x] in base [b], at least one, at most [n]. *)
Fixpoint digits (n : nat) (up : bool) (b x : Z) : bytes :=
  match n with
  | O => []
  | S n' => if x <? b then [digit up x] else digits n' up b (x / b) ++ [digit up (x mod b)]
  end.

(** printf's zero padding to a width. *)
Definition pad0 (w : Z) (s : bytes) : bytes := zrep (w - zlen s) 48 ++ s.

(** %02X and %04X of an unsigned int, %.4x, %03o, %d of a value that is not negative. *)
Definition fmt_02X (x : Z) : bytes := pad0 2 (digits 8 true 16 x).
Definition fmt_04X (x : Z) : bytes := pad0 4 (digits 8 true 16 x).
Definition fmt_4x (x : Z) : bytes := pad0 4 (digits 8 false 16 x).
Definition fmt_03o (x : Z) : bytes := pad0 3 (digits 11 false 8 x).
Definition decimal (x : Z) : bytes := digits 20 false 10 x.

(** ** [string_format] *)

(** [std::string(buffer, w)] of a buffer of [cap] bytes into which [snprintf] wrote what
    fits of a rendering of [w] bytes: past the end it reads memory that is not its own. *)
Definition take_out (cap : Z) (rendering : bytes) : outcome unit bytes :=
  let w := zlen rendering in
  if cap <? w then Undef
  else Ret (if cap =? w then ztake (w - 1) rendering ++ [0] else rendering) tt.

(** The growing buffer: [snprintf] reports the length of the whole rendering; after twenty
    steps the loop gives up and takes that many bytes from the buffer anyway.  [alloc]
    tells whether [mempool_realloc] of a size succeeds, [failed] what is made of the buffer
    of the step before when it does not. *)
Fixpoint format_loop (fuel : nat) (alloc : Z -> bool) (failed : Z -> outcome unit bytes)
    (rendering : bytes) (mul : Z) : outcome unit bytes :=
  match fuel with
  | O => Undef
  | S fuel =>
      let cursize := 512 * mul in
      if negb (alloc cursize) then failed (cursize - 512)
      else if (cursize <=? zlen rendering) && (mul + 1 <=? 20)
           then format_loop fuel alloc failed rendering (mul + 1)
           else take_out cursize rendering
  end.

(** [string_format] returns an empty string when the pool refuses, [mp::string_format]
    takes its result from the buffer it has. *)
Definition string_format (alloc : Z -> bool) (rendering : bytes) : outcome unit bytes :=
  format_loop 20 alloc (fun _ => Ret [] tt) rendering 1.
Definition mp_string_format (alloc : Z -> bool) (rendering : bytes) : outcome unit bytes :=
  format_loop 20 alloc (fun cap => if cap =? 0 then Ret [] tt else take_out cap rendering) rendering 1.

(** ** [hex_print] *)

Definition hex_print (data : bytes) : bytes := data ≫= fmt_02X.

(** ** [hex_dump] *)

Definition MAX_HEXDUMP_SIZE : Z := 1024.

Definition filter_visi (c : Z) : Z :=
  if (c <? 33) || (126 <? c) || (c =? 92) || (c =? 37) then 46 else c.

Record dump_opts : Type := mkDumpOpts { d_ltrim : Z; d_prefix : Z; d_add_cr : bool; d_fake_pos : Z }.

Definition line_cr (o : dump_opts) : bytes := if d_add_cr o then [13] else [].

(** What starts a line: the ASCII column of the line before, then the address. *)
Definition line_start (o : dump_opts) (i : Z) (ascii : bytes) : bytes :=
  ascii ++ zrep (d_ltrim o) 32 ++ (if negb (d_prefix o =? 0) then [d_prefix o] else []) ++ line_cr o ++
  [10; 91] ++ fmt_04X (u32 (i + d_fake_pos o)) ++ [93; 32; 32].

(** The loop over the data from index [i]: the text, the ASCII column so far, the size
    shown and whether the rest was cut. *)
Fixpoint hex_loop (o : dump_opts) (i : Z) (data ss ascii : bytes) : bytes * bytes * Z * bool :=
  match data with
  | [] => (ss, ascii, i, false)
  | c :: data' =>
      let '(ss, ascii) :=
        if i mod 16 =? 0 then (ss ++ line_start o i ascii, [32; 32])
        else if i mod 8 =? 0 then (ss ++ [32; 32], ascii) else (ss, ascii) in
      let ss := ss ++ fmt_02X c ++ [32] in
      let ascii := ascii ++ [filter_visi c] in
      if MAX_HEXDUMP_SIZE <=? i then (ss, ascii, i + 1, true)
      else hex_loop o (i + 1) data' ss ascii
  end.

Definition too_large : bytes :=
  10 :: text "[....]                                                      <data too large>".

Definition hex_dump (o : dump_opts) (data : bytes) : bytes :=
  let '(ss, ascii, size, truncated) := hex_loop o 0 data [] [] in
  let ss := ss ++ zrep (3 * (16 - size mod 16)) 32 in
  let ss :=
    if negb (size mod 16 =? 0) then ss ++ (if size mod 16 <=? 8 then [32; 32] else []) ++ ascii else ss in
  let ss := if truncated then ss ++ line_cr o ++ too_large else ss in
  ss ++ line_cr o ++ [10].

(** ** [hex_dump2], and [mp::hex_dump], which is the same without a carriage return and
    with addresses from 0 *)

(** [strncat] into an array of [cap] bytes. *)
Definition strncat (cap : Z) (s t : bytes) : bytes := s ++ ztake (cap - zlen s - 1) t.

(** "[%4.4s]   %-50.50s  %s" *)
Definition dump_line (addr hexs chars : bytes) : bytes :=
  let padr w s := s ++ zrep (w - zlen s) 32 in
  let padl w s := zrep (w - zlen s) 32 ++ s in
  [91] ++ padl 4 (ztake 4 addr) ++ [93; 32; 32; 32] ++ padr 50 (ztake 50 hexs) ++ [32; 32] ++ chars.

Fixpoint dump2_loop (pref : bytes) (o : dump_opts) (n : Z) (data addr hexs chars ret_ : bytes) : bytes :=
  match data with
  | [] =>
      if 0 <? zlen hexs then ret_ ++ pref ++ dump_line addr hexs chars ++ line_cr o ++ [10] else ret_
  | p :: data' =>
      let addr := if n mod 16 =? 1 then ztake 9 (fmt_4x (u32 (n - 1 + d_fake_pos o))) else addr in
      let hexs := strncat 53 hexs (ztake 3 (fmt_02X p ++ [32])) in
      let chars := strncat 21 chars [filter_visi p] in
      if n mod 16 =? 0 then
        dump2_loop pref o (n + 1) data' addr [] [] (ret_ ++ pref ++ dump_line addr hexs chars ++ line_cr o ++ [10])
      else if n mod 8 =? 0 then
        dump2_loop pref o (n + 1) data' addr (strncat 53 hexs [32; 32]) (strncat 21 chars [32]) ret_
      else dump2_loop pref o (n + 1) data' addr hexs chars ret_
  end.

Definition dump2_prefix (o : dump_opts) : bytes :=
  let tr := if 0 <? d_ltrim o then d_ltrim o + 4 else 0 in
  let tr := if negb (d_prefix o =? 0) && (1 <? tr) then tr - 1 else tr in
  zrep tr 32 ++ (if negb (d_prefix o =? 0) then [d_prefix o] else []).

Definition hex_dump2 (o : dump_opts) (data : bytes) : bytes :=
  dump2_loop (dump2_prefix o) o 1 data [] [] [] [].

Definition mp_hex_dump (ltrim prefix : Z) (data : bytes) : bytes :=
  hex_dump2 (mkDumpOpts ltrim prefix false 0) data.

(** ** Escaping *)

(** [chr_cstrlit]: the C string left in the buffer. *)
Definition chr_cstrlit (u buflen : Z) (to_print : bool) : bytes :=
  let octal := if buflen <? 5 then [] else 92 :: fmt_03o u in
  if buflen <? 2 then []
  else if isprint u && negb (bool_decide (u ∈ [39; 34; 92; 63])) then [u]
  else if buflen <? 3 then []
  else match u with
       | 7 => text "\a" | 8 => text "\b" | 12 => text "\f" | 10 => text "\n" | 13 => text "\r"
       | 9 => text "\t" | 11 => text "\v" | 92 => [92; 92] | 39 => [92; 39] | 34 => [92; 34]
       | 63 => [92; 63]
       | 37 => if to_print then [37; 37] else octal
       | _ => octal
       end.

(** One character of [escape]; what is not printable and has no letter of its own is
    printed in octal as the unsigned int its [char] is promoted to. *)
Definition escape_char (ascii_only escape_space : bool) (c : Z) : bytes :=
  if isprint c && negb (bool_decide (c ∈ [39; 34; 92; 63; 37; 32])) then [c]
  else match c with
       | 7 => text "\a" | 8 => text "\b" | 12 => text "\f" | 11 => text "\v" | 92 => [92; 92]
       | 37 => if ascii_only then [37; 37] else []
       | 10 => if ascii_only then [] else text "\n"
       | 9 => if ascii_only then [] else text "\t"
       | 13 => if ascii_only then [] else text "\r"
       | 39 => if ascii_only then [] else [92; 39]
       | 34 => if ascii_only then [] else [92; 34]
       | 63 => if ascii_only then [] else [92; 63]
       | 32 => if escape_space then [92; 32] else [32]
       | _ => if ascii_only then [] else 92 :: fmt_03o (u32 (char_val c))
       end.
Definition escape (orig : bytes) (ascii_only escape_space : bool) : bytes :=
  orig ≫= escape_char ascii_only escape_space.
Definition printable (orig : bytes) : bytes := escape orig true false.

(** ** Splitting and joining *)

(** The loop of [getline]: [tok] is the token being read.  At the end of the text a token
    is delivered when at least one character was read for it. *)
Fixpoint split_loop (delimiter : Z) (str tok : bytes) : list bytes :=
  match str with
  | [] => match tok with [] => [] | _ => [tok] end
  | c :: str => if c =? delimiter then tok :: split_loop delimiter str [] else split_loop delimiter str (tok ++ [c])
  end.
Definition string_split (str : bytes) (delimiter : Z) : list bytes := split_loop delimiter str [].

Fixpoint string_csv (l : list bytes) (delim : Z) : bytes :=
  match l with
  | [] => []
  | [x] => x
  | x :: l => x ++ [delim] ++ string_csv l delim
  end.

(** [std::string::substr]. *)
Definition substr (s : bytes) (pos n : Z) : exn + bytes :=
  if zlen s <? pos then inl out_of_range else inr (ztake (Z.min n (zlen s - pos)) (zdrop pos s)).

Definition string_shorten (orig : bytes) (max_len : Z) : exn + bytes :=
  if max_len <? zlen orig then
    match substr orig 0 3 with
    | inl e => inl e
    | inr shortened =>
        match substr orig (u64 (zlen orig - 3)) (zlen orig) with
        | inl e => inl e
        | inr shortened2 => inr (shortened ++ [46; 46; 46] ++ shortened2)
        end
    end
  else inr orig.

(** The loop of [string_trim]: the result so far, whether only blanks were seen, and the
    blanks since the last other character. *)
Fixpoint trim_loop (orig ret_ : bytes) (start : bool) (spaces : Z) : bytes * Z :=
  match orig with
  | [] => (ret_, spaces)
  | c :: orig =>
      let spaces := if isspace c then spaces + 1 else 0 in
      if isspace c && start then trim_loop orig ret_ start spaces
      else trim_loop orig (ret_ ++ [c]) false spaces
  end.
Definition string_trim (orig : bytes) : exn + bytes :=
  let '(ret_, spaces) := trim_loop orig [] true 0 in
  if 0 <? spaces then substr ret_ 0 (u64 (- spaces)) else inr ret_.

Definition string_tolower (orig : bytes) : bytes := tolower <$> orig.

Definition args_to_vec (argv : list bytes) (argc : Z) : list bytes := ztake argc argv.

(** ** Numbers in text *)

Fixpoint digits_value (s : bytes) (acc : Z) : Z :=
  match s with
  | c :: s => if isdigit c then digits_value s (10 * acc + (c - 48)) else acc
  | [] => acc
  end.
Fixpoint skip_space (s : bytes) : bytes :=
  match s with
  | c :: s' => if isspace c then skip_space s' else s
  | [] => []
  end.

(** What strtol and its like read in base 10: blanks, a sign, digits. *)
Definition strto (s : bytes) : option (bool * Z) :=
  let s := skip_space s in
  let '(neg, s) := match s with 45 :: s => (true, s) | 43 :: s => (false, s) | _ => (false, s) end in
  match s with
  | c :: _ => if isdigit c then Some (neg, digits_value s 0) else None
  | [] => None
  end.

Definition signed_value (lo hi : Z) (s : bytes) : exn + Z :=
  match strto s with
  | None => inl invalid_argument
  | Some (neg, v) =>
      let v := if neg : bool then - v else v in
      if (lo <=? v) && (v <=? hi) then inr v else inl out_of_range
  end.
Definition stoi : bytes -> exn + Z := signed_value (- 2 ^ 31) (2 ^ 31 - 1).
Definition stoll : bytes -> exn + Z := signed_value (- 2 ^ 63) (2 ^ 63 - 1).
(** [stoull] takes a sign and negates modulo 2^64. *)
Definition stoull (s : bytes) : exn + Z :=
  match strto s with
  | None => inl invalid_argument
  | Some (neg, v) => if v <? 2 ^ 64 then inr (if neg : bool then u64 (- v) else v) else inl out_of_range
  end.

Definition safe_val (s : bytes) (default_val : Z) : Z :=
  match stoi s with inr v => v | inl _ => default_val end.
Definition safe_ull_value (s : bytes) : option Z :=
  match stoull s with inr v => Some v | inl _ => None end.
Definition safe_ll_value (s : bytes) : option Z :=
  match stoll s with inr v => Some v | inl _ => None end.

(** The loop over the levels both versions have; [std::invalid_argument] is caught,
    [std::out_of_range] is not. *)
Fixpoint version_loop (real_ver target_ver : list bytes) : exn + bool :=
  match real_ver, target_ver with
  | r :: real_ver, t :: target_ver =>
      match stoi r with
      | inl e => if decide (e = invalid_argument) then inr true else inl e
      | inr real_int =>
          match stoi t with
          | inl e => if decide (e = invalid_argument) then inr true else inl e
          | inr target_int =>
              if real_int <? target_int then inr false
              else if target_int <? real_int then inr true
              else version_loop real_ver target_ver
          end
      end
  | _, _ => inr true
  end.
Definition version_check (real_string v : bytes) : exn + bool :=
  version_loop (string_split real_string 46) (string_split v 46).

(** ** [string_printf] *)

(** Up to the next placeholder: what is printed, the rest of the format, the placeholders
    met. *)
Fixpoint printFmt (fmt : bytes) : bytes * bytes * Z :=
  match fmt with
  | [] => ([], [], 0)
  | c :: fmt =>
      if negb (c =? 37) then let '(out, r, n) := printFmt fmt in (c :: out, r, n)
      else match fmt with
           | [] => ([], [], 0)
           | d :: fmt =>
               if d =? 37 then let '(out, r, n) := printFmt fmt in (37 :: out, r, n) else ([], fmt, 1)
           end
  end.

(** The arguments, each as [operator<<] prints it. *)
Fixpoint printf_args (fmt : bytes) (args : list bytes) : bytes * Z :=
  let '(out, r, n) := printFmt fmt in
  match args with
  | [] => (out, n)
  | a :: args => let '(out', n') := printf_args r args in (out ++ a ++ out', n + n')
  end.
Definition string_printf (fmt : bytes) (args : list bytes) : exn + bytes :=
  let '(out, placeHolders) := printf_args fmt args in
  if placeHolders =? zlen args then inr out else inl runtime_error.

(** ** [number_suffixed] *)

(** A quotient rounded to the nearest integer, ties to even. *)
Definition round_even (num den : Z) : Z :=
  let q := num / den in
  let r := num mod den in
  if 2 * r <? den then q else if den <? 2 * r then q + 1 else if Z.even q then q else q + 1.

(** The integer a [double] made of an unsigned long holds. *)
Definition to_double (n : Z) : Z :=
  let e := Z.log2 n - 52 in if e <=? 0 then n else round_even n (2 ^ e) * 2 ^ e.

(** %.[p]f of [num]/[den]. *)
Definition fmt_fixed (p num den : Z) : bytes :=
  let v := round_even (num * 10 ^ p) den in
  decimal (v / 10 ^ p) ++ [46] ++ pad0 p (decimal (v mod 10 ^ p)).

Definition POW_1 : Z := 1024.
Definition POW_2 : Z := 1048576.
Definition POW_3 : Z := 1073741824.
Definition POW_4 : Z := 1099511627776.

Definition number_suffixed (xn : Z) : bytes :=
  let n := to_double xn in
  if n <? POW_1 then fmt_fixed 1 n 1
  else if n <? POW_2 then fmt_fixed 2 n POW_1 ++ text "k"
  else if n <? POW_3 then fmt_fixed 2 n POW_2 ++ text "M"
  else if n <? POW_4 then fmt_fixed 2 n POW_3 ++ text "G"
  else fmt_fixed 3 n POW_4 ++ text "T".

(** ** Time *)

Record timeval : Type := mkTimeval { tv_sec : Z; tv_usec : Z }.

Definition timeval_msdelta (x y : timeval) : Z :=
  (tv_sec x - tv_sec y) * 1000 + Z.quot (tv_usec x - tv_usec y) 1000.
Definition timeval_msdelta_now (now x : timeval) : Z := timeval_msdelta now x.

(** A field of the uptime: the number and its letter. *)
Definition field (v : Z) (unit_ : string) : bytes := decimal v ++ text unit_.

(** [(int)diff] of an uptime past 2^31 seconds is undefined. *)
Definition uptime_string (diff : Z) : option bytes :=
  if diff <? 60 then Some (field diff "s")
  else if diff <? 3600 then Some (field (diff / 60) "m " ++ field (diff mod 60) "s")
  else if diff <? 86400 then
    Some (field (diff / 3600) "h " ++ field (diff mod 3600 / 60) "m " ++ field (diff mod 60) "s")
  else if 2 ^ 31 <=? diff then None
  else
    let hourRemainder := (diff - 86400) mod 3600 in
    let rest days daysRemainder :=
      field days "d " ++ field (daysRemainder / 3600) "h " ++
      field (hourRemainder / 60) "m " ++ field (diff mod 60) "s" in
    if diff <? 31536000 then Some (rest (diff / 86400) (diff mod 86400))
    else Some (field (diff / 31536000) "y " ++ rest (diff mod 31536000 / 86400) (diff mod 86400)).

(** The counters a caller passes by address. *)
Record time_counter : Type := mkTimeCounter { last_time : Z; prev_counter : Z; curr_counter : Z }.

Definition time_update_counter_sec (now : Z) (c : time_counter) (seconds increment : Z) : Z * time_counter :=
  let c :=
    if seconds <? now - last_time c then mkTimeCounter now (curr_counter c) (u64 increment)
    else mkTimeCounter (last_time c) (prev_counter c) (u64 (curr_counter c + increment)) in
  (prev_counter c, c).
Definition time_get_counter_sec (now last counter seconds : Z) : Z :=
  if seconds <? now - last then 0 else counter.
