(* ===== verification/TextProps.v ===== *)
(** What the text and time helpers promise: splitting undoes joining, a version check is a
    lexicographic comparison, escaped text decodes and printable text holds no directive,
    the formatting helpers are exact up to their limits, and where they are not. *)
From S2P Require Import Text.

(** ** Splitting and joining *)

Lemma split_loop_token d t str tok :
  d ∉ t -> split_loop d (t ++ str) tok = split_loop d str (tok ++ t).
Proof.
  revert tok. induction t as [|c t IH]; intros tok Hd; cbn [app split_loop].
  - by rewrite app_nil_r.
  - apply not_elem_of_cons in Hd as [Hc Ht].
    destruct (Z.eqb_spec c d); [congruence|]. rewrite IH by done. by rewrite <- app_assoc.
Qed.

Lemma split_loop_end d t tok : d ∉ t -> tok ++ t <> [] -> split_loop d t tok = [tok ++ t].
Proof.
  intros Hd Hne. rewrite <- (app_nil_r t) at 1. rewrite split_loop_token by done. cbn.
  by destruct (tok ++ t).
Qed.

(** A token that reaches the end of the text. *)
Lemma split_loop_csv d l t :
  Forall (fun x => d ∉ x) (t :: l) -> List.last (t :: l) [] <> [] -> split_loop d (string_csv (t :: l) d) [] = t :: l.
Proof.
  revert t. induction l as [|u l IH]; intros t HF Hl; apply Forall_cons in HF as [Ht HF].
  - cbn in *. apply split_loop_end; done.
  - change (string_csv (t :: u :: l) d) with (t ++ [d] ++ string_csv (u :: l) d).
    rewrite split_loop_token by done. cbn [app split_loop]. rewrite Z.eqb_refl.
    f_equal. by apply IH.
Qed.

Lemma split_loop_join d s tok :
  List.last s (d - 1) <> d -> (s = [] -> tok <> []) -> string_csv (split_loop d s tok) d = tok ++ s.
Proof.
  revert tok. induction s as [|c s IH]; intros tok Hl Hne; cbn [split_loop].
  - destruct tok; [by destruct Hne|]. by rewrite app_nil_r.
  - assert (s = [] \/ s <> []) as [->|Hs] by (destruct s; [by left|by right]).
    + cbn in Hl. destruct (Z.eqb_spec c d); [done|]. cbn. destruct (tok ++ [c]) eqn:E; [by destruct tok|].
      done.
    + assert (List.last s (d - 1) <> d) as Hl' by (destruct s; [done|exact Hl]).
      destruct (Z.eqb_spec c d) as [->|Hc].
      * pose proof (IH [] Hl' ltac:(done)) as E.
        destruct (split_loop d s []) as [|x r] eqn:Er.
        { cbn in E. by destruct s. }
        change (string_csv (tok :: x :: r) d) with (tok ++ [d] ++ string_csv (x :: r) d). by rewrite E.
      * rewrite IH by (try done; intros _; by destruct tok). by rewrite <- app_assoc.
Qed.

Lemma split_csv_tokens d l : Forall (fun x => d ∉ x) l -> List.last l [0] <> [] -> string_split (string_csv l d) d = l.
Proof.
  intros HF Hl. destruct l as [|t l]; [done|]. apply split_loop_csv; [done|].
  clear HF. revert t Hl. induction l as [|u l IH]; [done|]. intros t Hl. apply (IH u Hl).
Qed.

(** [string_split] undoes [string_csv] on any list of tokens that do not hold the
    delimiter, provided the last one is not empty, and [string_csv] undoes [string_split]
    on any text that does not end with the delimiter. *)
Theorem split_csv_roundtrip d l s :
  Forall (fun x => d ∉ x) l -> List.last l [0] <> [] -> List.last s (d - 1) <> d ->
  string_split (string_csv l d) d = l /\ string_csv (string_split s d) d = s.
Proof.
  intros HF Hl Hs. split; [by apply split_csv_tokens|]. unfold string_split.
  - destruct s as [|c s]; [done|]. rewrite split_loop_join; [done|exact Hs|done].
Qed.

Lemma split_csv_roundtrip_witness :
  string_split (string_csv [text "a.example"; []; text "b"] 44) 44 = [text "a.example"; []; text "b"] /\
  string_csv (string_split (text ",x,,y") 44) 44 = text ",x,,y".
Proof.
  apply (split_csv_roundtrip 44 [text "a.example"; []; text "b"] (text ",x,,y")).
  - compute_done.
  - vm_compute. discriminate.
  - vm_compute. discriminate.
Defined.

(** An empty last token is lost: a text that ends with the delimiter splits as if it did not. *)
Theorem split_drops_last_empty d l :
  Forall (fun x => d ∉ x) l -> List.last l [0] <> [] -> l <> [] ->
  string_split (string_csv (l ++ [[]]) d) d = l.
Proof.
  intros HF Hl Hne. unfold string_split.
  destruct l as [|t l]; [done|]. clear Hne Hl.
  revert t HF. induction l as [|u l IH]; intros t HF; apply Forall_cons in HF as [Ht HF].
  - cbn [app string_csv]. rewrite split_loop_token by done. cbn. by rewrite Z.eqb_refl.
  - change (string_csv ((t :: u :: l) ++ [[]]) d) with (t ++ [d] ++ string_csv ((u :: l) ++ [[]]) d).
    rewrite split_loop_token by done. cbn [app split_loop]. rewrite Z.eqb_refl. f_equal. by apply IH.
Qed.

(** ** Versions *)

(** The order of versions: by the first level where they differ. *)
Fixpoint levels_ge (r t : list Z) : bool :=
  match r, t with
  | x :: r, y :: t => (y <? x) || ((x =? y) && levels_ge r t)
  | _, _ => true
  end.

Definition level (s : bytes) (v : Z) : Prop := stoi s = inr v.

(** On versions whose levels are numbers of an [int], [version_check] answers whether
    the real version is not below the target in the order of their levels, over the
    levels both have; a level that is not a number passes the check whatever follows,
    and one that does not fit an [int] makes it throw. *)
Theorem version_check_exact r t rv tv real v :
  string_split real 46 = r -> string_split v 46 = t ->
  (Forall2 level r rv -> Forall2 level t tv -> version_check real v = inr (levels_ge rv tv)) /\
  (forall x r' y t', r = x :: r' -> t = y :: t' ->
     (stoi x = inl invalid_argument -> version_check real v = inr true) /\
     (stoi x = inl out_of_range -> version_check real v = inl out_of_range)).
Proof.
  intros Hr Ht. unfold version_check. rewrite Hr, Ht. split.
  - clear Hr Ht. intros Hr. revert t tv. induction Hr as [|x a r rv Hx Hr IH]; intros t tv Ht; [done|].
    destruct Ht as [|y b t tv Hy Ht]; [done|]. cbn [version_loop levels_ge].
    rewrite Hx, Hy, (IH _ _ Ht). destruct (Z.ltb_spec a b), (Z.ltb_spec b a), (Z.eqb_spec a b); try lia; done.
  - intros x r' y t' -> ->. cbn [version_loop]. split; intros ->; done.
Qed.

Lemma version_check_exact_witness :
  version_check (text "5.10.0") (text "5.4") = inr true.
Proof.
  apply (proj1 (version_check_exact [text "5"; text "10"; text "0"] [text "5"; text "4"] [5; 10; 0] [5; 4]
           (text "5.10.0") (text "5.4") ltac:(vm_compute; reflexivity) ltac:(vm_compute; reflexivity)));
    repeat constructor.
Defined.

(** ** [string_printf] and printable text *)

(** The placeholders of a format: a percent sign and the character after it, unless that
    is another one. *)
Fixpoint placeholders (fmt : bytes) : Z :=
  match fmt with
  | [] => 0
  | c :: fmt =>
      if negb (c =? 37) then placeholders fmt
      else match fmt with
           | [] => 0
           | d :: fmt => (if d =? 37 then 0 else 1) + placeholders fmt
           end
  end.

(** Induction on a format as both functions read it. *)
Lemma fmt_ind (P : bytes -> Prop) :
  P [] -> (forall c f, c <> 37 -> P f -> P (c :: f)) -> P [37] ->
  (forall d f, P f -> P (37 :: d :: f)) -> forall f, P f.
Proof.
  intros H0 H1 H2 H3 f. remember (length f) as n eqn:E. assert (length f <= n)%nat as Hn by lia. clear E.
  revert f Hn. induction n as [|n IH]; intros [|c f] Hn; cbn in Hn; try lia; [done..|].
  destruct (decide (c = 37)) as [->|Hc]; [|apply H1; [done|]; apply IH; lia].
  destruct f as [|d f]; [done|]. apply H3, IH. cbn in Hn. lia.
Qed.

Lemma printFmt_count fmt :
  let '(_, r, k) := printFmt fmt in
  placeholders fmt = k + placeholders r /\ (k = 0 \/ k = 1) /\ (k = 0 -> r = []).
Proof.
  induction fmt as [|c f Hc IH| |d f IH] using fmt_ind; [cbn; auto| |cbn; auto|].
  - cbn [printFmt placeholders]. rewrite (proj2 (Z.eqb_neq c 37)) by done. cbn [negb].
    by destruct (printFmt f) as [[o r] k].
  - cbn [printFmt placeholders negb Z.eqb Pos.eqb]. destruct (Z.eqb_spec d 37) as [->|Hd]; [|lia].
    by destruct (printFmt f) as [[o r] k].
Qed.

Lemma placeholders_nonneg fmt : 0 <= placeholders fmt.
Proof.
  induction fmt as [|c f Hc IH| |d f IH] using fmt_ind; cbn [placeholders]; try done.
  - rewrite (proj2 (Z.eqb_neq c 37)) by done. done.
  - cbn [negb Z.eqb Pos.eqb]. destruct (d =? 37); lia.
Qed.

(** The count of placeholders [string_printf] compares with its arguments. *)
Lemma printf_count args : forall fmt,
  snd (printf_args fmt args) = Z.min (placeholders fmt) (zlen args + 1).
Proof.
  induction args as [|a args IH]; intros fmt; cbn [printf_args];
    pose proof (printFmt_count fmt) as Hc; destruct (printFmt fmt) as [[o r] k];
    destruct Hc as (Hc & Hk & Hr); pose proof (placeholders_nonneg r).
  - cbn [snd]. rewrite zlen_nil. destruct Hk as [->| ->]; [rewrite (Hr eq_refl) in *; cbn in *|]; lia.
  - specialize (IH r). destruct (printf_args r args) as [o' n']. cbn [snd] in *.
    pose proof (zlen_nonneg args). rewrite zlen_cons.
    destruct Hk as [->| ->]; [rewrite (Hr eq_refl) in *; cbn in *|]; lia.
Qed.

(** [string_printf] succeeds exactly when the format holds as many placeholders as there
    are arguments; otherwise it throws, and nothing is printed. *)
Theorem printf_exact fmt args :
  (exists out, string_printf fmt args = inr out) <-> placeholders fmt = zlen args.
Proof.
  unfold string_printf. pose proof (printf_count args fmt) as Hc.
  destruct (printf_args fmt args) as [out n]. cbn [snd] in Hc.
  destruct (Z.eqb_spec n (zlen args)); split; try lia; [eauto|by intros [? ?]].
Qed.

(** What is left of a character in printable text. *)
Definition shown (c : Z) : bytes := if c =? 37 then [37] else escape_char true false c.

Lemma escape_char_no_percent c : c <> 37 -> 37 ∉ escape_char true false c.
Proof.
  intros Hc. unfold escape_char. case_if; [rewrite list_elem_of_singleton; congruence|].
  destruct c as [|p|p]; try apply not_elem_of_nil.
  repeat (destruct p; try apply not_elem_of_nil); try done;
    lazymatch goal with |- 37 ∉ ?l => let v := eval vm_compute in l in change (37 ∉ v) end;
    rewrite !not_elem_of_cons; repeat split; try lia; apply not_elem_of_nil.
Qed.

Lemma printFmt_literal t f :
  37 ∉ t -> printFmt (t ++ f) = (let '(o, r, k) := printFmt f in (t ++ o, r, k)).
Proof.
  induction t as [|c t IH]; intros Ht; [cbn [app]; by destruct (printFmt f) as [[??]?]|].
  apply not_elem_of_cons in Ht as [Hc Ht]. cbn [app printFmt].
  rewrite (proj2 (Z.eqb_neq c 37)) by done. cbn [negb]. rewrite (IH Ht).
  by destruct (printFmt f) as [[??]?].
Qed.

(** Text that went through [printable] holds no directive: used as a format it takes no
    argument, never throws, and prints each character as [printable] shows it, a percent
    sign once. *)
Theorem printable_is_literal s :
  placeholders (printable s) = 0 /\ string_printf (printable s) [] = inr (s ≫= shown).
Proof.
  assert (printFmt (printable s) = (s ≫= shown, [], 0)) as E.
  { induction s as [|c s IH]; [done|].
    change (printable (c :: s)) with (escape_char true false c ++ printable s).
    rewrite bind_cons. unfold shown at 1. destruct (Z.eqb_spec c 37) as [->|Hc].
    - change (escape_char true false 37) with [37; 37]. cbn [app printFmt]. by rewrite IH.
    - rewrite printFmt_literal by by apply escape_char_no_percent. by rewrite IH. }
  pose proof (printFmt_count (printable s)) as Hc. unfold string_printf. cbn [printf_args].
  rewrite E in *. cbn in *. split; [lia|done].
Qed.

(** ** Properties decided by looking at every character *)

Lemma range_check (P : Z -> bool) n : forallb P (seqZ 0 n) = true -> forall c, 0 <= c < n -> P c = true.
Proof.
  intros HP c Hc. rewrite forallb_forall in HP. apply HP.
  apply list_elem_of_In, elem_of_seqZ. lia.
Qed.

(** ** Digits *)

Definition undigit (c : Z) : Z := if c <? 58 then c - 48 else if c <? 71 then c - 55 else c - 87.

Definition from_digits (b : Z) (s : bytes) : Z := foldl (fun acc c => b * acc + undigit c) 0 s.

Lemma undigit_digit up v : 0 <= v < 16 -> undigit (digit up v) = v.
Proof.
  intros Hv. apply Z.eqb_eq.
  apply (range_check (fun v => undigit (digit up v) =? v) 16); [by destruct up|done].
Qed.

(** Digits read back give the number, in any base up to 16. *)
Lemma from_digits_digits n up b x :
  2 <= b <= 16 -> 0 <= x < b ^ Z.of_nat n -> from_digits b (digits n up b x) = x.
Proof.
  intros Hb. revert x. induction n as [|n IH]; intros x Hx; [cbn in *; lia|].
  cbn [digits]. destruct (Z.ltb_spec x b).
  - cbn. rewrite undigit_digit by lia. lia.
  - unfold from_digits. rewrite foldl_app. fold (from_digits b (digits n up b (x / b))).
    rewrite IH.
    + cbn. rewrite undigit_digit by (pose proof (Z.mod_pos_bound x b); lia).
      pose proof (Z.div_mod x b). lia.
    + replace (Z.of_nat (S n)) with (Z.of_nat n + 1) in Hx by lia. rewrite Z.pow_add_r in Hx by lia.
      split; [apply Z.div_pos; lia|]. apply Z.div_lt_upper_bound; lia.
Qed.

Lemma digits_are_digits n x : Forall (fun c => isdigit c = true) (digits n false 10 x) \/ x < 0.
Proof.
  destruct (Z.lt_ge_cases x 0) as [|Hx]; [by right|left]. revert x Hx.
  induction n as [|n IH]; intros x Hx; [constructor|]. cbn [digits].
  assert (forall v, 0 <= v < 10 -> isdigit (digit false v) = true) as Hd by by apply range_check.
  destruct (Z.ltb_spec x 10); [repeat constructor; apply Hd; lia|].
  apply Forall_app. split; [apply IH, Z.div_pos; lia|].
  repeat constructor. apply Hd, Z.mod_pos_bound. lia.
Qed.

Lemma digits_value_foldl s acc :
  Forall (fun c => isdigit c = true) s ->
  digits_value s acc = foldl (fun acc c => 10 * acc + undigit c) acc s.
Proof.
  revert acc. induction s as [|c s IH]; intros acc Hs; [done|]. apply Forall_cons in Hs as [Hc Hs].
  cbn. rewrite Hc, IH by done. f_equal. unfold undigit, isdigit in *. reflect_bools. case_if; reflect_bools; lia.
Qed.

Lemma isdigit_inv c : isdigit c = true -> 48 <= c <= 57 /\ isspace c = false.
Proof.
  unfold isdigit. intros H. reflect_bools. split; [lia|]. unfold isspace.
  rewrite (proj2 (Z.eqb_neq c 32)), (proj2 (Z.leb_gt c 13)) by lia. apply andb_false_r.
Qed.

Lemma strto_digits c s : Forall (fun c => isdigit c = true) (c :: s) ->
  strto (c :: s) = Some (false, digits_value (c :: s) 0).
Proof.
  intros Hd. apply Forall_cons in Hd as [Hc _]. unfold strto. cbn [skip_space].
  destruct (isdigit_inv c Hc) as [Hr ->].
  assert (match c :: s with 45 :: s => (true, s) | 43 :: s => (false, s) | _ => (false, c :: s) end
          = (false, c :: s)) as ->; [|by rewrite Hc].
  destruct c as [|p|p]; try done. repeat (destruct p; try done); lia.
Qed.

Lemma digits_nonempty n up b x : (0 < n)%nat -> digits n up b x <> [].
Proof. intros Hn. destruct n; [lia|]. cbn [digits]. case_if; [done|]. by destruct (digits n up b (x / b)). Qed.

Lemma strto_decimal x : 0 <= x < 2 ^ 64 -> strto (decimal x) = Some (false, x).
Proof.
  intros Hx. unfold decimal. destruct (digits_are_digits 20 x) as [Hd|]; [|lia].
  destruct (digits 20 false 10 x) as [|c s] eqn:Es; [by apply digits_nonempty in Es; lia|].
  rewrite strto_digits by done. do 2 f_equal. rewrite digits_value_foldl by done. rewrite <- Es.
  apply (from_digits_digits 20 false 10 x); lia.
Qed.

(** A number printed in decimal reads back as itself: [stoi], [stoll] and [stoull]
    undo the printing of every number of their type that is not negative. *)
Theorem decimal_roundtrip x :
  (0 <= x < 2 ^ 31 -> forall d, safe_val (decimal x) d = x) /\
  (0 <= x < 2 ^ 63 -> safe_ll_value (decimal x) = Some x) /\
  (0 <= x < 2 ^ 64 -> safe_ull_value (decimal x) = Some x).
Proof.
  unfold safe_val, stoi, safe_ll_value, stoll, safe_ull_value, stoull, signed_value.
  split_and!; intros Hx; rewrite strto_decimal by lia.
  - intros d. rewrite (proj2 (Z.leb_le _ _)), (proj2 (Z.leb_le _ _)) by lia. done.
  - rewrite (proj2 (Z.leb_le _ _)), (proj2 (Z.leb_le _ _)) by lia. done.
  - by rewrite (proj2 (Z.ltb_lt _ _)) by lia.
Qed.

(** ** [hex_print] *)

Fixpoint unhex (s : bytes) : bytes :=
  match s with
  | a :: b :: s => (16 * undigit a + undigit b) :: unhex s
  | _ => []
  end.

Lemma unhex_byte c rest : is_byte c -> unhex (fmt_02X c ++ rest) = c :: unhex rest.
Proof.
  intros Hc. assert (exists a b, fmt_02X c = [a; b] /\ 16 * undigit a + undigit b = c) as (a & b & -> & <-); [|done].
  pose proof (range_check (fun c => match fmt_02X c with [a; b] => 16 * undigit a + undigit b =? c | _ => false end)
                256 ltac:(vm_compute; reflexivity) c Hc) as E.
  cbv beta in E.
  destruct (fmt_02X c) as [|a [|b [|]]]; try done. apply Z.eqb_eq in E. eauto.
Qed.

(** [hex_print] loses nothing: two digits per byte that read back as the byte, so the
    keys made with it (session identifiers, serial numbers) are equal only for equal data. *)
Theorem hex_print_roundtrip d :
  all_bytes d -> unhex (hex_print d) = d /\ zlen (hex_print d) = 2 * zlen d.
Proof.
  unfold hex_print. induction 1 as [|c d Hc Hd [IH IHl]]; [done|]. rewrite bind_cons.
  split; [by rewrite unhex_byte, IH|]. rewrite zlen_app, IHl, zlen_cons.
  assert (zlen (fmt_02X c) = 2); [|lia]. apply Z.eqb_eq.
  apply (range_check (fun c => zlen (fmt_02X c) =? 2) 256); [vm_compute; reflexivity|done].
Qed.

Lemma hex_print_roundtrip_witness : unhex (hex_print [0; 175; 255]) = [0; 175; 255].
Proof. apply (proj1 (hex_print_roundtrip [0; 175; 255] ltac:(repeat constructor; lia))). Defined.

(** ** [escape] *)

(** The letter of a C escape sequence. *)
Definition letter (d : Z) : Z :=
  match d with
  | 97 => 7 | 98 => 8 | 102 => 12 | 110 => 10 | 114 => 13 | 116 => 9 | 118 => 11 | _ => d
  end.

(** How C reads an escaped text. *)
Fixpoint unescape (s : bytes) : bytes :=
  match s with
  | [] => []
  | c :: s1 =>
      if negb (c =? 92) then c :: unescape s1
      else match s1 with
           | [] => []
           | d :: s2 =>
               if isdigit d then
                 match s2 with
                 | e :: f :: s3 => (64 * (d - 48) + 8 * (e - 48) + (f - 48)) :: unescape s3
                 | _ => []
                 end
               else letter d :: unescape s2
           end
  end.

(** One escaped character, in one of its three shapes. *)
Definition escaped_as (c : Z) (s : bytes) : bool :=
  match s with
  | [] => c =? 37
  | [x] => (x =? c) && negb (x =? 92)
  | [x; d] => (x =? 92) && negb (isdigit d) && (letter d =? c)
  | [x; d; e; f] => (x =? 92) && isdigit d && (64 * (d - 48) + 8 * (e - 48) + (f - 48) =? c)
  | _ => false
  end.

Lemma escaped_as_decodes c s rest : escaped_as c s = true -> c <> 37 -> unescape (s ++ rest) = c :: unescape rest.
Proof.
  intros He Hc. destruct s as [|x [|d [|e [|f [|]]]]]; cbn in He; try done; [by apply Z.eqb_eq in He|..].
  - apply andb_prop in He as [->%Z.eqb_eq Hx]. cbn. by rewrite Hx.
  - apply andb_prop in He as [[->%Z.eqb_eq Hd%negb_true_iff]%andb_prop <-%Z.eqb_eq]. cbn. by rewrite Hd.
  - apply andb_prop in He as [[->%Z.eqb_eq Hd]%andb_prop <-%Z.eqb_eq]. cbn. by rewrite Hd.
Qed.

(** Escaped text decodes, as a C string literal, to the original without its percent
    signs: [escape] drops those, where its comment promises to keep them, and loses nothing
    else of 7-bit text, with or without escaped spaces. *)
Theorem escape_decodes s sp :
  Forall (fun c => 0 <= c < 128) s -> unescape (escape s false sp) = filter (fun c => c <> 37) s.
Proof.
  induction 1 as [|c s Hc Hs IH]; [done|].
  change (escape (c :: s) false sp) with (escape_char false sp c ++ escape s false sp).
  pose proof (range_check (fun c => escaped_as c (escape_char false sp c)) 128
                ltac:(destruct sp; vm_compute; reflexivity) c Hc) as He.
  rewrite filter_cons. destruct (decide (c = 37)) as [->|Hn].
  - rewrite decide_False by (intros Hx; by apply Hx). done.
  - rewrite decide_True by done. rewrite (escaped_as_decodes _ _ _ He Hn). by rewrite IH.
Qed.

Lemma escape_decodes_witness : unescape (escape (text "50% \o/") false true) = text "50 \o/".
Proof. apply (escape_decodes (text "50% \o/") true). compute_done. Defined.

(** A byte above 127 is printed as the negative number its [char] is. *)
Theorem escape_sign_extends : escape [200] false false = text "\37777777710".
Proof. vm_compute. reflexivity. Qed.

(** The flag for printing changes nothing of [chr_cstrlit]: a percent sign is printable. *)
Theorem cstrlit_flag_is_dead u n b : chr_cstrlit u n b = chr_cstrlit u n false.
Proof.
  unfold chr_cstrlit. destruct (Z.eqb_spec u 37) as [->|Hu]; [vm_compute isprint; repeat case_if; done|].
  destruct b; [|done]. repeat case_if; try done; destruct u as [|p|p]; try done; repeat (destruct p; try done).
Qed.

(** ** [string_format] *)

Lemma format_loop_all fuel alloc failed r mul :
  (forall c, alloc c = true) -> 1 <= mul -> mul + Z.of_nat fuel = 21 -> mul <= 20 ->
  format_loop fuel alloc failed r mul =
    (if zlen r <? 10240 then Ret r tt
     else if zlen r =? 10240 then Ret (ztake (zlen r - 1) r ++ [0]) tt else Undef).
Proof.
  intros Ha. revert mul. induction fuel as [|fuel IH]; intros mul H1 Hf H2; [lia|].
  cbn [format_loop]. rewrite Ha. cbn [negb]. unfold take_out.
  destruct (Z.leb_spec (512 * mul) (zlen r)), (Z.leb_spec (mul + 1) 20); cbn [andb].
  - apply IH; lia.
  - assert (mul = 20) as -> by lia. change (512 * 20) with 10240 in *.
    rewrite (proj2 (Z.ltb_ge (zlen r) 10240)) by lia. rewrite (Z.eqb_sym (zlen r)).
    destruct (Z.ltb_spec 10240 (zlen r)), (Z.eqb_spec 10240 (zlen r)); try lia; done.
  - rewrite (proj2 (Z.ltb_ge _ _)), (proj2 (Z.eqb_neq _ _)), (proj2 (Z.ltb_lt _ _)) by lia. done.
  - rewrite (proj2 (Z.ltb_ge _ _)), (proj2 (Z.eqb_neq _ _)), (proj2 (Z.ltb_lt _ _)) by lia. done.
Qed.

(** With memory to be had [string_format] always ends; the result is the whole rendering
    exactly when that has fewer than 10240 bytes.  At 10240 the last byte is replaced by
    the terminator, and past that as many bytes as the rendering has are read from a buffer
    of 10240. *)
Theorem string_format_limit alloc r :
  (forall c, alloc c = true) ->
  (zlen r < 10240 -> string_format alloc r = Ret r tt) /\
  (zlen r = 10240 -> string_format alloc r = Ret (ztake 10239 r ++ [0]) tt) /\
  (10240 < zlen r -> string_format alloc r = Undef).
Proof.
  intros Ha. unfold string_format. rewrite format_loop_all by (try done; lia).
  split_and!; intros Hr.
  - by rewrite (proj2 (Z.ltb_lt _ _)).
  - rewrite Hr. done.
  - rewrite (proj2 (Z.ltb_ge _ _)), (proj2 (Z.eqb_neq _ _)) by lia. done.
Qed.

Lemma string_format_limit_witness :
  string_format (fun _ => true) (text "10.0.0.1") = Ret (text "10.0.0.1") tt.
Proof. apply (proj1 (string_format_limit (fun _ => true) (text "10.0.0.1") ltac:(done)) ltac:(vm_compute; reflexivity)). Defined.

Lemma format_loop_step fuel alloc failed r mul :
  format_loop (S fuel) alloc failed r mul =
  (if negb (alloc (512 * mul)) then failed (512 * mul - 512)
   else if (512 * mul <=? zlen r) && (mul + 1 <=? 20) then format_loop fuel alloc failed r (mul + 1)
   else take_out (512 * mul) r).
Proof. done. Qed.

(** When a later allocation fails, [mp::string_format] reads past the buffer it has. *)
Theorem mp_string_format_overreads r :
  512 < zlen r -> mp_string_format (fun c => c <=? 512) r = Undef.
Proof.
  intros Hr. unfold mp_string_format. rewrite format_loop_step.
  change (512 * 1) with 512. change (negb (512 <=? 512)) with false. cbv iota.
  rewrite (proj2 (Z.leb_le _ _)) by lia. change (true && (1 + 1 <=? 20)) with true. cbv iota.
  rewrite format_loop_step. change (negb (512 * (1 + 1) <=? 512)) with true. cbv iota beta.
  change (512 * (1 + 1) - 512) with 512. change (512 =? 0) with false. unfold take_out.
  by rewrite (proj2 (Z.ltb_lt _ _)).
Qed.

(** ** Blanks and shortening *)

(** A text without its leading blanks. *)
Fixpoint drop_blanks (s : bytes) : bytes :=
  match s with
  | c :: s' => if isspace c then drop_blanks s' else s
  | [] => []
  end.

Lemma trim_loop_kept s ret_ n : 0 <= n ->
  let '(r, k) := trim_loop s ret_ false n in r = ret_ ++ s /\ 0 <= k <= n + zlen s.
Proof.
  revert ret_ n. induction s as [|c s IH]; intros ret_ n Hn; cbn [trim_loop].
  - split; [by rewrite (app_nil_r ret_)|]. pose proof (zlen_nonneg (@nil Z)). lia.
  - rewrite andb_false_r. rewrite zlen_cons. pose proof (zlen_nonneg s).
    specialize (IH (ret_ ++ [c]) (if isspace c then n + 1 else 0) ltac:(case_if; lia)).
    destruct (trim_loop _ _ _ _) as [r k]. destruct IH as [-> Hk]. split; [by rewrite <- app_assoc|].
    case_if_in Hk; lia.
Qed.

Lemma trim_loop_leading s n : 0 <= n ->
  let '(r, k) := trim_loop s [] true n in r = drop_blanks s /\ 0 <= k <= n + zlen s.
Proof.
  revert n. induction s as [|c s IH]; intros n Hn; cbn [trim_loop drop_blanks].
  - split; [done|]. pose proof (zlen_nonneg (@nil Z)). lia.
  - rewrite zlen_cons. pose proof (zlen_nonneg s). destruct (isspace c); cbn [andb].
    + specialize (IH (n + 1) ltac:(lia)). destruct (trim_loop _ _ _ _) as [r k]. split; [tauto|lia].
    + pose proof (trim_loop_kept s [c] 0 ltac:(lia)) as Hk. cbn [app] in *.
      destruct (trim_loop _ _ _ _) as [r k]. destruct Hk as [-> Hk]. split; [done|lia].
Qed.

(** [string_trim] drops the leading blanks and nothing else: the count of trailing
    ones is negated before it becomes the length to keep, which is then more than the
    text has. *)
Theorem trim_keeps_trailing s : zlen s < 2 ^ 62 -> string_trim s = inr (drop_blanks s).
Proof.
  intros Hs. unfold string_trim. pose proof (trim_loop_leading s 0 ltac:(lia)) as Ht.
  assert (zlen (drop_blanks s) <= zlen s) as Hl.
  { clear. induction s as [|c s IH]; [done|]. cbn. rewrite zlen_cons. case_if; [lia|]. rewrite zlen_cons. lia. }
  destruct (trim_loop s [] true 0) as [r k]. destruct Ht as [-> Hk]. pose proof (zlen_nonneg (drop_blanks s)).
  destruct (Z.ltb_spec 0 k); [|done]. unfold substr.
  rewrite (proj2 (Z.ltb_ge _ _)) by lia. f_equal.
  change (zdrop 0 (drop_blanks s)) with (drop_blanks s).
  apply ztake_ge. unfold wrapu. rewrite Z.mod_opp_l_nz; rewrite ?Z.mod_small; lia.
Qed.

Lemma trim_keeps_trailing_witness : string_trim (text "  a.example  ") = inr (text "a.example  ").
Proof. apply (trim_keeps_trailing (text "  a.example  ") ltac:(vm_compute; reflexivity)). Defined.

(** [string_shorten]: three characters, dots and three characters whatever was asked for, so
    the result can be longer than the limit, and a text of one or two characters throws. *)
Theorem shorten_exact s n :
  0 <= n -> zlen s < 2 ^ 32 ->
  (zlen s <= n -> string_shorten s n = inr s) /\
  (n < zlen s -> 3 <= zlen s ->
     string_shorten s n = inr (ztake 3 s ++ [46; 46; 46] ++ zdrop (zlen s - 3) s)) /\
  (n < zlen s < 3 -> string_shorten s n = inl out_of_range).
Proof.
  intros Hn Hs. unfold string_shorten, substr. pose proof (zlen_nonneg s). split_and!; intros H1; [|intros H2|].
  - by rewrite (proj2 (Z.ltb_ge _ _)).
  - rewrite (proj2 (Z.ltb_lt _ _)), (proj2 (Z.ltb_ge (zlen s) 0)) by lia.
    rewrite u64_small by lia. rewrite (proj2 (Z.ltb_ge _ _)) by lia. do 2 f_equal.
    + f_equal. lia.
    + f_equal. apply ztake_ge. rewrite zlen_zdrop by lia. lia.
  - rewrite (proj2 (Z.ltb_lt _ _)), (proj2 (Z.ltb_ge (zlen s) 0)) by lia.
    unfold wrapu. replace (zlen s - 3) with (- (3 - zlen s)) by lia.
    rewrite Z.mod_opp_l_nz; rewrite ?Z.mod_small; try lia.
    rewrite (proj2 (Z.ltb_lt _ _)) by lia. done.
Qed.

(** ** [hex_dump] *)

(** The cells of a row from column [k] on, a gap before the ninth. *)
Fixpoint cells (k : Z) (row : bytes) : bytes :=
  match row with
  | [] => []
  | c :: row => (if k =? 8 then [32; 32] else []) ++ fmt_02X c ++ [32] ++ cells (k + 1) row
  end.
Definition ascii_column (row : bytes) : bytes := [32; 32] ++ (filter_visi <$> row).

(** The reference: rows of sixteen; every row but the last ends with its ASCII column. *)
Fixpoint rows (n : nat) (o : dump_opts) (i : Z) (before data : bytes) : bytes * bytes :=
  match n, data with
  | S n, _ :: _ =>
      let row := take 16 data in
      let '(body, last_) := rows n o (i + 16) (ascii_column row) (drop 16 data) in
      (line_start o i before ++ cells 0 row ++ body, last_)
  | _, _ => ([], before)
  end.

(** The rest of a row. *)
Lemma hex_loop_row o row : forall i k data ss ascii,
  i mod 16 = k -> 0 < k -> k + zlen row <= 16 -> 0 <= i -> i + zlen row <= 1024 ->
  hex_loop o i (row ++ data) ss ascii =
  hex_loop o (i + zlen row) data (ss ++ cells k row) (ascii ++ (filter_visi <$> row)).
Proof.
  induction row as [|c row IH]; intros i k data ss ascii Hk H0 Hl Hi Hmax.
  - cbn [app cells fmap list_fmap]. rewrite !app_nil_r. f_equal. zlen_lia.
  - rewrite zlen_cons in *. pose proof (zlen_nonneg row). cbn [app hex_loop].
    assert (i mod 8 = if k =? 8 then 0 else k mod 8) as H8.
    { replace (i mod 8) with (k mod 8) by (subst k; Z.div_mod_to_equations; lia).
      by destruct (Z.eqb_spec k 8) as [->|]. }
    rewrite Hk, (proj2 (Z.eqb_neq k 0)) by lia.
    assert ((i mod 8 =? 0) = (k =? 8)) as ->.
    { rewrite H8. destruct (Z.eqb_spec k 8); [done|]. apply Z.eqb_neq. Z.div_mod_to_equations. lia. }
    unfold MAX_HEXDUMP_SIZE. rewrite (proj2 (Z.leb_gt _ _)) by lia.
    assert (row = [] \/ row <> []) as [->|Hr] by (destruct row; [by left|by right]).
    + cbn [app cells fmap list_fmap hex_loop].
      replace (i + (zlen (@nil Z) + 1)) with (i + 1) by zlen_lia.
      destruct (k =? 8); cbn [app]; by rewrite <- ?app_assoc.
    + assert ((i + 1) mod 16 = k + 1) as Hk1.
      { assert (0 < zlen row) by (destruct row; [done|]; rewrite zlen_cons; pose proof (zlen_nonneg row); lia).
        Z.div_mod_to_equations. lia. }
      replace (i + (zlen row + 1)) with (i + 1 + zlen row) by lia.
      destruct (k =? 8) eqn:E8; rewrite (IH (i + 1) (k + 1)) by lia; f_equal; cbn [cells fmap list_fmap app];
        rewrite ?E8; cbn [app]; by rewrite <- ?app_assoc.
Qed.

(** A row from its start. *)
Lemma hex_loop_line o c row i data ss ascii :
  i mod 16 = 0 -> 0 <= i -> zlen (c :: row) <= 16 -> i + zlen (c :: row) <= 1024 ->
  hex_loop o i ((c :: row) ++ data) ss ascii =
  hex_loop o (i + zlen (c :: row)) data (ss ++ line_start o i ascii ++ cells 0 (c :: row)) (ascii_column (c :: row)).
Proof.
  intros Hk Hi Hl Hmax. rewrite zlen_cons in *. pose proof (zlen_nonneg row).
  cbn [app hex_loop]. rewrite Hk. cbn [Z.eqb]. unfold MAX_HEXDUMP_SIZE.
  rewrite (proj2 (Z.leb_gt _ _)) by lia. unfold ascii_column. cbn [cells Z.eqb app fmap list_fmap].
  rewrite (hex_loop_row o row (i + 1) 1) by (try lia; Z.div_mod_to_equations; lia).
  f_equal; [lia|]. by rewrite <- !app_assoc.
Qed.

Lemma hex_loop_rows o n : forall i data ss ascii,
  i mod 16 = 0 -> 0 <= i -> (length data <= n)%nat -> i + zlen data <= 1024 ->
  hex_loop o i data ss ascii =
  (ss ++ fst (rows n o i ascii data), snd (rows n o i ascii data), i + zlen data, false).
Proof.
  induction n as [|n IH]; intros i data ss ascii Hk Hi Hn Hmax.
  - destruct data; [|cbn in Hn; lia]. cbn. rewrite app_nil_r. do 2 f_equal. zlen_lia.
  - destruct data as [|c data]; [cbn; rewrite app_nil_r; do 2 f_equal; zlen_lia|].
    set (row := take 15 data).
    change (rows (S n) o i ascii (c :: data)) with
      (let '(body, last_) := rows n o (i + 16) (ascii_column (c :: row)) (drop 15 data) in
       (line_start o i ascii ++ cells 0 (c :: row) ++ body, last_)).
    replace (c :: data) with ((c :: row) ++ drop 15 data) by (cbn; f_equal; apply take_drop).
    assert (zlen row <= 15) by (unfold row; rewrite zlen_length, length_take; lia).
    assert (zlen (c :: data) = zlen (c :: row) + zlen (drop 15 data)) as Hlen.
    { rewrite <- zlen_app. f_equal. cbn. f_equal. symmetry; apply take_drop. }
    pose proof (zlen_nonneg (drop 15 data)).
    rewrite hex_loop_line by (rewrite ?zlen_cons in *; lia).
    destruct (drop 15 data) as [|d rest] eqn:Ed.
    + destruct n; cbn; rewrite ?app_nil_r, ?zlen_app; repeat f_equal; zlen_lia.
    + assert (zlen (c :: row) = 16) as H16.
      { rewrite zlen_length. cbn. unfold row. rewrite length_take.
        pose proof (length_drop data 15) as Hd. rewrite Ed in Hd. cbn in Hd. lia. }
      rewrite H16 in *. rewrite IH; [| |lia| |].
      * destruct (rows n o (i + 16) (ascii_column (c :: row)) (d :: rest)) as [body last_].
        cbn [fst snd]. rewrite zlen_app, H16. rewrite <- !app_assoc. do 2 f_equal. lia.
      * Z.div_mod_to_equations. lia.
      * pose proof (length_drop data 15) as Hd. rewrite Ed in Hd. cbn in *. lia.
      * lia.
Qed.

(** A dump of at most 1024 bytes is its rows of sixteen, each its address, its cells and
    the ASCII column; after the last row as many blank cells as are missing, and its ASCII
    column: but a last row that is complete is followed by sixteen blank cells and no
    column. *)
Theorem hex_dump_is_rows o data :
  zlen data <= 1024 ->
  let '(body, last_) := rows (length data) o 0 [] data in
  let k := zlen data mod 16 in
  hex_dump o data =
    body ++ zrep (3 * (16 - k)) 32 ++
    (if k =? 0 then [] else (if k <=? 8 then [32; 32] else []) ++ last_) ++ line_cr o ++ [10].
Proof.
  intros Hl. unfold hex_dump. rewrite (hex_loop_rows o (length data)) by (done || lia).
  destruct (rows (length data) o 0 [] data) as [body last_]. cbn [fst snd app].
  rewrite Z.add_0_l. destruct (zlen data mod 16 =? 0); cbn [negb]; by rewrite <- ?app_assoc.
Qed.

(** ** Time *)

(** An uptime below 2^31 seconds is printed as years of 365 days, days, hours, minutes
    and seconds that add up to it, each below the next unit, leading units left out when
    the uptime is below them; past that bound the conversion to [int] is undefined. *)
Theorem uptime_exact u :
  0 <= u ->
  let d := u / 86400 mod 365 in let h := u / 3600 mod 24 in
  let m := u / 60 mod 60 in let s := u mod 60 in let y := u / 31536000 in
  y * 31536000 + d * 86400 + h * 3600 + m * 60 + s = u /\
  uptime_string u =
    (if u <? 60 then Some (field s "s")
     else if u <? 3600 then Some (field m "m " ++ field s "s")
     else if u <? 86400 then Some (field h "h " ++ field m "m " ++ field s "s")
     else if 2 ^ 31 <=? u then None
     else Some ((if u <? 31536000 then [] else field y "y ") ++
                field d "d " ++ field h "h " ++ field m "m " ++ field s "s")).
Proof.
  intros Hu d h m s y. split; [subst d h m s y; Z.div_mod_to_equations; lia|]. unfold uptime_string.
  destruct (Z.ltb_spec u 60); [do 2 f_equal; subst s; Z.div_mod_to_equations; lia|].
  destruct (Z.ltb_spec u 3600); [do 3 f_equal; subst m; Z.div_mod_to_equations; lia|].
  assert (u mod 3600 / 60 = m) as Em by (subst m; Z.div_mod_to_equations; lia).
  destruct (Z.ltb_spec u 86400).
  { rewrite Em. do 3 f_equal. subst h. Z.div_mod_to_equations. lia. }
  destruct (Z.leb_spec (2 ^ 31) u); [done|].
  assert ((u - 86400) mod 3600 / 60 = m) as -> by (subst m; Z.div_mod_to_equations; lia).
  assert (u mod 86400 / 3600 = h) as Eh by (subst h; Z.div_mod_to_equations; lia).
  destruct (Z.ltb_spec u 31536000).
  - rewrite Eh. cbn [app]. do 3 f_equal. subst d. Z.div_mod_to_equations. lia.
  - rewrite Eh. do 4 f_equal. subst d. Z.div_mod_to_equations. lia.
Qed.

Lemma uptime_exact_witness : uptime_string 34254061 = Some (text "1y 31d 11h 1m 1s").
Proof. rewrite (proj2 (uptime_exact 34254061 ltac:(lia))). vm_compute. reflexivity. Defined.

(** The difference of two times in milliseconds is off by less than one. *)
Theorem msdelta_close x y :
  let us t := tv_sec t * 1000000 + tv_usec t in
  Z.abs (timeval_msdelta x y * 1000 - (us x - us y)) < 1000.
Proof. cbn. unfold timeval_msdelta. Z.quot_rem_to_equations. lia. Qed.

Fixpoint counter_run (seconds : Z) (events : list (Z * Z)) (c : time_counter) : time_counter :=
  match events with
  | [] => c
  | (now, increment) :: events => counter_run seconds events (snd (time_update_counter_sec now c seconds increment))
  end.

Lemma counter_run_window seconds events c :
  Forall (fun e => fst e - last_time c <= seconds) events ->
  0 <= curr_counter c < 2 ^ 64 ->
  counter_run seconds events c =
  mkTimeCounter (last_time c) (prev_counter c) (u64 (curr_counter c + foldr (fun e n => snd e + n) 0 events)).
Proof.
  revert c. induction events as [|[now inc] events IH]; intros c HF Hc.
  - cbn. rewrite Z.add_0_r, u64_small by lia. by destruct c.
  - apply Forall_cons in HF as [He HF]. cbn [counter_run foldr snd fst] in *.
    unfold time_update_counter_sec. rewrite (proj2 (Z.ltb_ge _ _)) by (cbn in He; lia). cbn [snd].
    rewrite IH; cbn [last_time prev_counter curr_counter]; [|done|apply u64_bound].
    f_equal. unfold wrapu. rewrite Zplus_mod_idemp_l. f_equal. lia.
Qed.

(** The counter of a window: events within [seconds] of its start add up modulo 2^64, and
    the first one after it closes the window: the sum becomes the previous count, which
    is what that call returns. *)
Theorem counter_counts_window seconds events t prev now inc :
  Forall (fun e => fst e - t <= seconds) events -> seconds < now - t -> 0 <= inc < 2 ^ 64 ->
  time_update_counter_sec now (counter_run seconds events (mkTimeCounter t prev 0)) seconds inc =
  (u64 (foldr (fun e n => snd e + n) 0 events),
   mkTimeCounter now (u64 (foldr (fun e n => snd e + n) 0 events)) inc).
Proof.
  intros HF Hn Hi. rewrite counter_run_window by (done || cbn; lia). cbn [last_time prev_counter curr_counter].
  unfold time_update_counter_sec. cbn [last_time prev_counter curr_counter].
  rewrite (proj2 (Z.ltb_lt _ _)) by lia. cbn [prev_counter]. by rewrite (u64_small inc) by lia.
Qed.

(** ** [number_suffixed] *)

Lemma round_even_close num den : 0 < den -> Z.abs (2 * (round_even num den * den - num)) <= den.
Proof.
  intros Hd. unfold round_even. pose proof (Z.div_mod num den ltac:(lia)). pose proof (Z.mod_pos_bound num den Hd).
  destruct (Z.ltb_spec (2 * (num mod den)) den), (Z.ltb_spec den (2 * (num mod den))), (Z.even (num / den)); nia.
Qed.

(** The unit a number is printed in and its decimals. *)
Definition suffix_unit (n : Z) : Z * Z * string :=
  if n <? POW_1 then (1, 1, EmptyString) else if n <? POW_2 then (2, POW_1, "k") else if n <? POW_3 then (2, POW_2, "M")
  else if n <? POW_4 then (2, POW_3, "G") else (3, POW_4, "T").

(** A number below 2^53 is printed with the suffix of the largest unit it reaches, and the
    decimals are those of the nearest multiple: off by at most half of the last digit. *)
Theorem number_suffixed_close n :
  0 <= n < 2 ^ 53 ->
  let '(p, unit_, suffix) := suffix_unit n in
  exists v, number_suffixed n = decimal (v / 10 ^ p) ++ [46] ++ pad0 p (decimal (v mod 10 ^ p)) ++ text suffix /\
    Z.abs (2 * (v * unit_ - n * 10 ^ p)) <= unit_.
Proof.
  intros Hn. assert (to_double n = n) as E.
  { unfold to_double. destruct (Z.leb_spec (Z.log2 n - 52) 0) as [|Hl]; [done|]. exfalso.
    assert (Z.log2 n < 53); [|lia]. destruct (Z.eq_dec n 0) as [->|]; [cbn in *; lia|].
    apply Z.log2_lt_pow2; lia. }
  unfold number_suffixed, suffix_unit. rewrite E. unfold fmt_fixed.
  repeat case_if; eexists; (split; [by rewrite <- ?app_assoc, ?app_nil_r|apply round_even_close; done]).
Qed.
