(* ===== verification/Memory.v ===== *)
(** * Memory: the byte-addressed store and the heap allocator

    The store maps addresses to bytes; an address never written reads as 0 (its
    value is indeterminate in C++, and no theorem depends on it).  The heap is the
    finite map from the base address of every live block to its size.  Where
    [new] and [malloc] place a block, and whether they have memory for it, is not the
    repository's code: it is the parameter [Allocator], whose only law is that a new block
    does not overlap a live one. *)

From S2P Require Export Effects.

Abbreviation mem := (gmap Z Z).
Abbreviation live := (gmap Z Z).

(** ** Reading and writing byte ranges *)

Definition rd (m : mem) (a : Z) : Z := default 0 (m !! a).

Fixpoint wr (m : mem) (a : Z) (bs : bytes) : mem :=
  match bs with
  | [] => m
  | b :: r => wr (<[a := b]> m) (a + 1) r
  end.

Fixpoint ldn (m : mem) (a : Z) (n : nat) : bytes :=
  match n with
  | O => []
  | S n' => rd m a :: ldn m (a + 1) n'
  end.

(** [ld m a n]: the [n] bytes at [a]. *)
Definition ld (m : mem) (a n : Z) : bytes := ldn m a (Z.to_nat n).

(** Two ranges of addresses do not overlap. *)
Definition apart (a n b k : Z) : Prop := a + n <= b \/ b + k <= a.

Lemma apart_comm a n b k : apart a n b k -> apart b k a n.
Proof. unfold apart. lia. Qed.

Lemma length_ldn m a n : length (ldn m a n) = n.
Proof. revert a. induction n; intros; simpl; auto. Qed.

Lemma zlen_ld m a n : 0 <= n -> zlen (ld m a n) = n.
Proof.
  intros. Transparent zlen. unfold zlen, ld. rewrite length_ldn. lia. Opaque zlen.
Qed.

Lemma ld_0 m a : ld m a 0 = [].
Proof. done. Qed.

Lemma ldn_app m a n k : ldn m a (n + k) = ldn m a n ++ ldn m (a + Z.of_nat n) k.
Proof.
  revert a. induction n as [|n IH]; intros a; simpl.
  - f_equal. lia.
  - f_equal. rewrite IH. do 2 f_equal. lia.
Qed.

Lemma ld_app m a n k : 0 <= n -> 0 <= k -> ld m a (n + k) = ld m a n ++ ld m (a + n) k.
Proof.
  intros. unfold ld. rewrite Z2Nat.inj_add by lia. rewrite ldn_app.
  do 2 f_equal. lia.
Qed.

Lemma ld_take m a n k : 0 <= k <= n -> ztake k (ld m a n) = ld m a k.
Proof.
  intros. replace n with (k + (n - k)) by lia. rewrite ld_app by lia.
  apply ztake_app_exact, zlen_ld. lia.
Qed.

Lemma ld_drop m a n k : 0 <= k <= n -> zdrop k (ld m a n) = ld m (a + k) (n - k).
Proof.
  intros. replace n with (k + (n - k)) at 1 by lia. rewrite ld_app by lia.
  apply zdrop_app_exact, zlen_ld. lia.
Qed.

Lemma wr_app m a bs cs : wr m a (bs ++ cs) = wr (wr m a bs) (a + zlen bs) cs.
Proof.
  revert m a. induction bs as [|b bs IH]; intros m a; simpl.
  - rewrite zlen_nil. f_equal. lia.
  - rewrite IH, zlen_cons. f_equal. lia.
Qed.

Lemma wr_lookup_out m a bs x :
  x < a \/ a + zlen bs <= x -> wr m a bs !! x = m !! x.
Proof.
  revert m a. induction bs as [|b bs IH]; intros m a Hx; simpl; [done|].
  rewrite zlen_cons in Hx. pose proof (zlen_nonneg bs).
  rewrite IH by lia. apply lookup_insert_ne. lia.
Qed.

Lemma ldn_wr_apart m a bs b n :
  apart a (zlen bs) b (Z.of_nat n) -> ldn (wr m a bs) b n = ldn m b n.
Proof.
  revert b. induction n as [|n IH]; intros b H; simpl; [done|]. unfold apart in H.
  pose proof (zlen_nonneg bs).
  f_equal; [unfold rd; rewrite wr_lookup_out; [done|lia] |apply IH; unfold apart; lia].
Qed.

Lemma ld_wr_apart m a bs b n :
  0 <= n -> apart a (zlen bs) b n -> ld (wr m a bs) b n = ld m b n.
Proof. intros Hn H. apply ldn_wr_apart. by rewrite Z2Nat.id. Qed.

Lemma ldn_wr_same m a bs : ldn (wr m a bs) a (length bs) = bs.
Proof.
  revert m a. induction bs as [|b bs IH]; intros m a; simpl; [done|].
  rewrite IH. f_equal. unfold rd.
  rewrite wr_lookup_out by lia. by rewrite lookup_insert_eq.
Qed.

Lemma ld_wr_same m a bs n : zlen bs = n -> ld (wr m a bs) a n = bs.
Proof.
  Transparent zlen. intros <-. unfold ld, zlen. rewrite Nat2Z.id. apply ldn_wr_same.
  Opaque zlen.
Qed.

Lemma ldn_ext m m' a n :
  (forall x, a <= x < a + Z.of_nat n -> m !! x = m' !! x) -> ldn m a n = ldn m' a n.
Proof.
  revert a. induction n as [|n IH]; intros a H; simpl; [done|].
  f_equal; [unfold rd; rewrite H; [done|lia] | apply IH; intros; apply H; lia].
Qed.

Lemma ldn_lookup m a n i : (i < n)%nat -> ldn m a n !! i = Some (rd m (a + Z.of_nat i)).
Proof.
  revert a i. induction n as [|n IH]; intros a i Hi; [lia|].
  destruct i as [|i]; simpl.
  - do 2 f_equal. lia.
  - rewrite IH by lia. do 2 f_equal. lia.
Qed.

(** ** The heap *)

(** Every live block is non-empty, lies above the null page, and no two blocks
    overlap. *)
Definition live_wf (h : live) : Prop :=
  (forall a n, h !! a = Some n -> 0 < a /\ 0 < n) /\
  (forall a n b k, h !! a = Some n -> h !! b = Some k -> a <> b -> apart a n b k).

(** The block [new]/[malloc] creates for a request of [s] bytes: never empty. *)
Definition block_size (s : Z) : Z := Z.max 1 s.

Class Allocator : Type := {
  alloc_ok : live -> Z -> bool;
  alloc_addr : live -> Z -> Z;
  alloc_pos : forall h s, live_wf h -> 0 < alloc_addr h s;
  alloc_apart : forall h s a n, live_wf h -> h !! a = Some n ->
    apart (alloc_addr h s) (block_size s) a n
}.

(** Memory never runs out. *)
Class Plenty `{Allocator} : Prop := plenty : forall h s, alloc_ok h s = true.

(** First-fit above every live block: the allocator the witnesses run. *)
Definition bump_addr (h : live) (_ : Z) : Z :=
  map_fold (fun a n top => Z.max (a + n) top) 16 h.

Lemma bump_addr_spec h :
  16 <= bump_addr h 0 /\ forall a n, h !! a = Some n -> a + n <= bump_addr h 0.
Proof.
  unfold bump_addr.
  apply (map_fold_weak_ind (fun top h' =>
    16 <= top /\ forall a n, h' !! a = Some n -> a + n <= top)).
  - split; [lia|]. intros a n H. by rewrite lookup_empty in H.
  - intros i x m top Hi [IH1 IH2]. split; [lia|].
    intros a n. rewrite lookup_insert. case_decide as Ha; intros H.
    + simplify_eq. lia.
    + apply IH2 in H. lia.
Qed.

#[export] Program Instance bump_allocator : Allocator :=
  {| alloc_ok _ _ := true; alloc_addr := bump_addr |}.
Next Obligation. intros h s _. pose proof (bump_addr_spec h) as [??]. unfold bump_addr in *. lia. Qed.
Next Obligation.
  intros h s a n _ H. pose proof (bump_addr_spec h) as [_ Ha].
  apply Ha in H. unfold bump_addr in *. right. lia.
Qed.

#[export] Instance bump_plenty : Plenty.
Proof. done. Qed.

Section heap.
Context {AL : Allocator}.

Lemma live_wf_empty : live_wf (∅ : gmap Z Z).
Proof. split; intros *; rewrite lookup_empty; done. Qed.

(** The block of a request that is granted. *)
Definition heap_new (h : live) (s : Z) : Z * live :=
  let a := alloc_addr h s in (a, <[a := block_size s]> h).

(** [delete[] p] and [free(p)]: the null pointer is ignored, any other
    address that is not the base of a live block is undefined behaviour. *)
Definition heap_delete (h : live) (p : Z) : option live :=
  if p =? 0 then Some h
  else match h !! p with Some _ => Some (delete p h) | None => None end.

Lemma heap_new_fresh h s : live_wf h -> h !! (alloc_addr h s) = None.
Proof.
  intros Hwf. destruct (h !! alloc_addr h s) as [n|] eqn:E; [|done].
  pose proof (alloc_apart h s _ _ Hwf E) as [?|?];
    unfold block_size in *; destruct Hwf as [Hp _]; apply Hp in E; lia.
Qed.

Lemma heap_new_wf h s a h' : live_wf h -> heap_new h s = (a, h') -> live_wf h'.
Proof.
  intros Hwf [= <- <-]. pose proof (alloc_pos h s Hwf) as Hpos. split.
  - intros b n. rewrite lookup_insert. case_decide; intros Hb.
    + simplify_eq. unfold block_size. lia.
    + by apply Hwf in Hb.
  - intros b n c k. rewrite !lookup_insert.
    case_decide; case_decide; intros Hb Hc Hne; simplify_eq.
    + by apply alloc_apart.
    + by apply apart_comm, alloc_apart.
    + by eapply Hwf.
Qed.

Lemma heap_delete_wf h p h' : live_wf h -> heap_delete h p = Some h' -> live_wf h'.
Proof.
  intros Hwf Hd. unfold heap_delete in Hd. case_if_in Hd; [by simplify_eq|].
  destruct (h !! p) eqn:Hp; [|done]. simplify_eq. split.
  - intros a n [_ Ha]%lookup_delete_Some. by apply Hwf in Ha.
  - intros a n b k [_ Ha]%lookup_delete_Some [_ Hb]%lookup_delete_Some. by eapply Hwf.
Qed.
End heap.

#[export] Hint Resolve heap_new_wf heap_delete_wf live_wf_empty : socle.
