(* ===== verification/Mempool.v ===== *)
(** * Mempool: the fixed-size bucket allocator of common/mempool

    [memPool] keeps ten buckets of equally sized chunks cut from one [malloc]ed
    block each, and falls back to [new[]].  The module models canaries, buckets,
    the pool and the C-style entry points [mempool_alloc/realloc/free] over the
    byte store and the heap of [Memory]. *)

From S2P Require Export Memory.

(** ** Data *)

Inductive pool_type_t : Type := POOL | HEAP.

Record mem_chunk : Type := mkChunk {
  ptr : Z;
  capacity : Z;
  in_pool : bool;
  pool_type : pool_type_t
}.

(** [mem_chunk(unsigned char* p, std::size_t c)] *)
Definition mem_chunk_at (p c : Z) : mem_chunk := mkChunk p c false POOL.

Record Bucket : Type := mkBucket {
  sz : Z;                      (* size of one chunk *)
  bucket : list mem_chunk;     (* std::stack, top first *)
  allocated : Z;
  bigptr : Z;
  endptr : Z;
  count : Z;
  canary_of : Z                (* Bucket::canary_sz *)
}.

(** The buckets, in the order of their addresses inside [memPool]: the order in
    which [std::set<Bucket*>] is iterated. *)
Inductive bid : Type :=
  | bucket_32 | bucket_64 | bucket_128 | bucket_256 | bucket_1k
  | bucket_5k | bucket_10k | bucket_20k | bucket_35k | bucket_50k.

#[export] Instance bid_eq_dec : EqDecision bid.
Proof. solve_decision. Defined.

Definition buckets : list bid :=
  [bucket_32; bucket_64; bucket_128; bucket_256; bucket_1k;
   bucket_5k; bucket_10k; bucket_20k; bucket_35k; bucket_50k].

(** The constructor argument of each bucket member. *)
Definition bucket_size (b : bid) : Z :=
  match b with
  | bucket_32 => 32 | bucket_64 => 64 | bucket_128 => 128 | bucket_256 => 256
  | bucket_1k => 1024 | bucket_5k => 5 * 1024 | bucket_10k => 10 * 1024
  | bucket_20k => 20 * 1024 | bucket_35k => 35 * 1024 | bucket_50k => 50 * 1024
  end.

(** Every statistics counter: [memPool::stats_t], [mp_stats] and the static
    counters of [buffer]. *)
Inductive stat : Type :=
  | acq | acq_size | ret | ret_size | heap_alloc | heap_alloc_size
  | heap_free | heap_free_size | out_free | out_free_size
  | out_pool_miss | out_pool_miss_size
  | stat_mempool_alloc | stat_mempool_alloc_size
  | stat_mempool_realloc | stat_mempool_realloc_miss | stat_mempool_realloc_fitting
  | stat_mempool_realloc_size
  | stat_mempool_free | stat_mempool_free_miss | stat_mempool_free_size
  | alloc_bytes | alloc_count | free_bytes | free_count.

#[export] Instance stat_eq_dec : EqDecision stat.
Proof. solve_decision. Defined.

(** The process state the allocator and the buffers share. *)
Record world : Type := mkWorld {
  w_mem : mem;
  w_live : live;
  w_bk : bid -> Bucket;
  w_canary : Z;                (* mp_canary::canary_sz *)
  w_stat : stat -> Z;
  w_use_pool : bool;           (* buffer::use_pool *)
  w_bailing : bool;            (* memPool::bailing *)
  w_debug : bool               (* compiled with MEMPOOL_DEBUG *)
}.

Definition set_mem (m : mem) (w : world) : world :=
  mkWorld m (w_live w) (w_bk w) (w_canary w) (w_stat w) (w_use_pool w) (w_bailing w) (w_debug w).
Definition set_live (h : live) (w : world) : world :=
  mkWorld (w_mem w) h (w_bk w) (w_canary w) (w_stat w) (w_use_pool w) (w_bailing w) (w_debug w).
Definition set_bk (b : bid) (k : Bucket) (w : world) : world :=
  mkWorld (w_mem w) (w_live w) (fun b' => if decide (b' = b) then k else w_bk w b')
    (w_canary w) (w_stat w) (w_use_pool w) (w_bailing w) (w_debug w).
Definition set_canary (c : Z) (w : world) : world :=
  mkWorld (w_mem w) (w_live w) (w_bk w) c (w_stat w) (w_use_pool w) (w_bailing w) (w_debug w).

(** [stat += n] on an [unsigned long long]. *)
Definition bump (s : stat) (n : Z) (w : world) : world :=
  mkWorld (w_mem w) (w_live w) (w_bk w) (w_canary w)
    (fun s' => if decide (s' = s) then u64 (w_stat w s + n) else w_stat w s')
    (w_use_pool w) (w_bailing w) (w_debug w).

Definition set_stack (l : list mem_chunk) (k : Bucket) : Bucket :=
  mkBucket (sz k) l (allocated k) (bigptr k) (endptr k) (count k) (canary_of k).

(** ** Canaries (canary.hpp) *)

(** "CaNaRy" *)
Definition canary_txt : bytes := [67; 97; 78; 97; 82; 121].

Definition gen_canary_byte (canary_sz index : Z) : exn + Z :=
  if canary_sz =? 0 then inl mempool_error
  else inr (canary_txt !!! Z.to_nat (index mod 6)).

(** The loops of [write_canary] and [check_canary]: [n] iterations from [i]. *)
Fixpoint write_canary_from (csz : Z) (m : mem) (p i : Z) (n : nat) : mem :=
  match n with
  | O => m
  | S n' =>
      match gen_canary_byte csz i with
      | inl _ => m
      | inr c => write_canary_from csz (<[p + i := c]> m) p (i + 1) n'
      end
  end.

Definition write_canary (csz : Z) (m : mem) (p : Z) : mem :=
  write_canary_from csz m p 0 (Z.to_nat csz).

Fixpoint check_canary_from (csz : Z) (m : mem) (p i : Z) (n : nat) : bool :=
  match n with
  | O => true
  | S n' =>
      match gen_canary_byte csz i with
      | inl _ => false
      | inr c => if rd m (p + i) =? c then check_canary_from csz m p (i + 1) n' else false
      end
  end.

Definition check_canary (csz : Z) (m : mem) (p : Z) : bool :=
  check_canary_from csz m p 0 (Z.to_nat csz).

(** ** Buckets *)

Definition is_mine (k : Bucket) (p : Z) : bool := (bigptr k <=? p) && (p <? endptr k).

Section pool.
Context {AL : Allocator}.

(** [new unsigned char[s]] and [malloc(s)] *)
Definition new_bytes (s : Z) : M world Z := fun w =>
  if alloc_ok (w_live w) s then let '(a, h) := heap_new (w_live w) s in Ret a (set_live h w)
  else Throw bad_alloc w.

Definition malloc (s : Z) : M world Z := fun w =>
  if alloc_ok (w_live w) s then let '(a, h) := heap_new (w_live w) s in Ret a (set_live h w)
  else Ret 0 w.

Definition heap_free_ptr (p : Z) : M world unit := fun w =>
  match heap_delete (w_live w) p with
  | Some h => Ret tt (set_live h w)
  | None => Undef
  end.

(** The stockpile loop of [init_memory]: from [cur], while it is below [top],
    push the chunk and write the canary behind it. *)
Fixpoint stockpile (fuel : nat) (csz s cur top : Z) (st : list mem_chunk) (m : mem)
  : list mem_chunk * mem :=
  match fuel with
  | O => (st, m)
  | S fuel' =>
      if cur <? top then
        stockpile fuel' csz s (cur + (s + csz)) top (mem_chunk_at cur s :: st)
          (write_canary csz m (cur + s))
      else (st, m)
  end.

(** The size of the block is computed in [size_t]; without a block, the pointers into it
    are undefined. *)
Definition init_memory (b : bid) (cnt : Z) : M world unit :=
  k <- gets (fun w => w_bk w b) ;;
  csz <- gets w_canary ;;
  let total := u64 (cnt * sz k + cnt * csz + csz) in
  p <- malloc total ;;
  if p =? 0 then undef
  else
    m <- gets w_mem ;;
    let m0 := write_canary csz m p in
    let '(st, m1) := stockpile (S (Z.to_nat cnt)) csz (sz k) (p + csz) (p + total) (bucket k) m0 in
    modify (fun w => set_bk b (mkBucket (sz k) st total p (p + total) cnt csz) (set_mem m1 w)).

Definition bucket_acquire (b : bid) : M world (option mem_chunk) := fun w =>
  match bucket (w_bk w b) with
  | c :: st => Ret (Some c) (set_bk b (set_stack st (w_bk w b)) w)
  | [] => Ret None w
  end.

Definition bucket_release (b : bid) (c : mem_chunk) : M world unit := fun w =>
  let k := w_bk w b in
  if is_mine k (ptr c) then
    Ret tt (set_bk b (set_stack (mkChunk (ptr c) (capacity c) true (pool_type c) :: bucket k) k) w)
  else Ret tt w.

(** ** The pool *)

Definition pick_bucket (s : Z) : option bid :=
  if 50 * 1024 <? s then None
  else if s <=? 32 then Some bucket_32
  else if s <=? 1024 then
    if 256 <? s then Some bucket_1k
    else if 128 <? s then Some bucket_256
    else if 64 <? s then Some bucket_128
    else if 32 <? s then Some bucket_64
    else None
  else
    if 35 * 1024 <? s then Some bucket_50k
    else if 20 * 1024 <? s then Some bucket_35k
    else if 10 * 1024 <? s then Some bucket_20k
    else if 5 * 1024 <? s then Some bucket_10k
    else if 1 * 1024 <? s then Some bucket_5k
    else None.

(** The loop of [tryhard_available]: the level counts every bucket looked at,
    suitable or not. *)
Fixpoint tryhard_from (s : Z) (level : Z) (bs : list bid) : M world (option mem_chunk) :=
  match bs with
  | [] => mret_ None
  | b :: rest =>
      if 3 <? level then mret_ None
      else
        k <- gets (fun w => w_bk w b) ;;
        if s <=? sz k then
          r <- bucket_acquire b ;;
          match r with
          | Some c => mret_ (Some c)
          | None => tryhard_from s (level + 1) rest
          end
        else tryhard_from s (level + 1) rest
  end.

Definition tryhard_available (s : Z) : M world (option mem_chunk) :=
  tryhard_from s 1 buckets.

Definition from_heap (s : Z) : M world mem_chunk :=
  p <- new_bytes s ;;
  modify (fun w => bump heap_alloc_size s (bump heap_alloc 1 w)) ;;;
  mret_ (mkChunk p s false HEAP).

Definition free_heap (c : mem_chunk) : M world unit :=
  modify (fun w => bump out_free_size (capacity c) (bump out_free 1 w)) ;;;
  heap_free_ptr (ptr c).

Definition acquire (s : Z) : M world mem_chunk :=
  if s =? 0 then mret_ (mem_chunk_at 0 0)
  else
    match pick_bucket s with
    | None =>
        r <- tryhard_available s ;;
        match r with
        | Some c =>
            modify (fun w => bump acq_size (capacity c) (bump acq 1 w)) ;;; mret_ c
        | None => from_heap s
        end
    | Some b =>
        r <- bucket_acquire b ;;
        match r with
        | Some c =>
            modify (fun w => bump acq_size (capacity c) (bump acq 1 w)) ;;;
            mret_ (mkChunk (ptr c) (capacity c) false POOL)
        | None => from_heap s
        end
    end.

Definition find_by_address (w : world) (p : Z) : option bid :=
  head (filter (fun b => is_mine (w_bk w b) p = true) buckets).

Definition find_ptr_size (w : world) (p : Z) : Z :=
  match find_by_address w p with Some b => sz (w_bk w b) | None => 0 end.

(** The canary check a debug build runs after a release. *)
Definition check_canaries (c : mem_chunk) : M world unit :=
  csz <- gets w_canary ;;
  m <- gets w_mem ;;
  if csz =? 0 then mret_ tt
  else if negb (check_canary csz m (ptr c - csz)) then throw mempool_error
  else if negb (check_canary csz m (ptr c + capacity c)) then throw mempool_error
  else mret_ tt.

Definition release (c : mem_chunk) : M world unit :=
  if ptr c =? 0 then mret_ tt
  else
    bail <- gets w_bailing ;;
    if bail then mret_ tt
    else
      match pool_type c with
      | HEAP => free_heap c
      | POOL =>
          f <- gets (fun w => find_by_address w (ptr c)) ;;
          match f with
          | None =>
              modify (fun w => bump out_pool_miss_size (capacity c) (bump out_pool_miss 1 w)) ;;;
              free_heap c
          | Some b =>
              modify (fun w => bump ret_size (sz (w_bk w b)) (bump ret 1 w)) ;;;
              bucket_release b c ;;;
              dbg <- gets w_debug ;;
              if dbg then check_canaries c else mret_ tt
          end
      end.

(** [memPool::allocate]: bucket counts from the five size arguments. *)
Definition allocate (n256 n1k n5k n10k n20k : Z) : M world unit :=
  modify (fun w => set_canary (if w_debug w then 8 else 0) w) ;;;
  init_memory bucket_32 (u64 (n256 * 16)) ;;;
  init_memory bucket_64 (u64 (n256 * 8)) ;;;
  init_memory bucket_128 (u64 (n256 * 4)) ;;;
  init_memory bucket_256 n256 ;;;
  init_memory bucket_1k n1k ;;;
  init_memory bucket_5k n5k ;;;
  init_memory bucket_10k n10k ;;;
  init_memory bucket_20k n20k ;;;
  init_memory bucket_35k n20k ;;;
  init_memory bucket_50k n20k.

(** The percentage read from SX_MEMSIZE: [v] is [safe_val] of the variable. *)
Definition get_env_size (v : option Z) : Z :=
  match v with
  | None => 100
  | Some n => if (10 <=? n) && (n <=? 100 * 100) then n else 100
  end.

Definition memPool_ctor (env : option Z) (n256 n1k n5k n10k n20k : Z) : M world unit :=
  let size := get_env_size env in
  allocate (u64 (n256 * size)) (u64 (n1k * size)) (u64 (n5k * size))
           (u64 (n10k * size)) (u64 (n20k * size)).

(** ** C entry points *)

(** [std::memcpy]: undefined on overlapping ranges. *)
Definition memcpy (dst src n : Z) : M world unit := fun w =>
  if (dst + n <=? src) || (src + n <=? dst) then
    Ret tt (set_mem (wr (w_mem w) dst (ld (w_mem w) src n)) w)
  else Undef.

(** [std::memmove]: any two ranges. *)
Definition memmove (dst src n : Z) : M world unit :=
  modify (fun w => set_mem (wr (w_mem w) dst (ld (w_mem w) src n)) w).

Definition mempool_alloc (s : Z) : M world Z :=
  up <- gets w_use_pool ;;
  bail <- gets w_bailing ;;
  if negb up || bail then malloc s
  else
    c <- acquire s ;;
    if negb (ptr c =? 0) then
      modify (fun w => bump stat_mempool_alloc_size s (bump stat_mempool_alloc 1 w)) ;;;
      mret_ (ptr c)
    else throw mempool_error.

(** The [libc] realloc of the code's pool-less configuration. *)
Definition libc_realloc (p n : Z) : M world Z := fun w =>
  if p =? 0 then malloc n w
  else match w_live w !! p with
       | None => Undef
       | Some k =>
           (a <- malloc n ;;
            if a =? 0 then mret_ a
            else memcpy a p (Z.min n k) ;;; heap_free_ptr p ;;; mret_ a) w
       end.

Definition mempool_realloc (optr nsz : Z) : M world Z :=
  up <- gets w_use_pool ;;
  bail <- gets w_bailing ;;
  if negb up then libc_realloc optr nsz
  else if bail then malloc nsz
  else
    ptr_size <- gets (fun w => if optr =? 0 then 0 else find_ptr_size w optr) ;;
    let old_m := mem_chunk_at optr ptr_size in
    if nsz <=? ptr_size then
      modify (bump stat_mempool_realloc_fitting 1) ;;; mret_ optr
    else
      new_m <- acquire nsz ;;
      if ptr new_m =? 0 then
        release old_m ;;;
        modify (fun w => if negb (optr =? 0) && (ptr_size =? 0)
                         then bump stat_mempool_realloc_miss 1 w else w) ;;;
        new_bytes nsz
      else
        when (negb (optr =? 0))
          (when (negb (ptr_size =? 0))
             (memcpy (ptr new_m) optr (if nsz <=? ptr_size then nsz else ptr_size)) ;;;
           release old_m) ;;;
        modify (fun w => if negb (optr =? 0) && (ptr_size =? 0)
                         then bump stat_mempool_realloc_miss 1 w else w) ;;;
        modify (fun w => bump stat_mempool_realloc (capacity new_m - capacity old_m)
                           (bump stat_mempool_realloc 1 w)) ;;;
        mret_ (ptr new_m).

Definition mempool_free (optr : Z) : M world unit :=
  bail <- gets w_bailing ;;
  up <- gets w_use_pool ;;
  if bail then mret_ tt
  else if negb up then heap_free_ptr optr
  else
    ptr_size <- gets (fun w => find_ptr_size w optr) ;;
    (if ptr_size =? 0 then
       modify (bump stat_mempool_free_miss 1) ;;;
       release (mkChunk optr ptr_size false HEAP)
     else release (mem_chunk_at optr ptr_size)) ;;;
    modify (fun w => bump stat_mempool_free_size ptr_size (bump stat_mempool_free 1 w)).
End pool.

(** The process before [memPool] is constructed: no live block, empty buckets. *)
Definition world0 (use_pool debug : bool) : world :=
  mkWorld ∅ ∅ (fun b => mkBucket (bucket_size b) [] 0 0 0 0 0) 0 (fun _ => 0)
    use_pool false debug.
