(* ===== verification/MempoolSpec.v ===== *)
(** * MempoolSpec: what the pool promises, and that it keeps it

    The abstract view of the pool is the partial map of the *outstanding* blocks:
    the chunks handed out and not yet returned, pool slots and heap blocks alike.
    The theorems relate [acquire], [release] and the C entry points to it. *)

From S2P Require Export Mempool.

(** ** The invariant and the abstract view *)

Definition slot (k : Bucket) (p : Z) : Prop :=
  exists i, 0 <= i < count k /\ p = bigptr k + canary_of k + i * (sz k + canary_of k).

Definition free_ptrs (k : Bucket) : list Z := ptr <$> bucket k.

Definition chunk_ok (k : Bucket) (c : mem_chunk) : Prop :=
  slot k (ptr c) /\ 0 < capacity c <= sz k /\ pool_type c = POOL.

Definition bucket_ok (w : world) (b : bid) : Prop :=
  let k := w_bk w b in
  sz k = bucket_size b /\ 0 <= count k /\ canary_of k = w_canary w /\
  allocated k = count k * sz k + count k * canary_of k + canary_of k /\
  endptr k = bigptr k + allocated k /\
  w_live w !! bigptr k = Some (block_size (allocated k)) /\
  NoDup (free_ptrs k) /\ Forall (chunk_ok k) (bucket k).

Definition pool_wf (w : world) : Prop :=
  live_wf (w_live w) /\ 0 <= w_canary w /\ (forall b, bucket_ok w b) /\
  (forall b b', b <> b' -> bigptr (w_bk w b) <> bigptr (w_bk w b')).

(** Every free chunk still records its full size: true of a fresh pool, kept by
    callers that return a chunk with the capacity they got it with. *)
Definition pool_full (w : world) : Prop :=
  forall b, Forall (fun c => capacity c = sz (w_bk w b)) (bucket (w_bk w b)).

Definition out_pool (w : world) (p n : Z) : Prop :=
  exists b, slot (w_bk w b) p /\ n = sz (w_bk w b) /\ p ∉ free_ptrs (w_bk w b).

Definition out_heap (w : world) (p n : Z) : Prop :=
  w_live w !! p = Some n /\ forall b, bigptr (w_bk w b) <> p.

Definition outstanding (w : world) (p n : Z) : Prop := out_pool w p n \/ out_heap w p n.

(** The states a running release build reaches. *)
Definition pool_running (w : world) : Prop :=
  pool_wf w /\ pool_full w /\ w_bailing w = false /\ w_debug w = false.

(** States that differ only in memory contents, statistics and switches. *)
Definition same_pool (w w' : world) : Prop :=
  w_live w' = w_live w /\ w_bk w' = w_bk w /\ w_canary w' = w_canary w.

(** ** Arithmetic of slots *)

Lemma bucket_size_pos b : 0 < bucket_size b.
Proof. by destruct b. Qed.

Lemma slot_range k p :
  0 < sz k -> 0 <= canary_of k ->
  allocated k = count k * sz k + count k * canary_of k + canary_of k ->
  slot k p -> bigptr k <= p /\ p + sz k <= bigptr k + allocated k.
Proof. intros Hs Hc -> (i & Hi & ->). nia. Qed.

Lemma slots_apart k p q :
  0 < sz k -> 0 <= canary_of k -> slot k p -> slot k q -> p <> q ->
  apart p (sz k) q (sz k).
Proof.
  intros Hs Hc (i & Hi & ->) (j & Hj & ->) Hne. unfold apart.
  destruct (Z.lt_trichotomy i j) as [?|[->|?]]; [|done|]; nia.
Qed.

Section facts.
Context (w : world) (Hwf : pool_wf w).

Lemma wf_bucket b : bucket_ok w b.
Proof. apply Hwf. Qed.

Lemma wf_sz b : 0 < sz (w_bk w b).
Proof. destruct (wf_bucket b) as [-> _]. apply bucket_size_pos. Qed.

Lemma wf_slot_range b p : slot (w_bk w b) p ->
  bigptr (w_bk w b) <= p /\ p + sz (w_bk w b) <= bigptr (w_bk w b) + allocated (w_bk w b).
Proof.
  destruct (wf_bucket b) as (_ & _ & Hc & Ha & _). intros.
  apply slot_range; auto using wf_sz. rewrite Hc. apply Hwf.
Qed.

(** The block of a bucket, as a live block. *)
Lemma wf_bucket_live b :
  w_live w !! bigptr (w_bk w b) = Some (block_size (allocated (w_bk w b))).
Proof. apply (wf_bucket b). Qed.

Lemma wf_slot_mine b p : slot (w_bk w b) p -> is_mine (w_bk w b) p = true.
Proof.
  intros Hs. apply wf_slot_range in Hs as [??].
  destruct (wf_bucket b) as (_ & _ & _ & _ & He & _). pose proof (wf_sz b).
  unfold is_mine. rewrite andb_true_iff, Z.leb_le, Z.ltb_lt. lia.
Qed.

Lemma mine_in_block b p : is_mine (w_bk w b) p = true ->
  bigptr (w_bk w b) <= p < bigptr (w_bk w b) + block_size (allocated (w_bk w b)).
Proof.
  destruct (wf_bucket b) as (_ & _ & _ & _ & He & _). unfold is_mine, block_size.
  intros [?%Z.leb_le ?%Z.ltb_lt]%andb_true_iff. lia.
Qed.

Lemma mine_unique b b' p :
  is_mine (w_bk w b) p = true -> is_mine (w_bk w b') p = true -> b = b'.
Proof.
  intros H1%mine_in_block H2%mine_in_block.
  destruct (decide (b = b')) as [|Hne]; [done|].
  destruct Hwf as (Hl & _ & _ & Hsep).
  pose proof (proj2 Hl _ _ _ _ (wf_bucket_live b) (wf_bucket_live b') (Hsep _ _ Hne)).
  unfold apart in *. lia.
Qed.

Lemma heap_not_mine b p n : out_heap w p n -> is_mine (w_bk w b) p = false.
Proof.
  intros [Hp Hb]. destruct (is_mine _ p) eqn:E; [|done].
  apply mine_in_block in E. specialize (Hb b).
  destruct Hwf as (Hl & _).
  pose proof (proj2 Hl _ _ _ _ (wf_bucket_live b) Hp Hb).
  apply Hl in Hp. unfold apart in *. lia.
Qed.
End facts.

Lemma buckets_all b : b ∈ buckets.
Proof. destruct b; by apply (bool_decide_unpack _). Qed.

Lemma head_filter_unique {A} (P : A -> Prop) `{!forall x, Decision (P x)} (l : list A) x :
  x ∈ l -> P x -> (forall y, P y -> y = x) -> head (filter P l) = Some x.
Proof.
  intros Hin Hx Hu. induction l as [|y l IH]; [by apply elem_of_nil in Hin|].
  rewrite filter_cons. case_decide as Hy; simpl; [by rewrite (Hu y Hy)|].
  apply IH. apply elem_of_cons in Hin as [->|]; done.
Qed.

Lemma head_filter_none {A} (P : A -> Prop) `{!forall x, Decision (P x)} (l : list A) :
  (forall y, ~ P y) -> head (filter P l) = None.
Proof.
  intros Hn. induction l as [|y l IH]; [done|].
  rewrite filter_cons. case_decide; [by destruct (Hn y)|done].
Qed.

Lemma find_by_address_mine w b p :
  pool_wf w -> is_mine (w_bk w b) p = true -> find_by_address w p = Some b.
Proof.
  intros Hwf Hm. apply head_filter_unique; [apply buckets_all|done|].
  intros b' Hb'. by eapply mine_unique.
Qed.

Lemma find_by_address_heap w p n :
  pool_wf w -> out_heap w p n -> find_by_address w p = None.
Proof.
  intros Hwf Hh. apply head_filter_none. intros b Hb.
  by rewrite (heap_not_mine w Hwf b p n Hh) in Hb.
Qed.

Lemma outstanding_pos w p n : pool_wf w -> outstanding w p n -> 0 < p /\ 0 < n.
Proof.
  intros Hwf [(b & Hs & -> & _)|[Hp _]].
  - pose proof (wf_sz w Hwf b). apply wf_slot_range in Hs; [|done].
    pose proof (wf_bucket_live w Hwf b) as Hb. apply Hwf in Hb. lia.
  - by apply Hwf in Hp.
Qed.

Lemma outstanding_fun w p n k :
  pool_wf w -> outstanding w p n -> outstanding w p k -> n = k.
Proof.
  intros Hwf [(b & Hs & -> & _)|Hh] [(b' & Hs' & -> & _)|Hh'].
  - apply wf_slot_mine in Hs, Hs'; [|done..]. by rewrite (mine_unique w Hwf b b' p).
  - apply wf_slot_mine in Hs; [|done]. by rewrite (heap_not_mine w Hwf b p _ Hh') in Hs.
  - apply wf_slot_mine in Hs'; [|done]. by rewrite (heap_not_mine w Hwf b' p _ Hh) in Hs'.
  - destruct Hh, Hh'. congruence.
Qed.

Lemma slot_heap_apart w b p q n :
  pool_wf w -> slot (w_bk w b) p -> out_heap w q n -> apart p (sz (w_bk w b)) q n.
Proof.
  intros Hwf Hs [Hq Hb]. apply wf_slot_range in Hs; [|done].
  pose proof (wf_bucket_live w Hwf b) as Hl. destruct Hwf as ((_ & Hap) & _).
  pose proof (Hap _ _ _ _ Hl Hq (Hb b)). unfold apart, block_size in *. lia.
Qed.

(** Two outstanding blocks never overlap. *)
Lemma outstanding_apart w p n q k :
  pool_wf w -> outstanding w p n -> outstanding w q k -> p <> q -> apart p n q k.
Proof.
  intros Hwf [(b & Hs & -> & _)|Hh] [(b' & Hs' & -> & _)|Hh'] Hne.
  - destruct (decide (b = b')) as [<-|Hb].
    + apply slots_apart; auto using wf_sz.
      destruct (wf_bucket w Hwf b) as (_ & _ & -> & _). apply Hwf.
    + apply wf_slot_range in Hs, Hs'; [|done..].
      pose proof (wf_bucket_live w Hwf b) as Hl. pose proof (wf_bucket_live w Hwf b') as Hl'.
      destruct Hwf as ((_ & Hap) & _ & _ & Hsep).
      pose proof (Hap _ _ _ _ Hl Hl' (Hsep _ _ Hb)). unfold apart, block_size in *. lia.
  - by apply slot_heap_apart.
  - by apply apart_comm, slot_heap_apart.
  - destruct Hwf as ((_ & Hap) & _). destruct Hh as [H1 _], Hh' as [H2 _]. by eapply Hap.
Qed.

(** ** Bucket selection *)

Lemma pick_bucket_some s b :
  pick_bucket s = Some b ->
  s <= bucket_size b /\ (forall b', s <= bucket_size b' -> bucket_size b <= bucket_size b').
Proof.
  unfold pick_bucket. intros H.
  repeat case_if_in H; try discriminate; injection H as <-;
    (split; [simpl; lia|]); intros []; simpl; lia.
Qed.

Lemma pick_bucket_none s : pick_bucket s = None <-> 50 * 1024 < s.
Proof.
  unfold pick_bucket. split.
  - intros H. repeat case_if_in H; try discriminate; lia.
  - intros H. case_if; [done|lia].
Qed.

Lemma bucket_size_max b : bucket_size b <= 50 * 1024.
Proof. destruct b; simpl; lia. Qed.

(** ** States that agree on the pool *)

Lemma same_pool_wf w w' : same_pool w w' -> pool_wf w -> pool_wf w'.
Proof.
  intros (Hl & Hb & Hc) (H1 & H2 & H3 & H4). split_and!.
  - by rewrite Hl.
  - by rewrite Hc.
  - intros b. specialize (H3 b). unfold bucket_ok in *. by rewrite Hb, Hc, Hl.
  - intros b b'. rewrite Hb. auto.
Qed.

Lemma same_pool_full w w' : same_pool w w' -> pool_full w -> pool_full w'.
Proof. intros (_ & Hb & _) H b. rewrite Hb. apply H. Qed.

Lemma same_pool_outstanding w w' p n :
  same_pool w w' -> outstanding w' p n <-> outstanding w p n.
Proof.
  intros (Hl & Hb & _). unfold outstanding, out_pool, out_heap. by rewrite Hb, Hl.
Qed.

Lemma same_pool_refl w : same_pool w w.
Proof. done. Qed.

Lemma same_pool_bump s n w w' : same_pool w w' -> same_pool w (bump s n w').
Proof. done. Qed.

Lemma same_pool_set_mem m w w' : same_pool w w' -> same_pool w (set_mem m w').
Proof. done. Qed.

#[export] Hint Resolve same_pool_refl same_pool_bump same_pool_set_mem : socle.

(** Everything an allocator step leaves alone. *)
Definition frame (w w' : world) : Prop :=
  w_mem w' = w_mem w /\ w_use_pool w' = w_use_pool w /\
  w_bailing w' = w_bailing w /\ w_debug w' = w_debug w.

Lemma frame_trans w1 w2 w3 : frame w1 w2 -> frame w2 w3 -> frame w1 w3.
Proof. unfold frame. intuition congruence. Qed.

(** ** Pushing and popping a bucket's stack *)

Lemma set_bk_eq b k w : w_bk (set_bk b k w) b = k.
Proof. simpl. by rewrite decide_True. Qed.

Lemma set_bk_ne b b' k w : b' <> b -> w_bk (set_bk b k w) b' = w_bk w b'.
Proof. intros. simpl. by rewrite decide_False. Qed.

(** Replacing a bucket's stack by one that is well formed keeps the pool. *)
Lemma set_stack_wf w b st :
  pool_wf w -> NoDup (ptr <$> st) -> Forall (chunk_ok (w_bk w b)) st ->
  pool_wf (set_bk b (set_stack st (w_bk w b)) w).
Proof.
  intros (H1 & H2 & H3 & H4) Hnd Hok. split_and!; [done..| |].
  - intros b'. unfold bucket_ok. destruct (decide (b' = b)) as [->|Hne].
    + rewrite set_bk_eq. destruct (H3 b) as (? & ? & ? & ? & ? & ? & _). by split_and!.
    + rewrite set_bk_ne by done. apply H3.
  - intros b1 b2 Hne. simpl.
    repeat case_decide; subst; simpl; auto.
Qed.

Lemma outstanding_set_stack w b st p n :
  outstanding (set_bk b (set_stack st (w_bk w b)) w) p n <->
  (exists b', slot (w_bk w b') p /\ n = sz (w_bk w b') /\
     p ∉ (if decide (b' = b) then ptr <$> st else free_ptrs (w_bk w b'))) \/ out_heap w p n.
Proof.
  unfold outstanding, out_pool, out_heap. f_equiv.
  - f_equiv. intros b'. unfold free_ptrs, slot. simpl. by case_decide; subst.
  - simpl. f_equiv. split; intros H b'; specialize (H b'); case_decide; subst; done.
Qed.

Section steps.
Context {AL : Allocator}.

(** What a successful allocation of block [p] of size [n] does to the view. *)
Definition allocated_block (w w' : world) (p n : Z) : Prop :=
  (forall k, ~ outstanding w p k) /\
  (forall q k, outstanding w' q k <-> outstanding w q k \/ (q = p /\ k = n)).

Definition released_block (w w' : world) (p : Z) : Prop :=
  forall q k, (outstanding w' q k <-> outstanding w q k /\ q <> p) /\
    (out_heap w q k -> q <> p -> out_heap w' q k).

Lemma bucket_acquire_spec w b c st :
  pool_wf w -> bucket (w_bk w b) = c :: st ->
  let w' := set_bk b (set_stack st (w_bk w b)) w in
  pool_wf w' /\ chunk_ok (w_bk w b) c /\
  allocated_block w w' (ptr c) (sz (w_bk w b)) /\ (pool_full w -> pool_full w').
Proof.
  intros Hwf Hst w'. subst w'.
  destruct (wf_bucket w Hwf b) as (_ & _ & _ & _ & _ & _ & Hnd & Hok).
  unfold free_ptrs in Hnd. rewrite Hst in Hnd, Hok. cbn in Hnd.
  apply NoDup_cons in Hnd as [Hni Hnd]. apply Forall_cons in Hok as [Hc Hok].
  split_and!; [by apply set_stack_wf|done|split|].
  - intros k [(b' & Hs & _ & Hf)|Hh].
    + assert (b' = b) as ->.
      { eapply mine_unique; [done| |apply wf_slot_mine; [done|apply Hc]].
        by apply wf_slot_mine. }
      apply Hf. unfold free_ptrs. rewrite Hst. cbn. apply elem_of_cons. by left.
    + pose proof (heap_not_mine w Hwf b _ _ Hh) as Hm.
      destruct Hc as [Hc _]. apply wf_slot_mine in Hc; [congruence|done].
  - intros q k. rewrite outstanding_set_stack. split.
    + intros [(b' & Hs & -> & Hf)|Hh]; [|by left; right]. case_decide; subst.
      * destruct (decide (q = ptr c)) as [->|Hne]; [by right|left; left].
        exists b. split_and!; [done..|]. unfold free_ptrs. rewrite Hst. cbn.
        apply not_elem_of_cons. done.
      * left; left. by exists b'.
    + intros [[(b' & Hs & -> & Hf)|Hh]|[-> ->]]; [|by right|].
      * left. exists b'. split_and!; [done..|]. case_decide; subst; [|done].
        unfold free_ptrs in Hf. rewrite Hst in Hf. cbn in Hf. by apply not_elem_of_cons in Hf as [_ ?].
      * left. exists b. rewrite decide_True by done. split_and!; [apply Hc|done..].
  - intros Hfull b'. simpl. case_decide; subst; [|apply Hfull].
    pose proof (Hfull b) as Hb. rewrite Hst in Hb. by apply Forall_cons in Hb as [_ ?].
Qed.

Lemma new_spec w s :
  pool_wf w -> 0 < s -> alloc_ok (w_live w) s = true ->
  let p := alloc_addr (w_live w) s in
  let w' := set_live (<[p := s]> (w_live w)) w in
  new_bytes s w = Ret p w' /\ pool_wf w' /\ 0 < p /\
  allocated_block w w' p s /\ (pool_full w -> pool_full w').
Proof.
  intros Hwf Hs Hgr p w'. pose proof Hwf as ((Hl1 & Hl2) & Hc & Hb & Hsep).
  assert (block_size s = s) as Hbs by (unfold block_size; lia).
  assert (w_live w !! p = None) as Hp by (by apply heap_new_fresh).
  assert (forall b, bigptr (w_bk w b) <> p) as Hbp.
  { intros b E. pose proof (wf_bucket_live w Hwf b) as H. rewrite E in H. congruence. }
  split_and!.
  - unfold new_bytes, heap_new. rewrite Hgr, Hbs. done.
  - split_and!; [|done| |done].
    + eapply (heap_new_wf (w_live w) s p); [by split|]. unfold heap_new. by rewrite Hbs.
    + intros b. destruct (Hb b) as (? & ? & ? & ? & ? & Hlb & ? & ?).
      unfold bucket_ok; split_and!; try done. simpl. by rewrite lookup_insert_ne by done.
  - by apply alloc_pos.
  - split.
    + intros k [(b & Hsl & _)|[H _]]; [|congruence].
      apply wf_slot_range in Hsl; [|done].
      pose proof (alloc_apart (w_live w) s _ _ (conj Hl1 Hl2) (wf_bucket_live w Hwf b)) as Ha.
      unfold block_size in *. fold p in Ha. unfold apart in Ha. pose proof (wf_sz w Hwf b). lia.
    + intros q k. unfold outstanding, out_pool, out_heap. simpl.
      rewrite lookup_insert. case_decide; subst.
      * split; [intros [?|[[= ->] ?]]; auto|].
        intros [[?|[H ?]]|[_ ->]]; auto. congruence.
      * split; [intros [?|[??]]; auto|]. intros [[?|[??]]|[? ?]]; auto. congruence.
  - done.
Qed.

(** The contract of one allocation request for [s] bytes. *)
Definition acquire_post (s : Z) (w : world) (c : mem_chunk) (w' : world) : Prop :=
  pool_wf w' /\ frame w w' /\ 0 < ptr c /\
  exists n, s <= n /\ 0 < capacity c <= n /\ allocated_block w w' (ptr c) n /\
    (pool_full w -> capacity c = n /\ pool_full w') /\
    (pool_type c = HEAP -> out_heap w' (ptr c) n) /\
    (forall q k, out_heap w q k -> out_heap w' q k).

(** What a request comes to: a block, or [bad_alloc] with nothing changed. *)
Definition acquire_outcome (s : Z) (m : M world mem_chunk) (w : world) : Prop :=
  (exists c w', m w = Ret c w' /\ acquire_post s w c w') \/
  (m w = Throw bad_alloc w /\ alloc_ok (w_live w) s = false).

Lemma from_heap_spec w s : pool_wf w -> 0 < s -> acquire_outcome s (from_heap s) w.
Proof.
  intros Hwf Hs. destruct (alloc_ok (w_live w) s) eqn:Hgr.
  2: { right. split; [|done]. unfold from_heap, new_bytes, mbind_. by rewrite Hgr. }
  left. destruct (new_spec w s Hwf Hs Hgr) as (Hm & Hwf' & Hp & Hal & Hfull).
  eexists _, _. split.
  { unfold from_heap. rewrite (bind_ret _ _ _ _ _ Hm). reflexivity. }
  split; [exact Hwf'|]. split; [done|]. split; [done|]. exists s. simpl.
  assert (w_live w !! alloc_addr (w_live w) s = None) as Hfr by (apply heap_new_fresh, Hwf).
  split_and!; [lia..|exact Hal|auto|intros _|].
  - split; [simpl; by rewrite lookup_insert_eq|]. intros b E.
    pose proof (wf_bucket_live w Hwf b) as Hlb. simpl in E. rewrite E in Hlb. congruence.
  - intros q k [Hq Hqb]. split; [|exact Hqb]. simpl. rewrite lookup_insert_ne; [done|].
    intros E. rewrite E in Hfr. congruence.
Qed.

Lemma tryhard_dead w s :
  pool_wf w -> pick_bucket s = None -> tryhard_available s w = Ret None w.
Proof.
  intros Hwf Hs%pick_bucket_none. unfold tryhard_available.
  generalize 1 as lvl. generalize buckets as bs.
  induction bs as [|b bs IH]; intros lvl; simpl; [done|].
  destruct (3 <? lvl); [done|]. unfold mbind_ at 1. simpl.
  destruct (wf_bucket w Hwf b) as [-> _]. pose proof (bucket_size_max b).
  rewrite (proj2 (Z.leb_gt _ _)) by lia. apply IH.
Qed.

Lemma acquire_spec w s : pool_wf w -> 0 < s -> acquire_outcome s (acquire s) w.
Proof.
  intros Hwf Hs. unfold acquire_outcome, acquire. rewrite (proj2 (Z.eqb_neq s 0)) by lia.
  destruct (pick_bucket s) as [b|] eqn:Hpick.
  - unfold mbind_ at 1 3. unfold bucket_acquire.
    destruct (bucket (w_bk w b)) as [|c st] eqn:Hst; [by apply from_heap_spec|]. left.
    destruct (bucket_acquire_spec w b c st Hwf Hst) as (Hwf' & Hc & Hal & Hfull).
    destruct (wf_bucket w Hwf b) as [Hsz _].
    destruct (pick_bucket_some _ _ Hpick) as [Hle _].
    pose proof (wf_sz w Hwf b). destruct Hc as (Hslot & Hcap & Hty).
    eexists _, _. split; [reflexivity|].
    split; [exact Hwf'|]. split; [done|]. simpl.
    split. { eapply (outstanding_pos _ _ (sz (w_bk w b)) Hwf'), Hal. by right. }
    exists (sz (w_bk w b)). split_and!; [lia..|exact Hal| |done|].
    + intros Hf. split; [|exact (Hfull Hf)].
      pose proof (Hf b) as Hfb. rewrite Hst in Hfb. by apply Forall_cons in Hfb as [? _].
    + intros q k [Hq Hqb]. split; [exact Hq|]. intros b'. specialize (Hqb b').
      simpl. by case_decide; subst.
  - rewrite !(bind_ret _ _ _ _ _ (tryhard_dead w s Hwf Hpick)). by apply from_heap_spec.
Qed.

Lemma acquire_meets `{PL : !Plenty} w s :
  pool_wf w -> 0 < s -> exists c w', acquire s w = Ret c w' /\ acquire_post s w c w'.
Proof. intros Hwf Hs. destruct (acquire_spec w s Hwf Hs) as [?|[_ E]]; [done|]. by rewrite plenty in E. Qed.

(** The contract of returning block [p]. *)
Definition release_post (w : world) (p : Z) (w' : world) : Prop :=
  pool_wf w' /\ frame w w' /\ released_block w w' p.

Lemma release_slot w b c :
  pool_wf w -> chunk_ok (w_bk w b) c -> ptr c ∉ free_ptrs (w_bk w b) ->
  exists w', bucket_release b c w = Ret tt w' /\ release_post w (ptr c) w' /\
    w_canary w' = w_canary w /\
    (pool_full w -> capacity c = sz (w_bk w b) -> pool_full w').
Proof.
  intros Hwf Hc Hnf. unfold bucket_release.
  rewrite (wf_slot_mine w Hwf b) by apply Hc.
  eexists. split; [reflexivity|].
  destruct (wf_bucket w Hwf b) as (_ & _ & _ & _ & _ & _ & Hnd & Hok).
  split_and!; [split_and!|done|].
  - apply set_stack_wf; [done| |].
    + cbn. apply NoDup_cons. by split.
    + apply Forall_cons. split; [exact Hc|done].
  - done.
  - intros q k. split; [rewrite outstanding_set_stack; cbn; split|].
    + intros [(b' & Hs & -> & Hf)|Hh].
      * case_decide; subst.
        -- apply not_elem_of_cons in Hf as [Hne Hf]. split; [left; by exists b|done].
        -- split; [left; by exists b'|]. intros ->.
           pose proof (mine_unique w Hwf b' b (ptr c)) as Hu. apply H.
           apply Hu; apply wf_slot_mine; auto. apply Hc.
      * split; [by right|]. intros ->.
        pose proof (heap_not_mine w Hwf b _ _ Hh) as Hm.
        rewrite wf_slot_mine in Hm; [done|done|apply Hc].
    + intros [[(b' & Hs & -> & Hf)|Hh] Hne]; [left|by right].
      exists b'. split_and!; [done..|]. case_decide; subst; [|done].
      by apply not_elem_of_cons.
    + intros [Hq Hqb] _. split; [exact Hq|]. intros b'. specialize (Hqb b').
      simpl. by case_decide; subst.
  - intros Hfull Hcap b'. simpl. case_decide; subst; [|apply Hfull].
    simpl. apply Forall_cons. split; [done|apply Hfull].
Qed.

(** [delete[]] of an outstanding heap block. *)
Lemma heap_free_ptr_spec w p n :
  pool_wf w -> out_heap w p n ->
  exists w', heap_free_ptr p w = Ret tt w' /\ release_post w p w' /\
    (pool_full w -> pool_full w').
Proof.
  intros Hwf [Hp Hb]. unfold heap_free_ptr, heap_delete.
  pose proof (outstanding_pos w _ _ Hwf (or_intror (conj Hp Hb))) as [Hpos _].
  rewrite (proj2 (Z.eqb_neq p 0)) by lia. rewrite Hp.
  eexists. split; [reflexivity|]. split; [|done]. split_and!; [|done|].
  - destruct Hwf as (Hl & Hc & Hbk & Hsep). split_and!; [|done| |done].
    + simpl. eapply heap_delete_wf; [exact Hl|]. unfold heap_delete.
      rewrite (proj2 (Z.eqb_neq p 0)) by lia. by rewrite Hp.
    + intros b. destruct (Hbk b) as (? & ? & ? & ? & ? & Hlb & ? & ?).
      unfold bucket_ok. split_and!; try done. simpl. by rewrite lookup_delete_ne.
  - intros q k. split; [unfold outstanding, out_pool, out_heap; simpl; split|].
    + intros [(b & Hs & -> & Hf)|[[Hne Hq]%lookup_delete_Some Hqb]].
      * split; [left; by exists b|]. intros ->.
        assert (out_heap w p n) as Hh by done.
        pose proof (heap_not_mine w Hwf b _ _ Hh) as Hm.
        by rewrite wf_slot_mine in Hm.
      * split; [right; by split|done].
    + intros [[(b & Hs & -> & Hf)|[Hq Hqb]] Hne]; [left; by exists b|right].
      split; [by rewrite lookup_delete_ne|done].
    + intros [Hq Hqb] Hne. split; [simpl; by rewrite lookup_delete_ne|done].
Qed.

Lemma free_heap_spec w c n :
  pool_wf w -> out_heap w (ptr c) n ->
  exists w', free_heap c w = Ret tt w' /\ release_post w (ptr c) w' /\
    (pool_full w -> pool_full w').
Proof.
  intros Hwf Hh.
  exact (heap_free_ptr_spec (bump out_free_size (capacity c) (bump out_free 1 w)) (ptr c) n Hwf Hh).
Qed.

(** [release] of an outstanding block, release build. *)
Lemma release_meets w c n :
  pool_wf w -> w_bailing w = false -> w_debug w = false ->
  outstanding w (ptr c) n ->
  (pool_type c = HEAP -> out_heap w (ptr c) n) ->
  (out_pool w (ptr c) n -> 0 < capacity c <= n) ->
  exists w', release c w = Ret tt w' /\ release_post w (ptr c) w' /\
    (pool_full w -> capacity c = n -> pool_full w').
Proof.
  intros Hwf Hbail Hdbg Hout Hheap Hcap.
  pose proof (outstanding_pos w _ _ Hwf Hout) as [Hpos _].
  unfold release. rewrite (proj2 (Z.eqb_neq (ptr c) 0)) by lia.
  unfold mbind_ at 1. simpl. rewrite Hbail.
  destruct (pool_type c) eqn:Hty.
  2: { destruct (free_heap_spec w c n Hwf (Hheap eq_refl)) as (w' & E & Hpost & Hf).
       exists w'. exact (conj E (conj Hpost (fun Hfull _ => Hf Hfull))). }
  unfold mbind_ at 1. simpl. destruct Hout as [Hpool|Hh].
  - destruct Hpool as (b & Hs & -> & Hnf).
    rewrite (find_by_address_mine w b) by (auto; by apply wf_slot_mine).
    unfold mbind_ at 1. simpl.
    set (w1 := bump ret_size (sz (w_bk w b)) (bump ret 1 w)).
    assert (pool_wf w1) as Hwf1 by (exact Hwf).
    destruct (release_slot w1 b c Hwf1) as (w' & E & (Hp1 & Hp2 & Hp3) & _ & Hf).
    { split; [exact Hs|split; [|exact Hty]]. apply Hcap. by exists b. }
    { exact Hnf. }
    rewrite (bind_ret _ _ _ _ _ E). exists w'. unfold mbind_. simpl.
    assert (w_debug w' = false) as -> by (by destruct Hp2 as (_ & _ & _ & ->)).
    exact (conj eq_refl (conj (conj Hp1 (conj Hp2 Hp3)) Hf)).
  - rewrite (find_by_address_heap w _ n) by done. unfold mbind_ at 1. simpl.
    set (w1 := bump out_pool_miss_size (capacity c) (bump out_pool_miss 1 w)).
    destruct (free_heap_spec w1 c n Hwf Hh) as (w' & E & (Hp1 & Hp2 & Hp3) & Hf).
    exists w'. exact (conj E (conj (conj Hp1 (conj Hp2 Hp3)) (fun Hfull _ => Hf Hfull))).
Qed.

(** ** Initialisation *)

Definition init_inv (inited : list bid) (w : world) : Prop :=
  live_wf (w_live w) /\ 0 <= w_canary w /\
  (forall b, b ∈ inited -> bucket_ok w b /\
     Forall (fun c => capacity c = sz (w_bk w b)) (bucket (w_bk w b)) /\
     length (bucket (w_bk w b)) = Z.to_nat (count (w_bk w b))) /\
  (forall b, b ∉ inited -> bucket (w_bk w b) = [] /\ sz (w_bk w b) = bucket_size b) /\
  (forall b b', b ∈ inited -> b' ∈ inited -> b <> b' -> bigptr (w_bk w b) <> bigptr (w_bk w b')).

Lemma stockpile_spec csz s n : forall cur st m,
  0 < s -> 0 <= csz ->
  exists l, fst (stockpile (S n) csz s cur (cur + Z.of_nat n * (s + csz)) st m) = l ++ st /\
    length l = n /\ NoDup (ptr <$> l) /\
    Forall (fun c => exists i, 0 <= i < Z.of_nat n /\
               c = mem_chunk_at (cur + i * (s + csz)) s) l.
Proof.
  induction n as [|n IH]; intros cur st m Hs Hc.
  - exists []. simpl. rewrite (proj2 (Z.ltb_ge _ _)) by lia. split_and!; constructor.
  - cbn [stockpile]. rewrite (proj2 (Z.ltb_lt _ _)) by nia.
    replace (cur + Z.of_nat (S n) * (s + csz))
      with ((cur + (s + csz)) + Z.of_nat n * (s + csz)) by lia.
    destruct (IH (cur + (s + csz)) (mem_chunk_at cur s :: st) (write_canary csz m (cur + s)) Hs Hc)
      as (l & E & Hlen & Hnd & Hall).
    exists (l ++ [mem_chunk_at cur s]). split_and!.
    + cbn [stockpile] in E. rewrite E, <- app_assoc. done.
    + rewrite length_app, Hlen. simpl. lia.
    + rewrite fmap_app. apply NoDup_app. split_and!; [done| |apply NoDup_singleton].
      intros x Hx Hx'. cbn in Hx'. apply list_elem_of_singleton in Hx' as ->.
      apply list_elem_of_fmap in Hx as (c & Hp & Hin).
      rewrite Forall_forall in Hall. destruct (Hall c Hin) as (i & Hi & ->). simpl in Hp. nia.
    + apply Forall_app. split.
      * eapply Forall_impl; [exact Hall|]. intros c (i & Hi & ->).
        exists (i + 1). split; [lia|]. f_equal. lia.
      * constructor; [|constructor]. exists 0. split; [lia|]. f_equal. lia.
Qed.

Lemma init_memory_spec inited w b cnt :
  init_inv inited w -> b ∉ inited -> 0 <= cnt ->
  cnt * (bucket_size b + 8) + 8 < 2 ^ 64 -> w_canary w <= 8 ->
  ((exists h s, alloc_ok h s = false) /\ init_memory b cnt w = Undef) \/
  exists w', init_memory b cnt w = Ret tt w' /\ init_inv (b :: inited) w' /\
    w_canary w' = w_canary w /\ w_debug w' = w_debug w /\ w_use_pool w' = w_use_pool w /\
    w_bailing w' = w_bailing w /\ count (w_bk w' b) = cnt /\
    (forall b', b' <> b -> w_bk w' b' = w_bk w b').
Proof.
  intros (Hl & Hc & Hin & Hnin & Hsep) Hb Hcnt Hfit Hc8.
  destruct (Hnin b Hb) as [Hst Hsz]. pose proof (bucket_size_pos b) as Hpos.
  set (csz := w_canary w). set (s := bucket_size b).
  set (total := cnt * s + cnt * csz + csz). assert (0 <= total) as Ht by (unfold total, csz, s; nia).
  set (p := alloc_addr (w_live w) total).
  assert (heap_new (w_live w) total = (p, <[p := block_size total]> (w_live w))) as Hnew by done.
  assert (w_live w !! p = None) as Hfresh by (by apply heap_new_fresh).
  assert (forall b', b' ∈ inited -> bigptr (w_bk w b') <> p) as Hne.
  { intros b' Hb' E. destruct (Hin b' Hb') as [(_ & _ & _ & _ & _ & Hlb & _) _].
    rewrite E in Hlb. congruence. }
  destruct (stockpile_spec csz s (Z.to_nat cnt) (p + csz) [] (write_canary csz (w_mem w) p))
    as (l & E & Hlen & Hnd & Hall); [done|done|].
  rewrite Z2Nat.id in E by lia.
  replace (p + csz + cnt * (s + csz)) with (p + total) in E by (unfold total; lia).
  rewrite app_nil_r in E.
  unfold init_memory, malloc, mbind_, gets, modify. rewrite Hsz. fold s csz.
  change (w_canary w) with csz. fold total. rewrite (u64_small total) by (unfold total, csz, s in *; nia). rewrite Hnew.
  destruct (alloc_ok (w_live w) total) eqn:Hgr; [right|by left; eauto]. cbv beta iota.
  pose proof (alloc_pos (w_live w) total Hl) as Hp. fold p in Hp.
  rewrite (proj2 (Z.eqb_neq p 0)), Hst by lia.
  change (w_mem (set_live (<[p:=block_size total]> (w_live w)) w)) with (w_mem w).
  destruct (stockpile (S (Z.to_nat cnt)) csz s (p + csz) (p + total) []
              (write_canary csz (w_mem w) p)) as [st' m'] eqn:Est.
  cbn [fst] in E. subst st'. cbv beta iota.
  eexists. split; [reflexivity|]. split; [|simpl; rewrite !decide_True by done; split_and!; try done;
    intros b' ?; by rewrite decide_False].
  split_and!.
  - simpl. eapply heap_new_wf; [exact Hl|exact Hnew].
  - done.
  - intros b' [->|Hb']%elem_of_cons.
    + unfold bucket_ok. simpl. rewrite decide_True by done. simpl.
      split_and!; try done; [by rewrite lookup_insert_eq| |].
      * eapply Forall_impl; [exact Hall|]. intros c (i & Hi & ->).
        rewrite Z2Nat.id in Hi by lia.
        split_and!; simpl; [|lia..|done]. exists i. split; [done|]. simpl. fold csz. lia.
      * eapply Forall_impl; [exact Hall|]. by intros c (i & _ & ->).
    + destruct (Hin b' Hb') as [Hok Hf]. unfold bucket_ok. simpl.
      assert (b' <> b) by (intros ->; done). rewrite decide_False by done.
      split; [|done]. destruct Hok as (? & ? & ? & ? & ? & Hlb & ? & ?).
      split_and!; try done. rewrite lookup_insert_ne; [done|]. by apply not_eq_sym, Hne.
  - intros b' [Hb1 Hb2]%not_elem_of_cons. simpl. rewrite decide_False by done. by apply Hnin.
  - intros b1 b2 H1 H2 H12. simpl.
    apply elem_of_cons in H1 as [->|H1]; apply elem_of_cons in H2 as [->|H2];
      repeat case_decide; subst; simpl; try done; auto.
    by apply not_eq_sym, Hne.
Qed.

Lemma init_inv_start up dbg : init_inv [] (world0 up dbg).
Proof.
  split_and!; [apply live_wf_empty|done| |done|].
  - intros b H. by apply elem_of_nil in H.
  - intros b b' H. by apply elem_of_nil in H.
Qed.

Lemma init_inv_set_canary c w : 0 <= c -> init_inv [] w -> init_inv [] (set_canary c w).
Proof.
  intros Hc (Hl & _ & _ & Hn & _). split_and!; [done|done| |done|].
  - intros b H. by apply elem_of_nil in H.
  - intros b b' H. by apply elem_of_nil in H.
Qed.

Lemma init_inv_all w : init_inv (rev buckets) w -> pool_wf w /\ pool_full w.
Proof.
  intros (Hl & Hc & Hin & _ & Hsep).
  assert (forall b, b ∈ rev buckets) as Hall by (intros []; by apply (bool_decide_unpack _)).
  split.
  - split_and!; [done|done|intros b; by apply Hin|intros; by apply Hsep].
  - intros b. by apply Hin.
Qed.

(** One bucket of the start-up fill: runs the next [init_memory] of the chain. *)
Ltac init_one :=
  match goal with
  | I : init_inv ?l ?w |- context [init_memory ?b ?n] =>
      let w' := fresh "w" in let E := fresh "E" in
      destruct (init_memory_spec l w b n I) as [[? E]|(w' & E & ? & ? & ? & ? & ? & _ & _)];
      [by apply (bool_decide_unpack _)|lia|cbn [bucket_size]; lia|lia
      |by left; split; [done|first [exact E|by rewrite (bind_undef _ _ _ E)]]|];
      clear I; try (rewrite (bind_ret _ _ _ _ _ E); clear E)
  end.

(** [memPool::allocate] on a new process, for counts whose blocks fit [size_t]. *)
Lemma allocate_spec up dbg n256 n1k n5k n10k n20k :
  0 <= n256 < 2 ^ 48 -> 0 <= n1k < 2 ^ 48 -> 0 <= n5k < 2 ^ 48 -> 0 <= n10k < 2 ^ 48 -> 0 <= n20k < 2 ^ 48 ->
  ((exists h s, alloc_ok h s = false) /\ allocate n256 n1k n5k n10k n20k (world0 up dbg) = Undef) \/
  exists w, allocate n256 n1k n5k n10k n20k (world0 up dbg) = Ret tt w /\
    pool_wf w /\ pool_full w /\ w_canary w = (if dbg then 8 else 0) /\
    w_debug w = dbg /\ w_use_pool w = up /\ w_bailing w = false.
Proof.
  intros ?????. unfold allocate. rewrite !u64_small by lia. rewrite bind_modify.
  set (w0 := set_canary _ _).
  assert (init_inv [] w0) as I0
    by (apply init_inv_set_canary; [simpl; destruct dbg; lia|apply init_inv_start]).
  assert (w_canary w0 = (if dbg then 8 else 0)) as F1 by done.
  assert (w_canary w0 <= 8) as F2 by (rewrite F1; by destruct dbg).
  assert (w_debug w0 = dbg /\ w_use_pool w0 = up /\ w_bailing w0 = false) as (F3 & F4 & F5) by done.
  do 10 init_one. right.
  match goal with E : init_memory bucket_50k _ _ = Ret tt ?w, I : init_inv _ ?w |- _ =>
    exists w; split; [exact E|]; apply init_inv_all in I as [??] end.
  split; [done|]. split; [done|]. split_and!; congruence.
Qed.

Lemma allocate_plenty `{PL : !Plenty} up dbg n256 n1k n5k n10k n20k :
  0 <= n256 < 2 ^ 48 -> 0 <= n1k < 2 ^ 48 -> 0 <= n5k < 2 ^ 48 -> 0 <= n10k < 2 ^ 48 -> 0 <= n20k < 2 ^ 48 ->
  exists w, allocate n256 n1k n5k n10k n20k (world0 up dbg) = Ret tt w /\
    pool_wf w /\ pool_full w /\ w_canary w = (if dbg then 8 else 0) /\
    w_debug w = dbg /\ w_use_pool w = up /\ w_bailing w = false.
Proof.
  intros ?????. destruct (allocate_spec up dbg n256 n1k n5k n10k n20k) as [[(h & s & E) _]|?]; [done..| |done].
  by rewrite plenty in E.
Qed.
End steps.

(** ** Copying *)

Lemma memcpy_spec w dst src n :
  apart dst n src n ->
  memcpy dst src n w = Ret tt (set_mem (wr (w_mem w) dst (ld (w_mem w) src n)) w).
Proof.
  unfold apart, memcpy. intros [?|?].
  - by rewrite (proj2 (Z.leb_le _ _)).
  - by rewrite orb_comm, (proj2 (Z.leb_le (src + n) _)).
Qed.

(** ** Canaries *)

Fixpoint canary_bytes (i : Z) (n : nat) : bytes :=
  match n with
  | O => []
  | S n' => canary_txt !!! Z.to_nat (i mod 6) :: canary_bytes (i + 1) n'
  end.

Lemma length_canary_bytes i n : length (canary_bytes i n) = n.
Proof. revert i. induction n; intros; simpl; auto. Qed.

Lemma write_canary_from_wr csz m p i n :
  csz <> 0 -> write_canary_from csz m p i n = wr m (p + i) (canary_bytes i n).
Proof.
  intros Hc. revert m i. induction n as [|n IH]; intros m i; simpl; [done|].
  unfold gen_canary_byte. rewrite (proj2 (Z.eqb_neq csz 0)) by done.
  rewrite IH. by replace (p + (i + 1)) with (p + i + 1) by lia.
Qed.

Lemma check_canary_from_ld csz m p i n :
  csz <> 0 -> check_canary_from csz m p i n = true <-> ldn m (p + i) n = canary_bytes i n.
Proof.
  intros Hc. revert i. induction n as [|n IH]; intros i; simpl; [done|].
  unfold gen_canary_byte. rewrite (proj2 (Z.eqb_neq csz 0)) by done.
  destruct (Z.eqb_spec (rd m (p + i)) (canary_txt !!! Z.to_nat (i mod 6))) as [E|E].
  - rewrite IH, E. replace (p + (i + 1)) with (p + i + 1) by lia.
    split; [by intros ->|by intros [= ->]].
  - split; [done|]. by intros [= ? _].
Qed.

Lemma check_canary_iff csz m p :
  0 <= csz -> check_canary csz m p = true <-> ld m p csz = canary_bytes 0 (Z.to_nat csz).
Proof.
  intros Hc. unfold check_canary, ld. destruct (decide (csz = 0)) as [->|Hne]; [done|].
  rewrite check_canary_from_ld by done. by rewrite Z.add_0_r.
Qed.

Lemma write_canary_wr csz m p :
  0 <= csz -> write_canary csz m p = wr m p (canary_bytes 0 (Z.to_nat csz)).
Proof.
  intros Hc. unfold write_canary. destruct (decide (csz = 0)) as [->|Hne]; [done|].
  rewrite write_canary_from_wr by done. by rewrite Z.add_0_r.
Qed.

(** A chunk's canaries are exact: what [write_canary] writes passes
    [check_canary], and after any other change of memory the check passes if and
    only if every canary byte still has its value. *)
Theorem canary_check_exact csz m p :
  0 <= csz ->
  check_canary csz (write_canary csz m p) p = true /\
  (forall m', check_canary csz m' p = true <-> ld m' p csz = ld (write_canary csz m p) p csz).
Proof.
  intros Hc.
  assert (ld (write_canary csz m p) p csz = canary_bytes 0 (Z.to_nat csz)) as E.
  { rewrite write_canary_wr by done. unfold ld.
    rewrite <- (length_canary_bytes 0 (Z.to_nat csz)) at 2. apply ldn_wr_same. }
  split; [by apply check_canary_iff|]. intros m'. rewrite E. by apply check_canary_iff.
Qed.

Lemma canary_check_exact_witness :
  check_canary 8 (write_canary 8 ∅ 100) 100 = true /\
  check_canary 8 (<[103 := 0]> (write_canary 8 ∅ 100)) 100 = false.
Proof.
  destruct (canary_check_exact 8 ∅ 100 ltac:(lia)) as [H1 H2].
  split; [exact H1|]. apply not_true_is_false. intros H%H2.
  vm_compute in H. discriminate.
Defined.
