(* ===== verification/PoolProps.v ===== *)
(** * PoolProps: the properties of the memory pool

    Theorems about [acquire], [release], the entry points [mempool_realloc] and
    [mempool_free], and about every sequence of calls a client can make. *)

From S2P Require Export MempoolSpec.

Section props.
Context {AL : Allocator}.

(** ** Client traces *)

(** One step of a client of a release build that uses the pool correctly: it
    acquires a block, returns a block it holds with the capacity it was given,
    or writes inside a block it holds. *)
Inductive client_step (w : world) : world -> Prop :=
  | step_acquire s c w' : 0 < s -> acquire s w = Ret c w' -> client_step w w'
  | step_release c n w' :
      outstanding w (ptr c) n -> capacity c = n ->
      (pool_type c = HEAP -> out_heap w (ptr c) n) ->
      release c w = Ret tt w' -> client_step w w'
  | step_write p n a bs :
      outstanding w p n -> p <= a -> a + zlen bs <= p + n ->
      client_step w (set_mem (wr (w_mem w) a bs) w).

Definition clients : world -> world -> Prop := rtc client_step.

Lemma client_step_running w w' : client_step w w' -> pool_running w -> pool_running w'.
Proof.
  intros Hstep (Hwf & Hfull & Hb & Hd). destruct Hstep as [s c w' Hs E|c n w' Ho Hc Hh E|].
  - destruct (acquire_spec w s Hwf Hs) as [(c1 & w1 & E1 & (Hwf1 & Hfr & _ & n & _ & _ & _ & Hf & _ & _))|[E1 _]];
      [|by rewrite E in E1].
    rewrite E in E1. injection E1 as <- <-. destruct Hfr as (_ & _ & Hb1 & Hd1).
    split; [done|]. split; [by apply Hf|]. split; congruence.
  - pose proof (outstanding_pos w _ _ Hwf Ho).
    destruct (release_meets w c n Hwf Hb Hd Ho Hh) as (w1 & E1 & (Hwf1 & Hfr & _) & Hf).
    { intros _. lia. }
    rewrite E in E1. injection E1 as <-. destruct Hfr as (_ & _ & Hb1 & Hd1).
    split; [done|]. split; [by apply Hf|]. split; congruence.
  - split; [exact Hwf|]. split; [exact Hfull|]. done.
Qed.

Lemma clients_running w w' : clients w w' -> pool_running w -> pool_running w'.
Proof. induction 1; eauto using client_step_running. Qed.

(** [C2] From the pool as [memPool::allocate] leaves it, whatever sequence of
    acquisitions, correct returns and writes the clients make: the pool invariant
    holds, no two outstanding blocks overlap, and a further request of any size
    [s > 0] gets a block of at least [s] bytes that overlaps none of the blocks handed
    out before, or throws [bad_alloc], when the heap has none, and changes nothing. This is
    for a release build that uses the pool, and for counts below 2^48: beyond, the
    sizes of the blocks may wrap around. *)
Theorem pool_trace_safe n256 n1k n5k n10k n20k w0 w :
  0 <= n256 < 2 ^ 48 -> 0 <= n1k < 2 ^ 48 -> 0 <= n5k < 2 ^ 48 -> 0 <= n10k < 2 ^ 48 -> 0 <= n20k < 2 ^ 48 ->
  allocate n256 n1k n5k n10k n20k (world0 true false) = Ret tt w0 ->
  clients w0 w ->
  pool_wf w /\
  (forall p n q k, outstanding w p n -> outstanding w q k -> p <> q -> apart p n q k) /\
  (forall s, 0 < s ->
     (exists c w', acquire s w = Ret c w' /\ s <= capacity c /\
        forall q k, outstanding w q k -> apart (ptr c) (capacity c) q k) \/
     (acquire s w = Throw bad_alloc w /\ alloc_ok (w_live w) s = false)).
Proof.
  intros ????? E Hcl.
  destruct (allocate_spec true false n256 n1k n5k n10k n20k)
    as [[_ E1]|(w1 & E1 & Hwf & Hf & _ & Hd & _ & Hb)]; [done..|by rewrite E in E1|].
  rewrite E in E1. injection E1 as <-.
  destruct (clients_running _ _ Hcl) as (Hwf' & Hf' & _); [by split_and!|].
  split; [done|]. split; [by intros; eapply outstanding_apart|].
  intros s Hs. destruct (acquire_spec w s Hwf' Hs)
    as [(c & w' & Ea & (Hwf2 & _ & _ & n & Hle & _ & [Hno Hout] & Hc & _ & _))|?]; [left|by right].
  destruct (Hc Hf') as [<- _].
  exists c, w'. split_and!; [done|done|]. intros q k Hq.
  apply (outstanding_apart w'); [done|apply Hout; by right|apply Hout; by left|].
  intros <-. by eapply Hno.
Qed.

(** ** With memory to be had *)

Context {PL : Plenty}.

(** [acquire] serves a request of [s] bytes from the smallest bucket that
    fits, or from the heap: with an intact pool it returns at least [s] bytes,
    memory contents are untouched, the block becomes the only new outstanding one,
    and releasing it restores the set of outstanding blocks exactly. *)
Theorem acquire_release_roundtrip s w :
  pool_running w -> 0 < s ->
  exists c w1 w2, acquire s w = Ret c w1 /\ release c w1 = Ret tt w2 /\
    s <= capacity c /\ w_mem w1 = w_mem w /\ w_mem w2 = w_mem w /\
    outstanding w1 (ptr c) (capacity c) /\
    (forall q k, outstanding w1 q k <-> outstanding w q k \/ (q = ptr c /\ k = capacity c)) /\
    (forall q k, outstanding w2 q k <-> outstanding w q k) /\
    (forall b, pick_bucket s = Some b -> bucket (w_bk w b) <> [] ->
       capacity c = bucket_size b /\ forall b', s <= bucket_size b' -> bucket_size b <= bucket_size b') /\
    pool_running w2.
Proof.
  intros (Hwf & Hf & Hb & Hd) Hs.
  destruct (acquire_meets w s Hwf Hs)
    as (c & w1 & Ea & (Hwf1 & (Hm1 & _ & Hb1 & Hd1) & _ & n & Hle & Hcap & [Hno Hout] & Hc & Hh & _)).
  destruct (Hc Hf) as [<- Hf1].
  assert (outstanding w1 (ptr c) (capacity c)) as Hoc by (apply Hout; by right).
  destruct (release_meets w1 c (capacity c) Hwf1) as (w2 & Er & (Hwf2 & (Hm2 & _ & Hb2 & Hd2) & Hrel) & Hf2);
    [congruence..|done|done|lia|].
  exists c, w1, w2. split; [done|]. split; [done|]. split; [done|]. split; [done|].
  split; [congruence|]. split; [done|]. split; [done|].
  split. { intros q k. rewrite (proj1 (Hrel q k)), (Hout q k). split; [|intros Hq; split; [by left|]].
    - intros [[?|[-> ->]] ?]; done.
    - intros ->. by eapply Hno. }
  split; [|split; [done|]; split; [by apply Hf2|]; split; congruence].
  intros b Hp Hne. destruct (pick_bucket_some _ _ Hp) as [_ Hmin]. split; [|done].
  revert Ea. unfold acquire. rewrite (proj2 (Z.eqb_neq s 0)), Hp by lia.
  unfold mbind_ at 1, bucket_acquire. destruct (bucket (w_bk w b)) as [|c0 st] eqn:Hst; [done|].
  cbn. intros [= <- _]. cbn. pose proof (Hf b) as Hfb. rewrite Hst in Hfb.
  apply Forall_cons in Hfb as [-> _]. apply (wf_bucket w Hwf b).
Qed.

(** The second-chance search of [tryhard_available] is dead code: whenever
    [acquire] reaches it (no bucket is large enough) it finds nothing, and when the
    chosen bucket is exhausted [acquire] takes a heap block even if a larger bucket
    still has free chunks, although mempool.hpp documents the search for that case. *)
Theorem tryhard_never_pays_off s w :
  pool_wf w -> 0 < s ->
  (pick_bucket s = None -> tryhard_available s w = Ret None w) /\
  (forall b, pick_bucket s = Some b -> bucket (w_bk w b) = [] ->
     exists c w', acquire s w = Ret c w' /\ pool_type c = HEAP /\ w_bk w' = w_bk w).
Proof.
  intros Hwf Hs. split; [by apply tryhard_dead|]. intros b Hp Hst.
  unfold acquire. rewrite (proj2 (Z.eqb_neq s 0)), Hp by lia.
  unfold mbind_ at 1, bucket_acquire. rewrite Hst.
  destruct (new_spec w s Hwf Hs (plenty _ _)) as (Hm & _). unfold from_heap.
  rewrite (bind_ret _ _ _ _ _ Hm). by eexists _, _.
Qed.
Lemma find_ptr_size_pool w p n : pool_wf w -> out_pool w p n -> find_ptr_size w p = n.
Proof.
  intros Hwf (b & Hs & -> & _). unfold find_ptr_size.
  by rewrite (find_by_address_mine w b) by (auto; by apply wf_slot_mine).
Qed.

Lemma find_ptr_size_heap w p n : pool_wf w -> out_heap w p n -> find_ptr_size w p = 0.
Proof. intros Hwf Hh. unfold find_ptr_size. by rewrite (find_by_address_heap w p n). Qed.

Lemma pool_running_set_mem m w : pool_running w -> pool_running (set_mem m w).
Proof. intros (? & ? & ? & ?). by split_and!. Qed.

(** The outstanding blocks after block [p] was exchanged for block [q] of size [k]. *)
Definition exchanged (w w' : world) (p q k : Z) : Prop :=
  forall r l, outstanding w' r l <-> (outstanding w r l /\ r <> p) \/ (r = q /\ l = k).

(** A growing reallocation up to its statistics: acquire, copy [bs] into the new
    block, return the old one. *)
Lemma grow_exchange w optr n m nsz (bs : Z -> world -> bytes) :
  pool_running w -> 0 < nsz -> outstanding w optr n ->
  (out_pool w optr n /\ m = n \/ out_heap w optr n) ->
  exists c w1 w2 k, acquire nsz w = Ret c w1 /\
    release (mem_chunk_at optr m) (set_mem (wr (w_mem w1) (ptr c) (bs (ptr c) w1)) w1) = Ret tt w2 /\
    0 < ptr c /\ nsz <= k /\ exchanged w w2 optr (ptr c) k /\ pool_wf w2 /\
    w_mem w1 = w_mem w /\ w_mem w2 = wr (w_mem w) (ptr c) (bs (ptr c) w1) /\
    (forall q l, outstanding w q l -> apart (ptr c) k q l).
Proof.
  intros (Hwf & Hf & Hb & Hd) Hn Ho Hm.
  destruct (acquire_meets w nsz Hwf Hn)
    as (c & w1 & Ea & (Hwf1 & (Hm1 & _ & Hb1 & Hd1) & Hpos & k & Hle & _ & [Hno Hout] & _ & _ & Hheap)).
  set (w1' := set_mem (wr (w_mem w1) (ptr c) (bs (ptr c) w1)) w1).
  assert (outstanding w1 optr n) as Ho1 by (apply Hout; by left).
  pose proof (outstanding_pos _ _ _ Hwf1 Ho1).
  destruct (release_meets w1' (mem_chunk_at optr m) n)
    as (w2 & Er & (Hwf2 & (Hm2 & _ & Hb2 & Hd2) & Hrel) & _);
    [exact Hwf1|simpl; congruence|simpl; congruence|exact Ho1|done| |].
  { intros (b & Hs & _ & _). simpl. destruct Hm as [[_ ->]|Hh]; [lia|].
    pose proof (heap_not_mine w1 Hwf1 b _ _ (Hheap _ _ Hh)) as Hf'.
    rewrite (wf_slot_mine w1 Hwf1 b) in Hf'; [done|exact Hs]. }
  exists c, w1, w2, k. split; [done|]. split; [exact Er|]. split; [done|]. split; [done|].
  split; [|split; [done|split; [done|split]]].
  - intros r l. rewrite (proj1 (Hrel r l)). simpl. change (outstanding w1' r l) with (outstanding w1 r l).
    rewrite (Hout r l). split; [intros [[?|[-> ->]] ?]; auto|].
    intros [[??]|[-> ->]]; [by auto|]. split; [by right|]. intros <-. by eapply Hno.
  - rewrite Hm2. simpl. by rewrite Hm1.
  - intros q l Hq. apply (outstanding_apart w1); [done|apply Hout; by right|apply Hout; by left|].
    intros <-. by eapply Hno.
Qed.

(** [mempool_realloc] of a non-null pointer with the pool in use. *)
Lemma mempool_realloc_eq w optr nsz n :
  w_use_pool w = true -> w_bailing w = false -> 0 < optr -> find_ptr_size w optr = n ->
  mempool_realloc optr nsz w =
  (if nsz <=? n then modify (bump stat_mempool_realloc_fitting 1) ;;; mret_ optr
   else
     new_m <- acquire nsz ;;
     if ptr new_m =? 0 then
       release (mem_chunk_at optr n) ;;;
       modify (fun w => if n =? 0 then bump stat_mempool_realloc_miss 1 w else w) ;;;
       new_bytes nsz
     else
       (when (negb (n =? 0)) (memcpy (ptr new_m) optr n) ;;; release (mem_chunk_at optr n)) ;;;
       modify (fun w => if n =? 0 then bump stat_mempool_realloc_miss 1 w else w) ;;;
       modify (fun w => bump stat_mempool_realloc (capacity new_m - n)
                          (bump stat_mempool_realloc 1 w)) ;;;
       mret_ (ptr new_m)) w.
Proof.
  intros Hup Hb Hp Hf. unfold mempool_realloc.
  unfold mbind_, gets. rewrite Hup, Hb, (proj2 (Z.eqb_neq optr 0)) by lia.
  cbn [negb orb]. cbv beta iota. rewrite Hf. by destruct (nsz <=? n).
Qed.

(** [mempool_realloc] of a pool block of [n] bytes: a request that fits
    returns the same pointer and changes no block; a larger one returns a new block of
    at least the requested size whose first [n] bytes are the old contents, takes the
    place of the old block in the set of outstanding blocks, and leaves the
    contents of every other outstanding block alone. *)
Theorem mempool_realloc_preserves w optr n nsz :
  pool_running w -> w_use_pool w = true -> out_pool w optr n -> 0 < nsz ->
  (nsz <= n -> exists w', mempool_realloc optr nsz w = Ret optr w' /\ same_pool w w' /\ w_mem w' = w_mem w) /\
  (n < nsz -> exists p w' k, mempool_realloc optr nsz w = Ret p w' /\ nsz <= k /\
     exchanged w w' optr p k /\ pool_wf w' /\
     ld (w_mem w') p n = ld (w_mem w) optr n /\
     forall q l, outstanding w q l -> q <> optr -> ld (w_mem w') q l = ld (w_mem w) q l).
Proof.
  intros Hrun Hup Hpool Hnsz. pose proof Hrun as (Hwf & _ & Hb & _).
  pose proof (outstanding_pos w optr n Hwf (or_introl Hpool)) as [Hpos Hn].
  rewrite (mempool_realloc_eq w optr nsz n) by (auto using find_ptr_size_pool; lia).
  split; intros Hc.
  - rewrite (proj2 (Z.leb_le _ _)) by lia. eexists. by split.
  - rewrite (proj2 (Z.leb_gt _ _)) by lia.
    destruct (grow_exchange w optr n n nsz (fun p w1 => ld (w_mem w1) optr n) Hrun Hnsz)
      as (c & w1 & w2 & k & Ea & Er & Hcpos & Hk & Hex & Hwf2 & Hm1 & Hm2 & Hap);
      [by left|by left|].
    rewrite (bind_ret _ _ _ _ _ Ea), (proj2 (Z.eqb_neq (ptr c) 0)), (proj2 (Z.eqb_neq n 0)) by lia.
    cbn [negb when]. rewrite bind_assoc.
    assert (memcpy (ptr c) optr n w1 = Ret tt (set_mem (wr (w_mem w1) (ptr c) (ld (w_mem w1) optr n)) w1)) as Ecpy.
    { apply memcpy_spec. pose proof (Hap optr n (or_introl Hpool)). unfold apart in *. lia. }
    rewrite (bind_ret _ _ _ _ _ Ecpy), (bind_ret _ _ _ _ _ Er).
    simpl. eexists _, _, k. split; [reflexivity|]. split; [done|]. split; [exact Hex|].
    split; [exact Hwf2|]. change (w_mem (bump _ _ (bump _ _ w2))) with (w_mem w2).
    rewrite Hm2, Hm1. split.
    + apply ld_wr_same, zlen_ld. lia.
    + intros q l Hq _. pose proof (outstanding_pos w q l Hwf Hq). apply ld_wr_apart; [lia|].
      rewrite zlen_ld by lia. pose proof (Hap q l Hq). unfold apart in *. lia.
Qed.

(** [mempool_realloc] of a heap block (every block above 50 KiB) is not a
    reallocation: the size of the old block is unknown to the pool, so no byte of it
    is copied - memory is left exactly as it was - and the old block is freed. *)
Theorem mempool_realloc_heap_loses w optr n nsz :
  pool_running w -> w_use_pool w = true -> out_heap w optr n -> 0 < nsz ->
  exists p w' k, mempool_realloc optr nsz w = Ret p w' /\ nsz <= k /\
    exchanged w w' optr p k /\ w_mem w' = w_mem w /\ p <> optr.
Proof.
  intros Hrun Hup Hh Hnsz. pose proof Hrun as (Hwf & _ & Hb & _).
  pose proof (outstanding_pos w optr n Hwf (or_intror Hh)) as [Hpos Hn].
  rewrite (mempool_realloc_eq w optr nsz 0) by (eauto using find_ptr_size_heap; lia).
  rewrite (proj2 (Z.leb_gt _ _)) by lia.
  destruct (grow_exchange w optr n 0 nsz (fun _ _ => []) Hrun Hnsz)
    as (c & w1 & w2 & k & Ea & Er & Hcpos & Hk & Hex & Hwf2 & Hm1 & Hm2 & Hap);
    [by right|by right|].
  rewrite (bind_ret _ _ _ _ _ Ea), (proj2 (Z.eqb_neq (ptr c) 0)) by lia.
  cbn [negb when]. change (0 =? 0) with true. cbn [negb when]. rewrite bind_assoc, bind_pure.
  assert (set_mem (wr (w_mem w1) (ptr c) []) w1 = w1) as Ew by (by destruct w1).
  rewrite Ew in Er. rewrite (bind_ret _ _ _ _ _ Er).
  simpl. eexists _, _, k. split; [reflexivity|]. split; [done|]. split; [exact Hex|].
  split; [exact Hm2|]. intros <-. pose proof (Hap (ptr c) n (or_intror Hh)). unfold apart in *. lia.
Qed.
End props.

(** ** The theorems on a concrete pool *)

(** The state a computation ends in, and the state of a small release-build pool. *)
Definition end_of {A} (o : outcome world A) (w : world) : world :=
  match o with Ret _ w' => w' | Throw _ w' => w' | Undef => w end.

Definition demo : world := end_of (allocate 1 1 1 1 1 (world0 true false)) (world0 true false).

Lemma demo_allocate : allocate 1 1 1 1 1 (world0 true false) = Ret tt demo.
Proof.
  destruct (allocate_plenty true false 1 1 1 1 1) as (w & E & _); [done..|].
  unfold demo. rewrite E. exact eq_refl.
Qed.

Lemma demo_running : pool_running demo.
Proof.
  destruct (allocate_plenty true false 1 1 1 1 1) as (w & E & Hwf & Hf & _ & Hd & _ & Hb); [done..|].
  unfold demo. rewrite E. exact (conj Hwf (conj Hf (conj Hb Hd))).
Qed.

Lemma demo_use_pool : w_use_pool demo = true.
Proof.
  destruct (allocate_plenty true false 1 1 1 1 1) as (w & E & _ & _ & _ & _ & Hu & _); [done..|].
  unfold demo. rewrite E. exact Hu.
Qed.

(** [demo] with one block of 100 (128) bytes acquired. *)
Definition demo100 : world := end_of (acquire 100 demo) demo.
(** [demo] with one block of 60000 bytes taken from the heap. *)
Definition demo60k : world := end_of (acquire 60000 demo) demo.

Definition got (o : outcome world mem_chunk) : mem_chunk :=
  match o with Ret c _ => c | _ => mem_chunk_at 0 0 end.

Definition got_ptr (o : outcome world Z) : Z := match o with Ret p _ => p | _ => 0 end.

Lemma demo_acquire s : 0 < s -> acquire s demo = Ret (got (acquire s demo)) (end_of (acquire s demo) demo).
Proof.
  intros Hs. destruct (acquire_meets demo s (proj1 demo_running) Hs) as (c & w & E & _).
  rewrite E. exact eq_refl.
Qed.

Lemma demo_after s : 0 < s -> pool_running (end_of (acquire s demo) demo).
Proof.
  intros Hs. eapply client_step_running; [|exact demo_running].
  exact (step_acquire _ s _ _ Hs (demo_acquire s Hs)).
Qed.

Lemma demo_after_use_pool s : 0 < s -> w_use_pool (end_of (acquire s demo) demo) = true.
Proof.
  intros Hs. destruct (acquire_meets demo s (proj1 demo_running) Hs) as (c & w & E & (_ & (_ & Hu & _) & _)).
  rewrite E. cbn [end_of]. rewrite Hu. exact demo_use_pool.
Qed.

Lemma demo100_out : out_pool demo100 (ptr (got (acquire 100 demo))) 128.
Proof.
  exists bucket_128. split; [exists 3; vm_compute; repeat split; discriminate|].
  split; [vm_compute; reflexivity|]. apply (bool_decide_unpack _). vm_compute. exact I.
Qed.

Lemma demo60k_out : out_heap demo60k (ptr (got (acquire 60000 demo))) 60000.
Proof. split; [vm_compute; reflexivity|]. intros []; vm_compute; discriminate. Qed.

Lemma pool_trace_safe_witness :
  clients demo demo100 /\ pool_wf demo100 /\
  exists c w', acquire 20 demo100 = Ret c w' /\ 20 <= capacity c /\ apart (ptr c) (capacity c) (ptr (got (acquire 100 demo))) 128.
Proof.
  assert (clients demo demo100) as Hc.
  { exact (rtc_once _ _ (step_acquire _ 100 _ _ eq_refl (demo_acquire 100 eq_refl))). }
  destruct (pool_trace_safe 1 1 1 1 1 demo demo100 ltac:(lia) ltac:(lia) ltac:(lia) ltac:(lia)
              ltac:(lia) demo_allocate Hc) as (Hwf & _ & Hacq).
  split; [exact Hc|]. split; [exact Hwf|].
  destruct (Hacq 20 ltac:(lia)) as [(c & w' & E & Hle & Ha)|[_ E]]; [|discriminate].
  exact (ex_intro _ c (ex_intro _ w' (conj E (conj Hle (Ha _ _ (or_introl demo100_out)))))).
Defined.

Lemma acquire_release_roundtrip_witness :
  exists c w1 w2, acquire 100 demo = Ret c w1 /\ release c w1 = Ret tt w2 /\ 100 <= capacity c /\
    pool_running w2.
Proof.
  destruct (acquire_release_roundtrip 100 demo demo_running ltac:(lia))
    as (c & w1 & w2 & E1 & E2 & Hle & _ & _ & _ & _ & _ & _ & Hr).
  exists c, w1, w2. exact (conj E1 (conj E2 (conj Hle Hr))).
Defined.

(** With [bucket_50k] of one chunk exhausted, a request it could serve goes to the heap. *)
Lemma tryhard_never_pays_off_witness :
  tryhard_available 60000 demo = Ret None demo /\
  exists c w', acquire 50000 (end_of (acquire 50000 demo) demo) = Ret c w' /\ pool_type c = HEAP.
Proof.
  split.
  - apply (tryhard_never_pays_off 60000 demo (proj1 demo_running) ltac:(lia)). reflexivity.
  - destruct (proj2 (tryhard_never_pays_off 50000 _ (proj1 (demo_after 50000 ltac:(lia))) ltac:(lia))
                bucket_50k eq_refl) as (c & w' & E & Hh & _); [vm_compute; reflexivity|].
    exact (ex_intro _ c (ex_intro _ w' (conj E Hh))).
Defined.

Lemma mempool_realloc_preserves_witness :
  let p := ptr (got (acquire 100 demo)) in
  let w := set_mem (wr ∅ p [1; 2; 3]) demo100 in
  exists q w', mempool_realloc p 300 w = Ret q w' /\ q <> p /\ ld (w_mem w') q 3 = [1; 2; 3].
Proof.
  intros p w.
  assert (pool_running w) as Hr by exact (pool_running_set_mem _ _ (demo_after 100 eq_refl)).
  assert (out_pool w p 128) as Ho by exact demo100_out.
  assert (w_use_pool w = true) as Hu by exact (demo_after_use_pool 100 eq_refl).
  destruct (proj2 (mempool_realloc_preserves w p 128 300 Hr Hu Ho ltac:(lia)) ltac:(lia))
    as (q & w' & k & E & _ & _ & _ & Hl & _).
  exists q, w'. split; [exact E|]. split.
  - assert (Eq : got_ptr (mempool_realloc p 300 w) = q) by (rewrite E; exact eq_refl).
    rewrite <- Eq. vm_compute. discriminate.
  - apply (f_equal (ztake 3)) in Hl. rewrite !ld_take in Hl by lia. rewrite Hl.
    vm_compute. reflexivity.
Defined.

Lemma mempool_realloc_heap_loses_witness :
  let p := ptr (got (acquire 60000 demo)) in
  exists q w', mempool_realloc p 70000 demo60k = Ret q w' /\ q <> p /\ w_mem w' = w_mem demo60k.
Proof.
  intros p.
  destruct (mempool_realloc_heap_loses demo60k p 60000 70000 (demo_after 60000 ltac:(lia))
              (demo_after_use_pool 60000 ltac:(lia)) demo60k_out ltac:(lia))
    as (q & w' & k & E & _ & _ & Hm & Hne).
  exists q, w'. exact (conj E (conj Hne Hm)).
Defined.
