(* ===== verification/Buffer.v ===== *)
(** * Buffer: the byte buffer of common/buffer

    [buffer] owns (or views) a memory block: storage from [memPool] when
    [buffer::use_pool] is set and from [new[]] otherwise.  Every member function
    is a computation over the [world] of [Mempool] that takes the buffer object
    and returns it changed; a [const void*] argument is an address of the store,
    so aliasing and the order of copying and releasing are the code's. *)

From S2P Require Export MempoolSpec.

Record buffer : Type := mkBuffer {
  data_ : Z;
  size_ : Z;
  capacity_ : Z;
  free_ : bool
}.

(** The default member initialisers. *)
Definition buffer_default : buffer := mkBuffer 0 0 0 true.

Section buffer.
Context {AL : Allocator}.

Definition counter_alloc (s : Z) : M world unit :=
  when (0 <? s) (modify (fun w => bump alloc_count 1 (bump alloc_bytes s w))).
Definition counter_free (s : Z) : M world unit :=
  when (0 <? s) (modify (fun w => bump free_count 1 (bump free_bytes s w))).

Definition buffer_dealloc (b : buffer) : M world unit :=
  if free_ b && (0 <? capacity_ b) then
    up <- gets w_use_pool ;;
    if up then release (mem_chunk_at (data_ b) (capacity_ b))
    else heap_free_ptr (data_ b) ;;; counter_free (capacity_ b)
  else mret_ tt.

(** [buffer::release], also the destructor. *)
Definition buffer_release (b : buffer) : M world buffer :=
  buffer_dealloc b ;;; mret_ (mkBuffer 0 0 0 false).

Definition buffer_ctor (s : Z) : M world buffer :=
  up <- gets w_use_pool ;;
  if up then
    c <- acquire s ;;
    mret_ (mkBuffer (ptr c) 0 (capacity c) true)
  else
    p <- (if negb (s =? 0) then new_bytes s else mret_ 0) ;;
    counter_alloc s ;;;
    mret_ (mkBuffer p 0 s true).

Definition buffer_ctor_size (s c : Z) : M world buffer :=
  if c <? s then throw invalid_argument
  else
    up <- gets w_use_pool ;;
    if up then
      ch <- acquire c ;;
      mret_ (mkBuffer (ptr ch) s (capacity ch) true)
    else
      p <- (if negb (c =? 0) then new_bytes c else mret_ 0) ;;
      counter_alloc c ;;;
      mret_ (mkBuffer p s c true).

Definition buffer_ctor_copy (d s : Z) : M world buffer :=
  if negb (s =? 0) then
    up <- gets w_use_pool ;;
    if up then
      c <- acquire s ;;
      memcpy (ptr c) d s ;;;
      mret_ (mkBuffer (ptr c) s (capacity c) true)
    else
      p <- new_bytes s ;;
      counter_alloc s ;;;
      memcpy p d s ;;;
      mret_ (mkBuffer p s s true)
  else mret_ (mkBuffer 0 s 0 true).

Definition buffer_ctor_copy_cap (d s cap : Z) : M world buffer :=
  if cap <? s then throw invalid_argument
  else if negb (cap =? 0) then
    up <- gets w_use_pool ;;
    let! (p, c) :=
      (if up then
         ch <- acquire cap ;; mret_ (ptr ch, capacity ch)
       else
         p <- new_bytes cap ;; counter_alloc cap ;;; mret_ (p, cap)) in
    when (negb (s =? 0)) (memcpy p d s) ;;;
    mret_ (mkBuffer p s c true)
  else mret_ (mkBuffer 0 s cap true).

Definition buffer_ctor_own (d s cap : Z) (own : bool) : M world buffer :=
  if cap <? s then throw invalid_argument
  else
    up <- gets w_use_pool ;;
    when (own && negb up) (counter_alloc cap) ;;;
    mret_ (mkBuffer d s cap own).

Definition buffer_copy (x : buffer) : M world buffer :=
  up <- gets w_use_pool ;;
  let! (d, c) :=
    (if negb (capacity_ x =? 0) then
       if free_ x then
         let! (d, c) :=
           (if up then
              ch <- acquire (capacity_ x) ;; mret_ (ptr ch, capacity ch)
            else
              p <- new_bytes (capacity_ x) ;; counter_alloc (capacity_ x) ;;; mret_ (p, 0)) in
         when (negb (size_ x =? 0)) (memcpy d (data_ x) (size_ x)) ;;; mret_ (d, c)
       else mret_ (data_ x, 0)
     else mret_ (0, 0)) in
  mret_ (mkBuffer d (size_ x) (if up then c else capacity_ x) (free_ x)).

(** Move construction: the new object and what is left of [ref]. *)
Definition buffer_move (r : buffer) : buffer * buffer :=
  (r, mkBuffer (data_ r) (size_ r) (capacity_ r) false).

(** [b = x] for two different objects. *)
Definition buffer_assign_buffer (b x : buffer) : M world buffer :=
  b1 <- (if (capacity_ b <? size_ x) || (data_ b =? 0) then
           buffer_dealloc b ;;;
           if free_ x then
             up <- gets w_use_pool ;;
             if up then
               c <- acquire (capacity_ x) ;;
               mret_ (mkBuffer (ptr c) (size_ b) (capacity c) true)
             else
               p <- new_bytes (capacity_ x) ;;
               counter_alloc (capacity_ x) ;;;
               mret_ (mkBuffer p (size_ b) (capacity_ x) true)
           else mret_ (mkBuffer (data_ x) (size_ b) (capacity_ x) false)
         else mret_ b) ;;
  when (negb (size_ x =? 0) && free_ x) (memcpy (data_ b1) (data_ x) (size_ x)) ;;;
  mret_ (mkBuffer (data_ b1) (size_ x) (capacity_ b1) (free_ b1)).

(** [b = std::move(r)]: the new [b] and what is left of [r]. *)
Definition buffer_move_assign (b r : buffer) : M world (buffer * buffer) :=
  when (free_ b && negb (data_ b =? 0))
    (up <- gets w_use_pool ;;
     if up then release (mem_chunk_at (data_ b) (capacity_ b))
     else heap_free_ptr (data_ b) ;;; counter_free (capacity_ b)) ;;;
  mret_ (buffer_move r).

Definition buffer_swap (b x : buffer) : buffer * buffer := (x, b).

Definition buffer_detach (b : buffer) : Z * buffer :=
  (data_ b, mkBuffer 0 0 0 (free_ b)).

(** [assign(const void*, size_type)]; a null [d] copies nothing. *)
Definition buffer_assign (b : buffer) (d s : Z) : M world buffer :=
  b1 <- (if capacity_ b <? s then
           buffer_dealloc b ;;;
           up <- gets w_use_pool ;;
           p <- (if up then c <- acquire s ;; mret_ (ptr c)
                 else p <- new_bytes s ;; counter_alloc s ;;; mret_ p) ;;
           mret_ (mkBuffer p (size_ b) s true)
         else mret_ b) ;;
  when (negb (s =? 0) && negb (d =? 0)) (memcpy (data_ b1) d s) ;;;
  mret_ (mkBuffer (data_ b1) s (capacity_ b1) (free_ b1)).

Definition buffer_assign_own (b : buffer) (d s c : Z) (own : bool) : M world buffer :=
  buffer_dealloc b ;;;
  up <- gets w_use_pool ;;
  when (own && negb up) (counter_alloc c) ;;;
  mret_ (mkBuffer d s c own).

Definition buffer_attach (b : buffer) (d s : Z) : M world buffer :=
  buffer_assign_own b d s s true.

(** [bool capacity(size_type)]: grow, never shrink. *)
Definition buffer_capacity (b : buffer) (c : Z) : M world (bool * buffer) :=
  if c <=? capacity_ b then mret_ (false, b)
  else
    up <- gets w_use_pool ;;
    let! (d, cd) :=
      (if up then ch <- acquire c ;; mret_ (ptr ch, capacity ch)
       else p <- new_bytes c ;; counter_alloc c ;;; mret_ (p, 0)) in
    when (negb (size_ b =? 0)) (memcpy d (data_ b) (size_ b)) ;;;
    buffer_dealloc b ;;;
    mret_ (true, mkBuffer d (size_ b) (if up then cd else c) true).

(** [bool size(size_type)] *)
Definition buffer_resize (b : buffer) (s : Z) : M world (bool * buffer) :=
  let! (r, b1) := (if capacity_ b <? s then buffer_capacity b s else mret_ (false, b)) in
  mret_ (r, mkBuffer (data_ b1) s (capacity_ b1) (free_ b1)).

Definition buffer_append (b : buffer) (d s : Z) : M world buffer :=
  if negb (s =? 0) then
    let ns := u64 (size_ b + s) in
    b1 <- (if capacity_ b <? ns then
             let! (_, b1) := buffer_capacity b ns in mret_ b1
           else mret_ b) ;;
    memcpy (data_ b1 + size_ b1) d s ;;;
    mret_ (mkBuffer (data_ b1) ns (capacity_ b1) (free_ b1))
  else mret_ b.

Definition buffer_append_buffer (b x : buffer) : M world buffer :=
  buffer_append b (data_ x) (size_ x).

Definition buffer_fill (b : buffer) (v : Z) : M world unit :=
  when (0 <? size_ b)
    (modify (fun w => set_mem (wr (w_mem w) (data_ b) (zrep (size_ b) (u8 v))) w)).

Definition buffer_clear (b : buffer) : buffer :=
  mkBuffer (data_ b) 0 (capacity_ b) (free_ b).

Definition buffer_empty (b : buffer) : bool := size_ b =? 0.

Definition buffer_at (b : buffer) (i : Z) : M world Z :=
  if size_ b <=? i then throw out_of_range
  else gets (fun w => rd (w_mem w) (data_ b + i)).

(** [memchr]: the first index below [n] at which [v] occurs. *)
Fixpoint memchr (m : mem) (a v : Z) (n : nat) : option Z :=
  match n with
  | O => None
  | S n' => if rd m a =? v then Some a else memchr m (a + 1) v n'
  end.

Definition buffer_find (b : buffer) (v pos : Z) (m : mem) : Z :=
  if (size_ b =? 0) || (size_ b <=? pos) then npos
  else match memchr m (data_ b + pos) v (Z.to_nat (size_ b - pos)) with
       | Some p => p - data_ b
       | None => npos
       end.

(** [for (++n; n-- != 0; ) if (data_[n] == v) return n;] *)
Fixpoint rfind_from (m : mem) (a v : Z) (n : nat) : Z :=
  match n with
  | O => npos
  | S n' => if rd m (a + Z.of_nat n') =? v then Z.of_nat n' else rfind_from m a v n'
  end.

Definition buffer_rfind (b : buffer) (v pos : Z) (m : mem) : Z :=
  if negb (size_ b =? 0) then
    let n := size_ b - 1 in
    let n := if pos <? n then pos else n in
    rfind_from m (data_ b) v (Z.to_nat (n + 1))
  else npos.

(** [memcmp(p, q, n) == 0] *)
Fixpoint memcmp_eq (m : mem) (p q : Z) (n : nat) : bool :=
  match n with
  | O => true
  | S n' => (rd m p =? rd m q) && memcmp_eq m (p + 1) (q + 1) n'
  end.

Definition buffer_eq (a b : buffer) (m : mem) : bool :=
  (size_ a =? size_ b) && memcmp_eq m (data_ a) (data_ b) (Z.to_nat (size_ a)).

Definition buffer_flush (b : buffer) (n : Z) : M world buffer :=
  if (n =? 0) || (size_ b <=? n) then mret_ (buffer_clear b)
  else if n <? size_ b then
    (if u64 (2 * n) <? size_ b
     then memmove (data_ b) (data_ b + n) (size_ b - n)
     else memcpy (data_ b) (data_ b + n) (size_ b - n)) ;;;
    mret_ (mkBuffer (data_ b) (size_ b - n) (capacity_ b) (free_ b))
  else throw out_of_range.

Definition buffer_view (b : buffer) (pos len : Z) : M world buffer :=
  if pos <? size_ b then
    if u64 (pos + len) <=? size_ b then buffer_ctor_own (data_ b + pos) len len false
    else buffer_ctor_own (data_ b + pos) (size_ b - pos) (size_ b - pos) false
  else throw out_of_range.

Definition buffer_view_all (b : buffer) : M world buffer := buffer_view b 0 (size_ b).

Definition buffer_view_from (b : buffer) (pos : Z) : M world buffer :=
  buffer_view b pos (u64 (size_ b - pos)).

(** [get_at<T>] and [set_at<T>] for an unsigned [T] of [n] bytes on a
    little-endian host; [idx] is an [unsigned int]. *)
Definition buffer_get_at (n : nat) (b : buffer) (idx : Z) : M world Z :=
  if size_ b <? u64 (idx + Z.of_nat n) then throw out_of_range
  else gets (fun w => le_value (ldn (w_mem w) (data_ b + idx) n)).

Definition buffer_set_at (n : nat) (b : buffer) (idx v : Z) : M world unit :=
  if size_ b <? u64 (idx + Z.of_nat n) then throw out_of_range
  else modify (fun w => set_mem (wr (w_mem w) (data_ b + idx) (le_bytes n v)) w).

Definition buffer_copy_from (sz : Z) (b : buffer) (start : Z) : M world bytes :=
  if size_ b <? u64 (start + sz) then throw out_of_range
  else gets (fun w => ld (w_mem w) (data_ b + start) sz).

Definition buffer_str (b : buffer) (m : mem) : bytes := ld m (data_ b) (size_ b).
End buffer.
