(* ===== verification/BufferSpec.v ===== *)
(** * BufferSpec: a buffer is a byte string

    [buf_ok] says what a buffer object owns; [buf_step] is the frame rule every
    operation obeys: blocks the buffer does not own stay outstanding with their
    contents, and nothing is leaked.  The lemmas give each operation's effect on
    the byte string the buffer holds ([buffer_str]). *)

From S2P Require Export Buffer.

(** The buffer owns the outstanding block it points to, with its full size. *)
Definition owned (w : world) (b : buffer) : Prop :=
  free_ b = true /\ 0 < capacity_ b /\ outstanding w (data_ b) (capacity_ b) /\
  (w_use_pool w = false -> out_heap w (data_ b) (capacity_ b)).

Definition buf_ok (w : world) (b : buffer) : Prop :=
  0 <= size_ b <= capacity_ b /\ (capacity_ b = 0 \/ owned w b).

(** The outstanding blocks of everybody else. *)
Definition others (w : world) (b : buffer) (q k : Z) : Prop :=
  outstanding w q k /\ ~ (0 < capacity_ b /\ q = data_ b).

Definition buf_step (w : world) (b : buffer) (w' : world) (b' : buffer) : Prop :=
  pool_running w' /\ w_use_pool w' = w_use_pool w /\ buf_ok w' b' /\
  (forall q k, others w' b' q k <-> others w b q k) /\
  (forall q k, others w b q k -> ld (w_mem w') q k = ld (w_mem w) q k).

Definition contents (w : world) (b : buffer) : bytes := buffer_str b (w_mem w).

(** [s] bytes at [d] lie inside a block that is not the buffer's. *)
Definition source (w : world) (b : buffer) (d s : Z) : Prop :=
  exists q k, others w b q k /\ q <= d /\ d + s <= q + k.

Lemma buf_step_trans w1 b1 w2 b2 w3 b3 :
  buf_step w1 b1 w2 b2 -> buf_step w2 b2 w3 b3 -> buf_step w1 b1 w3 b3.
Proof.
  intros (_ & Hu1 & _ & Ho1 & Hm1) (Hr & Hu2 & Hb & Ho2 & Hm2).
  split; [done|]. split; [congruence|]. split; [done|]. split.
  - intros q k. by rewrite Ho2, Ho1.
  - intros q k Hq. rewrite Hm2 by (by apply Ho1). by apply Hm1.
Qed.

Lemma ld_sub m q k d s : 0 <= s -> q <= d -> d + s <= q + k ->
  ld m d s = ztake s (zdrop (d - q) (ld m q k)).
Proof.
  intros. rewrite ld_drop, ld_take by lia. f_equal. lia.
Qed.

(** What the step preserves of a source range. *)
Lemma source_kept w b w' b' d s :
  0 <= s -> buf_step w b w' b' -> source w b d s ->
  source w' b' d s /\ ld (w_mem w') d s = ld (w_mem w) d s.
Proof.
  intros Hs (_ & _ & _ & Ho & Hm) (q & k & Hq & H1 & H2). split.
  - exists q, k. by rewrite Ho.
  - rewrite !(ld_sub _ q k d s) by lia. by rewrite Hm.
Qed.

Lemma owned_apart w b q k :
  pool_running w -> owned w b -> others w b q k -> apart (data_ b) (capacity_ b) q k.
Proof.
  intros [Hwf _] (_ & Hc & Ho & _) [Hq Hne].
  apply (outstanding_apart w); [done..|]. intros E. apply Hne. by split.
Qed.

Lemma source_apart w b d s :
  pool_running w -> owned w b -> source w b d s -> 0 <= s ->
  apart (data_ b) (capacity_ b) d s.
Proof.
  intros Hr Hb (q & k & Hq & H1 & H2) Hs.
  pose proof (owned_apart w b q k Hr Hb Hq). unfold apart in *. lia.
Qed.

(** Writing inside the owned block and changing [size_]. *)
Lemma write_own w b a bs n :
  pool_running w -> owned w b -> data_ b <= a -> a + zlen bs <= data_ b + capacity_ b ->
  0 <= n <= capacity_ b ->
  buf_step w b (set_mem (wr (w_mem w) a bs) w) (mkBuffer (data_ b) n (capacity_ b) (free_ b)).
Proof.
  intros Hr Hb H1 H2 Hn. split; [exact Hr|]. split; [done|]. split; [|split].
  - split; [exact Hn|right; exact Hb].
  - done.
  - intros q k Hq. pose proof (owned_apart w b q k Hr Hb Hq).
    destruct Hr as [Hwf _]. destruct (outstanding_pos w q k Hwf (proj1 Hq)).
    simpl. apply ld_wr_apart; [lia|]. unfold apart in *. lia.
Qed.

Lemma resize_own w b n :
  pool_running w -> buf_ok w b -> 0 <= n <= capacity_ b ->
  buf_step w b w (mkBuffer (data_ b) n (capacity_ b) (free_ b)).
Proof. intros Hr [_ Hb] Hn. split; [exact Hr|]. by split_and!. Qed.

Section steps.
Context {AL : Allocator} {PL : Plenty}.

Lemma counter_alloc_spec s w :
  exists w', counter_alloc s w = Ret tt w' /\ same_pool w w' /\ frame w w'.
Proof. unfold counter_alloc, when. case_if; eexists; by split. Qed.

Lemma counter_free_spec s w :
  exists w', counter_free s w = Ret tt w' /\ same_pool w w' /\ frame w w'.
Proof. unfold counter_free, when. case_if; eexists; by split. Qed.

Lemma same_pool_running w w' : same_pool w w' -> frame w w' -> pool_running w -> pool_running w'.
Proof.
  intros Hs (_ & _ & Hb & Hd) (Hwf & Hf & Hb' & Hd').
  split; [by eapply same_pool_wf|]. split; [by eapply same_pool_full|]. split; congruence.
Qed.

(** The storage request of the constructors and of [capacity]: what is obtained. *)
Definition grab (c : Z) : M world (Z * Z) :=
  up <- gets w_use_pool ;;
  if up then ch <- acquire c ;; mret_ (ptr ch, capacity ch)
  else p <- new_bytes c ;; counter_alloc c ;;; mret_ (p, c).

Lemma same_pool_out_heap w w' p n : same_pool w w' -> out_heap w' p n <-> out_heap w p n.
Proof. intros (Hl & Hb & _). unfold out_heap. by rewrite Hb, Hl. Qed.

Lemma grab_spec c w :
  pool_running w -> 0 < c ->
  exists p n w', grab c w = Ret (p, n) w' /\ c <= n /\ pool_running w' /\ frame w w' /\
    allocated_block w w' p n /\ (w_use_pool w = false -> out_heap w' p n) /\
    (forall q k, out_heap w q k -> out_heap w' q k).
Proof.
  intros Hr Hc. pose proof Hr as (Hwf & Hf & Hb & Hd). unfold grab.
  rewrite (bind_ret _ _ w (w_use_pool w) w) by done. destruct (w_use_pool w) eqn:Hup.
  - destruct (acquire_meets w c Hwf Hc)
      as (ch & w' & E & (Hwf' & Hfr & _ & n & Hle & _ & Hal & Hfull & _ & Hh)).
    rewrite (bind_ret _ _ _ _ _ E). destruct (Hfull Hf) as [<- Hf'].
    exists (ptr ch), (capacity ch), w'. pose proof Hfr as (_ & _ & Hb' & Hd').
    split; [done|]. split; [done|]. split; [|done].
    split; [done|]. split; [done|]. split; congruence.
  - destruct (new_spec w c Hwf Hc (plenty _ _)) as (E & Hwf' & _ & Hal & Hf').
    rewrite (bind_ret _ _ _ _ _ E).
    set (w1 := set_live _ w) in *. set (p := alloc_addr (w_live w) c) in *.
    destruct (counter_alloc_spec c w1) as (w2 & E2 & Hs & Hfr). rewrite (bind_ret _ _ _ _ _ E2).
    assert (w_live w !! p = None) as Hfresh by (apply heap_new_fresh, Hwf).
    exists p, c, w2. split; [done|]. split; [lia|].
    split. { apply (same_pool_running w1); [done..|]. split; [done|]. split; [by apply Hf'|done]. }
    split; [exact Hfr|]. split.
    { destruct Hal as [Hno Ho]. split; [done|]. intros q k.
      by rewrite (same_pool_outstanding w1 w2 q k Hs), Ho. }
    assert (forall b, bigptr (w_bk w b) <> p) as Hbp.
    { intros b Eb. pose proof (wf_bucket_live w Hwf b) as Hl. rewrite Eb in Hl. congruence. }
    split.
    + intros _. apply (same_pool_out_heap w1); [done|]. split; [|done].
      simpl. by rewrite lookup_insert_eq.
    + intros q k [Hq Hqb]. apply (same_pool_out_heap w1); [done|]. split; [|done].
      simpl. rewrite lookup_insert_ne; [done|]. intros Eq. subst q. congruence.
Qed.

Lemma buffer_dealloc_empty w b : capacity_ b = 0 -> buffer_dealloc b w = Ret tt w.
Proof. intros Hc. unfold buffer_dealloc. by rewrite Hc, andb_false_r. Qed.

Lemma buffer_dealloc_spec w b :
  pool_running w -> owned w b ->
  exists w', buffer_dealloc b w = Ret tt w' /\ pool_running w' /\ frame w w' /\
    released_block w w' (data_ b).
Proof.
  intros Hr (Hfree & Hc & Ho & Hh). pose proof Hr as (Hwf & Hf & Hb & Hd).
  unfold buffer_dealloc. rewrite Hfree, (proj2 (Z.ltb_lt _ _)) by done. cbn [andb].
  rewrite (bind_ret _ _ w (w_use_pool w) w) by done. destruct (w_use_pool w).
  - destruct (release_meets w (mem_chunk_at (data_ b) (capacity_ b)) (capacity_ b))
      as (w' & E & (Hwf' & Hfr & Hrel) & Hf'); [done..|simpl; lia|].
    exists w'. pose proof Hfr as (_ & _ & Hb' & Hd').
    split; [done|]. split; [|done].
    split; [done|]. split; [by apply Hf'|]. split; congruence.
  - destruct (heap_free_ptr_spec w (data_ b) (capacity_ b) Hwf (Hh eq_refl))
      as (w1 & E & (Hwf1 & Hfr1 & Hrel) & Hf1).
    rewrite (bind_ret _ _ _ _ _ E).
    destruct (counter_free_spec (capacity_ b) w1) as (w2 & E2 & Hs & Hfr).
    exists w2. split; [exact E2|]. pose proof Hfr1 as (_ & _ & Hb' & Hd').
    split. { apply (same_pool_running w1); [done..|].
             split; [done|]. split; [by apply Hf1|]. split; congruence. }
    split; [by eapply frame_trans|]. intros q k.
    rewrite (same_pool_outstanding w1 w2 q k Hs), (same_pool_out_heap w1 w2 q k Hs).
    apply Hrel.
Qed.

Lemma buffer_capacity_eq b c w :
  capacity_ b < c ->
  buffer_capacity b c w =
  (let! (d, cd) := grab c in
   when (negb (size_ b =? 0)) (memcpy d (data_ b) (size_ b)) ;;;
   buffer_dealloc b ;;; mret_ (true, mkBuffer d (size_ b) cd true)) w.
Proof.
  intros Hc. unfold buffer_capacity, grab. rewrite (proj2 (Z.leb_gt _ _)) by done.
  unfold gets, mbind_, mret_. destruct (w_use_pool w); [by destruct (acquire c w)|].
  destruct (new_bytes c w); [|done..]. by destruct (counter_alloc c w0).
Qed.

(** A fresh block filled with [bs] and put in place of what the buffer owned, up to
    the release of the old block. *)
Lemma fresh_block w w1 p n bs s b :
  pool_running w -> buf_ok w b ->
  pool_running w1 -> frame w w1 -> allocated_block w w1 p n ->
  (w_use_pool w = false -> out_heap w1 p n) -> (forall q k, out_heap w q k -> out_heap w1 q k) ->
  zlen bs <= s <= n -> 0 < n ->
  exists w2, buffer_dealloc b (set_mem (wr (w_mem w1) p bs) w1) = Ret tt w2 /\
    w_mem w2 = wr (w_mem w) p bs /\
    buf_step w b w2 (mkBuffer p s n true) /\ owned w2 (mkBuffer p s n true).
Proof.
  intros Hr [Hsz Hb] Hr1 (Hm & Hu & _ & _) [Hno Hal] Hh Hhp Hs Hn. rewrite Hm.
  pose proof (zlen_nonneg bs).
  set (w1' := set_mem (wr (w_mem w) p bs) w1).
  assert (pool_running w1') as Hr1' by exact Hr1.
  assert (Hout : forall q k, outstanding w1' q k <-> outstanding w q k \/ (q = p /\ k = n)) by exact Hal.
  assert (Hkeep : (forall q k, outstanding w q k -> ld (wr (w_mem w) p bs) q k = ld (w_mem w) q k)).
  { intros q k Hq. pose proof (outstanding_pos w q k (proj1 Hr) Hq).
    apply ld_wr_apart; [lia|].
    assert (apart p n q k) as Ha.
    { apply (outstanding_apart w1); [apply Hr1|apply Hal; by right|apply Hal; by left|].
      intros ->. by eapply Hno. }
    unfold apart in *. lia. }
  destruct Hb as [Hc0|Hown].
  - exists w1'. rewrite buffer_dealloc_empty by done. split; [done|]. split; [done|].
    assert (owned w1' (mkBuffer p s n true)) as Ho.
    { split; [done|]. split; [done|]. split; [by apply Hout; right|]. simpl. rewrite Hu. exact Hh. }
    split; [|exact Ho]. split; [done|]. split; [done|]. split; [split; [simpl; lia|by right]|].
    split; [|by intros q k [Hq _]; apply Hkeep].
    intros q k. unfold others. rewrite Hout. simpl. split.
    + intros [[Hq|[-> ->]] Hne]; [split; [done|lia]|]. by destruct Hne.
    + intros [Hq _]. split; [by left|]. intros [_ ->]. by eapply Hno.
  - assert (owned w1' b) as Hown1.
    { destruct Hown as (H1 & H2 & H3 & H4). split; [done|]. split; [done|].
      split; [apply Hout; by left|]. simpl. rewrite Hu. intros Hup. apply Hhp. by apply H4. }
    destruct (buffer_dealloc_spec w1' b Hr1' Hown1) as (w2 & E & Hr2 & (Hm2 & Hu2 & _) & Hrel).
    exists w2. split; [exact E|]. split; [exact Hm2|].
    assert (data_ b <> p) as Hne.
    { intros Eq. apply (Hno (capacity_ b)). rewrite <- Eq. apply Hown. }
    assert (owned w2 (mkBuffer p s n true)) as Ho.
    { split; [done|]. split; [done|]. split; [apply Hrel; split; [by apply Hout; right|done]|].
      simpl. rewrite Hu2. simpl. rewrite Hu. intros Hup. by apply Hrel; [apply Hh|]. }
    split; [|exact Ho]. split; [done|]. split; [by rewrite Hu2|]. split; [split; [simpl; lia|by right]|].
    split.
    + intros q k. unfold others. rewrite (proj1 (Hrel q k)), Hout. simpl. split.
      * intros [[[Hq|[-> ->]] Hq'] Hqp]; [split; [done|]; by intros [_ ->]|]. by destruct Hqp.
      * intros [Hq Hq']. split; [split; [by left|]|].
        -- intros ->. apply Hq'. split; [apply Hown|done].
        -- intros [_ ->]. by eapply Hno.
    + intros q k [Hq _]. rewrite Hm2. by apply Hkeep.
Qed.

Lemma when_memcpy w d a n :
  0 <= n -> apart d n a n \/ n = 0 ->
  when (negb (n =? 0)) (memcpy d a n) w = Ret tt (set_mem (wr (w_mem w) d (ld (w_mem w) a n)) w).
Proof.
  intros Hn Ha. destruct (Z.eqb_spec n 0) as [->|Hne]; simpl; [by destruct w|].
  apply memcpy_spec. by destruct Ha.
Qed.

Lemma fresh_apart w w1 p n q k :
  pool_running w1 -> allocated_block w w1 p n -> outstanding w q k -> apart p n q k.
Proof.
  intros [Hwf _] [Hno Hal] Hq.
  apply (outstanding_apart w1); [done|apply Hal; by right|apply Hal; by left|].
  intros <-. by eapply Hno.
Qed.

(** The core of [capacity(c)]: a new block with the old bytes, the old block returned. *)
Lemma buffer_capacity_grow w b c :
  pool_running w -> buf_ok w b -> capacity_ b < c ->
  exists b' w', buffer_capacity b c w = Ret (true, b') w' /\ buf_step w b w' b' /\
    c <= capacity_ b' /\ size_ b' = size_ b /\ owned w' b' /\
    contents w' b' = contents w b.
Proof.
  intros Hr Hok Hc. pose proof Hok as [Hsz Hb]. rewrite buffer_capacity_eq by done.
  destruct (grab_spec c w Hr ltac:(lia))
    as (p & n & w1 & Eg & Hn & Hr1 & Hfr1 & Hal & Hh & Hhp).
  pose proof Hfr1 as (Hm1 & _). rewrite (bind_ret _ _ _ _ _ Eg).
  assert (apart p (size_ b) (data_ b) (size_ b) \/ size_ b = 0) as Ha.
  { destruct Hb as [?|(_ & _ & Ho & _)]; [right; lia|left].
    pose proof (fresh_apart w w1 p n _ _ Hr1 Hal Ho). unfold apart in *. lia. }
  rewrite (bind_ret _ _ _ _ _ (when_memcpy w1 p (data_ b) (size_ b) ltac:(lia) Ha)).
  destruct (fresh_block w w1 p n (ld (w_mem w1) (data_ b) (size_ b)) (size_ b) b Hr Hok Hr1 Hfr1 Hal Hh Hhp)
    as (w2 & E2 & Hm2 & Hst & Hown); [rewrite zlen_ld; lia|lia|].
  rewrite (bind_ret _ _ _ _ _ E2). eexists _, w2. split; [reflexivity|].
  split; [exact Hst|]. split; [done|]. split; [done|]. split; [exact Hown|].
  unfold contents, buffer_str. simpl. rewrite Hm2, Hm1.
  apply ld_wr_same, zlen_ld. lia.
Qed.

(** [append] of a range that is not inside the buffer's block, or fits without growing. *)
Lemma buffer_append_spec w b d s :
  pool_running w -> buf_ok w b -> 0 <= s -> size_ b + s < 2 ^ 64 ->
  (source w b d s \/ size_ b + s <= capacity_ b /\ data_ b <= d /\ d + s <= data_ b + size_ b) ->
  exists b' w', buffer_append b d s w = Ret b' w' /\ buf_step w b w' b' /\
    contents w' b' = contents w b ++ ld (w_mem w) d s.
Proof.
  intros Hr Hok Hs Hlt Hsrc. pose proof Hok as [Hsz Hb]. unfold buffer_append.
  destruct (Z.eqb_spec s 0) as [->|Hne]; cbn [negb].
  { exists b, w. split; [done|]. rewrite ld_0, app_nil_r. split; [|done].
    split; [done|]. by split_and!. }
  rewrite u64_small by lia. set (ns := size_ b + s).
  assert (exists b1 w1,
    (if capacity_ b <? ns then (let! (_, b1) := buffer_capacity b ns in mret_ b1) else mret_ b) w = Ret b1 w1 /\
    buf_step w b w1 b1 /\ ns <= capacity_ b1 /\ size_ b1 = size_ b /\ owned w1 b1 /\
    contents w1 b1 = contents w b /\
    ld (w_mem w1) d s = ld (w_mem w) d s /\ apart (data_ b1 + size_ b1) s d s)
    as (b1 & w1 & E1 & Hst & Hcap & Hs1 & Hown & Hcont & Hsrc1 & Hap).
  { destruct (Z.ltb_spec (capacity_ b) ns).
    - destruct Hsrc as [Hsrc|[? _]]; [|unfold ns in *; lia].
      destruct (buffer_capacity_grow w b ns Hr Hok ltac:(lia))
        as (b1 & w1 & E & Hst & Hc & Hs1 & Hown & Hcont).
      exists b1, w1. rewrite (bind_ret _ _ _ _ _ E).
      destruct (source_kept w b w1 b1 d s Hs Hst Hsrc) as [Hsrc1 El].
      pose proof (source_apart w1 b1 d s (proj1 Hst) Hown Hsrc1 Hs).
      split_and!; try done. unfold apart, ns in *. lia.
    - exists b, w. assert (owned w b) as Hown by (destruct Hb; [unfold ns in *; lia|done]).
      split; [done|]. split; [split; [done|]; by split_and!|]. split_and!; try done.
      destruct Hsrc as [Hsrc|(_ & ? & ?)]; [|unfold apart; lia].
      pose proof (source_apart w b d s Hr Hown Hsrc Hs). unfold apart, ns in *. lia. }
  rewrite (bind_ret _ _ _ _ _ E1), (bind_ret _ _ _ _ _ (memcpy_spec w1 _ _ _ Hap)).
  rewrite Hs1 in Hap. eexists _, _. split; [reflexivity|]. rewrite Hs1, Hsrc1. split.
  - eapply buf_step_trans; [exact Hst|].
    apply write_own; [apply Hst|done|lia| |unfold ns; lia].
    rewrite zlen_ld by lia. unfold ns in *. lia.
  - unfold contents, buffer_str in *. simpl. unfold ns. rewrite ld_app by lia. f_equal.
    + rewrite <- Hcont, Hs1. apply ld_wr_apart; [lia|]. rewrite zlen_ld by lia.
      unfold apart. lia.
    + apply ld_wr_same, zlen_ld. lia.
Qed.

(** [flush] of any number of bytes. *)
Lemma buffer_flush_spec w b n :
  pool_running w -> buf_ok w b -> 0 <= n -> size_ b < 2 ^ 63 ->
  exists b' w', buffer_flush b n w = Ret b' w' /\ buf_step w b w' b' /\
    contents w' b' = (if (n =? 0) || (size_ b <=? n) then [] else zdrop n (contents w b)).
Proof.
  intros Hr Hok Hn Hlt. pose proof Hok as [Hsz Hb]. unfold buffer_flush.
  destruct ((n =? 0) || (size_ b <=? n)) eqn:E.
  { eexists _, _. split; [reflexivity|]. split; [apply resize_own; auto; lia|]. done. }
  apply orb_false_iff in E as [?%Z.eqb_neq ?%Z.leb_gt].
  rewrite (proj2 (Z.ltb_lt _ _)) by lia. rewrite u64_small by lia.
  assert (owned w b) as Hown by (destruct Hb; [lia|done]).
  assert ((if 2 * n <? size_ b then memmove (data_ b) (data_ b + n) (size_ b - n)
           else memcpy (data_ b) (data_ b + n) (size_ b - n)) w =
          Ret tt (set_mem (wr (w_mem w) (data_ b) (ld (w_mem w) (data_ b + n) (size_ b - n))) w)) as E.
  { destruct (Z.ltb_spec (2 * n) (size_ b)); [done|]. apply memcpy_spec. unfold apart. lia. }
  rewrite (bind_ret _ _ _ _ _ E). eexists _, _. split; [reflexivity|]. split.
  - apply write_own; [done..|lia| |lia]. rewrite zlen_ld by lia. lia.
  - unfold contents, buffer_str. simpl. rewrite ld_drop by lia. apply ld_wr_same, zlen_ld. lia.
Qed.

Lemma buffer_fill_spec w b v :
  pool_running w -> buf_ok w b ->
  exists w', buffer_fill b v w = Ret tt w' /\ buf_step w b w' b /\
    contents w' b = zrep (size_ b) (u8 v).
Proof.
  intros Hr Hok. pose proof Hok as [Hsz Hb]. unfold buffer_fill.
  destruct (Z.ltb_spec 0 (size_ b)).
  - eexists. split; [reflexivity|].
    assert (owned w b) as Hown by (destruct Hb; [lia|done]). split.
    + destruct b as [a z c f]. apply write_own; simpl in *; auto; try lia. rewrite zlen_zrep; lia.
    + apply ld_wr_same, zlen_zrep. lia.
  - exists w. split; [done|]. split; [split; [done|]; by split_and!|].
    unfold contents, buffer_str. by replace (size_ b) with 0 by lia.
Qed.

(** Construction from a byte range. *)
Lemma buffer_ctor_copy_spec w d s :
  pool_running w -> 0 <= s ->
  (exists q k, outstanding w q k /\ q <= d /\ d + s <= q + k) ->
  exists b w', buffer_ctor_copy d s w = Ret b w' /\ buf_step w buffer_default w' b /\
    contents w' b = ld (w_mem w) d s.
Proof.
  intros Hr Hs (q & k & Hq & H1 & H2). unfold buffer_ctor_copy.
  assert (buf_ok w buffer_default) as Hok by (split; [done|by left]).
  destruct (Z.eqb_spec s 0) as [->|Hne]; cbn [negb].
  { eexists _, _. split; [reflexivity|]. split; [|done].
    split; [done|]. split; [done|]. split; [done|]. by split. }
  assert (E : forall (f : buffer -> M world buffer),
    (up <- gets w_use_pool ;;
     if up then c <- acquire s ;; memcpy (ptr c) d s ;;; mret_ (mkBuffer (ptr c) s (capacity c) true)
     else p <- new_bytes s ;; counter_alloc s ;;; memcpy p d s ;;; mret_ (mkBuffer p s s true)) w =
    (let! (p, c) := grab s in memcpy p d s ;;; mret_ (mkBuffer p s c true)) w).
  { intros _. unfold grab, gets, mbind_, mret_. destruct (w_use_pool w); [by destruct (acquire s w)|].
    destruct (new_bytes s w); [|done..]. by destruct (counter_alloc s w0). }
  rewrite (E mret_). clear E.
  destruct (grab_spec s w Hr ltac:(lia)) as (p & n & w1 & Eg & Hn & Hr1 & Hfr1 & Hal & Hh & Hhp).
  pose proof Hfr1 as (Hm1 & _). rewrite (bind_ret _ _ _ _ _ Eg).
  pose proof (fresh_apart w w1 p n q k Hr1 Hal Hq) as Ha.
  assert (apart p s d s) as Ha' by (unfold apart in *; lia).
  rewrite (bind_ret _ _ _ _ _ (memcpy_spec w1 p d s Ha')).
  destruct (fresh_block w w1 p n (ld (w_mem w1) d s) s _ Hr Hok Hr1 Hfr1 Hal Hh Hhp)
    as (w2 & E2 & Hm2 & Hst & Hown); [rewrite zlen_ld; lia|lia|].
  rewrite buffer_dealloc_empty in E2 by done. injection E2 as <-.
  eexists _, _. split; [reflexivity|]. split; [exact Hst|].
  unfold contents, buffer_str. simpl. rewrite Hm1. apply ld_wr_same, zlen_ld. lia.
Qed.
End steps.
