(* ===== verification/BufferProps.v ===== *)
(** * BufferProps: the properties of the buffer

    Refinement of the buffer's mutating operations to operations on byte strings,
    and the behaviour of the searching, viewing and accessor functions. *)

From S2P Require Export BufferSpec PoolProps.

(** ** The abstract buffer *)

(** The operations of a buffer that changes in place. *)
Inductive bop : Type :=
  | OpAppend (d s : Z)
  | OpFlush (n : Z)
  | OpClear
  | OpFill (v : Z)
  | OpReserve (c : Z).

(** What an operation promises, on the byte string alone: [src] gives the bytes of a
    source range. *)
Definition bop_spec (src : Z -> Z -> bytes) (o : bop) (bs : bytes) : bytes :=
  match o with
  | OpAppend d s => bs ++ src d s
  | OpFlush n => if (n =? 0) || (zlen bs <=? n) then [] else zdrop n bs
  | OpClear => []
  | OpFill v => zrep (zlen bs) (u8 v)
  | OpReserve _ => bs
  end.

Definition bop_grow (o : bop) : Z := match o with OpAppend _ s => s | _ => 0 end.

Definition bop_ok (w : world) (b : buffer) (o : bop) : Prop :=
  match o with
  | OpAppend d s => 0 <= s /\ source w b d s
  | OpFlush n => 0 <= n
  | OpClear | OpFill _ | OpReserve _ => True
  end.

Section refinement.
Context {AL : Allocator} {PL : Plenty}.

Definition bop_run (o : bop) (b : buffer) : M world buffer :=
  match o with
  | OpAppend d s => buffer_append b d s
  | OpFlush n => buffer_flush b n
  | OpClear => mret_ (buffer_clear b)
  | OpFill v => buffer_fill b v ;;; mret_ b
  | OpReserve c => let! (_, b') := buffer_capacity b c in mret_ b'
  end.

Fixpoint bops_run (os : list bop) (b : buffer) : M world buffer :=
  match os with
  | [] => mret_ b
  | o :: os' => b' <- bop_run o b ;; bops_run os' b'
  end.

Lemma zlen_contents w b : buf_ok w b -> zlen (contents w b) = size_ b.
Proof. intros [? _]. apply zlen_ld. lia. Qed.

Lemma bop_step w b o :
  pool_running w -> buf_ok w b -> bop_ok w b o -> size_ b + bop_grow o < 2 ^ 63 ->
  exists b' w', bop_run o b w = Ret b' w' /\ buf_step w b w' b' /\
    contents w' b' = bop_spec (ld (w_mem w)) o (contents w b).
Proof.
  intros Hr Hok Ho Hlt. pose proof (zlen_contents w b Hok) as Hz. pose proof Hok as [? _].
  destruct o as [d s|n| |v|c]; simpl in *.
  - destruct Ho. apply buffer_append_spec; auto. lia.
  - rewrite Hz. apply buffer_flush_spec; auto. lia.
  - eexists _, w. split; [done|]. split; [apply resize_own; auto; lia|done].
  - destruct (buffer_fill_spec w b v Hr Hok) as (w' & E & Hst & Hc).
    exists b, w'. rewrite (bind_ret _ _ _ _ _ E), Hz. by split.
  - destruct (Z.leb_spec c (capacity_ b)).
    + exists b, w. unfold buffer_capacity. rewrite (proj2 (Z.leb_le _ _)) by done.
      split; [done|]. split; [|done]. split; [done|]. by split_and!.
    + destruct (buffer_capacity_grow w b c Hr Hok ltac:(lia)) as (b' & w' & E & Hst & _ & _ & _ & Hc).
      exists b', w'. rewrite (bind_ret _ _ _ _ _ E). by split.
Qed.

Lemma bop_ok_kept w b w' b' o : buf_step w b w' b' -> bop_ok w b o -> bop_ok w' b' o.
Proof. intros Hst. destruct o; simpl; auto. intros [? Hs]. split; [done|]. by eapply source_kept. Qed.

Lemma bop_spec_ext src1 src2 o bs :
  (forall d s, o = OpAppend d s -> src1 d s = src2 d s) -> bop_spec src1 o bs = bop_spec src2 o bs.
Proof. intros H. destruct o; simpl; auto. by rewrite H. Qed.

Lemma bops_spec_ext src1 src2 os bs :
  Forall (fun o => forall d s, o = OpAppend d s -> src1 d s = src2 d s) os ->
  foldl (fun bs o => bop_spec src1 o bs) bs os = foldl (fun bs o => bop_spec src2 o bs) bs os.
Proof.
  intros H. revert bs. induction H as [|o os Ho _ IH]; intros bs; simpl; [done|].
  by rewrite (bop_spec_ext src1 src2), IH.
Qed.

Definition grow_total (os : list bop) : Z := foldr (fun o n => bop_grow o + n) 0 os.

Lemma bop_spec_length w b o b' w' :
  buf_ok w b -> bop_ok w b o -> buf_ok w' b' ->
  contents w' b' = bop_spec (ld (w_mem w)) o (contents w b) ->
  size_ b' <= size_ b + bop_grow o.
Proof.
  intros Hok Ho Hok' E. rewrite <- (zlen_contents w' b'), E by done.
  pose proof (zlen_contents w b Hok) as Hz. pose proof Hok as [? _].
  destruct o as [d s|n| |v|c]; simpl in *.
  - destruct Ho. rewrite zlen_app, zlen_ld; lia.
  - case_if; [rewrite zlen_nil; lia|]. rewrite zlen_zdrop; lia.
  - rewrite zlen_nil. lia.
  - rewrite zlen_zrep; lia.
  - lia.
Qed.

(** [C3] On a running pool of a release build, with memory to be had, and for a buffer that
    owns its block or has none: every sequence of appends, flushes, clears, fills and
    reservations succeeds - whatever the mix of pool, heap and growth - and leaves in the buffer
    exactly the bytes the sequence gives on plain byte strings; blocks the buffer does not own
    keep their contents and none is leaked or freed. What is appended lies within blocks
    that are not the buffer's own (an append of its own bytes that has to grow reads
    them after their release), and all that is appended and was there before is less than 2^63 bytes. *)
Theorem buffer_refines_bytes w b os :
  pool_running w -> buf_ok w b -> Forall (bop_ok w b) os ->
  size_ b + grow_total os < 2 ^ 63 ->
  exists b' w', bops_run os b w = Ret b' w' /\
    contents w' b' = foldl (fun bs o => bop_spec (ld (w_mem w)) o bs) (contents w b) os /\
    buf_ok w' b' /\ pool_running w' /\
    (forall q k, others w' b' q k <-> others w b q k) /\
    (forall q k, others w b q k -> ld (w_mem w') q k = ld (w_mem w) q k).
Proof.
  intros Hr Hok Hall. revert w b Hr Hok Hall.
  induction os as [|o os IH]; intros w b Hr Hok Hall Hlt; [by exists b, w|].
  apply Forall_cons in Hall as [Ho Hall].
  assert (forall os', Forall (bop_ok w b) os' -> 0 <= grow_total os') as Hnn.
  { induction 1 as [|o' os' Ho' _ IH']; simpl; [done|].
    assert (0 <= bop_grow o') by (destruct o'; simpl in *; lia). lia. }
  cbn [grow_total foldr] in Hlt. fold (grow_total os) in Hlt. pose proof (Hnn os Hall).
  destruct (bop_step w b o Hr Hok Ho ltac:(lia)) as (b1 & w1 & E1 & Hst & Hc1).
  pose proof (bop_spec_length w b o b1 w1 Hok Ho ltac:(apply Hst) Hc1).
  assert (Forall (bop_ok w1 b1) os) as Hall1.
  { eapply Forall_impl; [exact Hall|]. intros o' Ho'. by eapply bop_ok_kept. }
  destruct (IH w1 b1 ltac:(apply Hst) ltac:(apply Hst) Hall1 ltac:(lia))
    as (b' & w' & E & Hc & Hok' & Hr' & Hoth & Hm).
  pose proof Hst as (_ & _ & _ & Hoth1 & Hm1).
  exists b', w'. split; [simpl; by rewrite (bind_ret _ _ _ _ _ E1)|].
  split; [|split; [done|split; [done|split]]].
  - cbn [foldl]. rewrite Hc, Hc1. apply bops_spec_ext.
    eapply Forall_impl; [exact Hall|]. intros o' Ho' d s ->. destruct Ho' as [Hs Hsrc].
    by apply (source_kept w b w1 b1 d s Hs Hst).
  - intros q k. by rewrite Hoth, Hoth1.
  - intros q k Hq. rewrite Hm by (by apply Hoth1). by apply Hm1.
Qed.
End refinement.

(** ** Searching *)

Section search.
Context (m : mem) (b : buffer).

(** The [i]-th byte of the buffer. *)
Definition byte_at (i : Z) : Z := rd m (data_ b + i).

Lemma memchr_spec v n : forall a,
  match memchr m a v n with
  | Some p => a <= p < a + Z.of_nat n /\ rd m p = v /\ forall q, a <= q < p -> rd m q <> v
  | None => forall q, a <= q < a + Z.of_nat n -> rd m q <> v
  end.
Proof.
  induction n as [|n IH]; intros a; cbn [memchr]; [intros q; lia|].
  destruct (Z.eqb_spec (rd m a) v) as [E|E].
  - split; [lia|]. split; [done|]. intros q; lia.
  - specialize (IH (a + 1)). destruct (memchr m (a + 1) v n) as [p|].
    + destruct IH as (? & ? & Hq). split; [lia|]. split; [done|]. intros q Hr.
      destruct (decide (q = a)) as [->|]; [done|]. apply Hq. lia.
    + intros q Hr. destruct (decide (q = a)) as [->|]; [done|]. apply IH. lia.
Qed.

Lemma rfind_from_spec v n :
  let r := rfind_from m (data_ b) v n in
  (r = npos /\ forall i, 0 <= i < Z.of_nat n -> byte_at i <> v) \/
  (0 <= r < Z.of_nat n /\ byte_at r = v /\ forall i, r < i < Z.of_nat n -> byte_at i <> v).
Proof.
  induction n as [|n IH]; cbn [rfind_from]; [left; split; [done|lia]|].
  destruct (Z.eqb_spec (rd m (data_ b + Z.of_nat n)) v) as [E|E].
  - right. split; [lia|]. split; [done|]. intros i; lia.
  - destruct IH as [[-> H]|(H1 & H2 & H3)]; [left|right].
    + split; [done|]. intros i Hi.
      destruct (decide (i = Z.of_nat n)) as [->|]; [done|]. apply H. lia.
    + split; [lia|]. split; [done|]. intros i Hi.
      destruct (decide (i = Z.of_nat n)) as [->|]; [done|]. apply H3. lia.
Qed.

(** [find] returns the first index at or after [pos] whose byte is [v] and
    [rfind] the last one at or before [pos]; each returns [npos] exactly when there
    is none, whatever [pos] is. *)
Theorem find_rfind_exact v pos :
  0 <= size_ b < 2 ^ 63 -> 0 <= pos ->
  (let r := buffer_find b v pos m in
   (r = npos /\ forall i, pos <= i < size_ b -> byte_at i <> v) \/
   (pos <= r < size_ b /\ byte_at r = v /\ forall i, pos <= i < r -> byte_at i <> v)) /\
  (let r := buffer_rfind b v pos m in
   (r = npos /\ forall i, 0 <= i <= pos -> i < size_ b -> byte_at i <> v) \/
   (0 <= r <= pos /\ r < size_ b /\ byte_at r = v /\
      forall i, r < i <= pos -> i < size_ b -> byte_at i <> v)).
Proof.
  intros Hs Hp. split; cbv zeta.
  - unfold buffer_find. destruct ((size_ b =? 0) || (size_ b <=? pos)) eqn:E.
    { left. split; [done|]. apply orb_true_iff in E as [?%Z.eqb_eq|?%Z.leb_le]; lia. }
    apply orb_false_iff in E as [?%Z.eqb_neq ?%Z.leb_gt].
    pose proof (memchr_spec v (Z.to_nat (size_ b - pos)) (data_ b + pos)) as Hm.
    destruct (memchr _ _ _ _) as [p|]; [right|left].
    + destruct Hm as (? & Hv & Hq). unfold byte_at.
      replace (data_ b + (p - data_ b)) with p by lia.
      split; [lia|]. split; [done|]. intros i Hi. apply Hq. lia.
    + split; [done|]. intros i Hi. apply Hm. lia.
  - unfold buffer_rfind. destruct (Z.eqb_spec (size_ b) 0); cbn [negb]; [left; split; [done|lia]|].
    set (cnt := Z.to_nat _).
    assert (Z.of_nat cnt = Z.min (pos + 1) (size_ b)) as En
      by (subst cnt; destruct (Z.ltb_spec pos (size_ b - 1)); lia).
    destruct (rfind_from_spec v cnt) as [[-> H]|(H1 & H2 & H3)]; [left|right].
    + split; [done|]. intros i ??. apply H. lia.
    + split; [lia|]. split; [lia|]. split; [done|]. intros i ??. apply H3. lia.
Qed.
End search.

Lemma find_rfind_exact_witness :
  let m := wr ∅ 100 [5; 7; 5; 9] in
  let b := mkBuffer 100 4 32 true in
  buffer_find b 5 1 m = 2 /\ buffer_rfind b 5 1 m = 0 /\ buffer_find b 8 0 m = npos.
Proof.
  intros m b.
  pose proof (find_rfind_exact m b 5 1 ltac:(simpl; lia) ltac:(lia)) as [_ _].
  split_and!; vm_compute; reflexivity.
Defined.

(** ** Views and typed access *)

Section access.
Context {AL : Allocator} {PL : Plenty}.

(** [view(pos, len)] is a window that owns nothing: it throws when [pos] is
    outside the buffer, and is clamped to the buffer's end - as long as [pos + len] does
    not wrap.  When the 64-bit sum wraps (every [len] from [npos - pos + 1] up, with
    [pos > 0]) the test passes and the view is longer than the buffer it views. *)
Theorem view_window b pos len w :
  0 <= size_ b < 2 ^ 63 -> 0 <= pos < 2 ^ 63 -> 0 <= len < 2 ^ 64 ->
  (size_ b <= pos -> buffer_view b pos len w = Throw out_of_range w) /\
  (pos < size_ b -> pos + len < 2 ^ 64 ->
     exists v, buffer_view b pos len w = Ret v w /\ free_ v = false /\
       data_ v = data_ b + pos /\ size_ v = Z.min len (size_ b - pos) /\
       buffer_str v (w_mem w) = ztake (Z.min len (size_ b - pos)) (zdrop pos (buffer_str b (w_mem w)))) /\
  (pos < size_ b -> 2 ^ 64 <= pos + len ->
     exists v, buffer_view b pos len w = Ret v w /\ size_ v = len /\ size_ b < data_ v + size_ v - data_ b).
Proof.
  intros Hs Hp Hl. unfold buffer_view. split_and!.
  - intros H. by rewrite (proj2 (Z.ltb_ge _ _)).
  - intros H1 H2. rewrite (proj2 (Z.ltb_lt _ _)), u64_small by lia.
    assert (Hv : forall n, 0 <= n ->
      buffer_ctor_own (data_ b + pos) n n false w = Ret (mkBuffer (data_ b + pos) n n false) w).
    { intros n Hn. unfold buffer_ctor_own. by rewrite Z.ltb_irrefl. }
    assert (Hstr : forall n, 0 <= n -> n <= size_ b - pos ->
      ld (w_mem w) (data_ b + pos) n = ztake n (zdrop pos (buffer_str b (w_mem w)))).
    { intros n ??. unfold buffer_str. by rewrite ld_drop, ld_take by lia. }
    destruct (Z.leb_spec (pos + len) (size_ b)).
    + exists (mkBuffer (data_ b + pos) len len false). rewrite Hv by lia.
      rewrite Z.min_l by lia. split_and!; try done. apply Hstr; lia.
    + exists (mkBuffer (data_ b + pos) (size_ b - pos) (size_ b - pos) false). rewrite Hv by lia.
      rewrite Z.min_r by lia. split_and!; try done. apply Hstr; lia.
  - intros H1 H2. rewrite (proj2 (Z.ltb_lt _ _)) by lia.
    assert (u64 (pos + len) = pos + len - 2 ^ 64) as E.
    { unfold wrapu. rewrite <- (Z.mod_small (pos + len - 2 ^ 64) (2 ^ 64)) by lia.
      replace (pos + len) with ((pos + len - 2 ^ 64) + 1 * 2 ^ 64) at 1 by lia.
      apply Z.mod_add. lia. }
    rewrite E, (proj2 (Z.leb_le _ _)) by lia.
    exists (mkBuffer (data_ b + pos) len len false). unfold buffer_ctor_own.
    rewrite Z.ltb_irrefl. split; [done|]. simpl. split; [done|lia].
Qed.

Lemma le_bytes_value_small n v :
  0 <= v < 256 ^ Z.of_nat n -> le_value (le_bytes n v) = v.
Proof. intros. rewrite le_value_le_bytes. by apply Z.mod_small. Qed.

(** [set_at<T>] throws exactly when the value would not fit inside
    [size()], otherwise [get_at<T>] reads the value back and no byte outside the value
    changes. *)
Theorem set_get_at n b idx v w :
  0 <= size_ b < 2 ^ 63 -> 0 <= idx < 2 ^ 32 -> Z.of_nat n <= 8 -> 0 <= v < 256 ^ Z.of_nat n ->
  (size_ b < idx + Z.of_nat n ->
     buffer_set_at n b idx v w = Throw out_of_range w /\ buffer_get_at n b idx w = Throw out_of_range w) /\
  (idx + Z.of_nat n <= size_ b ->
     exists w', buffer_set_at n b idx v w = Ret tt w' /\ buffer_get_at n b idx w' = Ret v w' /\
       forall a k, 0 <= k -> apart (data_ b + idx) (Z.of_nat n) a k -> ld (w_mem w') a k = ld (w_mem w) a k).
Proof.
  intros Hs Hi Hn Hv. unfold buffer_set_at, buffer_get_at. rewrite u64_small by lia. split.
  - intros H. by rewrite (proj2 (Z.ltb_lt _ _)).
  - intros H. rewrite (proj2 (Z.ltb_ge _ _)) by lia.
    eexists. split; [reflexivity|]. split.
    + unfold gets. f_equal. simpl.
      pose proof (ldn_wr_same (w_mem w) (data_ b + idx) (le_bytes n v)) as E.
      rewrite length_le_bytes in E. rewrite E. by apply le_bytes_value_small.
    + intros a k Hk Ha. simpl. apply ld_wr_apart; [done|]. by rewrite zlen_le_bytes.
Qed.

(** Ownership moves: after [buffer(buffer&&)] the new object owns the block
    and the old one does not, so destroying both returns the block exactly once, and
    copying an owning buffer gives an equal byte string in a block of its own, so
    destroying the copy leaves the original intact. *)
Theorem move_and_copy w b :
  pool_running w -> buf_ok w b -> owned w b -> 0 < size_ b ->
  (let '(n, r) := buffer_move b in
   exists w1, buffer_release r w = Ret (mkBuffer 0 0 0 false) w /\
     buffer_release n w = Ret (mkBuffer 0 0 0 false) w1 /\
     forall q k, outstanding w1 q k <-> outstanding w q k /\ q <> data_ b) /\
  (exists c w1 w2, buffer_copy b w = Ret c w1 /\ contents w1 c = contents w b /\
     data_ c <> data_ b /\ owned w1 b /\ owned w1 c /\
     buffer_release c w1 = Ret (mkBuffer 0 0 0 false) w2 /\
     contents w2 b = contents w b /\ forall q k, outstanding w2 q k <-> outstanding w q k).
Proof.
  intros Hr Hok Hown Hsz. split.
  - simpl. unfold buffer_release.
    destruct (buffer_dealloc_spec w b Hr Hown) as (w1 & E & Hr1 & Hfr & Hrel).
    exists w1. split; [done|]. split; [by rewrite (bind_ret _ _ _ _ _ E)|]. apply Hrel.
  - destruct Hown as (Hf & Hc & Ho & Hh).
    assert (E : buffer_copy b w = (let! (p, c) := grab (capacity_ b) in
              memcpy p (data_ b) (size_ b) ;;; mret_ (mkBuffer p (size_ b) c true)) w).
    { unfold buffer_copy, grab, gets, mbind_, mret_, when. rewrite Hf.
      rewrite (proj2 (Z.eqb_neq (capacity_ b) 0)), (proj2 (Z.eqb_neq (size_ b) 0)) by lia. cbn [negb].
      destruct (w_use_pool w).
      - destruct (acquire (capacity_ b) w); [|done..]. by destruct (memcpy _ _ _ _).
      - destruct (new_bytes (capacity_ b) w); [|done..]. destruct (counter_alloc _ _); [|done..].
        by destruct (memcpy _ _ _ _). }
    rewrite E. clear E.
    destruct (grab_spec (capacity_ b) w Hr Hc) as (p & n & w1 & Eg & Hn & Hr1 & Hfr1 & Hal & Hhp & Hkeep).
    pose proof Hfr1 as (Hm1 & Hu1 & _). rewrite (bind_ret _ _ _ _ _ Eg).
    pose proof (fresh_apart w w1 p n _ _ Hr1 Hal Ho) as Ha. destruct Hok as [? _].
    assert (apart p (size_ b) (data_ b) (size_ b)) as Ha' by (unfold apart in *; lia).
    rewrite (bind_ret _ _ _ _ _ (memcpy_spec w1 p (data_ b) (size_ b) Ha')).
    set (w1' := set_mem _ w1). set (c := mkBuffer p (size_ b) n true).
    assert (owned w1' c) as Hoc.
    { split; [done|]. split; [simpl; lia|]. split; [by apply Hal; right|]. simpl. by rewrite Hu1. }
    destruct (buffer_dealloc_spec w1' c Hr1 Hoc) as (w2 & E2 & Hr2 & (Hm2 & _) & Hrel).
    assert (ld (w_mem w1') (data_ b) (size_ b) = ld (w_mem w) (data_ b) (size_ b)) as Hkb.
    { simpl. rewrite Hm1. apply ld_wr_apart; [lia|]. rewrite zlen_ld by lia. done. }
    exists c, w1', w2. split; [done|]. split.
    { unfold contents, buffer_str. simpl. rewrite Hm1. apply ld_wr_same, zlen_ld. lia. }
    split. { simpl. intros ->. by eapply (proj1 Hal). }
    split. { split; [done|]. split; [done|]. split; [by apply Hal; left|].
             simpl. rewrite Hu1. intros Hup. by apply Hkeep, Hh. }
    split; [done|]. split. { unfold buffer_release. by rewrite (bind_ret _ _ _ _ _ E2). }
    split. { unfold contents, buffer_str. rewrite Hm2. exact Hkb. }
    intros q k. rewrite (proj1 (Hrel q k)).
    assert (outstanding w1' q k <-> outstanding w q k \/ (q = p /\ k = n)) as -> by apply Hal.
    simpl. split; [intros [[?|[-> _]] ?]; done|]. intros Hq. split; [by left|].
    intros ->. by eapply (proj1 Hal).
Qed.

(** [assign] forgets the size of the chunk it gets: in pool mode, an
    empty buffer that is assigned [s] bytes and destroyed hands the chunk back
    as one of [s] bytes, and the pool then serves a request for the bucket's full
    size with a capacity below the request. *)
Theorem assign_shrinks_chunk w s bk c st :
  pool_running w -> w_use_pool w = true -> 0 < s -> pick_bucket s = Some bk ->
  bucket (w_bk w bk) = c :: st -> s < bucket_size bk ->
  pick_bucket (bucket_size bk) = Some bk ->
  exists b w1 w2 c' w3, buffer_assign buffer_default 0 s w = Ret b w1 /\
    buffer_release b w1 = Ret (mkBuffer 0 0 0 false) w2 /\
    acquire (bucket_size bk) w2 = Ret c' w3 /\ capacity c' = s /\ ~ pool_full w2.
Proof.
  intros Hr Hup Hs Hpick Hst Hlt Hpick'. pose proof Hr as (Hwf & Hf & Hb & Hd).
  destruct (bucket_acquire_spec w bk c st Hwf Hst) as (Hwf1 & Hc & Hal & _).
  destruct (wf_bucket w Hwf bk) as [Hsz _].
  set (w1 := bump acq_size (capacity c) (bump acq 1 (set_bk bk (set_stack st (w_bk w bk)) w))).
  assert (Ea : acquire s w = Ret (mkChunk (ptr c) (capacity c) false POOL) w1).
  { unfold acquire. rewrite (proj2 (Z.eqb_neq s 0)), Hpick by lia.
    unfold mbind_ at 1, bucket_acquire. rewrite Hst. done. }
  assert (Eb : buffer_assign buffer_default 0 s w = Ret (mkBuffer (ptr c) s s true) w1).
  { unfold buffer_assign. rewrite (proj2 (Z.ltb_lt _ _)) by (simpl; lia).
    rewrite andb_false_r. unfold mbind_. rewrite buffer_dealloc_empty by done.
    unfold gets. rewrite Hup, Ea. done. }
  assert (slot (w_bk w1 bk) (ptr c) /\ ptr c ∉ free_ptrs (w_bk w1 bk)) as [Hsl Hnf].
  { simpl. rewrite decide_True by done. split; [apply Hc|].
    destruct (wf_bucket w Hwf bk) as (_ & _ & _ & _ & _ & _ & Hnd & _). unfold free_ptrs in *.
    rewrite Hst in Hnd. cbn in Hnd. by apply NoDup_cons in Hnd as [? _]. }
  assert (sz (w_bk w1 bk) = sz (w_bk w bk)) as Hszb by (simpl; by rewrite decide_True).
  assert (0 < ptr c) as Hpos.
  { apply (outstanding_pos w1 (ptr c) (sz (w_bk w bk))); [exact Hwf1|]. apply Hal. by right. }
  set (w1' := bump ret_size (sz (w_bk w1 bk)) (bump ret 1 w1)).
  set (w2 := set_bk bk (set_stack (mkChunk (ptr c) s true POOL :: bucket (w_bk w1' bk)) (w_bk w1' bk)) w1').
  assert (Er : release (mem_chunk_at (ptr c) s) w1 = Ret tt w2).
  { unfold release. change (ptr (mem_chunk_at (ptr c) s)) with (ptr c).
    change (pool_type (mem_chunk_at (ptr c) s)) with POOL. rewrite (proj2 (Z.eqb_neq (ptr c) 0)) by lia.
    unfold mbind_ at 1, gets at 1. replace (w_bailing w1) with false by done. cbv beta iota.
    unfold mbind_, gets, modify. rewrite (find_by_address_mine w1 bk) by (auto; by apply (wf_slot_mine w1)).
    unfold bucket_release. change (ptr (mem_chunk_at (ptr c) s)) with (ptr c). fold w1'.
    rewrite (wf_slot_mine w1' Hwf1 bk) by exact Hsl.
    change (w_debug (set_bk _ _ w1')) with (w_debug w). rewrite Hd. done. }
  assert (Est : bucket (w_bk w2 bk) = mkChunk (ptr c) s true POOL :: st).
  { unfold w2. rewrite set_bk_eq. simpl. by rewrite decide_True. }
  exists (mkBuffer (ptr c) s s true), w1, w2, (mkChunk (ptr c) s false POOL).
  eexists. split; [exact Eb|]. split.
  { unfold buffer_release, buffer_dealloc. simpl free_. simpl capacity_.
    rewrite (proj2 (Z.ltb_lt 0 s)) by done. unfold mbind_, gets. cbn [andb].
    change (w_use_pool w1) with (w_use_pool w). rewrite Hup. simpl data_. rewrite Er. done. }
  split. { unfold acquire. rewrite (proj2 (Z.eqb_neq _ 0)), Hpick' by lia.
           unfold mbind_ at 1, bucket_acquire. rewrite Est. reflexivity. }
  split; [done|]. intros Hfull. specialize (Hfull bk). rewrite Est in Hfull.
  apply Forall_cons in Hfull as [Hcap _]. cbn [capacity] in Hcap.
  assert (sz (w_bk w2 bk) = sz (w_bk w bk)) as Hszb2.
  { unfold w2. rewrite set_bk_eq. simpl. by rewrite decide_True. }
  lia.
Qed.

(** Assigning a view to a buffer that is large enough copies nothing: the
    assignment "honours ownership" by neither copying the bytes nor taking the
    view's pointer, and only the size changes - the buffer then holds its own old
    bytes under the view's length. *)
Theorem assign_view_keeps_bytes w b x :
  free_ x = false -> data_ b <> 0 -> 0 <= size_ x <= capacity_ b ->
  exists b', buffer_assign_buffer b x w = Ret b' w /\ data_ b' = data_ b /\
    buffer_str b' (w_mem w) = ld (w_mem w) (data_ b) (size_ x).
Proof.
  intros Hf Hd Hs. unfold buffer_assign_buffer.
  rewrite (proj2 (Z.ltb_ge _ _)), (proj2 (Z.eqb_neq _ 0)), Hf, andb_false_r by (auto; lia).
  cbn [orb]. eexists. split; [reflexivity|]. by split.
Qed.
End access.

(** ** The theorems on the concrete pool of [PoolProps] *)

Definition demo_ptr : Z := ptr (got (acquire 100 demo)).
(** [demo100] with three bytes in its block, and the buffer that owns the block. *)
Definition demo_bytes : world := set_mem (wr ∅ demo_ptr [1; 2; 3]) demo100.
Definition demo_buffer : buffer := mkBuffer demo_ptr 3 128 true.

Lemma demo_bytes_running : pool_running demo_bytes.
Proof. exact (pool_running_set_mem _ _ (demo_after 100 eq_refl)). Qed.

Lemma demo_bytes_use_pool : w_use_pool demo_bytes = true.
Proof. exact (demo_after_use_pool 100 eq_refl). Qed.

Lemma demo_buffer_owned : owned demo_bytes demo_buffer.
Proof.
  split; [reflexivity|]. split; [reflexivity|]. split; [left; exact demo100_out|].
  rewrite demo_bytes_use_pool. discriminate.
Qed.

Lemma demo_buffer_ok : buf_ok demo_bytes demo_buffer.
Proof. split; [split; vm_compute; discriminate|right; exact demo_buffer_owned]. Qed.

Lemma buffer_refines_bytes_witness :
  exists b' w', bops_run [OpAppend demo_ptr 3; OpFlush 1; OpAppend demo_ptr 2] buffer_default demo_bytes = Ret b' w' /\
    contents w' b' = [2; 3; 1; 2].
Proof.
  assert (Hs : forall s, s <= 128 -> source demo_bytes buffer_default demo_ptr s).
  { intros s Hs. exists demo_ptr, 128. split; [|lia]. split; [left; exact demo100_out|]. simpl. lia. }
  destruct (buffer_refines_bytes demo_bytes buffer_default [OpAppend demo_ptr 3; OpFlush 1; OpAppend demo_ptr 2]
              demo_bytes_running) as (b' & w' & E & Hc & _).
  - split; [simpl; lia|by left].
  - repeat (apply Forall_cons; split); [| | |apply Forall_nil; exact I]; simpl.
    + split; [lia|apply Hs; lia].
    + lia.
    + split; [lia|apply Hs; lia].
  - simpl. lia.
  - exists b', w'. split; [exact E|]. rewrite Hc. vm_compute. reflexivity.
Defined.

Lemma view_window_witness :
  exists v, buffer_view demo_buffer 1 (2 ^ 64 - 1) demo_bytes = Ret v demo_bytes /\ size_ v = 2 ^ 64 - 1.
Proof.
  destruct (view_window demo_buffer 1 (2 ^ 64 - 1) demo_bytes ltac:(simpl; lia) ltac:(lia) ltac:(lia))
    as (_ & _ & H3).
  destruct H3 as (v & E & Hv & _); [simpl; lia|lia|]. exists v. exact (conj E Hv).
Defined.

Lemma set_get_at_witness :
  (exists w', buffer_set_at 2 demo_buffer 1 770 demo_bytes = Ret tt w' /\
              buffer_get_at 2 demo_buffer 1 w' = Ret 770 w') /\
  buffer_set_at 2 demo_buffer 2 770 demo_bytes = Throw out_of_range demo_bytes.
Proof.
  split.
  - destruct (set_get_at 2 demo_buffer 1 770 demo_bytes ltac:(simpl; lia) ltac:(lia) ltac:(lia) ltac:(lia))
      as [_ H]. destruct H as (w' & E1 & E2 & _); [simpl; lia|]. exists w'. exact (conj E1 E2).
  - apply (set_get_at 2 demo_buffer 2 770 demo_bytes ltac:(simpl; lia) ltac:(lia) ltac:(lia) ltac:(lia)).
    simpl. lia.
Defined.

Lemma move_and_copy_witness :
  exists c w1, buffer_copy demo_buffer demo_bytes = Ret c w1 /\ contents w1 c = [1; 2; 3] /\
    data_ c <> demo_ptr.
Proof.
  destruct (move_and_copy demo_bytes demo_buffer demo_bytes_running demo_buffer_ok
              demo_buffer_owned eq_refl) as (_ & c & w1 & w2 & E & Hc & Hne & _).
  exists c, w1. split; [exact E|]. split; [|exact Hne]. rewrite Hc. vm_compute. reflexivity.
Defined.

Lemma assign_shrinks_chunk_witness :
  exists w c' w3, acquire 64 w = Ret c' w3 /\ capacity c' = 40.
Proof.
  destruct (bucket (w_bk demo bucket_64)) as [|c st] eqn:E; [vm_compute in E; discriminate|].
  destruct (assign_shrinks_chunk demo 40 bucket_64 c st demo_running demo_use_pool eq_refl eq_refl E
              eq_refl eq_refl) as (b & w1 & w2 & c' & w3 & _ & _ & Ea & Hc & _).
  exists w2, c', w3. exact (conj Ea Hc).
Defined.

Lemma assign_view_keeps_bytes_witness :
  exists b', buffer_assign_buffer demo_buffer (mkBuffer 5000 2 2 false) demo_bytes = Ret b' demo_bytes /\
    buffer_str b' (w_mem demo_bytes) = [1; 2].
Proof.
  destruct (assign_view_keeps_bytes demo_bytes demo_buffer (mkBuffer 5000 2 2 false) eq_refl)
    as (b' & E & _ & Hs); [vm_compute; discriminate|split; vm_compute; discriminate|].
  exists b'. split; [exact E|]. rewrite Hs. vm_compute. reflexivity.
Defined.
