(* ===== verification/Numeric.v ===== *)
(** * Numeric: checked conversions and arithmetic (convert.hpp, number.hpp, numops.hpp)

    Integer types are described by width and signedness; the usual arithmetic
    conversions of C++ are written out, because the templates compare values of
    different types.  [number<T>] is an optional value, and signed overflow in the
    checks themselves is an outcome of its own. *)

From S2P Require Export Effects.

Record ity : Type := mkIty { bits : Z; is_signed : bool }.

#[export] Instance ity_eq_dec : EqDecision ity.
Proof. solve_decision. Defined.

Definition u8_t := mkIty 8 false.
Definition s8_t := mkIty 8 true.
Definition u32_t := mkIty 32 false.
Definition int_t := mkIty 32 true.
Definition u64_t := mkIty 64 false.
Definition s64_t := mkIty 64 true.

(** [std::numeric_limits<T>::max()] and [min()] *)
Definition tmax (t : ity) : Z := if is_signed t then 2 ^ (bits t - 1) - 1 else 2 ^ bits t - 1.
Definition tmin (t : ity) : Z := if is_signed t then - 2 ^ (bits t - 1) else 0.

Definition in_type (t : ity) (x : Z) : Prop := tmin t <= x <= tmax t.

Definition conv (t : ity) (x : Z) : Z := if is_signed t then wraps (bits t) x else wrapu (bits t) x.

(** Integer promotion and the usual arithmetic conversions. *)
Definition promote (t : ity) : ity := if bits t <? 32 then int_t else t.
Definition common (a b : ity) : ity :=
  let a := promote a in
  let b := promote b in
  if Bool.eqb (is_signed a) (is_signed b) then if bits a <? bits b then b else a
  else
    let u := if is_signed a then b else a in
    let s := if is_signed a then a else b in
    if bits s <=? bits u then u else s.

Definition le_ab (ta : ity) (x : Z) (tb : ity) (y : Z) : bool :=
  let c := common ta tb in conv c x <=? conv c y.

(** ** convert.hpp *)

Definition max_of (t : ity) : Z := conv u64_t (tmax t).

(** [static_assert]: both types have the same signedness. *)
Definition down_cast (t tu : ity) (u : option Z) : option Z :=
  match u with
  | None => None
  | Some v =>
      if negb (le_ab tu v t (tmax t)) || negb (le_ab t (tmin t) tu v) then None
      else Some (conv t v)
  end.

Definition try_down_cast (t tu : ity) (v : Z) : exn + Z :=
  if negb (le_ab tu v t (tmax t)) || negb (le_ab t (tmin t) tu v) then inl cast_overflow
  else inr (conv t v).

Definition to_signed_cast (t tu : ity) (u : option Z) : option Z :=
  match u with
  | None => None
  | Some v =>
      if le_ab tu v t (tmax t) then Some (conv t v)
      else if le_ab t (tmin t) tu v then
        let c := common tu t in
        Some (conv t (conv t (conv c (conv c v - conv c (tmin t))) + tmin t))
      else None
  end.

Definition from_signed_cast (t tu : ity) (u : option Z) : option Z :=
  match u with
  | None => None
  | Some v => if 0 <=? v then Some (conv t v) else None
  end.

Definition try_from_signed_cast (t tu : ity) (v : Z) : exn + Z :=
  if 0 <=? v then inr (conv t v) else inl cast_overflow.

Definition make_unsigned (t : ity) : ity := mkIty (bits t) false.
Definition make_signed (t : ity) : ity := mkIty (bits t) true.

Definition sign_remove (tu : ity) (v : Z) : option Z := from_signed_cast (make_unsigned tu) tu (Some v).
Definition sign_add (tu : ity) (v : Z) : option Z := to_signed_cast (make_signed tu) tu (Some v).

Definition down_cast_signed (t tu : ity) (v : Z) : option Z :=
  down_cast t (make_unsigned tu) (sign_remove tu v).

(** The use made of it by the socket code: [down_cast<int>(l).value_or(max_of<int>())]. *)
Definition int_of_ssize (l : Z) : Z :=
  match down_cast int_t s64_t (Some l) with Some v => v | None => conv int_t (max_of int_t) end.

(** ** number.hpp *)

Definition same_signness (t u : ity) : bool := Bool.eqb (is_signed t) (is_signed u).
Definition can_static_cast (t u : ity) : bool := same_signness t u && (bits u <=? bits t).

(** [number<T>::create(U)]; [None] is not-a-number. *)
Definition number_create (t u : ity) (b : Z) : option Z :=
  if same_signness t u && (bits t =? bits u) then Some (conv t b)
  else if can_static_cast t u then Some (conv t b)
  else if negb (is_signed t) && is_signed u then down_cast t (make_unsigned u) (sign_remove u b)
  else down_cast t u (Some b).

(** ** numops.hpp *)

(** A [number<T>], or an overflow of the signed arithmetic of the check itself. *)
Inductive numres : Type := Num (v : option Z) | Overflow.

(** An arithmetic operation of the promoted type of [t]. *)
Definition arith (t : ity) (x : Z) (k : Z -> numres) : numres :=
  let p := promote t in
  if is_signed p then
    if (tmin p <=? x) && (x <=? tmax p) then k x else Overflow
  else k (conv p x).

Definition safe_add_ (t : ity) (a b : Z) : numres :=
  let sum := arith t (a + b) (fun s => Num (Some (conv t s))) in
  if is_signed t then
    if (a <? 0) && (b <? 0) then
      arith t (Z.abs b) (fun ab =>
      arith t (Z.abs a) (fun aa =>
      arith t (tmax t - aa) (fun room =>
        if room <? ab then Num None else sum)))
    else if (0 <? a) && (0 <? b) then
      arith t (tmax t - a) (fun room => if room <? b then Num None else sum)
    else sum
  else
    arith t (tmax t - a) (fun room => if room <? b then Num None else sum).

(** The variadic [safe_add]. *)
Fixpoint safe_add (t : ity) (x : Z) (vals : list Z) : numres :=
  match vals with
  | [] => Num (Some x)
  | [y] => safe_add_ t x y
  | y :: rest =>
      match safe_add t y rest with
      | Num (Some r) => safe_add_ t x r
      | Num None => Num None
      | Overflow => Overflow
      end
  end.

Definition number_plus (t : ity) (a b : option Z) : numres :=
  match a, b with
  | Some a, Some b => safe_add_ t a b
  | _, _ => Num None
  end.

(** [number<T> + number<U>] for different types. *)
Definition number_plus2 (t u : ity) (a b : option Z) : numres :=
  match a, b with
  | Some a, Some b =>
      if can_static_cast t u then safe_add_ t a (conv t b)
      else if negb (is_signed t) && is_signed u then
        match down_cast t (make_unsigned u) (sign_remove u b) with
        | Some b' => safe_add_ t a b'
        | None => Num None
        end
      else
        match down_cast t u (Some b) with
        | Some b' => safe_add_ t a b'
        | None => Num None
        end
  | _, _ => Num None
  end.

Definition is_negative (t : ity) (v : option Z) : bool :=
  match v with Some x => is_signed t && (x <? 0) | None => false end.

(** [number<T> - number<U>], for operands of one type ([T] = [U]). *)
Definition number_minus (t : ity) (a b : option Z) : numres :=
  match a, b with
  | Some a, Some b =>
      match number_create t t b with
      | None => Num None
      | Some cb =>
          if is_negative t (Some b) then
            arith t (tmax t - b) (fun lim =>
              if a <=? lim then arith t (a - b) (fun d => Num (Some (conv t d))) else Num None)
          else
            arith t (tmin t + cb) (fun lim =>
              if lim <=? a then arith t (a - b) (fun d => Num (Some (conv t d))) else Num None)
      end
  | _, _ => Num None
  end.

(** ** Properties *)

Definition std_type (t : ity) : Prop := bits t = 8 \/ bits t = 16 \/ bits t = 32 \/ bits t = 64.

Lemma type_split t : std_type t ->
  t = mkIty 8 true \/ t = mkIty 8 false \/ t = mkIty 16 true \/ t = mkIty 16 false \/
  t = mkIty 32 true \/ t = mkIty 32 false \/ t = mkIty 64 true \/ t = mkIty 64 false.
Proof.
  destruct t as [b [|]]; unfold std_type; simpl; intros [->|[->|[->| ->]]]; tauto.
Qed.

Ltac each_type H :=
  apply type_split in H as [->|[->|[->|[->|[->|[->|[->| ->]]]]]]].

Lemma conv_id t x : std_type t -> in_type t x -> conv t x = x.
Proof.
  intros Ht [H1 H2]. unfold conv, tmin, tmax in *.
  assert (0 < bits t) by (destruct Ht as [->|[->|[->| ->]]]; lia).
  destruct (is_signed t); [apply wraps_small|apply wrapu_small]; lia.
Qed.

(** Every value of either type is a value of the common type of two types of the same
    signedness. *)
Lemma common_in t u x :
  std_type t -> std_type u -> is_signed t = is_signed u -> in_type t x \/ in_type u x ->
  std_type (common t u) /\ in_type (common t u) x.
Proof.
  intros Ht Hu. each_type Ht; each_type Hu; intros Hs; try discriminate Hs; clear Hs;
    unfold in_type, std_type; cbn; intros [?|?]; (split; [auto|lia]).
Qed.

Lemma le_ab_exact t u x y :
  std_type t -> std_type u -> is_signed t = is_signed u -> in_type t x -> in_type u y ->
  le_ab t x u y = (x <=? y).
Proof.
  intros Ht Hu Hs Hx Hy. unfold le_ab.
  destruct (common_in t u x Ht Hu Hs (or_introl Hx)) as [Hc Hx'].
  destruct (common_in t u y Ht Hu Hs (or_intror Hy)) as [_ Hy'].
  by rewrite !conv_id.
Qed.

Lemma tmin_in t : std_type t -> in_type t (tmin t).
Proof. intros Ht. each_type Ht; unfold in_type; cbn; lia. Qed.
Lemma tmax_in t : std_type t -> in_type t (tmax t).
Proof. intros Ht. each_type Ht; unfold in_type; cbn; lia. Qed.

Lemma int_of_ssize_id l : 0 <= l < 2 ^ 31 -> int_of_ssize l = l.
Proof.
  intros H. unfold int_of_ssize, down_cast.
  rewrite !le_ab_exact by (unfold in_type, std_type; cbn; lia || reflexivity || tauto).
  cbn [tmax tmin bits is_signed int_t]. rewrite !(proj2 (Z.leb_le _ _)) by lia. cbn [negb orb].
  apply conv_id; unfold in_type, std_type; cbn; [tauto|lia].
Qed.

(** The casts never change a value: [down_cast] between types of the same
    signedness, and [from_signed_cast] to a type at least as wide, return exactly the
    argument when the target type can hold it and nothing otherwise, and
    [try_down_cast] throws in the same cases. *)
Theorem casts_exact t u v :
  std_type t -> std_type u -> in_type u v ->
  (is_signed t = is_signed u ->
     down_cast t u (Some v) = (if bool_decide (in_type t v) then Some v else None) /\
     try_down_cast t u v = (if bool_decide (in_type t v) then inr v else inl cast_overflow)) /\
  (is_signed t = false -> is_signed u = true -> bits u <= bits t ->
     from_signed_cast t u (Some v) = (if bool_decide (in_type t v) then Some v else None)).
Proof.
  intros Ht Hu Hv. pose proof (tmin_in t Ht). pose proof (tmax_in t Ht). split.
  - intros Hs. unfold down_cast, try_down_cast.
    rewrite (le_ab_exact u t), (le_ab_exact t u) by (auto; congruence).
    assert (negb (v <=? tmax t) || negb (tmin t <=? v) = negb (bool_decide (in_type t v))) as ->.
    { case_bool_decide as Hin; unfold in_type in Hin.
      - rewrite !(proj2 (Z.leb_le _ _)) by lia. done.
      - apply orb_true_iff. rewrite !negb_true_iff, !Z.leb_gt. lia. }
    case_bool_decide; cbn [negb]; [|done]. by rewrite conv_id.
  - intros Hst Hsu Hb. unfold from_signed_cast, in_type in *.
    assert (v <= tmax t) as Hle.
    { destruct Hv as [_ Hv]. each_type Ht; each_type Hu; cbn in *; try discriminate; lia. }
    assert (tmin t = 0) as Hmin by (unfold tmin; by rewrite Hst).
    destruct (Z.leb_spec 0 v).
    + rewrite bool_decide_true by lia. f_equal. apply conv_id; [done|]. split; lia.
    + rewrite bool_decide_false by lia. done.
Qed.

Lemma common_unsigned t u :
  std_type t -> std_type u -> is_signed t = true -> is_signed u = false -> bits t <= bits u -> 32 <= bits u ->
  common u t = u /\ common t u = u.
Proof.
  intros Ht Hu Hst Hsu Hb Hw.
  each_type Ht; try discriminate Hst; each_type Hu; try discriminate Hsu; cbn in Hb, Hw; try lia; done.
Qed.

Lemma wrapu_neg w x : 0 < x <= 2 ^ w -> 0 <= w -> wrapu w (- x) = 2 ^ w - x.
Proof.
  intros Hx Hw. unfold wrapu. rewrite <- (Z.mod_small (2 ^ w - x) (2 ^ w)) by lia.
  replace (2 ^ w - x) with (- x + 1 * 2 ^ w) by lia. rewrite Z.mod_add; lia.
Qed.

Lemma wraps_shift w x : 0 < w -> 2 ^ (w - 1) <= x < 3 * 2 ^ (w - 1) -> wraps w x = x - 2 ^ w.
Proof.
  intros Hw Hx. assert (2 ^ w = 2 * 2 ^ (w - 1)) as E
    by (rewrite <- Z.pow_succ_r by lia; f_equal; lia).
  unfold wraps. replace (x + 2 ^ (w - 1)) with ((x - 2 ^ (w - 1)) + 1 * 2 ^ w) by lia.
  rewrite Z.mod_add by lia. rewrite Z.mod_small; lia.
Qed.

(** [to_signed_cast] reads an unsigned value as two's complement: the value
    itself when the signed target holds it, otherwise its two's complement when the
    target holds that, and nothing when neither fits. *)
Theorem to_signed_twos_complement t u v :
  std_type t -> std_type u -> is_signed t = true -> is_signed u = false -> in_type u v ->
  bits t <= bits u -> 32 <= bits u ->
  to_signed_cast t u (Some v) =
    (if bool_decide (in_type t v) then Some v
     else if bool_decide (in_type t (v - 2 ^ bits u)) then Some (v - 2 ^ bits u)
     else None).
Proof.
  intros Ht Hu Hst Hsu [Hv0 Hv] Hb Hw.
  destruct (common_unsigned t u Ht Hu Hst Hsu Hb Hw) as [Hc1 Hc2].
  assert (0 < bits t) as Hpos by (destruct Ht as [->|[->|[->| ->]]]; lia).
  unfold to_signed_cast, le_ab. rewrite Hc1, Hc2. unfold conv, in_type, tmin, tmax in *.
  rewrite Hst, Hsu in *. set (W := 2 ^ bits u) in *. set (M := 2 ^ (bits t - 1)) in *.
  assert (2 * M <= W) as HMW.
  { unfold M, W. rewrite <- Z.pow_succ_r by lia. apply Z.pow_le_mono_r; lia. }
  assert (0 < M) as HM by (apply Z.pow_pos_nonneg; lia).
  rewrite (wrapu_small _ v), (wrapu_small _ (M - 1)), (wrapu_neg _ M) by (fold W; lia). fold W.
  destruct (Z.leb_spec v (M - 1)).
  { rewrite bool_decide_true by lia. by rewrite wraps_small by (fold M; lia). }
  rewrite bool_decide_false by lia.
  destruct (Z.leb_spec (W - M) v).
  - rewrite bool_decide_true by lia. f_equal. rewrite wrapu_small by (fold W; lia).
    rewrite (wraps_small (bits t) (v - (W - M))) by (fold M; lia).
    rewrite wraps_small by (fold M; lia). lia.
  - by rewrite bool_decide_false by lia.
Qed.

(** [safe_add] of two values of one type never wraps: it is the exact sum when
    the type holds it, not-a-number when it does not - with one refusal more, a negative
    sum equal to the minimum of a signed type - and its own checks overflow only for
    an operand that is the minimum of [int] or [long] (adding two negatives). *)
Theorem safe_add_exact t a b :
  std_type t -> in_type t a -> in_type t b ->
  (a <> tmin t \/ is_signed t = false) -> (b <> tmin t \/ is_signed t = false) ->
  safe_add_ t a b =
    Num (if bool_decide (in_type t (a + b) /\ ~ (is_signed t = true /\ a < 0 /\ b < 0 /\ a + b = tmin t))
         then Some (a + b) else None).
Proof.
  intros Ht Ha Hb Ham Hbm. unfold safe_add_.
  assert (Hp : forall x k, (is_signed t = false -> 0 <= x) -> - tmax t <= x <= tmax t -> arith t x k = k x).
  { intros x k Hs Hx. unfold arith, conv. clear Ham Hbm Ha Hb.
    each_type Ht; cbn in *;
      try (rewrite !(proj2 (Z.leb_le _ _)) by lia; done);
      specialize (Hs eq_refl); rewrite wrapu_small by (cbn; lia); done. }
  assert (Hconv : in_type t (a + b) -> conv t (a + b) = a + b) by (by apply conv_id).
  assert (tmin t = (if is_signed t then - tmax t - 1 else 0)) as Hmin by (unfold tmin, tmax; destruct (is_signed t); lia).
  unfold in_type in *. destruct (is_signed t) eqn:Hs.
  - destruct (Z.ltb_spec a 0), (Z.ltb_spec b 0); cbn [andb].
    + rewrite !Hp by (discriminate || lia).
      destruct (Z.ltb_spec (tmax t - Z.abs a) (Z.abs b)).
      * rewrite bool_decide_false; [done|]. lia.
      * rewrite bool_decide_true by lia. rewrite Hp, Hconv by (discriminate || lia). done.
    + rewrite (proj2 (Z.ltb_ge 0 a)) by lia. cbn [andb].
      rewrite bool_decide_true by lia. rewrite Hp, Hconv by (discriminate || lia). done.
    + rewrite (proj2 (Z.ltb_ge 0 b)), andb_false_r by lia.
      rewrite bool_decide_true by lia. rewrite Hp, Hconv by (discriminate || lia). done.
    + destruct (Z.ltb_spec 0 a), (Z.ltb_spec 0 b); cbn [andb];
        try (rewrite bool_decide_true by lia; rewrite Hp, Hconv by (discriminate || lia); done).
      rewrite Hp by (discriminate || lia). destruct (Z.ltb_spec (tmax t - a) b).
      * rewrite bool_decide_false by lia. done.
      * rewrite bool_decide_true by lia. rewrite Hp, Hconv by (discriminate || lia). done.
  - rewrite Hp by (discriminate || lia). destruct (Z.ltb_spec (tmax t - a) b).
    + rewrite bool_decide_false by lia. done.
    + rewrite bool_decide_true by lia. rewrite Hp, Hconv by (discriminate || lia). done.
Qed.

(** Subtracting a negative number of the same [int] or [long] type is never
    computed: the bound check [max() - b] itself overflows, whatever the operands are
    (the check for negative [b] should be against [max() + b]). *)
Theorem minus_negative_overflows t a b :
  t = int_t \/ t = s64_t -> in_type t a -> in_type t b -> b < 0 ->
  number_minus t (Some a) (Some b) = Overflow.
Proof.
  intros Ht Ha Hb Hneg. unfold number_minus, number_create, is_negative, same_signness.
  rewrite (proj2 (Z.ltb_lt _ _)) by done. destruct Ht as [-> | ->]; cbn in *;
    unfold arith; cbn; rewrite (proj2 (Z.leb_gt (_ - b) _)) by lia; by rewrite andb_false_r.
Qed.

Lemma casts_exact_witness :
  down_cast u8_t u32_t (Some 300) = None /\ down_cast u8_t u32_t (Some 200) = Some 200 /\
  from_signed_cast u64_t int_t (Some (-1)) = None.
Proof.
  assert (std_type u8_t /\ std_type u32_t /\ std_type u64_t /\ std_type int_t) as (H8 & H32 & H64 & Hi)
    by (unfold std_type; simpl; tauto).
  split; [|split].
  - rewrite (proj1 (proj1 (casts_exact u8_t u32_t 300 H8 H32 ltac:(split; cbn; lia)) eq_refl)). reflexivity.
  - rewrite (proj1 (proj1 (casts_exact u8_t u32_t 200 H8 H32 ltac:(split; cbn; lia)) eq_refl)). reflexivity.
  - rewrite (proj2 (casts_exact u64_t int_t (-1) H64 Hi ltac:(split; cbn; lia)) eq_refl eq_refl ltac:(cbn; lia)).
    reflexivity.
Defined.

Lemma to_signed_twos_complement_witness :
  to_signed_cast int_t u64_t (Some (2 ^ 64 - 5)) = Some (-5) /\ to_signed_cast int_t u64_t (Some (2 ^ 40)) = None.
Proof.
  assert (std_type int_t /\ std_type u64_t) as [Hi H64] by (unfold std_type; simpl; tauto).
  split.
  - rewrite (to_signed_twos_complement int_t u64_t (2 ^ 64 - 5)) by (auto; (split; cbn; lia) || (cbn; lia)).
    reflexivity.
  - rewrite (to_signed_twos_complement int_t u64_t (2 ^ 40)) by (auto; (split; cbn; lia) || (cbn; lia)).
    reflexivity.
Defined.

Lemma safe_add_exact_witness :
  safe_add_ u8_t 200 55 = Num (Some 255) /\ safe_add_ u8_t 200 56 = Num None /\
  safe_add_ int_t (-2147483647) (-1) = Num None.
Proof.
  assert (std_type u8_t /\ std_type int_t) as [H8 Hi] by (unfold std_type; simpl; tauto).
  split; [|split].
  - rewrite (safe_add_exact u8_t 200 55 H8); [reflexivity|split; cbn; lia|split; cbn; lia|by right|by right].
  - rewrite (safe_add_exact u8_t 200 56 H8); [reflexivity|split; cbn; lia|split; cbn; lia|by right|by right].
  - rewrite (safe_add_exact int_t (-2147483647) (-1) Hi);
      [reflexivity|split; cbn; lia|split; cbn; lia|left; cbn; lia|left; cbn; lia].
Defined.

Lemma minus_negative_overflows_witness : number_minus int_t (Some 5) (Some (-3)) = Overflow.
Proof.
  apply (minus_negative_overflows int_t 5 (-3)); [by left|split; cbn; lia|split; cbn; lia|lia].
Defined.
