(* ===== verification/Epoll.v ===== *)
(** * Epoll: the event poller of common/epoll

    [epoll] wraps one kernel epoll instance and keeps the socket sets of a poll
    cycle, the rescan lists and the idle-detection lists; [epoller] creates it on
    first use and keeps the handler table.  The kernel is the parameter
    [EpollKernel]; what [epoll_wait] reports is an argument of [epoll_wait_]. *)

From stdpp Require Export sorting.
From S2P Require Export Effects.

Definition EPOLLIN : Z := 1.
Definition EPOLLOUT : Z := 4.
Definition EPOLLERR : Z := 8.
Definition EPOLLHUP : Z := 16.
Definition EPOLLER_MAX_EVENTS : Z := 50.

(** [baseCom::rescan_msec] *)
Definition rescan_msec : Z := 100.
(** [baseCom::poll_msec] *)
Definition poll_msec : Z := 10000.

Inductive errno_t : Type := E_ok | E_EXIST | E_NOENT | E_other.

#[export] Instance errno_eq_dec : EqDecision errno_t.
Proof. solve_decision. Defined.

(** The kernel's interest list, as epoll_ctl(2) documents it: ADD fails with EEXIST
    on a registered descriptor, MOD and DEL with ENOENT on an unregistered one, and
    any call may fail for other reasons without a change. *)
Class EpollKernel : Type := {
  kstate : Type;
  interest : kstate -> gmap Z Z;
  ctl_add : kstate -> Z -> Z -> kstate * errno_t;
  ctl_mod : kstate -> Z -> Z -> kstate * errno_t;
  ctl_del : kstate -> Z -> kstate * errno_t;
  ctl_add_spec : forall k s m k' e, ctl_add k s m = (k', e) ->
    (e = E_ok -> interest k !! s = None /\ interest k' = <[s := m]> (interest k)) /\
    (e = E_EXIST -> is_Some (interest k !! s)) /\
    (e <> E_ok -> interest k' = interest k) /\ e <> E_NOENT;
  ctl_mod_spec : forall k s m k' e, ctl_mod k s m = (k', e) ->
    (e = E_ok -> is_Some (interest k !! s) /\ interest k' = <[s := m]> (interest k)) /\
    (e = E_NOENT -> interest k !! s = None) /\
    (e <> E_ok -> interest k' = interest k);
  ctl_del_spec : forall k s k' e, ctl_del k s = (k', e) ->
    (e = E_ok -> interest k' = delete s (interest k)) /\
    (e <> E_ok -> interest k' = interest k /\ (e = E_NOENT -> interest k !! s = None) /\ e <> E_EXIST)
}.

(** An interest list that accepts every descriptor. *)
#[export] Program Instance gmap_kernel : EpollKernel := {|
  kstate := gmap Z Z;
  interest k := k;
  ctl_add k s m := match k !! s with None => (<[s := m]> k, E_ok) | Some _ => (k, E_EXIST) end;
  ctl_mod k s m := match k !! s with Some _ => (<[s := m]> k, E_ok) | None => (k, E_NOENT) end;
  ctl_del k s := match k !! s with Some _ => (delete s k, E_ok) | None => (k, E_NOENT) end
|}.
Next Obligation. intros k s m k' e H. simpl in *. destruct (k !! s) eqn:E; simplify_eq; naive_solver. Qed.
Next Obligation. intros k s m k' e H. simpl in *. destruct (k !! s) eqn:E; simplify_eq; naive_solver. Qed.
Next Obligation. intros k s k' e H. simpl in *. destruct (k !! s) eqn:E; simplify_eq; naive_solver. Qed.

Section epoll.
Context {EK : EpollKernel}.

Record epoll : Type := mkEpoll {
  kernel : kstate;
  hint_fd_ : Z;
  auto_epollout_remove : bool;
  in_set : gset Z;
  out_set : gset Z;
  err_set : gset Z;
  enforce_in_set : gset Z;
  rescan_set_in : gset Z;
  rescan_set_out : gset Z;
  rescan_timer : Z;              (* in milliseconds *)
  idle_timeout_ms : Z;
  idle_counter : Z;
  idle_round : bool;
  idle_watched_pre : gset Z;
  idle_watched : gset Z;
  idle_set : gset Z
}.

(** A new [epoll] after [init()]. *)
Definition epoll_new (k : kstate) (now : Z) : epoll :=
  mkEpoll k 0 true ∅ ∅ ∅ ∅ ∅ ∅ now 1000 0 true ∅ ∅ ∅.

Definition set_kernel k (p : epoll) : epoll :=
  mkEpoll k (hint_fd_ p) (auto_epollout_remove p) (in_set p) (out_set p) (err_set p)
    (enforce_in_set p) (rescan_set_in p) (rescan_set_out p) (rescan_timer p) (idle_timeout_ms p)
    (idle_counter p) (idle_round p) (idle_watched_pre p) (idle_watched p) (idle_set p).
Definition set_hint h (p : epoll) : epoll :=
  mkEpoll (kernel p) h (auto_epollout_remove p) (in_set p) (out_set p) (err_set p)
    (enforce_in_set p) (rescan_set_in p) (rescan_set_out p) (rescan_timer p) (idle_timeout_ms p)
    (idle_counter p) (idle_round p) (idle_watched_pre p) (idle_watched p) (idle_set p).
(** The four sets of one poll cycle. *)
Definition set_sets i o e en (p : epoll) : epoll :=
  mkEpoll (kernel p) (hint_fd_ p) (auto_epollout_remove p) i o e
    en (rescan_set_in p) (rescan_set_out p) (rescan_timer p) (idle_timeout_ms p)
    (idle_counter p) (idle_round p) (idle_watched_pre p) (idle_watched p) (idle_set p).
Definition set_rescans i o t (p : epoll) : epoll :=
  mkEpoll (kernel p) (hint_fd_ p) (auto_epollout_remove p) (in_set p) (out_set p) (err_set p)
    (enforce_in_set p) i o t (idle_timeout_ms p)
    (idle_counter p) (idle_round p) (idle_watched_pre p) (idle_watched p) (idle_set p).
Definition set_idle c r pre wa id (p : epoll) : epoll :=
  mkEpoll (kernel p) (hint_fd_ p) (auto_epollout_remove p) (in_set p) (out_set p) (err_set p)
    (enforce_in_set p) (rescan_set_in p) (rescan_set_out p) (rescan_timer p) (idle_timeout_ms p)
    c r pre wa id.

(** ** Registration *)

Definition epoll_add (socket mask : Z) (p : epoll) : bool * epoll :=
  let '(k, e) := ctl_add (kernel p) socket mask in
  match e with
  | E_ok | E_EXIST => (true, set_kernel k p)
  | _ => (false, set_kernel k p)
  end.

Definition epoll_modify (socket mask : Z) (p : epoll) : bool * epoll :=
  let '(k, e) := ctl_mod (kernel p) socket mask in
  match e with
  | E_ok => (true, set_kernel k p)
  | E_NOENT => (false, snd (epoll_add socket mask (set_kernel k p)))
  | _ => (false, set_kernel k p)
  end.

Definition epoll_del (socket : Z) (p : epoll) : bool * epoll :=
  let '(k, e) := ctl_del (kernel p) socket in
  (bool_decide (e = E_ok), set_kernel k p).

Definition epoll_hint_socket (socket : Z) (p : epoll) : bool * epoll :=
  let p1 := if 0 <? hint_fd_ p then set_kernel (fst (ctl_del (kernel p) (hint_fd_ p))) p else p in
  let '(ok, p2) := epoll_add socket EPOLLIN p1 in
  if ok then (true, set_hint socket p2) else (false, p2).

Definition epoll_in_read_set (check : Z) (p : epoll) : bool := bool_decide (check ∈ in_set p).
(** [in_write_set] does not look at [out_set]. *)
Definition epoll_in_write_set (check : Z) (p : epoll) : bool := true.
Definition epoll_in_idle_set (check : Z) (p : epoll) : bool := bool_decide (check ∈ idle_set p).
Definition epoll_in_idle_watched_set (check : Z) (p : epoll) : bool := bool_decide (check ∈ idle_watched p).

(** ** Rescans *)

Definition epoll_rescans_empty (p : epoll) : bool :=
  bool_decide (rescan_set_in p = ∅) && bool_decide (rescan_set_out p = ∅).

Definition epoll_rescan_in (now socket : Z) (p : epoll) : bool * epoll :=
  if 0 <? socket then
    let p1 := snd (epoll_del socket p) in
    let t := if bool_decide (rescan_set_in p1 = ∅) then now else rescan_timer p1 in
    (true, set_rescans ({[socket]} ∪ rescan_set_in p1) (rescan_set_out p1) t p1)
  else (false, p).

Definition epoll_rescan_out (now socket : Z) (p : epoll) : bool * epoll :=
  if 0 <? socket then
    let p1 := snd (epoll_del socket p) in
    let t := if bool_decide (rescan_set_out p1 = ∅) then now else rescan_timer p1 in
    (true, set_rescans (rescan_set_in p1) ({[socket]} ∪ rescan_set_out p1) t p1)
  else (false, p).

Definition epoll_enforce_in (socket : Z) (p : epoll) : bool * epoll :=
  (true, if 0 <? socket
         then set_sets (in_set p) (out_set p) (err_set p) ({[socket]} ∪ enforce_in_set p) p
         else p).

Definition erased (socket : Z) (s : gset Z) : Z := if bool_decide (socket ∈ s) then 1 else 0.

Definition epoll_cancel_rescan_in (socket : Z) (p : epoll) : Z * epoll :=
  if 0 <? socket then
    (erased socket (rescan_set_in p),
     set_rescans (rescan_set_in p ∖ {[socket]}) (rescan_set_out p) (rescan_timer p) p)
  else (0, p).

Definition epoll_cancel_rescan_out (socket : Z) (p : epoll) : Z * epoll :=
  if 0 <? socket then
    (erased socket (rescan_set_out p),
     set_rescans (rescan_set_in p) (rescan_set_out p ∖ {[socket]}) (rescan_timer p) p)
  else (0, p).

(** ** Idle detection *)

Definition epoll_set_idle_watch (check : Z) (p : epoll) : epoll :=
  set_idle (idle_counter p) (idle_round p) ({[check]} ∪ idle_watched_pre p) (idle_watched p) (idle_set p) p.

Definition epoll_clear_idle_watch (check : Z) (p : epoll) : Z * epoll :=
  let ip := erased check (idle_watched_pre p) in
  let p1 := set_idle (idle_counter p) (idle_round p) (idle_watched_pre p ∖ {[check]}) (idle_watched p) (idle_set p) p in
  if ip <=? 0 then
    (ip + erased check (idle_watched p1),
     set_idle (idle_counter p1) (idle_round p1) (idle_watched_pre p1) (idle_watched p1 ∖ {[check]}) (idle_set p1) p1)
  else (ip, p1).

Definition epoll_click_timer_now (now : Z) (p : epoll) : bool * epoll :=
  let ms_diff := now - rescan_timer p in
  if rescan_msec <? ms_diff then
    let p1 := set_rescans (rescan_set_in p) (rescan_set_out p) now p in
    (true, set_idle (idle_counter p1 + ms_diff) (idle_round p1) (idle_watched_pre p1)
             (idle_watched p1) (idle_set p1) p1)
  else (false, p).

Definition process_pre_wait_idles (p : epoll) : epoll :=
  if idle_timeout_ms p <? idle_counter p then
    let round := negb (idle_round p) in
    if negb round then
      set_idle 0 round ∅ (idle_watched_pre p ∪ idle_watched p) (idle_set p) p
    else
      set_idle 0 round (idle_watched_pre p) ∅ (idle_watched p ∪ idle_set p) p
  else p.

(** ** One poll cycle *)

(** Iteration of an [mp::set<int>]: ascending. *)
Definition ascending (s : gset Z) : list Z := merge_sort Z.le (elements s).

Definition process_pre_wait_rescans (p : epoll) : epoll :=
  let p1 := foldl (fun p s => snd (epoll_add s EPOLLIN p)) p (ascending (rescan_set_in p)) in
  let p2 := set_rescans ∅ (rescan_set_out p1) (rescan_timer p1) p1 in
  let p3 := foldl (fun p s => snd (epoll_add s (Z.lor EPOLLIN EPOLLOUT) p)) p2 (ascending (rescan_set_out p2)) in
  set_rescans (rescan_set_in p3) ∅ (rescan_timer p3) p3.

(** One event: socket and event mask. *)
Definition process_event (ev : Z * Z) (p : epoll) : epoll :=
  let '(socket, eventset) := ev in
  if negb (Z.land eventset EPOLLIN =? 0) then
    snd (epoll_clear_idle_watch socket
           (set_sets ({[socket]} ∪ in_set p) (out_set p) (err_set p) (enforce_in_set p) p))
  else if negb (Z.land eventset EPOLLOUT =? 0) then
    let p1 := snd (epoll_clear_idle_watch socket
                     (set_sets (in_set p) ({[socket]} ∪ out_set p) (err_set p) (enforce_in_set p) p)) in
    if auto_epollout_remove p1 then snd (epoll_modify socket EPOLLIN p1) else p1
  else set_sets (in_set p) (out_set p) ({[socket]} ∪ err_set p) (enforce_in_set p) p.

(** [process_epoll_events(nfds)] over the event array; reading past the array is
    undefined. *)
Fixpoint process_epoll_events (events : list (Z * Z)) (i : nat) (n : nat) : M epoll unit :=
  match n with
  | O => mret_ tt
  | S n' =>
      match events !! i with
      | None => undef
      | Some ev => modify (process_event ev) ;;; process_epoll_events events (S i) n'
      end
  end.

(** [epoll_wait] overwrites the front of the event array with what it reports. *)
Definition fill_events (reported events : list (Z * Z)) : list (Z * Z) :=
  reported ++ drop (length reported) events.

(** What one call of [epoll_wait] returns. *)
Inductive wait_result : Type :=
  | Events (l : list (Z * Z))
  | Eintr
  | Fatal.

(** The [do { } while (cur_nfds == EPOLLER_MAX_EVENTS)] loop: [rs] are the results of the
    successive calls. *)
Fixpoint wait_loop (rs : list wait_result) (events : list (Z * Z)) (nfds : Z) : M epoll (Z * bool) :=
  match rs with
  | [] => undef
  | Eintr :: _ => mret_ (nfds, false)
  | Fatal :: _ => mret_ (-1, false)
  | Events l :: rest =>
      let events' := fill_events l events in
      let nfds' := nfds + zlen l in
      process_epoll_events events' 0 (Z.to_nat nfds') ;;;
      if zlen l =? EPOLLER_MAX_EVENTS then wait_loop rest events' nfds'
      else mret_ (nfds', true)
  end.

Definition enforced_to_inset (p : epoll) : epoll :=
  set_sets (enforce_in_set p ∪ in_set p) (out_set p) (err_set p) ∅ p.

Definition epoll_clear (p : epoll) : epoll :=
  let p1 := set_sets ∅ ∅ ∅ (enforce_in_set p) p in
  set_idle (idle_counter p1) (idle_round p1) (idle_watched_pre p1) (idle_watched p1) ∅ p1.

(** [epoll::wait] at time [now]; an interrupted or failed [epoll_wait] returns before
    the enforced sockets are added. *)
Definition epoll_wait_ (now : Z) (rs : list wait_result) (events : list (Z * Z)) : M epoll Z :=
  modify epoll_clear ;;;
  modify (fun p => let '(click, p1) := epoll_click_timer_now now p in
                   if click then process_pre_wait_idles (process_pre_wait_rescans p1) else p1) ;;;
  let! (nfds, normal) := wait_loop rs events 0 in
  when normal (modify enforced_to_inset) ;;;
  mret_ nfds.

(** ** [epoller]: the lazily created poller and the handler table *)

(** [epoll_handler], by number: its registrant ([true]: this poller) and its sockets. *)
Record handler : Type := mkHandler {
  registered : bool;
  registered_sockets : gset Z
}.

Record epoller : Type := mkEpoller {
  poller : option epoll;
  handler_db : gmap Z Z;
  handlers : gmap Z handler
}.

Section calls.
(** What [epoll_create] returns, should it be called, and the current time. *)
Context (k0 : kstate) (now : Z).

(** [init_if_null] ([exit(-1)] when [epoll_create] fails). *)
Definition init_if_null (e : epoller) : epoller :=
  match poller e with
  | Some _ => e
  | None => mkEpoller (Some (epoll_new k0 now)) (handler_db e) (handlers e)
  end.

(** A call forwarded to the poller, [dflt] when there is none. *)
Definition forward {A} (dflt : A) (f : epoll -> A * epoll) (e : epoller) : A * epoller :=
  let e1 := init_if_null e in
  match poller e1 with
  | Some p => let '(a, p') := f p in (a, mkEpoller (Some p') (handler_db e1) (handlers e1))
  | None => (dflt, e1)
  end.

Definition epoller_add s m := forward false (epoll_add s m).
Definition epoller_modify s m := forward false (epoll_modify s m).
Definition epoller_rescans_empty := forward true (fun p => (epoll_rescans_empty p, p)).
Definition epoller_rescan_in s := forward false (epoll_rescan_in now s).
Definition epoller_enforce_in s := forward false (epoll_enforce_in s).
Definition epoller_cancel_rescan_in s := forward 0 (epoll_cancel_rescan_in s).
Definition epoller_rescan_out s := forward false (epoll_rescan_out now s).
Definition epoller_cancel_rescan_out s := forward 0 (epoll_cancel_rescan_out s).
Definition epoller_click_timer_now := forward false (epoll_click_timer_now now).
Definition epoller_hint_socket s := forward false (epoll_hint_socket s).
Definition epoller_in_read_set s := forward false (fun p => (epoll_in_read_set s p, p)).
Definition epoller_in_write_set s := forward false (fun p => (epoll_in_write_set s p, p)).
Definition epoller_in_idle_set s := forward false (fun p => (epoll_in_idle_set s p, p)).
Definition epoller_set_idle_watch s := forward tt (fun p => (tt, epoll_set_idle_watch s p)).
Definition epoller_clear_idle_watch s :=
  forward tt (fun p => (tt, snd (epoll_clear_idle_watch s p))).
End calls.

Definition get_handler (check : Z) (e : epoller) : option Z := handler_db e !! check.

Definition clear_handler (check : Z) (e : epoller) : epoller :=
  mkEpoller
    (match poller e with
     | Some p =>
         Some (snd (epoll_clear_idle_watch check
           (set_rescans (rescan_set_in p ∖ {[check]}) (rescan_set_out p ∖ {[check]}) (rescan_timer p) p)))
     | None => None
     end)
    (delete check (handler_db e)) (handlers e).

(** [epoller::del]: with a poller - always, after [init_if_null] - the handler stays. *)
Definition epoller_del (k0 : kstate) (now : Z) (s : Z) (e : epoller) : bool * epoller :=
  let e1 := init_if_null k0 now e in
  match poller e1 with
  | Some p => let '(r, p') := epoll_del s p in (r, mkEpoller (Some p') (handler_db e1) (handlers e1))
  | None => (false, clear_handler s e1)
  end.

Definition handler_of (h : Z) (e : epoller) : handler :=
  default (mkHandler false ∅) (handlers e !! h).

(** [set_handler(check, h)] for one process-wide poller: a handler registered here
    already keeps its registrant. *)
Definition set_handler (check : Z) (h : option Z) (e : epoller) : epoller :=
  match h with
  | Some h =>
      mkEpoller (poller e) (<[check := h]> (handler_db e))
        (<[h := mkHandler true ({[check]} ∪ registered_sockets (handler_of h e))]> (handlers e))
  | None => clear_handler check e
  end.

(** [~epoll_handler]: drop the table entries that are still this handler's. *)
Definition handler_destroy (h : Z) (e : epoller) : epoller :=
  let ho := handler_of h e in
  let e1 :=
    if registered ho then
      foldl (fun e s => if bool_decide (get_handler s e = Some h) then clear_handler s e else e)
        e (ascending (registered_sockets ho))
    else e in
  mkEpoller (poller e1) (handler_db e1) (delete h (handlers e1)).

(** ** The monitor calls of [baseCom] (basecom.hpp)

    A negative socket is virtual: [translate_socket], a virtual member function,
    maps it to a real one. *)

Section com.
Context (k0 : kstate) (now : Z) (translate_socket : Z -> Z).

Definition real (xs : Z) : Z := if xs <? 0 then translate_socket xs else xs.

(** [if (s > 0) { f(s); }] on the real socket. *)
Definition on_real (xs : Z) (f : Z -> epoller -> epoller) (e : epoller) : epoller :=
  let s := real xs in if 0 <? s then f s e else e.

Definition set_monitor (xs : Z) : epoller -> epoller :=
  on_real xs (fun s e => snd (epoller_add k0 now s EPOLLIN e)).
Definition set_enforce (xs : Z) : epoller -> epoller :=
  on_real xs (fun s e => snd (epoller_enforce_in k0 now s e)).
Definition unset_monitor (xs : Z) : epoller -> epoller :=
  on_real xs (fun s e =>
    let e1 := snd (epoller_del k0 now s e) in
    let e2 := snd (epoller_cancel_rescan_in k0 now s e1) in
    snd (epoller_cancel_rescan_out k0 now s e2)).
Definition set_write_monitor (xs : Z) : epoller -> epoller :=
  on_real xs (fun s e => snd (epoller_modify k0 now s (Z.lor EPOLLIN EPOLLOUT) e)).
Definition set_write_monitor_only (xs : Z) : epoller -> epoller :=
  on_real xs (fun s e => snd (epoller_modify k0 now s EPOLLOUT e)).
Definition change_monitor (xs new_mode : Z) : epoller -> epoller :=
  on_real xs (fun s e => snd (epoller_modify k0 now s new_mode e)).
Definition set_hint_monitor (s : Z) (e : epoller) : epoller :=
  snd (epoller_hint_socket k0 now s e).
Definition set_poll_handler (xs : Z) (h : option Z) (e : epoller) : epoller :=
  let e1 := set_handler (real xs) h e in
  if xs <? 0 then set_handler xs h e1 else e1.
Definition com_set_idle_watch (xs : Z) : epoller -> epoller :=
  on_real xs (fun s e => snd (epoller_set_idle_watch k0 now s e)).
Definition com_clear_idle_watch (xs : Z) : epoller -> epoller :=
  on_real xs (fun s e => snd (epoller_clear_idle_watch k0 now s e)).
Definition rescan_read (xs : Z) : epoller -> epoller :=
  on_real xs (fun s e => snd (epoller_rescan_in k0 now s e)).
Definition rescan_write (xs : Z) : epoller -> epoller :=
  on_real xs (fun s e => snd (epoller_rescan_out k0 now s e)).

(** [baseCom::poll]: a pending rescan shortens the wait. *)
Definition com_poll (rs : Z -> list wait_result) (events : list (Z * Z)) : M epoller Z :=
  empty <- (fun e => let '(b, e') := epoller_rescans_empty k0 now e in Ret b e') ;;
  let wait_time := if empty then poll_msec else rescan_msec in
  fun e =>
    let e1 := init_if_null k0 now e in
    match poller e1 with
    | None => Ret 0 e1
    | Some p =>
        match epoll_wait_ now (rs wait_time) events p with
        | Ret r p' => Ret r (mkEpoller (Some p') (handler_db e1) (handlers e1))
        | Throw x p' => Throw x (mkEpoller (Some p') (handler_db e1) (handlers e1))
        | Undef => Undef
        end
    end.

(** ** [socket_state]: a socket being opened or closed *)

Inductive ss_state : Type := SS_NONE | SS_CLOSING | SS_OPENING.

Record socket_state : Type := mkSocketState {
  ss_socket : Z;
  ss_handler : option Z;
  ss_com : bool;
  ss_state_ : ss_state;
  ss_owner : bool
}.

(** [update(s)]: the new object, the poller, and the descriptor it closes. *)
Definition socket_state_update (s : ss_state) (x : socket_state) (e : epoller)
  : socket_state * epoller * option Z :=
  if ss_com x && negb (ss_socket x =? 0) then
    match s with
    | SS_CLOSING =>
        let e1 := set_poll_handler (ss_socket x) None (unset_monitor (ss_socket x) e) in
        (mkSocketState (if ss_owner x then 0 else ss_socket x) (ss_handler x) (ss_com x) SS_NONE (ss_owner x),
         e1, if ss_owner x then Some (ss_socket x) else None)
    | SS_OPENING =>
        let e1 := set_write_monitor (ss_socket x) e in
        let e2 := set_poll_handler (ss_socket x) (ss_handler x) e1 in
        (x, com_set_idle_watch (ss_socket x) e2, None)
    | SS_NONE =>
        (mkSocketState (ss_socket x) (ss_handler x) (ss_com x) s (ss_owner x), e, None)
    end
  else (mkSocketState (ss_socket x) (ss_handler x) (ss_com x) s (ss_owner x), e, None).

Definition mon_read (x : socket_state) (e : epoller) : epoller :=
  if ss_com x && negb (ss_socket x =? 0) then change_monitor (ss_socket x) EPOLLIN e else e.
Definition mon_write (x : socket_state) (e : epoller) : epoller :=
  if ss_com x && negb (ss_socket x =? 0) then change_monitor (ss_socket x) EPOLLOUT e else e.
Definition mon_none (x : socket_state) (e : epoller) : epoller :=
  if ss_com x && negb (ss_socket x =? 0) then unset_monitor (ss_socket x) e else e.

(** [~socket_state]: the descriptor it closes. *)
Definition socket_state_destroy (x : socket_state) : option Z :=
  if ss_owner x && (0 <? ss_socket x) then Some (ss_socket x) else None.
End com.
End epoll.
