(* ===== verification/EpollProps.v ===== *)
(** * EpollProps: the properties of the event poller *)

From S2P Require Export Epoll.

Section props.
Context {EK : EpollKernel}.

(** ** Event processing *)

Definition is_in (ev : Z * Z) : bool := negb (Z.land (snd ev) EPOLLIN =? 0).
Definition is_out (ev : Z * Z) : bool := negb (is_in ev) && negb (Z.land (snd ev) EPOLLOUT =? 0).
Definition is_err (ev : Z * Z) : bool := negb (is_in ev) && (Z.land (snd ev) EPOLLOUT =? 0).

Definition sockets_of (f : Z * Z -> bool) (l : list (Z * Z)) : gset Z :=
  list_to_set (fst <$> filter (fun ev => f ev = true) l).

(** What an event does to the four sets, whatever the kernel answers. *)
Definition sets_of (p : epoll) := (in_set p, out_set p, err_set p, enforce_in_set p).

Lemma sets_of_kernel p k : sets_of (set_kernel k p) = sets_of p.
Proof. done. Qed.

Lemma sets_of_add s m p : sets_of (snd (epoll_add s m p)) = sets_of p.
Proof. unfold epoll_add. destruct (ctl_add _ _ _) as [k e]. by destruct e. Qed.

Lemma sets_of_modify s m p : sets_of (snd (epoll_modify s m p)) = sets_of p.
Proof.
  unfold epoll_modify. destruct (ctl_mod _ _ _) as [k e]. destruct e; simpl; try done.
  by rewrite sets_of_add.
Qed.

Lemma sets_of_clear_idle s p : sets_of (snd (epoll_clear_idle_watch s p)) = sets_of p.
Proof. unfold epoll_clear_idle_watch. by case_if. Qed.

Lemma sets_of_event ev p :
  sets_of (process_event ev p) =
  ((if is_in ev then {[fst ev]} else ∅) ∪ in_set p,
   (if is_out ev then {[fst ev]} else ∅) ∪ out_set p,
   (if is_err ev then {[fst ev]} else ∅) ∪ err_set p, enforce_in_set p).
Proof.
  destruct ev as [s m]. unfold process_event, is_out, is_err, is_in. simpl.
  destruct (Z.land m EPOLLIN =? 0); cbn [negb andb].
  - destruct (Z.land m EPOLLOUT =? 0); cbn [negb].
    + unfold sets_of. simpl. by rewrite !(left_id_L ∅ (∪)).
    + set (p1 := snd (epoll_clear_idle_watch _ _)).
      assert (sets_of p1 = (in_set p, {[s]} ∪ out_set p, err_set p, enforce_in_set p)) as E
        by (unfold p1; by rewrite sets_of_clear_idle).
      destruct (auto_epollout_remove p1); rewrite ?sets_of_modify, E, !(left_id_L ∅ (∪)); done.
  - rewrite sets_of_clear_idle. unfold sets_of. simpl. by rewrite !(left_id_L ∅ (∪)).
Qed.

Lemma sockets_of_cons f ev l :
  sockets_of f (ev :: l) = (if f ev then {[fst ev]} else ∅) ∪ sockets_of f l.
Proof.
  unfold sockets_of. rewrite filter_cons. destruct (f ev) eqn:E.
  - by rewrite decide_True.
  - rewrite decide_False by done. by rewrite (left_id_L ∅ (∪)).
Qed.

Lemma union_swap (X Y Z : gset Z) : X ∪ (Y ∪ Z) = (Y ∪ X) ∪ Z.
Proof. set_solver. Qed.

(** Processing [n] events that are all inside the array. *)
Lemma process_events_spec events : forall n i p,
  (i + n <= length events)%nat ->
  exists p', process_epoll_events events i n p = Ret tt p' /\
    let l := take n (drop i events) in
    sets_of p' = (sockets_of is_in l ∪ in_set p, sockets_of is_out l ∪ out_set p,
                  sockets_of is_err l ∪ err_set p, enforce_in_set p).
Proof.
  induction n as [|n IH]; intros i p Hi.
  - exists p. split; [done|]. simpl. unfold sets_of, sockets_of. simpl.
    by rewrite !(left_id_L ∅ (∪)).
  - destruct (lookup_lt_is_Some_2 events i) as [ev Hev]; [lia|]. simpl. rewrite Hev.
    destruct (IH (S i) (process_event ev p)) as (p' & E & Hs); [lia|].
    exists p'. split; [exact E|]. rewrite (drop_S _ _ _ Hev), firstn_cons, !sockets_of_cons.
    cbv zeta in Hs. rewrite Hs. pose proof (sets_of_event ev p) as He.
    unfold sets_of in He. injection He as -> -> -> ->.
    by rewrite !union_swap.
Qed.

Lemma process_events_undef events : forall n i p,
  (length events < i + n)%nat -> (i <= length events)%nat ->
  process_epoll_events events i n p = Undef.
Proof.
  induction n as [|n IH]; intros i p H Hi; [lia|]. simpl.
  destruct (events !! i) eqn:E; [|done]. unfold mbind_, modify.
  apply lookup_lt_Some in E. apply IH; lia.
Qed.

Lemma sets_of_add_list (mask : Z) l : forall p,
  sets_of (foldl (fun p s => snd (epoll_add s mask p)) p l) = sets_of p.
Proof. induction l as [|s l IH]; intros p; simpl; [done|]. by rewrite IH, sets_of_add. Qed.

Lemma sets_of_rescans p : sets_of (process_pre_wait_rescans p) = sets_of p.
Proof.
  unfold process_pre_wait_rescans. cbv zeta.
  transitivity (sets_of (foldl (fun p s => snd (epoll_add s EPOLLIN p)) p (ascending (rescan_set_in p))));
    [|apply sets_of_add_list].
  set (p1 := foldl _ p _). set (p2 := set_rescans ∅ _ _ p1).
  exact (sets_of_add_list _ (ascending (rescan_set_out p2)) p2).
Qed.

Lemma sets_of_idles p : sets_of (process_pre_wait_idles p) = sets_of p.
Proof. unfold process_pre_wait_idles. case_if; [|done]. by case_if. Qed.

Definition pre_wait (now : Z) (p : epoll) : epoll :=
  let '(click, p1) := epoll_click_timer_now now p in
  if click then process_pre_wait_idles (process_pre_wait_rescans p1) else p1.

Lemma sets_of_pre_wait now p : sets_of (pre_wait now p) = sets_of p.
Proof.
  unfold pre_wait, epoll_click_timer_now. case_if; [|done].
  by rewrite sets_of_idles, sets_of_rescans.
Qed.

Lemma sets_of_clear p : sets_of (epoll_clear p) = (∅, ∅, ∅, enforce_in_set p).
Proof. done. Qed.

Lemma to_nat_zlen {A} (l : list A) : Z.to_nat (zlen l) = length l.
Proof. rewrite zlen_length. lia. Qed.

Lemma length_fill_events (l events : list (Z * Z)) :
  (length l <= length events)%nat -> length (fill_events l events) = length events.
Proof. intros. unfold fill_events. rewrite length_app, length_drop. lia. Qed.

(** [C29] One poll cycle that does not fill the event array reports exactly the
    kernel's events: the read set is the sockets with EPOLLIN plus the enforced ones,
    the write set those with EPOLLOUT only, every other event is an error; stale
    members of the previous cycle are gone and the enforced set is used up. *)
Theorem wait_reports_exactly now l events p :
  zlen l < EPOLLER_MAX_EVENTS -> length events = 50%nat ->
  exists p', epoll_wait_ now [Events l] events p = Ret (zlen l) p' /\
    in_set p' = enforce_in_set p ∪ sockets_of is_in l /\
    out_set p' = sockets_of is_out l /\ err_set p' = sockets_of is_err l /\
    enforce_in_set p' = ∅.
Proof.
  intros Hl He. unfold EPOLLER_MAX_EVENTS in Hl. pose proof (to_nat_zlen l) as Hlen.
  pose proof (zlen_nonneg l).
  unfold epoll_wait_, mbind_, modify. cbv beta iota.
  change (let '(click, p1) := epoll_click_timer_now now (epoll_clear p) in
          if click then process_pre_wait_idles (process_pre_wait_rescans p1) else p1)
    with (pre_wait now (epoll_clear p)).
  pose proof (sets_of_pre_wait now (epoll_clear p)) as Hs. rewrite sets_of_clear in Hs.
  destruct (process_events_spec (fill_events l events) (length l) 0 (pre_wait now (epoll_clear p)))
    as (p1 & E1 & Hs1); [rewrite length_fill_events; lia|].
  unfold wait_loop, mbind_. rewrite Z.add_0_l, Hlen, E1.
  unfold EPOLLER_MAX_EVENTS. rewrite (proj2 (Z.eqb_neq _ _)) by lia.
  unfold mret_, when, modify. eexists. split; [reflexivity|].
  cbv zeta in Hs1. rewrite drop_0 in Hs1. unfold fill_events in Hs1.
  rewrite take_app_le, firstn_all in Hs1 by lia.
  unfold sets_of in Hs, Hs1. injection Hs as E2 E3 E4 E5. rewrite E2, E3, E4, E5 in Hs1.
  injection Hs1 as E6 E7 E8 E9. simpl. rewrite E6, E7, E8, E9.
  by rewrite !(right_id_L ∅ (∪)).
Qed.

(** When the kernel fills the event array, [wait] polls again and then
    walks the array by the accumulated count, although each poll overwrites it from
    the start: one more event in the second poll makes it read past the array's 50
    entries, undefined behaviour. *)
Theorem wait_overruns_event_array now l1 l2 rest events p :
  zlen l1 = EPOLLER_MAX_EVENTS -> 0 < zlen l2 <= EPOLLER_MAX_EVENTS -> length events = 50%nat ->
  epoll_wait_ now (Events l1 :: Events l2 :: rest) events p = Undef.
Proof.
  unfold EPOLLER_MAX_EVENTS. intros H1 H2 He.
  pose proof (to_nat_zlen l1) as Hl1. pose proof (to_nat_zlen l2) as Hl2.
  unfold epoll_wait_, mbind_, modify. cbv beta iota. set (p0 := pre_wait now (epoll_clear p)).
  change (let '(click, p1) := epoll_click_timer_now now (epoll_clear p) in
          if click then process_pre_wait_idles (process_pre_wait_rescans p1) else p1) with p0.
  cbn [wait_loop]. unfold mbind_. rewrite Z.add_0_l, H1.
  destruct (process_events_spec (fill_events l1 events) (Z.to_nat 50) 0 p0) as (p1 & E1 & _).
  { rewrite length_fill_events; lia. }
  rewrite E1. change (50 =? EPOLLER_MAX_EVENTS) with true. cbv beta iota.
  rewrite process_events_undef; [done| |lia].
  rewrite !length_fill_events by (rewrite ?length_fill_events; lia). lia.
Qed.

(** ** Rescans *)

(** The kernel refuses a descriptor only because it is registered already. *)
Definition kernel_accepts : Prop := forall k s m, snd (ctl_add k s m) <> E_other.

Definition watched (p : epoll) : gmap Z Z := interest (kernel p).

(** [add] on the interest list: a registered socket keeps its mask. *)
Definition put (s m : Z) (i : gmap Z Z) : gmap Z Z :=
  match i !! s with Some _ => i | None => <[s := m]> i end.

Lemma watched_add s m p :
  kernel_accepts -> watched (snd (epoll_add s m p)) = put s m (watched p).
Proof.
  intros Hk. unfold epoll_add, watched, put. pose proof (Hk (kernel p) s m) as Ho.
  destruct (ctl_add (kernel p) s m) as [k e] eqn:E.
  destruct (ctl_add_spec _ _ _ _ _ E) as (H1 & H2 & H3 & H4). destruct e; simpl in *; try done.
  - destruct (H1 eq_refl) as [-> ->]. done.
  - destruct (H2 eq_refl) as [m' ->]. by rewrite H3.
Qed.

Lemma rescan_sets_add s m p :
  rescan_set_in (snd (epoll_add s m p)) = rescan_set_in p /\
  rescan_set_out (snd (epoll_add s m p)) = rescan_set_out p.
Proof. unfold epoll_add. destruct (ctl_add _ _ _) as [k e]. by destruct e. Qed.

Lemma put_list_lookup m l : forall i s,
  foldl (fun i s => put s m i) i l !! s =
  match i !! s with Some x => Some x | None => if bool_decide (s ∈ l) then Some m else None end.
Proof.
  induction l as [|a l IH]; intros i s; simpl.
  - by destruct (i !! s).
  - rewrite IH. unfold put. destruct (i !! a) as [ma|] eqn:Ea.
    + destruct (i !! s) as [x|] eqn:Es; [done|].
      assert (s <> a) by congruence.
      rewrite (bool_decide_ext (s ∈ a :: l) (s ∈ l)); [done|]. rewrite elem_of_cons. naive_solver.
    + rewrite lookup_insert. case_decide; subst.
      * rewrite Ea, bool_decide_true; [done|]. apply elem_of_cons. by left.
      * destruct (i !! s); [done|]. rewrite (bool_decide_ext (s ∈ a :: l) (s ∈ l)); [done|].
        rewrite elem_of_cons. naive_solver.
Qed.

Lemma add_list m l : forall p, kernel_accepts ->
  let p' := foldl (fun p s => snd (epoll_add s m p)) p l in
  watched p' = foldl (fun i s => put s m i) (watched p) l /\
  rescan_set_in p' = rescan_set_in p /\ rescan_set_out p' = rescan_set_out p.
Proof.
  induction l as [|s l IH]; intros p Hk; simpl; [done|].
  destruct (IH (snd (epoll_add s m p)) Hk) as (-> & -> & ->).
  rewrite watched_add by done. destruct (rescan_sets_add s m p) as [-> ->]. done.
Qed.

Lemma elem_of_ascending s (X : gset Z) : s ∈ ascending X <-> s ∈ X.
Proof.
  unfold ascending. rewrite <- elem_of_elements.
  by rewrite (merge_sort_Permutation Z.le (elements X)).
Qed.

(** Rescans: [rescan_in] and [rescan_out] take the socket off the kernel's
    list, and the next due [wait] puts every such socket back and empties both lists,
    leaving every other registration alone.  A socket waiting on both lists comes back
    for EPOLLIN only: its second registration fails with EEXIST, so the wanted EPOLLOUT
    is lost. *)
Theorem rescans_restored p s :
  kernel_accepts ->
  (forall now, 0 < s -> snd (ctl_del (kernel p) s) <> E_other ->
     let p1 := snd (epoll_rescan_in now s p) in
     watched p1 !! s = None /\ s ∈ rescan_set_in p1 /\ rescan_set_out p1 = rescan_set_out p) /\
  (let p2 := process_pre_wait_rescans p in
   rescan_set_in p2 = ∅ /\ rescan_set_out p2 = ∅ /\
   watched p2 !! s =
     match watched p !! s with
     | Some m => Some m
     | None => if bool_decide (s ∈ rescan_set_in p) then Some EPOLLIN
               else if bool_decide (s ∈ rescan_set_out p) then Some (Z.lor EPOLLIN EPOLLOUT)
               else None
     end).
Proof.
  intros Hk. split.
  - intros now Hs He. unfold epoll_rescan_in. rewrite (proj2 (Z.ltb_lt _ _)) by done.
    unfold epoll_del. destruct (ctl_del (kernel p) s) as [k e] eqn:E.
    destruct (ctl_del_spec _ _ _ _ E) as [H1 H2]. simpl. unfold watched. simpl.
    split; [|split; [set_solver|done]].
    destruct e; simpl in *.
    + rewrite (H1 eq_refl). apply lookup_delete_eq.
    + by destruct (H2 ltac:(done)) as (_ & _ & ?).
    + destruct (H2 ltac:(done)) as (-> & Hn & _). by apply Hn.
    + done.
  - cbv zeta. unfold process_pre_wait_rescans.
    destruct (add_list EPOLLIN (ascending (rescan_set_in p)) p Hk) as (Hw & Hi & Ho).
    set (p1 := foldl _ p _) in *. set (p2 := set_rescans ∅ _ _ p1).
    destruct (add_list (Z.lor EPOLLIN EPOLLOUT) (ascending (rescan_set_out p2)) p2 Hk) as (Hw3 & Hi3 & Ho3).
    set (p3 := foldl _ p2 _) in *. split; [exact Hi3|]. split; [done|].
    change (watched (set_rescans _ ∅ _ p3)) with (watched p3).
    rewrite Hw3, put_list_lookup. change (watched p2) with (watched p1).
    rewrite Hw, put_list_lookup. destruct (watched p !! s); [done|].
    change (rescan_set_out p2) with (rescan_set_out p1). rewrite Ho.
    rewrite !(bool_decide_ext _ _ (elem_of_ascending _ _)).
    by destruct (bool_decide (s ∈ rescan_set_in p)).
Qed.

(** ** Idle detection *)

(** The idle step of a [wait] that finds the idle counter at [c]. *)
Definition idle_step (c : Z) (p : epoll) : epoll :=
  process_pre_wait_idles (set_idle c (idle_round p) (idle_watched_pre p) (idle_watched p) (idle_set p) p).

(** A socket is reported idle only after a whole idle round without events:
    one expiry of the idle counter never takes a freshly watched socket to the idle set,
    two or three consecutive expiries (by the phase of the round) always do, an
    unexpired counter changes nothing, and an event removes the socket from the
    detection - unless it was watched twice, when it takes two events. *)
Theorem idle_needs_full_round p s c1 c2 c3 :
  s ∈ idle_watched_pre p -> s ∉ idle_watched p -> s ∉ idle_set p ->
  idle_timeout_ms p < c1 -> idle_timeout_ms p < c2 -> idle_timeout_ms p < c3 ->
  let p1 := idle_step c1 p in
  let p2 := idle_step c2 p1 in
  let p3 := idle_step c3 p2 in
  s ∉ idle_set p1 /\
  (if idle_round p then s ∈ idle_set p2 else s ∉ idle_set p2 /\ s ∈ idle_set p3) /\
  (forall c q, c <= idle_timeout_ms q -> idle_set (idle_step c q) = idle_set q) /\
  (forall q ev, is_in ev = true -> fst ev = s ->
     let q' := process_event ev q in
     s ∉ idle_watched_pre q' /\ (s ∉ idle_watched_pre q -> s ∉ idle_watched q') /\
     (s ∈ idle_watched_pre q -> idle_watched q' = idle_watched q)).
Proof.
  intros Hpre Hw Hi H1 H2 H3 p1 p2 p3.
  assert (Hexp : forall c q, idle_timeout_ms q < c ->
    idle_step c q = (if idle_round q
      then set_idle 0 false ∅ (idle_watched_pre q ∪ idle_watched q) (idle_set q) (set_idle c true (idle_watched_pre q) (idle_watched q) (idle_set q) q)
      else set_idle 0 true (idle_watched_pre q) ∅ (idle_watched q ∪ idle_set q) (set_idle c false (idle_watched_pre q) (idle_watched q) (idle_set q) q))).
  { intros c q Hc. unfold idle_step, process_pre_wait_idles. simpl.
    rewrite (proj2 (Z.ltb_lt _ _)) by done. by destruct (idle_round q). }
  assert (E1 := Hexp c1 p H1). fold p1 in E1.
  assert (idle_timeout_ms p1 = idle_timeout_ms p) as Ht1 by (rewrite E1; by destruct (idle_round p)).
  assert (E2 := Hexp c2 p1 ltac:(lia)). fold p2 in E2.
  assert (idle_timeout_ms p2 = idle_timeout_ms p) as Ht2 by (rewrite E2; by destruct (idle_round p1)).
  assert (E3 := Hexp c3 p2 ltac:(lia)). fold p3 in E3.
  split; [|split; [|split]].
  - rewrite E1. destruct (idle_round p); simpl; set_solver.
  - destruct (idle_round p) eqn:Er.
    + rewrite E2, E1. simpl. set_solver.
    + rewrite E3, E2, E1. simpl. set_solver.
  - intros c q Hc. unfold idle_step, process_pre_wait_idles. simpl.
    by rewrite (proj2 (Z.ltb_ge _ _)).
  - intros q [s' m] Hin Hs. simpl in Hs. subst s'. unfold is_in in Hin. cbn [snd] in Hin. cbv zeta.
    unfold process_event. rewrite Hin. unfold epoll_clear_idle_watch, erased. simpl.
    case_bool_decide; simpl; split_and!; set_solver.
Qed.

(** ** The handler table *)

(** Every entry of the table names a live handler that knows the socket. *)
Definition db_ok (e : epoller) : Prop :=
  forall s h, handler_db e !! s = Some h ->
    exists ho, handlers e !! h = Some ho /\ registered ho = true /\ s ∈ registered_sockets ho.

(** What the rest of the program does to the table: create a handler, set or clear a
    socket's handler, remove a socket, destroy a handler. *)
Inductive db_step (e : epoller) : epoller -> Prop :=
  | db_create h : handlers e !! h = None ->
      db_step e (mkEpoller (poller e) (handler_db e) (<[h := mkHandler false ∅]> (handlers e)))
  | db_set s h : is_Some (handlers e !! h) -> db_step e (set_handler s (Some h) e)
  | db_unset s : db_step e (set_handler s None e)
  | db_del k0 now s : db_step e (snd (epoller_del k0 now s e))
  | db_destroy h : db_step e (handler_destroy h e).

Lemma clear_handler_db s e :
  handler_db (clear_handler s e) = delete s (handler_db e) /\
  handlers (clear_handler s e) = handlers e.
Proof. done. Qed.

Lemma clear_handler_ok s e : db_ok e -> db_ok (clear_handler s e).
Proof. intros H s' h Hl. simpl in Hl. apply lookup_delete_Some in Hl as [_ Hl]. by apply H. Qed.

Lemma destroy_loop h l : forall e,
  let e' := foldl (fun e s => if bool_decide (get_handler s e = Some h) then clear_handler s e else e) e l in
  handlers e' = handlers e /\
  (forall s h', handler_db e' !! s = Some h' -> handler_db e !! s = Some h') /\
  (forall s, s ∈ l -> handler_db e' !! s <> Some h) /\
  (forall s h', h' <> h -> handler_db e !! s = Some h' -> handler_db e' !! s = Some h').
Proof.
  induction l as [|a l IH]; intros e; simpl; [split_and!; try done; by intros s ?%elem_of_nil|].
  set (e1 := if bool_decide _ then _ else _).
  assert (handlers e1 = handlers e /\
          (forall s h', handler_db e1 !! s = Some h' -> handler_db e !! s = Some h') /\
          handler_db e1 !! a <> Some h /\
          (forall s h', h' <> h -> handler_db e !! s = Some h' -> handler_db e1 !! s = Some h'))
    as (Hh & Hsub & Ha & Hkeep).
  { subst e1. unfold get_handler. case_bool_decide as Hg; [|by split_and!].
    split_and!; simpl; [done| |by rewrite lookup_delete_eq|].
    - by intros s h' [_ ?]%lookup_delete_Some.
    - intros s h' Hne Hs. rewrite lookup_delete_ne; [done|]. congruence. }
  destruct (IH e1) as (IH1 & IH2 & IH3 & IH4). split_and!.
  - by rewrite IH1.
  - intros s h' Hs. by apply Hsub, IH2.
  - intros s [->|Hs]%elem_of_cons; [|by apply IH3]. intros Hs%IH2. done.
  - intros s h' Hne Hs. by apply IH4, Hkeep.
Qed.

Lemma handler_destroy_ok h e : db_ok e -> db_ok (handler_destroy h e).
Proof.
  intros Hok. unfold handler_destroy, handler_of.
  set (e1 := if registered _ then _ else _).
  assert (handlers e1 = handlers e /\ (forall s h', handler_db e1 !! s = Some h' -> handler_db e !! s = Some h' /\ h' <> h))
    as [Hh Hdb].
  { subst e1. destruct (handlers e !! h) as [ho|] eqn:Eh; simpl.
    - destruct (registered ho) eqn:Er; simpl.
      + destruct (destroy_loop h (ascending (registered_sockets ho)) e) as (H1 & H2 & H3 & _).
        split; [done|]. intros s h' Hs. split; [by apply H2|]. intros ->.
        pose proof (H2 _ _ Hs) as Hs'. destruct (Hok _ _ Hs') as (ho' & Hho & _ & Hin).
        assert (ho' = ho) as -> by congruence.
        apply (H3 s); [by apply elem_of_ascending|done].
      + split; [done|]. intros s h' Hs. split; [done|]. intros ->.
        destruct (Hok _ _ Hs) as (ho' & Hho & Hr & _). congruence.
    - split; [done|]. intros s h' Hs. split; [done|]. intros ->.
      destruct (Hok _ _ Hs) as (ho' & Hho & _). congruence. }
  intros s h' Hs. simpl in *. destruct (Hdb s h' Hs) as [Hs' Hne].
  destruct (Hok _ _ Hs') as (ho & Hho & ?). exists ho. rewrite Hh.
  by rewrite lookup_delete_ne.
Qed.

Lemma db_step_ok e e' : db_step e e' -> db_ok e -> db_ok e'.
Proof.
  intros Hst Hok. destruct Hst as [h Hn|s h [ho Hh]|s|k0 now s|h].
  - intros s h' Hs. destruct (Hok s h' Hs) as (ho & Hho & ?). exists ho. simpl.
    rewrite lookup_insert_ne; [done|]. congruence.
  - intros s' h' Hs. simpl in *. unfold handler_of. rewrite Hh. simpl.
    apply lookup_insert_Some in Hs as [[<- <-]|[Hne Hs]].
    + eexists. split; [apply lookup_insert_eq|]. simpl. split; [done|set_solver].
    + destruct (Hok s' h' Hs) as (ho' & Hho & Hr & Hin). destruct (decide (h' = h)) as [->|].
      * eexists. split; [apply lookup_insert_eq|]. simpl. split; [done|].
        assert (ho' = ho) as -> by congruence. set_solver.
      * exists ho'. by rewrite lookup_insert_ne.
  - by apply clear_handler_ok.
  - unfold epoller_del, init_if_null. destruct (poller e) as [p|] eqn:Ep; simpl.
    + destruct (poller e); [|done]. by destruct (epoll_del s e0).
    + by destruct (epoll_del s _).
  - by apply handler_destroy_ok.
Qed.

(** No dangling handler: however handlers are created, registered on sockets,
    replaced, cleared and destroyed, every entry of the handler table names a handler
    that still exists - destroying one removes all of its entries and no other. *)
Theorem handler_table_safe e e' :
  rtc db_step e e' -> handler_db e = ∅ ->
  (forall s h, get_handler s e' = Some h -> is_Some (handlers e' !! h)) /\
  (forall s h h', get_handler s (handler_destroy h e') = Some h' -> get_handler s e' = Some h' /\ h' <> h).
Proof.
  intros Hst Hdb. assert (db_ok e) as H0 by (intros s h; by rewrite Hdb, lookup_empty).
  assert (db_ok e') as Hok by (clear Hdb; induction Hst; eauto using db_step_ok).
  split.
  - intros s h Hs. destruct (Hok s h Hs) as (ho & Hho & _). by exists ho.
  - intros s h h' Hs. pose proof (handler_destroy_ok h e' Hok s h' Hs) as (ho & Hho & _).
    simpl in Hho. apply lookup_delete_Some in Hho as [Hne _]. split; [|done].
    revert Hs. unfold get_handler, handler_destroy. cbn [handler_db]. case_if; [|done].
    apply destroy_loop.
Qed.
End props.

(** ** The theorems on concrete pollers *)

Definition demo_poller : epoll := epoll_new (∅ : kstate) 0.

Lemma wait_reports_exactly_witness :
  exists p', epoll_wait_ 10 [Events [(7, 1); (8, 4); (9, 16)]] (replicate 50 (0, 0))
               (snd (epoll_enforce_in 5 demo_poller)) = Ret 3 p' /\
    in_set p' = {[5]} ∪ {[7]} /\ out_set p' = {[8]} /\ err_set p' = {[9]}.
Proof.
  destruct (wait_reports_exactly 10 [(7, 1); (8, 4); (9, 16)] (replicate 50 (0, 0))
              (snd (epoll_enforce_in 5 demo_poller))) as (p' & E & Hi & Ho & He & _);
    [reflexivity|reflexivity|].
  exists p'. split; [exact E|]. rewrite Hi, Ho, He. split; [|split]; vm_compute; reflexivity.
Defined.

Lemma wait_overruns_event_array_witness :
  epoll_wait_ 10 [Events (replicate 50 (7, 1)); Events [(8, 1)]] (replicate 50 (0, 0)) demo_poller = Undef.
Proof.
  apply (wait_overruns_event_array 10 (replicate 50 (7, 1)) [(8, 1)]); [reflexivity| |reflexivity].
  split; [reflexivity|discriminate].
Defined.

Lemma gmap_kernel_accepts : kernel_accepts (EK := gmap_kernel).
Proof. intros k s m. simpl. by destruct ((k : gmap Z Z) !! s). Qed.

Lemma rescans_restored_witness :
  let p := snd (epoll_rescan_out 0 7 (snd (epoll_rescan_in 0 7 demo_poller))) in
  watched (process_pre_wait_rescans p) !! 7 = Some EPOLLIN.
Proof.
  intros p. destruct (proj2 (rescans_restored p 7 gmap_kernel_accepts)) as (_ & _ & E).
  rewrite E. vm_compute. reflexivity.
Defined.

Lemma idle_needs_full_round_witness :
  let p := epoll_set_idle_watch 7 demo_poller in
  7 ∉ idle_set (idle_step 1100 p) /\ 7 ∈ idle_set (idle_step 1100 (idle_step 1100 p)).
Proof.
  intros p.
  destruct (idle_needs_full_round p 7 1100 1100 1100) as (H1 & H2 & _);
    [apply (bool_decide_unpack _); vm_compute; exact I..|reflexivity|reflexivity|reflexivity|].
  exact (conj H1 H2).
Defined.

Lemma handler_table_safe_witness :
  let e0 := mkEpoller (Some demo_poller) ∅ ∅ in
  let e1 := mkEpoller (poller e0) (handler_db e0) (<[3 := mkHandler false ∅]> (handlers e0)) in
  let e2 := set_handler 7 (Some 3) e1 in
  get_handler 7 e2 = Some 3 /\ get_handler 7 (handler_destroy 3 e2) <> Some 3.
Proof.
  intros e0 e1 e2. split; [vm_compute; reflexivity|]. intros Hs.
  assert (rtc db_step e0 e2) as Hst.
  { apply rtc_l with e1; [exact (db_create e0 3 eq_refl)|]. apply rtc_once.
    apply (db_set e1 7 3). exists (mkHandler false ∅). vm_compute. reflexivity. }
  destruct (handler_table_safe e0 e2 Hst eq_refl) as [_ H]. by destruct (H 7 3 3 Hs).
Defined.
