(* ===== verification/CxData.v ===== *)
(** * CxData: the objects the proxy works on

    [cx] is [baseHostCX]: sockets, timers, buffers, meters and
    flags, one setter per field; [comst] is the state of [baseCom] itself.  The buffers
    are [lockbuffer], a byte string with the capacity its storage has. *)

From S2P Require Export Epoll Numeric.

(** ** The buffers of a context

    A [buffer] by its contents and capacity: [BufferProps] shows that append and flush
    on the real object are these operations. *)

Record lockbuffer : Type := mkLockbuffer { lb_data : bytes; lb_cap : Z }.

Definition lb_size (b : lockbuffer) : Z := zlen (lb_data b).
Definition lb_empty (b : lockbuffer) : bool := lb_size b =? 0.

(** Storage for [c] bytes has the capacity the allocator gives it. *)
Class Storage : Type := {
  chunk_capacity : Z -> Z;
  chunk_capacity_le : forall c, c <= chunk_capacity c
}.

#[export] Program Instance exact_storage : Storage := {| chunk_capacity c := c |}.
Next Obligation. intros c. simpl. lia. Qed.

Section lockbuffer.
Context {ST : Storage}.

Definition lb_capacity (c : Z) (b : lockbuffer) : lockbuffer :=
  if c <=? lb_cap b then b else mkLockbuffer (lb_data b) (chunk_capacity c).
Definition lb_append (bs : bytes) (b : lockbuffer) : lockbuffer :=
  if zlen bs =? 0 then b
  else let b1 := lb_capacity (lb_size b + zlen bs) b in mkLockbuffer (lb_data b1 ++ bs) (lb_cap b1).
Definition lb_flush (n : Z) (b : lockbuffer) : lockbuffer :=
  if (n =? 0) || (lb_size b <=? n) then mkLockbuffer [] (lb_cap b)
  else mkLockbuffer (zdrop n (lb_data b)) (lb_cap b).

Lemma lb_append_data bs b : lb_data (lb_append bs b) = lb_data b ++ bs.
Proof.
  unfold lb_append. destruct (Z.eqb_spec (zlen bs) 0) as [E|E].
  - destruct bs as [|x bs]; [by rewrite app_nil_r|]. rewrite zlen_cons in E. pose proof (zlen_nonneg bs). lia.
  - unfold lb_capacity. by case_if.
Qed.

Lemma lb_flush_all b : lb_data (lb_flush (lb_size b) b) = [].
Proof. unfold lb_flush. by rewrite Z.leb_refl, orb_true_r. Qed.

Lemma lb_flush_data n b : 0 < n < lb_size b -> lb_data (lb_flush n b) = zdrop n (lb_data b).
Proof. intros. unfold lb_flush. by rewrite (proj2 (Z.eqb_neq n 0)), (proj2 (Z.leb_gt _ n)) by lia. Qed.
End lockbuffer.

(** ** baseCom: the descriptor, the error flag and the feedback flags *)

Record comst : Type := mkCom {
  fd_ : Z;
  error_flag_ : Z;
  forced_read_ : bool;
  forced_write_ : bool;
  forced_read_on_write_ : bool;
  forced_write_on_read_ : bool;
  forced_read_always_ : bool;
  forced_write_always_ : bool
}.

Definition set_fd (v : Z) (c : comst) : comst :=
  mkCom v (error_flag_ c) (forced_read_ c) (forced_write_ c) (forced_read_on_write_ c)
    (forced_write_on_read_ c) (forced_read_always_ c) (forced_write_always_ c).
Definition set_error_flag (v : Z) (c : comst) : comst :=
  mkCom (fd_ c) v (forced_read_ c) (forced_write_ c) (forced_read_on_write_ c)
    (forced_write_on_read_ c) (forced_read_always_ c) (forced_write_always_ c).
Definition set_forced_read (v : bool) (c : comst) : comst :=
  mkCom (fd_ c) (error_flag_ c) v (forced_write_ c) (forced_read_on_write_ c)
    (forced_write_on_read_ c) (forced_read_always_ c) (forced_write_always_ c).
Definition set_forced_write (v : bool) (c : comst) : comst :=
  mkCom (fd_ c) (error_flag_ c) (forced_read_ c) v (forced_read_on_write_ c)
    (forced_write_on_read_ c) (forced_read_always_ c) (forced_write_always_ c).
Definition set_forced_read_on_write (v : bool) (c : comst) : comst :=
  mkCom (fd_ c) (error_flag_ c) (forced_read_ c) (forced_write_ c) v (forced_write_on_read_ c)
    (forced_read_always_ c) (forced_write_always_ c).
Definition set_forced_write_on_read (v : bool) (c : comst) : comst :=
  mkCom (fd_ c) (error_flag_ c) (forced_read_ c) (forced_write_ c) (forced_read_on_write_ c) v
    (forced_read_always_ c) (forced_write_always_ c).
Definition set_forced_read_always (v : bool) (c : comst) : comst :=
  mkCom (fd_ c) (error_flag_ c) (forced_read_ c) (forced_write_ c) (forced_read_on_write_ c)
    (forced_write_on_read_ c) v (forced_write_always_ c).
Definition set_forced_write_always (v : bool) (c : comst) : comst :=
  mkCom (fd_ c) (error_flag_ c) (forced_read_ c) (forced_write_ c) (forced_read_on_write_ c)
    (forced_write_on_read_ c) (forced_read_always_ c) v.

Definition com_default : comst := mkCom 0 0 false false false false false false.

(** [forced_read_reset] and its siblings: the flag, and the state with the flag used up. *)
Definition forced_read_reset (c : comst) : bool * comst :=
  (forced_read_ c, if forced_read_always_ c then c else set_forced_read false c).
Definition forced_write_reset (c : comst) : bool * comst :=
  (forced_write_ c, if forced_write_always_ c then c else set_forced_write false c).
Definition forced_read_on_write_reset (c : comst) : bool * comst :=
  (forced_read_on_write_ c, set_forced_read_on_write false c).
Definition forced_write_on_read_reset (c : comst) : bool * comst :=
  (forced_write_on_read_ c, set_forced_write_on_read false c).

(** ** baseHostCX *)

Record cx : Type := mkCx {
  host_ : string;
  port_ : string;
  fds_ : Z;
  closing_fds_ : Z;
  error_ : bool;
  permanent_ : bool;
  last_reconnect_ : Z;
  idle_delay_ : Z;
  t_connected : Z;
  w_activity : Z;
  r_activity : Z;
  readbuf_ : lockbuffer;
  writebuf_ : lockbuffer;
  processed_in_total_ : Z;
  processed_out_total_ : Z;
  processed_in_ : Z;
  processed_out_ : Z;
  read_limit_ : option Z;
  auto_finish_ : bool;
  read_waiting_for_peercom_ : bool;
  write_waiting_for_peercom_ : bool;
  close_after_write_ : bool;
  opening_ : bool;
  peer_ : Z;
  io_disabled_ : bool;
  rescan_out_flag_ : bool;
  com_not_ready_counter : Z;
  meter_read_count : Z;
  meter_write_count : Z;
  meter_read_bytes : Z;
  meter_write_bytes : Z;
  parent_flag_ : option Z;
  com_ : comst
}.

Definition set_host (v : string) (c : cx) : cx :=
  mkCx v (port_ c) (fds_ c) (closing_fds_ c) (error_ c) (permanent_ c) (last_reconnect_ c)
    (idle_delay_ c) (t_connected c) (w_activity c) (r_activity c) (readbuf_ c) (writebuf_ c)
    (processed_in_total_ c) (processed_out_total_ c) (processed_in_ c) (processed_out_ c)
    (read_limit_ c) (auto_finish_ c) (read_waiting_for_peercom_ c) (write_waiting_for_peercom_ c)
    (close_after_write_ c) (opening_ c) (peer_ c) (io_disabled_ c) (rescan_out_flag_ c)
    (com_not_ready_counter c) (meter_read_count c) (meter_write_count c) (meter_read_bytes c)
    (meter_write_bytes c) (parent_flag_ c) (com_ c).
Definition set_port (v : string) (c : cx) : cx :=
  mkCx (host_ c) v (fds_ c) (closing_fds_ c) (error_ c) (permanent_ c) (last_reconnect_ c)
    (idle_delay_ c) (t_connected c) (w_activity c) (r_activity c) (readbuf_ c) (writebuf_ c)
    (processed_in_total_ c) (processed_out_total_ c) (processed_in_ c) (processed_out_ c)
    (read_limit_ c) (auto_finish_ c) (read_waiting_for_peercom_ c) (write_waiting_for_peercom_ c)
    (close_after_write_ c) (opening_ c) (peer_ c) (io_disabled_ c) (rescan_out_flag_ c)
    (com_not_ready_counter c) (meter_read_count c) (meter_write_count c) (meter_read_bytes c)
    (meter_write_bytes c) (parent_flag_ c) (com_ c).
Definition set_fds (v : Z) (c : cx) : cx :=
  mkCx (host_ c) (port_ c) v (closing_fds_ c) (error_ c) (permanent_ c) (last_reconnect_ c)
    (idle_delay_ c) (t_connected c) (w_activity c) (r_activity c) (readbuf_ c) (writebuf_ c)
    (processed_in_total_ c) (processed_out_total_ c) (processed_in_ c) (processed_out_ c)
    (read_limit_ c) (auto_finish_ c) (read_waiting_for_peercom_ c) (write_waiting_for_peercom_ c)
    (close_after_write_ c) (opening_ c) (peer_ c) (io_disabled_ c) (rescan_out_flag_ c)
    (com_not_ready_counter c) (meter_read_count c) (meter_write_count c) (meter_read_bytes c)
    (meter_write_bytes c) (parent_flag_ c) (com_ c).
Definition set_closing_fds (v : Z) (c : cx) : cx :=
  mkCx (host_ c) (port_ c) (fds_ c) v (error_ c) (permanent_ c) (last_reconnect_ c)
    (idle_delay_ c) (t_connected c) (w_activity c) (r_activity c) (readbuf_ c) (writebuf_ c)
    (processed_in_total_ c) (processed_out_total_ c) (processed_in_ c) (processed_out_ c)
    (read_limit_ c) (auto_finish_ c) (read_waiting_for_peercom_ c) (write_waiting_for_peercom_ c)
    (close_after_write_ c) (opening_ c) (peer_ c) (io_disabled_ c) (rescan_out_flag_ c)
    (com_not_ready_counter c) (meter_read_count c) (meter_write_count c) (meter_read_bytes c)
    (meter_write_bytes c) (parent_flag_ c) (com_ c).
Definition set_error (v : bool) (c : cx) : cx :=
  mkCx (host_ c) (port_ c) (fds_ c) (closing_fds_ c) v (permanent_ c) (last_reconnect_ c)
    (idle_delay_ c) (t_connected c) (w_activity c) (r_activity c) (readbuf_ c) (writebuf_ c)
    (processed_in_total_ c) (processed_out_total_ c) (processed_in_ c) (processed_out_ c)
    (read_limit_ c) (auto_finish_ c) (read_waiting_for_peercom_ c) (write_waiting_for_peercom_ c)
    (close_after_write_ c) (opening_ c) (peer_ c) (io_disabled_ c) (rescan_out_flag_ c)
    (com_not_ready_counter c) (meter_read_count c) (meter_write_count c) (meter_read_bytes c)
    (meter_write_bytes c) (parent_flag_ c) (com_ c).
Definition set_permanent (v : bool) (c : cx) : cx :=
  mkCx (host_ c) (port_ c) (fds_ c) (closing_fds_ c) (error_ c) v (last_reconnect_ c)
    (idle_delay_ c) (t_connected c) (w_activity c) (r_activity c) (readbuf_ c) (writebuf_ c)
    (processed_in_total_ c) (processed_out_total_ c) (processed_in_ c) (processed_out_ c)
    (read_limit_ c) (auto_finish_ c) (read_waiting_for_peercom_ c) (write_waiting_for_peercom_ c)
    (close_after_write_ c) (opening_ c) (peer_ c) (io_disabled_ c) (rescan_out_flag_ c)
    (com_not_ready_counter c) (meter_read_count c) (meter_write_count c) (meter_read_bytes c)
    (meter_write_bytes c) (parent_flag_ c) (com_ c).
Definition set_last_reconnect (v : Z) (c : cx) : cx :=
  mkCx (host_ c) (port_ c) (fds_ c) (closing_fds_ c) (error_ c) (permanent_ c) v (idle_delay_
    c) (t_connected c) (w_activity c) (r_activity c) (readbuf_ c) (writebuf_ c)
    (processed_in_total_ c) (processed_out_total_ c) (processed_in_ c) (processed_out_ c)
    (read_limit_ c) (auto_finish_ c) (read_waiting_for_peercom_ c) (write_waiting_for_peercom_ c)
    (close_after_write_ c) (opening_ c) (peer_ c) (io_disabled_ c) (rescan_out_flag_ c)
    (com_not_ready_counter c) (meter_read_count c) (meter_write_count c) (meter_read_bytes c)
    (meter_write_bytes c) (parent_flag_ c) (com_ c).
Definition set_idle_delay (v : Z) (c : cx) : cx :=
  mkCx (host_ c) (port_ c) (fds_ c) (closing_fds_ c) (error_ c) (permanent_ c)
    (last_reconnect_ c) v (t_connected c) (w_activity c) (r_activity c) (readbuf_ c) (writebuf_ c)
    (processed_in_total_ c) (processed_out_total_ c) (processed_in_ c) (processed_out_ c)
    (read_limit_ c) (auto_finish_ c) (read_waiting_for_peercom_ c) (write_waiting_for_peercom_ c)
    (close_after_write_ c) (opening_ c) (peer_ c) (io_disabled_ c) (rescan_out_flag_ c)
    (com_not_ready_counter c) (meter_read_count c) (meter_write_count c) (meter_read_bytes c)
    (meter_write_bytes c) (parent_flag_ c) (com_ c).
Definition set_t_connected (v : Z) (c : cx) : cx :=
  mkCx (host_ c) (port_ c) (fds_ c) (closing_fds_ c) (error_ c) (permanent_ c)
    (last_reconnect_ c) (idle_delay_ c) v (w_activity c) (r_activity c) (readbuf_ c) (writebuf_ c)
    (processed_in_total_ c) (processed_out_total_ c) (processed_in_ c) (processed_out_ c)
    (read_limit_ c) (auto_finish_ c) (read_waiting_for_peercom_ c) (write_waiting_for_peercom_ c)
    (close_after_write_ c) (opening_ c) (peer_ c) (io_disabled_ c) (rescan_out_flag_ c)
    (com_not_ready_counter c) (meter_read_count c) (meter_write_count c) (meter_read_bytes c)
    (meter_write_bytes c) (parent_flag_ c) (com_ c).
Definition set_w_activity (v : Z) (c : cx) : cx :=
  mkCx (host_ c) (port_ c) (fds_ c) (closing_fds_ c) (error_ c) (permanent_ c)
    (last_reconnect_ c) (idle_delay_ c) (t_connected c) v (r_activity c) (readbuf_ c) (writebuf_
    c) (processed_in_total_ c) (processed_out_total_ c) (processed_in_ c) (processed_out_ c)
    (read_limit_ c) (auto_finish_ c) (read_waiting_for_peercom_ c) (write_waiting_for_peercom_ c)
    (close_after_write_ c) (opening_ c) (peer_ c) (io_disabled_ c) (rescan_out_flag_ c)
    (com_not_ready_counter c) (meter_read_count c) (meter_write_count c) (meter_read_bytes c)
    (meter_write_bytes c) (parent_flag_ c) (com_ c).
Definition set_r_activity (v : Z) (c : cx) : cx :=
  mkCx (host_ c) (port_ c) (fds_ c) (closing_fds_ c) (error_ c) (permanent_ c)
    (last_reconnect_ c) (idle_delay_ c) (t_connected c) (w_activity c) v (readbuf_ c) (writebuf_
    c) (processed_in_total_ c) (processed_out_total_ c) (processed_in_ c) (processed_out_ c)
    (read_limit_ c) (auto_finish_ c) (read_waiting_for_peercom_ c) (write_waiting_for_peercom_ c)
    (close_after_write_ c) (opening_ c) (peer_ c) (io_disabled_ c) (rescan_out_flag_ c)
    (com_not_ready_counter c) (meter_read_count c) (meter_write_count c) (meter_read_bytes c)
    (meter_write_bytes c) (parent_flag_ c) (com_ c).
Definition set_readbuf (v : lockbuffer) (c : cx) : cx :=
  mkCx (host_ c) (port_ c) (fds_ c) (closing_fds_ c) (error_ c) (permanent_ c)
    (last_reconnect_ c) (idle_delay_ c) (t_connected c) (w_activity c) (r_activity c) v (writebuf_
    c) (processed_in_total_ c) (processed_out_total_ c) (processed_in_ c) (processed_out_ c)
    (read_limit_ c) (auto_finish_ c) (read_waiting_for_peercom_ c) (write_waiting_for_peercom_ c)
    (close_after_write_ c) (opening_ c) (peer_ c) (io_disabled_ c) (rescan_out_flag_ c)
    (com_not_ready_counter c) (meter_read_count c) (meter_write_count c) (meter_read_bytes c)
    (meter_write_bytes c) (parent_flag_ c) (com_ c).
Definition set_writebuf (v : lockbuffer) (c : cx) : cx :=
  mkCx (host_ c) (port_ c) (fds_ c) (closing_fds_ c) (error_ c) (permanent_ c)
    (last_reconnect_ c) (idle_delay_ c) (t_connected c) (w_activity c) (r_activity c) (readbuf_ c)
    v (processed_in_total_ c) (processed_out_total_ c) (processed_in_ c) (processed_out_ c)
    (read_limit_ c) (auto_finish_ c) (read_waiting_for_peercom_ c) (write_waiting_for_peercom_ c)
    (close_after_write_ c) (opening_ c) (peer_ c) (io_disabled_ c) (rescan_out_flag_ c)
    (com_not_ready_counter c) (meter_read_count c) (meter_write_count c) (meter_read_bytes c)
    (meter_write_bytes c) (parent_flag_ c) (com_ c).
Definition set_processed_in_total (v : Z) (c : cx) : cx :=
  mkCx (host_ c) (port_ c) (fds_ c) (closing_fds_ c) (error_ c) (permanent_ c)
    (last_reconnect_ c) (idle_delay_ c) (t_connected c) (w_activity c) (r_activity c) (readbuf_ c)
    (writebuf_ c) v (processed_out_total_ c) (processed_in_ c) (processed_out_ c) (read_limit_ c)
    (auto_finish_ c) (read_waiting_for_peercom_ c) (write_waiting_for_peercom_ c)
    (close_after_write_ c) (opening_ c) (peer_ c) (io_disabled_ c) (rescan_out_flag_ c)
    (com_not_ready_counter c) (meter_read_count c) (meter_write_count c) (meter_read_bytes c)
    (meter_write_bytes c) (parent_flag_ c) (com_ c).
Definition set_processed_out_total (v : Z) (c : cx) : cx :=
  mkCx (host_ c) (port_ c) (fds_ c) (closing_fds_ c) (error_ c) (permanent_ c)
    (last_reconnect_ c) (idle_delay_ c) (t_connected c) (w_activity c) (r_activity c) (readbuf_ c)
    (writebuf_ c) (processed_in_total_ c) v (processed_in_ c) (processed_out_ c) (read_limit_ c)
    (auto_finish_ c) (read_waiting_for_peercom_ c) (write_waiting_for_peercom_ c)
    (close_after_write_ c) (opening_ c) (peer_ c) (io_disabled_ c) (rescan_out_flag_ c)
    (com_not_ready_counter c) (meter_read_count c) (meter_write_count c) (meter_read_bytes c)
    (meter_write_bytes c) (parent_flag_ c) (com_ c).
Definition set_processed_in (v : Z) (c : cx) : cx :=
  mkCx (host_ c) (port_ c) (fds_ c) (closing_fds_ c) (error_ c) (permanent_ c)
    (last_reconnect_ c) (idle_delay_ c) (t_connected c) (w_activity c) (r_activity c) (readbuf_ c)
    (writebuf_ c) (processed_in_total_ c) (processed_out_total_ c) v (processed_out_ c)
    (read_limit_ c) (auto_finish_ c) (read_waiting_for_peercom_ c) (write_waiting_for_peercom_ c)
    (close_after_write_ c) (opening_ c) (peer_ c) (io_disabled_ c) (rescan_out_flag_ c)
    (com_not_ready_counter c) (meter_read_count c) (meter_write_count c) (meter_read_bytes c)
    (meter_write_bytes c) (parent_flag_ c) (com_ c).
Definition set_processed_out (v : Z) (c : cx) : cx :=
  mkCx (host_ c) (port_ c) (fds_ c) (closing_fds_ c) (error_ c) (permanent_ c)
    (last_reconnect_ c) (idle_delay_ c) (t_connected c) (w_activity c) (r_activity c) (readbuf_ c)
    (writebuf_ c) (processed_in_total_ c) (processed_out_total_ c) (processed_in_ c) v
    (read_limit_ c) (auto_finish_ c) (read_waiting_for_peercom_ c) (write_waiting_for_peercom_ c)
    (close_after_write_ c) (opening_ c) (peer_ c) (io_disabled_ c) (rescan_out_flag_ c)
    (com_not_ready_counter c) (meter_read_count c) (meter_write_count c) (meter_read_bytes c)
    (meter_write_bytes c) (parent_flag_ c) (com_ c).
Definition set_read_limit (v : option Z) (c : cx) : cx :=
  mkCx (host_ c) (port_ c) (fds_ c) (closing_fds_ c) (error_ c) (permanent_ c)
    (last_reconnect_ c) (idle_delay_ c) (t_connected c) (w_activity c) (r_activity c) (readbuf_ c)
    (writebuf_ c) (processed_in_total_ c) (processed_out_total_ c) (processed_in_ c)
    (processed_out_ c) v (auto_finish_ c) (read_waiting_for_peercom_ c)
    (write_waiting_for_peercom_ c) (close_after_write_ c) (opening_ c) (peer_ c) (io_disabled_ c)
    (rescan_out_flag_ c) (com_not_ready_counter c) (meter_read_count c) (meter_write_count c)
    (meter_read_bytes c) (meter_write_bytes c) (parent_flag_ c) (com_ c).
Definition set_auto_finish (v : bool) (c : cx) : cx :=
  mkCx (host_ c) (port_ c) (fds_ c) (closing_fds_ c) (error_ c) (permanent_ c)
    (last_reconnect_ c) (idle_delay_ c) (t_connected c) (w_activity c) (r_activity c) (readbuf_ c)
    (writebuf_ c) (processed_in_total_ c) (processed_out_total_ c) (processed_in_ c)
    (processed_out_ c) (read_limit_ c) v (read_waiting_for_peercom_ c) (write_waiting_for_peercom_
    c) (close_after_write_ c) (opening_ c) (peer_ c) (io_disabled_ c) (rescan_out_flag_ c)
    (com_not_ready_counter c) (meter_read_count c) (meter_write_count c) (meter_read_bytes c)
    (meter_write_bytes c) (parent_flag_ c) (com_ c).
Definition set_read_waiting_for_peercom (v : bool) (c : cx) : cx :=
  mkCx (host_ c) (port_ c) (fds_ c) (closing_fds_ c) (error_ c) (permanent_ c)
    (last_reconnect_ c) (idle_delay_ c) (t_connected c) (w_activity c) (r_activity c) (readbuf_ c)
    (writebuf_ c) (processed_in_total_ c) (processed_out_total_ c) (processed_in_ c)
    (processed_out_ c) (read_limit_ c) (auto_finish_ c) v (write_waiting_for_peercom_ c)
    (close_after_write_ c) (opening_ c) (peer_ c) (io_disabled_ c) (rescan_out_flag_ c)
    (com_not_ready_counter c) (meter_read_count c) (meter_write_count c) (meter_read_bytes c)
    (meter_write_bytes c) (parent_flag_ c) (com_ c).
Definition set_write_waiting_for_peercom (v : bool) (c : cx) : cx :=
  mkCx (host_ c) (port_ c) (fds_ c) (closing_fds_ c) (error_ c) (permanent_ c)
    (last_reconnect_ c) (idle_delay_ c) (t_connected c) (w_activity c) (r_activity c) (readbuf_ c)
    (writebuf_ c) (processed_in_total_ c) (processed_out_total_ c) (processed_in_ c)
    (processed_out_ c) (read_limit_ c) (auto_finish_ c) (read_waiting_for_peercom_ c) v
    (close_after_write_ c) (opening_ c) (peer_ c) (io_disabled_ c) (rescan_out_flag_ c)
    (com_not_ready_counter c) (meter_read_count c) (meter_write_count c) (meter_read_bytes c)
    (meter_write_bytes c) (parent_flag_ c) (com_ c).
Definition set_close_after_write (v : bool) (c : cx) : cx :=
  mkCx (host_ c) (port_ c) (fds_ c) (closing_fds_ c) (error_ c) (permanent_ c)
    (last_reconnect_ c) (idle_delay_ c) (t_connected c) (w_activity c) (r_activity c) (readbuf_ c)
    (writebuf_ c) (processed_in_total_ c) (processed_out_total_ c) (processed_in_ c)
    (processed_out_ c) (read_limit_ c) (auto_finish_ c) (read_waiting_for_peercom_ c)
    (write_waiting_for_peercom_ c) v (opening_ c) (peer_ c) (io_disabled_ c) (rescan_out_flag_ c)
    (com_not_ready_counter c) (meter_read_count c) (meter_write_count c) (meter_read_bytes c)
    (meter_write_bytes c) (parent_flag_ c) (com_ c).
Definition set_opening (v : bool) (c : cx) : cx :=
  mkCx (host_ c) (port_ c) (fds_ c) (closing_fds_ c) (error_ c) (permanent_ c)
    (last_reconnect_ c) (idle_delay_ c) (t_connected c) (w_activity c) (r_activity c) (readbuf_ c)
    (writebuf_ c) (processed_in_total_ c) (processed_out_total_ c) (processed_in_ c)
    (processed_out_ c) (read_limit_ c) (auto_finish_ c) (read_waiting_for_peercom_ c)
    (write_waiting_for_peercom_ c) (close_after_write_ c) v (peer_ c) (io_disabled_ c)
    (rescan_out_flag_ c) (com_not_ready_counter c) (meter_read_count c) (meter_write_count c)
    (meter_read_bytes c) (meter_write_bytes c) (parent_flag_ c) (com_ c).
Definition set_peer (v : Z) (c : cx) : cx :=
  mkCx (host_ c) (port_ c) (fds_ c) (closing_fds_ c) (error_ c) (permanent_ c)
    (last_reconnect_ c) (idle_delay_ c) (t_connected c) (w_activity c) (r_activity c) (readbuf_ c)
    (writebuf_ c) (processed_in_total_ c) (processed_out_total_ c) (processed_in_ c)
    (processed_out_ c) (read_limit_ c) (auto_finish_ c) (read_waiting_for_peercom_ c)
    (write_waiting_for_peercom_ c) (close_after_write_ c) (opening_ c) v (io_disabled_ c)
    (rescan_out_flag_ c) (com_not_ready_counter c) (meter_read_count c) (meter_write_count c)
    (meter_read_bytes c) (meter_write_bytes c) (parent_flag_ c) (com_ c).
Definition set_io_disabled (v : bool) (c : cx) : cx :=
  mkCx (host_ c) (port_ c) (fds_ c) (closing_fds_ c) (error_ c) (permanent_ c)
    (last_reconnect_ c) (idle_delay_ c) (t_connected c) (w_activity c) (r_activity c) (readbuf_ c)
    (writebuf_ c) (processed_in_total_ c) (processed_out_total_ c) (processed_in_ c)
    (processed_out_ c) (read_limit_ c) (auto_finish_ c) (read_waiting_for_peercom_ c)
    (write_waiting_for_peercom_ c) (close_after_write_ c) (opening_ c) (peer_ c) v
    (rescan_out_flag_ c) (com_not_ready_counter c) (meter_read_count c) (meter_write_count c)
    (meter_read_bytes c) (meter_write_bytes c) (parent_flag_ c) (com_ c).
Definition set_rescan_out_flag (v : bool) (c : cx) : cx :=
  mkCx (host_ c) (port_ c) (fds_ c) (closing_fds_ c) (error_ c) (permanent_ c)
    (last_reconnect_ c) (idle_delay_ c) (t_connected c) (w_activity c) (r_activity c) (readbuf_ c)
    (writebuf_ c) (processed_in_total_ c) (processed_out_total_ c) (processed_in_ c)
    (processed_out_ c) (read_limit_ c) (auto_finish_ c) (read_waiting_for_peercom_ c)
    (write_waiting_for_peercom_ c) (close_after_write_ c) (opening_ c) (peer_ c) (io_disabled_ c)
    v (com_not_ready_counter c) (meter_read_count c) (meter_write_count c) (meter_read_bytes c)
    (meter_write_bytes c) (parent_flag_ c) (com_ c).
Definition set_com_not_ready_counter (v : Z) (c : cx) : cx :=
  mkCx (host_ c) (port_ c) (fds_ c) (closing_fds_ c) (error_ c) (permanent_ c)
    (last_reconnect_ c) (idle_delay_ c) (t_connected c) (w_activity c) (r_activity c) (readbuf_ c)
    (writebuf_ c) (processed_in_total_ c) (processed_out_total_ c) (processed_in_ c)
    (processed_out_ c) (read_limit_ c) (auto_finish_ c) (read_waiting_for_peercom_ c)
    (write_waiting_for_peercom_ c) (close_after_write_ c) (opening_ c) (peer_ c) (io_disabled_ c)
    (rescan_out_flag_ c) v (meter_read_count c) (meter_write_count c) (meter_read_bytes c)
    (meter_write_bytes c) (parent_flag_ c) (com_ c).
Definition set_meter_read_count (v : Z) (c : cx) : cx :=
  mkCx (host_ c) (port_ c) (fds_ c) (closing_fds_ c) (error_ c) (permanent_ c)
    (last_reconnect_ c) (idle_delay_ c) (t_connected c) (w_activity c) (r_activity c) (readbuf_ c)
    (writebuf_ c) (processed_in_total_ c) (processed_out_total_ c) (processed_in_ c)
    (processed_out_ c) (read_limit_ c) (auto_finish_ c) (read_waiting_for_peercom_ c)
    (write_waiting_for_peercom_ c) (close_after_write_ c) (opening_ c) (peer_ c) (io_disabled_ c)
    (rescan_out_flag_ c) (com_not_ready_counter c) v (meter_write_count c) (meter_read_bytes c)
    (meter_write_bytes c) (parent_flag_ c) (com_ c).
Definition set_meter_write_count (v : Z) (c : cx) : cx :=
  mkCx (host_ c) (port_ c) (fds_ c) (closing_fds_ c) (error_ c) (permanent_ c)
    (last_reconnect_ c) (idle_delay_ c) (t_connected c) (w_activity c) (r_activity c) (readbuf_ c)
    (writebuf_ c) (processed_in_total_ c) (processed_out_total_ c) (processed_in_ c)
    (processed_out_ c) (read_limit_ c) (auto_finish_ c) (read_waiting_for_peercom_ c)
    (write_waiting_for_peercom_ c) (close_after_write_ c) (opening_ c) (peer_ c) (io_disabled_ c)
    (rescan_out_flag_ c) (com_not_ready_counter c) (meter_read_count c) v (meter_read_bytes c)
    (meter_write_bytes c) (parent_flag_ c) (com_ c).
Definition set_meter_read_bytes (v : Z) (c : cx) : cx :=
  mkCx (host_ c) (port_ c) (fds_ c) (closing_fds_ c) (error_ c) (permanent_ c)
    (last_reconnect_ c) (idle_delay_ c) (t_connected c) (w_activity c) (r_activity c) (readbuf_ c)
    (writebuf_ c) (processed_in_total_ c) (processed_out_total_ c) (processed_in_ c)
    (processed_out_ c) (read_limit_ c) (auto_finish_ c) (read_waiting_for_peercom_ c)
    (write_waiting_for_peercom_ c) (close_after_write_ c) (opening_ c) (peer_ c) (io_disabled_ c)
    (rescan_out_flag_ c) (com_not_ready_counter c) (meter_read_count c) (meter_write_count c) v
    (meter_write_bytes c) (parent_flag_ c) (com_ c).
Definition set_meter_write_bytes (v : Z) (c : cx) : cx :=
  mkCx (host_ c) (port_ c) (fds_ c) (closing_fds_ c) (error_ c) (permanent_ c)
    (last_reconnect_ c) (idle_delay_ c) (t_connected c) (w_activity c) (r_activity c) (readbuf_ c)
    (writebuf_ c) (processed_in_total_ c) (processed_out_total_ c) (processed_in_ c)
    (processed_out_ c) (read_limit_ c) (auto_finish_ c) (read_waiting_for_peercom_ c)
    (write_waiting_for_peercom_ c) (close_after_write_ c) (opening_ c) (peer_ c) (io_disabled_ c)
    (rescan_out_flag_ c) (com_not_ready_counter c) (meter_read_count c) (meter_write_count c)
    (meter_read_bytes c) v (parent_flag_ c) (com_ c).
Definition set_parent_flag (v : option Z) (c : cx) : cx :=
  mkCx (host_ c) (port_ c) (fds_ c) (closing_fds_ c) (error_ c) (permanent_ c)
    (last_reconnect_ c) (idle_delay_ c) (t_connected c) (w_activity c) (r_activity c) (readbuf_ c)
    (writebuf_ c) (processed_in_total_ c) (processed_out_total_ c) (processed_in_ c)
    (processed_out_ c) (read_limit_ c) (auto_finish_ c) (read_waiting_for_peercom_ c)
    (write_waiting_for_peercom_ c) (close_after_write_ c) (opening_ c) (peer_ c) (io_disabled_ c)
    (rescan_out_flag_ c) (com_not_ready_counter c) (meter_read_count c) (meter_write_count c)
    (meter_read_bytes c) (meter_write_bytes c) v (com_ c).
Definition set_com (v : comst) (c : cx) : cx :=
  mkCx (host_ c) (port_ c) (fds_ c) (closing_fds_ c) (error_ c) (permanent_ c)
    (last_reconnect_ c) (idle_delay_ c) (t_connected c) (w_activity c) (r_activity c) (readbuf_ c)
    (writebuf_ c) (processed_in_total_ c) (processed_out_total_ c) (processed_in_ c)
    (processed_out_ c) (read_limit_ c) (auto_finish_ c) (read_waiting_for_peercom_ c)
    (write_waiting_for_peercom_ c) (close_after_write_ c) (opening_ c) (peer_ c) (io_disabled_ c)
    (rescan_out_flag_ c) (com_not_ready_counter c) (meter_read_count c) (meter_write_count c)
    (meter_read_bytes c) (meter_write_bytes c) (parent_flag_ c) v.
