(* ===== verification/HostCX.v ===== *)
(** * HostCX: buffered socket contexts (hostcx.hpp, hostcx.cpp)

    [baseHostCX] over the shared state of a proxy process: the contexts by number
    ([0] is the null pointer; using the number of a destroyed context is undefined), the
    poller, and the network.  The virtual functions of [baseCom] and the sockets below
    it are the parameter [Com].  The clock is read once per step: [w_now]. *)

From S2P Require Export CxData.

(** [baseCom]'s virtual functions on a context's com object: state of the network and
    of the com before and after.  Laws: read(2) and write(2) transfer at most what
    they are asked to, and a successful read delivers as many bytes as it returns. *)
Class Com : Type := {
  net : Type;
  translate_socket : Z -> Z;
  com_read : net -> comst -> Z -> Z -> Z * bytes * comst * net;
  com_write : net -> comst -> Z -> bytes -> Z * comst * net;
  com_connect : net -> comst -> string -> string -> Z * comst * net;
  com_shutdown : net -> comst -> Z -> comst * net;
  com_status : net -> comst -> bool * comst * net;
  com_is_connected : net -> comst -> Z -> bool * comst * net;
  com_readable : net -> comst -> Z -> bool;
  com_writable : net -> comst -> Z -> bool;
  com_accept_socket : net -> comst -> Z -> comst * net;
  com_delay_socket : net -> comst -> Z -> comst * net;
  com_resolve_src : net -> Z -> option (string * string);
  com_unblock : net -> Z -> net;
  com_read_law : forall n c s m r bs c' n', com_read n c s m = (r, bs, c', n') ->
    r <= m /\ (0 < r -> zlen bs = r);
  com_write_law : forall n c s bs r c' n', com_write n c s bs = (r, c', n') -> r <= zlen bs
}.

(** The tunables of [baseHostCX::params_t]. *)
Definition buffsize : Z := 2048.
Definition buffsize_maxmul : Z := 1024.
Definition write_full : Z := 200000.
Definition com_not_ready_slowdown : Z := 20.
Definition fast_copy_start : Z := 20 * 1024.
Definition reconnect_delay : Z := 7.
Definition get_max_buffsize : Z := buffsize_maxmul * buffsize.

Section hostcx.
Context {EK : EpollKernel} {ST : Storage} {CO : Com}.

Record world : Type := mkWorld {
  w_cxs : gmap Z cx;
  w_poll : epoller;
  w_net : net;
  w_now : Z;                  (* time(nullptr), in seconds *)
  w_kernel0 : kstate;         (* what epoll_create would give *)
  w_blocking : bool           (* baseCom::GLOBAL_IO_BLOCKING() *)
}.

Definition set_cxs (m : gmap Z cx) (w : world) : world :=
  mkWorld m (w_poll w) (w_net w) (w_now w) (w_kernel0 w) (w_blocking w).
Definition set_poll (p : epoller) (w : world) : world :=
  mkWorld (w_cxs w) p (w_net w) (w_now w) (w_kernel0 w) (w_blocking w).
Definition set_net (n : net) (w : world) : world :=
  mkWorld (w_cxs w) (w_poll w) n (w_now w) (w_kernel0 w) (w_blocking w).

(** ** Access to the objects *)

(** [i->field]: dereferencing needs a live object. *)
Definition the (i : Z) : M world cx := fun w =>
  match w_cxs w !! i with Some c => Ret c w | None => Undef end.
Definition field {A} (f : cx -> A) (i : Z) : M world A := c <- the i ;; mret_ (f c).
Definition upd (i : Z) (f : cx -> cx) : M world unit := fun w =>
  match w_cxs w !! i with Some c => Ret tt (set_cxs (<[i := f c]> (w_cxs w)) w) | None => Undef end.
Definition now : M world Z := gets w_now.

(** A call on the poller of [master()]: milliseconds are the world's seconds. *)
Definition polling (f : kstate -> Z -> (Z -> Z) -> epoller -> epoller) : M world unit :=
  modify (fun w => set_poll (f (w_kernel0 w) (1000 * w_now w) translate_socket (w_poll w)) w).

Definition monitor (s : Z) : M world unit := polling (fun k n t => set_monitor k n t s).
Definition unmonitor (s : Z) : M world unit := polling (fun k n t => unset_monitor k n t s).
Definition write_monitor (s : Z) : M world unit := polling (fun k n t => set_write_monitor k n t s).
Definition monitor_mode (s m : Z) : M world unit := polling (fun k n t => change_monitor k n t s m).
Definition poll_handler (s : Z) (h : option Z) : M world unit := polling (fun k n t => set_poll_handler t s h).
Definition rescan_in (s : Z) : M world unit := polling (fun k n t => rescan_read k n t s).
Definition rescan_out (s : Z) : M world unit := polling (fun k n t => rescan_write k n t s).

(** A virtual call on the com object of context [i]. *)
Definition on_com {A} (i : Z) (f : net -> comst -> A * comst * net) : M world A := fun w =>
  match w_cxs w !! i with
  | Some c =>
      let '(a, k, n) := f (w_net w) (com_ c) in
      Ret a (set_net n (set_cxs (<[i := set_com k c]> (w_cxs w)) w))
  | None => Undef
  end.
(** The same for a com state function, and for one without a result. *)
Definition on_flag (i : Z) (f : comst -> bool * comst) : M world bool :=
  on_com i (fun n k => let '(b, k') := f k in (b, k', n)).
Definition on_com_ (i : Z) (f : net -> comst -> comst * net) : M world unit :=
  on_com i (fun n k => let '(k', n') := f n k in (tt, k', n')).

(** ** State queries *)

Definition reduced (c : cx) : bool := bool_decide (host_ c = EmptyString) && bool_decide (port_ c = EmptyString).
Definition cx_error (c : cx) : bool := error_ c || negb (error_flag_ (com_ c) =? 0).
Definition valid (c : cx) : bool := (0 <? fds_ c) && negb (cx_error c).
Definition read_eagain (c : cx) : bool :=
  match read_limit_ c with Some n => n =? 0 | None => false end.
Definition should_reconnect_now (t : Z) (c : cx) : bool :=
  (reconnect_delay <? t - last_reconnect_ c) && negb (reduced c).
Definition readable (n : net) (c : cx) : bool := com_readable n (com_ c) (fds_ c) && negb (io_disabled_ c).
Definition writable (n : net) (c : cx) : bool := com_writable n (com_ c) (fds_ c) && negb (io_disabled_ c).

(** [read_limit(s)]: zero means no limit. *)
Definition read_limit (s : Z) (c : cx) : cx := set_read_limit (if s =? 0 then None else Some s) c.
Definition read_unlimited (c : cx) : cx := set_read_limit None c.
Definition read_force_eagain (c : cx) : cx := set_read_limit (Some 0) c.

Definition opening (b : bool) (t : Z) (c : cx) : cx :=
  let c := CxData.set_opening b c in
  if b then set_r_activity t (set_w_activity t (set_t_connected t c)) else c.

Definition opening_timeout (t : Z) (c : cx) : bool :=
  if negb (opening_ c) then false else reconnect_delay <? t - t_connected c.

Definition idle_timeout (t : Z) (c : cx) : bool :=
  let write_timeout := (idle_delay_ c <? t - w_activity c) && negb (t - w_activity c =? 0) in
  let read_timeout := (idle_delay_ c <? t - r_activity c) && negb (t - r_activity c =? 0) in
  write_timeout && read_timeout.

(** ** Construction *)

Definition cx_init (h p : string) (s t : Z) (k : comst) : cx :=
  let b := lb_capacity buffsize (mkLockbuffer [] 0) in
  opening true t
    (mkCx h p s 0 false false 0 3600 0 0 0 b b 0 0 0 0 None true false false false false 0
       false false 0 0 0 0 0 (Some 48) k).

(** Both constructors: by name, and ([reduced]) from a socket; [com()->init] is the
    com's own. *)
Definition new_hostcx (i : Z) (h p : string) (s : Z) (k : comst) : M world unit := fun w =>
  Ret tt (set_cxs (<[i := cx_init h p s (w_now w) k]> (w_cxs w)) w).

(** [peer(p)]: the com-level peer is the peer context's com. *)
Definition peer (i p : Z) : M world unit := upd i (set_peer p).

(** ** Peer waiting *)

(** [++com_not_ready_counter] on an [uint16_t]. *)
Definition not_ready (i : Z) : M world Z :=
  upd i (fun c => set_com_not_ready_counter (u16 (com_not_ready_counter c + 1)) c) ;;;
  field com_not_ready_counter i.

Definition read_waiting_for_peercom (i : Z) : M world bool :=
  c <- the i ;;
  (if read_waiting_for_peercom_ c && negb (peer_ c =? 0) then
     st <- on_com (peer_ c) com_status ;;
     if st then
       upd i (fun c => set_com_not_ready_counter 0 (set_read_waiting_for_peercom false c))
     else
       n <- not_ready i ;;
       s <- field (fun p => fd_ (com_ p)) (peer_ c) ;;
       if com_not_ready_slowdown <? n then rescan_in s else monitor s
   else mret_ tt) ;;;
  field read_waiting_for_peercom_ i.

Definition write_waiting_for_peercom (i : Z) : M world bool :=
  c <- the i ;;
  (if write_waiting_for_peercom_ c then
     if negb (peer_ c =? 0) then
       st <- on_com (peer_ c) com_status ;;
       if st then
         upd i (fun c => set_com_not_ready_counter 0 (set_write_waiting_for_peercom false c))
       else
         n <- not_ready i ;;
         s <- field (fun p => fd_ (com_ p)) (peer_ c) ;;
         if com_not_ready_slowdown <? n then rescan_out s else write_monitor s
     else upd i (set_error true)
   else mret_ tt) ;;;
  field write_waiting_for_peercom_ i.

(** ** Connecting and closing *)

Definition connect (i : Z) : M world Z :=
  t <- now ;;
  upd i (opening true t) ;;;
  c <- the i ;;
  fd <- on_com i (fun n k => com_connect n k (host_ c) (port_ c)) ;;
  upd i (fun c => set_error false (set_fds fd c)) ;;;
  bl <- gets w_blocking ;;
  when bl (upd i (opening false t)) ;;;
  mret_ fd.

Definition unhandle (i : Z) : M world unit :=
  c <- the i ;;
  if negb (closing_fds_ c =? 0) then
    unmonitor (closing_fds_ c) ;;; poll_handler (closing_fds_ c) None
  else when (negb (fds_ c =? 0)) (unmonitor (fds_ c) ;;; poll_handler (fds_ c) None).

(** [shutdown]: the descriptor moves to [closing_fds_], closed by the destructor. *)
Definition shutdown (i : Z) : M world unit :=
  upd i (set_parent_flag (Some 45)) ;;;
  c <- the i ;;
  when (negb (fds_ c =? 0))
    (upd i (set_closing_fds (fds_ c)) ;;;
     on_com_ i (fun n k => com_shutdown n k (fds_ c)) ;;;
     unhandle i ;;;
     upd i (set_fds 0)).

(** The descriptors the destructor closes. *)
Definition closed_by_destructor (c : cx) : list Z :=
  (if 0 <? fds_ c then [fds_ c] else []) ++ (if 0 <? closing_fds_ c then [closing_fds_ c] else []).

Definition reconnect (i : Z) : M world bool :=
  t <- now ;;
  c <- the i ;;
  if should_reconnect_now t c && permanent_ c then
    shutdown i ;;; connect i ;;; upd i (set_last_reconnect t) ;;; mret_ true
  else if negb (permanent_ c) then mret_ false
  else if reduced c then upd i (set_last_reconnect t) ;;; mret_ false
  else mret_ false.

(** ** Reading *)

(** [process_in] and [process_out] of the base class: everything in the buffer. *)
Definition process_in (c : cx) : Z := lb_size (readbuf_ c).
Definition process_out (c : cx) : Z := lb_size (writebuf_ c).

(** [finish]: the bytes flushed and the context after it. *)
Definition finish (c : cx) : Z * cx :=
  if (u32 (processed_in_ c) <=? lb_size (readbuf_ c)) && (0 <? processed_in_ c) then
    (processed_in_ c, set_readbuf (lb_flush (processed_in_ c) (readbuf_ c)) c)
  else if lb_empty (readbuf_ c) then (0, c)
  else (lb_size (readbuf_ c), set_readbuf (lb_flush (lb_size (readbuf_ c)) (readbuf_ c)) c).

Definition grow_buffer (c : cx) : cx :=
  if lb_cap (readbuf_ c) * 2 <=? get_max_buffsize then
    set_readbuf (lb_capacity (lb_cap (readbuf_ c) * 2) (readbuf_ c)) c
  else c.

Definition after_read (n t : Z) (c : cx) : cx :=
  let c := set_meter_read_bytes (u64 (meter_read_bytes c + n)) c in
  let c := set_meter_read_count (u32 (meter_read_count c + 1)) c in
  let c := set_r_activity t c in
  let c := if opening_ c then opening false t c else c in
  let c := set_processed_in 0 c in
  if processed_in_total_ c <? meter_read_bytes c then
    let p := process_in c in
    set_processed_in_total (u64 (processed_in_total_ c + p)) (set_processed_in p c)
  else c.

(** What is left of the read limit: how many bytes the read may ask for. *)
Definition read_space (c : cx) : Z :=
  let left := lb_cap (readbuf_ c) - lb_size (readbuf_ c) in
  let limit := default 0 (read_limit_ c) in
  if (0 <? limit) && (limit <? left) then limit else left.

(** [read()]; the loop of the code always breaks in its first round. *)
Definition read (i : Z) : M world Z :=
  waiting <- read_waiting_for_peercom i ;;
  if waiting then mret_ (-1)
  else
    c <- the i ;;
    full <- (if peer_ c =? 0 then mret_ false
             else field (fun p => write_full <? lb_size (writebuf_ p)) (peer_ c)) ;;
    if full then rescan_in (fds_ c) ;;; mret_ (-1)
    else
      if read_eagain c then upd i read_unlimited ;;; mret_ (-1)
      else
        when (auto_finish_ c) (upd i (fun c => snd (finish c))) ;;;
        c <- the i ;;
        let limit := default 0 (read_limit_ c) in
        let! (r, bs) :=
          on_com i (fun n k => let '(r, bs, k', n') := com_read n k (fds_ c) (read_space c) in
                               ((r, bs), k', n')) in
        len <- (if r <? 0 then mret_ (-1)
                else if r =? 0 then upd i (set_error true) ;;; mret_ 0
                else
                  upd i (fun c => set_readbuf
                    (mkLockbuffer (lb_data (readbuf_ c) ++ bs) (lb_cap (readbuf_ c))) c) ;;;
                  (if (0 <? limit) && (limit <=? r) then mret_ tt
                   else upd i (fun c => if lb_cap (readbuf_ c) <=? lb_size (readbuf_ c)
                                        then grow_buffer c else c)) ;;;
                  mret_ r) ;;
        t <- now ;;
        (if 0 <? len then upd i (after_read len t)
         else if len =? 0 then upd i (set_error true)
         else upd i (set_processed_in 0)) ;;;
        upd i read_unlimited ;;;
        mret_ (int_of_ssize len).

(** ** Writing *)

(** What is new is let out, and the com is offered it. *)
Definition write_offer (i : Z) : M world Z :=
  upd i (fun c =>
    let tx_size := lb_size (writebuf_ c) in
    if processed_out_total_ c <? meter_write_bytes c + tx_size then
      let p := process_out c in
      set_processed_out_total (u64 (processed_out_total_ c + p)) (set_processed_out p c)
    else set_processed_out tx_size c) ;;;
  c <- the i ;;
  let out := ztake (Z.min (lb_size (writebuf_ c)) (processed_out_ c)) (lb_data (writebuf_ c)) in
  on_com i (fun n k => com_write n k (fds_ c) out).

(** It took [l] bytes: the meters and timers, and, after the hook, the buffer. *)
Definition write_metered (l i : Z) : M world unit :=
  t <- now ;;
  upd i (fun c =>
    let c := set_meter_write_bytes (u64 (meter_write_bytes c + l)) c in
    let c := set_meter_write_count (u32 (meter_write_count c + 1)) c in
    let c := set_w_activity t c in
    if opening_ c then opening false t c else c).
Definition write_taken (l i : Z) : M world unit :=
  c <- the i ;;
  (if l <? lb_size (writebuf_ c) then
     write_monitor (fds_ c) ;;; upd i (set_rescan_out_flag true)
   else when (rescan_out_flag_ c)
          (upd i (set_rescan_out_flag false) ;;; monitor_mode (fds_ c) EPOLLIN)) ;;;
  upd i (fun c => set_writebuf (lb_flush l (writebuf_ c)) c) ;;;
  c <- the i ;;
  when (close_after_write_ c && lb_empty (writebuf_ c)) (shutdown i).
Definition write_refused (l i : Z) : M world unit :=
  c <- the i ;;
  when ((l =? 0) && negb (lb_empty (writebuf_ c)))
    (rescan_out (fds_ c) ;;; upd i (set_rescan_out_flag true)).

(** [write] with the virtual functions [pre_write] and [post_write] of a derived class, whose state
    is more than the world. *)
Definition write_hooked {W} (lift : forall A, M world A -> M W A) (pre post : M W unit) (i : Z) : M W Z :=
  waiting <- lift bool (write_waiting_for_peercom i) ;;
  if (waiting : bool) then mret_ 0
  else
    pre ;;;
    l <- lift Z (write_offer i) ;;
    (if 0 <? l then lift unit (write_metered l i) ;;; post ;;; lift unit (write_taken l i)
     else lift unit (write_refused l i)) ;;;
    mret_ (int_of_ssize l).

(** The hooks of [baseHostCX] do nothing. *)
Definition write (i : Z) : M world Z := write_hooked (fun _ m => m) (mret_ tt) (mret_ tt) i.

(** ** Queueing output *)

(** [to_write(buffer&)]: append, or above [fast_copy_start] written bytes swap the whole
    buffer in; the caller's buffer after it. *)
Definition to_write_buffer (i : Z) (b : lockbuffer) : M world lockbuffer :=
  c <- the i ;;
  b' <- (if lb_empty (writebuf_ c) && (fast_copy_start <? meter_write_bytes c) then
           upd i (set_writebuf b) ;;;
           mret_ (mkLockbuffer [] (lb_cap (lb_capacity (lb_cap b) (writebuf_ c))))
         else
           upd i (fun c => set_writebuf (lb_append (lb_data b) (writebuf_ c)) c) ;;; mret_ b) ;;
  write_monitor (fds_ c) ;;;
  mret_ b'.

Definition to_write (i : Z) (bs : bytes) : M world unit :=
  upd i (fun c => set_writebuf (lb_append bs (writebuf_ c)) c) ;;;
  c <- the i ;;
  write_monitor (fds_ c).

Definition send (i : Z) (b : lockbuffer) : M world unit :=
  upd i (fun c => set_writebuf (lb_append (lb_data b) (writebuf_ c)) c).

(** [on_accept_socket]: a reduced context takes its name from the peer's address. *)
Definition on_accept_socket (i fd : Z) : M world unit :=
  on_com_ i (fun n k => com_accept_socket n k fd) ;;;
  n <- gets w_net ;;
  upd i (fun c =>
    if reduced c then
      match com_resolve_src n fd with
      | Some (h, p) => set_port p (set_host h c)
      | None => c
      end
    else c).
Definition on_delay_socket (i fd : Z) : M world unit :=
  on_com_ i (fun n k => com_delay_socket n k fd).
End hostcx.
