(* ===== verification/HostCXProps.v ===== *)
(** * HostCXProps: the properties of a socket context *)

From S2P Require Export HostCX EpollProps.

Section props.
Context {EK : EpollKernel} {ST : Storage} {CO : Com}.

(** ** Running the monad on one context *)

Definition put_cx (i : Z) (c : cx) (w : world) : world := set_cxs (<[i := c]> (w_cxs w)) w.

Lemma put_cx_lookup i c w : w_cxs (put_cx i c w) !! i = Some c.
Proof. apply lookup_insert_eq. Qed.

Lemma put_cx_lookup_ne i j c w : i <> j -> w_cxs (put_cx i c w) !! j = w_cxs w !! j.
Proof. apply lookup_insert_ne. Qed.

Lemma put_cx_put i c c' w : put_cx i c' (put_cx i c w) = put_cx i c' w.
Proof. unfold put_cx, set_cxs. simpl. by rewrite insert_insert_eq. Qed.

Lemma put_cx_id i c w : w_cxs w !! i = Some c -> put_cx i c w = w.
Proof. intros H. unfold put_cx, set_cxs. rewrite insert_id by done. by destruct w. Qed.

Lemma set_poll_id w : set_poll (w_poll w) w = w.
Proof. by destruct w. Qed.

Lemma put_cx_poll i c p w : set_poll p (put_cx i c w) = put_cx i c (set_poll p w).
Proof. done. Qed.

Lemma put_cx_poll_net i c c' p n w :
  put_cx i c' (set_poll p (set_net n (put_cx i c w))) = put_cx i c' (set_poll p (set_net n w)).
Proof. unfold put_cx, set_cxs, set_poll, set_net. simpl. by rewrite insert_insert_eq. Qed.

Lemma bind_the {A} i c w (k : cx -> M world A) :
  w_cxs w !! i = Some c -> mbind_ (the i) k w = k c w.
Proof. intros H. unfold mbind_, the. by rewrite H. Qed.

Lemma bind_upd {A} i c f w (k : unit -> M world A) :
  w_cxs w !! i = Some c -> mbind_ (upd i f) k w = k tt (put_cx i (f c) w).
Proof. intros H. unfold mbind_, upd. by rewrite H. Qed.

Lemma upd_ret i c f w : w_cxs w !! i = Some c -> upd i f w = Ret tt (put_cx i (f c) w).
Proof. intros H. unfold upd. by rewrite H. Qed.

Lemma bind_polling {A} f w (k : unit -> M world A) :
  mbind_ (polling f) k w =
  k tt (set_poll (f (w_kernel0 w) (1000 * w_now w) translate_socket (w_poll w)) w).
Proof. done. Qed.

Lemma bind_on_com {A B} i c f w (k : A -> M world B) a st n :
  w_cxs w !! i = Some c -> f (w_net w) (com_ c) = (a, st, n) ->
  mbind_ (on_com i f) k w = k a (set_net n (put_cx i (set_com st c) w)).
Proof. intros H E. unfold mbind_, on_com. by rewrite H, E. Qed.

Lemma bind_now {A} (k : Z -> M world A) w : mbind_ now k w = k (w_now w) w.
Proof. done. Qed.

Lemma not_waiting_read {A} i c w (k : bool -> M world A) :
  w_cxs w !! i = Some c -> read_waiting_for_peercom_ c = false ->
  mbind_ (read_waiting_for_peercom i) k w = k false w.
Proof.
  intros H E. unfold read_waiting_for_peercom, field, mbind_, the. rewrite H. simpl.
  rewrite E. simpl. by rewrite H, E.
Qed.

Lemma not_waiting_write {A} i c w (k : bool -> M world A) :
  w_cxs w !! i = Some c -> write_waiting_for_peercom_ c = false ->
  mbind_ (write_waiting_for_peercom i) k w = k false w.
Proof.
  intros H E. unfold write_waiting_for_peercom, field, mbind_, the. rewrite H. simpl.
  rewrite E. simpl. by rewrite H, E.
Qed.

(** ** Buffers stay inside their capacity *)

Definition buf_wf (b : lockbuffer) : Prop := lb_size b <= lb_cap b.

Lemma lb_flush_wf n b : buf_wf b -> buf_wf (lb_flush n b).
Proof.
  unfold buf_wf, lb_flush, lb_size. intros H. pose proof (zlen_nonneg (lb_data b)).
  destruct ((n =? 0) || (zlen (lb_data b) <=? n)) eqn:E; simpl; [rewrite zlen_nil; lia|].
  apply orb_false_iff in E as [?%Z.eqb_neq ?%Z.leb_gt].
  destruct (Z.leb_spec 0 n); [rewrite zlen_zdrop; lia|].
  unfold zdrop. by replace (Z.to_nat n) with O by lia.
Qed.

Lemma lb_capacity_wf n b : buf_wf b -> buf_wf (lb_capacity n b).
Proof.
  unfold buf_wf, lb_capacity, lb_size. intros H. case_if; [done|]. simpl.
  pose proof (chunk_capacity_le n). lia.
Qed.

Lemma finish_wf c : buf_wf (readbuf_ c) -> buf_wf (readbuf_ (snd (finish c))).
Proof. intros H. unfold finish. repeat case_if; simpl; auto using lb_flush_wf. Qed.

Lemma grow_wf c : buf_wf (readbuf_ c) -> buf_wf (readbuf_ (grow_buffer c)).
Proof. intros H. unfold grow_buffer. case_if; simpl; auto using lb_capacity_wf. Qed.

Lemma grow_data c : lb_data (readbuf_ (grow_buffer c)) = lb_data (readbuf_ c).
Proof. unfold grow_buffer, lb_capacity. case_if; [|done]. simpl. by case_if. Qed.

Lemma read_space_le c : read_space c <= lb_cap (readbuf_ c) - lb_size (readbuf_ c).
Proof. unfold read_space. case_if; reflect_bools; lia. Qed.

(** What [after_read] leaves alone. *)
Lemma after_read_frame n t c :
  readbuf_ (after_read n t c) = readbuf_ c /\ writebuf_ (after_read n t c) = writebuf_ c /\
  error_ (after_read n t c) = error_ c /\ fds_ (after_read n t c) = fds_ c.
Proof. unfold after_read, opening. simpl. destruct (opening_ c); simpl; case_if; done. Qed.

(** The context of a [read] at the moment it calls the com. *)
Definition read_ready (c : cx) : cx := if auto_finish_ c then snd (finish c) else c.

Definition peer_full (w : world) (c : cx) : bool :=
  if peer_ c =? 0 then false
  else match w_cxs w !! peer_ c with Some p => write_full <? lb_size (writebuf_ p) | None => false end.

(** The three stages of [read]: the check of the peer's backlog, the deferred
    [finish], and the growing of a full buffer. *)
Lemma peer_full_ret {A} c w (k : bool -> M world A) :
  (peer_ c = 0 \/ is_Some (w_cxs w !! peer_ c)) -> peer_full w c = false ->
  mbind_ (if peer_ c =? 0 then mret_ false
          else field (fun p => write_full <? lb_size (writebuf_ p)) (peer_ c)) k w = k false w.
Proof.
  intros Hpeer Hfull. unfold peer_full in Hfull. destruct (Z.eqb_spec (peer_ c) 0); [done|].
  destruct Hpeer as [?|[p Hp]]; [done|]. rewrite Hp in Hfull.
  unfold mbind_, field, mbind_, the. by rewrite Hp, <- Hfull.
Qed.

Lemma finish_first {A} i c w (k : unit -> M world A) :
  w_cxs w !! i = Some c ->
  mbind_ (when (auto_finish_ c) (upd i (fun c => snd (finish c)))) k w = k tt (put_cx i (read_ready c) w).
Proof.
  intros Hc. unfold read_ready. destruct (auto_finish_ c); simpl.
  - by rewrite (bind_upd i c).
  - unfold mbind_, mret_. by rewrite put_cx_id.
Qed.

Lemma read_ready_frame c :
  buf_wf (readbuf_ c) ->
  buf_wf (readbuf_ (read_ready c)) /\ writebuf_ (read_ready c) = writebuf_ c /\
  error_ (read_ready c) = error_ c /\ read_limit_ (read_ready c) = read_limit_ c.
Proof.
  intros Hwf. split.
  - unfold read_ready. destruct (auto_finish_ c); auto using finish_wf.
  - unfold read_ready, finish. destruct (auto_finish_ c); [|done]. repeat case_if; done.
Qed.

Lemma grow_if_full i c w skip :
  buf_wf (readbuf_ c) ->
  exists c', buf_wf (readbuf_ c') /\ lb_data (readbuf_ c') = lb_data (readbuf_ c) /\
    writebuf_ c' = writebuf_ c /\ error_ c' = error_ c /\
    forall A (k : unit -> M world A),
      mbind_ (if skip : bool then mret_ tt
              else upd i (fun c => if lb_cap (readbuf_ c) <=? lb_size (readbuf_ c) then grow_buffer c else c))
        k (put_cx i c w) = k tt (put_cx i c' w).
Proof.
  intros Hwf. destruct skip; [by exists c|].
  exists (if lb_cap (readbuf_ c) <=? lb_size (readbuf_ c) then grow_buffer c else c).
  assert (forall A (k : unit -> M world A),
    mbind_ (upd i (fun c => if lb_cap (readbuf_ c) <=? lb_size (readbuf_ c) then grow_buffer c else c))
        k (put_cx i c w) =
    k tt (put_cx i (if lb_cap (readbuf_ c) <=? lb_size (readbuf_ c) then grow_buffer c else c) w)) as E
    by (intros; by rewrite (bind_upd i _), put_cx_put by apply put_cx_lookup).
  destruct (lb_cap (readbuf_ c) <=? lb_size (readbuf_ c)).
  - split; [by apply grow_wf|]. split; [by rewrite grow_data|].
    split; [|split]; [by unfold grow_buffer; destruct (_ <=? _)..|exact E].
  - split; [exact Hwf|]. split; [done|]. split; [done|]. split; [done|exact E].
Qed.

(** [read], when neither paused, limited to nothing, nor held back by a full
    peer: it asks the com once, for at most the free space of the buffer and the read
    limit; what arrives is appended unchanged to what [finish] left, which stays
    within the capacity; end of stream marks the context failed, an empty socket
    returns -1 and changes no data; no other context changes. *)
Theorem read_appends i c w r bs k n :
  w_cxs w !! i = Some c -> buf_wf (readbuf_ c) ->
  read_waiting_for_peercom_ c = false -> read_eagain c = false -> 0 <= default 0 (read_limit_ c) ->
  (peer_ c = 0 \/ is_Some (w_cxs w !! peer_ c)) -> peer_full w c = false ->
  com_read (w_net w) (com_ (read_ready c)) (fds_ (read_ready c)) (read_space (read_ready c)) = (r, bs, k, n) ->
  exists c' w', read i w = Ret (if r <? 0 then -1 else int_of_ssize r) w' /\
    w_cxs w' !! i = Some c' /\ w_net w' = n /\
    (forall j, j <> i -> w_cxs w' !! j = w_cxs w !! j) /\
    lb_data (readbuf_ c') = lb_data (readbuf_ (read_ready c)) ++ (if 0 <? r then bs else []) /\
    buf_wf (readbuf_ c') /\
    (default 0 (read_limit_ c) = 0 \/ r <= default 0 (read_limit_ c)) /\
    error_ c' = (error_ c || (r =? 0)) /\ read_limit_ c' = None /\ writebuf_ c' = writebuf_ c.
Proof.
  intros Hc Hwf Hnw Hea Hl0 Hpeer Hfull Hr.
  unfold read. rewrite (not_waiting_read i c) by done. cbn iota. rewrite (bind_the i c) by done.
  rewrite peer_full_ret by done. cbn iota. rewrite Hea.
  rewrite (finish_first i c), (bind_the i (read_ready c)) by (done || apply put_cx_lookup).
  destruct (read_ready_frame c Hwf) as (Hwf1 & Ew & Ee & El).
  set (c1 := read_ready c) in *.
  rewrite (bind_on_com i c1 _ _ _ (r, bs) k n); [|apply put_cx_lookup|].
  2: { simpl. by rewrite Hr. }
  rewrite El. set (limit := default 0 (read_limit_ c)) in *.
  pose proof (com_read_law _ _ _ _ _ _ _ _ Hr) as [Hle Hbs].
  pose proof (read_space_le c1) as Hsp.
  set (c2 := set_com k c1). set (w1 := set_net n (put_cx i c2 (put_cx i c1 w))).
  assert (w1 = put_cx i c2 (set_net n w)) as Ew1
    by (unfold w1, put_cx, set_cxs, set_net; simpl; by rewrite insert_insert_eq).
  assert (Hlim : limit = 0 \/ r <= limit).
  { unfold read_space in Hle. rewrite El in Hle. fold limit in Hle.
    destruct (Z.eqb_spec limit 0); [by left|right].
    rewrite (proj2 (Z.ltb_lt 0 limit)) in Hle by lia. cbn [andb] in Hle.
    destruct (Z.ltb_spec limit (lb_cap (readbuf_ c1) - lb_size (readbuf_ c1))); lia. }
  cbv beta iota. rewrite Ew1. set (w2 := set_net n w).
  assert (Hoth : forall c' j, j <> i -> w_cxs (put_cx i c' w2) !! j = w_cxs w !! j)
    by (intros; by apply lookup_insert_ne).
  destruct (Z.ltb_spec r 0); [|destruct (Z.eqb_spec r 0) as [->|Hne]].
  - rewrite bind_pure, bind_now. cbn [Z.ltb Z.eqb Z.compare].
    rewrite !(bind_upd i _), !put_cx_put by apply put_cx_lookup.
    eexists _, _. split; [reflexivity|]. split; [apply put_cx_lookup|].
    split; [done|]. split; [by apply Hoth|]. simpl.
    rewrite (proj2 (Z.ltb_ge 0 r)), (proj2 (Z.eqb_neq r 0)), app_nil_r, Ew, Ee, orb_false_r by lia. by split_and!.
  - rewrite bind_assoc, (bind_upd i _), put_cx_put, bind_pure, bind_now by apply put_cx_lookup.
    cbn [Z.ltb Z.eqb Z.compare].
    rewrite !(bind_upd i _), !put_cx_put by apply put_cx_lookup.
    eexists _, _. split; [reflexivity|]. split; [apply put_cx_lookup|].
    split; [done|]. split; [by apply Hoth|]. simpl.
    rewrite app_nil_r, Ew, orb_true_r. by split_and!.
  - rewrite bind_assoc, (bind_upd i _), put_cx_put by apply put_cx_lookup.
    set (b3 := mkLockbuffer (lb_data (readbuf_ c2) ++ bs) (lb_cap (readbuf_ c2))).
    assert (zlen bs = r) as Hz by (apply Hbs; lia).
    assert (buf_wf b3) as Hwf3.
    { unfold buf_wf, lb_size in *. simpl. rewrite zlen_app, Hz. unfold lb_size in *. lia. }
    destruct (grow_if_full i (set_readbuf b3 c2) w2 ((0 <? limit) && (limit <=? r)) Hwf3)
      as (c4 & Hwf4 & Hd4 & Hw4 & He4 & H4).
    change (writebuf_ (set_readbuf b3 c2)) with (writebuf_ c1) in Hw4.
    change (error_ (set_readbuf b3 c2)) with (error_ c1) in He4.
    rewrite bind_assoc, H4, bind_pure, bind_now.
    rewrite (proj2 (Z.ltb_lt 0 r)) by lia.
    rewrite !(bind_upd i _), !put_cx_put by apply put_cx_lookup.
    set (c5 := after_read r _ c4).
    destruct (after_read_frame r (w_now w) c4) as (F1 & F2 & F3 & _).
    change (w_now (put_cx i c4 w2)) with (w_now w) in c5.
    eexists _, _. split; [reflexivity|]. split; [apply put_cx_lookup|].
    split; [done|]. split; [by apply Hoth|]. simpl. unfold c5. rewrite F1, F2, F3, Hd4, He4, Hw4, Ew, Ee.
    rewrite orb_false_r. by split_and!.
Qed.

(** A paused context is inert: while the peer's com is not ready, [read] and
    [write] fail without touching the buffers, the meters or the com of the context,
    and the first call after the peer is ready lifts the pause. *)
Theorem paused_is_inert i c p w st k n :
  w_cxs w !! i = Some c -> peer_ c <> 0 -> peer_ c <> i -> w_cxs w !! peer_ c = Some p ->
  com_status (w_net w) (com_ p) = (st, k, n) ->
  (read_waiting_for_peercom_ c = true ->
     exists w', read_waiting_for_peercom i w = Ret (negb st) w' /\
       w_cxs w' !! i = Some (if st then set_com_not_ready_counter 0 (set_read_waiting_for_peercom false c)
                             else set_com_not_ready_counter (u16 (com_not_ready_counter c + 1)) c) /\
       (st = false -> read i w = Ret (-1) w')) /\
  (write_waiting_for_peercom_ c = true ->
     exists w', write_waiting_for_peercom i w = Ret (negb st) w' /\
       w_cxs w' !! i = Some (if st then set_com_not_ready_counter 0 (set_write_waiting_for_peercom false c)
                             else set_com_not_ready_counter (u16 (com_not_ready_counter c + 1)) c) /\
       (st = false -> write i w = Ret 0 w')).
Proof.
  intros Hc Hp0 Hpi Hp Hst. set (w1 := set_net n (put_cx (peer_ c) (set_com k p) w)).
  assert (Hc1 : w_cxs w1 !! i = Some c) by (unfold w1; simpl; by rewrite lookup_insert_ne).
  assert (Hp1 : forall c', w_cxs (put_cx i c' w1) !! peer_ c = Some (set_com k p)).
  { intros c'. simpl. rewrite lookup_insert_ne by congruence. apply lookup_insert_eq. }
  split; intros Hw.
  - assert (exists w', read_waiting_for_peercom i w = Ret (negb st) w' /\
       w_cxs w' !! i = Some (if st then set_com_not_ready_counter 0 (set_read_waiting_for_peercom false c)
                             else set_com_not_ready_counter (u16 (com_not_ready_counter c + 1)) c)) as (w' & E & Hl).
    { unfold read_waiting_for_peercom. rewrite (bind_the i c), Hw, (proj2 (Z.eqb_neq _ 0)) by done.
      cbn [andb negb]. rewrite bind_assoc, (bind_on_com (peer_ c) p _ _ _ st k n) by done.
      fold w1. destruct st; cbn [negb].
      - rewrite (bind_upd i c) by done. unfold field. rewrite (bind_the i _) by apply put_cx_lookup.
        eexists. split; [reflexivity|apply put_cx_lookup].
      - unfold not_ready. rewrite !bind_assoc, (bind_upd i c) by done.
        unfold field. rewrite bind_assoc, (bind_the i _), bind_pure, bind_assoc by apply put_cx_lookup.
        rewrite bind_assoc, (bind_the (peer_ c) _), bind_pure by apply Hp1.
        case_if; (unfold rescan_in, monitor; rewrite bind_polling;
          rewrite (bind_the i _) by apply put_cx_lookup;
          eexists; split; [unfold mret_; simpl; by rewrite Hw|apply put_cx_lookup]). }
    exists w'. split; [done|]. split; [done|]. intros ->. unfold read.
    by rewrite (bind_ret _ _ _ _ _ E).
  - assert (exists w', write_waiting_for_peercom i w = Ret (negb st) w' /\
       w_cxs w' !! i = Some (if st then set_com_not_ready_counter 0 (set_write_waiting_for_peercom false c)
                             else set_com_not_ready_counter (u16 (com_not_ready_counter c + 1)) c)) as (w' & E & Hl).
    { unfold write_waiting_for_peercom. rewrite (bind_the i c), Hw, (proj2 (Z.eqb_neq _ 0)) by done.
      cbn [andb negb]. rewrite bind_assoc, (bind_on_com (peer_ c) p _ _ _ st k n) by done.
      fold w1. destruct st; cbn [negb].
      - rewrite (bind_upd i c) by done. unfold field. rewrite (bind_the i _) by apply put_cx_lookup.
        eexists. split; [reflexivity|apply put_cx_lookup].
      - unfold not_ready. rewrite !bind_assoc, (bind_upd i c) by done.
        unfold field. rewrite bind_assoc, (bind_the i _), bind_pure, bind_assoc by apply put_cx_lookup.
        rewrite bind_assoc, (bind_the (peer_ c) _), bind_pure by apply Hp1.
        case_if; (unfold rescan_out, write_monitor; rewrite bind_polling;
          rewrite (bind_the i _) by apply put_cx_lookup;
          eexists; split; [unfold mret_; simpl; by rewrite Hw|apply put_cx_lookup]). }
    exists w'. split; [done|]. split; [done|]. intros ->. unfold write, write_hooked.
    by rewrite (bind_ret _ _ _ _ _ E).
Qed.

(** ** Writing *)

(** What [write] does to the context before it calls the com: [process_out] of the base
    class always releases the whole buffer. *)
Definition count_out (c : cx) : cx :=
  let tx_size := lb_size (writebuf_ c) in
  if processed_out_total_ c <? meter_write_bytes c + tx_size then
    let p := process_out c in
    set_processed_out_total (u64 (processed_out_total_ c + p)) (set_processed_out p c)
  else set_processed_out tx_size c.

Lemma count_out_frame c :
  writebuf_ (count_out c) = writebuf_ c /\ readbuf_ (count_out c) = readbuf_ c /\
  com_ (count_out c) = com_ c /\ fds_ (count_out c) = fds_ c /\
  processed_out_ (count_out c) = lb_size (writebuf_ c).
Proof. unfold count_out. by case_if. Qed.

Lemma unhandle_ret i c w :
  w_cxs w !! i = Some c -> exists p, unhandle i w = Ret tt (set_poll p w).
Proof.
  intros Hc. unfold unhandle. rewrite (bind_the i c) by done.
  assert (set_poll (w_poll w) w = w) as E by (by destruct w).
  case_if.
  - unfold unmonitor. rewrite bind_polling. by eexists.
  - unfold when. case_if; [|exists (w_poll w); by rewrite E].
    unfold unmonitor. rewrite bind_polling. by eexists.
Qed.

(** [shutdown]: the descriptor is parked for the destructor, the data is untouched. *)
Lemma shutdown_ret i c w :
  w_cxs w !! i = Some c ->
  exists c' p n, shutdown i w = Ret tt (put_cx i c' (set_poll p (set_net n w))) /\
    fds_ c' = 0 /\ closing_fds_ c' = (if fds_ c =? 0 then closing_fds_ c else fds_ c) /\
    readbuf_ c' = readbuf_ c /\ writebuf_ c' = writebuf_ c /\
    host_ c' = host_ c /\ port_ c' = port_ c /\ opening_ c' = opening_ c /\ error_ c' = error_ c /\
    read_waiting_for_peercom_ c' = read_waiting_for_peercom_ c /\
    write_waiting_for_peercom_ c' = write_waiting_for_peercom_ c /\ peer_ c' = peer_ c /\
    meter_write_bytes c' = meter_write_bytes c.
Proof.
  intros Hc. unfold shutdown. rewrite (bind_upd i c), (bind_the i _) by (done || apply put_cx_lookup).
  set (c1 := set_parent_flag (Some 45) c). change (fds_ c1) with (fds_ c).
  destruct (Z.eqb_spec (fds_ c) 0) as [E|E]; cbn [negb when].
  - exists c1, (w_poll w), (w_net w). split; [by destruct w|]. simpl. by split_and!.
  - rewrite (bind_upd i _), put_cx_put by apply put_cx_lookup. set (c2 := set_closing_fds (fds_ c) c1).
    destruct (com_shutdown (w_net w) (com_ c) (fds_ c)) as [k n] eqn:Es.
    unfold on_com_. rewrite (bind_on_com i c2 _ _ _ tt k n); [|apply put_cx_lookup|by simpl; rewrite Es].
    set (c3 := set_com k c2). set (w1 := set_net n _).
    assert (w1 = put_cx i c3 (set_net n w)) as ->
      by (unfold w1, put_cx, set_cxs, set_net; simpl; by rewrite insert_insert_eq).
    destruct (unhandle_ret i c3 (put_cx i c3 (set_net n w))) as [p Ep]; [apply put_cx_lookup|].
    rewrite (bind_ret _ _ _ _ _ Ep).
    exists (set_fds 0 c3), p, n. split; [|by split_and!].
    rewrite (upd_ret i c3) by apply put_cx_lookup.
    unfold put_cx, set_cxs, set_net, set_poll. simpl. by rewrite insert_insert_eq.
Qed.

Lemma ztake_all_size (b : lockbuffer) : ztake (lb_size b) (lb_data b) = lb_data b.
Proof. apply ztake_all. Qed.

Lemma zdrop_all {A} (l : list A) : zdrop (zlen l) l = [].
Proof. unfold zdrop. apply drop_ge. pose proof (zlen_nonneg l). Transparent zlen. unfold zlen. lia. Opaque zlen. Qed.

Lemma lb_flush_written l b :
  0 < l <= lb_size b -> lb_data (lb_flush l b) = zdrop l (lb_data b).
Proof.
  intros H. destruct (decide (l = lb_size b)) as [->|]; [|apply lb_flush_data; lia].
  rewrite lb_flush_all. unfold lb_size. by rewrite zdrop_all.
Qed.

(** The meters and timers after [l] bytes were accepted. *)
Definition wrote (l t : Z) (c : cx) : cx :=
  let c := set_meter_write_bytes (u64 (meter_write_bytes c + l)) c in
  let c := set_meter_write_count (u32 (meter_write_count c + 1)) c in
  let c := set_w_activity t c in
  if opening_ c then opening false t c else c.

Lemma wrote_frame l t c :
  writebuf_ (wrote l t c) = writebuf_ c /\ readbuf_ (wrote l t c) = readbuf_ c /\
  fds_ (wrote l t c) = fds_ c.
Proof. unfold wrote, opening. simpl. by destruct (opening_ c). Qed.

Lemma count_out_close c : close_after_write_ (count_out c) = close_after_write_ c.
Proof. unfold count_out. by case_if. Qed.

Lemma wrote_com l t c :
  com_ (wrote l t c) = com_ c /\ close_after_write_ (wrote l t c) = close_after_write_ c.
Proof. unfold wrote, opening. simpl. by destruct (opening_ c). Qed.

(** The parts of [write]. *)
Lemma write_offer_ret i c w l k n :
  w_cxs w !! i = Some c ->
  com_write (w_net w) (com_ c) (fds_ c) (lb_data (writebuf_ c)) = (l, k, n) ->
  write_offer i w = Ret l (put_cx i (set_com k (count_out c)) (set_net n w)).
Proof.
  intros Hc Hio. unfold write_offer. rewrite (bind_upd i c) by done. fold (count_out c).
  destruct (count_out_frame c) as (F1 & F2 & F3 & F4 & F5).
  rewrite (bind_the i _) by apply put_cx_lookup. rewrite F1, F5, Z.min_id, ztake_all_size.
  unfold on_com. rewrite put_cx_lookup. cbn [w_net put_cx set_cxs]. rewrite F3, F4, Hio.
  unfold put_cx, set_cxs, set_net. simpl. by rewrite insert_insert_eq.
Qed.

Lemma write_metered_ret i c w l :
  w_cxs w !! i = Some c -> write_metered l i w = Ret tt (put_cx i (wrote l (w_now w) c) w).
Proof. intros Hc. unfold write_metered. rewrite bind_now. by rewrite (upd_ret i c). Qed.

Lemma write_refused_ret i c w l :
  w_cxs w !! i = Some c ->
  exists f p, write_refused l i w = Ret tt (put_cx i (set_rescan_out_flag f c) (set_poll p w)).
Proof.
  intros Hc. unfold write_refused. rewrite (bind_the i c) by done. unfold when. case_if.
  - unfold rescan_out. rewrite bind_polling, (upd_ret i c) by done. by eexists _, _.
  - exists (rescan_out_flag_ c), (w_poll w). assert (set_rescan_out_flag (rescan_out_flag_ c) c = c) as -> by (by destruct c).
    rewrite set_poll_id. by rewrite put_cx_id.
Qed.

Lemma write_taken_ret i c w l :
  w_cxs w !! i = Some c ->
  exists c' w', write_taken l i w = Ret tt (put_cx i c' w') /\ w_cxs w' = w_cxs w /\
    writebuf_ c' = lb_flush l (writebuf_ c) /\ readbuf_ c' = readbuf_ c /\
    meter_write_bytes c' = meter_write_bytes c /\ (close_after_write_ c = false -> com_ c' = com_ c) /\
    write_waiting_for_peercom_ c' = write_waiting_for_peercom_ c.
Proof.
  intros Hc. unfold write_taken. rewrite (bind_the i c) by done.
  assert (exists f p, forall A (k : unit -> M world A),
    mbind_ (if l <? lb_size (writebuf_ c) then write_monitor (fds_ c) ;;; upd i (set_rescan_out_flag true)
            else when (rescan_out_flag_ c) (upd i (set_rescan_out_flag false) ;;; monitor_mode (fds_ c) EPOLLIN))
      k w = k tt (put_cx i (set_rescan_out_flag f c) (set_poll p w))) as (f & p & E1).
  { case_if.
    - eexists true, _. intros A k. rewrite bind_assoc. unfold write_monitor. rewrite bind_polling.
      rewrite (bind_upd i c) by done. reflexivity.
    - unfold when. case_if.
      + eexists false, _. intros A k. rewrite bind_assoc, (bind_upd i c) by done.
        unfold monitor_mode. rewrite bind_polling, put_cx_poll. reflexivity.
      + exists (rescan_out_flag_ c), (w_poll w). intros A k. rewrite bind_pure, set_poll_id.
        assert (set_rescan_out_flag (rescan_out_flag_ c) c = c) as -> by (by destruct c). by rewrite put_cx_id. }
  rewrite E1, (bind_upd i (set_rescan_out_flag f c)), put_cx_put by apply put_cx_lookup.
  set (c4 := set_writebuf _ _). rewrite (bind_the i c4) by apply put_cx_lookup.
  unfold when. destruct (close_after_write_ c4 && _) eqn:Hcl.
  - destruct (shutdown_ret i c4 (put_cx i c4 (set_poll p w))) as (c5 & p5 & n5 & E5 & _ & _ & Hr5 & Hw5 & _ & _ & _ & _ & _ & Hp5 & _ & Hm5);
      [apply put_cx_lookup|].
    exists c5, (set_poll p5 (set_net n5 (set_poll p w))). rewrite E5, put_cx_poll_net. split; [done|]. split; [done|].
    split; [by rewrite Hw5|]. split; [by rewrite Hr5|]. split; [by rewrite Hm5|].
    split; [|by rewrite Hp5]. intros Hno. apply andb_prop in Hcl as [Hcl _].
    change (close_after_write_ c4) with (close_after_write_ c) in Hcl. congruence.
  - exists c4, (set_poll p w). by repeat (split; [done|]).
Qed.

(** [write] of a context that is not paused: the com is offered the whole buffer once,
    and exactly the bytes it accepts leave the buffer, from the front. *)
Lemma write_takes_prefix i c w l k n :
  w_cxs w !! i = Some c -> write_waiting_for_peercom_ c = false ->
  com_write (w_net w) (com_ c) (fds_ c) (lb_data (writebuf_ c)) = (l, k, n) ->
  exists c' w', write i w = Ret (int_of_ssize l) w' /\ w_cxs w' !! i = Some c' /\
    (forall j, j <> i -> w_cxs w' !! j = w_cxs w !! j) /\
    lb_data (writebuf_ c') = zdrop (Z.max 0 l) (lb_data (writebuf_ c)) /\
    readbuf_ c' = readbuf_ c /\ (close_after_write_ c = false -> com_ c' = k).
Proof.
  intros Hc Hnw Hio. pose proof (com_write_law _ _ _ _ _ _ _ Hio) as Hle.
  unfold write, write_hooked. rewrite (not_waiting_write i c) by done. cbn iota. rewrite bind_pure.
  rewrite (bind_ret _ _ _ _ _ (write_offer_ret i c w l k n Hc Hio)).
  destruct (count_out_frame c) as (F1 & F2 & F3 & F4 & F5).
  set (c1 := set_com k (count_out c)). set (w1 := put_cx i c1 (set_net n w)).
  assert (w_cxs w1 !! i = Some c1) as Hc1 by apply put_cx_lookup.
  assert (forall j, j <> i -> w_cxs w1 !! j = w_cxs w !! j) as Ho1 by (intros j Hj; unfold w1; by rewrite put_cx_lookup_ne).
  destruct (Z.ltb_spec 0 l).
  - rewrite bind_assoc, (bind_ret _ _ _ _ _ (write_metered_ret i c1 w1 l Hc1)). rewrite bind_assoc, bind_pure.
    destruct (wrote_frame l (w_now w1) c1) as (W2 & R2 & D2). destruct (wrote_com l (w_now w1) c1) as (K2 & L2).
    set (c2 := wrote l (w_now w1) c1) in *.
    destruct (write_taken_ret i c2 (put_cx i c2 w1) l) as (c3 & w3 & E3 & Ew & Hw3 & Hr3 & _ & Hk3 & _); [apply put_cx_lookup|].
    rewrite (bind_ret _ _ _ _ _ E3). exists c3, (put_cx i c3 w3). split; [done|]. split; [apply put_cx_lookup|]. split.
    + intros j Hj. rewrite put_cx_lookup_ne, Ew, put_cx_lookup_ne by done. by apply Ho1.
    + rewrite Z.max_r, Hw3, W2, Hr3, R2 by lia. change (writebuf_ c1) with (writebuf_ (count_out c)).
      change (readbuf_ c1) with (readbuf_ (count_out c)). rewrite F1, F2.
      split; [apply lb_flush_written; unfold lb_size; lia|]. split; [done|]. intros Hno. rewrite Hk3, K2; [done|].
      rewrite L2. change (close_after_write_ c1) with (close_after_write_ (count_out c)). by rewrite count_out_close.
  - destruct (write_refused_ret i c1 w1 l Hc1) as (f & p & E2). rewrite (bind_ret _ _ _ _ _ E2).
    eexists (set_rescan_out_flag f c1), _. split; [done|]. split; [apply put_cx_lookup|]. split.
    + intros j Hj. rewrite put_cx_lookup_ne by done. by apply Ho1.
    + rewrite Z.max_l by lia. split; [by rewrite <- F1|]. split; [by rewrite <- F2 | done].
Qed.

(** ** The output queue over time *)

(** The history of context [i]: what was queued, what the com accepted, and steps of
    anything else that leave the context's output alone. *)
Inductive history (i : Z) : world -> list bytes -> list bytes -> world -> Prop :=
  | h_done w : history i w [] [] w
  | h_queue w bs w1 q s w2 :
      to_write i bs w = Ret tt w1 -> history i w1 q s w2 -> history i w (bs :: q) s w2
  | h_write w c l k n r w1 q s w2 :
      w_cxs w !! i = Some c -> write_waiting_for_peercom_ c = false ->
      com_write (w_net w) (com_ c) (fds_ c) (lb_data (writebuf_ c)) = (l, k, n) ->
      write i w = Ret r w1 -> history i w1 q s w2 ->
      history i w q (ztake (Z.max 0 l) (lb_data (writebuf_ c)) :: s) w2
  | h_other w w1 q s w2 :
      (forall c, w_cxs w !! i = Some c ->
         exists c1, w_cxs w1 !! i = Some c1 /\ lb_data (writebuf_ c1) = lb_data (writebuf_ c)) ->
      history i w1 q s w2 -> history i w q s w2.

Lemma to_write_ret i c bs w :
  w_cxs w !! i = Some c ->
  exists p, to_write i bs w =
    Ret tt (put_cx i (set_writebuf (lb_append bs (writebuf_ c)) c) (set_poll p w)).
Proof.
  intros Hc. unfold to_write. rewrite (bind_upd i c), (bind_the i _) by (done || apply put_cx_lookup).
  eexists. reflexivity.
Qed.

(** [C18] The output of a context is a FIFO queue: over any history of queueing,
    writing and activity elsewhere, the bytes the com accepted followed by the bytes
    still buffered are the initially buffered bytes followed by everything queued -
    nothing is lost, duplicated or reordered by partial or failed writes. *)
Theorem write_fifo i w q s w' c c' :
  history i w q s w' -> w_cxs w !! i = Some c -> w_cxs w' !! i = Some c' ->
  concat s ++ lb_data (writebuf_ c') = lb_data (writebuf_ c) ++ concat q.
Proof.
  intros Hh. revert c. induction Hh as [w|w bs w1 q s w2 E _ IH|w c0 l k n r w1 q s w2 Hc0 Hnw Hio E _ IH|w w1 q s w2 Ho _ IH];
    intros c Hc Hc'; simpl.
  - assert (c' = c) as -> by congruence. by rewrite app_nil_r.
  - destruct (to_write_ret i c bs w Hc) as [p Ep]. rewrite E in Ep. injection Ep as ->.
    rewrite (IH _ (put_cx_lookup _ _ _) Hc'). simpl. by rewrite lb_append_data, <- app_assoc.
  - assert (c0 = c) as -> by congruence.
    destruct (write_takes_prefix i c w l k n Hc Hnw Hio) as (c1 & w1' & E1 & Hc1 & _ & Hd & _).
    rewrite E in E1. injection E1 as -> ->.
    rewrite <- app_assoc, (IH c1 Hc1 Hc'), Hd, app_assoc. by rewrite ztake_zdrop.
  - destruct (Ho c Hc) as (c1 & Hc1 & E). by rewrite (IH c1 Hc1 Hc'), E.
Qed.

(** ** Closing and reconnecting *)

Lemma shutdown_open i c w k1 n1 :
  w_cxs w !! i = Some c -> 0 < fds_ c -> com_shutdown (w_net w) (com_ c) (fds_ c) = (k1, n1) ->
  exists c1 p, shutdown i w = Ret tt (put_cx i c1 (set_poll p (set_net n1 w))) /\
    fds_ c1 = 0 /\ closing_fds_ c1 = fds_ c /\ com_ c1 = k1 /\ host_ c1 = host_ c /\ port_ c1 = port_ c.
Proof.
  intros Hc Hfd Hsd. unfold shutdown. rewrite (bind_upd i c), (bind_the i _) by (done || apply put_cx_lookup).
  set (c1 := set_parent_flag (Some 45) c). change (fds_ c1) with (fds_ c).
  rewrite (proj2 (Z.eqb_neq _ 0)) by lia. cbn [negb when].
  rewrite (bind_upd i _), put_cx_put by apply put_cx_lookup.
  unfold on_com_. rewrite (bind_on_com i (set_closing_fds (fds_ c) c1) _ _ _ tt k1 n1);
    [|apply put_cx_lookup|simpl; by rewrite Hsd].
  set (c3 := set_com k1 _). set (w1 := set_net n1 _).
  assert (w1 = put_cx i c3 (set_net n1 w)) as ->
    by (unfold w1, put_cx, set_cxs, set_net; simpl; by rewrite insert_insert_eq).
  destruct (unhandle_ret i c3 (put_cx i c3 (set_net n1 w))) as [p Ep]; [apply put_cx_lookup|].
  rewrite (bind_ret _ _ _ _ _ Ep). exists (set_fds 0 c3), p. split; [|by split_and!].
  rewrite (upd_ret i c3) by apply put_cx_lookup. by rewrite put_cx_poll, put_cx_put.
Qed.

Lemma connect_opens i c w fd k n :
  com_connect (w_net w) (com_ c) (host_ c) (port_ c) = (fd, k, n) ->
  exists c', fds_ c' = fd /\ closing_fds_ c' = closing_fds_ c /\
    forall A (q : Z -> M world A), mbind_ (connect i) q (put_cx i c w) = q fd (put_cx i c' (set_net n w)).
Proof.
  intros Hcon. set (cc := opening true (w_now w) c). set (c2 := set_error false (set_fds fd (set_com k cc))).
  assert (Hstep : forall A (q : Z -> M world A),
    mbind_ (connect i) q (put_cx i c w) =
    mbind_ (when (w_blocking w) (upd i (opening false (w_now w)))) (fun _ => q fd) (put_cx i c2 (set_net n w))).
  { intros A q. unfold connect. rewrite !bind_assoc, bind_now.
    change (w_now (put_cx i c w)) with (w_now w).
    rewrite bind_assoc, (bind_upd i c), put_cx_put by apply put_cx_lookup. fold cc.
    rewrite bind_assoc, (bind_the i cc) by apply put_cx_lookup.
    rewrite bind_assoc, (bind_on_com i cc _ _ _ fd k n); [|apply put_cx_lookup|exact Hcon].
    rewrite bind_assoc, (bind_upd i (set_com k cc)) by apply put_cx_lookup.
    assert (put_cx i c2 (set_net n (put_cx i (set_com k cc) (put_cx i cc w))) = put_cx i c2 (set_net n w)) as Ew.
    { unfold put_cx, set_cxs, set_net. simpl. by rewrite !insert_insert_eq. }
    fold c2. rewrite Ew, bind_assoc, bind_gets, bind_assoc. reflexivity. }
  destruct (w_blocking w) eqn:Hb.
  - exists (opening false (w_now w) c2). split; [done|]. split; [done|].
    intros A q. rewrite Hstep. cbn [when].
    by rewrite (bind_upd i c2), put_cx_put by apply put_cx_lookup.
  - exists c2. split; [done|]. split; [done|]. intros A q. by rewrite Hstep.
Qed.

(** A permanent context that reconnects leaks its old descriptor: [reconnect]
    parks it in [closing_fds_] for the destructor, and the next [shutdown] overwrites
    that slot with the new descriptor, so the old one is never closed. *)
Theorem reconnect_leaks_descriptor i c w fd k1 n1 k2 n2 :
  w_cxs w !! i = Some c -> permanent_ c = true -> should_reconnect_now (w_now w) c = true ->
  0 < fds_ c ->
  com_shutdown (w_net w) (com_ c) (fds_ c) = (k1, n1) ->
  com_connect n1 k1 (host_ c) (port_ c) = (fd, k2, n2) -> 0 < fd -> fd <> fds_ c ->
  exists w1 w2 c1 c2, reconnect i w = Ret true w1 /\ w_cxs w1 !! i = Some c1 /\
    closed_by_destructor c1 = [fd; fds_ c] /\
    shutdown i w1 = Ret tt w2 /\ w_cxs w2 !! i = Some c2 /\ closed_by_destructor c2 = [fd].
Proof.
  intros Hc Hperm Hrec Hfd Hsd Hcon Hnew Hne. unfold reconnect.
  rewrite bind_now, (bind_the i c), Hrec, Hperm by done. cbn [andb].
  destruct (shutdown_open i c w k1 n1 Hc Hfd Hsd) as (c1 & p & Es & Hf1 & Hcl1 & Hk1 & Hh1 & Hp1).
  rewrite (bind_ret _ _ _ _ _ Es). set (w1 := set_poll p (set_net n1 w)) in *.
  destruct (connect_opens i c1 w1 fd k2 n2) as (c2 & Hf2 & Hcl2 & Ec); [by rewrite Hk1, Hh1, Hp1|].
  rewrite Hcl1 in Hcl2.
  rewrite Ec, (bind_upd i c2), put_cx_put by apply put_cx_lookup.
  set (c3 := set_last_reconnect _ c2).
  destruct (shutdown_ret i c3 (put_cx i c3 (set_net n2 w1))) as (c4 & p4 & n4 & Es4 & Hf4 & Hcl4 & _);
    [apply put_cx_lookup|].
  eexists _, _, c3, c4. split; [reflexivity|]. split; [apply put_cx_lookup|].
  split. { unfold closed_by_destructor. change (fds_ c3) with (fds_ c2). change (closing_fds_ c3) with (closing_fds_ c2).
           rewrite Hf2, Hcl2, !(proj2 (Z.ltb_lt _ _)) by lia. done. }
  split; [exact Es4|]. split; [apply put_cx_lookup|].
  unfold closed_by_destructor. rewrite Hf4, Hcl4. change (fds_ c3) with (fds_ c2). rewrite Hf2.
  rewrite (proj2 (Z.eqb_neq _ 0)), (proj2 (Z.ltb_lt 0 fd)) by lia. done.
Qed.
End props.

(** ** The theorems on a concrete network

    A com that delivers the bytes of its state (up to the size asked for), accepts at
    most three bytes at a time, connects to descriptor 9 and is always ready. *)

#[export] Program Instance demo_com : Com := {|
  net := bytes;
  translate_socket s := s;
  com_read n k s m :=
    let r := Z.min m (zlen n) in
    (if r <=? 0 then Z.min m (-1) else r, ztake r n, k, zdrop r n);
  com_write n k s bs := (Z.min 3 (zlen bs), k, n);
  com_connect n k h p := (9, set_fd 9 k, n);
  com_shutdown n k s := (k, n);
  com_status n k := (bool_decide (n <> []), k, n);
  com_is_connected n k s := (true, k, n);
  com_readable n k s := true;
  com_writable n k s := true;
  com_accept_socket n k s := (k, n);
  com_delay_socket n k s := (k, n);
  com_resolve_src n s := None;
  com_unblock n s := n
|}.
Next Obligation.
  intros n k s m r bs c' n' E. simpl in E. injection E as <- <- <- <-.
  pose proof (zlen_nonneg n). destruct (Z.leb_spec (Z.min m (zlen n)) 0); split; try lia.
  intros _. apply zlen_ztake. lia.
Qed.
Next Obligation. intros n k s bs r c' n' E. simpl in E. injection E as <- <- <-. lia. Qed.

Definition demo_cx (fd p : Z) (paused : bool) (out : bytes) : cx :=
  set_peer p (set_read_waiting_for_peercom paused (set_writebuf (mkLockbuffer out 2048)
    (cx_init "h" "80" fd 100 (set_fd fd com_default)))).

(** Two peered contexts, 1 and 2, at time 100. *)
Definition demo_world (n : bytes) (paused : bool) : world :=
  mkWorld (<[1 := demo_cx 7 2 paused [1; 2; 3; 4; 5]]> (<[2 := demo_cx 8 1 false []]> ∅))
    (mkEpoller (Some demo_poller) ∅ ∅) n 100 ∅ false.

Lemma read_appends_witness :
  exists c' w', read 1 (demo_world [10; 20; 30] false) = Ret 3 w' /\
    w_cxs w' !! 1 = Some c' /\ lb_data (readbuf_ c') = [10; 20; 30].
Proof.
  destruct (read_appends 1 (demo_cx 7 2 false [1; 2; 3; 4; 5]) (demo_world [10; 20; 30] false)
              3 [10; 20; 30] (set_fd 7 com_default) [])
    as (c' & w' & E & Hc & _ & _ & Hd & _); try reflexivity.
  - vm_compute. discriminate.
  - right. exists (demo_cx 8 1 false []). reflexivity.
  - exists c', w'. split; [exact E|]. split; [exact Hc|]. rewrite Hd. reflexivity.
Defined.

Lemma paused_is_inert_witness :
  exists w', read 1 (demo_world [] true) = Ret (-1) w'.
Proof.
  destruct (paused_is_inert 1 (demo_cx 7 2 true [1; 2; 3; 4; 5]) (demo_cx 8 1 false [])
              (demo_world [] true) false (set_fd 8 com_default) [])
    as [H _]; try reflexivity; try discriminate.
  destruct (H eq_refl) as (w' & _ & _ & E). exists w'. exact (E eq_refl).
Defined.

Lemma write_fifo_witness :
  let w := demo_world [] false in
  exists w1 w2 c2, write 1 w = Ret 3 w1 /\ to_write 1 [6] w1 = Ret tt w2 /\
    w_cxs w2 !! 1 = Some c2 /\ [1; 2; 3] ++ lb_data (writebuf_ c2) = [1; 2; 3; 4; 5; 6].
Proof.
  intros w.
  destruct (write_takes_prefix 1 (demo_cx 7 2 false [1; 2; 3; 4; 5]) w 3 (set_fd 7 com_default) [])
    as (c1 & w1 & E1 & Hc1 & _); try reflexivity.
  destruct (to_write_ret 1 c1 [6] w1 Hc1) as [p E2]. eexists w1, _, _. split; [exact E1|].
  split; [exact E2|]. split; [apply put_cx_lookup|].
  pose proof (write_fifo 1 w [[6]] [[1; 2; 3]] _ (demo_cx 7 2 false [1; 2; 3; 4; 5])
                (set_writebuf (lb_append [6] (writebuf_ c1)) c1)
                (h_write 1 w (demo_cx 7 2 false [1; 2; 3; 4; 5]) 3 (set_fd 7 com_default) [] 3 w1 [[6]] [] _
                   eq_refl eq_refl eq_refl E1 (h_queue 1 w1 [6] _ [] [] _ E2 (h_done 1 _)))
                eq_refl (put_cx_lookup _ _ _)) as H.
  exact H.
Defined.

Lemma reconnect_leaks_descriptor_witness :
  let c := set_permanent true (demo_cx 7 0 false []) in
  let w := mkWorld (<[1 := c]> ∅) (mkEpoller (Some demo_poller) ∅ ∅) [] 100 ∅ false in
  exists w1 w2 c2, reconnect 1 w = Ret true w1 /\ shutdown 1 w1 = Ret tt w2 /\
    w_cxs w2 !! 1 = Some c2 /\ closed_by_destructor c2 = [9].
Proof.
  intros c w.
  destruct (reconnect_leaks_descriptor 1 c w 9 (set_fd 7 com_default) [] (set_fd 9 com_default) [])
    as (w1 & w2 & c1 & c2 & E1 & _ & _ & E2 & Hc2 & Hd); try reflexivity; try discriminate.
  exists w1, w2, c2. exact (conj E1 (conj E2 (conj Hc2 Hd))).
Defined.
