(* ===== verification/Meter.v ===== *)
(** * Meter: the transfer-rate meter of sobject.hpp and sobject.cpp

    A sliding window of the counts of the last whole intervals. Times are in
    nanoseconds; every counter is an [unsigned long]. *)

From S2P Require Export Effects.

Definition scoreboard_sz : Z := 3.
Definition second : Z := 1000000000.

Record meter : Type := mkMeter {
  total_ : Z;
  prev_counter_ : Z;
  curr_counter_ : Z;
  scoreboard : list Z;
  last_update : Z;
  interval_ : Z;
  cnt_updates : Z
}.

Definition meter_new (interval now : Z) : meter := mkMeter 0 0 0 [0; 0; 0] now interval 0.

(** [push_score]: shift the board and put the new score first. *)
Definition push_score (v : Z) (m : meter) : meter :=
  mkMeter (total_ m) (prev_counter_ m) (curr_counter_ m) (v :: take 2 (scoreboard m))
    (last_update m) (interval_ m) (cnt_updates m).

(** The loop of [sum_score], from the oldest score, over at most [cnt_updates] of them. *)
Fixpoint sum_from (cur_it max_it : Z) (scores : list Z) : Z :=
  match scores with
  | [] => 0
  | s :: rest => if max_it <? cur_it + 1 then 0 else u64 (s + sum_from (cur_it + 1) max_it rest)
  end.

Definition sum_score (m : meter) : Z := sum_from 0 (cnt_updates m) (rev (scoreboard m)).

Definition meter_update (now val : Z) (m : meter) : Z * meter :=
  let m := mkMeter (u64 (total_ m + val)) (prev_counter_ m) (curr_counter_ m) (scoreboard m)
             (last_update m) (interval_ m) (u32 (cnt_updates m + 1)) in
  let d := now - last_update m in
  let m :=
    if interval_ m * second <=? d then
      let m1 :=
        if 2 * interval_ m * second <=? d then
          let missed := d / (interval_ m * second) - 1 in
          let missed := if scoreboard_sz <? missed then scoreboard_sz else missed in
          Nat.iter (Z.to_nat missed) (push_score 0) m
        else m in
      let m2 := push_score (prev_counter_ m1) m1 in
      mkMeter (total_ m2) (curr_counter_ m2) val (scoreboard m2) now (interval_ m2) (cnt_updates m2)
    else
      mkMeter (total_ m) (prev_counter_ m) (u64 (curr_counter_ m + val)) (scoreboard m)
        (last_update m) (interval_ m) (cnt_updates m) in
  (prev_counter_ m, m).

Definition meter_get (now : Z) (m : meter) : Z :=
  if last_update m + (1 + scoreboard_sz) * interval_ m * second <? now then 0
  else
    let divisor :=
      if cnt_updates m <? 1 + scoreboard_sz then cnt_updates m * interval_ m
      else (1 + scoreboard_sz) * interval_ m in
    let divisor := if divisor =? 0 then 1 else divisor in
    u64 (prev_counter_ m + sum_score m) / divisor.
