(* ===== verification/BaseProxy.v ===== *)
(** * BaseProxy: the proxy engine (baseproxy.hpp, baseproxy.cpp, lrproxy.cpp)

    One proxy object over the contexts of [HostCX]: its four lists of contexts per
    side, its read and write events with their error paths, the write bottleneck state
    machine, accepting, timers and shutdown.  The sides are the code's characters: ['l']
    and ['r'] for the regular lists, ['x'] and ['y'] for the permanent ones.  The virtual
    callbacks are those of [baseProxy] or, for [px_lr], of [SimpleLRProxy]. *)

From S2P Require Export HostCX Meter.

Inductive side_t : Type := L | R | X | Y.

#[export] Instance side_eq_dec : EqDecision side_t.
Proof. solve_decision. Defined.

Definition is_left (s : side_t) : bool := match s with L | X => true | R | Y => false end.

Definition HANDLE_LEFT_ERROR : Z := u32 (-1).
Definition HANDLE_RIGHT_ERROR : Z := u32 (-2).
Definition HANDLE_LEFT_PC_ERROR : Z := u32 (-5).
Definition HANDLE_RIGHT_PC_ERROR : Z := u32 (-6).
Definition HANDLE_LEFT_NEW : Z := 2.
Definition HANDLE_RIGHT_NEW : Z := 4.

(** The context lists of one side. *)
Record lists : Type := mkLists {
  sockets : list Z;            (* left_sockets *)
  bind_sockets : list Z;       (* left_bind_sockets *)
  pc_cx : list Z;              (* left_pc_cx *)
  delayed_accepts : list Z     (* left_delayed_accepts *)
}.

(** [proxy_state] and the rest of the object. *)
Record proxy : Type := mkProxy {
  px_id : Z;                   (* the object as an epoll handler *)
  px_lr : bool;                (* a SimpleLRProxy *)
  px_left : lists;
  px_right : lists;
  dead : bool;
  error_on_left_read : bool;
  error_on_right_read : bool;
  error_on_left_write : bool;
  error_on_right_write : bool;
  write_left_neck_ : bool;
  write_right_neck_ : bool;
  new_raw_ : bool;
  last_read : Z;
  last_write : Z;
  mtr_down : meter;
  mtr_up : meter;
  handle_last_status : Z;
  last_tick_ : Z;
  trashcan : list Z
}.

(** What only the proxy asks of its surroundings: accept(2) on a listening socket, the
    [new_message] and [on_timer] virtual functions of a context, and which descriptors
    have a lock in [locks::fd()]. *)
Class ProxyEnv `{Com} : Type := {
  com_accept : net -> Z -> Z * net;
  new_message : net -> cx -> bool;
  on_timer : net -> cx -> net;
  fd_locked : Z -> bool
}.

Section proxy.
Context {EK : EpollKernel} {ST : Storage} {CO : Com} {PE : ProxyEnv}.

Record pworld : Type := mkPworld { pw : world; px : proxy }.

Definition lift {A} (m : M world A) : M pworld A := fun u =>
  match m (pw u) with
  | Ret a w => Ret a (mkPworld w (px u))
  | Throw e w => Throw e (mkPworld w (px u))
  | Undef => Undef
  end.

Definition pget {A} (f : proxy -> A) : M pworld A := gets (fun u => f (px u)).
Definition pset (f : proxy -> proxy) : M pworld unit := modify (fun u => mkPworld (pw u) (f (px u))).
Definition look {A} (f : cx -> A) (i : Z) : M pworld A := lift (field f i).
Definition change (i : Z) (f : cx -> cx) : M pworld unit := lift (upd i f).

(** ** Field updates *)

Definition set_lists (left : bool) (f : lists -> lists) (p : proxy) : proxy :=
  mkProxy (px_id p) (px_lr p) (if left then f (px_left p) else px_left p)
    (if left then px_right p else f (px_right p)) (dead p)
    (error_on_left_read p) (error_on_right_read p) (error_on_left_write p) (error_on_right_write p)
    (write_left_neck_ p) (write_right_neck_ p) (new_raw_ p) (last_read p) (last_write p)
    (mtr_down p) (mtr_up p) (handle_last_status p) (last_tick_ p) (trashcan p).
Definition set_errors (lr rr lw rw : bool) (p : proxy) : proxy :=
  mkProxy (px_id p) (px_lr p) (px_left p) (px_right p) (dead p) lr rr lw rw
    (write_left_neck_ p) (write_right_neck_ p) (new_raw_ p) (last_read p) (last_write p)
    (mtr_down p) (mtr_up p) (handle_last_status p) (last_tick_ p) (trashcan p).
Definition set_neck (left b : bool) (p : proxy) : proxy :=
  mkProxy (px_id p) (px_lr p) (px_left p) (px_right p) (dead p)
    (error_on_left_read p) (error_on_right_read p) (error_on_left_write p) (error_on_right_write p)
    (if left then b else write_left_neck_ p) (if left then write_right_neck_ p else b)
    (new_raw_ p) (last_read p) (last_write p)
    (mtr_down p) (mtr_up p) (handle_last_status p) (last_tick_ p) (trashcan p).
Definition set_stats (r w : Z) (d u : meter) (p : proxy) : proxy :=
  mkProxy (px_id p) (px_lr p) (px_left p) (px_right p) (dead p)
    (error_on_left_read p) (error_on_right_read p) (error_on_left_write p) (error_on_right_write p)
    (write_left_neck_ p) (write_right_neck_ p) (new_raw_ p) r w d u
    (handle_last_status p) (last_tick_ p) (trashcan p).
Definition set_status (d : bool) (h t : Z) (tr : list Z) (p : proxy) : proxy :=
  mkProxy (px_id p) (px_lr p) (px_left p) (px_right p) d
    (error_on_left_read p) (error_on_right_read p) (error_on_left_write p) (error_on_right_write p)
    (write_left_neck_ p) (write_right_neck_ p) (new_raw_ p) (last_read p) (last_write p)
    (mtr_down p) (mtr_up p) h t tr.

Definition side_lists (left : bool) (p : proxy) : lists := if left then px_left p else px_right p.
Definition neck (left : bool) (p : proxy) : bool := if left then write_left_neck_ p else write_right_neck_ p.

(** [handle_last_status |= flag] *)
Definition or_status (flag : Z) (p : proxy) : proxy :=
  set_status (dead p) (Z.lor (handle_last_status p) flag) (last_tick_ p) (trashcan p) p.
Definition set_dead (b : bool) (p : proxy) : proxy :=
  set_status b (handle_last_status p) (last_tick_ p) (trashcan p) p.
Definition error_read (left : bool) (p : proxy) : proxy :=
  set_errors (if left then true else error_on_left_read p) (if left then error_on_right_read p else true)
    (error_on_left_write p) (error_on_right_write p) p.
Definition error_write (left : bool) (p : proxy) : proxy :=
  set_errors (error_on_left_read p) (error_on_right_read p)
    (if left then true else error_on_left_write p) (if left then error_on_right_write p else true) p.

(** ** Adding contexts *)

(** Monitor the socket and make this proxy its handler. *)
Definition watch (s : Z) : M pworld unit :=
  h <- pget px_id ;;
  lift (monitor s ;;; poll_handler s (Some h)).

(** [ladd] and [radd]: the context's own socket number. *)
Definition add (left : bool) (i : Z) : M pworld unit :=
  lift (modify (fun w => match w_cxs w !! i with
                         | Some c => set_net (com_unblock (w_net w) (fds_ c)) w | None => w end)) ;;;
  s <- look fds_ i ;;
  watch s ;;;
  pset (set_lists left (fun l => mkLists (sockets l ++ [i]) (bind_sockets l) (pc_cx l) (delayed_accepts l))) ;;;
  change i (set_parent_flag (Some (if left then 76 else 82))).

(** [lbadd] and [rbadd] *)
Definition badd (left : bool) (i : Z) : M pworld unit :=
  s <- look (fun c => translate_socket (fds_ c)) i ;;
  watch s ;;;
  pset (set_lists left (fun l => mkLists (sockets l) (bind_sockets l ++ [i]) (pc_cx l) (delayed_accepts l))) ;;;
  change i (set_parent_flag (Some (if left then 76 else 82))).

(** [lpcadd] and [rpcadd] *)
Definition pcadd (left : bool) (i : Z) : M pworld unit :=
  change i (set_permanent true) ;;;
  s <- look (fun c => translate_socket (fds_ c)) i ;;
  watch s ;;;
  pset (set_lists left (fun l => mkLists (sockets l) (bind_sockets l) (pc_cx l ++ [i]) (delayed_accepts l))) ;;;
  change i (set_parent_flag (Some (if left then 76 else 82))).

(** [ldaadd] and [rdaadd] *)
Definition daadd (left : bool) (i : Z) : M pworld unit :=
  lift (modify (fun w => match w_cxs w !! i with
                         | Some c => set_net (com_unblock (w_net w) (fds_ c)) w | None => w end)) ;;;
  s <- look (fun c => translate_socket (fds_ c)) i ;;
  watch s ;;;
  pset (set_lists left (fun l => mkLists (sockets l) (bind_sockets l) (pc_cx l) (delayed_accepts l ++ [i]))) ;;;
  change i (set_parent_flag (Some (if left then 108 else 114))).

(** ** Shutting down *)

Fixpoint for_each (f : Z -> M pworld unit) (l : list Z) : M pworld unit :=
  match l with [] => mret_ tt | i :: r => f i ;;; for_each f r end.

(** [drop_cx]: unpeer and keep for destruction with the proxy. *)
Definition drop_cx (i : Z) : M pworld unit :=
  lift (peer i 0) ;;;
  pset (fun p => set_status (dead p) (handle_last_status p) (last_tick_ p) (trashcan p ++ [i]) p).

Definition side_shutdown (left : bool) : M pworld unit :=
  l <- pget (side_lists left) ;;
  for_each (fun i => lift (shutdown i))
    (bind_sockets l ++ sockets l ++ pc_cx l ++ delayed_accepts l) ;;;
  for_each drop_cx (bind_sockets l) ;;;
  for_each drop_cx (sockets l) ;;;
  for_each drop_cx (pc_cx l) ;;;
  for_each drop_cx (delayed_accepts l) ;;;
  pset (set_lists left (fun _ => mkLists [] [] [] [])).

Definition left_shutdown : M pworld unit := side_shutdown true.
Definition right_shutdown : M pworld unit := side_shutdown false.
Definition proxy_shutdown : M pworld unit := left_shutdown ;;; right_shutdown.

Definition lsize (p : proxy) : Z :=
  let l := px_left p in zlen (sockets l) + zlen (bind_sockets l) + zlen (pc_cx l) + zlen (delayed_accepts l).
Definition rsize (p : proxy) : Z :=
  let l := px_right p in zlen (sockets l) + zlen (bind_sockets l) + zlen (pc_cx l) + zlen (delayed_accepts l).

(** ** Timers *)

(** [clicker::reset_timer]; [timer_interval] is 1. *)
Definition reset_timer : M pworld bool :=
  t <- lift now ;;
  p <- pget id ;;
  if 1 <? u64 (t - last_tick_ p) then
    pset (fun p => set_status (dead p) (handle_last_status p) t (trashcan p) p) ;;; mret_ true
  else mret_ false.

Definition cx_check (idle_check : bool) (i : Z) : M pworld unit :=
  c <- look id i ;;
  lift (modify (fun w => set_net (on_timer (w_net w) c) w)) ;;;
  c <- look id i ;;
  t <- lift now ;;
  when (idle_check && idle_timeout t c) (pset (set_dead true)).

Definition run_timers : M pworld bool :=
  click <- reset_timer ;;
  if click then
    l <- pget px_left ;;
    for_each (cx_check true) (sockets l) ;;;
    for_each (cx_check true) (delayed_accepts l) ;;;
    for_each (cx_check false) (bind_sockets l) ;;;
    for_each (cx_check true) (pc_cx l) ;;;
    r <- pget px_right ;;
    for_each (cx_check true) (sockets r) ;;;
    for_each (cx_check true) (delayed_accepts r) ;;;
    for_each (cx_check false) (bind_sockets r) ;;;
    for_each (cx_check true) (pc_cx r) ;;;
    mret_ true
  else mret_ false.

(** ** Callbacks *)

(** [to_write(from->to_read())]: the reader's buffer is passed by reference. *)
Definition forward_to (from j : Z) : M pworld unit :=
  b <- look readbuf_ from ;;
  b' <- lift (to_write_buffer j b) ;;
  change from (set_readbuf b').

(** [on_left_bytes] and [on_right_bytes]. *)
Definition on_bytes (left : bool) (i : Z) : M pworld unit :=
  lr <- pget px_lr ;;
  if lr then
    o <- pget (side_lists (negb left)) ;;
    for_each (forward_to i) (sockets o) ;;;
    for_each (forward_to i) (pc_cx o) ;;;
    change i (fun c => snd (finish c))
  else mret_ tt.

(** [on_left_error] and [on_right_error] only log. *)
Definition on_error (left : bool) (i : Z) : M pworld unit := o <- look opening_ i ;; mret_ tt.

(** [on_left_pc_error]: no reconnection while opening; [on_right_pc_error]: always. *)
Definition on_left_pc_error (i : Z) : M pworld unit :=
  o <- look opening_ i ;;
  if o then mret_ tt else lift (reconnect i) ;;; mret_ tt.
Definition on_right_pc_error (i : Z) : M pworld unit :=
  o <- look opening_ i ;;
  lift (reconnect i) ;;; mret_ tt.

Definition on_pc_restore (i : Z) : M pworld unit :=
  t <- lift now ;;
  change i (opening false t) ;;;
  s <- look fds_ i ;;
  watch s.

(** The error callback of a side: [if (side == 'l') on_left_error(cx); else ...] *)
Definition report_error (s : side_t) (i : Z) : M pworld unit :=
  match s with
  | L => on_error true i
  | R => on_error false i
  | X => on_left_pc_error i
  | Y => on_right_pc_error i
  end.

(** ** Events of one context *)

(** [handle_cx_events]; [on_left_message] and its sibling do nothing. *)
Definition handle_cx_events (s : side_t) (i : Z) : M pworld bool :=
  t <- lift now ;;
  c <- look id i ;;
  if opening_timeout t c || idle_timeout t c || cx_error c then
    report_error s i ;;; lift (shutdown i) ;;; mret_ false
  else
    msg <- lift (gets (fun w => new_message (w_net w) c)) ;;
    mret_ (negb msg).

Definition handle_cx_read (s : side_t) (i : Z) : M pworld bool :=
  c <- look id i ;;
  rd <- lift (gets (fun w => readable (w_net w) c)) ;;
  forced <- lift (on_flag i forced_read_on_write_reset) ;;
  if rd || forced then
    red <- lift (read i) ;;
    if red =? 0 then
      lift (shutdown i) ;;;
      pset (fun p => error_read (is_left s)
              (or_status (if is_left s then HANDLE_LEFT_ERROR else HANDLE_RIGHT_ERROR) p)) ;;;
      report_error s i ;;;
      mret_ false
    else
      when (0 <? red)
        (pset (fun p => set_stats (last_read p + red) (last_write p) (mtr_down p) (mtr_up p) p) ;;;
         on_bytes (is_left s) i) ;;;
      mret_ true
  else mret_ true.

Definition handle_cx_write (s : side_t) (i : Z) : M pworld bool :=
  c <- look id i ;;
  wr <- lift (gets (fun w => writable (w_net w) c)) ;;
  forced <- lift (on_flag i forced_write_on_read_reset) ;;
  if wr || forced then
    wrt <- lift (write i) ;;
    if wrt <? 0 then
      lift (shutdown i) ;;;
      pset (fun p => error_write (is_left s)
              (or_status (if is_left s then HANDLE_LEFT_ERROR else HANDLE_RIGHT_ERROR) p)) ;;;
      report_error s i ;;;
      mret_ false
    else
      t <- lift now ;;
      pset (fun p =>
        let t := t * second in
        let d := if (0 <? wrt) && is_left s then snd (meter_update t wrt (mtr_down p)) else mtr_down p in
        let u := if (0 <? wrt) && negb (is_left s) then snd (meter_update t wrt (mtr_up p)) else mtr_up p in
        set_stats (last_read p) (last_write p + wrt) d u p) ;;;
      mret_ true
  else mret_ true.

(** [xcom->in_readset(s)] and [in_writeset(s)] on the poller. *)
Definition in_readset (s : Z) : M pworld bool :=
  lift (fun w => let '(b, e) := epoller_in_read_set (w_kernel0 w) (1000 * w_now w) s (w_poll w) in
                 Ret b (set_poll e w)).
Definition in_writeset (s : Z) : M pworld bool :=
  lift (fun w => let '(b, e) := epoller_in_write_set (w_kernel0 w) (1000 * w_now w) s (w_poll w) in
                 Ret b (set_poll e w)).

(** The part of [handle_cx_read_once] before the [failure] label: whether it was left
    without failing. *)
Definition read_once_body (s : side_t) (i : Z) : M pworld bool :=
  c <- look id i ;;
  if fds_ c =? 0 then change i (set_error true) ;;; mret_ false
  else
    p <- pget id ;;
    let dont_read := neck (negb (is_left s)) p in
    waiting <- lift (read_waiting_for_peercom i) ;;
    if negb waiting && negb dont_read then
      forced_read <- lift (on_flag i forced_read_reset) ;;
      in_read_set <- in_readset (fds_ c) ;;
      if in_read_set || forced_read then
        ok <- handle_cx_read s i ;;
        if ok then
          wor <- look (fun c => forced_write_on_read_ (com_ c)) i ;;
          if wor then handle_cx_write s i else mret_ true
        else mret_ false
      else mret_ true
    else mret_ true.

Definition handle_cx_read_once (s : side_t) (i : Z) : M pworld bool :=
  ret <- read_once_body s i ;;
  ev <- handle_cx_events s i ;;
  mret_ (ret && ev).

(** ** The write bottleneck *)

(** One context of [change_monitor_for_cx_vec]; the [pause_] arguments: 0 leaves the
    pause alone, positive pauses, negative unpauses. *)
Definition change_monitor_for_cx (ifread ifwrite : bool) (pause_read pause_write : Z) (i : Z)
  : M pworld unit :=
  s <- look fds_ i ;;
  lift (if ifread && ifwrite then monitor_mode s (Z.lor EPOLLIN EPOLLOUT)
        else if ifread then monitor_mode s EPOLLIN
        else if ifwrite then monitor_mode s EPOLLOUT
        else unmonitor s) ;;;
  when (negb (pause_read =? 0)) (change i (set_read_waiting_for_peercom (0 <? pause_read))) ;;;
  when (negb (pause_write =? 0)) (change i (set_write_waiting_for_peercom (0 <? pause_write))).

Definition change_side_monitoring (left : bool) (ifread ifwrite : bool) (pause_read pause_write : Z)
  : M pworld Z :=
  l <- pget (side_lists left) ;;
  for_each (change_monitor_for_cx ifread ifwrite pause_read pause_write) (sockets l) ;;;
  for_each (change_monitor_for_cx ifread ifwrite pause_read pause_write) (bind_sockets l) ;;;
  mret_ (zlen (sockets l) + zlen (bind_sockets l)).

(** The end of [handle_cx_write_once]: of [orig] pending bytes, [pending] are left. *)
Definition track_bottleneck (s : side_t) (i orig pending : Z) : M pworld unit :=
  if 0 <? orig then
    if 0 <? pending then
      fd <- look fds_ i ;;
      lift (write_monitor fd) ;;;
      pset (set_neck (is_left s) true) ;;;
      change_side_monitoring (negb (is_left s)) false false 1 0 ;;;
      change_side_monitoring (is_left s) true true (-1) (-1) ;;; mret_ tt
    else
      n <- pget (neck (is_left s)) ;;
      when n
        (pset (set_neck (is_left s) false) ;;;
         change_side_monitoring (negb (is_left s)) true false (-1) 0 ;;; mret_ tt)
  else mret_ tt.

Definition handle_cx_write_once (s : side_t) (i : Z) : M pworld bool :=
  c <- look id i ;;
  if fds_ c =? 0 then
    change i (set_error true) ;;; handle_cx_events s i ;;; mret_ false
  else
    waiting <- lift (write_waiting_for_peercom i) ;;
    if waiting then handle_cx_events s i
    else
      in_ws <- in_writeset (fds_ c) ;;
      forced <- lift (on_flag i forced_write_reset) ;;
      c <- look id i ;;
      if in_ws || forced || negb (lb_empty (writebuf_ c)) then
        let orig := lb_size (writebuf_ c) in
        ok <- handle_cx_write s i ;;
        if negb ok then handle_cx_events s i ;;; mret_ false
        else
          pending <- look (fun c => lb_size (writebuf_ c)) i ;;
          row <- look (fun c => forced_read_on_write_ (com_ c)) i ;;
          rok <- (if row then handle_cx_read s i else mret_ true) ;;
          if negb rok then handle_cx_events s i ;;; mret_ false
          else
            track_bottleneck s i orig pending ;;;
            mret_ true
      else mret_ true.

(** ** Accepting *)

(** A context number not in use, never the null pointer. *)
Definition new_id (w : world) : Z := fresh ({[0]} ∪ dom (w_cxs w)).

(** [new_cx(s)] *)
Definition new_cx (s : Z) : M pworld Z :=
  i <- lift (gets new_id) ;;
  lift (new_hostcx i "" "" s com_default) ;;;
  mret_ i.

(** [handle_sockets_accept]; [on_left_new_raw] and its sibling do nothing. *)
Definition handle_sockets_accept (s : side_t) (i : Z) : M pworld bool :=
  fd <- look fds_ i ;;
  client <- lift (fun w => let '(r, n) := com_accept (w_net w) fd in Ret r (set_net n w)) ;;
  if client <? 0 then mret_ false
  else
    raw <- pget new_raw_ ;;
    if raw then mret_ true
    else
      j <- new_cx client ;;
      waiting <- lift (read_waiting_for_peercom j) ;;
      (if negb waiting then lift (on_accept_socket j client) else lift (on_delay_socket j client)) ;;;
      match s with L => add true j | R => add false j | _ => mret_ tt end ;;;
      mret_ true.

(** ** One round of a proxy *)

(** [for (auto i: sockets) if (!f(i)) break;] *)
Fixpoint until_false (f : Z -> M pworld bool) (l : list Z) : M pworld unit :=
  match l with
  | [] => mret_ tt
  | i :: r => ok <- f i ;; if ok then until_false f r else mret_ tt
  end.

Definition pc_error (left : bool) (i : Z) : M pworld unit :=
  if left then on_left_pc_error i else on_right_pc_error i.

(** One permanent context: [true] to go on with the next one. *)
Definition handle_pc (left : bool) (i : Z) : M pworld bool :=
  let s := if left then X else Y in
  let flag := if left then HANDLE_LEFT_PC_ERROR else HANDLE_RIGHT_PC_ERROR in
  t <- lift now ;;
  c <- look id i ;;
  if cx_error c && should_reconnect_now t c then pc_error left i ;;; mret_ false
  else if cx_error c then mret_ false
  else
    r <- handle_cx_read_once s i ;;
    if negb r then
      pset (fun p => error_read left (or_status flag p)) ;;; pc_error left i ;;; mret_ false
    else
      o <- look opening_ i ;;
      when o (on_pc_restore i) ;;;
      c <- look id i ;;
      if cx_error c && should_reconnect_now t c then pc_error left i ;;; mret_ false
      else if cx_error c then mret_ false
      else
        r <- handle_cx_write_once s i ;;
        if negb r then
          pset (fun p => error_write left (or_status flag p)) ;;; pc_error left i ;;; mret_ false
        else
          o <- look opening_ i ;;
          when o (on_pc_restore i) ;;;
          mret_ true.

(** A readable bound socket; without a lock of its own the accept is done, then the
    round is aborted by an exception. *)
Definition accept_bound (left : bool) (i : Z) : M pworld unit :=
  s <- look fds_ i ;;
  ready <- in_readset s ;;
  if ready then
    handle_sockets_accept (if left then L else R) i ;;;
    if fd_locked s then pset (or_status (if left then HANDLE_LEFT_NEW else HANDLE_RIGHT_NEW))
    else throw runtime_error
  else mret_ tt.

(** [accept_from]: delayed contexts whose peer is ready now; the ones left. *)
Fixpoint accept_from (left : bool) (l : list Z) : M pworld (list Z) :=
  match l with
  | [] => mret_ []
  | i :: r =>
      waiting <- lift (read_waiting_for_peercom i) ;;
      if negb waiting then
        s <- look fds_ i ;;
        lift (on_accept_socket i s) ;;;
        add left i ;;;
        accept_from left r
      else
        rest <- accept_from left r ;; mret_ (i :: rest)
  end.

Definition accept_delayed (left : bool) : M pworld unit :=
  l <- pget (side_lists left) ;;
  rest <- accept_from left (delayed_accepts l) ;;
  pset (set_lists left (fun l => mkLists (sockets l) (bind_sockets l) (pc_cx l) rest)).

(** [handle_sockets_once] after a poll that returned [poll_result]. *)
Definition handle_sockets_once (poll_result : Z) : M pworld Z :=
  run_timers ;;;
  pset (fun p => set_errors false false false false (set_stats 0 0 (mtr_down p) (mtr_up p) p)) ;;;
  if 0 <=? poll_result then
    l <- pget px_left ;; until_false (handle_cx_read_once L) (sockets l) ;;;
    r <- pget px_right ;; until_false (handle_cx_read_once R) (sockets r) ;;;
    l <- pget px_left ;; until_false (handle_cx_write_once L) (sockets l) ;;;
    r <- pget px_right ;; until_false (handle_cx_write_once R) (sockets r) ;;;
    l <- pget px_left ;; until_false (handle_pc true) (pc_cx l) ;;;
    r <- pget px_right ;; until_false (handle_pc false) (pc_cx r) ;;;
    (if 0 <? poll_result then
       l <- pget px_left ;; for_each (accept_bound true) (bind_sockets l) ;;;
       accept_delayed true ;;;
       r <- pget px_right ;; for_each (accept_bound false) (bind_sockets r) ;;;
       accept_delayed false
     else mret_ tt) ;;;
    p <- pget id ;;
    mret_ (if poll_result =? 0 then 0 else last_read p + last_write p)
  else mret_ 0.
End proxy.
