(* ===== verification/BaseProxyProps.v ===== *)
(** * BaseProxyProps: the properties of the proxy engine *)

From S2P Require Export BaseProxy HostCXProps.

Section frame.
Context {EK : EpollKernel} {ST : Storage} {CO : Com} {PE : ProxyEnv}.

(** ** Steps that move no data

    [quiet i m]: started where context [i] and its peer exist, [m] returns, keeps every
    context with its buffers, its peer and its read meter, and leaves the proxy object
    alone. *)

Definition same_data (c c' : cx) : Prop :=
  readbuf_ c' = readbuf_ c /\ writebuf_ c' = writebuf_ c /\ peer_ c' = peer_ c /\
  meter_read_bytes c' = meter_read_bytes c.

Definition kept (w w' : world) : Prop :=
  forall j c, w_cxs w !! j = Some c -> exists c', w_cxs w' !! j = Some c' /\ same_data c c'.

Definition alive (i : Z) (w : world) : Prop :=
  exists c, w_cxs w !! i = Some c /\ (peer_ c = 0 \/ is_Some (w_cxs w !! peer_ c)).

Lemma same_data_refl c : same_data c c.
Proof. done. Qed.

Lemma same_data_trans a b c : same_data a b -> same_data b c -> same_data a c.
Proof. intros (?&?&?&?) (?&?&?&?). split; [congruence|]. split_and!; congruence. Qed.

Lemma kept_refl w : kept w w.
Proof. intros j c H. by exists c. Qed.

Lemma kept_trans w1 w2 w3 : kept w1 w2 -> kept w2 w3 -> kept w1 w3.
Proof.
  intros H1 H2 j c Hc. destruct (H1 j c Hc) as (c2 & Hc2 & S2). destruct (H2 j c2 Hc2) as (c3 & Hc3 & S3).
  exists c3. split; [done|]. by eapply same_data_trans.
Qed.

Lemma kept_cxs w w' : w_cxs w' = w_cxs w -> kept w w'.
Proof. intros E j c Hc. exists c. by rewrite E. Qed.

Lemma kept_put i c c' w w' :
  w_cxs w !! i = Some c -> same_data c c' -> w_cxs w' = <[i := c']> (w_cxs w) -> kept w w'.
Proof.
  intros Hc Hs E j d Hd. rewrite E. destruct (decide (i = j)) as [->|Hne].
  - exists c'. rewrite lookup_insert_eq. by replace d with c by congruence.
  - exists d. by rewrite lookup_insert_ne.
Qed.

Lemma alive_kept i w w' : kept w w' -> alive i w -> alive i w'.
Proof.
  intros Hk (c & Hc & Hp). destruct (Hk i c Hc) as (c' & Hc' & (_ & _ & Ep & _)).
  exists c'. split; [done|]. rewrite Ep. destruct Hp as [?|[p Hp]]; [by left|right].
  destruct (Hk _ _ Hp) as (p' & Hp' & _). by exists p'.
Qed.

Definition quietw {A} (i : Z) (m : M world A) : Prop :=
  forall w, alive i w -> exists a w', m w = Ret a w' /\ kept w w'.

Definition quiet {A} (i : Z) (m : M pworld A) : Prop :=
  forall u, alive i (pw u) -> exists a u', m u = Ret a u' /\ kept (pw u) (pw u') /\ px u' = px u.

Lemma quietw_ret {A} i (a : A) : quietw i (mret_ a).
Proof. intros w _. exists a, w. by split; [|apply kept_refl]. Qed.

Lemma quietw_bind {A B} i (m : M world A) (k : A -> M world B) :
  quietw i m -> (forall a, quietw i (k a)) -> quietw i (mbind_ m k).
Proof.
  intros Hm Hk w Ha. destruct (Hm w Ha) as (a & w1 & E & K1).
  destruct (Hk a w1 (alive_kept _ _ _ K1 Ha)) as (b & w2 & E2 & K2).
  exists b, w2. split; [by rewrite (bind_ret _ _ _ _ _ E)|]. by eapply kept_trans.
Qed.

Lemma quietw_polling i f : quietw i (polling f).
Proof. intros w _. eexists _, _. split; [done|]. by apply kept_cxs. Qed.

Lemma quietw_gets {A} i (f : world -> A) : quietw i (gets f).
Proof. intros w _. eexists _, _. split; [done|]. apply kept_refl. Qed.

Lemma quietw_upd i f : (forall c, same_data c (f c)) -> quietw i (upd i f).
Proof.
  intros Hf w (c & Hc & _). eexists _, _. split; [by apply upd_ret|].
  by eapply kept_put.
Qed.

Lemma quietw_the i : quietw i (the i).
Proof. intros w (c & Hc & _). exists c, w. unfold the. rewrite Hc. split; [done|]. apply kept_refl. Qed.

Lemma quietw_field {A} (f : cx -> A) i : quietw i (field f i).
Proof. apply quietw_bind; [apply quietw_the|]. intros. apply quietw_ret. Qed.

Lemma on_com_kept {A} j c f w (a : A) k n :
  w_cxs w !! j = Some c -> f (w_net w) (com_ c) = (a, k, n) ->
  exists w', on_com j f w = Ret a w' /\ kept w w'.
Proof.
  intros Hc E. unfold on_com. rewrite Hc, E. eexists. split; [done|].
  eapply (kept_put j c (set_com k c)); [done| |done]. by split_and!.
Qed.

Lemma quietw_on_com {A} i (f : net -> comst -> A * comst * net) : quietw i (on_com i f).
Proof.
  intros w (c & Hc & _). destruct (f (w_net w) (com_ c)) as [[a k] n] eqn:E.
  exists a. by eapply on_com_kept.
Qed.

Lemma quietw_on_flag i f : quietw i (on_flag i f).
Proof. apply quietw_on_com. Qed.

Lemma quietw_when i b (m : M world unit) : quietw i m -> quietw i (when b m).
Proof. intros H. destruct b; [done|apply quietw_ret]. Qed.

Lemma quietw_if {A} i (b : bool) (m k : M world A) :
  quietw i m -> quietw i k -> quietw i (if b then m else k).
Proof. by destruct b. Qed.

Lemma quietw_unhandle i : quietw i (unhandle i).
Proof.
  apply quietw_bind; [apply quietw_the|]. intros c. apply quietw_if; [|apply quietw_when];
    (apply quietw_bind; [apply quietw_polling|intros; apply quietw_polling]).
Qed.

Lemma quietw_shutdown i : quietw i (shutdown i).
Proof.
  apply quietw_bind; [by apply quietw_upd|]. intros _.
  apply quietw_bind; [apply quietw_the|]. intros c. apply quietw_when.
  apply quietw_bind; [by apply quietw_upd|]. intros _.
  apply quietw_bind; [apply quietw_on_com|]. intros _.
  apply quietw_bind; [apply quietw_unhandle|]. intros _. by apply quietw_upd.
Qed.

Lemma same_data_opening b t c : same_data c (opening b t c).
Proof. unfold opening. destruct b; by split_and!. Qed.

Lemma quietw_connect i : quietw i (connect i).
Proof.
  apply quietw_bind; [apply quietw_gets|]. intros t.
  apply quietw_bind; [apply quietw_upd; intros; apply same_data_opening|]. intros _.
  apply quietw_bind; [apply quietw_the|]. intros c.
  apply quietw_bind; [apply quietw_on_com|]. intros fd.
  apply quietw_bind; [by apply quietw_upd|]. intros _.
  apply quietw_bind; [apply quietw_gets|]. intros bl.
  apply quietw_bind; [apply quietw_when, quietw_upd; intros; apply same_data_opening|].
  intros _. apply quietw_ret.
Qed.

Lemma quietw_reconnect i : quietw i (reconnect i).
Proof.
  apply quietw_bind; [apply quietw_gets|]. intros t.
  apply quietw_bind; [apply quietw_the|]. intros c.
  apply quietw_if; [|apply quietw_if; [apply quietw_ret|apply quietw_if; [|apply quietw_ret]]].
  - apply quietw_bind; [apply quietw_shutdown|]. intros _.
    apply quietw_bind; [apply quietw_connect|]. intros _.
    apply quietw_bind; [by apply quietw_upd|]. intros _. apply quietw_ret.
  - apply quietw_bind; [by apply quietw_upd|]. intros _. apply quietw_ret.
Qed.

(** The peer's com is consulted, its data is not. *)
Lemma quietw_read_waiting i : quietw i (read_waiting_for_peercom i).
Proof.
  intros w Ha. pose proof Ha as (c & Hc & Hp). unfold read_waiting_for_peercom.
  rewrite (bind_the i c) by done.
  assert (Htail : forall w', kept w w' ->
    exists b w'', field read_waiting_for_peercom_ i w' = Ret b w'' /\ kept w w'').
  { intros w' K. destruct (quietw_field read_waiting_for_peercom_ i w' (alive_kept _ _ _ K Ha)) as (b & w'' & E & K').
    exists b, w''. split; [done|]. by eapply kept_trans. }
  destruct (read_waiting_for_peercom_ c && negb (peer_ c =? 0)) eqn:Eb.
  2: { apply Htail, kept_refl. }
  apply andb_prop in Eb as [_ Hp0%negb_true_iff%Z.eqb_neq].
  destruct Hp as [?|[p Hp]]; [done|]. rewrite bind_assoc.
  destruct (com_status (w_net w) (com_ p)) as [[st k] n] eqn:Est.
  destruct (on_com_kept (peer_ c) p com_status w st k n Hp Est) as (w1 & E1 & K1).
  rewrite (bind_ret _ _ _ _ _ E1).
  assert (quietw i (upd i (fun c => set_com_not_ready_counter 0 (set_read_waiting_for_peercom false c)))) as Q1
    by (by apply quietw_upd).
  destruct st.
  - destruct (Q1 w1 (alive_kept _ _ _ K1 Ha)) as (a & w2 & E2 & K2). rewrite (bind_ret _ _ _ _ _ E2).
    apply Htail. by eapply kept_trans.
  - rewrite bind_assoc.
    assert (quietw i (not_ready i)) as Q2
      by (apply quietw_bind; [by apply quietw_upd|intros; apply quietw_field]).
    destruct (Q2 w1 (alive_kept _ _ _ K1 Ha)) as (m & w2 & E2 & K2). rewrite (bind_ret _ _ _ _ _ E2).
    assert (kept w w2) as K12 by (by eapply kept_trans).
    destruct (K12 _ _ Hp) as (p2 & Hp2 & _). unfold field at 1.
    rewrite bind_assoc, bind_assoc, (bind_the (peer_ c) p2), bind_pure by done.
    case_if; (unfold rescan_in, monitor; rewrite bind_polling; apply Htail;
      eapply kept_trans; [exact K12|by apply kept_cxs]).
Qed.

(** Lifting to the proxy. *)
Lemma quiet_lift {A} i (m : M world A) : quietw i m -> quiet i (lift m).
Proof.
  intros H u Ha. destruct (H (pw u) Ha) as (a & w' & E & K).
  exists a, (mkPworld w' (px u)). unfold lift. by rewrite E.
Qed.

Lemma quiet_ret {A} i (a : A) : quiet i (mret_ a).
Proof. intros u _. exists a, u. split; [done|]. split; [apply kept_refl|done]. Qed.

Lemma quiet_bind {A B} i (m : M pworld A) (k : A -> M pworld B) :
  quiet i m -> (forall a, quiet i (k a)) -> quiet i (mbind_ m k).
Proof.
  intros Hm Hk u Ha. destruct (Hm u Ha) as (a & u1 & E & K1 & P1).
  destruct (Hk a u1 (alive_kept _ _ _ K1 Ha)) as (b & u2 & E2 & K2 & P2).
  exists b, u2. split; [by rewrite (bind_ret _ _ _ _ _ E)|]. split; [by eapply kept_trans|congruence].
Qed.

Lemma quiet_look {A} (f : cx -> A) i : quiet i (look f i).
Proof. apply quiet_lift, quietw_field. Qed.

Lemma quiet_report_error s i : quiet i (report_error s i).
Proof.
  destruct s; simpl; (apply quiet_bind; [apply quiet_look|]); intros o; try apply quiet_ret.
  - destruct o; [apply quiet_ret|].
    apply quiet_bind; [apply quiet_lift, quietw_reconnect|]. intros. apply quiet_ret.
  - apply quiet_bind; [apply quiet_lift, quietw_reconnect|]. intros. apply quiet_ret.
Qed.

(** [handle_cx_events] moves no data, whatever it reports. *)
Lemma quiet_events s i : quiet i (handle_cx_events s i).
Proof.
  apply quiet_bind; [apply quiet_lift, quietw_gets|]. intros t.
  apply quiet_bind; [apply quiet_look|]. intros c.
  destruct (_ || _ || _).
  - apply quiet_bind; [apply quiet_report_error|]. intros _.
    apply quiet_bind; [apply quiet_lift, quietw_shutdown|]. intros _. apply quiet_ret.
  - apply quiet_bind; [apply quiet_lift, quietw_gets|]. intros. apply quiet_ret.
Qed.

(** Back pressure: while the other side's write bottleneck is set, a read round
    of any context of this side - whatever its socket, its peer and its error state -
    returns without reading: no context's buffers or read meter change. *)
Theorem bottleneck_blocks_reads s i u :
  alive i (pw u) -> neck (negb (is_left s)) (px u) = true ->
  exists r u', handle_cx_read_once s i u = Ret r u' /\ kept (pw u) (pw u') /\ px u' = px u.
Proof.
  intros Ha Hn. unfold handle_cx_read_once.
  assert (exists r u1, read_once_body s i u = Ret r u1 /\ kept (pw u) (pw u1) /\ px u1 = px u)
    as (r & u1 & E1 & K1 & P1).
  { unfold read_once_body.
    destruct (quiet_look id i u Ha) as (c & u1 & E1 & K1 & P1). rewrite (bind_ret _ _ _ _ _ E1).
    destruct (fds_ c =? 0).
    - assert (quiet i (change i (set_error true) ;;; mret_ false)) as Q
        by (apply quiet_bind; [apply quiet_lift; by apply quietw_upd|intros; apply quiet_ret]).
      destruct (Q u1 (alive_kept _ _ _ K1 Ha)) as (a & u2 & E2 & K2 & P2).
      exists a, u2. split; [done|]. split; [by eapply kept_trans|congruence].
    - change (mbind_ (pget id) ?k u1) with (k (px u1) u1). rewrite P1, Hn.
      assert (quiet i (lift (read_waiting_for_peercom i))) as Q by apply quiet_lift, quietw_read_waiting.
      destruct (Q u1 (alive_kept _ _ _ K1 Ha)) as (b & u2 & E2 & K2 & P2).
      rewrite (bind_ret _ _ _ _ _ E2), andb_false_r. exists true, u2.
      split; [done|]. split; [by eapply kept_trans|congruence]. }
  rewrite (bind_ret _ _ _ _ _ E1).
  destruct (quiet_events s i u1 (alive_kept _ _ _ K1 Ha)) as (b & u2 & E2 & K2 & P2).
  rewrite (bind_ret _ _ _ _ _ E2). eexists _, u2. split; [reflexivity|].
  split; [by eapply kept_trans|congruence].
Qed.

(** ** Shutting the proxy down

    Closing steps keep every context with its buffers; a context once closed stays closed
    and once unpeered stays unpeered. *)

Definition settled (w w' : world) : Prop :=
  forall j c, w_cxs w !! j = Some c -> exists c', w_cxs w' !! j = Some c' /\
    readbuf_ c' = readbuf_ c /\ writebuf_ c' = writebuf_ c /\
    (fds_ c = 0 -> fds_ c' = 0) /\ (peer_ c = 0 -> peer_ c' = 0).

Lemma settled_refl w : settled w w.
Proof. intros j c H. by exists c. Qed.

Lemma settled_trans w1 w2 w3 : settled w1 w2 -> settled w2 w3 -> settled w1 w3.
Proof.
  intros H1 H2 j c Hc. destruct (H1 j c Hc) as (c2 & Hc2 & ? & ? & ? & ?).
  destruct (H2 j c2 Hc2) as (c3 & Hc3 & ? & ? & ? & ?).
  exists c3. split; [done|]. split; [congruence|]. split; [congruence|]. by split; auto.
Qed.

Lemma settled_put i c c' w w' :
  w_cxs w !! i = Some c -> w_cxs w' = <[i := c']> (w_cxs w) ->
  readbuf_ c' = readbuf_ c -> writebuf_ c' = writebuf_ c ->
  (fds_ c = 0 -> fds_ c' = 0) -> (peer_ c = 0 -> peer_ c' = 0) -> settled w w'.
Proof.
  intros Hc E ? ? ? ? j d Hd. rewrite E. destruct (decide (i = j)) as [->|Hne].
  - exists c'. rewrite lookup_insert_eq. by replace d with c by congruence.
  - exists d. by rewrite lookup_insert_ne.
Qed.

(** A step [f] that brings one context into a stable condition [P], and the proxy object
    from [p] to [g p i], brings all the contexts of a list there. *)
Definition reaches (P : cx -> Prop) (g : proxy -> Z -> proxy) (f : Z -> M pworld unit) : Prop :=
  forall i u, is_Some (w_cxs (pw u) !! i) ->
    exists u' c', f i u = Ret tt u' /\ settled (pw u) (pw u') /\ px u' = g (px u) i /\
      w_cxs (pw u') !! i = Some c' /\ P c'.

Definition stable (P : cx -> Prop) : Prop :=
  forall c c', (fds_ c = 0 -> fds_ c' = 0) -> (peer_ c = 0 -> peer_ c' = 0) -> P c -> P c'.

Definition at_all (P : cx -> Prop) (l : list Z) (w : world) : Prop :=
  forall j, j ∈ l -> exists c, w_cxs w !! j = Some c /\ P c.

Definition exist_in (w : world) (l : list Z) : Prop := at_all (fun _ => True) l w.
Definition closed_cx (c : cx) : Prop := fds_ c = 0.
Definition unpeered_cx (c : cx) : Prop := peer_ c = 0.

Lemma closed_stable : stable closed_cx.
Proof. intros c c' H _. apply H. Qed.

Lemma unpeered_stable : stable unpeered_cx.
Proof. intros c c' _ H. apply H. Qed.

Lemma at_all_settled P l w w' : stable P -> settled w w' -> at_all P l w -> at_all P l w'.
Proof.
  intros HP Hs Ha j Hj. destruct (Ha j Hj) as (c & Hc & Pc).
  destruct (Hs j c Hc) as (c' & Hc' & _ & _ & F & G). exists c'. split; [done|]. by eapply HP.
Qed.

Lemma exist_settled l w w' : settled w w' -> exist_in w l -> exist_in w' l.
Proof. intros Hs. by apply at_all_settled. Qed.

Lemma at_all_app P l k w : at_all P l w -> at_all P k w -> at_all P (l ++ k) w.
Proof. intros H1 H2 j [Hj|Hj]%elem_of_app; auto. Qed.

Lemma exist_sub w l k : exist_in w l -> (forall j, j ∈ k -> j ∈ l) -> exist_in w k.
Proof. intros H Hk j Hj. by apply H, Hk. Qed.

Lemma for_each_reaches P g f l u :
  reaches P g f -> stable P -> exist_in (pw u) l ->
  exists u', for_each f l u = Ret tt u' /\ settled (pw u) (pw u') /\
    px u' = foldl g (px u) l /\ at_all P l (pw u').
Proof.
  intros Hf HP. revert u. induction l as [|i r IH]; intros u Hl.
  - exists u. split; [done|]. split; [apply settled_refl|]. split; [done|]. by intros j ?%not_elem_of_nil.
  - destruct (Hl i) as (c & Hc & _); [left|].
    destruct (Hf i u) as (u1 & c1 & E1 & S1 & X1 & Hc1 & P1); [by exists c|].
    destruct (IH u1) as (u2 & E2 & S2 & X2 & A2).
    { apply (exist_sub _ (i :: r)); [by eapply exist_settled|]. intros j Hj. by right. }
    exists u2. split; [simpl; by rewrite (bind_ret _ _ _ _ _ E1)|]. split; [by eapply settled_trans|].
    split; [simpl; by rewrite <- X1|]. intros j [->|Hj]%elem_of_cons; [|by apply A2].
    apply (at_all_settled P [i] _ _ HP S2); [|left]. intros k ->%list_elem_of_singleton. by exists c1.
Qed.

Lemma shutdown_reaches : reaches closed_cx (fun p _ => p) (fun i => lift (shutdown i)).
Proof.
  intros i u [c Hc]. destruct (shutdown_ret i c (pw u) Hc) as
    (c' & p & n & E & Hf & _ & Hr & Hw & _ & _ & _ & _ & _ & _ & Hp & _).
  exists (mkPworld (put_cx i c' (set_poll p (set_net n (pw u)))) (px u)), c'.
  unfold lift. rewrite E. split; [done|]. split; [|split; [done|split; [apply put_cx_lookup|done]]].
  apply (settled_put i c c'); try done. by rewrite Hp.
Qed.

Lemma foldl_const (l : list Z) (p : proxy) : foldl (fun q _ => q) p l = p.
Proof. by induction l. Qed.

(** What [drop_cx] does to the proxy object. *)
Definition trash (p : proxy) (i : Z) : proxy :=
  set_status (dead p) (handle_last_status p) (last_tick_ p) (trashcan p ++ [i]) p.

Lemma drop_reaches : reaches unpeered_cx trash drop_cx.
Proof.
  intros i u [c Hc]. exists (mkPworld (put_cx i (set_peer 0 c) (pw u)) (trash (px u) i)), (set_peer 0 c).
  unfold drop_cx, peer, lift. split.
  - unfold mbind_ at 1. by rewrite (upd_ret i c).
  - split; [by eapply settled_put|]. split; [done|]. split; [apply put_cx_lookup|done].
Qed.

Lemma trash_fold l p :
  trashcan (foldl trash p l) = trashcan p ++ l /\
  forall left, side_lists left (foldl trash p l) = side_lists left p.
Proof.
  revert p. induction l as [|i r IH]; intros p; simpl; [by rewrite app_nil_r|].
  destruct (IH (trash p i)) as [-> H]. split; [simpl; by rewrite <- app_assoc|]. intros left.
  rewrite H. by destruct left.
Qed.

(** Every context on a side's lists. *)
Definition members (l : lists) : list Z := bind_sockets l ++ sockets l ++ pc_cx l ++ delayed_accepts l.

Lemma side_shutdown_ret left u :
  exist_in (pw u) (members (side_lists left (px u))) ->
  exists u', side_shutdown left u = Ret tt u' /\ settled (pw u) (pw u') /\
    side_lists left (px u') = mkLists [] [] [] [] /\
    side_lists (negb left) (px u') = side_lists (negb left) (px u) /\
    trashcan (px u') = trashcan (px u) ++ members (side_lists left (px u)) /\
    at_all closed_cx (members (side_lists left (px u))) (pw u') /\
    at_all unpeered_cx (members (side_lists left (px u))) (pw u').
Proof.
  set (l := side_lists left (px u)). intros Hl.
  change (side_shutdown left u) with (mbind_ (pget (side_lists left)) (fun l =>
    for_each (fun i => lift (shutdown i)) (members l) ;;;
    for_each drop_cx (bind_sockets l) ;;; for_each drop_cx (sockets l) ;;;
    for_each drop_cx (pc_cx l) ;;; for_each drop_cx (delayed_accepts l) ;;;
    pset (set_lists left (fun _ => mkLists [] [] [] []))) u).
  rewrite (bind_ret _ _ _ l u) by done.
  destruct (for_each_reaches _ _ _ (members l) u shutdown_reaches closed_stable Hl)
    as (u0 & E0 & S0 & X0 & A0).
  assert (px u0 = px u) as Xu by (by rewrite X0, foldl_const).
  rewrite (bind_ret _ _ _ _ _ E0).
  assert (forall v k, settled (pw u) (pw v) -> (forall j, j ∈ k -> j ∈ members l) ->
    exists v', for_each drop_cx k v = Ret tt v' /\ settled (pw v) (pw v') /\ settled (pw u) (pw v') /\
      px v' = foldl trash (px v) k /\ at_all unpeered_cx k (pw v')) as Hd.
  { intros v k Hs Hk.
    destruct (for_each_reaches _ _ _ k v drop_reaches unpeered_stable) as (v' & ? & ? & ? & ?).
    { eapply exist_settled; [exact Hs|]. by eapply exist_sub. }
    exists v'. split; [done|]. split; [done|]. split; [by eapply settled_trans|]. done. }
  destruct (Hd u0 (bind_sockets l) S0) as (u1 & E1 & S1 & T1 & X1 & A1); [set_solver|].
  destruct (Hd u1 (sockets l) T1) as (u2 & E2 & S2 & T2 & X2 & A2); [set_solver|].
  destruct (Hd u2 (pc_cx l) T2) as (u3 & E3 & S3 & T3 & X3 & A3); [set_solver|].
  destruct (Hd u3 (delayed_accepts l) T3) as (u4 & E4 & S4 & T4 & X4 & A4); [set_solver|].
  rewrite (bind_ret _ _ _ _ _ E1), (bind_ret _ _ _ _ _ E2), (bind_ret _ _ _ _ _ E3), (bind_ret _ _ _ _ _ E4).
  assert (px u4 = foldl trash (px u) (members l)) as X.
  { unfold members. by rewrite X4, X3, X2, X1, Xu, !foldl_app. }
  pose proof (trash_fold (members l) (px u)) as [Ht Hs]. rewrite <- X in Ht, Hs.
  eexists. split; [reflexivity|]. simpl. split; [exact T4|].
  split; [by destruct left|].
  split; [rewrite <- (Hs (negb left)); by destruct left|].
  split; [exact Ht|]. split.
  - eapply at_all_settled, A0; [apply closed_stable|]. by do 3 (eapply settled_trans; [eassumption|]).
  - unfold members. repeat apply at_all_app; [..|exact A4];
      (eapply at_all_settled; [apply unpeered_stable| |eassumption]);
      repeat (eassumption || (eapply settled_trans; [eassumption|])).
Qed.

(** [baseProxy::shutdown] on a proxy whose listed contexts exist returns, empties
    the four lists of both sides (so [lsize] and [rsize] are 0), appends exactly the listed
    contexts to the trash can in the order the lists are closed, and leaves each of them
    with no descriptor in [fds_] and no peer; no context's buffered bytes are touched. *)
Theorem shutdown_complete u :
  exist_in (pw u) (members (px_left (px u)) ++ members (px_right (px u))) ->
  exists u', proxy_shutdown u = Ret tt u' /\
    lsize (px u') = 0 /\ rsize (px u') = 0 /\
    trashcan (px u') = trashcan (px u) ++ members (px_left (px u)) ++ members (px_right (px u)) /\
    (forall j, j ∈ members (px_left (px u)) ++ members (px_right (px u)) ->
       exists c c', w_cxs (pw u) !! j = Some c /\ w_cxs (pw u') !! j = Some c' /\
         fds_ c' = 0 /\ peer_ c' = 0 /\ readbuf_ c' = readbuf_ c /\ writebuf_ c' = writebuf_ c).
Proof.
  intros He.
  destruct (side_shutdown_ret true u) as (u1 & E1 & S1 & L1 & R1 & T1 & C1 & P1).
  { eapply exist_sub; [exact He|]. intros j Hj. apply elem_of_app. by left. }
  simpl in L1, R1, T1, C1, P1.
  destruct (side_shutdown_ret false u1) as (u2 & E2 & S2 & R2 & L2 & T2 & C2 & P2).
  { simpl. rewrite R1. eapply exist_settled; [exact S1|]. eapply exist_sub; [exact He|].
    intros j Hj. apply elem_of_app. by right. }
  simpl in R2, L2, T2, C2, P2. rewrite R1 in T2, C2, P2.
  exists u2. unfold proxy_shutdown, left_shutdown, right_shutdown.
  rewrite (bind_ret _ _ _ _ _ E1). split; [exact E2|].
  split; [unfold lsize; by rewrite L2, L1|]. split; [unfold rsize; by rewrite R2|].
  split; [by rewrite T2, T1, <- app_assoc|].
  pose proof (at_all_app _ _ _ _ (at_all_settled _ _ _ _ closed_stable S2 C1) C2) as HC.
  pose proof (at_all_app _ _ _ _ (at_all_settled _ _ _ _ unpeered_stable S2 P1) P2) as HP.
  intros j Hj. destruct (He j Hj) as (c & Hc & _). destruct (HC j Hj) as (c' & Hc' & Hf).
  destruct (HP j Hj) as (c2 & Hc2 & Hp). rewrite Hc' in Hc2. injection Hc2 as <-.
  destruct (settled_trans _ _ _ S1 S2 j c Hc) as (c3 & Hc3 & Hr & Hw & _).
  rewrite Hc' in Hc3. injection Hc3 as <-. by exists c, c'.
Qed.
(** ** Forwarding *)

(** [to_write(buffer&)] takes its fast lane: it swaps the reader's buffer in. *)
Definition fast_lane (c : cx) : bool := lb_empty (writebuf_ c) && (fast_copy_start <? meter_write_bytes c).

Definition fast_at (w : world) (j : Z) : bool :=
  match w_cxs w !! j with Some c => fast_lane c | None => false end.

Definition out_data (w : world) (j : Z) : bytes :=
  match w_cxs w !! j with Some c => lb_data (writebuf_ c) | None => [] end.

Definition in_data (w : world) (i : Z) : bytes :=
  match w_cxs w !! i with Some c => lb_data (readbuf_ c) | None => [] end.

Lemma bind_look {A B} i c (f : cx -> A) (k : A -> M pworld B) u :
  w_cxs (pw u) !! i = Some c -> mbind_ (look f i) k u = k (f c) u.
Proof. intros H. destruct u as [w p]. unfold mbind_, look, lift, field, mbind_, the. simpl in *. by rewrite H. Qed.

Lemma bind_change {A} i c f (k : unit -> M pworld A) u :
  w_cxs (pw u) !! i = Some c -> mbind_ (change i f) k u = k tt (mkPworld (put_cx i (f c) (pw u)) (px u)).
Proof. intros H. unfold mbind_, change, lift. by rewrite (upd_ret i c). Qed.

Lemma change_ret i c f u :
  w_cxs (pw u) !! i = Some c -> change i f u = Ret tt (mkPworld (put_cx i (f c) (pw u)) (px u)).
Proof. intros H. unfold change, lift. by rewrite (upd_ret i c). Qed.

Lemma bind_lift {A B} (m : M world A) (k : A -> M pworld B) u a w :
  m (pw u) = Ret a w -> mbind_ (lift m) k u = k a (mkPworld w (px u)).
Proof. intros H. unfold mbind_, lift. by rewrite H. Qed.

(** One target: it gets what the reader's buffer holds; the fast lane leaves the reader's
    buffer empty. *)
Lemma forward_to_ret i j u c d :
  i <> j -> w_cxs (pw u) !! i = Some c -> w_cxs (pw u) !! j = Some d ->
  exists u' b' d', forward_to i j u = Ret tt u' /\ px u' = px u /\
    w_cxs (pw u') = <[i := set_readbuf b' c]> (<[j := d']> (w_cxs (pw u))) /\
    lb_data b' = (if fast_lane d then [] else lb_data (readbuf_ c)) /\
    lb_data (writebuf_ d') = lb_data (writebuf_ d) ++ lb_data (readbuf_ c).
Proof.
  intros Hne Hc Hd.
  assert (exists b' d' p, to_write_buffer j (readbuf_ c) (pw u) = Ret b' (set_poll p (put_cx j d' (pw u))) /\
    lb_data b' = (if fast_lane d then [] else lb_data (readbuf_ c)) /\
    lb_data (writebuf_ d') = lb_data (writebuf_ d) ++ lb_data (readbuf_ c)) as (b' & d' & p & E & Hb & Hw).
  { unfold to_write_buffer. rewrite (bind_the j d) by done. fold (fast_lane d). destruct (fast_lane d) eqn:F.
    - rewrite bind_assoc, (bind_upd j d), bind_pure by done. eexists _, _, _. split; [reflexivity|].
      split; [done|]. apply andb_prop in F as [F _]. unfold lb_empty, lb_size in F. simpl.
      apply Z.eqb_eq in F. destruct (lb_data (writebuf_ d)) as [|x l]; [done|].
      rewrite zlen_cons in F. pose proof (zlen_nonneg l). lia.
    - rewrite bind_assoc, (bind_upd j d), bind_pure by done. eexists _, _, _. split; [reflexivity|].
      split; [done|]. simpl. apply lb_append_data. }
  exists (mkPworld (put_cx i (set_readbuf b' c) (set_poll p (put_cx j d' (pw u)))) (px u)), b', d'.
  split; [|done]. unfold forward_to.
  rewrite (bind_look i c) by done.
  rewrite (bind_lift _ _ _ _ _ E). refine (change_ret i c (set_readbuf b') (mkPworld _ _) _).
  simpl. by rewrite lookup_insert_ne.
Qed.

Lemma finish_empties c :
  lb_data (readbuf_ c) = [] \/ processed_in_ c = lb_size (readbuf_ c) ->
  lb_data (readbuf_ (snd (finish c))) = [].
Proof.
  intros H. unfold finish. destruct (_ && _); [|destruct (lb_empty (readbuf_ c)) eqn:F]; simpl.
  - destruct H as [H| ->]; [|apply lb_flush_all]. unfold lb_flush. case_if; [done|]. simpl.
    rewrite H. unfold zdrop. by destruct (Z.to_nat _).
  - apply Z.eqb_eq in F. unfold lb_size in F. destruct (lb_data (readbuf_ c)) as [|x l]; [done|].
    rewrite zlen_cons in F. pose proof (zlen_nonneg l). lia.
  - apply lb_flush_all.
Qed.

Lemma for_each_app f l k u :
  for_each f (l ++ k) u = (for_each f l ;;; for_each f k) u.
Proof.
  revert u. induction l as [|i r IH]; intros u; [done|]. simpl. rewrite bind_assoc.
  unfold mbind_ at 1 2. destruct (f i u); [apply IH|done..].
Qed.

Lemma forward_all i js u :
  NoDup js -> i ∉ js -> exist_in (pw u) (i :: js) ->
  exists u', for_each (forward_to i) js u = Ret tt u' /\ px u' = px u /\
    (forall k, k <> i -> k ∉ js -> w_cxs (pw u') !! k = w_cxs (pw u) !! k) /\
    (exists c b, w_cxs (pw u) !! i = Some c /\ w_cxs (pw u') !! i = Some (set_readbuf b c) /\
       lb_data b = if existsb (fast_at (pw u)) js then [] else in_data (pw u) i) /\
    (forall pre j post, js = pre ++ j :: post ->
       out_data (pw u') j = out_data (pw u) j ++ (if existsb (fast_at (pw u)) pre then [] else in_data (pw u) i)).
Proof.
  revert u. induction js as [|j r IH]; intros u Hnd Hi He.
  - destruct (He i) as (c & Hc & _); [left|]. exists u. split; [done|]. split; [done|]. split; [done|].
    split; [|by intros [|] ? ? ?]. exists c, (readbuf_ c). split; [done|]. unfold in_data. rewrite Hc.
    split; [f_equal; by destruct c|done].
  - destruct (He i) as (c & Hc & _); [left|]. destruct (He j) as (d & Hd & _); [right; left|].
    apply NoDup_cons in Hnd as [Hj Hnd]. apply not_elem_of_cons in Hi as [Hij Hi].
    destruct (forward_to_ret i j u c d Hij Hc Hd) as (u1 & b1 & d1 & E1 & X1 & W1 & Hb & Hw).
    assert (forall k, k <> i -> k <> j -> w_cxs (pw u1) !! k = w_cxs (pw u) !! k) as Hk.
    { intros k ? ?. by rewrite W1, !lookup_insert_ne. }
    assert (w_cxs (pw u1) !! i = Some (set_readbuf b1 c)) as Hc1 by by rewrite W1, lookup_insert_eq.
    destruct (IH u1 Hnd Hi) as (u2 & E2 & X2 & K2 & (c2 & b2 & Hc2 & Hb2 & D2) & O2).
    { intros k [->|Hkr]%elem_of_cons; [by eexists|]. destruct (He k) as (e & He' & _); [by right; right|].
      exists e. rewrite Hk; [done| |]; by intros ->. }
    assert (forall l, (forall k, k ∈ l -> k ∈ r) -> existsb (fast_at (pw u1)) l = existsb (fast_at (pw u)) l) as Hf.
    { induction l as [|k l IHl]; intros Hl; [done|]. simpl. rewrite IHl; [|set_solver]. f_equal.
      unfold fast_at. assert (k ∈ r) by set_solver. rewrite Hk; [done| |]; by intros ->. }
    assert (in_data (pw u1) i = if fast_at (pw u) j then [] else in_data (pw u) i) as Hin.
    { unfold in_data, fast_at. rewrite Hc1, Hc, Hd. exact Hb. }
    exists u2. split; [simpl; by rewrite (bind_ret _ _ _ _ _ E1)|]. split; [congruence|]. split.
    { intros k Hki [Hkj Hkr]%not_elem_of_cons. rewrite K2, Hk by done. done. }
    split.
    { exists c, b2. split; [done|]. rewrite Hc1 in Hc2. injection Hc2 as <-. split; [by rewrite Hb2|].
      rewrite D2, Hin, Hf by done. cbn [existsb].
      destruct (fast_at (pw u) j); simpl; [by case_if|done]. }
    intros [|j' pre] k post [= <- Er].
    + unfold out_data at 1. rewrite (K2 j); [|congruence|done]. rewrite W1, lookup_insert_ne, lookup_insert_eq by done.
      unfold out_data, in_data. rewrite Hd, Hc. exact Hw.
    + rewrite (O2 pre k post Er), Hin, Hf by set_solver.
      assert (k ∈ r) by set_solver. unfold out_data. rewrite Hk by congruence. cbn [existsb].
      destruct (fast_at (pw u) j); simpl; [by case_if|done].
Qed.

(** A [SimpleLRProxy] that read bytes on one side: walking the opposite side's
    regular then permanent contexts, each of them gets all the reader's bytes appended to
    its output - until the first one whose output is empty and has sent more than
    [fast_copy_start] bytes, which swaps the reader's buffer away: the contexts after it
    get nothing. The reader's buffer ends up empty, and no other context changes. *)
Theorem lr_forwarding left i u :
  let o := side_lists (negb left) (px u) in
  let js := sockets o ++ pc_cx o in
  px_lr (px u) = true -> NoDup js -> i ∉ js -> exist_in (pw u) (i :: js) ->
  (forall c, w_cxs (pw u) !! i = Some c -> processed_in_ c = lb_size (readbuf_ c)) ->
  exists u', on_bytes left i u = Ret tt u' /\ px u' = px u /\ in_data (pw u') i = [] /\
    (forall k, k <> i -> k ∉ js -> w_cxs (pw u') !! k = w_cxs (pw u) !! k) /\
    (forall pre j post, js = pre ++ j :: post ->
       out_data (pw u') j = out_data (pw u) j ++
         (if existsb (fast_at (pw u)) pre then [] else in_data (pw u) i)).
Proof.
  intros o js Hlr Hnd Hi He Hp.
  destruct (forward_all i js u Hnd Hi He) as (u1 & E1 & X1 & K1 & (c & b & Hc & Hb & Db) & O1).
  pose proof (for_each_app (forward_to i) (sockets o) (pc_cx o) u) as Happ. fold js in Happ.
  set (c1 := set_readbuf b c) in *.
  exists (mkPworld (put_cx i (snd (finish c1)) (pw u1)) (px u1)).
  split.
  { unfold on_bytes. change (mbind_ (pget px_lr) ?k u) with (k (px_lr (px u)) u). rewrite Hlr.
    change (mbind_ (pget (side_lists (negb left))) ?k u) with (k o u). cbv beta.
    rewrite <- (bind_assoc (for_each (forward_to i) (sockets o))). 
    rewrite (bind_ret _ _ _ tt u1) by (rewrite <- Happ; exact E1).
    by apply (change_ret i c1). }
  split; [done|]. split; [|split].
  - unfold in_data. simpl. rewrite lookup_insert_eq.
    apply finish_empties. destruct (existsb (fast_at (pw u)) js); [by left|right].
    change (processed_in_ c1) with (processed_in_ c). rewrite (Hp c Hc). change (readbuf_ c1) with b.
    unfold lb_size. rewrite Db. unfold in_data. by rewrite Hc.
  - intros k Hk Hkj. simpl. rewrite lookup_insert_ne by done. by apply K1.
  - intros pre j post Ej. rewrite <- (O1 pre j post Ej). unfold out_data. simpl.
    rewrite lookup_insert_ne; [done|]. intros ->. apply Hi. rewrite Ej. set_solver.
Qed.

(** ** The write bottleneck *)

(** What [change_monitor_for_cx_vec] does to the pause flags of one context. *)
Definition repaused (pr pw : Z) (c : cx) : cx :=
  let c := if negb (pr =? 0) then set_read_waiting_for_peercom (0 <? pr) c else c in
  if negb (pw =? 0) then set_write_waiting_for_peercom (0 <? pw) c else c.

Lemma repaused_idem pr p c : repaused pr p (repaused pr p c) = repaused pr p c.
Proof. unfold repaused. by destruct (pr =? 0), (p =? 0). Qed.

Lemma change_monitor_ret a b pr p i c u :
  w_cxs (pw u) !! i = Some c ->
  exists q, change_monitor_for_cx a b pr p i u =
    Ret tt (mkPworld (put_cx i (repaused pr p c) (set_poll q (pw u))) (px u)).
Proof.
  intros Hc. unfold change_monitor_for_cx. rewrite (bind_look i c) by done.
  assert (exists q, (if a && b then monitor_mode (fds_ c) (Z.lor EPOLLIN EPOLLOUT)
        else if a then monitor_mode (fds_ c) EPOLLIN
        else if b then monitor_mode (fds_ c) EPOLLOUT else unmonitor (fds_ c)) (pw u) =
        Ret tt (set_poll q (pw u))) as (q & E) by (repeat case_if; by eexists).
  rewrite (bind_lift _ _ _ _ _ E). exists q. unfold when.
  assert (forall v c', w_cxs (pw v) !! i = Some c' -> (if negb (p =? 0)
      then change i (set_write_waiting_for_peercom (0 <? p)) else mret_ ()) v =
      Ret tt (mkPworld (put_cx i (if negb (p =? 0) then set_write_waiting_for_peercom (0 <? p) c' else c') (pw v)) (px v))) as Hw.
  { intros v c' Hv. case_if; [by apply change_ret|]. rewrite put_cx_id by done. by destruct v. }
  destruct (negb (pr =? 0)) eqn:Epr.
  - rewrite (bind_change i c) by done. rewrite (Hw _ (set_read_waiting_for_peercom (0 <? pr) c)) by apply put_cx_lookup.
    simpl. rewrite put_cx_put. unfold repaused. by rewrite Epr.
  - rewrite bind_pure, (Hw _ c) by done. unfold repaused. by rewrite Epr.
Qed.

Lemma for_each_repaused a b pr p l u :
  exist_in (pw u) l ->
  exists u', for_each (change_monitor_for_cx a b pr p) l u = Ret tt u' /\ px u' = px u /\
    forall k, w_cxs (pw u') !! k = (if decide (k ∈ l) then repaused pr p <$> w_cxs (pw u) !! k
                                    else w_cxs (pw u) !! k).
Proof.
  revert u. induction l as [|i r IH]; intros u Hl.
  - exists u. split; [done|]. split; [done|]. intros k. by rewrite decide_False by set_solver.
  - destruct (Hl i) as (c & Hc & _); [left|].
    destruct (change_monitor_ret a b pr p i c u Hc) as (q & E).
    destruct (IH (mkPworld (put_cx i (repaused pr p c) (set_poll q (pw u))) (px u))) as (u2 & E2 & X2 & K2).
    { intros j Hj. destruct (Hl j) as (d & Hd & _); [by right|]. simpl.
      destruct (decide (i = j)) as [->|]; [eexists; by rewrite lookup_insert_eq|].
      exists d. by rewrite lookup_insert_ne. }
    exists u2. split; [simpl; by rewrite (bind_ret _ _ _ _ _ E)|]. split; [done|].
    intros k. rewrite K2. simpl. destruct (decide (i = k)) as [<-|Hne].
    + rewrite lookup_insert_eq, (decide_True (P := i ∈ i :: r)), Hc by left. simpl. case_decide; [|done].
      simpl. by rewrite repaused_idem.
    + rewrite lookup_insert_ne by done. destruct (decide (k ∈ r)); [rewrite decide_True by (by right)|rewrite decide_False by set_solver]; done.
Qed.

(** The contexts [change_side_monitoring] walks. *)
Definition walked (l : lists) : list Z := sockets l ++ bind_sockets l.

Lemma change_side_ret left a b pr p u :
  exist_in (pw u) (walked (side_lists left (px u))) ->
  exists n u', change_side_monitoring left a b pr p u = Ret n u' /\ px u' = px u /\
    forall k, w_cxs (pw u') !! k =
      (if decide (k ∈ walked (side_lists left (px u))) then repaused pr p <$> w_cxs (pw u) !! k
       else w_cxs (pw u) !! k).
Proof.
  intros He. destruct (for_each_repaused a b pr p _ u He) as (u' & E & X & K).
  eexists _, u'. split; [|by split]. unfold change_side_monitoring.
  change (mbind_ (pget (side_lists left)) ?k u) with (k (side_lists left (px u)) u). cbv beta.
  rewrite <- bind_assoc. rewrite (bind_ret _ _ _ tt u') by (rewrite <- for_each_app; exact E). reflexivity.
Qed.

(** [handle_cx_write] of a writable context whose com takes [l] bytes. *)
Lemma handle_cx_write_ret s i c u l k n :
  w_cxs (pw u) !! i = Some c -> write_waiting_for_peercom_ c = false ->
  writable (w_net (pw u)) c = true -> close_after_write_ c = false ->
  com_write (w_net (pw u)) (snd (forced_write_on_read_reset (com_ c))) (fds_ c) (lb_data (writebuf_ c)) = (l, k, n) ->
  0 <= l -> zlen (lb_data (writebuf_ c)) < 2 ^ 31 ->
  exists u' c', handle_cx_write s i u = Ret true u' /\ w_cxs (pw u') !! i = Some c' /\
    (forall j, j <> i -> w_cxs (pw u') !! j = w_cxs (pw u) !! j) /\
    lb_data (writebuf_ c') = zdrop l (lb_data (writebuf_ c)) /\ com_ c' = k /\
    (forall b, neck b (px u') = neck b (px u)) /\ (forall b, side_lists b (px u') = side_lists b (px u)).
Proof.
  intros Hc Hnw Hwr Hcl Hio Hl Hz. pose proof (com_write_law _ _ _ _ _ _ _ Hio) as Hle.
  destruct (forced_write_on_read_reset (com_ c)) as [b k0] eqn:Ef. simpl in Hio. set (c0 := set_com k0 c).
  set (w0 := put_cx i c0 (pw u)).
  destruct (write_takes_prefix i c0 w0 l k n) as (c1 & w1 & E1 & Hc1 & K1 & D1 & _ & F1);
    [apply put_cx_lookup|done|exact Hio|].
  assert (int_of_ssize l = l) as El by (apply int_of_ssize_id; lia).
  rewrite El in E1. rewrite Z.max_r in D1 by done.
  unfold handle_cx_write. rewrite (bind_look i c) by done.
  rewrite (bind_lift _ _ u true (pw u)) by (unfold gets, id; by rewrite Hwr).
  rewrite (bind_lift _ _ _ b w0).
  2: { unfold on_flag, on_com. cbn [pw]. by rewrite Hc, Ef. }
  cbn [orb]. rewrite (bind_lift _ _ _ l w1) by exact E1.
  rewrite (proj2 (Z.ltb_ge l 0)) by done.
  eexists _, c1. split; [reflexivity|]. simpl. split; [done|].
  split; [intros j Hj; rewrite K1 by done; unfold w0; by rewrite put_cx_lookup_ne|].
  split; [done|]. split; [by apply F1|]. by split; intros [].
Qed.

(** The contexts [l] have the pause flags [P] after the step. *)
Definition paused_as (P : cx -> Prop) (l : list Z) (w : world) : Prop :=
  forall j, j ∈ l -> exists d, w_cxs w !! j = Some d /\ P d.

Lemma out_data_repaused pr p (l : list Z) w w' k :
  w_cxs w' !! k = (if decide (k ∈ l) then repaused pr p <$> w_cxs w !! k else w_cxs w !! k) ->
  out_data w' k = out_data w k.
Proof.
  intros E. unfold out_data. rewrite E. case_decide; [|done]. destruct (w_cxs w !! k) as [c|]; [|done].
  unfold repaused. simpl. by destruct (negb (pr =? 0)), (negb (p =? 0)).
Qed.

Lemma paused_repaused P pr p l w w' :
  exist_in w l -> (forall c, P (repaused pr p c)) ->
  (forall k, w_cxs w' !! k = (if decide (k ∈ l) then repaused pr p <$> w_cxs w !! k else w_cxs w !! k)) ->
  paused_as P l w'.
Proof.
  intros He HP K j Hj. destruct (He j Hj) as (d & Hd & _). exists (repaused pr p d).
  by rewrite K, decide_True, Hd.
Qed.

(** The bottleneck step itself. *)
Lemma track_bottleneck_ret s i c orig pending u :
  let lf := is_left s in
  let mine := walked (side_lists lf (px u)) in
  let other := walked (side_lists (negb lf) (px u)) in
  w_cxs (pw u) !! i = Some c -> 0 < orig -> 0 <= pending ->
  exist_in (pw u) mine -> exist_in (pw u) other -> (forall j, j ∈ mine -> j ∉ other) ->
  exists u', track_bottleneck s i orig pending u = Ret tt u' /\
    (forall k, out_data (pw u') k = out_data (pw u) k) /\
    neck lf (px u') = (0 <? pending) /\ neck (negb lf) (px u') = neck (negb lf) (px u) /\
    (0 < pending -> paused_as (fun d => read_waiting_for_peercom_ d = true) other (pw u')) /\
    (0 < pending -> paused_as (fun d => read_waiting_for_peercom_ d = false /\
                                        write_waiting_for_peercom_ d = false) mine (pw u')) /\
    (pending = 0 -> neck lf (px u) = true ->
       paused_as (fun d => read_waiting_for_peercom_ d = false) other (pw u')).
Proof.
  intros lf mine other Hc Ho Hp Hm Hot Hdis. unfold track_bottleneck. fold lf.
  rewrite (proj2 (Z.ltb_lt 0 orig)) by done.
  destruct (Z.ltb_spec 0 pending) as [Hlt|Hge].
  - rewrite (bind_look i c) by done. 
    change (mbind_ (lift (write_monitor (fds_ c))) ?k u) with
      (k tt (mkPworld (set_poll (set_write_monitor (w_kernel0 (pw u)) (1000 * w_now (pw u)) translate_socket (fds_ c) (w_poll (pw u))) (pw u)) (px u))).
    cbv beta. set (w1 := set_poll _ (pw u)).
    change (mbind_ (pset (set_neck lf true)) ?k ?v) with (k tt (mkPworld (pw v) (set_neck lf true (px v)))).
    cbv beta. cbn [px pw]. set (u1 := mkPworld w1 (set_neck lf true (px u))).
    assert (forall b, side_lists b (px u1) = side_lists b (px u)) as Hsl by (by intros []).
    destruct (change_side_ret (negb lf) false false 1 0 u1) as (n1 & u2 & E2 & X2 & K2); [by rewrite Hsl|].
    rewrite (bind_ret _ _ _ _ _ E2). rewrite Hsl in K2. fold other in K2.
    destruct (change_side_ret lf true true (-1) (-1) u2) as (n2 & u3 & E3 & X3 & K3).
    { rewrite X2, Hsl. intros j Hj. destruct (Hm j Hj) as (d & Hd & _). rewrite K2. simpl. rewrite Hd.
      case_decide; by eexists. }
    rewrite (bind_ret _ _ _ _ _ E3). rewrite X2, Hsl in K3. fold mine in K3.
    exists u3. split; [done|]. rewrite X3, X2.
    split. { intros k. etransitivity; [eapply out_data_repaused, K3|]. exact (out_data_repaused _ _ _ _ _ k (K2 k)). }
    split; [by destruct lf|]. split; [by destruct lf|]. split; [|split; [|lia]].
    + intros _ j Hj. destruct (Hot j Hj) as (d & Hd & _). exists (repaused 1 0 d).
      split; [|done]. rewrite K3, decide_False by (intros ?; by eapply Hdis). rewrite K2, decide_True by done.
      simpl. by rewrite Hd.
    + intros _. eapply (paused_repaused _ (-1) (-1) mine (pw u2)); [|done|exact K3].
      intros j Hj. destruct (Hm j Hj) as (d & Hd & _). rewrite K2. simpl. rewrite Hd. case_decide; by eexists.
  - assert (pending = 0) as -> by lia.
    change (mbind_ (pget (neck lf)) ?k u) with (k (neck lf (px u)) u). cbv beta.
    destruct (neck lf (px u)) eqn:En; unfold when.
    2: { exists u. split; [done|]. split; [done|]. split; [done|]. split; [done|]. split; [lia|]. by split; [lia|]. }
    change (mbind_ (pset (set_neck lf false)) ?k ?v) with (k tt (mkPworld (pw v) (set_neck lf false (px v)))).
    cbv beta. set (u1 := mkPworld (pw u) (set_neck lf false (px u))).
    assert (forall b, side_lists b (px u1) = side_lists b (px u)) as Hsl by (by intros []).
    destruct (change_side_ret (negb lf) true false (-1) 0 u1) as (n1 & u2 & E2 & X2 & K2); [by rewrite Hsl|].
    rewrite (bind_ret _ _ _ _ _ E2). rewrite Hsl in K2. fold other in K2.
    exists u2. split; [done|]. rewrite X2.
    split. { intros k. apply (out_data_repaused _ _ _ _ _ k (K2 k)). }
    split; [by destruct lf|]. split; [by destruct lf|]. split; [lia|]. split; [lia|]. intros _ _.
    by apply (paused_repaused _ (-1) 0 other (pw u)).
Qed.

(** [C26] The write bottleneck of a side follows its backlog. Take a write round of a context in the
    lists of its side: it has a descriptor, is writable with its i/o enabled, not paused for
    writing and not to be closed after the write, and has pending output, under 2^31 bytes, of which
    the com takes [l] bytes without failing or forcing a read; the contexts of the connected and the
    listening lists of both sides exist and the sides share none. The round keeps exactly the bytes
    not taken, sets the side's bottleneck flag if some are left and clears it if none are, and leaves
    the other side's flag alone. When bytes are left, the contexts of the connected and the listening
    lists of the other side are paused for reading and those of this side unpaused (permanent
    and delayed contexts are not walked); when the backlog that had set the flag drains,
    those of the other side are unpaused again. *)
Theorem bottleneck_follows_backlog s i c u l k n :
  let lf := is_left s in
  let mine := walked (side_lists lf (px u)) in
  let other := walked (side_lists (negb lf) (px u)) in
  let com0 := snd (forced_write_on_read_reset (snd (forced_write_reset (com_ c)))) in
  w_cxs (pw u) !! i = Some c -> fds_ c <> 0 -> write_waiting_for_peercom_ c = false ->
  com_writable (w_net (pw u)) (snd (forced_write_reset (com_ c))) (fds_ c) = true ->
  io_disabled_ c = false -> close_after_write_ c = false ->
  0 < zlen (lb_data (writebuf_ c)) < 2 ^ 31 ->
  com_write (w_net (pw u)) com0 (fds_ c) (lb_data (writebuf_ c)) = (l, k, n) -> 0 <= l ->
  forced_read_on_write_ k = false ->
  exist_in (pw u) (mine ++ other) -> (forall j, j ∈ mine -> j ∉ other) -> i ∈ mine ->
  exists u', handle_cx_write_once s i u = Ret true u' /\
    out_data (pw u') i = zdrop l (out_data (pw u) i) /\
    neck lf (px u') = (l <? zlen (lb_data (writebuf_ c))) /\
    neck (negb lf) (px u') = neck (negb lf) (px u) /\
    (l < zlen (lb_data (writebuf_ c)) ->
       paused_as (fun d => read_waiting_for_peercom_ d = true) other (pw u')) /\
    (l < zlen (lb_data (writebuf_ c)) ->
       paused_as (fun d => read_waiting_for_peercom_ d = false /\
                           write_waiting_for_peercom_ d = false) mine (pw u')) /\
    (l = zlen (lb_data (writebuf_ c)) -> neck lf (px u) = true ->
       paused_as (fun d => read_waiting_for_peercom_ d = false) other (pw u')).
Proof.
  intros lf mine other com0 Hc Hf Hnw Hwr Hio Hcl Hz Ew Hl Hfr He Hdis Hi.
  pose proof (com_write_law _ _ _ _ _ _ _ Ew) as Hle.
  unfold handle_cx_write_once. rewrite (bind_look i c) by done. change (id c) with c.
  rewrite (proj2 (Z.eqb_neq _ _) Hf).
  set (c1 := set_com (snd (forced_write_reset (com_ c))) c).
  rewrite (bind_lift _ _ u false (pw u)).
  2: { change (write_waiting_for_peercom i (pw u) = Ret false (pw u)).
       pose proof (not_waiting_write i c (pw u) mret_ Hc Hnw) as H. unfold mbind_ in H.
       destruct (write_waiting_for_peercom i (pw u)) as [b w| |]; [|done..]. by injection H as -> ->. }
  cbn iota. unfold in_writeset.
  destruct (epoller_in_write_set (w_kernel0 (pw u)) (1000 * w_now (pw u)) (fds_ c) (w_poll (pw u))) as [ws e] eqn:Epo.
  rewrite (bind_lift _ _ _ ws (set_poll e (pw u))) by (cbn [pw]; by rewrite Epo).
  destruct (forced_write_reset (com_ c)) as [fw kk] eqn:Ef. simpl in c1, com0, Hwr.
  rewrite (bind_lift _ _ _ fw (put_cx i c1 (set_poll e (pw u)))).
  2: { unfold on_flag, on_com. cbn [pw w_cxs set_poll]. by rewrite Hc, Ef. }
  rewrite (bind_look i c1) by apply put_cx_lookup. cbn [px pw]. unfold id.
  change (writebuf_ c1) with (writebuf_ c).
  assert (lb_empty (writebuf_ c) = false) as -> by (apply Z.eqb_neq; unfold lb_size; lia).
  rewrite orb_true_r. cbv zeta.
  set (v := mkPworld (put_cx i c1 (set_poll e (pw u))) (px u)).
  destruct (handle_cx_write_ret s i c1 v l k n) as (v2 & c2 & E2 & Hc2 & K2 & D2 & F2 & N2 & L2);
    [apply put_cx_lookup|done| |done|exact Ew|done|exact (proj2 Hz)|].
  { unfold writable. change (io_disabled_ c1) with (io_disabled_ c). rewrite Hio. cbn [negb].
    rewrite andb_true_r. exact Hwr. }
  rewrite (bind_ret _ _ _ _ _ E2). cbn [negb].
  rewrite (bind_look i c2), (bind_look i c2) by done. rewrite F2, Hfr, bind_pure. cbn [negb].
  assert (exist_in (pw v2) (mine ++ other)) as He2.
  { intros j Hj. destruct (decide (j = i)) as [->|Hne]; [by exists c2|]. destruct (He j Hj) as (d & Hd & _).
    exists d. rewrite K2 by done. split; [|done]. unfold v. cbn [pw]. by rewrite put_cx_lookup_ne. }
  assert (zlen (zdrop l (lb_data (writebuf_ c))) = zlen (lb_data (writebuf_ c)) - l) as Hzd by (rewrite zlen_zdrop; lia).
  change (writebuf_ c1) with (writebuf_ c) in D2.
  assert (lb_size (writebuf_ c2) = zlen (lb_data (writebuf_ c)) - l) as Esz by (unfold lb_size; by rewrite D2).
  destruct (track_bottleneck_ret s i c2 (lb_size (writebuf_ c)) (lb_size (writebuf_ c2)) v2)
    as (u' & E' & O' & N' & M' & P1 & P2 & P3);
    [done|unfold lb_size; lia|rewrite Esz; lia|rewrite L2; eapply exist_sub; [exact He2|set_solver]..| |].
  { rewrite !L2. exact Hdis. }
  rewrite !L2, !N2, Esz in *.
  exists u'. split; [by rewrite (bind_ret _ _ _ _ _ E')|].
  split. { rewrite O'. unfold out_data. by rewrite Hc, Hc2. }
  split. { etransitivity; [exact N'|]. destruct (Z.ltb_spec 0 (zlen (lb_data (writebuf_ c)) - l)), (Z.ltb_spec l (zlen (lb_data (writebuf_ c)))); lia || done. }
  split; [exact M'|]. split; [intros; apply P1; lia|]. split; [intros; apply P2; lia|]. intros; apply P3; [lia|done].
Qed.
End frame.

(** ** The theorems on a concrete proxy

    Over [demo_com]: left socket 1, right sockets 2 and 3; accept gives descriptor 11. *)

#[export] Instance demo_env : ProxyEnv := {|
  com_accept n s := (11, n);
  new_message n c := false;
  on_timer n c := n;
  fd_locked s := false
|}.

Definition demo_proxy (right_neck : bool) : proxy :=
  mkProxy 500 true (mkLists [1] [] [] []) (mkLists [2; 3] [] [] []) false false false false false
    false right_neck false 0 0 (meter_new 1 0) (meter_new 1 0) 0 0 [].

(** Context 1 has five bytes to send and two bytes read; 2 has sent a lot. *)
Definition demo_cx1 : cx :=
  set_processed_in 2 (set_readbuf (mkLockbuffer [21; 22] 2048) (demo_cx 7 2 false [1; 2; 3; 4; 5])).
Definition demo_pworld (right_neck : bool) : pworld :=
  mkPworld (mkWorld
    (<[1 := demo_cx1]>
      (<[2 := set_meter_write_bytes 30000 (demo_cx 8 1 false [])]>
        (<[3 := demo_cx 9 1 false [40]]> ∅)))
    (mkEpoller (Some demo_poller) ∅ ∅) [70] 100 ∅ false) (demo_proxy right_neck).

Lemma bottleneck_blocks_reads_witness :
  exists r u', handle_cx_read_once L 1 (demo_pworld true) = Ret r u' /\ in_data (pw u') 1 = [21; 22].
Proof.
  destruct (bottleneck_blocks_reads L 1 (demo_pworld true)) as (r & u' & E & K & _); [|reflexivity|].
  - eexists. split; [reflexivity|]. right. eexists. reflexivity.
  - exists r, u'. split; [exact E|]. edestruct (K 1) as (c' & Hc' & Hr & _); [reflexivity|].
    unfold in_data. rewrite Hc', Hr. reflexivity.
Defined.

Lemma demo_exist n l : bool_decide (Forall (fun j => j ∈ [1; 2; 3]) l) = true -> exist_in (pw (demo_pworld n)) l.
Proof.
  intros H%bool_decide_eq_true j Hj. rewrite Forall_forall in H. specialize (H j Hj).
  rewrite !elem_of_cons in H. destruct H as [->|[->|[->|H]]]; [by eexists..|by apply not_elem_of_nil in H].
Qed.

Lemma shutdown_complete_witness :
  exists u', proxy_shutdown (demo_pworld false) = Ret tt u' /\ trashcan (px u') = [1; 2; 3].
Proof.
  destruct (shutdown_complete (demo_pworld false)) as (u' & E & _ & _ & T & _).
  - apply demo_exist. reflexivity.
  - exists u'. exact (conj E T).
Defined.

Lemma lr_forwarding_witness :
  exists u', on_bytes true 1 (demo_pworld false) = Ret tt u' /\
    out_data (pw u') 2 = [21; 22] /\ out_data (pw u') 3 = [40].
Proof.
  destruct (lr_forwarding true 1 (demo_pworld false)) as (u' & E & _ & _ & _ & O).
  - reflexivity.
  - apply (bool_decide_unpack _). vm_compute. exact I.
  - apply (bool_decide_unpack _). vm_compute. exact I.
  - apply demo_exist. reflexivity.
  - intros c [= <-]. reflexivity.
  - exists u'. split; [exact E|]. split; [exact (O [] 2 [3] eq_refl)|exact (O [2] 3 [] eq_refl)].
Defined.

Lemma bottleneck_follows_backlog_witness :
  exists u', handle_cx_write_once L 1 (demo_pworld false) = Ret true u' /\
    out_data (pw u') 1 = [4; 5] /\ write_left_neck_ (px u') = true /\
    exists d, w_cxs (pw u') !! 2 = Some d /\ read_waiting_for_peercom_ d = true.
Proof.
  destruct (bottleneck_follows_backlog L 1 demo_cx1 (demo_pworld false) 3 (set_fd 7 com_default) [70])
    as (u' & E & O & N & _ & P & _).
  - reflexivity.
  - vm_compute. discriminate.
  - reflexivity.
  - reflexivity.
  - reflexivity.
  - reflexivity.
  - vm_compute. split; reflexivity.
  - vm_compute. reflexivity.
  - discriminate.
  - reflexivity.
  - apply demo_exist. vm_compute. reflexivity.
  - intros j ->%list_elem_of_singleton. apply (bool_decide_unpack _). vm_compute. exact I.
  - left.
  - exists u'. split; [exact E|]. split; [exact O|]. split; [exact N|].
    apply P; [reflexivity|left].
Defined.
