(* ===== verification/Dispatch.v ===== *)
(** * Dispatch: from ready sockets to proxies (baseproxy.cpp: run_poll, run, listen, connect)

    The poll root of a worker thread: after each wait it walks the poller's sets, finds the
    handler of every ready socket and runs it.  Handlers are proxies or other objects, by
    number; the number of a destroyed object must not be used. *)

From S2P Require Export BaseProxy.

(** What only this layer asks of its surroundings: what an event handler that is not a
    proxy does, and [resolve_socket_dst] with the port bound by [com()->bind]. *)
Class WorkerEnv `{EpollKernel} `{Com} : Type := {
  handle_event : Z -> world -> world;
  resolve_dst : net -> Z -> string * string;
  com_bind : net -> Z -> Z * net
}.

Inductive socket_set_type : Type := INSET | OUTSET | IDLESET | ERRSET | VIRTSET.

#[export] Instance socket_set_type_eq_dec : EqDecision socket_set_type.
Proof. solve_decision. Defined.

(** [metering::poll] *)
Record polls : Type := mkPolls { handled_count : Z; generic_count : Z; hint_count : Z; null_count : Z }.
Definition polls0 : polls := mkPolls 0 0 0 0.
Definition polls_add (a b : polls) : polls :=
  mkPolls (handled_count a + handled_count b) (generic_count a + generic_count b)
          (hint_count a + hint_count b) (null_count a + null_count b).

Section dispatch.
Context {EK : EpollKernel} {ST : Storage} {CO : Com} {PE : ProxyEnv} {EV : WorkerEnv}.

Inductive hobj : Type := HProxy (p : proxy) | HGeneric.

(** A worker: the shared world, the live handlers, the virtual sockets of [UDPCom], the
    [poll_result] of the root's com. *)
Record rworld : Type := mkRworld {
  r_w : world;
  r_objs : gmap Z hobj;
  r_virt : gset Z;
  r_polls : polls;
  r_result : Z
}.

Definition set_rw (w : world) (r : rworld) : rworld :=
  mkRworld w (r_objs r) (r_virt r) (r_polls r) (r_result r).
Definition set_virt (s : gset Z) (r : rworld) : rworld :=
  mkRworld (r_w r) (r_objs r) s (r_polls r) (r_result r).

(** A member function of the proxy [h]. *)
Definition on_proxy {A} (h : Z) (m : M pworld A) : M rworld A := fun r =>
  match r_objs r !! h with
  | Some (HProxy p) =>
      let back u := mkRworld (pw u) (<[h := HProxy (px u)]> (r_objs r)) (r_virt r) (r_polls r) (r_result r) in
      match m (mkPworld (r_w r) p) with
      | Ret a u => Ret a (back u)
      | Throw e u => Throw e (back u)
      | Undef => Undef
      end
  | _ => Undef
  end.

Definition polled (f : epoll -> epoll) (r : rworld) : rworld :=
  let e := w_poll (r_w r) in
  set_rw (set_poll (mkEpoller (f <$> poller e) (handler_db e) (handlers e)) (r_w r)) r.

(** The four sets of the poller and the virtual set: reading one, erasing from one. *)
Definition get_set (k : socket_set_type) (r : rworld) : gset Z :=
  match k, poller (w_poll (r_w r)) with
  | VIRTSET, _ => r_virt r
  | INSET, Some p => in_set p
  | OUTSET, Some p => out_set p
  | IDLESET, Some p => idle_set p
  | ERRSET, Some p => err_set p
  | _, None => ∅
  end.

Definition erase_set (k : socket_set_type) (s : Z) (r : rworld) : rworld :=
  match k with
  | VIRTSET => set_virt (r_virt r ∖ {[s]}) r
  | INSET => polled (fun p => set_sets (in_set p ∖ {[s]}) (out_set p) (err_set p) (enforce_in_set p) p) r
  | OUTSET => polled (fun p => set_sets (in_set p) (out_set p ∖ {[s]}) (err_set p) (enforce_in_set p) p) r
  | ERRSET => polled (fun p => set_sets (in_set p) (out_set p) (err_set p ∖ {[s]}) (enforce_in_set p) p) r
  | IDLESET => polled (fun p => set_idle (idle_counter p) (idle_round p) (idle_watched_pre p)
                                  (idle_watched p) (idle_set p ∖ {[s]}) p) r
  end.

(** [run_poll_socket_null_handler] of the root [me]. *)
Definition run_poll_socket_null_handler (me s : Z) : M rworld polls := fun r =>
  match poller (w_poll (r_w r)) with
  | None => Undef
  | Some p =>
      if negb (s =? hint_fd_ p) then
        if s <? 0 then Ret (mkPolls 0 0 0 1) (set_virt (r_virt r ∖ {[s]}) r)
        else Ret (mkPolls 0 0 0 1) (polled (fun p => snd (epoll_del s p)) r)
      else
        (on_proxy me (handle_sockets_once (r_result r)) ;;; mret_ (mkPolls 0 0 1 0)) r
  end.

(** What [run_poll_socket] does with a proxy handler. *)
Definition run_proxy (h : Z) (k : socket_set_type) : M rworld polls :=
  res <- gets r_result ;;
  on_proxy h
    (handle_sockets_once res ;;;
     when (bool_decide (k = ERRSET)) (pset (set_dead true)) ;;;
     d <- pget dead ;;
     when d proxy_shutdown) ;;;
  mret_ (mkPolls 1 0 0 0).

Definition run_poll_socket (me s : Z) (k : socket_set_type) : M rworld polls :=
  h <- gets (fun r => get_handler s (w_poll (r_w r))) ;;
  ret <- (match h with
          | None => run_poll_socket_null_handler me s
          | Some h => fun r =>
              match r_objs r !! h with
              | Some (HProxy _) => run_proxy h k r
              | Some HGeneric => Ret (mkPolls 0 1 0 0) (set_rw (handle_event h (r_w r)) r)
              | None => Undef
              end
          end) ;;
  modify (erase_set k s) ;;;
  mret_ ret.

(** One set: the sockets it had when its turn came, in ascending order. *)
Fixpoint run_sockets (me : Z) (k : socket_set_type) (l : list Z) (acc : polls) : M rworld polls :=
  match l with
  | [] => mret_ acc
  | s :: r => p <- run_poll_socket me s k ;; run_sockets me k r (polls_add acc p)
  end.

Fixpoint run_sets (me : Z) (ks : list socket_set_type) (acc : polls) : M rworld polls :=
  match ks with
  | [] => mret_ acc
  | k :: r =>
      s <- gets (get_set k) ;;
      a <- run_sockets me k (ascending s) acc ;;
      run_sets me r a
  end.

(** [run_poll]; [udp] is [com()->master()->l4_proto() == SOCK_DGRAM]. *)
Definition run_poll (me : Z) (udp : bool) : M rworld Z := fun r =>
  match poller (w_poll (r_w r)) with
  | None => Ret 1 r
  | Some _ =>
      (stats <- run_sets me ([INSET; OUTSET; IDLESET; ERRSET] ++ if udp then [VIRTSET] else []) polls0 ;;
       modify (polled (fun p => set_sets ∅ (out_set p) (err_set p) (enforce_in_set p) p)) ;;;
       on_proxy me run_timers ;;;
       modify (fun r => mkRworld (r_w r) (r_objs r) (r_virt r) (polls_add (r_polls r) stats) (r_result r)) ;;;
       mret_ 0) r
  end.

(** [prepare_sockets] *)
Definition prepare_sockets : Z := 1.

(** [com()->poll()], keeping the result in [poll_result]. *)
Definition root_poll (rs : Z -> list wait_result) (events : list (Z * Z)) : M rworld unit := fun r =>
  let w := r_w r in
  match com_poll (w_kernel0 w) (1000 * w_now w) rs events (w_poll w) with
  | Ret n e => Ret tt (mkRworld (set_poll e w) (r_objs r) (r_virt r) (r_polls r) n)
  | Throw x e => Throw x (set_rw (set_poll e w) r)
  | Undef => Undef
  end.

(** The exceptions derived from [std::runtime_error]. *)
Definition is_runtime_error (e : exn) : bool :=
  match e with com_error | runtime_error | mempool_error => true | _ => false end.

(** One turn of the loop in [run] for a poll root. *)
Definition run_once (me : Z) (udp : bool) (rs : Z -> list wait_result) (events : list (Z * Z))
  : M rworld unit := fun r =>
  match (when (negb (prepare_sockets =? 0)) (root_poll rs events) ;;; run_poll me udp) r with
  | Ret _ r' => Ret tt r'
  | Throw e r' => if is_runtime_error e then on_proxy me (pset (set_dead true)) r' else Throw e r'
  | Undef => Undef
  end.

(** ** Adding contexts from outside *)

(** [listen]: the listening context of a bound socket; 0 is the null pointer. *)
Definition listen (left : bool) (sock : Z) : M pworld Z :=
  if 0 <? sock then
    i <- lift (gets new_id) ;;
    lift (new_hostcx i "" "" sock com_default) ;;;
    n <- lift (gets w_net) ;;
    change i (fun c => set_port (snd (resolve_dst n sock)) (set_host (fst (resolve_dst n sock)) c)) ;;;
    badd left i ;;;
    mret_ i
  else mret_ 0.

(** [bind(port, side)] *)
Definition bind_port (left : bool) (port : Z) : M pworld Z :=
  s <- lift (fun w => let '(s, n) := com_bind (w_net w) port in Ret s (set_net n w)) ;;
  i <- listen left s ;;
  if negb (i =? 0) then look fds_ i else mret_ (-1).

(** [left_connect] and [right_connect]; the new context is leaked when it has no socket. *)
Definition side_connect (left : bool) (host port : string) : M pworld Z :=
  i <- lift (gets new_id) ;;
  lift (new_hostcx i host port 0 com_default) ;;;
  sock <- lift (connect i) ;;
  when (0 <? sock) (pcadd left i) ;;;
  mret_ sock.

(** [connect(host, port, side)]: only ['L'] is left. *)
Definition proxy_connect (host port : string) (side : Z) : M pworld Z :=
  if side =? 76 then side_connect true host port else side_connect false host port.
End dispatch.
