(* ===== verification/ProxySafety.v ===== *)
(** * ProxySafety: no dangling context in a proxy round

    A Hoare-style frame for the computations of [HostCX] and [BaseProxy]: started where
    the contexts of a list exist and every context's peer exists, a computation does not
    use the number of a context that is not there, keeps those facts, and destroys no
    context.  The theorems say so of a whole round of a proxy and of the worker's
    dispatch. *)

From S2P Require Export Dispatch BaseProxyProps.

Section safety.
Context {EK : EpollKernel} {ST : Storage} {CO : Com} {PE : ProxyEnv}.

(** ** Computations on the world *)

Definition lives (w : world) (j : Z) : Prop := is_Some (w_cxs w !! j).

(** Every peer pointer is null or a live context. *)
Definition peers_live (w : world) : Prop :=
  forall i c, w_cxs w !! i = Some c -> peer_ c = 0 \/ lives w (peer_ c).

Definition grows (w w' : world) : Prop := forall j, lives w j -> lives w' j.

(** [m] is safe once the contexts of [l] are live. *)
Definition safew {A} (l : list Z) (m : M world A) : Prop :=
  forall w, peers_live w -> Forall (lives w) l ->
    match m w with
    | Ret _ w' => peers_live w' /\ grows w w'
    | _ => False
    end.

Lemma grows_refl w : grows w w.
Proof. by intros j. Qed.

Lemma grows_trans w1 w2 w3 : grows w1 w2 -> grows w2 w3 -> grows w1 w3.
Proof. intros H1 H2 j Hj. by apply H2, H1. Qed.

Lemma grows_all w w' l : grows w w' -> Forall (lives w) l -> Forall (lives w') l.
Proof. intros Hg Hl. eapply Forall_impl; [exact Hl|]. intros j. apply Hg. Qed.

Lemma safew_ret {A} l (a : A) : safew l (mret_ a).
Proof. intros w Hw _. split; [done|apply grows_refl]. Qed.

Lemma safew_gets {A} l (f : world -> A) : safew l (gets f).
Proof. intros w Hw _. split; [done|apply grows_refl]. Qed.

Lemma safew_bind {A B} l (m : M world A) (k : A -> M world B) :
  safew l m -> (forall a, safew l (k a)) -> safew l (mbind_ m k).
Proof.
  intros Hm Hk w Hw Hl. specialize (Hm w Hw Hl). unfold mbind_.
  destruct (m w) as [a w1|e w1|]; [|done..]. destruct Hm as [H1 G1].
  specialize (Hk a w1 H1 (grows_all _ _ _ G1 Hl)).
  destruct (k a w1) as [b w2|e w2|]; [|done..]. destruct Hk as [H2 G2].
  split; [done|by eapply grows_trans].
Qed.

(** Dereferencing tells that the peer is live too. *)
Lemma safew_the {A} l i (k : cx -> M world A) :
  i ∈ l -> (forall c, peer_ c = 0 -> safew l (k c)) ->
  (forall c, safew (peer_ c :: l) (k c)) -> safew l (mbind_ (the i) k).
Proof.
  intros Hi H0 H1 w Hw Hl. pose proof (proj1 (Forall_forall _ _) Hl i Hi) as [c Hc].
  rewrite (bind_the i c) by done. destruct (Hw i c Hc) as [E|Hp]; [by apply H0|].
  apply (H1 c); [done|]. by constructor.
Qed.

Lemma safew_the_ret {A} l i (f : cx -> A) : i ∈ l -> safew l (c <- the i ;; mret_ (f c)).
Proof. intros Hi. apply safew_the; [done|..]; intros; apply safew_ret. Qed.

Lemma safew_field {A} l i (f : cx -> A) : i ∈ l -> safew l (field f i).
Proof. apply safew_the_ret. Qed.

Lemma put_lives w w' i c c' :
  w_cxs w !! i = Some c -> w_cxs w' = <[i := c']> (w_cxs w) -> forall j, lives w' j <-> lives w j.
Proof.
  intros Hc E j. unfold lives. rewrite E. destruct (decide (i = j)) as [->|Hne].
  - rewrite lookup_insert_eq, Hc. split; by eexists.
  - by rewrite lookup_insert_ne.
Qed.

Lemma put_good w w' i c c' :
  peers_live w -> w_cxs w !! i = Some c -> w_cxs w' = <[i := c']> (w_cxs w) ->
  peer_ c' = 0 \/ lives w (peer_ c') -> peers_live w' /\ grows w w'.
Proof.
  intros Hw Hc E Hp. pose proof (put_lives w w' i c c' Hc E) as HL. split.
  - intros j d Hd. rewrite E in Hd. destruct (decide (i = j)) as [->|Hne].
    + rewrite lookup_insert_eq in Hd. injection Hd as <-. destruct Hp as [?|Hp]; [by left|right]. by apply HL.
    + rewrite lookup_insert_ne in Hd by done. destruct (Hw j d Hd) as [?|?]; [by left|right]. by apply HL.
  - intros j Hj. by apply HL.
Qed.

Lemma safew_upd l i f : i ∈ l -> (forall c, peer_ (f c) = peer_ c) -> safew l (upd i f).
Proof.
  intros Hi Hf w Hw Hl. pose proof (proj1 (Forall_forall _ _) Hl i Hi) as [c Hc].
  rewrite (upd_ret i c) by done. apply (put_good w _ i c (f c)); [done..|]. rewrite Hf. by apply (Hw i c).
Qed.

Lemma safew_peer l i : i ∈ l -> safew l (peer i 0).
Proof.
  intros Hi w Hw Hl. pose proof (proj1 (Forall_forall _ _) Hl i Hi) as [c Hc].
  unfold peer. rewrite (upd_ret i c) by done. apply (put_good w _ i c (set_peer 0 c)); [done..|]. by left.
Qed.

Lemma safew_modify l f : (forall w, w_cxs (f w) = w_cxs w) -> safew l (modify f).
Proof.
  intros Hf w Hw _. simpl. unfold peers_live, grows, lives. rewrite Hf. split; [exact Hw|done].
Qed.

Lemma safew_polling l f : safew l (polling f).
Proof. by apply safew_modify. Qed.

Lemma safew_on_com {A} l i (f : net -> comst -> A * comst * net) : i ∈ l -> safew l (on_com i f).
Proof.
  intros Hi w Hw Hl. pose proof (proj1 (Forall_forall _ _) Hl i Hi) as [c Hc]. unfold on_com. rewrite Hc.
  destruct (f (w_net w) (com_ c)) as [[a k] n].
  apply (put_good w _ i c (set_com k c)); [done..|]. by apply (Hw i c).
Qed.

Lemma safew_when l b m : safew l m -> safew l (when b m).
Proof. intros H. destruct b; [done|apply safew_ret]. Qed.

Lemma safew_if {A} l (b : bool) (m k : M world A) : safew l m -> safew l k -> safew l (if b then m else k).
Proof. by destruct b. Qed.

Lemma safew_weaken {A} l l' (m : M world A) : safew l m -> (forall j, j ∈ l -> j ∈ l') -> safew l' m.
Proof.
  intros H Hs w Hw Hl. apply H; [done|]. apply Forall_forall. intros j Hj.
  by apply (proj1 (Forall_forall _ _) Hl), Hs.
Qed.

Lemma safew_on_flag l i f : i ∈ l -> safew l (on_flag i f).
Proof. apply safew_on_com. Qed.

Lemma safew_opening l i b : i ∈ l -> safew l (t <- now ;; upd i (opening b t)).
Proof.
  intros Hi. apply safew_bind; [apply safew_gets|]. intros t. apply safew_upd; [done|].
  intros c. unfold opening. by destruct b.
Qed.
End safety.

(** Decompose a computation into the rules above; leave what is not immediate. *)
Create HintDb safew.
#[export] Hint Resolve safew_ret safew_gets safew_polling safew_on_com safew_on_flag safew_field safew_peer : safew.
#[export] Hint Extern 1 (_ ∈ _) => set_solver : safew.

Ltac safew_step :=
  lazymatch goal with
  | H : peer_ ?c = 0 |- context [peer_ ?c =? 0] => rewrite H; cbn [Z.eqb negb]; rewrite ?andb_false_r
  | |- safew _ (mbind_ (the _) _) => apply safew_the; [set_solver|intros ? ?|intros ?]
  | |- safew _ (mbind_ _ _) => apply safew_bind; [|intros ?]
  | |- safew _ (when _ _) => apply safew_when
  | |- safew _ (upd _ _) => apply safew_upd; [set_solver|]
  | |- safew _ (match ?x with _ => _ end) => destruct x eqn:?
  | |- safew _ _ => solve [eauto with safew]
  end.
Ltac safew_auto := repeat safew_step.

Section operations.
Context {EK : EpollKernel} {ST : Storage} {CO : Com} {PE : ProxyEnv}.

Lemma peer_after_read n t c : peer_ (after_read n t c) = peer_ c.
Proof. unfold after_read, opening. simpl. by repeat (case_match; simpl). Qed.

Lemma safew_unhandle l i : i ∈ l -> safew l (unhandle i).
Proof. intros Hi. unfold unhandle. safew_auto. Qed.

Lemma safew_shutdown l i : i ∈ l -> safew l (shutdown i).
Proof.
  intros Hi. unfold shutdown, on_com_. safew_auto; try done; eauto using safew_unhandle with safew.
Qed.

#[local] Hint Resolve safew_unhandle safew_shutdown : safew.

Lemma safew_not_ready l i : i ∈ l -> safew l (not_ready i).
Proof. intros Hi. unfold not_ready. by safew_auto. Qed.
#[local] Hint Resolve safew_not_ready : safew.

Lemma safew_read_waiting l i : i ∈ l -> safew l (read_waiting_for_peercom i).
Proof. intros Hi. unfold read_waiting_for_peercom, rescan_in, monitor. by safew_auto. Qed.

Lemma safew_write_waiting l i : i ∈ l -> safew l (write_waiting_for_peercom i).
Proof. intros Hi. unfold write_waiting_for_peercom, rescan_out, write_monitor. by safew_auto. Qed.
#[local] Hint Resolve safew_read_waiting safew_write_waiting : safew.

Lemma safew_connect l i : i ∈ l -> safew l (connect i).
Proof. intros Hi. unfold connect, now. safew_auto; intros; unfold opening; by repeat case_match. Qed.
#[local] Hint Resolve safew_connect : safew.

Lemma safew_reconnect l i : i ∈ l -> safew l (reconnect i).
Proof. intros Hi. unfold reconnect, now. by safew_auto. Qed.

Lemma peer_finish c : peer_ (snd (finish c)) = peer_ c.
Proof. unfold finish. by repeat case_match. Qed.

Lemma peer_grow c : peer_ (if lb_cap (readbuf_ c) <=? lb_size (readbuf_ c) then grow_buffer c else c) = peer_ c.
Proof. unfold grow_buffer. by repeat case_match. Qed.

Lemma safew_read l i : i ∈ l -> safew l (read i).
Proof.
  intros Hi. unfold read, rescan_in, now. safew_auto; intros; try done; auto using peer_finish, peer_grow, peer_after_read.
Qed.

Lemma safew_write l i : i ∈ l -> safew l (write i).
Proof.
  intros Hi. unfold write, write_hooked, write_offer, write_metered, write_taken, write_refused, rescan_out, write_monitor, monitor_mode, now.
  safew_auto; intros; try done; unfold opening; by repeat (case_match; simpl).
Qed.

Lemma safew_to_write_buffer l i b : i ∈ l -> safew l (to_write_buffer i b).
Proof. intros Hi. unfold to_write_buffer, write_monitor. by safew_auto. Qed.

Lemma safew_on_accept l i fd : i ∈ l -> safew l (on_accept_socket i fd).
Proof. intros Hi. unfold on_accept_socket, on_com_. safew_auto. intros. by repeat case_match. Qed.

Lemma safew_on_delay l i fd : i ∈ l -> safew l (on_delay_socket i fd).
Proof. intros Hi. unfold on_delay_socket, on_com_. by safew_auto. Qed.

#[local] Hint Resolve safew_reconnect safew_read safew_write safew_to_write_buffer safew_on_accept safew_on_delay : safew.

(** ** Computations of a proxy *)

(** Every peer pointer and every listed context is live. *)
Definition wfp (u : pworld) : Prop :=
  peers_live (pw u) /\ forall b, Forall (lives (pw u)) (members (side_lists b (px u))).

(** [m] is safe once the contexts of [l] are live, and its result satisfies [Q]. *)
Definition safeq {A} (l : list Z) (m : M pworld A) (Q : A -> Prop) : Prop :=
  forall u, wfp u -> Forall (lives (pw u)) l ->
    match m u with
    | Ret a u' => wfp u' /\ grows (pw u) (pw u') /\ Q a
    | Throw e u' => e = runtime_error /\ wfp u' /\ grows (pw u) (pw u')
    | Undef => False
    end.

Definition safe {A} (l : list Z) (m : M pworld A) : Prop := safeq l m (fun _ => True).

Lemma safe_ret {A} l (a : A) : safe l (mret_ a).
Proof. intros u Hu _. split; [done|]. split; [apply grows_refl|done]. Qed.

Lemma safe_throw {A} l : safe l (throw runtime_error : M pworld A).
Proof. intros u Hu _. split; [done|]. split; [done|apply grows_refl]. Qed.

Lemma safe_pget {A} l (f : proxy -> A) : safe l (pget f).
Proof. intros u Hu _. split; [done|]. split; [apply grows_refl|done]. Qed.

Lemma safeq_bind {A B} l (m : M pworld A) Q (k : A -> M pworld B) R :
  safeq l m Q -> (forall a, Q a -> safeq l (k a) R) -> safeq l (mbind_ m k) R.
Proof.
  intros Hm Hk u Hu Hl. specialize (Hm u Hu Hl). unfold mbind_.
  destruct (m u) as [a u1|e u1|]; [|done..]. destruct Hm as (H1 & G1 & Qa).
  specialize (Hk a Qa u1 H1 (grows_all _ _ _ G1 Hl)).
  destruct (k a u1) as [b u2|e u2|]; [| |done].
  - destruct Hk as (H2 & G2 & Rb). split; [done|]. split; [by eapply grows_trans|done].
  - destruct Hk as (-> & H2 & G2). split; [done|]. split; [done|by eapply grows_trans].
Qed.

Lemma safe_bind {A B} l (m : M pworld A) (k : A -> M pworld B) :
  safe l m -> (forall a, safe l (k a)) -> safe l (mbind_ m k).
Proof. intros Hm Hk. eapply safeq_bind; [exact Hm|]. intros a _. apply Hk. Qed.

Lemma safe_lift {A} l (m : M world A) : safew l m -> safe l (lift m).
Proof.
  intros Hm u [Hp Hs] Hl. specialize (Hm (pw u) Hp Hl). unfold lift.
  destruct (m (pw u)) as [a w'|e w'|]; [|done..]. destruct Hm as [H1 G1].
  split; [|done]. split; [done|]. intros b. by eapply grows_all.
Qed.

(** Reading the lists of a side tells that their contexts are live. *)
Lemma safe_lists {A} l b (k : lists -> M pworld A) :
  (forall ls, safe (members ls ++ l) (k ls)) -> safe l (mbind_ (pget (side_lists b)) k).
Proof.
  intros Hk u Hu Hl. apply (Hk (side_lists b (px u)) u Hu). apply Forall_app. split; [apply Hu|done].
Qed.

Lemma safe_left {A} l (k : lists -> M pworld A) :
  (forall ls, safe (members ls ++ l) (k ls)) -> safe l (mbind_ (pget px_left) k).
Proof. apply (safe_lists l true). Qed.

Lemma safe_right {A} l (k : lists -> M pworld A) :
  (forall ls, safe (members ls ++ l) (k ls)) -> safe l (mbind_ (pget px_right) k).
Proof. apply (safe_lists l false). Qed.

(** A change of the object that lists no context but those of [l]. *)
Lemma safe_pset l f :
  (forall p b j, j ∈ members (side_lists b (f p)) -> j ∈ members (side_lists b p) \/ j ∈ l) ->
  safe l (pset f).
Proof.
  intros Hf u [Hp Hs] Hl. simpl. split; [|split; [apply grows_refl|done]]. split; [done|].
  intros b. apply Forall_forall. intros j Hj. simpl in *.
  destruct (Hf _ _ _ Hj) as [H|H]; [exact (proj1 (Forall_forall _ _) (Hs b) j H)|].
  by apply (proj1 (Forall_forall _ _) Hl).
Qed.

Lemma safe_pset_same l f : (forall p b, side_lists b (f p) = side_lists b p) -> safe l (pset f).
Proof. intros Hf. apply safe_pset. intros p b j. rewrite Hf. by left. Qed.

Lemma safe_new_cx {A} l s (k : Z -> M pworld A) :
  (forall j, safe (j :: l) (k j)) -> safe l (mbind_ (new_cx s) k).
Proof.
  intros Hk u [Hp Hs] Hl. unfold new_cx. rewrite !bind_assoc.
  set (i := new_id (pw u)). set (c := cx_init "" "" s (w_now (pw u)) com_default).
  set (w' := set_cxs (<[i := c]> (w_cxs (pw u))) (pw u)).
  change (mbind_ (lift (gets new_id)) ?k u) with (k i (mkPworld (pw u) (px u))).
  cbv beta. rewrite bind_assoc. change (mbind_ (lift (new_hostcx i "" "" s com_default)) ?k (mkPworld (pw u) (px u)))
    with (k tt (mkPworld w' (px u))). cbv beta. rewrite bind_pure.
  assert (forall j, lives (pw u) j -> lives w' j) as Hg.
  { intros j [d Hd]. unfold lives, w'. simpl. destruct (decide (i = j)) as [->|Hne].
    - rewrite lookup_insert_eq. by eexists.
    - rewrite lookup_insert_ne by done. by eexists. }
  assert (peers_live w') as Hw'.
  { intros j d Hd. unfold w' in Hd. simpl in Hd. destruct (decide (i = j)) as [->|Hne].
    - rewrite lookup_insert_eq in Hd. injection Hd as <-. by left.
    - rewrite lookup_insert_ne in Hd by done. destruct (Hp j d Hd) as [?|?]; [by left|right; by apply Hg]. }
  assert (wfp (mkPworld w' (px u))) as Hwf.
  { split; [exact Hw'|]. intros b. by eapply grows_all. }
  specialize (Hk i (mkPworld w' (px u)) Hwf).
  assert (Forall (lives w') (i :: l)) as Hl'.
  { constructor; [unfold lives, w'; simpl; rewrite lookup_insert_eq; by eexists|by eapply grows_all]. }
  specialize (Hk Hl'). destruct (k i (mkPworld w' (px u))) as [a u2|e u2|]; [| |done].
  - destruct Hk as (H2 & G2 & _). split; [done|]. split; [|done]. by eapply grows_trans.
  - destruct Hk as (-> & H2 & G2). split; [done|]. split; [done|]. by eapply grows_trans.
Qed.

Lemma safe_look {A} l i (f : cx -> A) : i ∈ l -> safe l (look f i).
Proof. intros. by apply safe_lift, safew_field. Qed.

Lemma safe_change l i f : i ∈ l -> (forall c, peer_ (f c) = peer_ c) -> safe l (change i f).
Proof. intros. by apply safe_lift, safew_upd. Qed.

Lemma safe_when l b m : safe l m -> safe l (when b m).
Proof. intros H. destruct b; [done|apply safe_ret]. Qed.

Lemma safe_for_each f k l :
  (forall i, i ∈ k -> safe l (f i)) -> safe l (for_each f k).
Proof.
  induction k as [|i r IH]; intros H; [apply safe_ret|]. simpl.
  apply safe_bind; [apply H; left|]. intros _. apply IH. intros j Hj. apply H. by right.
Qed.

Lemma safe_until_false f k l :
  (forall i, i ∈ k -> safe l (f i)) -> safe l (until_false f k).
Proof.
  induction k as [|i r IH]; intros H; [apply safe_ret|]. simpl.
  apply safe_bind; [apply H; left|]. intros ok. destruct ok; [|apply safe_ret].
  apply IH. intros j Hj. apply H. by right.
Qed.
End operations.

#[export] Hint Resolve safe_ret safe_throw safe_pget safe_look : safe.
#[export] Hint Resolve safew_unhandle safew_shutdown safew_not_ready safew_read_waiting safew_write_waiting
  safew_connect safew_reconnect safew_read safew_write safew_to_write_buffer safew_on_accept safew_on_delay
  : safew.
#[export] Hint Extern 1 (_ ∈ _) => (unfold members in *; set_solver) : safe.

(** The same for the computations of a proxy. *)
Ltac safe_step :=
  lazymatch goal with
  | |- safe _ (mbind_ (pget px_left) _) => apply safe_left; intros ?
  | |- safe _ (mbind_ (pget px_right) _) => apply safe_right; intros ?
  | |- safe _ (mbind_ (pget (side_lists _)) _) => apply safe_lists; intros ?
  | |- safe _ (mbind_ (new_cx _) _) => apply safe_new_cx; intros ?
  | |- safe _ (mbind_ _ _) => apply safe_bind; [|intros ?]
  | |- safe _ (when _ _) => apply safe_when
  | |- safe _ (change _ _) => apply safe_change; [unfold members; set_solver|done]
  | |- safe _ (for_each _ _) => apply safe_for_each; intros ? ?
  | |- safe _ (until_false _ _) => apply safe_until_false; intros ? ?
  | |- safe _ (lift (match ?x with _ => _ end)) => destruct x eqn:?
  | |- safe _ (match ?x with _ => _ end) => destruct x eqn:?
  | |- safe _ (lift _) => first [solve [eauto with safe] | apply safe_lift; eauto with safew]
  | |- safe _ (pset _) => apply safe_pset_same; solve [by intros ? []]
  | |- safe _ _ => eauto with safe
  end.
Ltac safe_auto := repeat safe_step.

Section proxy_operations.
Context {EK : EpollKernel} {ST : Storage} {CO : Com} {PE : ProxyEnv}.

Lemma safe_watch l s : safe l (watch s).
Proof. unfold watch, monitor, poll_handler. safe_auto. safew_auto. Qed.
#[local] Hint Resolve safe_watch : safe.

Lemma in_members_set_lists left f p b j :
  (forall k, k ∈ members (f (side_lists left p)) -> k ∈ members (side_lists left p) \/ k = j) ->
  forall k, k ∈ members (side_lists b (set_lists left f p)) -> k ∈ members (side_lists b p) \/ k = j.
Proof. destruct left, b; simpl; auto. Qed.

(** Unblocking the socket touches only the network. *)
Lemma safe_unblock l i :
  safe l (lift (modify (fun w => match w_cxs w !! i with
                          | Some c => set_net (com_unblock (w_net w) (fds_ c)) w | None => w end))).
Proof. apply safe_lift, safew_modify. intros w. by destruct (w_cxs w !! i). Qed.
#[local] Hint Resolve safe_unblock : safe.

Lemma safe_listed l left i f :
  i ∈ l -> (forall ls k, k ∈ members (f ls) -> k ∈ members ls \/ k = i) ->
  safe l (pset (set_lists left f)).
Proof.
  intros Hi Hf. apply safe_pset. intros p b j Hj.
  destruct (in_members_set_lists left f p b i (fun k => Hf _ k) j Hj) as [?| ->]; auto.
Qed.

Lemma safe_add l left i : i ∈ l -> safe l (add left i).
Proof.
  intros Hi. unfold add. safe_auto. apply (safe_listed _ _ i); [done|].
  intros ls k. unfold members. simpl. set_solver.
Qed.

Lemma safe_drop l i : i ∈ l -> safe l (drop_cx i).
Proof. intros Hi. unfold drop_cx. by safe_auto. Qed.
#[local] Hint Resolve safe_add safe_drop : safe.

Lemma safe_side_shutdown l b : safe l (side_shutdown b).
Proof.
  unfold side_shutdown. safe_auto.
  - apply safe_pset. intros p b' j. destruct b, b'; simpl; set_solver.
Qed.
#[local] Hint Resolve safe_side_shutdown : safe.

Lemma safe_proxy_shutdown l : safe l proxy_shutdown.
Proof. unfold proxy_shutdown, left_shutdown, right_shutdown. by safe_auto. Qed.

Lemma safe_cx_check l b i : i ∈ l -> safe l (cx_check b i).
Proof. intros Hi. unfold cx_check, now. safe_auto. by apply safew_modify. Qed.
#[local] Hint Resolve safe_cx_check : safe.

Lemma safe_reset_timer l : safe l reset_timer.
Proof. unfold reset_timer, now. by safe_auto. Qed.
#[local] Hint Resolve safe_reset_timer : safe.

Lemma safe_run_timers l : safe l run_timers.
Proof. unfold run_timers. by safe_auto. Qed.

Lemma safe_forward l i j : i ∈ l -> j ∈ l -> safe l (forward_to i j).
Proof. intros Hi Hj. unfold forward_to. by safe_auto. Qed.
#[local] Hint Resolve safe_forward : safe.

Lemma safe_on_bytes l b i : i ∈ l -> safe l (on_bytes b i).
Proof.
  intros Hi. unfold on_bytes. safe_auto. apply safe_change; [unfold members; set_solver|].
  intros c. apply peer_finish.
Qed.

Lemma safe_report_error l s i : i ∈ l -> safe l (report_error s i).
Proof.
  intros Hi. destruct s; simpl; unfold on_error, on_left_pc_error, on_right_pc_error; by safe_auto.
Qed.
#[local] Hint Resolve safe_on_bytes safe_report_error : safe.

Lemma safe_events l s i : i ∈ l -> safe l (handle_cx_events s i).
Proof. intros Hi. unfold handle_cx_events, now. by safe_auto. Qed.

Lemma safe_cx_read l s i : i ∈ l -> safe l (handle_cx_read s i).
Proof. intros Hi. unfold handle_cx_read. by safe_auto. Qed.

Lemma safe_cx_write l s i : i ∈ l -> safe l (handle_cx_write s i).
Proof. intros Hi. unfold handle_cx_write, now. by safe_auto. Qed.
#[local] Hint Resolve safe_events safe_cx_read safe_cx_write : safe.

Lemma safe_in_readset l s : safe l (in_readset s).
Proof.
  apply safe_lift. intros w Hw _. destruct (epoller_in_read_set _ _ _ _) as [b e].
  split; [exact Hw|by intros j].
Qed.

Lemma safe_in_writeset l s : safe l (in_writeset s).
Proof.
  apply safe_lift. intros w Hw _. destruct (epoller_in_write_set _ _ _ _) as [b e].
  split; [exact Hw|by intros j].
Qed.
#[local] Hint Resolve safe_in_readset safe_in_writeset : safe.

Lemma safe_read_once l s i : i ∈ l -> safe l (handle_cx_read_once s i).
Proof. intros Hi. unfold handle_cx_read_once, read_once_body. by safe_auto. Qed.

Lemma safe_change_monitor l a b x y i : i ∈ l -> safe l (change_monitor_for_cx a b x y i).
Proof.
  intros Hi. unfold change_monitor_for_cx, monitor_mode, unmonitor. by safe_auto.
Qed.
#[local] Hint Resolve safe_read_once safe_change_monitor : safe.

Lemma safe_change_side l b x y p q : safe l (change_side_monitoring b x y p q).
Proof. unfold change_side_monitoring. by safe_auto. Qed.
#[local] Hint Resolve safe_change_side : safe.

Lemma safe_track l s i o p : i ∈ l -> safe l (track_bottleneck s i o p).
Proof. intros Hi. unfold track_bottleneck, write_monitor. by safe_auto. Qed.
#[local] Hint Resolve safe_track : safe.

Lemma safe_write_once l s i : i ∈ l -> safe l (handle_cx_write_once s i).
Proof. intros Hi. unfold handle_cx_write_once. by safe_auto. Qed.
#[local] Hint Resolve safe_write_once : safe.

Lemma safe_accept l s i : i ∈ l -> safe l (handle_sockets_accept s i).
Proof.
  intros Hi. unfold handle_sockets_accept. safe_auto.
  intros w Hw _. destruct (com_accept (w_net w) _). split; [exact Hw|by intros j].
Qed.
#[local] Hint Resolve safe_accept : safe.

Lemma safe_pc l b i : i ∈ l -> safe l (handle_pc b i).
Proof.
  intros Hi. unfold handle_pc, pc_error, on_left_pc_error, on_right_pc_error, on_pc_restore, now.
  safe_auto; intros; unfold opening; by case_match.
Qed.

Lemma safe_accept_bound l b i : i ∈ l -> safe l (accept_bound b i).
Proof. intros Hi. unfold accept_bound. by safe_auto. Qed.
#[local] Hint Resolve safe_pc safe_accept_bound : safe.

Lemma safe_accept_from l b k :
  (forall i, i ∈ k -> i ∈ l) -> safeq l (accept_from b k) (fun rest => forall i, i ∈ rest -> i ∈ l).
Proof.
  induction k as [|i r IH]; intros Hk.
  - intros u Hu _. split; [done|]. split; [apply grows_refl|]. set_solver.
  - simpl. assert (i ∈ l) by (apply Hk; left).
    eapply (safeq_bind _ _ (fun _ => True)); [apply safe_lift; eauto with safew|]. intros w _. destruct w; simpl.
    + eapply safeq_bind; [apply IH; set_solver|]. intros rest Hr u Hu Hl.
      split; [done|]. split; [apply grows_refl|]. set_solver.
    + eapply (safeq_bind _ _ (fun _ => True)); [by apply safe_look|]. intros s _.
      eapply (safeq_bind _ _ (fun _ => True)); [apply safe_lift; eauto with safew|]. intros _ _.
      eapply (safeq_bind _ _ (fun _ => True)); [by apply safe_add|]. intros _ _. apply IH. set_solver.
Qed.

Lemma safe_accept_delayed l b : safe l (accept_delayed b).
Proof.
  unfold accept_delayed. apply safe_lists. intros ls.
  eapply safeq_bind; [apply safe_accept_from|].
  { intros i Hi. unfold members. set_solver. }
  intros rest Hr. simpl in Hr. apply safe_pset. intros p b' j Hj.
  destruct b, b'; simpl in *; try (by left);
    unfold members in Hj; simpl in Hj; rewrite !elem_of_app in Hj;
    (destruct Hj as [?|[?|[?|Hj]]]; [left; unfold members; set_solver..|right; by apply Hr]).
Qed.
#[local] Hint Resolve safe_accept_delayed safe_run_timers safe_proxy_shutdown : safe.

Lemma safe_once l n : safe l (handle_sockets_once n).
Proof. unfold handle_sockets_once. by safe_auto. Qed.

(** [C1] No use after free in a round: on a proxy whose listed contexts are live and
    whose contexts' peers are live, a whole round of [handle_sockets_once] - reads,
    writes, bottlenecks, errors, reconnections, accepts and delayed accepts, whatever the
    poll result and the network do - never touches a context that does not exist: it
    returns, or throws the exception of an unprotected accept; either way every listed
    context and every peer is again live, and no context has disappeared. *)
Theorem round_never_dangles n u :
  wfp u ->
  (exists r u', handle_sockets_once n u = Ret r u' /\ wfp u' /\ grows (pw u) (pw u')) \/
  (exists u', handle_sockets_once n u = Throw runtime_error u' /\ wfp u' /\ grows (pw u) (pw u')).
Proof.
  intros Hu. pose proof (safe_once [] n u Hu) as H. specialize (H ltac:(constructor)).
  destruct (handle_sockets_once n u) as [r u'|e u'|]; [left|right|done].
  - destruct H as (H & G & _). by exists r, u'.
  - destruct H as (-> & H & G). by exists u'.
Qed.
End proxy_operations.

(** ** Dispatch *)

Section dispatching.
Context {EK : EpollKernel} {ST : Storage} {CO : Com} {PE : ProxyEnv} {EV : WorkerEnv}.

Lemma wfp_exist u b : wfp u -> exist_in (pw u) (members (side_lists b (px u))).
Proof.
  intros [_ H] j Hj. destruct (proj1 (Forall_forall _ _) (H b) j Hj) as [c Hc]. by exists c.
Qed.

(** Shutting down does not revive or kill. *)
Definition keeps_dead {A} (m : M pworld A) : Prop := forall u a u', m u = Ret a u' -> dead (px u') = dead (px u).

Lemma keeps_dead_bind {A B} (m : M pworld A) (k : A -> M pworld B) :
  keeps_dead m -> (forall a, keeps_dead (k a)) -> keeps_dead (mbind_ m k).
Proof.
  intros Hm Hk u b u' E. apply bind_inv in E as (a & u1 & E1 & E2).
  by rewrite (Hk _ _ _ _ E2), (Hm _ _ _ E1).
Qed.

Lemma keeps_dead_lift {A} (m : M world A) : keeps_dead (lift m).
Proof. intros u a u'. unfold lift. destruct (m (pw u)); intros [= <- <-]; done. Qed.

Lemma keeps_dead_pset f : (forall p, dead (f p) = dead p) -> keeps_dead (pset f).
Proof. intros Hf u a u' [= <- <-]. apply Hf. Qed.

Lemma keeps_dead_for_each f l : (forall i, keeps_dead (f i)) -> keeps_dead (for_each f l).
Proof.
  intros Hf. induction l as [|i r IH]; [by intros u a u' [= <- <-]|]. simpl. by apply keeps_dead_bind.
Qed.

Lemma keeps_dead_shutdown : keeps_dead proxy_shutdown.
Proof.
  assert (forall b, keeps_dead (side_shutdown b)) as H.
  { intros b. unfold side_shutdown. apply keeps_dead_bind; [by intros u a u' [= <- <-]|]. intros ls.
    apply keeps_dead_bind; [apply keeps_dead_for_each; intros; apply keeps_dead_lift|]. intros _.
    assert (forall l, keeps_dead (for_each drop_cx l)) as Hd.
    { intros l. apply keeps_dead_for_each. intros i.
      apply keeps_dead_bind; [apply keeps_dead_lift|]. intros _. by apply keeps_dead_pset. }
    do 4 (apply keeps_dead_bind; [apply Hd|]; intros _). by apply keeps_dead_pset. }
  apply keeps_dead_bind; [apply H|intros; apply H].
Qed.

Lemma shutdown_empties u :
  wfp u -> exists u', proxy_shutdown u = Ret tt u' /\ wfp u' /\ dead (px u') = dead (px u) /\
    lsize (px u') = 0 /\ rsize (px u') = 0.
Proof.
  intros Hu. pose proof (safe_proxy_shutdown [] u Hu ltac:(constructor)) as Hs.
  destruct (side_shutdown_ret true u (wfp_exist u true Hu)) as (u1 & E1 & S1 & L1 & R1 & T1 & _).
  destruct (side_shutdown_ret false u1) as (u2 & E2 & _ & R2 & L2 & T2 & _).
  { simpl in R1. simpl. rewrite R1. eapply exist_settled; [exact S1|]. apply (wfp_exist u false Hu). }
  assert (proxy_shutdown u = Ret tt u2) as E.
  { unfold proxy_shutdown, left_shutdown, right_shutdown. by rewrite (bind_ret _ _ _ _ _ E1). }
  rewrite E in Hs. exists u2. split; [done|]. split; [apply Hs|].
  simpl in L1, R1, L2, R2. split.
  - exact (keeps_dead_shutdown _ _ _ E).
  - split; [unfold lsize; by rewrite L2, L1|unfold rsize; by rewrite R2].
Qed.

(** One event on a live proxy: the round, and the shutdown when it is dead by then. *)
Definition proxy_event (k : socket_set_type) (n : Z) : M pworld unit :=
  handle_sockets_once n ;;;
  when (bool_decide (k = ERRSET)) (pset (set_dead true)) ;;;
  d <- pget dead ;;
  when d proxy_shutdown.

Lemma proxy_event_ret k n u :
  wfp u ->
  (exists u', proxy_event k n u = Ret tt u' /\ wfp u' /\ (k = ERRSET -> dead (px u') = true) /\
     (dead (px u') = true -> lsize (px u') = 0 /\ rsize (px u') = 0)) \/
  (exists u', proxy_event k n u = Throw runtime_error u').
Proof.
  intros Hu. pose proof (safe_once [] n u Hu ltac:(constructor)) as H. unfold proxy_event.
  destruct (handle_sockets_once n u) as [r u1|e u1|] eqn:E; [| |done].
  2: { destruct H as (-> & _). right. exists u1. by apply bind_throw. }
  left. destruct H as (H1 & _ & _). rewrite (bind_ret _ _ _ _ _ E).
  set (u2 := if bool_decide (k = ERRSET) then mkPworld (pw u1) (set_dead true (px u1)) else u1).
  rewrite (bind_ret _ _ _ tt u2) by (unfold when, u2; by case_bool_decide).
  assert (wfp u2) as H2 by (unfold u2; case_bool_decide; [split; [apply H1|intros []; [apply (proj2 H1 true)|apply (proj2 H1 false)]]|done]).
  assert (k = ERRSET -> dead (px u2) = true) as Hk by (unfold u2; intros ->; by rewrite bool_decide_true).
  change (mbind_ (pget dead) ?f u2) with (f (dead (px u2)) u2). cbv beta. unfold when.
  destruct (dead (px u2)) eqn:Ed.
  - destruct (shutdown_empties u2 H2) as (u3 & E3 & H3 & D3 & L3 & R3). exists u3.
    split; [done|]. split; [done|]. split; [congruence|]. done.
  - exists u2. split; [done|]. split; [done|]. split; [by rewrite Ed|]. by rewrite Ed.
Qed.

Lemma run_poll_proxy me s k r h p :
  get_handler s (w_poll (r_w r)) = Some h -> r_objs r !! h = Some (HProxy p) ->
  run_poll_socket me s k r =
    match on_proxy h (proxy_event k (r_result r)) r with
    | Ret _ r' => Ret (mkPolls 1 0 0 0) (erase_set k s r')
    | Throw e r' => Throw e r'
    | Undef => Undef
    end.
Proof.
  intros Hh Hp. unfold run_poll_socket. rewrite bind_gets, Hh. unfold mbind_ at 1. rewrite Hp.
  unfold run_proxy. rewrite bind_gets. fold (proxy_event k (r_result r)).
  unfold mbind_ at 1. by destruct (on_proxy h (proxy_event k (r_result r)) r).
Qed.

(** A ready socket of a poll set is served by the proxy registered for it:
    when that proxy is well formed, [run_poll_socket] either ends in the exception of the
    proxy's round or runs the round to its end, counts one handled socket, takes the
    socket off the set, and leaves every other handler object alone; a socket of the error
    set makes its proxy dead, and a proxy found dead has been shut down: no context is
    left on its lists. *)
Theorem ready_socket_served me s k r h p :
  get_handler s (w_poll (r_w r)) = Some h -> r_objs r !! h = Some (HProxy p) ->
  wfp (mkPworld (r_w r) p) ->
  (exists r' p', run_poll_socket me s k r = Ret (mkPolls 1 0 0 0) r' /\
     r_objs r' !! h = Some (HProxy p') /\ (forall h', h' <> h -> r_objs r' !! h' = r_objs r !! h') /\
     wfp (mkPworld (r_w r') p') /\ s ∉ get_set k r' /\
     (k = ERRSET -> dead p' = true) /\ (dead p' = true -> lsize p' = 0 /\ rsize p' = 0)) \/
  (exists r', run_poll_socket me s k r = Throw runtime_error r').
Proof.
  intros Hh Hp Hu. rewrite (run_poll_proxy _ _ _ _ h p Hh Hp). unfold on_proxy. rewrite Hp.
  destruct (proxy_event_ret k (r_result r) _ Hu) as [(u' & E & H' & Hd & Hs)|(u' & E)]; rewrite E.
  - left.
    set (r1 := mkRworld (pw u') (<[h:=HProxy (px u')]> (r_objs r)) (r_virt r) (r_polls r) (r_result r)).
    exists (erase_set k s r1), (px u'). split; [done|].
    assert (r_objs (erase_set k s r1) = r_objs r1) as -> by by destruct k.
    split; [apply lookup_insert_eq|]. split; [intros h' Hne; by apply lookup_insert_ne|].
    split.
    { destruct u' as [w' p']. destruct H' as [H1 H2]. split; [|intros b]; destruct k; simpl in *; auto. }
    split; [|by split]. unfold get_set. destruct k; simpl; destruct (poller (w_poll (pw u'))); simpl; set_solver.
  - right. by eexists.
Qed.
End dispatching.

(** ** On a concrete proxy *)

Lemma demo_wfp b : wfp (demo_pworld b).
Proof.
  split.
  - intros i c Hc. unfold demo_pworld, demo_world in Hc. simpl in Hc.
    apply lookup_insert_Some in Hc as [[<- <-]|[_ Hc]]; [right; by eexists|].
    apply lookup_insert_Some in Hc as [[<- <-]|[_ Hc]]; [right; by eexists|].
    apply lookup_insert_Some in Hc as [[<- <-]|[_ Hc]]; [right; by eexists|].
    by rewrite lookup_empty in Hc.
  - intros []; simpl; repeat constructor; by eexists.
Qed.

Lemma round_never_dangles_witness :
  exists u', wfp u' /\
    ((exists r, handle_sockets_once 1 (demo_pworld false) = Ret r u') \/
     handle_sockets_once 1 (demo_pworld false) = Throw runtime_error u').
Proof.
  destruct (round_never_dangles 1 (demo_pworld false) (demo_wfp false)) as [(r & u' & E & H & _)|(u' & E & H & _)];
    exists u'; (split; [exact H|]).
  - left. exists r. exact E.
  - right. exact E.
Defined.
