(* ===== verification/MasterProxy.v ===== *)
(** * MasterProxy: a proxy that owns other proxies (masterproxy.cpp)

    The master runs its own sockets, then every sub-proxy, inline or in a thread of its
    own, and finally deletes the dead ones.  A thread's body is taken in steps: raising the
    counter, the round of the sub-proxy, lowering the counter.  A schedule says which threads
    take a step before each access of the master to what it shares with them, so a body may
    not have started, be anywhere inside or have ended whenever the master looks.  Waiting
    takes fuel. *)

From S2P Require Export Dispatch.

(** The destructors of a context's com. *)
Class Destroy `{Com} : Type := {
  com_cleanup : net -> comst -> net;
  com_close : net -> Z -> net
}.

(** Where the thread of an entry is: there is none (the pointer is null); it was made and has
    not touched the counter; it has raised the counter from 0; its round is done; its body
    has returned. *)
Inductive thread : Type := NoThread | Started | Raised | Served | Returned.

#[export] Instance thread_eq_dec : EqDecision thread.
Proof. solve_decision. Defined.

(** A [proxy_entry]: the sub-proxy, its [in_progress] counter, its thread. *)
Record sub : Type := mkSub { s_id : Z; in_progress : Z; s_thread : thread }.

Section master.
Context {EK : EpollKernel} {ST : Storage} {CO : Com} {PE : ProxyEnv} {EV : WorkerEnv} {DE : Destroy}.

(** The entries, [None] being a null proxy pointer, and how often the threads had a turn. *)
Record mworld : Type := mkMworld { m_r : rworld; m_subs : list (option sub); m_tick : nat }.

Definition in_r {A} (m : M rworld A) : M mworld A := fun u =>
  match m (m_r u) with
  | Ret a r => Ret a (mkMworld r (m_subs u) (m_tick u))
  | Throw e r => Throw e (mkMworld r (m_subs u) (m_tick u))
  | Undef => Undef
  end.

Definition is_dead (h : Z) (r : rworld) : bool :=
  match r_objs r !! h with Some (HProxy p) => dead p | _ => false end.

(** ** Destruction *)

(** [~baseHostCX] *)
Definition cx_destroy (i : Z) : M world unit :=
  c <- the i ;;
  modify (fun w => set_net (com_cleanup (w_net w) (com_ c)) w) ;;;
  when (0 <? fds_ c) (poll_handler (fds_ c) None ;;; modify (fun w => set_net (com_close (w_net w) (fds_ c)) w)) ;;;
  when (0 <? closing_fds_ c)
    (poll_handler (closing_fds_ c) None ;;; modify (fun w => set_net (com_close (w_net w) (closing_fds_ c)) w)) ;;;
  modify (fun w => set_cxs (delete i (w_cxs w)) w).

Fixpoint destroy_all (l : list Z) : M world unit :=
  match l with [] => mret_ tt | i :: r => cx_destroy i ;;; destroy_all r end.

(** [~baseProxy]: its shutdown, its trash can, and [~epoll_handler]. *)
Definition proxy_destroy (h : Z) : M rworld unit :=
  on_proxy h proxy_shutdown ;;;
  fun r =>
    match r_objs r !! h with
    | Some (HProxy p) =>
        match destroy_all (trashcan p) (r_w r) with
        | Ret _ w =>
            Ret tt (mkRworld (set_poll (handler_destroy h (w_poll w)) w) (delete h (r_objs r))
                      (r_virt r) (r_polls r) (r_result r))
        | Throw e w => Throw e (set_rw w r)
        | Undef => Undef
        end
    | _ => Undef
    end.

(** ** One sub-proxy *)

(** One step of [run_proxy]: a body that does not find the counter at 0 has nothing to do,
    and an exception leaves the counter raised and the proxy dead. *)
Definition body_step (s : sub) : M rworld sub := fun r =>
  match s_thread s with
  | Started =>
      if in_progress s =? 0 then Ret (mkSub (s_id s) 1 Raised) r
      else Ret (mkSub (s_id s) (u32 (in_progress s + 1)) Returned) r
  | Raised =>
      match on_proxy (s_id s) (handle_sockets_once (r_result r)) r with
      | Ret _ r' => Ret (mkSub (s_id s) (in_progress s) Served) r'
      | Throw e r' =>
          match on_proxy (s_id s) (pset (set_dead true)) r' with
          | Ret _ r'' => Ret (mkSub (s_id s) (in_progress s) Returned) r''
          | Throw e' r'' => Throw e' r''
          | Undef => Undef
          end
      | Undef => Undef
      end
  | Served => Ret (mkSub (s_id s) 0 Returned) r
  | NoThread | Returned => Ret s r
  end.

(** [run_proxy] called by the master itself. *)
Definition run_sub (s : sub) : M rworld sub :=
  s1 <- body_step (mkSub (s_id s) (in_progress s) Started) ;;
  s2 <- body_step s1 ;;
  s3 <- body_step s2 ;;
  mret_ (mkSub (s_id s3) (in_progress s3) (s_thread s)).

(** A step of the thread of the sub-proxy [h]. *)
Fixpoint step_in (h : Z) (l : list (option sub)) : M rworld (list (option sub)) :=
  match l with
  | [] => mret_ []
  | Some s :: l' =>
      if s_id s =? h then s' <- body_step s ;; mret_ (Some s' :: l')
      else l'' <- step_in h l' ;; mret_ (Some s :: l'')
  | None :: l' => l'' <- step_in h l' ;; mret_ (None :: l'')
  end.
Definition step_thread (h : Z) : M mworld unit := fun u =>
  match step_in h (m_subs u) (m_r u) with
  | Ret l r => Ret tt (mkMworld r l (m_tick u))
  | Throw e r => Throw e (mkMworld r (m_subs u) (m_tick u))
  | Undef => Undef
  end.
Fixpoint step_threads (l : list Z) : M mworld unit :=
  match l with [] => mret_ tt | h :: l' => step_thread h ;;; step_threads l' end.

Definition subproxy_thread_spray_min : Z := 2.

Section schedule.
(** At the [n]th turn of the threads, those of the sub-proxies [sched n] take one step each,
    in this order. *)
Variable sched : nat -> list Z.

Definition tick : M mworld unit :=
  n <- gets m_tick ;;
  modify (fun u => mkMworld (m_r u) (m_subs u) (S (m_tick u))) ;;;
  step_threads (sched n).

(** ** Entries *)

Definition sub_at (i : nat) : M mworld sub := fun u =>
  match m_subs u !! i with Some (Some s) => Ret s u | _ => Undef end.
Definition put_sub (i : nat) (s : sub) : M mworld unit :=
  modify (fun u => mkMworld (m_r u) (<[i := Some s]> (m_subs u)) (m_tick u)).
Definition erase_sub (i : nat) : M mworld unit :=
  modify (fun u => mkMworld (m_r u) (delete i (m_subs u)) (m_tick u)).
Definition dead_now (h : Z) : M mworld bool := gets (fun u => is_dead h (m_r u)).

(** [k] goes on with what [m] gives, unless [m] still waits. *)
Definition and_then {A B} (m : M mworld (option A)) (k : A -> M mworld (option B)) : M mworld (option B) :=
  a <- m ;; match a with Some a => k a | None => mret_ None end.

(** Wait until [p] holds of entry [i]: the fuel is the number of turns of the threads. *)
Fixpoint wait_for (p : sub -> bool) (i : nat) (fuel : nat) : M mworld (option unit) :=
  s <- sub_at i ;;
  if p s then mret_ (Some tt)
  else match fuel with
       | O => mret_ None
       | S fuel => tick ;;; wait_for p i fuel
       end.
Definition at_rest (s : sub) : bool := in_progress s =? 0.
Definition returned_body (s : sub) : bool := bool_decide (s_thread s = Returned).

(** [thread_finish]: whether there was a thread; joining waits for its body. *)
Definition thread_finish (i : nat) (fuel : nat) : M mworld (option bool) :=
  s <- sub_at i ;;
  if bool_decide (s_thread s = NoThread) then mret_ (Some false)
  else
    and_then (wait_for returned_body i fuel) (fun _ =>
      s <- sub_at i ;;
      put_sub i (mkSub (s_id s) (in_progress s) NoThread) ;;;
      mret_ (Some true)).

(** ** A round *)

(** The loop over the entries, at entry [i] ([all] is [proxies().size()]); a null entry is
    dereferenced. *)
Definition run_entry (me all : Z) (i : nat) (fuel : nat) : M mworld (option Z) :=
  tick ;;;
  s <- sub_at i ;;
  d <- dead_now me ;;
  when d (in_r (on_proxy (s_id s) (pset (set_dead true)))) ;;;
  tick ;;;
  s <- sub_at i ;;
  if negb (in_progress s =? 0) then mret_ (Some 0)
  else
    tick ;;;
    sd <- dead_now (s_id s) ;;
    if sd then mret_ (Some 0)
    else if (0 <? subproxy_thread_spray_min) && (subproxy_thread_spray_min <=? all) && (1 <? all) then
      and_then (thread_finish i fuel) (fun _ =>
        tick ;;;
        s <- sub_at i ;;
        put_sub i (mkSub (s_id s) (in_progress s) Started) ;;;
        mret_ (Some 1))
    else
      s <- sub_at i ;;
      s' <- in_r (run_sub s) ;;
      put_sub i s' ;;;
      mret_ (Some 1).

(** The run phase over the [n] entries from [i] on. *)
Fixpoint run_phase (me all : Z) (n i : nat) (fuel : nat) : M mworld (option Z) :=
  match n with
  | O => mret_ (Some 0)
  | S n =>
      and_then (run_entry me all i fuel) (fun a =>
        and_then (run_phase me all n (S i) fuel) (fun b => mret_ (Some (a + b))))
  end.

(** The cleanup phase over the [n] entries from [i] on: an entry in progress is waited for,
    its thread is joined, and the entry is erased when it is dead. *)
Fixpoint cleanup (n i : nat) (fuel : nat) : M mworld (option unit) :=
  match n with
  | O => mret_ (Some tt)
  | S n =>
      tick ;;;
      e <- gets (fun u => m_subs u !! i) ;;
      match e with
      | None => undef
      | Some None => erase_sub i ;;; cleanup n i fuel
      | Some (Some _) =>
          and_then (wait_for at_rest i fuel) (fun _ =>
            and_then (thread_finish i fuel) (fun _ =>
              tick ;;;
              s <- sub_at i ;;
              d <- dead_now (s_id s) ;;
              if d then in_r (proxy_destroy (s_id s)) ;;; erase_sub i ;;; cleanup n i fuel
              else cleanup n (S i) fuel))
      end
  end.

(** [MasterProxy::handle_sockets_once]: [None] when it is still waiting. *)
Definition master_once (fuel : nat) (me : Z) : M mworld (option Z) := fun u =>
  let own := (res <- gets r_result ;; on_proxy me (handle_sockets_once res)) in
  match own (m_r u) with
  | Undef => Undef
  | Throw com_error r => Ret (Some 0) (mkMworld r (m_subs u) (m_tick u))
  | Throw e r => Throw e (mkMworld r (m_subs u) (m_tick u))
  | Ret _ r =>
      let u := mkMworld r (m_subs u) (m_tick u) in
      if bool_decide (m_subs u = []) then Ret (Some 0) u
      else
        and_then (run_phase me (zlen (m_subs u)) (length (m_subs u)) 0 fuel) (fun n =>
          and_then (cleanup (length (m_subs u)) 0 fuel) (fun _ => mret_ (Some n))) u
  end.

(** ** Timers and shutdown *)

(** The loop of [run_timers], at entry [i]; a null entry does not advance it. *)
Fixpoint timers_loop (i : nat) (fuel : nat) : M mworld (option unit) :=
  tick ;;;
  e <- gets (fun u => m_subs u !! i) ;;
  match e, fuel with
  | None, _ => mret_ (Some tt)
  | Some _, O => mret_ None
  | Some None, S fuel => timers_loop i fuel
  | Some (Some s), S fuel =>
      d <- dead_now (s_id s) ;;
      if d && (in_progress s =? 0) then
        and_then (thread_finish i fuel) (fun _ =>
          in_r (proxy_destroy (s_id s)) ;;;
          erase_sub i ;;;
          timers_loop i fuel)
      else
        in_r (on_proxy (s_id s) run_timers) ;;;
        timers_loop (S i) fuel
  end.

Definition master_run_timers (fuel : nat) (me : Z) : M mworld (option bool) :=
  b <- in_r (on_proxy me run_timers) ;;
  if b : bool then and_then (timers_loop 0 fuel) (fun _ => mret_ (Some true)) else mret_ (Some false).

Definition master_prepare_sockets (u : mworld) : Z :=
  prepare_sockets +
  foldr (fun e n => match e with
                    | Some s => if is_dead (s_id s) (m_r u) then n else prepare_sockets + n
                    | None => n
                    end) 0 (m_subs u).

(** [shutdown]: join and shut every sub-proxy, then forget them (which destroys them). *)
Fixpoint shutdown_subs (n i : nat) (fuel : nat) : M mworld (option unit) :=
  match n with
  | O => mret_ (Some tt)
  | S n =>
      tick ;;;
      e <- gets (fun u => m_subs u !! i) ;;
      match e with
      | Some (Some s) =>
          and_then (thread_finish i fuel) (fun _ =>
            in_r (on_proxy (s_id s) proxy_shutdown) ;;;
            shutdown_subs n (S i) fuel)
      | _ => shutdown_subs n (S i) fuel
      end
  end.

Fixpoint destroy_subs (l : list (option sub)) : M rworld unit :=
  match l with
  | [] => mret_ tt
  | None :: r => destroy_subs r
  | Some s :: r => proxy_destroy (s_id s) ;;; destroy_subs r
  end.

Definition master_shutdown (fuel : nat) : M mworld (option unit) :=
  n <- gets (fun u => length (m_subs u)) ;;
  and_then (shutdown_subs n 0 fuel) (fun _ =>
    l <- gets m_subs ;;
    in_r (destroy_subs l) ;;;
    modify (fun u => mkMworld (m_r u) [] (m_tick u)) ;;;
    mret_ (Some tt)).
End schedule.
End master.
