(* ===== verification/MasterProps.v ===== *)
(** * MasterProps: rounds of a master proxy that finish, and those that never do *)

From S2P Require Export MasterProxy ProxySafety.

Section master.
Context {EK : EpollKernel} {ST : Storage} {CO : Com} {PE : ProxyEnv} {EV : WorkerEnv} {DE : Destroy}.

Section schedules.
Variable sched : nat -> list Z.

Lemma sub_at_ret i u s : m_subs u !! i = Some (Some s) -> sub_at i u = Ret s u.
Proof. intros E. unfold sub_at. by rewrite E. Qed.

Lemma and_then_ret {A B} (m : M mworld (option A)) (k : A -> M mworld (option B)) u a u' :
  m u = Ret (Some a) u' -> and_then m k u = k a u'.
Proof. intros E. unfold and_then. by rewrite (bind_ret _ _ _ _ _ E). Qed.

Lemma and_then_waits {A B} (m : M mworld (option A)) (k : A -> M mworld (option B)) u u' :
  m u = Ret None u' -> and_then m k u = Ret None u'.
Proof. intros E. unfold and_then. by rewrite (bind_ret _ _ _ _ _ E). Qed.

(** Without a thread the turns of the schedule change nothing. *)
Lemma tick_alone s r k : s_thread s = NoThread ->
  tick sched (mkMworld r [Some s] k) = Ret tt (mkMworld r [Some s] (S k)).
Proof.
  intros Ht. unfold tick. rewrite bind_gets, bind_modify. cbn [m_r m_subs m_tick].
  assert (forall l, step_threads l (mkMworld r [Some s] (S k)) = Ret tt (mkMworld r [Some s] (S k))) as ->; [|done].
  induction l as [|h l IH]; [done|]. cbn [step_threads].
  rewrite (bind_ret _ _ _ tt (mkMworld r [Some s] (S k))); [apply IH|]. unfold step_thread. cbn.
  destruct (s_id s =? h); unfold mbind_, body_step, mret_; by rewrite ?Ht.
Qed.

(** A counter nobody will lower is waited for whatever the fuel. *)
Lemma wait_in_vain s r fuel : s_thread s = NoThread -> in_progress s <> 0 -> forall k,
  exists u', wait_for sched at_rest 0 fuel (mkMworld r [Some s] k) = Ret None u'.
Proof.
  intros Ht Hp. induction fuel as [|fuel IH]; intros k; cbn [wait_for]; rewrite (bind_ret _ _ _ s (mkMworld r [Some s] k)) by done;
    unfold at_rest at 1; rewrite (proj2 (Z.eqb_neq _ _) Hp); [by eexists|].
  rewrite (bind_ret _ _ _ _ _ (tick_alone s r k Ht)). apply IH.
Qed.
End schedules.

Lemma on_proxy_dead h p r :
  r_objs r !! h = Some (HProxy p) ->
  exists r', on_proxy h (pset (set_dead true)) r = Ret tt r'.
Proof. intros Hp. unfold on_proxy. rewrite Hp. by eexists. Qed.

Lemma on_proxy_throw {A} h (m : M pworld A) r e r' :
  on_proxy h m r = Throw e r' -> exists p, r_objs r' !! h = Some (HProxy p).
Proof.
  unfold on_proxy. destruct (r_objs r !! h) as [[p|]|] eqn:Eh; try done.
  destruct (m _) as [a u|x u|]; try done. intros [= <- <-]. simpl. eexists. apply lookup_insert_eq.
Qed.

(** The master's round never ends after an exception of a sub-proxy that ran inline:
    [run_proxy] marks the proxy dead but leaves its progress counter raised, and the cleanup
    loop waits for that counter. Whatever the fuel and the schedule, the round of a master
    with one live sub-proxy whose round throws has no result. *)
Theorem exception_wedges_master sched fuel me u s n r e r1 :
  m_subs u = [Some s] -> in_progress s = 0 -> s_thread s = NoThread ->
  on_proxy me (handle_sockets_once (r_result (m_r u))) (m_r u) = Ret n r ->
  is_dead me r = false -> is_dead (s_id s) r = false ->
  on_proxy (s_id s) (handle_sockets_once (r_result r)) r = Throw e r1 ->
  exists u', master_once sched fuel me u = Ret None u'.
Proof.
  intros Hs Hp Hn Hown Hm Hd Ht.
  destruct (on_proxy_throw _ _ _ _ _ Ht) as [p Hp1]. destruct (on_proxy_dead _ _ _ Hp1) as [r2 E2].
  unfold master_once. rewrite bind_gets, Hown, Hs. change (zlen [Some s]) with 1. cbn [bool_decide length].
  rewrite bool_decide_false by done. set (s1 := mkSub (s_id s) 1 NoThread).
  assert (forall k, run_phase sched me 1 1 0 fuel (mkMworld r [Some s] k) = Ret (Some 1) (mkMworld r2 [Some s1] (S (S (S k))))) as Er.
  { intros k. cbn [run_phase]. rewrite (and_then_ret _ _ _ 1 (mkMworld r2 [Some s1] (S (S (S k))))); [done|]. unfold run_entry.
    rewrite (bind_ret _ _ _ _ _ (tick_alone sched s _ _ Hn)).
    rewrite (bind_ret _ _ _ s _ (sub_at_ret 0 (mkMworld r [Some s] (S k)) s eq_refl)). unfold dead_now. rewrite bind_gets. cbn [m_r].
    rewrite Hm. unfold when. rewrite bind_pure.
    rewrite (bind_ret _ _ _ _ _ (tick_alone sched s _ _ Hn)).
    rewrite (bind_ret _ _ _ s _ (sub_at_ret 0 (mkMworld r [Some s] (S (S k))) s eq_refl)). rewrite Hp. cbn [Z.eqb negb].
    rewrite (bind_ret _ _ _ _ _ (tick_alone sched s _ _ Hn)). rewrite bind_gets. cbn [m_r].
    rewrite Hd. cbn [andb Z.leb Z.ltb subproxy_thread_spray_min Z.compare Pos.compare Pos.compare_cont].
    rewrite (bind_ret _ _ _ s _ (sub_at_ret 0 (mkMworld r [Some s] (S (S (S k)))) s eq_refl)). unfold in_r, run_sub, body_step, mbind_. cbn [s_thread in_progress s_id m_r].
    rewrite Hp. cbn. rewrite Ht, E2. cbn. by rewrite Hn. }
  assert (forall k, exists u', cleanup sched 1 0 fuel (mkMworld r2 [Some s1] k) = Ret None u') as Ec.
  { intros k. cbn [cleanup]. rewrite (bind_ret _ _ _ _ _ (tick_alone sched s1 _ _ eq_refl)), bind_gets. cbn [m_subs].
    destruct (wait_in_vain sched s1 r2 fuel eq_refl ltac:(done) (S k)) as [u' Eu]. exists u'. by apply and_then_waits. }
  rewrite (and_then_ret _ _ _ _ _ (Er _)). destruct (Ec (S (S (S (m_tick u))))) as [u' Eu]. exists u'. by apply and_then_waits.
Qed.

(** A null sub-proxy entry stops the timers of a master for good: the loop never advances
    past it, whatever the fuel. *)
Lemma null_entry_stops_timers fuel i : forall u, m_subs u !! i = Some None ->
  timers_loop (fun _ => []) i fuel u = Ret None (mkMworld (m_r u) (m_subs u) (S fuel + m_tick u)).
Proof.
  induction fuel as [|fuel IH]; intros u Hu; cbn [timers_loop]; unfold tick; rewrite bind_assoc, bind_gets, bind_assoc, bind_modify;
    cbn [step_threads]; rewrite bind_pure, bind_gets; cbn [m_subs]; rewrite Hu; [done|].
  rewrite IH by done. cbn. by rewrite Nat.add_succ_r.
Qed.

Lemma own_round_ok me u n r :
  on_proxy me (handle_sockets_once (r_result (m_r u))) (m_r u) = Ret n r ->
  (res <- gets r_result ;; on_proxy me (handle_sockets_once res)) (m_r u) = Ret n r.
Proof. done. Qed.

(** ** Rounds that end

    [I] is kept by the rounds of the entries, which return, and under it the master and
    its sub-proxies are alive; the schedule passes over no thread for ever. *)
Section completes.
Variable I : rworld -> Prop.
Variable me : Z.
Variable ids : list Z.
Variable sched : nat -> list Z.
Hypothesis alive_me : forall r, I r -> is_dead me r = false.
Hypothesis alive_ids : forall r h, I r -> h ∈ ids -> is_dead h r = false.
Hypothesis rounds_return : forall r h, I r -> h ∈ ids ->
  exists a r', on_proxy h (handle_sockets_once (r_result r)) r = Ret a r' /\ I r'.
Hypothesis sched_fair : forall n h, h ∈ ids -> exists k, (n <= k)%nat /\ h ∈ sched k.

(** The steps a thread has left, and the counter it leaves visible on the way. *)
Definition left_of (t : thread) : nat := match t with Started => 3 | Raised => 2 | Served => 1 | _ => 0 end.
Definition counter_at (t : thread) : Z := match t with Raised | Served => 1 | _ => 0 end.

Definition entry_ok (e : option sub) (h : Z) : Prop :=
  exists s, e = Some s /\ s_id s = h /\ in_progress s = counter_at (s_thread s).
Definition resting (e : option sub) (h : Z) : Prop :=
  exists s, e = Some s /\ s_id s = h /\ in_progress s = 0 /\ s_thread s = NoThread.
Definition finished (h : Z) : option sub := Some (mkSub h 0 NoThread).

(** The same entry later: its thread is where it was or further. *)
Definition later (e e' : option sub) : Prop :=
  exists s s', e = Some s /\ e' = Some s' /\ (left_of (s_thread s') <= left_of (s_thread s))%nat /\
    (s_thread s = NoThread <-> s_thread s' = NoThread).
Definition steps_left (u : mworld) (i : nat) : nat :=
  match m_subs u !! i with Some (Some s) => left_of (s_thread s) | _ => 0 end.

Definition holds (u : mworld) : Prop := I (m_r u) /\ Forall2 entry_ok (m_subs u) ids.

Lemma body_step_ret s r :
  I r -> s_id s ∈ ids -> in_progress s = counter_at (s_thread s) ->
  exists s' r', body_step s r = Ret s' r' /\ I r' /\ s_id s' = s_id s /\
    in_progress s' = counter_at (s_thread s') /\ left_of (s_thread s') = pred (left_of (s_thread s)) /\
    (s_thread s = NoThread <-> s_thread s' = NoThread).
Proof.
  intros Hr Hs Hc. destruct s as [h c t]; cbn in *. destruct t; cbn in Hc; subst c; cbn.
  - eexists _, r. split; [reflexivity|]. done.
  - eexists _, r. split; [reflexivity|]. done.
  - destruct (rounds_return r h Hr Hs) as (a & r' & E & Hr'). rewrite E. eexists _, r'. split; [reflexivity|]. done.
  - eexists _, r. split; [reflexivity|]. done.
  - eexists _, r. split; [reflexivity|]. done.
Qed.

Lemma run_sub_returns s r : I r -> s_id s ∈ ids -> in_progress s = 0 ->
  exists r', run_sub s r = Ret (mkSub (s_id s) 0 (s_thread s)) r' /\ I r'.
Proof.
  intros Hr Hs Hp. destruct (rounds_return r (s_id s) Hr Hs) as (a & r' & E & Hr'). exists r'.
  unfold run_sub, mbind_, body_step. cbn. rewrite Hp. cbn. by rewrite E.
Qed.

Lemma later_refl l hs : Forall2 entry_ok l hs -> Forall2 later l l.
Proof. induction 1 as [|e h l hs (s & -> & _) _ IH]; constructor; [by exists s, s|done]. Qed.

Lemma later_trans l l1 l2 : Forall2 later l l1 -> Forall2 later l1 l2 -> Forall2 later l l2.
Proof.
  intros H. revert l2. induction H as [|e e1 l l1 (s & s1 & -> & -> & H1 & H2) _ IH]; intros l2 K;
    inversion K as [|? e2 ? l2' (s1' & s2 & E & -> & H3 & H4) K']; subst; constructor; [|by apply IH].
  injection E as <-. exists s, s2. split; [done|]. split; [done|]. split; [lia|]. by rewrite H2.
Qed.

Lemma later_steps u u' i : Forall2 later (m_subs u) (m_subs u') -> (steps_left u' i <= steps_left u i)%nat.
Proof.
  intros H. unfold steps_left. destruct (m_subs u' !! i) as [e'|] eqn:E; [|lia].
  destruct (Forall2_lookup_r _ _ _ _ _ H E) as (e & -> & (s & s' & -> & -> & Hl & _)). done.
Qed.

(** One step of the thread of [h]. *)
Lemma step_in_ret h hs l r : I r -> Forall2 entry_ok l hs -> (forall x, x ∈ hs -> x ∈ ids) -> NoDup hs ->
  exists l' r', step_in h l r = Ret l' r' /\ I r' /\ Forall2 entry_ok l' hs /\ Forall2 later l l' /\
    forall i s s', hs !! i = Some h -> l !! i = Some (Some s) -> l' !! i = Some (Some s') ->
      left_of (s_thread s') = pred (left_of (s_thread s)).
Proof.
  intros Hr Hl. revert r Hr. induction Hl as [|e k l hs (s & -> & <- & Hc) Hl IH]; intros r Hr Hi Hd.
  - exists [], r. by repeat split.
  - apply NoDup_cons in Hd as [Hk Hd]. assert (s_id s ∈ ids) as Hs by (apply Hi; left). cbn [step_in].
    destruct (Z.eqb_spec (s_id s) h) as [<-|Hne].
    + destruct (body_step_ret s r Hr Hs Hc) as (s' & r' & E & Hr' & E1 & E2 & E3 & E4).
      rewrite (bind_ret _ _ _ _ _ E). exists (Some s' :: l), r'. split; [done|]. split; [done|].
      split; [constructor; [by exists s'|done]|]. split; [constructor; [exists s, s'; repeat split; tauto || lia|by eapply later_refl]|].
      intros [|i] a a' Hh Ha Ha'; cbn in *; [congruence|]. exfalso. apply Hk. by eapply list_elem_of_lookup_2.
    + destruct (IH r Hr) as (l' & r' & E & Hr' & H1 & H2 & H3); [intros; apply Hi; by right|done|].
      rewrite (bind_ret _ _ _ _ _ E). exists (Some s :: l'), r'. split; [done|]. split; [done|].
      split; [constructor; [by exists s|done]|]. split; [constructor; [by exists s, s|done]|].
      intros [|i] a a' Hh Ha Ha'; cbn in *; [congruence|by eapply H3].
Qed.

Hypothesis ids_distinct : NoDup ids.

Lemma step_threads_ret l : forall u, holds u ->
  exists u', step_threads l u = Ret tt u' /\ holds u' /\ Forall2 later (m_subs u) (m_subs u') /\ m_tick u' = m_tick u /\
    forall i h, ids !! i = Some h -> h ∈ l -> (steps_left u' i <= pred (steps_left u i))%nat.
Proof.
  induction l as [|k l IH]; intros u [Hi Hl].
  - exists u. split; [done|]. split; [done|]. split; [by eapply later_refl|]. split; [done|]. by intros i h _ ?%elem_of_nil.
  - destruct (step_in_ret k ids (m_subs u) (m_r u)) as (l1 & r1 & E & Hi1 & Hl1 & Hlt & Hst); [done..|].
    set (u1 := mkMworld r1 l1 (m_tick u)). destruct (IH u1) as (u2 & E2 & Hh2 & Hlt2 & Ht2 & Hst2); [done|].
    exists u2. cbn [step_threads]. rewrite (bind_ret _ _ _ tt u1) by (unfold step_thread; by rewrite E).
    split; [done|]. split; [done|]. split; [by eapply later_trans|]. split; [done|].
    intros i h Hih Hh. pose proof (later_steps u u1 i Hlt) as L1. pose proof (later_steps u1 u2 i Hlt2) as L2.
    apply elem_of_cons in Hh as [->|Hh]; [|specialize (Hst2 i h Hih Hh); lia].
    destruct (Forall2_lookup_r _ _ _ _ _ Hl Hih) as (e & He & s & -> & _).
    destruct (Forall2_lookup_l _ _ _ _ _ Hlt He) as (e1 & He1 & s0 & s1 & E0 & -> & _).
    unfold steps_left in *. cbn [m_subs u1] in *. rewrite He, He1 in *. specialize (Hst i s s1 Hih He He1). lia.
Qed.

Lemma tick_ret u : holds u ->
  exists u', tick sched u = Ret tt u' /\ holds u' /\ Forall2 later (m_subs u) (m_subs u') /\ m_tick u' = S (m_tick u) /\
    forall i h, ids !! i = Some h -> h ∈ sched (m_tick u) -> (steps_left u' i <= pred (steps_left u i))%nat.
Proof.
  intros Hu. unfold tick. rewrite bind_gets, bind_modify.
  destruct (step_threads_ret (sched (m_tick u)) (mkMworld (m_r u) (m_subs u) (S (m_tick u)))) as (u' & H); [done|].
  by exists u'.
Qed.

(** With enough fuel, and any more, the computation ends as [Q] says. *)
Definition stops {A} (m : nat -> M mworld (option A)) (u : mworld) (Q : A -> mworld -> Prop) : Prop :=
  exists F a u', Q a u' /\ forall fuel, (F <= fuel)%nat -> m fuel u = Ret (Some a) u'.

Lemma stops_ret {A} (a : A) u (Q : A -> mworld -> Prop) : Q a u -> stops (fun _ => mret_ (Some a)) u Q.
Proof. intros H. by exists 0%nat, a, u. Qed.

Lemma stops_then {A B} (m : nat -> M mworld (option A)) (k : A -> nat -> M mworld (option B)) u P Q :
  stops m u P -> (forall a u', P a u' -> stops (k a) u' Q) -> stops (fun f => and_then (m f) (fun a => k a f)) u Q.
Proof.
  intros (F & a & u1 & HP & E) Hk. destruct (Hk a u1 HP) as (G & b & u2 & HQ & E2). exists (F + G)%nat, b, u2. split; [done|].
  intros fuel Hf. rewrite (and_then_ret _ _ _ _ _ (E fuel ltac:(lia))). apply E2. lia.
Qed.

Lemma stops_bind {A B} (m : M mworld A) (k : A -> nat -> M mworld (option B)) u a u' Q :
  m u = Ret a u' -> stops (k a) u' Q -> stops (fun f => a <- m ;; k a f) u Q.
Proof.
  intros E (F & b & u2 & HQ & E2). exists F, b, u2. split; [done|]. intros fuel Hf. rewrite (bind_ret _ _ _ _ _ E). by apply E2.
Qed.

Lemma stops_tick {B} (k : nat -> M mworld (option B)) u Q : holds u ->
  (forall u', holds u' -> Forall2 later (m_subs u) (m_subs u') -> stops k u' Q) ->
  stops (fun f => tick sched ;;; k f) u Q.
Proof.
  intros Hu Hk. destruct (tick_ret u Hu) as (u' & E & Hu' & Hl & _). apply (stops_bind _ (fun _ => k) u tt u'); [done|]. by apply Hk.
Qed.

Lemma sub_here u i h : holds u -> ids !! i = Some h ->
  exists s, m_subs u !! i = Some (Some s) /\ s_id s = h /\ in_progress s = counter_at (s_thread s) /\ s_id s ∈ ids.
Proof.
  intros [_ Hl] Hi. destruct (Forall2_lookup_r _ _ _ _ _ Hl Hi) as (e & He & s & -> & <- & Hc). exists s.
  split; [done|]. split; [done|]. split; [done|]. by eapply list_elem_of_lookup_2.
Qed.

Lemma stops_sub_at {B} i h (k : sub -> nat -> M mworld (option B)) u Q : holds u -> ids !! i = Some h ->
  (forall s, m_subs u !! i = Some (Some s) -> s_id s = h -> in_progress s = counter_at (s_thread s) -> stops (k s) u Q) ->
  stops (fun f => s <- sub_at i ;; k s f) u Q.
Proof.
  intros Hu Hi Hk. destruct (sub_here u i h Hu Hi) as (s & Hs & E & Hc & _). apply (stops_bind _ k u s u).
  - by apply sub_at_ret.
  - by apply Hk.
Qed.

(** A fair schedule ends a wait for what holds when the thread has no step left. *)
Lemma wait_stops_within p i h s0 : ids !! i = Some h ->
  (forall s, left_of (s_thread s) = 0%nat -> in_progress s = counter_at (s_thread s) ->
     (s_thread s0 = NoThread <-> s_thread s = NoThread) -> p s = true) ->
  forall n d u s, holds u -> (steps_left u i <= n)%nat -> h ∈ sched (m_tick u + d)%nat ->
    m_subs u !! i = Some (Some s) -> (s_thread s0 = NoThread <-> s_thread s = NoThread) ->
    stops (wait_for sched p i) u (fun _ u' => holds u' /\ Forall2 later (m_subs u) (m_subs u') /\
      exists s', m_subs u' !! i = Some (Some s') /\ p s' = true).
Proof.
  intros Hi Hp. induction n as [|n IHn]; induction d as [|d IHd]; intros u s Hu Hn Hd Hs H0;
    destruct (sub_here u i h Hu Hi) as (s' & Hs' & Eh & Hc & Hid); rewrite Hs in Hs'; injection Hs' as <-;
    (destruct (p s) eqn:Ep; [exists 0%nat, tt, u; split; [split; [done|]; split; [by destruct Hu; eapply later_refl|by exists s]|];
       intros fuel _; destruct fuel; cbn [wait_for]; rewrite (bind_ret _ _ _ _ _ (sub_at_ret i u s Hs)), Ep; done|]);
    (destruct (left_of (s_thread s)) as [|m] eqn:Em; [by rewrite (Hp s Em Hc H0) in Ep|]);
    unfold steps_left in Hn; rewrite Hs, Em in Hn; try lia;
    destruct (tick_ret u Hu) as (u1 & E1 & Hu1 & Hl1 & Ht1 & Hst);
    destruct (Forall2_lookup_l _ _ _ _ _ Hl1 Hs) as (e1 & Hs1 & s00 & s1 & E0 & -> & Hle & Hiff); injection E0 as <-;
    assert (s_thread s0 = NoThread <-> s_thread s1 = NoThread) as H1 by (by rewrite H0).
  - assert (steps_left u1 i <= n)%nat as Hn1.
    { rewrite Nat.add_0_r in Hd. specialize (Hst i h Hi Hd). unfold steps_left in Hst at 2. rewrite Hs, Em in Hst. cbn in Hst. lia. }
    destruct (sched_fair (m_tick u1) h) as (k & Hk & Hkh); [rewrite <- Eh; done|].
    destruct (IHn (k - m_tick u1)%nat u1 s1) as (F & [] & u2 & (Hu2 & Hl2 & Hq) & E2); [done|done| |done|done|].
    { by replace (m_tick u1 + (k - m_tick u1))%nat with k by lia. }
    exists (S F), tt, u2. split; [split; [done|]; split; [by eapply later_trans|done]|].
    intros fuel Hf. destruct fuel as [|fuel]; [lia|]. cbn [wait_for].
    rewrite (bind_ret _ _ _ _ _ (sub_at_ret i u s Hs)), Ep, (bind_ret _ _ _ _ _ E1). apply E2. lia.
  - destruct (IHd u1 s1) as (F & [] & u2 & (Hu2 & Hl2 & Hq) & E2); [done| | |done|done|].
    { unfold steps_left. rewrite Hs1. lia. }
    { rewrite Ht1. by replace (S (m_tick u) + d)%nat with (m_tick u + S d)%nat by lia. }
    exists (S F), tt, u2. split; [split; [done|]; split; [by eapply later_trans|done]|].
    intros fuel Hf. destruct fuel as [|fuel]; [lia|]. cbn [wait_for].
    rewrite (bind_ret _ _ _ _ _ (sub_at_ret i u s Hs)), Ep, (bind_ret _ _ _ _ _ E1). apply E2. lia.
Qed.

Lemma wait_stops p i h s u : holds u -> ids !! i = Some h -> m_subs u !! i = Some (Some s) ->
  (forall s', left_of (s_thread s') = 0%nat -> in_progress s' = counter_at (s_thread s') ->
     (s_thread s = NoThread <-> s_thread s' = NoThread) -> p s' = true) ->
  stops (wait_for sched p i) u (fun _ u' => holds u' /\ Forall2 later (m_subs u) (m_subs u') /\
    exists s', m_subs u' !! i = Some (Some s') /\ p s' = true).
Proof.
  intros Hu Hi Hs Hp. destruct (sched_fair (m_tick u) h) as (k & Hk & Hkh); [by eapply list_elem_of_lookup_2|].
  apply (wait_stops_within p i h s Hi Hp (steps_left u i) (k - m_tick u)%nat u s); [done|done| |done|done].
  by replace (m_tick u + (k - m_tick u))%nat with k by lia.
Qed.

(** Entry [i] has no thread. *)
Definition quiet (u : mworld) (i : nat) : Prop := exists s, m_subs u !! i = Some (Some s) /\ s_thread s = NoThread.

Lemma later_at u u' i s : Forall2 later (m_subs u) (m_subs u') -> m_subs u !! i = Some (Some s) ->
  exists s', m_subs u' !! i = Some (Some s') /\ (left_of (s_thread s') <= left_of (s_thread s))%nat /\
    (s_thread s = NoThread <-> s_thread s' = NoThread).
Proof.
  intros H Hs. destruct (Forall2_lookup_l _ _ _ _ _ H Hs) as (e & He & s0 & s1 & E & -> & H1 & H2).
  injection E as <-. by exists s1.
Qed.

Lemma put_holds u i h t : holds u -> ids !! i = Some h -> counter_at t = 0 ->
  holds (mkMworld (m_r u) (<[i := Some (mkSub h 0 t)]> (m_subs u)) (m_tick u)).
Proof.
  intros [Hr Hl] Hi Ht. split; [done|]. cbn. rewrite <- (list_insert_id ids i h Hi).
  apply Forall2_insert; [done|]. eexists. split; [reflexivity|]. cbn. by split.
Qed.

Lemma later_quiet u u' j : Forall2 later (m_subs u) (m_subs u') -> quiet u j -> quiet u' j.
Proof.
  intros H (s & Hs & Hn). destruct (later_at u u' j s H Hs) as (s' & Hs' & _ & E). exists s'. split; [done|by apply E].
Qed.

Lemma put_quiet u i j s : j <> i -> quiet u j -> quiet (mkMworld (m_r u) (<[i := Some s]> (m_subs u)) (m_tick u)) j.
Proof. intros Hj (s' & Hs' & Hn). exists s'. split; [cbn; by rewrite list_lookup_insert_ne|done]. Qed.

Lemma put_quiet_here u i h : holds u -> ids !! i = Some h ->
  quiet (mkMworld (m_r u) (<[i := finished h]> (m_subs u)) (m_tick u)) i.
Proof.
  intros [_ Hl] Hi%lookup_lt_Some. apply Forall2_length in Hl. eexists. split; [apply list_lookup_insert_eq; lia|done].
Qed.

Lemma thread_finish_stops u i h : holds u -> ids !! i = Some h ->
  stops (thread_finish sched i) u (fun _ u' => holds u' /\ forall j, j = i \/ quiet u j -> quiet u' j).
Proof.
  intros Hu Hi. unfold thread_finish. apply (stops_sub_at i h); [done..|]. intros s Hs Eh Hc.
  case_bool_decide as Hn.
  { apply stops_ret. split; [done|]. intros j [->|Hj]; [by exists s|done]. }
  eapply stops_then; [apply (wait_stops _ i h s u Hu Hi Hs)|].
  { intros s' H0 _ Hiff. unfold returned_body. apply bool_decide_eq_true. destruct (s_thread s'); cbn in H0; try lia; tauto. }
  intros _ u1 (Hu1 & Hl1 & s1 & Hs1 & H1). unfold returned_body in H1. apply bool_decide_eq_true in H1.
  apply (stops_sub_at i h); [done..|]. intros s2 Hs2 Eh2 Hc2. rewrite Hs1 in Hs2. injection Hs2 as <-.
  rewrite H1 in Hc2. cbn in Hc2. rewrite Hc2, Eh2.
  eapply stops_bind; [reflexivity|]. apply stops_ret. split; [by apply put_holds|].
  intros j Hj. destruct (decide (j = i)) as [->|Hne]; [by apply put_quiet_here|]. apply put_quiet; [done|].
  destruct Hj as [->|Hj]; [done|]. by eapply later_quiet.
Qed.

(** One entry of the run phase, its thread not made yet. *)
Lemma run_entry_stops u i h all : holds u -> ids !! i = Some h -> quiet u i ->
  stops (run_entry sched me all i) u (fun n u' => n = 1 /\ holds u' /\ forall j, j <> i -> quiet u j -> quiet u' j).
Proof.
  intros Hu Hi Hq. assert (h ∈ ids) as Hh by by eapply list_elem_of_lookup_2. unfold run_entry.
  apply stops_tick; [done|]. intros u1 Hu1 L1. apply (stops_sub_at i h); [done..|]. intros s1 _ _ _.
  unfold dead_now. eapply stops_bind; [reflexivity|]. cbn beta. rewrite (alive_me _ (proj1 Hu1)). unfold when.
  eapply stops_bind; [reflexivity|]. apply stops_tick; [done|]. intros u2 Hu2 L2.
  apply (stops_sub_at i h); [done..|]. intros s2 Hs2 Eh2 Hc2.
  assert (Forall2 later (m_subs u) (m_subs u2)) as L12 by by eapply later_trans.
  destruct (later_quiet _ _ _ L12 Hq) as (s & Hs & Hn). rewrite Hs2 in Hs. injection Hs as <-.
  rewrite Hn in Hc2. cbn in Hc2. rewrite Hc2. cbn [Z.eqb negb].
  apply stops_tick; [done|]. intros u3 Hu3 L3. eapply stops_bind; [reflexivity|]. cbn beta.
  rewrite Eh2, (alive_ids _ _ (proj1 Hu3) Hh).
  assert (Forall2 later (m_subs u) (m_subs u3)) as L13 by by eapply later_trans.
  destruct (_ && _).
  - eapply stops_then; [by apply (thread_finish_stops u3 i h)|]. intros _ u4 (Hu4 & K4).
    apply stops_tick; [done|]. intros u5 Hu5 L5. apply (stops_sub_at i h); [done..|]. intros s5 Hs5 Eh5 Hc5.
    destruct (later_quiet _ _ _ L5 (K4 i (or_introl eq_refl))) as (s & Hs & Hn5). rewrite Hs5 in Hs. injection Hs as <-.
    rewrite Hn5 in Hc5. cbn in Hc5. rewrite Hc5, Eh5. eapply stops_bind; [reflexivity|]. apply stops_ret.
    split; [done|]. split; [by apply put_holds|]. intros j Hj Hqj. apply put_quiet; [done|].
    apply (later_quiet _ _ _ L5), K4. right. by eapply later_quiet.
  - apply (stops_sub_at i h); [done..|]. intros s3 Hs3 Eh3 Hc3.
    destruct (later_quiet _ _ _ L13 Hq) as (s & Hs & Hn3). rewrite Hs3 in Hs. injection Hs as <-.
    rewrite Hn3 in Hc3. cbn in Hc3.
    destruct (run_sub_returns s3 (m_r u3)) as (r' & E & Hr'); [by apply Hu3|by rewrite Eh3|done|].
    set (u4 := mkMworld r' (m_subs u3) (m_tick u3)).
    apply (stops_bind _ _ _ (mkSub (s_id s3) 0 (s_thread s3)) u4); [unfold in_r; by rewrite E|].
    rewrite Eh3, Hn3. eapply stops_bind; [reflexivity|]. apply stops_ret.
    assert (holds u4) as Hu4 by (split; [done|apply Hu3]).
    split; [done|]. split; [by apply (put_holds u4)|]. intros j Hj Hqj. apply (put_quiet u4); [done|].
    by apply (later_quiet u u3).
Qed.

Lemma run_phase_stops all n : forall i u, holds u -> (i + n = length ids)%nat ->
  (forall j, (i <= j < length ids)%nat -> quiet u j) ->
  stops (run_phase sched me all n i) u (fun k u' => k = Z.of_nat n /\ holds u').
Proof.
  induction n as [|n IH]; intros i u Hu Hn Hq; cbn [run_phase]; [by apply stops_ret|].
  destruct (lookup_lt_is_Some_2 ids i) as [h Hi]; [lia|].
  eapply stops_then; [apply (run_entry_stops u i h all Hu Hi); apply Hq; lia|]. intros a u1 (-> & Hu1 & K1).
  eapply stops_then; [apply (IH (S i) u1 Hu1); [lia|]; intros j Hj; apply K1; [lia|apply Hq; lia]|].
  intros b u2 (-> & Hu2). apply stops_ret. split; [lia|done].
Qed.

Lemma cleanup_stops n : forall i u, holds u -> (i + n = length ids)%nat -> (forall j, (j < i)%nat -> quiet u j) ->
  stops (cleanup sched n i) u (fun _ u' => holds u' /\ forall j, (j < length ids)%nat -> quiet u' j).
Proof.
  induction n as [|n IH]; intros i u Hu Hn Hq; cbn [cleanup].
  { apply stops_ret. split; [done|]. intros j Hj. apply Hq. lia. }
  destruct (lookup_lt_is_Some_2 ids i) as [h Hi]; [lia|]. assert (h ∈ ids) as Hh by by eapply list_elem_of_lookup_2.
  apply stops_tick; [done|]. intros u1 Hu1 L1. destruct (sub_here u1 i h Hu1 Hi) as (s1 & Hs1 & _).
  eapply stops_bind; [reflexivity|]. cbn beta. rewrite Hs1.
  eapply stops_then; [apply (wait_stops _ i h s1 u1 Hu1 Hi Hs1)|].
  { intros s' H0 Hc _. unfold at_rest. rewrite Hc. by destruct (s_thread s'). }
  intros _ u2 (Hu2 & L2 & _). eapply stops_then; [by apply (thread_finish_stops u2 i h)|]. intros _ u3 (Hu3 & K3).
  apply stops_tick; [done|]. intros u4 Hu4 L4. apply (stops_sub_at i h); [done..|]. intros s4 Hs4 Eh4 _.
  unfold dead_now. eapply stops_bind; [reflexivity|]. cbn beta. rewrite Eh4, (alive_ids _ _ (proj1 Hu4) Hh).
  apply IH; [done|lia|]. intros j Hj. apply (later_quiet _ _ _ L4), K3.
  destruct (decide (j = i)) as [->|Hne]; [by left|right]. apply (later_quiet _ _ _ L2), (later_quiet _ _ _ L1), Hq. lia.
Qed.

Lemma quiet_finished u : holds u -> (forall j, (j < length ids)%nat -> quiet u j) -> m_subs u = finished <$> ids.
Proof.
  intros [_ Hl] Hq. apply list_eq. intros j. rewrite list_lookup_fmap. destruct (ids !! j) as [h|] eqn:Ej.
  - destruct (Forall2_lookup_r _ _ _ _ _ Hl Ej) as (e & He & [k c t] & -> & <- & Hc).
    destruct (Hq j) as (s & Hs & Hn); [by apply lookup_lt_Some in Ej|]. rewrite He in Hs. injection Hs as <-.
    cbn in *. subst t. cbn in Hc. by subst c.
  - apply lookup_ge_None. apply lookup_ge_None in Ej. apply Forall2_length in Hl. lia.
Qed.
End completes.

(** [C39] A master's round ends under every fair schedule of the sub-proxies' threads, one
    that lets each thread take a step again and again: the threads may stand before, inside
    or behind their bodies whenever the master spawns, tests a progress counter or joins,
    the steps of a body being raising the counter, the sub-proxy's round and lowering the
    counter.  If the master's own round returns, every sub-proxy's round returns, and these
    rounds leave the master and the sub-proxies alive, then there is a number of turns from
    which on the round of a master whose entries (at least one, of different sub-proxies)
    are at rest and without thread returns, always with the same result: every sub-proxy
    counted once, all kept in order, no thread and no raised counter left.  The round of one
    sub-proxy is a single step, and threads can always be made. *)
Theorem master_round_completes (I : rworld -> Prop) sched me ids u n r :
  (forall r, I r -> is_dead me r = false) ->
  (forall r h, I r -> h ∈ ids -> is_dead h r = false) ->
  (forall r h, I r -> h ∈ ids ->
     exists a r', on_proxy h (handle_sockets_once (r_result r)) r = Ret a r' /\ I r') ->
  (forall n h, h ∈ ids -> exists k, (n <= k)%nat /\ h ∈ sched k) ->
  NoDup ids -> ids <> [] -> Forall2 resting (m_subs u) ids ->
  on_proxy me (handle_sockets_once (r_result (m_r u))) (m_r u) = Ret n r -> I r ->
  exists turns u', m_subs u' = finished <$> ids /\ I (m_r u') /\
    forall fuel, (turns <= fuel)%nat -> master_once sched fuel me u = Ret (Some (zlen ids)) u'.
Proof.
  intros Hm Hd Hr Hs Hnd Hne Hl Hown Hi. set (u1 := mkMworld r (m_subs u) (m_tick u)).
  pose proof (Forall2_length _ _ _ Hl) as Hlen.
  assert (holds I ids u1) as Hu1.
  { split; [done|]. eapply Forall2_impl; [exact Hl|]. intros e h (s & -> & E & Hp & Hn). exists s. by rewrite Hn. }
  assert (forall j, (j < length ids)%nat -> quiet u1 j) as Hq.
  { intros j Hj. destruct (lookup_lt_is_Some_2 ids j Hj) as [h Hjh].
    destruct (Forall2_lookup_r _ _ _ _ _ Hl Hjh) as (e & He & s & -> & _ & _ & Hn). by exists s. }
  assert (stops (fun f => and_then (run_phase sched me (zlen (m_subs u1)) (length (m_subs u1)) 0 f) (fun k =>
                 and_then (cleanup sched (length (m_subs u1)) 0 f) (fun _ => mret_ (Some k)))) u1
            (fun k u' => k = zlen ids /\ holds I ids u' /\ forall j, (j < length ids)%nat -> quiet u' j)) as E.
  { cbn [m_subs u1]. rewrite Hlen. eapply stops_then; [apply (run_phase_stops I me ids sched); try done; intros; apply Hq; lia|].
    intros k u2 (-> & Hu2). eapply stops_then; [by apply (cleanup_stops I ids sched); try done; intros; lia|].
    intros _ u3 (Hu3 & Hq3). by apply stops_ret. }
  destruct E as (F & k & u' & (-> & Hu' & Hq') & E). exists F, u'. split; [by apply (quiet_finished I)|]. split; [apply Hu'|].
  intros fuel Hf. unfold master_once. rewrite (own_round_ok _ _ _ _ Hown). fold u1. rewrite bool_decide_false; [by apply E|].
  cbn. intros E0. apply Hne. destruct ids; [done|]. by rewrite E0 in Hlen.
Qed.
End master.

(** ** On concrete workers *)

#[export] Instance demo_worker_env : WorkerEnv := {|
  handle_event h w := w;
  resolve_dst n s := ("0.0.0.0", "80")%string;
  com_bind n p := (12, n)
|}.

#[export] Instance demo_destroy : Destroy := {| com_cleanup n k := n; com_close n fd := n |}.

(** How a computation ended. *)
Definition ended {W A} (o : outcome W A) : option exn :=
  match o with Throw e _ => Some e | _ => None end.
Definition returned {W A} (o : outcome W A) : option A :=
  match o with Ret a _ => Some a | _ => None end.
Definition state_of {W A} (o : outcome W A) (d : W) : W :=
  match o with Ret _ w | Throw _ w => w | Undef => d end.

Lemma ended_throw {W A} (o : outcome W A) d e : ended o = Some e -> o = Throw e (state_of o d).
Proof. destruct o; simpl; congruence. Qed.

Lemma returned_ret {W A} (o : outcome W A) d a : returned o = Some a -> o = Ret a (state_of o d).
Proof. destruct o; simpl; congruence. Qed.

Definition bare_proxy (h : Z) (binds : list Z) : proxy :=
  mkProxy h true (mkLists [] binds [] []) (mkLists [] [] [] []) false false false false false
    false false false 0 0 (meter_new 1 0) (meter_new 1 0) 0 0 [].

(** A worker whose poller reports descriptor 7 readable: of the listening context 1 of
    proxy 501 or of nobody. *)
Definition demo_worker (res : Z) (binds : list Z) : rworld :=
  mkRworld
    (mkWorld (<[1 := demo_cx 7 0 false []]> ∅)
       (mkEpoller (Some (set_sets {[7]} ∅ {[7]} ∅ demo_poller)) (<[7 := 501]> ∅) ∅) [] 100 ∅ false)
    (<[500 := HProxy (bare_proxy 500 [])]> (<[501 := HProxy (bare_proxy 501 binds)]>
      (<[502 := HProxy (bare_proxy 502 [])]> ∅)))
    ∅ polls0 res.

Lemma ready_socket_served_witness :
  exists r', (exists p', run_poll_socket 500 7 ERRSET (demo_worker 0 [1]) = Ret (mkPolls 1 0 0 0) r' /\
                r_objs r' !! 501 = Some (HProxy p') /\ dead p' = true) \/
    run_poll_socket 500 7 ERRSET (demo_worker 0 [1]) = Throw runtime_error r'.
Proof.
  destruct (ready_socket_served 500 7 ERRSET (demo_worker 0 [1]) 501 (bare_proxy 501 [1]))
    as [(r' & p' & E & H & _ & _ & _ & D & _)|(r' & E)].
  - reflexivity.
  - reflexivity.
  - split.
    + intros i c Hc. simpl in Hc. apply lookup_insert_Some in Hc as [[<- <-]|[_ Hc]]; [by left|].
      by rewrite lookup_empty in Hc.
    + intros []; simpl; repeat constructor. by eexists.
  - exists r'. left. exists p'. split; [exact E|]. split; [exact H|]. by apply D.
  - exists r'. right. exact E.
Defined.

Lemma exception_wedges_master_witness :
  exists u', master_once (fun _ => [501]) 1000 500
    (mkMworld (demo_worker 1 [1]) [Some (mkSub 501 0 NoThread)] 0) = Ret None u'.
Proof.
  set (r0 := demo_worker 1 [1]).
  set (o1 := on_proxy 500 (handle_sockets_once 1) r0).
  assert (E1 : o1 = Ret 0 (state_of o1 r0)) by (apply returned_ret; vm_compute; reflexivity).
  set (r1 := state_of o1 r0) in *.
  set (o2 := on_proxy 501 (handle_sockets_once (r_result r1)) r1).
  assert (E2 : o2 = Throw runtime_error (state_of o2 r1)) by (apply ended_throw; vm_compute; reflexivity).
  eapply (exception_wedges_master (fun _ => [501]) 1000 500
            (mkMworld r0 [Some (mkSub 501 0 NoThread)] 0) (mkSub 501 0 NoThread) 0 r1 runtime_error (state_of o2 r1)).
  - reflexivity.
  - reflexivity.
  - reflexivity.
  - exact E1.
  - vm_compute. reflexivity.
  - vm_compute. reflexivity.
  - exact E2.
Defined.

(** A live proxy without contexts, polled with an error result. *)
Definition bare (p : proxy) : Prop :=
  px_left p = mkLists [] [] [] [] /\ px_right p = mkLists [] [] [] [] /\ dead p = false.

Lemma bare_round w p :
  bare p -> exists a u, handle_sockets_once (-1) (mkPworld w p) = Ret a u /\ bare (px u).
Proof.
  intros Hp. assert (exists b u, run_timers (mkPworld w p) = Ret b u /\ bare (px u)) as (b & u & E & Hu).
  { unfold run_timers, reset_timer. destruct p as [i lr l r d e1 e2 e3 e4 n1 n2 raw lrd lwr m1 m2 st tk tr].
    destruct Hp as (Hl & Hr & Hd). simpl in Hl, Hr, Hd. subst l r d.
    destruct (1 <? u64 (w_now w - tk)) eqn:Et;
      (eexists _, _; split; [unfold mbind_, lift, now, pget, gets; simpl; rewrite Et; reflexivity|done]). }
  unfold handle_sockets_once. rewrite (bind_ret _ _ _ _ _ E). eexists _, _. split; [reflexivity|]. exact Hu.
Qed.

Definition all_bare (r : rworld) : Prop :=
  r_result r = -1 /\ forall h, h ∈ [500; 501; 502] -> exists p, r_objs r !! h = Some (HProxy p) /\ bare p.

Lemma all_bare_round r h :
  all_bare r -> h ∈ [500; 501; 502] ->
  exists a r', on_proxy h (handle_sockets_once (r_result r)) r = Ret a r' /\ all_bare r'.
Proof.
  intros [Hn Ho] Hh. destruct (Ho h Hh) as (p & Hp & Hb). rewrite Hn.
  destruct (bare_round (r_w r) p Hb) as (a & u & E & Hu). unfold on_proxy. rewrite Hp, E.
  eexists a, _. split; [reflexivity|]. split; [done|]. intros k Hk. simpl.
  destruct (decide (h = k)) as [->|Hne].
  - exists (px u). by rewrite lookup_insert_eq.
  - rewrite lookup_insert_ne by done. by apply Ho.
Qed.

Lemma all_bare_alive r h : all_bare r -> h ∈ [500; 501; 502] -> is_dead h r = false.
Proof. intros [_ Ho] Hh. destruct (Ho h Hh) as (p & Hp & _ & _ & Hd). unfold is_dead. by rewrite Hp. Qed.

Lemma demo_all_bare : all_bare (demo_worker (-1) []).
Proof.
  split; [done|]. intros h Hh. rewrite !elem_of_cons in Hh.
  destruct Hh as [->|[->|[->|Hh]]]; [by eexists..|by apply not_elem_of_nil in Hh].
Qed.

Lemma master_round_completes_witness :
  exists fuel u', master_once (fun _ => [501; 502]) fuel 500
      (mkMworld (demo_worker (-1) []) [Some (mkSub 501 0 NoThread); Some (mkSub 502 0 NoThread)] 0) =
      Ret (Some 2) u' /\
    m_subs u' = [Some (mkSub 501 0 NoThread); Some (mkSub 502 0 NoThread)].
Proof.
  set (subs := [Some (mkSub 501 0 NoThread); Some (mkSub 502 0 NoThread)]).
  destruct (all_bare_round (demo_worker (-1) []) 500 demo_all_bare) as (n & r & E & Hr); [left|].
  destruct (master_round_completes all_bare (fun _ => [501; 502]) 500 [501; 502]
              (mkMworld (demo_worker (-1) []) subs 0) n r) as (F & u' & S & _ & E').
  - intros r0 H0. apply all_bare_alive; [exact H0|left].
  - intros r0 h H0 Hh. apply all_bare_alive; [exact H0|]. right. exact Hh.
  - intros r0 h H0 Hh. apply all_bare_round; [exact H0|]. right. exact Hh.
  - intros k h Hh. exists k. split; [reflexivity|exact Hh].
  - apply (bool_decide_unpack _). vm_compute. exact Logic.I.
  - discriminate.
  - repeat constructor; eexists; repeat split.
  - exact E.
  - exact Hr.
  - exists F, u'. split; [apply E'; reflexivity|exact S].
Defined.

(** What becomes of a sub-proxy whose round throws in a thread depends on the schedule: if
    the body ends before the cleanup tests its counter, the cleanup waits for it; if it has
    not begun by then, the cleanup joins it and deletes the dead proxy. *)
Example exception_race :
  let u := mkMworld (demo_worker 1 [1]) [Some (mkSub 501 0 NoThread); Some (mkSub 502 0 NoThread)] 0 in
  match master_once (fun _ => [501; 502]) 100 500 u with Ret None _ => True | _ => False end /\
  match master_once (fun n => if Nat.ltb n 9 then [] else [501; 502]) 100 500 u with
  | Ret (Some 2) u' => m_subs u' = [Some (mkSub 502 0 NoThread)]
  | _ => False
  end.
Proof. vm_compute. done. Qed.
