(* ===== verification/PtrCache.v ===== *)
(** * PtrCache: the bounded key-value cache (common/ptr_cache.hpp)

    A hash map of data blocks and a queue of keys, newest first, that decides what to
    evict: first in first out, or with a second chance for keys used more than average.
    The lock makes every member function atomic.  Dereferencing the end iterator and
    taking the end of an empty queue are undefined. *)

From S2P Require Export Effects.

Inductive mode_t : Type := FIFO | LRU.

#[export] Instance mode_t_eq_dec : EqDecision mode_t.
Proof. solve_decision. Defined.

Section cache.
Context {K : Type} `{Countable K} {V : Type}.

(** [DataBlock]: the value, the number of touches, whether it shares the statistics. *)
Record block : Type := mkBlock { b_ptr : V; b_count : Z; b_dbs : bool }.

Record cache : Type := mkCache {
  blocks : gmap K block;           (* cache_ *)
  items : list K;                  (* items_ *)
  mode_ : mode_t;
  max_size_ : Z;
  dbs_ : option Z;                 (* total_counter *)
  fn_expired : option (V -> bool)
}.

Definition set_blocks (m : gmap K block) (c : cache) : cache :=
  mkCache m (items c) (mode_ c) (max_size_ c) (dbs_ c) (fn_expired c).
Definition set_items (l : list K) (c : cache) : cache :=
  mkCache (blocks c) l (mode_ c) (max_size_ c) (dbs_ c) (fn_expired c).
Definition set_dbs (d : option Z) (c : cache) : cache :=
  mkCache (blocks c) (items c) (mode_ c) (max_size_ c) d (fn_expired c).

Definition cache_new (max : Z) (exp : option (V -> bool)) : cache := mkCache ∅ [] FIFO max None exp.

Definition mode_lru (c : cache) : cache :=
  mkCache (blocks c) (items c) LRU (max_size_ c) (Some (default 0 (dbs_ c))) (fn_expired c).
Definition mode_fifo (c : cache) : cache :=
  mkCache (blocks c) (items c) FIFO (max_size_ c) (dbs_ c) (fn_expired c).

Definition clear (c : cache) : cache := set_items [] (set_blocks ∅ c).
Definition size (c : cache) : Z := Z.of_nat (size (blocks c)).

(** [erase]: the key stays in the queue. *)
Definition erase (k : K) : M cache bool := fun c =>
  match blocks c !! k with
  | Some _ => Ret true (set_blocks (delete k (blocks c)) c)
  | None => Ret false c
  end.

(** The queue's ends. *)
Definition back : M cache K := fun c =>
  match last (items c) with Some k => Ret k c | None => Undef end.
Definition front : M cache K := fun c =>
  match head (items c) with Some k => Ret k c | None => Undef end.
Definition pop_back : M cache unit := fun c =>
  match items c with [] => Undef | _ => Ret tt (set_items (removelast (items c)) c) end.
Definition pop_front : M cache unit := fun c =>
  match items c with [] => Undef | _ :: l => Ret tt (set_items l c) end.
Definition push_front (k : K) : M cache unit := modify (fun c => set_items (k :: items c) c).

Definition delete_last : M cache bool :=
  k <- back ;;
  r <- erase k ;;
  pop_back ;;;
  mret_ r.

Definition lru_reoder : M cache bool :=
  last_key <- back ;;
  last_it <- gets (fun c => blocks c !! last_key) ;;
  first_key <- front ;;
  first_it <- gets (fun c => blocks c !! first_key) ;;
  match first_it with
  | None => undef
  | Some first_b =>
      criteria <- gets (fun c => match dbs_ c with
                                 | Some t => t / zlen (items c)
                                 | None => b_count first_b
                                 end) ;;
      match last_it with
      | Some last_b =>
          if criteria <? b_count last_b then
            push_front last_key ;;; pop_back ;;; mret_ true
          else mret_ false
      | None => pop_back ;;; mret_ false
      end
  end.

(** [touch] of the block of [k]. *)
Definition touch (k : K) : M cache unit := fun c =>
  match blocks c !! k with
  | Some b =>
      Ret tt (set_dbs (if b_dbs b then (fun t => u32 (t + 1)) <$> dbs_ c else dbs_ c)
        (set_blocks (<[k := mkBlock (b_ptr b) (u32 (b_count b + 1)) (b_dbs b)]> (blocks c)) c))
  | None => Undef
  end.

(** [get]; [None] is the default value, the null pointer. *)
Definition cache_get (k : K) : M cache (option V) := fun c =>
  match blocks c !! k with
  | None => Ret None c
  | Some b =>
      if match fn_expired c with Some f => f (b_ptr b) | None => false end then
        (erase k ;;; mret_ None) c
      else
        (when (bool_decide (mode_ c = LRU)) (touch k ;;; lru_reoder ;;; mret_ tt) ;;;
         mret_ (Some (b_ptr b))) c
  end.

(** The eviction loop of [set]; every turn shortens the queue, so its length is enough
    fuel. *)
Fixpoint evict (fuel : nat) : M cache unit := fun c =>
  if max_size_ c <=? zlen (items c) then
    match fuel with
    | O => Undef
    | S fuel =>
        (when (bool_decide (mode_ c = LRU)) (lru_reoder ;;; mret_ tt) ;;;
         delete_last ;;;
         evict fuel) c
    end
  else Ret tt c.

Definition fresh_block (v : V) (c : cache) : block :=
  mkBlock v 0 (match dbs_ c with Some _ => true | None => false end).

Definition cache_set (k : K) (v : V) : M cache bool := fun c =>
  match blocks c !! k with
  | Some _ => Ret true (set_blocks (<[k := fresh_block v c]> (blocks c)) c)
  | None =>
      (when (0 <? max_size_ c) (evict (length (items c))) ;;;
       modify (fun c => set_blocks (<[k := fresh_block v c]> (blocks c)) c) ;;;
       push_front k ;;;
       mret_ false) c
  end.
End cache.
Arguments block : clear implicits.
Arguments cache K {_ _} V.
