(* ===== verification/PtrCacheProps.v ===== *)
(** * PtrCacheProps: the cache against a window of the newest keys *)

From S2P Require Export PtrCache.

Section cache.
Context {K : Type} `{Countable K} {V : Type}.
Implicit Types (c : cache K V) (k : K) (v : V).

(** ** Well-formed caches

    The queue holds every cached key once and nothing else, within the size limit. *)
Definition cache_wf c : Prop :=
  NoDup (items c) /\ (forall k, k ∈ items c <-> is_Some (blocks c !! k)) /\
  (0 < max_size_ c -> zlen (items c) <= max_size_ c).

(** What the cache holds, newest first. *)
Definition window c : list (K * option V) := (fun k => (k, b_ptr <$> blocks c !! k)) <$> items c.

(** ** The specification *)

Definition spec_get k (l : list (K * option V)) : option V :=
  match list_find (fun e => e.1 = k) l with Some (_, (_, v)) => v | None => None end.

Definition spec_set (max : Z) k v (l : list (K * option V)) : list (K * option V) :=
  if bool_decide (k ∈ l.*1) then (fun e => if bool_decide (e.1 = k) then (k, Some v) else e) <$> l
  else (k, Some v) :: (if 0 <? max then take (Z.to_nat max - 1) l else l).

Inductive cop : Type := Get (k : K) | Set_ (k : K) (v : V).

(** A get answers the value, a set whether it replaced one. *)
Inductive answer : Type := AGet (v : option V) | ASet (b : bool).

Definition do_op (o : cop) : M (cache K V) answer :=
  match o with
  | Get k => v <- cache_get k ;; mret_ (AGet v)
  | Set_ k v => b <- cache_set k v ;; mret_ (ASet b)
  end.

Fixpoint run_ops (l : list cop) : M (cache K V) (list answer) :=
  match l with
  | [] => mret_ []
  | o :: r => a <- do_op o ;; rest <- run_ops r ;; mret_ (a :: rest)
  end.

Definition spec_op (max : Z) (o : cop) (l : list (K * option V)) : answer * list (K * option V) :=
  match o with
  | Get k => (AGet (spec_get k l), l)
  | Set_ k v => (ASet (bool_decide (k ∈ l.*1)), spec_set max k v l)
  end.

Fixpoint spec_ops (max : Z) (os : list cop) (l : list (K * option V)) : list answer * list (K * option V) :=
  match os with
  | [] => ([], l)
  | o :: r => let '(a, l1) := spec_op max o l in let '(rest, l2) := spec_ops max r l1 in (a :: rest, l2)
  end.

(** ** Lemmas *)

Lemma window_keys c : (window c).*1 = items c.
Proof. unfold window. rewrite <- list_fmap_compose. apply list_fmap_id. Qed.

Lemma spec_get_window c k :
  (forall k, k ∈ items c <-> is_Some (blocks c !! k)) ->
  spec_get k (window c) = b_ptr <$> blocks c !! k.
Proof.
  intros Hk. unfold spec_get, window. rewrite list_find_fmap. 
  destruct (list_find _ (items c)) as [[i k']|] eqn:E; simpl.
  - apply list_find_Some in E as (_ & E & _). simpl in E. by subst k'.
  - apply list_find_None in E. destruct (blocks c !! k) as [b|] eqn:Eb; [|done].
    assert (k ∈ items c) as Hin by (apply Hk; by eexists).
    by destruct (proj1 (Forall_forall _ _) E k Hin).
Qed.

Lemma last_split (l : list K) : l <> [] -> exists k, last l = Some k /\ l = removelast l ++ [k].
Proof.
  intros Hl. destruct (exists_last Hl) as (l' & k & ->). exists k.
  by rewrite last_snoc, removelast_last.
Qed.

Lemma delete_last_ret c :
  cache_wf c -> items c <> [] ->
  exists k, last (items c) = Some k /\
    delete_last c = Ret true (set_items (removelast (items c)) (set_blocks (delete k (blocks c)) c)) /\
    cache_wf (set_items (removelast (items c)) (set_blocks (delete k (blocks c)) c)).
Proof.
  intros (Hnd & Hk & Hm) Hne. destruct (last_split _ Hne) as (k & Hl & Es). exists k. split; [done|].
  assert (k ∈ items c) as Hin by (rewrite Es; set_solver).
  destruct (proj1 (Hk k) Hin) as [b Hb].
  split.
  - unfold delete_last, back, mbind_ at 1. rewrite Hl. unfold mbind_ at 1, erase. rewrite Hb.
    unfold mbind_, pop_back. simpl. destruct (items c); done.
  - rewrite Es in Hnd. apply NoDup_app in Hnd as (Hnd & Hdis & _).
    assert (k ∉ removelast (items c)) as Hnk by (intros Hx; apply (Hdis k Hx); left).
    split; [done|]. split.
    + intros k'. simpl. destruct (decide (k = k')) as [<-|Hne'].
      * rewrite lookup_delete_eq. split; [done|by intros [? ?]].
      * rewrite lookup_delete_ne, <- Hk by done. rewrite Es at 2. set_solver.
    + simpl. intros Hpos. specialize (Hm Hpos). rewrite Es in Hm. rewrite zlen_app in Hm.
      change (zlen [k]) with 1 in Hm. lia.
Qed.

(** Reordering keeps the cache, and at most turns the last key to the front. *)
Lemma lru_reoder_ret c :
  cache_wf c -> items c <> [] ->
  exists r l, lru_reoder c = Ret r (set_items l c) /\ cache_wf (set_items l c) /\
    length l = length (items c).
Proof.
  intros (Hnd & Hk & Hm) Hne. destruct (last_split _ Hne) as (k & Hl & Es).
  assert (k ∈ items c) as Hin by (rewrite Es; set_solver).
  destruct (proj1 (Hk k) Hin) as [b Hb].
  destruct (items c) as [|f r] eqn:Ei; [done|].
  destruct (proj1 (Hk f)) as [bf Hf]; [left|].
  assert (E : exists crit, lru_reoder c = (if crit <? b_count b then push_front k ;;; pop_back ;;; mret_ true else mret_ false) c).
  { eexists. unfold lru_reoder. rewrite (bind_ret _ _ c k c) by (unfold back; by rewrite Ei, Hl).
    rewrite bind_gets, (bind_ret _ _ c f c) by (unfold front; by rewrite Ei).
    rewrite bind_gets, Hf, bind_gets, Hb. reflexivity. }
  destruct E as [crit E]. rewrite E. destruct (crit <? b_count b).
  - exists true, (k :: removelast (f :: r)). unfold push_front, mbind_, modify, pop_back. rewrite Ei. simpl items.
    split; [done|].
    assert (Permutation (k :: removelast (f :: r)) (f :: r)) as HP.
    { rewrite Es at 2. by rewrite <- Permutation_cons_append. }
    split; [|by rewrite HP]. split; [simpl; by rewrite HP|]. split; [intros k'; simpl; by rewrite HP|].
    intros Hpos. cbn [items set_items max_size_]. rewrite (zlen_perm _ _ HP). by apply Hm.
  - exists false, (f :: r). assert (set_items (f :: r) c = c) as -> by (destruct c; simpl in *; by subst).
    split; [done|]. split; [split; [by rewrite Ei|split; [by rewrite Ei|by rewrite Ei]]|done].
Qed.

(** The settings of a cache. *)
Definition same_config c c' : Prop :=
  mode_ c' = mode_ c /\ max_size_ c' = max_size_ c /\ fn_expired c' = fn_expired c.

Lemma window_removelast c :
  cache_wf c -> items c <> [] -> forall k, last (items c) = Some k ->
  window (set_items (removelast (items c)) (set_blocks (delete k (blocks c)) c)) = removelast (window c).
Proof.
  intros (Hnd & _ & _) Hne k Hl. destruct (last_split _ Hne) as (k' & Hl' & Es).
  rewrite Hl in Hl'. injection Hl' as <-. unfold window. simpl. rewrite Es at 2.
  rewrite fmap_app. simpl. rewrite removelast_last.
  rewrite Es in Hnd. apply NoDup_app in Hnd as (_ & Hdis & _).
  apply list_fmap_ext. intros i x Hx. assert (x <> k).
  { intros ->. apply (Hdis k); [by eapply list_elem_of_lookup_2|left]. }
  by rewrite lookup_delete_ne.
Qed.

Lemma window_length c : length (window c) = length (items c).
Proof. apply length_fmap. Qed.

(** Evicting makes room for one key; first in first out, it forgets the oldest. *)
Lemma evict_ret fuel c :
  cache_wf c -> 0 < max_size_ c -> (length (items c) <= fuel)%nat ->
  exists c', evict fuel c = Ret tt c' /\ cache_wf c' /\ zlen (items c') < max_size_ c /\ same_config c c' /\
    (forall k, is_Some (blocks c' !! k) -> is_Some (blocks c !! k)) /\
    (mode_ c = FIFO -> window c' = take (Z.to_nat (max_size_ c) - 1) (window c)).
Proof.
  revert c. induction fuel as [|fuel IH]; intros c Hwf Hpos Hf; simpl;
    destruct (Z.leb_spec (max_size_ c) (zlen (items c))) as [Hle|Hlt].
  - destruct (items c); [rewrite zlen_nil in Hle|simpl in Hf]; lia.
  - exists c. split; [done|]. split; [done|]. split; [done|]. split; [done|]. split; [done|]. intros _.
    rewrite take_ge; [done|]. rewrite window_length. rewrite zlen_length in Hlt. lia.
  - assert (items c <> []) as Hne by (intros E; rewrite E, zlen_nil in Hle; lia).
    assert (exists l, when (bool_decide (mode_ c = LRU)) (lru_reoder ;;; mret_ tt) c = Ret tt (set_items l c) /\
      cache_wf (set_items l c) /\ length l = length (items c) /\ (mode_ c = FIFO -> l = items c))
      as (l & E1 & H1 & L1 & F1).
    { unfold when. case_bool_decide as Em.
      - destruct (lru_reoder_ret c Hwf Hne) as (r & l & E & H1 & L). exists l.
        rewrite (bind_ret _ _ _ _ _ E). split; [done|]. split; [done|]. split; [done|]. congruence.
      - exists (items c). assert (set_items (items c) c = c) as -> by by destruct c. done. }
    rewrite (bind_ret _ _ _ _ _ E1).
    set (c1 := set_items l c) in *.
    assert (items c1 <> []) as Hne1 by (intros E; simpl in E; subst l; destruct (items c); done).
    destruct (delete_last_ret c1 H1 Hne1) as (k & Hl & E2 & H2). rewrite (bind_ret _ _ _ _ _ E2).
    set (c2 := set_items (removelast (items c1)) (set_blocks (delete k (blocks c1)) c1)) in *.
    destruct (last_split _ Hne1) as (k' & _ & Es).
    assert (length (items c1) = S (length (removelast (items c1)))) as El by (rewrite Es at 1; rewrite length_app; simpl; lia).
    destruct (IH c2 H2 Hpos) as (c3 & E3 & H3 & L3 & S3 & B3 & W3); [simpl in *; lia|].
    exists c3. split; [exact E3|]. split; [done|]. split; [exact L3|]. split; [exact S3|].
    split.
    { intros k0 Hk0. specialize (B3 k0 Hk0). simpl in B3. destruct B3 as [b Hb].
      apply lookup_delete_Some in Hb as [_ Hb]. by exists b. }
    intros Hm. rewrite (W3 Hm). unfold c2. rewrite window_removelast by done. simpl max_size_.
    assert (c1 = c) as Ec1 by (unfold c1; rewrite (F1 Hm); by destruct c). rewrite Ec1 in *.
    pose proof (proj2 (proj2 Hwf) Hpos) as Hmax. clear -Hmax Hle Hpos El.
    rewrite removelast_firstn_len, take_take, window_length. f_equal. rewrite zlen_length in *. lia.
  - exists c. split; [done|]. split; [done|]. split; [done|]. split; [done|]. split; [done|]. intros _.
    rewrite take_ge; [done|]. rewrite window_length. rewrite zlen_length in Hlt. lia.
Qed.

Lemma in_window c k :
  (forall k, k ∈ items c <-> is_Some (blocks c !! k)) -> (k ∈ (window c).*1 <-> is_Some (blocks c !! k)).
Proof. intros Hk. by rewrite window_keys, Hk. Qed.

(** A key that is there gets the new value in its place. *)
Lemma set_replace_ret c k v b :
  cache_wf c -> blocks c !! k = Some b ->
  exists c', cache_set k v c = Ret true c' /\ cache_wf c' /\ same_config c c' /\
    window c' = (fun e => if bool_decide (e.1 = k) then (k, Some v) else e) <$> window c.
Proof.
  intros (Hnd & Hk & Hm) Hb. unfold cache_set. rewrite Hb. eexists. split; [reflexivity|].
  split.
  { split; [done|]. split; [|done]. intros k'. simpl. rewrite Hk. destruct (decide (k = k')) as [<-|Hne].
    - rewrite lookup_insert_eq, Hb. split; by eexists.
    - by rewrite lookup_insert_ne. }
  split; [done|]. unfold window. simpl. rewrite <- list_fmap_compose. apply list_fmap_ext.
  intros i k' _. simpl. case_bool_decide as E.
  - subst k'. by rewrite lookup_insert_eq.
  - by rewrite lookup_insert_ne.
Qed.

(** A new key comes first. *)
Lemma set_new_ret c k v :
  cache_wf c -> 0 <= max_size_ c -> blocks c !! k = None ->
  exists c', cache_set k v c = Ret false c' /\ cache_wf c' /\ same_config c c' /\
    (mode_ c = FIFO -> window c' =
       (k, Some v) :: if 0 <? max_size_ c then take (Z.to_nat (max_size_ c) - 1) (window c) else window c).
Proof.
  intros Hwf Hpos Hb. pose proof Hwf as (_ & Hk & _). unfold cache_set. rewrite Hb.
  assert (exists c1, when (0 <? max_size_ c) (evict (length (items c))) c = Ret tt c1 /\ cache_wf c1 /\
    same_config c c1 /\ (0 < max_size_ c -> zlen (items c1) < max_size_ c) /\ blocks c1 !! k = None /\
    (mode_ c = FIFO -> window c1 = if 0 <? max_size_ c then take (Z.to_nat (max_size_ c) - 1) (window c) else window c))
    as (c1 & E1 & H1 & S1 & L1 & B1 & W1).
  { unfold when. destruct (Z.ltb_spec 0 (max_size_ c)) as [Hlt|Hge].
    - destruct (evict_ret (length (items c)) c Hwf Hlt) as (c1 & E1 & H1 & L1 & S1 & B1 & W1); [done|].
      exists c1. split; [done|]. split; [done|]. split; [done|]. split; [done|]. split; [|done].
      destruct (blocks c1 !! k) as [b|] eqn:Eb; [|done]. destruct (B1 k) as [? E]; [by eexists|]. congruence.
    - exists c. split; [done|]. split; [done|]. split; [done|]. split; [lia|]. done. }
  rewrite (bind_ret _ _ _ _ _ E1), bind_modify. unfold push_front. rewrite bind_modify.
  eexists. split; [reflexivity|]. destruct H1 as (Hnd & Hk1 & Hm). destruct S1 as (Sm & Sx & Se).
  assert (k ∉ items c1) as Hnin by (rewrite Hk1, B1; by intros [? ?]).
  split.
  { split; [by constructor|]. split.
    - intros k'. simpl. rewrite elem_of_cons, Hk1. destruct (decide (k = k')) as [<-|Hne].
      + rewrite lookup_insert_eq. split; [by eexists|by left].
      + rewrite lookup_insert_ne by done. split; [intros [?|?]; [congruence|done]|by right].
    - simpl. intros Hlt. rewrite Sx in *. specialize (L1 Hlt). rewrite zlen_cons. lia. }
  split; [done|]. intros Hmode. rewrite <- (W1 Hmode). unfold window. simpl. rewrite lookup_insert_eq. f_equal.
  apply list_fmap_ext. intros i k' Hi. rewrite lookup_insert_ne; [done|]. intros <-.
  apply Hnin. by eapply list_elem_of_lookup_2.
Qed.

Lemma touch_ret c k b :
  cache_wf c -> blocks c !! k = Some b ->
  exists c', touch k c = Ret tt c' /\ cache_wf c' /\ same_config c c' /\ items c' = items c.
Proof.
  intros (Hnd & Hk & Hm) Hb. unfold touch. rewrite Hb. eexists. split; [reflexivity|]. split; [|done].
  split; [done|]. split; [|done]. intros k'. simpl. rewrite Hk. destruct (decide (k = k')) as [<-|Hne].
  - rewrite lookup_insert_eq, Hb. split; by eexists.
  - by rewrite lookup_insert_ne.
Qed.

Lemma get_ret c k :
  cache_wf c -> fn_expired c = None ->
  exists c', cache_get k c = Ret (b_ptr <$> blocks c !! k) c' /\ cache_wf c' /\ same_config c c' /\
    (mode_ c = FIFO -> c' = c).
Proof.
  intros Hwf Hx. unfold cache_get. destruct (blocks c !! k) as [b|] eqn:Hb; [|by exists c].
  rewrite Hx. unfold when. case_bool_decide as Em; [|exists c; by rewrite bind_pure].
  destruct (touch_ret c k b Hwf Hb) as (c1 & E1 & H1 & S1 & I1).
  assert (items c1 <> []) as Hne.
  { rewrite I1. intros E. destruct Hwf as (_ & Hk & _). assert (k ∈ items c) as Hin by (apply Hk; by eexists).
    rewrite E in Hin. by apply not_elem_of_nil in Hin. }
  destruct (lru_reoder_ret c1 H1 Hne) as (r & l & E2 & H2 & _).
  exists (set_items l c1). rewrite bind_assoc, (bind_ret _ _ _ _ _ E1), bind_assoc, (bind_ret _ _ _ _ _ E2), bind_pure.
  split; [done|]. split; [done|]. split; [exact S1|congruence].
Qed.

Lemma do_op_ret o c :
  cache_wf c -> fn_expired c = None -> 0 <= max_size_ c ->
  exists c', do_op o c = Ret (fst (spec_op (max_size_ c) o (window c))) c' /\ cache_wf c' /\ same_config c c' /\
    (mode_ c = FIFO -> window c' = snd (spec_op (max_size_ c) o (window c))).
Proof.
  intros Hwf Hx Hpos. pose proof Hwf as (_ & Hk & _). destruct o as [k|k v]; simpl.
  - destruct (get_ret c k Hwf Hx) as (c' & E & H' & S & F). exists c'.
    rewrite (bind_ret _ _ _ _ _ E), spec_get_window by done. split; [done|]. split; [done|]. split; [done|].
    intros Hm. by rewrite (F Hm).
  - unfold spec_set. destruct (blocks c !! k) as [b|] eqn:Hb.
    + destruct (set_replace_ret c k v b Hwf Hb) as (c' & E & H' & S & W). exists c'.
      rewrite (bind_ret _ _ _ _ _ E), bool_decide_true by (apply in_window; [done|by eexists]). done.
    + destruct (set_new_ret c k v Hwf Hpos Hb) as (c' & E & H' & S & W). exists c'.
      rewrite (bind_ret _ _ _ _ _ E), bool_decide_false by (rewrite in_window, Hb by done; by intros [? ?]). done.
Qed.

(** [C38] The cache as its callers see it when they only [get] and [set] and nothing
    expires: from a well-formed cache (the queue holds every cached key once, within the
    limit), any sequence of calls returns and keeps it well formed, so the size limit
    holds for ever, in both modes. First in first out, answers and contents are exactly
    those of a window of the [max] newest keys: a set replaces the value of a known key in
    its place or puts a new key first and forgets what no longer fits, a get changes
    nothing. In any mode the first call's answer is the window's. *)
Theorem cache_is_a_window os c :
  cache_wf c -> fn_expired c = None -> 0 <= max_size_ c ->
  exists l c', run_ops os c = Ret l c' /\ cache_wf c' /\ same_config c c' /\
    (mode_ c = FIFO -> (l, window c') = spec_ops (max_size_ c) os (window c)) /\
    head l = head (fst (spec_ops (max_size_ c) os (window c))).
Proof.
  revert c. induction os as [|o os IH]; intros c Hwf Hx Hpos.
  - by exists [], c.
  - destruct (do_op_ret o c Hwf Hx Hpos) as (c1 & E1 & H1 & (Sm & Sx & Se) & W1).
    destruct (IH c1) as (l & c2 & E2 & H2 & (Tm & Tx & Te) & W2 & _); [done|congruence|by rewrite Sx|].
    simpl. destruct (spec_op (max_size_ c) o (window c)) as [a l1] eqn:Eo. simpl in *.
    exists (a :: l), c2. rewrite (bind_ret _ _ _ _ _ E1), (bind_ret _ _ _ _ _ E2).
    split; [done|]. split; [done|]. split; [split_and!; congruence|]. rewrite Sx in W2.
    split.
    + intros Hm. rewrite <- (W1 Hm), <- W2 by congruence. done.
    + by destruct (spec_ops (max_size_ c) os l1).
Qed.

(** Erasing leaves the key in the queue, against what eviction relies on. In a full
    first-in-first-out cache, erasing a key and setting it again evicts the oldest other
    key although there was room for both, and queues the key twice; in a least-recently-used
    cache, after erasing the key at the front the next [get] of any other key dereferences
    the end iterator. *)
Theorem erase_leaves_key c k o v :
  cache_wf c -> fn_expired c = None -> k ∈ items c -> o ∈ items c -> o <> k ->
  exists c1, erase k c = Ret true c1 /\
    (mode_ c = FIFO -> 0 < max_size_ c -> zlen (items c) = max_size_ c -> last (items c) = Some o ->
       exists c2, cache_set k v c1 = Ret false c2 /\ blocks c2 !! o = None /\ ~ NoDup (items c2)) /\
    (mode_ c = LRU -> head (items c) = Some k -> cache_get o c1 = Undef).
Proof.
  intros (Hnd & Hk & Hm) Hx Hin Ho Hne. destruct (proj1 (Hk k) Hin) as [b Hb].
  destruct (proj1 (Hk o) Ho) as [bo Hbo].
  set (c1 := set_blocks (delete k (blocks c)) c).
  exists c1. split; [unfold erase; by rewrite Hb|].
  assert (blocks c1 !! k = None) as Hb1 by apply lookup_delete_eq.
  assert (blocks c1 !! o = Some bo) as Hbo1 by (unfold c1; simpl; by rewrite lookup_delete_ne).
  split.
  - intros Hmode Hpos Hfull Hlast. destruct (last_split (items c)) as (o' & Hl & Es).
    { intros E. by rewrite E in Hlast. }
    rewrite Hlast in Hl. injection Hl as <-.
    set (c2 := set_items (removelast (items c)) (set_blocks (delete o (blocks c1)) c1)).
    assert (delete_last c1 = Ret true c2) as E1.
    { unfold delete_last. rewrite (bind_ret _ _ c1 o c1) by (unfold back; simpl; by rewrite Hlast).
      rewrite (bind_ret _ _ c1 true (set_blocks (delete o (blocks c1)) c1)) by (unfold erase; by rewrite Hbo1).
      unfold mbind_, pop_back. simpl. by destruct (items c). }
    assert (length (items c) = S (length (removelast (items c)))) as El by (rewrite Es at 1; rewrite length_app; simpl; lia).
    assert (evict (length (items c1)) c1 = Ret tt c2) as E2.
    { change (items c1) with (items c). rewrite El. simpl evict.
      change (zlen (items c1)) with (zlen (items c)). rewrite (proj2 (Z.leb_le _ _)) by (simpl; lia).
      unfold when. rewrite bool_decide_false by (simpl; congruence). rewrite bind_pure, (bind_ret _ _ _ _ _ E1).
      rewrite zlen_length, El in Hfull. simpl max_size_ in *.
      destruct (length (removelast (items c))) as [|n] eqn:En; simpl;
        rewrite (proj2 (Z.leb_gt _ _)) by (simpl items; rewrite zlen_length, En; simpl; lia); done. }
    eexists. unfold cache_set. rewrite Hb1. change (0 <? max_size_ c1) with (0 <? max_size_ c).
    rewrite (proj2 (Z.ltb_lt _ _)) by done. unfold when. rewrite (bind_ret _ _ _ _ _ E2), bind_modify.
    unfold push_front. rewrite bind_modify. split; [reflexivity|]. simpl.
    split; [by rewrite lookup_insert_ne, lookup_delete_eq|].
    intros Hd. apply NoDup_cons in Hd as [Hd _]. apply Hd. rewrite Es in Hin. set_solver.
  - intros Hmode Hh. unfold cache_get. rewrite Hbo1. simpl fn_expired. rewrite Hx. unfold when.
    rewrite bool_decide_true by done. rewrite bind_assoc. unfold mbind_ at 1, touch. rewrite Hbo1.
    unfold mbind_ at 1 2, lru_reoder. 
    set (c3 := set_dbs _ _). destruct (items c) as [|f r] eqn:Ei; [done|]. injection Hh as ->.
    destruct (last (items c3)) as [kl|] eqn:El; [|unfold mbind_ at 1, back; by rewrite El].
    rewrite (bind_ret _ _ c3 kl c3) by (unfold back; by rewrite El). rewrite bind_gets.
    rewrite (bind_ret _ _ c3 k c3) by (unfold front, c3; simpl; by rewrite Ei). rewrite bind_gets.
    assert (blocks c3 !! k = None) as -> by (unfold c3; simpl; by rewrite lookup_insert_ne, lookup_delete_eq).
    done.
Qed.
End cache.

(** ** On a concrete cache: keys 1 (oldest), 2 and 3, at most three. *)

Definition demo_cache (m : mode_t) : cache Z Z :=
  mkCache (<[1 := mkBlock 10 0 false]> (<[2 := mkBlock 20 0 false]> (<[3 := mkBlock 30 0 false]> ∅)))
    [3; 2; 1] m 3 None None.

Lemma demo_cache_wf m : cache_wf (demo_cache m).
Proof.
  split; [apply (bool_decide_unpack _); vm_compute; exact I|]. split; [|vm_compute; discriminate].
  intros k. simpl. rewrite !lookup_insert_is_Some, !elem_of_cons, elem_of_nil, lookup_empty.
  split; [intros [->|[->|[->|[]]]]|]; [..|intros [->|[? [->|[? [->|[? [? ?]]]]]]]]; try tauto; try done;
    try (right; split; [done|]); try (by left); right; split; [done|by left].
Qed.

Lemma cache_is_a_window_witness :
  exists c', run_ops [Get 2; Set_ 2 21; Set_ 4 40; Get 1; Get 2] (demo_cache FIFO) =
      Ret [AGet (Some 20); ASet true; ASet false; AGet None; AGet (Some 21)] c' /\
    window c' = [(4, Some 40); (3, Some 30); (2, Some 21)].
Proof.
  destruct (cache_is_a_window [Get 2; Set_ 2 21; Set_ 4 40; Get 1; Get 2] (demo_cache FIFO) (demo_cache_wf FIFO))
    as (l & c' & E & _ & _ & F & _); [reflexivity|discriminate|].
  specialize (F eq_refl). vm_compute in F. injection F as -> W. exists c'. exact (conj E W).
Defined.

Lemma erase_leaves_key_witness :
  exists c1, erase 3 (demo_cache LRU) = Ret true c1 /\ cache_get 1 c1 = Undef.
Proof.
  destruct (erase_leaves_key (demo_cache LRU) 3 1 0 (demo_cache_wf LRU)) as (c1 & E & _ & H).
  - reflexivity.
  - left.
  - right. right. left.
  - discriminate.
  - exists c1. split; [exact E|]. apply H; reflexivity.
Defined.

(** ** First-in-first-out mode

    What the clients of the cache use: a lookup changes nothing, a set holds what it was
    given, and eviction only forgets. *)


(** ** A first-in-first-out cache, without assumptions on its queue

    Erased keys stay queued, so the invariant of [PtrCacheProps] does not hold here. *)

Section fifo.
Context {K : Type} `{Countable K} {V : Type}.
Implicit Types (c : cache K V) (k : K) (v : V).

Definition fifo c : Prop := mode_ c = FIFO /\ fn_expired c = None.

Lemma fifo_get c k : fifo c -> cache_get k c = Ret (b_ptr <$> blocks c !! k) c.
Proof.
  intros [Hm Hx]. unfold cache_get. destruct (blocks c !! k); [| done]. rewrite Hx, Hm. done.
Qed.

(** [c'] forgot some of what [c] holds. *)
Definition forgot c c' : Prop :=
  mode_ c' = mode_ c /\ fn_expired c' = fn_expired c /\ max_size_ c' = max_size_ c /\
  forall k, blocks c' !! k = blocks c !! k \/ blocks c' !! k = None.

Lemma forgot_refl c : forgot c c.
Proof. repeat (split; [done|]). by left. Qed.

Lemma forgot_trans a b c : forgot a b -> forgot b c -> forgot a c.
Proof.
  intros (A1 & A2 & A3 & A4) (B1 & B2 & B3 & B4). split; [congruence|]. split; [congruence|]. split; [congruence|].
  intros k. destruct (B4 k) as [-> | ->]; [apply A4 | by right].
Qed.

Lemma erase_forgot k c : exists r c', erase k c = Ret r c' /\ forgot c c' /\ items c' = items c.
Proof.
  unfold erase. destruct (blocks c !! k) as [b |] eqn:E.
  - eexists _, _. split; [done|]. split; [| done]. repeat (split; [done|]). intros k'.
    destruct (decide (k = k')) as [<- | Hn]; cbn; [right; apply lookup_delete_eq | left; by apply lookup_delete_ne].
  - eexists _, _. split; [done|]. split; [apply forgot_refl | done].
Qed.

Lemma evict_fifo fuel c : fifo c -> 0 < max_size_ c -> (length (items c) <= fuel)%nat ->
  exists c', evict fuel c = Ret tt c' /\ forgot c c'.
Proof.
  revert c. induction fuel as [| fuel IH]; intros c [Hm Hx] Hpos Hl; cbn [evict];
    destruct (Z.leb_spec (max_size_ c) (zlen (items c))) as [Hle | Hgt];
    try (exists c; split; [done | apply forgot_refl]).
  - destruct (items c); [rewrite zlen_nil in Hle; lia | cbn in Hl; lia].
  - rewrite Hm. change (when (bool_decide (FIFO = LRU)) ?x) with (@mret_ (cache K V) unit tt). rewrite bind_pure.
    assert (Hne : items c <> []) by (intros E; rewrite E, zlen_nil in Hle; lia).
    destruct (last_split (items c) Hne) as (k & Hk & Es).
    destruct (erase_forgot k c) as (r & c1 & E1 & F1 & I1).
    set (c2 := set_items (removelast (items c)) c1).
    assert (Ed : exists b, delete_last c = Ret b c2).
    { unfold delete_last, back, pop_back. unfold mbind_ at 1. rewrite Hk. rewrite (bind_ret _ _ _ _ _ E1).
      unfold mbind_ at 1. rewrite I1. destruct (items c) eqn:Ei; [done|]. eexists. done. }
    destruct Ed as (b & Ed). rewrite (bind_ret _ _ _ _ _ Ed).
    assert (F2 : forgot c c2) by (destruct F1 as (? & ? & ? & ?); by repeat (split; [done|])).
    destruct F2 as (G1 & G2 & G3 & G4).
    destruct (IH c2) as (c3 & E3 & F3); [split; congruence | congruence | |].
    { cbn [c2 items set_items]. rewrite Es, length_app in Hl. cbn in Hl. lia. }
    exists c3. split; [exact E3|]. eapply forgot_trans; [| exact F3]. by repeat (split; [done|]).
Qed.

(** A set returns and the key holds the value; other keys are as they were or forgotten. *)
Lemma set_fifo c k v : fifo c ->
  exists r c', cache_set k v c = Ret r c' /\ fifo c' /\ b_ptr <$> blocks c' !! k = Some v /\
    forall k', k' <> k -> blocks c' !! k' = blocks c !! k' \/ blocks c' !! k' = None.
Proof.
  intros [Hm Hx]. unfold cache_set. destruct (blocks c !! k) eqn:E.
  - eexists _, _. split; [done|]. split; [done|]. cbn. rewrite lookup_insert_eq. split; [done|].
    intros k' Hk'. left. by apply lookup_insert_ne.
  - assert (Hev : exists c1, when (0 <? max_size_ c) (evict (length (items c))) c = Ret tt c1 /\ forgot c c1).
    { destruct (Z.ltb_spec 0 (max_size_ c)); cbn [when].
      - by apply evict_fifo.
      - exists c. split; [done | apply forgot_refl]. }
    destruct Hev as (c1 & E1 & F1 & F2 & F3 & F4). rewrite (bind_ret _ _ _ _ _ E1), bind_modify.
    unfold push_front. rewrite bind_modify. eexists _, _. split; [done|].
    split; [split; cbn; congruence|]. cbn. rewrite lookup_insert_eq. split; [done|].
    intros k' Hk'. rewrite lookup_insert_ne by done. apply F4.
Qed.

Lemma forgot_fifo c c' : fifo c -> forgot c c' -> fifo c'.
Proof. intros [? ?] (? & ? & _). split; congruence. Qed.

Lemma forgot_subseteq c c' : forgot c c' -> blocks c' ⊆ blocks c.
Proof. intros (_ & _ & _ & Hf). apply map_subseteq_spec. intros k b Hb. destruct (Hf k) as [E|E]; congruence. Qed.

(** A key that is new: it is added to what is kept of the cache. *)
Lemma set_fifo_new k v c : fifo c -> blocks c !! k = None ->
  exists c' m, cache_set k v c = Ret false c' /\ m ⊆ blocks c /\ blocks c' = <[k := fresh_block v c']> m /\ fifo c'.
Proof.
  intros Hc Hk. unfold cache_set. rewrite Hk.
  assert (exists c1, when (0 <? max_size_ c) (evict (length (items c))) c = Ret tt c1 /\ forgot c c1) as (c1 & E & F).
  { unfold when. destruct (Z.ltb_spec 0 (max_size_ c)); [by apply evict_fifo|]. exists c. split; [done|apply forgot_refl]. }
  rewrite (bind_ret _ _ _ _ _ E), bind_modify. unfold push_front. rewrite bind_modify.
  eexists _, (blocks c1). split; [reflexivity|]. split; [by apply forgot_subseteq|]. split; [done|].
  exact (forgot_fifo _ _ Hc F).
Qed.
End fifo.
