(* ===== verification/Ltv.v ===== *)
(** * Ltv: length-type-value packets (common/ltventry.hpp, common/ltventry.cpp)

    An entry is a length, an id, a type and the memory from its data pointer to the end of
    the block that holds it; containers hold entries.  Reading past the end of a block is
    not a value ([Over]), like running out of fuel ([NoFuel]). *)

From S2P Require Export Prelude.

Definition header_size : Z := 6.
(** [typ::cont] *)
Definition cont : Z := 6.

Inductive got (A : Type) : Type := Got (a : A) | Over | NoFuel.
Arguments Got {A} a.
Arguments Over {A}.
Arguments NoFuel {A}.

Definition gbind {A B} (x : got A) (k : A -> got B) : got B :=
  match x with Got a => k a | Over => Over | NoFuel => NoFuel end.

(** [LTVEntry]: [len_], [id_], [type_], the block at [data_], [owner_], [contains_]. *)
Inductive ltv : Type :=
  Ltv (len id type : Z) (buf : option bytes) (owner : bool) (contains : list ltv).

Definition len (e : ltv) : Z := let 'Ltv l _ _ _ _ _ := e in l.
Definition id_of (e : ltv) : Z := let 'Ltv _ i _ _ _ _ := e in i.
Definition type_of (e : ltv) : Z := let 'Ltv _ _ t _ _ _ := e in t.
Definition buf_of (e : ltv) : bytes := let 'Ltv _ _ _ b _ _ := e in default [] b.
Definition contains (e : ltv) : list ltv := let 'Ltv _ _ _ _ _ c := e in c.

Definition ltv_new (owner : bool) : ltv := Ltv 0 0 0 None owner [].

(** [add] *)
Definition ltv_add (x e : ltv) : ltv :=
  let 'Ltv l i t b o c := e in Ltv l i t b o (c ++ [x]).

(** ** Building entries; [contains_] is not cleared *)

Definition header (l i t : Z) : bytes := be_bytes 4 l ++ [i; t].

(** [set_bytes]: [size] zeroed bytes overwritten by the C string. *)
Definition set_bytes (i t : Z) (str : bytes) (size : Z) (e : ltv) : got ltv :=
  if size <? zlen str then Over
  else
    let l := u32 (header_size + size) in
    Got (Ltv l i t (Some (header l i t ++ str ++ zrep (size - zlen str) 0)) true (contains e)).

Definition set_str (i t : Z) (str : bytes) (e : ltv) : ltv :=
  let l := u32 (header_size + zlen str) in
  Ltv l i t (Some (header l i t ++ str)) true (contains e).

Definition set_num (i t d : Z) (e : ltv) : ltv :=
  let l := header_size + 4 in
  Ltv l i t (Some (header l i t ++ be_bytes 4 d)) true (contains e).

(** [container]: the first four bytes of the header are what [new] found there. *)
Definition container (junk : bytes) (i : Z) (e : ltv) : ltv :=
  Ltv header_size i cont (Some (junk ++ [i; cont])) true (contains e).

(** ** Reading *)

Definition data (e : ltv) : bytes := zdrop header_size (buf_of e).
(** [datalen]: a size_t *)
Definition datalen (e : ltv) : Z := u64 (len e - header_size).

Definition data_str (e : ltv) : got bytes :=
  if zlen (data e) <? datalen e then Over else Got (ztake (datalen e) (data e)).
Definition data_int (e : ltv) : got Z :=
  if zlen (data e) <? 4 then Over else Got (be_value (ztake 4 (data e))).

(** [search]: every element of the path is looked up among the entries of [this]. *)
Fixpoint search_from (here : list ltv) (path : list Z) (current : ltv) : option ltv :=
  match path with
  | [] => Some current
  | p :: r =>
      match list_find (fun x => id_of x = p) here with
      | Some (_, x) => search_from here r x
      | None => None
      end
  end.
Definition search (path : list Z) (e : ltv) : option ltv := search_from (contains e) path e.

(** ** Unpacking *)

(** The loop over the sub-entries: [data_index] is an [unsigned int], every sub-entry is
    offered the whole payload length, and a negative result becomes a huge unsigned one. *)
Fixpoint sub_loop (unp : bytes -> Z -> got (Z * ltv)) (n : nat) (blk : bytes) (payload_len data_index : Z)
  : got (list ltv) :=
  match n with
  | O => NoFuel
  | S n =>
      gbind (unp (zdrop (header_size + data_index) blk) payload_len) (fun '(r, l) =>
        let sub_red := u32 r in
        if 0 <? sub_red then
          let data_index := u32 (data_index + sub_red) in
          if payload_len <=? data_index then Got [l]
          else gbind (sub_loop unp n blk payload_len data_index) (fun ls => Got (l :: ls))
        else Got [])
  end.

(** [unpack] of a new entry from the block [blk], said to hold [buflen] bytes: the result and
    the entry. *)
Fixpoint unpack (fuel : nat) (owner : bool) (blk : bytes) (buflen : Z) : got (Z * ltv) :=
  match fuel with
  | O => NoFuel
  | S fuel =>
      if buflen <? 4 then Got (-1, ltv_new owner)
      else if zlen blk <? 4 then Over
      else
        let l := be_value (ztake 4 blk) in
        if buflen <? l then Got (0, Ltv l 0 0 None owner [])
        else if zlen blk <? header_size then Over
        else if owner && (zlen blk <? l) then Over
        else
          let i := nth 4 blk 0 in
          let t := nth 5 blk 0 in
          let d := if owner then ztake l blk else blk in
          if (t =? cont) && (header_size <? l) then
            gbind (sub_loop (unpack fuel false) (Z.to_nat (l - header_size)) d (l - header_size) 0)
              (fun subs => Got (s32 l, Ltv l i t (Some d) owner subs))
          else Got (s32 l, Ltv l i t (Some d) owner [])
  end.

(** ** Packing *)

(** [ltv_set_length(b->data() + pos, l)] *)
Definition put_length (pos l : Z) (b : bytes) : bytes :=
  ztake pos b ++ be_bytes 4 l ++ zdrop (pos + 4) b.

Definition append_own (e : ltv) (b : bytes) : got bytes :=
  if zlen (buf_of e) <? len e then Over else Got (b ++ ztake (len e) (buf_of e)).

(** [pack] into a buffer of the caller: the bytes packed, the entry and the buffer after. *)
Fixpoint pack_into (e : ltv) (b : bytes) : got (Z * ltv * bytes) :=
  let 'Ltv l i t d o c := e in
  if t =? cont then
    gbind (append_own e b) (fun b1 =>
      gbind ((fix go (c : list ltv) (b : bytes) : got (Z * list ltv * bytes) :=
                match c with
                | [] => Got (0, [], b)
                | x :: r =>
                    gbind (pack_into x b) (fun '(n, x', b') =>
                      gbind (go r b') (fun '(m, r', b'') => Got (s32 (n + m), x' :: r', b'')))
                end) c b1)
        (fun '(sub_bytes, c', b2) =>
           let l' := u32 (l + sub_bytes) in
           Got (s32 l', Ltv l' i t d o c', put_length (zlen b) l' b2)))
  else if 0 <? l then
    gbind (append_own e b) (fun b1 => Got (s32 l, e, b1))
  else Got (0, e, b).

Fixpoint pack_all (c : list ltv) (b : bytes) : got (Z * list ltv * bytes) :=
  match c with
  | [] => Got (0, [], b)
  | x :: r =>
      gbind (pack_into x b) (fun '(n, x', b') =>
        gbind (pack_all r b') (fun '(m, r', b'') => Got (s32 (n + m), x' :: r', b'')))
  end.

(** [pack()] without a buffer: the entry's own block becomes the packed one. A scalar
    appends its block to itself while it is being replaced: that reads freed memory. *)
Definition pack (e : ltv) : got (Z * ltv) :=
  let 'Ltv l i t d o c := e in
  if t =? cont then
    if zlen (buf_of e) <? l then Over
    else
      gbind (pack_all c (ztake l (buf_of e))) (fun '(sub_bytes, c', b2) =>
        let l' := u32 (l + sub_bytes) in
        Got (s32 l', Ltv l' i t (Some (put_length 0 l' b2)) true c'))
  else if 0 <? l then Over
  else Got (0, e).

(** ** Properties of packets *)

(** ** Packets as trees *)

Inductive tree : Type := Leaf (i t : Z) (p : bytes) | Node (i : Z) (ts : list tree).

(** Induction with the hypothesis for every child. *)
Lemma tree_ind' (P : tree -> Prop) :
  (forall i t p, P (Leaf i t p)) -> (forall i ts, Forall P ts -> P (Node i ts)) -> forall x, P x.
Proof.
  intros HL HN. fix IH 1. intros [i t p|i ts]; [apply HL|apply HN].
  induction ts as [|x r IHr]; constructor; [apply IH|exact IHr].
Qed.

Fixpoint tlen (x : tree) : Z :=
  match x with Leaf _ _ p => 6 + zlen p | Node _ ts => 6 + foldr (fun y n => tlen y + n) 0 ts end.

Fixpoint enc (x : tree) : bytes :=
  match x with
  | Leaf i t p => header (tlen x) i t ++ p
  | Node i ts => header (tlen x) i cont ++ concat (enc <$> ts)
  end.

(** Ids and types are bytes; a leaf is not typed as a container. *)
Fixpoint wf (x : tree) : Prop :=
  match x with
  | Leaf i t p => is_byte i /\ is_byte t /\ t <> cont
  | Node i ts => is_byte i /\ foldr (fun y P => wf y /\ P) True ts
  end.

(** The entry a client builds for a packet. *)
Fixpoint build (junk : bytes) (x : tree) : ltv :=
  match x with
  | Leaf i t p => set_str i t p (ltv_new true)
  | Node i ts => foldr (fun y e => let 'Ltv l i' t' b o c := e in Ltv l i' t' b o (build junk y :: c))
                   (container junk i (ltv_new true)) ts
  end.

(** The packet an unpacked entry stands for. *)
Fixpoint shape (e : ltv) : tree :=
  let 'Ltv l i t d o c := e in
  if t =? cont then Node i (shape <$> c) else Leaf i t (ztake (l - header_size) (data e)).

(** ** Lengths *)

Lemma zlen_header l i t : zlen (header l i t) = 6.
Proof. unfold header. rewrite zlen_app, zlen_be_bytes. done. Qed.

Definition tsum (ts : list tree) : Z := foldr (fun y n => tlen y + n) 0 ts.

Lemma tlen_node i ts : tlen (Node i ts) = 6 + tsum ts.
Proof. done. Qed.
Lemma tlen_leaf i t p : tlen (Leaf i t p) = 6 + zlen p.
Proof. done. Qed.

Lemma tlen_ge x : 6 <= tlen x.
Proof.
  induction x as [i t p|i ts IH] using tree_ind'.
  - rewrite tlen_leaf. pose proof (zlen_nonneg p). lia.
  - rewrite tlen_node. induction IH as [|y r Hy _ IHr]; simpl; unfold tsum in *; simpl; lia.
Qed.

Lemma tsum_nonneg ts : 0 <= tsum ts.
Proof. induction ts as [|y r IH]; unfold tsum in *; simpl; [lia|]. pose proof (tlen_ge y). lia. Qed.

Lemma zlen_enc x : zlen (enc x) = tlen x.
Proof.
  induction x as [i t p|i ts IH] using tree_ind'; cbn [enc]; rewrite zlen_app, zlen_header.
  - by rewrite tlen_leaf.
  - rewrite tlen_node. f_equal. induction IH as [|y r Hy _ IHr]; [done|].
    rewrite fmap_cons. cbn [concat]. rewrite zlen_app, IHr, Hy. done.
Qed.

Lemma zlen_concat_enc ts : zlen (concat (enc <$> ts)) = tsum ts.
Proof.
  induction ts as [|y r IH]; [done|]. rewrite fmap_cons. cbn [concat]. by rewrite zlen_app, zlen_enc, IH.
Qed.

Lemma foldr_build junk ts e :
  foldr (fun y e => let 'Ltv l i' t' b o c := e in Ltv l i' t' b o (build junk y :: c)) e ts =
  let 'Ltv l i t b o c := e in Ltv l i t b o ((build junk <$> ts) ++ c).
Proof. induction ts as [|y r IH]; simpl; [by destruct e|]. rewrite IH. by destruct e. Qed.

Lemma build_node junk i ts :
  build junk (Node i ts) = Ltv 6 i cont (Some (junk ++ [i; cont])) true (build junk <$> ts).
Proof. cbn [build]. rewrite foldr_build. simpl. by rewrite app_nil_r. Qed.

Lemma pack_into_node l i d o c b :
  pack_into (Ltv l i cont d o c) b =
  gbind (append_own (Ltv l i cont d o c) b) (fun b1 => gbind (pack_all c b1) (fun '(sub_bytes, c', b2) =>
    let l' := u32 (l + sub_bytes) in Got (s32 l', Ltv l' i cont d o c', put_length (zlen b) l' b2))).
Proof.
  simpl. destruct (append_own _ b) as [b1| |]; [|done..]. simpl.
  assert (forall c b, (fix go (c : list ltv) (b : bytes) : got (Z * list ltv * bytes) :=
            match c with
            | [] => Got (0, [], b)
            | x :: r => gbind (pack_into x b) (fun '(n, x', b') =>
                gbind (go r b') (fun '(m, r', b'') => Got (s32 (n + m), x' :: r', b'')))
            end) c b = pack_all c b) as E.
  { clear. induction c as [|x r IH]; intros b; [done|]. simpl.
    destruct (pack_into x b) as [[[n x'] b']| |]; [|done..]. simpl. by rewrite IH. }
  by rewrite E.
Qed.

Lemma s32_small x : 0 <= x < 2 ^ 31 -> s32 x = x.
Proof. intros H. apply wraps_small; lia. Qed.

(** ** Packing what was built *)

Lemma ztake_full (l : bytes) n : n = zlen l -> ztake n l = l.
Proof. intros ->. apply ztake_all. Qed.

Lemma put_length_header b junk i r l :
  zlen junk = 4 -> put_length (zlen b) l (b ++ (junk ++ [i; cont]) ++ r) = b ++ header l i cont ++ r.
Proof.
  intros Hj. unfold put_length. rewrite ztake_app_exact by done. f_equal.
  rewrite <- !(assoc_L (++) junk), (assoc_L (++) b junk), zdrop_app_exact by (rewrite zlen_app; lia).
  unfold header. by rewrite <- (assoc_L (++)).
Qed.

Lemma s32_u32_small x : 0 <= x < 2 ^ 31 -> s32 (u32 x) = x /\ u32 x = x.
Proof. intros H. rewrite u32_small by lia. by rewrite s32_small. Qed.

(** Packing the children, given how each of them packs. *)
Lemma pack_all_build junk ts :
  tsum ts < 2 ^ 31 ->
  Forall (fun x => tlen x < 2 ^ 31 -> forall b, exists e, pack_into (build junk x) b = Got (tlen x, e, b ++ enc x)) ts ->
  forall b, exists es, pack_all (build junk <$> ts) b = Got (tsum ts, es, b ++ concat (enc <$> ts)).
Proof.
  intros Hs Hf. induction Hf as [|x r Hx _ IH]; intros b.
  - exists []. simpl. by rewrite app_nil_r.
  - unfold tsum in Hs. simpl in Hs. fold (tsum r) in Hs. pose proof (tlen_ge x). pose proof (tsum_nonneg r).
    destruct (Hx ltac:(lia) b) as [e E]. destruct (IH ltac:(lia) (b ++ enc x)) as [es Es].
    exists (e :: es). rewrite !fmap_cons. cbn [pack_all concat]. rewrite E. cbn [gbind]. rewrite Es. cbn [gbind].
    rewrite s32_small by lia. by rewrite <- (assoc_L (++)).
Qed.

Lemma pack_into_build junk x :
  zlen junk = 4 -> tlen x < 2 ^ 31 -> wf x -> forall b, exists e, pack_into (build junk x) b = Got (tlen x, e, b ++ enc x).
Proof.
  intros Hj. induction x as [i t p|i ts IH] using tree_ind'; intros Hx Hw b.
  - rewrite tlen_leaf in Hx. pose proof (zlen_nonneg p).
    cbn [build]. unfold set_str, ltv_new. set (l := u32 _).
    assert (l = 6 + zlen p) as El by (apply u32_small; unfold header_size; lia). rewrite El.
    eexists. cbn [pack_into].
    destruct Hw as (_ & _ & Ht). rewrite (proj2 (Z.eqb_neq _ _) Ht), (proj2 (Z.ltb_lt _ _)) by lia.
    unfold append_own.
    change (buf_of _) with (header (6 + zlen p) i t ++ p). cbn [len].
    assert (zlen (header (6 + zlen p) i t ++ p) = 6 + zlen p) as -> by (by rewrite zlen_app, zlen_header).
    rewrite Z.ltb_irrefl. cbn [gbind].
    rewrite s32_small, ztake_full by (rewrite ?zlen_app, ?zlen_header; lia). reflexivity.
  - rewrite tlen_node in Hx. pose proof (tsum_nonneg ts). rewrite build_node, pack_into_node. unfold append_own.
    change (buf_of _) with (junk ++ [i; cont]). cbn [len].
    assert (zlen (junk ++ [i; cont]) = 6) as Hz by (rewrite zlen_app, Hj; done).
    rewrite Hz. cbn [gbind Z.ltb Z.compare Pos.compare Pos.compare_cont]. rewrite ztake_full by (by rewrite Hz).
    assert (Forall (fun x => tlen x < 2 ^ 31 -> forall b, exists e,
              pack_into (build junk x) b = Got (tlen x, e, b ++ enc x)) ts) as Hts.
    { destruct Hw as [_ Hw]. clear -IH Hw. induction IH as [|x r Hx _ IHr]; [constructor|]. destruct Hw as [Hwx Hw].
      constructor; [|by apply IHr]. intros Hl. by apply Hx. }
    destruct (pack_all_build junk ts ltac:(lia) Hts (b ++ junk ++ [i; cont])) as [es Es].
    rewrite Es. cbn [gbind]. destruct (s32_u32_small (6 + tsum ts)) as [E1 E2]; [lia|]. rewrite E1, E2.
    eexists. do 2 f_equal. rewrite <- (assoc_L (++)), put_length_header by done. cbn [enc]. by rewrite tlen_node.
Qed.

(** ** Unpacking what was packed *)

Lemma header_parts l i t r :
  0 <= l < 2 ^ 32 -> be_value (ztake 4 (header l i t ++ r)) = l /\
  nth 4 (header l i t ++ r) 0 = i /\ nth 5 (header l i t ++ r) 0 = t /\
  zdrop 6 (header l i t ++ r) = r.
Proof.
  intros Hl. unfold header. split; [|split; [|split]].
  - rewrite <- (assoc_L (++)), ztake_app_exact by (by rewrite zlen_be_bytes).
    rewrite be_value_be_bytes. apply Z.mod_small. lia.
  - done.
  - done.
  - done.
Qed.

(** A packet at the start of a block unpacks to itself, whatever follows it and however
    much more was offered. *)
Definition unpacks (owner : bool) (x : tree) : Prop :=
  forall fuel rest n, tlen x <= n -> n < 2 ^ 31 -> (Z.to_nat n < fuel)%nat ->
    exists e, unpack fuel owner (enc x ++ rest) n = Got (tlen x, e) /\ shape e = x.

Lemma zdrop_zdrop (l : bytes) a b : 0 <= a -> 0 <= b -> zdrop b (zdrop a l) = zdrop (a + b) l.
Proof. intros. unfold zdrop. rewrite drop_drop. f_equal. lia. Qed.

Lemma ztake_app_ge (l k : bytes) n : zlen l <= n -> ztake n (l ++ k) = l ++ ztake (n - zlen l) k.
Proof.
  intros H. unfold ztake. rewrite take_app, take_ge by (rewrite zlen_length in H; lia).
  do 2 f_equal. rewrite zlen_length in *. lia.
Qed.

(** The checks before an entry is accepted pass on a packet. *)
Lemma unpack_packet fuel owner x i t p rest n :
  enc x = header (tlen x) i t ++ p -> tlen x <= n -> n < 2 ^ 31 ->
  exists d, (exists rest', d = enc x ++ rest') /\
  unpack (S fuel) owner (enc x ++ rest) n =
    if (t =? cont) && (header_size <? tlen x) then
      gbind (sub_loop (unpack fuel false) (Z.to_nat (tlen x - header_size)) d (tlen x - header_size) 0)
        (fun subs => Got (s32 (tlen x), Ltv (tlen x) i t (Some d) owner subs))
    else Got (s32 (tlen x), Ltv (tlen x) i t (Some d) owner []).
Proof.
  intros Ee Hn Hb. pose proof (tlen_ge x). pose proof (zlen_nonneg rest).
  exists (if owner then ztake (tlen x) (enc x ++ rest) else enc x ++ rest). split.
  { destruct owner; [exists []|by exists rest].
    rewrite ztake_app_ge, app_nil_r by (rewrite zlen_enc; lia). rewrite zlen_enc, Z.sub_diag. by rewrite app_nil_r. }
  assert (zlen (enc x ++ rest) = tlen x + zlen rest) as Hz by (by rewrite zlen_app, zlen_enc).
  destruct (header_parts (tlen x) i t (p ++ rest)) as (H1 & H2 & H3 & _); [lia|].
  rewrite (assoc_L (++)), <- Ee in H1, H2, H3.
  cbn [unpack]. unfold header_size in *. rewrite H1, H2, H3, Hz.
  rewrite (proj2 (Z.ltb_ge n 4)), (proj2 (Z.ltb_ge _ 4)), (proj2 (Z.ltb_ge n _)), (proj2 (Z.ltb_ge _ 6)),
    (proj2 (Z.ltb_ge _ (tlen x))), andb_false_r by lia. done.
Qed.

(** The children, from the offset reached so far. *)
Lemma sub_loop_packets fuel d payload n ts rest idx :
  Forall (unpacks false) ts -> ts <> [] -> payload < 2 ^ 31 -> (Z.to_nat payload < fuel)%nat ->
  0 <= idx -> idx + tsum ts = payload -> (Z.to_nat (tsum ts) <= n)%nat ->
  zdrop (6 + idx) d = concat (enc <$> ts) ++ rest ->
  exists es, sub_loop (unpack fuel false) n d payload idx = Got es /\ shape <$> es = ts.
Proof.
  intros Hts. revert n idx. induction Hts as [|x r Hx _ IH]; intros n idx Hne Hb Hfuel Hidx Hsum Hn Hd; [done|].
  unfold tsum in Hsum, Hn. simpl in Hsum, Hn. fold (tsum r) in Hsum, Hn.
  pose proof (tlen_ge x). pose proof (tsum_nonneg r).
  destruct n as [|n]; [lia|]. rewrite fmap_cons in Hd. cbn [concat] in Hd. rewrite <- (assoc_L (++)) in Hd.
  destruct (Hx fuel (concat (enc <$> r) ++ rest) payload) as (e & E & Hs); [lia|lia|lia|].
  cbn [sub_loop]. unfold header_size. rewrite Hd, E. cbn [gbind]. rewrite u32_small by lia.
  rewrite (proj2 (Z.ltb_lt _ _)), u32_small by lia. destruct (Z.leb_spec payload (idx + tlen x)) as [Hle|Hgt].
  - exists [e]. split; [done|]. simpl. f_equal; [done|]. destruct r as [|y r]; [done|].
    unfold tsum in *. simpl in *. pose proof (tlen_ge y). pose proof (tsum_nonneg r). unfold tsum in *. lia.
  - destruct (IH n (idx + tlen x)) as (es & Es & Hes); try lia.
    + intros ->. unfold tsum in *. simpl in *. lia.
    + rewrite Z.add_assoc, <- zdrop_zdrop, Hd by lia. by rewrite zdrop_app_exact by apply zlen_enc.
    + exists (e :: es). rewrite Es. cbn [gbind]. split; [done|]. rewrite fmap_cons. by f_equal.
Qed.

Lemma unpacks_all x : wf x -> forall owner, unpacks owner x.
Proof.
  induction x as [i t p|i ts IH] using tree_ind'; intros Hw owner fuel rest n Hn Hb Hf.
  - destruct Hw as (_ & _ & Ht). destruct fuel as [|fuel]; [lia|].
    destruct (unpack_packet fuel owner (Leaf i t p) i t p rest n eq_refl Hn Hb) as (d & (rest' & Hd) & E).
    rewrite E, (proj2 (Z.eqb_neq _ _) Ht). cbn [andb]. pose proof (tlen_ge (Leaf i t p)).
    rewrite s32_small by lia. eexists. split; [reflexivity|]. cbn [shape]. rewrite (proj2 (Z.eqb_neq _ _) Ht).
    f_equal. unfold data. change (buf_of _) with d. rewrite Hd. cbn [enc]. rewrite <- (assoc_L (++)).
    unfold header_size. rewrite zdrop_app_exact by apply zlen_header. rewrite tlen_leaf.
    apply ztake_app_exact. lia.
  - destruct fuel as [|fuel]; [lia|].
    destruct (unpack_packet fuel owner (Node i ts) i cont (concat (enc <$> ts)) rest n eq_refl Hn Hb)
      as (d & (rest' & Hd) & E).
    rewrite E. pose proof (tsum_nonneg ts). pose proof (tlen_ge (Node i ts)). unfold header_size in *.
    rewrite tlen_node in *. rewrite s32_small by lia. rewrite Z.eqb_refl. cbn [andb].
    destruct ts as [|x r]; [eexists; split; reflexivity|].
    assert (0 < tsum (x :: r)) by (unfold tsum; simpl; pose proof (tlen_ge x); pose proof (tsum_nonneg r); unfold tsum in *; lia).
    rewrite (proj2 (Z.ltb_lt _ _)) by lia. replace (6 + tsum (x :: r) - 6) with (tsum (x :: r)) by lia.
    destruct (sub_loop_packets fuel d (tsum (x :: r)) (Z.to_nat (tsum (x :: r))) (x :: r) rest' 0) as (es & Es & Hes);
      try lia; [|done| |].
    + destruct Hw as [_ Hw]. clear -IH Hw. induction IH as [|y q Hy _ IHq]; [constructor|].
      destruct Hw as [Hwy Hw]. constructor; [by apply Hy|by apply IHq].
    + rewrite Hd. cbn [enc]. rewrite <- (assoc_L (++)). apply zdrop_app_exact, zlen_header.
    + rewrite Es. cbn [gbind]. eexists. split; [reflexivity|]. cbn [shape]. rewrite Z.eqb_refl. by f_equal.
Qed.

(** ** The properties *)

(** Round trip of packets: packing a container built from a tree of entries yields
    exactly the tree's encoding and its length, and unpacking that encoding - by an entry
    that copies it or one that points into it, with any bytes after it and any larger
    length offered - returns the packet's length and an entry with the same ids, types,
    payloads and nesting. *)
Theorem ltv_roundtrip junk i ts :
  zlen junk = 4 -> wf (Node i ts) -> tlen (Node i ts) < 2 ^ 31 ->
  (exists e, pack (build junk (Node i ts)) = Got (tlen (Node i ts), e) /\ buf_of e = enc (Node i ts)) /\
  (forall owner rest n fuel, tlen (Node i ts) <= n -> n < 2 ^ 31 -> (Z.to_nat n < fuel)%nat ->
     exists e, unpack fuel owner (enc (Node i ts) ++ rest) n = Got (tlen (Node i ts), e) /\
       shape e = Node i ts).
Proof.
  intros Hj Hw Hx. split; [|intros owner rest n fuel; by apply unpacks_all].
  pose proof (tsum_nonneg ts). rewrite build_node. unfold pack.
  change (cont =? cont) with true. cbn iota.
  change (buf_of (Ltv 6 i cont _ true _)) with (junk ++ [i; cont]).
  assert (zlen (junk ++ [i; cont]) = 6) as Hz by (rewrite zlen_app, Hj; done).
  rewrite Hz. cbn [Z.ltb Z.compare Pos.compare Pos.compare_cont]. rewrite ztake_full by (by rewrite Hz).
  rewrite tlen_node in Hx.
  destruct (pack_all_build junk ts ltac:(lia)) with (b := junk ++ [i; cont]) as [es Es].
  { destruct Hw as [_ Hw]. clear -Hw Hj. induction ts as [|x r IH]; [constructor|]. destruct Hw as [Hwx Hw].
    constructor; [|by apply IH]. intros Hl. by apply pack_into_build. }
  rewrite Es. cbn [gbind]. destruct (s32_u32_small (6 + tsum ts)) as [E1 E2]; [lia|]. rewrite E1, E2, tlen_node.
  eexists. split; [reflexivity|].
  exact (put_length_header [] junk i (concat (enc <$> ts)) (6 + tsum ts) Hj).
Qed.

Lemma be_value_bound4 l : all_bytes l -> length l = 4%nat -> 0 <= be_value l < 2 ^ 32.
Proof.
  intros Hl Hn. unfold be_value. pose proof (le_value_bound (rev l) (Forall_rev Hl)) as H.
  rewrite length_rev, Hn in H. exact H.
Qed.

(** What one call may answer: too little to read a length, an entry not complete yet, or
    the length of one that lies within what was offered. *)
Definition answer_ok (n : Z) (x : got (Z * ltv)) : Prop :=
  match x with
  | Got (r, e) => (r = -1 /\ n < 4) \/ (r = 0 /\ 4 <= n /\ (n < len e \/ len e = 0)) \/
      (0 < r <= n /\ 4 <= n /\ r = len e)
  | Over => True
  | NoFuel => False
  end.

(** The loop ends if every call does: each turn advances. *)
Lemma sub_loop_ends unp n d payload idx :
  (forall blk, all_bytes blk -> answer_ok payload (unp blk payload)) -> all_bytes d ->
  0 < payload < 2 ^ 31 -> 0 <= idx < payload -> (payload < 4 -> idx = 0) -> (Z.to_nat (payload - idx) <= n)%nat ->
  sub_loop unp n d payload idx <> NoFuel.
Proof.
  intros Hu Hd Hp. revert idx. induction n as [|n IH]; intros idx Hi H4 Hn; [lia|]. cbn [sub_loop].
  pose proof (Hu (zdrop (header_size + idx) d) (all_bytes_zdrop _ _ Hd)) as H.
  destruct (unp _ payload) as [[r e]| |]; [|done..]. cbn [gbind]. destruct H as [[-> Hs]|[[-> _]|[Hr [Hge _]]]].
  - rewrite (H4 Hs). change (u32 (-1)) with 4294967295. change (u32 (0 + 4294967295)) with 4294967295.
    cbn [Z.ltb Z.compare]. by rewrite (proj2 (Z.leb_le _ _)) by lia.
  - done.
  - rewrite u32_small by lia. rewrite (proj2 (Z.ltb_lt _ _)), u32_small by lia.
    destruct (Z.leb_spec payload (idx + r)); [done|].
    assert (sub_loop unp n d payload (idx + r) <> NoFuel) as IHn by (apply IH; lia).
    destruct (sub_loop unp n d payload (idx + r)); done.
Qed.

(** Unpacking ends on any input: whatever the bytes, with more fuel than the bytes
    offered (fewer than [2^31]) every call of [unpack] is answered - nested containers and
    the loop over sub-entries included - unless it reads past its block; the answer is -1
    exactly when not even a length can be read, 0 when the entry is not complete (or says
    it has no length), and otherwise the entry's own length, within what was offered. *)
Theorem unpack_ends fuel owner blk n :
  all_bytes blk -> 0 <= n < 2 ^ 31 -> (Z.to_nat n < fuel)%nat -> answer_ok n (unpack fuel owner blk n).
Proof.
  revert owner blk n. induction fuel as [|fuel IH]; intros owner blk n Hb Hn Hf; [lia|]. cbn [unpack].
  destruct (Z.ltb_spec n 4); [by left|]. destruct (Z.ltb_spec (zlen blk) 4); [done|].
  set (l := be_value (ztake 4 blk)).
  assert (0 <= l < 2 ^ 32) as Hl.
  { apply be_value_bound4; [by apply all_bytes_ztake|]. unfold ztake. rewrite length_take. rewrite zlen_length in *. lia. }
  destruct (Z.ltb_spec n l); [right; left; simpl; auto|].
  destruct (zlen blk <? header_size); [done|]. destruct (owner && _); [done|].
  assert (Hdone : forall i t d c, answer_ok n (Got (s32 l, Ltv l i t d owner c))).
  { intros i t d c. rewrite s32_small by lia. simpl. destruct (decide (l = 0)); [right; left|right; right]; lia. }
  destruct (_ && (header_size <? l)) eqn:Ec; [|apply Hdone].
  apply andb_prop in Ec as [_ Ec%Z.ltb_lt]. unfold header_size in *.
  set (d := if owner then ztake l blk else blk).
  assert (sub_loop (unpack fuel false) (Z.to_nat (l - 6)) d (l - 6) 0 <> NoFuel) as Hs.
  { apply sub_loop_ends; try lia.
    - intros b' Hb'. apply IH; [done|lia|lia].
    - unfold d. destruct owner; [by apply all_bytes_ztake|done]. }
  destruct (sub_loop _ _ d _ 0); [apply Hdone|done|done].
Qed.

(** A container whose payload ends in one to three stray bytes makes [unpack] read past
    the block it allocated: the loop offers the whole payload length to every sub-entry, so
    the stray bytes pass the length check and a four-byte length is read over the end. *)
Theorem trailing_bytes_overread x i tail fuel :
  wf x -> is_byte i -> 0 < zlen tail < 4 -> 6 + tlen x + zlen tail < 2 ^ 31 ->
  (Z.to_nat (6 + tlen x + zlen tail) < fuel)%nat ->
  unpack fuel true (header (6 + tlen x + zlen tail) i cont ++ enc x ++ tail) (6 + tlen x + zlen tail) = Over.
Proof.
  intros Hw Hi Ht Hb Hf. set (l := 6 + tlen x + zlen tail) in *. pose proof (tlen_ge x).
  set (blk := header l i cont ++ enc x ++ tail).
  assert (zlen blk = l) as Hz by (unfold blk; rewrite !zlen_app, zlen_header, zlen_enc; lia).
  destruct (header_parts l i cont (enc x ++ tail)) as (H1 & H2 & H3 & H4); [lia|].
  fold blk in H1, H2, H3, H4. destruct fuel as [|fuel]; [lia|]. cbn [unpack]. unfold header_size.
  rewrite H1, H2, H3, Hz.
  rewrite (proj2 (Z.ltb_ge l 4)), (proj2 (Z.ltb_ge l l)), (proj2 (Z.ltb_ge l 6)) by lia. cbn [andb].
  rewrite Z.eqb_refl, (proj2 (Z.ltb_lt 6 l)), (ztake_full blk l) by lia. cbn [andb].
  destruct (unpacks_all x Hw false fuel tail (l - 6)) as (e & E & _); [lia|lia|lia|].
  assert (exists n, Z.to_nat (l - 6) = S (S n)) as [n ->].
  { destruct (Z.to_nat (l - 6)) as [|[|n]] eqn:En; [lia|lia|by exists n]. }
  cbn [sub_loop]. unfold header_size. rewrite Z.add_0_r, H4, E. cbn [gbind].
  rewrite u32_small by lia. rewrite (proj2 (Z.ltb_lt _ _)) by lia. rewrite u32_small by lia.
  rewrite (proj2 (Z.leb_gt _ _)) by lia. rewrite Z.add_0_l.
  assert (zdrop (6 + tlen x) blk = tail) as ->.
  { rewrite <- zdrop_zdrop, H4 by lia. apply zdrop_app_exact, zlen_enc. }
  assert (unpack fuel false tail (l - 6) = Over) as ->; [|done].
  destruct fuel as [|fuel]; [lia|]. cbn [unpack].
  by rewrite (proj2 (Z.ltb_ge (l - 6) 4)), (proj2 (Z.ltb_lt (zlen tail) 4)) by lia.
Qed.

Lemma ltv_roundtrip_witness :
  exists e, pack (build [0; 0; 0; 0] (Node 1 [Leaf 2 5 [65; 66]; Node 3 [Leaf 4 3 [9]]])) = Got (27, e) /\
    buf_of e = [0; 0; 0; 27; 1; 6; 0; 0; 0; 8; 2; 5; 65; 66; 0; 0; 0; 13; 3; 6; 0; 0; 0; 7; 4; 3; 9].
Proof.
  destruct (ltv_roundtrip [0; 0; 0; 0] 1 [Leaf 2 5 [65; 66]; Node 3 [Leaf 4 3 [9]]]) as [(e & E & B) _].
  - reflexivity.
  - unfold wf, is_byte, cont. simpl. lia.
  - vm_compute. reflexivity.
  - exists e. split; [exact E|exact B].
Defined.

Lemma unpack_ends_witness : answer_ok 7 (unpack 8 true [0; 0; 0; 7; 1; 5; 66] 7).
Proof.
  apply unpack_ends.
  - repeat constructor; discriminate.
  - lia.
  - lia.
Defined.

Lemma trailing_bytes_overread_witness :
  unpack 20 true [0; 0; 0; 15; 1; 6; 0; 0; 0; 7; 2; 5; 66; 1; 1] 15 = Over.
Proof.
  apply (trailing_bytes_overread (Leaf 2 5 [66]) 1 [1; 1] 20).
  - unfold wf, is_byte, cont. simpl. lia.
  - unfold is_byte. lia.
  - vm_compute. split; reflexivity.
  - vm_compute. reflexivity.
  - vm_compute. lia.
Defined.
