(* ===== verification/Fdq.v ===== *)
(** * Fdq: the queue of accepted descriptors (src/fdq.hpp, src/fdq.cpp)

    The acceptor pushes descriptors, the workers pop them; every worker has a pair of
    sockets through which it is told that there is something to pick up.  The system
    calls are the parameter [FdSys].  Each operation runs as one step. *)

From S2P Require Export Effects.

(** socketpair(2), pipe2(2), a one-byte write(2) and read(2), close(2). *)
Class FdSys : Type := {
  sys : Type;
  sys_socketpair : sys -> option (Z * Z) * sys;
  sys_pipe2 : sys -> option (Z * Z) * sys;
  sys_write1 : sys -> Z -> Z * sys;
  sys_read1 : sys -> Z -> Z * sys;
  sys_close : sys -> Z -> sys
}.

Inductive sq_type_t : Type := SQ_PIPE | SQ_SOCKETPAIR.

Record WorkerPipe : Type := mkPipe { pipe : Z * Z; seen_worker_load : Z }.
Definition pipe_to_scheduler (p : WorkerPipe) : Z := fst (pipe p).
Definition pipe_to_worker (p : WorkerPipe) : Z := snd (pipe p).
(** [WorkerPipe()] *)
Definition default_pipe : WorkerPipe := mkPipe (-1, -1) 0.

(** ** [mp::map<worker_id_t, WorkerPipe>]: ascending by key *)

Fixpoint pairs_find (id : Z) (l : list (Z * WorkerPipe)) : option WorkerPipe :=
  match l with
  | [] => None
  | (k, p) :: r => if k =? id then Some p else pairs_find id r
  end.

Fixpoint pairs_set (id : Z) (p : WorkerPipe) (l : list (Z * WorkerPipe)) : list (Z * WorkerPipe) :=
  match l with
  | [] => [(id, p)]
  | (k, q) :: r =>
      if k =? id then (id, p) :: r
      else if id <? k then (id, p) :: l
      else (k, q) :: pairs_set id p r
  end.

Section fdq.
Context {SY : FdSys}.

(** The queue, front first; [feedback_queue_empty] is static in the code. *)
Record fdq : Type := mkFdq {
  sq_type_ : sq_type_t;
  sq_ : list Z;
  worker_id_max_ : Z;
  hint_pairs_ : list (Z * WorkerPipe);
  feedback_queue_empty : bool;
  fq_sys : sys
}.

Definition set_sq_type (t : sq_type_t) (q : fdq) : fdq :=
  mkFdq t (sq_ q) (worker_id_max_ q) (hint_pairs_ q) (feedback_queue_empty q) (fq_sys q).
Definition set_sq (l : list Z) (q : fdq) : fdq :=
  mkFdq (sq_type_ q) l (worker_id_max_ q) (hint_pairs_ q) (feedback_queue_empty q) (fq_sys q).
Definition set_pairs (l : list (Z * WorkerPipe)) (q : fdq) : fdq :=
  mkFdq (sq_type_ q) (sq_ q) (worker_id_max_ q) l (feedback_queue_empty q) (fq_sys q).
Definition set_feedback (b : bool) (q : fdq) : fdq :=
  mkFdq (sq_type_ q) (sq_ q) (worker_id_max_ q) (hint_pairs_ q) b (fq_sys q).
Definition set_sys (n : sys) (q : fdq) : fdq :=
  mkFdq (sq_type_ q) (sq_ q) (worker_id_max_ q) (hint_pairs_ q) (feedback_queue_empty q) n.

Definition fdq_new (n : sys) (feedback : bool) : fdq := mkFdq SQ_SOCKETPAIR [] 0 [] feedback n.

Definition call {A} (f : sys -> A * sys) : M fdq A := fun q =>
  let '(a, n) := f (fq_sys q) in Ret a (set_sys n q).

(** [new_pair]: a socket pair, else a pipe, else -1 twice. *)
Definition new_pair (id : Z) : M fdq (Z * Z) :=
  r <- call sys_socketpair ;;
  pa <- (match r with
         | Some pa => modify (set_sq_type SQ_SOCKETPAIR) ;;; mret_ pa
         | None =>
             r <- call sys_pipe2 ;;
             match r with
             | Some pa => modify (set_sq_type SQ_PIPE) ;;; mret_ pa
             | None => mret_ (-1, -1)
             end
         end) ;;
  modify (fun q => set_pairs (pairs_set id (mkPipe pa 0) (hint_pairs_ q)) q) ;;;
  mret_ pa.

(** [close_all], also what the destructor does. *)
Definition close_pair (n : sys) (p : WorkerPipe) : sys :=
  sys_close (sys_close n (pipe_to_scheduler p)) (pipe_to_worker p).

Definition close_all : M fdq Z := fun q =>
  let n := foldl close_pair (fq_sys q) (snd <$> hint_pairs_ q) in
  Ret (zlen (hint_pairs_ q)) (set_pairs [] (set_sys n q)).

(** [std::multimap::insert]: behind the entries of the same load. *)
Fixpoint candidate_insert (p : WorkerPipe) (l : list WorkerPipe) : list WorkerPipe :=
  match l with
  | [] => [p]
  | q :: r =>
      if seen_worker_load p <? seen_worker_load q then p :: l
      else q :: candidate_insert p r
  end.

Definition candidates (l : list (Z * WorkerPipe)) : list WorkerPipe :=
  foldl (fun c kp => candidate_insert (snd kp) c) [] l.

(** The loop that wakes workers up: [ws] is [written_sum], [half] is
    [entry_count/2]. *)
Fixpoint summon (half ws : Z) (l : list WorkerPipe) : M fdq unit :=
  match l with
  | [] => mret_ tt
  | c :: r =>
      let ws := ws + 1 in
      if half <? ws then mret_ tt
      else
        wr <- call (fun n => sys_write1 n (pipe_to_worker c)) ;;
        let ws := ws + (if wr <=? 0 then 0 else 1) in
        fb <- gets feedback_queue_empty ;;
        if fb then modify (set_feedback false) else summon half ws r
  end.

Definition push_all (s : Z) : M fdq Z :=
  modify (fun q => set_sq (s :: sq_ q) q) ;;;
  l <- gets hint_pairs_ ;;
  summon (zlen l `div` 2) 0 (candidates l) ;;;
  mret_ (zlen l).

Definition update_load (worker_id load : Z) : M fdq unit :=
  modify (fun q =>
    match pairs_find worker_id (hint_pairs_ q) with
    | Some p => set_pairs (pairs_set worker_id (mkPipe (pipe p) load) (hint_pairs_ q)) q
    | None => q
    end).

(** [hint_pairs_[worker_id]] creates the pair it does not find. *)
Definition pair_of (worker_id : Z) : M fdq WorkerPipe := fun q =>
  match pairs_find worker_id (hint_pairs_ q) with
  | Some p => Ret p q
  | None => Ret default_pipe (set_pairs (pairs_set worker_id default_pipe (hint_pairs_ q)) q)
  end.

(** The back of the queue. *)
Definition sq_back (q : fdq) : option Z := last (sq_ q).

Definition pop (worker_id : Z) : M fdq Z :=
  p <- pair_of worker_id ;;
  call (fun n => sys_read1 n (pipe_to_scheduler p)) ;;;
  b <- gets sq_back ;;
  match b with
  | None => modify (set_feedback true) ;;; mret_ 0
  | Some s =>
      modify (fun q => set_sq (removelast (sq_ q)) q) ;;;
      l <- gets sq_ ;;
      when (bool_decide (l = [])) (modify (set_feedback true)) ;;;
      mret_ s
  end.

(** [pop_if]: the value goes through an unsigned 32-bit integer. *)
Definition pop_if (check_true : Z -> bool) : M fdq (option Z) :=
  b <- gets sq_back ;;
  match b with
  | None => mret_ None
  | Some s =>
      let val := u32 s in
      if check_true val then
        modify (fun q => set_sq (removelast (sq_ q)) q) ;;; mret_ (Some (s32 val))
      else mret_ None
  end.

(** [hint_pair]: [map::at]. *)
Definition hint_pair (id : Z) : M fdq (Z * Z) := fun q =>
  match pairs_find id (hint_pairs_ q) with
  | Some p => Ret (pipe p) q
  | None => Throw out_of_range q
  end.
End fdq.

(** ** Worker pairs

    How a proxy was reached, and [hasWorkers]: every worker has a number, a pair of sockets in
    the queue of [Fdq] and the reading end of it watched by its poller. *)

Inductive proxyType : Type := NONE | TRANSPARENT | PROXY | REDIRECT.

Definition is_transparent (t : proxyType) : bool := match t with TRANSPARENT => true | _ => false end.
Definition is_redirect (t : proxyType) : bool := match t with REDIRECT => true | _ => false end.

Section workers.
Context {SY : FdSys}.

(** A worker as it is made: its number, the socket it is hinted by ([set_hint_monitor]) and
    its type. *)
Record task : Type := mkTask { tk_id : Z; tk_hint : Z; tk_type : proxyType }.

(** [hasWorkers] with the queue and the counter [workers_total()] of its workers' class. *)
Record has_workers : Type := mkHas {
  hw_q : fdq;
  tasks_ : list task;
  worker_count_preference_ : Z;
  workers_total_ : Z
}.

Definition core_multiplier : Z := 1.

Definition in_fdq {A} (m : M fdq A) : M has_workers A := fun h =>
  let back q := mkHas q (tasks_ h) (worker_count_preference_ h) (workers_total_ h) in
  match m (hw_q h) with
  | Ret a q => Ret a (back q)
  | Throw e q => Throw e (back q)
  | Undef => Undef
  end.
Definition set_total (v : Z) (h : has_workers) : has_workers :=
  mkHas (hw_q h) (tasks_ h) (worker_count_preference_ h) v.
Definition add_task (t : task) (h : has_workers) : has_workers :=
  mkHas (hw_q h) (tasks_ h ++ [t]) (worker_count_preference_ h) (workers_total_ h).

(** The number of the next worker, counted up. *)
Definition next_worker_id : M fdq Z := fun q =>
  Ret (worker_id_max_ q)
    (mkFdq (sq_type_ q) (sq_ q) (u32 (worker_id_max_ q + 1)) (hint_pairs_ q) (feedback_queue_empty q) (fq_sys q)).

Fixpoint create_loop (n : nat) (t : proxyType) : M has_workers unit :=
  match n with
  | O => mret_ tt
  | S n =>
      id <- in_fdq next_worker_id ;;
      pa <- in_fdq (new_pair id) ;;
      modify (add_task (mkTask id (fst pa) t)) ;;;
      create_loop n t
  end.

(** The number of workers is unsigned. *)
Definition thread_count (count preference : Z) : Z :=
  if count =? 0 then u32 (u32 preference * core_multiplier) else count.

Definition create_workers (count : Z) (t : proxyType) : M has_workers Z :=
  pref <- gets worker_count_preference_ ;;
  if count <? 0 then modify (set_total count) ;;; mret_ count
  else
    let n := thread_count count pref in
    modify (set_total (s32 n)) ;;;
    create_loop (Z.to_nat n) t ;;;
    mret_ (s32 n).
End workers.
