(* ===== verification/FdqProps.v ===== *)
(** * FdqProps: the descriptor queue hands over in order and wakes the idlest workers *)

From S2P Require Export Fdq.
From Stdlib Require Import Sorting.Sorted.

Ltac Zify.zify_post_hook ::= Z.to_euclidean_division_equations.

Section props.
Context {SY : FdSys}.

Lemma bind_call {A B} (f : sys -> A * sys) (k : A -> M fdq B) q :
  mbind_ (call f) k q = k (fst (f (fq_sys q))) (set_sys (snd (f (fq_sys q))) q).
Proof. unfold mbind_, call. by destruct (f (fq_sys q)). Qed.

(** ** Candidates *)

Definition less_loaded (p q : WorkerPipe) : Prop := seen_worker_load p <= seen_worker_load q.

Lemma candidate_insert_perm p l : candidate_insert p l ≡ₚ p :: l.
Proof.
  induction l as [|q l IH]; simpl; [done|]. destruct (_ <? _); [done|].
  rewrite IH. apply Permutation_swap.
Qed.

Lemma candidate_insert_hd a p l :
  less_loaded a p -> HdRel less_loaded a l -> HdRel less_loaded a (candidate_insert p l).
Proof.
  intros Hp Hl. destruct l as [|q l]; simpl; [by constructor|].
  destruct (_ <? _); [by constructor|]. constructor. by inversion Hl.
Qed.

Lemma candidate_insert_sorted p l :
  Sorted less_loaded l -> Sorted less_loaded (candidate_insert p l).
Proof.
  induction 1 as [|q l Hl IH Hq]; simpl; [by repeat constructor|].
  destruct (Z.ltb_spec (seen_worker_load p) (seen_worker_load q)).
  - constructor; [by constructor|]. constructor. unfold less_loaded. lia.
  - constructor; [exact IH|]. by apply candidate_insert_hd.
Qed.

Lemma candidates_fold (l : list (Z * WorkerPipe)) (c : list WorkerPipe) :
  Sorted less_loaded c ->
  let r := foldl (fun c kp => candidate_insert (snd kp) c) c l in
  Sorted less_loaded r /\ r ≡ₚ c ++ l.*2.
Proof.
  revert c. induction l as [|[k p] l IH]; intros c Hc; simpl.
  - by rewrite app_nil_r.
  - destruct (IH (candidate_insert p c)) as [Hs Hp]; [by apply candidate_insert_sorted|].
    split; [exact Hs|]. rewrite Hp, candidate_insert_perm. simpl. apply Permutation_middle.
Qed.

Lemma candidates_spec (l : list (Z * WorkerPipe)) :
  Sorted less_loaded (candidates l) /\ candidates l ≡ₚ l.*2.
Proof. apply (candidates_fold l []). constructor. Qed.

Lemma sorted_take_drop l n p q :
  Sorted less_loaded l -> p ∈ take n l -> q ∈ drop n l -> less_loaded p q.
Proof.
  intros Hl Hp Hq.
  assert (StronglySorted less_loaded l) as Hs.
  { apply Sorted_StronglySorted; [|done]. intros a b c. unfold less_loaded. lia. }
  clear Hl. revert n Hp Hq. induction Hs as [|a l Hl IH Ha]; intros n Hp Hq.
  - destruct n; simpl in Hp; set_solver.
  - destruct n as [|n]; simpl in Hp, Hq; [set_solver|].
    apply elem_of_cons in Hp as [->|Hp]; [|by apply (IH n)].
    rewrite Forall_forall in Ha. apply Ha. rewrite <- (take_drop n l). set_solver.
Qed.

(** ** Waking up *)

Definition wake (n : sys) (p : WorkerPipe) : sys := snd (sys_write1 n (pipe_to_worker p)).

(** Without feedback every turn of the loop that writes adds two. *)
Lemma summon_ret half ws l q :
  (forall n s, 0 < fst (sys_write1 n s)) -> feedback_queue_empty q = false ->
  summon half ws l q =
    Ret tt (set_sys (foldl wake (fq_sys q) (take (Z.to_nat ((half - ws + 1) `div` 2)) l)) q).
Proof.
  intros Hw. revert ws q. induction l as [|c l IH]; intros ws q Hf; cbn [summon].
  - rewrite take_nil. by destruct q.
  - destruct (Z.ltb_spec half (ws + 1)).
    + replace (Z.to_nat ((half - ws + 1) `div` 2)) with 0%nat by lia. by destruct q.
    + rewrite bind_call, bind_gets. cbn zeta. change (feedback_queue_empty (set_sys _ q)) with (feedback_queue_empty q). rewrite Hf.
      rewrite (proj2 (Z.leb_gt _ 0)) by apply Hw. rewrite IH by done.
      replace (Z.to_nat ((half - ws + 1) `div` 2)) with (S (Z.to_nat ((half - (ws + 1 + 1) + 1) `div` 2))) by lia.
      done.
Qed.

(** With feedback it stops behind the first candidate. *)
Lemma summon_feedback half l q :
  feedback_queue_empty q = true -> half <= zlen l ->
  summon half 0 l q =
    Ret tt (set_feedback (half <? 1) (set_sys (foldl wake (fq_sys q) (take (Z.to_nat (Z.min 1 half)) l)) q)).
Proof.
  intros Hf Hl. destruct l as [|c l]; cbn [summon].
  - rewrite zlen_nil in Hl. rewrite (proj2 (Z.ltb_lt half 1)), take_nil, <- Hf by lia. by destruct q.
  - destruct (Z.ltb_spec half (0 + 1)).
    + rewrite (proj2 (Z.ltb_lt half 1)), <- Hf by lia.
      replace (Z.to_nat (Z.min 1 half)) with 0%nat by lia. by destruct q.
    + rewrite (proj2 (Z.ltb_ge half 1)) by lia. replace (Z.to_nat (Z.min 1 half)) with 1%nat by lia.
      rewrite bind_call, bind_gets. change (feedback_queue_empty (set_sys _ q)) with (feedback_queue_empty q).
      rewrite Hf. cbn. by rewrite take_0.
Qed.

(** Who is woken by a push: of [n] registered workers, a quarter rounded up the
    code's way, [(n/2 + 1)/2], and these are the least loaded ones; none at all when there
    is a single worker. When a worker has reported an empty queue since, only the first
    candidate is woken, and the report is used up. *)
Theorem push_wakes_least_loaded s q :
  (forall n f, 0 < fst (sys_write1 n f)) ->
  let n := zlen (hint_pairs_ q) in
  let c := candidates (hint_pairs_ q) in
  let woken := if feedback_queue_empty q then take (Z.to_nat (Z.min 1 (n `div` 2))) c
               else take (Z.to_nat ((n `div` 2 + 1) `div` 2)) c in
  push_all s q = Ret n (set_feedback (feedback_queue_empty q && (n <? 2))
                          (set_sys (foldl wake (fq_sys q) woken) (set_sq (s :: sq_ q) q))) /\
  c ≡ₚ (hint_pairs_ q).*2 /\
  (forall k a b, a ∈ take k c -> b ∈ drop k c -> seen_worker_load a <= seen_worker_load b) /\
  (n = 1 -> woken = []).
Proof.
  intros Hw n c woken. destruct (candidates_spec (hint_pairs_ q)) as [Hs Hp].
  assert (0 <= n) as Hn by apply zlen_nonneg.
  assert (n `div` 2 <= zlen c) as Hc by (unfold c; rewrite (zlen_perm _ _ Hp), zlen_fmap; fold n; lia).
  split; [|split; [exact Hp|split]].
  - unfold push_all. rewrite bind_modify, bind_gets. simpl hint_pairs_. fold n c. unfold woken.
    destruct (feedback_queue_empty q) eqn:Hf.
    + rewrite (bind_ret _ _ _ _ _ (summon_feedback _ _ (set_sq (s :: sq_ q) q) Hf Hc)).
      replace (n `div` 2 <? 1) with (n <? 2); [done|].
      destruct (Z.ltb_spec n 2), (Z.ltb_spec (n `div` 2) 1); lia || done.
    + rewrite (bind_ret _ _ _ _ _ (summon_ret _ _ _ (set_sq (s :: sq_ q) q) Hw Hf)).
      replace (n `div` 2 - 0 + 1) with (n `div` 2 + 1) by lia.
      unfold mret_. f_equal. cbn [andb]. rewrite <- Hf. by destruct q.
  - intros k a b. by apply sorted_take_drop.
  - intros E. unfold woken. rewrite E. by destruct (feedback_queue_empty q).
Qed.

(** ** The order of hand-over *)

Inductive fop : Type :=
  | Push (s : Z)
  | Pop (worker : Z)
  | PopIf (check : Z -> bool)
  | Load (worker load : Z).

(** One call, and the descriptors it hands out. *)
Definition run_fop (o : fop) : M fdq (list Z) :=
  match o with
  | Push s => push_all s ;;; mret_ []
  | Pop w => r <- pop w ;; mret_ (if 0 <? r then [r] else [])
  | PopIf f => r <- pop_if f ;; mret_ (match r with Some s => [s] | None => [] end)
  | Load w l => update_load w l ;;; mret_ []
  end.

Fixpoint run_fops (l : list fop) : M fdq (list Z) :=
  match l with
  | [] => mret_ []
  | o :: r => a <- run_fop o ;; b <- run_fops r ;; mret_ (a ++ b)
  end.

Definition pushed (o : fop) : list Z := match o with Push s => [s] | _ => [] end.
Definition descriptor (s : Z) : Prop := 0 < s < 2 ^ 31.

Lemma summon_total half ws l q : exists q', summon half ws l q = Ret tt q' /\ sq_ q' = sq_ q.
Proof.
  revert ws q. induction l as [|c l IH]; intros ws q; cbn [summon]; [by exists q|].
  destruct (_ <? _); [by exists q|]. rewrite bind_call, bind_gets.
  destruct (feedback_queue_empty _); [by eexists|]. apply (IH _ (set_sys _ q)).
Qed.

Lemma pair_of_total w q : exists p q', pair_of w q = Ret p q' /\ sq_ q' = sq_ q.
Proof. unfold pair_of. destruct (pairs_find _ _); by eexists _, _. Qed.

Lemma rev_back q s : sq_back q = Some s -> rev (sq_ q) = s :: rev (removelast (sq_ q)).
Proof.
  unfold sq_back. destruct (sq_ q) as [|x l _] using rev_ind; [done|].
  rewrite last_snoc, removelast_last, rev_app_distr. by intros [= ->].
Qed.

Lemma sq_back_none q : sq_back q = None -> sq_ q = [].
Proof. apply last_None. Qed.

Lemma descriptor_small s : descriptor s -> s32 (u32 s) = s.
Proof.
  unfold descriptor. intros H. rewrite u32_small by lia. apply wraps_small; lia.
Qed.

Lemma push_all_ret s q : exists n q', push_all s q = Ret n q' /\ sq_ q' = s :: sq_ q.
Proof.
  unfold push_all. rewrite bind_modify, bind_gets. simpl hint_pairs_.
  destruct (summon_total (zlen (hint_pairs_ q) `div` 2) 0 (candidates (hint_pairs_ q)) (set_sq (s :: sq_ q) q))
    as (q' & E & Hs). rewrite (bind_ret _ _ _ _ _ E). by eexists _, _.
Qed.

(** The oldest descriptor, or 0 from the empty queue. *)
Lemma pop_ret w q : Forall descriptor (sq_ q) ->
  exists s q', pop w q = Ret s q' /\
    (0 < s /\ rev (sq_ q) = s :: rev (sq_ q') \/ s = 0 /\ sq_ q = [] /\ sq_ q' = []).
Proof.
  intros Hq. unfold pop. destruct (pair_of_total w q) as (p & q1 & E & H1).
  rewrite (bind_ret _ _ _ _ _ E), bind_call, bind_gets. set (q2 := set_sys _ q1).
  assert (sq_back q2 = sq_back q) as -> by (unfold sq_back; by rewrite <- H1).
  destruct (sq_back q) as [s|] eqn:Hs.
  - assert (descriptor s) as [Hpos _].
    { apply Forall_rev in Hq. rewrite (rev_back q s Hs) in Hq. by apply Forall_inv in Hq. }
    rewrite bind_modify, bind_gets, (rev_back q s Hs).
    destruct (bool_decide _); eexists _, _; (split; [reflexivity|]); left; (split; [done|]); simpl; by rewrite H1.
  - apply sq_back_none in Hs. eexists _, _. split; [reflexivity|]. right. split; [done|]. cbn. by rewrite H1, Hs.
Qed.

Lemma update_load_ret w l q : exists q', update_load w l q = Ret tt q' /\ sq_ q' = sq_ q.
Proof. eexists. split; [reflexivity|]. by destruct (pairs_find _ _). Qed.

(** One call takes the oldest descriptors out and puts new ones behind the others. *)
Lemma run_fop_ret o q :
  Forall descriptor (sq_ q) ->
  exists d q', run_fop o q = Ret d q' /\ rev (sq_ q) ++ pushed o = d ++ rev (sq_ q').
Proof.
  intros Hq. destruct o as [s|w|f|w l]; cbn [run_fop pushed].
  - destruct (push_all_ret s q) as (n & q' & E & H). rewrite (bind_ret _ _ _ _ _ E). eexists _, _.
    split; [reflexivity|]. by rewrite H.
  - destruct (pop_ret w q Hq) as (s & q' & E & [[Hs H]|(-> & H & H')]); rewrite (bind_ret _ _ _ _ _ E), app_nil_r;
      eexists _, _; (split; [reflexivity|]).
    + by rewrite (proj2 (Z.ltb_lt 0 s)), H by done.
    + by rewrite H, H'.
  - unfold pop_if. rewrite bind_assoc, bind_gets, app_nil_r. destruct (sq_back q) as [s|] eqn:Hs.
    + assert (descriptor s) as Hd.
      { apply Forall_rev in Hq. rewrite (rev_back q s Hs) in Hq. by apply Forall_inv in Hq. }
      destruct (f (u32 s)); [|by exists [], q]. rewrite bind_assoc, bind_modify.
      eexists _, _. split; [reflexivity|]. rewrite descriptor_small by done. by rewrite (rev_back q s Hs).
    + by exists [], q.
  - destruct (update_load_ret w l q) as (q' & E & H). rewrite (bind_ret _ _ _ _ _ E), app_nil_r.
    eexists _, _. split; [reflexivity|]. by rewrite H.
Qed.

Lemma run_fops_kept d q q' p :
  rev (sq_ q) ++ p = d ++ rev (sq_ q') -> Forall descriptor (sq_ q) -> Forall descriptor p ->
  Forall descriptor (sq_ q').
Proof.
  intros E Hq Hp. apply Forall_rev in Hq.
  assert (Forall descriptor (d ++ rev (sq_ q'))) as H by (rewrite <- E; by apply Forall_app).
  apply Forall_app in H as [_ H]. apply Forall_rev in H. by rewrite rev_involutive in H.
Qed.

(** The queue loses nothing, invents nothing and keeps the order, whoever pops:
    whatever sequence of pushes, pops, conditional pops and load reports, the calls
    return, and the descriptors handed out so far followed by those still waiting, oldest
    first, are those that waited at the start followed by those pushed. *)
Theorem queue_hands_over_in_order l q :
  Forall descriptor (sq_ q) -> Forall descriptor (concat (pushed <$> l)) ->
  exists d q', run_fops l q = Ret d q' /\
    rev (sq_ q) ++ concat (pushed <$> l) = d ++ rev (sq_ q').
Proof.
  revert q. induction l as [|o l IH]; intros q Hq Hl; cbn [run_fops].
  - exists [], q. split; [done|]. apply app_nil_r.
  - cbn in Hl. apply Forall_app in Hl as [Ho Hl].
    destruct (run_fop_ret o q Hq) as (d & q1 & E & H).
    rewrite (bind_ret _ _ _ _ _ E).
    destruct (IH q1) as (d' & q' & E' & H'); [by apply (run_fops_kept d q q1 (pushed o))|done|].
    rewrite (bind_ret _ _ _ _ _ E'). eexists _, _. split; [reflexivity|].
    cbn. by rewrite app_assoc, H, <- !app_assoc, H'.
Qed.
End props.

(** ** The theorems on concrete queues

    A system on which every call succeeds; it keeps the descriptors written to. *)
#[local] Instance log_sys : FdSys := {|
  sys := list Z;
  sys_socketpair n := (None, n);
  sys_pipe2 n := (None, n);
  sys_write1 n s := (1, n ++ [s]);
  sys_read1 n s := (1, n);
  sys_close n s := n
|}.

Definition demo_fdq (loads : list Z) : fdq :=
  mkFdq SQ_SOCKETPAIR [] 0 (imap (fun k l => (Z.of_nat k, mkPipe (10 + Z.of_nat k, 20 + Z.of_nat k) l)) loads) false [].

Lemma push_wakes_least_loaded_witness :
  push_all 5 (demo_fdq [7; 3]) = Ret 2 (set_sys [21] (set_sq [5] (demo_fdq [7; 3]))) /\
  push_all 5 (demo_fdq [7]) = Ret 1 (set_sq [5] (demo_fdq [7])).
Proof.
  split.
  - exact (proj1 (push_wakes_least_loaded 5 (demo_fdq [7; 3]) ltac:(done))).
  - exact (proj1 (push_wakes_least_loaded 5 (demo_fdq [7]) ltac:(done))).
Defined.

Lemma queue_hands_over_in_order_witness :
  exists d q', run_fops [Push 4; Push 5; Pop 1; Push 6; Pop 0] (demo_fdq [0; 0]) = Ret d q' /\
    [4; 5; 6] = d ++ rev (sq_ q').
Proof.
  apply (queue_hands_over_in_order [Push 4; Push 5; Pop 1; Push 6; Pop 0] (demo_fdq [0; 0])).
  - constructor.
  - repeat constructor.
Defined.
