(* ===== verification/Flow.v ===== *)
(** * Flow: recorded conversations (FlowEntry and Flow of common/signature.hpp)

    A flow is a queue of entries, each the bytes one side sent.  On a stream, bytes that
    follow bytes of the same side join their entry unless it would grow past the limit; on
    any other domain every chunk is an entry.  An entry's [buffer] is its bytes. *)

From S2P Require Export Effects.

(** [SOCK_STREAM] and [SOCK_DGRAM] *)
Definition SOCK_STREAM : Z := 1.
Definition SOCK_DGRAM : Z := 2.

(** [config_t::max_flow_size], the initial value. *)
Definition max_flow_size : Z := 10 * 1024 * 1024.

Inductive up_validity : Type := OK | MORE | CONTINUATION | TRUNCATED.

Section flow.
Context {S : Type} `{EqDecision S}.

Record FlowEntry : Type := mkEntry {
  source_ : S;
  e_data : bytes;
  counter_ : Z;
  validity_ : up_validity;
  more_index_ : Z
}.

(** The constructor: the fields' initialisers. *)
Definition entry_new (s : S) (d : bytes) : FlowEntry := mkEntry s d 1 OK 0.
Definition entry_size (e : FlowEntry) : Z := zlen (e_data e).
Definition entry_append (d : bytes) (e : FlowEntry) : FlowEntry :=
  mkEntry (source_ e) (e_data e ++ d) (u64 (counter_ e + 1)) (validity_ e) (more_index_ e).
Definition set_validity (v : up_validity) (e : FlowEntry) : FlowEntry :=
  mkEntry (source_ e) (e_data e) (counter_ e) v (more_index_ e).

Record Flow : Type := mkFlow { flow_queue : list FlowEntry; domain_ : Z; exchanges : Z }.

(** [Flow()] *)
Definition flow_new : Flow := mkFlow [] SOCK_STREAM 0.
Definition set_domain (d : Z) (f : Flow) : Flow := mkFlow (flow_queue f) d (exchanges f).
Definition flow_size (f : Flow) : Z := zlen (flow_queue f).

Definition flow_pop (f : Flow) : Flow := mkFlow (tail (flow_queue f)) (domain_ f) (exchanges f).

(** [back()] of a queue that is not empty, changed in place. *)
Definition upd_back (g : FlowEntry -> FlowEntry) (q : list FlowEntry) : list FlowEntry :=
  match last q with Some e => removelast q ++ [g e] | None => q end.

(** [append(src, data, len)]; the result is cut to an [unsigned int]. *)
Definition flow_append (src : S) (d : bytes) (f : Flow) : Z * Flow :=
  let q := flow_queue f in
  (u32 (zlen d),
   match last q with
   | None => mkFlow (q ++ [entry_new src d]) (domain_ f) (exchanges f)
   | Some e =>
       if decide (source_ e = src) then
         if domain_ f =? SOCK_STREAM then
           if max_flow_size <? u64 (entry_size e + zlen d)
           then mkFlow (upd_back (set_validity TRUNCATED) q) (domain_ f) (exchanges f)
           else mkFlow (upd_back (entry_append d) q) (domain_ f) (exchanges f)
         else mkFlow (q ++ [entry_new src d]) (domain_ f) (exchanges f)
       else mkFlow (q ++ [entry_new src d]) (domain_ f) (u32 (exchanges f + 1))
   end).

(** A run of appends. *)
Definition flow_append_all (l : list (S * bytes)) (f : Flow) : Flow :=
  foldl (fun f sd => snd (flow_append (fst sd) (snd sd) f)) f l.
End flow.
Arguments FlowEntry : clear implicits.
Arguments Flow : clear implicits.

(** ** Properties of flows *)

Section props.
Context {S : Type} `{EqDecision S}.
Implicit Types (l : list (S * bytes)) (g : list (S * list bytes)).

(** ** The specification: turns

    A turn is a maximal run of chunks of one side. *)
Fixpoint turns l : list (S * list bytes) :=
  match l with
  | [] => []
  | (s, d) :: r =>
      match turns r with
      | (s', ds) :: g => if decide (s = s') then (s, d :: ds) :: g else (s, [d]) :: (s', ds) :: g
      | [] => [(s, [d])]
      end
  end.

(** The chunks of a turn that fit: every chunk that keeps the total of those taken
    within the limit; the first one always. *)
Fixpoint fitting (n : Z) (ds : list bytes) : list bytes :=
  match ds with
  | [] => []
  | d :: r => if max_flow_size <? n + zlen d then fitting n r else d :: fitting (n + zlen d) r
  end.

Definition taken (ds : list bytes) : list bytes :=
  match ds with [] => [] | d :: r => d :: fitting (zlen d) r end.

Definition entry_of_turn (t : S * list bytes) : FlowEntry S :=
  let ds := taken (snd t) in
  mkEntry (fst t) (concat ds) (u64 (zlen ds)) (if bool_decide (length ds = length (snd t)) then OK else TRUNCATED) 0.

(** ** Turns grow at the end *)

Fixpoint add_turn (s : S) (d : bytes) g : list (S * list bytes) :=
  match g with
  | [] => [(s, [d])]
  | [(s', ds)] => if decide (s' = s) then [(s', ds ++ [d])] else [(s', ds); (s, [d])]
  | t :: g => t :: add_turn s d g
  end.

Lemma add_turn_snoc s d g s' ds :
  add_turn s d (g ++ [(s', ds)]) =
  if decide (s' = s) then g ++ [(s', ds ++ [d])] else g ++ [(s', ds); (s, [d])].
Proof.
  induction g as [|[s1 ds1] g IH]; [done|]. cbn [app].
  transitivity ((s1, ds1) :: add_turn s d (g ++ [(s', ds)])); [by destruct g|].
  rewrite IH. by destruct (decide (s' = s)).
Qed.

Lemma turns_snoc l s d : turns (l ++ [(s, d)]) = add_turn s d (turns l).
Proof.
  induction l as [|[s0 d0] l IH]; [done|]. cbn [app turns]. rewrite IH.
  destruct (turns l) as [|[s1 ds1] g]; cbn [add_turn].
  - destruct (decide (s0 = s)); [subst|]; done.
  - destruct g as [|t g]; cbn [add_turn];
      destruct (decide (s1 = s)), (decide (s0 = s1)); simplify_eq; cbn [add_turn];
      rewrite ?decide_True, ?decide_False by done; done.
Qed.
(** ** What a turn keeps *)

Lemma fitting_snoc n ds d :
  fitting n (ds ++ [d]) =
  if max_flow_size <? n + zlen (concat (fitting n ds)) + zlen d then fitting n ds else fitting n ds ++ [d].
Proof.
  revert n. induction ds as [|d0 ds IH]; intros n; cbn [app fitting].
  - cbn [concat]. rewrite zlen_nil, Z.add_0_r. done.
  - destruct (_ <? n + zlen d0); rewrite IH; [done|]. cbn [concat]. rewrite zlen_app, Z.add_assoc.
    by destruct (_ <? _).
Qed.

Lemma taken_snoc ds d :
  ds <> [] -> taken (ds ++ [d]) =
  if max_flow_size <? zlen (concat (taken ds)) + zlen d then taken ds else taken ds ++ [d].
Proof.
  destruct ds as [|d0 ds]; [done|]. intros _. cbn [app taken concat]. rewrite fitting_snoc, zlen_app.
  by destruct (_ <? _).
Qed.

Lemma fitting_length n ds : (length (fitting n ds) <= length ds)%nat.
Proof. revert n. induction ds as [|d ds IH]; intros n; [done|]. simpl. destruct (_ <? _); simpl; [specialize (IH n)|specialize (IH (n + zlen d))]; lia. Qed.

Lemma taken_length ds : (length (taken ds) <= length ds)%nat.
Proof. destruct ds; simpl; [done|]. pose proof (fitting_length (zlen l) ds). lia. Qed.

Lemma fitting_all n ds : n + zlen (concat ds) <= max_flow_size -> fitting n ds = ds.
Proof.
  revert n. induction ds as [|d ds IH]; intros n Hn; [done|]. cbn [fitting concat] in *. rewrite zlen_app in Hn.
  pose proof (zlen_nonneg (concat ds)). rewrite (proj2 (Z.ltb_ge _ _)) by lia. by rewrite IH by lia.
Qed.

Lemma taken_all ds : zlen (concat ds) <= max_flow_size -> taken ds = ds.
Proof. destruct ds; [done|]. cbn [taken concat]. rewrite zlen_app. intros. by rewrite fitting_all. Qed.

Definition small (d : bytes) : Prop := zlen d < 2 ^ 32.

Lemma fitting_size n ds : n <= 2 ^ 32 -> n + zlen (concat (fitting n ds)) <= 2 ^ 32.
Proof.
  revert n. induction ds as [|d ds IH]; intros n Hn; simpl; [rewrite zlen_nil; lia|].
  destruct (Z.ltb_spec max_flow_size (n + zlen d)); [by apply IH|]. unfold max_flow_size in *.
  cbn [concat]. rewrite zlen_app. specialize (IH (n + zlen d)). lia.
Qed.

Lemma taken_size ds : Forall small ds -> zlen (concat (taken ds)) <= 2 ^ 32.
Proof.
  destruct 1 as [|d ds Hd]; [done|]. cbn [taken concat]. rewrite zlen_app. unfold small in Hd.
  apply fitting_size. lia.
Qed.

(** ** One append *)

Definition proper_turn (t : S * list bytes) : Prop := snd t <> [] /\ Forall small (snd t).

Lemma entry_grows s ds d :
  proper_turn (s, ds) -> small d ->
  entry_of_turn (s, ds ++ [d]) =
  if max_flow_size <? u64 (entry_size (entry_of_turn (s, ds)) + zlen d)
  then set_validity TRUNCATED (entry_of_turn (s, ds)) else entry_append d (entry_of_turn (s, ds)).
Proof.
  intros [Hne Hs] Hd. simpl in Hne, Hs. unfold entry_of_turn, entry_size. cbn [fst snd e_data].
  pose proof (taken_size ds Hs). pose proof (zlen_nonneg (concat (taken ds))). pose proof (zlen_nonneg d).
  unfold small in Hd. rewrite (u64_small (zlen (concat _) + zlen d)) by lia. rewrite taken_snoc by done. pose proof (taken_length ds).
  destruct (_ <? _).
  - rewrite length_app. simpl length. rewrite bool_decide_eq_false_2 by lia. done.
  - rewrite !length_app, concat_app, zlen_app. simpl length. unfold entry_append. cbn [source_ e_data counter_ validity_ more_index_].
    cbn [concat]. rewrite app_nil_r. f_equal.
    + unfold u64, wrapu. by rewrite Zplus_mod_idemp_l.
    + destruct (decide (length (taken ds) = length ds)).
      * by rewrite !bool_decide_eq_true_2 by lia.
      * by rewrite !bool_decide_eq_false_2 by lia.
Qed.

Lemma append_stream s d g f :
  Forall proper_turn g -> small d -> domain_ f = SOCK_STREAM -> flow_queue f = entry_of_turn <$> g ->
  let f' := snd (flow_append s d f) in
  domain_ f' = SOCK_STREAM /\ flow_queue f' = entry_of_turn <$> add_turn s d g /\
  exchanges f' = (if decide (zlen (add_turn s d g) = zlen g \/ g = []) then exchanges f else u32 (exchanges f + 1)) /\
  Forall proper_turn (add_turn s d g).
Proof.
  intros Hg Hd Hdom Hq. unfold flow_append. rewrite Hq, Hdom.
  assert (proper_turn (s, [d])) as Hnew by (split; [done|by repeat constructor]).
  destruct g as [|[s' ds] g _] using rev_ind.
  - cbn. split; [done|]. split; [|split; [done|by repeat constructor]].
    unfold entry_new, entry_of_turn. cbn. by rewrite app_nil_r.
  - rewrite fmap_app. change (entry_of_turn <$> [(s', ds)]) with [entry_of_turn (s', ds)]. rewrite last_snoc, add_turn_snoc. change (source_ (entry_of_turn (s', ds))) with s'.
    apply Forall_app in Hg as [Hg Ht]. apply Forall_inv in Ht as Hp.
    destruct (decide (s' = s)) as [->|Hs]; cbn [snd].
    + rewrite !zlen_app, !zlen_cons, decide_True by (by left).
      assert (Forall proper_turn (g ++ [(s, ds ++ [d])])) as Hok.
      { apply Forall_app. split; [done|]. repeat constructor; simpl; [by destruct ds|].
        apply Forall_app. split; [apply Hp|by repeat constructor]. }
      unfold upd_back. rewrite fmap_app, last_snoc, removelast_last. cbn [fmap list_fmap].
      rewrite entry_grows by done. rewrite Z.eqb_refl. by destruct (_ <? _).
    + rewrite !zlen_app, !zlen_cons, decide_False.
      2: { intros [E|E]; [lia|by destruct g]. }
      split; [done|]. split; [|split; [done|]].
      * rewrite fmap_app. cbn [flow_queue fmap list_fmap]. rewrite <- app_assoc. cbn [app]. do 3 f_equal.
        unfold entry_new, entry_of_turn. cbn. by rewrite app_nil_r.
      * apply Forall_app. split; [done|]. apply Forall_cons; split; [done|]. by apply Forall_singleton.
Qed.

(** ** The whole conversation *)

Lemma turns_proper l : Forall (fun sd => small (snd sd)) l -> Forall proper_turn (turns l).
Proof.
  induction 1 as [|[s d] l Hd Hl IH]; [constructor|]. cbn [turns].
  assert (proper_turn (s, [d])) as Hn by (split; [done|by apply Forall_singleton]).
  destruct (turns l) as [|[s' ds] g]; [by apply Forall_singleton|].
  apply Forall_cons in IH as [[H1 H2] Hg].
  destruct (decide (s = s')); constructor; try done; [split; [done|by constructor]|by constructor].
Qed.

Lemma zlen_add_turn s d g :
  zlen (add_turn s d g) = zlen g + (if decide (zlen (add_turn s d g) = zlen g) then 0 else 1).
Proof.
  induction g as [|[s' ds] g _] using rev_ind; [done|]. rewrite add_turn_snoc.
  destruct (decide (s' = s)); rewrite !zlen_app, !zlen_cons, !zlen_nil; destruct (decide _); lia.
Qed.

Lemma stream_turns l :
  Forall (fun sd => small (snd sd)) l ->
  let f := flow_append_all l flow_new in
  domain_ f = SOCK_STREAM /\ flow_queue f = entry_of_turn <$> turns l /\
  exchanges f = u32 (Z.max 0 (zlen (turns l) - 1)).
Proof.
  induction l as [|[s d] l IH] using rev_ind; intros Hl; [done|].
  apply Forall_app in Hl as [Hl Hd]. apply Forall_inv in Hd. destruct (IH Hl) as (Hdom & Hq & Hx).
  unfold flow_append_all. rewrite foldl_app. cbn [foldl fst snd].
  fold (flow_append_all l flow_new). set (f := flow_append_all l flow_new) in *.
  destruct (append_stream s d (turns l) f (turns_proper l Hl) Hd Hdom Hq) as (E1 & E2 & E3 & _).
  rewrite turns_snoc. split; [exact E1|]. split; [exact E2|]. rewrite E3, Hx.
  pose proof (zlen_add_turn s d (turns l)) as E. pose proof (zlen_nonneg (turns l)) as Hn.
  destruct (decide (_ \/ _)) as [[Heq|Hnil]|Hno].
  - by rewrite Heq.
  - by rewrite Hnil.
  - destruct (decide (zlen (add_turn s d (turns l)) = zlen (turns l))); [tauto|].
    destruct (turns l) as [|t g]; [tauto|]. rewrite E, zlen_cons in *. pose proof (zlen_nonneg g).
    replace (Z.max 0 (zlen g + 1 - 1)) with (zlen g) by lia.
    replace (Z.max 0 (zlen g + 1 + 1 - 1)) with (zlen g + 1) by lia.
    unfold wrapu. by rewrite Zplus_mod_idemp_l.
Qed.

Lemma packet_entries dom l :
  dom <> SOCK_STREAM ->
  let f := flow_append_all l (set_domain dom flow_new) in
  domain_ f = dom /\ flow_queue f = (fun sd => entry_new (fst sd) (snd sd)) <$> l.
Proof.
  intros Hdom. induction l as [|[s d] l [Hd Hq]] using rev_ind; [done|].
  unfold flow_append_all. rewrite foldl_app. cbn [foldl fst snd].
  fold (flow_append_all l (set_domain dom flow_new)).
  set (f := flow_append_all l (set_domain dom flow_new)) in *. rewrite fmap_app, <- Hq.
  unfold flow_append. rewrite Hd, (proj2 (Z.eqb_neq _ _)) by done.
  destruct (last (flow_queue f)) as [e|]; [|done]. by destruct (decide (source_ e = s)).
Qed.

Lemma turns_bytes l : concat ((fun t => concat (snd t)) <$> turns l) = concat (l.*2).
Proof.
  induction l as [|[s d] l IH]; [done|]. cbn [turns fmap list_fmap concat]. rewrite <- IH.
  destruct (turns l) as [|[s' ds] g]; [by cbn; rewrite !app_nil_r|].
  destruct (decide (s = s')); cbn; by rewrite ?app_nil_r, <- ?app_assoc.
Qed.

(** What a flow records.  On a stream, whatever chunks are appended, the queue has
    one entry per turn of the conversation, in order: the side, the chunks of the turn
    that fit under the size limit joined together, how many they are, and a truncation mark
    exactly when one was left out; the number of exchanges is the number of changes of
    side.  As long as no turn exceeds the limit, every byte of the conversation is there in
    order.  On any other domain every chunk is an entry of its own. *)
Theorem flow_is_turns l :
  Forall (fun sd => small (snd sd)) l ->
  let f := flow_append_all l flow_new in
  flow_queue f = entry_of_turn <$> turns l /\
  exchanges f = u32 (Z.max 0 (zlen (turns l) - 1)) /\
  (Forall (fun t => zlen (concat (snd t)) <= max_flow_size) (turns l) ->
     concat (e_data <$> flow_queue f) = concat (l.*2) /\
     Forall (fun e => validity_ e = OK) (flow_queue f)) /\
  (forall dom, dom <> SOCK_STREAM ->
     flow_queue (flow_append_all l (set_domain dom flow_new)) =
     (fun sd => entry_new (fst sd) (snd sd)) <$> l).
Proof.
  intros Hl f. destruct (stream_turns l Hl) as (_ & Hq & Hx).
  split; [exact Hq|]. split; [exact Hx|]. split; [|intros dom Hd; apply (packet_entries dom l Hd)].
  intros Hmax. unfold f. rewrite Hq, <- turns_bytes. clear Hq Hx f Hl.
  induction (turns l) as [|[s ds] g IH]; [by split|].
  apply Forall_cons in Hmax as [Hm Hg]. destruct (IH Hg) as [E1 E2]. simpl in Hm.
  cbn [fmap list_fmap concat]. unfold entry_of_turn at 1 3. cbn [fst snd e_data]. rewrite taken_all by done.
  split; [f_equal; exact E1|]. apply Forall_cons. split; [|exact E2].
  cbn [validity_]. by rewrite bool_decide_eq_true_2.
Qed.
End props.

Lemma flow_is_turns_witness :
  let l := [("l"%string, [1; 2]); ("l"%string, [3]); ("r"%string, [4])] in
  flow_queue (flow_append_all l flow_new) =
  [mkEntry "l"%string [1; 2; 3] 2 OK 0; mkEntry "r"%string [4] 1 OK 0].
Proof.
  intros l. refine (eq_trans (proj1 (flow_is_turns l _)) _); [by repeat constructor|by vm_compute].
Defined.
