(* ===== verification/Signature.v ===== *)
(** * Signature: matching recorded flows (common/signature.hpp)

    A signature is a chain of matches, each for one side; [flowMatch::match] walks the
    entries of a flow with the next match of the chain and keeps its position between
    calls.  [SignatureTree] keeps groups of signatures with their match states.

    Two things come from the C++ library: [std::regex_search] with a compiled
    expression is a function of the match, and what [vector::erase] does with the end
    iterator, undefined by the standard, is the class [EraseEnd]. *)

From S2P Require Export Flow.

(** ** Ranges *)

Abbreviation range := (Z * Z)%type.
Definition NULLRANGE : range := (0, -1).

(** ** One match *)

(** [regex_search]: position and length of the first match. *)
Inductive search_t : Type := Plain | Regex (expr_comp : bytes -> option (Z * Z)).

Record baseMatch : Type := mkMatch {
  expr_ : bytes;
  match_limits_offset : Z;
  match_limits_bytes : Z;
  search_ : search_t
}.

Fixpoint is_prefix (p s : bytes) : bool :=
  match p, s with
  | [], _ => true
  | a :: p, b :: s => (a =? b) && is_prefix p s
  | _ :: _, [] => false
  end.

(** [std::string::find] *)
Fixpoint find_from (p s : bytes) (i : Z) : option Z :=
  if is_prefix p s then Some i
  else match s with [] => None | _ :: s => find_from p s (i + 1) end.

Definition search_function (m : baseMatch) (str : bytes) : range :=
  match search_ m with
  | Plain => match find_from (expr_ m) str 0 with
             | Some where_ => (s32 where_, s32 (zlen str))
             | None => NULLRANGE
             end
  | Regex f => match f str with Some (p, n) => (s32 p, s32 n) | None => NULLRANGE end
  end.

(** [simpleMatch::match]; the entry sizes keep the sum of two [int]s in range. *)
Definition match_str (m : baseMatch) (str : bytes) : range :=
  let loc := search_function m str in
  if bool_decide (loc = NULLRANGE) then NULLRANGE else (fst loc, fst loc + snd loc - 1).

(** The bytes [buffer::view] gives, for a position inside the buffer. *)
Definition view_bytes (pos len : Z) (d : bytes) : bytes :=
  if u64 (pos + len) <=? zlen d then ztake len (zdrop pos d) else zdrop pos d.

(** The part of an entry's bytes a match looks at. *)
Definition limited_view (m : baseMatch) (d : bytes) : bytes :=
  let off := match_limits_offset m in
  let lim := match_limits_bytes m in
  if (0 <? lim) || (0 <? off) then
    view_bytes (if off <? zlen d then off else zlen d - 1)
               (if u32 (lim + off) <? zlen d then lim else zlen d) d
  else d.

(** What one match says of one entry's bytes. *)
Definition match_entry (m : baseMatch) (d : bytes) : range :=
  let v := limited_view m d in match_str m (ztake (u32 (zlen v)) v).

(** ** Chains *)

(** [vector::erase(end())] *)
Class EraseEnd : Type := erase_end : list range -> option (list range).

Section chain.
Context {S : Type} `{EqDecision S} {EE : EraseEnd}.

Record flowMatch : Type := mkFlowMatch { name_ : string; signature_ : list (S * baseMatch) }.

Definition fm_add (s : S) (m : baseMatch) (g : flowMatch) : flowMatch :=
  mkFlowMatch (name_ g) (signature_ g ++ [(s, m)]).

(** The arguments [ret] and [sig_pos], kept by [flowMatchState]. *)
Record mstate : Type := mkMstate { ranges_ : list range; sig_pos_ : Z }.
Definition mstate0 : mstate := mkMstate [] 0.

(** [cur_flow == (ret.size() - 1)], in [size_t]. *)
Definition at_last (cur : Z) (ret : list range) : bool := cur =? u64 (zlen ret - 1).

Definition push_range (r : range) : M mstate unit :=
  modify (fun st => mkMstate (ranges_ st ++ [r]) (sig_pos_ st)).

(** A miss is recorded unless the last position already holds a result. *)
Definition record_miss (cur : Z) : M mstate unit :=
  ret <- gets ranges_ ;;
  if at_last cur ret then mret_ tt else push_range NULLRANGE.

Definition record_hit (cur : Z) (r : range) : M mstate unit :=
  ret <- gets ranges_ ;;
  (if at_last cur ret then
     match erase_end ret with
     | Some ret => modify (fun st => mkMstate ret (sig_pos_ st))
     | None => undef
     end
   else mret_ tt) ;;;
  push_range r ;;;
  modify (fun st => mkMstate (ranges_ st) (u32 (sig_pos_ st + 1))).

(** One turn of the loop: entry number [cur]. *)
Definition match_one (sig_src : S) (m : baseMatch) (cur : Z) (e : FlowEntry S) : M mstate unit :=
  if entry_size e =? 0 then mret_ tt
  else if decide (source_ e = sig_src) then
    let r := match_entry m (e_data e) in
    if bool_decide (r <> NULLRANGE) then record_hit cur r else record_miss cur
  else record_miss cur.

Fixpoint match_loop (sig : list (S * baseMatch)) (q : list (FlowEntry S)) (cur : Z) : M mstate unit :=
  match q with
  | [] => mret_ tt
  | e :: q =>
      p <- gets sig_pos_ ;;
      match sig !! Z.to_nat p with
      | Some (src, m) => match_one src m cur e ;;; match_loop sig q (cur + 1)
      | None => mret_ tt
      end
  end.

(** [flowMatch::match(f, ret, sig_pos)] *)
Definition flow_match (g : flowMatch) (f : Flow S) : M mstate bool :=
  ret <- gets ranges_ ;;
  let flow_step := match ret with [] => 0 | _ => zlen ret - 1 end in
  match_loop (signature_ g) (zdrop flow_step (flow_queue f)) flow_step ;;;
  p <- gets sig_pos_ ;;
  mret_ ((0 <? p) && (zlen (signature_ g) <=? p)).

(** [flowMatch::match(f)]: the position starts as the indeterminate value [p]. *)
Definition flow_match_vector (g : flowMatch) (f : Flow S) (p : Z) : outcome mstate (list range) :=
  match flow_match g f (mkMstate [] p) with
  | Ret true st => Ret (ranges_ st) st
  | Ret false st => Ret [NULLRANGE] st
  | Throw e st => Throw e st
  | Undef => Undef
  end.
End chain.
Arguments flowMatch : clear implicits.

(** ** Groups of signatures *)

(** [using duplexFlow = Flow<char>] *)
Abbreviation duplexFlow := (Flow Z).
Abbreviation duplexFlowMatch := (flowMatch Z).

Section tree.
Context {EE : EraseEnd}.

(** [flowMatchState] *)
Record flowMatchState : Type := mkState { hit_ : bool; state_ : mstate }.
Definition fms_new : flowMatchState := mkState false mstate0.

(** A sensor: match states with their signatures, [None] being a null pointer. *)
Definition sensorType : Type := list (flowMatchState * option duplexFlowMatch).

Definition max_groups : Z := 128.

Record SignatureTree : Type := mkTree {
  filter_ : list bool;                       (* std::bitset *)
  sensors_ : list (option sensorType);       (* std::array of pointers *)
  name_index : gmap string Z;
  last_alloc_index : Z
}.

Definition tree0 : SignatureTree :=
  mkTree (zrep max_groups false) (zrep max_groups None) ∅ (-1).

(** [sensors_[i] = make_shared(...)] and [filter_.set(i, allowed)]: past the end of the
    array is undefined. *)
Definition alloc_group (allowed : bool) : M SignatureTree Z := fun t =>
  let i := last_alloc_index t + 1 in
  if i <? max_groups then
    Ret i (mkTree (<[Z.to_nat i := allowed]> (filter_ t)) (<[Z.to_nat i := Some []]> (sensors_ t))
             (name_index t) i)
  else Undef.

Definition group_add (allowed : bool) : M SignatureTree Z := alloc_group allowed.

Definition group_add_named (name : string) (allowed : bool) : M SignatureTree Z :=
  i <- alloc_group allowed ;;
  modify (fun t => mkTree (filter_ t) (sensors_ t) (<[name := i]> (name_index t)) (last_alloc_index t)) ;;;
  mret_ i.

(** [SignatureTree(prealloc_count)] *)
Definition tree_new (prealloc_count : nat) : outcome SignatureTree unit :=
  Nat.iter prealloc_count (fun m => m ;;; group_add true ;;; mret_ tt) (mret_ tt) tree0.

Definition group_index (name : string) (t : SignatureTree) : option Z := name_index t !! name.

(** [std::bitset::test], which checks its argument. *)
Definition tree_check (i : Z) : M SignatureTree bool := fun t =>
  match filter_ t !! Z.to_nat i with
  | Some b => Ret b t
  | None => Throw out_of_range t
  end.

Definition tree_set (i : Z) (v : bool) (t : SignatureTree) : SignatureTree :=
  if i <? max_groups
  then mkTree (<[Z.to_nat i := v]> (filter_ t)) (sensors_ t) (name_index t) (last_alloc_index t)
  else t.

Definition tree_size (t : SignatureTree) : Z := last_alloc_index t.

Definition sensor_at (i : Z) (t : SignatureTree) : option sensorType :=
  default None (sensors_ t !! Z.to_nat i).

Definition group (name : string) (allowed_only : bool) : M SignatureTree (option sensorType) :=
  gi <- gets (group_index name) ;;
  match gi with
  | None => mret_ None
  | Some i =>
      if allowed_only then
        b <- tree_check i ;; if b then gets (sensor_at i) else mret_ None
      else gets (sensor_at i)
  end.

(** [sensors_[i]->...]: undefined on a null pointer. *)
Definition upd_sensor (i : Z) (f : sensorType -> sensorType) : M SignatureTree unit := fun t =>
  match sensor_at i t with
  | Some s => Ret tt (mkTree (filter_ t) (<[Z.to_nat i := Some (f s)]> (sensors_ t)) (name_index t) (last_alloc_index t))
  | None => Undef
  end.

Definition signature_add (sig : option duplexFlowMatch) (group_name : string) (allowed : bool) :
    M SignatureTree bool :=
  gi <- gets (group_index group_name) ;;
  match gi with
  | Some i => upd_sensor i (fun s => s ++ [(fms_new, sig)]) ;;; mret_ false
  | None =>
      i <- group_add_named group_name allowed ;;
      upd_sensor i (fun s => s ++ [(fms_new, sig)]) ;;; mret_ true
  end.

(** [reset] leaves the filter as it is. *)
Definition tree_reset (t : SignatureTree) : SignatureTree :=
  mkTree (filter_ t) (zrep max_groups None) ∅ (-1).

(** [flowMatchState::update] *)
Definition fms_update (f : duplexFlow) (sig : option duplexFlowMatch) (s : flowMatchState) :
    outcome flowMatchState bool :=
  match sig with
  | None => Undef
  | Some g =>
      match flow_match g f (state_ s) with
      | Ret b st => Ret b (mkState (hit_ s) st)
      | Throw e st => Throw e (mkState (hit_ s) st)
      | Undef => Undef
      end
  end.
End tree.

(** ** Replacing and filling (regex_replace_fill of src/common/buffer.cpp)

    [search] is [regex_search] with the expression, position and length of the first match,
    and [replace] is [regex_replace] with it. The loops go round once for each match, for
    ever when a match is empty at the start; running out of fuel, and a fill that adds nothing, is [None]. The counter of the filling
    loop is an [unsigned int]: texts are shorter than 2^32. *)

Section fill.
Context (search : bytes -> option (Z * Z)) (replace : bytes -> bytes).

Fixpoint match_count (fuel : nat) (s : bytes) : option Z :=
  match fuel with
  | O => None
  | S fuel =>
      match search s with
      | None => Some 0
      | Some (p, n) => (fun c => c + 1) <$> match_count fuel (zdrop (p + n) s)
      end
  end.

(** What the innermost loop adds for [n] bytes, a whole pattern at a time. *)
Definition fill (fill_pattern : bytes) (n : Z) : option bytes :=
  if n <=? 0 then Some []
  else if zlen fill_pattern =? 0 then None
  else Some (concat (replicate (Z.to_nat ((n + zlen fill_pattern - 1) / zlen fill_pattern)) fill_pattern)).

(** [left] is how many matches are left with this one. *)
Fixpoint replace_loop (fuel : nat) (sample fill_pattern s acc : bytes) (left : Z) : option bytes :=
  match fuel with
  | O => None
  | S fuel =>
      match search s with
      | None => Some acc
      | Some (p, n) =>
          let appendix := zdrop (p + n) s in
          let acc := acc ++ ztake p s ++ replace (ztake n (zdrop p s)) in
          acc ←
            (if left =? 1 then
               let dif := zlen sample in
               f ← (if 0 <? dif then fill fill_pattern (dif - zlen appendix) else Some []);
               Some (acc ++ f ++ appendix)
             else Some acc);
          replace_loop fuel sample fill_pattern appendix acc (left - 1)
      end
  end.

(** The difference of the sizes is unsigned: it is positive unless they are equal. *)
Definition regex_replace_fill (fuel : nat) (sample fill_pattern : bytes) : option bytes :=
  let result := replace sample in
  if zlen sample =? zlen result then Some result
  else
    c ← match_count fuel sample;
    replace_loop fuel sample fill_pattern sample [] c.
End fill.
