(* ===== verification/SignatureProps.v ===== *)
(** * SignatureProps: what a signature matches, at once and piecemeal

    Matching is greedy embedding of the chain into the flow; the properties of the
    groups of signatures follow. *)

From S2P Require Export Signature.

Section chain.
Context {S : Type} `{EqDecision S} {EE : EraseEnd}.
Implicit Types (sig : list (S * baseMatch)) (q : list (FlowEntry S)) (e : FlowEntry S).

(** ** The specification: embedding *)

(** A match of the chain is satisfied by an entry: right side, some bytes, found. *)
Definition hits (it : S * baseMatch) e : bool :=
  negb (entry_size e =? 0) && bool_decide (source_ e = fst it) &&
  bool_decide (match_entry (snd it) (e_data e) <> NULLRANGE).

(** The matches of the chain are satisfied by entries of the flow, in order, no two by
    the same entry. *)
Definition embeds sig q : Prop :=
  exists q', q' `sublist_of` q /\ Forall2 (fun it e => hits it e = true) sig q'.

(** ** The greedy walk *)

Fixpoint greedy sig q : nat :=
  match q, sig with
  | e :: q, it :: sig' => if hits it e then Datatypes.S (greedy sig' q) else greedy sig q
  | _, _ => 0%nat
  end.

Fixpoint results sig q : list range :=
  match q, sig with
  | e :: q, it :: sig' =>
      if hits it e then match_entry (snd it) (e_data e) :: results sig' q
      else if entry_size e =? 0 then results sig q else NULLRANGE :: results sig q
  | _, _ => []
  end.

Lemma greedy_nil q : greedy [] q = 0%nat.
Proof. by destruct q. Qed.
Lemma results_nil q : results [] q = [].
Proof. by destruct q. Qed.

Lemma greedy_le sig q : (greedy sig q <= length sig)%nat.
Proof.
  revert sig. induction q as [|e q IH]; intros [|it sig]; simpl; try lia.
  specialize (IH sig) as H1. specialize (IH (it :: sig)) as H2. simpl in H2. destruct (hits it e); lia.
Qed.

Lemma greedy_app sig q1 q2 : greedy sig (q1 ++ q2) = (greedy sig q1 + greedy (drop (greedy sig q1) sig) q2)%nat.
Proof.
  revert sig. induction q1 as [|e q1 IH]; intros sig; [done|].
  destruct sig as [|it sig]; [by rewrite ?drop_nil, !greedy_nil|]. simpl.
  destruct (hits it e); [by rewrite IH|]. by rewrite IH.
Qed.

Lemma results_app sig q1 q2 : results sig (q1 ++ q2) = results sig q1 ++ results (drop (greedy sig q1) sig) q2.
Proof.
  revert sig. induction q1 as [|e q1 IH]; intros sig; [done|].
  destruct sig as [|it sig]; [by rewrite ?drop_nil, !results_nil|]. simpl.
  destruct (hits it e); [by rewrite IH|]. rewrite IH. by destruct (entry_size e =? 0).
Qed.

Lemma results_length_le sig q : (length (results sig q) <= length q)%nat.
Proof.
  revert sig. induction q as [|e q IH]; intros [|it sig]; simpl; try lia.
  specialize (IH sig) as H1. specialize (IH (it :: sig)) as H2.
  destruct (hits it e), (entry_size e =? 0); simpl; lia.
Qed.

(** An unfinished chain has one result per entry. *)
Lemma results_length sig q :
  Forall (fun e => entry_size e <> 0) q -> (greedy sig q < length sig)%nat ->
  length (results sig q) = length q.
Proof.
  intros Hq. revert sig. induction Hq as [|e q He _ IH]; intros [|it sig] Hg; simpl in *; try lia.
  rewrite (proj2 (Z.eqb_neq _ 0)) by done.
  destruct (hits it e); simpl; rewrite IH; simpl; lia.
Qed.

(** ** Greedy is best *)

Lemma embeds_nil q : embeds [] q.
Proof. exists []. split; [apply sublist_nil_l|constructor]. Qed.

Lemma embeds_skip sig e q : embeds sig q -> embeds sig (e :: q).
Proof. intros (q' & Hs & Hf). exists q'. split; [by apply sublist_cons|done]. Qed.

Lemma embeds_hit it sig e q : hits it e = true -> embeds sig q -> embeds (it :: sig) (e :: q).
Proof. intros Hh (q' & Hs & Hf). exists (e :: q'). split; [by apply sublist_skip|by constructor]. Qed.

Lemma embeds_cons_inv it sig e q :
  embeds (it :: sig) (e :: q) -> (hits it e = true /\ embeds sig q) \/ embeds (it :: sig) q.
Proof.
  intros (q' & Hs & Hf). apply Forall2_cons_inv_l in Hf as (e' & q'' & Hh & Hf & ->).
  inversion Hs; subst.
  - left. split; [done|]. by exists q''.
  - right. exists (e' :: q''). by repeat constructor.
Qed.

Lemma embeds_tail it sig q : embeds (it :: sig) q -> embeds sig q.
Proof.
  intros (q' & Hs & Hf). apply Forall2_cons_inv_l in Hf as (e & q'' & _ & Hf & ->).
  exists q''. split; [|done]. etrans; [|exact Hs]. by apply sublist_cons.
Qed.

Lemma greedy_best sig q k :
  (k <= length sig)%nat -> embeds (take k sig) q <-> (k <= greedy sig q)%nat.
Proof.
  revert sig k. induction q as [|e q IH]; intros sig k Hk.
  - simpl. split.
    + intros (q' & Hs & Hf). apply sublist_nil_r in Hs as ->. apply Forall2_nil_inv_r in Hf.
      apply (f_equal length) in Hf. rewrite length_take in Hf. simpl in Hf. lia.
    + intros. replace k with 0%nat by lia. apply embeds_nil.
  - destruct sig as [|it sig]; [simpl in *; replace k with 0%nat by lia; split; [lia|intros _; apply embeds_nil]|].
    destruct k as [|k]; [split; [lia|intros _; apply embeds_nil]|]. simpl in Hk. cbn [take greedy].
    assert (embeds (take k sig) q <-> (k <= greedy sig q)%nat) as IH1 by (apply IH; lia).
    assert (embeds (it :: take k sig) q <-> (Datatypes.S k <= greedy (it :: sig) q)%nat) as IH2
      by (apply (IH (it :: sig) (Datatypes.S k)); simpl; lia).
    destruct (hits it e) eqn:Hh.
    + split.
      * intros [[_ H]|H]%embeds_cons_inv; [|apply embeds_tail in H]; apply IH1 in H; lia.
      * intros H. apply embeds_hit; [done|]. apply IH1. lia.
    + split.
      * intros [[H _]|H]%embeds_cons_inv; [congruence|]. by apply IH2.
      * intros H. by apply embeds_skip, IH2.
Qed.

(** ** The loop is the greedy walk *)

Lemma not_at_last cur (ret : list range) : zlen ret <= cur -> cur < 2 ^ 64 - 1 -> at_last cur ret = false.
Proof.
  intros Hr Hc. pose proof (zlen_nonneg ret). unfold at_last. apply Z.eqb_neq.
  destruct (Z.eq_dec (zlen ret) 0) as [E|E]; [rewrite E; by intros ->|].
  rewrite u64_small by lia. lia.
Qed.

Lemma at_last_full cur (ret : list range) : zlen ret = cur + 1 -> 0 <= cur < 2 ^ 64 -> at_last cur ret = true.
Proof. intros Hr Hc. unfold at_last. rewrite u64_small by lia. apply Z.eqb_eq. lia. Qed.

Lemma record_hit_fresh cur r ret p :
  at_last cur ret = false -> record_hit cur r (mkMstate ret p) = Ret tt (mkMstate (ret ++ [r]) (u32 (p + 1))).
Proof. intros E. unfold record_hit. rewrite bind_gets. cbn [ranges_]. by rewrite E. Qed.

Lemma record_miss_ret cur ret p :
  record_miss cur (mkMstate ret p) =
  Ret tt (mkMstate (if at_last cur ret then ret else ret ++ [NULLRANGE]) p).
Proof. unfold record_miss. rewrite bind_gets. cbn [ranges_]. by destruct (at_last cur ret). Qed.

(** One entry, where nothing has been recorded for it yet. *)
Lemma match_one_fresh it cur e ret p :
  zlen ret <= cur -> cur < 2 ^ 64 - 1 -> 0 <= p < 2 ^ 32 - 1 ->
  match_one (fst it) (snd it) cur e (mkMstate ret p) =
  Ret tt (if hits it e then mkMstate (ret ++ [match_entry (snd it) (e_data e)]) (p + 1)
          else mkMstate (if entry_size e =? 0 then ret else ret ++ [NULLRANGE]) p).
Proof.
  intros Hr Hc Hp. unfold match_one, hits. destruct (entry_size e =? 0); [done|].
  pose proof (not_at_last cur ret Hr Hc) as Hn. cbn [andb negb].
  destruct (decide (source_ e = fst it)) as [Hs|Hs].
  - rewrite (bool_decide_eq_true_2 _ Hs). cbn [andb].
    destruct (bool_decide (match_entry _ _ <> NULLRANGE)).
    + by rewrite record_hit_fresh, u32_small by (done || lia).
    + by rewrite record_miss_ret, Hn.
  - by rewrite (bool_decide_eq_false_2 _ Hs), record_miss_ret, Hn.
Qed.

Lemma match_loop_fresh sig n q cur ret :
  zlen ret <= cur -> 0 <= cur -> cur + zlen q < 2 ^ 64 - 1 -> zlen sig < 2 ^ 32 -> (n <= length sig)%nat ->
  match_loop sig q cur (mkMstate ret (Z.of_nat n)) =
  Ret tt (mkMstate (ret ++ results (drop n sig) q) (Z.of_nat (n + greedy (drop n sig) q))).
Proof.
  intros Hr H0 Hc Hs. revert n cur ret Hr H0 Hc.
  induction q as [|e q IH]; intros n cur ret Hr H0 Hc Hn; cbn [match_loop].
  { cbn. by rewrite app_nil_r, Nat.add_0_r. }
  rewrite zlen_cons in Hc. pose proof (zlen_nonneg q).
  rewrite bind_gets. cbn [sig_pos_]. rewrite Nat2Z.id.
  destruct (sig !! n) as [it|] eqn:Hit.
  2: { apply lookup_ge_None in Hit. rewrite drop_ge by done.
       by rewrite results_nil, greedy_nil, app_nil_r, Nat.add_0_r. }
  apply lookup_lt_Some in Hit as Hlt. rewrite zlen_length in Hs. destruct it as [src m].
  rewrite (bind_ret _ _ _ _ _ (match_one_fresh (src, m) cur e ret (Z.of_nat n) Hr ltac:(lia) ltac:(lia))).
  rewrite (drop_S _ _ _ Hit). cbn [results greedy]. destruct (hits (src, m) e) eqn:Hh.
  - replace (Z.of_nat n + 1) with (Z.of_nat (Datatypes.S n)) by lia.
    rewrite IH by (rewrite ?zlen_app, ?zlen_cons, ?zlen_nil; lia).
    rewrite <- app_assoc. cbn [app fst snd]. do 2 f_equal. lia.
  - destruct (entry_size e =? 0).
    + rewrite IH by lia. by rewrite (drop_S _ _ _ Hit).
    + rewrite IH by (rewrite ?zlen_app, ?zlen_cons, ?zlen_nil; lia).
      by rewrite (drop_S _ _ _ Hit), <- app_assoc.
Qed.

Definition sized (g : flowMatch S) (f : Flow S) : Prop :=
  zlen (signature_ g) < 2 ^ 32 /\ zlen (flow_queue f) < 2 ^ 32.

(** What [match] answers at the end of the loop. *)
Definition complete sig (n : nat) : bool := (0 <? Z.of_nat n) && (zlen sig <=? Z.of_nat n).

Lemma flow_match_fresh g f :
  sized g f ->
  flow_match g f mstate0 =
  Ret (complete (signature_ g) (greedy (signature_ g) (flow_queue f)))
      (mkMstate (results (signature_ g) (flow_queue f)) (Z.of_nat (greedy (signature_ g) (flow_queue f)))).
Proof.
  intros [Hs Hq]. unfold flow_match, mstate0. rewrite bind_gets. cbn [ranges_ zdrop].
  change (zdrop 0 (flow_queue f)) with (flow_queue f).
  rewrite (bind_ret _ _ _ _ _ (match_loop_fresh (signature_ g) 0 (flow_queue f) 0 []
    ltac:(done) ltac:(lia) ltac:(lia) Hs ltac:(lia))).
  by rewrite drop_0.
Qed.

(** What a signature matches.  Matching a flow from a new state is always
    defined; it answers yes exactly when the chain is not empty and embeds into the flow:
    there are entries, in order and no two alike, of the right sides, in whose limited view
    each match is found.  The position it leaves is the longest prefix of the chain that
    embeds, so no other choice of entries would have done better than the greedy one. *)
Theorem fresh_match_is_embedding g f :
  sized g f ->
  exists b rs n, flow_match g f mstate0 = Ret b (mkMstate rs (Z.of_nat n)) /\
    (b = true <-> signature_ g <> [] /\ embeds (signature_ g) (flow_queue f)) /\
    (forall k, (k <= length (signature_ g))%nat ->
       embeds (take k (signature_ g)) (flow_queue f) <-> (k <= n)%nat) /\
    (length rs <= length (flow_queue f))%nat.
Proof.
  intros Hs. rewrite flow_match_fresh by done. set (sig := signature_ g). set (q := flow_queue f).
  eexists _, _, _. split; [reflexivity|]. split; [|split; [intros k; apply greedy_best|apply results_length_le]].
  pose proof (greedy_le sig q). pose proof (greedy_best sig q (length sig) ltac:(lia)) as Hb.
  rewrite take_ge in Hb by lia. unfold complete. rewrite zlen_length, andb_true_iff, Z.ltb_lt, Z.leb_le, Hb.
  destruct sig; simpl in *; [split; [lia|by intros [? _]]|]. split; [intros; split; [done|lia]|lia].
Qed.

(** ** Matching piecemeal *)

(** An entry that has a miss recorded for it already. *)
Lemma match_one_again it cur e R p :
  zlen R = cur -> cur < 2 ^ 64 - 1 -> 0 <= p < 2 ^ 32 - 1 -> entry_size e <> 0 ->
  match_one (fst it) (snd it) cur e (mkMstate (R ++ [NULLRANGE]) p) =
  if hits it e then
    match erase_end (R ++ [NULLRANGE]) with
    | Some ret => Ret tt (mkMstate (ret ++ [match_entry (snd it) (e_data e)]) (p + 1))
    | None => Undef
    end
  else Ret tt (mkMstate (R ++ [NULLRANGE]) p).
Proof.
  intros Hr Hc Hp He. pose proof (zlen_nonneg R).
  assert (at_last cur (R ++ [NULLRANGE]) = true) as Hl
    by (apply at_last_full; rewrite ?zlen_app, ?zlen_cons, ?zlen_nil; lia).
  unfold match_one, hits. rewrite (proj2 (Z.eqb_neq _ 0)) by done. cbn [andb negb].
  destruct (decide (source_ e = fst it)) as [Hs|Hs].
  - rewrite (bool_decide_eq_true_2 _ Hs). cbn [andb].
    destruct (bool_decide (match_entry _ _ <> NULLRANGE)); [|by rewrite record_miss_ret, Hl].
    unfold record_hit. rewrite bind_gets. cbn [ranges_]. rewrite Hl.
    destruct (erase_end _) as [ret|]; [|done]. unfold push_range, modify, mbind_. cbn. by rewrite u32_small by lia.
  - by rewrite (bool_decide_eq_false_2 _ Hs), record_miss_ret, Hl.
Qed.

(** What a run that ends in a miss on the last entry leaves behind. *)
Lemma missed_last g f q0 e b st it :
  sized g f -> flow_queue f = q0 ++ [e] -> Forall (fun e => entry_size e <> 0) (flow_queue f) ->
  flow_match g f mstate0 = Ret b st ->
  signature_ g !! Z.to_nat (sig_pos_ st) = Some it -> last (ranges_ st) = Some NULLRANGE ->
  st = mkMstate (results (signature_ g) q0 ++ [NULLRANGE]) (Z.of_nat (greedy (signature_ g) q0)) /\
  signature_ g !! greedy (signature_ g) q0 = Some it /\
  length (results (signature_ g) q0) = length q0.
Proof.
  intros Hsz Hq Hne. rewrite flow_match_fresh by done. intros [= _ <-]. cbn [sig_pos_ ranges_]. rewrite Nat2Z.id, Hq.
  rewrite Hq in Hne. apply Forall_app in Hne as [Hne He]. apply Forall_inv in He.
  set (sig := signature_ g). rewrite greedy_app, results_app. intros Hit Hlast.
  apply lookup_lt_Some in Hit as Hlt. destruct (lookup_lt_is_Some_2 sig (greedy sig q0)) as [it0 Hit0]; [lia|].
  rewrite (drop_S _ _ _ Hit0) in *. cbn [greedy results] in *. rewrite (proj2 (Z.eqb_neq _ 0)) in * by done.
  destruct (hits it0 e) eqn:Hh.
  - rewrite last_snoc in Hlast.
    unfold hits in Hh. apply andb_true_iff in Hh as [_ Hh]. apply bool_decide_eq_true in Hh. congruence.
  - rewrite Nat.add_0_r in *. split; [done|]. split; [done|]. apply results_length; [done|lia].
Qed.

Lemma resumed_loop g f st R e' q2 :
  st = mkMstate (R ++ [NULLRANGE]) (sig_pos_ st) -> zdrop (zlen R) (flow_queue f) = e' :: q2 ->
  flow_match g f st =
  (match_loop (signature_ g) (e' :: q2) (zlen R) ;;; p <- gets sig_pos_ ;;
   mret_ ((0 <? p) && (zlen (signature_ g) <=? p))) st.
Proof.
  intros -> Hd. unfold flow_match. rewrite bind_gets. cbn [ranges_].
  assert (match R ++ [NULLRANGE] with [] => 0 | _ => zlen (R ++ [NULLRANGE]) - 1 end = zlen R) as ->.
  { destruct (R ++ [NULLRANGE]) eqn:E; [by destruct R|]. rewrite <- E, zlen_app, zlen_cons, zlen_nil. lia. }
  by rewrite Hd.
Qed.

Lemma match_loop_rest sig n q R r :
  zlen R + zlen q < 2 ^ 32 -> zlen sig < 2 ^ 32 -> (n <= length sig)%nat ->
  match_loop sig q (zlen R + 1) (mkMstate (R ++ [r]) (Z.of_nat n)) =
  Ret tt (mkMstate (R ++ r :: results (drop n sig) q) (Z.of_nat (n + greedy (drop n sig) q))).
Proof.
  intros Hq Hs Hn. pose proof (zlen_nonneg R). rewrite match_loop_fresh; try done; try lia.
  - by rewrite <- app_assoc.
  - rewrite zlen_app, zlen_cons, zlen_nil. lia.
Qed.

(** Matching piecemeal is matching at once.  A first run ended in a miss on the
    last entry, with the chain unfinished; then the last entry grew or not, and
    other entries followed.  The second run, from the state the first one left, gives
    the very answer and state of a single run over the whole flow - provided that erasing
    the end iterator drops the recorded miss, should the grown entry match. *)
Theorem resume_after_miss g f f' q0 e e' q2 b st it :
  sized g f -> sized g f' -> flow_queue f = q0 ++ [e] -> flow_queue f' = q0 ++ e' :: q2 ->
  Forall (fun e => entry_size e <> 0) (flow_queue f) -> entry_size e' <> 0 ->
  flow_match g f mstate0 = Ret b st ->
  signature_ g !! Z.to_nat (sig_pos_ st) = Some it -> last (ranges_ st) = Some NULLRANGE ->
  (hits it e' = true -> erase_end (ranges_ st) = Some (removelast (ranges_ st))) ->
  flow_match g f' st = flow_match g f' mstate0.
Proof.
  intros Hf Hf' Hq Hq' Hne He' Hrun Hit Hlast Her.
  destruct (missed_last g f q0 e b st it Hf Hq Hne Hrun Hit Hlast) as (-> & Hit0 & Hlen).
  cbn [sig_pos_ ranges_] in *. rewrite flow_match_fresh by done. destruct Hf' as [Hs Hn]. rewrite Hq' in *.
  set (sig := signature_ g) in *. set (R := results sig q0) in *. set (n := greedy sig q0) in *.
  pose proof (zlen_nonneg R). apply lookup_lt_Some in Hit0 as Hlt.
  assert (zlen R = zlen q0) as HR by (rewrite !zlen_length; lia).
  rewrite zlen_app, zlen_cons in Hn. pose proof (zlen_nonneg q2).
  assert (zlen R + zlen q2 < 2 ^ 32) as Hn2 by lia. assert (Z.of_nat n < 2 ^ 32 - 1) as Hp by (rewrite zlen_length in Hs; lia).
  rewrite (resumed_loop g f' _ R e' q2); [|done|rewrite Hq', HR; by apply zdrop_app_exact].
  fold sig. cbn [match_loop]. rewrite bind_assoc, bind_gets. cbn [sig_pos_]. rewrite Nat2Z.id, Hit0.
  destruct it as [src m]. rewrite bind_assoc.
  pose proof (match_one_again (src, m) (zlen R) e' R (Z.of_nat n) eq_refl ltac:(lia) (conj (Nat2Z.is_nonneg n) Hp) He') as Hone.
  rewrite greedy_app, results_app. fold n R. rewrite (drop_S _ _ _ Hit0). cbn [greedy results fst snd] in *.
  rewrite (proj2 (Z.eqb_neq _ 0)) by done. destruct (hits (src, m) e').
  - rewrite Her, removelast_last in Hone by done. rewrite (bind_ret _ _ _ _ _ Hone).
    replace (Z.of_nat n + 1) with (Z.of_nat (Datatypes.S n)) by lia.
    rewrite (bind_ret _ _ _ _ _ (match_loop_rest sig (Datatypes.S n) q2 R _ Hn2 Hs Hlt)).
    rewrite bind_gets. cbn [sig_pos_]. unfold complete, mret_.
    by rewrite Nat.add_succ_r.
  - rewrite (bind_ret _ _ _ _ _ Hone).
    rewrite (bind_ret _ _ _ _ _ (match_loop_rest sig n q2 R _ Hn2 Hs ltac:(lia))).
    by rewrite bind_gets, (drop_S _ _ _ Hit0).
Qed.

(** When data arrive in pieces, matching erases at the end iterator: if the last
    entry did not match on the first run and does once it has grown, the second run calls
    [erase(end())], and where that is undefined, as in the standard, so is the run. *)
Theorem grown_entry_erases_end g f f' q0 e e' q2 b st it :
  sized g f -> sized g f' -> flow_queue f = q0 ++ [e] -> flow_queue f' = q0 ++ e' :: q2 ->
  Forall (fun e => entry_size e <> 0) (flow_queue f) -> entry_size e' <> 0 ->
  flow_match g f mstate0 = Ret b st ->
  signature_ g !! Z.to_nat (sig_pos_ st) = Some it -> last (ranges_ st) = Some NULLRANGE ->
  hits it e' = true -> erase_end (ranges_ st) = None ->
  flow_match g f' st = Undef.
Proof.
  intros Hf Hf' Hq Hq' Hne He' Hrun Hit Hlast Hh Her.
  destruct (missed_last g f q0 e b st it Hf Hq Hne Hrun Hit Hlast) as (-> & Hit0 & Hlen).
  cbn [sig_pos_ ranges_] in *. destruct Hf' as [Hs Hn]. rewrite Hq' in *.
  set (sig := signature_ g) in *. set (R := results sig q0) in *. set (n := greedy sig q0) in *.
  pose proof (zlen_nonneg R). apply lookup_lt_Some in Hit0 as Hlt.
  assert (zlen R = zlen q0) as HR by (rewrite !zlen_length; lia).
  rewrite zlen_app, zlen_cons in Hn. pose proof (zlen_nonneg q2). rewrite zlen_length in Hs.
  rewrite (resumed_loop g f' _ R e' q2); [|done|rewrite Hq', HR; by apply zdrop_app_exact].
  fold sig. cbn [match_loop]. rewrite bind_assoc, bind_gets. cbn [sig_pos_]. rewrite Nat2Z.id, Hit0.
  destruct it as [src m]. rewrite bind_assoc.
  pose proof (match_one_again (src, m) (zlen R) e' R (Z.of_nat n) eq_refl ltac:(lia) ltac:(lia) He') as Hone.
  rewrite Hh, Her in Hone. unfold mbind_ at 1. cbn [fst snd] in Hone. by rewrite Hone.
Qed.
End chain.

(** ** Groups *)

Section tree.
Context {EE : EraseEnd}.

(** The allocated groups are those up to the last index, and every name is of one. *)
Definition tree_wf (t : SignatureTree) : Prop :=
  zlen (filter_ t) = max_groups /\ zlen (sensors_ t) = max_groups /\
  -1 <= last_alloc_index t < max_groups /\
  (forall i, 0 <= i -> is_Some (sensor_at i t) <-> i <= last_alloc_index t) /\
  map_Forall (fun _ i => 0 <= i <= last_alloc_index t) (name_index t).

Lemma sensor_at_insert i j o t f ix l :
  0 <= i -> 0 <= j < zlen (sensors_ t) ->
  sensor_at i (mkTree f (<[Z.to_nat j := o]> (sensors_ t)) ix l) = if i =? j then o else sensor_at i t.
Proof.
  intros Hi Hj. rewrite zlen_length in Hj. unfold sensor_at. cbn [sensors_].
  destruct (Z.eqb_spec i j) as [->|Hne].
  - by rewrite list_lookup_insert_eq by lia.
  - by rewrite list_lookup_insert_ne by lia.
Qed.

Lemma zlen_insert {A} (n : nat) (x : A) l : zlen (<[n := x]> l) = zlen l.
Proof. by rewrite !zlen_length, length_insert. Qed.

Lemma sensor_some_range t i : tree_wf t -> 0 <= i -> i <= last_alloc_index t -> exists s, sensor_at i t = Some s.
Proof. intros (_ & _ & _ & Ha & _) H0 Hi. by apply Ha. Qed.

(** Allocating a group: the next index, empty, with its filter bit. *)
Lemma alloc_group_ret allowed t :
  tree_wf t -> last_alloc_index t + 1 < max_groups ->
  exists t', alloc_group allowed t = Ret (last_alloc_index t + 1) t' /\ tree_wf t' /\
    name_index t' = name_index t /\ last_alloc_index t' = last_alloc_index t + 1 /\
    filter_ t' = <[Z.to_nat (last_alloc_index t + 1) := allowed]> (filter_ t) /\
    (forall j, 0 <= j -> sensor_at j t' = if j =? last_alloc_index t + 1 then Some [] else sensor_at j t).
Proof.
  intros (Hf & Hs & Hl & Ha & Hn) Hr. unfold alloc_group. rewrite (proj2 (Z.ltb_lt _ _)) by done.
  eexists. split; [reflexivity|].
  assert (forall j f ix l, 0 <= j -> sensor_at j (mkTree f
    (<[Z.to_nat (last_alloc_index t + 1) := Some []]> (sensors_ t)) ix l) =
    if j =? last_alloc_index t + 1 then Some [] else sensor_at j t) as Hat
    by (intros; apply sensor_at_insert; lia).
  split; [|split; [done|split; [done|split; [done|intros; by apply Hat]]]].
  unfold tree_wf. cbn [filter_ sensors_ last_alloc_index name_index]. rewrite !zlen_insert.
  split; [done|]. split; [done|]. split; [lia|]. split.
  - intros i Hi. rewrite Hat by done. destruct (Z.eqb_spec i (last_alloc_index t + 1)) as [->|].
    + split; [lia|by eexists].
    + rewrite Ha by done. lia.
  - intros k i Hk. apply Hn in Hk. lia.
Qed.

Lemma upd_sensor_ret i f s t :
  tree_wf t -> 0 <= i -> sensor_at i t = Some s ->
  exists t', upd_sensor i f t = Ret tt t' /\ tree_wf t' /\ name_index t' = name_index t /\
    filter_ t' = filter_ t /\ last_alloc_index t' = last_alloc_index t /\
    (forall j, 0 <= j -> sensor_at j t' = if j =? i then Some (f s) else sensor_at j t).
Proof.
  intros (Hf & Hs & Hl & Ha & Hn) Hi Hat. unfold upd_sensor. rewrite Hat. eexists. split; [reflexivity|].
  assert (i <= last_alloc_index t) as Hle by (apply Ha; [done|]; by rewrite Hat).
  assert (forall j ft ix l, 0 <= j -> sensor_at j (mkTree ft (<[Z.to_nat i := Some (f s)]> (sensors_ t)) ix l) =
    if j =? i then Some (f s) else sensor_at j t) as Hat' by (intros; apply sensor_at_insert; lia).
  split; [|split; [done|split; [done|split; [done|intros; by apply Hat']]]].
  unfold tree_wf. cbn [filter_ sensors_ last_alloc_index name_index]. rewrite !zlen_insert.
  split; [done|]. split; [done|]. split; [lia|]. split; [|exact Hn].
  intros j Hj. rewrite Hat' by done. destruct (Z.eqb_spec j i) as [->|].
  - split; [done|by eexists].
  - by apply Ha.
Qed.

(** Adding a signature to a group by name, with room for one more group: it answers
    whether the group had to be created; the group then holds what it held before and,
    last, the signature with a fresh match state; a created group is empty before that, has
    the requested filter bit, and no older group, name or bit changes; the allocated groups
    remain exactly the first ones. *)
Theorem signature_add_appends sig name allowed t :
  tree_wf t -> last_alloc_index t + 1 < max_groups ->
  exists t' i, signature_add sig name allowed t = Ret (bool_decide (group_index name t = None)) t' /\
    tree_wf t' /\ group_index name t' = Some i /\ i = default (last_alloc_index t + 1) (group_index name t) /\
    sensor_at i t' = Some (default [] (match group_index name t with Some i => sensor_at i t | None => None end) ++
                           [(fms_new, sig)]) /\
    (forall j, 0 <= j -> j <> i -> sensor_at j t' = sensor_at j t) /\
    (forall name', name' <> name -> group_index name' t' = group_index name' t) /\
    filter_ t' = (if group_index name t is Some _ then filter_ t
                  else <[Z.to_nat (last_alloc_index t + 1) := allowed]> (filter_ t)).
Proof.
  intros Hwf Hr. unfold signature_add. rewrite bind_gets. destruct (group_index name t) as [i|] eqn:Hi.
  - assert (0 <= i <= last_alloc_index t) as Hin by (destruct Hwf as (_ & _ & _ & _ & Hn); exact (Hn name i Hi)).
    destruct (sensor_some_range t i) as [s Hs]; [done|lia|lia|].
    destruct (upd_sensor_ret i (fun s => s ++ [(fms_new, sig)]) s t) as (t' & E & Hw & En & Ef & El & Hat);
      [done|lia|done|].
    rewrite (bind_ret _ _ _ _ _ E). exists t', i. split; [done|]. split; [done|].
    unfold group_index in *. rewrite En, Hi, Hat, Z.eqb_refl, Hs by lia. repeat split; try done.
    intros j Hj Hne. rewrite Hat by done. by rewrite (proj2 (Z.eqb_neq _ _)).
  - unfold group_add_named. destruct (alloc_group_ret allowed t Hwf Hr) as (t1 & E & Hw & En & El & Ef & Hat).
    rewrite !bind_assoc, (bind_ret _ _ _ _ _ E), bind_assoc, bind_modify, bind_pure.
    set (i := last_alloc_index t + 1) in *.
    set (t2 := mkTree (filter_ t1) (sensors_ t1) (<[name := i]> (name_index t1)) (last_alloc_index t1)).
    assert (tree_wf t2) as Hw2.
    { destruct Hw as (A1 & A2 & A3 & A4 & A5). split; [done|]. split; [done|]. split; [done|]. split; [done|].
      apply map_Forall_insert_2; [|done]. change (last_alloc_index t2) with (last_alloc_index t1). rewrite El.
      destruct Hwf as (_ & _ & Hl & _). unfold i. cbn beta. lia. }
    destruct Hwf as (_ & _ & Hl & _).
    assert (sensor_at i t2 = Some []) as H2 by (etransitivity; [apply (Hat i); unfold i; lia|by rewrite Z.eqb_refl]).
    destruct (upd_sensor_ret i (fun s => s ++ [(fms_new, sig)]) [] t2) as (t' & E' & Hw' & En' & Ef' & El' & Hat');
      [done|unfold i; lia|done|].
    rewrite (bind_ret _ _ _ _ _ E'). exists t', i. split; [done|]. split; [done|].
    unfold group_index in *. rewrite En'. cbn [name_index t2]. rewrite lookup_insert_eq, Hat', Z.eqb_refl by (unfold i; lia).
    repeat split.
    + intros j Hj Hne. rewrite Hat' by done. rewrite (proj2 (Z.eqb_neq _ _)) by done.
      etransitivity; [apply (Hat j Hj)|]. by rewrite (proj2 (Z.eqb_neq _ _)).
    + intros name' Hne. rewrite lookup_insert_ne by done. by rewrite En.
    + by rewrite Ef'.
Qed.
End tree.

(** ** The theorems on a concrete flow

    Two readings of [erase(end())]: undefined, and dropping the last element, which is
    what libstdc++ comes to. *)
Definition strict_erase : EraseEnd := fun _ => None.
Definition dropping_erase : EraseEnd := fun l => Some (removelast l).

(** The chain: [HI] from side 1, then [O] from side 2. *)
Definition demo_chain : duplexFlowMatch :=
  mkFlowMatch "demo" [(1, mkMatch [72; 73] 0 0 Plain); (2, mkMatch [79] 0 0 Plain)].
Definition demo_flow (l : list (Z * bytes)) : duplexFlow :=
  mkFlow ((fun sd => entry_new (fst sd) (snd sd)) <$> l) SOCK_STREAM 0.

Lemma fresh_match_is_embedding_witness :
  exists rs n, flow_match (EE := strict_erase) demo_chain
      (demo_flow [(1, [33; 72; 73]); (1, [72]); (2, [79; 75])]) mstate0 =
    Ret true (mkMstate rs (Z.of_nat n)) /\ (2 <= n)%nat.
Proof.
  destruct (fresh_match_is_embedding (EE := strict_erase) demo_chain
    (demo_flow [(1, [33; 72; 73]); (1, [72]); (2, [79; 75])])) as (b & rs & n & E & Hb & Hn & _);
    [split; by vm_compute|].
  assert (embeds (signature_ demo_chain) (flow_queue (demo_flow [(1, [33; 72; 73]); (1, [72]); (2, [79; 75])]))) as Hemb.
  { exists [entry_new 1 [33; 72; 73]; entry_new 2 [79; 75]]. split.
    - apply sublist_skip, sublist_cons, sublist_skip, sublist_nil.
    - by repeat constructor. }
  exists rs, n. rewrite E. split; [|apply (Hn 2%nat); [simpl; lia|exact Hemb]].
  rewrite (proj2 Hb); [done|]. split; [discriminate|exact Hemb].
Defined.

Lemma resume_after_miss_witness :
  let f := demo_flow [(1, [72])] in
  let f' := demo_flow [(1, [72; 73]); (2, [79])] in
  let run := flow_match (EE := dropping_erase) demo_chain in
  exists b st, run f mstate0 = Ret b st /\ run f' st = run f' mstate0.
Proof.
  intros f f' run. exists false, (mkMstate [NULLRANGE] 0). split; [by vm_compute|].
  apply (resume_after_miss (EE := dropping_erase) demo_chain f f' [] (entry_new 1 [72]) (entry_new 1 [72; 73])
           [entry_new 2 [79]] false (mkMstate [NULLRANGE] 0) (1, mkMatch [72; 73] 0 0 Plain));
    [by split; vm_compute|by split; vm_compute|reflexivity|reflexivity|by repeat constructor|done|by vm_compute|reflexivity|
     reflexivity|done].
Defined.

Lemma grown_entry_erases_end_witness :
  let f := demo_flow [(1, [72])] in
  let f' := demo_flow [(1, [72; 73]); (2, [79])] in
  let run := flow_match (EE := strict_erase) demo_chain in
  exists b st, run f mstate0 = Ret b st /\ run f' st = Undef.
Proof.
  intros f f' run. exists false, (mkMstate [NULLRANGE] 0). split; [by vm_compute|].
  apply (grown_entry_erases_end (EE := strict_erase) demo_chain f f' [] (entry_new 1 [72]) (entry_new 1 [72; 73])
           [entry_new 2 [79]] false (mkMstate [NULLRANGE] 0) (1, mkMatch [72; 73] 0 0 Plain));
    [by split; vm_compute|by split; vm_compute|reflexivity|reflexivity|by repeat constructor|done|by vm_compute|reflexivity|
     reflexivity|by vm_compute|done].
Defined.

Lemma signature_add_appends_witness :
  let t := match tree_new 2 with Ret _ t => t | _ => tree0 end in
  exists t', signature_add (Some demo_chain) "http" true t = Ret true t' /\ tree_wf t' /\
    group_index "http" t' = Some 2 /\ sensor_at 2 t' = Some [(fms_new, Some demo_chain)].
Proof.
  intros t. assert (tree_wf t) as Hwf.
  { split; [by vm_compute|]. split; [by vm_compute|]. split; [by vm_compute|]. split.
    - intros i Hi. change (last_alloc_index t) with 1.
      destruct (Z.eq_dec i 0) as [->|]; [split; [lia|exists []; by vm_compute]|].
      destruct (Z.eq_dec i 1) as [->|]; [split; [lia|exists []; by vm_compute]|].
      split; [|lia]. unfold sensor_at.
      change (sensors_ t) with (Some [] :: Some [] :: replicate 126 (None : option sensorType)).
      replace (Z.to_nat i) with (Datatypes.S (Datatypes.S (Z.to_nat (i - 2)))) by lia. cbn [lookup list_lookup].
      intros [s Hs]. destruct (replicate 126 None !! _) eqn:E; [|done]. apply lookup_replicate in E as [-> _]. done.
    - intros k i. change (name_index t) with (∅ : gmap string Z). by rewrite lookup_empty. }
  destruct (signature_add_appends (Some demo_chain) "http" true t Hwf) as (t' & i & E & Hw & Hi & Hi' & Hs & _);
    [by vm_compute|].
  exists t'. change (group_index "http" t) with (None : option Z) in *.
  change (last_alloc_index t) with 1 in Hi'. cbn in Hi'. subst i. by split; [|split; [|split]].
Defined.

(** ** Replacing and filling *)

Section fill_props.
Context (search : bytes -> option (Z * Z)) (replace : bytes -> bytes).

(** How the expression cuts a text: before and at each match, and what is left. *)
Inductive cut : bytes -> list (bytes * bytes) -> bytes -> Prop :=
  | cut_end s : search s = None -> cut s [] s
  | cut_match pre m rest l post :
      m <> [] -> search (pre ++ m ++ rest) = Some (zlen pre, zlen m) -> cut rest l post ->
      cut (pre ++ m ++ rest) ((pre, m) :: l) post.

Definition head_of (l : list (bytes * bytes)) : bytes := l ≫= fun '(pre, m) => pre ++ m.
Definition replaced (l : list (bytes * bytes)) : bytes := l ≫= fun '(pre, m) => pre ++ replace m.

Lemma cut_text s l post : cut s l post -> s = head_of l ++ post.
Proof. induction 1 as [s|pre m rest l post _ _ _ IH]; [done|]. cbn. by rewrite IH, <- !app_assoc. Qed.

Lemma zdrop_past (pre m rest : bytes) : zdrop (zlen pre + zlen m) (pre ++ m ++ rest) = rest.
Proof. rewrite app_assoc, <- zlen_app. unfold zdrop. rewrite zlen_length, Nat2Z.id. apply drop_app_length. Qed.
Lemma zdrop_pre (pre m rest : bytes) : ztake (zlen m) (zdrop (zlen pre) (pre ++ m ++ rest)) = m.
Proof. unfold ztake, zdrop. rewrite !zlen_length, !Nat2Z.id, drop_app_length. apply take_app_length. Qed.
Lemma ztake_pre (pre m rest : bytes) : ztake (zlen pre) (pre ++ m ++ rest) = pre.
Proof. unfold ztake. rewrite zlen_length, Nat2Z.id. apply take_app_length. Qed.

Lemma count_cut s l post fuel : cut s l post -> (length l < fuel)%nat -> match_count search fuel s = Some (zlen l).
Proof.
  intros Hc. revert fuel. induction Hc as [s Hs|pre m rest l post _ Hs _ IH]; intros [|fuel] Hf; try (cbn in Hf; lia); cbn [match_count].
  - by rewrite Hs.
  - rewrite Hs, zdrop_past, IH by (cbn in Hf; lia). cbn. by rewrite zlen_cons.
Qed.

(** The text with its matches replaced is followed by a filler as long as everything up to the
    last match was, in whole patterns, and by the rest: what was written already is not
    counted. So the result is longer than the text it should be as long as, by all that is
    left of the matches and before them. *)
Theorem fill_counts_too_much fuel sample fill_pattern l post :
  cut sample l post -> l <> [] -> replace sample = replaced l ++ post -> zlen (replace sample) <> zlen sample ->
  fill_pattern <> [] -> (length l < fuel)%nat ->
  exists k, regex_replace_fill search replace fuel sample fill_pattern =
      Some (replaced l ++ concat (replicate k fill_pattern) ++ post) /\
    zlen (head_of l) <= Z.of_nat k * zlen fill_pattern < zlen (head_of l) + zlen fill_pattern.
Proof.
  intros Hc Hl Hr Hne Hfp Hf. pose proof (zlen_nonneg fill_pattern). pose proof (cut_text _ _ _ Hc) as Ht.
  assert (0 < zlen fill_pattern) as Hpos by (destruct fill_pattern; [done|rewrite zlen_cons; pose proof (zlen_nonneg fill_pattern); lia]).
  assert (0 < zlen (head_of l)) as Hhd.
  { destruct Hc as [|pre m rest l post Hm]; [done|]. cbn. rewrite !zlen_app. destruct m as [|x m]; [done|].
    rewrite zlen_cons. pose proof (zlen_nonneg m). pose proof (zlen_nonneg pre). pose proof (zlen_nonneg (head_of l)). unfold head_of in *. lia. }
  set (k := Z.to_nat ((zlen (head_of l) + zlen fill_pattern - 1) / zlen fill_pattern)). exists k.
  assert (Z.of_nat k = (zlen (head_of l) + zlen fill_pattern - 1) / zlen fill_pattern) as Ek
    by (unfold k; rewrite Z2Nat.id; [done|apply Z.div_pos; lia]).
  split.
  - unfold regex_replace_fill. rewrite (proj2 (Z.eqb_neq _ _)) by congruence. rewrite (count_cut _ _ _ _ Hc Hf). cbn [mbind option_bind].
    assert (fill fill_pattern (zlen sample - zlen post) = Some (concat (replicate k fill_pattern))) as Hfill.
    { unfold fill. replace (zlen sample - zlen post) with (zlen (head_of l)) by (rewrite Ht, zlen_app; lia).
      rewrite (proj2 (Z.leb_gt _ _)), (proj2 (Z.eqb_neq _ _)) by lia. done. }
    assert (0 < zlen sample) as Hs by (rewrite Ht, zlen_app; pose proof (zlen_nonneg post); lia).
    clear Ht Hr Hne Hhd Ek. clearbody k. revert fuel Hf.
    enough (forall s l0 acc fuel, cut s l0 post -> l0 <> [] -> (length l0 < fuel)%nat ->
              replace_loop search replace fuel sample fill_pattern s acc (zlen l0) =
                Some (acc ++ replaced l0 ++ concat (replicate k fill_pattern) ++ post)) as Hloop
      by (intros fuel Hf; by apply (Hloop sample l [])).
    clear l Hl Hc. intros s l0 acc fuel Hc. revert acc fuel.
    remember post as post' eqn:Ep in Hc. induction Hc as [s Hsn|pre m rest l post0 _ Hm Hc IH]; intros acc [|fuel] Hne Hf; try done; [cbn in Hf; lia|].
    subst post0. cbn [replace_loop]. rewrite Hm, ztake_pre, zdrop_pre, zdrop_past. destruct l as [|c l].
    + inversion Hc as [s Hsn Es|]; subst. change (zlen [(pre, m)] =? 1) with true. cbv iota.
      rewrite (proj2 (Z.ltb_lt _ _) Hs), Hfill. cbn [mbind option_bind]. destruct fuel as [|fuel]; [cbn in Hf; lia|].
      cbn [replace_loop]. rewrite Hsn. cbn. by rewrite app_nil_r, <- !app_assoc.
    + rewrite (proj2 (Z.eqb_neq _ _)) by (rewrite !zlen_cons; pose proof (zlen_nonneg l); lia). cbn [mbind option_bind].
      rewrite (zlen_cons (pre, m)). replace (zlen (c :: l) + 1 - 1) with (zlen (c :: l)) by lia.
      rewrite IH by (done || (cbn in Hf |- *; lia)). cbn. by rewrite <- !app_assoc.
  - rewrite Ek. pose proof (Z.div_mod (zlen (head_of l) + zlen fill_pattern - 1) (zlen fill_pattern) ltac:(lia)) as Hd.
    pose proof (Z.mod_pos_bound (zlen (head_of l) + zlen fill_pattern - 1) (zlen fill_pattern) Hpos). lia.
Qed.
End fill_props.

(** "en" for "language", filled with spaces: six bytes are missing and eleven are added. *)
Definition find_word (w s : bytes) : option (Z * Z) := (fun p => (p, zlen w)) <$> find_from w s 0.
Lemma fill_counts_too_much_witness :
  let replace s := if bool_decide (s = text "language") then text "en"
                   else if bool_decide (s = text "my language: x") then text "my en: x" else s in
  exists k, regex_replace_fill (find_word (text "language")) replace 5 (text "my language: x") [32] =
      Some (text "my en" ++ concat (replicate k [32]) ++ text ": x") /\ Z.of_nat k = 11.
Proof.
  intros replace.
  destruct (fill_counts_too_much (find_word (text "language")) replace 5 (text "my language: x") [32] [(text "my ", text "language")] (text ": x"))
    as (k & E & Hk); [|done|by vm_compute|by vm_compute|done|cbn; lia|].
  - apply (cut_match _ (text "my ") (text "language") (text ": x")); [done|by vm_compute|]. apply cut_end. by vm_compute.
  - exists k. split; [exact E|]. change (zlen (head_of _)) with 11 in Hk. change (zlen [32]) with 1 in Hk. lia.
Defined.
