(* ===== verification/AppCX.v ===== *)
(** * AppCX: socket contexts that record and inspect their traffic (apphostcx.hpp, apphostcx.cpp)

    [AppHostCX] hooks into [read] and [write] of [baseHostCX]: it copies the traffic into a
    flow before or after it passes and runs the signatures over it.  The hooks run in the
    monad over the application context; the pure virtual callbacks of a derived class are
    recorded, in order, in [calls].  What peeking at a socket gives is the class [Peek]. *)

From S2P Require Export Signature HostCX.

(** [baseCom::peek]: like a read, but the bytes stay in the socket. *)
Class Peek `{Com} : Type := {
  com_peek : net -> comst -> Z -> Z -> Z * bytes * comst * net;
  com_peek_law : forall n c s m r bs c' n', com_peek n c s m = (r, bs, c', n') ->
    r <= m /\ (0 < r -> zlen bs = r)
}.

(** [AppHostCX::config], static variables of the code. *)
Class AppConfig : Type := {
  max_starttls_exchanges : Z;
  max_detect_bytes : Z;
  min_detect_bytes : Z;
  max_exchanges : Z;
  continuous_data_left_default : Z;
  opt_switch_to_continuous : bool
}.

(** Their initial values. *)
Definition default_config : AppConfig := {|
  max_starttls_exchanges := 10; max_detect_bytes := 2048; min_detect_bytes := 1024;
  max_exchanges := 20; continuous_data_left_default := 100000; opt_switch_to_continuous := true |}.

Inductive mode_t : Type := NONE | PRE | POST | CONTINUOUS.

#[export] Instance mode_eq_dec : EqDecision mode_t.
Proof. solve_decision. Defined.

(** The sides of the flow: the characters [r] and [w]. *)
Definition side_r : Z := 114.
Definition side_w : Z := 119.

(** Calls of [on_detect], [inspect] and [on_starttls]. *)
Inductive call : Type :=
  | OnDetect (sig : option duplexFlowMatch) (ranges : list range)
  | Inspect (side : Z)
  | OnStarttls.

Section appcx.
Context {ST : Storage} {CO : Com} {PK : Peek} {EE : EraseEnd} {AC : AppConfig}.

(** [plain_tcp]: the com is a [TCPCom] and no [SSLCom]. *)
Record appcx : Type := mkApp {
  base : cx;
  a_net : net;
  l4_proto : Z;
  plain_tcp : bool;
  appflow_ : option duplexFlow;
  peek_read_counter : Z;
  peek_write_counter : Z;
  upgrade_starttls : bool;
  signatures_ : SignatureTree;
  mode_ : mode_t;
  continuous_data_left : Z;
  calls : list call
}.

Definition set_base (c : cx) (a : appcx) : appcx :=
  mkApp c (a_net a) (l4_proto a) (plain_tcp a) (appflow_ a) (peek_read_counter a) (peek_write_counter a)
    (upgrade_starttls a) (signatures_ a) (mode_ a) (continuous_data_left a) (calls a).
Definition set_a_net (n : net) (a : appcx) : appcx :=
  mkApp (base a) n (l4_proto a) (plain_tcp a) (appflow_ a) (peek_read_counter a) (peek_write_counter a)
    (upgrade_starttls a) (signatures_ a) (mode_ a) (continuous_data_left a) (calls a).
Definition set_appflow (f : duplexFlow) (a : appcx) : appcx :=
  mkApp (base a) (a_net a) (l4_proto a) (plain_tcp a) (Some f) (peek_read_counter a) (peek_write_counter a)
    (upgrade_starttls a) (signatures_ a) (mode_ a) (continuous_data_left a) (calls a).
Definition set_peek_read (n : Z) (a : appcx) : appcx :=
  mkApp (base a) (a_net a) (l4_proto a) (plain_tcp a) (appflow_ a) n (peek_write_counter a)
    (upgrade_starttls a) (signatures_ a) (mode_ a) (continuous_data_left a) (calls a).
Definition set_peek_write (n : Z) (a : appcx) : appcx :=
  mkApp (base a) (a_net a) (l4_proto a) (plain_tcp a) (appflow_ a) (peek_read_counter a) n
    (upgrade_starttls a) (signatures_ a) (mode_ a) (continuous_data_left a) (calls a).
Definition set_upgrade (b : bool) (a : appcx) : appcx :=
  mkApp (base a) (a_net a) (l4_proto a) (plain_tcp a) (appflow_ a) (peek_read_counter a) (peek_write_counter a)
    b (signatures_ a) (mode_ a) (continuous_data_left a) (calls a).
Definition set_mode (m : mode_t) (a : appcx) : appcx :=
  mkApp (base a) (a_net a) (l4_proto a) (plain_tcp a) (appflow_ a) (peek_read_counter a) (peek_write_counter a)
    (upgrade_starttls a) (signatures_ a) m (continuous_data_left a) (calls a).
Definition set_continuous_left (n : Z) (a : appcx) : appcx :=
  mkApp (base a) (a_net a) (l4_proto a) (plain_tcp a) (appflow_ a) (peek_read_counter a) (peek_write_counter a)
    (upgrade_starttls a) (signatures_ a) (mode_ a) n (calls a).
Definition set_detection (t : SignatureTree) (l : list call) (a : appcx) : appcx :=
  mkApp (base a) (a_net a) (l4_proto a) (plain_tcp a) (appflow_ a) (peek_read_counter a) (peek_write_counter a)
    (upgrade_starttls a) t (mode_ a) (continuous_data_left a) l.

Definition callback (c : call) : M appcx unit :=
  modify (fun a => set_detection (signatures_ a) (calls a ++ [c]) a).

(** [flow()]: made on first use. *)
Definition the_flow (a : appcx) : duplexFlow := default flow_new (appflow_ a).
Definition flow : M appcx duplexFlow := fun a => Ret (the_flow a) (set_appflow (the_flow a) a).
Definition on_flow (f : duplexFlow -> duplexFlow) : M appcx unit :=
  modify (fun a => set_appflow (f (the_flow a)) a).
Definition append_flow (side : Z) (d : bytes) : M appcx unit :=
  on_flow (fun f => snd (flow_append side d f)).

(** The constructors, over a base context just constructed. *)
Definition app_new (c : cx) (n : net) (proto : Z) (tcp : bool) (t : SignatureTree) : appcx :=
  mkApp c n proto tcp (if proto =? 0 then None else Some (set_domain proto flow_new)) 0 0 false t NONE 0 [].

(** ** Detection *)

(** [make_sig_states] into a sensor other than the source. *)
Definition make_sig_states (source_signatures : sensorType) : Z * sensorType :=
  let l := filter (fun x => is_Some (snd x)) source_signatures in
  (zlen l, (fun x => (fms_new, snd x)) <$> l).

(** The loop over a sensor: the entries updated, and whether one matched. *)
Fixpoint detect_entries (f : duplexFlow) (s : sensorType) : M (list call) (sensorType * bool) :=
  match s with
  | [] => mret_ ([], false)
  | (sig_res, sig_sig) :: rest =>
      if hit_ sig_res then
        let! (rest, m) := detect_entries f rest in mret_ ((sig_res, sig_sig) :: rest, m)
      else
        let! (r, st) := (fun l => match fms_update f sig_sig sig_res with
                                  | Ret r st => Ret (r, st) l
                                  | Throw e _ => Throw e l
                                  | Undef => Undef
                                  end) in
        when r (modify (fun l => l ++ [OnDetect sig_sig (ranges_ (state_ st))])) ;;;
        let! (rest, m) := detect_entries f rest in
        mret_ ((mkState r (state_ st), sig_sig) :: rest, r || m)
  end.

(** [detect(cur_sensor)] for the sensor of group [i]. *)
Definition detect_sensor (i : Z) : M appcx bool :=
  o <- gets (fun a => sensor_at i (signatures_ a)) ;;
  match o with
  | None => mret_ false
  | Some s =>
      f <- flow ;;
      fun a =>
        match detect_entries f s (calls a) with
        | Ret (s', m) l =>
            let t := signatures_ a in
            Ret m (set_detection (mkTree (filter_ t) (<[Z.to_nat i := Some s']> (sensors_ t))
                                    (name_index t) (last_alloc_index t)) l a)
        | Throw e l => Throw e (set_detection (signatures_ a) l a)
        | Undef => Undef
        end
  end.

(** [detect()]: from group 1 to the first that is not allocated. *)
Fixpoint detect_from (n : nat) (i : Z) (ret : bool) : M appcx bool :=
  match n with
  | O => mret_ ret
  | S n =>
      t <- gets signatures_ ;;
      match sensor_at i t with
      | None => mret_ ret
      | Some _ =>
          if default false (filter_ t !! Z.to_nat i) then
            r <- detect_sensor i ;; detect_from n (i + 1) (ret || r)
          else detect_from n (i + 1) ret
      end
  end.
Definition detect : M appcx bool := detect_from (Z.to_nat (max_groups - 1)) 1 false.

(** ** Detection windows *)

Definition inside_detect_ranges : M appcx bool :=
  f <- flow ;;
  c <- gets base ;;
  let bytes_total := u64 (meter_write_bytes c + meter_read_bytes c) in
  mret_ ((bytes_total <=? max_detect_bytes) &&
         ((flow_size f <? max_exchanges) || (bytes_total <=? min_detect_bytes))).

Definition acknowledge_continuous_mode (to_read_bytes : Z) : M appcx unit :=
  modify (set_continuous_left (if to_read_bytes =? 0 then continuous_data_left_default else to_read_bytes)).

Definition inside_detect_on_continue : M appcx bool :=
  inside <- inside_detect_ranges ;;
  if negb inside then
    m <- gets mode_ ;;
    if decide (m = CONTINUOUS) then mret_ true
    else if opt_switch_to_continuous then
      acknowledge_continuous_mode 0 ;;; modify (set_mode CONTINUOUS) ;;; mret_ true
    else mret_ false
  else mret_ true.

Definition continuous_mode_keeper (data : bytes) : M appcx unit :=
  f <- flow ;;
  when (4 <? flow_size f) (on_flow flow_pop ;;; on_flow flow_pop) ;;;
  left <- gets continuous_data_left ;;
  if left <? zlen data then modify (set_continuous_left 0) ;;; modify (set_mode NONE)
  else modify (set_continuous_left (u64 (left - zlen data))).

(** [buffer::view(pos, len)] of a buffer with contents [d]. *)
Definition view (pos len : Z) (d : bytes) : M appcx bytes :=
  if pos <? zlen d then mret_ (view_bytes pos len d) else throw out_of_range.

(** The common end of [pre_read] and [pre_write]. *)
Definition detect_and_inspect (side : Z) : M appcx unit :=
  f <- flow ;;
  tcp <- gets plain_tcp ;;
  when ((exchanges f <? max_starttls_exchanges) && tcp)
    (r <- detect_sensor 0 ;; when r (modify (set_upgrade true))) ;;;
  detect ;;;
  callback (Inspect side).

(** ** Reading *)

(** [peek(b)] *)
Definition peek (b : lockbuffer) : M appcx (Z * lockbuffer) := fun a =>
  let c := base a in
  let '(r, bs, k, n) := com_peek (a_net a) (com_ c) (fds_ c) (lb_cap b) in
  Ret (r, if 0 <? r then mkLockbuffer bs (lb_cap b) else b) (set_a_net n (set_base (set_com k c) a)).

Definition max_peek_one : Z := 5000.

(** [peek_all], [n] rounds at most: the result of the last peek and the buffer. *)
Fixpoint peek_all (n : nat) (l : Z) (b : lockbuffer) : M appcx (Z * lockbuffer) :=
  match n with
  | O => mret_ (l, b)
  | S n =>
      let! (r, b) := peek b in
      let l := s32 r in
      if l <=? 0 then mret_ (l, b)
      else if l <? s32 (lb_cap b) then mret_ (l, b)
      else peek_all n l (lb_capacity (lb_cap b + max_peek_one) b)
  end.

(** The bytes that were read without having been peeked at. *)
Definition salvage_readbuf : M appcx bool :=
  inside <- inside_detect_ranges ;;
  behind <- gets (fun a => peek_read_counter a <? meter_read_bytes (base a)) ;;
  if inside && behind then
    a <- get ;;
    let d := lb_data (readbuf_ (base a)) in
    let delta := u64 (meter_read_bytes (base a) - peek_read_counter a) in
    v <- view (u64 (zlen d - delta)) delta d ;;
    if zlen v =? 0 then mret_ false
    else
      append_flow side_r v ;;;
      modify (fun a => set_peek_read (u64 (peek_read_counter a + zlen v)) a) ;;;
      mret_ true
  else mret_ false.

Definition peek_socket : M appcx bool :=
  c <- gets base ;;
  if meter_read_bytes c <? max_detect_bytes then
    let! (l, b) := peek_all 10 (-1) (mkLockbuffer [] (chunk_capacity max_peek_one)) in
    if l <? 0 then
      modify (fun a => set_base (read_force_eagain (base a)) a) ;;; mret_ false
    else if 0 <? l then
      modify (fun a => set_peek_read (u64 (peek_read_counter a + l)) a) ;;;
      append_flow side_r (lb_data b) ;;;
      modify (fun a => set_base (read_limit l (base a)) a) ;;;
      p <- gets l4_proto ;;
      when (p =? SOCK_DGRAM) (modify (fun a => set_base (read_unlimited (base a)) a)) ;;;
      mret_ true
    else mret_ false
  else mret_ false.

Definition pre_read : M appcx unit :=
  m <- gets mode_ ;;
  if decide (m = PRE) then
    salvaged <- salvage_readbuf ;;
    peeked <- peek_socket ;;
    when (salvaged || peeked) (detect_and_inspect side_r)
  else mret_ tt.

Definition post_read : M appcx unit :=
  a <- get ;;
  let d := lb_data (readbuf_ (base a)) in
  if zlen d =? 0 then mret_ tt
  else if decide (mode_ a = POST \/ mode_ a = CONTINUOUS) then
    inside <- inside_detect_on_continue ;;
    when inside
      (append_flow side_r d ;;;
       m <- gets mode_ ;;
       when (bool_decide (m = CONTINUOUS)) (continuous_mode_keeper d) ;;;
       detect ;;;
       callback (Inspect side_r))
  else mret_ tt.

(** ** Writing *)

(** How many bytes of the written and queued ones the flow misses. *)
Definition write_delta (a : appcx) : Z :=
  u64 (u64 (meter_write_bytes (base a) + lb_size (writebuf_ (base a))) - peek_write_counter a).

(** The queued bytes the flow misses go into it. *)
Definition record_written : M appcx unit :=
  a <- get ;;
  let d := lb_data (writebuf_ (base a)) in
  let delta := write_delta a in
  when (0 <? delta)
    (delta_b <- view (u64 (zlen d - delta)) (zlen d) d ;;
     append_flow side_w delta_b ;;;
     modify (fun a => set_peek_write (u64 (peek_write_counter a + zlen delta_b)) a) ;;;
     m <- gets mode_ ;;
     when (bool_decide (m = CONTINUOUS)) (continuous_mode_keeper delta_b)).

Definition pre_write : M appcx unit :=
  a <- get ;;
  if lb_empty (writebuf_ (base a)) then mret_ tt
  else if decide (mode_ a = PRE \/ mode_ a = CONTINUOUS) then
    inside <- inside_detect_on_continue ;;
    when inside (record_written ;;; detect_and_inspect side_w)
  else mret_ tt.

Definition post_write : M appcx unit :=
  a <- get ;;
  if lb_empty (writebuf_ (base a)) then mret_ tt
  else
    (if decide (mode_ a = POST) then
       inside <- inside_detect_ranges ;;
       when inside
         (f <- flow ;;
          match last (flow_queue f) with
          | None => undef
          | Some _ =>
              a <- get ;;
              let d := lb_data (writebuf_ (base a)) in
              let delta := write_delta a in
              delta_b <- view (u64 (zlen d - delta)) (zlen d) d ;;
              when (0 <? delta)
                (append_flow side_w delta_b ;;;
                 modify (fun a => set_peek_write (u64 (peek_write_counter a + zlen delta_b)) a)) ;;;
              detect ;;;
              callback (Inspect side_w)
          end)
     else mret_ tt) ;;;
    a <- get ;;
    if decide (mode_ a = PRE /\ upgrade_starttls a = true) then
      modify (set_upgrade false) ;;; callback OnStarttls
    else mret_ tt.
(** ** The context in its world

    [baseHostCX::write] with the hooks of this class: they work on the context's own object, and on
    the network when they peek. *)
Record hostapp : Type := mkHostApp { ha_world : world; ha_app : appcx }.

Definition on_world {A} (m : M world A) : M hostapp A := fun h =>
  match m (ha_world h) with
  | Ret a w => Ret a (mkHostApp w (ha_app h))
  | Throw e w => Throw e (mkHostApp w (ha_app h))
  | Undef => Undef
  end.
Definition as_app {A} (i : Z) (m : M appcx A) : M hostapp A := fun h =>
  let w := ha_world h in
  match w_cxs w !! i with
  | None => Undef
  | Some c =>
      let back a := mkHostApp (set_net (a_net a) (set_cxs (<[i := base a]> (w_cxs w)) w)) a in
      match m (set_a_net (w_net w) (set_base c (ha_app h))) with
      | Ret r a => Ret r (back a)
      | Throw e a => Throw e (back a)
      | Undef => Undef
      end
  end.

Definition app_write (i : Z) : M hostapp Z :=
  write_hooked (@on_world) (as_app i pre_write) (as_app i post_write) i.
End appcx.
