(* ===== verification/AppCXProps.v ===== *)
(** * AppCXProps: what application contexts record, and where recording breaks

    Detection never disturbs the recording; written data are recorded before they leave;
    signatures are reported once; the two modes that cannot work. *)

From S2P Require Export AppCX Flow SignatureProps HostCXProps.

(** ** The bytes of one side *)

Definition side_bytes (s : Z) (f : duplexFlow) : bytes :=
  concat (e_data <$> filter (fun e => source_ e = s) (flow_queue f)).

Lemma side_bytes_snoc s q e dom x :
  side_bytes s (mkFlow (q ++ [e]) dom x) =
  side_bytes s (mkFlow q dom x) ++ (if decide (source_ e = s) then e_data e else []).
Proof.
  unfold side_bytes. cbn [flow_queue]. rewrite filter_app, fmap_app, concat_app. f_equal.
  rewrite filter_cons, filter_nil. destruct (decide (source_ e = s)); cbn; by rewrite ?app_nil_r.
Qed.

Lemma side_bytes_append_same s d f :
  zlen (side_bytes s f) + zlen d <= max_flow_size ->
  side_bytes s (snd (flow_append s d f)) = side_bytes s f ++ d.
Proof.
  intros Hmax. destruct f as [q dom x]. unfold flow_append. cbn [flow_queue domain_ exchanges snd].
  assert (forall x', side_bytes s (mkFlow (q ++ [entry_new s d]) dom x') = side_bytes s (mkFlow q dom x) ++ d) as Hnew.
  { intros x'. rewrite side_bytes_snoc. cbn [entry_new source_ e_data]. by rewrite decide_True by done. }
  destruct q as [|e q _] using rev_ind; [apply Hnew|]. rewrite last_snoc.
  destruct (decide (source_ e = s)) as [Hs|Hs]; [|apply Hnew].
  destruct (dom =? SOCK_STREAM); [|apply Hnew]. rewrite side_bytes_snoc, decide_True, zlen_app in Hmax by done.
  pose proof (zlen_nonneg (side_bytes s (mkFlow q dom x))). pose proof (zlen_nonneg (e_data e)).
  pose proof (zlen_nonneg d). unfold max_flow_size, entry_size in *. rewrite u64_small by lia.
  rewrite (proj2 (Z.ltb_ge _ _)) by lia. unfold upd_back. rewrite last_snoc, removelast_last, !side_bytes_snoc.
  cbn [entry_append source_ e_data]. by rewrite !decide_True, <- app_assoc by done.
Qed.

Lemma side_bytes_append_other s s' d f :
  s <> s' -> side_bytes s (snd (flow_append s' d f)) = side_bytes s f.
Proof.
  intros Hne. destruct f as [q dom x]. unfold flow_append. cbn [flow_queue domain_ exchanges snd].
  assert (forall x', side_bytes s (mkFlow (q ++ [entry_new s' d]) dom x') = side_bytes s (mkFlow q dom x)) as Hnew.
  { intros x'. rewrite side_bytes_snoc. cbn [entry_new source_]. by rewrite decide_False, app_nil_r by congruence. }
  destruct q as [|e q _] using rev_ind; [apply Hnew|]. rewrite last_snoc.
  destruct (decide (source_ e = s')) as [Hs|Hs]; [|apply Hnew].
  destruct (dom =? SOCK_STREAM); [|apply Hnew]. unfold upd_back. rewrite last_snoc, removelast_last.
  destruct (_ <? _); rewrite !side_bytes_snoc; cbn [set_validity entry_append source_]; rewrite Hs;
    by rewrite !decide_False by congruence.
Qed.

Section app.
Context {ST : Storage} {CO : Com} {PK : Peek} {EE : EraseEnd} {AC : AppConfig}.

(** ** Detection stands apart from recording *)

(** Nothing of the recording changes; the callbacks and match states may. *)
Definition apart_from_detection (a a' : appcx) : Prop :=
  base a' = base a /\ the_flow a' = the_flow a /\ peek_read_counter a' = peek_read_counter a /\
  peek_write_counter a' = peek_write_counter a /\ mode_ a' = mode_ a /\
  continuous_data_left a' = continuous_data_left a /\ l4_proto a' = l4_proto a.

Lemma apart_refl a : apart_from_detection a a.
Proof. by repeat split. Qed.
Lemma apart_trans a b c : apart_from_detection a b -> apart_from_detection b c -> apart_from_detection a c.
Proof. intros (?&?&?&?&?&?&?) (?&?&?&?&?&?&?). repeat split; congruence. Qed.

(** Every sensor holds signatures, not null pointers. *)
Definition nonnull (s : sensorType) : Prop := Forall (fun x => is_Some (snd x)) s.
Definition tree_nonnull (t : SignatureTree) : Prop := forall i s, sensor_at i t = Some s -> nonnull s.

(** A step of detection that returns and stays apart. *)
Definition detects {A} (m : M appcx A) : Prop :=
  forall a, tree_nonnull (signatures_ a) ->
    exists r a', m a = Ret r a' /\ apart_from_detection a a' /\ tree_nonnull (signatures_ a').

Lemma detects_ret {A} (x : A) : detects (mret_ x).
Proof. intros a Ha. exists x, a. split; [done|]. split; [apply apart_refl|done]. Qed.

Lemma detects_bind {A B} (m : M appcx A) (k : A -> M appcx B) :
  detects m -> (forall x, detects (k x)) -> detects (mbind_ m k).
Proof.
  intros Hm Hk a Ha. destruct (Hm a Ha) as (x & a1 & E & H1 & Ha1). rewrite (bind_ret _ _ _ _ _ E).
  destruct (Hk x a1 Ha1) as (y & a2 & E2 & H2 & Ha2). exists y, a2. split; [done|].
  split; [by apply (apart_trans a a1)|done].
Qed.

Lemma detects_gets {A} (f : appcx -> A) : detects (gets f).
Proof. intros a Ha. exists (f a), a. split; [done|]. split; [apply apart_refl|done]. Qed.

Lemma detects_when b (m : M appcx unit) : detects m -> detects (when b m).
Proof. intros. destruct b; [done|apply detects_ret]. Qed.

Lemma detects_flow : detects flow.
Proof. intros a Ha. eexists _, _. split; [reflexivity|]. by repeat split. Qed.

Lemma detects_callback c : detects (callback c).
Proof. intros a Ha. eexists _, _. split; [reflexivity|]. by repeat split. Qed.

Lemma detects_upgrade b : detects (modify (set_upgrade b)).
Proof. intros a Ha. eexists _, _. split; [reflexivity|]. by repeat split. Qed.

Section total.
(** [erase(end())] does something: what libstdc++ does, for instance. *)
Context (erase_total : forall v, is_Some (erase_end v)).

Lemma match_loop_total (sig : list (Z * baseMatch)) q cur st :
  exists st', match_loop sig q cur st = Ret tt st'.
Proof.
  revert cur st. induction q as [|e q IH]; intros cur st; [by eexists|]. cbn [match_loop].
  rewrite bind_gets. destruct (sig !! _) as [[src m]|]; [|by eexists].
  assert (exists st1, match_one src m cur e st = Ret tt st1) as [st1 E].
  { unfold match_one, record_hit, record_miss. destruct (entry_size e =? 0); [by eexists|].
    destruct (erase_total (ranges_ st)) as [v Hv].
    destruct (decide _); [destruct (bool_decide _)|]; rewrite bind_gets; destruct (at_last _ _);
      rewrite ?Hv; by eexists. }
  rewrite (bind_ret _ _ _ _ _ E). apply IH.
Qed.

Lemma flow_match_total (g : duplexFlowMatch) f st : exists b st', flow_match g f st = Ret b st'.
Proof.
  unfold flow_match. rewrite bind_gets.
  edestruct (match_loop_total (signature_ g)) as [st' E]. rewrite (bind_ret _ _ _ _ _ E). by eexists _, _.
Qed.

Lemma detect_entries_total f s l :
  nonnull s -> exists s' m l', detect_entries f s l = Ret (s', m) l' /\ nonnull s'.
Proof.
  intros Hs. revert l. induction Hs as [|[st o] s [g Hg] Hs IH]; intros l.
  { exists [], false, l. split; [done|constructor]. }
  cbn in Hg. subst o. cbn [detect_entries]. destruct (hit_ st).
  - destruct (IH l) as (s' & m & l' & E & Hn). rewrite (bind_ret _ _ _ _ _ E).
    eexists _, _, _. split; [reflexivity|]. by constructor.
  - destruct (flow_match_total g f (state_ st)) as (b & st' & Em).
    erewrite bind_ret; [|cbn [fms_update]; rewrite Em; reflexivity]. cbn beta iota.
    set (l1 := if b then l ++ [OnDetect (Some g) (ranges_ st')] else l).
    destruct (IH l1) as (s' & m & l' & E & Hn).
    erewrite bind_ret; [|unfold when; instantiate (1 := l1); instantiate (1 := tt); by destruct b].
    rewrite (bind_ret _ _ _ _ _ E). eexists _, _, _. split; [reflexivity|]. by constructor.
Qed.

Lemma tree_nonnull_insert t i s f ix l :
  tree_nonnull t -> nonnull s -> tree_nonnull (mkTree f (<[Z.to_nat i := Some s]> (sensors_ t)) ix l).
Proof.
  intros Ht Hs j s'. unfold sensor_at. cbn [sensors_]. intros Hj.
  destruct (decide (Z.to_nat i = Z.to_nat j /\ (Z.to_nat i < length (sensors_ t))%nat)) as [[E Hlt]|Hno].
  - rewrite E, list_lookup_insert_eq in Hj by lia. cbn in Hj. by injection Hj as <-.
  - apply (Ht j). unfold sensor_at. rewrite <- Hj. f_equal. destruct (decide (Z.to_nat i = Z.to_nat j)) as [E|E].
    + rewrite list_insert_ge by (destruct (decide (length (sensors_ t) <= Z.to_nat i)%nat); [done|]; exfalso; apply Hno; lia). done.
    + by rewrite list_lookup_insert_ne.
Qed.

Lemma detects_sensor i : detects (detect_sensor i).
Proof.
  intros a Ha. unfold detect_sensor. rewrite bind_gets. destruct (sensor_at i (signatures_ a)) as [s|] eqn:Hs.
  - unfold mbind_, flow. cbn [signatures_ calls set_appflow].
    destruct (detect_entries_total (the_flow a) s (calls a) (Ha i s Hs)) as (s' & m & l' & E & Hn).
    cbn. rewrite E. eexists _, _. split; [reflexivity|]. split; [by repeat split|]. by apply tree_nonnull_insert.
  - exists false, a. split; [done|]. split; [apply apart_refl|done].
Qed.

Lemma detects_from n i r : detects (detect_from n i r).
Proof.
  revert i r. induction n as [|n IH]; intros i r; [apply detects_ret|]. cbn [detect_from].
  apply detects_bind; [apply detects_gets|]. intros t. destruct (sensor_at i t); [|apply detects_ret].
  destruct (default _ _); [|apply IH]. apply detects_bind; [apply detects_sensor|]. intros. apply IH.
Qed.

Lemma detects_all : detects detect.
Proof. apply detects_from. Qed.

Lemma detects_and_inspects side : detects (detect_and_inspect side).
Proof.
  unfold detect_and_inspect. apply detects_bind; [apply detects_flow|]. intros f.
  apply detects_bind; [apply detects_gets|]. intros b.
  apply detects_bind.
  - apply detects_when, detects_bind; [apply detects_sensor|]. intros r. apply detects_when, detects_upgrade.
  - intros _. apply detects_bind; [apply detects_all|]. intros. apply detects_callback.
Qed.
(** ** Recording what is written *)

Context (opt_on : opt_switch_to_continuous = true).

Definition wb (a : appcx) : bytes := lb_data (writebuf_ (base a)).
Definition sent_bytes (a : appcx) : Z := meter_write_bytes (base a).

(** [Q] is everything queued so far: its first bytes are sent, the rest is in the
    buffer; while recording is on, the recorded count lies between the two, and in mode
    PRE the flow holds exactly that many bytes of [Q] for the writing side. *)
Definition captured (Q : bytes) (a : appcx) : Prop :=
  mode_ a <> POST /\ tree_nonnull (signatures_ a) /\ zlen Q <= max_flow_size /\
  0 <= sent_bytes a <= zlen Q /\ wb a = zdrop (sent_bytes a) Q /\
  (mode_ a <> NONE -> sent_bytes a <= peek_write_counter a <= zlen Q) /\
  (mode_ a = PRE -> side_bytes side_w (the_flow a) = ztake (peek_write_counter a) Q).

Lemma captured_apart Q a a' :
  captured Q a -> apart_from_detection a a' -> tree_nonnull (signatures_ a') -> captured Q a'.
Proof.
  intros (H1 & H2 & H3 & H4 & H5 & H6 & H7) (E1 & E2 & E3 & E4 & E5 & _) Hn.
  unfold captured, wb, sent_bytes in *. rewrite E1, E2, E4, E5.
  repeat (split; [assumption|]). assumption.
Qed.

Lemma inside_ranges_ret a :
  exists b, inside_detect_ranges a = Ret b (set_appflow (the_flow a) a).
Proof. eexists. reflexivity. Qed.

(** With the switch on, a hook outside the detection window turns recording to the
    continuous mode and goes on. *)
Lemma inside_continue_ret a :
  exists a', inside_detect_on_continue a = Ret true a' /\ base a' = base a /\ the_flow a' = the_flow a /\
    peek_write_counter a' = peek_write_counter a /\ signatures_ a' = signatures_ a /\
    (mode_ a' = mode_ a \/ mode_ a' = CONTINUOUS).
Proof.
  destruct (inside_ranges_ret a) as [b E]. unfold inside_detect_on_continue. rewrite (bind_ret _ _ _ _ _ E).
  destruct b; cbn [negb].
  - eexists. split; [reflexivity|]. repeat split. by left.
  - rewrite bind_gets. destruct (decide _) as [Hm|Hm].
    + eexists. split; [reflexivity|]. repeat split. by left.
    + rewrite opt_on. eexists. split; [reflexivity|]. repeat split. by right.
Qed.

Lemma keeper_ret d a :
  exists a', continuous_mode_keeper d a = Ret tt a' /\ base a' = base a /\
    peek_write_counter a' = peek_write_counter a /\ signatures_ a' = signatures_ a /\
    (mode_ a' = mode_ a \/ mode_ a' = NONE).
Proof.
  unfold continuous_mode_keeper, flow, on_flow. unfold mbind_ at 1. cbn beta iota.
  set (a1 := set_appflow _ a).
  assert (exists a2, when (4 <? flow_size (the_flow a))
    (modify (fun a => set_appflow (flow_pop (the_flow a)) a) ;;; modify (fun a => set_appflow (flow_pop (the_flow a)) a)) a1
    = Ret tt a2 /\ base a2 = base a /\ peek_write_counter a2 = peek_write_counter a /\
    signatures_ a2 = signatures_ a /\ mode_ a2 = mode_ a) as (a2 & E & H1 & H2 & H3 & H4)
    by (destruct (4 <? _); eexists; (split; [reflexivity|done])).
  rewrite (bind_ret _ _ _ _ _ E), bind_gets. destruct (continuous_data_left a2 <? zlen d); eexists; (split; [reflexivity|]);
    (split; [exact H1|split; [exact H2|split; [exact H3|]]]); [by right|by left].
Qed.

(** Taking the unrecorded end of the buffer. *)
Lemma view_end a Q :
  sent_bytes a <= peek_write_counter a < zlen Q -> zlen Q <= max_flow_size -> 0 <= sent_bytes a ->
  wb a = zdrop (sent_bytes a) Q ->
  write_delta a = zlen Q - peek_write_counter a /\
  view (u64 (zlen (wb a) - write_delta a)) (zlen (wb a)) (wb a) a = Ret (zdrop (peek_write_counter a) Q) a.
Proof.
  intros Hp Hq H0 Hw. unfold max_flow_size in Hq.
  assert (zlen (wb a) = zlen Q - sent_bytes a) as Hl by (rewrite Hw, zlen_zdrop; lia).
  assert (write_delta a = zlen Q - peek_write_counter a) as Hd.
  { unfold write_delta, lb_size. fold (wb a) (sent_bytes a). rewrite Hl, (u64_small (sent_bytes a + _)), u64_small by lia. lia. }
  split; [done|]. rewrite Hd, Hl. unfold view.
  replace (zlen Q - sent_bytes a - (zlen Q - peek_write_counter a)) with (peek_write_counter a - sent_bytes a) by lia.
  rewrite u64_small, Hl, (proj2 (Z.ltb_lt _ _)) by lia. unfold view_bytes, mret_. rewrite Hl, u64_small by lia.
  assert (zdrop (peek_write_counter a - sent_bytes a) (wb a) = zdrop (peek_write_counter a) Q) as Hz.
  { rewrite Hw. unfold zdrop. rewrite drop_drop. f_equal. lia. }
  destruct (Z.leb_spec (peek_write_counter a - sent_bytes a + (zlen Q - sent_bytes a)) (zlen Q - sent_bytes a)).
  - f_equal. rewrite Hz. unfold ztake. rewrite take_ge; [done|].
    assert (zlen (zdrop (peek_write_counter a) Q) <= zlen Q - sent_bytes a) as H' by (rewrite zlen_zdrop; lia).
    rewrite zlen_length in H' at 1. lia.
  - by rewrite Hz.
Qed.

Lemma record_written_ret Q a :
  captured Q a -> mode_ a <> NONE ->
  exists a', record_written a = Ret tt a' /\ captured Q a' /\ base a' = base a /\
    (mode_ a' <> NONE -> peek_write_counter a' = zlen Q).
Proof.
  intros Hc Hm. pose proof Hc as (H1 & H2 & H3 & H4 & H5 & H6 & H7). specialize (H6 Hm).
  unfold record_written, mbind_ at 1, get. cbn zeta. fold (wb a).
  destruct (decide (peek_write_counter a = zlen Q)) as [E|E].
  - assert (write_delta a = 0) as ->.
    { unfold write_delta, lb_size. fold (wb a) (sent_bytes a). rewrite H5, zlen_zdrop by lia.
      unfold max_flow_size in H3. rewrite (u64_small (sent_bytes a + _)), u64_small by lia. lia. }
    exists a. by split; [|split; [|split]].
  - destruct (view_end a Q ltac:(lia) H3 ltac:(lia) H5) as [Hd Hv].
    rewrite (proj2 (Z.ltb_lt 0 (write_delta a))) by lia. cbn [when].
    rewrite (bind_ret _ _ _ _ _ Hv). set (db := zdrop (peek_write_counter a) Q).
    assert (zlen db = zlen Q - peek_write_counter a) as Hl by (unfold db; rewrite zlen_zdrop; lia).
    unfold append_flow, on_flow. rewrite !bind_modify, bind_gets. unfold max_flow_size in H3.
    set (a1 := set_peek_write _ _).
    assert (peek_write_counter a1 = zlen Q) as Hp by (unfold a1; cbn; rewrite Hl, u64_small by lia; lia).
    assert (captured Q a1) as Hc1.
    { split; [done|]. split; [done|]. split; [done|]. split; [done|]. split; [done|].
      rewrite Hp. split; [intros; unfold sent_bytes in *; cbn; lia|]. intros Hpre. specialize (H7 Hpre).
      change (the_flow a1) with (snd (flow_append side_w db (the_flow a))).
      rewrite side_bytes_append_same, H7.
      - unfold db. rewrite ztake_zdrop. unfold ztake. rewrite take_ge; [done|]. rewrite zlen_length. lia.
      - rewrite H7, Hl, zlen_ztake by lia. unfold max_flow_size. lia. }
    destruct (bool_decide (mode_ a1 = CONTINUOUS)) eqn:Hmode; cbn [when]; [|by exists a1].
    apply bool_decide_eq_true in Hmode.
    destruct (keeper_ret db a1) as (a2 & Ek & B1 & B2 & B3 & B4). exists a2.
    split; [exact Ek|]. split; [|split; [by rewrite B1|by rewrite B2]].
    destruct Hc1 as (C1 & C2 & C3 & C4 & C5 & C6 & C7). unfold captured, wb, sent_bytes in *. rewrite B1, B2, B3.
    assert (mode_ a2 <> PRE /\ mode_ a2 <> POST) as [Q1 Q2] by (destruct B4 as [-> | ->]; rewrite ?Hmode; done).
    repeat (split; [assumption|]). split; [|by intros ?]. intros _. apply C6. by rewrite Hmode.
Qed.

Lemma pre_write_ret Q a :
  captured Q a ->
  exists a', pre_write a = Ret tt a' /\ captured Q a' /\ base a' = base a /\
    (mode_ a' <> NONE -> wb a <> [] -> peek_write_counter a' = zlen Q).
Proof.
  intros Hc. unfold pre_write, mbind_ at 1, get. unfold lb_empty, lb_size. fold (wb a).
  destruct (Z.eqb_spec (zlen (wb a)) 0) as [E|E].
  { exists a. split; [done|]. split; [done|]. split; [done|]. intros _ Hw. destruct (wb a); [done|].
    rewrite zlen_cons in E. pose proof (zlen_nonneg l). lia. }
  pose proof Hc as (H1 & _). destruct (decide (mode_ a = PRE \/ mode_ a = CONTINUOUS)) as [Hm|Hm].
  2: { exists a. split; [done|]. split; [done|]. split; [done|]. destruct (mode_ a); naive_solver. }
  destruct (inside_continue_ret a) as (a1 & E1 & B1 & B2 & B3 & B4 & B5). rewrite (bind_ret _ _ _ _ _ E1). cbn [when].
  assert (captured Q a1 /\ mode_ a1 <> NONE) as [Hc1 Hm1].
  { destruct Hc as (C1 & C2 & C3 & C4 & C5 & C6 & C7). unfold captured, wb, sent_bytes in *. rewrite B1, B2, B3, B4.
    assert (mode_ a1 <> POST /\ mode_ a1 <> NONE /\ (mode_ a1 = PRE -> mode_ a = PRE) /\ mode_ a <> NONE) as (? & ? & ? & ?)
      by (destruct B5 as [-> | ->], Hm as [-> | ->]; done).
    split; [|done]. repeat (split; [assumption|]). split; [intros _; auto|auto]. }
  destruct (record_written_ret Q a1 Hc1 Hm1) as (a2 & E2 & Hc2 & B6 & Hp2).
  rewrite (bind_ret _ _ _ _ _ E2). assert (tree_nonnull (signatures_ a2)) as Hn2 by apply Hc2.
  destruct (detects_and_inspects side_w a2 Hn2) as ([] & a3 & E3 & Hap & Hn).
  exists a3. split; [exact E3|].
  split; [by apply (captured_apart Q a2)|]. destruct Hap as (A1 & _ & _ & A4 & A5 & _).
  split; [congruence|]. intros Hne _. rewrite A4. apply Hp2. by rewrite <- A5.
Qed.
Lemma post_write_ret a :
  mode_ a <> POST ->
  exists a', post_write a = Ret tt a' /\ apart_from_detection a a' /\ signatures_ a' = signatures_ a.
Proof.
  intros Hm. unfold post_write. unfold mbind_ at 1, get.
  destruct (lb_empty _); [exists a; split; [done|]; split; [apply apart_refl|done]|].
  rewrite decide_False by done. rewrite bind_pure. unfold mbind_ at 1.
  destruct (decide (mode_ a = PRE /\ upgrade_starttls a = true)).
  - eexists. split; [reflexivity|]. by repeat split.
  - exists a. split; [done|]. split; [apply apart_refl|done].
Qed.

(** What happens to the writing side of context [i]: data are queued, or [write] runs, the com taking
    what it takes. *)
Inductive wop : Type := Queue (d : bytes) | Write.

Definition run_wop (i : Z) (o : wop) : M hostapp unit :=
  match o with Queue d => on_world (to_write i d) | Write => app_write i ;;; mret_ tt end.

Fixpoint run_wops (i : Z) (l : list wop) : M hostapp unit :=
  match l with [] => mret_ tt | o :: r => run_wop i o ;;; run_wops i r end.

Definition queued (o : wop) : bytes := match o with Queue d => d | Write => [] end.

(** The context is in the world, not paused for writing, and its record is right. *)
Definition captured_in (i : Z) (Q : bytes) (h : hostapp) : Prop :=
  exists c, w_cxs (ha_world h) !! i = Some c /\ write_waiting_for_peercom_ c = false /\ captured Q (set_base c (ha_app h)).

Lemma captured_base Q c c' a : captured Q (set_base c a) ->
  lb_data (writebuf_ c') = lb_data (writebuf_ c) -> meter_write_bytes c' = meter_write_bytes c ->
  captured Q (set_base c' a).
Proof. unfold captured, wb, sent_bytes. cbn. by intros H -> ->. Qed.

Lemma queue_captured Q d c a :
  captured Q (set_base c a) -> zlen (Q ++ d) <= max_flow_size ->
  captured (Q ++ d) (set_base (set_writebuf (lb_append d (writebuf_ c)) c) a).
Proof.
  intros (H1 & H2 & H3 & H4 & H5 & H6 & H7) Hmax. rewrite zlen_app in Hmax. pose proof (zlen_nonneg d).
  unfold captured, wb, sent_bytes in *.
  cbn [base writebuf_ meter_write_bytes set_base set_writebuf mode_ signatures_ peek_write_counter] in *.
  rewrite lb_append_data, H5, zlen_app.
  split; [done|]. split; [done|]. split; [lia|]. split; [lia|]. split.
  - unfold zdrop. rewrite drop_app_le; [done|]. rewrite zlen_length in H4. lia.
  - split; [intros Hm; specialize (H6 Hm); lia|]. intros Hm. specialize (H6 ltac:(by rewrite Hm)).
    change (the_flow _) with (the_flow (set_base c a)). rewrite (H7 Hm). unfold ztake. rewrite take_app_le; [done|].
    rewrite zlen_length in H6. lia.
Qed.

Lemma flush_bytes n b : 0 < n <= lb_size b -> lb_data (lb_flush n b) = zdrop n (lb_data b).
Proof.
  intros Hn. destruct (Z.eq_dec n (lb_size b)) as [->|Hne]; [|apply lb_flush_data; lia].
  rewrite lb_flush_all. unfold lb_size, zdrop. rewrite zlen_length, Nat2Z.id. by rewrite drop_all.
Qed.

(** The com took [l] bytes, and the hook after the write left the record alone. *)
Lemma taken_captured Q l c c' a : 0 < l <= lb_size (writebuf_ c) -> captured Q (set_base c a) ->
  (mode_ a <> NONE -> peek_write_counter a = zlen Q) ->
  lb_data (writebuf_ c') = zdrop l (lb_data (writebuf_ c)) -> meter_write_bytes c' = u64 (meter_write_bytes c + l) ->
  captured Q (set_base c' a).
Proof.
  intros Hl (H1 & H2 & H3 & H4 & H5 & H6 & H7) Hp Hw Hm. unfold captured, wb, sent_bytes in *.
  cbn [base set_base mode_ signatures_ peek_write_counter] in *. rewrite Hw, Hm.
  assert (lb_size (writebuf_ c) = zlen Q - meter_write_bytes c) as Hs by (unfold lb_size; rewrite H5, zlen_zdrop; lia).
  unfold max_flow_size in *. rewrite u64_small by lia.
  split; [done|]. split; [done|]. split; [lia|]. split; [lia|].
  split; [rewrite H5; unfold zdrop; rewrite drop_drop; f_equal; lia|].
  split; [|exact H7]. intros Hne. specialize (Hp Hne). lia.
Qed.

Lemma as_app_ret {A B} i (m : M appcx A) (k : A -> M hostapp B) c w a r a' :
  w_cxs w !! i = Some c -> m (set_a_net (w_net w) (set_base c a)) = Ret r a' ->
  mbind_ (as_app i m) k (mkHostApp w a) = k r (mkHostApp (set_net (a_net a') (put_cx i (base a') w)) a').
Proof. intros Hc E. unfold mbind_, as_app. cbn [ha_world ha_app]. by rewrite Hc, E. Qed.
Lemma on_world_ret {A B} (m : M world A) (k : A -> M hostapp B) w a r w' :
  m w = Ret r w' -> mbind_ (on_world m) k (mkHostApp w a) = k r (mkHostApp w' a).
Proof. intros E. unfold mbind_, on_world. cbn [ha_world ha_app]. by rewrite E. Qed.

Lemma write_captured i Q h :
  captured_in i Q h -> exists r h', app_write i h = Ret r h' /\ captured_in i Q h'.
Proof.
  intros (c & Hc & Hnw & Hcap). destruct h as [w a]. cbn [ha_world ha_app] in *. unfold app_write, write_hooked.
  assert (write_waiting_for_peercom i w = Ret false w) as Ew.
  { pose proof (not_waiting_write i c w mret_ Hc Hnw) as H. unfold mbind_ in H.
    destruct (write_waiting_for_peercom i w) as [b w'| |]; [|done..]. by injection H as -> ->. }
  rewrite (on_world_ret _ _ _ _ _ _ Ew).
  assert (captured Q (set_a_net (w_net w) (set_base c a))) as Hcap0 by exact Hcap.
  destruct (pre_write_ret Q _ Hcap0) as (a1 & E1 & Hcap1 & B1 & Hp). change (base (set_a_net _ _)) with c in B1.
  rewrite (as_app_ret _ _ _ _ _ _ _ _ Hc E1), B1. set (w1 := set_net _ _).
  assert (w_cxs w1 !! i = Some c) as Hc1 by apply put_cx_lookup.
  destruct (com_write (w_net w1) (com_ c) (fds_ c) (lb_data (writebuf_ c))) as [[l k] n] eqn:Hio.
  pose proof (com_write_law _ _ _ _ _ _ _ Hio) as Hle. rewrite (on_world_ret _ _ _ _ _ _ (write_offer_ret i c w1 l k n Hc1 Hio)).
  set (c1 := set_com k (count_out c)). set (w2 := put_cx i c1 _). assert (w_cxs w2 !! i = Some c1) as Hc2 by apply put_cx_lookup.
  assert (lb_data (writebuf_ c1) = lb_data (writebuf_ c) /\ meter_write_bytes c1 = meter_write_bytes c /\
    write_waiting_for_peercom_ c1 = write_waiting_for_peercom_ c) as (F1 & F2 & F3)
    by (unfold c1, count_out; by case_if).
  assert (captured Q (set_base c1 a1)) as Hcapc.
  { apply (captured_base Q c); [|done|done]. revert Hcap1. unfold captured, wb, sent_bytes. cbn. by rewrite B1. }
  destruct (Z.ltb_spec 0 l) as [Hl|Hl].
  - rewrite !bind_assoc, (on_world_ret _ _ _ _ _ _ (write_metered_ret i c1 w2 l Hc2)), bind_assoc.
    set (c2 := wrote l (w_now w2) c1).
    assert (writebuf_ c2 = writebuf_ c1 /\ meter_write_bytes c2 = u64 (meter_write_bytes c1 + l) /\
      write_waiting_for_peercom_ c2 = write_waiting_for_peercom_ c1) as (G1 & G2 & G3)
      by (unfold c2, wrote, opening; by destruct (opening_ _)).
    destruct (post_write_ret (set_a_net (w_net (put_cx i c2 w2)) (set_base c2 a1))) as (a3 & E3 & (P1 & P2 & P3 & P4 & P5 & _) & Ps);
      [apply Hcap1|].
    rewrite (as_app_ret _ _ _ _ _ _ _ _ (put_cx_lookup i c2 w2) E3), P1. cbn [base set_a_net set_base]. set (w3 := set_net _ _).
    destruct (write_taken_ret i c2 w3 l) as (c3 & w4 & E4 & _ & Hw3 & _ & Hm3 & _ & Hwt3); [apply put_cx_lookup|].
    rewrite (on_world_ret _ _ _ _ _ _ E4). eexists _, _. split; [reflexivity|]. exists c3. cbn [ha_world ha_app].
    split; [apply put_cx_lookup|]. split; [by rewrite Hwt3, G3, F3|].
    assert (captured Q (set_base c1 a3)) as Hcap3.
    { unfold captured, wb, sent_bytes in *. cbn [base set_base mode_ signatures_ peek_write_counter] in *.
      change (the_flow (set_base c1 a3)) with (the_flow a3). rewrite P2, P4, P5, Ps. exact Hcapc. }
    apply (taken_captured Q l c1); [unfold lb_size; rewrite F1; lia|exact Hcap3| | |by rewrite Hm3, G2].
    + rewrite P4, P5. intros Hne. apply Hp; [exact Hne|]. change (wb (set_a_net _ _)) with (lb_data (writebuf_ c)). intros E.
      rewrite E, zlen_nil in Hle. lia.
    + rewrite Hw3, G1. apply lb_flush_written. unfold lb_size. rewrite F1. lia.
  - destruct (write_refused_ret i c1 w2 l Hc2) as (f & p & E2). rewrite (on_world_ret _ _ _ _ _ _ E2).
    eexists _, _. split; [reflexivity|]. eexists. split; [apply put_cx_lookup|]. split; [by rewrite <- Hnw, <- F3|].
    by apply (captured_base Q c1).
Qed.

(** [C30] Nothing is sent unseen. A context that records what it writes, with
    [opt_switch_to_continuous] on, whose signatures are objects, that is not in mode POST and not
    paused for writing; its record is right, that is, of all that was queued ([Q]) the bytes sent
    come first and the buffer holds the rest, and as long as it records the count recorded lies
    between those sent and all, the flow holding in mode PRE exactly that many first bytes of [Q].
    Whatever is queued by [to_write] and whenever [baseHostCX::write] runs with the hooks of this
    class, the com taking any part of what it is offered or failing, with all that is queued within
    [max_flow_size], every step returns and the record is right again: in mode PRE the
    flow holds, for the writing side, the first bytes of all that was ever queued, once each and in
    order, among them every byte that was sent.  [erase] of an end iterator, which a signature may
    reach, is taken to do something. *)
Theorem written_is_recorded i l Q h :
  captured_in i Q h -> zlen (Q ++ concat (queued <$> l)) <= max_flow_size ->
  exists h', run_wops i l h = Ret tt h' /\ captured_in i (Q ++ concat (queued <$> l)) h'.
Proof.
  revert Q h. induction l as [|o l IH]; intros Q h Hc Hmax.
  - exists h. cbn. by rewrite app_nil_r.
  - cbn [fmap list_fmap concat] in *. rewrite app_assoc in *.
    assert (exists h1, run_wop i o h = Ret tt h1 /\ captured_in i (Q ++ queued o) h1) as (h1 & E & H1).
    { destruct o as [d|]; cbn [run_wop queued] in *.
      - destruct Hc as (c & Hc & Hnw & Hcap). destruct h as [w a]. cbn [ha_world ha_app] in *.
        destruct (to_write_ret i c d w Hc) as [p E]. unfold on_world. cbn [ha_world ha_app]. rewrite E.
        eexists. split; [reflexivity|]. eexists. split; [apply put_cx_lookup|]. split; [exact Hnw|].
        apply queue_captured; [done|]. rewrite zlen_app in Hmax. pose proof (zlen_nonneg (concat (queued <$> l))). lia.
      - rewrite app_nil_r. destruct (write_captured i Q h Hc) as (r & h1 & E & H1). exists h1.
        by rewrite (bind_ret _ _ _ _ _ E). }
    cbn [run_wops]. rewrite (bind_ret _ _ _ _ _ E). by apply IH.
Qed.
End total.

(** ** The modes that fail *)

(** Inside the detection window, in plain numbers. *)
Definition in_window (a : appcx) : Prop :=
  0 <= meter_write_bytes (base a) /\ 0 <= meter_read_bytes (base a) /\
  meter_write_bytes (base a) + meter_read_bytes (base a) <= max_detect_bytes /\
  max_detect_bytes < 2 ^ 32 /\ flow_size (the_flow a) < max_exchanges.

Lemma in_window_ret a : in_window a -> inside_detect_ranges a = Ret true (set_appflow (the_flow a) a).
Proof.
  intros (H1 & H2 & H3 & H4 & H5). unfold inside_detect_ranges, flow. unfold mbind_ at 1. rewrite bind_gets. cbn zeta.
  change (base (set_appflow (the_flow a) a)) with (base a).
  rewrite u64_small, (proj2 (Z.leb_le _ _)), (proj2 (Z.ltb_lt _ _)) by lia. done.
Qed.

(** A view that starts before the buffer is refused. *)
Lemma view_before (d : bytes) k len a : 0 < k <= 2 ^ 63 -> zlen d < 2 ^ 63 -> view (u64 (- k)) len d a = Throw out_of_range a.
Proof.
  intros Hk Hd. unfold view. assert (u64 (- k) = 2 ^ 64 - k) as ->.
  { unfold wrapu. rewrite <- (Z.mod_add _ 1), Z.mod_small by lia. lia. }
  by rewrite (proj2 (Z.ltb_ge _ _)) by lia.
Qed.

(** More was sent than recorded: what is missing is not in the buffer any more. *)
Lemma missing_view a :
  0 <= peek_write_counter a < meter_write_bytes (base a) -> meter_write_bytes (base a) < 2 ^ 32 ->
  lb_size (writebuf_ (base a)) < 2 ^ 32 ->
  view (u64 (zlen (lb_data (writebuf_ (base a))) - write_delta a)) (zlen (lb_data (writebuf_ (base a))))
    (lb_data (writebuf_ (base a))) a = Throw out_of_range a /\ 0 < write_delta a.
Proof.
  unfold write_delta, lb_size. set (d := lb_data (writebuf_ (base a))). intros Hp Hm Hd. pose proof (zlen_nonneg d).
  rewrite (u64_small (meter_write_bytes (base a) + zlen d)), (u64_small (_ - peek_write_counter a)) by lia.
  split; [|lia].
  replace (zlen d - (meter_write_bytes (base a) + zlen d - peek_write_counter a))
    with (- (meter_write_bytes (base a) - peek_write_counter a)) by lia.
  apply view_before; lia.
Qed.

(** Mode POST cannot write.  The hook after a write runs when the meter counts
    the bytes sent and the buffer still holds them, so it counts them twice: inside the
    detection window the first write that sends anything ends in an exception, or, when
    nothing is in the flow yet, in taking the back of an empty queue. *)
Theorem post_mode_cannot_write i c w a l k n :
  mode_ a = POST -> w_cxs w !! i = Some c -> write_waiting_for_peercom_ c = false ->
  com_write (w_net w) (com_ c) (fds_ c) (lb_data (writebuf_ c)) = (l, k, n) -> 0 < l ->
  in_window (set_base (set_meter_write_bytes (meter_write_bytes c + l) c) a) ->
  0 <= peek_write_counter a <= meter_write_bytes c -> lb_size (writebuf_ c) < 2 ^ 32 ->
  match flow_queue (the_flow a) with
  | [] => app_write i (mkHostApp w a) = Undef
  | _ => exists h, app_write i (mkHostApp w a) = Throw out_of_range h
  end.
Proof.
  intros Hm Hc Hnw Hio Hl Hw Hp Hd. pose proof (com_write_law _ _ _ _ _ _ _ Hio) as Hle. unfold app_write, write_hooked.
  assert (write_waiting_for_peercom i w = Ret false w) as Ew.
  { pose proof (not_waiting_write i c w mret_ Hc Hnw) as H. unfold mbind_ in H.
    destruct (write_waiting_for_peercom i w) as [b w'| |]; [|done..]. by injection H as -> ->. }
  rewrite (on_world_ret _ _ _ _ _ _ Ew). set (a1 := set_a_net (w_net w) (set_base c a)).
  assert (pre_write a1 = Ret tt a1) as E1.
  { unfold pre_write, mbind_ at 1, get. destruct (lb_empty _); [done|]. rewrite decide_False; [done|].
    change (mode_ a1) with (mode_ a). rewrite Hm. by intros [|]. }
  rewrite (as_app_ret _ _ _ _ _ _ _ _ Hc E1). change (base a1) with c. change (a_net a1) with (w_net w).
  rewrite put_cx_id by done. assert (set_net (w_net w) w = w) as -> by (by destruct w).
  rewrite (on_world_ret _ _ _ _ _ _ (write_offer_ret i c w l k n Hc Hio)).
  set (c1 := set_com k (count_out c)). set (w2 := put_cx i c1 _). assert (w_cxs w2 !! i = Some c1) as Hc2 by apply put_cx_lookup.
  assert (writebuf_ c1 = writebuf_ c /\ meter_write_bytes c1 = meter_write_bytes c /\ meter_read_bytes c1 = meter_read_bytes c) as (F1 & F2 & F3)
    by (unfold c1, count_out; by case_if).
  rewrite (proj2 (Z.ltb_lt _ _) Hl). rewrite !bind_assoc, (on_world_ret _ _ _ _ _ _ (write_metered_ret i c1 w2 l Hc2)), bind_assoc.
  set (c2 := wrote l (w_now w2) c1).
  destruct Hw as (W1 & W2 & W3 & W4 & W5). cbn in W1, W2, W3. cbn [the_flow appflow_ set_base] in W5.
  assert (writebuf_ c2 = writebuf_ c /\ meter_write_bytes c2 = meter_write_bytes c + l /\ meter_read_bytes c2 = meter_read_bytes c) as (G1 & G2 & G3).
  { assert (writebuf_ c2 = writebuf_ c1 /\ meter_write_bytes c2 = u64 (meter_write_bytes c1 + l) /\ meter_read_bytes c2 = meter_read_bytes c1)
      as (-> & -> & ->) by (unfold c2, wrote, opening; destruct (opening_ c1) eqn:Eo; cbn [opening_ set_w_activity set_meter_write_count set_meter_write_bytes]; rewrite ?Eo; done).
    rewrite F1, F2, F3, u64_small by lia. done. }
  set (a2 := set_a_net (w_net (put_cx i c2 w2)) (set_base c2 a1)).
  assert (in_window a2) as Hw2.
  { split; [|split; [|split; [|split]]]; cbn [a2 base set_a_net set_base]; rewrite ?G2, ?G3; done. }
  assert (post_write a2 = match flow_queue (the_flow a) with [] => Undef | _ => Throw out_of_range (set_appflow (the_flow a2) a2) end) as E3.
  { unfold post_write. unfold mbind_ at 1, get at 1. change (base a2) with c2.
    assert (lb_empty (writebuf_ c2) = false) as -> by (unfold lb_empty, lb_size; rewrite G1; apply Z.eqb_neq; lia).
    rewrite decide_True by exact Hm. rewrite !bind_assoc, (bind_ret _ _ _ _ _ (in_window_ret a2 Hw2)). cbn [when].
    rewrite bind_assoc. unfold flow at 1. unfold mbind_ at 1.
    change (the_flow (set_appflow (the_flow a2) a2)) with (the_flow a).
    destruct (flow_queue (the_flow a)) as [|e q]; [done|].
    destruct (last (e :: q)) as [e'|] eqn:El; [|by apply last_None in El].
    rewrite bind_assoc. unfold mbind_ at 1, get. set (a3 := set_appflow _ _).
    change (base a3) with c2. change (lb_data (writebuf_ c2)) with (lb_data (writebuf_ (base a3))).
    destruct (missing_view a3) as [Hv _]; cbn [a3 a2 base set_appflow set_a_net set_base peek_write_counter];
      rewrite ?G1, ?G2; [change (peek_write_counter a1) with (peek_write_counter a); lia|lia|exact Hd|].
    cbv zeta. change (base a3) with c2 in Hv. rewrite G1 in Hv. rewrite bind_assoc. by rewrite (bind_throw _ _ _ _ _ Hv). }
  unfold mbind_, as_app. cbn [ha_world ha_app]. rewrite put_cx_lookup. fold a1 a2.
  change (set_a_net (w_net w2) (set_base c2 a1)) with a2. rewrite E3. destruct (flow_queue (the_flow a)); [done|by eexists].
Qed.

(** Recording cannot start late.  When mode PRE is turned on after bytes were
    sent without being recorded, the next write inside the detection window throws: the
    hook asks for the missing bytes, which have left the buffer. *)
Theorem late_recording_throws a :
  mode_ a = PRE -> in_window a -> wb a <> [] -> zlen (wb a) < 2 ^ 32 ->
  0 <= peek_write_counter a < sent_bytes a ->
  exists a', pre_write a = Throw out_of_range a'.
Proof.
  intros Hm Hw Hne Hd Hp. unfold pre_write, mbind_ at 1, get. unfold lb_empty, lb_size. fold (wb a).
  destruct (Z.eqb_spec (zlen (wb a)) 0) as [E|_].
  { destruct (wb a); [done|]. rewrite zlen_cons in E. pose proof (zlen_nonneg l). lia. }
  rewrite decide_True by (by left). unfold inside_detect_on_continue.
  rewrite bind_assoc, (bind_ret _ _ _ _ _ (in_window_ret a Hw)). cbn [negb]. rewrite bind_pure. cbn [when].
  set (a1 := set_appflow _ a). destruct Hw as (W1 & W2 & W3 & W4 & W5).
  destruct (missing_view a1) as [Hv Hpos]; [exact Hp|unfold a1; cbn; lia|exact Hd|].
  unfold record_written. rewrite bind_assoc. unfold mbind_ at 1, get.
  rewrite (proj2 (Z.ltb_lt _ _)) by exact Hpos. cbn [when]. rewrite bind_assoc, (bind_throw _ _ _ _ _ Hv). by eexists.
Qed.

(** ** Peeking *)

Lemma peek_all_once a r bs k n :
  let cap := chunk_capacity max_peek_one in
  com_peek (a_net a) (com_ (base a)) (fds_ (base a)) cap = (r, bs, k, n) ->
  0 < r < cap -> cap < 2 ^ 31 ->
  peek_all 10 (-1) (mkLockbuffer [] cap) a =
  Ret (r, mkLockbuffer bs cap) (set_a_net n (set_base (set_com k (base a)) a)).
Proof.
  intros cap E Hr Hc. cbn [peek_all]. unfold peek, mbind_. cbn [lb_cap]. rewrite E.
  rewrite (proj2 (Z.ltb_lt 0 r)) by lia. cbn [lb_cap].
  assert (s32 r = r) as -> by (apply wraps_small; lia). assert (s32 cap = cap) as -> by (apply wraps_small; lia).
  by rewrite (proj2 (Z.leb_gt r 0)), (proj2 (Z.ltb_lt r cap)) by lia.
Qed.

(** What the hook before a read records: in mode PRE, when no unrecorded bytes were
    read before and the socket shows fewer bytes than the peek buffer holds, the
    flow gets all of the bytes shown, for the reading side, and on a stream the read that
    follows may take no more than these. Nothing is left out for having been recorded
    already: when an earlier read took only a part of the bytes peeked at then
    ([peek_read_counter] is ahead of the meter), the rest is shown, and recorded, again. *)
Theorem pre_read_records_all_shown a r bs k n :
  (forall v, is_Some (erase_end v)) -> tree_nonnull (signatures_ a) ->
  mode_ a = PRE -> 0 <= meter_read_bytes (base a) <= peek_read_counter a ->
  meter_read_bytes (base a) < max_detect_bytes -> peek_read_counter a < 2 ^ 63 ->
  zlen (side_bytes side_r (the_flow a)) + zlen bs <= max_flow_size ->
  com_peek (a_net a) (com_ (base a)) (fds_ (base a)) (chunk_capacity max_peek_one) = (r, bs, k, n) ->
  0 < r < chunk_capacity max_peek_one -> chunk_capacity max_peek_one < 2 ^ 31 ->
  exists a', pre_read a = Ret tt a' /\
    side_bytes side_r (the_flow a') = side_bytes side_r (the_flow a) ++ bs /\
    side_bytes side_w (the_flow a') = side_bytes side_w (the_flow a) /\
    peek_read_counter a' = peek_read_counter a + zlen bs /\
    read_limit_ (base a') = (if l4_proto a =? SOCK_DGRAM then None else Some r) /\
    readbuf_ (base a') = readbuf_ (base a).
Proof.
  intros Her Hn Hm Hb Hd Hp Hmax E Hr Hc. destruct (com_peek_law _ _ _ _ _ _ _ _ E) as [_ Hz]. specialize (Hz ltac:(lia)).
  unfold pre_read. rewrite bind_gets, decide_True by done.
  set (a1 := set_appflow (the_flow a) a).
  assert (salvage_readbuf a = Ret false a1) as Es.
  { unfold salvage_readbuf. destruct (inside_ranges_ret a) as [b Ei]. rewrite (bind_ret _ _ _ _ _ Ei), bind_gets.
    cbn. rewrite (proj2 (Z.ltb_ge _ _)) by lia. by rewrite andb_false_r. }
  rewrite (bind_ret _ _ _ _ _ Es).
  assert (exists a2, peek_socket a1 = Ret true a2 /\ the_flow a2 = snd (flow_append side_r bs (the_flow a)) /\
    peek_read_counter a2 = peek_read_counter a + r /\ signatures_ a2 = signatures_ a /\
    read_limit_ (base a2) = (if l4_proto a =? SOCK_DGRAM then None else Some r) /\
    readbuf_ (base a2) = readbuf_ (base a)) as (a2 & Ep & F1 & F2 & F3 & F4 & F5).
  { unfold peek_socket. rewrite bind_gets. change (base a1) with (base a). rewrite (proj2 (Z.ltb_lt _ _)) by done.
    rewrite (bind_ret _ _ _ _ _ (peek_all_once a1 r bs k n E Hr Hc)). cbn beta iota.
    rewrite (proj2 (Z.ltb_ge r 0)), (proj2 (Z.ltb_lt 0 r)) by lia. unfold append_flow, on_flow.
    rewrite !bind_modify, bind_gets. cbn [l4_proto]. unfold max_flow_size in Hmax.
    destruct (Z.eqb_spec (l4_proto a) SOCK_DGRAM) as [Hdg|Hdg]; eexists.
    - split; [unfold a1; cbn; rewrite Hdg; reflexivity|]. cbn. rewrite u64_small by lia. by repeat split.
    - split; [unfold a1; cbn; rewrite (proj2 (Z.eqb_neq _ _) Hdg); reflexivity|]. cbn. rewrite u64_small by lia.
      unfold read_limit. rewrite (proj2 (Z.eqb_neq r 0)) by lia. by repeat split. }
  rewrite (bind_ret _ _ _ _ _ Ep). cbn [orb when].
  destruct (detects_and_inspects Her side_r a2) as ([] & a3 & E3 & (A1 & A2 & A3 & _) & _); [by rewrite F3|].
  exists a3. split; [exact E3|]. rewrite A1, A2, A3, F1, F2, F4, F5, Hz.
  split; [by apply side_bytes_append_same|]. split; [by apply side_bytes_append_other|]. by repeat split.
Qed.

(** ** Reports *)

(** A signature's state after a round over a flow. *)
Definition examined (f : duplexFlow) (x x' : flowMatchState * option duplexFlowMatch) : Prop :=
  snd x' = snd x /\
  if hit_ (fst x) then fst x' = fst x
  else exists g b st, snd x = Some g /\ flow_match g f (state_ (fst x)) = Ret b st /\ fst x' = mkState b st.

Definition report (x x' : flowMatchState * option duplexFlowMatch) : list call :=
  if negb (hit_ (fst x)) && hit_ (fst x') then [OnDetect (snd x) (ranges_ (state_ (fst x')))] else [].

(** A signature is reported exactly once: a round of detection that returns has
    matched every signature not yet hit against the flow, from its own state, and left the
    hit ones alone; the callbacks it made are those of the signatures that were hit in this
    round, in order, and it answers whether there were any.  Since a hit stays a hit, no
    later round reports it again. *)
Theorem detection_reports_once f s l s' m l' :
  detect_entries f s l = Ret (s', m) l' ->
  Forall2 (examined f) s s' /\ l' = l ++ concat (zip_with report s s') /\
  (m = true <-> concat (zip_with report s s') <> []).
Proof.
  revert l s' m l'. induction s as [|[st o] s IH]; intros l s' m l' E; cbn [detect_entries] in E.
  { injection E as <- <- <-. cbn. rewrite app_nil_r. by repeat split. }
  destruct (hit_ st) eqn:Hh.
  - apply bind_inv in E as ([s1 m1] & l1 & E1 & E). injection E as <- <- <-.
    destruct (IH _ _ _ _ E1) as (H1 & H2 & H3). cbn [zip_with concat]. unfold report at 1 3.
    cbn [fst snd]. rewrite Hh. cbn [negb andb app].
    split; [|by split]. constructor; [|done]. split; [done|]. cbn. by rewrite Hh.
  - apply bind_inv in E as ([r st1] & l1 & E1 & E). unfold fms_update in E1.
    destruct o as [g|]; [|done]. destruct (flow_match g f (state_ st)) as [b ms|? ?|] eqn:Em; [|done|done].
    injection E1 as <- <- <-. cbn [state_] in E. apply bind_inv in E as (u & l2 & E2 & E).
    assert (l2 = l ++ report (st, Some g) (mkState b ms, Some g)) as ->.
    { unfold report. cbn. rewrite Hh. destruct b; [by injection E2|]. injection E2 as _ <-. cbn. by rewrite app_nil_r. }
    apply bind_inv in E as ([s1 m1] & l3 & E3 & E). injection E as <- <- <-.
    destruct (IH _ _ _ _ E3) as (H1 & H2 & H3). cbn [zip_with concat].
    split; [|split].
    + constructor; [|done]. split; [done|]. cbn. rewrite Hh. by exists g, b, ms.
    + by rewrite H2, <- app_assoc.
    + unfold report at 1. cbn [fst snd hit_]. rewrite Hh. destruct b; cbn; [by split|]. exact H3.
Qed.
End app.

(** ** The theorems on a concrete context

    The com of [HostCXProps]; peeking shows the bytes its socket holds. *)

#[export] Program Instance demo_peek : Peek := {|
  com_peek n k s m :=
    let r := Z.min m (zlen n) in (if r <=? 0 then Z.min m (-1) else r, ztake r n, k, n)
|}.
Next Obligation.
  intros n k s m r bs c' n' E. simpl in E. injection E as <- <- <- <-.
  pose proof (zlen_nonneg n). destruct (Z.leb_spec (Z.min m (zlen n)) 0); split; try lia.
  intros _. apply zlen_ztake. lia.
Qed.

#[local] Existing Instance dropping_erase.
#[local] Existing Instance default_config.

Definition demo_tree : SignatureTree := match tree_new 2 with Ret _ t => t | _ => tree0 end.

Lemma demo_tree_nonnull : tree_nonnull demo_tree.
Proof.
  intros i s. unfold sensor_at.
  change (sensors_ demo_tree) with (Some [] :: Some [] :: replicate 126 (None : option sensorType)).
  destruct (Z.to_nat i) as [|[|n]]; cbn [lookup list_lookup]; [by intros [= <-]; constructor..|].
  destruct (replicate 126 None !! n) eqn:E; cbn; [|done]. apply lookup_replicate in E as [-> _]. done.
Qed.

(** A context with some bytes in its write buffer, in a mode. *)
Definition demo_app (m : mode_t) (net : bytes) (out : bytes) (sent : Z) : appcx :=
  set_mode m (app_new (set_meter_write_bytes sent (demo_cx 7 0 false out)) net SOCK_STREAM true demo_tree).

Definition demo_host (m : mode_t) (out : bytes) (sent : Z) : hostapp :=
  let a := demo_app m [] out sent in
  mkHostApp (mkWorld {[1 := base a]} (mkEpoller None ∅ ∅) [] 100 ∅ false) a.

Lemma written_is_recorded_witness :
  exists h', run_wops 1 [Queue [1; 2; 3; 4]; Write; Queue [5]; Write] (demo_host PRE [] 0) = Ret tt h' /\
    captured_in 1 [1; 2; 3; 4; 5] h'.
Proof.
  apply (written_is_recorded ltac:(by eexists) eq_refl 1
           [Queue [1; 2; 3; 4]; Write; Queue [5]; Write] [] (demo_host PRE [] 0)).
  - exists (base (demo_app PRE [] [] 0)). split; [done|]. split; [done|].
    split; [done|]. split; [exact demo_tree_nonnull|]. split; [by vm_compute|].
    split; [by vm_compute|]. split; [done|]. split; [intros _; by vm_compute|done].
  - by vm_compute.
Defined.

Lemma post_mode_cannot_write_witness :
  exists h, app_write 1 (mkHostApp (ha_world (demo_host POST [1; 2] 0))
    (set_appflow (demo_flow [(side_r, [1])]) (demo_app POST [] [1; 2] 0))) = Throw out_of_range h.
Proof.
  set (a := set_appflow (demo_flow [(side_r, [1])]) (demo_app POST [] [1; 2] 0)).
  apply (post_mode_cannot_write 1 (base a) (ha_world (demo_host POST [1; 2] 0)) a 2 (com_ (base a)) []); try reflexivity; by vm_compute.
Defined.

Lemma late_recording_throws_witness :
  exists a', pre_write (demo_app PRE [] [1; 2] 5) = Throw out_of_range a'.
Proof.
  apply late_recording_throws; try done; by vm_compute.
Defined.

Lemma pre_read_records_all_shown_witness :
  exists a', pre_read (set_peek_read 2 (demo_app PRE [8; 9] [] 0)) = Ret tt a' /\
    side_bytes side_r (the_flow a') = [8; 9] /\ read_limit_ (base a') = Some 2.
Proof.
  destruct (pre_read_records_all_shown (set_peek_read 2 (demo_app PRE [8; 9] [] 0)) 2 [8; 9] (set_fd 7 com_default) [8; 9])
    as (a' & E & H1 & _ & _ & H2 & _); try reflexivity; try (by vm_compute).
  - by eexists.
  - exact demo_tree_nonnull.
  - by exists a'.
Defined.

Lemma detection_reports_once_witness :
  let f := demo_flow [(1, [72; 73]); (2, [79])] in
  let s := [(fms_new, Some demo_chain)] in
  exists s' l', detect_entries f s [] = Ret (s', true) l' /\
    Forall2 (examined f) s s' /\ l' = concat (zip_with report s s') /\ l' <> [].
Proof.
  intros f s. eexists _, _. split; [by vm_compute|].
  edestruct (detection_reports_once f s []) as (H1 & H2 & H3); [by vm_compute|].
  split; [exact H1|]. split; [exact H2|]. done.
Defined.
