(* ===== verification/SockInfo.v ===== *)
(** * SockInfo: addresses and address pairs (src/socketinfo.hpp, src/socketinfo.cpp)

    A [sockaddr_storage] is its 128 bytes of memory.  The address printing and parsing of the
    C library, the random generator and the socket system calls are parameters. *)

From S2P Require Export Effects.

Definition AF_INET : Z := 2.
Definition AF_INET6 : Z := 10.
Definition SOCK_STREAM : Z := 1.
Definition SOCK_DGRAM : Z := 2.

(** inet_pton(3) and inet_ntop(3); a generator seeded with a [seed_seq], asked for one number of
    the default [uniform_int_distribution]. *)
Class Inet : Type := {
  inet_pton : Z -> bytes -> option bytes;
  inet_ntop : Z -> bytes -> bytes;
  seeded_dist : list Z -> Z
}.

(** What the code relies on: the width of the addresses, the reading back of a printed address,
    and the range 0 .. INT_MAX of the distribution. *)
Class InetOk `{!Inet} : Prop := {
  pton_v4_width : forall h a, inet_pton AF_INET h = Some a -> zlen a = 4 /\ all_bytes a;
  pton_v6_width : forall h a, inet_pton AF_INET6 h = Some a -> zlen a = 16 /\ all_bytes a;
  pton_ntop_v4 : forall a, zlen a = 4 -> all_bytes a -> inet_pton AF_INET (inet_ntop AF_INET a) = Some a;
  pton_ntop_v6 : forall a, zlen a = 16 -> all_bytes a -> inet_pton AF_INET6 (inet_ntop AF_INET6 a) = Some a;
  dist_range : forall s, 0 <= seeded_dist s < 2 ^ 31
}.

(** ** The memory of a [sockaddr_storage] *)

Definition sockaddr_size : Z := 128.

(** [ss_family], a native-order [sa_family_t]; [sin_port] and [sin6_port], in network order. *)
Definition ss_family (s : bytes) : Z := le_value (at_off 0 2 s).
Definition sin_port (s : bytes) : bytes := at_off 2 2 s.
Definition sin_addr (s : bytes) : bytes := at_off 4 4 s.
Definition sin6_addr (s : bytes) : bytes := at_off 8 16 s.

Definition zero_ss : bytes := zrep sockaddr_size 0.

(** A write of an address only when the text is one. *)
Definition put_addr (off : Z) (a : option bytes) (s : bytes) : bytes :=
  match a with Some v => put_at off v s | None => s end.

Section sockinfo.
Context {IN : Inet}.

Definition pack_ss (family : Z) (host : bytes) (port : Z) : bytes :=
  if family =? AF_INET6 then
    put_at 2 (be_bytes 2 port) (put_at 0 (le_bytes 2 AF_INET6)
      (put_addr 8 (inet_pton AF_INET6 host) zero_ss))
  else
    put_at 2 (be_bytes 2 port) (put_at 0 (le_bytes 2 AF_INET)
      (put_addr 4 (inet_pton AF_INET host) zero_ss)).

(** ["::ffff:"] *)
Definition mapped_prefix : bytes := [58; 58; 102; 102; 102; 102; 58].

(** [ss_address_unpack]: family, text and port. *)
Definition ss_address_unpack (ptr : bytes) : Z * bytes * Z :=
  let family := ss_family ptr in
  let '(b, val_port) :=
    if family =? AF_INET6 then (inet_ntop family (sin6_addr ptr), be_value (sin_port ptr))
    else if family =? AF_INET then (inet_ntop family (sin_addr ptr), be_value (sin_port ptr))
    else ([], 0) in
  if bool_decide (ztake 7 b = mapped_prefix) then (AF_INET, zdrop 7 b, val_port)
  else (family, b, val_port).

(** [ss_address_remap]: the family and what [mapped] holds then. *)
Definition ss_address_remap (orig mapped : bytes) : Z * bytes :=
  let '(fa, ip_part, port_part) := ss_address_unpack orig in
  if fa =? AF_INET then
    (fa, put_at 0 (le_bytes 2 fa) (put_at 2 (be_bytes 2 port_part) (put_addr 4 (inet_pton fa ip_part) mapped)))
  else if fa =? AF_INET6 then
    (fa, put_at 0 (le_bytes 2 fa) (put_at 2 (be_bytes 2 port_part) (put_addr 8 (inet_pton fa ip_part) mapped)))
  else (fa, mapped).

(** ** [AddressInfo] and [SocketInfo] *)

Record AddressInfo : Type := mkAddr {
  ss : option bytes;
  family : Z;
  str_host : bytes;
  port : Z
}.
Definition default_addr : AddressInfo := mkAddr None AF_INET [] 0.

Definition addr_pack (a : AddressInfo) : AddressInfo :=
  mkAddr (Some (pack_ss (family a) (str_host a) (port a))) (family a) (str_host a) (port a).

Definition addr_unpack : M AddressInfo unit :=
  a <- get ;;
  match ss a with
  | None => throw runtime_error
  | Some s => let '(f, h, p) := ss_address_unpack s in put (mkAddr (Some s) f h p)
  end.

Record SocketInfo : Type := mkSock { si_src : AddressInfo; si_dst : AddressInfo }.

Definition si_pack (i : SocketInfo) : SocketInfo := mkSock (addr_pack (si_src i)) (addr_pack (si_dst i)).
Definition si_pack_src (i : SocketInfo) : SocketInfo := mkSock (addr_pack (si_src i)) (si_dst i).
Definition si_pack_dst (i : SocketInfo) : SocketInfo := mkSock (si_src i) (addr_pack (si_dst i)).

(** ** Session keys *)

(** The four-byte words of an address, as the machine reads them. *)
Definition word32 (i : Z) (a : bytes) : Z := le_value (at_off (4 * i) 4 a).

Definition set_sign (negative : bool) (mirand : Z) : Z :=
  if negative then Z.lor mirand (2 ^ 31) else Z.land mirand (Z.lnot (2 ^ 31)).

Definition create_session_key4 (from orig : bytes) (negative : bool) : Z :=
  set_sign negative
    (seeded_dist [word32 0 (sin_addr from); word32 0 (sin_addr orig);
                  be_value (sin_port from); be_value (sin_port orig)]).

Definition create_session_key6 (from orig : bytes) (negative : bool) : Z :=
  let s i := word32 i (sin6_addr from) in
  let d i := word32 i (sin6_addr orig) in
  set_sign negative
    (seeded_dist [s 0; d 0; s 1; d 1; s 2; d 2; s 3; d 3; be_value (sin_port from); be_value (sin_port orig)]).

Definition ensure_packed (a : AddressInfo) : AddressInfo :=
  match ss a with None => addr_pack a | Some _ => a end.

(** [create_session_key]: the key and the pair as it is left. *)
Definition create_session_key (i : SocketInfo) (negative : bool) : Z * SocketInfo :=
  let i := mkSock (ensure_packed (si_src i)) (ensure_packed (si_dst i)) in
  let from := default [] (ss (si_src i)) in
  let orig := default [] (ss (si_dst i)) in
  (if family (si_src i) =? AF_INET6 then create_session_key6 from orig negative
   else create_session_key4 from orig negative, i).
End sockinfo.

(** ** Sockets *)

Definition SOL_SOCKET : Z := 1.
Definition SOL_IP : Z := 0.
Definition SOL_IPV6 : Z := 41.
Definition SO_REUSEADDR : Z := 2.
Definition SO_BROADCAST : Z := 6.
Definition SO_BINDTODEVICE : Z := 25.
Definition IP_RECVORIGDSTADDR : Z := 20.
Definition IP_TRANSPARENT : Z := 19.
Definition IPV6_TRANSPARENT : Z := 75.
Definition O_NONBLOCK : Z := 2048.

(** socket(2), setsockopt(2), fcntl(2) with F_GETFL and F_SETFL, bind(2), connect(2), close(2). *)
Class SockSys : Type := {
  sk : Type;
  sk_socket : Z -> Z -> Z -> sk -> Z * sk;
  sk_setsockopt : Z -> Z -> Z -> bytes -> sk -> Z * sk;
  sk_getfl : Z -> sk -> Z * sk;
  sk_setfl : Z -> Z -> sk -> Z * sk;
  sk_bind : Z -> bytes -> sk -> Z * sk;
  sk_connect : Z -> bytes -> sk -> Z * sk;
  sk_close : Z -> sk -> Z * sk
}.

Section sockets.
Context {IN : Inet} {SK : SockSys}.

Definition syscall (f : sk -> Z * sk) : M sk Z := fun w => let '(r, w') := f w in Ret r w'.
(** A call whose non-zero result is an error of the code. *)
Definition must (f : sk -> Z * sk) : M sk unit :=
  r <- syscall f ;; when (negb (r =? 0)) (throw runtime_error).

(** [int n = 1] *)
Definition one : bytes := le_bytes 4 1.

Definition socket_create (family l4proto protocol : Z) : M sk Z :=
  fd <- syscall (sk_socket family l4proto protocol) ;;
  when (fd <? 0) (throw runtime_error) ;;;
  must (sk_setsockopt fd SOL_SOCKET SO_REUSEADDR one) ;;;
  must (sk_setsockopt fd SOL_IP IP_RECVORIGDSTADDR one) ;;;
  must (sk_setsockopt fd SOL_IP SO_BROADCAST one) ;;;
  oldf <- syscall (sk_getfl fd) ;;
  when (Z.land oldf O_NONBLOCK =? 0)
    (r <- syscall (sk_setfl fd (Z.lor oldf O_NONBLOCK)) ;; when (r <? 0) (throw runtime_error)) ;;;
  mret_ fd.

Definition socket_transparent (fd family : Z) : M sk unit :=
  if family =? AF_INET then must (sk_setsockopt fd SOL_IP IP_TRANSPARENT one)
  else if family =? AF_INET6 then must (sk_setsockopt fd SOL_IPV6 IPV6_TRANSPARENT one)
  else throw runtime_error.

(** ["lo"] *)
Definition lo : bytes := [108; 111].

Definition plug_socket (fd : Z) (bind_ss connect_ss : bytes) : M sk unit :=
  let is_six := ss_family connect_ss =? AF_INET6 in
  when (negb is_six) (must (sk_setsockopt fd SOL_SOCKET SO_BINDTODEVICE lo)) ;;;
  must (sk_bind fd bind_ss) ;;;
  must (sk_connect fd connect_ss) ;;;
  when (negb is_six) (must (sk_setsockopt fd SOL_SOCKET SO_BINDTODEVICE [])).

(** [create_socket_left]: the descriptor and the packed pair. *)
Definition create_socket_left (i : SocketInfo) (l4_proto : Z) : M sk (Z * SocketInfo) :=
  fd_left <- socket_create (family (si_src i)) l4_proto 0 ;;
  socket_transparent fd_left (family (si_src i)) ;;;
  let i := si_pack i in
  plug_socket fd_left (default [] (ss (si_dst i))) (default [] (ss (si_src i))) ;;;
  mret_ (fd_left, i).
End sockets.
