(* ===== verification/SockInfoProps.v ===== *)
(** * SockInfoProps: addresses keep their widths, packing and session keys *)

From S2P Require Export SockInfo.

Ltac Zify.zify_post_hook ::= Z.to_euclidean_division_equations.

(** ** The memory of addresses *)

Definition ss_ok (s : bytes) : Prop := zlen s = sockaddr_size /\ all_bytes s.
Definition addr_ok (a : AddressInfo) : Prop := from_option ss_ok True (ss a).
Definition sock_ok (i : SocketInfo) : Prop := addr_ok (si_src i) /\ addr_ok (si_dst i).

(** The fields of a [sockaddr_storage] have their widths. *)
Lemma ss_fields s : ss_ok s ->
  (zlen (sin_port s) = 2 /\ all_bytes (sin_port s)) /\
  (zlen (sin_addr s) = 4 /\ all_bytes (sin_addr s)) /\
  (zlen (sin6_addr s) = 16 /\ all_bytes (sin6_addr s)).
Proof.
  intros [Hl Hb]. unfold sockaddr_size in Hl.
  repeat (split; [split; [apply zlen_at_off; lia | by apply all_bytes_at_off] |]).
  split; [apply zlen_at_off; lia | by apply all_bytes_at_off].
Qed.

Section packing.
Context {IN : Inet} {IK : InetOk}.

Lemma put_addr_ok o fam h (s : bytes) :
  0 <= o -> (fam = AF_INET /\ o <= 124 \/ fam = AF_INET6 /\ o <= 112) -> ss_ok s ->
  ss_ok (put_addr o (inet_pton fam h) s).
Proof.
  intros Ho Hf [Hl Hb]. unfold sockaddr_size in Hl.
  destruct (inet_pton fam h) as [a |] eqn:E; [|done]. cbn [put_addr].
  assert (Ha : (zlen a = 4 \/ zlen a = 16 /\ o <= 112) /\ all_bytes a /\ o <= 124).
  { destruct Hf as [[-> ?] | [-> ?]]; [apply pton_v4_width in E | apply pton_v6_width in E];
      destruct E; (split; [lia | split; [done | lia]]). }
  destruct Ha as (Hw & ? & ?).
  split; [rewrite zlen_put_at; [done | done | lia] | by apply all_bytes_put_at].
Qed.

Lemma pack_ss_ok f h p : ss_ok (pack_ss f h p).
Proof.
  assert (Hput : forall o v s, ss_ok s -> all_bytes v -> 0 <= o -> o + zlen v <= 128 -> ss_ok (put_at o v s)).
  { intros o v s [Hl Hb] Hv Ho Hov. unfold sockaddr_size in *.
    split; [unfold sockaddr_size; rewrite zlen_put_at; lia | by apply all_bytes_put_at]. }
  assert (Hz : ss_ok zero_ss).
  { split; [unfold zero_ss; by rewrite zlen_zrep | apply all_bytes_zrep; unfold is_byte; lia]. }
  unfold pack_ss. destruct (f =? AF_INET6);
    (apply Hput; [| apply all_bytes_be_bytes | done | by rewrite zlen_be_bytes]);
    (apply Hput; [| apply all_bytes_le_bytes | done | by rewrite zlen_le_bytes]);
    apply put_addr_ok; try done; lia || (left; split; [done | lia]) || (right; split; [done | lia]).
Qed.

Lemma si_pack_ok i : sock_ok (si_pack i).
Proof. split; apply pack_ss_ok. Qed.
End packing.

Section roundtrip.
Context {IN : Inet} {IK : InetOk}.

(** What a packed address holds, field by field. *)
Lemma pack_ss_fields (f : Z) h p :
  let s := pack_ss f h p in
  ss_family s = (if f =? AF_INET6 then AF_INET6 else AF_INET) /\
  sin_port s = be_bytes 2 p /\
  ((f =? AF_INET6) = true -> forall a, inet_pton AF_INET6 h = Some a -> sin6_addr s = a) /\
  ((f =? AF_INET6) = false -> forall a, inet_pton AF_INET h = Some a -> sin_addr s = a).
Proof.
  intros s. pose proof (pack_ss_ok f h p) as [Hs _]. unfold sockaddr_size in Hs.
  assert (Hz : ss_ok zero_ss).
  { split; [unfold zero_ss; by rewrite zlen_zrep | apply all_bytes_zrep; unfold is_byte; lia]. }
  assert (H6 : zlen (put_addr 8 (inet_pton AF_INET6 h) zero_ss) = 128).
  { apply (put_addr_ok 8 AF_INET6); [done | right; split; [done | lia] | done]. }
  assert (H4 : zlen (put_addr 4 (inet_pton AF_INET h) zero_ss) = 128).
  { apply (put_addr_ok 4 AF_INET); [done | left; split; [done | lia] | done]. }
  pose proof (zlen_be_bytes 2 p) as Lp.
  unfold s, pack_ss. destruct (f =? AF_INET6); (split; [| split; [| split]]); try done;
    unfold ss_family, sin_port, sin_addr, sin6_addr.
  - intros _ a Ha. pose proof (pton_v6_width _ _ Ha) as [La _]. rewrite Ha in *. cbn [put_addr] in *.
    assert (Lz : zlen zero_ss = 128) by apply Hz.
    rewrite !at_off_put_other by (rewrite ?zlen_put_at; rewrite ?zlen_le_bytes, ?zlen_put_at; lia).
    apply at_off_put; [done | done | lia].
  - intros _ a Ha. pose proof (pton_v4_width _ _ Ha) as [La _]. rewrite Ha in *. cbn [put_addr] in *.
    assert (Lz : zlen zero_ss = 128) by apply Hz.
    rewrite !at_off_put_other by (rewrite ?zlen_put_at; rewrite ?zlen_le_bytes, ?zlen_put_at; lia).
    apply at_off_put; [done | done | lia].
Qed.

(** An address and port unpacked from a socket address and packed again are
    the same family, port and address, for both families, whenever the printed text is not that of
    an IPv4 address mapped into IPv6. *)
Theorem address_roundtrip s f h p :
  ss_ok s -> (ss_family s = AF_INET \/ ss_family s = AF_INET6) ->
  ss_address_unpack s = (f, h, p) ->
  ztake 7 (inet_ntop (ss_family s) (if ss_family s =? AF_INET6 then sin6_addr s else sin_addr s)) <> mapped_prefix ->
  ss_family (pack_ss f h p) = ss_family s /\ f = ss_family s /\
  sin_port (pack_ss f h p) = sin_port s /\
  (if f =? AF_INET6 then sin6_addr (pack_ss f h p) = sin6_addr s else sin_addr (pack_ss f h p) = sin_addr s).
Proof.
  intros Hs Hf Hu Hm. destruct (ss_fields s Hs) as ((Lp & Bp) & (L4 & B4) & (L6 & B6)).
  unfold ss_address_unpack in Hu.
  assert (Hport : be_bytes 2 (be_value (sin_port s)) = sin_port s).
  { rewrite zlen_length in Lp. rewrite <- (be_bytes_be_value (sin_port s)) at 2 by done. f_equal. lia. }
  destruct Hf as [Hf | Hf]; rewrite Hf in *; cbn in Hm; cbn in Hu;
    rewrite bool_decide_eq_false_2 in Hu by done; injection Hu as <- <- <-.
  - destruct (pack_ss_fields AF_INET (inet_ntop AF_INET (sin_addr s)) (be_value (sin_port s)))
      as (E1 & E2 & _ & E4).
    split; [done|]. split; [done|]. split; [by rewrite E2|].
    apply E4; [done|]. by apply pton_ntop_v4.
  - destruct (pack_ss_fields AF_INET6 (inet_ntop AF_INET6 (sin6_addr s)) (be_value (sin_port s)))
      as (E1 & E2 & E3 & _).
    split; [done|]. split; [done|]. split; [by rewrite E2|].
    apply E3; [done|]. by apply pton_ntop_v6.
Qed.

(** A key has its sign bit exactly when it was asked for. *)
Lemma set_sign_spec n k : 0 <= k < 2 ^ 31 -> set_sign n k = if n then k + 2 ^ 31 else k.
Proof.
  intros Hk. unfold set_sign. destruct n.
  - replace (k + 2 ^ 31) with (Z.lor k (2 ^ 31)); [done|].
    rewrite Z.add_nocarry_lxor, Z.lxor_lor; [done | |];
      (apply Z.bits_inj'; intros i Hi; rewrite Z.land_spec, Z.bits_0, Z.pow2_bits_eqb by lia;
       destruct (Z.eqb_spec 31 i) as [<- | ?]; [| by rewrite andb_false_r];
       rewrite andb_true_r; apply Z.testbit_false; [done | rewrite Z.div_small; [done | lia]]).
  - apply Z.bits_inj'. intros i Hi. rewrite Z.land_spec, Z.lnot_spec, Z.pow2_bits_eqb by lia.
    destruct (Z.eqb_spec 31 i) as [<- | ?]; [| by rewrite andb_true_r].
    rewrite andb_false_r. symmetry. apply Z.testbit_false; [done | rewrite Z.div_small; [done | lia]].
Qed.

(** Keys of virtual sockets are never descriptors and the other way round. *)
Lemma session_key_sign i n :
  let k := fst (create_session_key i n) in
  if n then 2 ^ 31 <= k < 2 ^ 32 else 0 <= k < 2 ^ 31.
Proof.
  cbn. unfold create_session_key4, create_session_key6.
  destruct (_ =? AF_INET6); rewrite set_sign_spec by apply dist_range;
    match goal with |- context [seeded_dist ?l] => pose proof (dist_range l) end; destruct n; lia.
Qed.
End roundtrip.

(** ** A concrete C library: an address prints as its own bytes *)

Definition raw_pton (fam : Z) (h : bytes) : option bytes :=
  if (zlen h =? (if fam =? AF_INET6 then 16 else 4)) && forallb (fun b => (0 <=? b) && (b <? 256)) h
  then Some h else None.

Definition raw_inet : Inet := {|
  inet_pton := raw_pton;
  inet_ntop := fun _ a => a;
  seeded_dist := fun l => foldr Z.add 0 l mod 2 ^ 31
|}.

Lemma forallb_bytes h : forallb (fun b => (0 <=? b) && (b <? 256)) h = true <-> all_bytes h.
Proof.
  rewrite List.Forall_forall, forallb_forall. unfold is_byte.
  split; intros H b Hb; specialize (H b Hb); [apply andb_prop in H as [H1 H2] | apply andb_true_intro]; lia.
Qed.

Lemma raw_inet_ok : @InetOk raw_inet.
Proof.
  assert (W : forall fam h a, raw_pton fam h = Some a ->
    zlen a = (if fam =? AF_INET6 then 16 else 4) /\ all_bytes a).
  { intros fam h a. unfold raw_pton. destruct (_ && _) eqn:E; [|done]. intros [= <-].
    apply andb_prop in E as [E1 E2]. split; [lia | by apply forallb_bytes]. }
  assert (R : forall fam a, zlen a = (if fam =? AF_INET6 then 16 else 4) -> all_bytes a -> raw_pton fam a = Some a).
  { intros fam a Ha Hb. unfold raw_pton. rewrite Ha, Z.eqb_refl. by rewrite (proj2 (forallb_bytes a) Hb). }
  split.
  - intros h a H. by apply (W AF_INET h).
  - intros h a H. by apply (W AF_INET6 h).
  - intros a Ha Hb. by apply (R AF_INET).
  - intros a Ha Hb. by apply (R AF_INET6).
  - intros s. apply Z.mod_pos_bound. done.
Qed.

Definition sample_ss : bytes := @pack_ss raw_inet AF_INET [10; 0; 0; 1] 443.

Lemma address_roundtrip_witness :
  ss_family (@pack_ss raw_inet AF_INET [10; 0; 0; 1] 443) = ss_family sample_ss /\ AF_INET = ss_family sample_ss /\
  sin_port (@pack_ss raw_inet AF_INET [10; 0; 0; 1] 443) = sin_port sample_ss /\
  sin_addr (@pack_ss raw_inet AF_INET [10; 0; 0; 1] 443) = sin_addr sample_ss.
Proof.
  apply (@address_roundtrip raw_inet raw_inet_ok sample_ss AF_INET [10; 0; 0; 1] 443).
  - apply (@pack_ss_ok raw_inet raw_inet_ok).
  - left. vm_compute. reflexivity.
  - vm_compute. reflexivity.
  - vm_compute. discriminate.
Defined.
