(* ===== verification/Pcap.v ===== *)
(** * Pcap: packet captures (src/traflog/pcapapi.hpp, src/traflog/pcapapi.cpp)

    Frames of the pcap and pcapng formats, with the LCC, GRE, IP, TCP and UDP headers faked
    around a payload.  An output buffer is its bytes; a header struct is a record of its fields
    and its bytes in memory on a little-endian machine; fields of addresses and ports are the
    network-order bytes the code copies. *)

From S2P Require Export SockInfo.

Definition TCP : Z := 6.
Definition UDP : Z := 17.
Definition GRE : Z := 47.
Definition IPPROTO_GRE : Z := 47.

Definition sizeof_pcap_frame : Z := 16.
Definition sizeof_lcc : Z := 16.
Definition sizeof_iphdr : Z := 20.
Definition sizeof_ip6_hdr : Z := 40.
Definition sizeof_tcphdr : Z := 20.
Definition sizeof_udphdr : Z := 8.
Definition sizeof_grehdr : Z := 4.

(** [CONFIG::CALCULATE_CHECKSUMS], gettimeofday(2) during the call, and whether a packet buffer
    of some size can be had. *)
Class Host : Type := {
  host_inet :: Inet;
  CALCULATE_CHECKSUMS : bool;
  gettimeofday : Z * Z;
  can_alloc : Z -> bool
}.

Record connection_details : Type := mkDetails {
  d_source : bytes;
  d_destination : bytes;
  ip_id_in : Z;
  ip_id_out : Z;
  ip_version : Z;
  next_proto : Z;
  ttl : Z;
  tun_proto : Z;
  tun_ttl : Z;
  tun_details : option SocketInfo;
  max_data_size : Z
}.

Record tcp_details : Type := mkTcp {
  base : connection_details;
  seq_in : Z;
  seq_out : Z;
  tcp_lastack_in : Z;
  tcp_lastack_out : Z
}.

Definition set_ip_id_in (v : Z) (d : connection_details) : connection_details :=
  mkDetails (d_source d) (d_destination d) v (ip_id_out d) (ip_version d) (next_proto d) (ttl d)
    (tun_proto d) (tun_ttl d) (tun_details d) (max_data_size d).
Definition set_ip_id_out (v : Z) (d : connection_details) : connection_details :=
  mkDetails (d_source d) (d_destination d) (ip_id_in d) v (ip_version d) (next_proto d) (ttl d)
    (tun_proto d) (tun_ttl d) (tun_details d) (max_data_size d).
Definition set_tun_details (v : option SocketInfo) (d : connection_details) : connection_details :=
  mkDetails (d_source d) (d_destination d) (ip_id_in d) (ip_id_out d) (ip_version d) (next_proto d)
    (ttl d) (tun_proto d) (tun_ttl d) v (max_data_size d).
Definition set_base (b : connection_details) (d : tcp_details) : tcp_details :=
  mkTcp b (seq_in d) (seq_out d) (tcp_lastack_in d) (tcp_lastack_out d).

Definition extract_ports (d : connection_details) : bytes * bytes :=
  if (ip_version d =? 4) || (ip_version d =? 6) then (sin_port (d_source d), sin_port (d_destination d))
  else ([0; 0], [0; 0]).

(** ** An output buffer next to the details of the connection *)

Record cap (D : Type) : Type := mkCap { out : bytes; det : D }.
Arguments mkCap {D} out det.
Arguments out {D} c.
Arguments det {D} c.

Definition emit {D} (b : bytes) : M (cap D) unit := modify (fun c => mkCap (out c ++ b) (det c)).
Definition on_det {D A} (m : M D A) : M (cap D) A := fun c =>
  match m (det c) with
  | Ret a d => Ret a (mkCap (out c) d)
  | Throw e d => Throw e (mkCap (out c) d)
  | Undef => Undef
  end.
(** A function of [connection_details &] called with [tcp_details]. *)
Definition as_base {A} (m : M (cap connection_details) A) : M (cap tcp_details) A := fun c =>
  match m (mkCap (out c) (base (det c))) with
  | Ret a c' => Ret a (mkCap (out c') (set_base (det c') (det c)))
  | Throw e c' => Throw e (mkCap (out c') (set_base (det c') (det c)))
  | Undef => Undef
  end.

(** ** Checksums *)

(** The words of [((uint16_t * )data)[i]] through [ntohs]; a trailing odd byte is not read. *)
Fixpoint words16 (b : bytes) : list Z :=
  match b with
  | x :: y :: r => (256 * x + y) :: words16 r
  | _ => []
  end.

Definition sum32 (ws : list Z) : Z := foldl (fun s w => u32 (s + w)) 0 ws.

(** [while(sum & 0xFFFF0000) sum = (sum & 0xFFFF) + (sum >> 16)] *)
Fixpoint fold16 (fuel : nat) (sum : Z) : option Z :=
  if Z.land sum 0xFFFF0000 =? 0 then Some sum
  else match fuel with
  | O => None
  | S n => fold16 n (u32 (Z.land sum 0xFFFF + Z.shiftr sum 16))
  end.

Section pcap.
Context `{HO : !Host}.

(** Three rounds are enough, [fold16_terminates]. *)
Definition iphdr_cksum (data : bytes) : Z :=
  if negb CALCULATE_CHECKSUMS then 0
  else match fold16 3 (sum32 (words16 data)) with
  | Some sum => u16 (Z.lnot sum)
  | None => 0
  end.

Definition l4hdr_cksum (hdr next payload : bytes) : Z :=
  if negb CALCULATE_CHECKSUMS then 0
  else iphdr_cksum (hdr ++ next ++ payload ++ zrep (Z.land (zlen payload) 1) 0).

(** [chksum_pseudoheader<V,P>::construct] *)
Definition chksum_pseudoheader (src dst : bytes) (proto next_sz payload_size : Z) : bytes :=
  src ++ dst ++ [0; u8 proto] ++ be_bytes 2 (payload_size + next_sz).

Definition L4_chksum (details : connection_details) (in_ : Z) (next_header payload : bytes) : Z :=
  let dir {A} (p : A * A) := if in_ =? 0 then p else (snd p, fst p) in
  if (ip_version details =? 4) || (ip_version details =? 0) then
    let '(src, dst) := dir (sin_addr (d_source details), sin_addr (d_destination details)) in
    l4hdr_cksum (chksum_pseudoheader src dst (next_proto details) (zlen next_header) (zlen payload))
      next_header payload
  else if ip_version details =? 6 then
    let '(src, dst) := dir (sin6_addr (d_source details), sin6_addr (d_destination details)) in
    l4hdr_cksum (chksum_pseudoheader src dst (next_proto details) (zlen next_header) (zlen payload))
      next_header payload
  else 0.

(** ** pcap headers *)

Definition pcap_file_header : bytes :=
  le_bytes 4 0xa1b2c3d4 ++ le_bytes 2 2 ++ le_bytes 2 4 ++ le_bytes 4 0 ++ le_bytes 4 0 ++
  le_bytes 4 65535 ++ le_bytes 4 113.

Definition append_PCAP_magic {D} : M (cap D) Z := emit pcap_file_header ;;; mret_ 24.

Definition append_PCAP_header (details : connection_details) (payload_size : Z) : M (cap connection_details) unit :=
  let l3_hdr_size :=
    if (ip_version details =? 4) || (ip_version details =? 0) then sizeof_iphdr
    else if ip_version details =? 6 then sizeof_ip6_hdr else 0 in
  let l4_hdr_size :=
    if (next_proto details =? TCP) || (next_proto details =? 0) then sizeof_tcphdr
    else if next_proto details =? UDP then sizeof_udphdr else 0 in
  let caplen := sizeof_lcc + l3_hdr_size + l4_hdr_size + payload_size in
  emit (le_bytes 4 (fst gettimeofday) ++ le_bytes 4 (snd gettimeofday) ++
        le_bytes 4 caplen ++ le_bytes 4 caplen).

Definition lcc_header (details : connection_details) (in_ : Z) : bytes :=
  let inb := negb (in_ =? 0) in
  be_bytes 2 (if inb then 0 else 4) ++ be_bytes 2 1 ++ be_bytes 2 6 ++
  zrep 6 (if inb then 2 else 1) ++ [0; 0] ++
  be_bytes 2 (if ip_version details =? 4 then 0x0800 else if ip_version details =? 6 then 0x86DD else 0).

Definition append_LCC_header (details : connection_details) (in_ : Z) : M (cap connection_details) unit :=
  emit (lcc_header details in_).

Definition gre_header (details : connection_details) : bytes :=
  [0; 0] ++ be_bytes 2 (if ip_version details =? 6 then 0x86DD else 0x0800).

Definition append_GRE_header (details : connection_details) : M (cap connection_details) unit :=
  emit (gre_header details).

(** ** IP headers *)

(** [tot_len], [frag_off] and [check] by the values converted with [htons]; [id] as stored. *)
Record iphdr : Type := mkIphdr {
  tot_len : Z; ip_id : Z; ip_ttl : Z; protocol : Z; check : Z; saddr : bytes; daddr : bytes
}.
Definition iphdr_bytes (h : iphdr) : bytes :=
  [0x45; 0] ++ be_bytes 2 (tot_len h) ++ le_bytes 2 (ip_id h) ++ be_bytes 2 0x4000 ++
  [ip_ttl h; protocol h] ++ be_bytes 2 (check h) ++ saddr h ++ daddr h.

Record ip6_hdr : Type := mkIp6hdr {
  ip6_plen : Z; ip6_nxt : Z; ip6_hops : Z; ip6_src : bytes; ip6_dst : bytes
}.
Definition ip6_hdr_bytes (h : ip6_hdr) : bytes :=
  be_bytes 4 0x60000000 ++ be_bytes 2 (ip6_plen h) ++ [ip6_nxt h; ip6_hops h] ++ ip6_src h ++ ip6_dst h.

Definition l4_header_sz : M connection_details Z :=
  d <- get ;;
  if (next_proto d =? TCP) || (next_proto d =? 0) then mret_ sizeof_tcphdr
  else if next_proto d =? UDP then mret_ sizeof_udphdr
  else throw invalid_argument.

Definition l3_header_sz : M connection_details Z :=
  d <- get ;;
  if (ip_version d =? 4) || (ip_version d =? 0) then mret_ sizeof_iphdr
  else if ip_version d =? 6 then mret_ sizeof_ip6_hdr
  else throw invalid_argument.

(** [direction % 2], in C. *)
Definition odd_dir (direction : Z) : bool := negb (Z.rem direction 2 =? 0).

(** [direction % 2 ? details.ip_id_in++ : details.ip_id_out++] *)
Definition next_ip_id (direction : Z) : M connection_details Z :=
  d <- get ;;
  if odd_dir direction then modify (set_ip_id_in (u16 (ip_id_in d + 1))) ;;; mret_ (ip_id_in d)
  else modify (set_ip_id_out (u16 (ip_id_out d + 1))) ;;; mret_ (ip_id_out d).

(** [as_v4()], [as_v6()]: [std::optional::value] *)
Definition as_ss (a : AddressInfo) : M connection_details bytes :=
  match ss a with Some s => mret_ s | None => throw bad_optional_access end.

(** The addresses of a header: swapped for incoming packets; a tunnel has its own, packed first
    only when incoming. *)
Definition header_addrs (addr : bytes -> bytes) (direction : Z) : M connection_details (bytes * bytes) :=
  d <- get ;;
  if odd_dir direction then
    match tun_details d with
    | Some t =>
        if 1 <? direction then
          modify (set_tun_details (Some (si_pack t))) ;;;
          s <- as_ss (si_dst (si_pack t)) ;;
          t <- as_ss (si_src (si_pack t)) ;;
          mret_ (addr s, addr t)
        else mret_ (addr (d_destination d), addr (d_source d))
    | None => mret_ (addr (d_destination d), addr (d_source d))
    end
  else
    match tun_details d with
    | Some t =>
        if 1 <? direction then
          s <- as_ss (si_src t) ;;
          t <- as_ss (si_dst t) ;;
          mret_ (addr s, addr t)
        else mret_ (addr (d_source d), addr (d_destination d))
    | None => mret_ (addr (d_source d), addr (d_destination d))
    end.

(** Length of what the header announces after itself, and the protocol. *)
Definition header_next (direction payload_size : Z) : M connection_details (Z * Z) :=
  d <- get ;;
  l4_sz <- l4_header_sz ;;
  if direction <=? 1 then mret_ (l4_sz + payload_size, u8 (next_proto d))
  else
    l3_sz <- l3_header_sz ;;
    if tun_proto d =? GRE then mret_ (sizeof_grehdr + l3_sz + l4_sz + payload_size, IPPROTO_GRE)
    else throw invalid_argument.

Definition create_IPv4_header (direction payload_size : Z) : M connection_details iphdr :=
  let! (len, proto) := header_next direction payload_size in
  id <- next_ip_id direction ;;
  let! (s, t) := header_addrs sin_addr direction in
  d <- get ;;
  let h := mkIphdr (sizeof_iphdr + len) id (ttl d) proto 0 s t in
  mret_ (mkIphdr (sizeof_iphdr + len) id (ttl d) proto (iphdr_cksum (iphdr_bytes h)) s t).

Definition create_IPv6_header (direction payload_size : Z) : M connection_details ip6_hdr :=
  let! (len, proto) := header_next direction payload_size in
  let! (s, t) := header_addrs sin6_addr direction in
  d <- get ;;
  mret_ (mkIp6hdr len proto (ttl d) s t).

(** [details.tun_details->pack()], and the address of one side when it is of the family. *)
Definition tun_pack : M connection_details (option SocketInfo) :=
  d <- get ;;
  modify (set_tun_details (option_map si_pack (tun_details d))) ;;;
  mret_ (option_map si_pack (tun_details d)).

Definition tun_addr (fam : Z) (addr : bytes -> bytes) (zero : bytes) (a : option AddressInfo) : bytes :=
  match a with
  | Some a =>
      match ss a with
      | Some s => if family a =? fam then addr s else zero
      | None => zero
      end
  | None => zero
  end.

Definition encapulate_gre_v4 (direction payload_size : Z) : M (cap connection_details) unit :=
  h <- on_det (create_IPv4_header (direction + 2) payload_size) ;;
  t <- on_det tun_pack ;;
  d <- gets det ;;
  emit (iphdr_bytes
    (mkIphdr (tot_len h) (ip_id h) (tun_ttl d) IPPROTO_GRE (check h)
       (tun_addr AF_INET sin_addr (zrep 4 0) (option_map si_src t))
       (tun_addr AF_INET sin_addr (zrep 4 0) (option_map si_dst t)))) ;;;
  append_GRE_header d.

Definition encapsulate_gre_v6 (direction payload_size : Z) : M (cap connection_details) unit :=
  h <- on_det (create_IPv6_header (direction + 2) payload_size) ;;
  t <- on_det tun_pack ;;
  d <- gets det ;;
  emit (ip6_hdr_bytes
    (mkIp6hdr (ip6_plen h) IPPROTO_GRE (tun_ttl d)
       (tun_addr AF_INET6 sin6_addr (zrep 16 0) (option_map si_src t))
       (tun_addr AF_INET6 sin6_addr (zrep 16 0) (option_map si_dst t)))) ;;;
  append_GRE_header d.

(** The tunnel part both versions share. *)
Definition encapsulate (direction payload_size : Z) : M (cap connection_details) unit :=
  d <- gets det ;;
  when (tun_proto d =? GRE)
    (if match tun_details d with Some t => family (si_src t) =? AF_INET6 | None => false end
     then encapsulate_gre_v6 direction payload_size
     else encapulate_gre_v4 direction payload_size).

Definition append_IPv4_header (direction payload_size : Z) : M (cap connection_details) unit :=
  h <- on_det (create_IPv4_header direction payload_size) ;;
  encapsulate direction payload_size ;;;
  emit (iphdr_bytes h).

Definition append_IPv6_header (direction payload_size : Z) : M (cap connection_details) unit :=
  h <- on_det (create_IPv6_header direction payload_size) ;;
  encapsulate direction payload_size ;;;
  emit (ip6_hdr_bytes h).

Definition append_IP_header (in_ payload_size : Z) : M (cap connection_details) unit :=
  d <- gets det ;;
  if ip_version d =? 4 then append_IPv4_header in_ payload_size
  else when (ip_version d =? 6) (append_IPv6_header in_ payload_size).

(** ** TCP and UDP headers *)

Definition syn_flag (tcpflags : Z) : bool := Z.testbit tcpflags 0.
Definition fin_flag (tcpflags : Z) : bool := Z.testbit tcpflags 1.
Definition ack_flag (tcpflags : Z) : bool := Z.testbit tcpflags 2.

Record tcphdr : Type := mkTcphdr {
  th_source : bytes; th_dest : bytes; th_seq : Z; th_ack_seq : Z;
  th_fin : bool; th_syn : bool; th_ack : bool; th_check : Z
}.
Definition tcphdr_bytes (h : tcphdr) : bytes :=
  th_source h ++ th_dest h ++ be_bytes 4 (th_seq h) ++ be_bytes 4 (th_ack_seq h) ++
  [0x50; Z.b2z (th_fin h) + 2 * Z.b2z (th_syn h) + 16 * Z.b2z (th_ack h)] ++
  be_bytes 2 32768 ++ be_bytes 2 (th_check h) ++ [0; 0].

(** The header with a zero checksum, and the counters after it. *)
Definition tcp_header_of (details : tcp_details) (in_ payload_size tcpflags : Z) : tcphdr * tcp_details :=
  let '(sport, dport) := extract_ports (base details) in
  let syn := syn_flag tcpflags in
  let fin := fin_flag tcpflags in
  let ack := ack_flag tcpflags || (tcpflags =? 0) in
  let adv := if syn || fin then 1 else payload_size in
  if negb (in_ =? 0) then
    let fresh := negb (seq_out details =? tcp_lastack_in details) in
    (mkTcphdr dport sport (seq_in details) (seq_out details) fin syn (ack || (fresh && negb syn)) 0,
     mkTcp (base details) (u32 (seq_in details + adv)) (seq_out details)
       (if fresh then seq_out details else tcp_lastack_in details) (tcp_lastack_out details))
  else
    let fresh := negb (seq_in details =? tcp_lastack_out details) in
    (mkTcphdr sport dport (seq_out details) (seq_in details) fin syn (ack || (fresh && negb syn)) 0,
     mkTcp (base details) (seq_in details) (u32 (seq_out details + adv))
       (tcp_lastack_in details) (if fresh then seq_in details else tcp_lastack_out details)).

Definition set_check (v : Z) (h : tcphdr) : tcphdr :=
  mkTcphdr (th_source h) (th_dest h) (th_seq h) (th_ack_seq h) (th_fin h) (th_syn h) (th_ack h) v.

Definition append_TCP_header (in_ : Z) (payload : bytes) (tcpflags : Z) : M (cap tcp_details) unit :=
  d <- gets det ;;
  let '(h, d') := tcp_header_of d in_ (zlen payload) tcpflags in
  modify (fun c => mkCap (out c) d') ;;;
  emit (tcphdr_bytes (set_check (L4_chksum (base d') in_ (tcphdr_bytes h) payload) h)).

Definition udphdr_bytes (sport dport : bytes) (len check : Z) : bytes :=
  sport ++ dport ++ be_bytes 2 len ++ be_bytes 2 check.

Definition append_UDP_header (in_ : Z) (payload : bytes) : M (cap connection_details) unit :=
  d <- gets det ;;
  let '(sport, dport) := extract_ports d in
  let '(s, t) := if negb (in_ =? 0) then (dport, sport) else (sport, dport) in
  let len := sizeof_udphdr + zlen payload in
  emit (udphdr_bytes s t len (L4_chksum d in_ (udphdr_bytes s t len 0) payload)).

(** ** Frames *)

Definition append_TCP_frame (data : bytes) (size in_ tcpflags : Z) : M (cap tcp_details) Z :=
  if size <? 0 then mret_ npos
  else if zlen data <? size then undef
  else
    d <- gets det ;;
    as_base (append_PCAP_header (base d) size) ;;;
    as_base (append_LCC_header (base d) in_) ;;;
    as_base (append_IP_header in_ size) ;;;
    append_TCP_header in_ (ztake size data) tcpflags ;;;
    emit (ztake size data) ;;;
    gets (fun c => zlen (out c)).

Definition append_UDP_frame (data : bytes) (size in_ : Z) : M (cap connection_details) Z :=
  if size <? 0 then mret_ npos
  else if zlen data <? size then undef
  else
    d <- gets det ;;
    append_PCAP_header d size ;;;
    append_LCC_header d in_ ;;;
    append_IP_header in_ size ;;;
    append_UDP_header in_ (ztake size data) ;;;
    emit (ztake size data) ;;;
    gets (fun c => zlen (out c)).
End pcap.
