(* ===== verification/PcapProps.v ===== *)
(** * PcapProps: checksums, headers and frames of the captures *)

From S2P Require Export Pcap SockInfoProps.

Ltac Zify.zify_post_hook ::= Z.to_euclidean_division_equations.

(** ** Folding a sum *)

Lemma land_high s : 0 <= s < 2 ^ 32 -> Z.land s 0xFFFF0000 = s / 65536 * 65536.
Proof.
  intros Hs. change 0xFFFF0000 with (Z.shiftl (Z.ones 16) 16).
  assert (E : Z.land s (Z.shiftl (Z.ones 16) 16) = Z.shiftl (Z.land (Z.shiftr s 16) (Z.ones 16)) 16).
  { apply Z.bits_inj'. intros n Hn.
    rewrite Z.land_spec, !Z.shiftl_spec, Z.land_spec by lia.
    destruct (Z.ltb_spec n 16).
    - rewrite (Z.testbit_neg_r (Z.ones 16)), !andb_false_r by lia. done.
    - rewrite Z.shiftr_spec by lia. f_equal. f_equal. lia. }
  rewrite E, Z.land_ones, Z.shiftl_mul_pow2, Z.shiftr_div_pow2 by lia.
  change (2 ^ 16) with 65536. rewrite Z.mod_small; [done | lia].
Qed.

Lemma land_low s : Z.land s 0xFFFF = s mod 65536.
Proof. change 0xFFFF with (Z.ones 16). rewrite Z.land_ones by lia. done. Qed.

(** What one round of the loop does. *)
Lemma fold16_step n s :
  0 <= s < 2 ^ 32 ->
  fold16 (S n) s = if s <? 65536 then Some s else fold16 n (s mod 65536 + s / 65536).
Proof.
  intros Hs. cbn [fold16]. rewrite land_high, land_low, Z.shiftr_div_pow2 by lia.
  change (2 ^ 16) with 65536. rewrite u32_small by lia.
  destruct (Z.eqb_spec (s / 65536 * 65536) 0), (Z.ltb_spec s 65536); [done | lia | lia | done].
Qed.

(** The residue of [s] modulo 65535, with 65535 for zero unless [s] is zero. *)
Definition ones_sum (s : Z) : Z := if s =? 0 then 0 else (s - 1) mod 65535 + 1.

Lemma ones_sum_step s :
  0 <= s -> ones_sum (s mod 65536 + s / 65536) = ones_sum s.
Proof.
  intros Hs. unfold ones_sum.
  destruct (Z.eqb_spec (s mod 65536 + s / 65536) 0), (Z.eqb_spec s 0); [done | lia | lia |].
  f_equal. replace (s - 1) with (s mod 65536 + s / 65536 - 1 + s / 65536 * 65535) by lia.
  rewrite Z.mod_add by lia. done.
Qed.

Lemma ones_sum_small s : 0 <= s < 65536 -> ones_sum s = s.
Proof. intros Hs. unfold ones_sum. destruct (Z.eqb_spec s 0); [lia|]. rewrite Z.mod_small; lia. Qed.

Lemma ones_sum_bound s : 0 <= ones_sum s < 65536.
Proof. unfold ones_sum. destruct (s =? 0); lia. Qed.

Lemma fold16_ones s : 0 <= s < 2 ^ 32 -> fold16 3 s = Some (ones_sum s).
Proof.
  intros Hs. rewrite fold16_step by lia. destruct (Z.ltb_spec s 65536); [rewrite ones_sum_small; [done | lia] |].
  rewrite fold16_step by lia. rewrite <- (ones_sum_step s) by lia.
  set (t := s mod 65536 + s / 65536). assert (0 <= t <= 131070) by (unfold t; lia).
  clearbody t. clear s Hs H.
  destruct (Z.ltb_spec t 65536); [rewrite ones_sum_small; [done | lia] |].
  rewrite fold16_step by lia. rewrite <- (ones_sum_step t) by lia.
  assert (0 <= t mod 65536 + t / 65536 < 65536) by lia.
  destruct (Z.ltb_spec (t mod 65536 + t / 65536) 65536); [rewrite ones_sum_small; [done | lia] | lia].
Qed.

(** ** Sums of words *)

Definition zsum (l : list Z) : Z := foldr Z.add 0 l.

Lemma zsum_app l k : zsum (l ++ k) = zsum l + zsum k.
Proof. unfold zsum. induction l as [| x l IH]; cbn; lia. Qed.

Lemma zsum_bound l : Forall (fun w => 0 <= w < 65536) l -> 0 <= zsum l <= 65535 * zlen l.
Proof.
  unfold zsum. induction 1 as [| w l Hw Hl IH]; [rewrite (zlen_nil (A:=Z)); cbn; lia |].
  rewrite zlen_cons. cbn [foldr]. pose proof (zlen_nonneg l). lia.
Qed.

Lemma sum32_exact_from ws a :
  Forall (fun w => 0 <= w < 65536) ws -> 0 <= a -> a + 65535 * zlen ws < 2 ^ 32 ->
  foldl (fun s w => u32 (s + w)) a ws = a + zsum ws.
Proof.
  intros H. revert a. unfold zsum. induction H as [| w ws Hw Hws IH]; intros a Ha Hb; cbn [foldl foldr]; [lia|].
  rewrite zlen_cons in Hb. pose proof (zlen_nonneg ws).
  rewrite u32_small by lia. rewrite IH by lia. lia.
Qed.

Lemma sum32_exact ws :
  Forall (fun w => 0 <= w < 65536) ws -> zlen ws <= 65537 -> sum32 ws = zsum ws.
Proof. intros H Hl. unfold sum32. rewrite sum32_exact_from; [lia | done | lia | lia]. Qed.

Lemma even_list_ind (P : bytes -> Prop) :
  P [] -> (forall x y l, P l -> P (x :: y :: l)) -> forall l, Z.Even (zlen l) -> P l.
Proof.
  intros H0 H2 l. rewrite zlen_length. remember (length l) as n eqn:E.
  revert l E. induction n as [n IH] using lt_wf_ind. intros l -> He.
  destruct l as [| x [| y l]]; [done | cbn in He; destruct He; lia |].
  apply H2, (IH (length l)); [cbn; lia | done |]. cbn in He. destruct He as [k Hk]. exists (k - 1). lia.
Qed.

Lemma words16_app a b : Z.Even (zlen a) -> words16 (a ++ b) = words16 a ++ words16 b.
Proof. revert a. apply even_list_ind; [done|]. intros x y l IH. cbn. by rewrite IH. Qed.

Lemma words16_range b : all_bytes b -> Forall (fun w => 0 <= w < 65536) (words16 b).
Proof.
  assert (H : forall n l, (length l <= n)%nat -> all_bytes l -> Forall (fun w => 0 <= w < 65536) (words16 l)).
  { induction n as [| n IH]; intros [| x [| y l]] Hl Hb; cbn in *; try lia; try constructor.
    - inversion Hb as [| ? ? Hx Hb']; subst. inversion Hb' as [| ? ? Hy ?]; subst.
      unfold is_byte in *. lia.
    - apply IH; [lia|]. inversion Hb as [| ? ? ? Hb']; subst. by inversion Hb'. }
  intros. by apply (H (length b)).
Qed.

Lemma length_words16 b : (2 * length (words16 b) <= length b)%nat.
Proof.
  assert (H : forall n l, (length l <= n)%nat -> (2 * length (words16 l) <= length l)%nat).
  { induction n as [| n IH]; intros [| x [| y l]] Hl; cbn [words16 length] in *; try lia.
    specialize (IH l). lia. }
  by apply (H (length b)).
Qed.

Lemma zlen_words16 b : 2 * zlen (words16 b) <= zlen b.
Proof. rewrite !zlen_length. pose proof (length_words16 b). lia. Qed.

Lemma words16_be v : 0 <= v < 65536 -> words16 (be_bytes 2 v) = [v].
Proof. intros Hv. cbn. f_equal. lia. Qed.

(** ** Checksums *)

Section checksum.
Context `{HO : !Host} (on : CALCULATE_CHECKSUMS = true).

Lemma iphdr_cksum_ones b :
  all_bytes b -> zlen b <= 131072 -> iphdr_cksum b = 65535 - ones_sum (zsum (words16 b)).
Proof using on.
  intros Hb Hl. unfold iphdr_cksum. rewrite on. cbn [negb].
  pose proof (words16_range b Hb) as Hr. pose proof (zlen_words16 b).
  rewrite sum32_exact by (done || lia). pose proof (zsum_bound _ Hr). pose proof (zlen_nonneg (words16 b)).
  rewrite fold16_ones by lia. pose proof (ones_sum_bound (zsum (words16 b))).
  unfold u16, wrapu. change (2 ^ 16) with 65536. unfold Z.lnot. lia.
Qed.

Lemma iphdr_cksum_range b : 0 <= iphdr_cksum b < 65536.
Proof using Type.
  unfold iphdr_cksum. destruct (negb _); [lia|]. destruct (fold16 _ _); [apply u16_bound | lia].
Qed.

(** A block with its checksum in place of the zeros it was computed with sums to all ones. *)
Lemma cksum_verifies a b :
  all_bytes a -> all_bytes b -> Z.Even (zlen a) -> zlen a + zlen b <= 131070 ->
  iphdr_cksum (a ++ be_bytes 2 (iphdr_cksum (a ++ be_bytes 2 0 ++ b)) ++ b) = 0.
Proof using on.
  intros Ha Hb He Hl. pose proof (zlen_nonneg a). pose proof (zlen_nonneg b).
  assert (Hw : forall v, 0 <= v < 65536 ->
    words16 (a ++ be_bytes 2 v ++ b) = words16 a ++ v :: words16 b).
  { intros v Hv. rewrite words16_app by done. f_equal.
    rewrite words16_app by (exists 1; by rewrite zlen_be_bytes). by rewrite words16_be. }
  assert (Hall : forall v, all_bytes (a ++ be_bytes 2 v ++ b)).
  { intros v. apply Forall_app; split; [done|]. apply Forall_app; split; [apply all_bytes_be_bytes | done]. }
  assert (Hlen : forall v, zlen (a ++ be_bytes 2 v ++ b) <= 131072).
  { intros v. rewrite !zlen_app, zlen_be_bytes. lia. }
  rewrite (iphdr_cksum_ones (a ++ be_bytes 2 0 ++ b)) by done.
  rewrite iphdr_cksum_ones by done. rewrite !Hw by (try lia; pose proof (ones_sum_bound (zsum (words16 (a ++ be_bytes 2 0 ++ b)))); lia).
  rewrite !zsum_app. cbn [zsum foldr].
  pose proof (zsum_bound _ (words16_range _ Ha)). pose proof (zsum_bound _ (words16_range _ Hb)).
  fold (zsum (words16 b)). set (s := zsum (words16 a) + zsum (words16 b)).
  replace (zsum (words16 a) + (0 + zsum (words16 b))) with s by lia.
  replace (zsum (words16 a) + (65535 - ones_sum s + zsum (words16 b))) with (s + (65535 - ones_sum s)) by lia.
  assert (0 <= s) by lia. unfold ones_sum at 1. pose proof (ones_sum_bound s).
  destruct (Z.eqb_spec (s + (65535 - ones_sum s)) 0) as [E | E].
  - unfold ones_sum in *. destruct (Z.eqb_spec s 0); lia.
  - unfold ones_sum in *. destruct (Z.eqb_spec s 0) as [-> | Hs]; [done|].
    replace (s + (65535 - ((s - 1) mod 65535 + 1)) - 1) with (65534 + (s - 1) / 65535 * 65535) by lia.
    rewrite Z.mod_add by lia. done.
Qed.
End checksum.

(** ** Well-formed details *)

Record details_ok (d : connection_details) : Prop := {
  ok_source : ss_ok (d_source d);
  ok_destination : ss_ok (d_destination d);
  ok_id_in : 0 <= ip_id_in d < 65536;
  ok_id_out : 0 <= ip_id_out d < 65536;
  ok_ttl : is_byte (ttl d);
  ok_tun_ttl : is_byte (tun_ttl d);
  ok_tun : from_option sock_ok True (tun_details d)
}.

(** ** What the headers are, for connections outside a tunnel *)

Record plain (d : connection_details) : Prop := {
  plain_ok : details_ok d;
  plain_ip : ip_version d = 4 \/ ip_version d = 6;
  plain_proto : next_proto d = TCP \/ next_proto d = UDP;
  plain_tun : tun_proto d <> GRE
}.

Definition l3_sz (d : connection_details) : Z := if ip_version d =? 4 then sizeof_iphdr else sizeof_ip6_hdr.
Definition l4_sz (d : connection_details) : Z := if next_proto d =? TCP then sizeof_tcphdr else sizeof_udphdr.

(** Source and destination of a packet; [i] for incoming. *)
Definition flip {A} (i : bool) (p : A * A) : A * A := if i then (snd p, fst p) else p.

Section plain.
Context `{HO : !Host}.

Definition ipv4_of (i : bool) (n : Z) (d : connection_details) : iphdr :=
  let '(s, t) := flip i (sin_addr (d_source d), sin_addr (d_destination d)) in
  let id := if i then ip_id_in d else ip_id_out d in
  let h c := mkIphdr (sizeof_iphdr + (l4_sz d + n)) id (ttl d) (u8 (next_proto d)) c s t in
  h (iphdr_cksum (iphdr_bytes (h 0))).

Definition ipv6_of (i : bool) (n : Z) (d : connection_details) : ip6_hdr :=
  let '(s, t) := flip i (sin6_addr (d_source d), sin6_addr (d_destination d)) in
  mkIp6hdr (l4_sz d + n) (u8 (next_proto d)) (ttl d) s t.

Definition ip_bytes (i : bool) (n : Z) (d : connection_details) : bytes :=
  if ip_version d =? 4 then iphdr_bytes (ipv4_of i n d) else ip6_hdr_bytes (ipv6_of i n d).

Definition ip_next (i : bool) (d : connection_details) : connection_details :=
  if ip_version d =? 4 then
    if i then set_ip_id_in (u16 (ip_id_in d + 1)) d else set_ip_id_out (u16 (ip_id_out d + 1)) d
  else d.

Lemma header_next_plain i n d :
  plain d -> header_next (Z.b2z i) n d = Ret (l4_sz d + n, u8 (next_proto d)) d.
Proof.
  intros [_ _ Hp _]. unfold header_next, l4_header_sz, l4_sz, mbind_, get, mret_, TCP, UDP in *.
  destruct Hp as [Hp | Hp]; rewrite Hp; by destruct i.
Qed.

Lemma header_addrs_plain addr i d :
  header_addrs addr (Z.b2z i) d = Ret (flip i (addr (d_source d), addr (d_destination d))) d.
Proof. unfold header_addrs, mbind_, get, mret_. by destruct i, (tun_details d). Qed.

Lemma append_IP_plain i n o d :
  plain d -> append_IP_header (Z.b2z i) n (mkCap o d) = Ret tt (mkCap (o ++ ip_bytes i n d) (ip_next i d)).
Proof.
  intros Hd. pose proof Hd as [_ Hv Hp Ht]. apply Z.eqb_neq in Ht.
  assert (E : forall d', tun_proto d' = tun_proto d -> forall o, encapsulate (Z.b2z i) n (mkCap o d') = Ret tt (mkCap o d')).
  { intros d' E o'. unfold encapsulate, mbind_, gets. cbn [det]. by rewrite E, Ht. }
  unfold append_IP_header. rewrite bind_gets. cbn [det].
  unfold ip_bytes, ip_next. destruct Hv as [Hv | Hv]; rewrite Hv; cbn [Z.eqb Pos.eqb when].
  - assert (C : create_IPv4_header (Z.b2z i) n d =
      Ret (ipv4_of i n d) (if i then set_ip_id_in (u16 (ip_id_in d + 1)) d else set_ip_id_out (u16 (ip_id_out d + 1)) d)).
    { unfold create_IPv4_header. rewrite (bind_ret _ _ _ _ _ (header_next_plain i n d Hd)).
      assert (N : next_ip_id (Z.b2z i) d = Ret (if i then ip_id_in d else ip_id_out d)
        (if i then set_ip_id_in (u16 (ip_id_in d + 1)) d else set_ip_id_out (u16 (ip_id_out d + 1)) d))
        by (by destruct i).
      rewrite (bind_ret _ _ _ _ _ N), (bind_ret _ _ _ _ _ (header_addrs_plain sin_addr i _)).
      unfold ipv4_of. by destruct i. }
    unfold append_IPv4_header, on_det. unfold mbind_ at 1. cbn [det out]. rewrite C.
    unfold mbind_. rewrite E by (by destruct i). done.
  - assert (C : create_IPv6_header (Z.b2z i) n d = Ret (ipv6_of i n d) d).
    { unfold create_IPv6_header. rewrite (bind_ret _ _ _ _ _ (header_next_plain i n d Hd)).
      rewrite (bind_ret _ _ _ _ _ (header_addrs_plain sin6_addr i d)).
      unfold ipv6_of. by destruct (flip _ _). }
    unfold append_IPv6_header, on_det. unfold mbind_ at 1. cbn [det out]. rewrite C.
    unfold mbind_. by rewrite E.
Qed.

(** A packet: the LCC header, the headers of the connection and the payload. *)
Definition tcp_packet (i : bool) (seg : bytes) (flags : Z) (d : tcp_details) : bytes * tcp_details :=
  let '(h, d') := tcp_header_of (set_base (ip_next i (base d)) d) (Z.b2z i) (zlen seg) flags in
  (lcc_header (base d) (Z.b2z i) ++ ip_bytes i (zlen seg) (base d) ++
   tcphdr_bytes (set_check (L4_chksum (base d') (Z.b2z i) (tcphdr_bytes h) seg) h) ++ seg, d').

Definition udp_packet (i : bool) (seg : bytes) (d : connection_details) : bytes * connection_details :=
  let '(s, t) := flip i (extract_ports (ip_next i d)) in
  let h c := udphdr_bytes s t (sizeof_udphdr + zlen seg) c in
  (lcc_header d (Z.b2z i) ++ ip_bytes i (zlen seg) d ++
   h (L4_chksum (ip_next i d) (Z.b2z i) (h 0) seg) ++ seg, ip_next i d).

Definition pcap_record (n : Z) (pkt : bytes) : bytes :=
  le_bytes 4 (fst gettimeofday) ++ le_bytes 4 (snd gettimeofday) ++ le_bytes 4 n ++ le_bytes 4 n ++ pkt.

(** The length a frame announces. *)
Definition caplen (d : connection_details) (n : Z) : Z := sizeof_lcc + l3_sz d + l4_sz d + n.

Lemma append_PCAP_header_plain d n o (d' : connection_details) :
  plain d -> append_PCAP_header d n (mkCap o d') = Ret tt (mkCap (o ++ pcap_record (caplen d n) []) d').
Proof.
  intros [_ Hv Hp _]. unfold append_PCAP_header, emit, modify, pcap_record, caplen, l3_sz, l4_sz.
  rewrite app_nil_r.
  destruct Hv as [Hv | Hv]; rewrite Hv; destruct Hp as [Hp | Hp]; rewrite Hp; done.
Qed.

Lemma ip_next_fields i d :
  ip_version (ip_next i d) = ip_version d /\ next_proto (ip_next i d) = next_proto d /\
  tun_proto (ip_next i d) = tun_proto d /\ d_source (ip_next i d) = d_source d /\
  d_destination (ip_next i d) = d_destination d /\ max_data_size (ip_next i d) = max_data_size d.
Proof. unfold ip_next. destruct (_ =? 4), i; done. Qed.

Lemma plain_next i d : plain d -> plain (ip_next i d).
Proof.
  intros [[H1 H2 H3 H4 H5 H6 H7] Hv Hp Ht]. pose proof (ip_next_fields i d) as (E1 & E2 & E3 & E4 & E5 & E6).
  assert (0 <= ip_id_in (ip_next i d) < 65536 /\ 0 <= ip_id_out (ip_next i d) < 65536 /\
    ttl (ip_next i d) = ttl d /\ tun_ttl (ip_next i d) = tun_ttl d /\ tun_details (ip_next i d) = tun_details d)
    as (I1 & I2 & I3 & I4 & I5).
  { unfold ip_next. pose proof (u16_bound (ip_id_in d + 1)). pose proof (u16_bound (ip_id_out d + 1)).
    destruct (_ =? 4), i; cbn; repeat (split; [lia || done |]); done. }
  split; [split | | |]; rewrite ?E1, ?E2, ?E3, ?E4, ?E5, ?I3, ?I4, ?I5; assumption.
Qed.
End plain.

Section frames.
Context `{HO : !Host}.

(** Rewrites for the lifted steps. *)
Lemma as_base_ret {A} (m : M (cap connection_details) A) o d a c :
  m (mkCap o (base d)) = Ret a c -> as_base m (mkCap o d) = Ret a (mkCap (out c) (set_base (det c) d)).
Proof. unfold as_base. cbn [out det]. by intros ->. Qed.

Lemma append_LCC_plain d i o (d' : connection_details) :
  append_LCC_header d i (mkCap o d') = Ret tt (mkCap (o ++ lcc_header d i) d').
Proof. done. Qed.

Lemma set_base_same d : set_base (base d) d = d.
Proof. by destruct d. Qed.

Lemma append_TCP_header_plain o d i seg flags :
  append_TCP_header (Z.b2z i) seg flags (mkCap o d) =
  let '(h, d') := tcp_header_of d (Z.b2z i) (zlen seg) flags in
  Ret tt (mkCap (o ++ tcphdr_bytes (set_check (L4_chksum (base d') (Z.b2z i) (tcphdr_bytes h) seg) h)) d').
Proof. unfold append_TCP_header, mbind_, gets, modify, emit. cbn [det]. by destruct (tcp_header_of _ _ _ _). Qed.

Lemma append_TCP_frame_plain data i flags o d :
  plain (base d) ->
  append_TCP_frame data (zlen data) (Z.b2z i) flags (mkCap o d) =
  let '(p, d') := tcp_packet i data flags d in
  let f := pcap_record (caplen (base d) (zlen data)) p in
  Ret (zlen (o ++ f)) (mkCap (o ++ f) d').
Proof.
  intros Hp. pose proof (zlen_nonneg data). unfold append_TCP_frame, tcp_packet.
  destruct (Z.ltb_spec (zlen data) 0); [lia|]. rewrite Z.ltb_irrefl, bind_gets, ztake_all. cbn [det].
  rewrite (bind_ret _ _ _ _ _ (as_base_ret _ _ _ _ _ (append_PCAP_header_plain _ _ o _ Hp))). cbn [out det].
  rewrite set_base_same.
  rewrite (bind_ret _ _ _ _ _ (as_base_ret _ _ _ _ _ (append_LCC_plain _ _ _ _))). cbn [out det].
  rewrite set_base_same.
  rewrite (bind_ret _ _ _ _ _ (as_base_ret _ _ _ _ _ (append_IP_plain _ _ _ _ Hp))). cbn [out det].
  unfold mbind_ at 1. rewrite append_TCP_header_plain.
  destruct (tcp_header_of _ _ _ _) as [h d']. unfold mbind_, emit, modify, gets, pcap_record. cbn [out det].
  rewrite app_nil_r, <- !app_assoc. done.
Qed.

Lemma append_UDP_frame_plain data i o d :
  plain d ->
  append_UDP_frame data (zlen data) (Z.b2z i) (mkCap o d) =
  let '(p, d') := udp_packet i data d in
  let f := pcap_record (caplen d (zlen data)) p in
  Ret (zlen (o ++ f)) (mkCap (o ++ f) d').
Proof.
  intros Hp. pose proof (zlen_nonneg data). unfold append_UDP_frame, udp_packet.
  destruct (Z.ltb_spec (zlen data) 0); [lia|]. rewrite Z.ltb_irrefl, bind_gets, ztake_all. cbn [det].
  rewrite (bind_ret _ _ _ _ _ (append_PCAP_header_plain _ _ o _ Hp)).
  rewrite (bind_ret _ _ _ _ _ (append_LCC_plain _ _ _ _)).
  rewrite (bind_ret _ _ _ _ _ (append_IP_plain _ _ _ _ Hp)).
  unfold append_UDP_header. rewrite bind_assoc, bind_gets. cbn [det].
  destruct (extract_ports (ip_next i d)) as [sp dp]. unfold mbind_, emit, modify, gets, pcap_record.
  destruct i; cbn [Z.b2z Z.eqb negb flip snd fst out det]; rewrite app_nil_r, <- !app_assoc; done.
Qed.

(** ** Lengths *)

Lemma zlen_lcc d i : zlen (lcc_header d i) = 16.
Proof. unfold lcc_header. rewrite !zlen_app, !zlen_be_bytes, zlen_zrep by lia. done. Qed.

Lemma zlen_iphdr h : zlen (saddr h) = 4 -> zlen (daddr h) = 4 -> zlen (iphdr_bytes h) = 20.
Proof.
  intros H1 H2. unfold iphdr_bytes. rewrite !zlen_app, H1, H2, !zlen_be_bytes, zlen_le_bytes, !zlen_cons, zlen_nil. lia.
Qed.

Lemma zlen_ip6_hdr h : zlen (ip6_src h) = 16 -> zlen (ip6_dst h) = 16 -> zlen (ip6_hdr_bytes h) = 40.
Proof.
  intros H1 H2. unfold ip6_hdr_bytes. rewrite !zlen_app, H1, H2, !zlen_be_bytes, !zlen_cons, zlen_nil. lia.
Qed.

Lemma zlen_ip_bytes i n d : plain d -> zlen (ip_bytes i n d) = l3_sz d.
Proof.
  intros [[Hs Hd _ _ _ _ _] _ _ _]. unfold ip_bytes, l3_sz.
  destruct (ss_fields _ Hs) as (_ & (S4 & _) & (S6 & _)), (ss_fields _ Hd) as (_ & (D4 & _) & (D6 & _)).
  destruct (_ =? 4).
  - by apply zlen_iphdr; unfold ipv4_of; destruct i.
  - by apply zlen_ip6_hdr; unfold ipv6_of; destruct i.
Qed.

Lemma extract_ports_width d : ss_ok (d_source d) -> ss_ok (d_destination d) ->
  let '(s, t) := extract_ports d in (zlen s = 2 /\ all_bytes s) /\ (zlen t = 2 /\ all_bytes t).
Proof.
  intros Hs Hd. destruct (ss_fields _ Hs) as ((S & SB) & _), (ss_fields _ Hd) as ((D & DB) & _).
  unfold extract_ports. destruct (_ || _); [done|].
  assert (zlen [0; 0] = 2 /\ all_bytes [0; 0]); [| done].
  split; [done|]. repeat constructor; unfold is_byte; lia.
Qed.

Lemma zlen_tcphdr h : zlen (th_source h) = 2 -> zlen (th_dest h) = 2 -> zlen (tcphdr_bytes h) = 20.
Proof.
  intros H1 H2. unfold tcphdr_bytes. rewrite !zlen_app, H1, H2, !zlen_be_bytes, !zlen_cons, !zlen_nil. lia.
Qed.

(** Ports of a header made for the details. *)
Lemma tcp_header_ports d i n flags : ss_ok (d_source (base d)) -> ss_ok (d_destination (base d)) ->
  let '(h, d') := tcp_header_of d i n flags in
  zlen (th_source h) = 2 /\ zlen (th_dest h) = 2 /\ base d' = base d.
Proof.
  intros Hs Hd. pose proof (extract_ports_width (base d) Hs Hd) as Hp. unfold tcp_header_of.
  destruct (extract_ports (base d)) as [s t]. destruct Hp as ((S & _) & (T & _)). by destruct (negb (i =? 0)).
Qed.

Lemma zlen_tcp_packet i seg flags d : plain (base d) -> next_proto (base d) = TCP ->
  zlen (fst (tcp_packet i seg flags d)) = caplen (base d) (zlen seg).
Proof.
  intros Hp Ht. pose proof (plain_next i _ Hp) as Hn. pose proof (plain_ok _ Hn) as Ho.
  pose proof (tcp_header_ports (set_base (ip_next i (base d)) d) (Z.b2z i) (zlen seg) flags
    (ok_source _ Ho) (ok_destination _ Ho)) as Hh.
  unfold tcp_packet. destruct (tcp_header_of _ _ _ _) as [h d']. destruct Hh as (S & T & _). cbn [fst].
  rewrite !zlen_app, zlen_lcc, zlen_ip_bytes, zlen_tcphdr by done.
  unfold caplen, l4_sz. rewrite Ht. unfold sizeof_lcc, sizeof_tcphdr. cbn. lia.
Qed.

Lemma zlen_udp_packet i seg d : plain d -> next_proto d = UDP ->
  zlen (fst (udp_packet i seg d)) = caplen d (zlen seg).
Proof.
  intros Hp Ht. pose proof (plain_next i _ Hp) as Hn. pose proof (plain_ok _ Hn) as Ho.
  pose proof (extract_ports_width (ip_next i d) (ok_source _ Ho) (ok_destination _ Ho)) as Hw.
  unfold udp_packet. destruct (extract_ports (ip_next i d)) as [s t]. destruct Hw as ((S & _) & (T & _)).
  unfold caplen, l4_sz, udphdr_bytes. rewrite Ht.
  destruct i; cbn [flip fst snd]; rewrite !zlen_app, zlen_lcc, zlen_ip_bytes, !zlen_be_bytes, S, T by done;
    unfold sizeof_lcc, sizeof_udphdr; cbn; lia.
Qed.
End frames.

(** ** Checksums as a receiver computes them *)

Lemma at_off_app o n a b c : zlen a = o -> zlen b = n -> at_off o n (a ++ b ++ c) = b.
Proof. intros <- <-. unfold at_off. rewrite zdrop_app_exact by done. by rewrite ztake_app_exact. Qed.

(** The pseudo header of a packet behind an LCC header, from the addresses and the protocol its
    IP header carries, and the length of what follows. *)
Definition receiver_pseudo (v : Z) (p : bytes) : bytes :=
  if v =? 4 then at_off 28 4 p ++ at_off 32 4 p ++ [0; nth 25 p 0] ++ be_bytes 2 (zlen p - 36)
  else at_off 24 16 p ++ at_off 40 16 p ++ [0; nth 22 p 0] ++ be_bytes 2 (zlen p - 56).

(** The words of the pseudo header and the segment, padded to an even length. *)
Definition receiver_sum `{HO : !Host} (d : connection_details) (p : bytes) : Z :=
  let l4 := zdrop (sizeof_lcc + l3_sz d) p in
  iphdr_cksum (receiver_pseudo (ip_version d) p ++ l4 ++ zrep (Z.land (zlen l4) 1) 0).

Section receiver.
Context `{HO : !Host} (on : CALCULATE_CHECKSUMS = true).

Lemma zrep_pad n : zrep (Z.land n 1) 0 = if Z.even n then [] else [0].
Proof using Type.
  change 1 with (Z.ones 1). rewrite Z.land_ones by lia. change (2 ^ 1) with 2.
  rewrite Zeven_mod. destruct (Z.eqb_spec (n mod 2) 0) as [E | E].
  - by rewrite E.
  - replace (n mod 2) with 1 by lia. done.
Qed.

Lemma land1_add_even a n : Z.Even a -> Z.land (a + n) 1 = Z.land n 1.
Proof using Type.
  intros [k ->]. change 1 with (Z.ones 1). rewrite !Z.land_ones by lia. change (2 ^ 1) with 2. lia.
Qed.

Lemma l4_verifies ps x y seg :
  all_bytes ps -> all_bytes x -> all_bytes y -> all_bytes seg ->
  Z.Even (zlen ps) -> Z.Even (zlen x) -> Z.Even (zlen y) ->
  zlen ps + zlen x + zlen y + zlen seg <= 131068 ->
  let l4 := x ++ be_bytes 2 (l4hdr_cksum ps (x ++ be_bytes 2 0 ++ y) seg) ++ y ++ seg in
  iphdr_cksum (ps ++ l4 ++ zrep (Z.land (zlen l4) 1) 0) = 0.
Proof using on.
  intros Bp Bx By Bs Ep Ex Ey Hl l4.
  assert (El : Z.land (zlen l4) 1 = Z.land (zlen seg) 1).
  { unfold l4. rewrite !zlen_app, zlen_be_bytes.
    replace (zlen x + (Z.of_nat 2 + (zlen y + zlen seg))) with (zlen x + 2 + zlen y + zlen seg) by lia.
    apply land1_add_even. destruct Ex as [a ->], Ey as [b ->]. exists (a + 1 + b). lia. }
  rewrite El. set (pad := zrep _ 0).
  assert (Bpad : all_bytes pad) by (apply all_bytes_zrep; unfold is_byte; lia).
  assert (Lpad : zlen pad <= 1).
  { unfold pad. rewrite zrep_pad. by destruct (Z.even _). }
  unfold l4, l4hdr_cksum. rewrite on. cbn [negb].
  replace (ps ++ (x ++ be_bytes 2 0 ++ y) ++ seg ++ zrep (Z.land (zlen seg) 1) 0)
    with ((ps ++ x) ++ be_bytes 2 0 ++ (y ++ seg ++ pad)) by (by rewrite <- !app_assoc).
  assert (E : forall c, ps ++ (x ++ be_bytes 2 c ++ y ++ seg) ++ pad = (ps ++ x) ++ be_bytes 2 c ++ (y ++ seg ++ pad))
    by (intros; by rewrite <- !app_assoc).
  rewrite E.
  apply cksum_verifies; [done | apply all_bytes_app; by split | | |].
  - apply all_bytes_app; split; [done|]. apply all_bytes_app; by split.
  - rewrite zlen_app. destruct Ep as [a ->], Ex as [b ->]. exists (a + b). lia.
  - rewrite !zlen_app. lia.
Qed.

Lemma ipv4_verifies i n d : plain d -> iphdr_cksum (iphdr_bytes (ipv4_of i n d)) = 0.
Proof using on.
  intros Hp. pose proof (plain_ok _ Hp) as [Hs Hd _ _ Ht _ _].
  destruct (ss_fields _ Hs) as (_ & (S & BS) & _), (ss_fields _ Hd) as (_ & (D & BD) & _).
  assert (G : forall l id p s t, is_byte p -> zlen s = 4 -> zlen t = 4 -> all_bytes s -> all_bytes t ->
    iphdr_cksum (iphdr_bytes (mkIphdr l id (ttl d) p (iphdr_cksum (iphdr_bytes (mkIphdr l id (ttl d) p 0 s t))) s t)) = 0).
  { intros l id p s t Bp Ls Lt Bs Bt. unfold iphdr_bytes. cbn [tot_len ip_id ip_ttl protocol check saddr daddr].
    set (a := [0x45; 0] ++ be_bytes 2 l ++ le_bytes 2 id ++ be_bytes 2 0x4000 ++ [ttl d; p]).
    assert (E : forall c, [0x45; 0] ++ be_bytes 2 l ++ le_bytes 2 id ++ be_bytes 2 0x4000 ++ [ttl d; p] ++ be_bytes 2 c ++ s ++ t
      = a ++ be_bytes 2 c ++ (s ++ t)) by (intros; unfold a; by rewrite <- !app_assoc).
    rewrite !E. assert (La : zlen a = 10).
    { unfold a. rewrite !zlen_app, !zlen_be_bytes, zlen_le_bytes. done. }
    apply cksum_verifies; [done | | apply all_bytes_app; by split | rewrite La; by exists 5 |].
    - unfold a. bytes_app; repeat constructor; unfold is_byte; lia || done.
    - rewrite zlen_app, La, Ls, Lt. lia. }
  unfold ipv4_of. destruct i; cbn [flip fst snd]; apply G; try done; apply u8_bound.
Qed.
End receiver.

Section packets.
Context `{HO : !Host}.

(** The receiver finds the addresses and the protocol the sender summed. *)
Lemma receiver_pseudo_plain d i n l4 :
  plain d ->
  let p := lcc_header d (Z.b2z i) ++ ip_bytes i n d ++ l4 in
  let a := if ip_version d =? 4 then sin_addr else sin6_addr in
  let '(s, t) := flip i (a (d_source d), a (d_destination d)) in
  receiver_pseudo (ip_version d) p = s ++ t ++ [0; u8 (next_proto d)] ++ be_bytes 2 (zlen l4).
Proof.
  intros Hp. pose proof (plain_ok _ Hp) as [Hs Hd _ _ _ _ _].
  destruct (ss_fields _ Hs) as (_ & (S4 & _) & (S6 & _)), (ss_fields _ Hd) as (_ & (D4 & _) & (D6 & _)).
  intros p a.
  assert (Lp : zlen p = 16 + l3_sz d + zlen l4).
  { unfold p. rewrite !zlen_app, zlen_lcc, zlen_ip_bytes by done. lia. }
  unfold receiver_pseudo. rewrite Lp. unfold l3_sz, a. unfold ip_bytes in p.
  destruct (ip_version d =? 4) eqn:Ev.
  - replace (16 + sizeof_iphdr + zlen l4 - 36) with (zlen l4) by (unfold sizeof_iphdr; lia).
    assert (H4 : at_off 28 4 p = saddr (ipv4_of i n d) /\ at_off 32 4 p = daddr (ipv4_of i n d)).
    { set (h := ipv4_of i n d). assert (zlen (saddr h) = 4 /\ zlen (daddr h) = 4) as [L1 L2]
        by (unfold h, ipv4_of; by destruct i).
      unfold p. rewrite ?Ev. unfold iphdr_bytes. fold h. set (A := lcc_header d (Z.b2z i)).
      assert (LA : zlen A = 16) by apply zlen_lcc.
      set (B := [0x45; 0] ++ be_bytes 2 (tot_len h) ++ le_bytes 2 (ip_id h) ++ be_bytes 2 0x4000 ++ [ip_ttl h; protocol h] ++ be_bytes 2 (check h)).
      assert (LB : zlen B = 12) by (unfold B; by rewrite !zlen_app, !zlen_be_bytes, zlen_le_bytes).
      split.
      - transitivity (at_off 28 4 ((A ++ B) ++ saddr h ++ (daddr h ++ l4))); [unfold B; by rewrite <- !app_assoc |].
        apply at_off_app; [rewrite zlen_app; lia | done].
      - transitivity (at_off 32 4 ((A ++ B ++ saddr h) ++ daddr h ++ l4)); [unfold B; by rewrite <- !app_assoc |].
        apply at_off_app; [rewrite !zlen_app; lia | done]. }
    destruct H4 as [-> ->].
    assert (En : nth 25 p 0 = protocol (ipv4_of i n d)) by (unfold p; rewrite ?Ev; reflexivity).
    rewrite En. unfold ipv4_of. by destruct i.
  - replace (16 + sizeof_ip6_hdr + zlen l4 - 56) with (zlen l4) by (unfold sizeof_ip6_hdr; lia).
    assert (H6 : at_off 24 16 p = ip6_src (ipv6_of i n d) /\ at_off 40 16 p = ip6_dst (ipv6_of i n d)).
    { set (h := ipv6_of i n d). assert (zlen (ip6_src h) = 16 /\ zlen (ip6_dst h) = 16) as [L1 L2]
        by (unfold h, ipv6_of; by destruct i).
      unfold p. rewrite ?Ev. unfold ip6_hdr_bytes. fold h. set (A := lcc_header d (Z.b2z i)).
      assert (LA : zlen A = 16) by apply zlen_lcc.
      set (B := be_bytes 4 0x60000000 ++ be_bytes 2 (ip6_plen h) ++ [ip6_nxt h; ip6_hops h]).
      assert (LB : zlen B = 8) by (unfold B; by rewrite !zlen_app, !zlen_be_bytes).
      split.
      - transitivity (at_off 24 16 ((A ++ B) ++ ip6_src h ++ (ip6_dst h ++ l4))); [unfold B; by rewrite <- !app_assoc |].
        apply at_off_app; [rewrite zlen_app; lia | done].
      - transitivity (at_off 40 16 ((A ++ B ++ ip6_src h) ++ ip6_dst h ++ l4)); [unfold B; by rewrite <- !app_assoc |].
        apply at_off_app; [rewrite !zlen_app; lia | done]. }
    destruct H6 as [-> ->].
    assert (En : nth 22 p 0 = ip6_nxt (ipv6_of i n d)) by (unfold p; rewrite ?Ev; reflexivity).
    rewrite En. unfold ipv6_of. by destruct i.
Qed.

(** A packet whose transport header carries the code's checksum passes both checks. *)
Lemma packet_verifies (on : CALCULATE_CHECKSUMS = true) d d' i x y seg :
  plain d -> all_bytes x -> all_bytes y -> all_bytes seg ->
  Z.Even (zlen x) -> Z.Even (zlen y) -> zlen x + zlen y + zlen seg <= 130000 ->
  ip_version d' = ip_version d -> next_proto d' = next_proto d ->
  d_source d' = d_source d -> d_destination d' = d_destination d ->
  let h0 := x ++ be_bytes 2 0 ++ y in
  let l4 := x ++ be_bytes 2 (L4_chksum d' (Z.b2z i) h0 seg) ++ y ++ seg in
  let p := lcc_header d (Z.b2z i) ++ ip_bytes i (zlen seg) d ++ l4 in
  (ip_version d = 4 -> iphdr_cksum (at_off 16 20 p) = 0) /\ receiver_sum d p = 0.
Proof.
  intros Hp Bx By Bs Ex Ey Hl E1 E2 E3 E4 h0 l4 p. split.
  - intros Hv. replace (at_off 16 20 p) with (iphdr_bytes (ipv4_of i (zlen seg) d)); [by apply ipv4_verifies|].
    unfold p. pose proof (zlen_ip_bytes i (zlen seg) d Hp) as L. unfold l3_sz in L.
    unfold ip_bytes in *. rewrite Hv in *. symmetry.
    apply at_off_app; [apply zlen_lcc | done].
  - unfold receiver_sum.
    assert (Ed : zdrop (sizeof_lcc + l3_sz d) p = l4).
    { unfold p. rewrite app_assoc. apply zdrop_app_exact. rewrite zlen_app, zlen_lcc, zlen_ip_bytes by done. done. }
    rewrite Ed. pose proof (receiver_pseudo_plain d i (zlen seg) l4 Hp) as Hr. cbn zeta in Hr. fold p in Hr.
    pose proof (plain_ok _ Hp) as [Hs Hd _ _ _ _ _].
    destruct (ss_fields _ Hs) as (_ & (S4 & BS4) & (S6 & BS6)), (ss_fields _ Hd) as (_ & (D4 & BD4) & (D6 & BD6)).
    assert (Ll : zlen l4 = zlen seg + zlen h0).
    { unfold l4, h0. rewrite !zlen_app, !zlen_be_bytes. lia. }
    set (a := if ip_version d =? 4 then sin_addr else sin6_addr) in Hr.
    set (ps := let '(s, t) := flip i (a (d_source d), a (d_destination d)) in
      chksum_pseudoheader s t (next_proto d) (zlen h0) (zlen seg)).
    assert (Eps : receiver_pseudo (ip_version d) p = ps).
    { unfold ps, chksum_pseudoheader. destruct (flip _ _). by rewrite Hr, Ll. }
    assert (Ec : L4_chksum d' (Z.b2z i) h0 seg = l4hdr_cksum ps h0 seg).
    { unfold L4_chksum, ps, a. rewrite E1, E2, E3, E4.
      destruct (plain_ip _ Hp) as [Hv | Hv]; rewrite Hv; by destruct i. }
    rewrite Eps. unfold l4. rewrite Ec.
    assert (Lps : Z.Even (zlen ps) /\ zlen ps <= 36 /\ all_bytes ps).
    { unfold ps, a, chksum_pseudoheader.
      destruct (ip_version d =? 4), i; cbn [flip fst snd]; rewrite !zlen_app, ?S4, ?D4, ?S6, ?D6, zlen_be_bytes;
        (split; [exists 6 + exists 18; done | split; [done|]]);
        bytes_app; repeat constructor; try (unfold is_byte; lia); apply u8_bound. }
    destruct Lps as (? & ? & ?). apply l4_verifies; done || lia.
Qed.

End packets.

(** ** What a reader of the file sees

    A decoder of one frame, written from the formats: the record and its two lengths, the cooked
    link-layer header, IPv4 or IPv6, then UDP or TCP. It refuses a frame any length of which does
    not say what is there. *)

Definition cut (n : Z) (s : bytes) : bytes * bytes := (ztake n s, zdrop n s).

(** Protocol, source, destination and what follows. *)
Definition read_ip (ethertype : Z) (p : bytes) : option (Z * bytes * bytes * bytes) :=
  if ethertype =? 0x0800 then
    let '(version, r) := cut 2 p in
    let '(len, r) := cut 2 r in
    let '(_id, r) := cut 2 r in
    let '(_frag, r) := cut 2 r in
    let '(ttl_proto, r) := cut 2 r in
    let '(_sum, r) := cut 2 r in
    let '(src, r) := cut 4 r in
    let '(dst, r) := cut 4 r in
    if bool_decide (version = [0x45; 0]) && (be_value len =? zlen p) then Some (nth 1 ttl_proto 0, src, dst, r) else None
  else if ethertype =? 0x86DD then
    let '(version, r) := cut 4 p in
    let '(len, r) := cut 2 r in
    let '(next_hops, r) := cut 2 r in
    let '(src, r) := cut 16 r in
    let '(dst, r) := cut 16 r in
    if bool_decide (version = [0x60; 0; 0; 0]) && (be_value len =? zlen r) then Some (nth 0 next_hops 0, src, dst, r) else None
  else None.

(** Ports, for TCP the numbers and the FIN and SYN flags, and the payload. *)
Definition read_l4 (proto : Z) (p : bytes) : option (bytes * bytes * option (Z * Z * bool * bool) * bytes) :=
  let '(sport, r) := cut 2 p in
  let '(dport, r) := cut 2 r in
  if proto =? UDP then
    let '(len, r) := cut 2 r in
    let '(_sum, r) := cut 2 r in
    if be_value len =? zlen p then Some (sport, dport, None, r) else None
  else if proto =? TCP then
    let '(seq, r) := cut 4 r in
    let '(ack, r) := cut 4 r in
    let '(off_flags, r) := cut 2 r in
    let '(_win, r) := cut 2 r in
    let '(_sum, r) := cut 2 r in
    let '(_urg, r) := cut 2 r in
    let flags := nth 1 off_flags 0 in
    if nth 0 off_flags 0 =? 0x50
    then Some (sport, dport, Some (be_value seq, be_value ack, Z.testbit flags 0, Z.testbit flags 1), r) else None
  else None.

Record seen : Type := mkSeen {
  seen_in : bool; seen_proto : Z; seen_src : bytes; seen_dst : bytes; seen_sport : bytes; seen_dport : bytes;
  seen_tcp : option (Z * Z * bool * bool); seen_payload : bytes
}.

Definition read_frame (f : bytes) : option seen :=
  let '(_sec, r) := cut 4 f in
  let '(_usec, r) := cut 4 r in
  let '(cap, r) := cut 4 r in
  let '(len, r) := cut 4 r in
  if negb ((le_value cap =? zlen r) && (le_value len =? zlen r)) then None else
  let '(type, r) := cut 2 r in
  let '(_arphrd, r) := cut 2 r in
  let '(_alen, r) := cut 2 r in
  let '(_addr, r) := cut 6 r in
  let '(_pad, r) := cut 2 r in
  let '(ethertype, r) := cut 2 r in
  match read_ip (be_value ethertype) r with
  | Some (proto, src, dst, l4) =>
      match read_l4 proto l4 with
      | Some (sport, dport, tcp, b) => Some (mkSeen (be_value type =? 0) proto src dst sport dport tcp b)
      | None => None
      end
  | None => None
  end.

Section read.
Context `{HO : !Host}.

Lemma cut_app n a b : zlen a = n -> cut n (a ++ b) = (a, b).
Proof. intros E. unfold cut. by rewrite ztake_app_exact, zdrop_app_exact. Qed.

Ltac widths := rewrite ?zlen_be_bytes, ?zlen_le_bytes, ?zlen_zrep by lia; done.
Ltac cuts := repeat (rewrite cut_app by (first [assumption | widths])).

Lemma be2 v : 0 <= v < 65536 -> be_value (be_bytes 2 v) = v.
Proof. intros. rewrite be_value_be_bytes. change (256 ^ Z.of_nat 2) with 65536. by rewrite Z.mod_small. Qed.

Definition addrs (d : connection_details) : bytes * bytes :=
  if ip_version d =? 4 then (sin_addr (d_source d), sin_addr (d_destination d))
  else (sin6_addr (d_source d), sin6_addr (d_destination d)).
Definition ethertype (d : connection_details) : Z := if ip_version d =? 4 then 0x0800 else 0x86DD.

(** The IP header of a packet that announces what follows it. *)
Lemma read_ip_bytes i n d rest : plain d -> zlen rest = l4_sz d + n -> 0 <= n -> l4_sz d + n <= 65515 ->
  read_ip (ethertype d) (ip_bytes i n d ++ rest) =
    let '(s, t) := flip i (addrs d) in Some (next_proto d, s, t, rest).
Proof.
  intros Hp Hl Hn0 Hn. pose proof Hp as [[Hs Hd _ _ _ _ _] Hv Hq _].
  destruct (ss_fields _ Hs) as (_ & (S4 & _) & (S6 & _)), (ss_fields _ Hd) as (_ & (D4 & _) & (D6 & _)).
  assert (u8 (next_proto d) = next_proto d) as Hu by (by destruct Hq as [-> | ->]).
  assert (0 <= l4_sz d) as Hl4 by (unfold l4_sz; by destruct (_ =? TCP)).
  unfold read_ip, ethertype, ip_bytes, addrs. destruct Hv as [Hv | Hv]; rewrite Hv; cbn [Z.eqb Pos.eqb].
  - assert (zlen (iphdr_bytes (ipv4_of i n d) ++ rest) = 20 + (l4_sz d + n)) as Hz.
    { rewrite zlen_app, zlen_iphdr, Hl; [done | |]; unfold ipv4_of; by destruct i. }
    rewrite Hz. unfold iphdr_bytes, ipv4_of. rewrite Hu.
    destruct i; cbn [flip fst snd tot_len ip_id ip_ttl protocol check saddr daddr];
      rewrite <- !app_assoc; cuts; rewrite bool_decide_eq_true_2, be2 by (done || (unfold sizeof_iphdr; lia));
      unfold sizeof_iphdr; rewrite Z.eqb_refl; done.
  - unfold ip6_hdr_bytes, ipv6_of. rewrite Hu.
    destruct i; cbn [flip fst snd ip6_plen ip6_nxt ip6_hops ip6_src ip6_dst];
      rewrite <- !app_assoc; cuts; rewrite Hl, be2, Z.eqb_refl by lia; done.
Qed.

(** The record, the link-layer header and IP of a frame whose packet is as long as announced. *)
Lemma read_frame_packet i n d l4 s t tcp b :
  plain d -> 0 <= n -> l4_sz d + n <= 65515 -> zlen l4 = l4_sz d + n ->
  read_l4 (next_proto d) l4 = Some (s, t, tcp, b) ->
  read_frame (pcap_record (caplen d n) (lcc_header d (Z.b2z i) ++ ip_bytes i n d ++ l4)) =
    Some (mkSeen i (next_proto d) (fst (flip i (addrs d))) (snd (flip i (addrs d))) s t tcp b).
Proof.
  intros Hp Hn0 Hn Hl E. pose proof Hp as [_ Hv _ _].
  assert (zlen (lcc_header d (Z.b2z i) ++ ip_bytes i n d ++ l4) = caplen d n) as Hz.
  { rewrite !zlen_app, zlen_lcc, zlen_ip_bytes, Hl by done. unfold caplen, sizeof_lcc. lia. }
  assert (0 <= caplen d n < 2 ^ 32) as Hc.
  { assert (0 <= l4_sz d) by (unfold l4_sz; by destruct (_ =? TCP)). unfold caplen, l3_sz, sizeof_lcc, sizeof_iphdr, sizeof_ip6_hdr.
    destruct (_ =? 4); lia. }
  assert (le_value (le_bytes 4 (caplen d n)) = caplen d n) as Hle.
  { rewrite le_value_le_bytes. change (256 ^ Z.of_nat 4) with (2 ^ 32). by rewrite Z.mod_small. }
  unfold read_frame, pcap_record. cuts. rewrite Hle, Hz, Z.eqb_refl. cbn [andb negb].
  pose proof (read_ip_bytes i n d l4 Hp Hl Hn0 Hn) as Hip. unfold lcc_header.
  assert ((if ip_version d =? 4 then 2048 else if ip_version d =? 6 then 34525 else 0) = ethertype d) as ->
    by (unfold ethertype; by destruct Hv as [-> | ->]).
  rewrite <- !app_assoc. rewrite cut_app by widths. rewrite cut_app by widths. rewrite cut_app by widths.
  rewrite cut_app by (rewrite zlen_zrep by lia; done). rewrite cut_app by widths. rewrite cut_app by widths.
  rewrite (be2 (ethertype d)) by (unfold ethertype; destruct (_ =? 4); lia). rewrite Hip.
  destruct (flip i (addrs d)) as [x y]. rewrite E. by destruct i.
Qed.

(** [C37] Outside a tunnel, for an IPv4 or IPv6 connection of either protocol and up to what a
    packet can announce: appending a frame to an output returns its length, and what a decoder
    written from the formats reads back from the frame is the direction, the protocol, the
    addresses and the ports of the connection (exchanged for an incoming packet) and exactly the
    data, every length in the record, the IP and the UDP header being that of what is there; for TCP
    also the sequence number of the direction, that of the other direction as acknowledged, and the
    FIN and SYN flags that were asked for. *)
Theorem frames_read_back data i flags o (d : tcp_details) :
  plain (base d) -> zlen data <= 65495 ->
  let '(src, dst) := flip i (addrs (base d)) in
  let '(sport, dport) := flip i (sin_port (d_source (base d)), sin_port (d_destination (base d))) in
  (next_proto (base d) = UDP ->
     exists f d', append_UDP_frame data (zlen data) (Z.b2z i) (mkCap o (base d)) = Ret (zlen (o ++ f)) (mkCap (o ++ f) d') /\
       read_frame f = Some (mkSeen i UDP src dst sport dport None data)) /\
  (next_proto (base d) = TCP ->
     let '(seq, ack) := flip (negb i) (seq_in d, seq_out d) in
     exists f d', append_TCP_frame data (zlen data) (Z.b2z i) flags (mkCap o d) = Ret (zlen (o ++ f)) (mkCap (o ++ f) d') /\
       read_frame f = Some (mkSeen i TCP src dst sport dport
         (Some (seq mod 2 ^ 32, ack mod 2 ^ 32, fin_flag flags, syn_flag flags)) data)).
Proof.
  intros Hp Hn. destruct (flip i (addrs (base d))) as [src dst] eqn:Ea.
  destruct (flip i (sin_port _, sin_port _)) as [sport dport] eqn:Ep.
  pose proof (zlen_nonneg data) as H0. pose proof (plain_next i _ Hp) as Hnx. pose proof (plain_ok _ Hnx) as Ho.
  pose proof (ip_next_fields i (base d)) as (F1 & F2 & _ & F4 & F5 & _).
  pose proof (extract_ports_width (ip_next i (base d)) (ok_source _ Ho) (ok_destination _ Ho)) as Hw.
  assert (extract_ports (ip_next i (base d)) = (sin_port (d_source (base d)), sin_port (d_destination (base d)))) as Hx.
  { unfold extract_ports. rewrite F1, F4, F5. by destruct (plain_ip _ Hp) as [-> | ->]. }
  rewrite Hx in Hw. destruct Hw as ((Ws & _) & (Wd & _)).
  assert (zlen sport = 2 /\ zlen dport = 2) as [W1 W2] by (destruct i; injection Ep as <- <-; by split).
  split; intros Ht.
  - rewrite (append_UDP_frame_plain data i o _ Hp). unfold udp_packet. rewrite Hx, Ep. eexists _, _. split; [reflexivity|].
    set (ck := L4_chksum _ _ _ _).
    rewrite (read_frame_packet i (zlen data) (base d) (udphdr_bytes sport dport (sizeof_udphdr + zlen data) ck ++ data) sport dport None data);
      rewrite ?Ea, ?Ht; unfold l4_sz; rewrite ?Ht; cbn [Z.eqb Pos.eqb TCP UDP]; unfold sizeof_udphdr; try done; try lia.
    + unfold udphdr_bytes. rewrite !zlen_app, W1, W2, !zlen_be_bytes. lia.
    + unfold read_l4, udphdr_bytes. rewrite !zlen_app, W1, W2, !zlen_be_bytes. rewrite <- !app_assoc. cuts.
      change (UDP =? UDP) with true. cbv iota. cuts. rewrite be2 by lia.
      by replace (8 + zlen data =? _) with true by (symmetry; apply Z.eqb_eq; lia).
  - destruct (flip (negb i) (seq_in d, seq_out d)) as [seq ack] eqn:Es.
    rewrite (append_TCP_frame_plain data i flags o _ Hp). unfold tcp_packet, tcp_header_of. cbn [base set_base seq_in seq_out tcp_lastack_in tcp_lastack_out].
    rewrite Hx. replace (Z.b2z i =? 0) with (negb i) by (by destruct i). rewrite negb_involutive.
    set (hd := if i then _ else _). 
    assert (exists h d', hd = (h, d') /\ th_source h = sport /\ th_dest h = dport /\ th_seq h = seq /\ th_ack_seq h = ack /\
      th_fin h = fin_flag flags /\ th_syn h = syn_flag flags) as (h & d' & -> & H1 & H2 & H3 & H4 & H5 & H6).
    { unfold hd. destruct i; cbn in Ep, Es; injection Ep as <- <-; injection Es as <- <-; eexists _, _; done. }
    eexists _, _. split; [reflexivity|]. set (ck := L4_chksum _ _ _ _).
    rewrite (read_frame_packet i (zlen data) (base d) (tcphdr_bytes (set_check ck h) ++ data) sport dport
      (Some (seq mod 2 ^ 32, ack mod 2 ^ 32, fin_flag flags, syn_flag flags)) data);
      rewrite ?Ea, ?Ht; unfold l4_sz; rewrite ?Ht; cbn [Z.eqb Pos.eqb TCP UDP]; unfold sizeof_tcphdr; try done; try lia.
    + rewrite zlen_app, zlen_tcphdr; cbn [set_check th_source th_dest]; rewrite ?H1, ?H2; done.
    + unfold read_l4, tcphdr_bytes, set_check. cbn [th_source th_dest th_seq th_ack_seq th_fin th_syn th_ack th_check].
      rewrite H1, H2, H3, H4, H5, H6. rewrite <- !app_assoc. cuts.
      change (TCP =? UDP) with false. change (TCP =? TCP) with true. cbv iota. cuts. cbn [nth Z.eqb Pos.eqb].
      rewrite !be_value_be_bytes. change (256 ^ Z.of_nat 4) with (2 ^ 32).
      do 4 f_equal. destruct (fin_flag flags), (syn_flag flags), (th_ack h); done.
Qed.
End read.

(** ** A sample connection *)

Definition plain_host : Host := {|
  host_inet := raw_inet; CALCULATE_CHECKSUMS := true; gettimeofday := (1700000000, 42);
  can_alloc := fun _ => true
|}.

Definition sample_details : connection_details :=
  mkDetails (@pack_ss raw_inet AF_INET [10; 0; 0; 1] 50000) (@pack_ss raw_inet AF_INET [10; 0; 0; 2] 80)
    7 65535 4 TCP 32 0 1 None 2.
Definition sample_tcp : tcp_details := mkTcp sample_details 11111 4294967295 0 0.

Lemma sample_plain : plain sample_details.
Proof.
  split; [split | by left | by left | done]; try done; try apply (@pack_ss_ok raw_inet raw_inet_ok);
    cbn; unfold is_byte; lia.
Defined.


(** The UDP datagram of an IPv6 connection, coming in. *)
Definition sample_details6 : connection_details :=
  mkDetails (@pack_ss raw_inet AF_INET6 (zrep 15 0 ++ [1]) 50000) (@pack_ss raw_inet AF_INET6 (zrep 15 0 ++ [2]) 53)
    7 65535 6 UDP 32 0 1 None 2.

Lemma sample_plain6 : plain sample_details6.
Proof.
  split; [split | by right | by right | done]; try done; try apply (@pack_ss_ok raw_inet raw_inet_ok);
    cbn; unfold is_byte; lia.
Defined.

Lemma frames_read_back_witness :
  exists f d', @append_UDP_frame plain_host [1; 2; 3] 3 1 (mkCap [9] sample_details6) = Ret (zlen ([9] ++ f)) (mkCap ([9] ++ f) d') /\
    read_frame f = Some (mkSeen true UDP (zrep 15 0 ++ [2]) (zrep 15 0 ++ [1]) (be_bytes 2 53) (be_bytes 2 50000) None [1; 2; 3]).
Proof.
  destruct (@frames_read_back plain_host [1; 2; 3] true 0 [9] (mkTcp sample_details6 0 0 0 0) sample_plain6 ltac:(vm_compute; discriminate))
    as [Hu _]. exact (Hu eq_refl).
Defined.
