(* ===== verification/Pcapng.v ===== *)
(** * Pcapng: blocks of the pcapng format (src/traflog/pcapapi.hpp, src/traflog/pcapapi.cpp)

    Section header, interface and enhanced packet blocks with their options; a packet block
    object fills itself from a payload, in segments, and appends itself to a buffer. *)

From S2P Require Export Pcap.

(** [4 - (s + 4) % 4], on size_t *)
Definition padding_sz32 (s : Z) : Z :=
  let padding_sz := 4 - u64 (s + 4) mod 4 in
  if padding_sz =? 4 then 0 else padding_sz.

Definition padding (n : Z) : bytes := zrep n 0xCC.

(** ** Section header and interface blocks *)

Record pcapng_shb : Type := mkShb {
  shb_type : Z; shb_total_length : Z; shb_magic : Z; version_maj : Z; version_min : Z;
  section_length : Z; shb_options : option bytes
}.
Definition default_shb : pcapng_shb := mkShb 0x0A0D0D0A 0 0x1A2B3C4D 1 0 0xFFFFFFFFFFFFFFFF None.

Definition opt_bytes (o : option bytes) : bytes := default [] o.

Definition shb_size (h : pcapng_shb) : Z := zlen (opt_bytes (shb_options h)) + 28.

(** [append]: what is added to the buffer, and the block after. *)
Definition shb_append (h : pcapng_shb) : bytes * pcapng_shb :=
  let total_length := u32 (shb_size h) in
  (le_bytes 4 (shb_type h) ++ le_bytes 4 total_length ++ le_bytes 4 (shb_magic h) ++
   le_bytes 2 (version_maj h) ++ le_bytes 2 (version_min h) ++ le_bytes 8 (section_length h) ++
   opt_bytes (shb_options h) ++ le_bytes 4 total_length,
   mkShb (shb_type h) total_length (shb_magic h) (version_maj h) (version_min h)
     (section_length h) (shb_options h)).

Record pcapng_ifb : Type := mkIfb {
  ifb_type : Z; ifb_total_length : Z; link_type : Z; reserved1 : Z; snaplen : Z;
  ifb_options : option bytes
}.
Definition default_ifb : pcapng_ifb := mkIfb 1 0 113 0 20000 None.

Definition ifb_size (h : pcapng_ifb) : Z := zlen (opt_bytes (ifb_options h)) + 20.

Definition ifb_append (h : pcapng_ifb) : bytes * pcapng_ifb :=
  let total_length := u32 (ifb_size h) in
  (le_bytes 4 (ifb_type h) ++ le_bytes 4 total_length ++ le_bytes 2 (link_type h) ++
   le_bytes 2 (reserved1 h) ++ le_bytes 4 (snaplen h) ++ opt_bytes (ifb_options h) ++
   le_bytes 4 total_length,
   mkIfb (ifb_type h) total_length (link_type h) (reserved1 h) (snaplen h) (ifb_options h)).

(** ** Options *)

Record entry : Type := mkEntry { code : Z; e_data : option bytes }.
Definition Comment : Z := 1.

Definition entry_size (e : entry) : Z :=
  match e_data e with
  | None => 0
  | Some d => if zlen d =? 0 then 0 else 2 + 2 + zlen d + padding_sz32 (zlen d) + 4
  end.

(** The bytes appended; [len] is written from the data. *)
Definition entry_append (e : entry) : bytes :=
  if entry_size e =? 0 then []
  else
    let d := opt_bytes (e_data e) in
    le_bytes 2 (code e) ++ le_bytes 2 (zlen d) ++ d ++ padding (padding_sz32 (zlen d)).

Definition options_size (es : list entry) : Z := foldl (fun sz e => sz + entry_size e) 0 es.

(** Entries, then the footer once when anything was written. *)
Definition options_append (es : list entry) : bytes :=
  let wrt := concat (entry_append <$> es) in
  if 0 <? zlen wrt then wrt ++ le_bytes 4 0 else [].

(** ** Enhanced packet blocks *)

Record pcapng_epb : Type := mkEpb {
  total_length : Z; iface_id : Z; timestamp_high : Z; timestamp_low : Z;
  captured_len : Z; original_len : Z;
  packet_data : option bytes; options : option (list entry); ip_packet_hook : bool
}.
Definition default_epb : pcapng_epb := mkEpb 0 0 0 0 0 0 None None false.

Definition set_hook (b : bool) (f : pcapng_epb) : pcapng_epb :=
  mkEpb (total_length f) (iface_id f) (timestamp_high f) (timestamp_low f) (captured_len f)
    (original_len f) (packet_data f) (options f) b.
Definition set_packet (p : option bytes) (f : pcapng_epb) : pcapng_epb :=
  mkEpb (total_length f) (iface_id f) (timestamp_high f) (timestamp_low f) (captured_len f)
    (original_len f) p (options f) (ip_packet_hook f).

(** [fixed_sz] *)
Definition fixed_sz : Z := 32.

Definition epb_size (f : pcapng_epb) : Z :=
  match packet_data f with Some p => padding_sz32 (zlen p) + zlen p | None => 0 end +
  match options f with Some es => options_size es | None => 0 end + fixed_sz.

Definition comment (s : bytes) (f : pcapng_epb) : pcapng_epb :=
  mkEpb (total_length f) (iface_id f) (timestamp_high f) (timestamp_low f) (captured_len f)
    (original_len f) (packet_data f) (Some (default [] (options f) ++ [mkEntry Comment (Some s)]))
    (ip_packet_hook f).

Section pcapng.
Context `{HO : !Host}.

Definition epb_append (f : pcapng_epb) : bytes * pcapng_epb :=
  let total := u32 (epb_size f) in
  let '(hi, lo) :=
    if (timestamp_high f =? 0) && (timestamp_low f =? 0)
    then (u32 (fst gettimeofday), u32 (snd gettimeofday))
    else (timestamp_high f, timestamp_low f) in
  let caplen := match packet_data f with Some p => u32 (zlen p) | None => captured_len f end in
  (le_bytes 4 6 ++ le_bytes 4 total ++ le_bytes 4 (iface_id f) ++ le_bytes 4 hi ++ le_bytes 4 lo ++
   le_bytes 4 caplen ++ le_bytes 4 caplen ++
   match packet_data f with Some p => p ++ padding (padding_sz32 (zlen p)) | None => [] end ++
   match options f with Some es => options_append es | None => [] end ++
   le_bytes 4 total,
   mkEpb total (iface_id f) hi lo caplen caplen (packet_data f) (options f) (ip_packet_hook f)).

(** The block, the buffer it is appended to, the details, and what the hook was given. *)
Record ng (D : Type) : Type := mkNg {
  frame : pcapng_epb; ng_out : bytes; ng_det : D; hooked : list (connection_details * bytes)
}.
Arguments mkNg {D} frame ng_out ng_det hooked.
Arguments frame {D} n.
Arguments ng_out {D} n.
Arguments ng_det {D} n.
Arguments hooked {D} n.

(** The packet buffer is made or enlarged and emptied; false when there is no memory (a buffer
    that holds bytes has some). *)
Definition reset_packet {D} (cap_est : Z) : M (ng D) bool :=
  w <- get ;;
  let has_memory := match packet_data (frame w) with Some (_ :: _) => true | _ => false end in
  put (mkNg (set_packet (Some []) (frame w)) (ng_out w) (ng_det w) (hooked w)) ;;;
  mret_ (has_memory || can_alloc cap_est).

(** Headers and payload appended to [*packet_data]. *)
Definition into_packet {D A} (m : M (cap D) A) : M (ng D) A := fun w =>
  match m (mkCap (default [] (packet_data (frame w))) (ng_det w)) with
  | Ret a c => Ret a (mkNg (set_packet (Some (out c)) (frame w)) (ng_out w) (det c) (hooked w))
  | Throw e c => Throw e (mkNg (set_packet (Some (out c)) (frame w)) (ng_out w) (det c) (hooked w))
  | Undef => Undef
  end.

(** The hook is shown the packet from its IP header on. *)
Definition run_hook {D} (bs : D -> connection_details) : M (ng D) unit :=
  modify (fun w =>
    mkNg (frame w) (ng_out w) (ng_det w)
      (if ip_packet_hook (frame w)
       then hooked w ++ [(bs (ng_det w), zdrop sizeof_lcc (default [] (packet_data (frame w))))]
       else hooked w)).

Definition flush_frame {D} : M (ng D) unit :=
  modify (fun w =>
    let '(b, f) := epb_append (frame w) in mkNg f (ng_out w ++ b) (ng_det w) (hooked w)).

(** One round of [append_TCP]: a segment, [false] when there is no memory. *)
Definition append_segment (seg : bytes) (in_ tcpflags : Z) : M (ng tcp_details) bool :=
  ok <- reset_packet (u64 (sizeof_lcc + sizeof_ip6_hdr + sizeof_tcphdr + zlen seg + 32)) ;;
  if negb ok then mret_ false
  else
    d <- gets ng_det ;;
    into_packet (as_base (append_LCC_header (base d) in_)) ;;;
    into_packet (as_base (append_IP_header in_ (zlen seg))) ;;;
    into_packet (append_TCP_header in_ seg tcpflags) ;;;
    into_packet (emit seg) ;;;
    run_hook base ;;;
    flush_frame ;;;
    mret_ true.

(** The do-while loop of [append_TCP] on what is left of the data. *)
Fixpoint append_TCP_loop (fuel : nat) (cur_data : bytes) (to_write data_written data_size in_ tcpflags : Z)
  : M (ng tcp_details) Z :=
  match fuel with
  | O => undef
  | S n =>
      ok <- append_segment (ztake to_write cur_data) in_ tcpflags ;;
      if negb ok then mret_ npos
      else
        let data_written := data_written + to_write in
        if data_written <? data_size then
          append_TCP_loop n (zdrop to_write cur_data) (Z.min to_write (data_size - data_written))
            data_written data_size in_ tcpflags
        else gets (fun w => zlen (ng_out w))
  end.

Definition append_TCP (data : bytes) (data_size in_ tcpflags : Z) : M (ng tcp_details) Z :=
  if data_size <? 0 then mret_ npos
  else if zlen data <? data_size then undef
  else
    d <- gets ng_det ;;
    let m := max_data_size (base d) in
    append_TCP_loop (S (Z.to_nat data_size)) data (if m <=? 0 then data_size else Z.min m data_size)
      0 data_size in_ tcpflags.

Definition append_UDP (data : bytes) (size in_ : Z) : M (ng connection_details) Z :=
  if size <? 0 then mret_ npos
  else if zlen data <? size then undef
  else
    ok <- reset_packet (u64 (sizeof_lcc + sizeof_ip6_hdr + sizeof_udphdr + size + 32)) ;;
    if negb ok then mret_ npos
    else
      d <- gets ng_det ;;
      into_packet (append_LCC_header d in_) ;;;
      into_packet (append_IP_header in_ size) ;;;
      into_packet (append_UDP_header in_ (ztake size data)) ;;;
      into_packet (emit (ztake size data)) ;;;
      run_hook (fun d => d) ;;;
      flush_frame ;;;
      gets (fun w => zlen (ng_out w)).
End pcapng.
Arguments mkNg {D} frame ng_out ng_det hooked.
Arguments frame {D} n.
Arguments ng_out {D} n.
Arguments ng_det {D} n.
Arguments hooked {D} n.

(** ** Writing to a descriptor (the [save_] functions)

    The file is what write(2) accepted of each call. *)

Record ofile : Type := mkFile { f_data : bytes; f_closed : bool }.

(** [save_payload]: [wr] is how many bytes the write took, or a negative error; when it is not
    all of them the descriptor is closed. *)
Definition save_payload (wr : Z) (data : bytes) (f : ofile) : ofile :=
  if zlen data =? 0 then f
  else if wr =? zlen data then mkFile (f_data f ++ data) (f_closed f)
  else mkFile (f_data f ++ ztake wr data) true.

Section save.
Context `{HO : !Host}.

(** Saved: the bytes produced go to the file, the size is returned; an exception of the append
    leaves the file alone. *)
Definition save {D} (wr : Z -> Z) (m : M (cap D) Z) (f : ofile) : M D (Z * ofile) := fun d =>
  match m (mkCap [] d) with
  | Ret _ c => Ret (zlen (out c), save_payload (wr (zlen (out c))) (out c) f) (det c)
  | Throw e c => Throw e (det c)
  | Undef => Undef
  end.

Definition save_PCAP_magic {D} (wr : Z -> Z) (f : ofile) : M D (Z * ofile) := save wr append_PCAP_magic f.
Definition save_TCP_frame (wr : Z -> Z) (data : bytes) (size in_ tcpflags : Z) (f : ofile) : M tcp_details (Z * ofile) :=
  save wr (append_TCP_frame data size in_ tcpflags) f.
Definition save_UDP_frame (wr : Z -> Z) (data : bytes) (size in_ : Z) (f : ofile) : M connection_details (Z * ofile) :=
  save wr (append_UDP_frame data size in_) f.

Definition save_NG_magic (wr : Z -> Z) (f : ofile) : Z * ofile :=
  let b := fst (shb_append default_shb) in (zlen b, save_payload (wr (zlen b)) b f).
Definition save_NG_ifb (wr : Z -> Z) (h : pcapng_ifb) (f : ofile) : Z * ofile * pcapng_ifb :=
  let '(b, h) := ifb_append h in (zlen b, save_payload (wr (zlen b)) b f, h).

(** [save_TCP], [save_UDP]: into an empty buffer. *)
Definition save_ng {D} (wr : Z -> Z) (m : M (ng D) Z) (f : ofile) : M (ng D) (Z * ofile) := fun w =>
  match m (mkNg (frame w) [] (ng_det w) (hooked w)) with
  | Ret _ w' => Ret (zlen (ng_out w'), save_payload (wr (zlen (ng_out w'))) (ng_out w') f) w'
  | Throw e w' => Throw e w'
  | Undef => Undef
  end.
Definition save_TCP (wr : Z -> Z) (data : bytes) (size in_ tcpflags : Z) (f : ofile) : M (ng tcp_details) (Z * ofile) :=
  save_ng wr (append_TCP data size in_ tcpflags) f.
Definition save_UDP (wr : Z -> Z) (data : bytes) (size in_ : Z) (f : ofile) : M (ng connection_details) (Z * ofile) :=
  save_ng wr (append_UDP data size in_) f.
End save.
