(* ===== verification/PcapngProps.v ===== *)
(** * PcapngProps: blocks read back, segmentation

    A reader of the pcapng format (blocks by their lengths, packets by their captured length) and
    a TCP reassembler, against which the blocks the code appends are judged. *)

From S2P Require Export Pcapng PcapProps.

Ltac Zify.zify_post_hook ::= Z.to_euclidean_division_equations.

(** ** Sizes *)

Lemma padding_spec s : 0 <= s < 2 ^ 64 - 4 ->
  0 <= padding_sz32 s < 4 /\ (s + padding_sz32 s) mod 4 = 0.
Proof.
  intros Hs. unfold padding_sz32. rewrite u64_small by lia.
  destruct (Z.eqb_spec (4 - (s + 4) mod 4) 4); lia.
Qed.

(** Entries that hold something. *)
Definition nonempty (e : entry) : bool := negb (entry_size e =? 0).
Definition filled (es : list entry) : Z := zlen (List.filter nonempty es).

Definition small_entry (e : entry) : Prop := zlen (opt_bytes (e_data e)) < 2 ^ 64 - 4.

Lemma zlen_padding s : 0 <= s -> zlen (padding s) = s.
Proof. apply zlen_zrep. Qed.

Lemma entry_sizes e : small_entry e ->
  entry_size e = zlen (entry_append e) + (if nonempty e then 4 else 0) /\
  (nonempty e = true -> 4 < zlen (entry_append e)) /\ zlen (entry_append e) mod 4 = 0.
Proof.
  unfold small_entry, nonempty, entry_append, entry_size. destruct e as [c [b |]]; [| done].
  cbn [e_data code opt_bytes default from_option id]. intros Hs. pose proof (zlen_nonneg b).
  destruct (Z.eqb_spec (zlen b) 0) as [E | E]; [done |].
  destruct (padding_spec (zlen b)) as [Hp Hm]; [lia|].
  destruct (Z.eqb_spec (2 + 2 + zlen b + padding_sz32 (zlen b) + 4) 0); [lia|]. cbn [negb].
  rewrite !zlen_app, !zlen_le_bytes, zlen_padding by lia. lia.
Qed.

Lemma options_size_from es a : foldl (fun sz e => sz + entry_size e) a es = a + options_size es.
Proof.
  unfold options_size. revert a. induction es as [| e es IH]; intros a; cbn [foldl]; [lia|].
  rewrite (IH (a + entry_size e)), (IH (0 + entry_size e)). lia.
Qed.

Lemma filled_cons e es : filled (e :: es) = (if nonempty e then 1 else 0) + filled es.
Proof. unfold filled. cbn. destruct (nonempty e); [rewrite zlen_cons |]; lia. Qed.

Lemma concat_sizes es : Forall small_entry es ->
  options_size es = zlen (concat (entry_append <$> es)) + 4 * filled es /\
  zlen (concat (entry_append <$> es)) mod 4 = 0 /\
  (0 < filled es <-> 0 < zlen (concat (entry_append <$> es))) /\ 0 <= filled es.
Proof.
  induction 1 as [| e es He Hes (I1 & I2 & I3 & I4)].
  { vm_compute. repeat split; done. }
  destruct (entry_sizes e He) as (E1 & E2 & E3). rewrite filled_cons.
  unfold options_size. cbn [foldl]. rewrite options_size_from. cbn [fmap list_fmap concat]. rewrite !zlen_app.
  pose proof (zlen_nonneg (entry_append e)). pose proof (zlen_nonneg (concat (entry_append <$> es))).
  assert (E4 : nonempty e = false -> zlen (entry_append e) = 0).
  { unfold nonempty in *. destruct (Z.eqb_spec (entry_size e) 0); cbn in *; [lia | done]. }
  destruct (nonempty e); [specialize (E2 eq_refl) | specialize (E4 eq_refl)]; repeat split; lia.
Qed.

(** What the size of the options counts too much: a footer for every entry after the first. *)
Lemma options_overcount es : Forall small_entry es ->
  options_size es = zlen (options_append es) + 4 * Z.max 0 (filled es - 1) /\
  zlen (options_append es) mod 4 = 0.
Proof.
  intros H. destruct (concat_sizes es H) as (I1 & I2 & I3 & I4). unfold options_append.
  set (w := concat _) in *. destruct (Z.ltb_spec 0 (zlen w)) as [Hw | Hw].
  - rewrite zlen_app, zlen_le_bytes. assert (0 < filled es) by (apply I3; lia). lia.
  - assert (filled es = 0) by (destruct (Z.eq_dec (filled es) 0); [done | lia]).
    pose proof (zlen_nonneg w). rewrite zlen_nil. lia.
Qed.

(** ** Blocks *)

(** A block of the format. *)
Definition block (ty : Z) (body : bytes) : bytes :=
  le_bytes 4 ty ++ le_bytes 4 (zlen body + 12) ++ body ++ le_bytes 4 (zlen body + 12).

Definition good_body (body : bytes) : Prop := zlen body mod 4 = 0 /\ zlen body < 2 ^ 32 - 12.

(** The reader: type and body of every block, [None] on a length that is too small, is not a
    multiple of four, runs past the end or is not repeated at the end of the block. *)
Fixpoint read_blocks (fuel : nat) (b : bytes) : option (list (Z * bytes)) :=
  match b, fuel with
  | [], _ => Some []
  | _, O => None
  | _, S n =>
      let l := le_value (at_off 4 4 b) in
      if (12 <=? l) && (l mod 4 =? 0) && (l <=? zlen b) && (le_value (at_off (l - 4) 4 b) =? l) then
        match read_blocks n (zdrop l b) with
        | Some r => Some ((le_value (at_off 0 4 b), at_off 8 (l - 12) b) :: r)
        | None => None
        end
      else None
  end.

Lemma zlen_block ty body : zlen (block ty body) = zlen body + 12.
Proof. unfold block. rewrite !zlen_app, !zlen_le_bytes. lia. Qed.

Lemma at_off_mid o n a b c w : w = a ++ b ++ c -> zlen a = o -> zlen b = n -> at_off o n w = b.
Proof. intros ->. apply at_off_app. Qed.

Lemma le_value_le4 x : 0 <= x < 2 ^ 32 -> le_value (le_bytes 4 x) = x.
Proof. intros. rewrite le_value_le_bytes. change (256 ^ Z.of_nat 4) with (2 ^ 32). by rewrite Z.mod_small. Qed.

Lemma read_block n ty body rest :
  good_body body -> 0 <= ty < 2 ^ 32 ->
  read_blocks (S n) (block ty body ++ rest) =
  match read_blocks n rest with Some r => Some ((ty, body) :: r) | None => None end.
Proof.
  intros [Hm Hl] Ht. pose proof (zlen_nonneg body). pose proof (zlen_nonneg rest).
  set (b := block ty body ++ rest). set (l := zlen body + 12).
  assert (E0 : at_off 0 4 b = le_bytes 4 ty).
  { apply (at_off_mid _ _ [] _ (le_bytes 4 l ++ (body ++ le_bytes 4 l) ++ rest)); [| done..].
    unfold b, block, l. by rewrite <- !app_assoc. }
  assert (E4 : at_off 4 4 b = le_bytes 4 l).
  { apply (at_off_mid _ _ (le_bytes 4 ty) _ ((body ++ le_bytes 4 l) ++ rest)); [| done..].
    unfold b, block, l. by rewrite <- !app_assoc. }
  assert (E8 : at_off 8 (zlen body) b = body).
  { apply (at_off_mid _ _ (le_bytes 4 ty ++ le_bytes 4 l) _ (le_bytes 4 l ++ rest)); [| done..].
    unfold b, block, l. by rewrite <- !app_assoc. }
  assert (EL : at_off (l - 4) 4 b = le_bytes 4 l).
  { apply (at_off_mid _ _ (le_bytes 4 ty ++ le_bytes 4 l ++ body) _ rest).
    - unfold b, block, l. by rewrite <- !app_assoc.
    - rewrite !zlen_app, !zlen_le_bytes. lia.
    - done. }
  assert (Lb : zlen b = l + zlen rest) by (unfold b; by rewrite zlen_app, zlen_block).
  assert (Ed : zdrop l b = rest) by (apply zdrop_app_exact; apply zlen_block).
  assert (Hb : exists x y, b = x :: y).
  { destruct b as [| x y] eqn:Eb; [| by eexists _, _]. rewrite zlen_nil in Lb. lia. }
  destruct Hb as (x & y & Hb). cbn [read_blocks]. rewrite Hb at 1. rewrite E4, le_value_le4 by lia.
  rewrite EL, le_value_le4, Z.eqb_refl, Lb, Ed, E0, le_value_le4 by lia.
  replace (l - 12) with (zlen body) by lia. rewrite E8.
  destruct (Z.leb_spec 12 l); [| lia]. destruct (Z.eqb_spec (l mod 4) 0); [| lia].
  destruct (Z.leb_spec l (l + zlen rest)); [done | lia].
Qed.

Definition blocks (l : list (Z * bytes)) : bytes := concat ((fun '(t, b) => block t b) <$> l).

Lemma blocks_app l k : blocks (l ++ k) = blocks l ++ blocks k.
Proof. unfold blocks. by rewrite fmap_app, concat_app. Qed.

(** A file of blocks reads back as those blocks. *)
Lemma read_blocks_all l n :
  Forall (fun '(t, b) => good_body b /\ 0 <= t < 2 ^ 32) l -> (length l <= n)%nat ->
  read_blocks n (blocks l) = Some l.
Proof.
  intros H. revert n. induction H as [| [t b] l [Hb Ht] Hl IH]; intros n Hn.
  { by destruct n. }
  destruct n as [| n]; cbn in Hn; [lia|].
  change (blocks ((t, b) :: l)) with (block t b ++ blocks l).
  rewrite read_block by done. rewrite IH by lia. done.
Qed.

(** ** Packet blocks *)

Definition opts (f : pcapng_epb) : list entry := default [] (options f).
Definition pkt (f : pcapng_epb) : bytes := default [] (packet_data f).

Lemma options_append_opts f :
  match options f with Some es => options_append es | None => [] end = options_append (opts f).
Proof. unfold opts. by destruct (options f). Qed.

Lemma options_size_opts f :
  match options f with Some es => options_size es | None => 0 end = options_size (opts f).
Proof. unfold opts. by destruct (options f). Qed.

Section epb.
Context `{HO : !Host}.

(** The time the block gets: its own when it has one. *)
Definition stamp (f : pcapng_epb) : Z * Z :=
  if (timestamp_high f =? 0) && (timestamp_low f =? 0)
  then (u32 (fst gettimeofday), u32 (snd gettimeofday))
  else (timestamp_high f, timestamp_low f).

Definition epb_body (f : pcapng_epb) (p : bytes) : bytes :=
  le_bytes 4 (iface_id f) ++ le_bytes 4 (fst (stamp f)) ++ le_bytes 4 (snd (stamp f)) ++
  le_bytes 4 (zlen p) ++ le_bytes 4 (zlen p) ++ p ++ padding (padding_sz32 (zlen p)) ++
  options_append (opts f).

Definition stamped (f : pcapng_epb) (p : bytes) : pcapng_epb :=
  mkEpb (u32 (epb_size f)) (iface_id f) (fst (stamp f)) (snd (stamp f)) (zlen p) (zlen p) (Some p)
    (options f) (ip_packet_hook f).

Lemma epb_append_some f p :
  packet_data f = Some p -> zlen p < 2 ^ 32 ->
  epb_append f =
  (le_bytes 4 6 ++ le_bytes 4 (u32 (epb_size f)) ++ epb_body f p ++ le_bytes 4 (u32 (epb_size f)),
   stamped f p).
Proof.
  intros Hp Hl. pose proof (zlen_nonneg p). unfold epb_append, epb_body, stamped, stamp.
  rewrite options_append_opts, Hp.
  rewrite (u32_small (zlen p)) by lia.
  destruct (_ && _); cbn [fst snd]; f_equal; by rewrite <- !app_assoc.
Qed.

Lemma zlen_epb_body f p :
  zlen p < 2 ^ 32 ->
  zlen (epb_body f p) = 20 + (zlen p + padding_sz32 (zlen p)) + zlen (options_append (opts f)) /\
  (zlen p + padding_sz32 (zlen p)) mod 4 = 0.
Proof.
  intros Hl. pose proof (zlen_nonneg p). destruct (padding_spec (zlen p)) as [Hp Hm]; [lia|].
  split; [| done]. unfold epb_body. rewrite !zlen_app, !zlen_le_bytes, zlen_padding by lia. lia.
Qed.

Lemma epb_size_some f p : packet_data f = Some p ->
  epb_size f = padding_sz32 (zlen p) + zlen p + options_size (opts f) + 32.
Proof. intros Hp. unfold epb_size. by rewrite options_size_opts, Hp. Qed.

(** With at most one filled option a packet block is a block of the format. *)
Lemma epb_append_block f p :
  packet_data f = Some p -> Forall small_entry (opts f) -> filled (opts f) <= 1 ->
  zlen p + zlen (options_append (opts f)) < 2 ^ 32 - 64 ->
  epb_append f = (block 6 (epb_body f p), stamped f p) /\ good_body (epb_body f p).
Proof.
  intros Hp He Hf Hl. pose proof (zlen_nonneg p). pose proof (zlen_nonneg (options_append (opts f))).
  destruct (options_overcount _ He) as [Ho Hm]. destruct (zlen_epb_body f p) as [Lb Mb]; [lia|].
  destruct (padding_spec (zlen p)) as [Hpad _]; [lia|].
  assert (Es : u32 (epb_size f) = zlen (epb_body f p) + 12).
  { rewrite (epb_size_some f p Hp), u32_small by lia. lia. }
  split; [| split; lia]. rewrite (epb_append_some f p) by (done || lia). unfold block. by rewrite Es.
Qed.

(** A packet block announces, at its start and at its end, its size
    as [size()] counts it; the bytes appended are fewer by four for every filled option after the
    first (the footer is counted with each option and written once), and a multiple of four. *)
Theorem block_announces_its_size f p :
  packet_data f = Some p -> Forall small_entry (opts f) -> zlen p < 2 ^ 32 ->
  let b := fst (epb_append f) in
  zlen b + 4 * Z.max 0 (filled (opts f) - 1) = epb_size f /\ zlen b mod 4 = 0 /\
  at_off 4 4 b = le_bytes 4 (u32 (epb_size f)) /\ at_off (zlen b - 4) 4 b = le_bytes 4 (u32 (epb_size f)).
Proof.
  intros Hp He Hl b. destruct (options_overcount _ He) as [Ho Hm].
  destruct (zlen_epb_body f p Hl) as [Lb Mb].
  assert (Eb : b = le_bytes 4 6 ++ le_bytes 4 (u32 (epb_size f)) ++ epb_body f p ++ le_bytes 4 (u32 (epb_size f)))
    by (unfold b; by rewrite (epb_append_some f p Hp Hl)).
  assert (Zb : zlen b = zlen (epb_body f p) + 12) by (rewrite Eb, !zlen_app, !zlen_le_bytes; lia).
  rewrite (epb_size_some f p Hp) in *.
  split; [lia | split; [lia | split]].
  - rewrite Eb. by apply at_off_app.
  - apply (at_off_mid _ _ (le_bytes 4 6 ++ le_bytes 4 (u32 (padding_sz32 (zlen p) + zlen p + options_size (opts f) + 32)) ++ epb_body f p) _ []);
      [by rewrite app_nil_r, <- !app_assoc | | done].
    rewrite !zlen_app, !zlen_le_bytes. lia.
Qed.

(** The packet of a body. *)
Definition body_packet (b : bytes) : bytes := at_off 20 (le_value (at_off 12 4 b)) b.

Lemma body_packet_epb f p : zlen p < 2 ^ 32 -> body_packet (epb_body f p) = p.
Proof.
  intros Hl. pose proof (zlen_nonneg p). unfold body_packet.
  set (t := le_bytes 4 (zlen p) ++ p ++ padding (padding_sz32 (zlen p)) ++ options_append (opts f)).
  assert (E : at_off 12 4 (epb_body f p) = le_bytes 4 (zlen p)).
  { apply (at_off_mid _ _ (le_bytes 4 (iface_id f) ++ le_bytes 4 (fst (stamp f)) ++ le_bytes 4 (snd (stamp f))) _ t);
      [unfold epb_body, t; by rewrite <- !app_assoc | done | done]. }
  rewrite E, le_value_le4 by lia.
  apply (at_off_mid _ _ (le_bytes 4 (iface_id f) ++ le_bytes 4 (fst (stamp f)) ++ le_bytes 4 (snd (stamp f)) ++
    le_bytes 4 (zlen p) ++ le_bytes 4 (zlen p)) _ (padding (padding_sz32 (zlen p)) ++ options_append (opts f)));
    [unfold epb_body; by rewrite <- !app_assoc | done | done].
Qed.
End epb.

(** Two comments: the block is four bytes shorter than it says. *)
Definition commented : pcapng_epb :=
  comment [98; 121; 101] (comment [104; 105] (set_packet (Some [1; 2; 3]) default_epb)).

Lemma block_announces_its_size_witness :
  let b := fst (@epb_append plain_host commented) in
  zlen b + 4 * Z.max 0 (filled (opts commented) - 1) = epb_size commented /\ zlen b mod 4 = 0 /\
  at_off 4 4 b = le_bytes 4 (u32 (epb_size commented)) /\
  at_off (zlen b - 4) 4 b = le_bytes 4 (u32 (epb_size commented)).
Proof.
  apply (@block_announces_its_size plain_host commented [1; 2; 3]).
  - reflexivity.
  - repeat constructor.
  - reflexivity.
Defined.

(** What the reader makes of it: the announced length runs past the end of the file. *)
Lemma two_comments_unreadable :
  read_blocks 9 (fst (@epb_append plain_host commented)) = None /\
  zlen (fst (@epb_append plain_host commented)) = 56 /\ epb_size commented = 60.
Proof. vm_compute. repeat split. Qed.

(** ** Segmentation *)

Section segments.
Context `{HO : !Host} (mem : forall n, can_alloc n = true).

(** The pieces the loop of [append_TCP] writes: at most [to_write] bytes each. *)
Fixpoint chunks (fuel : nat) (to_write : Z) (data : bytes) : list bytes :=
  match fuel with
  | O => []
  | S n =>
      ztake to_write data ::
      (if to_write <? zlen data
       then chunks n (Z.min to_write (zlen data - to_write)) (zdrop to_write data) else [])
  end.

(** Packets of a direction for successive payloads, with the block object and the details after. *)
Fixpoint run_segs (i : bool) (flags : Z) (segs : list bytes) (w : ng tcp_details) : ng tcp_details :=
  match segs with
  | [] => w
  | s :: r =>
      let '(p, d) := tcp_packet i s flags (ng_det w) in
      let f := set_packet (Some p) (frame w) in
      run_segs i flags r
        (mkNg (stamped f p) (ng_out w ++ fst (epb_append f)) d
           (if ip_packet_hook (frame w) then hooked w ++ [(base d, zdrop sizeof_lcc p)] else hooked w))
  end.

Lemma append_segment_plain seg i flags w :
  plain (base (ng_det w)) -> next_proto (base (ng_det w)) = TCP ->
  caplen (base (ng_det w)) (zlen seg) < 2 ^ 32 ->
  append_segment seg (Z.b2z i) flags w = Ret true (run_segs i flags [seg] w).
Proof using mem.
  intros Hp Ht Hl. unfold append_segment, reset_packet, get, put, mret_. unfold mbind_ at 1 2 3.
  rewrite mem, orb_true_r. cbn [negb].
  destruct w as [f o d h]. cbn [frame ng_out ng_det hooked] in *.
  pose proof (zlen_tcp_packet i seg flags d Hp Ht) as Lp.
  unfold run_segs, tcp_packet in *. cbn [ng_det frame ng_out hooked].
  rewrite bind_gets. cbn [ng_det].
  unfold into_packet. unfold mbind_ at 1. cbn [ng_det frame packet_data set_packet default ng_out hooked].
  rewrite (as_base_ret _ _ _ _ _ (append_LCC_plain _ _ _ _)). cbn [out det].
  rewrite set_base_same. unfold mbind_ at 1. cbn [ng_det frame packet_data set_packet default from_option id].
  rewrite (as_base_ret _ _ _ _ _ (append_IP_plain _ _ _ _ Hp)). cbn [out det].
  unfold mbind_ at 1. cbn [ng_det frame packet_data set_packet default from_option id].
  rewrite append_TCP_header_plain. destruct (tcp_header_of _ _ _ _) as [t d'].
  unfold mbind_, emit, run_hook, flush_frame, modify.
  cbn [out det ng_det frame packet_data set_packet default from_option id ng_out hooked ip_packet_hook app fst].
  rewrite <- !app_assoc in *. cbn [fst] in Lp.
  set (p := lcc_header _ _ ++ _) in *.
  match goal with |- context [epb_append ?g] => change g with (set_packet (Some p) f) end.
  destruct (ip_packet_hook f); rewrite (epb_append_some (set_packet (Some p) f) p) by (done || lia);
    reflexivity.
Qed.

(** The packets alone. *)
Fixpoint tcp_run (i : bool) (flags : Z) (segs : list bytes) (d : tcp_details) : list bytes * tcp_details :=
  match segs with
  | [] => ([], d)
  | s :: r =>
      let '(p, d1) := tcp_packet i s flags d in
      let '(ps, d2) := tcp_run i flags r d1 in (p :: ps, d2)
  end.

Lemma tcp_packet_details i s flags d :
  base (snd (tcp_packet i s flags d)) = ip_next i (base d).
Proof using Type.
  unfold tcp_packet, tcp_header_of. cbn [set_base base]. destruct (extract_ports _). by destruct i.
Qed.

(** What blocks and packets need of a connection and a size. *)
Record tcp_ready (n : Z) (d : tcp_details) : Prop := {
  ready_plain : plain (base d);
  ready_tcp : next_proto (base d) = TCP;
  ready_size : n <= 2 ^ 31
}.

Lemma tcp_ready_next n i s flags d : tcp_ready n d -> tcp_ready n (snd (tcp_packet i s flags d)).
Proof using Type.
  intros [Hp Ht Hn]. pose proof (ip_next_fields i (base d)) as (_ & E & _).
  split; rewrite ?tcp_packet_details; [by apply plain_next | by rewrite E | done].
Qed.

Lemma caplen_small n d k : tcp_ready n d -> k <= n -> caplen (base d) k < 2 ^ 32 - 1000.
Proof using Type.
  intros [[_ Hv _ _] Ht Hn] Hk. unfold caplen, l3_sz, l4_sz. rewrite Ht. unfold sizeof_lcc, sizeof_iphdr, sizeof_ip6_hdr, sizeof_tcphdr.
  destruct Hv as [Hv | Hv]; rewrite Hv; cbn; lia.
Qed.

Lemma run_segs_app i flags s r w : run_segs i flags (s :: r) w = run_segs i flags r (run_segs i flags [s] w).
Proof using Type. cbn [run_segs]. by destruct (tcp_packet _ _ _ _). Qed.

Lemma run_segs_details i flags segs w :
  ng_det (run_segs i flags segs w) = snd (tcp_run i flags segs (ng_det w)).
Proof using Type.
  revert w. induction segs as [| s r IH]; intros w; [done|]. cbn [run_segs tcp_run].
  destruct (tcp_packet i s flags (ng_det w)) as [p d]. rewrite IH. cbn [ng_det].
  by destruct (tcp_run i flags r d).
Qed.

Lemma append_TCP_loop_plain n : forall cur tw written i flags w,
  tcp_ready tw (ng_det w) -> 0 <= tw <= zlen cur -> (0 < tw \/ zlen cur = 0) -> (Z.to_nat (zlen cur) < n)%nat ->
  append_TCP_loop n cur tw written (written + zlen cur) (Z.b2z i) flags w =
  let w' := run_segs i flags (chunks n tw cur) w in Ret (zlen (ng_out w')) w'.
Proof using mem.
  induction n as [| n IH]; intros cur tw written i flags w Hr Htw Hpos Hn; [lia|].
  cbn [append_TCP_loop chunks]. rewrite run_segs_app.
  assert (Ls : zlen (ztake tw cur) = tw) by (apply zlen_ztake; lia).
  pose proof (caplen_small _ _ tw Hr ltac:(lia)) as Hc. pose proof Hr as [Hp Ht Hs].
  rewrite (bind_ret _ _ _ _ _ (append_segment_plain _ i flags w Hp Ht ltac:(rewrite Ls; lia))). cbn [negb].
  set (w1 := run_segs i flags [ztake tw cur] w).
  destruct (Z.ltb_spec tw (zlen cur)) as [Hlt | Hge].
  - destruct (Z.ltb_spec (written + tw) (written + zlen cur)); [|lia].
    assert (Ld : zlen (zdrop tw cur) = zlen cur - tw) by (apply zlen_zdrop; lia).
    replace (written + zlen cur - (written + tw)) with (zlen cur - tw) by lia.
    replace (written + zlen cur) with (written + tw + zlen (zdrop tw cur)) by lia.
    apply IH; try lia.
    unfold w1. rewrite run_segs_details. cbn [tcp_run].
    pose proof (tcp_ready_next tw i (ztake tw cur) flags _ Hr) as Hr1.
    destruct (tcp_packet i (ztake tw cur) flags (ng_det w)). cbn [snd] in *.
    destruct Hr1; split; [done.. | lia].
  - destruct (Z.ltb_spec (written + tw) (written + zlen cur)); [lia|]. done.
Qed.

Lemma chunks_spec n : forall tw data,
  0 <= tw <= zlen data -> (0 < tw \/ zlen data = 0) -> (Z.to_nat (zlen data) < n)%nat ->
  concat (chunks n tw data) = data /\ Forall (fun s => zlen s <= tw) (chunks n tw data).
Proof using Type.
  induction n as [| n IH]; intros tw data Htw Hpos Hn; [lia|]. cbn [chunks concat].
  assert (Ls : zlen (ztake tw data) = tw) by (apply zlen_ztake; lia).
  destruct (Z.ltb_spec tw (zlen data)).
  - assert (Ld : zlen (zdrop tw data) = zlen data - tw) by (apply zlen_zdrop; lia).
    destruct (IH (Z.min tw (zlen data - tw)) (zdrop tw data)) as [I1 I2]; [lia.. |].
    rewrite I1, ztake_zdrop. split; [done|]. constructor; [lia|].
    eapply Forall_impl; [exact I2 | cbn; lia].
  - rewrite app_nil_r. replace tw with (zlen data) by lia. rewrite ztake_all.
    split; [done|]. by repeat constructor.
Qed.

(** [append_TCP] on a whole buffer. *)
Definition to_write_of (d : connection_details) (n : Z) : Z :=
  if max_data_size d <=? 0 then n else Z.min (max_data_size d) n.
Definition segments (d : connection_details) (data : bytes) : list bytes :=
  chunks (S (Z.to_nat (zlen data))) (to_write_of d (zlen data)) data.

Lemma to_write_range d (data : bytes) :
  let tw := to_write_of d (zlen data) in
  0 <= tw <= zlen data /\ (0 < tw \/ zlen data = 0) /\ (0 < max_data_size d -> tw <= max_data_size d).
Proof using Type.
  pose proof (zlen_nonneg data). unfold to_write_of. destruct (Z.leb_spec (max_data_size d) 0); lia.
Qed.

Lemma segments_spec d data :
  concat (segments d data) = data /\
  Forall (fun s => zlen s <= zlen data /\ (0 < max_data_size d -> zlen s <= max_data_size d)) (segments d data).
Proof using Type.
  destruct (to_write_range d data) as (H1 & H2 & H3).
  destruct (chunks_spec (S (Z.to_nat (zlen data))) _ _ H1 H2 ltac:(lia)) as [E F].
  split; [done|]. eapply Forall_impl; [exact F | cbn; intros s Hs; split; [lia|]].
  intros Hm. specialize (H3 Hm). lia.
Qed.

Lemma append_TCP_plain data i flags w :
  tcp_ready (zlen data) (ng_det w) ->
  append_TCP data (zlen data) (Z.b2z i) flags w =
  let w' := run_segs i flags (segments (base (ng_det w)) data) w in Ret (zlen (ng_out w')) w'.
Proof using mem.
  intros Hr. pose proof (zlen_nonneg data). unfold append_TCP.
  destruct (Z.ltb_spec (zlen data) 0); [lia|]. rewrite Z.ltb_irrefl, bind_gets.
  destruct (to_write_range (base (ng_det w)) data) as (H1 & H2 & _).
  change (if max_data_size (base (ng_det w)) <=? 0 then zlen data else Z.min (max_data_size (base (ng_det w))) (zlen data))
    with (to_write_of (base (ng_det w)) (zlen data)).
  apply (append_TCP_loop_plain (S (Z.to_nat (zlen data))) data _ 0); try lia.
  destruct Hr; split; [done.. | lia].
Qed.
End segments.

(** ** Packets and blocks of a run *)

(** The options of a block leave it readable. *)
Record opts_ok (f : pcapng_epb) : Prop := {
  opts_small : Forall small_entry (opts f);
  opts_filled : filled (opts f) <= 1;
  opts_size : zlen (options_append (opts f)) < 2 ^ 30
}.

Section runs.
Context `{HO : !Host}.

Lemma run_segs_blocks n i flags segs : forall w,
  tcp_ready n (ng_det w) -> Forall (fun s : bytes => zlen s <= n) segs -> opts_ok (frame w) ->
  let w' := run_segs i flags segs w in
  options (frame w') = options (frame w) /\
  exists bodies, ng_out w' = ng_out w ++ blocks ((fun b => (6, b)) <$> bodies) /\
    Forall good_body bodies /\ body_packet <$> bodies = fst (tcp_run i flags segs (ng_det w)).
Proof.
  induction segs as [| s r IH]; intros w Hr Hs Ho.
  { split; [done|]. exists []. by rewrite app_nil_r. }
  inversion Hs as [| ? ? Hs1 Hs2]; subst. pose proof Hr as [Hp Ht Hn].
  cbn [run_segs tcp_run]. pose proof (zlen_tcp_packet i s flags _ Hp Ht) as Lp.
  pose proof (caplen_small _ _ (zlen s) Hr Hs1) as Hc.
  pose proof (tcp_ready_next _ i s flags _ Hr) as Hr1.
  assert (Hn0 : caplen (base (ng_det w)) (zlen s) < 2 ^ 32 - 2 ^ 30 - 64).
  { pose proof (zlen_nonneg s). pose proof (ready_size _ _ Hr). unfold caplen, l3_sz, l4_sz.
    rewrite Ht. cbn. unfold sizeof_lcc, sizeof_iphdr, sizeof_ip6_hdr, sizeof_tcphdr. destruct (_ =? 4); lia. }
  destruct (tcp_packet i s flags (ng_det w)) as [p d]. cbn [fst snd] in *.
  set (f := set_packet (Some p) (frame w)).
  destruct Ho as [O1 O2 O3].
  destruct (epb_append_block f p) as [Eb Gb]; [done | done | done | change (opts f) with (opts (frame w)); lia |].
  rewrite Eb. cbn [fst].
  match goal with |- context [run_segs i flags r ?w1] =>
    destruct (IH w1) as (E1 & bodies & E2 & E3 & E4); [exact Hr1 | exact Hs2 | by split |] end.
  cbn [ng_out frame ng_det] in *. split; [exact E1|].
  exists (epb_body f p :: bodies). rewrite E2. cbn [fmap list_fmap]. split; [| split].
  - change (blocks ((6, epb_body f p) :: ?l)) with (block 6 (epb_body f p) ++ blocks l). by rewrite app_assoc.
  - by constructor.
  - destruct (tcp_run i flags r d) as [ps d2]. cbn [fst] in *. rewrite E4. f_equal.
    apply body_packet_epb. rewrite Lp. lia.
Qed.

(** ** Reassembly *)

Section reader.
Variable (l3 : Z).

Definition l4_off : Z := sizeof_lcc + l3.
Definition pkt_in (p : bytes) : bool := be_value (at_off 0 2 p) =? 0.
Definition pkt_seq (p : bytes) : Z := be_value (at_off (l4_off + 4) 4 p).
Definition pkt_flags (p : bytes) : Z := nth (Z.to_nat (l4_off + 13)) p 0.
Definition pkt_payload (p : bytes) : bytes := zdrop (l4_off + 20) p.
(** The sequence space a packet takes. *)
Definition pkt_adv (p : bytes) : Z :=
  if Z.testbit (pkt_flags p) 1 || Z.testbit (pkt_flags p) 0 then 1 else zlen (pkt_payload p).

(** The stream of one direction: [None] when a packet does not start where the one before it
    ended. *)
Fixpoint reassemble (dir : bool) (expect : option Z) (ps : list bytes) : option bytes :=
  match ps with
  | [] => Some []
  | p :: r =>
      if eqb (pkt_in p) dir then
        if match expect with Some e => e =? pkt_seq p | None => true end then
          match reassemble dir (Some ((pkt_seq p + pkt_adv p) mod 2 ^ 32)) r with
          | Some s => Some (pkt_payload p ++ s)
          | None => None
          end
        else None
      else reassemble dir expect r
  end.
End reader.

Definition cur_seq (dir : bool) (d : tcp_details) : Z := if dir then seq_in d else seq_out d.

Definition seqs_ok (d : tcp_details) : Prop := 0 <= seq_in d < 2 ^ 32 /\ 0 <= seq_out d < 2 ^ 32.

Lemma tcp_packet_fields i seg flags d :
  plain (base d) -> next_proto (base d) = TCP -> seqs_ok d ->
  let '(p, d') := tcp_packet i seg flags d in
  let l3 := l3_sz (base d) in
  pkt_in p = i /\ pkt_seq l3 p = cur_seq i d /\ pkt_payload l3 p = seg /\
  cur_seq i d' = (cur_seq i d + pkt_adv l3 p) mod 2 ^ 32 /\ cur_seq (negb i) d' = cur_seq (negb i) d /\
  seqs_ok d'.
Proof.
  intros Hp Ht [Hi Ho]. pose proof (plain_next i _ Hp) as Hn. pose proof (plain_ok _ Hn) as Hk.
  pose proof (tcp_header_ports (set_base (ip_next i (base d)) d) (Z.b2z i) (zlen seg) flags
    (ok_source _ Hk) (ok_destination _ Hk)) as Hh.
  pose proof (zlen_ip_bytes i (zlen seg) _ Hp) as Lip.
  assert (Hseq : let '(h, d') := tcp_header_of (set_base (ip_next i (base d)) d) (Z.b2z i) (zlen seg) flags in
    th_seq h = cur_seq i d /\ cur_seq i d' = u32 (cur_seq i d + (if th_syn h || th_fin h then 1 else zlen seg)) /\
    cur_seq (negb i) d' = cur_seq (negb i) d).
  { unfold tcp_header_of. destruct (extract_ports _). by destruct i. }
  unfold tcp_packet. destruct (tcp_header_of _ _ _ _) as [h d']. destruct Hh as (Ls & Lt & Eb).
  destruct Hseq as (S1 & S2 & S3).
  set (c := L4_chksum _ _ _ _). set (A := lcc_header (base d) (Z.b2z i)). set (B := ip_bytes i (zlen seg) (base d)).
  set (hd := tcphdr_bytes (set_check c h)). assert (Lh : zlen hd = 20) by (by apply zlen_tcphdr).
  assert (LA : zlen A = 16) by apply zlen_lcc.
  set (p := A ++ B ++ hd ++ seg). unfold pkt_seq, pkt_payload, pkt_adv, l4_off, sizeof_lcc.
  assert (Epay : zdrop (16 + l3_sz (base d) + 20) p = seg).
  { unfold p. rewrite !app_assoc. apply zdrop_app_exact. rewrite !zlen_app. fold B in Lip. lia. }
  assert (Eflags : pkt_flags (l3_sz (base d)) p = Z.b2z (th_fin h) + 2 * Z.b2z (th_syn h) + 16 * Z.b2z (th_ack h)).
  { unfold pkt_flags, l4_off, sizeof_lcc. fold B in Lip. pose proof (zlen_nonneg B).
    rewrite zlen_length in *. unfold p. rewrite app_assoc, app_nth2, length_app by (rewrite length_app; lia).
    replace (Z.to_nat (16 + l3_sz (base d) + 13) - (length A + length B))%nat with 13%nat by lia.
    unfold hd, tcphdr_bytes. rewrite <- !app_assoc.
    rewrite ?zlen_length in Ls, Lt. cbn [set_check th_source th_dest].
    rewrite app_nth2 by lia. rewrite app_nth2 by lia.
    replace (13 - length (th_source h) - length (th_dest h))%nat with 9%nat by lia. reflexivity. }
  unfold pkt_flags in Eflags.
  rewrite Epay. split; [| split; [| split; [done | split; [| split; [done|]]]]].
  - unfold pkt_in. replace (at_off 0 2 p) with (be_bytes 2 (if negb (Z.b2z i =? 0) then 0 else 4)).
    + by destruct i.
    + symmetry. unfold p, A, lcc_header. rewrite <- !app_assoc.
      exact (at_off_app 0 2 [] _ _ eq_refl (zlen_be_bytes 2 _)).
  - replace (at_off _ 4 p) with (be_bytes 4 (th_seq h)).
    + rewrite be_value_be_bytes, S1. change (256 ^ Z.of_nat 4) with (2 ^ 32).
      rewrite Z.mod_small; [done|]. by destruct i.
    + symmetry. unfold p, hd, tcphdr_bytes. cbn [set_check th_source th_dest th_seq].
      rewrite <- !app_assoc. rewrite !(app_assoc A), !(app_assoc (A ++ B)).
      rewrite (app_assoc ((A ++ B) ++ th_source h)).
      apply at_off_app; [| apply zlen_be_bytes]. rewrite !zlen_app. fold B in Lip. lia.
  - rewrite S2. unfold u32, wrapu. f_equal. f_equal.
    replace (Z.testbit (pkt_flags (l3_sz (base d)) p) 1) with (th_syn h).
    + replace (Z.testbit (pkt_flags (l3_sz (base d)) p) 0) with (th_fin h); [unfold pkt_payload, l4_off, sizeof_lcc; by rewrite Epay |].
      unfold pkt_flags. rewrite Eflags. by destruct (th_fin h), (th_syn h), (th_ack h).
    + unfold pkt_flags. rewrite Eflags. by destruct (th_fin h), (th_syn h), (th_ack h).
  - assert (0 <= cur_seq i d' < 2 ^ 32) by (rewrite S2; apply u32_bound).
    unfold seqs_ok. destruct i; cbn [cur_seq negb] in *; lia.
Qed.
End runs.

Section reassembly.
Context `{HO : !Host}.

Lemma l3_sz_next i d : l3_sz (ip_next i d) = l3_sz d.
Proof. unfold l3_sz. by destruct (ip_next_fields i d) as (-> & _). Qed.

(** The reassembler follows a run of packets, whatever the direction. *)
Lemma reassemble_run n i flags dir segs : forall d expect rest,
  tcp_ready n d -> seqs_ok d -> (expect = None \/ expect = Some (cur_seq dir d)) ->
  let '(ps, d') := tcp_run i flags segs d in
  seqs_ok d' /\ tcp_ready n d' /\ l3_sz (base d') = l3_sz (base d) /\
  exists expect', (expect' = None \/ expect' = Some (cur_seq dir d')) /\
  reassemble (l3_sz (base d)) dir expect (ps ++ rest) =
  match reassemble (l3_sz (base d)) dir expect' rest with
  | Some s => Some ((if eqb i dir then concat segs else []) ++ s)
  | None => None
  end.
Proof.
  induction segs as [| s r IH]; intros d expect rest Hr Hq He; cbn [tcp_run].
  { split; [done | split; [done | split; [done |]]]. exists expect. split; [done|]. cbn [app concat].
    destruct (eqb i dir); by destruct (reassemble _ _ _ _). }
  pose proof Hr as [Hp Ht Hn]. pose proof (tcp_packet_fields i s flags d Hp Ht Hq) as Hf.
  pose proof (tcp_ready_next _ i s flags d Hr) as Hr1. pose proof (tcp_packet_details i s flags d) as Hb.
  destruct (tcp_packet i s flags d) as [p d1]. cbn [snd] in *.
  destruct Hf as (F1 & F2 & F3 & F4 & F5 & F6).
  assert (L1 : l3_sz (base d1) = l3_sz (base d)) by (by rewrite Hb, l3_sz_next).
  destruct (eqb i dir) eqn:Ed.
  - apply eqb_prop in Ed as <-.
    specialize (IH d1 (Some (cur_seq i d1)) rest Hr1 F6 (or_intror eq_refl)).
    rewrite L1 in IH. destruct (tcp_run i flags r d1) as [ps d2].
    destruct IH as (Q & R & L2 & e & He' & E). rewrite ?eqb_reflx in E.
    split; [done | split; [done | split; [done |]]]. exists e. split; [done|].
    cbn [app reassemble]. rewrite F1, eqb_reflx, F2, F3, <- F4.
    assert (T : (match expect with Some x => x =? cur_seq i d | None => true end) = true)
      by (destruct He as [-> | ->]; [done | apply Z.eqb_refl]).
    rewrite T, E. destruct (reassemble _ _ _ rest); [| done]. cbn [concat]. by rewrite <- app_assoc.
  - assert (Hdir : dir = negb i) by (by destruct i, dir). subst dir.
    specialize (IH d1 expect rest Hr1 F6). rewrite F5 in IH. specialize (IH He).
    rewrite L1 in IH. destruct (tcp_run i flags r d1) as [ps d2].
    destruct IH as (Q & R & L2 & e & He' & E). rewrite ?Ed in E.
    split; [done | split; [done | split; [done |]]]. exists e. split; [done|].
    cbn [app reassemble]. rewrite F1, Ed. exact E.
Qed.

Lemma tcp_run_seq n i flags segs : forall d,
  tcp_ready n d -> seqs_ok d -> syn_flag flags = false -> fin_flag flags = false ->
  let d' := snd (tcp_run i flags segs d) in
  cur_seq i d' = (cur_seq i d + zlen (concat segs)) mod 2 ^ 32 /\ cur_seq (negb i) d' = cur_seq (negb i) d.
Proof.
  induction segs as [| s r IH]; intros d Hr Hq Hs Hf; cbn [tcp_run snd concat].
  { split; [| done]. rewrite zlen_nil, Z.add_0_r, Z.mod_small; [done|]. destruct Hq. by destruct i. }
  pose proof Hr as [Hp Ht Hn]. pose proof (tcp_packet_fields i s flags d Hp Ht Hq) as HF.
  pose proof (tcp_ready_next _ i s flags d Hr) as Hr1.
  assert (A : cur_seq i (snd (tcp_packet i s flags d)) = u32 (cur_seq i d + zlen s)).
  { unfold tcp_packet, tcp_header_of. rewrite Hs, Hf. cbn [orb]. destruct (extract_ports _). by destruct i. }
  destruct (tcp_packet i s flags d) as [p d1]. cbn [snd] in *. destruct HF as (_ & _ & _ & _ & F5 & F6).
  specialize (IH d1 Hr1 F6 Hs Hf). destruct (tcp_run i flags r d1) as [ps d2]. cbn [snd] in *.
  destruct IH as [I1 I2]. rewrite I1, I2, A, zlen_app. split; [| done].
  unfold u32, wrapu. rewrite Zplus_mod_idemp_l. f_equal. lia.
Qed.

(** [C21] For a TCP connection over IPv4 or IPv6 outside a GRE tunnel, with memory available, a frame
    whose options fit their fields with at most one of them not empty, flags without SYN and FIN,
    sequence numbers of 32 bits and data of at most 2^31 bytes: appending the data completes and leaves
    blocks that a reader splits exactly; each carries one packet with at most [max_data_size] bytes
    of payload (all of the data when that limit is not positive), a reassembler that follows the
    sequence numbers gets the data back, and the sequence number of the direction moves by its size,
    the other's stays. *)
Theorem segments_carry_the_data (mem : forall k, can_alloc k = true) data i flags w :
  tcp_ready (zlen data) (ng_det w) -> seqs_ok (ng_det w) -> opts_ok (frame w) ->
  syn_flag flags = false -> fin_flag flags = false ->
  exists w' bodies,
    append_TCP data (zlen data) (Z.b2z i) flags w = Ret (zlen (ng_out w')) w' /\
    ng_out w' = ng_out w ++ blocks ((fun b => (6, b)) <$> bodies) /\
    (forall k, (length bodies <= k)%nat ->
       read_blocks k (blocks ((fun b => (6, b)) <$> bodies)) = Some ((fun b => (6, b)) <$> bodies)) /\
    (let l3 := l3_sz (base (ng_det w)) in
     let m := max_data_size (base (ng_det w)) in
     Forall (fun b => zlen (pkt_payload l3 (body_packet b)) <= (if m <=? 0 then zlen data else m)) bodies /\
     reassemble l3 i (Some (cur_seq i (ng_det w))) (body_packet <$> bodies) = Some data) /\
    cur_seq i (ng_det w') = (cur_seq i (ng_det w) + zlen data) mod 2 ^ 32 /\
    cur_seq (negb i) (ng_det w') = cur_seq (negb i) (ng_det w).
Proof.
  intros Hr Hq Ho Hs Hf. set (segs := segments (base (ng_det w)) data).
  destruct (segments_spec (base (ng_det w)) data) as [Ec Hseg]. fold segs in Ec, Hseg.
  assert (Hlen : Forall (fun s : bytes => zlen s <= zlen data) segs)
    by (eapply Forall_impl; [exact Hseg | cbn; lia]).
  destruct (run_segs_blocks (zlen data) i flags segs w Hr Hlen Ho) as (_ & bodies & E1 & E2 & E3).
  exists (run_segs i flags segs w), bodies.
  split; [by apply append_TCP_plain |]. split; [exact E1|].
  pose proof (reassemble_run (zlen data) i flags i segs (ng_det w) (Some (cur_seq i (ng_det w))) []
    Hr Hq (or_intror eq_refl)) as Hre.
  pose proof (tcp_run_seq (zlen data) i flags segs (ng_det w) Hr Hq Hs Hf) as Hsq. cbv zeta in Hsq.
  rewrite <- run_segs_details, Ec in Hsq.
  split; [| split; [split |]].
  - intros k Hk. apply read_blocks_all; [| by rewrite length_fmap].
    apply Forall_fmap. eapply Forall_impl; [exact E2 | cbn; intros; split; [done | lia]].
  - assert (Hpay : Forall (fun p => exists s, s ∈ segs /\ pkt_payload (l3_sz (base (ng_det w))) p = s)
      (fst (tcp_run i flags segs (ng_det w)))).
    { clear -Hr Hq. revert Hr Hq. generalize (ng_det w) as d. intros d Hr Hq.
      set (l3 := l3_sz (base d)). assert (L : l3_sz (base d) = l3) by done. clearbody l3.
      revert d Hr Hq L. induction segs as [| s r IH]; intros d Hr Hq L; cbn [tcp_run fst]; [constructor|].
      pose proof Hr as [Hp Ht Hn]. pose proof (tcp_packet_fields i s flags d Hp Ht Hq) as HF.
      pose proof (tcp_ready_next _ i s flags d Hr) as Hr1. pose proof (tcp_packet_details i s flags d) as Hb.
      destruct (tcp_packet i s flags d) as [p d1]. cbn [snd] in *. destruct HF as (_ & _ & F3 & _ & _ & F6).
      specialize (IH d1 Hr1 F6). destruct (tcp_run i flags r d1) as [ps d2]. cbn [fst] in *.
      constructor; [exists s; rewrite <- L; split; [by left | done] |].
      eapply Forall_impl; [apply IH; by rewrite Hb, l3_sz_next |].
      cbn. intros p' (s' & ? & ?). exists s'. split; [by right | done]. }
    rewrite <- E3 in Hpay. rewrite Forall_fmap in Hpay.
    eapply Forall_impl; [exact Hpay | cbn; intros b (s & Hin & ->)].
    rewrite Forall_forall in Hseg. destruct (Hseg s Hin) as [H1 H2].
    destruct (Z.leb_spec (max_data_size (base (ng_det w))) 0); [done | by apply H2].
  - rewrite E3. destruct (tcp_run i flags segs (ng_det w)) as [ps d'].
    destruct Hre as (_ & _ & _ & e & _ & E). rewrite app_nil_r in E. cbn [fst]. rewrite E. cbn [reassemble].
    rewrite eqb_reflx, app_nil_r. by rewrite Ec.
  - exact Hsq.
Qed.
End reassembly.

Definition sample_frame : ng tcp_details :=
  mkNg (comment [104; 105] default_epb) [9; 9] sample_tcp [].

Lemma sample_ready : tcp_ready 5 sample_tcp /\ seqs_ok sample_tcp /\ opts_ok (frame sample_frame).
Proof.
  split; [split; [apply sample_plain | done | done] |]. split; [done|].
  split; [repeat constructor | done | done].
Defined.

Lemma segments_carry_the_data_witness :
  exists w' bodies,
    @append_TCP plain_host [1; 2; 3; 4; 5] 5 1 4 sample_frame = Ret (zlen (ng_out w')) w' /\
    ng_out w' = [9; 9] ++ blocks ((fun b => (6, b)) <$> bodies) /\
    Forall (fun b => zlen (pkt_payload 20 (body_packet b)) <= 2) bodies /\
    reassemble 20 true (Some 11111) (body_packet <$> bodies) = Some [1; 2; 3; 4; 5].
Proof.
  destruct sample_ready as (H1 & H2 & H3).
  destruct (@segments_carry_the_data plain_host (fun _ => eq_refl) [1; 2; 3; 4; 5] true 4 sample_frame
    H1 H2 H3 eq_refl eq_refl) as (w' & bodies & E1 & E2 & _ & (E4 & E5) & _).
  exists w', bodies. split; [exact E1|]. split; [exact E2|]. split; [exact E4 | exact E5].
Defined.
