(* ===== verification/PcapLog.v ===== *)
(** * PcapLog: the capture log of a proxy (src/traflog/pcaplog.hpp, src/traflog/pcaplog.cpp)

    A log turns what a proxy reads on either side into pcapng blocks and hands them to a writer.
    Writers and the file calls are an interface ([Files]) whose contract is [FilesOk]; the log of
    one connection may share the single instance of the class, so the state holds both objects. *)

From S2P Require Import Text.
From S2P Require Export Pcapng.

(** File names are bytes. *)
Abbreviation name := bytes.

(** [baseFileWriter], a turn of the writer's own thread, and the stat(2), remove(3), rename(2), creat(2) calls of the log; [fs_name]
    is [generate_filename_single("smithproxy", true)] at the time of the call. *)
Class Files : Type := {
  fs : Type;
  w_write : name -> bytes -> fs -> Z * fs;
  w_flush : name -> fs -> bool * fs;
  w_open : name -> fs -> bool * fs;
  w_close : name -> fs -> bool * fs;
  w_opened : fs -> bool;
  w_recreate : name -> fs -> bool * fs;
  w_work : fs -> fs;
  os_exists : name -> fs -> bool;
  os_remove : name -> fs -> bool * fs;
  os_rename : name -> name -> fs -> bool * fs;
  os_creat : name -> fs -> fs;
  fs_name : bytes -> bytes -> bytes -> fs -> name * fs
}.

(** The contract: what a writer has taken for a name is only added to, by writes, and a name
    created anew starts empty.  [taken f n] is [None] while there is no such file; the laws hold as
    long as files are not moved or removed behind the writer ([files_ok]). *)
Class FilesOk `{!Files} : Type := {
  files_ok : fs -> Prop;
  taken : fs -> name -> option bytes;
  write_taken : forall n b f, files_ok f -> taken f n <> None ->
    fst (w_write n b f) = zlen b /\ files_ok (snd (w_write n b f)) /\
    taken (snd (w_write n b f)) n = option_map (fun x => x ++ b) (taken f n);
  flush_taken : forall n f, files_ok f ->
    files_ok (snd (w_flush n f)) /\ forall m, taken (snd (w_flush n f)) m = taken f m;
  close_taken : forall n f, files_ok f ->
    files_ok (snd (w_close n f)) /\ forall m, taken (snd (w_close n f)) m = taken f m;
  recreate_taken : forall n f, files_ok f ->
    fst (w_recreate n f) = (match taken f n with None => true | Some _ => false end) /\
    files_ok (snd (w_recreate n f)) /\ forall m, taken (snd (w_recreate n f)) m = taken f m;
  creat_taken : forall n f, files_ok f -> taken f n = None ->
    files_ok (os_creat n f) /\ taken (os_creat n f) n = Some [];
  work_taken : forall f, files_ok f -> files_ok (w_work f) /\ forall m, taken (w_work f) m = taken f m;
  always_opened : forall f, w_opened f = true
}.

Inductive side_t : Type := LEFT | RIGHT.

(** [PcapLog::ip_packet_hook_only] *)
Class LogHost : Type := { log_host :: Host; ip_packet_hook_only : bool }.

Record pcaplog : Type := mkLog {
  details : tcp_details;
  filename_full : name;
  data_dir : bytes;
  file_prefix : bytes;
  file_suffix : bytes;
  single_only : bool;
  pcap_header_written : bool;
  tcp_start_written : bool;
  stat_bytes_written : Z;
  stat_bytes_quota : Z;
  rotate_now : bool;
  comlog : bytes;
  log_hook : bool;
  has_parent : bool;
  has_writer : bool
}.

Definition set_details (v : tcp_details) (l : pcaplog) : pcaplog :=
  mkLog v (filename_full l) (data_dir l) (file_prefix l) (file_suffix l) (single_only l)
    (pcap_header_written l) (tcp_start_written l) (stat_bytes_written l) (stat_bytes_quota l)
    (rotate_now l) (comlog l) (log_hook l) (has_parent l) (has_writer l).
Definition set_filename (v : name) (l : pcaplog) : pcaplog :=
  mkLog (details l) v (data_dir l) (file_prefix l) (file_suffix l) (single_only l)
    (pcap_header_written l) (tcp_start_written l) (stat_bytes_written l) (stat_bytes_quota l)
    (rotate_now l) (comlog l) (log_hook l) (has_parent l) (has_writer l).
Definition set_header_written (v : bool) (l : pcaplog) : pcaplog :=
  mkLog (details l) (filename_full l) (data_dir l) (file_prefix l) (file_suffix l) (single_only l)
    v (tcp_start_written l) (stat_bytes_written l) (stat_bytes_quota l)
    (rotate_now l) (comlog l) (log_hook l) (has_parent l) (has_writer l).
Definition set_start_written (v : bool) (l : pcaplog) : pcaplog :=
  mkLog (details l) (filename_full l) (data_dir l) (file_prefix l) (file_suffix l) (single_only l)
    (pcap_header_written l) v (stat_bytes_written l) (stat_bytes_quota l)
    (rotate_now l) (comlog l) (log_hook l) (has_parent l) (has_writer l).
Definition set_written (v : Z) (l : pcaplog) : pcaplog :=
  mkLog (details l) (filename_full l) (data_dir l) (file_prefix l) (file_suffix l) (single_only l)
    (pcap_header_written l) (tcp_start_written l) v (stat_bytes_quota l)
    (rotate_now l) (comlog l) (log_hook l) (has_parent l) (has_writer l).
Definition set_quota (v : Z) (l : pcaplog) : pcaplog :=
  mkLog (details l) (filename_full l) (data_dir l) (file_prefix l) (file_suffix l) (single_only l)
    (pcap_header_written l) (tcp_start_written l) (stat_bytes_written l) v
    (rotate_now l) (comlog l) (log_hook l) (has_parent l) (has_writer l).
Definition set_rotate (v : bool) (l : pcaplog) : pcaplog :=
  mkLog (details l) (filename_full l) (data_dir l) (file_prefix l) (file_suffix l) (single_only l)
    (pcap_header_written l) (tcp_start_written l) (stat_bytes_written l) (stat_bytes_quota l)
    v (comlog l) (log_hook l) (has_parent l) (has_writer l).
Definition set_comlog (v : bytes) (l : pcaplog) : pcaplog :=
  mkLog (details l) (filename_full l) (data_dir l) (file_prefix l) (file_suffix l) (single_only l)
    (pcap_header_written l) (tcp_start_written l) (stat_bytes_written l) (stat_bytes_quota l)
    (rotate_now l) v (log_hook l) (has_parent l) (has_writer l).
Definition set_writer (v : bool) (l : pcaplog) : pcaplog :=
  mkLog (details l) (filename_full l) (data_dir l) (file_prefix l) (file_suffix l) (single_only l)
    (pcap_header_written l) (tcp_start_written l) (stat_bytes_written l) (stat_bytes_quota l)
    (rotate_now l) (comlog l) (log_hook l) (has_parent l) v.

Section pcaplog.
Context `{FI : !Files} `{LH : !LogHost}.

(** This log, the single instance, the writer with its files, and the packets the hooks saw. *)
Record lworld : Type := mkLWorld {
  me : pcaplog; single : pcaplog; files : fs; shown : list (connection_details * bytes)
}.

Definition self (w : lworld) : pcaplog := if single_only (me w) then single w else me w.
Definition on_me (f : pcaplog -> pcaplog) : M lworld unit :=
  modify (fun w => mkLWorld (f (me w)) (single w) (files w) (shown w)).
(** A change of [*self], where [self] was chosen by [single_only] of this log. *)
Definition on_self (f : pcaplog -> pcaplog) : M lworld unit :=
  modify (fun w =>
    if single_only (me w) then mkLWorld (me w) (f (single w)) (files w) (shown w)
    else mkLWorld (f (me w)) (single w) (files w) (shown w)).
Definition on_files {A} (f : fs -> A * fs) : M lworld A := fun w =>
  let '(a, s) := f (files w) in Ret a (mkLWorld (me w) (single w) s (shown w)).

(** Work on a block [f] and a local buffer [o], with the details of this log. *)
Definition with_frame {A} (f : pcapng_epb) (o : bytes) (m : M (ng tcp_details) A)
  : M lworld (A * pcapng_epb * bytes) := fun w =>
  let back n := mkLWorld (set_details (ng_det n) (me w)) (single w) (files w) (hooked n) in
  match m (mkNg f o (details (me w)) (shown w)) with
  | Ret a n => Ret (a, frame n, ng_out n) (back n)
  | Throw e n => Throw e (back n)
  | Undef => Undef
  end.
Definition as_base_ng {A} (m : M (ng connection_details) A) : M (ng tcp_details) A := fun n =>
  let back k := mkNg (frame k) (ng_out k) (set_base (ng_det k) (ng_det n)) (hooked k) in
  match m (mkNg (frame n) (ng_out n) (base (ng_det n)) (hooked n)) with
  | Ret a k => Ret a (back k)
  | Throw e k => Throw e (back k)
  | Undef => Undef
  end.

(** [writer_->write(FS.filename_full, out)] with the byte count added to [stat_bytes_written]. *)
Definition log_out (o : bytes) : M lworld unit :=
  n <- gets (fun w => filename_full (self w)) ;;
  wr <- on_files (w_write n o) ;;
  on_self (fun l => set_written (s64 (stat_bytes_written l + wr)) l).

(** [comment_frame], on [*self] *)
Definition comment_frame_self (f : pcapng_epb) : M lworld pcapng_epb :=
  c <- gets (fun w => comlog (self w)) ;;
  match c with
  | [] => mret_ f
  | _ => on_self (set_comlog []) ;;; mret_ (comment c f)
  end.

(** [comment_frame], on this log *)
Definition comment_frame_me (f : pcapng_epb) : M lworld pcapng_epb :=
  c <- gets (fun w => comlog (me w)) ;;
  match c with
  | [] => mret_ f
  | _ => on_me (set_comlog []) ;;; mret_ (comment c f)
  end.

Definition new_frame : M lworld pcapng_epb := gets (fun w => set_hook (log_hook (self w)) default_epb).

Definition write_pcap_header (is_recreated : bool) : M lworld unit :=
  h <- gets (fun w => pcap_header_written (self w)) ;;
  when (negb h || is_recreated)
    (let o := fst (shb_append default_shb) ++ fst (ifb_append default_ifb) in
     when (negb ip_packet_hook_only) (log_out o) ;;;
     on_self (set_header_written true)).

Definition write_tcp_start : M lworld unit :=
  f <- new_frame ;;
  let! (_, _, o) := with_frame f [] (append_TCP [] 0 0 1) in
  f <- new_frame ;;
  let! (_, _, o) := with_frame f o (append_TCP [] 0 1 5) in
  f <- new_frame ;;
  let! (_, _, o) := with_frame f o (append_TCP [] 0 0 4) in
  when (negb ip_packet_hook_only)
    (n <- gets (fun w => filename_full (self w)) ;;
     wr <- on_files (w_write n o) ;;
     on_files (w_flush n) ;;;
     on_self (fun l => set_written (s64 (stat_bytes_written l + wr)) l)).

(** [side == side_t::RIGHT] *)
Definition is_right (s : side_t) : Z := match s with RIGHT => 1 | LEFT => 0 end.

(** The size returned is unsigned: the error value -1 is also greater than zero. *)
Definition write_tcp_data (side : side_t) (b : bytes) : M lworld unit :=
  f <- new_frame ;;
  f <- comment_frame_self f ;;
  let! (r, _, o) := with_frame f [] (append_TCP b (zlen b) (is_right side) 4) in
  when ((0 <? r) && negb ip_packet_hook_only) (log_out o).

Definition write_udp_data (side : side_t) (b : bytes) : M lworld unit :=
  f <- new_frame ;;
  f <- comment_frame_self f ;;
  let! (r, _, o) := with_frame f [] (as_base_ng (append_UDP b (zlen b) (is_right side))) in
  when ((0 <? r) && negb ip_packet_hook_only) (log_out o).

(** The old file is moved away: ["smithproxy.old."] *)
Definition old_part : bytes :=
  [115; 109; 105; 116; 104; 112; 114; 111; 120; 121; 46; 111; 108; 100; 46].
Definition renamed_fnm (l : pcaplog) : name :=
  data_dir l ++ [47] ++ file_prefix l ++ old_part ++ file_suffix l.

Definition move_current : M lworld unit :=
  l <- gets self ;;
  on_files (w_close (filename_full l)) ;;;
  ok <- on_files (os_rename (filename_full l) (renamed_fnm l)) ;;
  when ok
    (n <- on_files (fs_name (data_dir l) (file_prefix l) (file_suffix l)) ;;
     on_self (set_filename n) ;;; on_self (set_written 0)).

Definition rotate : M lworld unit :=
  l <- gets self ;;
  when ((0 <? stat_bytes_quota l) && (stat_bytes_quota l <=? 10000000)) (on_self (set_quota 10000000)) ;;;
  l <- gets self ;;
  when (((0 <? stat_bytes_quota l) && (stat_bytes_quota l <=? stat_bytes_written l)) || rotate_now l)
    (on_self (set_rotate false) ;;;
     exists_ <- gets (fun w => os_exists (renamed_fnm l) (files w)) ;;
     if (exists_ : bool) then
       ok <- on_files (os_remove (renamed_fnm l)) ;;
       when ok move_current
     else move_current).

Definition prepare_file : M lworld bool :=
  s <- gets (fun w => single_only (me w)) ;;
  when s rotate ;;;
  n <- gets (fun w => filename_full (self w)) ;;
  again <- on_files (w_recreate n) ;;
  if (again : bool) then on_files (fun f => (tt, os_creat n f)) ;;; mret_ true
  else mret_ false.

Definition log_write (side : side_t) (b : bytes) : M lworld unit :=
  hw <- gets (fun w => has_writer (self w)) ;;
  when (negb hw) (on_self (set_writer true)) ;;;
  opened <- gets (fun w => w_opened (files w)) ;;
  n <- gets (fun w => filename_full (self w)) ;;
  when (negb opened) (on_files (w_open n) ;;; mret_ tt) ;;;
  opened <- gets (fun w => w_opened (files w)) ;;
  if negb ip_packet_hook_only && negb opened then mret_ tt
  else
    when (negb ip_packet_hook_only)
      (is_recreated <- prepare_file ;;
       when is_recreated (on_self (set_written 0)) ;;;
       write_pcap_header is_recreated) ;;;
    p <- gets (fun w => next_proto (base (details (me w)))) ;;
    if p =? TCP then
      started <- gets (fun w => tcp_start_written (me w)) ;;
      when (negb started) (write_tcp_start ;;; on_me (set_start_written true)) ;;;
      write_tcp_data side b
    else when (p =? UDP) (write_udp_data side b).

(** [write(side, string)]: text for the comment of a later frame. *)
Definition log_comment (s : bytes) : M lworld unit := on_me (fun l => set_comlog (comlog l ++ s) l).

(** [baseTrafficLogger::write_left] and [write_right]; [status] is the switch of the log. *)
Definition write_left (status : bool) (b : bytes) : M lworld unit := when status (log_write LEFT b).
Definition write_right (status : bool) (b : bytes) : M lworld unit := when status (log_write RIGHT b).

(** [~PcapLog]: both FIN packets are written with the first block object. *)
Definition log_fins : M lworld unit :=
  f1 <- new_frame ;;
  f1 <- comment_frame_me f1 ;;
  let! (_, f1, o) := with_frame f1 [] (append_TCP [] 0 0 6) in
  let! (_, _, o) := with_frame f1 o (append_TCP [] 0 1 6) in
  n <- gets (fun w => filename_full (self w)) ;;
  when (negb ip_packet_hook_only) (on_files (w_write n o) ;;; mret_ tt).

(** The exceptions the destructor handles. *)
Definition caught (e : exn) : bool :=
  match e with mempool_error | invalid_argument | out_of_range => true | _ => false end.

Definition log_dtor : M lworld unit := fun w =>
  if has_writer (me w) && has_parent (me w) then
    let m :=
      when ((next_proto (base (details (me w))) =? TCP) && tcp_start_written (me w)) log_fins ;;;
      on_files (w_flush (filename_full (me w))) ;;;
      on_files (w_close (filename_full (me w))) ;;; mret_ tt in
    match m w with
    | Throw e w' => if caught e then Ret tt w' else Throw e w'
    | r => r
    end
  else Ret tt w.
End pcaplog.

(** ** Construction *)

(** A side of the proxy: host, port (when it is a number), l3 and l4 protocol of its com. *)
Record endpoint : Type := mkEnd { e_host : bytes; e_port : Z; e_l3 : Z; e_l4 : Z }.

(** [PcapLog(parent, ...)]: [junk] are the details as the members were before, [rnd] the two random
    numbers.  The early returns of the code leave everything but the file names as it was; they
    reset the parameter [parent], not the member. *)
Definition pcaplog_ctor `{IN : !Inet} (parent com : bool) (ls rs : option endpoint) (junk : tcp_details)
    (rnd : Z * Z) (l : pcaplog) : pcaplog :=
  let l := mkLog junk (filename_full l) (data_dir l) (file_prefix l) (file_suffix l) false false false 0 0
    false [] false parent false in
  if negb parent || negb com then l
  else match ls, rs with
  | Some a, Some b =>
      let src := pack_ss (e_l3 a) (e_host a) (e_port a) in
      let dst := pack_ss (e_l3 b) (e_host b) (e_port b) in
      let j := base junk in
      let proto := if e_l4 a =? SOCK_STREAM then TCP else UDP in
      let d := mkDetails src dst (ip_id_in j) (ip_id_out j) (if e_l3 a =? AF_INET6 then 6 else 4) proto
        (ttl j) (tun_proto j) (tun_ttl j) (tun_details j) (max_data_size j) in
      let t := if proto =? TCP
        then mkTcp d (u32 (fst rnd)) (u32 (snd rnd)) (tcp_lastack_in junk) (tcp_lastack_out junk)
        else mkTcp d (seq_in junk) (seq_out junk) (tcp_lastack_in junk) (tcp_lastack_out junk) in
      set_writer true (set_details t l)
  | _, _ => l
  end.

(** ** Names of logs (src/traflog/fsoutput.cpp, fsoutput.hpp, traflog.cpp) *)

(** What a name is made of: the contexts of the proxy with their names and hosts, those of its
    accepted and of its delayed ones, and how many others a side has. *)
Record cap_cx : Type := mkCapCx { cc_name : bytes; cc_host : bytes }.
Record cap_proxy : Type := mkCapProxy {
  p_ls : list cap_cx; p_lda : list cap_cx; p_rs : list cap_cx; p_rda : list cap_cx; p_lmore : Z; p_rmore : Z
}.
Definition p_lsize (p : cap_proxy) : Z := zlen (p_ls p) + p_lmore p + zlen (p_lda p).
Definition p_rsize (p : cap_proxy) : Z := zlen (p_rs p) + p_rmore p + zlen (p_rda p).

(** A calendar time, and the pool the texts are formatted in. *)
Record tm : Type := mkTm { tm_year : Z; tm_mon : Z; tm_mday : Z; tm_hour : Z; tm_min : Z; tm_sec : Z }.

Section names.
Context (pool_gives : Z -> bool).

Definition formatted {W} (rendering : bytes) : M W bytes := fun w =>
  match string_format pool_gives rendering with Ret t _ => Ret t w | Throw e _ => Throw e w | Undef => Undef end.

Definition first_of (s da : list cap_cx) : option cap_cx := match s with x :: _ => Some x | [] => head da end.
Definition traflog_dir_key (p : cap_proxy) : bytes := default [] (cc_host <$> first_of (p_ls p) (p_lda p)).

Definition unknown : bytes := text "unknown".
Definition traflog_file_key {W} (p : option cap_proxy) (left : bool) : M W bytes :=
  match p with
  | None => mret_ []
  | Some p =>
      let l := default [] (cc_name <$> first_of (p_ls p) (p_lda p)) in
      let r := default [] (cc_name <$> first_of (p_rs p) (p_rda p)) in
      let pair a b := formatted (a ++ text "-" ++ b) in
      if left then
        if (0 <? p_lsize p) && (0 <? p_rsize p) then pair l r
        else if 0 <? p_lsize p then pair l unknown
        else if 0 <? p_rsize p then pair unknown r
        else mret_ (text "unknown-unknown")
      else
        if (0 <? p_lsize p) && (0 <? p_rsize p) then pair r l
        else if 0 <? p_rsize p then pair r unknown
        else if 0 <? p_lsize p then pair unknown l
        else mret_ (text "unknown-unknown")
  end.

(** [FsOutput] and the directories asked for, in order. *)
Record fsoutput : Type := mkFso {
  o_filename : name; writer_key_l : bytes; writer_key_r : bytes; o_dir : bytes; o_prefix : bytes; o_suffix : bytes; host_l : bytes
}.
Record fsworld : Type := mkFsw { fso : fsoutput; created : list name }.
Definition on_fso (f : fsoutput -> fsoutput) : M fsworld unit := modify (fun w => mkFsw (f (fso w)) (created w)).
Definition create_dir (d : name) : M fsworld unit := modify (fun w => mkFsw (fso w) (created w ++ [d])).
Definition d02 (x : Z) : bytes := pad0 2 (decimal x).

Definition set_keys (h l r : bytes) (o : fsoutput) : fsoutput := mkFso (o_filename o) l r (o_dir o) (o_prefix o) (o_suffix o) h.
Definition set_name (n : name) (o : fsoutput) : fsoutput :=
  mkFso n (writer_key_l o) (writer_key_r o) (o_dir o) (o_prefix o) (o_suffix o) (host_l o).

Definition generate_filename (p : cap_proxy) (create_dirs : bool) (loc : tm) : M fsworld name :=
  kl <- traflog_file_key (Some p) true ;;
  kr <- traflog_file_key (Some p) false ;;
  on_fso (set_keys (traflog_dir_key p) kl kr) ;;;
  if (zlen kl =? 0) || (zlen kr =? 0) then mret_ []
  else
    o <- gets fso ;;
    when create_dirs (create_dir (o_dir o)) ;;;
    let hostdir := o_dir o ++ text "/" ++ host_l o ++ text "/" in
    when create_dirs (create_dir hostdir) ;;;
    datedir <- formatted (decimal (tm_year loc + 1900) ++ text "-" ++ d02 (tm_mon loc + 1) ++ text "-" ++ d02 (tm_mday loc) ++ text "/") ;;
    when create_dirs (create_dir (hostdir ++ datedir)) ;;;
    timepart <- formatted (d02 (tm_hour loc) ++ text "-" ++ d02 (tm_min loc) ++ text "-" ++ d02 (tm_sec loc) ++ text "_") ;;
    let n := hostdir ++ datedir ++ o_prefix o ++ timepart ++ writer_key_l o ++ text "." ++ o_suffix o in
    on_fso (set_name n) ;;; mret_ n.

Definition generate_filename_single (filename : bytes) (create_dirs : bool) (loc : tm) : M fsworld name :=
  o <- gets fso ;;
  when create_dirs (create_dir (o_dir o)) ;;;
  datepart <- formatted (decimal (tm_year loc + 1900) ++ text "-" ++ d02 (tm_mon loc + 1) ++ text "-" ++ d02 (tm_mday loc)) ;;
  timepart <- formatted (d02 (tm_hour loc) ++ text "-" ++ d02 (tm_min loc) ++ text "-" ++ d02 (tm_sec loc)) ;;
  let n := o_dir o ++ text "/" ++ o_prefix o ++ filename ++ text "-" ++ datepart ++ text "--" ++ timepart ++ text "." ++ o_suffix o in
  on_fso (set_name n) ;;; mret_ n.

Definition no_key : bytes := text "???:???".
(** [FsOutput(proxy, ...)], on the empty object. *)
Definition FsOutput (p : option cap_proxy) (d_dir f_prefix f_suffix : bytes) (create_dirs : bool) (loc : tm)
    (made : list name) : outcome fsworld name :=
  let w := mkFsw (mkFso [] no_key no_key d_dir f_prefix f_suffix []) made in
  match p with
  | Some p => generate_filename p create_dirs loc w
  | None => generate_filename_single (text "capture") create_dirs loc w
  end.
End names.

(** ** The text log (src/traflog/smcaplog.cpp, smcaplog.hpp) *)

Section smcap.
Context `{FI : !Files}.

Record smworld : Type := mkSm { FS_ : fsoutput; sm_files : fs }.
Definition in_files {A} (f : fs -> A * fs) : M smworld A := fun w =>
  let '(a, s) := f (sm_files w) in Ret a (mkSm (FS_ w) s).

(** [ctime] of the seconds, and the microseconds. *)
Record moment : Type := mkMoment { ctime : bytes; usec : Z }.

(** An entry: the time, the keys of both sides and the text. *)
Definition sm_entry (o : fsoutput) (t : moment) (side : side_t) (s : bytes) : bytes :=
  let '(k1, k2) := match side with
                   | RIGHT => (writer_key_r o, writer_key_l o)
                   | LEFT => (writer_key_l o, writer_key_r o)
                   end in
  ctime t ++ text "+" ++ decimal (usec t) ++ text ": " ++ k1 ++ text "(" ++ k2 ++ text ")" ++ [10] ++ s ++ [10].

Definition sm_write (t : moment) (side : side_t) (s : bytes) : M smworld unit :=
  o <- gets FS_ ;;
  opened <- gets (fun w => w_opened (sm_files w)) ;;
  when (negb opened) (in_files (w_open (o_filename o)) ;;; mret_ tt) ;;;
  opened <- gets (fun w => w_opened (sm_files w)) ;;
  when opened (in_files (w_write (o_filename o) (sm_entry o t side s)) ;;; mret_ tt).

(** [write] of a buffer: its dump, the right side indented. *)
Definition sm_write_buffer (t : moment) (side : side_t) (b : bytes) : M smworld unit :=
  match side with
  | LEFT => sm_write t side (hex_dump (mkDumpOpts 0 62 false 0) b)
  | RIGHT => sm_write t side (hex_dump (mkDumpOpts 2 60 false 0) b)
  end.

(** [~SmcapLog]; the writer is the shared one and stays. *)
Definition sm_dtor : M smworld unit :=
  o <- gets FS_ ;;
  when (negb (zlen (o_filename o) =? 0)) (in_files (w_close (o_filename o)) ;;; mret_ tt).
End smcap.
