(* ===== verification/PcapLogProps.v ===== *)
(** * PcapLogProps: a capture file reads back as what was logged

    The log of a connection against the contract of its writer: for any sequence of reads and
    comments, then the end of the connection, the file is a pcapng file from which a reader gets
    both streams back. *)

From S2P Require Import Text TextProps.
From S2P Require Export PcapLog PcapngProps.

Ltac Zify.zify_post_hook ::= Z.to_euclidean_division_equations.

(** ** Flows: successive runs of packets *)

Record run : Type := mkRun { r_in : bool; r_flags : Z; r_data : bytes }.

Section flow.
Context `{HO : !Host}.

Fixpoint flow (d : tcp_details) (rs : list run) : list bytes * tcp_details :=
  match rs with
  | [] => ([], d)
  | r :: rs =>
      let '(ps, d1) := tcp_run (r_in r) (r_flags r) (segments (base d) (r_data r)) d in
      let '(qs, d2) := flow d1 rs in (ps ++ qs, d2)
  end.

(** What the runs of a direction carry. *)
Definition carried (dir : bool) (rs : list run) : bytes :=
  concat ((fun r => if eqb (r_in r) dir then r_data r else []) <$> rs).

Lemma flow_app d rs qs :
  flow d (rs ++ qs) =
  let '(p1, d1) := flow d rs in let '(p2, d2) := flow d1 qs in (p1 ++ p2, d2).
Proof.
  revert d. induction rs as [| r rs IH]; intros d; cbn [app flow]; [by destruct (flow d qs)|].
  destruct (tcp_run _ _ _ d) as [ps d1]. rewrite IH. destruct (flow d1 rs) as [p1 e1].
  destruct (flow e1 qs) as [p2 e2]. by rewrite app_assoc.
Qed.

Lemma carried_app dir rs qs : carried dir (rs ++ qs) = carried dir rs ++ carried dir qs.
Proof. unfold carried. by rewrite fmap_app, concat_app. Qed.

(** Both streams come back from a flow. *)
Lemma reassemble_flow n dir rs : forall d expect,
  tcp_ready n d -> seqs_ok d -> (expect = None \/ expect = Some (cur_seq dir d)) ->
  reassemble (l3_sz (base d)) dir expect (fst (flow d rs)) = Some (carried dir rs).
Proof.
  induction rs as [| r rs IH]; intros d expect Hr Hq He; [done|]. cbn [flow].
  pose proof (segments_spec (base d) (r_data r)) as [Ec _].
  pose proof (reassemble_run n (r_in r) (r_flags r) dir (segments (base d) (r_data r)) d expect) as H.
  destruct (tcp_run _ _ _ d) as [ps d1]. destruct (flow d1 rs) as [qs d2] eqn:Ef. cbn [fst].
  destruct (H qs Hr Hq He) as (Q & R & L & e & He' & E). rewrite E.
  specialize (IH d1 e R Q He'). rewrite L, Ef in IH. cbn [fst] in IH. rewrite IH, Ec. done.
Qed.

Lemma flow_ready n rs : forall d, tcp_ready n d -> seqs_ok d ->
  tcp_ready n (snd (flow d rs)) /\ seqs_ok (snd (flow d rs)).
Proof.
  induction rs as [| r rs IH]; intros d Hr Hq; [done|]. cbn [flow].
  pose proof (reassemble_run n (r_in r) (r_flags r) true (segments (base d) (r_data r)) d None [] Hr Hq
    (or_introl eq_refl)) as H.
  destruct (tcp_run _ _ _ d) as [ps d1]. destruct H as (Q & R & _). specialize (IH d1 R Q).
  by destruct (flow d1 rs).
Qed.
End flow.

(** ** One frame *)

Definition max_size : Z := 2 ^ 31.
Definition epbs (bodies : list bytes) : list (Z * bytes) := (fun b => (6, b)) <$> bodies.

Section frame.
Context `{FI : !Files} `{LH : !LogHost} (mem : forall n, can_alloc n = true).

Definition good (d : tcp_details) : Prop := tcp_ready max_size d /\ seqs_ok d.

(** A frame for some payload: blocks are added to the local buffer, the details move on. *)
Lemma with_frame_run r f o w :
  good (details (me w)) -> zlen (r_data r) <= max_size -> opts_ok f ->
  exists n f' bodies w',
    with_frame f o (append_TCP (r_data r) (zlen (r_data r)) (Z.b2z (r_in r)) (r_flags r)) w =
      Ret (n, f', o ++ blocks (epbs bodies)) w' /\
    0 < n /\ opts_ok f' /\ Forall good_body bodies /\
    body_packet <$> bodies = fst (flow (details (me w)) [r]) /\
    (exists h, w' = mkLWorld (set_details (snd (flow (details (me w)) [r])) (me w)) (single w) (files w) h).
Proof using mem.
  intros [Hr Hq] Hl Ho. pose proof (zlen_nonneg (r_data r)). unfold with_frame.
  assert (Hr' : tcp_ready (zlen (r_data r)) (details (me w))) by (destruct Hr; split; [done.. | unfold max_size in *; lia]).
  set (n0 := mkNg f o (details (me w)) (shown w)).
  pose proof (append_TCP_plain mem (r_data r) (r_in r) (r_flags r) n0 Hr') as E. cbv zeta in E. rewrite E.
  set (segs := segments (base (ng_det n0)) (r_data r)).
  destruct (segments_spec (base (ng_det n0)) (r_data r)) as [Ec Hseg]. fold segs in Ec, Hseg.
  destruct (run_segs_blocks max_size (r_in r) (r_flags r) segs n0 Hr) as (E1 & bodies & E2 & E3 & E4).
  { eapply Forall_impl; [exact Hseg | cbn; intros s [Hs _]; lia]. }
  { exact Ho. }
  change ((fun b => (6, b)) <$> bodies) with (epbs bodies) in E2.
  rewrite E2. change (ng_out n0) with o.
  eexists _, _, bodies, _. split; [reflexivity|].
  assert (Hd : ng_det (run_segs (r_in r) (r_flags r) segs n0) = snd (flow (details (me w)) [r])).
  { rewrite run_segs_details. cbn [flow]. change (ng_det n0) with (details (me w)). fold segs.
    unfold segs, n0. cbn [ng_det]. by destruct (tcp_run _ _ _ (details (me w))). }
  assert (Hp : fst (tcp_run (r_in r) (r_flags r) segs (ng_det n0)) = fst (flow (details (me w)) [r])).
  { cbn [flow]. unfold segs, n0. cbn [ng_det].
    destruct (tcp_run _ _ _ (details (me w))). cbn [fst]. by rewrite app_nil_r. }
  split; [| split; [| split; [done | split; [by rewrite E4 |]]]].
  - rewrite zlen_app. pose proof (zlen_nonneg o).
    assert (Hb : bodies <> []).
    { intros ->. cbn [fmap list_fmap] in E4. unfold segs, segments in E4. cbn [chunks tcp_run] in E4.
      repeat match type of E4 with context [let '(_, _) := ?x in _] => destruct x end. done. }
    destruct bodies as [| b bs]; [done|]. change (epbs (b :: bs)) with ((6, b) :: epbs bs).
    change (blocks ((6, b) :: epbs bs)) with (block 6 b ++ blocks (epbs bs)).
    rewrite zlen_app, zlen_block. pose proof (zlen_nonneg b). pose proof (zlen_nonneg (blocks (epbs bs))). lia.
  - destruct Ho as [O1 O2 O3]. unfold opts in *. split; unfold opts; rewrite E1; done.
  - eexists. by rewrite <- Hd.
Qed.
End frame.

(** ** The log *)

Section log.
Context `{FI : !Files} `{FO : !FilesOk} `{LH : !LogHost}
  (mem : forall n, can_alloc n = true) (to_file : ip_packet_hook_only = false) (d0 : tcp_details) (nm : name).

(** The blocks before the frames. *)
Definition preamble : list (Z * bytes) :=
  [(0x0A0D0D0A, le_bytes 4 0x1A2B3C4D ++ le_bytes 2 1 ++ le_bytes 2 0 ++ le_bytes 8 0xFFFFFFFFFFFFFFFF);
   (1, le_bytes 2 113 ++ le_bytes 2 0 ++ le_bytes 4 20000)].

Lemma preamble_bytes : fst (shb_append default_shb) ++ fst (ifb_append default_ifb) = blocks preamble.
Proof using Type. vm_compute. reflexivity. Qed.

(** A file with frames of the runs, whatever the flags of the log say. *)
Definition holds (f : fs) (n : name) (rs : list run) : Prop :=
  files_ok f /\ exists bodies, taken f n = Some (blocks (preamble ++ epbs bodies)) /\
    Forall good_body bodies /\ body_packet <$> bodies = fst (flow d0 rs).

(** Adding blocks of further runs to the file. *)
Lemma holds_write f n rs qs bodies :
  holds f n rs -> Forall good_body bodies -> body_packet <$> bodies = fst (flow (snd (flow d0 rs)) qs) ->
  holds (snd (w_write n (blocks (epbs bodies)) f)) n (rs ++ qs).
Proof using Type.
  intros (Hk & bs & E & G & P) G' P'.
  destruct (write_taken n (blocks (epbs bodies)) f) as (_ & Hk' & T); [done | by rewrite E|].
  split; [exact Hk'|]. exists (bs ++ bodies). rewrite T, E. cbn [option_map]. split; [| split].
  - unfold epbs. by rewrite fmap_app, !blocks_app, app_assoc.
  - by apply Forall_app.
  - rewrite fmap_app, P, P', flow_app. destruct (flow d0 rs) as [p1 d1]. cbn [snd].
    by destruct (flow d1 qs).
Qed.

Lemma opts_default h : opts_ok (set_hook h default_epb).
Proof using Type. split; [constructor | done | done]. Qed.

Lemma opts_comment c h : zlen c < 2 ^ 20 -> opts_ok (comment c (set_hook h default_epb)).
Proof using Type.
  intros Hc. pose proof (zlen_nonneg c). set (e := mkEntry Comment (Some c)).
  assert (He : small_entry e) by (unfold small_entry; cbn; lia).
  destruct (options_overcount [e]) as [Ho _]; [by repeat constructor|].
  assert (Hf : filled [e] <= 1) by (rewrite filled_cons; destruct (nonempty e); vm_compute; done).
  assert (Hs : options_size [e] < 2 ^ 21).
  { unfold options_size. cbn [foldl]. unfold entry_size. cbn [e e_data].
    destruct (padding_spec (zlen c)) as [Hp _]; [lia|]. destruct (_ =? 0); lia. }
  split; [by repeat constructor | exact Hf | change (opts _) with [e]; lia].
Qed.

(** The log of a connection whose file holds the frames of some runs. *)
Record core (k : Z) (w : lworld) (rs : list run) : Prop := {
  c_own : single_only (me w) = false;
  c_details : details (me w) = snd (flow d0 rs);
  c_comment : zlen (comlog (me w)) <= k /\ k < 2 ^ 20;
  c_parent : has_parent (me w) = true;
  c_writer : has_writer (me w) = true;
  c_header : pcap_header_written (me w) = true;
  c_file : holds (files w) (filename_full (me w)) rs;
  c_name : filename_full (me w) = nm
}.

Context (good0 : good d0).

Lemma core_good k w rs : core k w rs -> good (details (me w)).
Proof using good0.
  intros H. rewrite (c_details _ _ _ H). destruct good0 as [Hr Hq]. by apply flow_ready.
Qed.

Lemma self_own w : single_only (me w) = false -> self w = me w.
Proof using Type. unfold self. by intros ->. Qed.

Lemma on_self_own g w : single_only (me w) = false ->
  on_self g w = Ret tt (mkLWorld (g (me w)) (single w) (files w) (shown w)).
Proof using Type. unfold on_self, modify. by intros ->. Qed.

Lemma comment_frame_ok k h w rs : core k w rs ->
  exists f w', comment_frame_self (set_hook h default_epb) w = Ret f w' /\ opts_ok f /\ core k w' rs /\
  tcp_start_written (me w') = tcp_start_written (me w) /\ filename_full (me w') = filename_full (me w) /\
  (exists v, w' = mkLWorld v (single w) (files w) (shown w)).
Proof using Type.
  intros Hc. pose proof Hc as [H1 H2 H3 H4 H5 H6 H7 H8]. unfold comment_frame_self. rewrite bind_gets, self_own by done.
  destruct (comlog (me w)) as [| x c] eqn:Ec.
  - exists (set_hook h default_epb), w. split; [done|]. split; [apply opts_default|]. split; [done|].
    repeat (split; [done|]). exists (me w). by destruct w.
  - rewrite (bind_ret _ _ _ _ _ (on_self_own _ w H1)).
    eexists _, _. split; [reflexivity|]. split; [apply opts_comment; lia |].
    split; [split; try done; cbn; rewrite zlen_nil; pose proof (zlen_nonneg (x :: c)); lia | split; [done | split; [done | by eexists]]].
Qed.

(** One or more frames of a local buffer go to the file. *)
Lemma log_out_ok k bodies w rs qs :
  core k (mkLWorld (set_details (snd (flow d0 rs)) (me w)) (single w) (files w) (shown w)) rs ->
  details (me w) = snd (flow d0 (rs ++ qs)) ->
  Forall good_body bodies -> body_packet <$> bodies = fst (flow (snd (flow d0 rs)) qs) ->
  exists w', log_out (blocks (epbs bodies)) w = Ret tt w' /\ core k w' (rs ++ qs) /\
    tcp_start_written (me w') = tcp_start_written (me w).
Proof using Type.
  intros [H1 H2 H3 H4 H5 H6 H7 H8] Hd G P. cbn in *.
  pose proof (holds_write (files w) (filename_full (me w)) rs qs bodies H7 G P) as Hw.
  unfold log_out. rewrite self_own by done. unfold on_files. unfold mbind_ at 1.
  destruct (w_write _ _ _) as [n f]. cbn [snd] in Hw.
  rewrite on_self_own by done. eexists. split; [reflexivity|]. split; [| done]. by split.
Qed.

Lemma flow_snoc rs qs : snd (flow d0 (rs ++ qs)) = snd (flow (snd (flow d0 rs)) qs).
Proof using Type. rewrite flow_app. destruct (flow d0 rs) as [p d1]. cbn [snd]. by destruct (flow d1 qs). Qed.

Lemma flow_fst_app d qs rs : fst (flow d (qs ++ rs)) = fst (flow d qs) ++ fst (flow (snd (flow d qs)) rs).
Proof using Type. rewrite flow_app. destruct (flow d qs) as [p d1]. cbn [snd fst]. by destruct (flow d1 rs). Qed.

(** [append_TCP] into a local buffer, on a log whose details are those after some runs. *)
Lemma frame_of i flags b f o w rs :
  details (me w) = snd (flow d0 rs) -> zlen b <= max_size -> opts_ok f ->
  exists n f' bodies w',
    with_frame f o (append_TCP b (zlen b) (Z.b2z i) flags) w = Ret (n, f', o ++ blocks (epbs bodies)) w' /\
    0 < n /\ opts_ok f' /\ Forall good_body bodies /\
    body_packet <$> bodies = fst (flow (snd (flow d0 rs)) [mkRun i flags b]) /\
    (exists h, w' = mkLWorld (set_details (snd (flow d0 (rs ++ [mkRun i flags b]))) (me w)) (single w) (files w) h).
Proof using good0 mem.
  intros Hd Hl Ho.
  assert (Hg : good (details (me w))) by (rewrite Hd; destruct good0; by apply flow_ready).
  destruct (with_frame_run mem (mkRun i flags b) f o w Hg Hl Ho) as (n & f' & bodies & w' & E & Hn & Ho' & G & P & (h & Ew)).
  rewrite Hd in *. rewrite <- flow_snoc in Ew.
  exists n, f', bodies, w'. repeat (split; [assumption|]). by exists h.
Qed.

Lemma write_tcp_data_ok k side b w rs : core k w rs -> zlen b <= max_size ->
  exists w', write_tcp_data side b w = Ret tt w' /\
    core k w' (rs ++ [mkRun (match side with RIGHT => true | LEFT => false end) 4 b]) /\
    tcp_start_written (me w') = tcp_start_written (me w).
Proof using good0 mem to_file.
  intros Hc Hl. unfold write_tcp_data, new_frame. rewrite bind_gets.
  destruct (comment_frame_ok k (log_hook (self w)) w rs Hc) as (f & w1 & E1 & Ho & Hc1 & S1 & F1 & _).
  rewrite (bind_ret _ _ _ _ _ E1).
  set (i := match side with RIGHT => true | LEFT => false end).
  replace (is_right side) with (Z.b2z i) by (by destruct side).
  destruct (frame_of i 4 b f [] w1 rs (c_details _ _ _ Hc1) Hl Ho)
    as (n & f' & bodies & w2 & E2 & Hn & _ & G & P & (h & Ew)).
  rewrite (bind_ret _ _ _ _ _ E2), to_file. cbn [app].
  destruct (Z.ltb_spec 0 n); [|lia]. cbn [andb negb when].
  destruct (log_out_ok k bodies w2 rs [mkRun i 4 b]) as (w3 & E3 & Hc3 & S3); [| by subst w2 | done | done |].
  - subst w2. by destruct Hc1; split.
  - exists w3. split; [exact E3|]. split; [done|]. rewrite S3. subst w2. done.
Qed.

(** The three packets of the handshake. *)
Definition handshake : list run := [mkRun false 1 []; mkRun true 5 []; mkRun false 4 []].

Lemma write_tcp_start_ok k w rs : core k w rs ->
  exists w', write_tcp_start w = Ret tt w' /\ core k w' (rs ++ handshake) /\
    tcp_start_written (me w') = tcp_start_written (me w).
Proof using good0 mem to_file.
  intros Hc. unfold write_tcp_start, new_frame. rewrite bind_gets.
  assert (Hz : zlen (@nil Z) <= max_size) by (vm_compute; done).
  destruct (frame_of false 1 [] _ [] w rs (c_details _ _ _ Hc) Hz (opts_default (log_hook (self w))))
    as (n1 & f1 & b1 & w1 & E1 & _ & _ & G1 & P1 & (h1 & W1)).
  rewrite (bind_ret _ _ _ _ _ E1), bind_gets.
  destruct (frame_of true 5 [] _ ([] ++ blocks (epbs b1)) w1 (rs ++ [mkRun false 1 []]) ltac:(by subst w1) Hz (opts_default (log_hook (self w1))))
    as (n2 & f2 & b2 & w2 & E2 & _ & _ & G2 & P2 & (h2 & W2)).
  rewrite (bind_ret _ _ _ _ _ E2), bind_gets.
  destruct (frame_of false 4 [] _ (([] ++ blocks (epbs b1)) ++ blocks (epbs b2)) w2 ((rs ++ [mkRun false 1 []]) ++ [mkRun true 5 []])
    ltac:(by subst w2) Hz (opts_default (log_hook (self w2))))
    as (n3 & f3 & b3 & w3 & E3 & _ & _ & G3 & P3 & (h3 & W3)).
  rewrite (bind_ret _ _ _ _ _ E3), to_file. cbn [negb when app].
  rewrite <- !app_assoc in W3. change ([mkRun false 1 []] ++ [mkRun true 5 []] ++ [mkRun false 4 []]) with handshake in W3.
  assert (Eb : (blocks (epbs b1) ++ blocks (epbs b2)) ++ blocks (epbs b3) = blocks (epbs (b1 ++ b2 ++ b3))).
  { unfold epbs. by rewrite !fmap_app, !blocks_app, app_assoc. }
  rewrite Eb.
  assert (G : Forall good_body (b1 ++ b2 ++ b3)) by (repeat (apply Forall_app; split); done).
  assert (P : body_packet <$> b1 ++ b2 ++ b3 = fst (flow (snd (flow d0 rs)) handshake)).
  { rewrite !fmap_app, P1, P2, P3. rewrite !flow_snoc.
    change handshake with ([mkRun false 1 []] ++ [mkRun true 5 []] ++ [mkRun false 4 []]).
    rewrite !flow_fst_app. done. }
  pose proof Hc as [H1 H2 H3 H4 H5 H6 H7 H8].
  rewrite bind_gets. rewrite self_own by (by subst).
  pose proof (holds_write (files w3) (filename_full (me w3)) rs handshake (b1 ++ b2 ++ b3)) as Hw.
  replace (files w3) with (files w) in Hw by (by subst).
  replace (filename_full (me w3)) with (filename_full (me w)) in Hw by (by subst).
  specialize (Hw H7 G P).
  replace (filename_full (me w3)) with (filename_full (me w)) by (by subst).
  unfold on_files at 1. unfold mbind_ at 1. replace (files w3) with (files w) by (by subst).
  destruct (w_write _ _ (files w)) as [n f]. cbn [snd] in Hw.
  unfold on_files. unfold mbind_ at 1. cbn [files me single shown].
  destruct (flush_taken (filename_full (me w)) f (proj1 Hw)) as [Hk Hfl].
  destruct (w_flush (filename_full (me w)) f) as [ok f']. cbn [snd] in Hk, Hfl. cbn [me].
  rewrite on_self_own by (by subst). eexists. split; [reflexivity|]. cbn [me files].
  split; [| by subst]. subst w3 w2 w1. cbn. split; cbn; try done.
  unfold holds in *. rewrite Hfl. by destruct Hw.
Qed.

(** A log that has not written anything, and whose file is not there. *)
Record fresh_log (k : Z) (w : lworld) : Prop := {
  f_own : single_only (me w) = false;
  f_details : details (me w) = d0;
  f_comment : zlen (comlog (me w)) <= k /\ k < 2 ^ 20;
  f_parent : has_parent (me w) = true;
  f_start : tcp_start_written (me w) = false;
  f_file : files_ok (files w) /\ taken (files w) (filename_full (me w)) = None;
  f_name : filename_full (me w) = nm
}.

(** Where the log stands: nothing yet, or a file with the handshake and what followed. *)
Definition state_of (k : Z) (w : lworld) (rs : list run) : Prop :=
  if tcp_start_written (me w) then core k w (handshake ++ rs) else fresh_log k w /\ rs = [].

(** [write] once the writer is there. *)
Definition write_tail (side : side_t) (b : bytes) : M lworld unit :=
  (is_recreated <- prepare_file ;;
   when is_recreated (on_self (set_written 0)) ;;;
   write_pcap_header is_recreated) ;;;
  p <- gets (fun w => next_proto (base (details (me w)))) ;;
  if p =? TCP then
    started <- gets (fun w => tcp_start_written (me w)) ;;
    when (negb started) (write_tcp_start ;;; on_me (set_start_written true)) ;;;
    write_tcp_data side b
  else when (p =? UDP) (write_udp_data side b).

Definition with_writer (w : lworld) : lworld := mkLWorld (set_writer true (me w)) (single w) (files w) (shown w).

Lemma log_write_tail side b w : single_only (me w) = false ->
  log_write side b w = write_tail side b (with_writer w).
Proof using FO to_file.
  intros H1. unfold log_write. rewrite bind_gets, self_own by done.
  assert (E : (when (negb (has_writer (me w))) (on_self (set_writer true))) w = Ret tt (with_writer w)).
  { destruct (has_writer (me w)) eqn:Ew; cbn [negb when]; [| by apply on_self_own].
    unfold with_writer, mret_. destruct w as [[] ? ? ?]. cbn in *. by subst. }
  rewrite (bind_ret _ _ _ _ _ E), bind_gets, always_opened, bind_gets. cbn [negb when].
  rewrite bind_pure, bind_gets, always_opened, to_file. done.
Qed.

Lemma prepare_own w : single_only (me w) = false -> files_ok (files w) ->
  exists f, files_ok f /\ prepare_file w = Ret (match taken (files w) (filename_full (me w)) with None => true | _ => false end)
      (mkLWorld (me w) (single w) f (shown w)) /\
    taken f (filename_full (me w)) =
      Some (match taken (files w) (filename_full (me w)) with None => [] | Some b => b end).
Proof using FO.
  intros H1 Hk. unfold prepare_file. rewrite bind_gets, H1. cbn [when]. rewrite bind_pure, bind_gets, self_own by done.
  unfold on_files at 1. unfold mbind_ at 1.
  destruct (recreate_taken (filename_full (me w)) (files w) Hk) as (R & Hk' & K).
  destruct (w_recreate _ _) as [r f]. cbn [fst snd] in *. rewrite <- K in R |- *. rewrite <- R.
  destruct (taken f (filename_full (me w))) as [c |] eqn:Et; rewrite R.
  - exists f. split; [done|]. split; [done | by rewrite Et].
  - destruct (creat_taken (filename_full (me w)) f Hk' Et) as [Ck Ct].
    exists (os_creat (filename_full (me w)) f). by repeat (split; [done|]).
Qed.

Lemma good_tcp d : good d -> next_proto (base d) = TCP.
Proof using Type. intros [[_ H _] _]. done. Qed.

(** The first write: a new file, the preamble, the handshake, the data. *)
Lemma log_write_first k side b w : fresh_log k w -> zlen b <= max_size ->
  exists w', log_write side b w = Ret tt w' /\ tcp_start_written (me w') = true /\
    core k w' (handshake ++ [mkRun (match side with RIGHT => true | LEFT => false end) 4 b]).
Proof using good0 mem to_file.
  intros [H1 H2 H3 H4 H5 [Hk H6] H8] Hl. rewrite log_write_tail by done. unfold write_tail.
  destruct (prepare_own (with_writer w) H1 Hk) as (f & Hkf & E & Ef). change (files (with_writer w)) with (files w) in *.
  change (filename_full (me (with_writer w))) with (filename_full (me w)) in *. rewrite H6 in *.
  rewrite bind_assoc, (bind_ret _ _ _ _ _ E). cbn [when].
  unfold write_pcap_header. rewrite bind_assoc.
  set (w0 := mkLWorld _ _ f _). assert (H0 : single_only (me w0) = false) by done.
  rewrite (bind_ret _ _ _ _ _ (on_self_own _ w0 H0)).
  rewrite bind_assoc, bind_gets. rewrite orb_true_r. cbn [when]. rewrite preamble_bytes, to_file. cbn [negb when].
  set (w1 := mkLWorld (set_written 0 (me w0)) (single w0) (files w0) (shown w0)).
  assert (Hlog : exists w2, log_out (blocks preamble) w1 = Ret tt w2 /\
    w2 = mkLWorld (set_written (stat_bytes_written (me w2)) (me w1)) (single w) (files w2) (shown w) /\
    files_ok (files w2) /\ taken (files w2) (filename_full (me w)) = Some (blocks preamble)).
  { unfold log_out. rewrite bind_gets, self_own by done. unfold on_files. unfold mbind_ at 1. cbn [files w1 me].
    destruct (write_taken (filename_full (me w)) (blocks preamble) f) as (_ & Hk2 & T); [done | by rewrite Ef|].
    change (filename_full (set_written 0 _)) with (filename_full (me w)).
    change (files w0) with f. destruct (w_write _ _ f) as [n f']. cbn [snd] in T.
    rewrite on_self_own by done.
    eexists. split; [reflexivity|]. split; [reflexivity|]. cbn [files]. by rewrite T, Ef. }
  destruct Hlog as (w2 & El & Ew2 & Kw2 & Tw2).
  rewrite bind_assoc, (bind_ret _ _ _ _ _ El).
  rewrite (bind_ret _ _ _ _ _ (on_self_own (set_header_written true) w2 ltac:(by rewrite Ew2))).
  set (w3 := mkLWorld (set_header_written true (me w2)) (single w2) (files w2) (shown w2)).
  assert (Hc : core k w3 []).
  { assert (M : me w2 = set_written (stat_bytes_written (me w2)) (me w1)) by (by rewrite Ew2 at 1).
    split; unfold w3; cbn [me files]; rewrite M; cbn; try done.
    split; [done|]. exists []. by rewrite app_nil_r. }
  rewrite bind_gets, (good_tcp _ (core_good _ _ _ Hc)). cbn [Z.eqb TCP Pos.eqb].
  rewrite bind_gets. assert (Es : tcp_start_written (me w3) = false).
  { unfold w3. cbn [me]. rewrite Ew2. done. }
  rewrite Es. cbn [negb when].
  destruct (write_tcp_start_ok k w3 [] Hc) as (w4 & E4 & Hc4 & _).
  rewrite bind_assoc, (bind_ret _ _ _ _ _ E4). unfold on_me. rewrite bind_modify.
  set (w5 := mkLWorld (set_start_written true (me w4)) (single w4) (files w4) (shown w4)). assert (Hc5 : core k w5 handshake) by (by destruct Hc4).
  destruct (write_tcp_data_ok k side b w5 handshake Hc5 Hl) as (w6 & E6 & Hc6 & S6).
  exists w6. split; [exact E6|]. split; [by rewrite S6 | done].
Qed.

(** A later write. *)
Lemma log_write_next k side b w rs : core k w rs -> tcp_start_written (me w) = true -> zlen b <= max_size ->
  exists w', log_write side b w = Ret tt w' /\ tcp_start_written (me w') = true /\
    core k w' (rs ++ [mkRun (match side with RIGHT => true | LEFT => false end) 4 b]).
Proof using good0 mem to_file.
  intros Hc Hs Hl. pose proof Hc as [H1 H2 H3 H4 H5 H6 (Hk & bs & B1 & B2 & B3) H8].
  rewrite log_write_tail by done. unfold write_tail.
  destruct (prepare_own (with_writer w) H1 Hk) as (f & Hkf & E & Ef). change (files (with_writer w)) with (files w) in *.
  change (filename_full (me (with_writer w))) with (filename_full (me w)) in *. rewrite B1 in *.
  rewrite bind_assoc, (bind_ret _ _ _ _ _ E). cbn [when]. rewrite bind_assoc, bind_pure.
  unfold write_pcap_header. rewrite bind_assoc, bind_gets, self_own by done. cbn [me].
  change (pcap_header_written (me (with_writer w))) with (pcap_header_written (me w)). rewrite H6.
  cbn [negb orb when]. rewrite bind_pure. set (w1 := mkLWorld _ _ f _).
  assert (Hc1 : core k w1 rs) by (split; try done; split; [done | by exists bs]).
  rewrite bind_gets, (good_tcp _ (core_good _ _ _ Hc1)). cbn [Z.eqb TCP Pos.eqb].
  rewrite bind_gets. change (tcp_start_written (me w1)) with (tcp_start_written (me w)). rewrite Hs.
  cbn [negb when]. rewrite bind_pure.
  destruct (write_tcp_data_ok k side b w1 rs Hc1 Hl) as (w6 & E6 & Hc6 & S6).
  exists w6. split; [exact E6|]. split; [by rewrite S6 | done].
Qed.

Lemma core_weaken k k' w rs : core k w rs -> k <= k' -> k' < 2 ^ 20 -> core k' w rs.
Proof using Type. intros [H1 H2 H3 H4 H5 H6 H7 H8] Hk Hk'. split; try done. lia. Qed.

(** The packets of the end of a connection. *)
Definition goodbye : list run := [mkRun false 6 []; mkRun true 6 []].

Lemma comment_frame_me_own f w : single_only (me w) = false ->
  comment_frame_me f w = comment_frame_self f w.
Proof using Type.
  intros H1. unfold comment_frame_me, comment_frame_self. rewrite !bind_gets, self_own by done.
  destruct (comlog (me w)); [done|]. unfold on_me. rewrite bind_modify.
  by rewrite (bind_ret _ _ _ _ _ (on_self_own _ _ H1)).
Qed.

Lemma log_dtor_ok k w rs : core k w rs -> tcp_start_written (me w) = true ->
  exists w', log_dtor w = Ret tt w' /\ holds (files w') nm (rs ++ goodbye).
Proof using good0 mem to_file.
  intros Hc Hs. pose proof Hc as [H1 H2 H3 H4 H5 H6 H7 H8]. unfold log_dtor. rewrite H4, H5. cbn [andb].
  rewrite (good_tcp _ (core_good _ _ _ Hc)), Hs. cbn [Z.eqb TCP Pos.eqb andb when].
  assert (Hf : exists w', log_fins w = Ret tt w' /\ holds (files w') nm (rs ++ goodbye)).
  { unfold log_fins, new_frame. rewrite bind_gets.
    destruct (comment_frame_ok k (log_hook (self w)) w rs Hc) as (f & w1 & E1 & Ho & Hc1 & S1 & F1 & (v & V)).
    rewrite <- comment_frame_me_own in E1 by done. rewrite (bind_ret _ _ _ _ _ E1).
    assert (Hz : zlen (@nil Z) <= max_size) by (vm_compute; done).
    destruct (frame_of false 6 [] f [] w1 rs (c_details _ _ _ Hc1) Hz Ho)
      as (n2 & f2 & b2 & w2 & E2 & _ & Ho2 & G2 & P2 & (h2 & W2)).
    rewrite (bind_ret _ _ _ _ _ E2).
    destruct (frame_of true 6 [] f2 ([] ++ blocks (epbs b2)) w2 (rs ++ [mkRun false 6 []]) ltac:(by subst w2) Hz Ho2)
      as (n3 & f3 & b3 & w3 & E3 & _ & _ & G3 & P3 & (h3 & W3)).
    rewrite (bind_ret _ _ _ _ _ E3), bind_gets, to_file. cbn [negb when app].
    assert (Eb : blocks (epbs b2) ++ blocks (epbs b3) = blocks (epbs (b2 ++ b3))).
    { unfold epbs. by rewrite !fmap_app, !blocks_app. }
    rewrite Eb.
    assert (G : Forall good_body (b2 ++ b3)) by (apply Forall_app; split; done).
    assert (P : body_packet <$> b2 ++ b3 = fst (flow (snd (flow d0 rs)) goodbye)).
    { rewrite !fmap_app, P2, P3, !flow_snoc.
      change goodbye with ([mkRun false 6 []] ++ [mkRun true 6 []]). by rewrite flow_fst_app. }
    destruct Hc1 as [I1 I2 I3 I4 I5 I6 I7 I8].
    rewrite self_own by (subst; done).
    pose proof (holds_write (files w1) nm rs goodbye (b2 ++ b3)) as Hw. rewrite I8 in I7. specialize (Hw I7 G P).
    unfold on_files. unfold mbind_. subst w3 w2. cbn [files me single shown].
    change (filename_full (set_details _ (set_details _ (me w1)))) with (filename_full (me w1)). rewrite I8.
    destruct (w_write nm _ (files w1)) as [n g]. cbn [snd] in Hw. eexists. split; [reflexivity | exact Hw]. }
  destruct Hf as (w1 & E1 & Hh). rewrite (bind_ret _ _ _ _ _ E1), H8.
  unfold on_files, mbind_. destruct Hh as [Hk Hh]. destruct (flush_taken nm (files w1) Hk) as [Fk Fl].
  destruct (w_flush nm (files w1)) as [b1 g1]. cbn [snd files] in *.
  destruct (close_taken nm g1 Fk) as [Ck Cl]. destruct (w_close nm g1) as [b2 g2]. cbn [snd files] in *.
  eexists. split; [reflexivity|]. cbn [files]. split; [done|]. by rewrite Cl, Fl.
Qed.

(** ** A connection *)

(** What happens to a log: data read on a side, text for the next comment, a turn of the thread of
    the writer. *)
Inductive ev : Type := Data (s : side_t) (b : bytes) | Note (t : bytes) | Work.

Definition ev_step (e : ev) : M lworld unit :=
  match e with
  | Data LEFT b => write_left true b
  | Data RIGHT b => write_right true b
  | Note t => log_comment t
  | Work => on_files (fun f => (tt, w_work f))
  end.
Fixpoint ev_steps (es : list ev) : M lworld unit :=
  match es with [] => mret_ tt | e :: es => ev_step e ;;; ev_steps es end.

Definition on_side (dir : bool) (s : side_t) : bool := eqb dir (match s with RIGHT => true | LEFT => false end).
(** The stream of a side. *)
Definition sent (dir : bool) (es : list ev) : bytes :=
  concat ((fun e => match e with Data s b => if on_side dir s then b else [] | _ => [] end) <$> es).
Definition notes (es : list ev) : Z :=
  foldr (fun e n => match e with Note t => zlen t + n | _ => n end) 0 es.
Definition has_data (es : list ev) : bool := existsb (fun e => match e with Data _ _ => true | _ => false end) es.
Definition ev_small (e : ev) : Prop := match e with Data _ b => zlen b <= max_size | _ => True end.

Definition runs_of (es : list ev) : list run :=
  concat ((fun e => match e with
    | Data s b => [mkRun (match s with RIGHT => true | LEFT => false end) 4 b]
    | _ => [] end) <$> es).

Lemma carried_runs dir es : carried dir (runs_of es) = sent dir es.
Proof using Type.
  unfold sent, runs_of. induction es as [| [s b | t |] es IH]; [done | | exact IH..].
  cbn [fmap list_fmap concat]. rewrite carried_app, IH. f_equal.
  unfold carried, on_side. cbn. rewrite app_nil_r. by destruct s, dir.
Qed.

Lemma notes_nonneg es : 0 <= notes es.
Proof using Type.
  unfold notes. induction es as [| [s b | t |] es IH]; cbn [foldr]; [lia | done | pose proof (zlen_nonneg t); lia | done].
Qed.

Lemma ev_step_data s b w : ev_step (Data s b) w = log_write s b w.
Proof using Type. by destruct s. Qed.

Lemma steps_core es : forall k w rs, core k w rs -> tcp_start_written (me w) = true ->
  Forall ev_small es -> k + notes es < 2 ^ 20 ->
  exists w', ev_steps es w = Ret tt w' /\ tcp_start_written (me w') = true /\
    core (k + notes es) w' (rs ++ runs_of es).
Proof using good0 mem to_file.
  induction es as [| [s b | t |] es IH]; intros k w rs Hc Hs He Hk.
  - exists w. split; [done|]. split; [done|]. unfold runs_of. cbn. rewrite app_nil_r, Z.add_0_r. done.
  - inversion He as [| ? ? Hb He']; subst. cbn [ev_steps notes foldr] in *.
    destruct (log_write_next k s b w rs Hc Hs Hb) as (w1 & E1 & S1 & C1).
    rewrite <- ev_step_data in E1. rewrite (bind_ret _ _ _ _ _ E1).
    destruct (IH k w1 _ C1 S1 He' Hk) as (w2 & E2 & S2 & C2). exists w2.
    split; [done|]. split; [done|]. rewrite <- app_assoc in C2. exact C2.
  - inversion He as [| ? ? _ He']; subst. cbn [ev_steps] in *. unfold ev_step, log_comment, on_me. rewrite bind_modify.
    set (w1 := mkLWorld (set_comlog (comlog (me w) ++ t) (me w)) (single w) (files w) (shown w)).
    change (notes (Note t :: es)) with (zlen t + notes es) in *. pose proof (notes_nonneg es).
    assert (C1 : core (k + zlen t) w1 rs).
    { destruct Hc as [H1 H2 H3 H4 H5 H6 H7 H8]. split; try done. unfold w1. cbn [me].
      change (comlog (set_comlog ?x _)) with x. rewrite zlen_app. lia. }
    destruct (IH (k + zlen t) w1 rs C1 Hs He' ltac:(lia)) as (w2 & E2 & S2 & C2).
    exists w2. split; [exact E2|]. split; [done|].
    replace (k + (zlen t + notes es)) with (k + zlen t + notes es) by lia. exact C2.
  - inversion He as [| ? ? _ He']; subst. cbn [ev_steps ev_step] in *.
    set (w1 := mkLWorld (me w) (single w) (w_work (files w)) (shown w)).
    assert (C1 : core k w1 rs).
    { destruct Hc as [H1 H2 H3 H4 H5 H6 (Hk7 & H7) H8]. destruct (work_taken (files w) Hk7) as [Wk Wt].
      split; try done. split; [done|]. unfold w1. cbn [files me]. by rewrite Wt. }
    destruct (IH k w1 rs C1 Hs He' Hk) as (w2 & E2 & S2 & C2). by exists w2.
Qed.

Lemma steps_fresh es : forall k w, fresh_log k w -> Forall ev_small es -> k + notes es < 2 ^ 20 ->
  has_data es = true ->
  exists w', ev_steps es w = Ret tt w' /\ tcp_start_written (me w') = true /\
    core (k + notes es) w' (handshake ++ runs_of es).
Proof using good0 mem to_file.
  induction es as [| [s b | t |] es IH]; intros k w Hf He Hk Hd; [done | | |].
  - inversion He as [| ? ? Hb He']; subst. cbn [ev_steps notes foldr] in *.
    destruct (log_write_first k s b w Hf Hb) as (w1 & E1 & S1 & C1).
    rewrite <- ev_step_data in E1. rewrite (bind_ret _ _ _ _ _ E1).
    destruct (steps_core es k w1 _ C1 S1 He' Hk) as (w2 & E2 & S2 & C2). exists w2.
    split; [done|]. split; [done|]. rewrite <- app_assoc in C2. exact C2.
  - inversion He as [| ? ? _ He']; subst. cbn [ev_steps] in *. unfold ev_step, log_comment, on_me. rewrite bind_modify.
    set (w1 := mkLWorld (set_comlog (comlog (me w) ++ t) (me w)) (single w) (files w) (shown w)).
    change (notes (Note t :: es)) with (zlen t + notes es) in *. pose proof (notes_nonneg es).
    assert (F1 : fresh_log (k + zlen t) w1).
    { destruct Hf as [H1 H2 H3 H4 H5 H6 H7]. split; try done. unfold w1. cbn [me].
      change (comlog (set_comlog ?x _)) with x. rewrite zlen_app. lia. }
    destruct (IH (k + zlen t) w1 F1 He' ltac:(lia) Hd) as (w2 & E2 & S2 & C2).
    exists w2. split; [exact E2|]. split; [done|].
    replace (k + (zlen t + notes es)) with (k + zlen t + notes es) by lia. exact C2.
  - inversion He as [| ? ? _ He']; subst. cbn [ev_steps ev_step] in *.
    set (w1 := mkLWorld (me w) (single w) (w_work (files w)) (shown w)).
    assert (F1 : fresh_log k w1).
    { destruct Hf as [H1 H2 H3 H4 H5 [Hk6 H6] H7]. destruct (work_taken (files w) Hk6) as [Wk Wt].
      split; try done. unfold w1. cbn [files me]. by rewrite Wt. }
    destruct (IH k w1 F1 He' Hk Hd) as (w2 & E2 & S2 & C2). by exists w2.
Qed.
End log.

(** A reader of what the writer took, after the reads of a connection and the end of its log, gets
    both streams back; against the contract of the writer. *)
Lemma capture_taken `{FI : !Files} `{FO : !FilesOk} `{LH : !LogHost}
    (mem : forall n, can_alloc n = true) (to_file : ip_packet_hook_only = false) d0 nm es w :
  good d0 -> fresh_log d0 nm 0 w -> Forall ev_small es -> notes es < 2 ^ 20 -> has_data es = true ->
  exists w' file bodies,
    (ev_steps es ;;; log_dtor) w = Ret tt w' /\ files_ok (files w') /\ taken (files w') nm = Some file /\
    (forall n, (length bodies + 2 <= n)%nat -> read_blocks n file = Some (preamble ++ epbs bodies)) /\
    forall dir, reassemble (l3_sz (base d0)) dir None (body_packet <$> bodies) = Some (sent dir es).
Proof.
  intros Hg Hf He Hn Hd.
  destruct (steps_fresh mem to_file d0 nm Hg es 0 w Hf He Hn Hd) as (w1 & E1 & S1 & C1).
  destruct (log_dtor_ok mem to_file d0 nm Hg _ _ _ C1 S1) as (w2 & E2 & (Hk & bodies & B1 & B2 & B3)).
  exists w2, (blocks (preamble ++ epbs bodies)), bodies. rewrite (bind_ret _ _ _ _ _ E1).
  split; [exact E2|]. split; [exact Hk|]. split; [exact B1|]. split.
  - intros n Hn'. apply read_blocks_all.
    + apply Forall_app. split; [by repeat constructor |].
      apply Forall_fmap. eapply Forall_impl; [exact B2 | cbn; intros b Hb; split; [done | lia]].
    + unfold epbs. rewrite length_app, length_fmap. cbn. lia.
  - intros dir. destruct Hg as [Hr Hq].
    rewrite B3, (reassemble_flow max_size dir _ d0 None Hr Hq (or_introl eq_refl)).
    rewrite !carried_app, carried_runs. unfold carried. cbn. by destruct dir; rewrite ?app_nil_r.
Qed.

(** ** The text log *)

Section smcap_props.
Context `{FI : !Files} {FO : FilesOk}.

(** What happens to a text log: reads of either side are written, comments are, and the thread
    of the writer has its turns. *)
Inductive smop : Type := SmDump (t : moment) (s : side_t) (b : bytes) | SmNote (t : moment) (s : side_t) (b : bytes) | SmTurn.
Definition sm_step (o : smop) : M smworld unit :=
  match o with
  | SmDump t s b => sm_write_buffer t s b
  | SmNote t s b => sm_write t s b
  | SmTurn => in_files (fun f => (tt, w_work f))
  end.
Fixpoint sm_run (l : list smop) : M smworld unit :=
  match l with [] => mret_ tt | o :: l => sm_step o ;;; sm_run l end.
Definition dumped (s : side_t) (b : bytes) : bytes :=
  match s with LEFT => hex_dump (mkDumpOpts 0 62 false 0) b | RIGHT => hex_dump (mkDumpOpts 2 60 false 0) b end.
Definition sm_text (o : fsoutput) (op : smop) : bytes :=
  match op with SmDump t s b => sm_entry o t s (dumped s b) | SmNote t s b => sm_entry o t s b | SmTurn => [] end.

Lemma sm_write_taken o t s b w x : FS_ w = o -> files_ok (sm_files w) -> taken (sm_files w) (o_filename o) = Some x ->
  exists f, sm_write t s b w = Ret tt (mkSm o f) /\ files_ok f /\ taken f (o_filename o) = Some (x ++ sm_entry o t s b).
Proof.
  intros Ho Hf Hx. unfold sm_write. rewrite !bind_gets, Ho, always_opened. cbn [negb when]. rewrite bind_pure, bind_gets, always_opened.
  cbn [when]. unfold in_files, mbind_.
  destruct (write_taken (o_filename o) (sm_entry o t s b) (sm_files w) Hf ltac:(congruence)) as (_ & Hok & Ht).
  destruct (w_write _ _ _) as [r f]. cbn in Hok, Ht. rewrite Ho. exists f. split; [done|]. split; [done|]. by rewrite Ht, Hx.
Qed.

(** The file of a text log holds its entries, whole and in the order they were written, behind
    what was there, however the turns of the writer's thread fall between them; and the log
    never fails. *)
Theorem text_log_in_order l w x :
  files_ok (sm_files w) -> taken (sm_files w) (o_filename (FS_ w)) = Some x ->
  exists f, sm_run l w = Ret tt (mkSm (FS_ w) f) /\ files_ok f /\
    taken f (o_filename (FS_ w)) = Some (x ++ concat (sm_text (FS_ w) <$> l)).
Proof.
  revert w x. induction l as [|op l IH]; intros w x Hf Hx.
  { exists (sm_files w). destruct w. cbn. by rewrite app_nil_r. }
  assert (exists f, sm_step op w = Ret tt (mkSm (FS_ w) f) /\ files_ok f /\
            taken f (o_filename (FS_ w)) = Some (x ++ sm_text (FS_ w) op)) as (f & E & Hok & Ht).
  { destruct op as [t [] b|t s b|]; cbn [sm_step sm_write_buffer sm_text dumped]; try by apply sm_write_taken.
    destruct (work_taken _ Hf) as [Hok Ht]. exists (w_work (sm_files w)). split_and!; [done|done|]. by rewrite Ht, app_nil_r. }
  cbn [sm_run]. rewrite (bind_ret _ _ _ _ _ E). destruct (IH (mkSm (FS_ w) f) _ Hok Ht) as (f' & E' & Hok' & Ht').
  exists f'. split; [exact E'|]. split; [done|]. cbn [FS_] in Ht'. rewrite Ht'. cbn. by rewrite <- app_assoc.
Qed.
End smcap_props.

Section name_props.
Context (pool_gives : Z -> bool) (memory : forall n, pool_gives n = true).

Lemma formatted_ret {W} r (w : W) : zlen r < 10240 -> formatted pool_gives r w = Ret r w.
Proof. intros Hr. unfold formatted. by rewrite (proj1 (string_format_limit pool_gives r memory) Hr). Qed.

(** The keys of the sides are each other's mirror: both name the first context of either side,
    its own first, and a side without any is unknown. *)
Theorem keys_mirror {W} p (w : W) :
  let l := if 0 <? p_lsize p then default [] (cc_name <$> first_of (p_ls p) (p_lda p)) else unknown in
  let r := if 0 <? p_rsize p then default [] (cc_name <$> first_of (p_rs p) (p_rda p)) else unknown in
  zlen l + zlen r < 10000 ->
  traflog_file_key pool_gives (Some p) true w = Ret (l ++ text "-" ++ r) w /\
  traflog_file_key pool_gives (Some p) false w = Ret (r ++ text "-" ++ l) w.
Proof.
  intros l r Hz. subst l r. cbn [traflog_file_key]. revert Hz.
  destruct (0 <? p_lsize p), (0 <? p_rsize p); cbn [andb]; intros Hz; (split; [|]); try done;
    (rewrite formatted_ret; [done|]; rewrite !zlen_app; change (zlen (text "-")) with 1; lia).
Qed.

(** A log's file lies in the last of the directories made for it, each of which lies in the one
    before. *)
Theorem file_in_its_directory p loc d pre suf made w n :
  FsOutput pool_gives (Some p) d pre suf true loc made = Ret n w -> n <> [] ->
  exists sub day rest, created w = made ++ [d; d ++ text "/" ++ sub; d ++ text "/" ++ sub ++ day] /\
    n = (d ++ text "/" ++ sub ++ day) ++ rest /\ o_filename (fso w) = n.
Proof.
  unfold FsOutput, generate_filename. intros E Hn.
  apply bind_inv in E as (kl & w1 & E1 & E). apply bind_inv in E as (kr & w2 & E2 & E).
  assert (forall b (v : fsworld) k v', traflog_file_key pool_gives (Some p) b v = Ret k v' -> v' = v) as Hkey.
  { intros b v k v'. cbn [traflog_file_key]. unfold formatted, mret_.
    repeat match goal with |- context [if ?c then _ else _] => destruct c end;
      repeat match goal with |- context [string_format ?a ?r] => destruct (string_format a r) end; congruence. }
  apply Hkey in E1 as ->. apply Hkey in E2 as ->. unfold on_fso in E at 1. rewrite bind_modify in E.
  destruct (_ || _); [unfold mret_ in E; by injection E as <- _|]. rewrite bind_gets in E. cbn [fso set_keys o_dir host_l when] in E.
  unfold create_dir in E. rewrite !bind_modify in E.
  apply bind_inv in E as (day & w3 & E3 & E). unfold formatted in E3. destruct (string_format _ _) as [t []| |]; [|done|done].
  injection E3 as -> <-. rewrite bind_modify in E.
  apply bind_inv in E as (time & w4 & E4 & E). unfold formatted in E4. destruct (string_format _ _) as [t' []| |]; [|done|done].
  injection E4 as -> <-. unfold on_fso in E. rewrite bind_modify in E. unfold mret_ in E. injection E as <- <-.
  exists (traflog_dir_key p ++ text "/"), day, (pre ++ time ++ kl ++ text "." ++ suf).
  split_and!; repeat (cbn; rewrite <- ?app_assoc); reflexivity.
Qed.
End name_props.

(** Two sides, the right one only accepted so far, at the start of a year. *)
Definition sample_capture : cap_proxy := mkCapProxy [mkCapCx (text "tcp:1") (text "10.0.0.1")] [] [] [mkCapCx (text "tcp:2") (text "10.0.0.2")] 0 0.
Lemma file_in_its_directory_witness :
  let n := text "/data/10.0.0.1/2024-01-02/smith-03-04-05_tcp:1-tcp:2.smcap" in
  let made := [text "/data"; text "/data/10.0.0.1/"; text "/data/10.0.0.1/2024-01-02/"] in
  exists w, FsOutput (fun _ => true) (Some sample_capture) (text "/data") (text "smith-") (text "smcap") true (mkTm 124 0 2 3 4 5) [] = Ret n w /\
    created w = made /\
    exists sub day rest, created w = [] ++ [text "/data"; text "/data" ++ text "/" ++ sub; text "/data" ++ text "/" ++ sub ++ day] /\
      n = (text "/data" ++ text "/" ++ sub ++ day) ++ rest /\ o_filename (fso w) = n.
Proof.
  intros n made. eexists. split; [vm_compute; reflexivity|]. split; [reflexivity|].
  apply (file_in_its_directory (fun _ => true) sample_capture (mkTm 124 0 2 3 4 5) (text "/data") (text "smith-") (text "smcap") []); [|done].
  vm_compute. reflexivity.
Defined.

Lemma keys_mirror_witness :
  traflog_file_key (fun _ => true) (Some sample_capture) true tt = Ret (text "tcp:1-tcp:2") tt /\
  traflog_file_key (fun _ => true) (Some sample_capture) false tt = Ret (text "tcp:2-tcp:1") tt.
Proof. apply (keys_mirror (fun _ => true) (fun _ => eq_refl) sample_capture tt). vm_compute. reflexivity. Defined.
