(* ===== verification/Writer.v ===== *)
(** * Writer: the writers of the traffic logs (src/traflog/basefilewriter.hpp, filewriter.hpp,
    filewriter.cpp, poolwriter.hpp, poolwriter.cpp, threadedpoolwriter.hpp, threadedpoolwriter.cpp)

    Streams of the C++ library opened for appending, on a disk of names and files.  A stream keeps
    back what is inserted in it: the library writes any leading part of it to the file when it likes
    ([written_on]) and the rest when the stream is flushed, closed or destroyed, so that the last
    insertions are not in the file before that.  A name that may not be opened gives a stream that
    takes nothing; a file that is open takes all that is written to it. *)

From stdpp Require Import gmap.
From S2P Require Export Effects PtrCache.

Abbreviation fname := bytes.

(** [std::ofstream]: the file it is open on, and what it has not written to it. *)
Record ofstream : Type := mkOfstream { os_file : option Z; os_held : bytes }.

(** The disk, the streams of the process by their addresses, and how much of what it holds a stream
    writes on its own when something is inserted. *)
Record disk : Type := mkDisk {
  names : gmap fname Z;
  contents : gmap Z bytes;
  next_file : Z;
  may_open : fname -> bool;
  streams : gmap Z ofstream;
  next_stream : Z;
  written_on : bytes -> nat
}.

Abbreviation stream := Z.

Definition set_names m d := mkDisk m (contents d) (next_file d) (may_open d) (streams d) (next_stream d) (written_on d).
Definition append_file i b d :=
  mkDisk (names d) (<[i := default [] (contents d !! i) ++ b]> (contents d)) (next_file d) (may_open d)
    (streams d) (next_stream d) (written_on d).
Definition put_stream s o d :=
  mkDisk (names d) (contents d) (next_file d) (may_open d) (<[s := o]> (streams d)) (next_stream d) (written_on d).
Definition new_file n d :=
  mkDisk (<[n := next_file d]> (names d)) (<[next_file d := []]> (contents d)) (next_file d + 1) (may_open d)
    (streams d) (next_stream d) (written_on d).
Definition new_stream f d : stream * disk :=
  (next_stream d,
   mkDisk (names d) (contents d) (next_file d) (may_open d) (<[next_stream d := mkOfstream f []]> (streams d))
     (next_stream d + 1) (written_on d)).

(** [new std::ofstream(fnm, out | app)]: a file that is not there is made. *)
Definition open_app (n : fname) (d : disk) : stream * disk :=
  if may_open d n then
    match names d !! n with
    | Some i => new_stream (Some i) d
    | None => new_stream (Some (next_file d)) (new_file n d)
    end
  else new_stream None d.

(** [<<]. *)
Definition insert_into (s : stream) (b : bytes) (d : disk) : disk :=
  match streams d !! s with
  | Some (mkOfstream (Some i) h) =>
      let k := written_on d (h ++ b) in
      put_stream s (mkOfstream (Some i) (drop k (h ++ b))) (append_file i (take k (h ++ b)) d)
  | _ => d
  end.

Definition flush_stream (s : stream) (d : disk) : disk :=
  match streams d !! s with
  | Some (mkOfstream (Some i) h) => put_stream s (mkOfstream (Some i) []) (append_file i h d)
  | _ => d
  end.

(** [close], also by the destructor. *)
Definition close_stream (s : stream) (d : disk) : disk :=
  put_stream s (mkOfstream None []) (flush_stream s d).

Definition is_open (s : stream) (d : disk) : bool :=
  match streams d !! s with Some (mkOfstream (Some _) _) => true | _ => false end.

(** chmod(2) succeeds on a file that is there. *)
Definition chmod_ok (n : fname) (d : disk) : bool :=
  match names d !! n with Some _ => true | None => false end.

(** ** fileWriter *)

Record file_writer : Type := mkFw {
  writer_ : option stream;
  fw_opened : bool;
  fw_filename : fname;
  fw_disk : disk
}.
Definition new_file_writer (d : disk) : file_writer := mkFw None false [] d.

(** [write] of a string: the size also when the stream was closed and takes nothing. *)
Definition fw_write (b : bytes) (w : file_writer) : Z * file_writer :=
  match writer_ w with
  | None => (0, w)
  | Some s => (zlen b, mkFw (writer_ w) (fw_opened w) (fw_filename w) (insert_into s b (fw_disk w)))
  end.

(** [write] of a buffer: nothing for an empty one. *)
Definition fw_write_buffer (b : bytes) (w : file_writer) : Z * file_writer :=
  match writer_ w with
  | None => (0, w)
  | Some _ => if zlen b =? 0 then (0, w) else fw_write b w
  end.

(** [close()]: the stream object stays. *)
Definition fw_close (w : file_writer) : file_writer :=
  match writer_ w with
  | None => mkFw None false (fw_filename w) (fw_disk w)
  | Some s =>
      mkFw (Some s) false [] (if is_open s (fw_disk w) then close_stream s (fw_disk w) else fw_disk w)
  end.

Definition fw_close_name (w : file_writer) : bool * file_writer :=
  let w := fw_close w in (negb (fw_opened w), w).

(** [open]: gives up when the change of mode succeeds. *)
Definition fw_open (n : fname) (w : file_writer) : bool * file_writer :=
  match writer_ w with
  | Some _ => (true, w)
  | None =>
      if zlen n =? 0 then (false, w)
      else
        let '(s, d) := open_app n (fw_disk w) in
        let w := mkFw (Some s) (fw_opened w) (fw_filename w) d in
        if chmod_ok n d then (false, fw_close w)
        else if is_open s d then (true, mkFw (Some s) true n d)
        else (false, fw_close w)
  end.

Definition fw_flush (w : file_writer) : bool * file_writer :=
  match writer_ w with
  | Some s => (true, mkFw (Some s) (fw_opened w) (fw_filename w) (flush_stream s (fw_disk w)))
  | None => (false, w)
  end.

(** ** poolFileWriter *)

Record pool_writer : Type := mkPw { ofstream_pool : cache fname stream; pw_disk : disk }.
Definition new_pool_writer (d : disk) : pool_writer := mkPw (cache_new 30 None) d.

(** The streams the pool refers to; one it does not refer to any more is destroyed. *)
Definition refs (c : cache fname stream) : list stream :=
  (fun e : fname * block stream => b_ptr e.2) <$> map_to_list (blocks c).
Definition dropped (c c' : cache fname stream) : list stream := filter (fun s => s ∉ refs c') (refs c).
Definition destroy (l : list stream) (d : disk) : disk := foldr close_stream d l.

Definition on_pool {A} (m : M (cache fname stream) A) : M pool_writer A := fun w =>
  match m (ofstream_pool w) with
  | Ret a c => Ret a (mkPw c (destroy (dropped (ofstream_pool w) c) (pw_disk w)))
  | Throw e c => Throw e (mkPw c (destroy (dropped (ofstream_pool w) c) (pw_disk w)))
  | Undef => Undef
  end.
Definition on_disk {A} (f : disk -> A * disk) : M pool_writer A := fun w =>
  let '(a, d) := f (pw_disk w) in Ret a (mkPw (ofstream_pool w) d).

Definition get_ofstream (n : fname) (create : bool) : M pool_writer (option stream) :=
  optr <- on_pool (cache_get n) ;;
  match optr with
  | Some s => mret_ (Some s)
  | None =>
      if negb create then mret_ None
      else
        s <- on_disk (open_app n) ;;
        on_pool (cache_set n s) ;;;
        on_pool (cache_get n)
  end.

(** [write] of a string: what the stream holds is flushed first and the new bytes are left in it; the
    size is returned also when the stream takes nothing (streams throw nothing unless they are told
    to). *)
Definition pw_write (n : fname) (b : bytes) : M pool_writer Z :=
  r <- get_ofstream n true ;;
  match r with
  | None => mret_ 0
  | Some s => on_disk (fun d => (tt, insert_into s b (flush_stream s d))) ;;; mret_ (zlen b)
  end.

Definition pw_write_buffer (n : fname) (b : bytes) : M pool_writer Z :=
  r <- get_ofstream n true ;;
  match r with
  | None => mret_ 0
  | Some s =>
      if zlen b =? 0 then mret_ 0
      else on_disk (fun d => (tt, insert_into s b (flush_stream s d))) ;;; mret_ (zlen b)
  end.

Definition pw_flush (n : fname) : M pool_writer bool :=
  r <- get_ofstream n false ;;
  match r with
  | Some s => on_disk (fun d => (tt, flush_stream s d)) ;;; mret_ true
  | None => mret_ false
  end.

Definition pw_close (n : fname) : M pool_writer bool :=
  r <- get_ofstream n false ;;
  match r with
  | Some _ => on_pool (erase n) ;;; mret_ true
  | None => mret_ false
  end.

Definition pw_open (n : fname) : M pool_writer bool :=
  r <- get_ofstream n true ;;
  mret_ (match r with Some _ => true | None => false end).

(** [recreate]: a file that is gone is forgotten. *)
Definition pw_recreate (n : fname) : M pool_writer bool :=
  there <- gets (fun w => chmod_ok n (pw_disk w)) ;;
  if (there : bool) then mret_ false else pw_close n ;;; mret_ true.

(** ** threadedPoolFileWriter *)

Record threaded_writer : Type := mkTw { tw_pool : pool_writer; task_queue_ : list (fname * bytes) }.

Definition tw_write (n : fname) (b : bytes) : M threaded_writer Z :=
  modify (fun w => mkTw (tw_pool w) (task_queue_ w ++ [(n, b)])) ;;; mret_ (zlen b).

Definition on_writer {A} (m : M pool_writer A) : M threaded_writer A := fun w =>
  match m (tw_pool w) with
  | Ret a p => Ret a (mkTw p (task_queue_ w))
  | Throw e p => Throw e (mkTw p (task_queue_ w))
  | Undef => Undef
  end.

(** A turn of [worker], under the lock of the queue: true when it has to wait. *)
Definition worker_turn : M threaded_writer bool := fun w =>
  match task_queue_ w with
  | [] => Ret true w
  | (n, b) :: _ =>
      (on_writer (pw_write_buffer n b) ;;;
       modify (fun w => mkTw (tw_pool w) (tail (task_queue_ w))) ;;;
       mret_ false) w
  end.

Fixpoint worker_turns (k : nat) : M threaded_writer unit :=
  match k with O => mret_ tt | S k => worker_turn ;;; worker_turns k end.
