(* ===== verification/WriterProps.v ===== *)
(** * WriterProps: what the threaded writer takes reaches the disk, in order

    The threaded pool writer implements the contract of the capture log, whatever its pool of
    streams evicts or closes and whenever its thread runs: nothing it has taken is lost or
    reordered between its queue, the buffers of its streams and the files. *)

From stdpp Require Import gmap.
From S2P Require Export Writer PcapLog PtrCacheProps.

(** ** Invariant of the writer *)

Definition tw_disk (w : threaded_writer) : disk := pw_disk (tw_pool w).

Record disk_ok (d : disk) : Prop := {
  dk_inj : forall a b i, names d !! a = Some i -> names d !! b = Some i -> a = b;
  dk_next : forall a i, names d !! a = Some i -> i < next_file d;
  dk_open : forall n, may_open d n = true;
  dk_streams : forall s o, streams d !! s = Some o -> s < next_stream d
}.

(** Every cached stream is open on the file of its name. *)
Definition pool_ok (p : pool_writer) : Prop :=
  fifo (ofstream_pool p) /\ disk_ok (pw_disk p) /\
  forall n b, blocks (ofstream_pool p) !! n = Some b ->
    exists i h, names (pw_disk p) !! n = Some i /\ streams (pw_disk p) !! b_ptr b = Some (mkOfstream (Some i) h).

Definition tw_ok (w : threaded_writer) : Prop :=
  pool_ok (tw_pool w) /\ Forall (fun e => is_Some (names (tw_disk w) !! e.1)) (task_queue_ w).

(** The bytes queued for a name, those in its file, and those its stream keeps back. *)
Definition queued (n : fname) (q : list (fname * bytes)) : bytes :=
  concat ((fun e : fname * bytes => if bool_decide (e.1 = n) then e.2 else []) <$> q).

Definition on_file (n : fname) (d : disk) : option bytes :=
  match names d !! n with Some i => Some (default [] (contents d !! i)) | None => None end.

Definition held (n : fname) (p : pool_writer) : bytes :=
  match blocks (ofstream_pool p) !! n with
  | Some b => match streams (pw_disk p) !! b_ptr b with Some o => os_held o | None => [] end
  | None => []
  end.

Definition got (n : fname) (p : pool_writer) : option bytes :=
  option_map (fun b => b ++ held n p) (on_file n (pw_disk p)).

Definition tw_taken (w : threaded_writer) (n : fname) : option bytes :=
  option_map (fun b => b ++ queued n (task_queue_ w)) (got n (tw_pool w)).

(** ** Streams *)

Lemma on_file_append n m i b d : disk_ok d -> names d !! n = Some i ->
  on_file m (append_file i b d) =
  option_map (fun x => if bool_decide (n = m) then x ++ b else x) (on_file m d).
Proof.
  intros Hd Hi. unfold on_file. cbn [append_file names contents].
  destruct (names d !! m) as [j |] eqn:Ej; [| done]. cbn [option_map].
  case_bool_decide as E.
  - subst m. rewrite Hi in Ej. injection Ej as <-. by rewrite lookup_insert_eq.
  - rewrite lookup_insert_ne; [done|]. intros ->. apply E. by eapply dk_inj.
Qed.

(** The names of a pool have streams of their own. *)
Lemma pool_distinct p n m b c : pool_ok p -> blocks (ofstream_pool p) !! n = Some b ->
  blocks (ofstream_pool p) !! m = Some c -> b_ptr b = b_ptr c -> n = m.
Proof.
  intros (_ & Hd & Hs) Hb Hc E. destruct (Hs n b Hb) as (i & h & Hi & Si), (Hs m c Hc) as (j & k & Hj & Sj).
  rewrite E, Sj in Si. injection Si as <- <-. by eapply dk_inj.
Qed.

Lemma disk_ok_put s o i b d : disk_ok d -> is_Some (streams d !! s) -> disk_ok (put_stream s o (append_file i b d)).
Proof.
  intros [] [o' Ho]. split; cbn; [done | done | done |]. intros t q.
  intros [[<- _] | [_ Hq]]%lookup_insert_Some; by eapply dk_streams0.
Qed.

(** Some bytes [out] of a cached stream go to its file and [h'] stay: the files of the other names
    and what their streams hold are as they were. *)
Lemma stream_view p n b i out h' : pool_ok p -> blocks (ofstream_pool p) !! n = Some b ->
  names (pw_disk p) !! n = Some i ->
  let p' := mkPw (ofstream_pool p) (put_stream (b_ptr b) (mkOfstream (Some i) h') (append_file i out (pw_disk p))) in
  pool_ok p' /\
  (forall m, on_file m (pw_disk p') =
     option_map (fun x => if bool_decide (n = m) then x ++ out else x) (on_file m (pw_disk p))) /\
  forall m, held m p' = if bool_decide (n = m) then h' else held m p.
Proof.
  intros Hp Hb Hi p'. pose proof Hp as (Hf & Hd & Hs). destruct (Hs n b Hb) as (j & h & Hj & Hst).
  assert (forall m c, blocks (ofstream_pool p) !! m = Some c -> m <> n -> b_ptr b <> b_ptr c) as Hne.
  { intros m c Hc Hmn E. apply Hmn. symmetry. by eapply pool_distinct. }
  split; [split; [exact Hf | split; [apply disk_ok_put; [done | by eexists] |]] | split].
  - cbn. intros m c Hc. destruct (Hs m c Hc) as (k & h2 & Hk & Sk). destruct (decide (m = n)) as [-> | Hm].
    + rewrite Hb in Hc. injection Hc as <-. exists i, h'. by rewrite lookup_insert_eq.
    + exists k, h2. rewrite lookup_insert_ne by (by eapply Hne). done.
  - intros m. by apply on_file_append.
  - intros m. unfold held. cbn. case_bool_decide as E.
    + subst m. by rewrite Hb, lookup_insert_eq.
    + destruct (blocks (ofstream_pool p) !! m) as [c |] eqn:Hc; [| done].
      rewrite lookup_insert_ne; [done|]. by apply (Hne m c Hc).
Qed.

(** A flush of the stream of a name puts what it holds in the file. *)
Lemma flush_view p n b : pool_ok p -> blocks (ofstream_pool p) !! n = Some b ->
  let p' := mkPw (ofstream_pool p) (flush_stream (b_ptr b) (pw_disk p)) in
  pool_ok p' /\ names (pw_disk p') = names (pw_disk p) /\ (forall m, got m p' = got m p) /\ held n p' = [].
Proof.
  intros Hp Hb p'. pose proof Hp as (_ & _ & Hs). destruct (Hs n b Hb) as (i & h & Hi & Hst).
  subst p'. unfold flush_stream. rewrite Hst.
  destruct (stream_view p n b i h [] Hp Hb Hi) as (H1 & H2 & H3). split; [done|]. split; [done|].
  split; [| rewrite H3; by rewrite bool_decide_eq_true_2].
  intros m. unfold got. rewrite H2, H3. destruct (on_file m (pw_disk p)); [| done]. cbn [option_map].
  case_bool_decide as E; [| done]. subst m. unfold held. rewrite Hb, Hst. cbn [os_held]. by rewrite app_nil_r.
Qed.

Lemma insert_view p n b x : pool_ok p -> blocks (ofstream_pool p) !! n = Some b ->
  let p' := mkPw (ofstream_pool p) (insert_into (b_ptr b) x (pw_disk p)) in
  pool_ok p' /\ names (pw_disk p') = names (pw_disk p) /\
  forall m, got m p' = option_map (fun y => if bool_decide (n = m) then y ++ x else y) (got m p).
Proof.
  intros Hp Hb p'. pose proof Hp as (_ & _ & Hs). destruct (Hs n b Hb) as (i & h & Hi & Hst).
  subst p'. unfold insert_into. rewrite Hst. set (k := written_on _ _).
  destruct (stream_view p n b i (take k (h ++ x)) (drop k (h ++ x)) Hp Hb Hi) as (H1 & H2 & H3).
  split; [done|]. split; [done|].
  intros m. unfold got. rewrite H2, H3. destruct (on_file m (pw_disk p)); [| done]. cbn [option_map].
  case_bool_decide as E; [| done]. subst m. unfold held. rewrite Hb, Hst. cbn [os_held].
  by rewrite <- !app_assoc, take_drop.
Qed.

(** ** Streams that are destroyed *)

Lemma elem_refs s c : s ∈ refs c <-> exists n b, blocks c !! n = Some b /\ b_ptr b = s.
Proof.
  unfold refs. rewrite list_elem_of_fmap. split.
  - intros ([n b] & -> & Hb). exists n, b. by apply elem_of_map_to_list in Hb.
  - intros (n & b & Hb & <-). exists (n, b). split; [done|]. by apply elem_of_map_to_list.
Qed.

Lemma refs_nodup p : pool_ok p -> NoDup (refs (ofstream_pool p)).
Proof.
  intros Hp. unfold refs. apply NoDup_fmap_2_strong; [| apply NoDup_map_to_list].
  intros [n b] [m c] Hb Hc E. apply elem_of_map_to_list in Hb, Hc. cbn in *.
  assert (n = m) as -> by (by eapply pool_distinct). rewrite Hb in Hc. by injection Hc as ->.
Qed.

Lemma dropped_elem s c c' : s ∈ dropped c c' <-> s ∉ refs c' /\ s ∈ refs c.
Proof. unfold dropped. by rewrite list_elem_of_filter. Qed.

Lemma dropped_self c : dropped c c = [].
Proof.
  destruct (dropped c c) as [| s l] eqn:E; [done|]. exfalso.
  assert (s ∈ dropped c c) as Hs by (rewrite E; left). apply dropped_elem in Hs. tauto.
Qed.

(** Closing one stream of the pool after others have been. *)
Lemma close_step p d n b :
  pool_ok p -> blocks (ofstream_pool p) !! n = Some b -> disk_ok d -> names d = names (pw_disk p) ->
  streams d !! b_ptr b = streams (pw_disk p) !! b_ptr b ->
  let d' := close_stream (b_ptr b) d in
  disk_ok d' /\ names d' = names d /\ (forall s, s <> b_ptr b -> streams d' !! s = streams d !! s) /\
  forall m, on_file m d' = option_map (fun x => if bool_decide (n = m) then x ++ held n p else x) (on_file m d).
Proof.
  intros (_ & _ & Hs) Hb Hd En Es d'. destruct (Hs n b Hb) as (i & h & Hi & Hst). rewrite Hst in Es.
  assert (held n p = h) as -> by (unfold held; by rewrite Hb, Hst).
  subst d'. unfold close_stream, flush_stream. rewrite Es.
  assert (disk_ok (put_stream (b_ptr b) (mkOfstream (Some i) []) (append_file i h d))) as H1
    by (apply disk_ok_put; [done | by eexists]).
  split; [| split; [done | split]].
  - destruct H1 as [K1 K2 K3 K4]. split; cbn in *; [done | done | done |]. intros t q.
    intros [[<- _] | [_ Hq]]%lookup_insert_Some; [| by eapply K4]. by eapply K4, lookup_insert_eq.
  - intros s Hne. cbn. by rewrite !lookup_insert_ne by done.
  - intros m. refine (on_file_append n m i h d Hd _). by rewrite En.
Qed.

Lemma destroy_view p l : pool_ok p -> NoDup l -> (forall s, s ∈ l -> s ∈ refs (ofstream_pool p)) ->
  let d' := destroy l (pw_disk p) in
  disk_ok d' /\ names d' = names (pw_disk p) /\ (forall s, s ∉ l -> streams d' !! s = streams (pw_disk p) !! s) /\
  (forall n, blocks (ofstream_pool p) !! n = None -> on_file n d' = on_file n (pw_disk p)) /\
  forall n b, blocks (ofstream_pool p) !! n = Some b ->
    on_file n d' = option_map (fun x => if bool_decide (b_ptr b ∈ l) then x ++ held n p else x) (on_file n (pw_disk p)).
Proof.
  intros Hp Hl Hr. induction Hl as [| s l Hs Hl IH].
  { cbn. split; [apply Hp|]. split; [done|]. split; [done|]. split; [done|]. intros n b _.
    destruct (on_file n (pw_disk p)); [| done]. cbn. rewrite bool_decide_eq_false_2; [done|]. apply not_elem_of_nil. }
  destruct IH as (I1 & I2 & I3 & I4 & I5); [intros t Ht; apply Hr; by right|]. cbn [destroy foldr].
  change (foldr close_stream (pw_disk p) l) with (destroy l (pw_disk p)).
  destruct (proj1 (elem_refs s (ofstream_pool p)) (Hr s ltac:(left))) as (n & b & Hb & <-).
  destruct (close_step p (destroy l (pw_disk p)) n b Hp Hb I1 I2 (I3 _ Hs)) as (C1 & C2 & C3 & C4).
  split; [done|]. split; [by rewrite C2|]. split; [| split].
  - intros t Ht. apply not_elem_of_cons in Ht as [Hne Ht]. by rewrite C3, I3.
  - intros m Hm. rewrite C4, I4 by done. rewrite bool_decide_eq_false_2 by (intros ->; congruence).
    by destruct (on_file m (pw_disk p)).
  - intros m c Hc. rewrite C4, (I5 m c Hc). destruct (on_file m (pw_disk p)); [| done]. cbn [option_map].
    destruct (decide (n = m)) as [<- | Hne].
    + rewrite Hb in Hc. injection Hc as <-.
      by rewrite (bool_decide_eq_true_2 (n = n)), (bool_decide_eq_false_2 (_ ∈ l)), bool_decide_eq_true_2 by (done || left).
    + rewrite (bool_decide_eq_false_2 (n = m)) by done.
      rewrite (bool_decide_ext (b_ptr c ∈ b_ptr b :: l) (b_ptr c ∈ l)); [done|].
      rewrite elem_of_cons. split; [| by right]. intros [E |]; [| done]. exfalso. apply Hne. by eapply pool_distinct.
Qed.

(** What the pool refers to no more is destroyed: what it held is in its file. *)
Lemma drop_view p c' : pool_ok p ->
  let d' := destroy (dropped (ofstream_pool p) c') (pw_disk p) in
  disk_ok d' /\ names d' = names (pw_disk p) /\
  (forall n, blocks (ofstream_pool p) !! n = None -> on_file n d' = on_file n (pw_disk p)) /\
  (forall s, s ∈ refs c' -> streams d' !! s = streams (pw_disk p) !! s) /\
  forall n b, blocks (ofstream_pool p) !! n = Some b ->
    (b_ptr b ∈ refs c' -> on_file n d' = on_file n (pw_disk p)) /\
  (b_ptr b ∉ refs c' -> on_file n d' = got n p).
Proof.
  intros Hp. destruct (destroy_view p (dropped (ofstream_pool p) c') Hp) as (H1 & H2 & H3 & H4 & H5).
  { apply NoDup_filter. by apply refs_nodup. }
  { intros s [_ Hs]%dropped_elem. exact Hs. }
  split; [exact H1|]. split; [exact H2|]. split; [exact H4|]. split.
  - intros s Hs. apply H3. rewrite dropped_elem. tauto.
  - intros n b Hb. rewrite (H5 n b Hb). split; intros Hr.
    + rewrite bool_decide_eq_false_2; [by destruct (on_file n (pw_disk p))|]. rewrite dropped_elem. tauto.
    + rewrite bool_decide_eq_true_2; [done|]. apply dropped_elem. split; [done|]. apply elem_refs. by exists n, b.
Qed.

(** A pool that forgot some names loses nothing. *)
Lemma forgot_view p c' : pool_ok p -> forgot (ofstream_pool p) c' ->
  let p' := mkPw c' (destroy (dropped (ofstream_pool p) c') (pw_disk p)) in
  pool_ok p' /\ names (pw_disk p') = names (pw_disk p) /\ forall m, got m p' = got m p.
Proof.
  intros Hp Hf p'. destruct (drop_view p c' Hp) as (H1 & H2 & H3 & H4 & H5). pose proof Hp as (F & _ & Hs).
  pose proof (forgot_subseteq _ _ Hf) as Hsub.
  assert (forall n b, blocks c' !! n = Some b -> blocks (ofstream_pool p) !! n = Some b /\ b_ptr b ∈ refs c') as Hin.
  { intros n b Hb. split; [by eapply lookup_weaken | apply elem_refs; by exists n, b]. }
  split; [split; [by eapply forgot_fifo | split; [exact H1 |]] | split; [exact H2 |]].
  - intros n b Hb. destruct (Hin n b Hb) as [Hb' Hr]. destruct (Hs n b Hb') as (i & h & Hi & Hst).
    exists i, h. subst p'. cbn [pw_disk]. by rewrite H2, H4.
  - intros m. subst p'. unfold got at 1. unfold held. cbn [ofstream_pool pw_disk].
    destruct (blocks (ofstream_pool p) !! m) as [b |] eqn:Hb.
    + destruct (H5 m b Hb) as [K1 K2]. destruct Hf as (_ & _ & _ & F4). destruct (F4 m) as [Ek | Ek]; rewrite Ek.
      * rewrite Hb in *. destruct (Hin m b Ek) as [_ Hr]. rewrite K1, H4 by done. unfold got, held. by rewrite Hb.
      * rewrite K2; [by destruct (got m p); cbn; rewrite ?app_nil_r|]. rewrite elem_refs. intros (n & b' & Hb' & E).
        destruct (Hin n b' Hb') as [Hb2 _]. assert (n = m) as -> by (by eapply pool_distinct). congruence.
    + destruct (blocks c' !! m) as [b |] eqn:Ec; [apply Hin in Ec as [? _]; congruence|].
      rewrite H3 by done. unfold got, held. by rewrite Hb.
Qed.

Lemma on_pool_same {A} (m : M (cache fname stream) A) a p :
  m (ofstream_pool p) = Ret a (ofstream_pool p) -> on_pool m p = Ret a p.
Proof. intros E. unfold on_pool. rewrite E, dropped_self. by destruct p. Qed.

(** A stream is made for a name that has none: what the pool evicts for it is in its files. *)
Lemma set_view p n i : pool_ok p -> blocks (ofstream_pool p) !! n = None -> names (pw_disk p) !! n = Some i ->
  exists r p', on_pool (cache_set n (next_stream (pw_disk p)))
      (mkPw (ofstream_pool p) (snd (new_stream (Some i) (pw_disk p)))) = Ret r p' /\
  pool_ok p' /\ names (pw_disk p') = names (pw_disk p) /\ (forall m, got m p' = got m p) /\
  b_ptr <$> blocks (ofstream_pool p') !! n = Some (next_stream (pw_disk p)).
Proof.
  intros Hp Hn Hi. set (s := next_stream (pw_disk p)). set (d1 := snd (new_stream (Some i) (pw_disk p))).
  pose proof Hp as (F & [D1 D2 D3 D4] & Hs).
  assert (forall t o, streams (pw_disk p) !! t = Some o -> streams d1 !! t = Some o) as Hk.
  { intros t o Ht. cbn. rewrite lookup_insert_ne; [done|]. intros <-. apply D4 in Ht. lia. }
  set (p1 := mkPw (ofstream_pool p) d1).
  assert (pool_ok p1) as Hp1.
  { split; [done|]. split.
    - split; [exact D1 | exact D2 | exact D3 |]. intros t o. cbn. intros [[<- _] | [_ Ht]]%lookup_insert_Some; [lia|].
      apply D4 in Ht. lia.
    - intros m b Hb. destruct (Hs m b Hb) as (j & h & Hj & Hst). exists j, h. split; [exact Hj|]. by apply Hk. }
  assert (forall m, got m p1 = got m p) as Hg1.
  { intros m. unfold got, held. cbn [p1 ofstream_pool pw_disk]. destruct (blocks (ofstream_pool p) !! m) as [b |] eqn:Hb; [| done].
    destruct (Hs m b Hb) as (j & h & Hj & Hst). by rewrite (Hk _ _ Hst), Hst. }
  destruct (set_fifo_new n s (ofstream_pool p) F Hn) as (c' & m' & E & Hsub & Ec & F').
  unfold on_pool. change (ofstream_pool p1) with (ofstream_pool p). rewrite E. eexists _, _. split; [reflexivity|]. cbn [p1 ofstream_pool pw_disk].
  destruct (drop_view p1 c' Hp1) as (H1 & H2 & H3 & H4 & H5). cbn [p1 ofstream_pool pw_disk] in H1, H2, H3, H4, H5.
  set (d' := destroy (dropped (ofstream_pool p) c') d1) in *.
  assert (blocks c' !! n = Some (fresh_block s c')) as Hcn by (rewrite Ec; apply lookup_insert_eq).
  assert (streams d' !! s = Some (mkOfstream (Some i) [])) as Hst'.
  { rewrite H4; [apply lookup_insert_eq|]. apply elem_refs. exists n, (fresh_block s c'). by split. }
  assert (forall m b, m <> n -> blocks c' !! m = Some b -> blocks (ofstream_pool p) !! m = Some b /\ b_ptr b ∈ refs c') as Hin.
  { intros m b Hm Hb. split; [| apply elem_refs; by exists m, b]. rewrite Ec, lookup_insert_ne in Hb by done. by eapply lookup_weaken. }
  split; [split; [exact F' | split; [exact H1 |]] | split; [exact H2 | split]].
  - intros m b Hb. destruct (decide (m = n)) as [-> | Hm].
    + cbn [ofstream_pool pw_disk] in *. rewrite Hcn in Hb. injection Hb as <-. exists i, []. rewrite H2. by split.
    + destruct (Hin m b Hm Hb) as [Hb' Hr]. destruct (Hs m b Hb') as (j & h & Hj & Hst). exists j, h.
      cbn [ofstream_pool pw_disk]. rewrite H2, (H4 _ Hr). split; [done|]. by apply Hk.
  - intros m. rewrite <- Hg1. unfold got at 1. unfold held. cbn [ofstream_pool pw_disk]. destruct (decide (m = n)) as [-> | Hm].
    + rewrite Hcn. change (b_ptr (fresh_block s c')) with s. rewrite Hst', (H3 n Hn).
      unfold got, held. cbn [p1 ofstream_pool pw_disk]. by rewrite Hn.
    + destruct (blocks (ofstream_pool p) !! m) as [b |] eqn:Hb.
      * destruct (H5 m b Hb) as [K1 K2]. destruct (blocks c' !! m) as [b' |] eqn:Ek.
        -- destruct (Hin m b' Hm Ek) as [Hb2 Hr]. assert (b' = b) as -> by congruence.
           rewrite K1, H4 by done. unfold got, held. cbn [p1 ofstream_pool pw_disk]. by rewrite Hb.
        -- rewrite K2; [by destruct (got m p1); cbn; rewrite ?app_nil_r|]. rewrite elem_refs. intros (k & b' & Hb' & Eb).
           destruct (decide (k = n)) as [-> | Hkn].
           ++ rewrite Hcn in Hb'. injection Hb' as <-. cbn in Eb. destruct (Hs m b Hb) as (j & h & Hj & Hst).
              apply D4 in Hst. subst s. lia.
           ++ destruct (Hin k b' Hkn Hb') as [Hb2 _]. assert (k = m) as -> by (by eapply pool_distinct). congruence.
      * destruct (blocks c' !! m) as [b |] eqn:Ek; [apply Hin in Ek as [? _]; congruence|].
        rewrite (H3 m Hb). unfold got, held. cbn [p1 ofstream_pool pw_disk]. by rewrite Hb.
  - cbn [ofstream_pool]. by rewrite Hcn.
Qed.

(** ** Calls of the pool *)

(** A stream for a file that is there. *)
Lemma get_ofstream_there n p : pool_ok p -> is_Some (names (pw_disk p) !! n) ->
  exists b p', get_ofstream n true p = Ret (Some (b_ptr b)) p' /\ pool_ok p' /\ names (pw_disk p') = names (pw_disk p) /\
    (forall m, got m p' = got m p) /\ blocks (ofstream_pool p') !! n = Some b.
Proof.
  intros Hp [i Hi]. pose proof Hp as (Hf & Hd & _). unfold get_ofstream.
  rewrite (bind_ret _ _ _ _ _ (on_pool_same _ _ _ (fifo_get _ n Hf))).
  destruct (blocks (ofstream_pool p) !! n) as [b |] eqn:Eb; cbn [fmap option_fmap option_map negb].
  - exists b, p. by repeat (split; [done|]).
  - destruct (set_view p n i Hp Eb Hi) as (r & p' & E & Hp' & Hn & Hg & Hb).
    unfold on_disk. unfold mbind_ at 1. unfold open_app. rewrite (dk_open _ Hd), Hi. cbn [new_stream].
    change (mkDisk _ _ _ _ _ _ _) with (snd (new_stream (Some i) (pw_disk p))).
    rewrite (bind_ret _ _ _ _ _ E). pose proof (fifo_get _ n (proj1 Hp')) as Eg. rewrite Hb in Eg.
    rewrite (on_pool_same _ _ _ Eg).
    destruct (blocks (ofstream_pool p') !! n) as [b |] eqn:Ebn; [| done]. injection Hb as Hb.
    exists b, p'. rewrite Hb. by repeat (split; [done|]).
Qed.

Lemma get_ofstream_false n p : pool_ok p -> get_ofstream n false p = Ret (b_ptr <$> blocks (ofstream_pool p) !! n) p.
Proof.
  intros (Hf & _). unfold get_ofstream.
  rewrite (bind_ret _ _ _ _ _ (on_pool_same _ _ _ (fifo_get _ n Hf))).
  by destruct (blocks (ofstream_pool p) !! n).
Qed.

(** Writing a buffer to a file that is there. *)
Lemma pw_write_buffer_ok n x p : pool_ok p -> is_Some (names (pw_disk p) !! n) ->
  exists r p', pw_write_buffer n x p = Ret r p' /\ pool_ok p' /\ names (pw_disk p') = names (pw_disk p) /\
    forall m, got m p' = option_map (fun y => if bool_decide (n = m) then y ++ x else y) (got m p).
Proof.
  intros Hp Hn. destruct (get_ofstream_there n p Hp Hn) as (b & p1 & E & Hp1 & En & Eg & Hb).
  unfold pw_write_buffer. rewrite (bind_ret _ _ _ _ _ E).
  destruct (Z.eqb_spec (zlen x) 0) as [Hz | Hz].
  - assert (x = []) as -> by (destruct x; [done|]; rewrite zlen_cons in Hz; pose proof (zlen_nonneg x); lia).
    eexists _, p1. split; [done|]. split; [done|]. split; [done|]. intros m. rewrite Eg.
    destruct (got m p); [| done]. cbn. case_bool_decide; by rewrite ?app_nil_r.
  - destruct (flush_view p1 n b Hp1 Hb) as (Hp2 & En2 & Eg2 & _).
    destruct (insert_view (mkPw (ofstream_pool p1) (flush_stream (b_ptr b) (pw_disk p1))) n b x Hp2 Hb) as (Hp3 & En3 & Eg3).
    unfold on_disk, mbind_. eexists _, _. split; [reflexivity|]. split; [exact Hp3|].
    split; [by rewrite <- En, <- En2, <- En3 |]. intros m. rewrite Eg3, Eg2, Eg. done.
Qed.

(** A flush and a close leave nothing in the stream. *)
Lemma pw_flush_ok n p : pool_ok p ->
  exists r p', pw_flush n p = Ret r p' /\ pool_ok p' /\ names (pw_disk p') = names (pw_disk p) /\
    (forall m, got m p' = got m p) /\ held n p' = [].
Proof.
  intros Hp. unfold pw_flush. rewrite (bind_ret _ _ _ _ _ (get_ofstream_false n p Hp)).
  destruct (blocks (ofstream_pool p) !! n) as [b |] eqn:Hb; cbn [fmap option_fmap option_map].
  - destruct (flush_view p n b Hp Hb) as (H1 & H2 & H3 & H4). unfold on_disk, mbind_. eexists _, _. by split.
  - exists false, p. repeat (split; [done|]). unfold held. by rewrite Hb.
Qed.

Lemma pw_close_ok n p : pool_ok p ->
  exists r p', pw_close n p = Ret r p' /\ pool_ok p' /\ names (pw_disk p') = names (pw_disk p) /\
    (forall m, got m p' = got m p) /\ held n p' = [].
Proof.
  intros Hp. unfold pw_close. rewrite (bind_ret _ _ _ _ _ (get_ofstream_false n p Hp)).
  destruct (blocks (ofstream_pool p) !! n) as [b |] eqn:Hb; cbn [fmap option_fmap option_map].
  - destruct (erase_forgot n (ofstream_pool p)) as (r & c & Ec & F & _).
    destruct (forgot_view p c Hp F) as (H1 & H2 & H3).
    unfold on_pool, mbind_. rewrite Ec. eexists _, _. split; [reflexivity|]. split; [exact H1|]. split; [exact H2|].
    split; [exact H3|]. unfold erase in Ec. rewrite Hb in Ec. injection Ec as _ <-. unfold held. cbn.
    by rewrite lookup_delete_eq.
  - exists false, p. repeat (split; [done|]). unfold held. by rewrite Hb.
Qed.

Lemma pw_recreate_ok n p : pool_ok p ->
  exists p', pw_recreate n p = Ret (match names (pw_disk p) !! n with Some _ => false | None => true end) p' /\
    pool_ok p' /\ names (pw_disk p') = names (pw_disk p) /\ forall m, got m p' = got m p.
Proof.
  intros Hp. unfold pw_recreate. rewrite bind_gets. unfold chmod_ok.
  destruct (names (pw_disk p) !! n); [by exists p|].
  destruct (pw_close_ok n p Hp) as (r & p' & E & Hp' & En & Eg & _). rewrite (bind_ret _ _ _ _ _ E).
  by exists p'.
Qed.

(** ** The worker *)

Lemma queued_cons m n b q : queued m ((n, b) :: q) = (if bool_decide (n = m) then b else []) ++ queued m q.
Proof. done. Qed.

(** A turn of the thread moves bytes from the queue to the stream; what was taken stays. *)
Lemma worker_turn_ok w : tw_ok w ->
  exists r w', worker_turn w = Ret r w' /\ tw_ok w' /\ (forall n, tw_taken w' n = tw_taken w n) /\
    task_queue_ w' = tail (task_queue_ w).
Proof.
  intros [Hp Hq]. unfold worker_turn. destruct (task_queue_ w) as [| [n b] q] eqn:Eq.
  - exists true, w. split; [done|]. split; [split; by rewrite ?Eq |]. split; [done | by rewrite Eq].
  - inversion Hq as [| ? ? Hn Hq']; subst. cbn in Hn.
    destruct (pw_write_buffer_ok n b (tw_pool w) Hp Hn) as (r & p' & E & Hp' & Hnames & Hfile).
    unfold on_writer. unfold mbind_ at 1. rewrite E. rewrite bind_modify. cbn [tw_pool task_queue_]. rewrite Eq.
    eexists _, _. split; [done|]. cbn [tail]. split; [| split; [| done]].
    + split; [done|]. unfold tw_disk. cbn [tw_pool]. rewrite Hnames. exact Hq'.
    + intros m. unfold tw_taken. cbn [tw_pool task_queue_]. rewrite Eq, Hfile, queued_cons.
      destruct (got m (tw_pool w)); [| done]. cbn.
      case_bool_decide; by rewrite <- ?app_assoc.
Qed.

Lemma worker_turns_ok k w : tw_ok w ->
  exists w', worker_turns k w = Ret tt w' /\ tw_ok w' /\ (forall n, tw_taken w' n = tw_taken w n) /\
    task_queue_ w' = drop k (task_queue_ w).
Proof.
  revert w. induction k as [| k IH]; intros w Hw; cbn [worker_turns].
  - exists w. by repeat (split; [done|]).
  - destruct (worker_turn_ok w Hw) as (r & w1 & E1 & H1 & T1 & Q1). rewrite (bind_ret _ _ _ _ _ E1).
    destruct (IH w1 H1) as (w2 & E2 & H2 & T2 & Q2). exists w2. split; [done|]. split; [done|].
    split; [intros n; by rewrite T2 |]. rewrite Q2, Q1. destruct (task_queue_ w); [by destruct k | done].
Qed.

(** creat(2), remove(3) and rename(2) on the disk. *)
Definition creat_file (n : fname) (d : disk) : disk :=
  match names d !! n with
  | Some i =>
      mkDisk (names d) (<[i := []]> (contents d)) (next_file d) (may_open d) (streams d) (next_stream d) (written_on d)
  | None => new_file n d
  end.
Definition remove_file (n : fname) (d : disk) : bool * disk :=
  match names d !! n with
  | Some _ => (true, set_names (delete n (names d)) d)
  | None => (false, d)
  end.
Definition rename_file (a b : fname) (d : disk) : bool * disk :=
  match names d !! a with
  | Some i => (true, set_names (<[b := i]> (delete a (names d))) d)
  | None => (false, d)
  end.

Definition with_disk (f : disk -> disk) (w : threaded_writer) : threaded_writer :=
  mkTw (mkPw (ofstream_pool (tw_pool w)) (f (tw_disk w))) (task_queue_ w).

(** A new file starts empty and no stream is behind it. *)
Lemma creat_ok n w : tw_ok w -> names (tw_disk w) !! n = None ->
  tw_ok (with_disk (creat_file n) w) /\ tw_taken (with_disk (creat_file n) w) n = Some [].
Proof.
  intros [(Hf & Hd & Hs) Hq] Hn. unfold with_disk, creat_file. rewrite Hn.
  assert (Hqn : queued n (task_queue_ w) = []).
  { clear -Hq Hn. induction Hq as [| [m b] q Hm Hq IH]; [done|]. rewrite queued_cons. cbn in Hm.
    case_bool_decide as E; [| exact IH]. subst m. rewrite Hn in Hm. by destruct Hm. }
  destruct Hd as [D1 D2 D3 D4]. unfold tw_disk in *.
  split; [split; [split; [done | split] |] |].
  - split; cbn [names next_file may_open pw_disk tw_pool new_file streams next_stream]; [| | done | done].
    + intros a b i Ha Hb. apply lookup_insert_Some in Ha as [[<- <-] | [Na Ha]];
        apply lookup_insert_Some in Hb as [[<- ?] | [Nb Hb]]; try done; try (by apply D2 in Hb; lia).
      * apply D2 in Ha. lia.
      * by eapply D1.
    + intros a i Ha. apply lookup_insert_Some in Ha as [[<- <-] | [Na Ha]]; [lia|]. apply D2 in Ha. lia.
  - intros m b Hb. cbn [ofstream_pool pw_disk names tw_pool new_file streams] in *.
    destruct (Hs m b Hb) as (i & h & Hi & Hst). exists i, h.
    rewrite lookup_insert_ne; [done|]. intros <-. congruence.
  - eapply Forall_impl; [exact Hq|]. intros [m b] [i Hi]. cbn in *.
    destruct (decide (n = m)) as [<- | Hne]; [by rewrite lookup_insert_eq; eexists |].
    rewrite lookup_insert_ne by done. by eexists.
  - unfold tw_taken, got, held, on_file. cbn [tw_pool pw_disk names contents task_queue_ new_file ofstream_pool].
    rewrite !lookup_insert_eq, Hqn. destruct (blocks (ofstream_pool (tw_pool w)) !! n) as [b |] eqn:Hb; [| done].
    destruct (Hs n b Hb) as (i & h & Hi & _). congruence.
Qed.

(** ** The contract of the capture log *)

(** A call that returns; the theorems show it always does. *)
Definition exec {A} (dflt : A) (m : M threaded_writer A) (w : threaded_writer) : A * threaded_writer :=
  match m w with Ret a w' => (a, w') | Throw _ w' => (dflt, w') | Undef => (dflt, w) end.

#[export] Instance threaded_files : Files := {|
  fs := threaded_writer;
  w_write n b := exec 0 (tw_write n b);
  w_flush n := exec false (on_writer (pw_flush n));
  w_open n := exec false (on_writer (pw_open n));
  w_close n := exec false (on_writer (pw_close n));
  w_opened _ := true;
  w_recreate n := exec false (on_writer (pw_recreate n));
  w_work w := snd (exec false worker_turn w);
  os_exists n w := chmod_ok n (tw_disk w);
  os_remove n w := let '(r, d) := remove_file n (tw_disk w) in (r, with_disk (fun _ => d) w);
  os_rename a b w := let '(r, d) := rename_file a b (tw_disk w) in (r, with_disk (fun _ => d) w);
  os_creat n := with_disk (creat_file n);
  fs_name dir pre suf w := (dir ++ [47] ++ pre ++ suf, w)
|}.

Lemma on_writer_ok {A} (m : M pool_writer A) r p w dflt :
  m (tw_pool w) = Ret r p -> exec dflt (on_writer m) w = (r, mkTw p (task_queue_ w)).
Proof. unfold exec, on_writer. by intros ->. Qed.

(** A call that leaves what the pool got leaves what the writer has taken. *)
Lemma taken_same p w n : got n p = got n (tw_pool w) -> tw_taken (mkTw p (task_queue_ w)) n = tw_taken w n.
Proof. unfold tw_taken. cbn. by intros ->. Qed.

Lemma tw_ok_same p w : pool_ok p -> names (pw_disk p) = names (pw_disk (tw_pool w)) -> tw_ok w -> tw_ok (mkTw p (task_queue_ w)).
Proof. intros Hp Ed [_ Hq]. split; [done|]. unfold tw_disk in *. cbn. by rewrite Ed. Qed.

Lemma queued_app n q r : queued n (q ++ r) = queued n q ++ queued n r.
Proof. unfold queued. by rewrite fmap_app, concat_app. Qed.

Lemma tw_write_ok n b w : tw_ok w -> is_Some (names (tw_disk w) !! n) ->
  exists w', tw_write n b w = Ret (zlen b) w' /\ tw_ok w' /\
    forall m, tw_taken w' m = option_map (fun x => if bool_decide (n = m) then x ++ b else x) (tw_taken w m).
Proof.
  intros [Hp Hq] Hn. unfold tw_write. rewrite bind_modify. eexists. split; [done|]. split.
  - split; [done|]. cbn. apply Forall_app. split; [done|]. by repeat constructor.
  - intros m. unfold tw_taken. cbn [tw_pool task_queue_]. rewrite queued_app.
    destruct (got m _); [| done]. cbn [option_map]. f_equal. rewrite app_assoc. unfold queued. cbn.
    rewrite app_nil_r. case_bool_decide; by rewrite ?app_nil_r.
Qed.

#[export] Instance threaded_files_ok : @FilesOk threaded_files.
Proof.
  refine {| files_ok := tw_ok : @fs threaded_files -> Prop; taken := tw_taken : @fs threaded_files -> _ |};
    intros; cbn [w_write w_flush w_close w_recreate w_work w_opened os_creat threaded_files fs] in *.
  - unfold exec. destruct (tw_write_ok n b f) as (w' & E & H1 & H2); [done | |].
    { unfold tw_taken, got, on_file in *. destruct (names _ !! n); [by eexists | done]. }
    rewrite E. split; [done|]. split; [done|]. rewrite H2. by rewrite bool_decide_eq_true_2.
  - destruct (pw_flush_ok n (tw_pool f) (proj1 H)) as (r & p & E & Hp & Ed & Eg & _).
    rewrite (on_writer_ok _ _ _ _ _ E). split; [by apply tw_ok_same | intros m; by apply taken_same].
  - destruct (pw_close_ok n (tw_pool f) (proj1 H)) as (r & p & E & Hp & Ed & Eg & _).
    rewrite (on_writer_ok _ _ _ _ _ E). split; [by apply tw_ok_same | intros m; by apply taken_same].
  - destruct (pw_recreate_ok n (tw_pool f) (proj1 H)) as (p & E & Hp & Ed & Eg).
    rewrite (on_writer_ok _ _ _ _ _ E). split; [| split; [by apply tw_ok_same | intros m; by apply taken_same]].
    unfold tw_taken, got, on_file, tw_disk. cbn. by destruct (names _ !! n).
  - apply creat_ok; [done|]. unfold tw_taken, got, on_file in *. by destruct (names _ !! n).
  - unfold exec. destruct (worker_turn_ok f H) as (r & w' & E & H1 & H2 & _). by rewrite E.
  - done.
Defined.

(** ** To the disk *)

(** What the threads do to the writer. *)
Inductive top : Type := TWrite (n : fname) (b : bytes) | TFlush (n : fname) | TClose (n : fname) | TTurn.

Definition tstep (o : top) : M threaded_writer unit :=
  match o with
  | TWrite n b => tw_write n b ;;; mret_ tt
  | TFlush n => on_writer (pw_flush n) ;;; mret_ tt
  | TClose n => on_writer (pw_close n) ;;; mret_ tt
  | TTurn => worker_turn ;;; mret_ tt
  end.
Fixpoint tsteps (os : list top) : M threaded_writer unit :=
  match os with [] => mret_ tt | o :: os => tstep o ;;; tsteps os end.

Definition written (n : fname) (os : list top) : bytes :=
  concat ((fun o => match o with TWrite m b => if bool_decide (m = n) then b else [] | _ => [] end) <$> os).

Definition names_there (w : threaded_writer) (os : list top) : Prop :=
  Forall (fun o => match o with TWrite m _ => is_Some (names (tw_disk w) !! m) | _ => True end) os.

Lemma taken_names w w' : (forall m, is_Some (tw_taken w' m) <-> is_Some (tw_taken w m)) ->
  forall os, names_there w os -> names_there w' os.
Proof.
  intros H os Hos. eapply Forall_impl; [exact Hos|]. intros [m b | | |]; try done. unfold tw_disk. intros Hm.
  assert (Ht : is_Some (tw_taken w m)) by (unfold tw_taken, got, on_file; destruct Hm as [i ->]; by eexists).
  apply H in Ht. unfold tw_taken, got, on_file in Ht. destruct (names (pw_disk (tw_pool w')) !! m); [by eexists | by destruct Ht].
Qed.

Lemma tstep_ok o w : tw_ok w -> names_there w [o] ->
  exists w', tstep o w = Ret tt w' /\ tw_ok w' /\
    forall m, tw_taken w' m = option_map (fun x => x ++ written m [o]) (tw_taken w m).
Proof.
  assert (Hid : forall x : option bytes, x = option_map (fun y => y ++ []) x)
    by (intros [x |]; cbn; by rewrite ?app_nil_r).
  intros Hw Hn. unfold written. inversion Hn as [| ? ? Ho _]; subst. destruct o as [n b | n | n |]; cbn [tstep].
  - destruct (tw_write_ok n b w Hw Ho) as (w' & E & H1 & H2). rewrite (bind_ret _ _ _ _ _ E).
    exists w'. split; [done|]. split; [done|]. intros m. rewrite H2. destruct (tw_taken w m); [| done].
    cbn. rewrite app_nil_r. case_bool_decide; by rewrite ?app_nil_r.
  - destruct (pw_flush_ok n (tw_pool w) (proj1 Hw)) as (r & p & E & Hp & Ed & Eg & _). unfold on_writer, mbind_. rewrite E.
    eexists. split; [done|]. split; [by apply tw_ok_same |]. intros m. cbn. rewrite <- Hid. by apply taken_same.
  - destruct (pw_close_ok n (tw_pool w) (proj1 Hw)) as (r & p & E & Hp & Ed & Eg & _). unfold on_writer, mbind_. rewrite E.
    eexists. split; [done|]. split; [by apply tw_ok_same |]. intros m. cbn. rewrite <- Hid. by apply taken_same.
  - destruct (worker_turn_ok w Hw) as (r & w' & E & H1 & H2 & _). rewrite (bind_ret _ _ _ _ _ E).
    exists w'. split; [done|]. split; [done|]. intros m. cbn. by rewrite <- Hid.
Qed.

Lemma written_cons n o os : written n (o :: os) = written n [o] ++ written n os.
Proof. unfold written. cbn. by rewrite app_nil_r. Qed.

Lemma tsteps_ok os : forall w, tw_ok w -> names_there w os ->
  exists w', tsteps os w = Ret tt w' /\ tw_ok w' /\
    forall m, tw_taken w' m = option_map (fun x => x ++ written m os) (tw_taken w m).
Proof.
  induction os as [| o os IH]; intros w Hw Hn; cbn [tsteps].
  - exists w. split; [done|]. split; [done|]. intros m. destruct (tw_taken w m); cbn; by rewrite ?app_nil_r.
  - inversion Hn as [| ? ? Ho Hos]; subst.
    destruct (tstep_ok o w Hw) as (w1 & E1 & H1 & T1); [by repeat constructor|].
    rewrite (bind_ret _ _ _ _ _ E1). destruct (IH w1 H1) as (w2 & E2 & H2 & T2).
    { apply (taken_names w); [| done]. intros m. rewrite T1. destruct (tw_taken w m); cbn; split; intros [? ?]; (done || by eexists). }
    exists w2. split; [done|]. split; [done|]. intros m. rewrite T2, T1, (written_cons m o os).
    destruct (tw_taken w m); [| done]. cbn [option_map]. f_equal. by rewrite app_assoc.
Qed.

(** With nothing queued, a flush or a close of a name leaves all that was taken for it in its file. *)
Lemma settled w n (k : pool_writer -> outcome pool_writer bool) :
  (forall p, pool_ok p -> exists r p', k p = Ret r p' /\ pool_ok p' /\ names (pw_disk p') = names (pw_disk p) /\
     (forall m, got m p' = got m p) /\ held n p' = []) ->
  tw_ok w -> task_queue_ w = [] ->
  exists r w', on_writer k w = Ret r w' /\ tw_ok w' /\ on_file n (tw_disk w') = tw_taken w n.
Proof.
  intros Hk Hw Hq. destruct (Hk (tw_pool w) (proj1 Hw)) as (r & p & E & Hp & Ed & Eg & Hh).
  exists r, (mkTw p (task_queue_ w)). unfold on_writer at 1. rewrite E. split; [done|]. split; [by apply tw_ok_same |].
  unfold tw_taken. rewrite Hq, <- Eg. unfold got. rewrite Hh. unfold tw_disk. cbn [tw_pool].
  destruct (on_file n (pw_disk p)); [| done]. cbn. by rewrite !app_nil_r.
Qed.

(** [C35] Take any interleaving of writes to files that are there, flushes and closes of any names
    and turns of the writer's thread, from a state in which the cached streams are open on the files
    of their names, every name may be opened and the files take what is written to them.  No call
    fails.  Once the thread has had as many more turns as there are elements queued, the queue is
    empty, and the file of each name followed by what the stream of that name still keeps back is
    what they held before, then what was queued for it, then what was written to it, in order,
    whatever streams the pool evicted meanwhile and however much the streams wrote on their own. The
    last bytes may still be in the stream; a flush of the name, or a close of it, then returns and
    leaves all of it in the file. *)
Theorem writes_reach_the_disk os w :
  tw_ok w -> names_there w os ->
  exists w1 w2, tsteps os w = Ret tt w1 /\
    worker_turns (length (task_queue_ w1)) w1 = Ret tt w2 /\ task_queue_ w2 = [] /\ tw_ok w2 /\
    forall n,
      let all := option_map (fun x => x ++ held n (tw_pool w) ++ queued n (task_queue_ w) ++ written n os)
                   (on_file n (tw_disk w)) in
      option_map (fun x => x ++ held n (tw_pool w2)) (on_file n (tw_disk w2)) = all /\
      (exists r w3, on_writer (pw_flush n) w2 = Ret r w3 /\ on_file n (tw_disk w3) = all) /\
      (exists r w3, on_writer (pw_close n) w2 = Ret r w3 /\ on_file n (tw_disk w3) = all).
Proof.
  intros Hw Hn. destruct (tsteps_ok os w Hw Hn) as (w1 & E1 & H1 & T1).
  destruct (worker_turns_ok (length (task_queue_ w1)) w1 H1) as (w2 & E2 & H2 & T2 & Q2).
  rewrite drop_all in Q2. exists w1, w2. split; [done|]. split; [done|]. split; [done|]. split; [done|].
  intros n all. assert (tw_taken w2 n = all) as Ha.
  { rewrite T2, T1. unfold tw_taken, got, all, tw_disk. destruct (on_file n (pw_disk (tw_pool w))); [| done].
    cbn. by rewrite !app_assoc. }
  split; [| split].
  - rewrite <- Ha. unfold tw_taken. rewrite Q2. unfold got, tw_disk.
    destruct (on_file n (pw_disk (tw_pool w2))); [| done]. cbn. by rewrite app_nil_r.
  - destruct (settled w2 n (pw_flush n) (pw_flush_ok n) H2 Q2) as (r & w3 & E & _ & F). rewrite Ha in F. eauto.
  - destruct (settled w2 n (pw_close n) (pw_close_ok n) H2 Q2) as (r & w3 & E & _ & F). rewrite Ha in F. eauto.
Qed.

(** Two files; a stream writes on its own once it holds more than four bytes. *)
Definition sample_disk : disk :=
  mkDisk {[ [97] := 0; [98] := 1 ]} {[ 0 := [1]; 1 := [] ]} 2 (fun _ => true) ∅ 0
    (fun h => if (4 <? length h)%nat then length h else O).
Definition sample_writer : threaded_writer := mkTw (new_pool_writer sample_disk) [([98], [7])].

Lemma sample_writer_ok : tw_ok sample_writer.
Proof.
  split; [split; [done | split] |].
  - split.
    + intros a b i Ha Hb. cbn in Ha, Hb.
      apply lookup_insert_Some in Ha as [[<- <-] | [_ Ha]]; apply lookup_insert_Some in Hb as [[<- Hb] | [_ Hb]];
        try done; try (apply lookup_singleton_Some in Ha as [<- <-]); try (apply lookup_singleton_Some in Hb as [<- Hb]); done.
    + intros a i Ha. cbn in Ha. apply lookup_insert_Some in Ha as [[<- <-] | [_ Ha]]; [done|].
      by apply lookup_singleton_Some in Ha as [<- <-].
    + done.
    + done.
  - intros n b Hb. done.
  - repeat constructor. cbn. by eexists.
Defined.

(** The last write to a file is in its stream until the next call. *)
Example last_write_is_held :
  match tsteps [TWrite [97] [2; 3]; TWrite [97] [4]; TTurn; TTurn; TTurn] sample_writer with
  | Ret _ w => on_file [97] (tw_disk w) = Some [1; 2; 3] /\ held [97] (tw_pool w) = [4]
  | _ => False
  end.
Proof. by vm_compute. Qed.

Definition sample_ops : list top := [TWrite [97] [2; 3]; TTurn; TClose [98]; TWrite [98] [8]].

Lemma writes_reach_the_disk_witness :
  exists w1 w2, tsteps sample_ops sample_writer = Ret tt w1 /\
    worker_turns (length (task_queue_ w1)) w1 = Ret tt w2 /\ task_queue_ w2 = [] /\ tw_ok w2 /\
    exists r w3, on_writer (pw_flush [98]) w2 = Ret r w3 /\ on_file [98] (tw_disk w3) = Some [7; 8].
Proof.
  destruct (writes_reach_the_disk sample_ops sample_writer sample_writer_ok) as (w1 & w2 & E1 & E2 & E3 & E4 & H).
  { repeat constructor; by eexists. }
  exists w1, w2. repeat (split; [assumption|]). destruct (H [98]) as (_ & (r & w3 & E5 & E6) & _). by exists r, w3.
Defined.
