(* ===== verification/Capture.v ===== *)
(** * Capture: the capture log over the threaded writer, to the disk

    The two components composed: what a connection's log writes, through the queue and the
    thread of the writer and its pool of streams, is on the disk a capture both streams can be
    read from. *)

From stdpp Require Import gmap.
From S2P Require Export PcapLogProps WriterProps.

(** [C12] A TCP connection over IPv4 or IPv6, without a tunnel, has a log of its own (not the shared
    capture, packets written to the file), not started and with no comment pending; its details fit
    their fields, there is no file of that name, files open, take what is written and are not moved,
    and memory is available.  Take any reads on either side (of at most 2^31 bytes each, one at
    least), comments (under 2^20 bytes in all) and turns of the writer's thread, in any order, then
    the end of the log and a turn of the thread per element queued.  None fails.  The file followed
    by what the stream of that name keeps back (the closing packets may be there: a write flushes
    before it inserts) is then a capture, and a flush or close of it puts all in the
    file: a reader splits it into section header, interface and packet blocks, and a
    reassembler that follows the sequence numbers gets from it, for each direction, exactly the
    bytes read on that side, between the handshake and the closing packets. *)
Theorem capture_reads_back `{LH : !LogHost} (mem : forall n, can_alloc n = true)
    (to_file : ip_packet_hook_only = false) d0 nm es (w : lworld) :
  good d0 -> fresh_log d0 nm 0 w -> Forall ev_small es -> notes es < 2 ^ 20 -> has_data es = true ->
  exists w1 (f2 : threaded_writer) file bodies,
    (ev_steps es ;;; log_dtor) w = Ret tt w1 /\
    worker_turns (length (task_queue_ (files w1))) (files w1) = Ret tt f2 /\
    option_map (fun x => x ++ held nm (tw_pool f2)) (on_file nm (tw_disk f2)) = Some file /\
    (exists r f3, on_writer (pw_flush nm) f2 = Ret r f3 /\ on_file nm (tw_disk f3) = Some file) /\
    (exists r f3, on_writer (pw_close nm) f2 = Ret r f3 /\ on_file nm (tw_disk f3) = Some file) /\
    (forall n, (length bodies + 2 <= n)%nat -> read_blocks n file = Some (preamble ++ epbs bodies)) /\
    forall dir, reassemble (l3_sz (base d0)) dir None (body_packet <$> bodies) = Some (sent dir es).
Proof.
  intros Hg Hf He Hn Hd.
  destruct (capture_taken mem to_file d0 nm es w Hg Hf He Hn Hd) as (w1 & file & bodies & E1 & Hk & T1 & R & S).
  destruct (worker_turns_ok (length (task_queue_ (files w1))) (files w1) Hk) as (f2 & E2 & Hk2 & T2 & Q2).
  exists w1, f2, file, bodies. split; [exact E1|]. split; [exact E2|].
  rewrite drop_all in Q2.
  specialize (T2 nm). change (tw_taken (files w1) nm) with (taken (files w1) nm) in T2. rewrite T1 in T2.
  split; [| split; [| split; [| by split]]].
  - rewrite <- T2. unfold tw_taken, got, tw_disk. rewrite Q2.
    destruct (on_file nm (pw_disk (tw_pool f2))); [| done]. cbn. by rewrite app_nil_r.
  - destruct (settled f2 nm (pw_flush nm) (pw_flush_ok nm) Hk2 Q2) as (r & w3 & E & _ & F). rewrite T2 in F. eauto.
  - destruct (settled f2 nm (pw_close nm) (pw_close_ok nm) Hk2 Q2) as (r & w3 & E & _ & F). rewrite T2 in F. eauto.
Qed.

Definition sample_host : LogHost := {| log_host := plain_host; ip_packet_hook_only := false |}.

Definition empty_disk : disk := mkDisk ∅ ∅ 0 (fun _ => true) ∅ 0 (fun _ => O).

Definition sample_log : lworld :=
  let l := mkLog sample_tcp [99] [] [] [] false false false 0 0 false [] false true true in
  mkLWorld l l (mkTw (new_pool_writer empty_disk) [] : @fs threaded_files) [].

Definition sample_events : list ev :=
  [Note [104; 105]; Data LEFT [71; 69; 84]; Work; Data RIGHT [79; 75; 33]; Note [33]; Data LEFT [46]].

Lemma sample_log_fresh : fresh_log sample_tcp [99] 0 sample_log.
Proof.
  by split.
Defined.

Lemma capture_reads_back_witness :
  exists w1 (f2 : threaded_writer) file bodies,
    (@ev_steps threaded_files sample_host sample_events ;;; @log_dtor threaded_files sample_host) sample_log = Ret tt w1 /\
    worker_turns (length (task_queue_ (files w1))) (files w1) = Ret tt f2 /\
    (exists r f3, on_writer (pw_close [99]) f2 = Ret r f3 /\ on_file [99] (tw_disk f3) = Some file) /\
    (forall n, (length bodies + 2 <= n)%nat -> read_blocks n file = Some (preamble ++ epbs bodies)) /\
    forall dir, reassemble 20 dir None (body_packet <$> bodies) = Some (if dir then [79; 75; 33] else [71; 69; 84; 46]).
Proof.
  destruct (@capture_reads_back sample_host (fun _ => eq_refl) eq_refl sample_tcp [99] sample_events sample_log)
    as (w1 & f2 & file & bodies & E1 & E2 & E3 & _ & E5 & E6 & E7).
  - split; [split; [apply sample_plain | done | done] | done].
  - exact sample_log_fresh.
  - repeat constructor; vm_compute; discriminate.
  - vm_compute. reflexivity.
  - reflexivity.
  - exists w1, f2, file, bodies. repeat (split; [assumption|]). intros dir. specialize (E7 dir). by destruct dir.
Defined.

(** A read of the left side, a turn of the writer's thread and a comment on the right side. *)
Definition sample_out : fsoutput := mkFso [97] (text "l-r") (text "r-l") (text "/data") [] (text "smcap") (text "host").
Definition sample_text_log : list smop :=
  [SmDump (mkMoment (text "now") 1) LEFT [1; 2]; SmTurn; SmNote (mkMoment (text "now") 2) RIGHT (text "end")].
Lemma text_log_in_order_witness :
  exists f : threaded_writer, sm_run sample_text_log (@mkSm threaded_files sample_out sample_writer) = Ret tt (@mkSm threaded_files sample_out f) /\ tw_ok f /\
    tw_taken f [97] = Some ([1] ++ concat (sm_text sample_out <$> sample_text_log)).
Proof.
  destruct (text_log_in_order sample_text_log (@mkSm threaded_files sample_out sample_writer) [1]) as (f & E & Hok & Ht);
    [exact sample_writer_ok | by vm_compute | by exists f].
Defined.
