(* ===== verification/ComSock.v ===== *)
(** * ComSock: sockets of baseCom (src/basecom.cpp)

    The socket options, naming and address resolution the coms share, over the system calls of
    [SockInfo]; [errno] and the names of the peers of a socket are parameters. *)

From S2P Require Export SockInfo.
From S2P Require Import Numeric.

Definition AF_UNSPEC : Z := 0.
Definition IPPROTO_TCP : Z := 6.
Definition TCP_NODELAY : Z := 1.
Definition TCP_QUICKACK : Z := 12.
Definition IPV6_RECVORIGDSTADDR : Z := 74.

(** getpeername(2) ([true]) and getsockname(2), and the error of the last call. *)
Class PeerSys `{!SockSys} : Type := {
  sk_peer : bool -> Z -> sk -> option bytes;
  sk_errno : sk -> Z
}.

(** ** Decimal text: [std::to_string], ["%d"] *)

Fixpoint dec_digits (fuel : nat) (n : Z) (acc : bytes) : bytes :=
  match fuel with
  | O => acc
  | S fuel =>
      let acc := (48 + n mod 10) :: acc in
      if n <? 10 then acc else dec_digits fuel (n / 10) acc
  end.

Definition dec (n : Z) : bytes :=
  if n <? 0 then 45 :: dec_digits (S (Z.to_nat (Z.log2 (- n)))) (- n) []
  else dec_digits (S (Z.to_nat (Z.log2 n))) n [].

(** [std::stoi] of a text of digits. *)
Definition undec (b : bytes) : Z := foldl (fun n c => 10 * n + (c - 48)) 0 b.

(** ** Where a connection was meant to go *)

(** The members of [baseCom] that say so. *)
Record dst : Type := mkDst {
  nonlocal_dst_ : bool;
  nonlocal_dst_resolved_ : bool;
  nonlocal_dst_host_ : bytes;
  nonlocal_dst_port_ : Z;
  nonlocal_dst_peer_info_ : bytes;
  l3_proto_ : Z
}.
Definition new_dst : dst := mkDst false false [] 0 zero_ss AF_INET.

Definition put_nonlocal (b : bool) (d : dst) : dst :=
  mkDst b (nonlocal_dst_resolved_ d) (nonlocal_dst_host_ d) (nonlocal_dst_port_ d) (nonlocal_dst_peer_info_ d) (l3_proto_ d).

(** What both [resolve_nonlocal_dst_socket] and [resolve_redirected_dst_socket] make of it. *)
Definition resolved (o : option (bytes * bytes * bytes * option Z)) (d : dst) : dst :=
  match o with
  | Some (h, p, s, l3) =>
      mkDst (nonlocal_dst_ d) true h (default 0 (down_cast_signed (mkIty 16 false) int_t (undec p))) s
        (default (l3_proto_ d) l3)
  | None =>
      mkDst (nonlocal_dst_ d) false (nonlocal_dst_host_ d) (nonlocal_dst_port_ d) (nonlocal_dst_peer_info_ d) (l3_proto_ d)
  end.

Section comsock.
Context {IN : Inet} {SK : SockSys} {PS : PeerSys}.

Definition setopt (level name fd : Z) : M sk Z := syscall (sk_setsockopt fd level name one).

Definition so_reuseaddr (fd : Z) : M sk Z := setopt SOL_SOCKET SO_REUSEADDR fd.
Definition so_broadcast (fd : Z) : M sk Z := setopt SOL_SOCKET SO_BROADCAST fd.
Definition so_nodelay (fd : Z) : M sk Z := setopt IPPROTO_TCP TCP_NODELAY fd.
Definition so_quickack (fd : Z) : M sk Z := setopt IPPROTO_TCP TCP_QUICKACK fd.
Definition so_transparent_v4 (fd : Z) : M sk Z := setopt SOL_IP IP_TRANSPARENT fd.
Definition so_transparent_v6 (fd : Z) : M sk Z := setopt SOL_IPV6 IPV6_TRANSPARENT fd.
Definition so_recvorigdstaddr_v4 (fd : Z) : M sk Z := setopt SOL_IP IP_RECVORIGDSTADDR fd.
Definition so_recvorigdstaddr_v6 (fd : Z) : M sk Z := setopt SOL_IPV6 IPV6_RECVORIGDSTADDR fd.

(** [so_transparent], by the family of the com. *)
Definition so_transparent (l3_proto fd : Z) : M sk Z :=
  if l3_proto =? AF_INET6 then so_transparent_v6 fd else so_transparent_v4 fd.

Definition unblock (s : Z) : M sk Z :=
  oldf <- syscall (sk_getfl s) ;;
  if Z.land oldf O_NONBLOCK =? 0 then
    r <- syscall (sk_setfl s (Z.lor oldf O_NONBLOCK)) ;;
    mret_ (if r <? 0 then -1 else 0)
  else mret_ 0.

(** The address [namesocket] binds to; an unknown family leaves it zero but for the family. *)
Definition name_ss (addr : bytes) (port family : Z) : bytes :=
  let sa := put_at 0 (le_bytes 2 family) zero_ss in
  if (family =? AF_INET) || (family =? AF_UNSPEC) then
    put_addr 4 (inet_pton family addr) (put_at 2 (be_bytes 2 port) sa)
  else if family =? AF_INET6 then
    put_addr 8 (inet_pton family addr) (put_at 2 (be_bytes 2 port) sa)
  else sa.

(** [namesocket]: zero or the error of bind(2). *)
Definition namesocket (fd : Z) (addr : bytes) (port family : Z) : M sk Z :=
  (if (family =? AF_INET) || (family =? AF_UNSPEC) then so_transparent_v4 fd
   else if family =? AF_INET6 then so_transparent_v6 fd
   else mret_ 0) ;;;
  r <- syscall (sk_bind fd (name_ss addr port family)) ;;
  if r =? 0 then mret_ 0 else gets sk_errno.

(** The host, port text and address of an end of a socket, and the l3 protocol it sets; a
    socket of another family leaves the text of the stack buffer, [junk]. *)
Definition end_text (junk p : bytes) : bytes * bytes * bytes * option Z :=
  let '(host, port, l3) :=
    if ss_family p =? AF_INET then (inet_ntop AF_INET (sin_addr p), be_value (sin_port p), Some AF_INET)
    else if ss_family p =? AF_INET6 then (inet_ntop AF_INET6 (sin6_addr p), be_value (sin_port p), Some AF_INET6)
    else (junk, 0, None) in
  if bool_decide (ztake 7 host = mapped_prefix) then (zdrop 7 host, dec port, p, Some AF_INET)
  else (host, dec port, p, l3).

(** [baseCom::resolve_socket] *)
Definition base_resolve_socket (junk : bytes) (source : bool) (s : Z) (w : sk)
  : option (bytes * bytes * bytes * option Z) := end_text junk <$> sk_peer source s w.

(** [baseCom::resolve_nonlocal_dst_socket] of a com with the [resolve_socket] of [baseCom]. *)
Definition base_resolve_nonlocal_dst_socket (junk : bytes) (s : Z) (k : sk) : dst -> dst :=
  resolved (base_resolve_socket junk false s k).
End comsock.
