(* ===== verification/Udp.v ===== *)
(** * Udp: the UDP com and its datagram pool (src/udpcom.hpp, src/udpcom.cpp)

    Virtual sockets are keys of a table of early datagrams, shared by all UDP coms like the cache
    of connected sockets.  Sockets are those of [ComSock]; [closed] lists the descriptors closed,
    oldest first. *)

From stdpp Require Import gmap.
From S2P Require Export ComSock.
From S2P Require Import Numeric.

Definition MSG_PEEK : Z := 2.

(** recv(2), send(2), sendto(2), sendmsg(2) with a name and the source address of its control
    message, shutdown(2) and getaddrinfo(3) (family, type, protocol and address of each answer);
    what an uninitialised buffer of the stack reads as. *)
Class UdpSys `{!SockSys} : Type := {
  us_recv : Z -> Z -> Z -> sk -> (Z * bytes) * sk;
  us_send : Z -> bytes -> sk -> Z * sk;
  us_sendto : Z -> bytes -> Z -> bytes -> sk -> Z * sk;
  us_sendmsg : Z -> bytes -> bytes -> Z * bytes -> sk -> Z * sk;
  us_shutdown : Z -> sk -> Z * sk;
  us_getaddrinfo : bytes -> bytes -> Z -> option (list (Z * Z * Z * bytes));
  us_stack : bytes
}.

(** ** Datagrams *)

(** [Datagram]; [rx_queue] has five buffers.  [cx], which nothing reads, is left out. *)
Record Datagram : Type := mkDatagram {
  dg_dst : bytes;
  dg_src : bytes;
  socket_left : option Z;
  reuse : bool;
  rx_queue : list bytes
}.
Definition rx_slots : nat := 5.
Definition empty_rx : list bytes := replicate rx_slots [].

Definition set_rx (q : list bytes) (d : Datagram) : Datagram :=
  mkDatagram (dg_dst d) (dg_src d) (socket_left d) (reuse d) q.
Definition set_left (s : option Z) (d : Datagram) : Datagram :=
  mkDatagram (dg_dst d) (dg_src d) s (reuse d) (rx_queue d).

Definition queue_bytes (q : list bytes) : Z := foldl (fun n r => n + zlen r) 0 q.
Definition dg_empty (d : Datagram) : bool := queue_bytes (rx_queue d) =? 0.

(** [enqueue]: into the first empty buffer; how many bytes were taken. *)
Fixpoint enqueue (data : bytes) (q : list bytes) : Z * list bytes :=
  match q with
  | [] => (0, [])
  | elem :: r =>
      match elem with
      | [] => (zlen data, data :: r)
      | _ => let '(n, r') := enqueue data r in (n, elem :: r')
      end
  end.

(** [buffer::flush], which empties the buffer when told to flush nothing. *)
Definition rx_flush (n : Z) (elem : bytes) : bytes :=
  if (n =? 0) || (zlen elem <=? n) then [] else zdrop n elem.

(** One read of the queue: from the first buffer that holds something; the bytes, whether that
    buffer is read to its end, the queue after.  Sizes are cut to an [int]; copying a negative number of
    bytes is undefined. *)
Fixpoint rx_take (n : Z) (peek : bool) (q : list bytes) : option (bytes * bool * list bytes) :=
  match q with
  | [] => Some ([], false, [])
  | elem :: r =>
      let elem_size := s32 (zlen elem) in
      if elem_size <=? 0 then
        match rx_take n peek r with Some (b, e, r') => Some (b, e, elem :: r') | None => None end
      else
        let to_copy := Z.min (s32 n) elem_size in
        if to_copy <? 0 then None
        else Some (ztake to_copy elem, elem_size <=? to_copy, (if peek then elem else rx_flush to_copy elem) :: r)
  end.

(** What is counted as left behind, in an [int]. *)
Definition bytes_left (q : list bytes) : Z :=
  foldl (fun n r => if zlen r =? 0 then n else s32 (n + zlen r)) 0 q.

(** The key of a descriptor in the table, [(unsigned int)fd]. *)
Definition dkey (fd : Z) : Z := u32 fd.

Section udp.
Context {IN : Inet} {SK : SockSys} {PS : PeerSys} {US : UdpSys}.

(** [UDPCom]: what [embryonics_], [connections.my_key], [udpcom_addr] and the members of baseCom it
    uses hold; [ready] is the read set of the poller, [u_fd] its own descriptor. *)
Record udpcom : Type := mkUdp {
  em_id : Z;
  pool_depleted : bool;
  my_key : option bytes;
  udpcom_addr : bytes;
  u_l3 : Z;
  nonlocal_src : bool;
  nonlocal_src_host : bytes;
  nonlocal_src_port : Z;
  nonlocal_dst : bool;
  nonlocal_dst_host : bytes;
  nonlocal_dst_port : Z;
  nonlocal_dst_resolved : bool;
  bind_sock_family : Z;
  ready : gset Z;
  u_fd : Z;
  nonlocal_dst_peer_info : bytes
}.

Record uworld : Type := mkU {
  datagrams_received : gmap Z Datagram;
  in_virt_set : gset Z;
  conns : gmap bytes (Z * Z);        (* ConnectionsCache::cache: descriptor and count *)
  ucom : udpcom;
  closed : list Z;
  usys : sk
}.

Definition set_dgrams (m : gmap Z Datagram) (w : uworld) : uworld :=
  mkU m (in_virt_set w) (conns w) (ucom w) (closed w) (usys w).
Definition set_virt (s : gset Z) (w : uworld) : uworld :=
  mkU (datagrams_received w) s (conns w) (ucom w) (closed w) (usys w).
Definition set_conns (m : gmap bytes (Z * Z)) (w : uworld) : uworld :=
  mkU (datagrams_received w) (in_virt_set w) m (ucom w) (closed w) (usys w).
Definition set_ucom (c : udpcom) (w : uworld) : uworld :=
  mkU (datagrams_received w) (in_virt_set w) (conns w) c (closed w) (usys w).

Definition u_embryon (id : Z) (p : bool) (c : udpcom) : udpcom :=
  mkUdp id p (my_key c) (udpcom_addr c) (u_l3 c) (nonlocal_src c) (nonlocal_src_host c)
    (nonlocal_src_port c) (nonlocal_dst c) (nonlocal_dst_host c) (nonlocal_dst_port c)
    (nonlocal_dst_resolved c) (bind_sock_family c) (ready c) (u_fd c)
    (nonlocal_dst_peer_info c).
Definition u_my_key (k : option bytes) (c : udpcom) : udpcom :=
  mkUdp (em_id c) (pool_depleted c) k (udpcom_addr c) (u_l3 c) (nonlocal_src c) (nonlocal_src_host c)
    (nonlocal_src_port c) (nonlocal_dst c) (nonlocal_dst_host c) (nonlocal_dst_port c)
    (nonlocal_dst_resolved c) (bind_sock_family c) (ready c) (u_fd c)
    (nonlocal_dst_peer_info c).
Definition u_addr (a : bytes) (c : udpcom) : udpcom :=
  mkUdp (em_id c) (pool_depleted c) (my_key c) a (u_l3 c) (nonlocal_src c) (nonlocal_src_host c)
    (nonlocal_src_port c) (nonlocal_dst c) (nonlocal_dst_host c) (nonlocal_dst_port c)
    (nonlocal_dst_resolved c) (bind_sock_family c) (ready c) (u_fd c)
    (nonlocal_dst_peer_info c).
Definition u_set_l3 (v : Z) (c : udpcom) : udpcom :=
  mkUdp (em_id c) (pool_depleted c) (my_key c) (udpcom_addr c) v (nonlocal_src c) (nonlocal_src_host c)
    (nonlocal_src_port c) (nonlocal_dst c) (nonlocal_dst_host c) (nonlocal_dst_port c)
    (nonlocal_dst_resolved c) (bind_sock_family c) (ready c) (u_fd c)
    (nonlocal_dst_peer_info c).
Definition u_dst (h : bytes) (p : Z) (r : bool) (c : udpcom) : udpcom :=
  mkUdp (em_id c) (pool_depleted c) (my_key c) (udpcom_addr c) (u_l3 c) (nonlocal_src c)
    (nonlocal_src_host c) (nonlocal_src_port c) (nonlocal_dst c) h p r (bind_sock_family c) (ready c) (u_fd c)
    (nonlocal_dst_peer_info c).

Definition u_set_fd (fd : Z) (c : udpcom) : udpcom :=
  mkUdp (em_id c) (pool_depleted c) (my_key c) (udpcom_addr c) (u_l3 c) (nonlocal_src c) (nonlocal_src_host c)
    (nonlocal_src_port c) (nonlocal_dst c) (nonlocal_dst_host c) (nonlocal_dst_port c)
    (nonlocal_dst_resolved c) (bind_sock_family c) (ready c) fd
    (nonlocal_dst_peer_info c).

Definition u_peer (a : bytes) (c : udpcom) : udpcom :=
  mkUdp (em_id c) (pool_depleted c) (my_key c) (udpcom_addr c) (u_l3 c) (nonlocal_src c) (nonlocal_src_host c)
    (nonlocal_src_port c) (nonlocal_dst c) (nonlocal_dst_host c) (nonlocal_dst_port c)
    (nonlocal_dst_resolved c) (bind_sock_family c) (ready c) (u_fd c) a.

Definition on_sys {A} (m : M sk A) : M uworld A := fun w =>
  let back s := mkU (datagrams_received w) (in_virt_set w) (conns w) (ucom w) (closed w) s in
  match m (usys w) with
  | Ret a s => Ret a (back s)
  | Throw e s => Throw e (back s)
  | Undef => Undef
  end.

Definition os_close (fd : Z) : M uworld Z := fun w =>
  let '(r, s) := sk_close fd (usys w) in
  Ret r (mkU (datagrams_received w) (in_virt_set w) (conns w) (ucom w) (closed w ++ [fd]) s).

Definition on_ucom (f : udpcom -> udpcom) : M uworld unit := modify (fun w => set_ucom (f (ucom w)) w).

Definition find_dgram (fd : Z) : M uworld (option Datagram) := gets (fun w => datagrams_received w !! dkey fd).

(** ** Sets and sockets *)

Definition translate_socket (vsock : Z) (w : uworld) : Z :=
  if 0 <=? vsock then vsock
  else match datagrams_received w !! dkey vsock with
  | Some d => match socket_left d with Some s => s | None => vsock end
  | None => vsock
  end.

(** [baseCom::in_readset] *)
Definition base_in_readset (s : Z) (w : uworld) : bool := bool_decide (s ∈ ready (ucom w)).

Definition in_readset (s : Z) (w : uworld) : bool :=
  if s <? 0 then
    match datagrams_received w !! dkey s with
    | Some d =>
        if 0 <? queue_bytes (rx_queue d) then true
        else match socket_left d with Some r => base_in_readset r w | None => false end
    | None => false
    end
  else if 0 <? s then base_in_readset s w
  else false.

Definition in_writeset (s : Z) (w : uworld) : bool :=
  match datagrams_received w !! dkey s with Some _ => true | None => 0 <? s end.

Definition in_exset (s : Z) (w : uworld) : bool := false.

Definition accept (sockfd : Z) : Z := sockfd.

(** ** Reading: the value returned and the bytes stored *)

Definition recv (fd n flags : Z) : M uworld (Z * bytes) :=
  on_sys (fun s => let '(r, s') := us_recv fd n flags s in Ret r s').

Definition read_from_pool (fd n flags : Z) : M uworld (Z * bytes) :=
  o <- find_dgram fd ;;
  match o with
  | None => mret_ (0, [])
  | Some d =>
      match socket_left d, queue_bytes (rx_queue d) =? 0 with
      | Some s, true => recv s n flags
      | _, _ =>
          let peek := Z.testbit flags 1 in
          if dg_empty d then mret_ (0, [])
          else match rx_take n peek (rx_queue d) with
          | None => undef
          | Some (b, ended, q) =>
              modify (fun w => set_dgrams (<[dkey fd := set_rx q d]> (datagrams_received w)) w) ;;;
              when (negb peek && ended) (modify (fun w => set_virt (in_virt_set w ∖ {[fd]}) w)) ;;;
              when (0 <? bytes_left q) (modify (fun w => set_virt ({[fd]} ∪ in_virt_set w) w)) ;;;
              mret_ (zlen b, b)
          end
      end
  end.

(** [read]: early data first, by the id of the embryonic socket, a signed descriptor there. *)
Definition read (fd n flags : Z) : M uworld (Z * bytes) :=
  c <- gets ucom ;;
  if negb (em_id c =? 0) && negb (pool_depleted c) then
    let id := s32 (em_id c) in
    r <- read_from_pool id n flags ;;
    more <- gets (in_readset id) ;;
    when (negb more)
      (modify (fun w => set_virt (in_virt_set w ∖ {[id]}) w) ;;;
       on_ucom (u_embryon (em_id c) true)) ;;;
    mret_ r
  else if fd <? 0 then read_from_pool fd n flags
  else recv fd n flags.

Definition peek (fd n flags : Z) : M uworld (Z * bytes) := read fd n (Z.lor (u8 flags) MSG_PEEK).

(** ** Writing *)

(** The message of [write_to_pool] without a real socket: the name it is sent to, and family and
    address it is to come from. *)
Definition pool_message (d : Datagram) : bytes * (Z * bytes) :=
  let '(_, ip_src, _) := ss_address_unpack (dg_src d) in
  if ss_family (dg_dst d) =? AF_INET6 then (dg_src d, (AF_INET6, sin6_addr (dg_dst d)))
  else if ss_family (dg_src d) =? AF_INET6 then
    (put_at 2 (sin_port (dg_src d)) (put_addr 4 (inet_pton AF_INET ip_src) (put_at 0 (le_bytes 2 AF_INET) zero_ss)),
     (AF_INET, sin_addr (dg_dst d)))
  else (dg_src d, (AF_INET, sin_addr (dg_dst d))).

Definition write_to_pool (fd : Z) (b : bytes) : M uworld Z :=
  o <- find_dgram fd ;;
  match o with
  | None => mret_ (-1)
  | Some d =>
      match socket_left d with
      | Some s => on_sys (syscall (us_send s b))
      | None =>
          let '(nm, from) := pool_message d in
          da_socket <- on_sys (syscall (sk_socket (ss_family (dg_dst d)) SOCK_DGRAM 0)) ;;
          let '(_, ss_d) := ss_address_remap (dg_dst d) zero_ss in
          let '(_, ss_s) := ss_address_remap (dg_src d) zero_ss in
          let f := ss_family ss_d in
          when ((f =? AF_INET) || (f =? AF_INET6) || (f =? AF_UNSPEC))
            (on_sys (so_transparent_v4 da_socket) ;;; mret_ tt) ;;;
          when (f =? AF_INET6) (on_sys (so_transparent_v6 da_socket) ;;; mret_ tt) ;;;
          on_sys (so_reuseaddr da_socket) ;;;
          on_sys (so_broadcast da_socket) ;;;
          on_sys (syscall (sk_bind da_socket ss_d)) ;;;
          on_sys (syscall (sk_connect da_socket ss_s)) ;;;
          l <- on_sys (syscall (us_sendmsg da_socket b nm from)) ;;
          os_close da_socket ;;;
          mret_ l
      end
  end.

Definition write (fd : Z) (b : bytes) (flags : Z) : M uworld Z :=
  if zlen b <=? 0 then mret_ 0
  else if fd <? 0 then write_to_pool fd b
  else
    a <- gets (fun w => udpcom_addr (ucom w)) ;;
    on_sys (syscall (us_sendto fd b flags a)).

(** ** Names of the ends *)

(** Text of an IPv6 address, without the prefix of a mapped one, and whether it was mapped. *)
Definition unmapped (a : bytes) : bytes * bool :=
  let b := inet_ntop AF_INET6 a in
  if bool_decide (ztake 7 b = mapped_prefix) then (zdrop 7 b, true) else (b, false).

Definition set_l3 (p : Z) : M uworld unit := on_ucom (u_set_l3 p).

(** [resolve_socket]: what the targets hold after, given what they held, and the result. *)
Definition resolve_socket (source : bool) (s : Z) (t : bytes * bytes * bytes)
  : M uworld (bool * (bytes * bytes * bytes)) :=
  let '(host, prt, storage) := t in
  o <- find_dgram s ;;
  match o with
  | Some d =>
      let e := if source then dg_src d else dg_dst d in
      if (ss_family e =? AF_INET) || (ss_family e =? 0) then
        set_l3 AF_INET ;;;
        mret_ (true, (inet_ntop AF_INET (sin_addr e), dec (be_value (sin_port e)), storage))
      else if ss_family e =? AF_INET6 then
        set_l3 AF_INET6 ;;;
        let '(h, mapped) := unmapped (sin6_addr e) in
        when mapped (set_l3 AF_INET) ;;;
        mret_ (true, (h, dec (be_value (sin_port e)), storage))
      else mret_ (true, t)
  | None =>
      w <- gets usys ;;
      match base_resolve_socket us_stack source s w with
      | None => mret_ (false, t)
      | Some (h, p, ss, l3) =>
          match l3 with Some v => set_l3 v | None => mret_ tt end ;;;
          mret_ (true, (h, p, ss))
      end
  end.

(** ["0.0.0.0"] *)
Definition any_host : bytes := [48; 46; 48; 46; 48; 46; 48].

(** [baseCom::resolve_nonlocal_dst_socket], with the [resolve_socket] of this com. *)
Definition resolve_nonlocal_dst_socket (sock : Z) : M uworld bool :=
  let! (ok, (h, p, s)) := resolve_socket false sock (any_host, [48], zero_ss) in
  on_ucom (fun c =>
    if ok then u_peer s (u_dst h (default 0 (down_cast_signed (mkIty 16 false) int_t (undec p))) true c)
    else u_dst (nonlocal_dst_host c) (nonlocal_dst_port c) false c) ;;;
  mret_ ok.

Definition resolve_nonlocal_socket (sock : Z) : M uworld bool :=
  o <- find_dgram sock ;;
  match o with
  | Some d =>
      let e := dg_dst d in
      (if (ss_family e =? AF_INET) || (ss_family e =? 0) then
         on_ucom (u_dst (inet_ntop AF_INET (sin_addr e)) (be_value (sin_port e)) true) ;;;
         set_l3 AF_INET
       else if ss_family e =? AF_INET6 then
         let '(h, mapped) := unmapped (sin6_addr e) in
         when mapped (set_l3 AF_INET) ;;;
         on_ucom (u_dst h (be_value (sin_port e)) true)
       else
         on_ucom (fun c => u_dst (nonlocal_dst_host c) (nonlocal_dst_port c) true c)) ;;;
      mret_ true
  | None =>
      when (0 <? sock) (resolve_socket true sock ([], [], []) ;;; mret_ tt) ;;;
      mret_ false
  end.

(** ** The cache of connected sockets *)

(** ["%s:%d-%s:%s"] and ["%s:%s-%s:%s"]: [58] is the colon, [45] the dash. *)
Definition cache_key_text (a b c d : bytes) : bytes := a ++ [58] ++ b ++ [45] ++ c ++ [58] ++ d.

Definition gen_cache_key (c : udpcom) (host prt : bytes) : option bytes :=
  if nonlocal_src c then
    Some (cache_key_text (nonlocal_src_host c) (dec (nonlocal_src_port c)) host prt)
  else None.

Definition gen_cache_key_fd (fd : Z) : M uworld (option bytes) :=
  let! (okd, (sip, sport, _)) := resolve_socket false fd ([], [], []) in
  if okd then
    let! (oks, (dip, dport, _)) := resolve_socket true fd ([], [], []) in
    mret_ (if oks then Some (cache_key_text sip sport dip dport) else None)
  else mret_ None.

(** Zero, or the last error of shutdown(2) and close(2). *)
Definition kill_socket (fd : Z) : M uworld Z :=
  shutdown_ret <- on_sys (syscall (us_shutdown fd)) ;;
  close_ret <- os_close fd ;;
  mret_ (if close_ret <? 0 then close_ret else if shutdown_ret <? 0 then shutdown_ret else 0).

Definition kill_and_deref_from_connnect (key : bytes) : M uworld Z :=
  cache <- gets conns ;;
  match cache !! key with
  | Some (sock, counter) =>
      if counter <=? 1 then
        kill_socket sock ;;;
        modify (fun w => set_conns (delete key (conns w)) w) ;;;
        mret_ 1
      else
        modify (fun w => set_conns (<[key := (sock, counter - 1)]> (conns w)) w) ;;;
        mret_ 0
  | None => mret_ 0
  end.

(** How many entries were erased; the entry is erased even when marked for reuse. *)
Definition remove_datagram_entry (fd : Z) : M uworld Z :=
  o <- find_dgram fd ;;
  match o with
  | Some d =>
      match negb (reuse d), socket_left d with
      | true, Some sleft => when (0 <? sleft) (kill_socket sleft ;;; mret_ tt)
      | _, _ => mret_ tt
      end ;;;
      modify (fun w => set_dgrams (delete (dkey fd) (datagrams_received w)) w) ;;;
      mret_ 1
  | None => mret_ 0
  end.

Definition forget_virtual (fd : Z) : M uworld unit :=
  modify (fun w => set_virt (in_virt_set w ∖ {[fd]}) w) ;;;
  remove_datagram_entry fd ;;;
  mret_ tt.

Definition shutdown (fd : Z) : M uworld unit :=
  (if 0 <? fd then
     cache <- gets conns ;;
     killed_from_cache <-
       (if bool_decide (cache = ∅) then mret_ 0
        else
          c <- gets ucom ;;
          key <- match my_key c with Some k => mret_ (Some k) | None => gen_cache_key_fd fd end ;;
          match key with Some k => kill_and_deref_from_connnect k | None => mret_ 0 end) ;;
     when (killed_from_cache =? 0) (kill_socket fd ;;; mret_ tt)
   else forget_virtual fd) ;;;
  c <- gets ucom ;;
  when (negb (em_id c =? 0)) (forget_virtual (s32 (em_id c))).

(** ** Binding and connecting *)

Definition IPPROTO_UDP : Z := 17.

(** The wildcard address [bind] names the socket with. *)
Definition any_ss (family port : Z) : bytes :=
  let sa := put_at 0 (le_bytes 2 family) zero_ss in
  if (family =? AF_INET) || (family =? AF_INET6) then put_at 2 (be_bytes 2 port) sa else sa.

Definition bind (port : Z) : M uworld Z :=
  c <- gets ucom ;;
  let f := bind_sock_family c in
  new_socket <- on_sys (syscall (sk_socket f SOCK_DGRAM IPPROTO_UDP)) ;;
  if new_socket =? -1 then mret_ (-129) else
  on_sys (so_reuseaddr new_socket) ;;;
  on_sys (so_broadcast new_socket) ;;;
  v4 <- (if (f =? AF_INET) || (f =? AF_INET6) || (f =? AF_UNSPEC) then
           when (nonlocal_dst c) (on_sys (so_transparent_v4 new_socket) ;;; mret_ tt) ;;;
           on_sys (so_recvorigdstaddr_v4 new_socket)
         else mret_ 0) ;;
  if negb (v4 =? 0) then os_close new_socket ;;; mret_ (-131) else
  v6 <- (if f =? AF_INET6 then
           when (nonlocal_dst c) (on_sys (so_transparent_v6 new_socket) ;;; mret_ tt) ;;;
           on_sys (so_recvorigdstaddr_v6 new_socket)
         else mret_ 0) ;;
  if negb (v6 =? 0) then os_close new_socket ;;; mret_ (-132) else
  b <- on_sys (syscall (sk_bind new_socket (any_ss f port))) ;;
  if b =? -1 then os_close new_socket ;;; mret_ (-130) else
  mret_ new_socket.

(** [catch (socket_info_error const&)] *)
Definition try_socket (m : M uworld Z) : M uworld (option Z) := fun w =>
  match m w with
  | Ret a w' => Ret (Some a) w'
  | Throw runtime_error w' => Ret None w'
  | Throw e w' => Throw e w'
  | Undef => Undef
  end.

Definition use_cached_connection (key : bytes) : M uworld (option Z) :=
  cache <- gets conns ;;
  match cache !! key with
  | Some (fd, n) =>
      modify (fun w => set_conns (<[key := (fd, n + 1)]> (conns w)) w) ;;;
      on_ucom (u_my_key (Some key)) ;;;
      mret_ (Some fd)
  | None => mret_ None
  end.

(** The socket of one answer of the resolver, whether it comes from the cache, and its key; none
    when the next answer is to be tried. *)
Definition connect_socket (host prt : bytes) (rp : Z * Z * Z * bytes) : M uworld (option (Z * bool * bytes)) :=
  let '(fam, typ, proto, _) := rp in
  let create := try_socket (on_sys (socket_create fam typ proto)) in
  c <- gets ucom ;;
  if nonlocal_src c then
    let key := default [] (gen_cache_key c host prt) in
    c_sfd <- use_cached_connection key ;;
    match c_sfd with
    | Some sfd => mret_ (Some (sfd, true, key))
    | None =>
        o <- create ;;
        match o with
        | None => mret_ None
        | Some sfd =>
            t <- on_sys (so_transparent (u_l3 c) sfd) ;;
            if negb (t =? 0) then os_close sfd ;;; mret_ None else
            bind_status <- on_sys (namesocket sfd (nonlocal_src_host c) (nonlocal_src_port c) (u_l3 c)) ;;
            if negb (bind_status =? 0) then os_close sfd ;;; mret_ None else
            mret_ (Some (sfd, false, key))
        end
    end
  else
    o <- create ;;
    mret_ (match o with Some sfd => Some (sfd, false, []) | None => None end).

Definition connect_one (io_blocking : bool) (host prt : bytes) (rp : Z * Z * Z * bytes) : M uworld (option Z) :=
  o <- connect_socket host prt rp ;;
  match o with
  | None => mret_ None
  | Some (sfd, from_cache, key) =>
      on_ucom (fun c => u_addr (put_at 0 rp.2 (udpcom_addr c)) c) ;;;
      con_ret <-
        (if from_cache then mret_ 0
         else
           c <- gets ucom ;;
           r <- (if negb (u_l3 c =? AF_INET6) then on_sys (syscall (sk_connect sfd (ztake 16 (udpcom_addr c))))
                 else mret_ 0) ;;
           (if negb (r =? 0) then os_close sfd ;;; mret_ tt
            else
              modify (fun w => set_conns (<[key := (sfd, 1)]> (conns w)) w) ;;;
              on_ucom (u_my_key (Some key))) ;;;
           mret_ r) ;;
      if negb (con_ret =? 0) then mret_ None else
      (if io_blocking then mret_ 0 else on_sys (unblock sfd)) ;;;
      mret_ (Some sfd)
  end.

Fixpoint connect_any (io_blocking : bool) (host prt : bytes) (rps : list (Z * Z * Z * bytes)) : M uworld (option Z) :=
  match rps with
  | [] => mret_ None
  | rp :: r =>
      o <- connect_one io_blocking host prt rp ;;
      match o with Some sfd => mret_ (Some sfd) | None => connect_any io_blocking host prt r end
  end.

Definition connect (io_blocking : bool) (host prt : bytes) : M uworld Z :=
  c <- gets ucom ;;
  match us_getaddrinfo host prt (u_l3 c) with
  | None => mret_ (-2)
  | Some rps =>
      o <- connect_any io_blocking host prt rps ;;
      match o with
      | None => mret_ (-2)
      | Some sfd => on_ucom (u_set_fd sfd) ;;; mret_ sfd
      end
  end.
End udp.
