(* ===== verification/Receiver.v ===== *)
(** * Receiver: the acceptor of UDP sessions and its workers (src/threadedreceiver.hpp,
    src/threadedreceiver.cpp)

    The receiver peeks at the datagrams of its catch-all socket, files each in the pool of [Udp]
    under the key of its session and hints the key to the workers through the queue of [Fdq]; a
    worker picks a key up and gives the pool entry to a new com.  recvmsg(2) is a parameter. *)

From stdpp Require Import gmap.
From S2P Require Export Udp.
From S2P Require Fdq.
Export Fdq(proxyType(..)).

(** recvmsg(2), with its flags: the result, the name of the sender and the control messages
    (level, type and the 128 bytes from their data on). *)
Class RecvSys `{!SockSys} : Type := {
  rs_recvmsg : Z -> Z -> sk -> (Z * bytes * list (Z * Z * bytes)) * sk
}.

(** ** The ports of the quick list *)

Definition is_quick_port (quick_list : option (list Z)) (dport : Z) : bool :=
  match quick_list with
  | Some l => existsb (fun x => (dport =? x) || (0 =? x)) l
  | None => negb (dport =? 443)
  end.

(** ** [ReceiverRedirectMap] *)

Abbreviation redir_map := (gmap Z (bytes * Z)).
Definition map_add (port : Z) (entry : bytes * Z) (m : redir_map) : redir_map := <[u16 port := entry]> m.
Definition map_clear (m : redir_map) : redir_map := ∅.
Definition redir_target (redir_port : Z) (m : redir_map) : option (bytes * Z) := m !! u16 redir_port.

Section receiver.
Context {IN : Inet} {SK : SockSys} {PS : PeerSys} {US : UdpSys} {RS : RecvSys} {FS : Fdq.FdSys}.

(** The pool with the coms, the queue, and the descriptors the worker has put under its monitor. *)
Record rworld : Type := mkRx { rx_u : uworld; rx_q : Fdq.fdq; monitored : list Z }.

Definition on_u {A} (m : M uworld A) : M rworld A := fun r =>
  match m (rx_u r) with
  | Ret a u => Ret a (mkRx u (rx_q r) (monitored r))
  | Throw e u => Throw e (mkRx u (rx_q r) (monitored r))
  | Undef => Undef
  end.
Definition on_q {A} (m : M Fdq.fdq A) : M rworld A := fun r =>
  match m (rx_q r) with
  | Ret a q => Ret a (mkRx (rx_u r) q (monitored r))
  | Throw e q => Throw e (mkRx (rx_u r) q (monitored r))
  | Undef => Undef
  end.

Definition hint_push_all (s : Z) : M rworld Z := on_q (Fdq.push_all s).

(** An address of 128 bytes, unpacked. *)
Definition unpacked (s : bytes) : AddressInfo :=
  match addr_unpack (mkAddr (Some s) AF_INET [] 0) with Ret _ a | Throw _ a => a | Undef => default_addr end.

Definition is_orig_dst (level type : Z) : bool :=
  ((level =? SOL_IP) && (type =? IP_RECVORIGDSTADDR)) || ((level =? SOL_IPV6) && (type =? IPV6_RECVORIGDSTADDR)).

(** [process_anc_data]: source and destination, from the first control message that has one. *)
Fixpoint process_anc_data (msg_name : bytes) (cmsgs : list (Z * Z * bytes)) : option SocketInfo :=
  match cmsgs with
  | [] => None
  | (level, type, data) :: r =>
      if is_orig_dst level type then Some (mkSock (unpacked msg_name) (unpacked data))
      else process_anc_data msg_name r
  end.

Definition create_new_entry (i : SocketInfo) : Datagram :=
  mkDatagram (default [] (ss (si_dst i))) (default [] (ss (si_src i))) None false empty_rx.

Definition buff_sz : Z := 2048.

Definition find_entry (key : Z) : M rworld (option Datagram) := gets (fun r => datagrams_received (rx_u r) !! key).
Definition put_entry (key : Z) (d : Datagram) : M rworld unit :=
  on_u (modify (fun w => set_dgrams (<[key := d]> (datagrams_received w)) w)).

(** [add_first_datagrams]: -1 on a read error, 1 for a new session, 0 for one there already. *)
Definition add_first_datagrams (sock : Z) (pinfo : SocketInfo) : M rworld Z :=
  let '(session_key, pinfo) := create_session_key pinfo true in
  o <- find_entry session_key ;;
  let new_entry := match o with Some _ => false | None => true end in
  let entry := default (create_new_entry pinfo) o in
  when new_entry (put_entry session_key entry) ;;;
  let! (red, buff) := on_u (read sock buff_sz 0) in
  if red <? 0 then mret_ (-1) else
  o <- find_entry session_key ;;
  let entry := default entry o in
  let '(enk, q) := enqueue buff (rx_queue entry) in
  let entry := set_rx q entry in
  put_entry session_key entry ;;;
  when new_entry
    (let! (left_fd, _) := on_u (on_sys (create_socket_left pinfo SOCK_DGRAM)) in
     put_entry session_key (set_left (Some left_fd) entry) ;;;
     hint_push_all (s32 session_key) ;;; mret_ tt) ;;;
  on_u (modify (fun w => set_virt ({[s32 session_key]} ∪ in_virt_set w) w)) ;;;
  mret_ (if new_entry then 1 else 0).

(** [recvmsg] into a cleared header: the result, the name and the control messages. *)
Definition recvmsg (sock flags : Z) : M rworld (Z * bytes * list (Z * Z * bytes)) :=
  on_u (on_sys (fun s => let '(r, s') := rs_recvmsg sock flags s in Ret r s')).

(** [catch (socket_info_error const&)] *)
Definition catch_socket (m : M rworld Z) : M rworld Z := fun w =>
  match m w with Throw runtime_error w' => Ret 0 w' | o => o end.

(** One turn of the loop: whether there is another. *)
Definition new_raw_turn (sock : Z) : M rworld bool :=
  let! (len, from, cmsgs) := recvmsg sock MSG_PEEK in
  if len <? 0 then mret_ false else
  r <- catch_socket
         (match process_anc_data (put_at 0 from zero_ss) cmsgs with
          | Some creds => add_first_datagrams sock creds
          | None => recvmsg sock O_NONBLOCK ;;; mret_ 0
          end) ;;
  if r <? 0 then mret_ false else
  let! (l, _) := on_u (recv sock 32 (Z.lor O_NONBLOCK MSG_PEEK)) in
  mret_ (0 <? l).

(** The loop, at most [fuel] turns of it. *)
Fixpoint on_left_new_raw (fuel : nat) (sock : Z) : M rworld unit :=
  match fuel with
  | O => undef
  | S fuel => more <- new_raw_turn sock ;; if more then on_left_new_raw fuel sock else mret_ tt
  end.

Definition on_right_new_raw (s : Z) : M rworld unit := hint_push_all s ;;; mret_ tt.

(** ** A worker picking a session up

    [new_cx] makes the com of the new context, none when it is not a UDP com; [handed] is the com
    given to the proxy, with the state the worker left it in. *)
Section worker.
Context (new_cx : Z -> option udpcom).

(** Run a member function of the com [c] in the shared world. *)
Definition as_com {A} (c : udpcom) (m : M uworld A) : M rworld (A * udpcom) := fun r =>
  let me := ucom (rx_u r) in
  match m (set_ucom c (rx_u r)) with
  | Ret a u => Ret (a, ucom u) (mkRx (set_ucom me u) (rx_q r) (monitored r))
  | Throw e u => Throw e (mkRx (set_ucom me u) (rx_q r) (monitored r))
  | Undef => Undef
  end.

Definition u_nonlocal_dst (b : bool) (c : udpcom) : udpcom :=
  mkUdp (em_id c) (pool_depleted c) (my_key c) (udpcom_addr c) (u_l3 c) (nonlocal_src c) (nonlocal_src_host c)
    (nonlocal_src_port c) b (nonlocal_dst_host c) (nonlocal_dst_port c) (nonlocal_dst_resolved c)
    (bind_sock_family c) (ready c) (u_fd c) (nonlocal_dst_peer_info c).

(** [set_monitor]: a virtual socket is monitored through its real one. *)
Definition set_monitor (xs : Z) : M rworld unit :=
  modify (fun r =>
    let s := if xs <? 0 then translate_socket xs (rx_u r) else xs in
    if 0 <? s then mkRx (rx_u r) (rx_q r) (monitored r ++ [s]) else r).

(** The com of a new context, ready to be handed over, or none. *)
Definition adopt (type : proxyType) (redirects : redir_map) (virtual_socket : Z) : M rworld (option udpcom) :=
  o <- find_entry virtual_socket ;;
  match o, new_cx (s32 virtual_socket) with
  | Some _, Some c =>
      set_monitor (s32 virtual_socket) ;;;
      me <- gets (fun r => ucom (rx_u r)) ;;
      let c := u_nonlocal_dst (nonlocal_dst me) (u_embryon virtual_socket (pool_depleted c) c) in
      match type with
      | TRANSPARENT =>
          let! (_, c) := as_com c (resolve_nonlocal_dst_socket (s32 virtual_socket)) in mret_ (Some c)
      | REDIRECT =>
          let! (_, c) := as_com c (resolve_nonlocal_dst_socket (s32 virtual_socket)) in
          mret_ (match redir_target (nonlocal_dst_port c) redirects with
                 | Some (h, p) => Some (u_dst h p true c)
                 | None => None
                 end)
      | _ => mret_ (Some c)
      end
  | _, _ => mret_ None
  end.

(** The part of [ThreadedReceiverProxy::handle_sockets_once] before the round of the master:
    what it returns early, or the com it hands over if any. *)
Definition pick_up (worker_id load : Z) (parent_dead : bool) (type : proxyType) (redirects : redir_map)
  : M rworld (Z + option udpcom) :=
  if parent_dead then mret_ (inl (-1)) else
  on_q (Fdq.update_load worker_id load) ;;;
  s <- on_q (Fdq.pop worker_id) ;;
  let virtual_socket := u32 s in
  if virtual_socket =? 0 then mret_ (inl (-1)) else
  c <- adopt type redirects virtual_socket ;; mret_ (inr c).
End worker.
End receiver.
