(* ===== verification/SockSim.v ===== *)
(** * SockSim: a kernel the theorems on sockets are evaluated on

    Every call succeeds; descriptors are numbered from 10 up, and [mail] is what waits on any
    socket read from, with sender and control messages. *)

From S2P Require Export Receiver.
From S2P Require Import SockInfoProps.

Record sim : Type := mkSim { mail : list (bytes * list (Z * Z * bytes) * bytes); next_fd : Z }.

Definition ok (s : sim) : Z * sim := (0, s).

#[export] Instance sim_inet : Inet := raw_inet.
#[export] Instance sim_inet_ok : InetOk := raw_inet_ok.

#[export] Instance sim_sock : SockSys := {|
  sk := sim;
  sk_socket _ _ _ s := (10 + Z.abs (next_fd s), mkSim (mail s) (Z.abs (next_fd s) + 1));
  sk_setsockopt _ _ _ _ := ok;
  sk_getfl _ := ok;
  sk_setfl _ _ := ok;
  sk_bind _ _ := ok;
  sk_connect _ _ := ok;
  sk_close _ := ok
|}.

#[export] Instance sim_peers : PeerSys := {| sk_peer _ _ _ := None; sk_errno _ := 0 |}.

(** recv(2): the oldest datagram, kept when the flags say so. *)
Definition sim_recv (fd n flags : Z) (s : sim) : (Z * bytes) * sim :=
  match mail s with
  | [] => ((-1, []), s)
  | (_, _, data) :: r =>
      ((zlen (ztake n data), ztake n data), if Z.testbit flags 1 then s else mkSim r (next_fd s))
  end.

#[export] Instance sim_udp : UdpSys := {|
  us_recv := sim_recv;
  us_send _ b s := (zlen b, s);
  us_sendto _ b _ _ s := (zlen b, s);
  us_sendmsg _ b _ _ s := (zlen b, s);
  us_shutdown _ := ok;
  us_getaddrinfo _ _ _ := Some [(AF_INET, SOCK_DGRAM, 0, zrep 16 0)];
  us_stack := []
|}.

#[export] Instance sim_recvmsg : RecvSys := {|
  rs_recvmsg _ flags s :=
    match mail s with
    | [] => ((-1, [], []), s)
    | (from, cm, data) :: r => ((zlen data, from, cm), if Z.testbit flags 1 then s else mkSim r (next_fd s))
    end
|}.

#[export] Instance sim_fdq : Fdq.FdSys := {|
  Fdq.sys := unit;
  Fdq.sys_socketpair n := (None, n);
  Fdq.sys_pipe2 n := (None, n);
  Fdq.sys_write1 n _ := (1, n);
  Fdq.sys_read1 n _ := (1, n);
  Fdq.sys_close n _ := n
|}.

(** A com that has done nothing yet, connecting from [src] if there is one. *)
Definition sim_com (src : bool) : udpcom :=
  mkUdp 0 false None zero_ss AF_INET src [10; 0; 0; 9] 5353 false [] 0 false AF_INET ∅ 0 zero_ss.

Definition sim_world (ds : list (bytes * list (Z * Z * bytes) * bytes)) : uworld :=
  mkU ∅ ∅ ∅ (sim_com false) [] (mkSim ds 0).
