(* ===== verification/UdpProps.v ===== *)
(** * UdpProps: the datagram pool, the cache of connected sockets and the sockets of a UDP com *)

From stdpp Require Import gmap.
From S2P Require Export Udp.
From S2P Require Import SockSim.

Opaque zlen ztake zdrop.

(** ** The queue of a datagram as packets *)

Definition pkts (q : list bytes) : list bytes := filter (fun r => r <> []) q.

(** What reads of the sizes [ns] get of a list of packets, one packet at most for a read, and what
    is left. *)
Fixpoint chop (ns : list Z) (ps : list bytes) : list bytes * list bytes :=
  match ns, ps with
  | n :: ns, p :: ps =>
      let '(out, rest) := chop ns (if zlen p <=? n then ps else zdrop n p :: ps) in (ztake n p :: out, rest)
  | _, _ => ([], ps)
  end.

Lemma pkts_cons r q : pkts (r :: q) = match r with [] => pkts q | _ => r :: pkts q end.
Proof. unfold pkts. rewrite filter_cons. by destruct r. Qed.

Lemma queue_bytes_from n q : foldl (fun n r => n + zlen r) n q = n + queue_bytes q.
Proof.
  revert n. unfold queue_bytes. induction q as [|r q IH]; intros n; [cbn; lia|].
  cbn [foldl]. rewrite IH, (IH (0 + zlen r)). lia.
Qed.

Lemma queue_bytes_cons r q : queue_bytes (r :: q) = zlen r + queue_bytes q.
Proof. unfold queue_bytes at 1. cbn [foldl]. rewrite queue_bytes_from. lia. Qed.

Lemma queue_bytes_pos q : 0 <= queue_bytes q.
Proof.
  induction q as [|r q IH]; [done|]. rewrite queue_bytes_cons.
  pose proof (zlen_nonneg r). lia.
Qed.

Lemma pkts_none q : pkts q = [] <-> queue_bytes q = 0.
Proof.
  induction q as [|r q IH]; [done|]. rewrite queue_bytes_cons, pkts_cons.
  pose proof (queue_bytes_pos q). destruct r as [|b r].
  - rewrite (zlen_nil (A:=Z)), IH. lia.
  - split; [done|]. rewrite zlen_cons. pose proof (zlen_nonneg r). lia.
Qed.

Lemma queue_bytes_concat q : queue_bytes q = zlen (concat q).
Proof.
  induction q as [|r q IH]; [done|]. rewrite queue_bytes_cons. cbn [concat]. by rewrite zlen_app, IH.
Qed.

Lemma concat_pkts q : concat (pkts q) = concat q.
Proof.
  induction q as [|r q IH]; [done|]. rewrite pkts_cons. destruct r; cbn [concat]; [done|].
  by rewrite IH.
Qed.

(** Within an [int] nothing is lost in the count. *)
Lemma bytes_left_small q : queue_bytes q < 2 ^ 31 -> bytes_left q = queue_bytes q.
Proof.
  unfold bytes_left. intros Hq.
  enough (forall n, 0 <= n -> n + queue_bytes q < 2 ^ 31 ->
    foldl (fun n r => if zlen r =? 0 then n else s32 (n + zlen r)) n q = n + queue_bytes q) as H
    by (rewrite H; lia).
  clear Hq. induction q as [|r q IH]; intros n Hn; [cbn; lia|]. rewrite queue_bytes_cons. intros Hq. cbn [foldl].
  pose proof (zlen_nonneg r). pose proof (queue_bytes_pos q).
  destruct (Z.eqb_spec (zlen r) 0) as [Hz|Hz]; [rewrite IH; lia|].
  rewrite wraps_small by lia. rewrite IH; lia.
Qed.

(** One read takes from the first packet only. *)
Lemma rx_take_pkts n peek q p ps :
  0 < n < 2 ^ 31 -> queue_bytes q < 2 ^ 31 -> pkts q = p :: ps ->
  exists q', rx_take n peek q = Some (ztake n p, zlen p <=? n, q')
    /\ length q' = length q
    /\ pkts q' = if peek then p :: ps else if zlen p <=? n then ps else zdrop n p :: ps.
Proof.
  intros Hn. revert p ps. induction q as [|r q IH]; intros p ps; [done|].
  rewrite pkts_cons, queue_bytes_cons. pose proof (queue_bytes_pos q). pose proof (zlen_nonneg r). intros Hq.
  destruct r as [|b r]; cbn [rx_take].
  - change (s32 (zlen ([] : bytes))) with 0. rewrite (proj2 (Z.leb_le 0 0)) by done.
    intros Hp. destruct (IH p ps ltac:(lia) Hp) as (q' & -> & Hl & Hp'). eexists. split; [done|].
    split; [cbn; lia|]. by rewrite pkts_cons.
  - intros [= <- <-]. set (e := b :: r) in *.
    assert (0 < zlen e) as Hpos by (unfold e; rewrite zlen_cons; pose proof (zlen_nonneg r); lia).
    rewrite (wraps_small 32 (zlen e)), (wraps_small 32 n) by lia.
    rewrite (proj2 (Z.leb_gt _ _)), (proj2 (Z.ltb_ge _ _)) by lia.
    assert (He : ztake (Z.min n (zlen e)) e = ztake n e).
    { destruct (decide (n <= zlen e)) as [Hle|Hle]; [by rewrite Z.min_l by lia|].
      rewrite Z.min_r, !ztake_ge by lia. done. }
    rewrite He. eexists. split; [f_equal; f_equal; f_equal|].
    { destruct (Z.leb_spec (zlen e) n), (Z.leb_spec (zlen e) (Z.min n (zlen e))); (done || lia). }
    split; [done|]. rewrite pkts_cons. destruct peek; [done|].
    unfold rx_flush. rewrite (proj2 (Z.eqb_neq _ 0)) by lia. cbn [orb].
    destruct (Z.leb_spec (zlen e) n) as [Hle|Hle].
    + rewrite (proj2 (Z.leb_le _ _)) by lia. done.
    + rewrite (proj2 (Z.leb_gt _ _)), Z.min_l by lia. destruct (zdrop n e) eqn:Hd; [|done].
      apply (f_equal zlen) in Hd. rewrite zlen_zdrop, (zlen_nil (A:=Z)) in Hd by lia. lia.
Qed.

(** ** Reading the pool *)

Section pool.
Context {IN : Inet} {SK : SockSys} {PS : PeerSys} {US : UdpSys}.

(** Several reads of a virtual socket. *)
Fixpoint pool_reads (fd : Z) (ns : list Z) : M uworld (list bytes) :=
  match ns with
  | [] => mret_ []
  | n :: ns => let! (_, b) := read_from_pool fd n 0 in r <- pool_reads fd ns ;; mret_ (b :: r)
  end.

(** The pool of [w] with queue [q] in the entry of [fd] and [fd] marked while bytes are left. *)
Definition pool_after (fd : Z) (d : Datagram) (q : list bytes) (w : uworld) : uworld :=
  set_virt (if bool_decide (pkts q = []) then in_virt_set w ∖ {[fd]} else {[fd]} ∪ in_virt_set w)
    (set_dgrams (<[dkey fd := set_rx q d]> (datagrams_received w)) w).

Lemma read_from_pool_spec w fd n flags d p ps :
  0 < n < 2 ^ 31 -> queue_bytes (rx_queue d) < 2 ^ 31 ->
  datagrams_received w !! dkey fd = Some d -> pkts (rx_queue d) = p :: ps ->
  let peek := Z.testbit flags 1 in
  exists q, read_from_pool fd n flags w
      = Ret (zlen (ztake n p), ztake n p)
          (set_virt (if peek then {[fd]} ∪ in_virt_set w
                     else if bool_decide (pkts q = []) then in_virt_set w ∖ {[fd]}
                     else {[fd]} ∪ in_virt_set w)
            (set_dgrams (<[dkey fd := set_rx q d]> (datagrams_received w)) w))
    /\ length q = length (rx_queue d) /\ queue_bytes q <= queue_bytes (rx_queue d)
    /\ pkts q = if peek then p :: ps else if zlen p <=? n then ps else zdrop n p :: ps.
Proof.
  intros Hn Hsz Hd Hp. cbn zeta. set (peek := Z.testbit flags 1).
  destruct (rx_take_pkts n peek (rx_queue d) p ps Hn Hsz Hp) as (q & Hq & Hl & Hpk).
  assert (Hqle : queue_bytes q <= queue_bytes (rx_queue d)).
  { rewrite !queue_bytes_concat, <- (concat_pkts q), <- (concat_pkts (rx_queue d)), Hp, Hpk.
    destruct peek; [done|]. pose proof (zlen_nonneg p). case_match; cbn [concat]; rewrite !zlen_app; [lia|].
    rewrite zlen_zdrop by lia. lia. }
  exists q. split; [|done].
  assert (Hb : queue_bytes (rx_queue d) <> 0) by (rewrite <- pkts_none, Hp; done).
  unfold read_from_pool, find_dgram. rewrite bind_gets, Hd.
  assert (E : (queue_bytes (rx_queue d) =? 0) = false) by lia. rewrite E.
  assert (Hm : forall A (x : Z -> A) y, match socket_left d, false with Some s, true => x s | _, _ => y end = y)
    by (intros; by destruct (socket_left d)).
  rewrite (Hm _ (fun s => recv s n flags)). fold peek. unfold dg_empty. rewrite E, Hq, bind_modify.
  rewrite (bytes_left_small q) by lia.
  assert (Hpos : (0 <? queue_bytes q) = negb (bool_decide (pkts q = []))).
  { pose proof (queue_bytes_pos q). case_bool_decide as Hc.
    - apply pkts_none in Hc. lia.
    - rewrite pkts_none in Hc. lia. }
  rewrite Hpos. unfold when.
  destruct peek; cbn [negb andb].
  - assert (Hf : bool_decide (pkts q = []) = false) by (apply bool_decide_eq_false; by rewrite Hpk).
    rewrite Hf. reflexivity.
  - destruct (zlen p <=? n) eqn:Hle.
    + case_bool_decide as Hc; cbn [negb]; [reflexivity|].
      assert (E' : {[fd]} ∪ (in_virt_set w ∖ {[fd]}) = {[fd]} ∪ in_virt_set w)
        by (apply set_eq; intros x; destruct (decide (x = fd)); set_solver).
      rewrite <- E'. reflexivity.
    + assert (Hf : bool_decide (pkts q = []) = false) by (apply bool_decide_eq_false; by rewrite Hpk).
      rewrite Hf. reflexivity.
Qed.

Lemma chop_concat ns ps :
  length (chop ns ps).1 = length ns -> concat (chop ns ps).1 ++ concat (chop ns ps).2 = concat ps.
Proof.
  revert ps. induction ns as [|n ns IH]; intros [|p ps]; cbn [chop]; try done.
  destruct (chop ns _) as [out rest] eqn:Hc. cbn [fst snd length concat]. intros Hl.
  specialize (IH (if zlen p <=? n then ps else zdrop n p :: ps)). rewrite Hc in IH. cbn [fst snd] in IH.
  rewrite <- app_assoc, IH by lia. destruct (Z.leb_spec (zlen p) n).
  - by rewrite ztake_ge by lia.
  - cbn [concat]. rewrite app_assoc. by rewrite ztake_zdrop.
Qed.

Lemma chop_whole ns ps : Forall (fun n => Forall (fun p => zlen p <= n) ps) ns ->
  chop ns ps = (take (length ns) ps, drop (length ns) ps).
Proof.
  revert ps. induction ns as [|n ns IH]; intros [|p ps] H; cbn [chop]; try done.
  inversion_clear H as [|? ? Hn Hr]. inversion_clear Hn as [|? ? Hp _].
  assert (E : (zlen p <=? n) = true) by lia. rewrite E. rewrite IH.
  - cbn. by rewrite ztake_ge by lia.
  - eapply Forall_impl; [exact Hr|]. intros m Hm. by inversion_clear Hm.
Qed.

Lemma pool_after_twice fd d q q' w :
  pool_after fd (set_rx q d) q' (pool_after fd d q w) = pool_after fd d q' w.
Proof.
  unfold pool_after, set_virt, set_dgrams. cbn. f_equal.
  - by rewrite insert_insert_eq.
  - repeat case_bool_decide; apply set_eq; intros x; destruct (decide (x = fd)); set_solver.
Qed.

(** [C24] Reads of the early data of a virtual socket, of whatever positive sizes an [int]
    holds, as many as there is data for and while the data is less than 2 GiB, give what an abstract queue of packets gives: each read a piece of one datagram, at most the size
    asked for, the slots in order, nothing lost, repeated or run together; and after them the
    socket is in the set of readable virtual sockets exactly when something is left. *)
Theorem pool_reads_in_order w fd d ns :
  datagrams_received w !! dkey fd = Some d -> queue_bytes (rx_queue d) < 2 ^ 31 ->
  Forall (fun n => 0 < n < 2 ^ 31) ns -> ns <> [] ->
  let r := chop ns (pkts (rx_queue d)) in
  length r.1 = length ns ->
  exists q, pool_reads fd ns w = Ret r.1 (pool_after fd d q w)
    /\ pkts q = r.2 /\ length q = length (rx_queue d)
    /\ concat r.1 ++ concat q = concat (rx_queue d)
    /\ (fd ∈ in_virt_set (pool_after fd d q w) <-> r.2 <> []).
Proof.
  intros Hd Hsz Hns Hne. cbv zeta. destruct (chop ns (pkts (rx_queue d))) as [out rest] eqn:Hc. cbn [fst snd]. intros Hl.
  assert (Hcat : concat out ++ concat rest = concat (rx_queue d)).
  { pose proof (chop_concat ns (pkts (rx_queue d))) as H. rewrite Hc in H. cbn in H.
    by rewrite H, concat_pkts by done. }
  enough (exists q, pool_reads fd ns w = Ret out (pool_after fd d q w) /\ pkts q = rest
            /\ length q = length (rx_queue d)) as (q & Hr & Hq & Hlen).
  { exists q. split; [done|]. split; [done|]. split; [done|]. split.
    - by rewrite <- (concat_pkts q), Hq.
    - subst rest. unfold pool_after. cbn. case_bool_decide; set_solver. }
  clear Hcat. revert w d out rest Hd Hsz Hc Hl. induction ns as [|n ns IH]; [done|]. intros w d out rest Hd Hsz Hc Hl.
  inversion_clear Hns as [|? ? Hn Hns']. cbn [chop] in Hc.
  destruct (pkts (rx_queue d)) as [|p ps] eqn:Hp; [by injection Hc as <- <-|].
  destruct (chop ns _) as [out' rest'] eqn:Hc'. injection Hc as <- <-. cbn [length] in Hl.
  destruct (read_from_pool_spec w fd n 0 d p ps Hn Hsz Hd Hp) as (q & Hr & Hlq & Hleq & Hpq).
  change (Z.testbit 0 1) with false in *. cbn match in *.
  cbn [pool_reads]. rewrite (bind_ret _ _ _ _ _ Hr). cbv beta iota. fold (pool_after fd d q w).
  rewrite <- Hpq in Hc'. destruct ns as [|n' ns'].
  - cbn [chop] in Hc'. injection Hc' as <- <-. exists q. by cbn.
  - destruct (IH Hns' ltac:(done) (pool_after fd d q w) (set_rx q d) out' rest') as (q' & Hr' & Hq' & Hl').
    { cbn. by rewrite lookup_insert_eq. } { cbn [rx_queue set_rx]. lia. } { done. } { lia. }
    exists q'. rewrite (bind_ret _ _ _ _ _ Hr'), pool_after_twice. by rewrite Hl'.
Qed.
End pool.

(** ** Descriptors and the cache *)

Section sockets.
Context {IN : Inet} {SK : SockSys} {PS : PeerSys} {US : UdpSys}.

Definition set_usys (s : sk) (w : uworld) : uworld :=
  mkU (datagrams_received w) (in_virt_set w) (conns w) (ucom w) (closed w) s.
Definition set_closed (l : list Z) (w : uworld) : uworld :=
  mkU (datagrams_received w) (in_virt_set w) (conns w) (ucom w) l (usys w).

(** [m] returns, and changes the system only. *)
Definition only_sys {A} (m : M uworld A) : Prop := forall w, exists a s, m w = Ret a (set_usys s w).

Lemma only_syscall f : only_sys (on_sys (syscall f)).
Proof. intros w. unfold on_sys, syscall. destruct (f (usys w)) as [r s]. by exists r, s. Qed.

Lemma only_ret {A} (a : A) : only_sys (mret_ a).
Proof. intros w. exists a, (usys w). by destruct w. Qed.

Lemma only_bind {A B} (m : M uworld A) (k : A -> M uworld B) :
  only_sys m -> (forall a, only_sys (k a)) -> only_sys (mbind_ m k).
Proof.
  intros Hm Hk w. destruct (Hm w) as (a & s & E). destruct (Hk a (set_usys s w)) as (b & s' & E').
  exists b, s'. by rewrite (bind_ret _ _ _ _ _ E), E'.
Qed.

Lemma only_sys_bind {A B} (m : M uworld A) (k : A -> M uworld B) w :
  only_sys m -> exists a s, mbind_ m k w = k a (set_usys s w).
Proof. intros Hm. destruct (Hm w) as (a & s & E). exists a, s. by apply bind_ret. Qed.

Lemma only_on_sys_bind {A B} (m : M sk A) (k : A -> M sk B) :
  only_sys (on_sys m) -> (forall a, only_sys (on_sys (k a))) -> only_sys (on_sys (mbind_ m k)).
Proof.
  intros Hm Hk w. destruct (Hm w) as (a & s & E). destruct (Hk a (set_usys s w)) as (b & s' & E').
  exists b, s'. transitivity (on_sys (k a) (set_usys s w)); [|exact E']. clear E'.
  unfold on_sys in E |- *. unfold mbind_. destruct (m (usys w)) as [a1 s1 | |]; [|done|done].
  injection E as -> ->. reflexivity.
Qed.

Lemma only_on_sys_ret {A} (a : A) : only_sys (on_sys (mret_ a)).
Proof. intros w. by exists a, (usys w). Qed.

Lemma only_on_sys_gets {A} (f : sk -> A) : only_sys (on_sys (gets f)).
Proof. intros w. by exists (f (usys w)), (usys w). Qed.

Lemma only_when b m : only_sys m -> only_sys (when b m).
Proof. intros H. destruct b; [done | apply only_ret]. Qed.

Lemma only_unblock s : only_sys (on_sys (unblock s)).
Proof.
  apply only_on_sys_bind; [apply only_syscall|]. intros f. case_match; [|apply only_on_sys_ret].
  apply only_on_sys_bind; [apply only_syscall|]. intros r. apply only_on_sys_ret.
Qed.

Lemma only_namesocket fd a p f : only_sys (on_sys (namesocket fd a p f)).
Proof.
  apply only_on_sys_bind; [repeat case_match; (apply only_syscall || apply only_on_sys_ret)|]. intros _.
  apply only_on_sys_bind; [apply only_syscall|]. intros r.
  case_match; [apply only_on_sys_ret | apply only_on_sys_gets].
Qed.

Lemma only_transparent l3 fd : only_sys (on_sys (so_transparent l3 fd)).
Proof. unfold so_transparent. case_match; apply only_syscall. Qed.

(** [m] returns or throws what the code catches. *)
Definition socket_errors {A} (m : M sk A) : Prop :=
  forall s, match m s with Throw e _ => e = runtime_error | Ret _ _ => True | Undef => False end.

Lemma errors_bind {A B} (m : M sk A) (k : A -> M sk B) :
  socket_errors m -> (forall a, socket_errors (k a)) -> socket_errors (mbind_ m k).
Proof.
  intros Hm Hk s. specialize (Hm s). unfold mbind_. destruct (m s); [by apply Hk | done | done].
Qed.

Lemma errors_syscall f : socket_errors (syscall f).
Proof. intros s. unfold syscall. by destruct (f s). Qed.

Lemma errors_when b e : e = runtime_error -> socket_errors (when b (throw e)).
Proof. intros -> s. by destruct b. Qed.

Lemma errors_must f : socket_errors (must f).
Proof. apply errors_bind; [apply errors_syscall|]. intros r. by apply errors_when. Qed.

Lemma errors_create f t p : socket_errors (socket_create f t p).
Proof.
  unfold socket_create.
  repeat (apply errors_bind; [(apply errors_syscall || by apply errors_when || apply errors_must)|]; intros ?).
  apply errors_bind; [|by intros _ s].
  unfold when at 1. case_match; [|by intros s]. apply errors_bind; [apply errors_syscall|]. intros r. by apply errors_when.
Qed.

Lemma only_try_create f t p : only_sys (try_socket (on_sys (socket_create f t p))).
Proof.
  intros w. pose proof (errors_create f t p (usys w)) as H. unfold try_socket, on_sys.
  destruct (socket_create f t p (usys w)) as [a s | e s |]; [|subst e|done].
  - by exists (Some a), s.
  - by exists None, s.
Qed.

(** A step that changes the system and closes [l]. *)
Definition closing {A} (m : M uworld A) (l : list Z) : Prop :=
  forall w, exists a s, m w = Ret a (set_usys s (set_closed (closed w ++ l) w)).

Lemma kill_closes fd : closing (kill_socket fd) [fd].
Proof.
  intros w. unfold kill_socket.
  destruct (only_sys_bind (on_sys (syscall (us_shutdown fd)))
              (fun r => cr <- os_close fd ;; mret_ (if cr <? 0 then cr else if r <? 0 then r else 0)) w
              (only_syscall _)) as (r & s & E). rewrite E.
  unfold os_close, mbind_. cbn. destruct (sk_close fd s) as [cr s']. by eexists _, _.
Qed.

Lemma close_closes fd : closing (os_close fd) [fd].
Proof. intros w. unfold os_close. destruct (sk_close fd (usys w)) as [r s]. by eexists _, _. Qed.

(** Run the first step of the computation of the goal, one that only changes the system ([H]), or
    one that also closes. *)
Ltac sys_step H a s :=
  match goal with |- context [mbind_ ?m ?k ?w] =>
    let E := fresh in destruct (only_sys_bind m k w H) as (a & s & E); rewrite E; clear E
  end.
Ltac close_step H :=
  match goal with |- context [mbind_ ?m ?k ?w] =>
    let E := fresh in let a := fresh in let s := fresh in
    destruct (H w) as (a & s & E); rewrite (bind_ret m k w _ _ E); clear E
  end.

(** ** Shutting down a real socket *)

(** What [shutdown] of [fd] under the key [k] closes, and the cache it leaves. *)
Definition shut (fd : Z) (k : bytes) (m : gmap bytes (Z * Z)) : list Z * gmap bytes (Z * Z) :=
  match m !! k with
  | Some (sock, n) => if n <=? 1 then ([sock], delete k m) else ([fd], <[k := (sock, n - 1)]> m)
  | None => ([fd], m)
  end.

Lemma shutdown_keyed w fd k :
  0 < fd -> my_key (ucom w) = Some k -> em_id (ucom w) = 0 ->
  exists s, shutdown fd w = Ret tt (set_usys s (set_closed (closed w ++ (shut fd k (conns w)).1)
                                              (set_conns (shut fd k (conns w)).2 w))).
Proof.
  intros Hfd Hk He. unfold shutdown.
  assert (E : (0 <? fd) = true) by lia. rewrite E. rewrite bind_assoc, bind_gets.
  assert (Hkill : exists s kc, (killed <- (if bool_decide (conns w = ∅) then mret_ 0
        else
          c <- gets ucom ;;
          key <- match my_key c with Some k => mret_ (Some k) | None => gen_cache_key_fd fd end ;;
          match key with Some k => kill_and_deref_from_connnect k | None => mret_ 0 end) ;;
        when (killed =? 0) (kill_socket fd ;;; mret_ tt)) w
      = Ret kc (set_usys s (set_closed (closed w ++ (shut fd k (conns w)).1)
                                              (set_conns (shut fd k (conns w)).2 w)))).
  2:{ destruct Hkill as (s & [] & E'). exists s. rewrite (bind_ret _ _ _ _ _ E'), bind_gets.
      cbn. by rewrite He. }
  assert (Hlast : forall w1 (l : list Z), closed w1 = closed w ++ l ->
            exists s kc, (when (0 =? 0) (kill_socket fd ;;; mret_ tt)) w1
              = Ret kc (set_usys s (set_closed (closed w ++ l ++ [fd]) w1))).
  { intros w1 l Hl. cbn. destruct (kill_closes fd w1) as (r & s & E1). exists s, tt.
    rewrite (bind_ret _ _ _ _ _ E1), Hl. by rewrite <- app_assoc. }
  case_bool_decide as Hc.
  - rewrite bind_pure. destruct (Hlast w []) as (s & kc & E1); [by rewrite app_nil_r|].
    exists s, kc. rewrite E1. unfold shut. rewrite Hc, lookup_empty. cbn. do 2 f_equal.
    destruct w. cbn in *. by rewrite Hc.
  - rewrite bind_assoc, bind_gets, Hk, bind_assoc, bind_pure. unfold kill_and_deref_from_connnect.
    rewrite bind_assoc, bind_gets. unfold shut. destruct (conns w !! k) as [[sock n]|] eqn:Hl.
    + destruct (n <=? 1).
      * rewrite bind_assoc. destruct (kill_closes sock w) as (r & s & E1).
        rewrite (bind_ret _ _ _ _ _ E1), bind_assoc, bind_modify, bind_pure. by exists s, tt.
      * rewrite bind_assoc, bind_modify, bind_pure.
        destruct (Hlast (set_conns (<[k:=(sock, n - 1)]> (conns w)) w) []) as (s & kc & E1); [by rewrite app_nil_r|].
        by exists s, kc.
    + rewrite bind_pure. destruct (Hlast w []) as (s & kc & E1); [by rewrite app_nil_r|].
      exists s, kc. rewrite E1. by destruct w.
Qed.

(** Whatever the count of a cached connection, the [shutdown] of one of
    the coms that share it closes the socket, and closes it once: a count above one is only
    lowered, and the socket stays in the cache, closed, for the others. *)
Theorem shared_socket_closed w fd n k :
  0 < fd -> my_key (ucom w) = Some k -> em_id (ucom w) = 0 -> conns w !! k = Some (fd, n) ->
  exists w', shutdown fd w = Ret tt w'
    /\ closed w' = closed w ++ [fd]
    /\ conns w' !! k = (if n <=? 1 then None else Some (fd, n - 1))
    /\ (forall k', k' <> k -> conns w' !! k' = conns w !! k').
Proof.
  intros Hfd Hk He Hc. destruct (shutdown_keyed w fd k Hfd Hk He) as (s & E). eexists. split; [exact E|].
  unfold shut. rewrite Hc. destruct (n <=? 1); cbn; (split; [done|]; split).
  - by rewrite lookup_delete_eq.
  - intros k' Hne. by rewrite lookup_delete_ne.
  - by rewrite lookup_insert_eq.
  - intros k' Hne. by rewrite lookup_insert_ne.
Qed.

(** ** Connecting *)

(** What connecting leaves of a com alone. *)
Definition same_com (c c' : udpcom) : Prop :=
  em_id c' = em_id c /\ nonlocal_src c' = nonlocal_src c /\ nonlocal_src_host c' = nonlocal_src_host c
  /\ nonlocal_src_port c' = nonlocal_src_port c.

#[export] Instance same_com_refl : Reflexive same_com.
Proof. by intros c. Qed.

(** The key under which [c] caches a connection. *)
Definition cache_key (c : udpcom) (host prt : bytes) : bytes := default [] (gen_cache_key c host prt).

Lemma same_com_key c c' h p : same_com c c' -> cache_key c' h p = cache_key c h p.
Proof. intros (_ & H1 & H2 & H3). unfold cache_key, gen_cache_key. by rewrite H1, H2, H3. Qed.

Lemma same_com_trans c c' c'' : same_com c c' -> same_com c' c'' -> same_com c c''.
Proof. unfold same_com. intuition congruence. Qed.

(** [w'] is [w] with the connection [sfd] counted under the key of the com, new or shared. *)
Definition registered (host prt : bytes) (w w' : uworld) (sfd : Z) : Prop :=
  let key := cache_key (ucom w) host prt in
  my_key (ucom w') = Some key /\
  exists n, conns w' = <[key := (sfd, n)]> (conns w)
    /\ (n = 1 \/ nonlocal_src (ucom w) = true /\ conns w !! key = Some (sfd, n - 1)).

Lemma connect_socket_spec host prt rp w :
  exists o w', connect_socket host prt rp w = Ret o w' /\ same_com (ucom w) (ucom w')
    /\ match o with
       | None => conns w' = conns w
       | Some (sfd, true, key) => registered host prt w w' sfd
       | Some (sfd, false, key) => conns w' = conns w /\ key = cache_key (ucom w) host prt
       end.
Proof.
  destruct rp as [[[f t] pr] a]. unfold connect_socket. cbv zeta. rewrite bind_gets. fold (cache_key (ucom w) host prt).
  destruct (nonlocal_src (ucom w)) eqn:Hn.
  - unfold use_cached_connection. rewrite bind_assoc, bind_gets.
    destruct (conns w !! cache_key (ucom w) host prt) as [[fd n]|] eqn:Hl.
    + rewrite bind_assoc, bind_modify, bind_assoc. unfold on_ucom. rewrite bind_modify, bind_pure.
      eexists _, _. split; [reflexivity|]. split; [done|]. split; [done|]. exists (n + 1).
      split; [done|]. right. split; [done|]. rewrite Hl. do 2 f_equal. lia.
    + rewrite bind_pure.
      sys_step (only_try_create f t pr) o s. destruct o as [sfd|]; [|by eexists _, _].
      sys_step (only_transparent (u_l3 (ucom w)) sfd) r s1. destruct (negb (r =? 0)).
      { close_step (close_closes sfd). by eexists _, _. }
      sys_step (only_namesocket sfd (nonlocal_src_host (ucom w)) (nonlocal_src_port (ucom w)) (u_l3 (ucom w))) b s3.
      destruct (negb (b =? 0)); [close_step (close_closes sfd)|]; by eexists _, _.
  - sys_step (only_try_create f t pr) o s. eexists _, _. split; [reflexivity|].
    split; [done|]. destruct o; [|done]. split; [done|]. unfold cache_key, gen_cache_key. by rewrite Hn.
Qed.

Lemma connect_one_spec io host prt rp w :
  exists o w', connect_one io host prt rp w = Ret o w' /\ same_com (ucom w) (ucom w')
    /\ match o with None => conns w' = conns w | Some sfd => registered host prt w w' sfd end.
Proof.
  destruct (connect_socket_spec host prt rp w) as (o & w1 & E & Hs & Hr). unfold connect_one.
  rewrite (bind_ret _ _ _ _ _ E). destruct o as [[[sfd cached] key]|]; [|by eexists _, _].
  unfold on_ucom at 1. rewrite bind_modify. set (w2 := set_ucom _ w1).
  assert (Hio : only_sys (if io then mret_ 0 else on_sys (unblock sfd)))
    by (destruct io; [apply only_ret | apply only_unblock]).
  destruct cached.
  - rewrite bind_pure. cbn [negb Z.eqb]. sys_step Hio z s. by eexists _, _.
  - rewrite bind_assoc, bind_gets, bind_assoc.
    assert (Hc : only_sys (if negb (u_l3 (ucom w2) =? AF_INET6)
        then on_sys (syscall (sk_connect sfd (ztake 16 (udpcom_addr (ucom w2))))) else mret_ 0))
      by (destruct (negb _); [apply only_syscall | apply only_ret]).
    sys_step Hc r s. rewrite bind_assoc. destruct Hr as [Hm ->]. destruct (r =? 0) eqn:Er; cbn [negb].
    + rewrite bind_assoc, bind_modify. unfold on_ucom. rewrite bind_modify, bind_pure, Er. cbn [negb].
      sys_step Hio z s1. eexists _, _. split; [reflexivity|]. split; [done|].
      split; [done|]. exists 1. cbn. rewrite Hm. by split; [|left].
    + rewrite bind_assoc. close_step (close_closes sfd).
      rewrite bind_pure, bind_pure, Er. by eexists _, _.
Qed.

Lemma registered_from host prt w w1 w' sfd :
  same_com (ucom w) (ucom w1) -> conns w1 = conns w -> registered host prt w1 w' sfd -> registered host prt w w' sfd.
Proof.
  intros Hs Hc. unfold registered. rewrite (same_com_key _ _ _ _ Hs), Hc.
  destruct Hs as (_ & -> & _). done.
Qed.

Lemma connect_any_spec io host prt rps w :
  exists o w', connect_any io host prt rps w = Ret o w' /\ same_com (ucom w) (ucom w')
    /\ match o with None => conns w' = conns w | Some sfd => registered host prt w w' sfd end.
Proof.
  revert w. induction rps as [|rp rps IH]; intros w; cbn [connect_any]; [by eexists _, _|].
  destruct (connect_one_spec io host prt rp w) as (o & w1 & E & Hs & Hr). rewrite (bind_ret _ _ _ _ _ E).
  destruct o as [sfd|]; [by eexists _, _|].
  destruct (IH w1) as (o & w2 & E2 & Hs2 & Hr2). exists o, w2. split; [done|].
  split; [by eapply same_com_trans|]. destruct o; [by eapply registered_from | congruence].
Qed.

(** [connect] always returns, -2 with the cache as it was, or the descriptor
    the com then holds, registered in the cache under the key the com keeps for its [shutdown]:
    either a connection that was there, counted once more, or a new one counted 1.  No other entry
    of the cache changes, but a new connection takes the place of what its key held. *)
Theorem connect_registers io host prt w :
  exists r w', connect io host prt w = Ret r w'
    /\ (r = -2 /\ conns w' = conns w
        \/ u_fd (ucom w') = r
           /\ exists key n, my_key (ucom w') = Some key /\ key = cache_key (ucom w) host prt
                /\ conns w' = <[key := (r, n)]> (conns w)
                /\ (n = 1 \/ nonlocal_src (ucom w) = true /\ conns w !! key = Some (r, n - 1))).
Proof.
  unfold connect. rewrite bind_gets. destruct (us_getaddrinfo host prt (u_l3 (ucom w))) as [rps|].
  - destruct (connect_any_spec io host prt rps w) as (o & w1 & E & Hs & Hr). rewrite (bind_ret _ _ _ _ _ E).
    destruct o as [sfd|].
    + unfold on_ucom. rewrite bind_modify. eexists _, _. split; [reflexivity|]. right.
      split; [done|]. destruct Hr as (Hk & n & Hc & Hn). by exists (cache_key (ucom w) host prt), n.
    + eexists _, _. split; [reflexivity|]. by left.
  - eexists _, _. split; [reflexivity|]. by left.
Qed.

(** Connecting from the com [c] to end with [sfd], in terms of the cache only. *)
Lemma connect_plain io host prt w fd w' :
  nonlocal_src (ucom w) = false -> 0 < fd -> connect io host prt w = Ret fd w' ->
  my_key (ucom w') = Some [] /\ conns w' = <[[] := (fd, 1)]> (conns w) /\ em_id (ucom w') = em_id (ucom w).
Proof.
  intros Hn Hfd. unfold connect. rewrite bind_gets.
  destruct (us_getaddrinfo host prt (u_l3 (ucom w))) as [rps|]; [|intros [=]; lia].
  destruct (connect_any_spec io host prt rps w) as (o & w1 & E & (He & _) & Hr). rewrite (bind_ret _ _ _ _ _ E).
  destruct o as [sfd|]; [|intros [=]; lia]. unfold on_ucom. rewrite bind_modify. intros [= <- <-].
  destruct Hr as (Hk & n & Hc & [->|[? _]]); [|congruence].
  unfold cache_key, gen_cache_key in *. rewrite Hn in *. done.
Qed.

(** Coms that connect without a source of their own are all cached under
    the empty key: when [a] and then [b] have connected, the [shutdown] of [a] closes the socket of
    [b], that of [b] closes it a second time, and the socket of [a] stays open. *)
Theorem plain_connects_clash io ha pa hb pb a b w fa fb w1 w2 :
  nonlocal_src a = false -> nonlocal_src b = false -> em_id a = 0 -> em_id b = 0 -> 0 < fa -> 0 < fb ->
  connect io ha pa (set_ucom a w) = Ret fa w1 ->
  connect io hb pb (set_ucom b w1) = Ret fb w2 ->
  exists w3 w4,
    shutdown fa (set_ucom (ucom w1) w2) = Ret tt w3 /\ closed w3 = closed w2 ++ [fb]
    /\ shutdown fb (set_ucom (ucom w2) w3) = Ret tt w4 /\ closed w4 = closed w2 ++ [fb; fb].
Proof.
  intros Hna Hnb Hea Heb Hfa Hfb Ha Hb.
  destruct (connect_plain _ _ _ (set_ucom a w) _ _ Hna Hfa Ha) as (Hka & Hca & He1).
  destruct (connect_plain _ _ _ (set_ucom b w1) _ _ Hnb Hfb Hb) as (Hkb & Hcb & He2).
  destruct (shutdown_keyed (set_ucom (ucom w1) w2) fa [] Hfa Hka) as (s & E3); [cbn in *; congruence|].
  assert (Hs : shut fa [] (conns w2) = ([fb], delete [] (conns w2))).
  { unfold shut. by rewrite Hcb, lookup_insert_eq. }
  eexists. cbn in E3. rewrite Hs in E3. cbn in E3.
  match type of E3 with _ = Ret tt ?w3 =>
    destruct (shutdown_keyed (set_ucom (ucom w2) w3) fb [] Hfb Hkb) as (s' & E4); [cbn in *; congruence|]
  end.
  eexists. split; [exact E3|]. split; [done|]. split; [exact E4|].
  cbn. unfold shut. rewrite lookup_delete_eq. cbn. by rewrite <- app_assoc.
Qed.

(** ** Binding *)

(** [bind] returns the descriptor it opened with nothing closed, or one of
    its codes: -129 when there is no descriptor, and -130, -131 or -132 with the descriptor it
    opened, and nothing else, closed.  The pool and the cache are untouched. *)
Theorem bind_leaks_nothing port w :
  let s := (sk_socket (bind_sock_family (ucom w)) SOCK_DGRAM IPPROTO_UDP (usys w)).1 in
  exists r k l, bind port w = Ret r (set_usys k (set_closed (closed w ++ l) w))
    /\ (r = s /\ l = [] /\ s <> -1 \/ r = -129 /\ l = [] /\ s = -1
        \/ (r = -130 \/ r = -131 \/ r = -132) /\ l = [s] /\ s <> -1).
Proof.
  cbv zeta. unfold bind. rewrite bind_gets. set (f := bind_sock_family (ucom w)).
  destruct (sk_socket f SOCK_DGRAM IPPROTO_UDP (usys w)) as [s w0] eqn:Hs. cbn [fst].
  assert (E : on_sys (syscall (sk_socket f SOCK_DGRAM IPPROTO_UDP)) w = Ret s (set_usys w0 w)).
  { unfold on_sys, syscall. by rewrite Hs. }
  rewrite (bind_ret _ _ _ _ _ E). clear E.
  assert (Hnil : forall k, set_usys k w = set_usys k (set_closed (closed w ++ []) w)).
  { intros k. rewrite app_nil_r. by destruct w. }
  destruct (Z.eqb_spec s (-1)) as [Hm|Hm].
  { exists (-129), w0, []. rewrite <- Hnil. split; [reflexivity|]. tauto. }
  assert (Hopt : forall (b : bool) (m : M uworld Z) (c : bool), only_sys m -> only_sys (on_sys (so_transparent_v4 s)) ->
    only_sys (on_sys (so_transparent_v6 s)) ->
    only_sys (if b then when (nonlocal_dst (ucom w)) ((if c then on_sys (so_transparent_v4 s) else on_sys (so_transparent_v6 s)) ;;; mret_ tt) ;;; m else mret_ 0)).
  { intros b m c Hmm H4 H6. destruct b; [|apply only_ret]. apply only_bind; [|done]. apply only_when.
    apply only_bind; [by destruct c | intros; apply only_ret]. }
  sys_step (only_syscall (sk_setsockopt s SOL_SOCKET SO_REUSEADDR one)) a1 s1.
  sys_step (only_syscall (sk_setsockopt s SOL_SOCKET SO_BROADCAST one)) a2 s2.
  match goal with |- context [mbind_ (if ?b then _ else _) _ _] =>
    sys_step (Hopt b (on_sys (so_recvorigdstaddr_v4 s)) true (only_syscall _) (only_syscall _) (only_syscall _)) a3 s3
  end.
  assert (Hcode : forall (c : Z) k w1, w1 = set_usys k w -> (c = -130 \/ c = -131 \/ c = -132) ->
    exists r k l, (os_close s ;;; mret_ c) w1 = Ret r (set_usys k (set_closed (closed w ++ l) w))
    /\ (r = s /\ l = [] /\ s <> -1 \/ r = -129 /\ l = [] /\ s = -1
        \/ (r = -130 \/ r = -131 \/ r = -132) /\ l = [s] /\ s <> -1)).
  { intros c k w1 -> Hc. close_step (close_closes s). exists c. eexists. exists [s]. split; [reflexivity|]. tauto. }
  destruct (negb (a3 =? 0)); [eapply Hcode; [reflexivity | tauto]|].
  match goal with |- context [mbind_ (if ?b then _ else _) _ _] =>
    sys_step (Hopt b (on_sys (so_recvorigdstaddr_v6 s)) false (only_syscall _) (only_syscall _) (only_syscall _)) a4 s4
  end.
  destruct (negb (a4 =? 0)); [eapply Hcode; [reflexivity | tauto]|].
  sys_step (only_syscall (sk_bind s (any_ss f port))) a5 s5.
  destruct (a5 =? -1); [eapply Hcode; [reflexivity | tauto]|].
  exists s, s5, []. rewrite <- Hnil. split; [reflexivity|]. tauto.
Qed.
End sockets.

(** ** The theorems on a concrete kernel *)

Lemma pool_reads_in_order_witness :
  let d := mkDatagram zero_ss zero_ss None false [[1; 2; 3]; []; [4]; []; []] in
  let w := set_dgrams {[dkey (-5) := d]} (sim_world []) in
  exists q, pool_reads (-5) [2; 9] w = Ret [[1; 2]; [3]] (pool_after (-5) d q w)
    /\ pkts q = [[4]] /\ length q = 5%nat /\ concat [[1; 2]; [3]] ++ concat q = [1; 2; 3; 4]
    /\ (-5 ∈ in_virt_set (pool_after (-5) d q w) <-> [[4]] <> []).
Proof.
  intros d w. apply (pool_reads_in_order w (-5) d [2; 9]); [reflexivity | by vm_compute | repeat constructor; lia | done | reflexivity].
Defined.

Lemma shared_socket_closed_witness :
  let w := mkU ∅ ∅ {[ [1] := (12, 2) ]} (u_my_key (Some [1]) (sim_com true)) [] (mkSim [] 0) in
  exists w', shutdown 12 w = Ret tt w' /\ closed w' = [12] /\ conns w' !! [1] = Some (12, 1)
    /\ (forall k', k' <> [1] -> conns w' !! k' = conns w !! k').
Proof. intros w. apply (shared_socket_closed w 12 2 [1]); done. Defined.

Lemma plain_connects_clash_witness :
  exists w1 w2 w3 w4,
    connect false [1] [5] (set_ucom (sim_com false) (sim_world [])) = Ret 10 w1 /\
    connect false [2] [5] (set_ucom (sim_com false) w1) = Ret 11 w2 /\
    shutdown 10 (set_ucom (ucom w1) w2) = Ret tt w3 /\ closed w3 = closed w2 ++ [11]
    /\ shutdown 11 (set_ucom (ucom w2) w3) = Ret tt w4 /\ closed w4 = closed w2 ++ [11; 11].
Proof.
  destruct (connect false [1] [5] (set_ucom (sim_com false) (sim_world []))) as [fa w1 | |] eqn:E1; [|vm_compute in E1; discriminate E1..].
  assert (Ha : fa = 10) by (apply (f_equal (fun o => match o with Ret a _ => a | _ => 0 end)) in E1; vm_compute in E1; done). subst fa.
  destruct (connect false [2] [5] (set_ucom (sim_com false) w1)) as [fb w2 | |] eqn:E2.
  - assert (Hb : fb = 11).
    { apply (f_equal (fun o => match o with Ret _ w => w | _ => w1 end)) in E1. rewrite <- E1 in E2.
      apply (f_equal (fun o => match o with Ret a _ => a | _ => 0 end)) in E2. vm_compute in E2. done. }
    subst fb. exists w1, w2.
    destruct (plain_connects_clash false [1] [5] [2] [5] (sim_com false) (sim_com false) (sim_world []) 10 11 w1 w2
      eq_refl eq_refl eq_refl eq_refl ltac:(lia) ltac:(lia) E1 E2) as (w3 & w4 & H).
    exists w3, w4. split; [done|]. split; [exact E2 | exact H].
  - apply (f_equal (fun o => match o with Ret _ w => w | _ => w1 end)) in E1. rewrite <- E1 in E2. vm_compute in E2. discriminate E2.
  - apply (f_equal (fun o => match o with Ret _ w => w | _ => w1 end)) in E1. rewrite <- E1 in E2. vm_compute in E2. discriminate E2.
Defined.
