(* ===== verification/ReceiverProps.v ===== *)
(** * ReceiverProps: from the catch-all socket to the reads of a session's own com *)

From stdpp Require Import gmap.
From S2P Require Export Receiver.
From S2P Require Import SockInfoProps UdpProps FdqProps SockSim.

Opaque zlen ztake zdrop.

(** ** What the receiver relies on of its socket

    [pending] is what waits on the catch-all socket [sock]: sender, control messages and data of
    each datagram, oldest first.  Peeking does not consume, reading consumes one datagram, and the
    calls made for other descriptors, which work, do not touch it. *)
Class RecvOk `{!SockSys} `{!UdpSys} `{!RecvSys} (sock : Z) : Type := {
  pending : sk -> list (bytes * list (Z * Z * bytes) * bytes);
  recvmsg_peek : forall s, pending (rs_recvmsg sock MSG_PEEK s).2 = pending s
    /\ match pending s with
       | [] => True
       | (from, cm, data) :: _ => exists len, 0 <= len /\ (rs_recvmsg sock MSG_PEEK s).1 = (len, from, cm)
       end;
  recv_takes : forall n s from cm data ds, pending s = (from, cm, data) :: ds ->
    pending (us_recv sock n 0 s).2 = ds
    /\ (us_recv sock n 0 s).1 = (zlen (ztake n data), ztake n data);
  recv_peek : forall n s,
    pending (us_recv sock n (Z.lor O_NONBLOCK MSG_PEEK) s).2 = pending s
    /\ (us_recv sock n (Z.lor O_NONBLOCK MSG_PEEK) s).1.1
       = match pending s with [] => -1 | d :: _ => zlen (ztake n d.2) end;
  socket_works : forall f t p s, pending (sk_socket f t p s).2 = pending s
    /\ 0 <= (sk_socket f t p s).1 /\ (sk_socket f t p s).1 <> sock;
  others_work : forall fd, fd <> sock -> forall s,
    (forall l o v, pending (sk_setsockopt fd l o v s).2 = pending s /\ (sk_setsockopt fd l o v s).1 = 0)
    /\ pending (sk_getfl fd s).2 = pending s
    /\ (forall v, pending (sk_setfl fd v s).2 = pending s /\ 0 <= (sk_setfl fd v s).1)
    /\ (forall a, pending (sk_bind fd a s).2 = pending s /\ (sk_bind fd a s).1 = 0)
    /\ (forall a, pending (sk_connect fd a s).2 = pending s /\ (sk_connect fd a s).1 = 0)
}.

Section receiver.
Context {IN : Inet} {INO : InetOk} {SK : SockSys} {PS : PeerSys} {US : UdpSys} {RS : RecvSys} {FS : Fdq.FdSys}.
Context (sock : Z) {RO : RecvOk sock}.

(** [m] returns with [Q] and leaves the waiting datagrams alone. *)
Definition calm {A} (m : M sk A) (Q : A -> Prop) : Prop :=
  forall s, exists a s', m s = Ret a s' /\ pending s' = pending s /\ Q a.

Lemma calm_bind {A B} (m : M sk A) (k : A -> M sk B) Q R :
  calm m Q -> (forall a, Q a -> calm (k a) R) -> calm (mbind_ m k) R.
Proof.
  intros Hm Hk s. destruct (Hm s) as (a & s1 & E & Hp & Ha). destruct (Hk a Ha s1) as (b & s2 & E2 & Hp2 & Hb).
  exists b, s2. rewrite (bind_ret _ _ _ _ _ E). split; [done|]. split; [congruence|done].
Qed.

Lemma calm_ret {A} (a : A) (Q : A -> Prop) : Q a -> calm (mret_ a) Q.
Proof. intros HQ s. by exists a, s. Qed.

Lemma calm_syscall f (Q : Z -> Prop) :
  (forall s, pending (f s).2 = pending s /\ Q (f s).1) -> calm (syscall f) Q.
Proof.
  intros H s. destruct (H s) as [Hp HQ]. unfold syscall. destruct (f s) as [r s']. by exists r, s'.
Qed.

Lemma calm_must f : (forall s, pending (f s).2 = pending s /\ (f s).1 = 0) -> calm (must f) (fun _ => True).
Proof.
  intros H. apply calm_bind with (Q := fun r => r = 0); [by apply calm_syscall|].
  intros r ->. by apply calm_ret.
Qed.

Lemma calm_when b m : calm m (fun _ => True) -> calm (when b m) (fun _ => True).
Proof. intros H. destruct b; [done | by apply calm_ret]. Qed.

Lemma calm_setsockopt fd l o v : fd <> sock -> calm (must (sk_setsockopt fd l o v)) (fun _ => True).
Proof. intros Hf. apply calm_must. intros s. by apply others_work. Qed.

(** Making the socket of a session works for addresses of the two families. *)
Lemma create_left_calm i :
  family (si_src i) = AF_INET \/ family (si_src i) = AF_INET6 ->
  calm (create_socket_left i SOCK_DGRAM) (fun _ => True).
Proof.
  intros Hfam. unfold create_socket_left, socket_create.
  assert (Hm : forall fd, fd <> sock -> forall l o v, calm (must (sk_setsockopt fd l o v)) (fun _ => True))
    by (intros; by apply calm_setsockopt).
  apply calm_bind with (Q := fun fd => fd <> sock).
  - apply calm_bind with (Q := fun fd => 0 <= fd /\ fd <> sock).
    { apply calm_syscall. intros s. by apply socket_works. }
    intros fd [Hfd Hne]. apply calm_bind with (Q := fun _ => True).
    { assert (E : (fd <? 0) = false) by lia. rewrite E. by apply calm_ret. }
    intros _ _. do 3 (apply calm_bind with (Q := fun _ => True); [by apply Hm|]; intros _ _).
    apply calm_bind with (Q := fun _ => True).
    { apply calm_syscall. intros s. split; [|done]. by apply (others_work fd Hne). }
    intros fl _. apply calm_bind with (Q := fun _ => True); [|intros _ _; by apply calm_ret].
    apply calm_when. apply calm_bind with (Q := fun r => 0 <= r).
    { apply calm_syscall. intros s. by apply (others_work fd Hne). }
    intros r Hr. assert (E : (r <? 0) = false) by lia. rewrite E. by apply calm_ret.
  - intros fd Hne. apply calm_bind with (Q := fun _ => True).
    { unfold socket_transparent. destruct Hfam as [-> | ->]; by apply Hm. }
    intros _ _. apply calm_bind with (Q := fun _ => True); [|intros _ _; by apply calm_ret].
    unfold plug_socket. apply calm_bind with (Q := fun _ => True); [apply calm_when; by apply Hm|].
    intros _ _. apply calm_bind with (Q := fun _ => True).
    { apply calm_must. intros s. by apply (others_work fd Hne). }
    intros _ _. apply calm_bind with (Q := fun _ => True).
    { apply calm_must. intros s. by apply (others_work fd Hne). }
    intros _ _. apply calm_when. by apply Hm.
Qed.

(** ** The pool as queues of packets by session *)

(** A queue that holds the packets [ps], first slots first. *)
Definition packed (q ps : list bytes) : Prop :=
  Forall (fun p => p <> []) ps /\ (length ps <= rx_slots)%nat /\ q = ps ++ replicate (rx_slots - length ps) [].

Lemma packed_empty : packed empty_rx [].
Proof. repeat split; [constructor | cbn; lia]. Qed.

Lemma enqueue_skip data ps r :
  Forall (fun p => p <> []) ps -> (enqueue data (ps ++ r)).2 = ps ++ (enqueue data r).2.
Proof.
  induction ps as [|p ps IH]; intros H; [done|]. inversion_clear H as [|? ? Hp Hr]. cbn.
  destruct p; [done|]. rewrite <- IH by done. by destruct (enqueue data (ps ++ r)).
Qed.

Lemma enqueue_packed data q ps :
  packed q ps -> data <> [] -> packed (enqueue data q).2 (take rx_slots (ps ++ [data])).
Proof.
  intros (Hne & Hl & ->) Hd. rewrite enqueue_skip by done.
  destruct (decide (length ps = rx_slots)) as [E|E].
  - rewrite E, Nat.sub_diag. cbn [replicate enqueue snd]. rewrite take_app_le, take_ge by lia.
    split; [done|]. split; [lia|]. by rewrite E, Nat.sub_diag.
  - rewrite take_ge by (rewrite length_app; cbn; lia).
    assert (El : (rx_slots - length ps = S (rx_slots - length (ps ++ [data])))%nat)
      by (rewrite length_app; cbn [length]; lia).
    rewrite El. cbn [replicate enqueue snd]. split; [apply Forall_app; by split; [|constructor]|].
    split; [rewrite length_app; cbn; lia|]. by rewrite <- app_assoc.
Qed.

Lemma packed_pkts q ps : packed q ps -> pkts q = ps.
Proof.
  intros (Hne & _ & ->). unfold pkts. rewrite filter_app.
  assert (Hr : forall n, filter (fun r : bytes => r <> []) (replicate n []) = []).
  { induction n as [|n IH]; [done|]. cbn [replicate]. rewrite filter_cons. by rewrite IH. }
  rewrite Hr, app_nil_r. induction Hne as [|p ps Hp _ IH]; [done|]. rewrite filter_cons_True by done. by rewrite IH.
Qed.

(** Datagrams of the sessions filed one by one: the first five of each are kept, and a session that
    was not there is announced. *)
Fixpoint file (kds : list (Z * bytes)) (T : gmap Z (list bytes)) : gmap Z (list bytes) * list Z :=
  match kds with
  | [] => (T, [])
  | (k, data) :: kds =>
      match T !! k with
      | Some ps => file kds (<[k := take rx_slots (ps ++ [data])]> T)
      | None => let '(T', ks) := file kds (<[k := [data]]> T) in (T', k :: ks)
      end
  end.

Definition files (T : gmap Z (list bytes)) (u : uworld) : Prop :=
  forall k, match T !! k, datagrams_received u !! k with
            | Some ps, Some d => packed (rx_queue d) ps
            | None, None => True
            | _, _ => False
            end.

(** A waiting datagram the receiver can use: its session key and its data. *)
Definition arrives (d : bytes * list (Z * Z * bytes) * bytes) (kd : Z * bytes) : Prop :=
  exists i, process_anc_data (put_at 0 d.1.1 zero_ss) d.1.2 = Some i
    /\ (family (si_src i) = AF_INET \/ family (si_src i) = AF_INET6)
    /\ kd.1 = (create_session_key i true).1 /\ kd.2 = d.2 /\ d.2 <> [] /\ zlen d.2 <= buff_sz.

Lemma files_put T u u' k d ps :
  files T u -> datagrams_received u' = <[k := d]> (datagrams_received u) -> packed (rx_queue d) ps ->
  files (<[k := ps]> T) u'.
Proof.
  intros H E Hp k'. rewrite E. destruct (decide (k' = k)) as [->|Hne].
  - by rewrite !lookup_insert_eq.
  - rewrite !lookup_insert_ne by done. apply H.
Qed.

Lemma key_family i negative :
  family (si_src (create_session_key i negative).2) = family (si_src i).
Proof. cbn. unfold ensure_packed. by destruct (ss (si_src i)). Qed.

Lemma on_q_push s r : exists n q, hint_push_all s r = Ret n (mkRx (rx_u r) q (monitored r)) /\ Fdq.sq_ q = s :: Fdq.sq_ (rx_q r).
Proof.
  unfold hint_push_all, on_q, Fdq.push_all. rewrite bind_modify, bind_gets.
  set (q0 := Fdq.set_sq (s :: Fdq.sq_ (rx_q r)) (rx_q r)).
  destruct (summon_total (zlen (Fdq.hint_pairs_ q0) `div` 2) 0 (Fdq.candidates (Fdq.hint_pairs_ q0)) q0) as (q' & E & Hs).
  rewrite (bind_ret _ _ _ _ _ E). by eexists _, q'.
Qed.

Lemma put_entry_bind {B} k d (kk : unit -> M rworld B) r :
  mbind_ (put_entry k d) kk r
  = kk tt (mkRx (set_dgrams (<[k := d]> (datagrams_received (rx_u r))) (rx_u r)) (rx_q r) (monitored r)).
Proof. done. Qed.

(** One datagram of the session [k]. *)
Lemma add_first_spec r T i from cm data ds k :
  pending (usys (rx_u r)) = (from, cm, data) :: ds -> files T (rx_u r) -> em_id (ucom (rx_u r)) = 0 -> 0 <= sock ->
  (family (si_src i) = AF_INET \/ family (si_src i) = AF_INET6) ->
  k = (create_session_key i true).1 -> data <> [] -> zlen data <= buff_sz ->
  exists n r', add_first_datagrams sock i r = Ret n r' /\ 0 <= n
    /\ pending (usys (rx_u r')) = ds /\ ucom (rx_u r') = ucom (rx_u r)
    /\ in_virt_set (rx_u r') = {[s32 k]} ∪ in_virt_set (rx_u r)
    /\ match T !! k with
       | Some ps => files (<[k := take rx_slots (ps ++ [data])]> T) (rx_u r') /\ rx_q r' = rx_q r
       | None => files (<[k := [data]]> T) (rx_u r') /\ Fdq.sq_ (rx_q r') = s32 k :: Fdq.sq_ (rx_q r)
       end.
Proof.
  intros Hpend HT Hem Hsock Hfam Hk Hne Hlen. unfold add_first_datagrams.
  destruct (create_session_key i true) as [key i'] eqn:Hkey. cbn in Hk. subst key.
  assert (Hfam' : family (si_src i') = AF_INET \/ family (si_src i') = AF_INET6).
  { pose proof (key_family i true) as H. rewrite Hkey in H. cbn in H. by rewrite H. }
  unfold find_entry at 1. rewrite bind_gets. cbv zeta. set (o := datagrams_received (rx_u r) !! k).
  set (ps := default [] (T !! k)).
  assert (Ho : packed (rx_queue (default (create_new_entry i') o)) ps /\ (o = None <-> T !! k = None)).
  { specialize (HT k). fold o in HT. unfold ps. destruct (T !! k), o; try done. split; [apply packed_empty | done]. }
  destruct Ho as [Hpk Hiff]. set (e := default (create_new_entry i') o) in *.
  (* the entry is there when the datagram is read *)
  set (u1 := set_dgrams (<[k := e]> (datagrams_received (rx_u r))) (rx_u r)).
  assert (Hput : forall B (kk : M rworld B),
    (when match o with Some _ => false | None => true end (put_entry k e) ;;; kk) r = kk (mkRx u1 (rx_q r) (monitored r))).
  { intros B kk. destruct o as [d|] eqn:Eo; unfold when.
    - rewrite bind_pure. f_equal. unfold u1. cbn in e. rewrite insert_id by exact Eo. destruct r as [[] ? ?]. done.
    - unfold put_entry, on_u. done. }
  rewrite Hput. clear Hput.
  destruct (recv_takes buff_sz (usys (rx_u r)) from cm data ds Hpend) as [Hpend' Hval].
  destruct (us_recv sock buff_sz 0 (usys (rx_u r))) as [v s1] eqn:Hrecv. cbn in Hpend', Hval. subst v.
  rewrite ztake_ge in Hrecv by done.
  assert (Hread : on_u (read sock buff_sz 0) (mkRx u1 (rx_q r) (monitored r))
    = Ret (zlen data, data) (mkRx (set_usys s1 u1) (rx_q r) (monitored r))).
  { unfold on_u, read. rewrite bind_gets. cbn [rx_u ucom u1 set_dgrams]. rewrite Hem. cbn [negb Z.eqb andb].
    assert (E : (sock <? 0) = false) by lia. rewrite E. unfold recv, on_sys. cbn [usys u1 set_dgrams].
    by rewrite Hrecv. }
  rewrite (bind_ret _ _ _ _ _ Hread). cbv beta iota. pose proof (zlen_nonneg data).
  assert (E : (zlen data <? 0) = false) by lia. rewrite E. unfold find_entry at 1. rewrite bind_gets.
  cbn [rx_u datagrams_received set_usys u1 set_dgrams]. rewrite lookup_insert_eq. change (default e (Some e)) with e.
  pose proof (enqueue_packed data _ _ Hpk Hne) as Hpk'. destruct (enqueue data (rx_queue e)) as [enk q]. cbn in Hpk'.
  rewrite put_entry_bind. cbn [rx_u rx_q monitored].
  match goal with |- context [set_dgrams ?m ?u] => set (u2 := set_dgrams m u) end.
  assert (Hu2 : datagrams_received u2 = <[k := set_rx q e]> (datagrams_received (rx_u r))).
  { unfold u2. cbn. by rewrite insert_insert_eq. }
  destruct o as [d|] eqn:Eo; unfold when.
  - rewrite bind_pure. unfold on_u, mbind_, modify, mret_. eexists _, _. split; [reflexivity|]. cbn [rx_u].
    split; [lia|]. split; [done|]. split; [done|]. split; [done|].
    destruct (T !! k) as [ps'|] eqn:Et; [|by destruct Hiff as [_ Hc]; specialize (Hc eq_refl)].
    split; [|done]. eapply files_put; [done | exact Hu2 | done].
  - destruct (create_left_calm i' Hfam' s1) as ([fd_left i2] & s2 & Eleft & Hp2 & _).
    assert (Hleft : on_u (on_sys (create_socket_left i' SOCK_DGRAM)) (mkRx u2 (rx_q r) (monitored r))
      = Ret (fd_left, i2) (mkRx (set_usys s2 u2) (rx_q r) (monitored r))).
    { unfold on_u, on_sys. change (usys (rx_u {| rx_u := u2; rx_q := rx_q r; monitored := monitored r |})) with s1.
      by rewrite Eleft. }
    rewrite bind_assoc, (bind_ret _ _ _ _ _ Hleft). cbv beta iota. rewrite bind_assoc.
    rewrite put_entry_bind, bind_assoc.
    match goal with |- context [mbind_ (hint_push_all ?x) _ ?r3] =>
      destruct (on_q_push x r3) as (n & q3 & E3 & Hq3); rewrite (bind_ret _ _ _ _ _ E3) end.
    rewrite bind_pure. unfold on_u, mbind_, modify, mret_. eexists _, _. split; [reflexivity|]. cbn [rx_u rx_q] in *.
    split; [lia|]. split; [cbn; congruence|]. split; [done|]. split; [done|].
    destruct Hiff as [Hc _]. unfold ps in *. rewrite (Hc eq_refl) in *. cbn [default] in *. split; [|done].
    apply (files_put T (rx_u r) _ k (set_left (Some fd_left) (set_rx q e))); [exact HT | | exact Hpk']. cbn. by rewrite !insert_insert_eq.
Qed.

Definition filed (T : gmap Z (list bytes)) (k : Z) (data : bytes) : gmap Z (list bytes) :=
  <[k := match T !! k with Some ps => take rx_slots (ps ++ [data]) | None => [data] end]> T.
Definition announced (T : gmap Z (list bytes)) (k : Z) : list Z := match T !! k with Some _ => [] | None => [k] end.

Lemma file_cons k data kds T :
  file ((k, data) :: kds) T = ((file kds (filed T k data)).1, announced T k ++ (file kds (filed T k data)).2).
Proof.
  unfold filed, announced. cbn [file]. destruct (T !! k); [by destruct (file kds _)|].
  by destruct (file kds (<[k:=[data]]> T)).
Qed.

(** The state [r'] is [r] with the sessions [ks] announced and the pool [T]. *)
Definition taken_in (T : gmap Z (list bytes)) (ks : list Z) (r r' : rworld) : Prop :=
  ucom (rx_u r') = ucom (rx_u r) /\ files T (rx_u r')
  /\ Fdq.sq_ (rx_q r') = reverse (s32 <$> ks) ++ Fdq.sq_ (rx_q r)
  /\ in_virt_set (rx_u r) ⊆ in_virt_set (rx_u r').

(** One turn of the receiver's loop. *)
Lemma turn_files r T d k data ds :
  pending (usys (rx_u r)) = d :: ds -> arrives d (k, data) -> Forall (fun d => d.2 <> []) ds ->
  files T (rx_u r) -> em_id (ucom (rx_u r)) = 0 -> 0 <= sock ->
  exists r', new_raw_turn sock r = Ret (negb (bool_decide (ds = []))) r' /\ pending (usys (rx_u r')) = ds
    /\ taken_in (filed T k data) (announced T k) r r' /\ s32 k ∈ in_virt_set (rx_u r').
Proof.
  destruct d as [[from cm] data']. intros Hp (i & Hi & Hfam & Hk & Hdata & Hdne & Hlen) Hds HT Hem Hsock.
  cbn [fst snd] in *. subst data'. unfold new_raw_turn.
  destruct (recvmsg_peek (usys (rx_u r))) as [Hpk Hval]. rewrite Hp in Hval. destruct Hval as (len & Hl0 & Hval).
  assert (Hrm : recvmsg sock MSG_PEEK r
    = Ret (len, from, cm) (mkRx (set_usys (rs_recvmsg sock MSG_PEEK (usys (rx_u r))).2 (rx_u r)) (rx_q r) (monitored r))).
  { unfold recvmsg, on_u, on_sys. destruct (rs_recvmsg sock MSG_PEEK (usys (rx_u r))) as [v s1]. cbn in Hval. by subst v. }
  rewrite (bind_ret _ _ _ _ _ Hrm). cbv beta iota. assert (E : (len <? 0) = false) by lia. rewrite E, Hi.
  match type of Hrm with _ = Ret _ ?x => set (r1 := x) in * end.
  assert (Hp1 : pending (usys (rx_u r1)) = (from, cm, data) :: ds) by (cbn; congruence).
  destruct (add_first_spec r1 T i from cm data ds k Hp1 HT Hem Hsock Hfam Hk Hdne Hlen)
    as (n & r2 & Eadd & Hn & Hp2 & Hu2 & Hv2 & HT2).
  assert (Ecatch : catch_socket (add_first_datagrams sock i) r1 = Ret n r2) by (unfold catch_socket; by rewrite Eadd).
  rewrite (bind_ret _ _ _ _ _ Ecatch). assert (En : (n <? 0) = false) by lia. rewrite En.
  destruct (recv_peek 32 (usys (rx_u r2))) as [Hpk2 Hval2]. rewrite Hp2 in Hval2.
  assert (Hrc : exists b, on_u (recv sock 32 (Z.lor O_NONBLOCK MSG_PEEK)) r2
    = Ret ((us_recv sock 32 (Z.lor O_NONBLOCK MSG_PEEK) (usys (rx_u r2))).1.1, b)
        (mkRx (set_usys (us_recv sock 32 (Z.lor O_NONBLOCK MSG_PEEK) (usys (rx_u r2))).2 (rx_u r2)) (rx_q r2) (monitored r2))).
  { unfold on_u, recv, on_sys. destruct (us_recv sock 32 _ (usys (rx_u r2))) as [[l b] s1]. by exists b. }
  destruct Hrc as [b Hrc]. rewrite (bind_ret _ _ _ _ _ Hrc). cbv beta iota. rewrite Hval2. unfold mret_.
  eexists. split; [f_equal|].
  { destruct ds as [|d ds]; [done|]. cbn. apply Forall_inv in Hds. apply Z.ltb_lt.
    destruct (d.2) as [|x l] eqn:Ed2; [done|]. pose proof (zlen_nonneg l).
    destruct (decide (zlen (x :: l) <= 32)); [rewrite ztake_ge by lia; rewrite zlen_cons; lia|].
    rewrite zlen_ztake; lia. }
  split; [cbn; congruence|]. split; [|cbn; rewrite Hv2; set_solver].
  split; [exact Hu2|]. unfold filed, announced. split; [destruct (T !! k); by destruct HT2|].
  split; [cbn [rx_q]; destruct (T !! k); destruct HT2 as [_ Hq]; by rewrite Hq|].
  cbn. rewrite Hv2. set_solver.
Qed.

(** The loop files everything that waits. *)
Lemma intake_files fuel kds r T :
  pending (usys (rx_u r)) <> [] -> Forall2 arrives (pending (usys (rx_u r))) kds ->
  files T (rx_u r) -> em_id (ucom (rx_u r)) = 0 -> 0 <= sock ->
  (length (pending (usys (rx_u r))) <= fuel)%nat ->
  exists r', on_left_new_raw fuel sock r = Ret tt r' /\ pending (usys (rx_u r')) = []
    /\ taken_in (file kds T).1 (file kds T).2 r r'
    /\ (forall kd, kd ∈ kds -> s32 kd.1 ∈ in_virt_set (rx_u r')).
Proof.
  revert kds r T. induction fuel as [|fuel IH]; intros kds r T Hne Har HT Hem Hsock Hfuel.
  { destruct (pending (usys (rx_u r))); [done | cbn in Hfuel; lia]. }
  destruct (pending (usys (rx_u r))) as [|d ds] eqn:Hp; [done|].
  inversion Har as [|? [k data] ? kds' Hd Hds]; subst. clear Har.
  assert (Hdne : Forall (fun d => d.2 <> []) ds).
  { apply Forall_lookup. intros i x Hx. destruct (Forall2_lookup_l _ _ _ _ _ Hds Hx) as (y & _ & z & Hz). by apply Hz. }
  destruct (turn_files r T d k data ds Hp Hd Hdne HT Hem Hsock) as (r1 & E1 & Hp1 & (Hu1 & HT1 & Hq1 & Hv1) & Hk1).
  cbn [on_left_new_raw]. rewrite (bind_ret _ _ _ _ _ E1), file_cons. cbn [fst snd].
  destruct ds as [|d' ds'] eqn:Ed; cbn [bool_decide negb].
  - inversion Hds; subst. unfold mret_. exists r1. rewrite bool_decide_true by done. cbn [file fst snd]. rewrite app_nil_r.
    split; [done|]. split; [done|]. split; [done|]. intros kd Hin. apply list_elem_of_singleton in Hin. by subst kd.
  - rewrite bool_decide_false by done. cbn [negb]. rewrite <- Ed in *. destruct (IH kds' r1 (filed T k data)) as (r' & Er & Hpr & (Hur & HTr & Hqr & Hvr) & Hkr).
    { rewrite Hp1. by subst ds. } { by rewrite Hp1. } { done. } { by rewrite Hu1. } { done. } { rewrite Hp1. cbn in *. lia. }
    exists r'. split; [done|]. split; [done|]. split.
    + split; [by rewrite Hur|]. split; [done|]. split; [|set_solver].
      by rewrite Hqr, Hq1, fmap_app, reverse_app, app_assoc.
    + intros kd Hin. apply elem_of_cons in Hin. destruct Hin as [->|Hin]; [cbn; set_solver | by apply Hkr].
Qed.

(** ** What the files of a pool hold *)

(** The datagrams of session [k] among those that arrived. *)
Definition session_data (k : Z) (kds : list (Z * bytes)) : list bytes := snd <$> filter (fun kd => kd.1 = k) kds.

Lemma session_data_cons k k' data kds :
  session_data k ((k', data) :: kds) = if decide (k' = k) then data :: session_data k kds else session_data k kds.
Proof. unfold session_data. rewrite filter_cons. cbn. by destruct (decide (k' = k)). Qed.

Lemma session_data_has k kds : k ∈ kds.*1 -> session_data k kds <> [].
Proof.
  induction kds as [|[k' data] kds IH]; intros H; [by apply elem_of_nil in H|].
  rewrite session_data_cons. rewrite fmap_cons in H. cbn [fst] in H. destruct (decide (k' = k)) as [->|Hne]; [done|].
  apply IH. apply elem_of_cons in H. by destruct H as [->|H].
Qed.

Lemma session_data_Forall (P : bytes -> Prop) k kds : Forall (fun kd => P kd.2) kds -> Forall P (session_data k kds).
Proof.
  induction 1 as [|[k' data] kds Hp _ IH]; [constructor|]. rewrite session_data_cons.
  destruct (decide (k' = k)); [by constructor | done].
Qed.

Definition held (o : option (list bytes)) : list bytes := match o with Some ps => ps | None => [] end.

Lemma take_filed (ps : list bytes) x l :
  (length ps <= rx_slots)%nat -> take rx_slots (take rx_slots (ps ++ [x]) ++ l) = take rx_slots (ps ++ x :: l).
Proof.
  intros Hl. destruct (decide (length ps = rx_slots)) as [E|E].
  - rewrite !take_app_le by (rewrite ?length_take, ?length_app; cbn [length]; lia).
    by rewrite take_take, Nat.min_id.
  - rewrite (take_ge (ps ++ [x])) by (rewrite length_app; cbn [length]; lia). by rewrite <- app_assoc.
Qed.

Lemma file_lookup kds T k :
  (length (held (T !! k)) <= rx_slots)%nat ->
  (file kds T).1 !! k = match T !! k, session_data k kds with
                        | None, [] => None
                        | o, l => Some (take rx_slots (held o ++ l))
                        end.
Proof.
  revert T. induction kds as [|[k' data] kds IH]; intros T Hl.
  - cbn. destruct (T !! k) as [ps|]; [|done]. cbn in Hl |- *. by rewrite app_nil_r, take_ge by done.
  - rewrite file_cons. cbn [fst]. rewrite session_data_cons. unfold filed.
    destruct (decide (k' = k)) as [->|Hne]; [|by rewrite IH; rewrite lookup_insert_ne].
    destruct (T !! k) as [ps|] eqn:Et; rewrite IH; rewrite lookup_insert_eq; cbn [held app] in *.
    + by rewrite take_filed.
    + rewrite length_take. lia.
    + done.
    + cbn. unfold rx_slots. lia.
Qed.

(** The sessions in the order of their first datagrams. *)
Fixpoint firsts (ks : list Z) : list Z :=
  match ks with [] => [] | k :: ks => k :: filter (fun j => j <> k) (firsts ks) end.

Lemma firsts_spec ks : NoDup (firsts ks) /\ forall k, k ∈ firsts ks <-> k ∈ ks.
Proof.
  induction ks as [|k ks [Hnd Hel]]; cbn [firsts]; [split; [constructor|done]|]. split.
  - constructor; [|by apply NoDup_filter]. rewrite list_elem_of_filter. by intros [? _].
  - intros j. rewrite !elem_of_cons, list_elem_of_filter, Hel. destruct (decide (j = k)); tauto.
Qed.

(** A key is announced when its first datagram is filed, in the order of the datagrams. *)
Lemma announced_firsts kds T : (file kds T).2 = filter (fun k => T !! k = None) (firsts kds.*1).
Proof.
  revert T. induction kds as [|[k data] kds IH]; intros T; [done|]. rewrite file_cons. cbn [snd fmap list_fmap fst firsts].
  rewrite IH. unfold announced, filed. rewrite filter_cons, list_filter_filter.
  destruct (T !! k) as [ps|] eqn:Et; [rewrite decide_False by done|rewrite decide_True by done; cbn [app]; f_equal];
    apply list_filter_iff; intros j; destruct (decide (j = k)) as [->|Hne];
    rewrite ?lookup_insert_eq, ?lookup_insert_ne by done; split; try tauto; try (intros [? ?]; congruence); congruence.
Qed.

(** ** Reads of the session's own com *)

Fixpoint com_reads (fd : Z) (ns : list Z) : M uworld (list bytes) :=
  match ns with
  | [] => mret_ []
  | n :: ns => let! (_, b) := read fd n 0 in r <- com_reads fd ns ;; mret_ (b :: r)
  end.

Lemma dkey_s32 k : 2 ^ 31 <= k < 2 ^ 32 -> dkey (s32 k) = k /\ s32 k < 0.
Proof.
  intros Hk. change (2 ^ 31) with 2147483648 in Hk. change (2 ^ 32) with 4294967296 in Hk.
  assert (E : s32 k = k - 4294967296).
  { unfold wraps. change (2 ^ 32) with 4294967296. change (2 ^ (32 - 1)) with 2147483648.
    replace (k + 2147483648) with (k - 2147483648 + 1 * 4294967296) by lia.
    rewrite Z.mod_add, Z.mod_small by lia. lia. }
  rewrite E. split; [|lia]. unfold dkey, wrapu. change (2 ^ 32) with 4294967296.
  replace (k - 4294967296) with (k + (-1) * 4294967296) by lia. rewrite Z.mod_add, Z.mod_small by lia. lia.
Qed.

Lemma com_reads_chop w fd k d ns :
  2 ^ 31 <= k < 2 ^ 32 -> em_id (ucom w) = k -> pool_depleted (ucom w) = false ->
  datagrams_received w !! k = Some d -> queue_bytes (rx_queue d) < 2 ^ 31 -> Forall (fun n => 0 < n < 2 ^ 31) ns ->
  length (chop ns (pkts (rx_queue d))).1 = length ns ->
  exists w', com_reads fd ns w = Ret (chop ns (pkts (rx_queue d))).1 w'.
Proof.
  intros Hk. destruct (dkey_s32 k Hk) as [Hdk Hneg]. revert w d.
  induction ns as [|n ns IH]; intros w d Hem Hpd Hd Hsz Hns Hl; [by exists w|].
  inversion_clear Hns as [|? ? Hn Hns']. destruct (pkts (rx_queue d)) as [|p ps] eqn:Hp; [done|].
  cbn [chop] in *. destruct (chop ns _) as [out rest] eqn:Hc. cbn [fst length] in *.
  rewrite <- Hdk in Hd. destruct (read_from_pool_spec w (s32 k) n 0 d p ps Hn Hsz Hd Hp) as (q & Hr & _ & Hleq & Hpq).
  change (Z.testbit 0 1) with false in *. cbn match in *. fold (pool_after (s32 k) d q w) in Hr.
  set (w1 := pool_after (s32 k) d q w) in *. rewrite Hdk in Hd.
  assert (Hd1 : datagrams_received w1 !! k = Some (set_rx q d)).
  { unfold w1, pool_after. cbn. by rewrite Hdk, lookup_insert_eq. }
  assert (Hread : exists w2, read fd n 0 w = Ret (zlen (ztake n p), ztake n p) w2
            /\ (pkts q <> [] -> w2 = w1)).
  { unfold read. rewrite bind_gets, Hem, Hpd. assert (E : (k =? 0) = false) by lia. rewrite E. cbn [negb andb].
    cbv zeta. rewrite (bind_ret _ _ _ _ _ Hr), bind_gets.
    destruct (in_readset (s32 k) w1) eqn:Hin; cbn [negb when]; [by exists w1|].
    rewrite bind_assoc, bind_modify. unfold on_ucom. rewrite bind_modify. eexists. split; [reflexivity|].
    intros Hne. exfalso. unfold in_readset in Hin. assert (El : (s32 k <? 0) = true) by lia.
    rewrite El, Hdk, Hd1 in Hin. cbn [rx_queue set_rx] in Hin. rewrite pkts_none in Hne.
    pose proof (queue_bytes_pos q). assert (Eq : (0 <? queue_bytes q) = true) by lia. by rewrite Eq in Hin. }
  destruct Hread as (w2 & Hread & Hw2). cbn [com_reads]. rewrite (bind_ret _ _ _ _ _ Hread). cbv beta iota.
  rewrite <- Hpq in Hc. destruct ns as [|n' ns'].
  - cbn in Hc. injection Hc as <- <-. by exists w2.
  - assert (Hq : pkts q <> []) by (intros E; rewrite E in Hc; cbn in Hc; injection Hc as <- <-; cbn in Hl; lia).
    rewrite (Hw2 Hq). destruct (IH w1 (set_rx q d)) as (w' & Hr').
    { done. } { done. } { done. } { cbn [rx_queue set_rx]. lia. } { done. } { cbn [rx_queue set_rx]. rewrite Hc. cbn in *. lia. }
    cbn [rx_queue set_rx] in Hr'. rewrite Hc in Hr'. cbn [fst] in Hr'. exists w'. by rewrite (bind_ret _ _ _ _ _ Hr').
Qed.

(** [C11] From the catch-all socket to the session, with no early data filed yet and a network
    whose calls succeed: datagrams that wait, of whatever sessions, each of at least one and at most
    2048 bytes and with its addresses known, are all taken off the socket by one run of
    the receiver's loop; every session among them is announced to the workers exactly
    once, behind what is queued and in the order of their first datagrams; and the com made for a
    session then reads its datagrams one by one, as they arrived and complete, the first five of them. *)
Theorem early_data_delivered r kds fuel k c fd :
  pending (usys (rx_u r)) <> [] -> Forall2 arrives (pending (usys (rx_u r))) kds ->
  datagrams_received (rx_u r) = ∅ -> em_id (ucom (rx_u r)) = 0 -> 0 <= sock ->
  (length (pending (usys (rx_u r))) <= fuel)%nat ->
  k ∈ kds.*1 -> em_id c = k -> pool_depleted c = false ->
  let mine := take rx_slots (session_data k kds) in
  let ks := firsts kds.*1 in
  NoDup ks /\ (forall j, j ∈ ks <-> j ∈ kds.*1) /\
  exists r' w', on_left_new_raw fuel sock r = Ret tt r' /\ pending (usys (rx_u r')) = []
    /\ Fdq.sq_ (rx_q r') = reverse (s32 <$> ks) ++ Fdq.sq_ (rx_q r)
    /\ com_reads fd (replicate (length mine) buff_sz) (set_ucom c (rx_u r')) = Ret mine w'.
Proof.
  intros Hne Har Hempty Hem Hsock Hfuel Hk Hc Hpd mine ks. destruct (firsts_spec kds.*1) as [Hnd Hel]. split; [done|]. split; [done|].
  assert (HT : files ∅ (rx_u r)) by (intros j; by rewrite Hempty, !lookup_empty).
  destruct (intake_files fuel kds r ∅ Hne Har HT Hem Hsock Hfuel) as (r' & E & Hp & (Hu & HT' & Hq & _) & _).
  assert (Hfit : Forall (fun kd => zlen kd.2 <= buff_sz) kds /\ Forall (fun kd => 2 ^ 31 <= kd.1 < 2 ^ 32) kds).
  { split; apply Forall_lookup; intros i kd Hi; destruct (Forall2_lookup_r _ _ _ _ _ Har Hi) as (d & _ & j & _ & _ & Hkd & Hd & _ & Hle).
    - by rewrite Hd.
    - rewrite Hkd. apply (session_key_sign j true). }
  assert (Hkr : 2 ^ 31 <= k < 2 ^ 32).
  { destruct Hfit as [_ Hf]. apply list_elem_of_fmap in Hk. destruct Hk as (kd & -> & Hin). rewrite Forall_forall in Hf. by apply Hf. }
  assert (Hl : (file kds ∅).1 !! k = Some mine).
  { rewrite file_lookup by (rewrite lookup_empty; cbn; lia). rewrite lookup_empty. cbn [held app]. unfold mine.
    pose proof (session_data_has k kds Hk). by destruct (session_data k kds). }
  pose proof (HT' k) as Hd. rewrite Hl in Hd. destruct (datagrams_received (rx_u r') !! k) as [d|] eqn:Ed; [|done].
  apply packed_pkts in Hd.
  assert (Hchop : chop (replicate (length mine) buff_sz) (pkts (rx_queue d)) = (mine, [])).
  { rewrite Hd, chop_whole.
    - rewrite length_replicate. by rewrite take_ge, drop_ge by done.
    - apply Forall_replicate. unfold mine. apply Forall_take, session_data_Forall. by destruct Hfit. }
  destruct (com_reads_chop (set_ucom c (rx_u r')) fd k d (replicate (length mine) buff_sz) Hkr Hc Hpd Ed) as (w' & Hr).
  { rewrite queue_bytes_concat, <- concat_pkts, Hd.
    assert (Forall (fun p => zlen p <= buff_sz) mine) as Hm
      by (unfold mine; apply Forall_take, session_data_Forall; by destruct Hfit).
    assert (length mine <= 5)%nat as Hl5 by (unfold mine; rewrite length_take; unfold rx_slots; lia).
    assert (zlen (concat mine) <= Z.of_nat (length mine) * buff_sz) as Hz.
    { clear -Hm. induction Hm as [|p l Hp _ IH]; [done|]. cbn [concat length]. rewrite zlen_app. lia. }
    unfold buff_sz in *. lia. }
  { apply Forall_replicate. unfold buff_sz. lia. } { rewrite Hchop. by rewrite length_replicate. }
  rewrite Hchop in Hr. exists r', w'. split; [done|]. split; [done|]. split; [|done].
  rewrite Hq, announced_firsts. do 3 f_equal. subst ks. clear. induction (firsts kds.*1) as [|j l IH]; [done|].
  rewrite filter_cons, decide_True by apply lookup_empty. by rewrite IH.
Qed.
End receiver.

(** ** Sessions that share a key, and sessions nobody picks up *)

Section sessions.
Context {IN : Inet} {SK : SockSys} {PS : PeerSys} {US : UdpSys} {RS : RecvSys} {FS : Fdq.FdSys}.

Lemma receiver_read sock r red buff s1 :
  em_id (ucom (rx_u r)) = 0 -> 0 <= sock -> us_recv sock buff_sz 0 (usys (rx_u r)) = (red, buff, s1) ->
  on_u (read sock buff_sz 0) r = Ret (red, buff) (mkRx (set_usys s1 (rx_u r)) (rx_q r) (monitored r)).
Proof.
  intros Hem Hsock Hr. unfold on_u, read. rewrite bind_gets, Hem. cbn [negb Z.eqb andb].
  assert (E : (sock <? 0) = false) by lia. rewrite E. unfold recv, on_sys. by rewrite Hr.
Qed.

(** A datagram of a session that is there. *)
Lemma add_first_known sock i r d red buff s1 :
  let k := (create_session_key i true).1 in
  datagrams_received (rx_u r) !! k = Some d -> em_id (ucom (rx_u r)) = 0 -> 0 <= sock ->
  us_recv sock buff_sz 0 (usys (rx_u r)) = (red, buff, s1) -> 0 <= red ->
  exists r', add_first_datagrams sock i r = Ret 0 r' /\ rx_q r' = rx_q r
    /\ datagrams_received (rx_u r') !! k = Some (set_rx (enqueue buff (rx_queue d)).2 d).
Proof.
  cbv zeta. intros Hd Hem Hsock Hr Hred. unfold add_first_datagrams.
  destruct (create_session_key i true) as [k i']. cbn [fst] in Hd.
  unfold find_entry at 1. rewrite bind_gets, Hd. cbv zeta. unfold when at 1. rewrite bind_pure.
  rewrite (bind_ret _ _ _ _ _ (receiver_read sock r red buff s1 Hem Hsock Hr)). cbv beta iota.
  assert (E : (red <? 0) = false) by lia. rewrite E. unfold find_entry. rewrite bind_gets.
  cbn [rx_u datagrams_received set_usys]. rewrite Hd. change (default (default (create_new_entry i') (Some d)) (Some d)) with d.
  destruct (enqueue buff (rx_queue d)) as [enk q]. unfold put_entry, on_u, when, mbind_, modify, mret_.
  eexists. split; [reflexivity|]. split; [done|]. cbn. by rewrite lookup_insert_eq.
Qed.

(** The key of a mapped client: computed over the IPv4 fields of an IPv6 address. *)
Lemma mapped_key src dst n :
  ss_family src = AF_INET6 -> ztake 7 (inet_ntop AF_INET6 (sin6_addr src)) = mapped_prefix ->
  (create_session_key (mkSock (unpacked src) (unpacked dst)) n).1 = create_session_key4 src (default [] (ss (unpacked dst))) n.
Proof.
  intros Hf Hm. assert (Eu : unpacked src = mkAddr (Some src) AF_INET (zdrop 7 (inet_ntop AF_INET6 (sin6_addr src))) (be_value (sin_port src))).
  { unfold unpacked, addr_unpack, mbind_, get. cbn [ss]. unfold ss_address_unpack. rewrite Hf, Z.eqb_refl.
    by rewrite bool_decide_true by done. }
  assert (Hd : exists f h p, unpacked dst = mkAddr (Some dst) f h p).
  { unfold unpacked, addr_unpack, mbind_, get. cbn [ss]. destruct (ss_address_unpack dst) as [[f h] p]. by eexists _, _, _. }
  destruct Hd as (f & h & p & Ed). rewrite Eu, Ed. reflexivity.
Qed.

(** The address of a client that reaches an IPv6 catch-all socket
    over IPv4 is not part of its session key: two clients with the same source port talking to the
    same destination have one key, and the datagram of the second is queued in the session of the
    first, whose source the pool entry keeps. *)
Theorem mapped_clients_share_session sock src src' cmsgs i i' r d red buff s1 :
  ss_family src = AF_INET6 -> ztake 7 (inet_ntop AF_INET6 (sin6_addr src)) = mapped_prefix ->
  ss_family src' = AF_INET6 -> ztake 7 (inet_ntop AF_INET6 (sin6_addr src')) = mapped_prefix ->
  at_off 2 6 src = at_off 2 6 src' ->
  process_anc_data src cmsgs = Some i -> process_anc_data src' cmsgs = Some i' ->
  let k := (create_session_key i true).1 in
  datagrams_received (rx_u r) !! k = Some d -> dg_src d = src ->
  em_id (ucom (rx_u r)) = 0 -> 0 <= sock ->
  us_recv sock buff_sz 0 (usys (rx_u r)) = (red, buff, s1) -> 0 <= red ->
  (create_session_key i' true).1 = k
  /\ exists r' d', add_first_datagrams sock i' r = Ret 0 r'
       /\ datagrams_received (rx_u r') !! k = Some d' /\ dg_src d' = src
       /\ rx_queue d' = (enqueue buff (rx_queue d)).2.
Proof.
  intros Hf Hm Hf' Hm' Heq Hi Hi' k Hd Hsrc Hem Hsock Hr Hred.
  assert (Hports : sin_port src = sin_port src' /\ sin_addr src = sin_addr src').
  { unfold sin_port, sin_addr. Transparent ztake zdrop. unfold at_off, ztake, zdrop in *.
    change (Z.to_nat 2) with 2%nat in *. change (Z.to_nat 6) with 6%nat in *. change (Z.to_nat 4) with 4%nat.
    split.
    - apply (f_equal (take 2)) in Heq. rewrite !take_take in Heq. exact Heq.
    - apply (f_equal (drop 2)) in Heq. rewrite !skipn_firstn_comm, !drop_drop in Heq. exact Heq. }
  Opaque ztake zdrop.
  assert (Hkey : (create_session_key i' true).1 = k).
  { unfold k. clear -Hi Hi' Hf Hm Hf' Hm' Hports. revert Hi Hi'. induction cmsgs as [|[[l t] data] cm IH]; [done|]. cbn [process_anc_data].
    destruct (is_orig_dst l t); [|exact IH]. intros [= <-] [= <-]. rewrite !mapped_key by done.
    unfold create_session_key4. by destruct Hports as [-> ->]. }
  split; [done|]. fold k in Hd. rewrite <- Hkey in Hd.
  destruct (add_first_known sock i' r d red buff s1 Hd Hem Hsock Hr Hred) as (r' & E & _ & Hd').
  exists r'. eexists. split; [done|]. rewrite Hkey in Hd'. split; [exact Hd'|]. done.
Qed.

(** When the socket towards the client of a new session cannot
    be made, the exception leaves the pool entry behind with the datagram in it but tells no
    worker; and as the session is then there, no later datagram of it tells one either. *)
Theorem failed_socket_strands_session sock i i' key r red buff s1 s2 :
  create_session_key i true = (key, i') -> datagrams_received (rx_u r) !! key = None ->
  em_id (ucom (rx_u r)) = 0 -> 0 <= sock ->
  us_recv sock buff_sz 0 (usys (rx_u r)) = (red, buff, s1) -> 0 <= red ->
  create_socket_left i' SOCK_DGRAM s1 = Throw runtime_error s2 ->
  exists r1 d, add_first_datagrams sock i r = Throw runtime_error r1
    /\ rx_q r1 = rx_q r /\ in_virt_set (rx_u r1) = in_virt_set (rx_u r)
    /\ datagrams_received (rx_u r1) !! key = Some d /\ socket_left d = None
    /\ forall r2 d2 n b s3, datagrams_received (rx_u r2) !! key = Some d2 ->
         em_id (ucom (rx_u r2)) = 0 -> us_recv sock buff_sz 0 (usys (rx_u r2)) = (n, b, s3) -> 0 <= n ->
         exists r3, add_first_datagrams sock i r2 = Ret 0 r3 /\ rx_q r3 = rx_q r2.
Proof.
  intros Hkey Hd Hem Hsock Hr Hred Hleft.
  set (q := (enqueue buff (rx_queue (create_new_entry i'))).2).
  enough (exists r1, add_first_datagrams sock i r = Throw runtime_error r1
    /\ rx_q r1 = rx_q r /\ in_virt_set (rx_u r1) = in_virt_set (rx_u r)
    /\ datagrams_received (rx_u r1) !! key = Some (set_rx q (create_new_entry i'))) as (r1 & H1 & H2 & H3 & H4).
  { exists r1, (set_rx q (create_new_entry i')). repeat (split; [done|]).
    intros r2 d2 n b s3 Hd2 Hem2 Hr2 Hn. pose proof (add_first_known sock i r2 d2 n b s3) as H. rewrite Hkey in H.
    destruct (H Hd2 Hem2 Hsock Hr2 Hn) as (r3 & E & Hq & _). by exists r3. }
  unfold add_first_datagrams. rewrite Hkey. unfold find_entry at 1. rewrite bind_gets, Hd. cbv zeta.
  change (default (create_new_entry i') None) with (create_new_entry i'). unfold when. rewrite put_entry_bind.
  erewrite bind_ret by (apply receiver_read; done). cbv beta iota.
  assert (E : (red <? 0) = false) by lia. rewrite E. unfold find_entry. rewrite bind_gets.
  cbn [rx_u datagrams_received set_usys set_dgrams]. rewrite lookup_insert_eq.
  change (default (create_new_entry i') (Some (create_new_entry i'))) with (create_new_entry i').
  subst q. destruct (enqueue buff (rx_queue (create_new_entry i'))) as [enk q]. cbn [snd].
  rewrite put_entry_bind. cbn [rx_u rx_q monitored]. rewrite bind_assoc.
  match goal with |- context [mbind_ ?m ?kk ?r4] =>
    assert (Em : exists u', m r4 = Throw runtime_error (mkRx u' (rx_q r) (monitored r)) /\ u' = set_usys s2 (rx_u r4)) end.
  { eexists. split; [|reflexivity]. unfold on_u at 1, on_sys at 1. cbn [rx_u usys set_dgrams set_usys]. by rewrite Hleft. }
  destruct Em as (u' & Em & ->). rewrite (bind_throw _ _ _ _ _ Em). eexists. split; [reflexivity|].
  split; [done|]. split; [done|]. cbn. by rewrite lookup_insert_eq.
Qed.
End sessions.

(** ** The theorems on a concrete kernel *)

#[export] Instance sim_recv_ok : RecvOk 3.
Proof.
  refine {| pending := mail |}.
  - intros s. cbn. destruct (mail s) as [|[[from cm] data] ds] eqn:E; cbn; rewrite E; [done|]. split; [done|].
    exists (zlen data). split; [apply zlen_nonneg | done].
  - intros n s from cm data ds E. cbn. unfold sim_recv. by rewrite E.
  - intros n s. cbn. unfold sim_recv. destruct (mail s) as [|[[from cm] data] ds] eqn:E; cbn; by rewrite ?E.
  - intros f t p s. cbn. split; [done|]. split; lia.
  - intros fd _ s. cbn. repeat split; done.
Defined.

Definition client (last port : Z) : bytes := pack_ss AF_INET [10; 0; 0; last] port.
Definition to_server : list (Z * Z * bytes) := [(SOL_IP, IP_RECVORIGDSTADDR, client 200 53)].
Definition three_datagrams : list (bytes * list (Z * Z * bytes) * bytes) :=
  [(client 1 1000, to_server, [1; 2]); (client 2 2000, to_server, [9]); (client 1 1000, to_server, [3])].
Definition key_of (last port : Z) : Z := (create_session_key (mkSock (unpacked (client last port)) (unpacked (client 200 53))) true).1.
Definition sim_rx (u : uworld) : rworld := mkRx u (Fdq.fdq_new tt false) [].

Lemma early_data_delivered_witness :
  let ks := firsts [key_of 1 1000; key_of 2 2000; key_of 1 1000] in
  NoDup ks /\ (forall j, j ∈ ks <-> j ∈ [key_of 1 1000; key_of 2 2000; key_of 1 1000]) /\
  exists r' w', on_left_new_raw 5 3 (sim_rx (sim_world three_datagrams)) = Ret tt r'
    /\ pending (usys (rx_u r')) = []
    /\ Fdq.sq_ (rx_q r') = reverse (s32 <$> ks) ++ []
    /\ com_reads 3 (replicate 2 buff_sz) (set_ucom (u_embryon (key_of 1 1000) false (sim_com false)) (rx_u r'))
       = Ret [[1; 2]; [3]] w'.
Proof.
  apply (early_data_delivered 3 (sim_rx (sim_world three_datagrams))
    [(key_of 1 1000, [1; 2]); (key_of 2 2000, [9]); (key_of 1 1000, [3])] 5 (key_of 1 1000)
    (u_embryon (key_of 1 1000) false (sim_com false)) 3).
  - discriminate.
  - repeat constructor; eexists; (split; [vm_compute; reflexivity|]); (split; [left; reflexivity|]);
      (split; [vm_compute; reflexivity|]); (split; [reflexivity|]); (split; [discriminate|]); vm_compute; discriminate.
  - reflexivity.
  - reflexivity.
  - lia.
  - cbn. lia.
  - left.
  - reflexivity.
  - reflexivity.
Defined.

(** A client of an IPv6 socket whose address this C library prints with the mapping prefix. *)
Definition mapped_client (last : Z) : bytes :=
  put_at 8 (mapped_prefix ++ [10; 0; 0; last]) (put_at 2 (be_bytes 2 1000) (put_at 0 (le_bytes 2 AF_INET6) zero_ss)).
Definition mapped_info (last : Z) : SocketInfo := mkSock (unpacked (mapped_client last)) (unpacked (client 200 53)).
Definition mapped_session : Z := (create_session_key (mapped_info 1) true).1.

Lemma mapped_clients_share_session_witness :
  (create_session_key (mapped_info 2) true).1 = mapped_session /\
  exists r' d', add_first_datagrams 3 (mapped_info 2)
      (sim_rx (set_dgrams {[mapped_session := create_new_entry (mapped_info 1)]} (sim_world [(mapped_client 2, to_server, [7])])))
    = Ret 0 r' /\ datagrams_received (rx_u r') !! mapped_session = Some d' /\ dg_src d' = mapped_client 1
    /\ rx_queue d' = (enqueue [7] empty_rx).2.
Proof.
  apply (mapped_clients_share_session 3 (mapped_client 1) (mapped_client 2) to_server (mapped_info 1) (mapped_info 2)
    (sim_rx (set_dgrams {[mapped_session := create_new_entry (mapped_info 1)]} (sim_world [(mapped_client 2, to_server, [7])])))
    (create_new_entry (mapped_info 1)) 1 [7] (mkSim [] 0)); try (vm_compute; reflexivity); lia.
Defined.

(** A client of an unknown family: its socket cannot be made transparent. *)
Definition odd_info : SocketInfo :=
  mkSock (unpacked (put_at 0 (le_bytes 2 7) (client 1 1000))) (unpacked (client 200 53)).
Definition odd_key : Z := (create_session_key odd_info true).1.

Lemma failed_socket_strands_session_witness :
  exists r1 d, add_first_datagrams 3 odd_info (sim_rx (sim_world [(client 1 1000, to_server, [7])])) = Throw runtime_error r1
    /\ rx_q r1 = Fdq.fdq_new tt false /\ in_virt_set (rx_u r1) = ∅
    /\ datagrams_received (rx_u r1) !! odd_key = Some d /\ socket_left d = None
    /\ forall r2 d2 n b s3, datagrams_received (rx_u r2) !! odd_key = Some d2 ->
         em_id (ucom (rx_u r2)) = 0 -> us_recv 3 buff_sz 0 (usys (rx_u r2)) = (n, b, s3) -> 0 <= n ->
         exists r3, add_first_datagrams 3 odd_info r2 = Ret 0 r3 /\ rx_q r3 = rx_q r2.
Proof.
  apply (failed_socket_strands_session 3 odd_info (create_session_key odd_info true).2 odd_key
    (sim_rx (sim_world [(client 1 1000, to_server, [7])])) 1 [7] (mkSim [] 0) (mkSim [] 1));
    try (vm_compute; reflexivity); lia.
Defined.
