(* ===== verification/Hello.v ===== *)
(** * Hello: the ClientHello parser of sslcom.tpp

    [peek_buf] is [sslcom_peer_hello_buffer]: an allocation of [capacity()] bytes of
    which the first [size()] are the peeked ones. [get_at] and [view] check against
    [size()]; copying a name out of the buffer checks nothing, so a copy past the
    allocation is undefined and one past [size()] reads what the memory held before. *)

From S2P Require Export Effects.
From S2P Require Text.

Record peek_buf : Type := mkPeek { pb_store : bytes; pb_size : Z }.

Definition pb_capacity (b : peek_buf) : Z := zlen (pb_store b).

(** What the peer offered: [sslcom_sni_], [sslcom_peer_hello_alpn_] and
    [sslcom_peer_hello_id_]. *)
Record hello_info : Type := mkInfo {
  sslcom_sni_ : bytes;
  sslcom_peer_hello_alpn_ : bytes;
  sslcom_peer_hello_id_ : bytes
}.

Definition set_sni (v : bytes) (i : hello_info) : hello_info :=
  mkInfo v (sslcom_peer_hello_alpn_ i) (sslcom_peer_hello_id_ i).
Definition set_alpn (v : bytes) (i : hello_info) : hello_info :=
  mkInfo (sslcom_sni_ i) v (sslcom_peer_hello_id_ i).
Definition set_id (v : bytes) (i : hello_info) : hello_info :=
  mkInfo (sslcom_sni_ i) (sslcom_peer_hello_alpn_ i) v.

(** The locals [curpos] and [ret], the names, and what the parser does to the com:
    [error(ERROR_UNSPEC)] and [rescan_in] of the peer. *)
Record parse_st : Type := mkParse {
  p_curpos : Z;
  p_ret : Z;
  p_info : hello_info;
  p_error : bool;
  p_rescan : bool
}.

Definition set_curpos (v : Z) (p : parse_st) : parse_st :=
  mkParse v (p_ret p) (p_info p) (p_error p) (p_rescan p).
Definition set_ret (v : Z) (p : parse_st) : parse_st :=
  mkParse (p_curpos p) v (p_info p) (p_error p) (p_rescan p).
Definition set_info (v : hello_info) (p : parse_st) : parse_st :=
  mkParse (p_curpos p) (p_ret p) v (p_error p) (p_rescan p).
Definition set_perror (p : parse_st) : parse_st :=
  mkParse (p_curpos p) (p_ret p) (p_info p) true (p_rescan p).
Definition set_rescan (p : parse_st) : parse_st :=
  mkParse (p_curpos p) (p_ret p) (p_info p) (p_error p) true.

Definition SSLCOM_CLIENTHELLO_TIMEOUT : Z := 3000.

Section parser.
Context (b : peek_buf).

(** [n] bytes at [data() + pos]. *)
Definition raw_bytes (pos n : Z) : M parse_st bytes :=
  if pb_capacity b <? pos + n then undef else mret_ (ztake n (zdrop pos (pb_store b))).

(** [ntohs(b.get_at<unsigned short>(pos))], [ntohl] and the single byte. *)
Definition get_at (n pos : Z) : M parse_st Z :=
  if pb_size b <? u64 (pos + n) then throw out_of_range
  else bs <- raw_bytes pos n ;; mret_ (be_value bs).

(** [b.view(pos, len)]: what is left when [len] is too long. *)
Definition view (pos len : Z) : M parse_st bytes :=
  if pos <? pb_size b then
    raw_bytes pos (if u64 (pos + len) <=? pb_size b then len else pb_size b - pos)
  else throw out_of_range.

(** [s.append((const char* ) b.data() + pos, n)] to an empty string. *)
Definition string_at (pos n : Z) : M parse_st bytes := raw_bytes pos n.

(** [curpos += n] and reading at [curpos] before that. *)
Definition skip (n : Z) : M parse_st unit := modify (fun p => set_curpos (u32 (p_curpos p + n)) p).
Definition next (n : Z) : M parse_st Z :=
  pos <- gets p_curpos ;; v <- get_at n pos ;; skip n ;;; mret_ v.

(** [curpos + n > b.size()] after a length field. *)
Definition check_room (n : Z) : M parse_st unit :=
  pos <- gets p_curpos ;;
  when (pb_size b <? u32 (pos + n)) (throw clienthello_malformed).

(** [parse_peer_hello_extensions]: its own [curpos], and the bytes to skip as an
    [unsigned short]. *)
Definition parse_peer_hello_extensions (curpos : Z) : M parse_st Z :=
  ext_id <- get_at 2 curpos ;;
  let curpos := u32 (curpos + 2) in
  ext_length <- get_at 2 curpos ;;
  let curpos := u32 (curpos + 2) in
  (if ext_id =? 0 then
     sn_list_length <- get_at 2 curpos ;;
     let curpos := u32 (curpos + 2) in
     sn_type <- get_at 1 curpos ;;
     let curpos := u32 (curpos + 1) in
     if sn_type =? 0 then
       sn_hostname_length <- get_at 2 curpos ;;
       let curpos := u32 (curpos + 2) in
       s <- string_at curpos sn_hostname_length ;;
       modify (fun p => set_info (set_sni s (p_info p)) p)
     else mret_ tt
   else if ext_id =? 16 then
     alpn_length <- get_at 2 curpos ;;
     let curpos := u32 (curpos + 2) in
     s <- string_at curpos alpn_length ;;
     modify (fun p => set_info (set_alpn s (p_info p)) p)
   else mret_ tt) ;;;
  mret_ (u16 (ext_length + 4)).

(** [while (curpos + 4 < b.size()) curpos += parse_peer_hello_extensions(b, curpos);]
    [false] when [fuel] turns were not enough. *)
Fixpoint extensions_loop (fuel : nat) : M parse_st bool :=
  match fuel with
  | O => mret_ false
  | S fuel' =>
      pos <- gets p_curpos ;;
      if u32 (pos + 4) <? pb_size b then
        n <- parse_peer_hello_extensions pos ;;
        skip n ;;;
        extensions_loop fuel'
      else mret_ true
  end.

(** The inner [try] block: the handshake header up to the compression methods. *)
Definition parse_handshake : M parse_st unit :=
  handshake_length <- next 2 ;;
  handshake_version_maj <- next 1 ;;
  handshake_version_min <- next 1 ;;
  pos <- gets p_curpos ;;
  handshake_unixtime <- get_at 1 pos ;;
  skip 4 ;;;
  skip 28 ;;;
  session_id_length <- next 1 ;;
  modify (set_ret 1) ;;;
  (if 0 <? session_id_length then
     pos <- gets p_curpos ;;
     session_id <- view pos session_id_length ;;
     skip session_id_length ;;;
     modify (fun p => set_info (set_id (Text.hex_print session_id) (p_info p)) p)
   else mret_ tt) ;;;
  ciphers_length <- next 2 ;;
  check_room ciphers_length ;;;
  skip ciphers_length ;;;
  compression_length <- next 1 ;;
  check_room compression_length ;;;
  skip compression_length.

(** From the length of the extension block to the end of the ClientHello. *)
Definition parse_extension_block (fuel : nat) : M parse_st bool :=
  pos <- gets p_curpos ;;
  extensions_length <- (if u64 (pos + 2) <? pb_size b then next 2 else mret_ 0) ;;
  check_room extensions_length ;;;
  if 0 <? extensions_length then extensions_loop fuel else mret_ true.

(** The record with at least 34 bytes: [None] when the fuel runs out, else what
    the function returns. *)
Definition parse_record (fuel : nat) : M parse_st (option Z) :=
  message_type <- next 1 ;;
  version_maj <- next 1 ;;
  version_min <- next 1 ;;
  message_length <- next 2 ;;
  when (negb (version_maj =? 3)) (throw clienthello_malformed) ;;;
  if negb (pb_size b =? u32 (message_length + 5)) && (negb (message_type =? 22) || (5 <? version_maj))
  then mret_ (Some 0)
  else
    pos <- gets p_curpos ;;
    handshake_type <- get_at 1 pos ;;
    skip 2 ;;;
    if (message_type =? 22) && (handshake_type =? 1) then
      try_catch parse_handshake out_of_range (mret_ tt) ;;;
      finished <- parse_extension_block fuel ;;
      ret <- gets p_ret ;;
      mret_ (if finished : bool then Some ret else None)
    else modify (set_ret 1) ;;; mret_ (Some 1).

(** The whole function: [peer_is_ssl] whether the peer is an SSL com too, [elapsed]
    the milliseconds since [timer_start]. *)
Definition parse_peer_hello (fuel : nat) (peer_is_ssl : bool) (elapsed : Z) : M parse_st (option Z) :=
  try_catch
    (if 34 <=? pb_size b then parse_record fuel
     else
       when peer_is_ssl (modify set_rescan) ;;;
       when (SSLCOM_CLIENTHELLO_TIMEOUT <? elapsed) (modify set_perror) ;;;
       ret <- gets p_ret ;; mret_ (Some ret))
    out_of_range
    (modify set_perror ;;; ret <- gets p_ret ;; mret_ (Some ret)).
End parser.

(** The locals at the start, over the names already known. *)
Definition parse_start (i : hello_info) : parse_st := mkParse 0 (-1) i false false.

(** The parser run on a buffer. *)
Definition run_parse_peer_hello (fuel : nat) (peer_is_ssl : bool) (elapsed : Z) (b : peek_buf)
  (i : hello_info) : outcome parse_st (option Z) :=
  parse_peer_hello b fuel peer_is_ssl elapsed (parse_start i).
