(* ===== verification/HelloProps.v ===== *)
(** * HelloProps: what the ClientHello parser understands

    The encoder of a ClientHello record after RFC 8446 and RFC 6066, and the parser on it:
    the names come out, the parser ends, a record cut short is malformed, one extension
    length makes it spin and a name length makes it read past the message. *)

From S2P Require Export Hello.

(** ** The encoder *)

Inductive ext : Type :=
  | ExtSni (host : bytes)
  | ExtAlpn (protocols : bytes)
  | ExtOther (id : Z) (body : bytes).

Definition ext_id (e : ext) : Z :=
  match e with ExtSni _ => 0 | ExtAlpn _ => 16 | ExtOther id _ => id end.

Definition ext_body (e : ext) : bytes :=
  match e with
  | ExtSni host => be_bytes 2 (zlen host + 3) ++ be_bytes 1 0 ++ be_bytes 2 (zlen host) ++ host
  | ExtAlpn ps => be_bytes 2 (zlen ps) ++ ps
  | ExtOther _ body => body
  end.

Definition ext_bytes (e : ext) : bytes :=
  be_bytes 2 (ext_id e) ++ be_bytes 2 (zlen (ext_body e)) ++ ext_body e.

Definition exts_bytes (l : list ext) : bytes := flat_map ext_bytes l.

(** A ClientHello; [ch_random] starts with the four bytes once called the time. *)
Record client_hello : Type := mkHello {
  ch_version_maj : Z;
  ch_version_min : Z;
  ch_random : bytes;
  ch_session_id : bytes;
  ch_ciphers : bytes;
  ch_compression : bytes
}.

(** The handshake message behind its type, up to the extension block. *)
Definition hello_fields (ch : client_hello) (len : Z) : bytes :=
  be_bytes 2 len ++ be_bytes 1 (ch_version_maj ch) ++ be_bytes 1 (ch_version_min ch) ++
  ch_random ch ++
  be_bytes 1 (zlen (ch_session_id ch)) ++ ch_session_id ch ++
  be_bytes 2 (zlen (ch_ciphers ch)) ++ ch_ciphers ch ++
  be_bytes 1 (zlen (ch_compression ch)) ++ ch_compression ch.

(** The message in front of the extension block, inside a record of [len] bytes. *)
Definition hello_front (ch : client_hello) (len : Z) : bytes :=
  be_bytes 1 22 ++ be_bytes 1 3 ++ be_bytes 1 1 ++ be_bytes 2 (len - 5) ++
  be_bytes 1 1 ++ be_bytes 1 0 ++ hello_fields ch (len - 9).

Definition front_len (ch : client_hello) : Z :=
  47 + zlen (ch_session_id ch) + zlen (ch_ciphers ch) + zlen (ch_compression ch).

(** The whole record with the raw extension block [exts]. *)
Definition hello_record (ch : client_hello) (exts : bytes) : bytes :=
  hello_front ch (front_len ch + 2 + zlen exts) ++ be_bytes 2 (zlen exts) ++ exts.

Record wf_hello (ch : client_hello) : Prop := {
  wf_version : is_byte (ch_version_maj ch) /\ is_byte (ch_version_min ch);
  wf_random : zlen (ch_random ch) = 32;
  wf_sid : zlen (ch_session_id ch) < 256;
  wf_ciphers : zlen (ch_ciphers ch) < 65536;
  wf_compression : zlen (ch_compression ch) < 256
}.

Definition wf_ext (e : ext) : Prop :=
  0 <= ext_id e < 65536 /\ zlen (ext_body e) < 65532 /\
  match e with ExtOther id _ => id <> 0 /\ id <> 16 | _ => True end.

(** ** What the parser should keep of it *)

Definition ext_info (i : hello_info) (e : ext) : hello_info :=
  match e with
  | ExtSni host => set_sni host i
  | ExtAlpn ps => set_alpn ps i
  | ExtOther _ _ => i
  end.

Definition sid_info (ch : client_hello) (i : hello_info) : hello_info :=
  if 0 <? zlen (ch_session_id ch) then set_id (Text.hex_print (ch_session_id ch)) i else i.

(** ** Reading at a position *)

Definition wf_buf (b : peek_buf) : Prop := 0 <= pb_size b <= pb_capacity b /\ pb_capacity b < 2 ^ 31.

(** From [pos] on, the message is [s]. *)
Definition input (b : peek_buf) (pos : Z) (s : bytes) : Prop :=
  exists pre, ztake (pb_size b) (pb_store b) = pre ++ s /\ zlen pre = pos.

Section reading.
Context (b : peek_buf) (Hb : wf_buf b).

Lemma input_size pos s : input b pos s -> 0 <= pos /\ pos + zlen s = pb_size b /\ pb_size b < 2147483648.
Proof.
  intros (pre & E & <-). apply (f_equal zlen) in E. rewrite zlen_app in E.
  destruct Hb as [H1 H2]. unfold pb_capacity in *. rewrite zlen_ztake in E by lia.
  pose proof (zlen_nonneg pre). lia.
Qed.

Lemma input_app pos f s : input b pos (f ++ s) -> input b (pos + zlen f) s.
Proof.
  intros (pre & E & <-). exists (pre ++ f). by rewrite zlen_app, E, app_assoc.
Qed.

Lemma raw_input pos f s p : input b pos (f ++ s) -> raw_bytes b pos (zlen f) p = Ret f p.
Proof.
  intros H. destruct (input_size _ _ H) as (H0 & Hs & _). rewrite zlen_app in Hs.
  pose proof (zlen_nonneg s) as Hn. destruct H as (pre & E & Hp).
  destruct Hb as [H1 H2]. unfold raw_bytes. assert (pb_capacity b <? pos + zlen f = false) as -> by lia.
  unfold mret_. f_equal. rewrite <- (ztake_zdrop (pb_size b) (pb_store b)), E, <- !app_assoc.
  rewrite zdrop_app_exact by done. by apply ztake_app_exact.
Qed.

Lemma be_input n x : 0 <= x < 256 ^ Z.of_nat n -> be_value (be_bytes n x) = x.
Proof. intros H. rewrite be_value_be_bytes. by apply Z.mod_small. Qed.

Lemma get_input n x pos s p :
  input b pos (be_bytes n x ++ s) -> 0 <= x < 256 ^ Z.of_nat n ->
  get_at b (Z.of_nat n) pos p = Ret x p.
Proof.
  intros H Hx. destruct (input_size _ _ H) as (H0 & Hs & Hm).
  rewrite zlen_app, zlen_be_bytes in Hs. pose proof (zlen_nonneg s).
  unfold get_at. rewrite u64_small by lia. assert (pb_size b <? pos + Z.of_nat n = false) as -> by lia.
  rewrite <- (zlen_be_bytes n x), (bind_ret _ _ _ _ _ (raw_input _ _ _ p H)).
  unfold mret_. by rewrite be_input.
Qed.

Lemma get_raw pos f s p : input b pos (f ++ s) -> get_at b (zlen f) pos p = Ret (be_value f) p.
Proof.
  intros H. destruct (input_size _ _ H) as (H0 & Hs & Hm). rewrite zlen_app in Hs.
  pose proof (zlen_nonneg s). pose proof (zlen_nonneg f).
  unfold get_at. rewrite u64_small by lia. assert (pb_size b <? pos + zlen f = false) as -> by lia.
  by rewrite (bind_ret _ _ _ _ _ (raw_input _ _ _ p H)).
Qed.

Lemma skip_small n p :
  0 <= p_curpos p + n < 4294967296 -> skip n p = Ret tt (set_curpos (p_curpos p + n) p).
Proof. intros H. unfold skip, modify. by rewrite u32_small. Qed.

Lemma bind_skip {B} n (k : unit -> M parse_st B) p :
  0 <= p_curpos p + n < 4294967296 -> mbind_ (skip n) k p = k tt (set_curpos (p_curpos p + n) p).
Proof. intros H. by rewrite (bind_ret _ _ _ _ _ (skip_small n p H)). Qed.

Lemma next_input n x s p :
  input b (p_curpos p) (be_bytes n x ++ s) -> 0 <= x < 256 ^ Z.of_nat n ->
  next b (Z.of_nat n) p = Ret x (set_curpos (p_curpos p + Z.of_nat n) p).
Proof.
  intros H Hx. destruct (input_size _ _ H) as (H0 & Hs & Hm).
  rewrite zlen_app, zlen_be_bytes in Hs. pose proof (zlen_nonneg s).
  unfold next. rewrite bind_gets, (bind_ret _ _ _ _ _ (get_input _ _ _ _ p H Hx)).
  rewrite (bind_ret _ _ _ _ _ (skip_small (Z.of_nat n) p ltac:(lia))). done.
Qed.

(** One field read and passed: the equation and what is left. *)
Lemma read_field k n x s p :
  input b (p_curpos p) (be_bytes n x ++ s) -> k = Z.of_nat n -> 0 <= x < 256 ^ k ->
  next b k p = Ret x (set_curpos (p_curpos p + k) p) /\ input b (p_curpos p + k) s.
Proof.
  intros H -> Hx. split; [by apply (next_input _ _ s)|].
  rewrite <- (zlen_be_bytes n x). by apply input_app.
Qed.

(** A field read at a position of the caller's. *)
Lemma get_field k n x s pos p :
  input b pos (be_bytes n x ++ s) -> k = Z.of_nat n -> 0 <= x < 256 ^ k ->
  get_at b k pos p = Ret x p /\ u32 (pos + k) = pos + k /\ input b (pos + k) s.
Proof.
  intros H -> Hx. split; [by apply (get_input _ _ _ s)|].
  destruct (input_size _ _ H) as (H0 & Hs & Hm). rewrite zlen_app, zlen_be_bytes in Hs.
  pose proof (zlen_nonneg s). split; [apply u32_small; lia|].
  rewrite <- (zlen_be_bytes n x). by apply input_app.
Qed.

(** A block of announced length passed over. *)
Lemma room_ok f s p :
  input b (p_curpos p) (f ++ s) ->
  check_room b (zlen f) p = Ret tt p /\
  skip (zlen f) p = Ret tt (set_curpos (p_curpos p + zlen f) p) /\
  input b (p_curpos p + zlen f) s.
Proof.
  intros H. destruct (input_size _ _ H) as (H0 & Hs & Hm). rewrite zlen_app in Hs.
  pose proof (zlen_nonneg s). pose proof (zlen_nonneg f).
  split; [|split; [apply skip_small; lia | by apply input_app]].
  unfold check_room. rewrite bind_gets, u32_small by lia.
  by assert (pb_size b <? p_curpos p + zlen f = false) as -> by lia.
Qed.

End reading.

(** Compute the fields of the parser's state. *)
Ltac parse_cbn :=
  cbv beta iota delta
    [set_curpos set_ret set_info set_perror set_rescan p_curpos p_ret p_info p_error p_rescan] in *.

(** Pass the field [be_bytes n x] that [H] says comes next. *)
Ltac field H n :=
  lazymatch type of H with
  | input _ _ (be_bytes _ ?x ++ ?s) =>
      lazymatch goal with
      | |- context [mbind_ (next ?b ?k) _ ?p] =>
          let E := fresh "E" in
          edestruct (read_field b ltac:(assumption) k n x s p) as [E H'];
          [exact H | reflexivity | lia |];
          rewrite (bind_ret _ _ _ _ _ E); clear E H; rename H' into H;
          parse_cbn
      end
  end.

(** Read the field that [H] says comes at the position of a [get_at]. *)
Ltac peek H n :=
  lazymatch type of H with
  | input _ _ (be_bytes _ ?x ++ ?s) =>
      lazymatch goal with
      | |- context [mbind_ (get_at ?b ?k ?pos) _ ?p] =>
          let E := fresh "E" in let E2 := fresh "E2" in
          edestruct (get_field b ltac:(assumption) k n x s pos p) as (E & E2 & H');
          [exact H | reflexivity | lia |];
          rewrite (bind_ret _ _ _ _ _ E); cbv beta zeta; rewrite ?E2; clear E E2 H; rename H' into H;
          rewrite ?bind_assoc
      end
  end.

(** Pass a block whose announced length is checked. *)
Ltac block H :=
  lazymatch type of H with
  | input _ _ (?f ++ ?s) =>
      lazymatch goal with
      | |- context [mbind_ (check_room ?b (zlen f)) _ ?p] =>
          let E := fresh "E" in let E2 := fresh "E2" in
          edestruct (room_ok b ltac:(assumption) f s p) as (E & E2 & H'); [exact H|];
          rewrite (bind_ret _ _ _ _ _ E);
          first [rewrite (bind_ret _ _ _ _ _ E2) | rewrite E2]; clear E E2 H; rename H' into H;
          parse_cbn
      end
  end.

Section parsing.
Context (b : peek_buf) (Hb : wf_buf b).

Lemma session_id_step ch i s pos r e rs :
  input b pos (ch_session_id ch ++ s) ->
  (if 0 <? zlen (ch_session_id ch) then
     pos <- gets p_curpos ;;
     session_id <- view b pos (zlen (ch_session_id ch)) ;;
     skip (zlen (ch_session_id ch)) ;;;
     modify (fun p => set_info (set_id (Text.hex_print session_id) (p_info p)) p)
   else mret_ tt) (mkParse pos r i e rs)
  = Ret tt (mkParse (pos + zlen (ch_session_id ch)) r (sid_info ch i) e rs) /\
  input b (pos + zlen (ch_session_id ch)) s.
Proof.
  intros H. split; [|by apply input_app].
  destruct (input_size b Hb _ _ H) as (H0 & Hs & Hm). rewrite zlen_app in Hs. pose proof (zlen_nonneg s).
  unfold sid_info. pose proof (zlen_nonneg (ch_session_id ch)). case_if.
  2:{ replace (zlen (ch_session_id ch)) with 0 by lia. by rewrite Z.add_0_r. }
  rewrite bind_gets. cbn [p_curpos]. unfold view. assert (pos <? pb_size b = true) as -> by lia.
  rewrite u64_small by lia. assert (pos + zlen (ch_session_id ch) <=? pb_size b = true) as -> by lia.
  rewrite (bind_ret _ _ _ _ _ (raw_input b Hb _ _ _ _ H)).
  by rewrite (bind_ret _ _ _ _ _ (skip_small (zlen (ch_session_id ch)) (mkParse pos r i e rs) ltac:(cbn; lia))).
Qed.

Lemma parse_handshake_ok ch len i s pos r e rs :
  wf_hello ch -> 0 <= len < 65536 -> input b pos (hello_fields ch len ++ s) ->
  parse_handshake b (mkParse pos r i e rs)
    = Ret tt (mkParse (pos + front_len ch - 7) 1 (sid_info ch i) e rs) /\
  input b (pos + front_len ch - 7) s.
Proof.
  intros [[Hv1 Hv2] Hr Hsid Hc Hm] Hlen H. unfold is_byte in *. unfold hello_fields in H.
  pose proof (proj1 (input_size b Hb _ _ H)) as Hpos. pose proof (zlen_nonneg (ch_session_id ch)) as Hn1.
  pose proof (zlen_nonneg (ch_ciphers ch)) as Hn2. pose proof (zlen_nonneg (ch_compression ch)) as Hn3.
  rewrite <- !app_assoc in H. unfold parse_handshake.
  field H 2%nat. field H 1%nat. field H 1%nat.
  destruct (ch_random ch) as [|x l] eqn:Erand; [rewrite zlen_nil in Hr; lia|].
  rewrite bind_gets. cbn [p_curpos].
  rewrite (bind_ret _ _ _ _ _ (get_raw b Hb _ [x] (l ++ _) _ H)).
  rewrite <- Erand in *. apply input_app in H. rewrite Hr in H.
  destruct (input_size b Hb _ _ H) as (H0 & Hs & Hm').
  match type of H with input _ _ ?l => pose proof (zlen_nonneg l) end.
  do 2 (rewrite bind_skip by (cbn; lia); parse_cbn).
  replace (pos + 2 + 1 + 1 + 32) with (pos + 2 + 1 + 1 + 4 + 28) in H by lia.
  field H 1%nat. rewrite bind_modify. parse_cbn.
  edestruct (session_id_step ch i) as [E H']; [exact H|]. rewrite (bind_ret _ _ _ _ _ E). clear E H.
  rename H' into H. field H 2%nat.
  block H. field H 1%nat. block H.
  unfold front_len. split.
  - do 2 f_equal. lia.
  - eapply (eq_ind _ (fun q => input b q s)); [exact H | lia].
Qed.

(** The extension loop on well-formed extensions. *)
Lemma parse_ext_ok x s pos p :
  wf_ext x -> input b pos (ext_bytes x ++ s) ->
  parse_peer_hello_extensions b pos p
    = Ret (zlen (ext_body x) + 4) (set_info (ext_info (p_info p) x) p).
Proof.
  intros (Hid & Hlen & Hx) H. destruct (input_size b Hb _ _ H) as (H0 & Hs & Hm).
  pose proof (zlen_nonneg (ext_body x)) as Hn. pose proof (zlen_nonneg s) as Hns.
  unfold ext_bytes in *. rewrite !zlen_app, !zlen_be_bytes in Hs. rewrite <- !app_assoc in H.
  unfold parse_peer_hello_extensions.
  peek H 2%nat. peek H 2%nat.
  destruct x as [host | ps | id body]; cbn [ext_id ext_body Z.eqb Pos.eqb] in *.
  - rewrite <- !app_assoc in H. rewrite !zlen_app, !zlen_be_bytes in *. pose proof (zlen_nonneg host).
    rewrite bind_assoc. peek H 2%nat. peek H 1%nat. cbn [Z.eqb].
    rewrite bind_assoc. peek H 2%nat.
    rewrite (bind_ret _ _ _ _ _ (raw_input b Hb _ _ _ _ H)), bind_modify. rewrite u16_small by lia. done.
  - rewrite <- !app_assoc in H. rewrite !zlen_app, !zlen_be_bytes in *. pose proof (zlen_nonneg ps).
    rewrite bind_assoc. peek H 2%nat.
    rewrite (bind_ret _ _ _ _ _ (raw_input b Hb _ _ _ _ H)), bind_modify. rewrite u16_small by lia. done.
  - destruct Hx as [Hx1 Hx2].
    rewrite (proj2 (Z.eqb_neq id 0)), (proj2 (Z.eqb_neq id 16)) by done.
    rewrite bind_pure, u16_small by lia. by destruct p.
Qed.

Lemma zlen_ext_bytes x : zlen (ext_bytes x) = zlen (ext_body x) + 4.
Proof.
  unfold ext_bytes. rewrite !zlen_app, !zlen_be_bytes.
  lia.
Qed.

(** An extension of four bytes names nothing. *)
Lemma ext_info_empty i x : zlen (ext_body x) = 0 -> ext_info i x = i.
Proof.
  destruct x as [host | ps | id body]; cbn [ext_body]; [| |done];
    rewrite !zlen_app, !zlen_be_bytes; intros E; exfalso;
    [pose proof (zlen_nonneg host) | pose proof (zlen_nonneg ps)]; lia.
Qed.

Lemma extensions_loop_ok l fuel pos r i e rs :
  Forall wf_ext l -> input b pos (exts_bytes l) -> (length l < fuel)%nat ->
  exists pos', extensions_loop b fuel (mkParse pos r i e rs)
    = Ret true (mkParse pos' r (foldl ext_info i l) e rs).
Proof.
  intros Hl. revert fuel pos i. induction Hl as [|x l Hx Hl IH]; intros fuel pos i H Hf;
    (destruct fuel as [|fuel]; [cbn in Hf; lia|]); cbn [extensions_loop];
    destruct (input_size b Hb _ _ H) as (H0 & Hs & Hm); rewrite bind_gets; cbn [p_curpos].
  - cbn [exts_bytes flat_map] in Hs. rewrite zlen_nil in Hs. rewrite u32_small by lia.
    assert (pos + 4 <? pb_size b = false) as -> by lia. by exists pos.
  - cbn [exts_bytes flat_map] in *. change (flat_map ext_bytes l) with (exts_bytes l) in *.
    rewrite zlen_app, zlen_ext_bytes in Hs. pose proof (zlen_nonneg (ext_body x)).
    pose proof (zlen_nonneg (exts_bytes l)). rewrite u32_small by lia. case_if.
    + rewrite (bind_ret _ _ _ _ _ (parse_ext_ok x _ _ _ Hx H)), bind_skip by (cbn; lia). parse_cbn.
      apply IH; [|cbn in Hf; lia]. rewrite <- zlen_ext_bytes. by apply input_app.
    + destruct l as [|y l].
      * exists pos. cbn [foldl]. rewrite ext_info_empty by lia. done.
      * cbn [exts_bytes flat_map] in *. rewrite zlen_app, zlen_ext_bytes in *.
        pose proof (zlen_nonneg (ext_body y)). pose proof (zlen_nonneg (flat_map ext_bytes l)). lia.
Qed.

(** Up to the extension block, whatever follows. *)
Lemma parse_record_front ch len fuel i tail :
  wf_hello ch -> 9 <= len < 65541 -> input b 0 (hello_front ch len ++ tail) ->
  parse_record b fuel (parse_start i)
    = (finished <- parse_extension_block b fuel ;;
       ret <- gets p_ret ;;
       mret_ (if finished : bool then Some ret else None))
        (mkParse (front_len ch) 1 (sid_info ch i) false false) /\
  input b (front_len ch) tail.
Proof.
  intros Hch Hlen H. unfold hello_front in H. rewrite <- !app_assoc in H.
  unfold parse_record, parse_start.
  field H 1%nat. field H 1%nat. field H 1%nat. field H 2%nat.
  change (negb (22 =? 22) || (5 <? 3)) with false. rewrite andb_false_r.
  change (when (negb (3 =? 3)) (throw clienthello_malformed)) with (@mret_ parse_st unit tt).
  rewrite bind_pure, bind_gets. peek H 1%nat.
  rewrite bind_skip by (cbn; lia). parse_cbn. change ((22 =? 22) && (1 =? 1)) with true. cbv iota.
  apply input_app in H. rewrite zlen_be_bytes in H.
  edestruct (parse_handshake_ok ch (len - 9) i tail) as [E H']; [done | lia | exact H |].
  rewrite (bind_ret _ _ _ _ _ (try_ret _ _ _ _ _ _ E)).
  replace (0 + 1 + 1 + 1 + 2 + 1 + Z.of_nat 1 + front_len ch - 7) with (front_len ch) in * by lia. done.
Qed.

(** The whole record: the extension block of announced length, then the loop. *)
Lemma parse_block_start p fuel exts :
  input b (p_curpos p) (be_bytes 2 (zlen exts) ++ exts) -> 0 < zlen exts < 65536 ->
  parse_extension_block b fuel p = extensions_loop b fuel (set_curpos (p_curpos p + 2) p) /\
  input b (p_curpos p + 2) exts.
Proof.
  intros H Hl. unfold parse_extension_block.
  destruct (input_size b Hb _ _ H) as (H0 & Hs & Hm). rewrite zlen_app, zlen_be_bytes in Hs.
  rewrite bind_gets, u64_small by lia. assert (p_curpos p + 2 <? pb_size b = true) as -> by lia.
  destruct (read_field b Hb 2 2 (zlen exts) exts p H eq_refl ltac:(lia)) as [E H1].
  rewrite (bind_ret _ _ _ _ _ E).
  destruct (room_ok b Hb exts [] (set_curpos (p_curpos p + 2) p)) as [E2 _]; [by rewrite app_nil_r|].
  rewrite (bind_ret _ _ _ _ _ E2). assert (0 <? zlen exts = true) as -> by lia. done.
Qed.
End parsing.

(** ** The parser on what one [MSG_PEEK] delivered *)

(** [data] peeked into an allocation that held [junk] behind it. *)
Definition peeked (data junk : bytes) : peek_buf := mkPeek (data ++ junk) (zlen data).

Lemma peeked_ok data junk :
  zlen data + zlen junk < 2 ^ 31 -> wf_buf (peeked data junk) /\ input (peeked data junk) 0 data.
Proof.
  intros H. pose proof (zlen_nonneg data). pose proof (zlen_nonneg junk).
  unfold wf_buf, pb_capacity, peeked, input. cbn [pb_store pb_size]. rewrite zlen_app.
  split; [lia|]. exists []. by rewrite ztake_app_exact.
Qed.

Lemma zlen_hello_fields ch len :
  zlen (ch_random ch) = 32 -> zlen (hello_fields ch len) = front_len ch - 7.
Proof.
  intros Hr. unfold hello_fields, front_len. rewrite !zlen_app, !zlen_be_bytes, Hr. lia.
Qed.

Lemma zlen_hello_front ch len : zlen (ch_random ch) = 32 -> zlen (hello_front ch len) = front_len ch.
Proof.
  intros Hr. unfold hello_front. rewrite !zlen_app, !zlen_be_bytes, zlen_hello_fields by done. lia.
Qed.

Lemma front_len_min ch : 47 <= front_len ch.
Proof.
  unfold front_len. pose proof (zlen_nonneg (ch_session_id ch)).
  pose proof (zlen_nonneg (ch_ciphers ch)). pose proof (zlen_nonneg (ch_compression ch)). lia.
Qed.

(** The whole function on a buffer that starts with the front of a ClientHello. *)
Lemma run_parse_front ch len fuel ssl elapsed i junk tail :
  wf_hello ch -> 9 <= len < 65541 -> zlen (hello_front ch len ++ tail) + zlen junk < 2 ^ 31 ->
  let b := peeked (hello_front ch len ++ tail) junk in
  run_parse_peer_hello fuel ssl elapsed b i
    = try_catch
        (finished <- parse_extension_block b fuel ;;
         ret <- gets p_ret ;;
         mret_ (if finished : bool then Some ret else None))
        out_of_range
        (modify set_perror ;;; ret <- gets p_ret ;; mret_ (Some ret))
        (mkParse (front_len ch) 1 (sid_info ch i) false false) /\
  wf_buf b /\ input b (front_len ch) tail.
Proof.
  intros Hch Hlen Hz b. destruct (peeked_ok _ junk Hz) as [Hb Hi].
  destruct (parse_record_front _ Hb ch len fuel i tail Hch Hlen Hi) as [E Ht].
  split; [|by split].
  unfold run_parse_peer_hello, parse_peer_hello. change (pb_size b) with (zlen (hello_front ch len ++ tail)).
  rewrite zlen_app, zlen_hello_front by (by apply wf_random). pose proof (front_len_min ch).
  pose proof (zlen_nonneg tail). assert (34 <=? front_len ch + zlen tail = true) as -> by lia.
  cbv iota. unfold try_catch.
  fold b in E. by rewrite E.
Qed.

(** [C8] Round trip: a well-formed ClientHello that arrived whole is accepted, and the
    parser keeps exactly the names the client put into it. *)
Theorem hello_roundtrip ch exts junk fuel ssl elapsed i :
  wf_hello ch -> Forall wf_ext exts ->
  zlen (hello_record ch (exts_bytes exts)) < 65541 -> zlen junk < 2 ^ 30 ->
  (length exts < fuel)%nat ->
  exists pos,
    run_parse_peer_hello fuel ssl elapsed (peeked (hello_record ch (exts_bytes exts)) junk) i
      = Ret (Some 1) (mkParse pos 1 (foldl ext_info (sid_info ch i) exts) false false).
Proof.
  intros Hch Hex Hl Hj Hf. unfold hello_record in *.
  pose proof (front_len_min ch). pose proof (zlen_nonneg (exts_bytes exts)).
  rewrite !zlen_app, zlen_be_bytes, zlen_hello_front in Hl by (by apply wf_random).
  edestruct (run_parse_front ch (front_len ch + 2 + zlen (exts_bytes exts)) fuel ssl elapsed i junk
    (be_bytes 2 (zlen (exts_bytes exts)) ++ exts_bytes exts)) as (-> & Hb & Hi); [done | lia | |].
  { rewrite !zlen_app, zlen_be_bytes, zlen_hello_front by (by apply wf_random). lia. }
  set (b := peeked _ _) in *.
  destruct exts as [|x l].
  - exists (front_len ch). apply try_ret.
    destruct (input_size b Hb _ _ Hi) as (Hp & Hs & Hm). cbn [exts_bytes flat_map] in Hs.
    rewrite app_nil_r, zlen_be_bytes in Hs.
    assert (E : parse_extension_block b fuel (mkParse (front_len ch) 1 (sid_info ch i) false false)
      = Ret true (mkParse (front_len ch) 1 (sid_info ch i) false false)).
    { unfold parse_extension_block, check_room. rewrite bind_gets. cbn [p_curpos]. rewrite u64_small by lia.
      assert (front_len ch + 2 <? pb_size b = false) as -> by lia.
      rewrite bind_pure, bind_assoc, bind_gets. cbn [p_curpos]. rewrite u32_small by lia.
      by assert (pb_size b <? front_len ch + 0 = false) as -> by lia. }
    by rewrite (bind_ret _ _ _ _ _ E).
  - assert (Hpos : 0 < zlen (exts_bytes (x :: l))).
    { cbn [exts_bytes flat_map]. rewrite zlen_app, zlen_ext_bytes. pose proof (zlen_nonneg (ext_body x)).
      pose proof (zlen_nonneg (flat_map ext_bytes l)). lia. }
    destruct (parse_block_start b Hb (mkParse (front_len ch) 1 (sid_info ch i) false false) fuel _ Hi)
      as [E Hi2]; [lia|].
    destruct (extensions_loop_ok b Hb (x :: l) fuel _ 1 (sid_info ch i) false false Hex Hi2 Hf) as [pos E2].
    exists pos. apply try_ret. rewrite (bind_ret _ _ _ _ _ (eq_trans E E2)). done.
Qed.

(** A message cut inside its extension block. *)
Lemma truncated_parse ch exts junk n fuel ssl elapsed i :
  wf_hello ch -> zlen (hello_record ch exts) < 65541 -> zlen junk < 2 ^ 30 ->
  front_len ch + 2 < n < zlen (hello_record ch exts) ->
  exists pos,
    run_parse_peer_hello fuel ssl elapsed (peeked (ztake n (hello_record ch exts)) junk) i
      = Throw clienthello_malformed (mkParse pos 1 (sid_info ch i) false false).
Proof.
  intros Hch Hl Hj Hn. unfold hello_record in *. pose proof (front_len_min ch).
  rewrite !zlen_app, zlen_be_bytes, zlen_hello_front in * by (by apply wf_random).
  set (len := front_len ch + 2 + zlen exts) in *. set (k := n - front_len ch - 2).
  assert (Et : ztake n (hello_front ch len ++ be_bytes 2 (zlen exts) ++ exts)
    = hello_front ch len ++ be_bytes 2 (zlen exts) ++ ztake k exts).
  { rewrite !app_assoc. replace n with (zlen (hello_front ch len ++ be_bytes 2 (zlen exts)) + k).
    2:{ rewrite zlen_app, zlen_be_bytes, zlen_hello_front by (by apply wf_random). lia. }
    unfold ztake. rewrite zlen_length, Z2Nat.inj_add, Nat2Z.id by lia. by rewrite take_app_add. }
  rewrite Et. assert (Hk : zlen (ztake k exts) = k) by (apply zlen_ztake; lia).
  edestruct (run_parse_front ch len fuel ssl elapsed i junk (be_bytes 2 (zlen exts) ++ ztake k exts))
    as (-> & Hb & Hi); [done | lia | |].
  { rewrite !zlen_app, zlen_be_bytes, zlen_hello_front, Hk by (by apply wf_random). lia. }
  set (b := peeked _ _) in *. destruct (input_size b Hb _ _ Hi) as (Hp & Hs & Hm).
  rewrite zlen_app, zlen_be_bytes, Hk in Hs. exists (front_len ch + 2).
  apply try_passed; [|done]. apply bind_throw. unfold parse_extension_block. rewrite bind_gets.
  cbn [p_curpos]. rewrite u64_small by lia. assert (front_len ch + 2 <? pb_size b = true) as -> by lia.
  destruct (read_field b Hb 2 2 (zlen exts) (ztake k exts) (mkParse (front_len ch) 1 (sid_info ch i) false false))
    as [E _]; [exact Hi | done | lia |].
  rewrite (bind_ret _ _ _ _ _ E). unfold check_room. rewrite bind_assoc, bind_gets. cbn [p_curpos set_curpos].
  rewrite u32_small by lia. by assert (pb_size b <? front_len ch + 2 + zlen exts = true) as -> by lia.
Qed.

(** A ClientHello that arrives in pieces: the parser waits only below 34 bytes; a
    message cut inside its extension block is reported malformed, not incomplete. *)
Theorem truncated_hello_malformed ch exts junk n fuel ssl elapsed i :
  wf_hello ch -> zlen (hello_record ch exts) < 65541 -> zlen junk < 2 ^ 30 ->
  front_len ch + 2 < n < zlen (hello_record ch exts) ->
  exists pos,
    run_parse_peer_hello fuel ssl elapsed (peeked (ztake n (hello_record ch exts)) junk) i
      = Throw clienthello_malformed (mkParse pos 1 (sid_info ch i) false false).
Proof. apply truncated_parse. Qed.

(** A length of 65532 makes the skip wrap to nothing. *)
Lemma parse_ext_stuck b id tail pos p :
  wf_buf b -> id <> 0 -> id <> 16 -> 0 <= id < 65536 ->
  input b pos (be_bytes 2 id ++ be_bytes 2 65532 ++ tail) ->
  parse_peer_hello_extensions b pos p = Ret 0 p.
Proof.
  intros Hb H0 H16 Hid H. unfold parse_peer_hello_extensions.
  peek H 2%nat. peek H 2%nat.
  rewrite (proj2 (Z.eqb_neq id 0)), (proj2 (Z.eqb_neq id 16)) by done. done.
Qed.

(** One extension of announced length 65532 and the parser never ends: the skip of
    length plus four is an [unsigned short] and wraps to zero, at any fuel. *)
Theorem hello_spins ch id tail junk fuel ssl elapsed i :
  let exts := be_bytes 2 id ++ be_bytes 2 65532 ++ tail in
  wf_hello ch -> 0 <= id < 65536 -> id <> 0 -> id <> 16 -> 0 < zlen tail ->
  zlen (hello_record ch exts) < 65541 -> zlen junk < 2 ^ 30 ->
  run_parse_peer_hello fuel ssl elapsed (peeked (hello_record ch exts) junk) i
    = Ret None (mkParse (front_len ch + 2) 1 (sid_info ch i) false false).
Proof.
  intros exts Hch Hid H0 H16 Htail Hl Hj. unfold hello_record in *. pose proof (front_len_min ch).
  assert (Hz : zlen exts = zlen tail + 4) by (unfold exts; rewrite !zlen_app, !zlen_be_bytes; lia).
  rewrite !zlen_app, zlen_be_bytes, zlen_hello_front in Hl by (by apply wf_random).
  edestruct (run_parse_front ch (front_len ch + 2 + zlen exts) fuel ssl elapsed i junk
    (be_bytes 2 (zlen exts) ++ exts)) as (-> & Hb & Hi); [done | lia | |].
  { rewrite !zlen_app, zlen_be_bytes, zlen_hello_front by (by apply wf_random). lia. }
  set (b := peeked _ _) in *.
  destruct (parse_block_start b Hb (mkParse (front_len ch) 1 (sid_info ch i) false false) fuel _ Hi)
    as [E Hi2]; [lia|]. cbn [p_curpos] in Hi2. destruct (input_size b Hb _ _ Hi2) as (Hp & Hs & Hm).
  assert (Hloop : forall k, extensions_loop b k (mkParse (front_len ch + 2) 1 (sid_info ch i) false false)
    = Ret false (mkParse (front_len ch + 2) 1 (sid_info ch i) false false)).
  { induction k as [|k IH]; [done|]. cbn [extensions_loop]. rewrite bind_gets. cbn [p_curpos].
    rewrite u32_small by lia. assert (front_len ch + 2 + 4 <? pb_size b = true) as -> by lia.
    rewrite (bind_ret _ _ _ _ _ (parse_ext_stuck b id tail _ _ Hb H0 H16 Hid Hi2)).
    rewrite bind_skip by (cbn; lia). parse_cbn. rewrite Z.add_0_r. apply IH. }
  apply try_ret. by rewrite (bind_ret _ _ _ _ _ (eq_trans E (Hloop fuel))).
Qed.

(** ** Termination for every other input *)

(** The length field of an extension at [pos]. *)
Definition length_field (b : peek_buf) (pos : Z) : Z := be_value (ztake 2 (zdrop (pos + 2) (pb_store b))).

Section termination.
Context (b : peek_buf) (Hb : wf_buf b).

Lemma raw_pure pos n p v p' : raw_bytes b pos n p = Ret v p' -> p' = p /\ v = ztake n (zdrop pos (pb_store b)).
Proof. unfold raw_bytes, undef, mret_. case_if; [done|]. by intros [= <- <-]. Qed.

Lemma get_at_pure n pos p v p' :
  get_at b n pos p = Ret v p' -> p' = p /\ v = be_value (ztake n (zdrop pos (pb_store b))).
Proof.
  unfold get_at. case_if; [done|]. intros H. apply bind_inv in H as (bs & q & E1 & E2).
  apply raw_pure in E1 as [-> ->]. unfold mret_ in E2. by injection E2 as <- <-.
Qed.

Lemma get_at_fits n pos p v p' : get_at b n pos p = Ret v p' -> u64 (pos + n) <= pb_size b.
Proof. unfold get_at. case_if; [done | lia]. Qed.

(** Read the first monadic step of [H]. *)
Ltac bind_step H :=
  let v := fresh "v" in let q := fresh "q" in let E := fresh "E" in
  apply bind_inv in H as (v & q & E & H).

(** One extension leaves [curpos] alone and asks for its length plus four. *)
Lemma parse_ext_skip pos p n p' :
  0 <= pos < 2 ^ 32 -> parse_peer_hello_extensions b pos p = Ret n p' ->
  pos + 4 <= pb_size b /\ p_curpos p' = p_curpos p /\ n = u16 (length_field b pos + 4).
Proof.
  intros Hp H. destruct Hb as [H1 H2]. unfold parse_peer_hello_extensions in H. cbv zeta in H.
  bind_step H. pose proof (get_at_fits _ _ _ _ _ E) as Hf1. rewrite u64_small in Hf1 by lia.
  apply get_at_pure in E as [-> ->]. rewrite (u32_small (pos + 2)) in H by lia.
  bind_step H. pose proof (get_at_fits _ _ _ _ _ E) as Hf2. rewrite u64_small in Hf2 by lia.
  apply get_at_pure in E as [-> ->]. split; [lia|]. fold (length_field b pos) in H.
  bind_step H. unfold mret_ in H. injection H as <- <-. split; [|done]. revert E.
  destruct (_ =? 0).
  - intros E. bind_step E. apply get_at_pure in E0 as [-> _]. bind_step E. apply get_at_pure in E0 as [-> _].
    destruct (_ =? 0); [|unfold mret_ in E; by injection E as _ <-].
    bind_step E. apply get_at_pure in E0 as [-> _]. bind_step E. apply raw_pure in E0 as [-> _].
    unfold modify in E. by injection E as _ <-.
  - destruct (_ =? 16); [|intros E; unfold mret_ in E; by injection E as _ <-].
    intros E. bind_step E. apply get_at_pure in E0 as [-> _]. bind_step E. apply raw_pure in E0 as [-> _].
    unfold modify in E. by injection E as _ <-.
Qed.

Context (Hbytes : all_bytes (pb_store b))
  (Hno : forall pos, 0 <= pos -> pos + 4 < pb_size b -> length_field b pos <> 65532).

Lemma length_field_bound pos : 0 <= pos -> pos + 4 < pb_size b -> 0 <= length_field b pos < 65536.
Proof.
  intros H0 Hp. destruct Hb as [H1 H2]. unfold length_field.
  assert (Hz : all_bytes (ztake 2 (zdrop (pos + 2) (pb_store b)))) by (by apply all_bytes_ztake, all_bytes_zdrop).
  pose proof (le_value_bound _ (Forall_rev Hz)) as Hv. unfold be_value. rewrite length_rev in Hv.
  assert (Hl : zlen (ztake 2 (zdrop (pos + 2) (pb_store b))) = 2).
  { unfold pb_capacity in *. apply zlen_ztake. rewrite zlen_zdrop; lia. }
  rewrite zlen_length in Hl. by rewrite Hl in Hv.
Qed.

Lemma extensions_loop_ends fuel p p' :
  0 <= p_curpos p < 2 ^ 32 -> pb_size b - p_curpos p < Z.of_nat fuel -> (0 < fuel)%nat ->
  extensions_loop b fuel p <> Ret false p'.
Proof.
  destruct Hb as [H1 H2]. revert p. induction fuel as [|fuel IH]; intros p Hp Hf Hpos; [lia|].
  cbn [extensions_loop]. rewrite bind_gets. case_if; [|done]. intros H.
  bind_step H. apply parse_ext_skip in E0 as (Hfit & Ec & ->); [|lia]. rewrite u32_small in E by lia.
  pose proof (length_field_bound (p_curpos p) ltac:(lia) ltac:(lia)).
  pose proof (Hno (p_curpos p) ltac:(lia) ltac:(lia)).
  set (n := u16 (length_field b (p_curpos p) + 4)) in *.
  assert (Hn : 1 <= n < 65536).
  { unfold n, wrapu. change (2 ^ 16) with 65536.
    pose proof (Z.mod_pos_bound (length_field b (p_curpos p) + 4) 65536).
    assert ((length_field b (p_curpos p) + 4) mod 65536 <> 0); [|lia].
    intros E0. apply Z.mod_divide in E0 as [k E0]; lia. }
  rewrite bind_skip in H by (rewrite Ec; lia).
  revert H. apply IH; cbn; rewrite ?Ec; lia.
Qed.

(** [curpos] is an [unsigned int] throughout. *)
Definition cur_ok (p : parse_st) : Prop := 0 <= p_curpos p < 2 ^ 32.

Abbreviation stays := (upholds cur_ok).

Lemma stays_skip n : stays (skip n).
Proof. intros p _. unfold skip, modify, cur_ok. cbn. exact (u32_bound _). Qed.
Lemma stays_modify f : (forall p, p_curpos (f p) = p_curpos p) -> stays (modify f).
Proof. intros Hf. apply upholds_modify. intros p. unfold cur_ok. by rewrite Hf. Qed.
Lemma stays_raw pos n : stays (raw_bytes b pos n).
Proof. unfold raw_bytes. auto with upholds. Qed.
Lemma stays_get n pos : stays (get_at b n pos).
Proof. unfold get_at. auto using stays_raw with upholds. Qed.

Hint Resolve stays_skip stays_raw stays_get : upholds.
Hint Extern 1 (stays (modify _)) => apply stays_modify; done : upholds.

Lemma stays_next n : stays (next b n).
Proof. unfold next. auto with upholds. Qed.
Lemma stays_room n : stays (check_room b n).
Proof. unfold check_room. auto with upholds. Qed.
Lemma stays_view pos n : stays (view b pos n).
Proof. unfold view. auto with upholds. Qed.

Hint Resolve stays_next stays_room stays_view : upholds.

Lemma stays_handshake : stays (parse_handshake b).
Proof. unfold parse_handshake. auto 40 with upholds. Qed.

Lemma block_ends fuel p p' :
  pb_size b < Z.of_nat fuel -> cur_ok p -> parse_extension_block b fuel p <> Ret false p'.
Proof.
  destruct Hb as [H1 H2]. unfold parse_extension_block. intros Hf Hp H. rewrite bind_gets in H.
  bind_step H. apply (upholds_out cur_ok) in E; [|auto with upholds|done].
  bind_step H. apply (upholds_out cur_ok) in E0; [|auto with upholds|done].
  revert H. case_if; [|done]. unfold cur_ok in *. apply extensions_loop_ends; lia.
Qed.

Lemma record_ends fuel p p' :
  pb_size b < Z.of_nat fuel -> cur_ok p -> parse_record b fuel p <> Ret None p'.
Proof.
  unfold parse_record. intros Hf Hp H.
  do 4 (bind_step H; apply (upholds_out cur_ok) in E; [|auto with upholds|done]; clear Hp; rename E into Hp).
  bind_step H. assert (Hq : cur_ok q3).
  { revert E. unfold when. by case_if; [|intros [= _ <-]]. }
  clear Hp E. revert H. destruct (negb _ && _); [done|]. rewrite bind_gets. intros H.
  do 2 (bind_step H; apply (upholds_out cur_ok) in E; [|auto with upholds|done]; clear Hq; rename E into Hq).
  revert H. destruct (_ && _); [|intros H; by bind_step H]. intros H.
  bind_step H. bind_step H. bind_step H. unfold mret_, gets in *.
  injection E1 as <- <-. destruct v7; [done|]. revert E0. apply block_ends; [done|].
  revert E. unfold try_catch. pose proof (stays_handshake _ Hq) as Hs.
  destruct (parse_handshake b _) as [? ? | e ? |]; [by intros [= _ <-] | | done].
  case_decide; [by intros [= _ <-] | done].
Qed.
End termination.

(** [C22] Termination: unless some two bytes of the message read as the length 65532, the
    parser returns on any input whatever, with as many turns as the message has bytes. *)
Theorem hello_parser_terminates b fuel ssl elapsed i p :
  wf_buf b -> all_bytes (pb_store b) -> pb_size b < Z.of_nat fuel ->
  (forall pos, 0 <= pos -> pos + 4 < pb_size b -> length_field b pos <> 65532) ->
  run_parse_peer_hello fuel ssl elapsed b i <> Ret None p.
Proof.
  intros Hb Hbytes Hf Hno. unfold run_parse_peer_hello, parse_peer_hello, try_catch.
  case_if.
  - pose proof (record_ends b Hb Hbytes Hno fuel (parse_start i) p Hf ltac:(unfold cur_ok; cbn; lia)) as H.
    destruct (parse_record b fuel (parse_start i)) as [a q | e q |]; [done | | done].
    by case_decide.
  - unfold when. by repeat case_if.
Qed.

Lemma raw_past data junk pos s n p :
  input (peeked data junk) pos s ->
  raw_bytes (peeked data junk) pos n p
    = if n <=? zlen s + zlen junk then Ret (ztake n (s ++ junk)) p else Undef.
Proof.
  intros (pre & E & <-). unfold peeked in *. cbn [pb_size pb_store] in E.
  rewrite ztake_app_exact in E by done. subst data.
  unfold raw_bytes, pb_capacity. cbn [pb_store]. rewrite !zlen_app, <- !app_assoc.
  rewrite zdrop_app_exact by done.
  destruct (Z.ltb_spec (zlen pre + zlen s + zlen junk) (zlen pre + n)), (Z.leb_spec n (zlen s + zlen junk));
    done || lia.
Qed.

Lemma parse_ext_long_name data junk pos host n p :
  let b := peeked data junk in
  wf_buf b -> zlen host < 65528 -> 0 <= n < 65533 ->
  input b pos (be_bytes 2 0 ++ be_bytes 2 (zlen host + 5) ++ be_bytes 2 (n + 3) ++ be_bytes 1 0 ++
               be_bytes 2 n ++ host) ->
  parse_peer_hello_extensions b pos p
    = if n <=? zlen host + zlen junk then
        Ret (u16 (zlen host + 5 + 4)) (set_info (set_sni (ztake n (host ++ junk)) (p_info p)) p)
      else Undef.
Proof.
  intros b Hb Hh Hn H. pose proof (zlen_nonneg host). unfold parse_peer_hello_extensions.
  peek H 2%nat. peek H 2%nat. cbn [Z.eqb]. rewrite bind_assoc. peek H 2%nat. peek H 1%nat.
  cbn [Z.eqb]. rewrite bind_assoc. peek H 2%nat.
  pose proof (raw_past data junk _ host n p H) as Er. fold b in Er. unfold string_at, mbind_ at 1.
  rewrite Er. by destruct (n <=? _).
Qed.

(** [C40] The length of a host name is believed: the name is copied from the message and,
    behind it, from what the allocation held before; past the allocation it is undefined. *)
Theorem sni_reads_past_message ch host n junk fuel ssl elapsed i :
  let exts := be_bytes 2 0 ++ be_bytes 2 (zlen host + 5) ++ be_bytes 2 (n + 3) ++ be_bytes 1 0 ++
                be_bytes 2 n ++ host in
  wf_hello ch -> zlen (hello_record ch exts) < 65541 -> zlen junk < 2 ^ 30 ->
  zlen host < 65528 -> 0 <= n < 65533 -> (1 < fuel)%nat ->
  run_parse_peer_hello fuel ssl elapsed (peeked (hello_record ch exts) junk) i
    = if n <=? zlen host + zlen junk then
        Ret (Some 1) (mkParse (zlen (hello_record ch exts)) 1
          (set_sni (ztake n (host ++ junk)) (sid_info ch i)) false false)
      else Undef.
Proof.
  intros exts Hch Hl Hj Hh Hn Hf. unfold hello_record in *. pose proof (front_len_min ch).
  pose proof (zlen_nonneg host).
  assert (Hz : zlen exts = zlen host + 9) by (unfold exts; rewrite !zlen_app, !zlen_be_bytes; lia).
  rewrite !zlen_app, zlen_be_bytes, zlen_hello_front in * by (by apply wf_random).
  edestruct (run_parse_front ch (front_len ch + 2 + zlen exts) fuel ssl elapsed i junk
    (be_bytes 2 (zlen exts) ++ exts)) as (-> & Hb & Hi); [done | lia | |].
  { rewrite !zlen_app, zlen_be_bytes, zlen_hello_front by (by apply wf_random). lia. }
  set (b := peeked _ _) in *.
  destruct (parse_block_start b Hb (mkParse (front_len ch) 1 (sid_info ch i) false false) fuel _ Hi)
    as [E Hi2]; [lia|]. parse_cbn. destruct (input_size b Hb _ _ Hi2) as (Hp & Hs & Hm).
  destruct fuel as [|[|fuel]]; [lia..|]. cbn [extensions_loop] in E. rewrite bind_gets in E. parse_cbn.
  rewrite u32_small in E by lia.
  assert (Et : front_len ch + 2 + 4 <? pb_size b = true) by lia. rewrite Et in E. clear Et.
  pose proof (parse_ext_long_name _ junk _ host n (mkParse (front_len ch + 2) 1 (sid_info ch i) false false)
    Hb Hh Hn Hi2) as Ex. fold b in Ex.
  destruct (n <=? zlen host + zlen junk).
  - apply try_ret. rewrite (bind_ret _ _ _ _ _ Ex) in E.
    rewrite u16_small in E by lia. rewrite bind_skip in E by (cbn; lia). rewrite bind_gets in E. parse_cbn.
    rewrite u32_small in E by lia.
    assert (Ef : front_len ch + 2 + (zlen host + 5 + 4) + 4 <? pb_size b = false) by lia.
    rewrite Ef in E. rewrite (bind_ret _ _ _ _ _ E). rewrite bind_gets. unfold mret_. do 2 f_equal. lia.
  - unfold try_catch, mbind_ at 1. unfold mbind_ at 1 in E. rewrite Ex in E. by rewrite E.
Qed.

(** ** Concrete messages *)

Definition sample_hello : client_hello := mkHello 3 3 (zrep 32 7) [1; 2] [19; 1] [0].
Definition sample_exts : list ext := [ExtSni [97; 46; 98]; ExtOther 5 [1]; ExtAlpn [2; 104; 50]].
Definition sample_record : bytes := hello_record sample_hello (exts_bytes sample_exts).
Definition no_info : hello_info := mkInfo [] [] [].

Lemma sample_hello_wf : wf_hello sample_hello.
Proof. split; [by cbn | done..]. Qed.

Lemma sample_no_spin : forall pos, 0 <= pos -> pos + 4 < zlen sample_record ->
  length_field (peeked sample_record []) pos <> 65532.
Proof.
  assert (E : forallb (fun n => negb (length_field (peeked sample_record []) (Z.of_nat n) =? 65532))
    (seq 0 (length sample_record)) = true) by (vm_compute; reflexivity).
  intros pos H0 Hp. rewrite forallb_forall in E. specialize (E (Z.to_nat pos)).
  rewrite Z2Nat.id in E by done. apply Z.eqb_neq, negb_true_iff, E, in_seq.
  rewrite zlen_length in Hp. lia.
Qed.

Lemma hello_roundtrip_witness : exists pos,
  run_parse_peer_hello 4 true 0 (peeked sample_record [9; 9]) no_info
    = Ret (Some 1) (mkParse pos 1 (mkInfo [97; 46; 98] [2; 104; 50] [48; 49; 48; 50]) false false).
Proof.
  apply (hello_roundtrip sample_hello sample_exts [9; 9] 4 true 0 no_info);
    [apply sample_hello_wf | repeat constructor; vm_compute; congruence | by vm_compute.. | cbn; lia].
Defined.

Lemma truncated_hello_malformed_witness : exists pos,
  run_parse_peer_hello 4 true 0 (peeked (ztake 60 sample_record) []) no_info
    = Throw clienthello_malformed (mkParse pos 1 (sid_info sample_hello no_info) false false).
Proof.
  apply (truncated_hello_malformed sample_hello (exts_bytes sample_exts) [] 60 4 true 0 no_info);
    [apply sample_hello_wf | by vm_compute..].
Defined.

Lemma hello_spins_witness :
  run_parse_peer_hello 100 true 0
    (peeked (hello_record sample_hello (be_bytes 2 5 ++ be_bytes 2 65532 ++ [1])) []) no_info
    = Ret None (mkParse (front_len sample_hello + 2) 1 (sid_info sample_hello no_info) false false).
Proof.
  apply (hello_spins sample_hello 5 [1] [] 100 true 0 no_info);
    [apply sample_hello_wf | lia | done.. | by vm_compute | by vm_compute | by vm_compute].
Defined.

Lemma hello_parser_terminates_witness :
  ~ exists p, run_parse_peer_hello 200 true 0 (peeked sample_record []) no_info = Ret None p.
Proof.
  intros [p E]. revert E. apply (hello_parser_terminates (peeked sample_record []) 200 true 0 no_info p);
    [by vm_compute | | by vm_compute | exact sample_no_spin].
  apply (bool_decide_unpack _). vm_compute. exact I.
Defined.

Lemma sni_reads_past_message_witness :
  run_parse_peer_hello 4 true 0 (peeked (hello_record sample_hello
    (be_bytes 2 0 ++ be_bytes 2 7 ++ be_bytes 2 8 ++ be_bytes 1 0 ++ be_bytes 2 5 ++ [97; 98])) [1; 2; 3; 4]) no_info
    = Ret (Some 1) (mkParse 65 1 (set_sni [97; 98; 1; 2; 3] (sid_info sample_hello no_info)) false false).
Proof.
  pose proof (sni_reads_past_message sample_hello [97; 98] 5 [1; 2; 3; 4] 4 true 0 no_info
    sample_hello_wf ltac:(by vm_compute) ltac:(by vm_compute) ltac:(by vm_compute) ltac:(lia) ltac:(lia)) as E.
  vm_compute in E. vm_compute. exact E.
Defined.
