(* ===== verification/Ocsp.v ===== *)
(** * Ocsp: revocation by OCSP and CRL (sslcertval.hpp, sslcertval.cpp)

    What a response or a list says of a certificate, the blocking query of every
    responder, and [OcspQuery], the query as a state machine driven by [run].

    Certificates, responses and connections are OpenSSL's: [Pki] names the pure
    functions the code asks of them, [BioLib] the calls that touch the network or the
    clock. A [nullptr] connection handed to a function that dereferences it is
    undefined. The code under [USE_OPENSSL11] (OpenSSL 1.1 and later) is modelled. *)

From S2P Require Export Epoll.


Class Pki := {
  X509 : Type;
  X509_CRL : Type;
  OCSP_RESPONSE : Type;
  OCSP_SINGLERESP : Type;
  X509_get_pubkey : X509 -> bool;                         (* there is a key *)
  X509_CRL_verify : X509_CRL -> X509 -> bool;             (* with the key of the issuer *)
  X509_CRL_get0_by_serial : X509_CRL -> X509 -> bool;     (* an entry is found *)
  X509_verify_cert_crl : X509 -> X509 -> X509_CRL -> Z;   (* chain check with the CRL *)
  crl_dist_points : X509 -> list (Z * list string);       (* type and names *)
  OCSP_response_status : OCSP_RESPONSE -> Z;
  OCSP_response_get1_basic : OCSP_RESPONSE -> option (list OCSP_SINGLERESP);
  OCSP_basic_verify : OCSP_RESPONSE -> X509 -> Z;
  OCSP_single_get0_status : OCSP_SINGLERESP -> Z;
  OCSP_id_cmp : OCSP_SINGLERESP -> X509 -> X509 -> Z;     (* with the id of the certificate *)
  ASN1_TIME_diff : OCSP_SINGLERESP -> Z * Z * Z;          (* result, days and seconds to nextUpdate *)
  OCSP_cert_to_id : X509 -> X509 -> bool;                 (* an id could be made *)
  X509_get1_ocsp : X509 -> list string;
  OCSP_parse_url : string -> option (string * string * string * bool)
}.

Class BioLib `{Pki} := {
  bio : Type;
  time : bio -> Z * bio;
  BIO_new_connect : string -> bio -> bool * bio;
  BIO_do_connect : bio -> Z * bio;
  BIO_should_read : bio -> bool;
  BIO_should_write : bio -> bool;
  BIO_should_retry : bio -> bool;
  BIO_get_fd : bio -> Z;
  OCSP_sendreq_new : string -> bio -> bool * bio;
  OCSP_REQ_CTX_add1_header : string -> string -> bio -> bool * bio;
  OCSP_REQ_CTX_set1_req : bio -> bool * bio;
  OCSP_sendreq_nbio : bio -> Z * option OCSP_RESPONSE * bio;
  BIO_free : bio -> bio;
  OCSP_REQUEST_new : bio -> bool * bio;
  sk_OCSP_CERTID_push : bio -> bool * bio;
  OCSP_request_add0_id : bio -> bool * bio;
  epoll_create : bio -> Z * bio;
  epoll_wait : Z -> bio -> list wait_result * bio;          (* within so many milliseconds *)
  now_ms : bio -> Z
}.

Definition OCSP_RESPONSE_STATUS_SUCCESSFUL : Z := 0.
Definition V_OCSP_CERTSTATUS_GOOD : Z := 0.
Definition V_OCSP_CERTSTATUS_REVOKED : Z := 1.
Definition V_OCSP_CERTSTATUS_UNKNOWN : Z := 2.

(** ** Certificate revocation lists *)

Inductive status_origin : Type := FROM_OCSP | FROM_CRL.

(** [VerifyStatus]: [revoked] is 1, 0 or negative when unknown. *)
Record VerifyStatus : Type := mkVerifyStatus { revoked : Z; ttl : Z; origin : status_origin }.
Definition VerifyStatus_default : VerifyStatus := mkVerifyStatus (-1) 600 FROM_OCSP.

Section crl.
Context `{Pki}.

Definition crl_is_revoked_by (x509 : X509) (issuer : option X509) (crl_file : option X509_CRL) : Z :=
  match issuer, crl_file with
  | Some issuer, Some crl =>
      if X509_get_pubkey issuer then
        if X509_CRL_verify crl issuer then
          let is_revoked := 0 in
          if X509_CRL_get0_by_serial crl x509 then is_revoked (* the date is printed *) else is_revoked
        else -1
      else -1
  | _, _ => -1
  end.

Definition crl_verify_trust (x509 issuer : X509) (crl_file : X509_CRL) : Z :=
  X509_verify_cert_crl x509 issuer crl_file.

(** Full names (type 0) and relative names (type 1) alike. *)
Definition crl_urls (x509 : X509) : list string :=
  flat_map (fun '(t, names) => if (t =? 0) || (t =? 1) then names else []) (crl_dist_points x509).

(** [ocsp_urls]: the vector starts with as many empty strings. *)
Definition ocsp_urls (x509 : X509) : list string :=
  let ocsp_list := X509_get1_ocsp x509 in
  replicate (length ocsp_list) EmptyString ++ ocsp_list.

(** ** What a response says *)

(** The loop over the single responses: [matching_ids], [is_revoked] and [ttl]. *)
Fixpoint single_responses (l : list OCSP_SINGLERESP) (cert issuer : X509)
  (matching_ids : bool) (is_revoked ttl : Z) : bool * Z * Z :=
  match l with
  | [] => (matching_ids, is_revoked, ttl)
  | single :: l =>
      let status := OCSP_single_get0_status single in
      let matching_ids := if OCSP_id_cmp single cert issuer =? 0 then true else matching_ids in
      if negb matching_ids then single_responses l cert issuer matching_ids is_revoked ttl
      else
        let is_revoked :=
          if status =? V_OCSP_CERTSTATUS_REVOKED then 1
          else if status =? V_OCSP_CERTSTATUS_GOOD then 0 else is_revoked in
        let '(r, days, secs) := ASN1_TIME_diff single in
        if 0 <? r
        then single_responses l cert issuer matching_ids is_revoked (s32 (days * 24 * 60 * 60 + secs))
        else single_responses l cert issuer matching_ids 1 ttl
  end.

Definition ocsp_verify_response (resp : OCSP_RESPONSE) (cert issuer : X509) : VerifyStatus :=
  match OCSP_response_get1_basic resp with
  | None => mkVerifyStatus (-1) 60 FROM_OCSP
  | Some l =>
      if OCSP_basic_verify resp issuer <=? 0 then mkVerifyStatus (-1) 60 FROM_OCSP
      else
        let '(matching_ids, is_revoked, ttl) := single_responses l cert issuer false (-1) 60 in
        mkVerifyStatus (if matching_ids : bool then is_revoked else -1) ttl FROM_OCSP
  end.
End crl.

(** ** The blocking query *)

Section query.
Context `{BioLib}.

Context `{EpollKernel} (k0 : kstate).

(** A library call as a computation. *)
Definition lib {A} (f : bio -> A * bio) : M bio A := fun b => let '(a, b') := f b in Ret a b'.

(** [ocsp_query_responder] has a poller of its own. *)
Definition with_poller {A} (m : M (bio * epoll) A) (p : epoll) : M bio A := fun b =>
  match m (b, p) with
  | Ret a (b', _) => Ret a b'
  | Throw e (b', _) => Throw e b'
  | Undef => Undef
  end.
Definition plib {A} (f : bio -> A * bio) : M (bio * epoll) A := fun '(b, p) =>
  let '(a, b') := f b in Ret a (b', p).
Definition pmodify (fd mode : Z) : M (bio * epoll) unit :=
  modify (fun '(b, p) => (b, snd (epoll_modify fd mode p))).

(** [epoller.wait(ms)] *)
Definition pwait (ms : Z) : M (bio * epoll) Z := fun '(b, p) =>
  let '(rs, b') := epoll_wait ms b in
  match epoll_wait_ (now_ms b') rs (replicate (Z.to_nat EPOLLER_MAX_EVENTS) (0, 0)) p with
  | Ret n p' => Ret n (b', p')
  | Throw e p' => Throw e (b', p')
  | Undef => Undef
  end.

(** The loop [for (;;) OCSP_sendreq_nbio]: what it leaves in [rsp]. [fuel] bounds the
    number of turns; [None] when it runs out. *)
Fixpoint sendreq_loop (fuel : nat) (fd req_timeout : Z) : M (bio * epoll) (option (option OCSP_RESPONSE)) :=
  match fuel with
  | O => mret_ None
  | S fuel =>
      let! (rv, rsp) := plib OCSP_sendreq_nbio in
      if negb (rv =? -1) then mret_ (Some rsp)
      else if req_timeout =? -1 then sendreq_loop fuel fd req_timeout
      else
        r <- gets (fun '(b, _) => BIO_should_read b) ;;
        wr <- gets (fun '(b, _) => BIO_should_write b) ;;
        if r || wr then
          pmodify fd (if r : bool then EPOLLIN else EPOLLOUT) ;;;
          rv <- pwait (req_timeout * 1000) ;;
          if (rv =? 0) || (rv =? -1) then mret_ (Some None) else sendreq_loop fuel fd req_timeout
        else mret_ (Some None)
  end.

Definition ocsp_query_responder (fuel : nat) (path host : string) (req_timeout : Z)
  : M bio (option (option OCSP_RESPONSE)) :=
  rv <- lib BIO_do_connect ;;
  retry <- gets BIO_should_retry ;;
  if (rv <=? 0) && ((req_timeout =? -1) || negb retry) then mret_ (Some None) else
  ep <- lib epoll_create ;;
  if ep <=? 0 then mret_ (Some None) else
  t <- gets now_ms ;;
  fd <- gets BIO_get_fd ;;
  if fd <=? 0 then mret_ (Some None) else
  with_poller
    (nfds <- (if negb (req_timeout =? -1) && (rv <=? 0) then pwait (req_timeout * 1000) else mret_ 1) ;;
     if nfds <=? 0 then mret_ (Some None) else
     ctx <- plib (OCSP_sendreq_new path) ;;
     if negb ctx then mret_ (Some None) else
     h <- plib (OCSP_REQ_CTX_add1_header "Host" host) ;;
     if negb h then mret_ (Some None) else
     s <- plib OCSP_REQ_CTX_set1_req ;;
     if negb s then mret_ (Some None) else
     sendreq_loop fuel fd req_timeout)
    (snd (epoll_add fd EPOLLOUT (epoll_new k0 t))).

(** [ocsp_send_request]: over plain HTTP only. *)
Definition ocsp_send_request (fuel : nat) (host path port : string) (use_ssl : bool) (req_timeout : Z)
  : M bio (option (option OCSP_RESPONSE)) :=
  cbio <- lib (BIO_new_connect host) ;;
  resp <- (if cbio && negb use_ssl then ocsp_query_responder fuel path host req_timeout
           else mret_ (Some None)) ;;
  when cbio (modify BIO_free) ;;;
  mret_ resp.

(** The loop over the responder URLs; its condition reads a local that is never set. *)
Fixpoint check_urls (fuel : nat) (urls : list string) (x509 issuer : X509) (req_timeout : Z)
  (ret : VerifyStatus) : M bio (option VerifyStatus) :=
  match urls with
  | [] => mret_ (Some ret)
  | url :: urls =>
      match OCSP_parse_url url with
      | Some (host, port, path, false) =>
          r <- ocsp_send_request fuel host path port false req_timeout ;;
          match r with
          | None => mret_ None
          | Some (Some resp) =>
              check_urls fuel urls x509 issuer req_timeout
                (if OCSP_response_status resp =? OCSP_RESPONSE_STATUS_SUCCESSFUL
                 then ocsp_verify_response resp x509 issuer else ret)
          | Some None => check_urls fuel urls x509 issuer req_timeout ret
          end
      | _ => check_urls fuel urls x509 issuer req_timeout ret
      end
  end.

(** [ocsp_prepare_request]: the result, and whether [*req] is a request afterwards. *)
Definition ocsp_prepare_request (req : bool) (cert : X509) (issuer : option X509) : M bio (Z * bool) :=
  match issuer with
  | None => mret_ (0, req)
  | Some issuer =>
      req <- (if req then mret_ true else lib OCSP_REQUEST_new) ;;
      if negb req then mret_ (0, req) else
      if negb (OCSP_cert_to_id cert issuer) then mret_ (0, req) else
      pushed <- lib sk_OCSP_CERTID_push ;;
      if negb pushed then mret_ (0, req) else
      added <- lib OCSP_request_add0_id ;;
      mret_ (if added : bool then 1 else 0, req)
  end.

Definition ocsp_check_cert (fuel : nat) (x509 : X509) (issuer : option X509) (req_timeout : Z)
  : M bio (option VerifyStatus) :=
  match issuer with
  | None => mret_ (Some (mkVerifyStatus (-1) 60 FROM_OCSP))
  | Some issuer =>
      ocsp_prepare_request false x509 (Some issuer) ;;;
      check_urls fuel (X509_get1_ocsp x509) x509 issuer req_timeout (mkVerifyStatus (-1) 60 FROM_OCSP)
  end.
End query.

(** ** The query as a state machine *)

Inductive state_t : Type :=
  | ST_INIT | ST_CONNECTING | ST_CONNECTED | ST_REQ_INPROGRESS | ST_REQ_SENT | ST_RESP_RECEIVED
  | ST_FINISHED | ST_CLOSED.

Inductive yield_t : Type :=
  | RET_CONNFAIL | RET_UNKNOWN | RET_REVOKED | RET_VALID | RET_UNKNOWNSTATUS | RET_NOOCSP_TARGETS.

#[export] Instance state_t_eq_dec : EqDecision state_t.
Proof. solve_decision. Defined.
#[export] Instance yield_t_eq_dec : EqDecision yield_t.
Proof. solve_decision. Defined.

Section OcspQuery.
Context `{BioLib} `{EpollKernel} (k0 : kstate) (translate_socket : Z -> Z).

(** [OcspQuery], the library it drives and the poller of its socket. *)
Record query : Type := mkQuery {
  state_ : state_t;
  yield_ : yield_t;
  conn_bio : bool;
  ocsp_req : bool;
  ocsp_req_ctx : bool;
  ocsp_resp : option OCSP_RESPONSE;
  ocsp_targets : list (string * string * string * bool);
  ocsp_target_index : Z;
  ocsp_host : string;
  ocsp_path : string;
  timer_ : Z;
  io_ : socket_state;
  q_poll : epoller;
  q_bio : bio
}.

Definition set_qstate (v : state_t) (q : query) : query :=
  mkQuery v (yield_ q) (conn_bio q) (ocsp_req q) (ocsp_req_ctx q) (ocsp_resp q) (ocsp_targets q)
    (ocsp_target_index q) (ocsp_host q) (ocsp_path q) (timer_ q) (io_ q) (q_poll q) (q_bio q).
Definition set_yield (v : yield_t) (q : query) : query :=
  mkQuery (state_ q) v (conn_bio q) (ocsp_req q) (ocsp_req_ctx q) (ocsp_resp q) (ocsp_targets q)
    (ocsp_target_index q) (ocsp_host q) (ocsp_path q) (timer_ q) (io_ q) (q_poll q) (q_bio q).
Definition set_conn (v : bool) (q : query) : query :=
  mkQuery (state_ q) (yield_ q) v (ocsp_req q) (ocsp_req_ctx q) (ocsp_resp q) (ocsp_targets q)
    (ocsp_target_index q) (ocsp_host q) (ocsp_path q) (timer_ q) (io_ q) (q_poll q) (q_bio q).
Definition set_ctx (v : bool) (q : query) : query :=
  mkQuery (state_ q) (yield_ q) (conn_bio q) (ocsp_req q) v (ocsp_resp q) (ocsp_targets q)
    (ocsp_target_index q) (ocsp_host q) (ocsp_path q) (timer_ q) (io_ q) (q_poll q) (q_bio q).
Definition set_req (v : bool) (q : query) : query :=
  mkQuery (state_ q) (yield_ q) (conn_bio q) v (ocsp_req_ctx q) (ocsp_resp q) (ocsp_targets q)
    (ocsp_target_index q) (ocsp_host q) (ocsp_path q) (timer_ q) (io_ q) (q_poll q) (q_bio q).
Definition set_resp (v : option OCSP_RESPONSE) (q : query) : query :=
  mkQuery (state_ q) (yield_ q) (conn_bio q) (ocsp_req q) (ocsp_req_ctx q) v (ocsp_targets q)
    (ocsp_target_index q) (ocsp_host q) (ocsp_path q) (timer_ q) (io_ q) (q_poll q) (q_bio q).
Definition set_targets (v : list (string * string * string * bool)) (q : query) : query :=
  mkQuery (state_ q) (yield_ q) (conn_bio q) (ocsp_req q) (ocsp_req_ctx q) (ocsp_resp q) v
    (ocsp_target_index q) (ocsp_host q) (ocsp_path q) (timer_ q) (io_ q) (q_poll q) (q_bio q).
Definition set_index (v : Z) (q : query) : query :=
  mkQuery (state_ q) (yield_ q) (conn_bio q) (ocsp_req q) (ocsp_req_ctx q) (ocsp_resp q) (ocsp_targets q)
    v (ocsp_host q) (ocsp_path q) (timer_ q) (io_ q) (q_poll q) (q_bio q).
Definition set_target (h p : string) (q : query) : query :=
  mkQuery (state_ q) (yield_ q) (conn_bio q) (ocsp_req q) (ocsp_req_ctx q) (ocsp_resp q) (ocsp_targets q)
    (ocsp_target_index q) h p (timer_ q) (io_ q) (q_poll q) (q_bio q).
Definition set_timer (v : Z) (q : query) : query :=
  mkQuery (state_ q) (yield_ q) (conn_bio q) (ocsp_req q) (ocsp_req_ctx q) (ocsp_resp q) (ocsp_targets q)
    (ocsp_target_index q) (ocsp_host q) (ocsp_path q) v (io_ q) (q_poll q) (q_bio q).
Definition set_io (v : socket_state) (q : query) : query :=
  mkQuery (state_ q) (yield_ q) (conn_bio q) (ocsp_req q) (ocsp_req_ctx q) (ocsp_resp q) (ocsp_targets q)
    (ocsp_target_index q) (ocsp_host q) (ocsp_path q) (timer_ q) v (q_poll q) (q_bio q).
Definition set_qpoll (v : epoller) (q : query) : query :=
  mkQuery (state_ q) (yield_ q) (conn_bio q) (ocsp_req q) (ocsp_req_ctx q) (ocsp_resp q) (ocsp_targets q)
    (ocsp_target_index q) (ocsp_host q) (ocsp_path q) (timer_ q) (io_ q) v (q_bio q).
Definition set_qbio (v : bio) (q : query) : query :=
  mkQuery (state_ q) (yield_ q) (conn_bio q) (ocsp_req q) (ocsp_req_ctx q) (ocsp_resp q) (ocsp_targets q)
    (ocsp_target_index q) (ocsp_host q) (ocsp_path q) (timer_ q) (io_ q) (q_poll q) v.

(** A library call of the query, one that dereferences the connection, and a test. *)
Definition qlib {A} (f : bio -> A * bio) : M query A := fun q =>
  let '(a, b) := f (q_bio q) in Ret a (set_qbio b q).
Definition qrun {A} (m : M bio A) : M query A := fun q =>
  match m (q_bio q) with
  | Ret a b => Ret a (set_qbio b q)
  | Throw e b => Throw e (set_qbio b q)
  | Undef => Undef
  end.
Definition on_bio {A} (f : bio -> A * bio) : M query A :=
  c <- gets conn_bio ;; if c : bool then qlib f else undef.
Definition bio_test (f : bio -> bool) : M query bool := on_bio (fun b => (f b, b)).
Definition bio_free : M query unit := modify (fun q => set_qbio (BIO_free (q_bio q)) q).

(** [socket.mon_read()] and [socket.mon_write()]. *)
Definition q_mon (f : kstate -> Z -> (Z -> Z) -> socket_state -> epoller -> epoller) : M query unit :=
  modify (fun q => set_qpoll (f k0 (now_ms (q_bio q)) translate_socket (io_ q) (q_poll q)) q).
Definition q_mon_read : M query unit := q_mon mon_read.
Definition q_mon_write : M query unit := q_mon mon_write.

(** [socket.socket_ = BIO_get_fd(conn_bio)] *)
Definition take_socket : M query unit :=
  fd <- on_bio (fun b => (BIO_get_fd b, b)) ;;
  modify (fun q => set_io (mkSocketState fd (ss_handler (io_ q)) (ss_com (io_ q)) (ss_state_ (io_ q))
                             (ss_owner (io_ q))) q).

Definition parse_cert (cert_check : X509) : M query unit :=
  modify (fun q => set_targets (ocsp_targets q ++ omap OCSP_parse_url (X509_get1_ocsp cert_check)) q).

Definition do_init (cert_check cert_issuer : X509) : M query bool :=
  parse_cert cert_check ;;;
  t <- gets ocsp_targets ;;
  match t with
  | [] => modify (fun q => set_yield RET_NOOCSP_TARGETS (set_qstate ST_FINISHED q)) ;;; mret_ false
  | _ =>
      req <- gets ocsp_req ;;
      let! (_, req) := qrun (ocsp_prepare_request req cert_check (Some cert_issuer)) in
      modify (set_req req) ;;;
      mret_ true
  end.

(** The loop over the targets, [skip] of them passed over; the port is part of the
    address of the connection. *)
Fixpoint prepare_loop (l : list (string * string * string * bool)) (skip : Z) : M query unit :=
  match l with
  | [] => mret_ tt
  | (host, port, path, ssl) :: l =>
      modify (fun q => set_index (ocsp_target_index q + 1) q) ;;;
      if 0 <? skip then prepare_loop l (skip - 1)
      else
        t <- qlib time ;;
        modify (set_timer t) ;;;
        c <- gets conn_bio ;;
        when c bio_free ;;;
        modify (set_target host path) ;;;
        if ssl : bool then prepare_loop l skip
        else
          let host_port := if bool_decide (port = EmptyString) then host else (host ++ ":" ++ port)%string in
          c <- qlib (BIO_new_connect host_port) ;;
          modify (set_conn c) ;;;
          if c : bool then modify (set_qstate ST_CONNECTING) else prepare_loop l skip
  end.

Definition do_prepare_target : M query bool :=
  i <- gets ocsp_target_index ;;
  let skip := if 0 <=? i then i else 0 in
  modify (set_index (-1)) ;;;
  t <- gets ocsp_targets ;;
  prepare_loop t skip ;;;
  gets conn_bio.

Definition timeout_connect : Z := 2.
Definition timeout_request : Z := 5.

(** The part of [do_connect] with a connection at hand. *)
Definition connect_step : M query bool :=
  rv <- on_bio BIO_do_connect ;;
  if rv <=? 0 then
    take_socket ;;;
    r <- bio_test BIO_should_read ;; when r q_mon_read ;;;
    wr <- bio_test BIO_should_write ;; when wr q_mon_write ;;;
    retry <- bio_test BIO_should_retry ;;
    if retry : bool then
      t <- qlib time ;;
      timer <- gets timer_ ;;
      if timeout_connect <? t - timer then
        bio_free ;;;
        modify (fun q => set_index (ocsp_target_index q + 1) q) ;;;
        modify (set_conn false) ;;;
        modify (fun q => set_yield RET_CONNFAIL (set_qstate ST_CLOSED q)) ;;;
        s <- gets state_ ;; mret_ (bool_decide (s = ST_CONNECTED))
      else mret_ false
    else s <- gets state_ ;; mret_ (bool_decide (s = ST_CONNECTED))
  else
    t <- qlib time ;;
    modify (set_timer t) ;;;
    take_socket ;;;
    q_mon_read ;;;
    modify (set_qstate ST_CONNECTED) ;;;
    mret_ true.

Definition do_connect : M query bool :=
  c <- gets conn_bio ;;
  ready <- (if c : bool then mret_ true else do_prepare_target) ;;
  if ready : bool then connect_step
  else modify (fun q => set_yield RET_NOOCSP_TARGETS (set_qstate ST_FINISHED q)) ;;; mret_ true.

(** [err:] of [do_send_request]. *)
Definition send_error : M query bool :=
  c <- gets conn_bio ;;
  when c (bio_free ;;; modify (set_conn false)) ;;;
  modify (set_qstate ST_CONNECTING) ;;;
  modify (fun q => set_index (ocsp_target_index q + 1) q) ;;;
  mret_ false.

Definition SOCLE_VERSION : string := "0.9.30".

(** [case ST_REQ_INPROGRESS] *)
Definition send_inprogress : M query bool :=
  let! (rv, rsp) := on_bio OCSP_sendreq_nbio in
  modify (fun q => match rsp with Some _ => set_resp rsp q | None => q end) ;;;
  if rv =? -1 then
    t <- qlib time ;;
    timer <- gets timer_ ;;
    if timeout_request <? t - timer then send_error
    else
      r <- bio_test BIO_should_read ;;
      if r : bool then q_mon_read ;;; mret_ false
      else
        wr <- bio_test BIO_should_write ;;
        if wr : bool then q_mon_write ;;; mret_ false
        else send_error
  else if rv =? 1 then modify (set_qstate ST_RESP_RECEIVED) ;;; mret_ true
  else mret_ false.

Definition do_send_request : M query bool :=
  s <- gets state_ ;;
  match s with
  | ST_CONNECTED =>
      path <- gets ocsp_path ;;
      host <- gets ocsp_host ;;
      ctx <- qlib (OCSP_sendreq_new path) ;;
      modify (set_ctx ctx) ;;;
      if negb ctx then send_error else
      h1 <- qlib (OCSP_REQ_CTX_add1_header "Host" host) ;;
      if negb h1 then send_error else
      h2 <- qlib (OCSP_REQ_CTX_add1_header "User-Agent" ("socle/" ++ SOCLE_VERSION)%string) ;;
      if negb h2 then send_error else
      r <- qlib OCSP_REQ_CTX_set1_req ;;
      if negb r then send_error else
      modify (set_qstate ST_REQ_INPROGRESS) ;;;
      send_inprogress
  | ST_REQ_INPROGRESS => send_inprogress
  | _ => mret_ false
  end.

(** The verdict of a response. *)
Definition yield_of (v : Z) : yield_t :=
  if v =? -1 then RET_UNKNOWN
  else if v =? 0 then RET_VALID
  else if v =? 1 then RET_REVOKED
  else RET_UNKNOWNSTATUS.

Definition do_process_response (cert_check cert_issuer : X509) : M query bool :=
  modify (set_qstate ST_FINISHED) ;;;
  resp <- gets ocsp_resp ;;
  match resp with
  | Some r => modify (set_yield (yield_of (revoked (ocsp_verify_response r cert_check cert_issuer)))) ;;;
              mret_ true
  | None => modify (set_yield RET_UNKNOWN) ;;; mret_ false
  end.

(** The cases of [run] from the bottom up, each falling through to the next. *)
Definition run_received (cert issuer : X509) : M query bool :=
  do_process_response cert issuer ;;; mret_ false.
Definition run_connected (cert issuer : X509) : M query bool :=
  sent <- do_send_request ;;
  if sent : bool then modify (set_qstate ST_REQ_SENT) ;;; run_received cert issuer else mret_ true.
Definition run_connecting (cert issuer : X509) : M query bool :=
  connected <- do_connect ;;
  if connected : bool then modify (set_qstate ST_CONNECTED) ;;; run_connected cert issuer
  else
    s <- gets state_ ;;
    mret_ (negb (bool_decide (s = ST_CONNECTING))).

(** [run]: whether to call it again. *)
Definition run (cert issuer : X509) : M query bool :=
  s <- gets state_ ;;
  match s with
  | ST_INIT => do_init cert issuer ;;; run_connecting cert issuer
  | ST_CONNECTING => run_connecting cert issuer
  | ST_CONNECTED | ST_REQ_INPROGRESS => run_connected cert issuer
  | ST_RESP_RECEIVED => run_received cert issuer
  | ST_FINISHED => mret_ false
  | ST_REQ_SENT | ST_CLOSED => mret_ true
  end.
End OcspQuery.
