(* ===== verification/OcspProps.v ===== *)
(** * OcspProps: verdicts of responses and lists, and the life of a query *)

From S2P Require Export Ocsp.

(** ** Lists and responses *)

Section verdicts.
Context `{Pki}.

(** A certificate the list names is reported as not revoked, whatever the list: no call
    of the function ever answers "revoked". *)
Theorem crl_never_revokes cert issuer crl :
  crl_is_revoked_by cert issuer crl <> 1 /\
  forall i c, issuer = Some i -> crl = Some c ->
    X509_get_pubkey i = true -> X509_CRL_verify c i = true ->
    crl_is_revoked_by cert issuer crl = 0.
Proof.
  unfold crl_is_revoked_by. split.
  - destruct issuer, crl; try done. repeat case_if; done.
  - intros i c -> -> -> ->. by destruct (X509_CRL_get0_by_serial c cert).
Qed.

(** What one single response says: it is about this certificate; the time to its next update
    could be computed, which says nothing of that time being past; what its status is. *)
Definition own (cert issuer : X509) (s : OCSP_SINGLERESP) : Prop := OCSP_id_cmp s cert issuer = 0.
Definition timed (s : OCSP_SINGLERESP) : Prop := 0 < fst (fst (ASN1_TIME_diff s)).
Definition says_revoked (s : OCSP_SINGLERESP) : Prop :=
  ~ timed s \/ OCSP_single_get0_status s = V_OCSP_CERTSTATUS_REVOKED.
Definition says_good (s : OCSP_SINGLERESP) : Prop :=
  timed s /\ OCSP_single_get0_status s = V_OCSP_CERTSTATUS_GOOD.
Definition says_neither (s : OCSP_SINGLERESP) : Prop := ~ says_revoked s /\ ~ says_good s.

(** Some single response has [P] and none behind it has not [Q], with one about this
    certificate at its place or before. *)
Definition last_heard (cert issuer : X509) (P Q : OCSP_SINGLERESP -> Prop) (l : list OCSP_SINGLERESP) : Prop :=
  exists before s after, l = before ++ s :: after /\ Exists (own cert issuer) (before ++ [s]) /\ P s /\ Forall Q after.

(** The single responses of a response that is one of the basic kind and verifies. *)
Definition genuine (resp : OCSP_RESPONSE) (issuer : X509) (l : list OCSP_SINGLERESP) : Prop :=
  OCSP_response_get1_basic resp = Some l /\ 0 < OCSP_basic_verify resp issuer.

Lemma last_heard_snoc cert issuer P Q l s :
  last_heard cert issuer P Q (l ++ [s]) <->
  (P s /\ Exists (own cert issuer) (l ++ [s])) \/ (last_heard cert issuer P Q l /\ Q s).
Proof.
  split.
  - intros (b & x & a & E & Ho & HP & HQ). destruct a as [|y a _] using rev_ind.
    + apply app_inj_tail in E as [-> ->]. by left.
    + rewrite app_comm_cons, app_assoc in E. apply app_inj_tail in E as [-> ->].
      apply Forall_app in HQ as [HQ Hy]. right. split; [by exists b, x, a|]. by apply Forall_cons in Hy as [Hy _].
  - intros [[HP Ho]|[(b & x & a & -> & Ho & HP & HQ) Hs]].
    + exists l, s, []. by repeat split.
    + exists b, x, (a ++ [s]). rewrite <- app_assoc. split; [done|]. split; [done|]. split; [done|].
      apply Forall_app. by split; [|constructor].
Qed.

Lemma last_heard_own cert issuer P Q l : last_heard cert issuer P Q l -> Exists (own cert issuer) l.
Proof.
  intros (b & x & a & -> & Ho & _). rewrite cons_middle, app_assoc. apply Exists_app. by left.
Qed.

(** The loop, with one response more at its end. *)
Lemma single_responses_snoc l s cert issuer m v t :
  single_responses (l ++ [s]) cert issuer m v t =
  let '(m, v, t) := single_responses l cert issuer m v t in single_responses [s] cert issuer m v t.
Proof.
  revert m v t. induction l as [|x l IH]; intros m v t; [done|]. cbn [app single_responses].
  destruct (OCSP_id_cmp x cert issuer =? 0), m; cbn [negb]; try apply IH;
    destruct (ASN1_TIME_diff x) as [[r d] c]; destruct (0 <? r); apply IH.
Qed.

(** What the loop has found, and what the answer makes of it. *)
Definition loop_ok (cert issuer : X509) (l : list OCSP_SINGLERESP) (m : bool) (v t : Z) : Prop :=
  (m = true <-> Exists (own cert issuer) l) /\
  (v = 1 <-> last_heard cert issuer says_revoked says_neither l) /\
  (v = 0 <-> last_heard cert issuer says_good says_neither l) /\
  (v = 1 \/ v = 0 \/ v = -1) /\
  (forall r d c, last_heard cert issuer (fun s => ASN1_TIME_diff s = (r, d, c) /\ 0 < r) (fun s => ~ timed s) l ->
     t = s32 (d * 24 * 60 * 60 + c)) /\
  (~ last_heard cert issuer timed (fun s => ~ timed s) l -> t = 60).

(** One turn of the loop, behind a response about this certificate. *)
Lemma step_ok cert issuer l s v t :
  Exists (own cert issuer) (l ++ [s]) ->
  (forall P Q, last_heard cert issuer P Q (l ++ [s]) <-> P s \/ last_heard cert issuer P Q l /\ Q s) ->
  (v = 1 <-> last_heard cert issuer says_revoked says_neither l) ->
  (v = 0 <-> last_heard cert issuer says_good says_neither l) ->
  v = 1 \/ v = 0 \/ v = -1 ->
  (forall r d c, last_heard cert issuer (fun s => ASN1_TIME_diff s = (r, d, c) /\ 0 < r) (fun s => ~ timed s) l ->
     t = s32 (d * 24 * 60 * 60 + c)) ->
  (~ last_heard cert issuer timed (fun s => ~ timed s) l -> t = 60) ->
  let '(m, v, t) :=
    let '(r, days, secs) := ASN1_TIME_diff s in
    if 0 <? r
    then (true, (if OCSP_single_get0_status s =? V_OCSP_CERTSTATUS_REVOKED then 1
                 else if OCSP_single_get0_status s =? V_OCSP_CERTSTATUS_GOOD then 0 else v),
          s32 (days * 24 * 60 * 60 + secs))
    else (true, 1, t) in
  loop_ok cert issuer (l ++ [s]) m v t.
Proof.
  intros Hex Hs H1 H0 Hv Ht Hd. destruct (ASN1_TIME_diff s) as [[r d] c] eqn:Ed.
  assert (timed s <-> 0 < r) as Htd by (unfold timed; by rewrite Ed).
  destruct (Z.ltb_spec 0 r).
  - split; [done|]. rewrite !Hs. split; [|split; [|split; [|split]]].
    + rewrite <- H1. unfold says_neither, says_revoked, says_good.
      unfold V_OCSP_CERTSTATUS_REVOKED, V_OCSP_CERTSTATUS_GOOD.
      destruct (Z.eqb_spec (OCSP_single_get0_status s) 1), (Z.eqb_spec (OCSP_single_get0_status s) 0); intuition lia.
    + rewrite <- H0. unfold says_neither, says_revoked, says_good.
      unfold V_OCSP_CERTSTATUS_REVOKED, V_OCSP_CERTSTATUS_GOOD.
      destruct (Z.eqb_spec (OCSP_single_get0_status s) 1), (Z.eqb_spec (OCSP_single_get0_status s) 0); intuition lia.
    + repeat case_match; tauto.
    + intros r' d' c' [[E _]|[_ ?]]%Hs; [congruence|tauto].
    + tauto.
  - split; [done|]. rewrite !Hs. split; [|split; [|split; [|split]]].
    + rewrite <- H1. unfold says_neither, says_revoked, says_good. intuition lia.
    + rewrite <- H0. unfold says_neither, says_revoked, says_good. intuition lia.
    + by left.
    + intros r' d' c' [[E ?]|[Hh _]]%Hs; [rewrite Ed in E; injection E as -> _ _; lia|by apply (Ht r')].
    + intros Hn. apply Hd. tauto.
Qed.

Lemma single_responses_ok cert issuer l :
  let '(m, v, t) := single_responses l cert issuer false (-1) 60 in loop_ok cert issuer l m v t.
Proof.
  induction l as [|s l IH] using rev_ind.
  { assert (forall P Q, ~ last_heard cert issuer P Q []) as Hn by (intros P Q ([|] & ? & ? & ? & _); done).
    split; [split; [done|by intros ?%Exists_nil]|]. split; [split; [done|by intros ?%Hn]|].
    split; [split; [done|by intros ?%Hn]|]. split; [by right; right|]. split; [by intros r d c ?%Hn|done]. }
  rewrite single_responses_snoc. destruct (single_responses l cert issuer false (-1) 60) as [[m v] t].
  destruct IH as (Hm & H1 & H0 & Hv & Ht & Hd). cbn [single_responses].
  assert (Exists (own cert issuer) (l ++ [s]) <-> m = true \/ own cert issuer s) as Ho.
  { rewrite Exists_app, Hm. rewrite Exists_cons, Exists_nil. tauto. }
  set (m' := if OCSP_id_cmp s cert issuer =? 0 then true else m).
  assert (m' = true <-> m = true \/ own cert issuer s) as Hm'.
  { unfold m', own. destruct (Z.eqb_spec (OCSP_id_cmp s cert issuer) 0); tauto. }
  assert (forall P Q, last_heard cert issuer P Q l -> m' = true) as Hl.
  { intros P Q Hh. apply Hm'. left. by apply Hm, (last_heard_own _ _ P Q). }
  assert (forall P Q, last_heard cert issuer P Q (l ++ [s]) <->
            m' = true /\ (P s \/ last_heard cert issuer P Q l /\ Q s)) as Hs.
  { intros P Q. rewrite last_heard_snoc, Ho, <- Hm'. specialize (Hl P Q). tauto. }
  fold m'. clearbody m'. destruct m'; cbn [negb].
  2: { assert (m = false) as -> by (destruct m; [|done]; symmetry; apply Hm'; by left).
       assert (forall P Q, ~ last_heard cert issuer P Q l) as Hn by (intros P Q ?%Hl; done).
       split; [by rewrite Ho, <- Hm'|].
       split; [by rewrite H1; split; [intros ?%Hn|intros [? _]%Hs]|].
       split; [by rewrite H0; split; [intros ?%Hn|intros [? _]%Hs]|].
       split; [done|]. split; [by intros r d c [? _]%Hs|]. intros _. apply Hd, Hn. }
  apply (step_ok cert issuer l s v t); [by apply Ho, Hm'| |done..].
  intros P Q. rewrite Hs. tauto.
Qed.

(** [C23] The verdict of a response, whatever it holds.  A single response says "revoked" when
    its status does or when the time to its next update cannot be computed (ASN1_TIME_diff
    fails; an update long due does not make it fail), and "good" when its status does and the
    time can be computed; any other says neither.  The verdict is revoked exactly when the
    response is of the basic kind, verifies, and the last of its single responses that says
    anything says "revoked", good exactly when that one says "good", where a response about
    this certificate must be that one or stand somewhere before it; so from the first response
    about this certificate on, those about other certificates count as well.  In all other
    cases it is unknown.  The time to live is that of the last single response whose time
    can be computed and that is, or follows, one about this certificate, in seconds as a
    32-bit int, and 60 when there is none. *)
Theorem ocsp_verdict resp cert issuer :
  let v := ocsp_verify_response resp cert issuer in
  let said P Q := exists l, genuine resp issuer l /\ last_heard cert issuer P Q l in
  (revoked v = 1 <-> said says_revoked says_neither) /\
  (revoked v = 0 <-> said says_good says_neither) /\
  (revoked v = 1 \/ revoked v = 0 \/ revoked v = -1) /\
  (forall r d c, said (fun s => ASN1_TIME_diff s = (r, d, c) /\ 0 < r) (fun s => ~ timed s) ->
     ttl v = s32 (d * 24 * 60 * 60 + c)) /\
  (~ said timed (fun s => ~ timed s) -> ttl v = 60).
Proof.
  cbn zeta. destruct (OCSP_response_get1_basic resp) as [l|] eqn:El, (Z.ltb_spec 0 (OCSP_basic_verify resp issuer)) as [Hb|Hb].
  2-4: assert (ocsp_verify_response resp cert issuer = mkVerifyStatus (-1) 60 FROM_OCSP) as ->
         by (unfold ocsp_verify_response; rewrite El; try done; by rewrite (proj2 (Z.leb_le _ _)) by lia);
       (assert (forall l, ~ genuine resp issuer l) as Hn by (intros l0 [? ?]; congruence || lia));
       cbn; split_and!; [split; [done|by intros (? & ?%Hn & _)]|split; [done|by intros (? & ?%Hn & _)]|by right; right
                        |by intros r d c (? & ?%Hn & _)|done].
  assert (forall P Q, (exists l, genuine resp issuer l /\ last_heard cert issuer P Q l) <-> last_heard cert issuer P Q l) as Hs.
  { intros P Q. split; [|by exists l]. intros (l' & [E _] & Hh). congruence. }
  rewrite !Hs. unfold ocsp_verify_response. rewrite El, (proj2 (Z.leb_gt _ _)) by done.
  pose proof (single_responses_ok cert issuer l) as Hl.
  destruct (single_responses l cert issuer false (-1) 60) as [[m v] t]. destruct Hl as (Hm & H1 & H0 & Hv & Ht & Hd).
  cbn [revoked ttl]. assert ((if m then v else -1) = v) as ->.
  { destruct m; [done|]. destruct Hv as [Hv|[Hv|]]; [apply H1 in Hv|apply H0 in Hv|done];
      by apply last_heard_own, Hm in Hv. }
  split_and!; try done. intros r d c Hh. apply (Ht r). by apply Hs.
Qed.

(** A response that revokes this certificate and then calls another one good clears
    it: the identifier test is not repeated once it has matched. *)
Theorem foreign_response_clears resp mine foreign cert issuer :
  OCSP_response_get1_basic resp = Some [mine; foreign] -> 0 < OCSP_basic_verify resp issuer ->
  OCSP_id_cmp mine cert issuer = 0 -> OCSP_id_cmp foreign cert issuer <> 0 ->
  OCSP_single_get0_status mine = V_OCSP_CERTSTATUS_REVOKED ->
  OCSP_single_get0_status foreign = V_OCSP_CERTSTATUS_GOOD ->
  0 < fst (fst (ASN1_TIME_diff foreign)) ->
  revoked (ocsp_verify_response resp cert issuer) = 0.
Proof.
  intros E Hv Hm Hf Hs1 Hs2 Ht. unfold ocsp_verify_response. rewrite E.
  rewrite (proj2 (Z.leb_gt _ _)) by done. cbn [single_responses]. rewrite Hm, Hs1, Hs2. cbn [Z.eqb negb].
  destruct (ASN1_TIME_diff mine) as [[r d] c], (ASN1_TIME_diff foreign) as [[r2 d2] c2]. cbn [fst] in Ht.
  assert (0 <? r2 = true) as Er by lia.
  destruct (0 <? r); cbn; rewrite (proj2 (Z.eqb_neq _ 0)) by done; by rewrite Er.
Qed.

End verdicts.

(** ** Asking every responder *)

Section asking.
Context `{BioLib} `{EpollKernel} (k0 : kstate).

(** Of two responders that answer, the second decides, even when the first one had said
    "revoked": the loop's early end tests a local that is never assigned. *)
Theorem last_responder_decides fuel cert issuer u1 u2 h1 p1 q1 h2 p2 q2 b b0 b1 b2 r1 r2 t req :
  X509_get1_ocsp cert = [u1; u2] ->
  OCSP_parse_url u1 = Some (h1, p1, q1, false) -> OCSP_parse_url u2 = Some (h2, p2, q2, false) ->
  ocsp_prepare_request false cert (Some issuer) b = Ret req b0 ->
  ocsp_send_request k0 fuel h1 q1 p1 false t b0 = Ret (Some (Some r1)) b1 ->
  ocsp_send_request k0 fuel h2 q2 p2 false t b1 = Ret (Some (Some r2)) b2 ->
  OCSP_response_status r2 = OCSP_RESPONSE_STATUS_SUCCESSFUL ->
  ocsp_check_cert k0 fuel cert (Some issuer) t b = Ret (Some (ocsp_verify_response r2 cert issuer)) b2.
Proof.
  intros Eu E1 E2 E0 S1 S2 Hs. unfold ocsp_check_cert. rewrite (bind_ret _ _ _ _ _ E0), Eu.
  cbn [check_urls]. rewrite E1, (bind_ret _ _ _ _ _ S1), E2, (bind_ret _ _ _ _ _ S2), Hs. done.
Qed.
End asking.

(** ** The life of a query *)

Section life.
Context `{BioLib} `{EpollKernel} (k0 : kstate) (tr : Z -> Z) (cert issuer : X509).

(** The queries [run] can be called on, from a new one. *)
Inductive reaches (q0 : query) : query -> Prop :=
  | reaches_refl : reaches q0 q0
  | reaches_run q r q' : reaches q0 q -> run k0 tr cert issuer q = Ret r q' -> reaches q0 q'.

(** A verdict is there only at the end, and it is that of the response received. *)
Definition verdict_ok (q : query) : Prop :=
  yield_ q = RET_VALID \/ yield_ q = RET_REVOKED ->
  state_ q = ST_FINISHED /\
  exists r, ocsp_resp q = Some r /\
    yield_ q = yield_of (revoked (ocsp_verify_response r cert issuer)).

Definition undecided (q : query) : Prop := yield_ q <> RET_VALID /\ yield_ q <> RET_REVOKED.

Lemma undecided_ok q : undecided q -> verdict_ok q.
Proof. intros [Hv Hr] [?|?]; done. Qed.

Lemma up_modify f : (forall q, yield_ (f q) = yield_ q) -> upholds undecided (modify f).
Proof. intros Hf. apply upholds_modify. intros q. unfold undecided. by rewrite Hf. Qed.
Lemma up_yield f : (forall q, yield_ (f q) = RET_NOOCSP_TARGETS \/ yield_ (f q) = RET_CONNFAIL) ->
  upholds undecided (modify f).
Proof. intros Hf. apply upholds_modify. intros q _. unfold undecided. destruct (Hf q) as [-> | ->]; done. Qed.
Lemma up_qlib {A} (f : bio -> A * bio) : upholds undecided (qlib f).
Proof. intros q Hq. unfold qlib. by destruct (f (q_bio q)). Qed.

Lemma up_qrun {A} (m : M bio A) : upholds undecided (qrun m).
Proof. intros q Hq. unfold qrun. by destruct (m (q_bio q)). Qed.

Hint Resolve up_qlib up_qrun : upholds.
Hint Extern 1 (upholds undecided (modify _)) =>
  first [apply up_modify; done | apply up_yield; intros; cbn; tauto] : upholds.

Lemma up_on_bio {A} (f : bio -> A * bio) : upholds undecided (on_bio f).
Proof. unfold on_bio. auto with upholds. Qed.
Hint Resolve up_on_bio : upholds.
Hint Unfold bio_test bio_free q_mon_read q_mon_write q_mon take_socket parse_cert : upholds.

Lemma up_init : upholds undecided (do_init cert issuer).
Proof.
  unfold do_init, parse_cert. apply upholds_bind; [auto with upholds | intros _].
  apply upholds_bind; [auto with upholds | intros [|t l]]; [auto with upholds|].
  apply upholds_bind; [auto with upholds | intros req].
  apply upholds_bind; [auto with upholds | intros [n new]; auto with upholds].
Qed.

Lemma up_prepare l skip : upholds undecided (prepare_loop l skip).
Proof.
  revert skip. induction l as [|[[[h p] u] ssl] l IH]; intros skip; cbn [prepare_loop]; [auto with upholds|].
  unfold bio_free. auto 20 with upholds.
Qed.

Lemma up_connect : upholds undecided (do_connect k0 tr).
Proof.
  unfold do_connect, connect_step, do_prepare_target, take_socket, q_mon_read, q_mon_write, q_mon, bio_test, bio_free.
  auto 40 using up_prepare with upholds.
Qed.

Lemma up_send : upholds undecided (do_send_request k0 tr).
Proof.
  unfold do_send_request. apply upholds_bind; [auto with upholds | intros st].
  assert (Hp : upholds undecided (send_inprogress k0 tr)).
  { unfold send_inprogress, send_error, q_mon_read, q_mon_write, q_mon, bio_test, bio_free.
    apply upholds_bind; [auto with upholds | intros [rv rsp]].
    apply upholds_bind; [apply up_modify; intros q; by destruct rsp | auto 20 with upholds]. }
  destruct st; auto with upholds. unfold send_error, bio_free. auto 40 with upholds.
Qed.

Lemma received_ok q r q' : undecided q -> run_received cert issuer q = Ret r q' -> verdict_ok q' /\ r = false.
Proof.
  intros Hq E. unfold run_received, do_process_response in E.
  apply bind_inv in E as (b & q1 & E & Er). unfold mret_ in Er. injection Er as <- <-. split; [|done].
  rewrite bind_modify, bind_gets in E. cbn [ocsp_resp set_qstate] in E.
  destruct (ocsp_resp q) as [resp|] eqn:Eresp; unfold mbind_, modify, mret_ in E; injection E as <- <-.
  - intros _. cbn. split; [done|]. exists resp. by rewrite Eresp.
  - intros [?|?]; done.
Qed.

Lemma connected_ok q r q' : undecided q -> run_connected k0 tr cert issuer q = Ret r q' -> verdict_ok q'.
Proof.
  intros Hq E. unfold run_connected in E. apply bind_inv in E as (sent & q1 & E & Er).
  pose proof (upholds_out _ _ _ _ _ up_send Hq E) as Hq1. destruct sent.
  - rewrite bind_modify in Er. by eapply received_ok in Er as [? _].
  - unfold mret_ in Er. injection Er as <- <-. by apply undecided_ok.
Qed.

Lemma connecting_ok q r q' : undecided q -> run_connecting k0 tr cert issuer q = Ret r q' -> verdict_ok q'.
Proof.
  intros Hq E. unfold run_connecting in E. apply bind_inv in E as (c & q1 & E & Er).
  pose proof (upholds_out _ _ _ _ _ up_connect Hq E) as Hq1. destruct c.
  - rewrite bind_modify in Er. eapply connected_ok; [|exact Er]. exact Hq1.
  - rewrite bind_gets in Er. unfold mret_ in Er. injection Er as <- <-. by apply undecided_ok.
Qed.

Lemma run_keeps_verdict q r q' : verdict_ok q -> run k0 tr cert issuer q = Ret r q' -> verdict_ok q'.
Proof.
  intros Hok E. assert (Hu : state_ q <> ST_FINISHED -> undecided q).
  { intros Hs. split; intros Hy; apply Hs, Hok; auto. }
  unfold run in E. rewrite bind_gets in E. destruct (state_ q) eqn:Es.
  - apply bind_inv in E as (i & q1 & E & Er). eapply connecting_ok, Er.
    by apply (upholds_out _ _ _ _ _ up_init (Hu ltac:(done)) E).
  - by eapply connecting_ok; [apply Hu | exact E].
  - by eapply connected_ok; [apply Hu | exact E].
  - by eapply connected_ok; [apply Hu | exact E].
  - unfold mret_ in E. by injection E as <- <-.
  - by eapply received_ok in E as [? _]; [|apply Hu].
  - unfold mret_ in E. by injection E as <- <-.
  - unfold mret_ in E. by injection E as <- <-.
Qed.


(** A response that arrives finishes the query in the same call, with its verdict. *)
Theorem response_finishes q b r :
  state_ q = ST_REQ_INPROGRESS -> conn_bio q = true ->
  OCSP_sendreq_nbio (q_bio q) = (1, Some r, b) ->
  exists q', run k0 tr cert issuer q = Ret false q' /\ state_ q' = ST_FINISHED /\
    yield_ q' = yield_of (revoked (ocsp_verify_response r cert issuer)).
Proof.
  intros Hs Hc Hn. unfold run. rewrite bind_gets, Hs. unfold run_connected, do_send_request.
  rewrite bind_assoc, bind_gets, Hs. unfold send_inprogress, on_bio. rewrite !bind_assoc, bind_gets, Hc.
  unfold qlib, mbind_ at 1. rewrite Hn. cbn. eexists. split; [reflexivity | done].
Qed.

(** A certificate without a responder: [do_init] says finished, [run] goes on to send the
    request over the connection that does not exist. *)
Theorem no_targets_dereferences_null q b1 b2 b3 b4 :
  state_ q = ST_INIT -> conn_bio q = false -> ocsp_targets q = [] ->
  omap OCSP_parse_url (X509_get1_ocsp cert) = [] ->
  OCSP_sendreq_new (ocsp_path q) (q_bio q) = (true, b1) ->
  OCSP_REQ_CTX_add1_header "Host" (ocsp_host q) b1 = (true, b2) ->
  OCSP_REQ_CTX_add1_header "User-Agent" ("socle/" ++ SOCLE_VERSION)%string b2 = (true, b3) ->
  OCSP_REQ_CTX_set1_req b3 = (true, b4) ->
  run k0 tr cert issuer q = Undef.
Proof.
  intros Hs Hc Ht Hu E1 E2 E3 E4. unfold run. rewrite bind_gets, Hs.
  unfold do_init, parse_cert. rewrite bind_assoc, bind_modify, bind_assoc, bind_gets.
  cbn [ocsp_targets set_targets]. rewrite Ht, Hu. cbn [app]. rewrite bind_assoc, bind_modify, bind_pure.
  unfold run_connecting, do_connect. rewrite bind_assoc, bind_gets. cbn [conn_bio set_yield set_qstate set_targets].
  rewrite Hc, bind_assoc. unfold do_prepare_target. rewrite bind_assoc, bind_gets, bind_assoc, bind_modify.
  rewrite bind_assoc, bind_gets. cbn [ocsp_targets set_index set_yield set_qstate set_targets prepare_loop].
  rewrite bind_assoc, bind_pure, bind_gets. cbn [conn_bio set_index set_yield set_qstate set_targets].
  rewrite Hc. rewrite bind_assoc, bind_modify, bind_pure, bind_modify.
  unfold run_connected, do_send_request, qlib, mbind_, gets, modify, mret_. cbn.
  cbn in E3. rewrite E1. cbn. rewrite E2. cbn. rewrite E3. cbn. rewrite E4. cbn.
  unfold send_inprogress, on_bio, mbind_, gets. cbn. by rewrite Hc.
Qed.

(** A responder that does not answer the connect in time strands the query: the state
    becomes one that [run] has no case for, so it asks to be called again for ever and no
    other responder is tried. *)
Theorem connect_timeout_strands q b1 b2 t :
  state_ q = ST_CONNECTING -> conn_bio q = true ->
  BIO_do_connect (q_bio q) = (-1, b1) -> BIO_should_retry b1 = true ->
  BIO_should_read b1 = false -> BIO_should_write b1 = false ->
  time b1 = (t, b2) -> timeout_connect < t - timer_ q ->
  exists q', run k0 tr cert issuer q = Ret true q' /\ state_ q' = ST_CLOSED /\
    forall q'', reaches q' q'' -> q'' = q' /\ run k0 tr cert issuer q'' = Ret true q''.
Proof.
  intros Hs Hc E Hr Hrd Hw Et Hlate.
  assert (Hl : timeout_connect <? t - timer_ q = true) by lia.
  eexists. split; [|split].
  - unfold run. rewrite bind_gets, Hs. unfold run_connecting, do_connect. rewrite !bind_assoc, bind_gets, Hc.
    cbv iota. unfold connect_step, take_socket, bio_test, bio_free, on_bio, qlib, mbind_, gets, modify, mret_, when.
    rewrite Hc, E. cbn. repeat (rewrite Hc; cbn).
    rewrite Hrd. cbn. rewrite Hc. cbn. rewrite Hw. cbn. rewrite Hc. cbn. rewrite Hr. cbn.
    rewrite Et. cbn. rewrite Hl. cbn. reflexivity.
  - done.
  - assert (Hstay : forall q, state_ q = ST_CLOSED -> run k0 tr cert issuer q = Ret true q).
    { intros p Hp. unfold run. by rewrite bind_gets, Hp. }
    intros q'' H3. induction H3 as [|p r p' Hp IH Ep]; [split; [done | by apply Hstay]|].
    destruct IH as [-> IH]. rewrite IH in Ep. injection Ep as _ <-. split; [done | exact IH].
Qed.
End life.
