(* ===== verification/Verify.v ===== *)
(** * Verify: the verdict on a server's certificate (sslcom.hpp, sslcom.tpp)

    [verify_status_] is a set of bits that the callbacks of the handshake build up: the
    chain verification, the OCSP staple or query with the CRL as its fallback, the
    certificate transparency entries and a request for a client certificate. A callback's
    result lets the handshake go on or breaks it off.

    Logging is left out; [SSL_get_ex_data] finding no com is the [false] of [found]. *)

From S2P Require Export Ocsp PtrCache.

(** [verify_status_t] *)
Definition VRF_OK : Z := 0x1.
Definition VRF_UNKNOWN_ISSUER : Z := 0x2.
Definition VRF_SELF_SIGNED : Z := 0x4.
Definition VRF_INVALID : Z := 0x8.
Definition VRF_SELF_SIGNED_CHAIN : Z := 0x10.
Definition VRF_REVOKED : Z := 0x20.
Definition VRF_CLIENT_CERT_RQ : Z := 0x40.
Definition VRF_HOSTNAME_FAILED : Z := 0x80.
Definition VRF_CT_MISSING : Z := 0x100.
Definition VRF_CT_FAILED : Z := 0x200.
Definition VRF_DEFERRED : Z := 0x1000.
Definition VRF_EXTENDED_INFO : Z := 0x2000.
Definition VRF_ALLFAILED : Z := 0x4000.
Definition VRF_NOTTESTED : Z := 0x8000.

(** [vrf_other_values_t] *)
Definition VRF_OTHER_SHA1_SIGNATURE : Z := 42.
Definition VRF_OTHER_CT_INVALID : Z := 43.
Definition VRF_OTHER_CT_FAILED : Z := 44.

(** [flag_set], [flag_reset], [flag_flip] and [flag_check] (common/display.hpp). *)
Definition flag_set (variable check : Z) : Z := Z.lor variable check.
Definition flag_reset (variable check : Z) : Z := Z.land variable (Z.lnot check).
Definition flag_flip (variable check : Z) : Z := Z.lxor variable check.
Definition flag_check (variable check : Z) : bool := negb (Z.land variable check =? 0).

Inductive verify_origin_t : Type :=
  | ORIGIN_NONE | OCSP_STAPLING | OCSP_CACHE | OCSP | CRL_CACHE | CRL | EXEMPT.

Definition verify_origin_str (v : verify_origin_t) : string :=
  match v with
  | ORIGIN_NONE => "none"
  | OCSP_STAPLING => "ocsp stapling"
  | OCSP => "ocsp"
  | OCSP_CACHE => "ocsp cache"
  | CRL => "crl"
  | CRL_CACHE => "crl cache"
  | EXEMPT => "<?>"
  end.

Inductive staple_code_t : Type :=
  | NOT_PROCESSED | MISSING_BODY | PARSING_FAILED | STATUS_NOK | GET_BASIC_FAILED
  | BASIC_VERIFY_FAILED | CERT_TO_ID_FAILED | NO_FIND_STATUS | INVALID_TIME | SUCCESS.

#[export] Instance staple_code_eq_dec : EqDecision staple_code_t.
Proof. solve_decision. Defined.
#[export] Instance verify_origin_eq_dec : EqDecision verify_origin_t.
Proof. solve_decision. Defined.

(** The codes of x509_vfy.h and ct.h. *)
Definition X509_V_OK : Z := 0.
Definition X509_V_ERR_UNABLE_TO_GET_ISSUER_CERT : Z := 2.
Definition X509_V_ERR_CERT_NOT_YET_VALID : Z := 9.
Definition X509_V_ERR_CERT_HAS_EXPIRED : Z := 10.
Definition X509_V_ERR_ERROR_IN_CERT_NOT_BEFORE_FIELD : Z := 13.
Definition X509_V_ERR_ERROR_IN_CERT_NOT_AFTER_FIELD : Z := 14.
Definition X509_V_ERR_DEPTH_ZERO_SELF_SIGNED_CERT : Z := 18.
Definition X509_V_ERR_SELF_SIGNED_CERT_IN_CHAIN : Z := 19.
Definition X509_V_ERR_UNABLE_TO_GET_ISSUER_CERT_LOCALLY : Z := 20.
Definition X509_V_ERR_UNABLE_TO_VERIFY_LEAF_SIGNATURE : Z := 21.
Definition X509_V_ERR_CERT_UNTRUSTED : Z := 27.
Definition X509_V_ERR_NO_EXPLICIT_POLICY : Z := 43.
Definition SCT_VALIDATION_STATUS_VALID : Z := 2.
Definition SCT_VALIDATION_STATUS_INVALID : Z := 3.

(** What else the callbacks ask of OpenSSL and of the network. *)
Class PkiMore `{BioLib} := {
  X509_NAME_get_text : X509 -> Z -> string;     (* the common name, in a buffer of that length *)
  X509_digest_sha1 : X509 -> bytes;
  is_sha1_signature : X509 -> bool;
  d2i_X509_CRL : bytes -> option X509_CRL;
  download : string -> Z -> bio -> option bytes * bio;
  SSL_get_tlsext_status_ocsp_resp : bio -> option bytes;
  d2i_OCSP_RESPONSE : bytes -> option OCSP_RESPONSE;
  OCSP_resp_find_status : OCSP_RESPONSE -> X509 -> X509 -> option Z;
  OCSP_check_validity : OCSP_RESPONSE -> X509 -> X509 -> bool
}.

Section certs.
Context `{PkiMore}.

Definition SSLCERTSTORE_BUFSIZE : Z := 512.
Definition print_cn (x : X509) : string := X509_NAME_get_text x (SSLCERTSTORE_BUFSIZE - 1).

Definition hex_char (d : Z) : Ascii.ascii :=
  Ascii.ascii_of_nat (Z.to_nat (if d <? 10 then 48 + d else 87 + d)).
Definition fingerprint (cert : option X509) : string :=
  match cert with
  | None => EmptyString
  | Some c => foldr (fun x s => String (hex_char (x / 16)) (String (hex_char (x mod 16)) s))
                EmptyString (X509_digest_sha1 c)
  end.

(** The key of the verdict cache. *)
Definition cert_name (x : X509) : string := (print_cn x ++ ";" ++ fingerprint (Some x))%string.

(** [expiring<T>]: the value and the second it expires; [in_seconds] is unsigned. *)
Definition expiring (A : Type) : Type := (A * Z)%type.
Definition make_expiring {A} (now : Z) (v : A) (in_seconds : Z) : expiring A := (v, now + u32 in_seconds).
Definition expired {A} (now : Z) (e : expiring A) : bool := snd e <=? now.

Definition make_exp_ocsp_status (now result ttl : Z) : expiring VerifyStatus :=
  make_expiring now (mkVerifyStatus result ttl FROM_OCSP) ttl.
Definition make_exp_crl_status (now result ttl : Z) : expiring VerifyStatus :=
  make_expiring now (mkVerifyStatus result ttl FROM_CRL) ttl.
Definition crl_status_ttl : Z := 86400.
Definition make_expiring_crl (now : Z) (crl : option X509_CRL) : expiring (option X509_CRL) :=
  make_expiring now crl crl_status_ttl.
End certs.

(** ** The com as the callbacks see it *)

(** [SSLComOptionsCert] and [SSLComOptionsOcsp]. *)
Record SSLComOptionsCert : Type := mkOptCert {
  allow_unknown_issuer : bool;
  allow_self_signed_chain : bool;
  allow_not_valid : bool;
  allow_self_signed : bool;
  failed_check_replacement : bool;
  client_cert_action : Z
}.
Record SSLComOptionsOcsp : Type := mkOptOcsp {
  stapling_enabled : bool;
  stapling_mode : Z;
  enforce_in_verify : bool;
  ocsp_mode : Z
}.

Definition opt_cert_default : SSLComOptionsCert := mkOptCert false false false false true 1.
Definition opt_ocsp_default : SSLComOptionsOcsp := mkOptOcsp false 0 false 0.

Section com.
Context `{PkiMore} `{EpollKernel} (k0 : kstate).

Record vcom : Type := mkVcom {
  verify_status_ : Z;
  vrf_other_ : list Z;
  opt_cert : SSLComOptionsCert;
  opt_ocsp : SSLComOptionsOcsp;
  sslcom_target_cert : option X509;
  sslcom_target_issuer : option X509;
  sslcom_target_issuer_issuer : option X509;
  ocsp_cert_is_revoked : Z;
  verify_origin_ : verify_origin_t;
  v_error : bool;                                        (* error(ERROR_UNSPEC) *)
  verify_cache : cache string (expiring VerifyStatus);   (* of the factory *)
  crl_cache : cache string (expiring (option X509_CRL));
  v_bio : bio
}.

Definition set_status (s : Z) (c : vcom) : vcom :=
  mkVcom s (vrf_other_ c) (opt_cert c) (opt_ocsp c) (sslcom_target_cert c) (sslcom_target_issuer c)
    (sslcom_target_issuer_issuer c) (ocsp_cert_is_revoked c) (verify_origin_ c) (v_error c)
    (verify_cache c) (crl_cache c) (v_bio c).
Definition add_other (v : Z) (c : vcom) : vcom :=
  mkVcom (verify_status_ c) (vrf_other_ c ++ [v]) (opt_cert c) (opt_ocsp c) (sslcom_target_cert c)
    (sslcom_target_issuer c) (sslcom_target_issuer_issuer c) (ocsp_cert_is_revoked c)
    (verify_origin_ c) (v_error c) (verify_cache c) (crl_cache c) (v_bio c).
Definition set_enforce_in_verify (c : vcom) : vcom :=
  mkVcom (verify_status_ c) (vrf_other_ c) (opt_cert c)
    (mkOptOcsp (stapling_enabled (opt_ocsp c)) (stapling_mode (opt_ocsp c)) true (ocsp_mode (opt_ocsp c)))
    (sslcom_target_cert c) (sslcom_target_issuer c) (sslcom_target_issuer_issuer c)
    (ocsp_cert_is_revoked c) (verify_origin_ c) (v_error c) (verify_cache c) (crl_cache c) (v_bio c).
Definition set_certs (a b d : option X509) (c : vcom) : vcom :=
  mkVcom (verify_status_ c) (vrf_other_ c) (opt_cert c) (opt_ocsp c) a b d (ocsp_cert_is_revoked c)
    (verify_origin_ c) (v_error c) (verify_cache c) (crl_cache c) (v_bio c).
Definition set_revoked (v : Z) (c : vcom) : vcom :=
  mkVcom (verify_status_ c) (vrf_other_ c) (opt_cert c) (opt_ocsp c) (sslcom_target_cert c)
    (sslcom_target_issuer c) (sslcom_target_issuer_issuer c) v (verify_origin_ c) (v_error c)
    (verify_cache c) (crl_cache c) (v_bio c).
Definition set_origin (v : verify_origin_t) (c : vcom) : vcom :=
  mkVcom (verify_status_ c) (vrf_other_ c) (opt_cert c) (opt_ocsp c) (sslcom_target_cert c)
    (sslcom_target_issuer c) (sslcom_target_issuer_issuer c) (ocsp_cert_is_revoked c) v (v_error c)
    (verify_cache c) (crl_cache c) (v_bio c).
Definition set_verror (c : vcom) : vcom :=
  mkVcom (verify_status_ c) (vrf_other_ c) (opt_cert c) (opt_ocsp c) (sslcom_target_cert c)
    (sslcom_target_issuer c) (sslcom_target_issuer_issuer c) (ocsp_cert_is_revoked c)
    (verify_origin_ c) true (verify_cache c) (crl_cache c) (v_bio c).
Definition set_verify_cache (v : cache string (expiring VerifyStatus)) (c : vcom) : vcom :=
  mkVcom (verify_status_ c) (vrf_other_ c) (opt_cert c) (opt_ocsp c) (sslcom_target_cert c)
    (sslcom_target_issuer c) (sslcom_target_issuer_issuer c) (ocsp_cert_is_revoked c)
    (verify_origin_ c) (v_error c) v (crl_cache c) (v_bio c).
Definition set_crl_cache (v : cache string (expiring (option X509_CRL))) (c : vcom) : vcom :=
  mkVcom (verify_status_ c) (vrf_other_ c) (opt_cert c) (opt_ocsp c) (sslcom_target_cert c)
    (sslcom_target_issuer c) (sslcom_target_issuer_issuer c) (ocsp_cert_is_revoked c)
    (verify_origin_ c) (v_error c) (verify_cache c) v (v_bio c).
Definition set_vbio (v : bio) (c : vcom) : vcom :=
  mkVcom (verify_status_ c) (vrf_other_ c) (opt_cert c) (opt_ocsp c) (sslcom_target_cert c)
    (sslcom_target_issuer c) (sslcom_target_issuer_issuer c) (ocsp_cert_is_revoked c)
    (verify_origin_ c) (v_error c) (verify_cache c) (crl_cache c) v.

(** [verify_bitcheck], [verify_bitset], [verify_bitreset], [verify_bitflip], [verify_reset]. *)
Definition verify_bitcheck (s : Z) (c : vcom) : bool := flag_check (verify_status_ c) s.
Definition verify_bitset (s : Z) (c : vcom) : vcom := set_status (flag_set (verify_status_ c) s) c.
Definition verify_bitreset (s : Z) (c : vcom) : vcom := set_status (flag_reset (verify_status_ c) s) c.
Definition verify_bitflip (s : Z) (c : vcom) : vcom := set_status (flag_flip (verify_status_ c) s) c.
Definition verify_reset (s : Z) (c : vcom) : vcom := set_status s c.

(** A [bool] returned as [int]. *)
Definition b2i (b : bool) : Z := if b then 1 else 0.

(** ** The chain *)

(** The [switch] on the error: the bit it raises and the option that allows it. *)
Definition vrfy_problem (err_code : Z) (o : SSLComOptionsCert) : option (Z * bool) :=
  if err_code =? X509_V_OK then None
  else if (err_code =? X509_V_ERR_UNABLE_TO_GET_ISSUER_CERT_LOCALLY)
       || (err_code =? X509_V_ERR_UNABLE_TO_VERIFY_LEAF_SIGNATURE)
       || (err_code =? X509_V_ERR_UNABLE_TO_GET_ISSUER_CERT)
  then Some (VRF_UNKNOWN_ISSUER, allow_unknown_issuer o)
  else if (err_code =? X509_V_ERR_SELF_SIGNED_CERT_IN_CHAIN) || (err_code =? X509_V_ERR_CERT_UNTRUSTED)
  then Some (VRF_SELF_SIGNED_CHAIN, allow_self_signed_chain o)
  else if err_code =? X509_V_ERR_DEPTH_ZERO_SELF_SIGNED_CERT
  then Some (VRF_SELF_SIGNED, allow_self_signed o)
  else if (err_code =? X509_V_ERR_CERT_NOT_YET_VALID) || (err_code =? X509_V_ERR_ERROR_IN_CERT_NOT_BEFORE_FIELD)
       || (err_code =? X509_V_ERR_CERT_HAS_EXPIRED) || (err_code =? X509_V_ERR_ERROR_IN_CERT_NOT_AFTER_FIELD)
  then Some (VRF_INVALID, allow_not_valid o)
  else if err_code =? X509_V_ERR_NO_EXPLICIT_POLICY then None
  else if X509_V_OK <? err_code then Some (VRF_INVALID, allow_not_valid o)
  else None.

(** [ssl_client_vrfy_callback]: the store context gives the current certificate, its depth
    in the chain and the error. *)
Definition ssl_client_vrfy_callback (found : bool) (lib_preverify err_code depth : Z) (xcert : option X509)
  : M vcom Z :=
  if negb found then mret_ 0 else
  (if depth =? 0 then
     modify (fun c => set_certs xcert (sslcom_target_issuer c) (sslcom_target_issuer_issuer c) c)
   else if depth =? 1 then
     modify (fun c => set_certs (sslcom_target_cert c) xcert (sslcom_target_issuer_issuer c) c) ;;;
     when (match xcert with Some x => is_sha1_signature x | None => false end)
       (modify (fun c => add_other VRF_OTHER_SHA1_SIGNATURE (verify_bitset VRF_EXTENDED_INFO c)))
   else when (depth =? 2)
     (modify (fun c => set_certs (sslcom_target_cert c) (sslcom_target_issuer c) xcert c))) ;;;
  o <- gets opt_cert ;;
  match vrfy_problem err_code o with
  | None => mret_ lib_preverify
  | Some (bit, allowed) =>
      modify (verify_bitset bit) ;;;
      mret_ (if allowed || failed_check_replacement o then 1 else lib_preverify)
  end.

(** ** The options that excuse a problem *)

Definition is_verify_status_opt_allowed (c : vcom) : bool :=
  let o := opt_cert c in
  let allowed := true in
  let problem_mask := verify_status_ c in
  let '(allowed, problem_mask) :=
    if allowed && verify_bitcheck VRF_SELF_SIGNED c
    then (allow_self_signed o, flag_reset problem_mask VRF_SELF_SIGNED) else (allowed, problem_mask) in
  let '(allowed, problem_mask) :=
    if allowed && verify_bitcheck VRF_SELF_SIGNED_CHAIN c
    then (allow_self_signed_chain o, flag_reset problem_mask VRF_SELF_SIGNED_CHAIN)
    else (allowed, problem_mask) in
  let '(allowed, problem_mask) :=
    if allowed && verify_bitcheck VRF_INVALID c
    then (allow_not_valid o, flag_reset problem_mask VRF_INVALID) else (allowed, problem_mask) in
  let '(allowed, problem_mask) :=
    if allowed && verify_bitcheck VRF_UNKNOWN_ISSUER c
    then (allow_unknown_issuer o, flag_reset problem_mask VRF_UNKNOWN_ISSUER) else (allowed, problem_mask) in
  if allowed then
    let problem_mask := flag_reset problem_mask VRF_OK in
    let problem_mask := flag_reset problem_mask VRF_DEFERRED in
    let problem_mask := flag_reset problem_mask VRF_ALLFAILED in
    (problem_mask =? 0) || (problem_mask =? VRF_CLIENT_CERT_RQ)
  else false.

(** ** Revocation *)

(** Calls on the caches and the library; the clock of an expiry is read when asked. *)
Definition with_verify {A} (m : M (cache string (expiring VerifyStatus)) A) : M vcom A := fun c =>
  match m (verify_cache c) with
  | Ret a v => Ret a (set_verify_cache v c)
  | Throw e v => Throw e (set_verify_cache v c)
  | Undef => Undef
  end.
Definition with_crl {A} (m : M (cache string (expiring (option X509_CRL))) A) : M vcom A := fun c =>
  match m (crl_cache c) with
  | Ret a v => Ret a (set_crl_cache v c)
  | Throw e v => Throw e (set_crl_cache v c)
  | Undef => Undef
  end.
Definition with_bio {A} (m : M bio A) : M vcom A := fun c =>
  match m (v_bio c) with
  | Ret a v => Ret a (set_vbio v c)
  | Throw e v => Throw e (set_vbio v c)
  | Undef => Undef
  end.
Definition clock : M vcom Z := with_bio (lib time).

(** [verify_cache().get]: the factory installed the expiry check. *)
Definition verify_get_cached (cn : string) : M vcom (option (expiring VerifyStatus)) :=
  t <- clock ;;
  with_verify
    (modify (fun v => mkCache (blocks v) (items v) (mode_ v) (max_size_ v) (dbs_ v) (Some (expired t))) ;;;
     cache_get cn).

Definition tolerated_dnld_time : Z := 3.

(** The list behind one URL: from the cache or the network. What comes back is what
    [crl_struct] holds after the [if], given what it held before. *)
Definition crl_fetch (crl_url : string) (crl_struct : option X509_CRL) (org : verify_origin_t)
  : M vcom (option X509_CRL * verify_origin_t) :=
  e <- with_crl (cache_get crl_url) ;;
  match e with
  | Some crl_cache_entry => mret_ (crl_struct, CRL_CACHE)
  | None =>
      b <- with_bio (lib (download crl_url (tolerated_dnld_time * 3))) ;;
      t <- clock ;;
      match b with
      | Some b =>
          let crl_struct := d2i_X509_CRL b in
          match crl_struct with
          | Some _ => with_crl (cache_set crl_url (make_expiring_crl t crl_struct)) ;;; mret_ tt
          | None => mret_ tt
          end ;;;
          mret_ (crl_struct, org)
      | None =>
          with_crl (cache_set crl_url (make_expiring_crl t None)) ;;;
          mret_ (crl_struct, org)
      end
  end.

(** The loop over the distribution points: verdict and origin. *)
Fixpoint crl_loop (crls : list string) (cert issuer : X509) (crl_struct : option X509_CRL)
  (revoked : Z) (org : verify_origin_t) : M vcom (Z * verify_origin_t) :=
  match crls with
  | [] => mret_ (revoked, org)
  | crl_url :: crls =>
      let! (crl_struct, org) := crl_fetch crl_url crl_struct org in
      let is_revoked_by_crl :=
        match crl_struct with
        | Some crl =>
            if crl_verify_trust cert issuer crl =? 0 then -1
            else crl_is_revoked_by cert (Some issuer) (Some crl)
        | None => -1
        end in
      if 0 <=? is_revoked_by_crl then mret_ (is_revoked_by_crl, CRL)
      else crl_loop crls cert issuer crl_struct is_revoked_by_crl org
  end.

(** The verdict of OCSP, from the cache or the responders; [None] when the fuel of a query
    runs out. *)
Definition ocsp_or_cached (fuel : nat) (cert issuer : X509) : M vcom (option (Z * verify_origin_t)) :=
  let cn := cert_name cert in
  cached_result <- verify_get_cached cn ;;
  match cached_result with
  | Some e => mret_ (Some (revoked (fst e), OCSP_CACHE))
  | None =>
      res <- with_bio (ocsp_check_cert k0 fuel cert (Some issuer) 2) ;;
      match res with
      | None => mret_ None
      | Some res =>
          t <- clock ;;
          with_verify (cache_set cn (make_exp_ocsp_status t (revoked res) (ttl res))) ;;;
          mret_ (Some (revoked res, OCSP))
      end
  end.

(** The verdict with the CRLs as the fallback. *)
Definition revocation_verdict (fuel : nat) : M vcom (option (Z * verify_origin_t)) :=
  tc <- gets sslcom_target_cert ;;
  ti <- gets sslcom_target_issuer ;;
  match tc, ti with
  | Some cert, Some issuer =>
      ro <- ocsp_or_cached fuel cert issuer ;;
      match ro with
      | None => mret_ None
      | Some (rev, org) =>
          modify (set_revoked rev) ;;;
          if rev <? 0 then
            res <- crl_loop (crl_urls cert) cert issuer None rev org ;; mret_ (Some res)
          else mret_ (Some (rev, org))
      end
  | _, _ => mret_ (Some (revoked VerifyStatus_default, ORIGIN_NONE))
  end.

(** [certificate_status_ocsp_check] *)
Definition certificate_status_ocsp_check (fuel : nat) : M vcom (option Z) :=
  r <- revocation_verdict fuel ;;
  match r with
  | None => mret_ None
  | Some (rev, org) =>
      modify (set_origin org) ;;;
      (if 0 <? rev then modify (fun c => verify_bitset VRF_REVOKED (verify_bitreset VRF_OK c))
       else if rev =? 0 then modify (verify_bitset VRF_OK)
       else modify (fun c => verify_bitset VRF_DEFERRED (verify_bitreset VRF_OK c))) ;;;
      mret_ (Some rev)
  end.

(** [certificate_status_oob_check]; it prints the name of the certificate, without which
    that is undefined. *)
Definition certificate_status_oob_check (fuel : nat) (default_action : Z) : M vcom (option Z) :=
  modify (verify_bitreset VRF_DEFERRED) ;;;
  o <- gets opt_ocsp ;;
  if enforce_in_verify o then
    r <- certificate_status_ocsp_check fuel ;;
    match r with
    | None => mret_ None
    | Some is_revoked =>
        cert <- gets sslcom_target_cert ;;
        if match cert with None => true | Some _ => false end then undef (* print_cn(nullptr) *)
        else if negb (is_revoked =? 0) then
          modify (fun c => verify_bitset (if 0 <? is_revoked then VRF_REVOKED else VRF_ALLFAILED)
                             (verify_bitreset VRF_OK c)) ;;;
          oc <- gets opt_cert ;;
          mret_ (Some (b2i (failed_check_replacement oc)))
        else mret_ (Some 1)
    end
  else mret_ (Some default_action).

(** [check_revocation_stapling]: how far it got, and the status. *)
Definition check_revocation_stapling (cert issuer : X509) : M vcom (staple_code_t * Z) :=
  let enforce := modify set_enforce_in_verify in
  body <- gets (fun c => SSL_get_tlsext_status_ocsp_resp (v_bio c)) ;;
  match body with
  | None => enforce ;;; mret_ (MISSING_BODY, -1)
  | Some body =>
      match d2i_OCSP_RESPONSE body with
      | None => enforce ;;; mret_ (PARSING_FAILED, -1)
      | Some ocsp_response =>
          let ocsp_status := OCSP_response_status ocsp_response in
          if negb (ocsp_status =? OCSP_RESPONSE_STATUS_SUCCESSFUL) then
            enforce ;;; mret_ (STATUS_NOK, ocsp_status)
          else
            match OCSP_response_get1_basic ocsp_response with
            | None => enforce ;;; mret_ (GET_BASIC_FAILED, ocsp_status)
            | Some _ =>
                let ocsp_status := OCSP_basic_verify ocsp_response issuer in
                if ocsp_status <=? 0 then mret_ (BASIC_VERIFY_FAILED, ocsp_status)
                else if negb (OCSP_cert_to_id cert issuer) then
                  enforce ;;; mret_ (CERT_TO_ID_FAILED, ocsp_status)
                else
                  match OCSP_resp_find_status ocsp_response cert issuer with
                  | None => enforce ;;; mret_ (NO_FIND_STATUS, ocsp_status)
                  | Some ocsp_status =>
                      if negb (OCSP_check_validity ocsp_response cert issuer) then
                        enforce ;;; mret_ (INVALID_TIME, ocsp_status)
                      else mret_ (SUCCESS, ocsp_status)
                  end
            end
      end
  end.

(** [status_resp_callback] *)
Definition status_resp_callback (fuel : nat) (found : bool) : M vcom (option Z) :=
  if negb found then mret_ (Some (-1)) else
  c0 <- get ;;
  let opt_ocsp_require := 2 <=? stapling_mode (opt_ocsp c0) in
  let peer_cert := sslcom_target_cert c0 in
  let issuer_cert := sslcom_target_issuer c0 in
  let non_ok := flag_reset (flag_reset (flag_reset (verify_status_ c0) VRF_NOTTESTED) VRF_DEFERRED) VRF_OK in
  if (0 <? non_ok) && negb (verify_status_ c0 =? VRF_OK) && negb (verify_bitcheck VRF_CLIENT_CERT_RQ c0) then
    modify (verify_bitreset VRF_NOTTESTED) ;;;
    c1 <- get ;;
    if is_verify_status_opt_allowed c1 then
      modify (verify_bitset VRF_OK) ;;; modify (set_origin EXEMPT) ;;; mret_ (Some 1)
    else
      modify (fun c => verify_bitset VRF_ALLFAILED (verify_bitreset VRF_OK c)) ;;;
      mret_ (Some (b2i (failed_check_replacement (opt_cert c1))))
  else
    modify (verify_bitreset VRF_NOTTESTED) ;;;
    match peer_cert, issuer_cert with
    | Some cert, Some issuer =>
        let! (code, status) := check_revocation_stapling cert issuer in
        let fallback :=
          if opt_ocsp_require then
            modify (fun c => verify_bitreset VRF_OK (verify_bitset VRF_DEFERRED c)) ;;;
            certificate_status_oob_check fuel 0
          else certificate_status_oob_check fuel 1 in
        if decide (code = SUCCESS) then
          modify (verify_bitreset VRF_OK) ;;;
          if status =? V_OCSP_CERTSTATUS_GOOD then
            modify (verify_bitset VRF_OK) ;;; modify (set_origin OCSP_STAPLING) ;;;
            modify (set_revoked 0) ;;; mret_ (Some 1)
          else if status =? V_OCSP_CERTSTATUS_REVOKED then
            modify (set_revoked 1) ;;; modify (verify_bitset VRF_REVOKED) ;;;
            modify (set_origin OCSP_STAPLING) ;;;
            mret_ (Some (b2i (failed_check_replacement (opt_cert c0))))
          else fallback
        else fallback
    | _, _ =>
        modify set_enforce_in_verify ;;;
        certificate_status_oob_check fuel (if opt_ocsp_require then 0 else 1)
    end.

(** ** The other callbacks *)

(** [ssl_client_cert_callback]; no certificate is ever handed out. *)
Definition ssl_client_cert_callback (found : bool) : M vcom Z :=
  if negb found then mret_ 1 else
  modify (verify_bitset VRF_CLIENT_CERT_RQ) ;;;
  o <- gets opt_cert ;;
  if client_cert_action o =? 0 then
    if failed_check_replacement o then mret_ 0 else modify set_verror ;;; mret_ 1
  else if client_cert_action o =? 1 then mret_ 0
  else mret_ 1.

(** The loop over the entries: [res_ok] and [res_failed]. *)
Fixpoint sct_loop (scts : list (Z * Z)) (res_ok res_failed : Z) : Z * Z :=
  match scts with
  | [] => (res_ok, res_failed)
  | (ret_validate, res_validate) :: l =>
      if ret_validate =? 1 then
        if res_validate =? SCT_VALIDATION_STATUS_VALID
        then sct_loop l (if 0 <=? res_ok then res_ok + 1 else res_ok) res_failed
        else if res_validate =? SCT_VALIDATION_STATUS_INVALID
        then sct_loop l (-1) (res_failed + 1)
        else sct_loop l res_ok (res_failed + 1)
      else sct_loop l res_ok (res_failed + 1)
  end.

(** [for(f = 0; f < res_failed; f++)] *)
Fixpoint report_failed (n : nat) : M vcom unit :=
  match n with
  | O => mret_ tt
  | S n => modify (fun c => add_other VRF_OTHER_CT_FAILED (verify_bitset VRF_CT_FAILED c)) ;;; report_failed n
  end.

(** [ct_verify_callback]: each entry with what [SCT_validate] and
    [SCT_get_validation_status] say of it. *)
Definition ct_verify_callback (found : bool) (scts : list (Z * Z)) : M vcom bool :=
  if negb found then mret_ true else
  result <-
    (if zlen scts <? 2 then
       modify (fun c => verify_bitset VRF_CT_MISSING (verify_bitreset VRF_OK c)) ;;; mret_ false
     else
       let '(res_ok, res_failed) := sct_loop scts 0 0 in
       result <-
         (if res_ok <? 0 then
            modify (fun c => add_other VRF_OTHER_CT_INVALID (verify_bitset VRF_CT_FAILED (verify_bitreset VRF_OK c))) ;;;
            mret_ false
          else
            when (res_ok <? 2) (modify (fun c => verify_bitset VRF_CT_MISSING (verify_bitreset VRF_OK c))) ;;;
            mret_ true) ;;
       report_failed (Z.to_nat res_failed) ;;;
       mret_ result) ;;
  o <- gets opt_cert ;;
  mret_ (result || failed_check_replacement o).
End com.
