(* ===== verification/VerifyProps.v ===== *)
(** * VerifyProps: what the callbacks accept *)

From S2P Require Export Verify OcspProps.

(** ** Sets of bits *)

Lemma flag_reset_reset v a b : flag_reset (flag_reset v a) b = flag_reset v (Z.lor a b).
Proof. unfold flag_reset. by rewrite Z.lnot_lor, Z.land_assoc. Qed.

Lemma flag_reset_absent v a : flag_check v a = false -> flag_reset v a = v.
Proof.
  unfold flag_check, flag_reset. intros E. apply negb_false_iff, Z.eqb_eq in E.
  apply Z.bits_inj'. intros n Hn. rewrite Z.land_spec, Z.lnot_spec by done.
  apply (f_equal (fun x => Z.testbit x n)) in E. rewrite Z.land_spec, Z.bits_0 in E.
  by destruct (Z.testbit v n), (Z.testbit a n).
Qed.

Lemma flag_check_set v a : a <> 0 -> flag_check (flag_set v a) a = true.
Proof.
  intros Ha. unfold flag_check, flag_set. apply negb_true_iff, Z.eqb_neq.
  replace (Z.land (Z.lor v a) a) with a; [done|]. apply Z.bits_inj'. intros n Hn.
  rewrite Z.land_spec, Z.lor_spec. by destruct (Z.testbit v n), (Z.testbit a n).
Qed.

Lemma flag_check_set_ne v a b : Z.land a b = 0 -> flag_check (flag_set v a) b = flag_check v b.
Proof. intros E. unfold flag_check, flag_set. by rewrite Z.land_lor_distr_l, E, Z.lor_0_r. Qed.

Lemma flag_check_reset v a : flag_check (flag_reset v a) a = false.
Proof.
  unfold flag_check, flag_reset. apply negb_false_iff, Z.eqb_eq.
  by rewrite <- Z.land_assoc, (Z.land_comm (Z.lnot a)), Z.land_lnot_diag, Z.land_0_r.
Qed.

Lemma flag_check_reset_ne v a b : Z.land a b = 0 -> flag_check (flag_reset v a) b = flag_check v b.
Proof.
  intros E. unfold flag_check, flag_reset. do 2 f_equal. rewrite <- Z.land_assoc. f_equal.
  apply Z.bits_inj'. intros n Hn. rewrite Z.land_spec, Z.lnot_spec by done.
  apply (f_equal (fun x => Z.testbit x n)) in E. rewrite Z.land_spec, Z.bits_0 in E.
  by destruct (Z.testbit a n), (Z.testbit b n).
Qed.

Section verify.
Context `{PkiMore} `{EpollKernel} (k0 : kstate).

(** ** The options *)

(** The bits of a status that are neither harmless nor allowed by an option. *)
Definition problems_left (o : SSLComOptionsCert) (s : Z) : Z :=
  let drop (b : bool) bit s := if b then flag_reset s bit else s in
  flag_reset
    (drop (allow_unknown_issuer o) VRF_UNKNOWN_ISSUER
      (drop (allow_not_valid o) VRF_INVALID
        (drop (allow_self_signed_chain o) VRF_SELF_SIGNED_CHAIN
          (drop (allow_self_signed o) VRF_SELF_SIGNED s))))
    (Z.lor VRF_OK (Z.lor VRF_DEFERRED VRF_ALLFAILED)).

(** An allowed problem is dropped, one that is not decides. *)
Lemma stage_allowed s pm bit :
  flag_check pm bit = flag_check s bit ->
  (if flag_check s bit then (true, flag_reset pm bit) else (true, pm)) = (true, flag_reset pm bit).
Proof.
  intros E. destruct (flag_check s bit) eqn:Es; [done|].
  by rewrite flag_reset_absent by (by rewrite E).
Qed.

Lemma left_has s b :
  flag_check s b = true -> flag_check VRF_CLIENT_CERT_RQ b = false ->
  false = (s =? 0) || (s =? VRF_CLIENT_CERT_RQ).
Proof.
  intros Hs Hb. symmetry. apply orb_false_iff. split; apply Z.eqb_neq; intros ->; [done | congruence].
Qed.

(** Run the stages of the function, splitting on a problem that is not allowed. *)
Ltac stages s :=
  repeat (cbn [andb]; first
    [ match goal with
      | |- context [if flag_check s ?b then (true, flag_reset ?pm ?b) else (true, ?pm)] =>
          rewrite (stage_allowed s pm b) by (by rewrite ?flag_check_reset_ne)
      end
    | match goal with
      | |- context [if flag_check s ?b then (false, _) else _] => destruct (flag_check s b) eqn:?
      end ]).

(** The options decide exactly: the function accepts a status if and only if what remains
    after the harmless bits and the explicitly allowed problems is nothing, or nothing but
    the request for a client certificate. *)
Theorem opt_allowed_exact (c : vcom) :
  is_verify_status_opt_allowed c
    = let left := problems_left (opt_cert c) (verify_status_ c) in
      (left =? 0) || (left =? VRF_CLIENT_CERT_RQ).
Proof.
  unfold is_verify_status_opt_allowed, problems_left, verify_bitcheck. cbv zeta.
  set (s := verify_status_ c). destruct (opt_cert c) as [ui ssc nv ss fr ca].
  cbn [allow_self_signed allow_self_signed_chain allow_not_valid allow_unknown_issuer].
  destruct ss, ssc, nv, ui; stages s; cbn [andb];
    first [ by rewrite !flag_reset_reset
          | match goal with E : flag_check s ?b = true |- _ =>
              apply (left_has _ b); [rewrite ?flag_check_reset_ne by done; exact E | done]
            end ].
Qed.

(** ** The chain *)

(** A chain OpenSSL rejected goes on only with the problem on record, and only because an
    option allows it or a replacement page will be shown instead. *)
Theorem chain_failure_recorded err depth x (c c' : vcom) r :
  ssl_client_vrfy_callback true 0 err depth x c = Ret r c' -> 0 < r ->
  exists bit allowed, vrfy_problem err (opt_cert c) = Some (bit, allowed) /\
    verify_bitcheck bit c' = true /\ allowed || failed_check_replacement (opt_cert c) = true.
Proof.
  intros E Hr. unfold ssl_client_vrfy_callback in E. cbn [negb] in E.
  apply bind_inv in E as (u & c1 & E1 & E2). rewrite bind_gets in E2.
  assert (Ho : opt_cert c1 = opt_cert c).
  { revert E1. unfold when. repeat case_if; unfold mbind_, modify, mret_; intros [= _ <-]; done. }
  rewrite Ho in E2. destruct (vrfy_problem err (opt_cert c)) as [[bit allowed]|] eqn:Ep.
  2:{ unfold mret_ in E2. injection E2 as <- <-. lia. }
  exists bit, allowed. rewrite bind_modify in E2. unfold mret_ in E2. injection E2 as E2 <-.
  split; [done|]. split; [|destruct (allowed || _); [done | lia]].
  apply flag_check_set. revert Ep. unfold vrfy_problem. repeat case_if; by intros [= <- _].
Qed.

(** ** Certificate transparency *)

Definition sct_invalid (e : Z * Z) : bool := (e.1 =? 1) && (e.2 =? SCT_VALIDATION_STATUS_INVALID).

Lemma sct_loop_sign l ok failed :
  -1 <= ok ->
  ((sct_loop l ok failed).1 <? 0) = (ok <? 0) || existsb sct_invalid l.
Proof.
  revert ok failed. induction l as [|[a v] l IH]; intros ok failed Hok; cbn [sct_loop existsb].
  { by rewrite orb_false_r. }
  unfold sct_invalid at 1. cbn [fst snd]. destruct (a =? 1); [|by rewrite IH].
  destruct (Z.eqb_spec v SCT_VALIDATION_STATUS_VALID) as [->|Hv].
  - rewrite IH by (case_if; lia). cbn. f_equal. case_if; lia.
  - destruct (v =? SCT_VALIDATION_STATUS_INVALID); cbn [andb orb]; rewrite IH by lia; [|done].
    by rewrite orb_true_r.
Qed.

Lemma report_failed_pure n (c : vcom) : exists c', report_failed n c = Ret tt c' /\ opt_cert c' = opt_cert c.
Proof.
  revert c. induction n as [|n IH]; intros c; [by exists c|]. cbn [report_failed]. rewrite bind_modify.
  destruct (IH (add_other VRF_OTHER_CT_FAILED (verify_bitset VRF_CT_FAILED c))) as (c' & E & Ho).
  exists c'. by rewrite E, Ho.
Qed.

(** Certificate transparency breaks the handshake off exactly for less than two entries or
    an invalid one, unless a replacement page is to be shown. *)
Theorem ct_verdict_exact scts (c : vcom) :
  exists c', ct_verify_callback true scts c
    = Ret (((2 <=? zlen scts) && negb (existsb sct_invalid scts))
           || failed_check_replacement (opt_cert c)) c'.
Proof.
  unfold ct_verify_callback. cbn [negb]. rewrite (Z.leb_antisym (zlen scts) 2).
  destruct (zlen scts <? 2); cbn [negb andb].
  { rewrite bind_assoc, bind_modify, bind_pure, bind_gets. by eexists. }
  pose proof (sct_loop_sign scts 0 0 ltac:(lia)) as Hs. cbn [orb Z.ltb Z.compare] in Hs.
  destruct (sct_loop scts 0 0) as [ok failed]. cbn [fst] in Hs.
  rewrite bind_assoc.
  assert (Hm : exists c1, (if ok <? 0 then
      modify (fun c : vcom => add_other VRF_OTHER_CT_INVALID (verify_bitset VRF_CT_FAILED (verify_bitreset VRF_OK c))) ;;;
      mret_ false
    else
      when (ok <? 2) (modify (fun c : vcom => verify_bitset VRF_CT_MISSING (verify_bitreset VRF_OK c))) ;;;
      mret_ true) c = Ret (negb (existsb sct_invalid scts)) c1 /\ opt_cert c1 = opt_cert c).
  { rewrite Hs. unfold when. destruct (existsb sct_invalid scts); [by eexists|]. destruct (ok <? 2); by eexists. }
  destruct Hm as (c1 & E1 & Ho1). rewrite (bind_ret _ _ _ _ _ E1). rewrite bind_assoc.
  destruct (report_failed_pure (Z.to_nat failed) c1) as (c2 & E2 & Ho2).
  rewrite (bind_ret _ _ _ _ _ E2), bind_pure, bind_gets, Ho2, Ho1. by exists c2.
Qed.

(** ** Revocation *)

(** The status the callback starts from when nothing failed yet. *)
Definition untested (c : vcom) : Prop := verify_status_ c = VRF_NOTTESTED.

Lemma status_resp_untested fuel (c : vcom) cert issuer :
  untested c -> sslcom_target_cert c = Some cert -> sslcom_target_issuer c = Some issuer ->
  status_resp_callback k0 fuel true c
    = (let! (code, status) := check_revocation_stapling cert issuer in
       let fallback :=
         if 2 <=? stapling_mode (opt_ocsp c) then
           modify (fun c => verify_bitreset VRF_OK (verify_bitset VRF_DEFERRED c)) ;;;
           certificate_status_oob_check k0 fuel 0
         else certificate_status_oob_check k0 fuel 1 in
       if decide (code = SUCCESS) then
         modify (verify_bitreset VRF_OK) ;;;
         if status =? V_OCSP_CERTSTATUS_GOOD then
           modify (verify_bitset VRF_OK) ;;; modify (set_origin OCSP_STAPLING) ;;;
           modify (set_revoked 0) ;;; mret_ (Some 1)
         else if status =? V_OCSP_CERTSTATUS_REVOKED then
           modify (set_revoked 1) ;;; modify (verify_bitset VRF_REVOKED) ;;;
           modify (set_origin OCSP_STAPLING) ;;;
           mret_ (Some (b2i (failed_check_replacement (opt_cert c))))
         else fallback
       else fallback) (set_status 0 c).
Proof.
  unfold untested. intros Hs Hc Hi. unfold status_resp_callback. cbn [negb].
  unfold mbind_ at 1, get. rewrite Hs, Hc, Hi.
  change (0 <? flag_reset (flag_reset (flag_reset VRF_NOTTESTED VRF_NOTTESTED) VRF_DEFERRED) VRF_OK) with false.
  cbn [andb]. rewrite bind_modify.
  replace (verify_bitreset VRF_NOTTESTED c) with (set_status 0 c); [done|].
  unfold verify_bitreset. by rewrite Hs.
Qed.

(** A staple that does not verify is worth more than none: with [stapling_mode] below 2
    the handshake goes on without the query to the responder that a missing staple forces. *)
Theorem unverified_staple_skips_query fuel (c : vcom) cert issuer body resp l :
  untested c -> sslcom_target_cert c = Some cert -> sslcom_target_issuer c = Some issuer ->
  stapling_mode (opt_ocsp c) < 2 -> enforce_in_verify (opt_ocsp c) = false ->
  SSL_get_tlsext_status_ocsp_resp (v_bio c) = Some body -> d2i_OCSP_RESPONSE body = Some resp ->
  OCSP_response_status resp = OCSP_RESPONSE_STATUS_SUCCESSFUL ->
  OCSP_response_get1_basic resp = Some l -> OCSP_basic_verify resp issuer <= 0 ->
  status_resp_callback k0 fuel true c = Ret (Some 1) (set_status 0 c).
Proof.
  intros Hs Hc Hi Hm He Hb Hd Hst Hg Hv. rewrite (status_resp_untested _ _ _ _ Hs Hc Hi).
  unfold check_revocation_stapling. rewrite bind_assoc, bind_gets.
  change (v_bio (set_status 0 c)) with (v_bio c). rewrite Hb, Hd, Hst, Hg. cbn [Z.eqb OCSP_RESPONSE_STATUS_SUCCESSFUL negb].
  rewrite (proj2 (Z.leb_le _ 0)) by done. rewrite bind_pure. rewrite (proj2 (Z.leb_gt 2 _)) by done.
  destruct (decide _) as [?|_]; [done|]. unfold certificate_status_oob_check.
  rewrite bind_modify, bind_gets. change (opt_ocsp (verify_bitreset VRF_DEFERRED (set_status 0 c))) with (opt_ocsp c).
  by rewrite He.
Qed.

(** A missing staple does force the query: its verdict is the callback's, whatever
    [enforce_in_verify] was configured to. *)
Theorem missing_staple_forces_query fuel (c c2 : vcom) cert issuer rev :
  untested c -> sslcom_target_cert c = Some cert -> sslcom_target_issuer c = Some issuer ->
  stapling_mode (opt_ocsp c) < 2 -> SSL_get_tlsext_status_ocsp_resp (v_bio c) = None ->
  certificate_status_ocsp_check k0 fuel (set_enforce_in_verify (set_status 0 c)) = Ret (Some rev) c2 ->
  sslcom_target_cert c2 = Some cert ->
  exists c3, status_resp_callback k0 fuel true c
    = Ret (Some (if rev =? 0 then 1 else b2i (failed_check_replacement (opt_cert c2)))) c3 /\
  (0 < rev -> verify_bitcheck VRF_REVOKED c3 = true /\ verify_bitcheck VRF_OK c3 = false).
Proof.
  intros Hs Hc Hi Hm Hb Hq Hc2. rewrite (status_resp_untested _ _ _ _ Hs Hc Hi).
  unfold check_revocation_stapling. rewrite bind_assoc, bind_gets.
  change (v_bio (set_status 0 c)) with (v_bio c). rewrite Hb, bind_assoc, bind_modify, bind_pure.
  rewrite (proj2 (Z.leb_gt 2 _)) by done. destruct (decide _) as [?|_]; [done|].
  unfold certificate_status_oob_check. rewrite bind_modify, bind_gets.
  change (verify_bitreset VRF_DEFERRED (set_enforce_in_verify (set_status 0 c)))
    with (set_enforce_in_verify (set_status 0 c)).
  cbn [enforce_in_verify opt_ocsp set_enforce_in_verify]. rewrite (bind_ret _ _ _ _ _ Hq), bind_gets, Hc2.
  cbv iota. destruct (Z.eqb_spec rev 0) as [->|Hr]; cbn [negb].
  - eexists. split; [reflexivity|]. lia.
  - rewrite bind_modify, bind_gets. eexists. split; [reflexivity|]. intros Hp.
    rewrite (proj2 (Z.ltb_lt 0 rev)) by done. unfold verify_bitcheck, verify_bitset, verify_bitreset.
    cbn [verify_status_ set_status]. rewrite flag_check_set by done. split; [done|].
    rewrite flag_check_set_ne by done. apply flag_check_reset.
Qed.

(** The callback before any certificate was verified: the null certificate is printed. *)
Theorem status_before_verify_crashes fuel (c : vcom) :
  untested c -> sslcom_target_cert c = None -> status_resp_callback k0 fuel true c = Undef.
Proof.
  unfold untested. intros Hs Hc. unfold status_resp_callback. cbn [negb].
  unfold mbind_ at 1, get. rewrite Hs, Hc.
  change (0 <? flag_reset (flag_reset (flag_reset VRF_NOTTESTED VRF_NOTTESTED) VRF_DEFERRED) VRF_OK) with false.
  cbn [andb]. unfold certificate_status_oob_check, certificate_status_ocsp_check, revocation_verdict.
  unfold mbind_, gets, modify, mret_. cbn. rewrite Hc. cbn. by rewrite Hc.
Qed.

(** A certificate without an OCSP verdict whose fresh, trusted CRL lists it as revoked:
    the check answers "good" and the com is marked verified. *)
Theorem listed_certificate_verified fuel (c c1 c2 : vcom) cert issuer url rest crl o o2 :
  sslcom_target_cert c = Some cert -> sslcom_target_issuer c = Some issuer ->
  ocsp_or_cached k0 fuel cert issuer c = Ret (Some (-1, o)) c1 ->
  crl_urls cert = url :: rest ->
  crl_fetch url None o (set_revoked (-1) c1) = Ret (Some crl, o2) c2 ->
  crl_verify_trust cert issuer crl <> 0 ->
  X509_get_pubkey issuer = true -> X509_CRL_verify crl issuer = true ->
  X509_CRL_get0_by_serial crl cert = true ->
  exists c3, certificate_status_ocsp_check k0 fuel c = Ret (Some 0) c3 /\
    verify_bitcheck VRF_OK c3 = true /\ verify_origin_ c3 = CRL.
Proof.
  intros Hc Hi Ho Hu Hf Ht Hk Hv Hl. unfold certificate_status_ocsp_check, revocation_verdict.
  rewrite !bind_assoc, bind_gets, Hc, bind_assoc, bind_gets, Hi, bind_assoc, (bind_ret _ _ _ _ _ Ho).
  rewrite bind_assoc, bind_modify. cbn [Z.ltb Z.compare]. rewrite bind_assoc, Hu. cbn [crl_loop].
  rewrite bind_assoc, (bind_ret _ _ _ _ _ Hf). rewrite (proj2 (Z.eqb_neq _ 0)) by done.
  unfold crl_is_revoked_by. rewrite Hk, Hv, Hl. cbn [Z.leb Z.compare].
  rewrite !bind_pure, bind_modify. cbn [Z.ltb Z.compare Z.eqb]. rewrite bind_modify.
  eexists. split; [reflexivity|]. split; [by apply flag_check_set | done].
Qed.

(** A CRL that is in the cache is not consulted: the loop fetches the entry and goes on
    with the list it did not have, so the certificate stays unverified. *)
Theorem cached_crl_not_consulted url cert issuer rev o e (c c1 : vcom) :
  with_crl (cache_get url) c = Ret (Some e) c1 ->
  crl_loop [url] cert issuer None rev o c = Ret (-1, CRL_CACHE) c1.
Proof.
  intros Hg. cbn [crl_loop]. unfold crl_fetch. by rewrite bind_assoc, (bind_ret _ _ _ _ _ Hg), bind_pure.
Qed.

(** A good response past its update time is cached: the negative lifetime becomes an
    unsigned number of seconds, more than a century. *)
Theorem stale_verdict_cached resp single cert issuer days secs now :
  OCSP_response_get1_basic resp = Some [single] -> 0 < OCSP_basic_verify resp issuer ->
  OCSP_id_cmp single cert issuer = 0 -> OCSP_single_get0_status single = V_OCSP_CERTSTATUS_GOOD ->
  ASN1_TIME_diff single = (1, days, secs) -> - 24854 < days < 0 -> - 86400 < secs <= 0 ->
  let v := ocsp_verify_response resp cert issuer in
  revoked v = 0 /\ forall t, t < now + 2147397248 -> expired t (make_exp_ocsp_status now (revoked v) (ttl v)) = false.
Proof.
  intros E Hv Hm Hs Ht Hd Hc. cbv zeta.
  assert (Hr : ocsp_verify_response resp cert issuer = mkVerifyStatus 0 (days * 86400 + secs) FROM_OCSP).
  { unfold ocsp_verify_response. rewrite E, (proj2 (Z.leb_gt _ _)) by done. cbn [single_responses].
    rewrite Hm, Hs, Ht. cbn [Z.eqb negb]. change (0 <? 1) with true. cbv iota.
    rewrite wraps_small by (cbn; lia). f_equal. lia. }
  rewrite Hr. cbn [revoked ttl]. split; [done|]. intros t Hlt.
  unfold expired, make_exp_ocsp_status, make_expiring. cbn [snd].
  assert (Hw : u32 (days * 86400 + secs) = days * 86400 + secs + 4294967296).
  { unfold wrapu. change (2 ^ 32) with 4294967296. symmetry. apply (Z.mod_unique _ _ (-1)); lia. }
  rewrite Hw. apply Z.leb_gt. lia.
Qed.

(** ** The verified bit is earned *)

Lemma bitcheck_set s b (c : vcom) : Z.land s b = 0 -> verify_bitcheck b (verify_bitset s c) = verify_bitcheck b c.
Proof. intros E. exact (flag_check_set_ne _ _ _ E). Qed.
Lemma bitcheck_reset s b (c : vcom) : Z.land s b = 0 -> verify_bitcheck b (verify_bitreset s c) = verify_bitcheck b c.
Proof. intros E. exact (flag_check_reset_ne _ _ _ E). Qed.
Lemma bitcheck_reset_same b (c : vcom) : verify_bitcheck b (verify_bitreset b c) = false.
Proof. apply flag_check_reset. Qed.

(** [c1] is [c] but for its status bits, and perhaps for the query having become mandatory. *)
Definition status_only (c c1 : vcom) : Prop :=
  exists s (e : bool), c1 = set_status s (if e then set_enforce_in_verify c else c).

Lemma status_only_refl (c : vcom) : status_only c c.
Proof. exists (verify_status_ c), false. by destruct c. Qed.
Lemma status_only_set s (c c1 : vcom) : status_only c c1 -> status_only c (set_status s c1).
Proof. intros (s' & e & ->). by exists s, e. Qed.
Lemma status_only_enforce (c c1 : vcom) : status_only c c1 -> status_only c (set_enforce_in_verify c1).
Proof. intros (s' & e & ->). exists s', true. by destruct e. Qed.

(** The staple of the handshake: its response is successful, signed for this issuer, current,
    and says this of this certificate. *)
Definition staple_says (b : bio) (cert issuer : X509) (status : Z) : Prop :=
  exists body resp l, SSL_get_tlsext_status_ocsp_resp b = Some body /\ d2i_OCSP_RESPONSE body = Some resp /\
    OCSP_response_status resp = OCSP_RESPONSE_STATUS_SUCCESSFUL /\ OCSP_response_get1_basic resp = Some l /\
    0 < OCSP_basic_verify resp issuer /\ OCSP_cert_to_id cert issuer = true /\
    OCSP_resp_find_status resp cert issuer = Some status /\ OCSP_check_validity resp cert issuer = true.

Lemma stapling_outcome cert issuer (c c' : vcom) code status :
  check_revocation_stapling cert issuer c = Ret (code, status) c' ->
  verify_status_ c' = verify_status_ c /\ (c' = c \/ c' = set_enforce_in_verify c) /\
  (code = SUCCESS -> staple_says (v_bio c) cert issuer status).
Proof.
  unfold check_revocation_stapling. rewrite bind_gets.
  destruct (SSL_get_tlsext_status_ocsp_resp (v_bio c)) as [body|] eqn:E1;
    [|rewrite bind_modify; unfold mret_; intros [= <- _ <-]; by (split; [done|split; [by auto|]])].
  destruct (d2i_OCSP_RESPONSE body) as [resp|] eqn:E2; [|rewrite bind_modify; unfold mret_; intros [= <- _ <-]; by (split; [done|split; [by auto|]])].
  destruct (Z.eqb_spec (OCSP_response_status resp) OCSP_RESPONSE_STATUS_SUCCESSFUL) as [E3|_]; cbn [negb];
    [|rewrite bind_modify; unfold mret_; intros [= <- _ <-]; by (split; [done|split; [by auto|]])].
  destruct (OCSP_response_get1_basic resp) as [l|] eqn:E4; [|rewrite bind_modify; unfold mret_; intros [= <- _ <-]; by (split; [done|split; [by auto|]])].
  destruct (Z.leb_spec (OCSP_basic_verify resp issuer) 0) as [_|E5]; [unfold mret_; intros [= <- _ <-]; by (split; [done|split; [by auto|]])|].
  destruct (OCSP_cert_to_id cert issuer) eqn:E6; cbn [negb]; [|rewrite bind_modify; unfold mret_; intros [= <- _ <-]; by (split; [done|split; [by auto|]])].
  destruct (OCSP_resp_find_status resp cert issuer) eqn:E7; [|rewrite bind_modify; unfold mret_; intros [= <- _ <-]; by (split; [done|split; [by auto|]])].
  destruct (OCSP_check_validity resp cert issuer) eqn:E8; cbn [negb]; [|rewrite bind_modify; unfold mret_; intros [= <- _ <-]; by (split; [done|split; [by auto|]])].
  unfold mret_. intros [= <- <- <-]. split; [done|]. split; [by left|]. intros _. by exists body, resp, l.
Qed.

(** The query of the status callback found the certificate good, and that is all the end of it shows. *)
Definition query_good (fuel : nat) (c c' : vcom) (r : Z) : Prop :=
  exists c1 org c2, status_only c c1 /\ revocation_verdict k0 fuel c1 = Ret (Some (0, org)) c2 /\
    c' = verify_bitset VRF_OK (set_origin org c2) /\ r = 1.

Lemma oob_earned fuel d (c0 c c' : vcom) r :
  status_only c0 c -> certificate_status_oob_check k0 fuel d c = Ret (Some r) c' ->
  verify_bitcheck VRF_OK c = false -> verify_bitcheck VRF_OK c' = true -> query_good fuel c0 c' r.
Proof.
  intros Hc0. unfold certificate_status_oob_check. rewrite bind_modify, bind_gets. intros E Hno Hyes.
  destruct (enforce_in_verify _).
  - apply bind_inv in E as ([rev|] & c1 & E1 & E2); [|done].
    rewrite bind_gets in E2. destruct (sslcom_target_cert c1); [|done].
    unfold certificate_status_ocsp_check in E1. apply bind_inv in E1 as ([[v org]|] & c2 & Ev & E1); [|done].
    rewrite bind_modify in E1. destruct (Z.eqb_spec rev 0) as [->|Hr]; cbn [negb] in E2.
    + unfold mret_ in E2. injection E2 as <- ->.
      assert (v = 0) as ->.
      { revert E1. destruct (0 <? v), (v =? 0); rewrite bind_modify; unfold mret_; by intros [= -> _]. }
      change (0 <? 0) with false in E1. change (0 =? 0) with true in E1. cbv iota in E1.
      rewrite bind_modify in E1. unfold mret_ in E1. injection E1 as <-.
      eexists _, org, c2. split; [by apply status_only_set|]. by split_and!.
    + rewrite bind_modify, bind_gets in E2. unfold mret_ in E2. injection E2 as _ <-. revert Hyes.
      rewrite bitcheck_set by (by destruct (0 <? rev)). by rewrite bitcheck_reset_same.
  - unfold mret_ in E. injection E as _ <-. revert Hyes. rewrite bitcheck_reset by done. congruence.
Qed.

(** [C4] When the status callback gives a com the verified bit, it is for one of three
    reasons: the certificate has problems, and the options allow every one of them; the staple of
    this very handshake is valid and says of the certificate that it is good; or the verdict asked
    for - from the cache, the responders or, without any from them, the revocation lists - is that
    it is not revoked, and then this bit and the origin of the verdict are all the callback leaves
    behind. (A bypassed com and one that resumes a session get the bit elsewhere, without a check.) *)
Theorem ok_bit_is_earned fuel (c c' : vcom) r :
  status_resp_callback k0 fuel true c = Ret (Some r) c' ->
  verify_bitcheck VRF_OK c = false -> verify_bitcheck VRF_OK c' = true ->
  (verify_origin_ c' = EXEMPT /\ r = 1 /\
     let left := problems_left (opt_cert c) (flag_reset (verify_status_ c) VRF_NOTTESTED) in
     left = 0 \/ left = VRF_CLIENT_CERT_RQ) \/
  (verify_origin_ c' = OCSP_STAPLING /\ r = 1 /\ ocsp_cert_is_revoked c' = 0 /\
     exists cert issuer, sslcom_target_cert c = Some cert /\ sslcom_target_issuer c = Some issuer /\
       staple_says (v_bio c) cert issuer V_OCSP_CERTSTATUS_GOOD) \/
  query_good fuel c c' r.
Proof.
  intros E Hno Hyes. unfold status_resp_callback in E. cbn [negb] in E. unfold mbind_ at 1, get in E.
  destruct (_ && _).
  { rewrite bind_modify in E. unfold mbind_ at 1, get in E.
    destruct (is_verify_status_opt_allowed (verify_bitreset VRF_NOTTESTED c)) eqn:Ea.
    - rewrite !bind_modify in E. unfold mret_ in E. injection E as <- <-. left. split; [done|]. split; [done|].
      rewrite opt_allowed_exact in Ea. by apply orb_true_iff in Ea as [?%Z.eqb_eq|?%Z.eqb_eq]; [left|right].
    - rewrite bind_modify in E. unfold mret_ in E. injection E as _ <-. revert Hyes.
      rewrite bitcheck_set, bitcheck_reset_same by done. done. }
  rewrite bind_modify in E.
  assert (Hn1 : verify_bitcheck VRF_OK (verify_bitreset VRF_NOTTESTED c) = false) by (by rewrite bitcheck_reset).
  assert (Hs1 : status_only c (verify_bitreset VRF_NOTTESTED c)) by apply status_only_set, status_only_refl.
  destruct (sslcom_target_cert c) as [cert|], (sslcom_target_issuer c) as [issuer|].
  2-4: rewrite bind_modify in E; right; right; refine (oob_earned _ _ _ _ _ _ _ E _ Hyes); [by apply status_only_enforce|exact Hn1].
  apply bind_inv in E as ([code status] & c1 & E1 & E2).
  apply stapling_outcome in E1 as (Es & Hc1 & Hgood).
  assert (Hn2 : verify_bitcheck VRF_OK c1 = false) by (unfold verify_bitcheck in *; by rewrite Es).
  assert (Hs2 : status_only c c1) by (destruct Hc1 as [->| ->]; [done|by apply status_only_enforce]).
  assert (Hfall : forall c2, verify_bitcheck VRF_OK c2 = false -> status_only c c2 ->
    (if 2 <=? stapling_mode (opt_ocsp c) then
       modify (fun c => verify_bitreset VRF_OK (verify_bitset VRF_DEFERRED c)) ;;;
       certificate_status_oob_check k0 fuel 0
     else certificate_status_oob_check k0 fuel 1) c2 = Ret (Some r) c' -> query_good fuel c c' r).
  { intros c2 Hc2 Hso Ef. destruct (2 <=? _); [rewrite bind_modify in Ef|]; refine (oob_earned _ _ _ _ _ _ _ Ef _ Hyes); try done.
    - by do 2 apply status_only_set.
    - apply bitcheck_reset_same. }
  destruct (decide (code = SUCCESS)) as [->|]; [|right; right; by eapply Hfall].
  rewrite bind_modify in E2.
  destruct (Z.eqb_spec status V_OCSP_CERTSTATUS_GOOD) as [->|].
  { rewrite !bind_modify in E2. unfold mret_ in E2. injection E2 as <- <-. right; left.
    split; [done|]. split; [done|]. split; [done|]. exists cert, issuer. by split_and!; [| |apply Hgood]. }
  destruct (status =? V_OCSP_CERTSTATUS_REVOKED).
  - rewrite !bind_modify in E2. unfold mret_ in E2. injection E2 as _ <-. revert Hyes.
    unfold verify_bitcheck, verify_bitset, verify_bitreset.
    cbn [verify_status_ set_origin set_revoked set_status].
    by rewrite flag_check_set_ne, flag_check_reset.
  - right; right. eapply Hfall; [| |done]; [apply bitcheck_reset_same|by apply status_only_set].
Qed.
End verify.
