(* ===== verification/TlsData.v ===== *)
(** * TlsData: the TLS com and what it works on (sslcom.hpp)

    [sslcom] is the object of [baseSSLCom], [tworld] the com with its peer, its owner, the
    poller of its master and the OpenSSL library. The transport below ([L4Proto]) is a
    template parameter of the code and a parameter here, like OpenSSL itself. *)

From S2P Require Export Hello CxData PtrCache Verify.

(** [SSLComCryptoFeatures] *)
Record crypto_features : Type := mkFeatures {
  kex_dh : bool;
  kex_rsa : bool;
  allow_sha1 : bool;
  allow_rc4 : bool;
  allow_aes128 : bool;
  no_tickets : bool
}.

(** [SSLComOptions] without [bypass], the certificate and the OCSP options of [Verify]. *)
Record ssl_options : Type := mkOptions {
  ct_enable : bool;
  alpn_block : bool;
  opt_left : crypto_features;
  opt_right : crypto_features;
  stapling_wanted : bool      (* ocsp.stapling_enabled or ocsp.mode > 0 *)
}.

(** [SSLComCounters] *)
Inductive counter : Type :=
  | prof_accept_cnt | prof_accept_bypass_cnt | prof_connect_cnt
  | write_want_read_cur | read_want_read_cur | prof_want_read_cnt
  | write_want_write_cur | read_want_write_cur | prof_want_write_cnt
  | prof_write_cnt | prof_read_cnt | prof_peek_cnt | prof_accept_ok | prof_connect_ok.

#[export] Instance counter_eq_dec : EqDecision counter.
Proof. solve_decision. Defined.

Definition counters : Type := counter -> Z.
Definition counter_put (k : counter) (v : Z) (f : counters) : counters :=
  fun x => if decide (x = k) then v else f x.
Definition counter_tick (k : counter) (f : counters) : counters := counter_put k (f k + 1) f.

(** The context an SSL object is made from: those the factory makes of each kind, or one it was given. *)
Inductive ssl_ctx : Type := TlsServerCx | DtlsServerCx | TlsClientCx | DtlsClientCx | CustomCx (id : Z).

(** [sslcom_ctx], [sslcom_pref_ctx], whether [sslcom_pref_cert] and [sslcom_pref_key] are both set, and
    [sslcom_refcount_incremented_]. *)
Record identity : Type := mkIdentity {
  i_ctx : option ssl_ctx;
  i_pref_ctx : option ssl_ctx;
  i_pref_pair : bool;
  i_counted : bool
}.
Definition no_identity : identity := mkIdentity None None false false.

Record sslcom : Type := mkSsl {
  s_base : comst;   (* baseCom: descriptor, error, forced reads and writes *)
  s_l4_proto : Z;   (* SOCK_STREAM or SOCK_DGRAM *)
  s_bypass : bool;   (* opt.bypass *)
  s_opt : ssl_options;   (* the other options *)
  s_ssl : bool;   (* sslcom_ssl is not null *)
  sslcom_ret : Z;
  read_blocked_on_write : Z;
  write_blocked_on_read : Z;
  write_blocked_on_write : Z;
  sslcom_waiting : bool;
  sslcom_fatal : bool;
  sslcom_server : bool;
  sslcom_status : bool;
  hsk_reused : bool;   (* flags_ & HSK_REUSED *)
  auto_upgrade : bool;
  upgraded : bool;
  hello_received : bool;   (* sslcom_peer_hello_received_ *)
  hello_buffer : bytes;   (* the allocation of sslcom_peer_hello_buffer *)
  s_info : hello_info;   (* SNI, ALPN and id of the peer hello *)
  s_alpn : bytes;   (* sslcom_alpn_ *)
  sni_filter : option (list bytes);   (* sni_filter_to_bypass_ *)
  sni_filter_matched : bool;
  s_verify : Z;   (* verify_status_ *)
  s_ocsp_revoked : Z;   (* ocsp_cert_is_revoked *)
  s_counters : counters;
  timer_start : Z;   (* milliseconds *)
  timer_read_timeout : Z;
  timer_write_timeout : Z;
  s_ident : identity
}.

Definition put_base (v : comst) (c : sslcom) : sslcom :=
  mkSsl v (s_l4_proto c) (s_bypass c) (s_opt c) (s_ssl c) (sslcom_ret c) (read_blocked_on_write c)
    (write_blocked_on_read c) (write_blocked_on_write c) (sslcom_waiting c) (sslcom_fatal c)
    (sslcom_server c) (sslcom_status c) (hsk_reused c) (auto_upgrade c) (upgraded c)
    (hello_received c) (hello_buffer c) (s_info c) (s_alpn c) (sni_filter c) (sni_filter_matched c)
    (s_verify c) (s_ocsp_revoked c) (s_counters c) (timer_start c) (timer_read_timeout c)
    (timer_write_timeout c) (s_ident c).
Definition put_bypass (v : bool) (c : sslcom) : sslcom :=
  mkSsl (s_base c) (s_l4_proto c) v (s_opt c) (s_ssl c) (sslcom_ret c) (read_blocked_on_write c)
    (write_blocked_on_read c) (write_blocked_on_write c) (sslcom_waiting c) (sslcom_fatal c)
    (sslcom_server c) (sslcom_status c) (hsk_reused c) (auto_upgrade c) (upgraded c)
    (hello_received c) (hello_buffer c) (s_info c) (s_alpn c) (sni_filter c) (sni_filter_matched c)
    (s_verify c) (s_ocsp_revoked c) (s_counters c) (timer_start c) (timer_read_timeout c)
    (timer_write_timeout c) (s_ident c).
Definition put_opt (v : ssl_options) (c : sslcom) : sslcom :=
  mkSsl (s_base c) (s_l4_proto c) (s_bypass c) v (s_ssl c) (sslcom_ret c) (read_blocked_on_write c)
    (write_blocked_on_read c) (write_blocked_on_write c) (sslcom_waiting c) (sslcom_fatal c)
    (sslcom_server c) (sslcom_status c) (hsk_reused c) (auto_upgrade c) (upgraded c)
    (hello_received c) (hello_buffer c) (s_info c) (s_alpn c) (sni_filter c) (sni_filter_matched c)
    (s_verify c) (s_ocsp_revoked c) (s_counters c) (timer_start c) (timer_read_timeout c)
    (timer_write_timeout c) (s_ident c).
Definition put_ssl (v : bool) (c : sslcom) : sslcom :=
  mkSsl (s_base c) (s_l4_proto c) (s_bypass c) (s_opt c) v (sslcom_ret c) (read_blocked_on_write c)
    (write_blocked_on_read c) (write_blocked_on_write c) (sslcom_waiting c) (sslcom_fatal c)
    (sslcom_server c) (sslcom_status c) (hsk_reused c) (auto_upgrade c) (upgraded c)
    (hello_received c) (hello_buffer c) (s_info c) (s_alpn c) (sni_filter c) (sni_filter_matched c)
    (s_verify c) (s_ocsp_revoked c) (s_counters c) (timer_start c) (timer_read_timeout c)
    (timer_write_timeout c) (s_ident c).
Definition put_ret (v : Z) (c : sslcom) : sslcom :=
  mkSsl (s_base c) (s_l4_proto c) (s_bypass c) (s_opt c) (s_ssl c) v (read_blocked_on_write c)
    (write_blocked_on_read c) (write_blocked_on_write c) (sslcom_waiting c) (sslcom_fatal c)
    (sslcom_server c) (sslcom_status c) (hsk_reused c) (auto_upgrade c) (upgraded c)
    (hello_received c) (hello_buffer c) (s_info c) (s_alpn c) (sni_filter c) (sni_filter_matched c)
    (s_verify c) (s_ocsp_revoked c) (s_counters c) (timer_start c) (timer_read_timeout c)
    (timer_write_timeout c) (s_ident c).
Definition put_read_blocked_on_write (v : Z) (c : sslcom) : sslcom :=
  mkSsl (s_base c) (s_l4_proto c) (s_bypass c) (s_opt c) (s_ssl c) (sslcom_ret c) v
    (write_blocked_on_read c) (write_blocked_on_write c) (sslcom_waiting c) (sslcom_fatal c)
    (sslcom_server c) (sslcom_status c) (hsk_reused c) (auto_upgrade c) (upgraded c)
    (hello_received c) (hello_buffer c) (s_info c) (s_alpn c) (sni_filter c) (sni_filter_matched c)
    (s_verify c) (s_ocsp_revoked c) (s_counters c) (timer_start c) (timer_read_timeout c)
    (timer_write_timeout c) (s_ident c).
Definition put_write_blocked_on_read (v : Z) (c : sslcom) : sslcom :=
  mkSsl (s_base c) (s_l4_proto c) (s_bypass c) (s_opt c) (s_ssl c) (sslcom_ret c)
    (read_blocked_on_write c) v (write_blocked_on_write c) (sslcom_waiting c) (sslcom_fatal c)
    (sslcom_server c) (sslcom_status c) (hsk_reused c) (auto_upgrade c) (upgraded c)
    (hello_received c) (hello_buffer c) (s_info c) (s_alpn c) (sni_filter c) (sni_filter_matched c)
    (s_verify c) (s_ocsp_revoked c) (s_counters c) (timer_start c) (timer_read_timeout c)
    (timer_write_timeout c) (s_ident c).
Definition put_write_blocked_on_write (v : Z) (c : sslcom) : sslcom :=
  mkSsl (s_base c) (s_l4_proto c) (s_bypass c) (s_opt c) (s_ssl c) (sslcom_ret c)
    (read_blocked_on_write c) (write_blocked_on_read c) v (sslcom_waiting c) (sslcom_fatal c)
    (sslcom_server c) (sslcom_status c) (hsk_reused c) (auto_upgrade c) (upgraded c)
    (hello_received c) (hello_buffer c) (s_info c) (s_alpn c) (sni_filter c) (sni_filter_matched c)
    (s_verify c) (s_ocsp_revoked c) (s_counters c) (timer_start c) (timer_read_timeout c)
    (timer_write_timeout c) (s_ident c).
Definition put_waiting (v : bool) (c : sslcom) : sslcom :=
  mkSsl (s_base c) (s_l4_proto c) (s_bypass c) (s_opt c) (s_ssl c) (sslcom_ret c)
    (read_blocked_on_write c) (write_blocked_on_read c) (write_blocked_on_write c) v
    (sslcom_fatal c) (sslcom_server c) (sslcom_status c) (hsk_reused c) (auto_upgrade c)
    (upgraded c) (hello_received c) (hello_buffer c) (s_info c) (s_alpn c) (sni_filter c)
    (sni_filter_matched c) (s_verify c) (s_ocsp_revoked c) (s_counters c) (timer_start c)
    (timer_read_timeout c) (timer_write_timeout c) (s_ident c).
Definition put_fatal (v : bool) (c : sslcom) : sslcom :=
  mkSsl (s_base c) (s_l4_proto c) (s_bypass c) (s_opt c) (s_ssl c) (sslcom_ret c)
    (read_blocked_on_write c) (write_blocked_on_read c) (write_blocked_on_write c)
    (sslcom_waiting c) v (sslcom_server c) (sslcom_status c) (hsk_reused c) (auto_upgrade c)
    (upgraded c) (hello_received c) (hello_buffer c) (s_info c) (s_alpn c) (sni_filter c)
    (sni_filter_matched c) (s_verify c) (s_ocsp_revoked c) (s_counters c) (timer_start c)
    (timer_read_timeout c) (timer_write_timeout c) (s_ident c).
Definition put_server (v : bool) (c : sslcom) : sslcom :=
  mkSsl (s_base c) (s_l4_proto c) (s_bypass c) (s_opt c) (s_ssl c) (sslcom_ret c)
    (read_blocked_on_write c) (write_blocked_on_read c) (write_blocked_on_write c)
    (sslcom_waiting c) (sslcom_fatal c) v (sslcom_status c) (hsk_reused c) (auto_upgrade c)
    (upgraded c) (hello_received c) (hello_buffer c) (s_info c) (s_alpn c) (sni_filter c)
    (sni_filter_matched c) (s_verify c) (s_ocsp_revoked c) (s_counters c) (timer_start c)
    (timer_read_timeout c) (timer_write_timeout c) (s_ident c).
Definition put_status (v : bool) (c : sslcom) : sslcom :=
  mkSsl (s_base c) (s_l4_proto c) (s_bypass c) (s_opt c) (s_ssl c) (sslcom_ret c)
    (read_blocked_on_write c) (write_blocked_on_read c) (write_blocked_on_write c)
    (sslcom_waiting c) (sslcom_fatal c) (sslcom_server c) v (hsk_reused c) (auto_upgrade c)
    (upgraded c) (hello_received c) (hello_buffer c) (s_info c) (s_alpn c) (sni_filter c)
    (sni_filter_matched c) (s_verify c) (s_ocsp_revoked c) (s_counters c) (timer_start c)
    (timer_read_timeout c) (timer_write_timeout c) (s_ident c).
Definition put_hsk_reused (v : bool) (c : sslcom) : sslcom :=
  mkSsl (s_base c) (s_l4_proto c) (s_bypass c) (s_opt c) (s_ssl c) (sslcom_ret c)
    (read_blocked_on_write c) (write_blocked_on_read c) (write_blocked_on_write c)
    (sslcom_waiting c) (sslcom_fatal c) (sslcom_server c) (sslcom_status c) v (auto_upgrade c)
    (upgraded c) (hello_received c) (hello_buffer c) (s_info c) (s_alpn c) (sni_filter c)
    (sni_filter_matched c) (s_verify c) (s_ocsp_revoked c) (s_counters c) (timer_start c)
    (timer_read_timeout c) (timer_write_timeout c) (s_ident c).
Definition put_upgraded (v : bool) (c : sslcom) : sslcom :=
  mkSsl (s_base c) (s_l4_proto c) (s_bypass c) (s_opt c) (s_ssl c) (sslcom_ret c)
    (read_blocked_on_write c) (write_blocked_on_read c) (write_blocked_on_write c)
    (sslcom_waiting c) (sslcom_fatal c) (sslcom_server c) (sslcom_status c) (hsk_reused c)
    (auto_upgrade c) v (hello_received c) (hello_buffer c) (s_info c) (s_alpn c) (sni_filter c)
    (sni_filter_matched c) (s_verify c) (s_ocsp_revoked c) (s_counters c) (timer_start c)
    (timer_read_timeout c) (timer_write_timeout c) (s_ident c).
Definition put_hello_received (v : bool) (c : sslcom) : sslcom :=
  mkSsl (s_base c) (s_l4_proto c) (s_bypass c) (s_opt c) (s_ssl c) (sslcom_ret c)
    (read_blocked_on_write c) (write_blocked_on_read c) (write_blocked_on_write c)
    (sslcom_waiting c) (sslcom_fatal c) (sslcom_server c) (sslcom_status c) (hsk_reused c)
    (auto_upgrade c) (upgraded c) v (hello_buffer c) (s_info c) (s_alpn c) (sni_filter c)
    (sni_filter_matched c) (s_verify c) (s_ocsp_revoked c) (s_counters c) (timer_start c)
    (timer_read_timeout c) (timer_write_timeout c) (s_ident c).
Definition put_hello_buffer (v : bytes) (c : sslcom) : sslcom :=
  mkSsl (s_base c) (s_l4_proto c) (s_bypass c) (s_opt c) (s_ssl c) (sslcom_ret c)
    (read_blocked_on_write c) (write_blocked_on_read c) (write_blocked_on_write c)
    (sslcom_waiting c) (sslcom_fatal c) (sslcom_server c) (sslcom_status c) (hsk_reused c)
    (auto_upgrade c) (upgraded c) (hello_received c) v (s_info c) (s_alpn c) (sni_filter c)
    (sni_filter_matched c) (s_verify c) (s_ocsp_revoked c) (s_counters c) (timer_start c)
    (timer_read_timeout c) (timer_write_timeout c) (s_ident c).
Definition put_info (v : hello_info) (c : sslcom) : sslcom :=
  mkSsl (s_base c) (s_l4_proto c) (s_bypass c) (s_opt c) (s_ssl c) (sslcom_ret c)
    (read_blocked_on_write c) (write_blocked_on_read c) (write_blocked_on_write c)
    (sslcom_waiting c) (sslcom_fatal c) (sslcom_server c) (sslcom_status c) (hsk_reused c)
    (auto_upgrade c) (upgraded c) (hello_received c) (hello_buffer c) v (s_alpn c) (sni_filter c)
    (sni_filter_matched c) (s_verify c) (s_ocsp_revoked c) (s_counters c) (timer_start c)
    (timer_read_timeout c) (timer_write_timeout c) (s_ident c).
Definition put_alpn (v : bytes) (c : sslcom) : sslcom :=
  mkSsl (s_base c) (s_l4_proto c) (s_bypass c) (s_opt c) (s_ssl c) (sslcom_ret c)
    (read_blocked_on_write c) (write_blocked_on_read c) (write_blocked_on_write c)
    (sslcom_waiting c) (sslcom_fatal c) (sslcom_server c) (sslcom_status c) (hsk_reused c)
    (auto_upgrade c) (upgraded c) (hello_received c) (hello_buffer c) (s_info c) v (sni_filter c)
    (sni_filter_matched c) (s_verify c) (s_ocsp_revoked c) (s_counters c) (timer_start c)
    (timer_read_timeout c) (timer_write_timeout c) (s_ident c).
Definition put_sni_filter_matched (v : bool) (c : sslcom) : sslcom :=
  mkSsl (s_base c) (s_l4_proto c) (s_bypass c) (s_opt c) (s_ssl c) (sslcom_ret c)
    (read_blocked_on_write c) (write_blocked_on_read c) (write_blocked_on_write c)
    (sslcom_waiting c) (sslcom_fatal c) (sslcom_server c) (sslcom_status c) (hsk_reused c)
    (auto_upgrade c) (upgraded c) (hello_received c) (hello_buffer c) (s_info c) (s_alpn c)
    (sni_filter c) v (s_verify c) (s_ocsp_revoked c) (s_counters c) (timer_start c)
    (timer_read_timeout c) (timer_write_timeout c) (s_ident c).
Definition put_verify (v : Z) (c : sslcom) : sslcom :=
  mkSsl (s_base c) (s_l4_proto c) (s_bypass c) (s_opt c) (s_ssl c) (sslcom_ret c)
    (read_blocked_on_write c) (write_blocked_on_read c) (write_blocked_on_write c)
    (sslcom_waiting c) (sslcom_fatal c) (sslcom_server c) (sslcom_status c) (hsk_reused c)
    (auto_upgrade c) (upgraded c) (hello_received c) (hello_buffer c) (s_info c) (s_alpn c)
    (sni_filter c) (sni_filter_matched c) v (s_ocsp_revoked c) (s_counters c) (timer_start c)
    (timer_read_timeout c) (timer_write_timeout c) (s_ident c).
Definition put_counters (v : counters) (c : sslcom) : sslcom :=
  mkSsl (s_base c) (s_l4_proto c) (s_bypass c) (s_opt c) (s_ssl c) (sslcom_ret c)
    (read_blocked_on_write c) (write_blocked_on_read c) (write_blocked_on_write c)
    (sslcom_waiting c) (sslcom_fatal c) (sslcom_server c) (sslcom_status c) (hsk_reused c)
    (auto_upgrade c) (upgraded c) (hello_received c) (hello_buffer c) (s_info c) (s_alpn c)
    (sni_filter c) (sni_filter_matched c) (s_verify c) (s_ocsp_revoked c) v (timer_start c)
    (timer_read_timeout c) (timer_write_timeout c) (s_ident c).
Definition put_timer_read_timeout (v : Z) (c : sslcom) : sslcom :=
  mkSsl (s_base c) (s_l4_proto c) (s_bypass c) (s_opt c) (s_ssl c) (sslcom_ret c)
    (read_blocked_on_write c) (write_blocked_on_read c) (write_blocked_on_write c)
    (sslcom_waiting c) (sslcom_fatal c) (sslcom_server c) (sslcom_status c) (hsk_reused c)
    (auto_upgrade c) (upgraded c) (hello_received c) (hello_buffer c) (s_info c) (s_alpn c)
    (sni_filter c) (sni_filter_matched c) (s_verify c) (s_ocsp_revoked c) (s_counters c)
    (timer_start c) v (timer_write_timeout c) (s_ident c).
Definition put_timer_write_timeout (v : Z) (c : sslcom) : sslcom :=
  mkSsl (s_base c) (s_l4_proto c) (s_bypass c) (s_opt c) (s_ssl c) (sslcom_ret c)
    (read_blocked_on_write c) (write_blocked_on_read c) (write_blocked_on_write c)
    (sslcom_waiting c) (sslcom_fatal c) (sslcom_server c) (sslcom_status c) (hsk_reused c)
    (auto_upgrade c) (upgraded c) (hello_received c) (hello_buffer c) (s_info c) (s_alpn c)
    (sni_filter c) (sni_filter_matched c) (s_verify c) (s_ocsp_revoked c) (s_counters c)
    (timer_start c) (timer_read_timeout c) v (s_ident c).
Definition put_ident (v : identity) (c : sslcom) : sslcom :=
  mkSsl (s_base c) (s_l4_proto c) (s_bypass c) (s_opt c) (s_ssl c) (sslcom_ret c)
    (read_blocked_on_write c) (write_blocked_on_read c) (write_blocked_on_write c)
    (sslcom_waiting c) (sslcom_fatal c) (sslcom_server c) (sslcom_status c) (hsk_reused c)
    (auto_upgrade c) (upgraded c) (hello_received c) (hello_buffer c) (s_info c) (s_alpn c)
    (sni_filter c) (sni_filter_matched c) (s_verify c) (s_ocsp_revoked c) (s_counters c)
    (timer_start c) (timer_read_timeout c) (timer_write_timeout c) v.

(** [err_flags] *)
Definition ERROR_UNSPEC : Z := 1.
Definition ERROR_READ : Z := 2.
Definition ERROR_WRITE : Z := 3.
Definition ERROR_SOCKET : Z := 4.

Definition SOCK_STREAM : Z := 1.
Definition SOCK_DGRAM : Z := 2.
Definition MSG_PEEK : Z := 2.
Definition O_NONBLOCK : Z := 2048.

Definition com_socket (c : sslcom) : Z := fd_ (s_base c).
Definition com_error (e : Z) (c : sslcom) : sslcom := put_base (set_error_flag e (s_base c)) c.
Definition tick (k : counter) (c : sslcom) : sslcom := put_counters (counter_tick k (s_counters c)) c.
Definition zero (k : counter) (c : sslcom) : sslcom := put_counters (counter_put k 0 (s_counters c)) c.

(** The calls that configure an SSL object and say nothing the code looks at. *)
Inductive conf : Type :=
  | CipherList (filter : string)
  | Groups (list : string)
  | NoTicket
  | CookieExchange
  | Mode
  | SetFd (fd : Z)
  | SetBio (fd : Z)
  | MsgCallback
  | DhAuto
  | EcdhAuto
  | ExData
  | VerifyPeer
  | ClientCertCb
  | StatusRequest
  | EnableCt
  | AlpnSelectCb
  | SetSession (resumed : bool)
  | TlsextHostName (sni : bytes)
  | AlpnProtos (alpn : bytes)
  | RefPair.            (* a reference more on the preferred key and certificate *)

(** The calls whose failure is only reported. *)
Inductive use_call : Type := UseCertificate | UsePrivateKey.

(** OpenSSL on the SSL object of this com, and the system calls of the com. *)
Class SslLib : Type := {
  sslw : Type;
  session : Type;
  SSL_new : option ssl_ctx -> sslw -> bool * sslw;
  SSL_free : sslw -> sslw;
  SSL_conf : conf -> sslw -> sslw;
  SSL_use : use_call -> sslw -> Z * sslw;
  SSL_accept : sslw -> Z * sslw;
  SSL_connect : sslw -> Z * sslw;
  SSL_read : Z -> sslw -> Z * bytes * sslw;
  SSL_peek : Z -> sslw -> Z * bytes * sslw;
  SSL_write : bytes -> sslw -> Z * sslw;
  SSL_get_error : Z -> sslw -> Z;
  SSL_pending : sslw -> Z;
  SSL_session_reused : sslw -> bool;
  SSL_get0_session : sslw -> session;
  SSL_SESSION_is_resumable : sslw -> bool;
  SSL_set_session : session -> sslw -> sslw;
  SSL_get_peer_certificate : sslw -> bool;
  SSL_sent_shutdown : sslw -> bool;
  SSL_shutdown : sslw -> Z * sslw;
  ERR_get_error : sslw -> Z * sslw;
  ERR_clear_error : sslw -> sslw;
  errno : sslw -> Z;
  recv_peek : Z -> Z -> sslw -> Z * bytes * sslw;  (* socket, room *)
  fcntl_getfl : Z -> sslw -> Z * sslw;
  fcntl_setfl : Z -> Z -> sslw -> Z * sslw;
  close_fd : Z -> sslw -> sslw;
  l4_read : Z -> Z -> Z -> sslw -> Z * bytes * sslw;
  l4_write : Z -> bytes -> Z -> sslw -> Z * sslw;
  l4_connect : bytes -> bytes -> sslw -> Z * sslw;
  l4_com_status : sslw -> bool;
  l4_cleanup : sslw -> sslw;
  l4_shutdown : Z -> sslw -> sslw;
  ssl_now_ms : sslw -> Z
}.

Section world.
Context `{EpollKernel} {SL : SslLib}.

(** [peer()]: none, a com of another kind, or a TLS com. *)
Inductive peer_t : Type := NoPeer | OtherPeer | SslPeer (c : sslcom).

(** [owner_cx()]: host, port and socket. *)
Record owner : Type := mkOwner { o_host : bytes; o_port : bytes; o_socket : Z }.

Record tworld : Type := mkTw {
  tw_me : sslcom;
  tw_peer : peer_t;
  tw_owner : option owner;
  tw_poll : epoller;                              (* master()->poller *)
  tw_lib : sslw;
  tw_sessions : cache bytes session;              (* factory()->session_cache() *)
  tw_trust_store : bool;                          (* factory()->trust_store() is not null *)
  tw_ct_available : bool
}.

Definition tw_put_me (c : sslcom) (w : tworld) : tworld :=
  mkTw c (tw_peer w) (tw_owner w) (tw_poll w) (tw_lib w) (tw_sessions w) (tw_trust_store w) (tw_ct_available w).
Definition tw_put_peer (p : peer_t) (w : tworld) : tworld :=
  mkTw (tw_me w) p (tw_owner w) (tw_poll w) (tw_lib w) (tw_sessions w) (tw_trust_store w) (tw_ct_available w).
Definition tw_put_poll (p : epoller) (w : tworld) : tworld :=
  mkTw (tw_me w) (tw_peer w) (tw_owner w) p (tw_lib w) (tw_sessions w) (tw_trust_store w) (tw_ct_available w).
Definition tw_put_lib (l : sslw) (w : tworld) : tworld :=
  mkTw (tw_me w) (tw_peer w) (tw_owner w) (tw_poll w) l (tw_sessions w) (tw_trust_store w) (tw_ct_available w).
Definition tw_put_sessions (s : cache bytes session) (w : tworld) : tworld :=
  mkTw (tw_me w) (tw_peer w) (tw_owner w) (tw_poll w) (tw_lib w) s (tw_trust_store w) (tw_ct_available w).

Definition on_me (f : sslcom -> sslcom) : M tworld unit := modify (fun w => tw_put_me (f (tw_me w)) w).
Definition mine {A} (f : sslcom -> A) : M tworld A := gets (fun w => f (tw_me w)).
Definition on_ssl_peer (f : sslcom -> sslcom) : M tworld unit :=
  modify (fun w => match tw_peer w with SslPeer p => tw_put_peer (SslPeer (f p)) w | _ => w end).

(** A call of the library. *)
Definition libcall {A} (f : sslw -> A * sslw) : M tworld A := fun w =>
  let '(a, l) := f (tw_lib w) in Ret a (tw_put_lib l w).
Definition libdo (f : sslw -> sslw) : M tworld unit := modify (fun w => tw_put_lib (f (tw_lib w)) w).
Definition libask {A} (f : sslw -> A) : M tworld A := gets (fun w => f (tw_lib w)).

(** The same on [sslcom_ssl], which must not be null. *)
Definition ssl_call {A} (f : sslw -> A * sslw) : M tworld A :=
  s <- mine s_ssl ;; if s : bool then libcall f else undef.
Definition ssl_do (f : sslw -> sslw) : M tworld unit :=
  s <- mine s_ssl ;; if s : bool then libdo f else undef.
Definition ssl_ask {A} (f : sslw -> A) : M tworld A :=
  s <- mine s_ssl ;; if s : bool then libask f else undef.

(** The monitor calls of [baseCom], on the poller of the master. *)
Context (k0 : kstate) (translate_socket : Z -> Z).

Definition polls (f : kstate -> Z -> (Z -> Z) -> epoller -> epoller) : M tworld unit :=
  modify (fun w => tw_put_poll (f k0 (ssl_now_ms (tw_lib w)) translate_socket (tw_poll w)) w).
Definition tls_monitor (s : Z) : M tworld unit := polls (fun k n t => set_monitor k n t s).
Definition tls_unmonitor (s : Z) : M tworld unit := polls (fun k n t => unset_monitor k n t s).
Definition tls_write_monitor (s : Z) : M tworld unit := polls (fun k n t => set_write_monitor k n t s).
Definition tls_write_monitor_only (s : Z) : M tworld unit := polls (fun k n t => set_write_monitor_only k n t s).
Definition tls_rescan_read (s : Z) : M tworld unit := polls (fun k n t => rescan_read k n t s).
Definition tls_rescan_write (s : Z) : M tworld unit := polls (fun k n t => rescan_write k n t s).
Definition tls_enforce (s : Z) : M tworld unit := polls (fun k n t => set_enforce k n t s).
(** [master()->poller.modify(fd, mode)] and [.rescan_in(s)], without translation. *)
Definition poller_modify (fd mode : Z) : M tworld unit := polls (fun k n t e => snd (epoller_modify k n fd mode e)).
Definition poller_rescan_in (s : Z) : M tworld unit := polls (fun k n t e => snd (epoller_rescan_in k n s e)).
End world.
