(* ===== verification/Tls.v ===== *)
(** * Tls: the TLS com (sslcom.tpp)

    A client com waits for the ClientHello its peer will receive, copies the names, connects
    with its own handshake and can be bypassed, as can its peer; a server com accepts. [read]
    and [write] finish the handshake first and then move data, with the want-read and
    want-write answers of OpenSSL turned into monitoring requests.

    The build with OpenSSL 3 is modelled. A ClientHello on which the parser does not return
    leaves its caller undefined. *)

From S2P Require Export TlsData.

Section tls.
Context `{EpollKernel} {SL : SslLib} (k0 : kstate) (translate_socket : Z -> Z).

Abbreviation tls_monitor := (tls_monitor k0 translate_socket).
Abbreviation tls_unmonitor := (tls_unmonitor k0 translate_socket).
Abbreviation tls_write_monitor := (tls_write_monitor k0 translate_socket).
Abbreviation tls_write_monitor_only := (tls_write_monitor_only k0 translate_socket).
Abbreviation tls_rescan_read := (tls_rescan_read k0 translate_socket).
Abbreviation tls_rescan_write := (tls_rescan_write k0 translate_socket).
Abbreviation tls_enforce := (tls_enforce k0 translate_socket).
Abbreviation poller_modify := (poller_modify k0 translate_socket).
Abbreviation poller_rescan_in := (poller_rescan_in k0 translate_socket).

(** ** Peers *)

Definition unmonitor_peer : M tworld bool :=
  p <- gets tw_peer ;;
  match p with SslPeer c => tls_unmonitor (com_socket c) ;;; mret_ true | _ => mret_ false end.
Definition monitor_peer : M tworld bool :=
  p <- gets tw_peer ;;
  match p with SslPeer c => tls_monitor (com_socket c) ;;; mret_ true | _ => mret_ false end.

Definition bypass_me_and_peer : M tworld bool :=
  p <- gets tw_peer ;;
  match p with
  | SslPeer _ =>
      on_me (put_bypass true) ;;; on_ssl_peer (put_bypass true) ;;;
      on_me (put_verify VRF_OK) ;;; on_ssl_peer (put_verify VRF_OK) ;;;
      mret_ true
  | _ => mret_ false
  end.

(** ** Waiting for the ClientHello *)

Definition EAGAIN : Z := 11.
Definition EINPROGRESS : Z := 115.

(** The call of the parser inside [waiting_peer_hello]: its result, 0 for a malformed
    message; the names and errors it leaves are the com's. *)
Definition call_parse_peer_hello (fuel : nat) (data : bytes) : M tworld Z :=
  c <- mine (fun c => c) ;;
  t <- libask ssl_now_ms ;;
  p <- gets tw_peer ;;
  let is_ssl := match p with SslPeer _ => true | _ => false end in
  let store := data ++ zdrop (zlen data) (hello_buffer c) in
  on_me (put_hello_buffer store) ;;;
  let b := mkPeek store (zlen data) in
  let apply (q : parse_st) : M tworld unit :=
    on_me (fun c => put_info (p_info q) (if p_error q then com_error ERROR_UNSPEC c else c)) ;;;
    match p with
    | SslPeer pc => when (p_rescan q) (poller_rescan_in (com_socket pc))
    | _ => mret_ tt
    end in
  match run_parse_peer_hello fuel is_ssl (t - timer_start c) b (s_info c) with
  | Ret (Some r) q => apply q ;;; mret_ r
  | Throw clienthello_malformed q => apply q ;;; mret_ 0
  | Throw e q => apply q ;;; throw e
  | Ret None _ | Undef => undef
  end.

Definition waiting_peer_hello (fuel : nat) : M tworld bool :=
  already <- mine hello_received ;;
  if already : bool then mret_ true else
  p <- gets tw_peer ;;
  sock <- mine com_socket ;;
  let received := on_me (put_hello_received true) ;;; tls_monitor sock in
  match p with
  | SslPeer peer_scom =>
      if 0 <? com_socket peer_scom then
        cap <- mine (fun c => zlen (hello_buffer c)) ;;
        let! (red, data) := libcall (recv_peek (com_socket peer_scom) cap) in
        if 0 <? red then
          r <- call_parse_peer_hello fuel data ;;
          if r =? 0 then
            b <- bypass_me_and_peer ;;
            when (negb b) (on_me (com_error ERROR_UNSPEC)) ;;;
            mret_ false
          else if r <? 0 then mret_ false
          else
            sni <- mine (fun c => sslcom_sni_ (s_info c)) ;;
            on_ssl_peer (fun c => put_info (set_sni sni (s_info c)) c) ;;;
            received ;;;
            mret_ true
        else
          e <- libask errno ;;
          when ((red =? 0) && negb (e =? 0) && negb (e =? EINPROGRESS) && negb (e =? EAGAIN))
            (on_ssl_peer (com_error ERROR_READ) ;;; on_me (com_error ERROR_UNSPEC)) ;;;
          mine hello_received
      else
        when (s_l4_proto peer_scom =? SOCK_DGRAM) received ;;;
        mine hello_received
  | OtherPeer => mine hello_received
  | NoPeer => received ;;; mine hello_received
  end.

(** ** Sessions *)

(** The key of a client: the name asked for, else host and port. *)
Definition client_session_key (c : sslcom) (o : owner) : bytes :=
  if 0 <? zlen (sslcom_sni_ (s_info c)) then text "r-" ++ sslcom_sni_ (s_info c)
  else text "r-" ++ o_host o ++ text ":" ++ o_port o.

Definition with_sessions {A} (m : M (cache bytes session) A) : M tworld A := fun w =>
  match m (tw_sessions w) with
  | Ret a s => Ret a (tw_put_sessions s w)
  | Throw e s => Throw e (tw_put_sessions s w)
  | Undef => Undef
  end.

(** [store_session_if_needed]; the server side is an experiment switched off
    ([EXP_left_session_cache_enabled]). *)
Definition store_session_if_needed : M tworld bool :=
  server <- mine sslcom_server ;;
  if server : bool then mret_ false else
  c <- mine (fun c => c) ;;
  o <- gets tw_owner ;;
  match o with
  | None => mret_ false
  | Some o =>
      if no_tickets (opt_right (s_opt c)) then mret_ false else
      let key := client_session_key c o in
      reused <- ssl_ask SSL_session_reused ;;
      if negb reused then
        if flag_check (s_verify c) VRF_OK then
          resumable <- ssl_ask SSL_SESSION_is_resumable ;;
          if resumable : bool then
            (if s_verify c =? VRF_OK then
               s <- ssl_ask SSL_get0_session ;;
               with_sessions (cache_set key s) ;;; mret_ tt
             else mret_ tt) ;;;
            mret_ true
          else mret_ false
        else mret_ false
      else
        on_me (put_hsk_reused true) ;;;
        on_me (fun c => put_verify (flag_set (flag_reset (s_verify c) VRF_NOTTESTED) VRF_OK) c) ;;;
        mret_ false
  end.

Definition load_session_if_needed : M tworld bool :=
  server <- mine sslcom_server ;;
  if server : bool then mret_ false else
  c <- mine (fun c => c) ;;
  o <- gets tw_owner ;;
  match o with
  | None => mret_ false
  | Some o =>
      if no_tickets (opt_right (s_opt c)) then mret_ false else
      h <- with_sessions (cache_get (client_session_key c o)) ;;
      match h with
      | Some s => ssl_do (SSL_set_session s) ;;; ssl_do (SSL_conf (SetSession true)) ;;; mret_ true
      | None => ssl_do (SSL_conf (SetSession false)) ;;; mret_ false
      end
  end.

(** [new_session_callback], for a com found. *)
Definition new_session_callback : M tworld Z :=
  v <- mine s_verify ;;
  if flag_check v VRF_REVOKED then mret_ 0
  else r <- store_session_if_needed ;; mret_ (if r : bool then 1 else 0).

(** ** The SSL object *)

Definition ci_def_filter : string :=
  "HIGH RC4 !aNULL !eNULL !LOW !3DES !MD5 !EXP !DSS !PSK !SRP !kECDH !CAMELLIA !IDEA !SEED @STRENGTH".

Definition cipher_filter (f : crypto_features) : string :=
  (ci_def_filter ++ (if allow_sha1 f then "" else " !SHA1") ++ (if allow_rc4 f then "" else " !RC4")
   ++ (if allow_aes128 f then "" else " !AES128") ++ (if kex_dh f then "" else " !kEECDH !kEDH")
   ++ (if kex_rsa f then "" else " !kRSA"))%string.

Definition configure (l : list conf) : M tworld unit :=
  fold_right (fun c k => ssl_do (SSL_conf c) ;;; k) (mret_ tt) l.

Definition init_ssl_callbacks : M tworld unit :=
  c <- mine (fun c => c) ;;
  let o := s_opt c in
  let server := sslcom_server c in
  configure [MsgCallback] ;;;
  (if if server then kex_dh (opt_left o) else kex_dh (opt_right o) then configure [DhAuto; EcdhAuto] else mret_ tt) ;;;
  configure [ExData] ;;;
  if server then configure [AlpnSelectCb]
  else
    configure [VerifyPeer; ClientCertCb] ;;;
    trust <- gets tw_trust_store ;;
    ct <- gets tw_ct_available ;;
    (if stapling_wanted o && trust then configure [StatusRequest] else mret_ tt) ;;;
    (if ct_enable o && ct then configure [EnableCt] else mret_ tt).

Definition free_ssl : M tworld unit :=
  old <- mine s_ssl ;;
  when old (libdo SSL_free ;;; on_me (put_ssl false)).

(** [sslcom_ctx] becomes this context, and the object is made from it. *)
Definition put_ctx (x : option ssl_ctx) (c : sslcom) : sslcom :=
  let i := s_ident c in put_ident (mkIdentity x (i_pref_ctx i) (i_pref_pair i) (i_counted i)) c.
Definition new_ssl (x : option ssl_ctx) : M tworld unit :=
  on_me (put_ctx x) ;;; s <- libcall (SSL_new x) ;; on_me (put_ssl s).

(** The context of a server: the custom one, else the one there is, else the default one. *)
Definition server_ctx (i : identity) (default_cx : ssl_ctx) : option ssl_ctx :=
  match i_pref_ctx i with
  | Some x => Some x
  | None => match i_ctx i with Some x => Some x | None => Some default_cx end
  end.

Definition init_client : M tworld unit :=
  free_ssl ;;;
  proto <- mine s_l4_proto ;;
  (if proto =? SOCK_STREAM then new_ssl (Some TlsClientCx)
   else if proto =? SOCK_DGRAM then new_ssl (Some DtlsClientCx)
   else mret_ tt) ;;;
  o <- mine s_opt ;;
  configure [CipherList (cipher_filter (opt_right o))] ;;;
  (if no_tickets (opt_right o) then configure [NoTicket] else load_session_if_needed ;;; mret_ tt) ;;;
  configure [Mode] ;;;
  init_ssl_callbacks.

(** A call whose error is taken from the queue and reported. *)
Definition use_pref (c : use_call) : M tworld unit :=
  r <- ssl_call (SSL_use c) ;;
  when (negb (r =? 1)) (libcall ERR_get_error ;;; mret_ tt).

(** The preferred certificate and key, when there is no preferred context; the com takes a reference
    of its own the first time. *)
Definition load_pref : M tworld unit :=
  i <- mine s_ident ;;
  if negb (bool_decide (is_Some (i_pref_ctx i))) && i_pref_pair i then
    use_pref UseCertificate ;;;
    use_pref UsePrivateKey ;;;
    when (negb (i_counted i))
      (libdo (SSL_conf RefPair) ;;;
       on_me (fun c => put_ident (mkIdentity (i_ctx (s_ident c)) (i_pref_ctx (s_ident c)) (i_pref_pair (s_ident c)) true) c))
  else mret_ tt.

(** The session cache of the left side is off ([EXP_left_session_cache_enabled]). *)
Definition init_server : M tworld unit :=
  free_ssl ;;;
  proto <- mine s_l4_proto ;;
  i <- mine s_ident ;;
  (if proto =? SOCK_STREAM then new_ssl (server_ctx i TlsServerCx)
   else if proto =? SOCK_DGRAM then new_ssl (server_ctx i DtlsServerCx) ;;; configure [CookieExchange]
   else mret_ tt) ;;;
  c <- mine (fun c => c) ;;
  let o := opt_left (s_opt c) in
  when (kex_dh o) (configure [Groups "X25519:P-521:P-384:P-256:ffdhe2048"]) ;;;
  configure [CipherList (cipher_filter o)] ;;;
  load_pref ;;;
  on_me (put_server true) ;;;
  when (no_tickets o) (configure [SetSession false; NoTicket]) ;;;
  configure [Mode; SetFd (com_socket c)] ;;;
  init_ssl_callbacks.

Definition check_cert : M tworld bool :=
  peer <- ssl_ask SSL_get_peer_certificate ;;
  if negb peer then mret_ false else on_me (put_status true) ;;; mret_ true.

(** ** Upgrading a socket *)

Definition SSL_ERROR_NONE : Z := 0.
Definition SSL_ERROR_SSL : Z := 1.
Definition SSL_ERROR_WANT_READ : Z := 2.
Definition SSL_ERROR_WANT_WRITE : Z := 3.
Definition SSL_ERROR_WANT_X509_LOOKUP : Z := 4.
Definition SSL_ERROR_SYSCALL : Z := 5.
Definition SSL_ERROR_ZERO_RETURN : Z := 6.
Definition SSL_ERROR_WANT_CONNECT : Z := 7.
Definition SSL_ERROR_WANT_ACCEPT : Z := 8.

Definition set_socket (s : Z) : M tworld unit := on_me (fun c => put_base (set_fd s (s_base c)) c).
Definition force_rw : M tworld unit :=
  on_me (fun c => put_base (set_forced_write true (set_forced_read true (s_base c))) c).

(** [baseCom::unblock] and [baseCom::is_blocking]; the result of the first is not looked at. *)
Definition unblock (s : Z) : M tworld Z :=
  oldf <- libcall (fcntl_getfl s) ;;
  if Z.land oldf O_NONBLOCK =? 0 then
    r <- libcall (fcntl_setfl s (Z.lor oldf O_NONBLOCK)) ;;
    mret_ (if r <? 0 then -1 else 0)
  else mret_ 0.
Definition is_blocking (s : Z) : M tworld bool :=
  f <- libcall (fcntl_getfl s) ;; mret_ (Z.land f O_NONBLOCK =? 0).

Definition upgrade_server_socket (sockfd : Z) : M tworld Z :=
  set_socket sockfd ;;;
  on_me (put_waiting true) ;;;
  unblock sockfd ;;;
  b <- mine s_bypass ;;
  if b : bool then mret_ sockfd else
  u <- mine upgraded ;;
  when (negb u) (init_server ;;; on_me (put_upgraded true)) ;;;
  mine com_socket.

(** A call whose result becomes [sslcom_ret]. *)
Definition ssl_ret (f : sslw -> Z * sslw) : M tworld Z :=
  libdo ERR_clear_error ;;; r <- ssl_call f ;; on_me (put_ret r) ;;; mret_ r.

Definition upgrade_client_socket (fuel : nat) (sock : Z) : M tworld Z :=
  set_socket sock ;;;
  ch <- waiting_peer_hello fuel ;;
  if negb ch then mret_ sock else
  b <- mine s_bypass ;;
  if b : bool then mret_ sock else
  init_client ;;;
  c <- mine (fun c => c) ;;
  let sni := sslcom_sni_ (s_info c) in
  let alpn := sslcom_peer_hello_alpn_ (s_info c) in
  when (0 <? zlen sni) (configure [TlsextHostName sni]) ;;;
  when (negb (alpn_block (s_opt c)) && (0 <? zlen alpn)) (configure [AlpnProtos alpn]) ;;;
  configure [SetBio sock] ;;;
  r <- ssl_ret SSL_connect ;;
  on_me (tick prof_connect_cnt) ;;;
  blocking <- is_blocking sock ;;
  if (r <=? 0) && blocking then libdo (close_fd sock) ;;; mret_ (-1)
  else if r <=? 0 then
    when (r =? -1)
      (err <- ssl_ask (SSL_get_error r) ;;
       (if err =? SSL_ERROR_WANT_WRITE then
          tls_write_monitor_only sock ;;; unmonitor_peer ;;; mret_ tt
        else if err =? SSL_ERROR_WANT_READ then unmonitor_peer ;;; mret_ tt
        else mret_ tt) ;;;
       on_me (put_waiting true)) ;;;
    mret_ sock
  else
    on_me (tick prof_connect_ok) ;;;
    on_me (put_waiting false) ;;;
    monitor_peer ;;;
    store_session_if_needed ;;;
    check_cert ;;;
    force_rw ;;;
    on_me (put_upgraded true) ;;;
    mret_ sock.

Definition tls_connect (fuel : nat) (host port : bytes) : M tworld Z :=
  sock <- libcall (l4_connect host port) ;; upgrade_client_socket fuel sock.

(** ** The SNI filter *)

(** [std::string::rfind(s)]: the last position. *)
Fixpoint rfind_in (s t : bytes) : option Z :=
  match t with
  | [] => if bool_decide (s = []) then Some 0 else None
  | x :: t' =>
      match rfind_in s t' with
      | Some p => Some (p + 1)
      | None => if bool_decide (take (length s) t = s) then Some 0 else None
      end
  end.

(** [filter_element]: without a leading "*." *)
Definition filter_element (raw : bytes) : bytes :=
  match raw with
  | 42 :: 46 :: r => r
  | _ => raw
  end.

(** The test of one entry. *)
Definition sni_matches (sni raw : bytes) : bool :=
  let f := filter_element raw in
  match rfind_in f sni with
  | None => false
  | Some pos =>
      if zlen sni <=? pos + zlen f then
        if 0 <? pos then bool_decide (sni !! Z.to_nat (pos - 1) = Some 46) else true
      else false
  end.

(** The loop over the filter: [false] when the connection was bypassed. *)
Fixpoint sni_filter_loop (l : list bytes) (sni : bytes) : M tworld bool :=
  match l with
  | [] => mret_ true
  | raw :: l =>
      if sni_matches sni raw then
        on_me (put_sni_filter_matched true) ;;;
        b <- bypass_me_and_peer ;;
        if b : bool then mret_ false else sni_filter_loop l sni
      else sni_filter_loop l sni
  end.

(** ** The handshake *)

Inductive ret_handshake : Type := HS_FATAL | HS_ERROR | HS_AGAIN | HS_SUCCESS | HS_BYPASS.

Definition handshake_server (fuel : nat) : M tworld Z :=
  c <- mine (fun c => c) ;;
  (if auto_upgrade c && negb (upgraded c) then upgrade_server_socket (com_socket c) ;;; mret_ tt else mret_ tt) ;;;
  r <- ssl_ret SSL_accept ;;
  (if r =? 1 then store_session_if_needed ;;; mret_ tt else mret_ tt) ;;;
  on_me (tick prof_accept_cnt) ;;;
  mret_ r.

Definition handshake_peer_client (fuel : nat) : M tworld bool :=
  received <- mine hello_received ;;
  go <- (if negb received then
           ch <- waiting_peer_hello fuel ;;
           if negb ch then mret_ false
           else
             c <- mine (fun c => c) ;;
             (if auto_upgrade c then
                o <- gets tw_owner ;;
                match o with
                | Some o => when (com_socket c =? 0) (set_socket (o_socket o))
                | None => mret_ tt
                end ;;;
                s <- mine com_socket ;;
                upgrade_client_socket fuel s ;;; mret_ tt
              else mret_ tt) ;;;
             mret_ true
         else mret_ true) ;;
  if negb go then mret_ false else
  c <- mine (fun c => c) ;;
  if hello_received c then
    match sni_filter c with
    | Some l =>
        let sni := sslcom_sni_ (s_info c) in
        if 0 <? zlen sni then sni_filter_loop l sni else mret_ true
    | None => mret_ true
    end
  else mret_ true.

Definition handshake_client : M tworld Z :=
  r <- ssl_ret SSL_connect ;; on_me (tick prof_connect_cnt) ;;; mret_ r.

Definition rescan_threshold_read : Z := 30.
Definition rescan_threshold_write : Z := 30.

(** The error codes an OCSP callback is observed to leave. *)
Definition ocsp_callback_error (err2 : Z) : bool := (err2 =? 654741622) || (err2 =? 654741605).

(** What is made of the result of [SSL_connect] or [SSL_accept]. *)
Definition handshake_result (op_code : Z) : M tworld ret_handshake :=
  err <- ssl_ask (SSL_get_error op_code) ;;
  err2 <- libcall ERR_get_error ;;
  sock <- mine com_socket ;;
  if op_code <? 0 then
    if err =? SSL_ERROR_WANT_READ then
      on_me (put_waiting true) ;;; on_me (tick prof_want_read_cnt) ;;;
      n <- mine (fun c => s_counters c prof_want_read_cnt) ;;
      (if rescan_threshold_read <? n then tls_rescan_read sock else tls_monitor sock) ;;;
      mret_ HS_AGAIN
    else if err =? SSL_ERROR_WANT_WRITE then
      on_me (put_waiting true) ;;; on_me (tick prof_want_write_cnt) ;;;
      n <- mine (fun c => s_counters c prof_want_write_cnt) ;;
      (if rescan_threshold_write <? n then tls_rescan_write sock else tls_write_monitor_only sock) ;;;
      mret_ HS_AGAIN
    else if err =? SSL_ERROR_SYSCALL then mret_ HS_FATAL
    else if ocsp_callback_error err2 then
      rv <- mine s_ocsp_revoked ;;
      mret_ (if 0 <? rv then HS_ERROR else HS_AGAIN)
    else on_me (put_waiting true) ;;; mret_ HS_ERROR
  else if op_code =? 0 then on_me (put_waiting false) ;;; mret_ HS_ERROR
  else if op_code =? 2 then
    on_me (put_bypass true) ;;; on_me (put_verify VRF_OK) ;;; mret_ HS_AGAIN
  else
    reused <- ssl_ask SSL_session_reused ;;
    when reused (on_me (put_hsk_reused true)) ;;;
    server <- mine sslcom_server ;;
    (if negb server then check_cert ;;; store_session_if_needed ;;; mret_ tt else mret_ tt) ;;;
    on_me (put_waiting false) ;;;
    mret_ HS_AGAIN.

Definition handshake (fuel : nat) : M tworld ret_handshake :=
  c <- mine (fun c => c) ;;
  if negb (s_ssl c) && negb (auto_upgrade c) then mret_ HS_ERROR else
  libdo ERR_clear_error ;;;
  if negb (sslcom_server c) then
    go <- handshake_peer_client fuel ;;
    if negb go then
      s <- mine com_socket ;;
      tls_unmonitor s ;;; tls_rescan_read s ;;;
      mret_ HS_AGAIN
    else op_code <- handshake_client ;; handshake_result op_code
  else op_code <- handshake_server fuel ;; handshake_result op_code.

(** ** Reading *)

Definition readable : M tworld bool :=
  r <- mine read_blocked_on_write ;; on_me (put_read_blocked_on_write 0) ;;; mret_ (r =? 0).
Definition writable : M tworld bool :=
  r <- mine write_blocked_on_read ;; on_me (put_write_blocked_on_read 0) ;;; mret_ (r =? 0).

Definition SSLCOM_READ_TIMEOUT : Z := 60000.
Definition SSLCOM_WRITE_TIMEOUT : Z := 60000.

Definition touch_timers : M tworld unit :=
  t <- libask ssl_now_ms ;;
  on_me (fun c => put_timer_write_timeout t (put_timer_read_timeout t c)).

Definition com_flag (f : comst -> comst) : M tworld unit := on_me (fun c => put_base (f (s_base c)) c).

(** [if(total_r > 0) return total_r; return sslcom_ret;] *)
Definition partial (total ret : Z) (acc : bytes) : Z * bytes := (if 0 <? total then total else ret, acc).

(** [timeval_msdelta_now(&timer) > timeout]: error and return 0. *)
Definition read_timed_out : M tworld bool :=
  t <- libask ssl_now_ms ;;
  t0 <- mine timer_read_timeout ;;
  if SSLCOM_READ_TIMEOUT <? t - t0 then on_me (com_error ERROR_READ) ;;; mret_ true else mret_ false.

(** The [switch] for everything but a successful read: the result of the call and what is
    in the caller's buffer. *)
Definition read_failed (fd ret err total : Z) (acc : bytes) : M tworld (Z * bytes) :=
  sock <- mine com_socket ;;
  if err =? SSL_ERROR_ZERO_RETURN then mret_ (ret, acc)
  else if err =? SSL_ERROR_WANT_READ then
    on_me (tick read_want_read_cur) ;;; on_me (tick prof_want_read_cnt) ;;;
    n <- mine (fun c => s_counters c read_want_read_cur) ;;
    (if rescan_threshold_read <? n then tls_rescan_read sock ;;; on_me (zero read_want_read_cur)
     else tls_monitor sock) ;;;
    late <- read_timed_out ;;
    mret_ (if late : bool then (0, acc) else partial total ret acc)
  else if err =? SSL_ERROR_WANT_WRITE then
    com_flag (set_forced_read_on_write true) ;;;
    on_me (put_read_blocked_on_write 1) ;;;
    on_me (tick read_want_write_cur) ;;; on_me (tick prof_want_write_cnt) ;;;
    n <- mine (fun c => s_counters c read_want_write_cur) ;;
    (if rescan_threshold_write <? n then tls_rescan_write sock ;;; on_me (zero read_want_write_cur)
     else tls_write_monitor sock) ;;;
    late <- read_timed_out ;;
    mret_ (if late : bool then (0, acc) else partial total ret acc)
  else if err =? SSL_ERROR_SYSCALL then
    on_me (put_fatal true) ;;; mret_ (partial total ret acc)
  else mret_ (partial total ret acc).

(** The bookkeeping of a successful read. *)
Definition read_good (fd : Z) : M tworld unit :=
  blocked <- mine read_blocked_on_write ;;
  when (0 <? blocked) (poller_modify fd EPOLLIN ;;; on_me (put_read_blocked_on_write 0)) ;;;
  touch_timers ;;;
  on_me (zero read_want_write_cur) ;;;
  on_me (zero read_want_read_cur).

(** The [do { } while (SSL_pending)] loop: [acc] is what the buffer holds, its length
    [total_r]. Every turn that goes round again has read something, so [n + 1] turns are
    enough. *)
Fixpoint read_loop (fuel : nat) (fd n : Z) (acc : bytes) : M tworld (Z * bytes) :=
  let total := zlen acc in
  if n <=? total then
    com_flag (set_forced_read true) ;;; tls_enforce fd ;;; mret_ (total, acc)
  else
    match fuel with
    | O => undef
    | S fuel =>
        libdo ERR_clear_error ;;;
        let! (rv, data) := ssl_call (SSL_read (n - total)) in
        on_me (put_ret rv) ;;; on_me (tick prof_read_cnt) ;;;
        err <- ssl_ask (SSL_get_error rv) ;;
        if err =? SSL_ERROR_NONE then
          let acc := if 0 <? rv then acc ++ data else acc in
          read_good fd ;;;
          pending <- ssl_ask SSL_pending ;;
          if negb (pending =? 0) then read_loop fuel fd n acc else mret_ (zlen acc, acc)
        else read_failed fd rv err total acc
    end.

(** [read]: the result and what it put into the buffer of [n] bytes. *)
Definition tls_read (fuel : nat) (fd n flags : Z) : M tworld (Z * bytes) :=
  bypass <- mine s_bypass ;;
  if bypass : bool then libcall (l4_read fd n flags) else
  waiting <- mine sslcom_waiting ;;
  let transfer :=
    if negb (Z.land flags MSG_PEEK =? 0) then
      let! (r, data) := ssl_call (SSL_peek n) in
      on_me (put_ret r) ;;; on_me (tick prof_peek_cnt) ;;; mret_ (r, data)
    else read_loop fuel fd n [] in
  if waiting : bool then
    c <- handshake fuel ;;
    match c with
    | HS_AGAIN =>
        bypass <- mine s_bypass ;;
        if bypass : bool then libcall (l4_read fd n flags) else mret_ (-1, [])
    | HS_ERROR => mret_ (0, [])
    | HS_FATAL => on_me (put_fatal true) ;;; mret_ (0, [])
    | HS_SUCCESS | HS_BYPASS =>
        com_flag (set_forced_read true) ;;; monitor_peer ;;; transfer
    end
  else transfer.

(** ** Writing *)

Definition write_chunk : Z := 20480.

(** The [switch] of [write]: whether there was a problem, and whether to look at the timer. *)
Definition write_outcome (fd ret err : Z) : M tworld (bool * bool) :=
  sock <- mine com_socket ;;
  if err =? SSL_ERROR_NONE then
    rb <- mine write_blocked_on_read ;;
    when (0 <? rb) (on_me (put_write_blocked_on_read 0) ;;; com_flag (set_forced_write_on_read false)) ;;;
    wb <- mine write_blocked_on_write ;;
    when (0 <? wb) (on_me (put_write_blocked_on_write 0) ;;; poller_modify fd EPOLLIN) ;;;
    touch_timers ;;;
    on_me (zero write_want_read_cur) ;;; on_me (zero write_want_write_cur) ;;;
    mret_ (false, false)
  else if err =? SSL_ERROR_WANT_WRITE then
    poller_modify fd (Z.lor EPOLLIN EPOLLOUT) ;;;
    on_me (put_write_blocked_on_write 1) ;;;
    on_me (tick write_want_write_cur) ;;; on_me (tick prof_want_write_cnt) ;;;
    n <- mine (fun c => s_counters c write_want_write_cur) ;;
    (if rescan_threshold_write <? n then tls_rescan_write sock ;;; on_me (zero write_want_write_cur)
     else tls_write_monitor sock) ;;;
    mret_ (true, true)
  else if err =? SSL_ERROR_WANT_READ then
    on_me (put_write_blocked_on_read 1) ;;;
    com_flag (set_forced_write_on_read true) ;;;
    on_me (tick write_want_read_cur) ;;; on_me (tick prof_want_read_cnt) ;;;
    n <- mine (fun c => s_counters c write_want_read_cur) ;;
    (if rescan_threshold_read <? n then tls_rescan_read sock ;;; on_me (zero write_want_read_cur)
     else tls_monitor sock) ;;;
    mret_ (true, true)
  else mret_ (true, true).

Definition write_transfer (fd : Z) (buf : bytes) : M tworld Z :=
  on_me (put_write_blocked_on_read 0) ;;;
  let n := zlen buf in
  let normalized_n := if n <? write_chunk then n else write_chunk in
  if n <=? 0 then mret_ 0 else
  libdo ERR_clear_error ;;;
  ret <- ssl_call (SSL_write (ztake normalized_n buf)) ;;
  on_me (put_ret ret) ;;;
  when (normalized_n <=? ret) (com_flag (set_forced_write true)) ;;;
  on_me (tick prof_write_cnt) ;;;
  err <- ssl_ask (SSL_get_error ret) ;;
  let! (problem, timer) := write_outcome fd ret err in
  t <- libask ssl_now_ms ;;
  t0 <- mine timer_write_timeout ;;
  let late := timer && (SSLCOM_WRITE_TIMEOUT <? t - t0) in
  when late (on_me (com_error ERROR_WRITE)) ;;;
  mret_ (if problem || late then 0 else ret).

Definition tls_write (fuel : nat) (fd : Z) (buf : bytes) (flags : Z) : M tworld Z :=
  bypass <- mine s_bypass ;;
  if bypass : bool then libcall (l4_write fd buf flags) else
  waiting <- mine sslcom_waiting ;;
  if waiting : bool then
    c <- handshake fuel ;;
    match c with
    | HS_AGAIN =>
        bypass <- mine s_bypass ;;
        if bypass : bool then libcall (l4_write fd buf flags) else mret_ 0
    | HS_ERROR => mret_ (-1)
    | HS_FATAL => on_me (put_fatal true) ;;; mret_ (-1)
    | HS_SUCCESS | HS_BYPASS =>
        com_flag (set_forced_write true) ;;; monitor_peer ;;; write_transfer fd buf
    end
  else write_transfer fd buf.

(** ** The end *)

Definition tls_cleanup : M tworld unit :=
  c <- mine (fun c => c) ;;
  when (s_ssl c)
    (when (negb (sslcom_waiting c) && negb (sslcom_fatal c))
       (sent <- ssl_ask SSL_sent_shutdown ;;
        when (negb sent)
          (last_status <- ssl_ask (SSL_get_error (sslcom_ret c)) ;;
           when (negb (last_status =? SSL_ERROR_SSL) && negb (last_status =? SSL_ERROR_SYSCALL))
             (ssl_call SSL_shutdown ;;; mret_ tt))) ;;;
     libdo SSL_free ;;; on_me (put_ssl false)) ;;;
  libdo l4_cleanup.

Definition tls_shutdown (fd : Z) : M tworld unit :=
  c <- mine (fun c => c) ;;
  (if s_ssl c && negb (sslcom_fatal c) then ssl_call SSL_shutdown ;;; mret_ tt else mret_ tt) ;;;
  libdo (l4_shutdown fd).

Definition com_status : M tworld bool :=
  l4 <- libask l4_com_status ;;
  c <- mine (fun c => c) ;;
  mret_ (if l4 : bool then
           if s_bypass c then true
           else if sslcom_status c && negb (sslcom_server c) && flag_check (s_verify c) VRF_NOTTESTED then false
           else sslcom_status c
         else false).

(** [ssl_alpn_select_callback]: the protocol chosen by the server of the other side, [None]
    for [SSL_TLSEXT_ERR_NOACK]. *)
Definition ssl_alpn_select_callback (found : bool) (peer_selected : bytes) : M tworld (option bytes) :=
  if negb found then mret_ None else
  c <- mine (fun c => c) ;;
  p <- gets tw_peer ;;
  match p with
  | NoPeer => mret_ None
  | _ =>
      if alpn_block (s_opt c) then mret_ None
      else if 0 <? zlen (s_alpn c) then mret_ (Some (s_alpn c))
      else
        match p with
        | SslPeer _ =>
            if 0 <? zlen peer_selected then
              on_me (put_alpn peer_selected) ;;; on_ssl_peer (put_alpn peer_selected) ;;;
              mret_ (Some peer_selected)
            else mret_ None
        | _ => mret_ None
        end
  end.
End tls.
