(* ===== verification/TlsProps.v ===== *)
(** * TlsProps: names, bypass and the data stream of the TLS com *)

From S2P Require Export Tls HelloProps.

(** ** The SNI filter *)

Lemma rfind_in_occurs s t p : rfind_in s t = Some p -> exists a b, t = a ++ s ++ b /\ p = zlen a.
Proof.
  revert p. induction t as [|x t IH]; intros p; cbn [rfind_in].
  - case_bool_decide as E; [|done]. intros [= <-]. exists [], []. by rewrite E.
  - destruct (rfind_in s t) as [q|].
    + intros [= <-]. destruct (IH q eq_refl) as (a & b & -> & ->). exists (x :: a), b.
      by rewrite zlen_cons.
    + case_bool_decide as E; [|done]. intros [= <-]. exists [], (drop (length s) (x :: t)).
      split; [|done]. by rewrite <- (take_drop (length s) (x :: t)), E at 1.
Qed.

Lemma rfind_in_suffix a s : rfind_in s (a ++ s) = Some (zlen a).
Proof.
  induction a as [|x a IH]; cbn [app].
  - destruct s as [|y s]; [by cbn|]. cbn [rfind_in].
    destruct (rfind_in (y :: s) s) as [q|] eqn:E.
    + apply rfind_in_occurs in E as (a & b & E & _). apply (f_equal length) in E.
      rewrite !length_app in E. cbn in E. lia.
    + rewrite bool_decide_eq_true_2; [done|]. apply take_ge. done.
  - cbn [rfind_in]. rewrite IH, zlen_cons. done.
Qed.

(** A filter entry matches a name if and only if it is the name, or the name ends with a
    dot and the entry: "cnn.com" and "*.cnn.com" alike match "cnn.com" and every name under
    it and nothing else, such as "mycnn.com". *)
Theorem sni_filter_exact sni raw :
  let f := filter_element raw in
  sni_matches sni raw = true <-> sni = f \/ exists pre, sni = pre ++ 46 :: f.
Proof.
  cbv zeta. unfold sni_matches. set (f := filter_element raw). split.
  - destruct (rfind_in f sni) as [pos|] eqn:E; [|done].
    apply rfind_in_occurs in E as (a & b & -> & ->). rewrite !zlen_app.
    pose proof (zlen_nonneg a). pose proof (zlen_nonneg b). pose proof (zlen_nonneg f).
    case_if; [|done]. assert (Hb : b = []).
    { destruct b as [|x b]; [done|]. rewrite zlen_cons in *. pose proof (zlen_nonneg b). lia. }
    subst b. rewrite app_nil_r. case_if.
    + intros Hdot. apply bool_decide_eq_true in Hdot. right.
      destruct (exists_last (l := a)) as (a' & x & ->).
      { intros ->. rewrite zlen_nil in *. lia. }
      exists a'. rewrite <- app_assoc. cbn [app]. f_equal. f_equal.
      rewrite zlen_app, zlen_cons, zlen_nil, zlen_length in Hdot.
      rewrite <- app_assoc, lookup_app_r in Hdot by lia.
      replace (Z.to_nat _ - length a')%nat with 0%nat in Hdot by lia. by injection Hdot.
    + intros _. left. destruct a as [|x a]; [done|]. rewrite zlen_cons in *. pose proof (zlen_nonneg a). lia.
  - intros [-> | [pre ->]].
    + pose proof (rfind_in_suffix [] f) as E. cbn [app] in E. rewrite E, zlen_nil.
      rewrite (proj2 (Z.leb_le _ _)) by lia. done.
    + replace (pre ++ 46 :: f) with ((pre ++ [46]) ++ f) by (by rewrite <- app_assoc).
      rewrite rfind_in_suffix, !zlen_app, zlen_cons, zlen_nil. pose proof (zlen_nonneg pre).
      rewrite (proj2 (Z.leb_le _ _)), (proj2 (Z.ltb_lt _ _)) by lia.
      apply bool_decide_eq_true. rewrite <- app_assoc, zlen_length, lookup_app_r by lia.
      replace (Z.to_nat _ - length pre)%nat with 0%nat by lia. done.
Qed.

(** ** The handshake *)

Section handshake.
Context `{EpollKernel} {SL : SslLib} (k0 : kstate) (tr : Z -> Z).

Lemma result_not_success op (w w' : tworld) r :
  handshake_result k0 tr op w = Ret r w' -> r = HS_AGAIN \/ r = HS_ERROR \/ r = HS_FATAL.
Proof.
  unfold handshake_result. intros E.
  apply bind_inv in E as (err & w1 & _ & E). apply bind_inv in E as (err2 & w2 & _ & E).
  apply bind_inv in E as (sock & w3 & _ & E).
  assert (Hin : forall (m : M tworld unit) x v, (m ;;; mret_ x) v = Ret r w' -> r = x).
  { intros m x v Em. apply bind_inv in Em as (u & v1 & _ & Em). unfold mret_ in Em. by injection Em as <-. }
  repeat match goal with
  | Hm : (if ?b then _ else _) _ = Ret _ _ |- _ => destruct b
  | Hm : mret_ _ _ = Ret _ _ |- _ => unfold mret_ in Hm; injection Hm as <- <-; auto
  | Hm : mbind_ ?m ?k ?v = Ret _ _ |- _ => apply bind_inv in Hm as (? & ? & _ & Hm)
  end; repeat match goal with |- context [if ?b then _ else _] => destruct b end; auto.
Qed.

(** The handshake never reports its success: a finished one answers like one that has to
    be called again, so what [read] and [write] do after a success is never reached. *)
Theorem handshake_never_reports_success fuel (w w' : tworld) r :
  handshake k0 tr fuel w = Ret r w' -> r <> HS_SUCCESS /\ r <> HS_BYPASS.
Proof.
  assert (Hr : r = HS_AGAIN \/ r = HS_ERROR \/ r = HS_FATAL -> r <> HS_SUCCESS /\ r <> HS_BYPASS)
    by (intros [-> | [-> | ->]]; done).
  unfold handshake. intros E. apply Hr. clear Hr.
  apply bind_inv in E as (c & w1 & _ & E). destruct (_ && _).
  { unfold mret_ in E. injection E as <- <-. auto. }
  apply bind_inv in E as (u & w2 & _ & E). destruct (negb _).
  - apply bind_inv in E as (go & w3 & _ & E). destruct go; cbn [negb] in E.
    + apply bind_inv in E as (op & w4 & _ & E). by apply result_not_success in E.
    + apply bind_inv in E as (s & w4 & _ & E). apply bind_inv in E as (? & w5 & _ & E).
      apply bind_inv in E as (? & w6 & _ & E). unfold mret_ in E. injection E as <- <-. auto.
  - apply bind_inv in E as (op & w3 & _ & E). by apply result_not_success in E.
Qed.
End handshake.

(** ** The data stream

    OpenSSL as its manual describes it for application data: [plain] is what the peer sent
    and was not read yet, [sent] what was accepted for sending. *)

Class SslStream `{SL : SslLib} := {
  plain : sslw -> bytes;
  sent : sslw -> bytes;
  read_law : forall m l r d l', 0 < m -> SSL_read m l = (r, d, l') ->
    (0 < r -> zlen d = r /\ r <= m /\ plain l = d ++ plain l') /\
    (r <= 0 -> plain l' = plain l);
  read_error_law : forall m l r d l', SSL_read m l = (r, d, l') ->
    SSL_get_error r l' = SSL_ERROR_NONE <-> 0 < r;
  pending_law : forall m l r d l', SSL_pending l <> 0 -> 0 < m ->
    SSL_read m (ERR_clear_error l) = (r, d, l') -> 0 < r;
  write_law : forall b l r l', SSL_write b l = (r, l') -> r <= zlen b /\
    sent l' = sent l ++ ztake r b /\ (SSL_get_error r l' = SSL_ERROR_NONE <-> 0 < r);
  clear_law : forall l, plain (ERR_clear_error l) = plain l /\ sent (ERR_clear_error l) = sent l
}.

Section stream.
Context `{EpollKernel} {SL : SslLib} {ST : SslStream} (k0 : kstate) (tr : Z -> Z).

(** A step that leaves OpenSSL and the SSL object alone. *)
Definition silent {A} (m : M tworld A) : Prop := forall w, exists a w',
  m w = Ret a w' /\ tw_lib w' = tw_lib w /\ s_ssl (tw_me w') = s_ssl (tw_me w).

Lemma silent_ret {A} (a : A) : silent (mret_ a).
Proof. intros w. by exists a, w. Qed.
Lemma silent_gets {A} (f : tworld -> A) : silent (gets f).
Proof. intros w. by exists (f w), w. Qed.
Lemma silent_me f : (forall c, s_ssl (f c) = s_ssl c) -> silent (on_me f).
Proof. intros Hf w. unfold on_me, modify. eexists _, _. split; [done|]. split; [done | apply Hf]. Qed.
Lemma silent_polls f : silent (polls k0 tr f).
Proof. intros w. by eexists _, _. Qed.
Lemma silent_bind {A B} (m : M tworld A) (k : A -> M tworld B) :
  silent m -> (forall a, silent (k a)) -> silent (mbind_ m k).
Proof.
  intros Hm Hk w. destruct (Hm w) as (a & w1 & E & El & Es).
  destruct (Hk a w1) as (b & w2 & E2 & El2 & Es2). exists b, w2.
  rewrite (bind_ret _ _ _ _ _ E), E2, El2, Es2. done.
Qed.
Lemma silent_when b m : silent m -> silent (when b m).
Proof. intros Hm. destruct b; [done | apply silent_ret]. Qed.
Lemma silent_if {A} (b : bool) (m k : M tworld A) : silent m -> silent k -> silent (if b then m else k).
Proof. by destruct b. Qed.

Hint Resolve silent_ret silent_gets silent_polls silent_bind silent_when silent_if : silent.
Hint Extern 1 (silent (on_me _)) => apply silent_me; done : silent.
Hint Unfold mine libask com_flag touch_timers read_timed_out tls_monitor tls_rescan_read
  tls_rescan_write tls_write_monitor poller_modify tls_enforce : silent.

Lemma silent_read_good fd : silent (read_good k0 tr fd).
Proof. unfold read_good, touch_timers, com_flag, mine, libask, poller_modify. auto 20 with silent. Qed.

Lemma silent_read_failed fd r err total acc :
  silent (read_failed k0 tr fd r err total acc).
Proof.
  unfold read_failed, read_timed_out, com_flag, mine, libask, tls_monitor, tls_rescan_read, tls_rescan_write,
    tls_write_monitor. auto 40 with silent.
Qed.

Lemma read_failed_value fd r err (w w' : tworld) x :
  r <= 0 -> read_failed k0 tr fd r err 0 [] w = Ret x w' -> snd x = [] /\ fst x <= 0.
Proof.
  intros Hr E. unfold read_failed, partial in E. change (0 <? 0) with false in E. cbv iota in E.
  repeat match goal with
  | Hm : (if ?b then _ else _) _ = Ret _ _ |- _ => destruct b
  | Hm : mret_ _ _ = Ret _ _ |- _ => unfold mret_ in Hm; injection Hm as <- <-
  | Hm : mbind_ ?m ?k ?v = Ret _ _ |- _ => apply bind_inv in Hm as (? & ? & _ & Hm)
  | |- context [if ?b then _ else _] => destruct b
  end; cbn; split; (done || lia).
Qed.

(** One [SSL_read] with its bookkeeping. *)
Lemma read_step fd n acc (w : tworld) r d l' :
  s_ssl (tw_me w) = true -> SSL_read (n - zlen acc) (ERR_clear_error (tw_lib w)) = (r, d, l') ->
  forall fuel, zlen acc < n -> exists w1,
    read_loop k0 tr (S fuel) fd n acc w
      = (if SSL_get_error r l' =? SSL_ERROR_NONE then
           let acc := if 0 <? r then acc ++ d else acc in
           read_good k0 tr fd ;;;
           pending <- ssl_ask SSL_pending ;;
           if negb (pending =? 0) then read_loop k0 tr fuel fd n acc else mret_ (zlen acc, acc)
         else read_failed k0 tr fd r (SSL_get_error r l') (zlen acc) acc) w1 /\
    tw_lib w1 = l' /\ s_ssl (tw_me w1) = true.
Proof.
  intros Hs Er fuel Hn. cbn [read_loop]. rewrite (proj2 (Z.leb_gt _ _)) by done.
  unfold libdo at 1. rewrite bind_modify. unfold ssl_call at 1, mine at 1.
  rewrite bind_assoc, bind_gets. cbn [tw_me tw_put_lib]. rewrite Hs.
  unfold libcall, mbind_ at 1. cbn [tw_lib tw_put_lib]. rewrite Er.
  unfold on_me at 1. rewrite bind_modify. unfold on_me at 1. rewrite bind_modify.
  unfold ssl_ask at 1, mine at 1. rewrite bind_assoc, bind_gets. cbn [tw_me tw_put_me s_ssl put_ret tick put_counters tw_put_lib].
  rewrite Hs. unfold libask at 1. rewrite bind_gets. eexists. split; [reflexivity|]. by split.
Qed.

Lemma read_loop_stream fuel fd n acc (w : tworld) :
  s_ssl (tw_me w) = true -> zlen acc <= n -> n - zlen acc < Z.of_nat fuel ->
  acc = [] \/ SSL_pending (tw_lib w) <> 0 ->
  exists r d w', read_loop k0 tr fuel fd n acc w = Ret (r, acc ++ d) w' /\
    plain (tw_lib w) = d ++ plain (tw_lib w') /\ zlen (acc ++ d) <= n /\
    (0 < r -> r = zlen (acc ++ d)) /\ (r <= 0 -> acc ++ d = []).
Proof.
  revert acc w. induction fuel as [|fuel IH]; intros acc w Hs Hn Hf Hp; [lia|].
  destruct (decide (n = zlen acc)) as [->|Hne].
  { exists (zlen acc), []. cbn [read_loop]. rewrite Z.leb_refl, app_nil_r.
    unfold com_flag, tls_enforce, polls, on_me. rewrite !bind_modify. eexists. split; [reflexivity|].
    split; [done|]. split; [lia|]. split; [done|]. intros Hz. destruct acc as [|x acc]; [done|].
    rewrite zlen_cons in Hz. pose proof (zlen_nonneg acc). lia. }
  destruct (SSL_read (n - zlen acc) (ERR_clear_error (tw_lib w))) as [[r d] l'] eqn:Er.
  destruct (read_law (n - zlen acc) _ _ _ _ ltac:(lia) Er) as [Hgood Hbad]. rewrite (proj1 (clear_law _)) in Hgood, Hbad.
  pose proof (read_error_law _ _ _ _ _ Er) as Herr.
  destruct (read_step fd n acc w r d l' Hs Er fuel ltac:(lia)) as (w1 & -> & Hl1 & Hs1).
  destruct (Z.eqb_spec (SSL_get_error r l') SSL_ERROR_NONE) as [En|En].
  - apply Herr in En. destruct (Hgood En) as (Hd & Hle & Hpl). rewrite (proj2 (Z.ltb_lt 0 r)) by done.
    cbv zeta. destruct (silent_read_good fd w1) as ([] & w2 & E2 & Hl2 & Hs2).
    rewrite (bind_ret _ _ _ _ _ E2). unfold ssl_ask, mine. rewrite bind_assoc, bind_gets, Hs2, Hs1.
    unfold libask. rewrite bind_gets. pose proof (zlen_nonneg acc).
    assert (Hz : zlen (acc ++ d) = zlen acc + r) by (rewrite zlen_app; lia).
    destruct (Z.eqb_spec (SSL_pending (tw_lib w2)) 0) as [_|Hpend]; cbn [negb].
    + exists (zlen (acc ++ d)), d, w2. unfold mret_. split; [done|]. rewrite Hl2, Hl1.
      split; [done|]. split; [lia|]. split; [done|]. lia.
    + destruct (IH (acc ++ d) w2) as (r2 & d2 & w' & E & Hpl2 & Hn2 & Hr1 & Hr2);
        [congruence | lia | lia | by right |].
      exists r2, (d ++ d2), w'. rewrite E, app_assoc. split; [done|].
      rewrite Hpl, <- Hl1, <- Hl2, Hpl2, app_assoc. auto.
  - assert (Hr : r <= 0) by (apply Z.nlt_ge; by rewrite <- Herr).
    assert (acc = []) as ->.
    { destruct Hp as [|Hp]; [done|]. pose proof (pending_law (n - zlen acc) _ _ _ _ Hp ltac:(lia) Er). lia. }
    rewrite zlen_nil. destruct (silent_read_failed fd r (SSL_get_error r l') 0 [] w1) as ([r2 d2] & w2 & E2 & Hl2 & _).
    destruct (read_failed_value _ _ _ _ _ _ Hr E2) as [Hd2 Hr2]. cbn in Hd2, Hr2. subst d2.
    exists r2, [], w2. rewrite E2, Hl2, Hl1. cbn. rewrite zlen_nil in *. 
    split; [done|]. split; [symmetry; by apply Hbad|]. split; [lia|]. split; [lia | done].
Qed.

(** [C7] Reading once the handshake is done: the call ends, it hands over the next bytes the
    peer sent, all of what it took from OpenSSL and no more than asked for, and its result is
    their number, or not positive when there are none. *)
Theorem read_delivers_stream fuel fd n flags (w : tworld) :
  s_bypass (tw_me w) = false -> sslcom_waiting (tw_me w) = false -> s_ssl (tw_me w) = true ->
  Z.land flags MSG_PEEK = 0 -> 0 <= n < Z.of_nat fuel ->
  exists r d w', tls_read k0 tr fuel fd n flags w = Ret (r, d) w' /\
    plain (tw_lib w) = d ++ plain (tw_lib w') /\ zlen d <= n /\
    (0 < r -> r = zlen d) /\ (r <= 0 -> d = []).
Proof.
  intros Hb Hw Hs Hf Hn. unfold tls_read, mine. rewrite bind_gets, Hb, bind_gets, Hw, Hf.
  cbn [Z.eqb negb]. destruct (read_loop_stream fuel fd n [] w) as (r & d & w' & E & H3);
    [done | rewrite zlen_nil; lia | rewrite zlen_nil; lia | by left |].
  exists r, d, w'. by rewrite E.
Qed.
End stream.

(** ** Writing *)

Section writing.
Context `{EpollKernel} {SL : SslLib} {ST : SslStream} (k0 : kstate) (tr : Z -> Z).

Lemma silent_write_outcome fd r err : silent (write_outcome k0 tr fd r err).
Proof.
  unfold write_outcome, touch_timers, com_flag, mine, libask, poller_modify, tls_monitor, tls_write_monitor,
    tls_rescan_read, tls_rescan_write. auto 40 using silent_ret, silent_gets, silent_polls, silent_bind,
    silent_when, silent_if, silent_me.
Qed.

(** Only a call of OpenSSL that was refused is a problem. *)
Lemma write_outcome_value fd r err (w w' : tworld) x :
  write_outcome k0 tr fd r err w = Ret x w' ->
  x = if err =? SSL_ERROR_NONE then (false, false) else (true, true).
Proof.
  unfold write_outcome. intros E. apply bind_inv in E as (sock & w1 & _ & E).
  destruct (err =? SSL_ERROR_NONE);
  repeat match goal with
  | Hm : (if ?b then _ else _) _ = Ret _ _ |- _ => destruct b
  | Hm : mret_ _ _ = Ret _ _ |- _ => unfold mret_ in Hm; by injection Hm as <- <-
  | Hm : mbind_ ?m ?k ?v = Ret _ _ |- _ => apply bind_inv in Hm as (? & ? & _ & Hm)
  end.
Qed.

(** [C14] Writing once the handshake is done: the call ends, what it reports is the number of
    bytes OpenSSL took, they are the front of the buffer, never more than one chunk of 20480,
    and a refused call takes nothing and reports zero. *)
Theorem write_sends_prefix fuel fd buf flags (w : tworld) :
  s_bypass (tw_me w) = false -> sslcom_waiting (tw_me w) = false -> s_ssl (tw_me w) = true ->
  exists r w', tls_write k0 tr fuel fd buf flags w = Ret r w' /\
    0 <= r <= zlen buf /\ r <= write_chunk /\
    sent (tw_lib w') = sent (tw_lib w) ++ ztake r buf.
Proof.
  intros Hb Hw Hs. unfold tls_write, mine. rewrite bind_gets, Hb, bind_gets, Hw. unfold write_transfer.
  unfold on_me at 1. rewrite bind_modify. cbv zeta. pose proof (zlen_nonneg buf) as Hn.
  destruct (Z.leb_spec (zlen buf) 0).
  { exists 0, (tw_put_me (put_write_blocked_on_read 0 (tw_me w)) w). split; [done|].
    unfold ztake. cbn. rewrite app_nil_r. unfold write_chunk. split; [lia|]. split; [lia | done]. }
  set (m := if zlen buf <? write_chunk then zlen buf else write_chunk).
  assert (Hm : 0 < m /\ m <= zlen buf /\ m <= write_chunk) by (unfold m, write_chunk; case_if; lia).
  unfold libdo at 1. rewrite bind_modify. unfold ssl_call at 1, mine at 1. rewrite bind_assoc, bind_gets.
  cbn [tw_me tw_put_lib tw_put_me put_write_blocked_on_read s_ssl]. rewrite Hs.
  destruct (SSL_write (ztake m buf) (ERR_clear_error (tw_lib w))) as [r l'] eqn:Ew.
  pose proof (write_law _ _ _ _ Ew) as (Hle & Hsent & Herr).
  unfold libcall, mbind_ at 1. cbn [tw_lib tw_put_lib tw_put_me]. rewrite Ew.
  unfold on_me at 1. rewrite bind_modify. unfold when at 1.
  match goal with |- context [mbind_ (if ?b then ?f else ?g) ?k ?v] =>
    assert (Hq : exists v', (if b then f else g) v = Ret tt v' /\ tw_lib v' = l' /\ s_ssl (tw_me v') = true)
      by (destruct b; eexists; (split; [reflexivity|]); split; done); destruct Hq as (w1 & E & Hl & Hv) end.
  rewrite (bind_ret _ _ _ _ _ E). unfold on_me at 1. rewrite bind_modify.
  unfold ssl_ask, mine. rewrite bind_assoc, bind_gets. cbn [tw_me tw_put_me tick put_counters s_ssl]. rewrite Hv.
  unfold libask. rewrite bind_gets. cbn [tw_lib tw_put_me]. rewrite Hl.
  match goal with |- context [mbind_ (write_outcome k0 tr fd r ?e) _ ?v] =>
    destruct (silent_write_outcome fd r e v) as ([problem timer] & w2 & E2 & Hl2 & _) end.
  rewrite (bind_ret _ _ _ _ _ E2). cbv iota. rewrite !bind_gets.
  apply write_outcome_value in E2. cbn [tw_lib tw_put_me] in Hl2.
  rewrite zlen_ztake in Hle by lia.
  destruct (Z.eqb_spec (SSL_get_error r l') SSL_ERROR_NONE) as [En|En].
  - injection E2 as -> ->. cbn [andb orb when]. rewrite bind_pure. apply Herr in En.
    exists r, w2. split; [done|]. split; [lia|]. split; [lia|].
    rewrite Hl2, Hl, Hsent, (proj2 (clear_law _)). f_equal.
    unfold ztake. rewrite take_take. f_equal. lia.
  - injection E2 as -> ->. cbn [orb]. assert (Hr : r <= 0) by (apply Z.nlt_ge; by rewrite <- Herr).
    match goal with |- context [when ?b _] => destruct b end; cbn [when];
      [unfold on_me; rewrite bind_modify | rewrite bind_pure]; (eexists 0, _; split; [reflexivity|]);
      (split; [lia|]); (split; [unfold write_chunk; lia|]); cbn [tw_lib tw_put_me];
      rewrite Hl2, Hl, Hsent, (proj2 (clear_law _)); unfold ztake;
      replace (Z.to_nat r) with 0%nat by lia; done.
Qed.
End writing.

(** ** A ClientHello in pieces *)

Section pieces.
Context `{EpollKernel} {SL : SslLib} (k0 : kstate) (tr : Z -> Z).

(** Both sides are let through as verified. *)
Definition both_bypassed (w : tworld) : Prop :=
  s_bypass (tw_me w) = true /\ s_verify (tw_me w) = VRF_OK /\
  exists pc, tw_peer w = SslPeer pc /\ s_bypass pc = true /\ s_verify pc = VRF_OK.

(** The piece of a ClientHello lies in the socket of the peer. *)
Definition piece_arrived (ch : client_hello) (exts : bytes) (l : sslw) (w : tworld) : Prop :=
  exists pc n, tw_peer w = SslPeer pc /\ 0 < com_socket pc /\
    front_len ch + 2 < n < zlen (hello_record ch exts) /\
    (recv_peek (com_socket pc) (zlen (hello_buffer (tw_me w))) l).1 = (n, ztake n (hello_record ch exts)).

Lemma waiting_piece ch exts fuel (w : tworld) :
  wf_hello ch -> zlen (hello_record ch exts) < 65541 -> zlen (hello_buffer (tw_me w)) < 2 ^ 30 ->
  hello_received (tw_me w) = false -> piece_arrived ch exts (tw_lib w) w ->
  exists w1, waiting_peer_hello k0 tr fuel w = Ret false w1 /\ both_bypassed w1.
Proof.
  intros Hch Hlen Hbuf Hrec (pc & n & Hp & Hsock & Hn & Hpeek).
  unfold waiting_peer_hello, mine. rewrite bind_gets, Hrec, bind_gets, Hp, bind_gets. cbv zeta.
  rewrite (proj2 (Z.ltb_lt _ _)) by done. rewrite bind_gets. unfold libcall at 1, mbind_ at 1.
  destruct (recv_peek _ _ _) as [[red data] l']. cbn in Hpeek.
  injection Hpeek as -> ->. assert (0 < n) by (pose proof (front_len_min ch); lia).
  rewrite (proj2 (Z.ltb_lt _ _)) by done.
  set (data := ztake n _).
  assert (Hjunk : zlen (zdrop (zlen data) (hello_buffer (tw_me w))) < 2 ^ 30)
    by (unfold zdrop; rewrite zlen_length, length_drop; rewrite zlen_length in Hbuf; lia).
  unfold call_parse_peer_hello, mine, libask. rewrite bind_assoc, bind_gets, bind_assoc, bind_gets,
    bind_assoc, bind_gets. cbv zeta. unfold on_me at 1. rewrite bind_assoc, bind_modify.
  cbn [tw_peer tw_put_lib tw_me]. rewrite Hp.
  edestruct (truncated_parse ch exts (zdrop (zlen data) (hello_buffer (tw_me w))) n) as [pos Et]; [exact Hch | exact Hlen | | exact Hn |].
  { exact Hjunk. }
  fold data in Et. unfold peeked in Et. rewrite Et. cbv iota. rewrite bind_assoc.
  cbn [p_error p_rescan p_info when]. unfold on_me at 1. rewrite bind_assoc, bind_modify, !bind_pure.
  cbn [Z.eqb]. unfold bypass_me_and_peer. rewrite bind_assoc, bind_gets. cbn [tw_peer tw_put_me tw_put_lib].
  rewrite Hp. unfold on_ssl_peer, on_me. rewrite !bind_assoc, bind_modify, bind_assoc, bind_modify.
  cbn [tw_peer tw_put_me tw_put_peer tw_put_lib]. rewrite Hp, bind_assoc, bind_modify, bind_assoc, bind_modify.
  cbn [tw_peer tw_put_me tw_put_peer tw_put_lib]. rewrite !bind_pure. eexists. split; [reflexivity|].
  split; [done|]. split; [done|]. eexists. split; [reflexivity|]. done.
Qed.

(** [C33] A client com, waiting and not bypassed, whose peer is a TLS com with a socket on which only
    a piece of a well-formed ClientHello lies (a record under 65541 bytes), cut inside the block of
    the extensions, past its length: a read does not wait for the rest. It gives up TLS for good on
    both sides, marks both as verified and hands the bytes of its own socket through as they are. (A
    piece under 34 bytes it waits on, and one cut right after the session id or the ciphers it takes
    for a whole hello.) *)
Theorem piece_of_hello_bypasses ch exts fuel fd m flags (w : tworld) :
  wf_hello ch -> zlen (hello_record ch exts) < 65541 -> zlen (hello_buffer (tw_me w)) < 2 ^ 30 ->
  s_bypass (tw_me w) = false -> sslcom_waiting (tw_me w) = true -> sslcom_server (tw_me w) = false ->
  s_ssl (tw_me w) || auto_upgrade (tw_me w) = true ->
  hello_received (tw_me w) = false -> piece_arrived ch exts (ERR_clear_error (tw_lib w)) w ->
  exists w1, both_bypassed w1 /\
    tls_read k0 tr fuel fd m flags w = libcall (l4_read fd m flags) w1.
Proof.
  intros Hch Hlen Hbuf Hby Hwait Hsrv Hssl Hrec Hpiece. unfold tls_read, mine.
  rewrite bind_gets, Hby, bind_gets, Hwait. unfold handshake, mine. rewrite bind_assoc, bind_gets.
  rewrite <- negb_orb, Hssl, Hsrv. cbn [negb]. unfold libdo at 1. rewrite bind_assoc, bind_modify, bind_assoc.
  unfold handshake_peer_client, mine. rewrite bind_assoc, bind_gets. cbn [tw_me tw_put_lib]. rewrite Hrec. cbn [negb].
  edestruct (waiting_piece ch exts fuel) as (w1 & E & Hboth); [exact Hch | exact Hlen | | | |];
    [| | | rewrite !bind_assoc; rewrite (bind_ret _ _ _ _ _ E)]; [exact Hbuf | exact Hrec | exact Hpiece |].
  do 2 (cbn [negb]; rewrite !bind_pure). cbn [negb]. rewrite bind_assoc, bind_gets.
  unfold tls_unmonitor, tls_rescan_read, polls. rewrite !bind_assoc, bind_modify, bind_assoc, bind_modify, bind_pure.
  rewrite bind_gets. cbn [tw_me tw_put_poll]. destruct Hboth as (Hb1 & Hb2). rewrite Hb1. eexists. split; [|reflexivity].
  done.
Qed.
End pieces.
