(* ===== verification/SslSim.v ===== *)
(** * SslSim: a library the theorems on certificates and TLS are evaluated on

    Certificates are serial numbers, the issuer 0 signs nothing, a response is a list of
    serials with their status, every responder gives the next of the answers waiting. A TLS
    connection holds what it can still read and what was written. *)

From S2P Require Export VerifyProps TlsProps.

#[export] Instance sim_pki : Pki := {|
  X509 := Z;
  X509_CRL := list Z;
  OCSP_RESPONSE := list (Z * Z);
  OCSP_SINGLERESP := Z * Z;
  X509_get_pubkey _ := true;
  X509_CRL_verify _ _ := true;
  X509_CRL_get0_by_serial crl x := existsb (Z.eqb x) crl;
  X509_verify_cert_crl _ _ _ := 1;
  crl_dist_points _ := [(0, ["http://lists/a"%string])];
  OCSP_response_status _ := 0;
  OCSP_response_get1_basic r := Some r;
  OCSP_basic_verify _ issuer := if issuer =? 0 then 0 else 1;
  OCSP_single_get0_status := snd;
  OCSP_id_cmp s x _ := if fst s =? x then 0 else 1;
  ASN1_TIME_diff _ := (1, 1, 0);
  OCSP_cert_to_id _ _ := true;
  X509_get1_ocsp _ := ["http://responder/"%string];
  OCSP_parse_url _ := Some ("responder"%string, "80"%string, "/"%string, false)
|}.

Record net : Type := mkNet { net_now : Z; answers : list (list (Z * Z)); staple : option bytes; lists : option bytes }.

Definition next_answer (n : net) : Z * option (list (Z * Z)) * net :=
  match answers n with
  | [] => (0, None, n)
  | r :: l => (1, Some r, mkNet (net_now n) l (staple n) (lists n))
  end.

#[export] Instance sim_bio : BioLib := {|
  bio := net;
  time n := (net_now n, n);
  BIO_new_connect _ n := (true, n);
  BIO_do_connect n := (1, n);
  BIO_should_read _ := false;
  BIO_should_write _ := false;
  BIO_should_retry _ := false;
  BIO_get_fd _ := 5;
  OCSP_sendreq_new _ n := (true, n);
  OCSP_REQ_CTX_add1_header _ _ n := (true, n);
  OCSP_REQ_CTX_set1_req n := (true, n);
  OCSP_sendreq_nbio := next_answer;
  BIO_free n := n;
  OCSP_REQUEST_new n := (true, n);
  sk_OCSP_CERTID_push n := (true, n);
  OCSP_request_add0_id n := (true, n);
  epoll_create n := (3, n);
  epoll_wait _ n := ([], n);
  now_ms n := net_now n * 1000
|}.

#[export] Instance sim_pki_more : PkiMore := {|
  X509_NAME_get_text _ _ := "site"%string;
  X509_digest_sha1 x := [x];
  is_sha1_signature _ := false;
  d2i_X509_CRL b := Some b;
  download _ _ n := (lists n, n);
  SSL_get_tlsext_status_ocsp_resp := staple;
  d2i_OCSP_RESPONSE b := Some ((fun x => (x, V_OCSP_CERTSTATUS_GOOD)) <$> b);
  OCSP_resp_find_status r x _ := snd <$> find (fun s => fst s =? x) r;
  OCSP_check_validity _ _ _ := true
|}.

Definition no_interest : @kstate gmap_kernel := (∅ : gmap Z Z).

(** A com that verifies the certificate 7 of an issuer, with a staple and a CRL at hand. *)
Definition sim_cache {V} : cache string V := mkCache ∅ [] FIFO 100 None None.
Definition sim_vcom (issuer : Z) (staple lists : option bytes) (answers : list (list (Z * Z))) : vcom :=
  mkVcom VRF_NOTTESTED [] opt_cert_default opt_ocsp_default (Some 7) (Some issuer) None (-1) ORIGIN_NONE
    false sim_cache sim_cache (mkNet 1000 answers staple lists).

(** ** The other side of a TLS connection *)

Record wire : Type := mkWire { inbox : bytes; outbox : bytes; raw : bytes }.

Definition wire_read (m : Z) (l : wire) : Z * bytes * wire :=
  let d := ztake m (inbox l) in
  (if 0 <? zlen d then zlen d else -1, d, mkWire (zdrop m (inbox l)) (outbox l) (raw l)).

#[export] Instance sim_ssl : SslLib := {|
  sslw := wire;
  session := unit;
  SSL_new _ l := (true, l);
  SSL_free l := l;
  SSL_conf _ l := l;
  SSL_use _ l := (1, l);
  SSL_accept l := (1, l);
  SSL_connect l := (1, l);
  SSL_read := wire_read;
  SSL_peek m l := (zlen (ztake m (inbox l)), ztake m (inbox l), l);
  SSL_write b l := (zlen b, mkWire (inbox l) (outbox l ++ b) (raw l));
  SSL_get_error r _ := if 0 <? r then 0 else 2;
  SSL_pending l := zlen (inbox l);
  SSL_session_reused _ := false;
  SSL_get0_session _ := tt;
  SSL_SESSION_is_resumable _ := true;
  SSL_set_session _ l := l;
  SSL_get_peer_certificate _ := true;
  SSL_sent_shutdown _ := false;
  SSL_shutdown l := (1, l);
  ERR_get_error l := (0, l);
  ERR_clear_error l := l;
  errno _ := 0;
  recv_peek _ n l := (zlen (ztake n (raw l)), ztake n (raw l), l);
  fcntl_getfl _ l := (O_NONBLOCK, l);
  fcntl_setfl _ _ l := (0, l);
  close_fd _ l := l;
  l4_read _ n _ l := (zlen (ztake n (raw l)), ztake n (raw l), mkWire (inbox l) (outbox l) (zdrop n (raw l)));
  l4_write _ b _ l := (zlen b, l);
  l4_connect _ _ l := (8, l);
  l4_com_status _ := true;
  l4_cleanup l := l;
  l4_shutdown _ l := l;
  ssl_now_ms _ := 0
|}.

#[export] Program Instance sim_stream : SslStream := {| plain := inbox; sent := outbox |}.
Next Obligation.
  intros m l r d l' Hm E. cbn in E. unfold wire_read in E. injection E as <- <- <-. cbn [inbox].
  pose proof (zlen_nonneg (ztake m (inbox l))) as Hn.
  destruct (Z.ltb_spec 0 (zlen (ztake m (inbox l)))) as [Hp|Hp]; (split; [intros Hr | intros Hr]); try lia.
  - split; [done|]. split; [|exact (eq_sym (take_drop _ _))].
    rewrite zlen_length in *. unfold ztake in *. rewrite length_take in *. lia.
  - destruct (inbox l) as [|x i]; [apply drop_nil|]. exfalso. revert Hp.
    unfold ztake. destruct (Z.to_nat m) eqn:Em; [lia|]. cbn [take]. rewrite zlen_cons.
    pose proof (zlen_nonneg (take n i)). lia.
Qed.
Next Obligation. intros m l r d l' _. cbn. destruct (Z.ltb_spec 0 r); unfold SSL_ERROR_NONE; split; (done || lia). Qed.
Next Obligation.
  intros m l r d l' Hp Hm E. cbn in *. unfold wire_read in E. injection E as <- _ _.
  destruct (inbox l) as [|x i]; [done|]. unfold ztake. destruct (Z.to_nat m) eqn:Em; [lia|].
  cbn [take]. rewrite zlen_cons. pose proof (zlen_nonneg (take n i)).
  destruct (Z.ltb_spec 0 (zlen (take n i) + 1)); lia.
Qed.
Next Obligation.
  intros b l r l' E. cbn in *. injection E as <- <-. cbn. split; [lia|]. split.
  - unfold ztake. rewrite zlen_length, Nat2Z.id, take_ge by done. done.
  - destruct (Z.ltb_spec 0 (zlen b)); unfold SSL_ERROR_NONE; split; (done || lia).
Qed.
Next Obligation. done. Qed.

Definition sim_features : crypto_features := mkFeatures true true true true true false.
Definition sim_options : ssl_options := mkOptions false false sim_features sim_features false.

(** A com on socket 8; [waiting] for its handshake, or past it. *)
Definition sim_com (waiting : bool) : sslcom :=
  mkSsl (set_fd 8 com_default) SOCK_STREAM false sim_options true 0 0 0 0 waiting false false false false true
    false false (zrep 100 0) no_info [] None false VRF_NOTTESTED (-1) (fun _ => 0) 0 0 0 no_identity.

Definition sim_world (waiting : bool) (l : wire) : tworld :=
  mkTw (sim_com waiting) (SslPeer (sim_com waiting)) None (mkEpoller None ∅ ∅) l (mkCache ∅ [] FIFO 100 None None) true true.

(** ** The theorems evaluated *)


(** The last word is had by a response about another certificate. *)
Lemma ocsp_verdict_witness :
  revoked (ocsp_verify_response [(3, 0); (7, 1); (9, 0)] 7 1) = 0.
Proof.
  apply (@ocsp_verdict sim_pki [(3, 0); (7, 1); (9, 0)] 7 1). exists [(3, 0); (7, 1); (9, 0)]. split; [done|].
  exists [(3, 0); (7, 1)], (9, 0), []. split; [done|]. split; [by right; left|]. by repeat split.
Defined.

Lemma unverified_staple_skips_query_witness :
  exists c', status_resp_callback no_interest 5 true (sim_vcom 0 (Some [7]) None [[(7, V_OCSP_CERTSTATUS_REVOKED)]])
    = Ret (Some 1) c'.
Proof.
  eexists. apply (@unverified_staple_skips_query sim_pki sim_bio sim_pki_more gmap_kernel no_interest 5 _ 7 0 [7] [(7, 0)] [(7, 0)]); done.
Defined.

Lemma ok_bit_is_earned_witness :
  let c := sim_vcom 1 (Some [7]) None [] in
  exists c', status_resp_callback no_interest 5 true c = Ret (Some 1) c' /\
    ((verify_origin_ c' = EXEMPT /\ 1 = 1 /\
        let left := problems_left (opt_cert c) (flag_reset (verify_status_ c) VRF_NOTTESTED) in
        left = 0 \/ left = VRF_CLIENT_CERT_RQ) \/
     (verify_origin_ c' = OCSP_STAPLING /\ 1 = 1 /\ ocsp_cert_is_revoked c' = 0 /\
        exists cert issuer, sslcom_target_cert c = Some cert /\ sslcom_target_issuer c = Some issuer /\
          staple_says (v_bio c) cert issuer V_OCSP_CERTSTATUS_GOOD) \/
     query_good no_interest 5 c c' 1).
Proof.
  intros c. eexists. split; [vm_compute; reflexivity|].
  eapply (@ok_bit_is_earned sim_pki sim_bio sim_pki_more gmap_kernel no_interest 5 c); [vm_compute; reflexivity | by vm_compute..].
Defined.

Lemma read_delivers_stream_witness :
  exists r d w', tls_read no_interest (fun s => s) 4 8 3 0 (sim_world false (mkWire [1; 2; 3; 4; 5] [] [])) = Ret (r, d) w' /\
    plain (tw_lib (sim_world false (mkWire [1; 2; 3; 4; 5] [] []))) = d ++ plain (tw_lib w') /\ zlen d <= 3 /\ (0 < r -> r = zlen d) /\ (r <= 0 -> d = []).
Proof. apply (read_delivers_stream no_interest (fun s => s) 4 8 3 0 (sim_world false (mkWire [1; 2; 3; 4; 5] [] []))); (done || lia). Defined.

Lemma write_sends_prefix_witness :
  exists r w', tls_write no_interest (fun s => s) 0 8 [1; 2; 3] 0 (sim_world false (mkWire [] [9] [])) = Ret r w' /\
    0 <= r <= zlen [1; 2; 3] /\ r <= write_chunk /\ 
    sent (tw_lib w') = sent (tw_lib (sim_world false (mkWire [] [9] []))) ++ ztake r [1; 2; 3].
Proof. apply (write_sends_prefix no_interest (fun s => s) 0 8 [1; 2; 3] 0 (sim_world false (mkWire [] [9] []))); done. Defined.

Lemma piece_of_hello_bypasses_witness :
  let w := sim_world true (mkWire [] [] (ztake 60 sample_record)) in
  exists w1, both_bypassed w1 /\
    tls_read no_interest (fun s => s) 4 8 10 0 w = libcall (l4_read 8 10 0) w1.
Proof.
  intros w. apply (piece_of_hello_bypasses no_interest (fun s => s) sample_hello (exts_bytes sample_exts));
    [apply sample_hello_wf | by vm_compute.. |].
  exists (sim_com true), 60. split; [done|]. split; [done|]. split; [split; by vm_compute|]. by vm_compute.
Defined.

Lemma listed_certificate_verified_witness :
  exists c3, certificate_status_ocsp_check no_interest 5 (sim_vcom 1 None (Some [7]) []) = Ret (Some 0) c3 /\
    verify_bitcheck VRF_OK c3 = true /\ verify_origin_ c3 = CRL.
Proof.
  eapply (@listed_certificate_verified sim_pki sim_bio sim_pki_more gmap_kernel no_interest 5 (sim_vcom 1 None (Some [7]) []) _ _ 7 1 "http://lists/a"%string [] [7]);
    [done | done | vm_compute; reflexivity | done | vm_compute; reflexivity | done..].
Defined.
