(* ===== verification/CertStore.v ===== *)
(** * CertStore: the certificate store (sslcertstore.hpp, sslcertstore.cpp)

    [SSLFactory]: its own certificates and contexts loaded from files, the cache of
    certificates made for connections and the one of custom certificates, the making of a
    certificate that imitates another ([spoof]).

    Certificates, keys, requests and contexts are objects of OpenSSL, named by their address
    and counted by it: [CertLib] names the calls the code makes, the files it reads and the
    clock.  Freeing an object that is gone, and handing a null pointer to a call that
    dereferences it, are undefined.  What a certificate holds is what its getters return
    ([cert_fields]), what the setters are asked to do is [cert_set].  The code under
    [USE_OPENSSL300] is modelled.  The recursive lock of the factory makes each operation
    one step. *)

From S2P Require Export Verify PtrCache.
From S2P Require Import Text.

(** ** Certificates as OpenSSL shows them *)

Section fields.
Context {x509_name x509_ext pubkey : Type}.

Record cert_fields : Type := mkFields {
  f_version : Z;
  f_serial : Z;
  f_subject : option x509_name;
  f_issuer : option x509_name;
  f_pubkey : option pubkey;
  f_not_before : option Z;                 (* seconds from now *)
  f_not_after : option Z;
  f_exts : option (list (option x509_ext));
  f_signer : option Z                      (* the key it was signed with *)
}.

Inductive cert_set : Type :=
  | SetVersion (v : Z)
  | SetSerial (v : Z)
  | SetSubject (n : option x509_name)
  | SetIssuer (n : option x509_name)
  | SetPubkey (k : option pubkey)
  | SetNotBefore (s : Z)
  | SetNotAfter (s : Z)
  | AddExt (e : x509_ext)
  | AddExts (l : list x509_ext)
  | Sign (key : option Z).

(** What getters return after a setter. *)
Definition apply_set (s : cert_set) (c : cert_fields) : cert_fields :=
  let '(mkFields v n su i k nb na e sg) := c in
  match s with
  | SetVersion v => mkFields v n su i k nb na e sg
  | SetSerial n => mkFields v n su i k nb na e sg
  | SetSubject su => mkFields v n su i k nb na e sg
  | SetIssuer i => mkFields v n su i k nb na e sg
  | SetPubkey k => mkFields v n su i k nb na e sg
  | SetNotBefore t => mkFields v n su i k (Some t) na e sg
  | SetNotAfter t => mkFields v n su i k nb (Some t) e sg
  | AddExt x => mkFields v n su i k nb na (Some (default [] e ++ [Some x])) sg
  | AddExts l => mkFields v n su i k nb na (Some (Some <$> l)) sg
  | Sign key => mkFields v n su i k nb na e key
  end.
Definition no_fields : cert_fields := mkFields 0 0 None None None None None None None.
End fields.
Arguments cert_fields : clear implicits.
Arguments cert_set : clear implicits.

(** What is set on a context. *)
Inductive ctx_set : Type :=
  | CtxCipherList (s : bytes)
  | CtxOptions (ktls : bool)          (* no SSLv2, no SSLv3 *)
  | CtxNoInternalCache
  | CtxNewSessionCb
  | CtxGetSessionCb
  | CtxKeylogCb
  | CtxLogFile (path : bytes)
  | CtxUseKey (k : option Z)
  | CtxUseCert (c : option Z)
  | CtxAddChain (c : option Z)
  | CtxBuildChain
  | LoadLocations (file dir : option bytes).

Inductive method_t : Type := TLS_client | TLS_server | DTLS_client | DTLS_server.

Class CertLib := {
  x509_name : Type;
  x509_ext : Type;
  pubkey : Type;
  clib : Type;
  (* objects and their references *)
  refs : Z -> clib -> Z;
  obj_free : Z -> clib -> clib;
  up_ref : Z -> clib -> clib;
  (* certificates and requests *)
  X509_new : clib -> option Z * clib;
  X509_REQ_new : clib -> option Z * clib;
  X509_NAME_new : clib -> bool;
  fields : Z -> clib -> cert_fields x509_name x509_ext pubkey;
  cert_do : Z -> cert_set x509_name x509_ext pubkey -> clib -> bool * clib;
  (* names and extensions *)
  name_parts : x509_name -> list bytes;          (* each component as it is printed: /CN=value *)
  name_cn : x509_name -> bytes;                  (* the common name, empty when there is none *)
  ext_nid : x509_ext -> option Z;                (* of its object *)
  ext_names : x509_ext -> option (list (option (Z * bytes)));     (* X509V3_EXT_d2i: type and value *)
  EXT_conf_nid : Z -> bytes -> option x509_ext;
  EXT_conf : option Z -> Z -> bytes -> bytes -> clib -> option x509_ext;   (* issuer, subject, name, value *)
  (* contexts and trust stores *)
  SSL_CTX_new : method_t -> clib -> option Z * clib;
  ctx_do : Z -> ctx_set -> clib -> Z * clib;
  SSL_CTX_check_private_key : Z -> clib -> bool;
  X509_STORE_new : clib -> Z * clib;
  (* files: what is read and whether reading then fails instead of ending *)
  fopen : bytes -> clib -> option (bytes * bool);
  PEM_read_X509 : bytes -> clib -> option Z * clib;
  PEM_read_PrivateKey : bytes -> option bytes -> clib -> option Z * clib;
  dir_exists : bytes -> clib -> bool;
  create_directories : bytes -> clib -> bool * clib;
  directory : bytes -> clib -> option (list bytes);       (* the file names in it *)
  file_exists : bytes -> clib -> bool;
  now : clib -> Z;
  pool_gives : Z -> bool                          (* mempool_realloc of a size succeeds *)
}.

Definition NID_subject_alt_name : Z := 85.
Definition GEN_DNS : Z := 2.
Definition GEN_IPADD : Z := 7.

(** The C string a buffer starts with. *)
Fixpoint c_str (s : bytes) : bytes :=
  match s with
  | [] => []
  | c :: s => if c =? 0 then [] else c :: c_str s
  end.

(** ** Chains *)

Record chain_t : Type := mkChain {
  c_key : option Z;
  c_cert : option Z;
  c_issuers : list (option Z)       (* [ISSUERS_SZ] of them *)
}.
Definition ISSUERS_SZ : Z := 5.
Record chain_ctx : Type := mkChainCtx { chain : chain_t; c_ctx : option Z }.

Definition CertificateChain (k c i i2 : option Z) : chain_t := mkChain k c [i; i2; None; None; None].
Definition CertificateChainCtx (k c : option Z) : chain_ctx := mkChainCtx (CertificateChain k c None None) None.
Definition chain_null : chain_t := mkChain None None (replicate (Z.to_nat ISSUERS_SZ) None).
Definition chain_ctx_null : chain_ctx := mkChainCtx chain_null None.

(** The objects a chain names, in the order [release] frees them. *)
Definition chain_objects (e : chain_ctx) : list Z :=
  omap id ([c_key (chain e); c_cert (chain e)] ++ c_issuers (chain e) ++ [c_ctx e]).

(** ** The factory *)

Inductive config_str : Type :=
  | def_ca_cert_str | def_ca_key_str | def_sr_cert_str | def_sr_key_str
  | def_cl_cert_str | def_cl_key_str | def_po_cert_str | def_po_key_str.
#[export] Instance config_str_eq_dec : EqDecision config_str.
Proof. solve_decision. Defined.

Record keypair : Type := mkPair { k_cert : option Z; k_key : option Z }.

(** What does not change once the factory runs. *)
Record settings : Type := mkSettings {
  ca_path : bytes; ca_file : bytes; certs_path : bytes; certs_password : bytes; ctlogfile : bytes;
  ktls : bool
}.

Record factory : Type := mkFactory {
  conf_ : settings;
  config : config_str -> bytes;
  serial : Z;
  ca : keypair;
  def_sr : keypair;
  def_cl : keypair;
  def_sr_ctx : option Z;
  def_dtls_sr_ctx : option Z;
  def_cl_ctx : option Z;
  def_dtls_cl_ctx : option Z;
  cert_mitm_cache : cache bytes chain_ctx;
  cert_custom_cache : cache bytes chain_ctx;
  verify_results : cache string (expiring VerifyStatus);
  trust_store_ : option Z;
  ca_verify_use_file : bool;
  ca_store_use_file : bool;
  is_ct_available : bool;
  is_initialized : bool
}.

Definition put_config (v : config_str -> bytes) (f : factory) : factory :=
  mkFactory (conf_ f) v (serial f) (ca f) (def_sr f) (def_cl f) (def_sr_ctx f)
    (def_dtls_sr_ctx f) (def_cl_ctx f) (def_dtls_cl_ctx f) (cert_mitm_cache f)
    (cert_custom_cache f) (verify_results f) (trust_store_ f) (ca_verify_use_file f)
    (ca_store_use_file f) (is_ct_available f) (is_initialized f).
Definition put_serial (v : Z) (f : factory) : factory :=
  mkFactory (conf_ f) (config f) v (ca f) (def_sr f) (def_cl f) (def_sr_ctx f)
    (def_dtls_sr_ctx f) (def_cl_ctx f) (def_dtls_cl_ctx f) (cert_mitm_cache f)
    (cert_custom_cache f) (verify_results f) (trust_store_ f) (ca_verify_use_file f)
    (ca_store_use_file f) (is_ct_available f) (is_initialized f).
Definition put_ca (v : keypair) (f : factory) : factory :=
  mkFactory (conf_ f) (config f) (serial f) v (def_sr f) (def_cl f) (def_sr_ctx f)
    (def_dtls_sr_ctx f) (def_cl_ctx f) (def_dtls_cl_ctx f) (cert_mitm_cache f)
    (cert_custom_cache f) (verify_results f) (trust_store_ f) (ca_verify_use_file f)
    (ca_store_use_file f) (is_ct_available f) (is_initialized f).
Definition put_sr (v : keypair) (f : factory) : factory :=
  mkFactory (conf_ f) (config f) (serial f) (ca f) v (def_cl f) (def_sr_ctx f)
    (def_dtls_sr_ctx f) (def_cl_ctx f) (def_dtls_cl_ctx f) (cert_mitm_cache f)
    (cert_custom_cache f) (verify_results f) (trust_store_ f) (ca_verify_use_file f)
    (ca_store_use_file f) (is_ct_available f) (is_initialized f).
Definition put_cl (v : keypair) (f : factory) : factory :=
  mkFactory (conf_ f) (config f) (serial f) (ca f) (def_sr f) v (def_sr_ctx f)
    (def_dtls_sr_ctx f) (def_cl_ctx f) (def_dtls_cl_ctx f) (cert_mitm_cache f)
    (cert_custom_cache f) (verify_results f) (trust_store_ f) (ca_verify_use_file f)
    (ca_store_use_file f) (is_ct_available f) (is_initialized f).
Definition put_sr_ctx (v : option Z) (f : factory) : factory :=
  mkFactory (conf_ f) (config f) (serial f) (ca f) (def_sr f) (def_cl f) v (def_dtls_sr_ctx f)
    (def_cl_ctx f) (def_dtls_cl_ctx f) (cert_mitm_cache f) (cert_custom_cache f)
    (verify_results f) (trust_store_ f) (ca_verify_use_file f) (ca_store_use_file f)
    (is_ct_available f) (is_initialized f).
Definition put_dtls_sr_ctx (v : option Z) (f : factory) : factory :=
  mkFactory (conf_ f) (config f) (serial f) (ca f) (def_sr f) (def_cl f) (def_sr_ctx f) v
    (def_cl_ctx f) (def_dtls_cl_ctx f) (cert_mitm_cache f) (cert_custom_cache f)
    (verify_results f) (trust_store_ f) (ca_verify_use_file f) (ca_store_use_file f)
    (is_ct_available f) (is_initialized f).
Definition put_cl_ctx (v : option Z) (f : factory) : factory :=
  mkFactory (conf_ f) (config f) (serial f) (ca f) (def_sr f) (def_cl f) (def_sr_ctx f)
    (def_dtls_sr_ctx f) v (def_dtls_cl_ctx f) (cert_mitm_cache f) (cert_custom_cache f)
    (verify_results f) (trust_store_ f) (ca_verify_use_file f) (ca_store_use_file f)
    (is_ct_available f) (is_initialized f).
Definition put_dtls_cl_ctx (v : option Z) (f : factory) : factory :=
  mkFactory (conf_ f) (config f) (serial f) (ca f) (def_sr f) (def_cl f) (def_sr_ctx f)
    (def_dtls_sr_ctx f) (def_cl_ctx f) v (cert_mitm_cache f) (cert_custom_cache f)
    (verify_results f) (trust_store_ f) (ca_verify_use_file f) (ca_store_use_file f)
    (is_ct_available f) (is_initialized f).
Definition put_mitm (v : cache bytes chain_ctx) (f : factory) : factory :=
  mkFactory (conf_ f) (config f) (serial f) (ca f) (def_sr f) (def_cl f) (def_sr_ctx f)
    (def_dtls_sr_ctx f) (def_cl_ctx f) (def_dtls_cl_ctx f) v (cert_custom_cache f)
    (verify_results f) (trust_store_ f) (ca_verify_use_file f) (ca_store_use_file f)
    (is_ct_available f) (is_initialized f).
Definition put_custom (v : cache bytes chain_ctx) (f : factory) : factory :=
  mkFactory (conf_ f) (config f) (serial f) (ca f) (def_sr f) (def_cl f) (def_sr_ctx f)
    (def_dtls_sr_ctx f) (def_cl_ctx f) (def_dtls_cl_ctx f) (cert_mitm_cache f) v
    (verify_results f) (trust_store_ f) (ca_verify_use_file f) (ca_store_use_file f)
    (is_ct_available f) (is_initialized f).
Definition put_verify (v : cache string (expiring VerifyStatus)) (f : factory) : factory :=
  mkFactory (conf_ f) (config f) (serial f) (ca f) (def_sr f) (def_cl f) (def_sr_ctx f)
    (def_dtls_sr_ctx f) (def_cl_ctx f) (def_dtls_cl_ctx f) (cert_mitm_cache f)
    (cert_custom_cache f) v (trust_store_ f) (ca_verify_use_file f) (ca_store_use_file f)
    (is_ct_available f) (is_initialized f).
Definition put_trust (v : option Z) (f : factory) : factory :=
  mkFactory (conf_ f) (config f) (serial f) (ca f) (def_sr f) (def_cl f) (def_sr_ctx f)
    (def_dtls_sr_ctx f) (def_cl_ctx f) (def_dtls_cl_ctx f) (cert_mitm_cache f)
    (cert_custom_cache f) (verify_results f) v (ca_verify_use_file f) (ca_store_use_file f)
    (is_ct_available f) (is_initialized f).
Definition put_verify_file (v : bool) (f : factory) : factory :=
  mkFactory (conf_ f) (config f) (serial f) (ca f) (def_sr f) (def_cl f) (def_sr_ctx f)
    (def_dtls_sr_ctx f) (def_cl_ctx f) (def_dtls_cl_ctx f) (cert_mitm_cache f)
    (cert_custom_cache f) (verify_results f) (trust_store_ f) v (ca_store_use_file f)
    (is_ct_available f) (is_initialized f).
Definition put_store_file (v : bool) (f : factory) : factory :=
  mkFactory (conf_ f) (config f) (serial f) (ca f) (def_sr f) (def_cl f) (def_sr_ctx f)
    (def_dtls_sr_ctx f) (def_cl_ctx f) (def_dtls_cl_ctx f) (cert_mitm_cache f)
    (cert_custom_cache f) (verify_results f) (trust_store_ f) (ca_verify_use_file f) v
    (is_ct_available f) (is_initialized f).
Definition put_ct (v : bool) (f : factory) : factory :=
  mkFactory (conf_ f) (config f) (serial f) (ca f) (def_sr f) (def_cl f) (def_sr_ctx f)
    (def_dtls_sr_ctx f) (def_cl_ctx f) (def_dtls_cl_ctx f) (cert_mitm_cache f)
    (cert_custom_cache f) (verify_results f) (trust_store_ f) (ca_verify_use_file f)
    (ca_store_use_file f) v (is_initialized f).
Definition put_init (v : bool) (f : factory) : factory :=
  mkFactory (conf_ f) (config f) (serial f) (ca f) (def_sr f) (def_cl f) (def_sr_ctx f)
    (def_dtls_sr_ctx f) (def_cl_ctx f) (def_dtls_cl_ctx f) (cert_mitm_cache f)
    (cert_custom_cache f) (verify_results f) (trust_store_ f) (ca_verify_use_file f)
    (ca_store_use_file f) (is_ct_available f) v.

Section store.
Context {CL : CertLib}.

(** The factory and the library below it. *)
Record store : Type := mkStore { fac : factory; lib_ : clib }.

Definition fget {A} (f : factory -> A) : M store A := gets (fun w => f (fac w)).
Definition fput (f : factory -> factory) : M store unit := modify (fun w => mkStore (f (fac w)) (lib_ w)).
Definition lask {A} (f : clib -> A) : M store A := gets (fun w => f (lib_ w)).
Definition ldo (f : clib -> clib) : M store unit := modify (fun w => mkStore (fac w) (f (lib_ w))).
Definition lcall {A} (f : clib -> A * clib) : M store A := fun w =>
  let '(a, l) := f (lib_ w) in Ret a (mkStore (fac w) l).

(** X509_free, EVP_PKEY_free, SSL_CTX_free, ...: nothing for a null pointer. *)
Definition free_obj (p : option Z) : M store unit :=
  match p with
  | None => mret_ tt
  | Some p => r <- lask (refs p) ;; if r <=? 0 then undef else ldo (obj_free p)
  end.
Definition ref_obj (p : option Z) : M store unit :=
  match p with
  | None => undef
  | Some p => r <- lask (refs p) ;; if r <=? 0 then undef else ldo (up_ref p)
  end.

(** A pointer that is dereferenced. *)
Definition deref (p : option Z) : M store Z :=
  match p with
  | None => undef
  | Some p => r <- lask (refs p) ;; if r <=? 0 then undef else mret_ p
  end.

Fixpoint free_all (l : list Z) : M store unit :=
  match l with
  | [] => mret_ tt
  | p :: l => free_obj (Some p) ;;; free_all l
  end.

(** [CertificateChainCtx::release]: what it names is freed, then all is null. *)
Definition release_objects (e : chain_ctx) : M store unit := free_all (chain_objects e).

(** ** Cache entries

    [CertCacheEntry] owns what it names: its destructor is [reset]. *)

Definition entry_reset (e : chain_ctx) : M store chain_ctx := release_objects e ;;; mret_ chain_ctx_null.

(** [assign] of a moved entry: what is taken over is then released, not forgotten. *)
Definition entry_assign (e v : chain_ctx) : M store (chain_ctx * chain_ctx) :=
  entry_reset e ;;;
  release_objects v ;;;
  mret_ (v, chain_ctx_null).

(** [release]: the caller takes over. *)
Definition entry_release (e : chain_ctx) : chain_ctx * chain_ctx := (e, chain_ctx_null).

(** ** The caches *)

Inductive which : Type := MITM | CUSTOM.
Definition cache_of (k : which) (f : factory) : cache bytes chain_ctx :=
  match k with MITM => cert_mitm_cache f | CUSTOM => cert_custom_cache f end.
Definition put_cache (k : which) (c : cache bytes chain_ctx) : factory -> factory :=
  match k with MITM => put_mitm c | CUSTOM => put_custom c end.

(** The entries whose key a change of the cache took away: their destructors run. *)
Definition dropped (c c' : cache bytes chain_ctx) : list chain_ctx :=
  (fun e => b_ptr e.2) <$> map_to_list (blocks c ∖ blocks c').

Fixpoint destroy_entries (l : list chain_ctx) : M store unit :=
  match l with
  | [] => mret_ tt
  | e :: l => entry_reset e ;;; destroy_entries l
  end.

Definition with_cache {A} (k : which) (m : M (cache bytes chain_ctx) A) : M store A :=
  c <- fget (cache_of k) ;;
  match m c with
  | Ret a c' => fput (put_cache k c') ;;; destroy_entries (dropped c c') ;;; mret_ a
  | Throw e c' => fput (put_cache k c') ;;; destroy_entries (dropped c c') ;;; throw e
  | Undef => undef
  end.

Definition add_to_cache (k : which) (store_key : bytes) (parek : chain_ctx) : M store bool :=
  match c_key (chain parek), c_cert (chain parek) with
  | Some _, Some _ =>
      it <- with_cache k (cache_get store_key) ;;
      match it with
      | Some _ => mret_ false
      | None => with_cache k (cache_set store_key parek) ;;; mret_ true
      end
  | _, _ => mret_ false
  end.
Definition add_mitm : bytes -> chain_ctx -> M store bool := add_to_cache MITM.
Definition add_custom : bytes -> chain_ctx -> M store bool := add_to_cache CUSTOM.

(** [find]: a copy of the pointers; the references stay with the cache. *)
Definition find_cert (k : which) (subject : bytes) : M store (option chain_ctx) := with_cache k (cache_get subject).
Definition find_mitm : bytes -> M store (option chain_ctx) := find_cert MITM.
Definition find_custom : bytes -> M store (option chain_ctx) := find_cert CUSTOM.

Definition erase_cert (k : which) (subject : bytes) : M store bool :=
  with_cache k (erase subject) ;;; mret_ true.
Definition erase_mitm : bytes -> M store bool := erase_cert MITM.

(** [re_hostname]: letters, digits and dashes up to the first dot. *)
Definition host_char (c : Z) : bool :=
  isdigit c || ((65 <=? c) && (c <=? 90)) || ((97 <=? c) && (c <=? 122)) || (c =? 45).
Fixpoint after_label (s : bytes) (n : nat) : option bytes :=
  match s with
  | c :: s => if host_char c then after_label s (S n) else if (c =? 46) && (0 <? Z.of_nat n) then Some s else None
  | [] => None
  end.
Definition wildcard_of (fqdn : bytes) : bytes :=
  match after_label fqdn 0 with Some r => [42; 46] ++ r | None => fqdn end.

Definition find_subject_by_fqdn (fqdn : bytes) : M store (option bytes) :=
  e <- with_cache MITM (cache_get fqdn) ;;
  match e with
  | Some _ => mret_ (Some fqdn)
  | None =>
      e <- with_cache MITM (cache_get (wildcard_of fqdn)) ;;
      mret_ (match e with Some _ => Some (wildcard_of fqdn) | None => None end)
  end.

(** ** Subject alternative names *)

(** The names of one extension. *)
Definition names_of (ex : x509_ext) : list bytes :=
  match ext_names ex with
  | None => []
  | Some l =>
      omap (fun gn => match gn with
                      | None => None
                      | Some (name_type, v) =>
                          if name_type =? GEN_DNS then Some (text "DNS:" ++ v)
                          else if name_type =? GEN_IPADD then Some (text "IP:" ++ v) else None
                      end) l
  end.
Definition is_san (ex : option x509_ext) : bool :=
  match ex with
  | Some e => match ext_nid e with Some nid => nid =? NID_subject_alt_name | None => false end
  | None => false
  end.

Definition get_sans (x : cert_fields x509_name x509_ext pubkey) : list bytes :=
  match f_exts x with
  | None => []
  | Some exts => exts ≫= fun ex => match ex with Some e => if is_san (Some e) then names_of e else [] | None => [] end
  end.
Definition get_sans_csv (x : cert_fields x509_name x509_ext pubkey) : bytes := string_csv (get_sans x) 44.

(** ** The key under which a made certificate is cached *)

Definition SSLCERTSTORE_ONELINE : Z := 512.

(** [X509_NAME_oneline] into a buffer of [n] bytes: it ends before the first component that does
    not fit as a whole. *)
Fixpoint parts_that_fit (room : Z) (l : list bytes) : bytes :=
  match l with
  | [] => []
  | p :: l => if zlen p <=? room then p ++ parts_that_fit (room - zlen p) l else []
  end.
Definition X509_NAME_oneline (n : Z) (nm : x509_name) : bytes := c_str (parts_that_fit (n - 1) (name_parts nm)).
Definition oneline (n : Z) (name : option x509_name) : M store bytes :=
  match name with Some nm => mret_ (X509_NAME_oneline n nm) | None => undef end.

(** [string_format] within the store. *)
Definition format (rendering : bytes) : M store bytes := fun w =>
  match string_format pool_gives rendering with
  | Ret s _ => Ret s w
  | Throw e _ => Throw e w
  | Undef => Undef
  end.

Fixpoint add_san_parts (l : list bytes) (key : bytes) : M store bytes :=
  match l with
  | [] => mret_ key
  | s :: l => p <- format (text "+san:" ++ c_str s) ;; add_san_parts l (key ++ p)
  end.

Record SpoofOptions : Type := mkSpoof { spo_sni : bytes; self_signed : bool; sans : list bytes }.

Definition make_store_key (cert_orig : Z) (spo : SpoofOptions) : M store bytes :=
  x <- lask (fields cert_orig) ;;
  subject <- oneline SSLCERTSTORE_ONELINE (f_subject x) ;;
  let key := text "subj:" ++ subject ++ (if self_signed spo then text "+self_signed" else []) in
  key <- add_san_parts (get_sans x) key ;;
  add_san_parts (sans spo) key.

(** ** Making a certificate *)

Definition cert (p : Z) : M store (cert_fields x509_name x509_ext pubkey) := lask (fields p).
Definition cdo (p : Z) (s : cert_set x509_name x509_ext pubkey) : M store bool := lcall (cert_do p s).

(** [add_ext]: the stack with what could be made of the value. *)
Definition add_ext (sk : list x509_ext) (nid : Z) (value : bytes) : list x509_ext :=
  match EXT_conf_nid nid value with Some ex => sk ++ [ex] | None => sk end.

(** The loop over the original's extensions: every alternative-name extension adds all of
    the original's names and the additional ones. *)
Fixpoint copy_sans (exts : list (option x509_ext)) (san san_add : bytes) (sk : list x509_ext) (added : bool)
    : list x509_ext * bool :=
  match exts with
  | [] => (sk, added)
  | ex :: exts =>
      if is_san ex then
        copy_sans exts san san_add
          (add_ext sk NID_subject_alt_name (c_str (san ++ (if 0 <? zlen san_add then [44] ++ san_add else [])))) true
      else copy_sans exts san san_add sk added
  end.

Definition sign_csr (corpus : Z) : M store (option Z) :=
  pkey <- fget (fun f => k_key (def_sr f)) ;;
  r <- cdo corpus (Sign pkey) ;;
  mret_ (if r : bool then Some corpus else None).

Definition create_csr_from (cert_orig : Z) (self_sign : bool) (additional_sans : list bytes) : M store (option Z) :=
  x <- cert cert_orig ;;
  match f_subject x with
  | None => undef
  | Some _ =>
      copy <- lcall X509_REQ_new ;;
      copy_subj <- lask X509_NAME_new ;;
      sr <- fget (fun f => k_cert (def_sr f)) ;;
      pub_sr_cert <- (match sr with Some p => c <- cert p ;; mret_ (f_pubkey c) | None => mret_ None end) ;;
      match copy with
      | None => mret_ None
      | Some copy =>
          cdo copy (SetPubkey pub_sr_cert) ;;;
          if negb copy_subj then mret_ None
          else
            r <- cdo copy (SetSubject (f_subject x)) ;;
            if negb r then mret_ None
            else
              let san_add := string_csv additional_sans 44 in
              (match f_exts x with
               | None => mret_ tt
               | Some exts =>
                   let '(sk, san_added) := copy_sans exts (get_sans_csv x) san_add [] false in
                   let sk := if san_added then sk else add_ext sk NID_subject_alt_name (c_str san_add) in
                   cdo copy (AddExts sk) ;;; mret_ tt
               end) ;;;
              sign_csr copy
      end
  end.

Definition validate_spoof_requirements (cert_ : option Z) (cert_name issuer_name : option x509_name)
    (pkey : option pubkey) : bool :=
  match cert_, cert_name, issuer_name, pkey with
  | Some _, Some _, Some _, Some _ => true
  | _, _, _, _ => false
  end.

Definition EXPIRE_START : Z := -60 * 60 * 24.
Definition DAYS_TILL_EXPIRE : Z := 364.
Definition EXPIRE_SECS : Z := 60 * 60 * 24 * DAYS_TILL_EXPIRE.

(** [extensions_]: what every made certificate gets. *)
Definition extensions_ : list (bytes * bytes) :=
  [(text "basicConstraints", text "CA:FALSE");
   (text "nsComment", [34] ++ text "Mitm generated certificate" ++ [34]);
   (text "subjectKeyIdentifier", text "hash");
   (text "authorityKeyIdentifier", text "keyid,issuer:always")].

Fixpoint add_extensions (l : list (bytes * bytes)) (p : Z) : M store unit :=
  match l with
  | [] => mret_ tt
  | (ext_name, ext_value) :: l =>
      ca_cert <- fget (fun f => k_cert (ca f)) ;;
      ext <- lask (EXT_conf ca_cert p ext_name ext_value) ;;
      (match ext with Some e => cdo p (AddExt e) ;;; mret_ tt | None => mret_ tt end) ;;;
      add_extensions l p
  end.

(** The steps that give up at the first refusal; the request is freed when they end. *)
Fixpoint cdo_all (p : Z) (l : list (cert_set x509_name x509_ext pubkey)) : M store bool :=
  match l with
  | [] => mret_ true
  | s :: l => r <- cdo p s ;; if r : bool then cdo_all p l else mret_ false
  end.

(** From the first setter to the signature. *)
Definition fill_certificate (p : Z) (self_sign : bool) (name issuer_name : option x509_name)
    (pkey : option pubkey) (req_exts : option (list (option x509_ext))) : M store bool :=
  r <- cdo p (SetVersion 2) ;;
  if negb r then mret_ false else
  n <- fget serial ;;
  cdo p (SetSerial n) ;;;
  r <- cdo p (SetSubject name) ;;
  if negb r then mret_ false else
  let subjAltName := req_exts ≫= fun l => find is_san l in
  r <- cdo_all p [SetIssuer issuer_name; SetPubkey pkey; SetNotBefore EXPIRE_START; SetNotAfter EXPIRE_SECS] ;;
  if negb r then mret_ false else
  add_extensions extensions_ p ;;;
  r <- (match subjAltName with Some (Some e) => cdo p (AddExt e) | _ => mret_ true end) ;;
  if negb r then mret_ false else
  c <- cert p ;;
  (if self_sign then cdo p (SetIssuer (f_subject c)) ;;; mret_ tt else mret_ tt) ;;;
  sign_key <- fget (fun f => k_key (if self_sign then def_sr f else ca f)) ;;
  cdo p (Sign sign_key).

Definition spoof (cert_orig : Z) (self_sign : bool) (additional_sans : list bytes) : M store (option chain_ctx) :=
  fput (fun f => put_serial (s64 (serial f + 1)) f) ;;;
  copy <- create_csr_from cert_orig self_sign additional_sans ;;
  match copy with
  | None => mret_ None
  | Some copy =>
      p <- lcall X509_new ;;
      req <- cert copy ;;
      ca_cert <- fget (fun f => k_cert (ca f)) ;;
      ca_p <- deref ca_cert ;;
      ca_x <- cert ca_p ;;
      if negb (validate_spoof_requirements p (f_subject req) (f_subject ca_x) (f_pubkey req)) then mret_ None
      else
        match p with
        | None => mret_ None
        | Some p =>
            r <- fill_certificate p self_sign (f_subject req) (f_subject ca_x) (f_pubkey req) (f_exts req) ;;
            free_obj (Some copy) ;;;
            key <- fget (fun f => k_key (def_sr f)) ;;
            mret_ (if r : bool then Some (CertificateChainCtx key (Some p)) else None)
        end
  end.

(** ** Files *)

(** [FILE_to_string]: characters until the end of the file is seen.  A read that fails is
    not the end: [fgetc] keeps answering EOF, whose low byte is appended each time. *)
Fixpoint FILE_to_string (fuel : nat) (content : bytes) (fails : bool) : option bytes :=
  match fuel with
  | O => None
  | S fuel =>
      match content with
      | c :: content => cons c <$> FILE_to_string fuel content fails
      | [] => if fails then cons 255 <$> FILE_to_string fuel [] fails else Some []
      end
  end.

Definition file_text (f : bytes * bool) : M store bytes :=
  match FILE_to_string (S (length f.1)) f.1 f.2 with Some s => mret_ s | None => undef end.

Definition CA_CERTF := text "ca-cert.pem".
Definition CA_KEYF := text "ca-key.pem".
Definition CL_CERTF := text "cl-cert.pem".
Definition CL_KEYF := text "cl-key.pem".
Definition SR_CERTF := text "srv-cert.pem".
Definition SR_KEYF := text "srv-key.pem".
Definition PO_CERTF := text "portal-cert.pem".
Definition PO_KEYF := text "portal-key.pem".

(** The common part: both files opened, the old pair freed, the texts kept, then [parse]. *)
Definition load_files (cer key : bytes) (cer_str key_str : config_str) (free_old : M store unit)
    (parse : bytes -> bytes -> M store bool) : M store bool :=
  dir <- fget (fun f => certs_path (conf_ f)) ;;
  fp_crt <- lask (fopen (dir ++ cer)) ;;
  match fp_crt with
  | None => mret_ false
  | Some fp_crt =>
      fp_key <- lask (fopen (dir ++ key)) ;;
      match fp_key with
      | None => mret_ false
      | Some fp_key =>
          free_old ;;;
          t1 <- file_text fp_crt ;;
          t2 <- file_text fp_key ;;
          let keep f := put_config (fun k => if decide (k = cer_str) then t1
                                             else if decide (k = key_str) then t2 else config f k) f in
          fput keep ;;;
          parse (dir ++ cer) (dir ++ key)
      end
  end.

(** A pair freed, and what the files hold in its place. *)
Definition free_pair (get_ : factory -> keypair) : M store unit :=
  old <- fget get_ ;;
  free_obj (k_cert old) ;;;
  free_obj (k_key old).
Definition read_pair (put_ : keypair -> factory -> factory) (cer key : bytes) : M store bool :=
  c <- lcall (PEM_read_X509 cer) ;;
  pw <- fget (fun f => certs_password (conf_ f)) ;;
  k <- lcall (PEM_read_PrivateKey key (Some pw)) ;;
  fput (put_ (mkPair c k)) ;;;
  mret_ (bool_decide (is_Some c) && bool_decide (is_Some k)).

Definition load_ca_cert : M store bool :=
  load_files CA_CERTF CA_KEYF def_ca_cert_str def_ca_key_str (free_pair ca) (read_pair put_ca).
Definition load_def_cl_cert : M store bool :=
  load_files CL_CERTF CL_KEYF def_cl_cert_str def_cl_key_str (free_pair def_cl) (read_pair put_cl).
Definition load_def_sr_cert : M store bool :=
  load_files SR_CERTF SR_KEYF def_sr_cert_str def_sr_key_str (free_pair def_sr) (read_pair put_sr).
Definition load_def_po_cert : M store bool :=
  load_files PO_CERTF PO_KEYF def_po_cert_str def_po_key_str (mret_ tt) (fun _ _ => mret_ true).

(** ** Contexts *)

Definition ctx_conf (p : Z) (s : ctx_set) : M store Z := lcall (ctx_do p s).
Fixpoint ctx_confs (p : Z) (l : list ctx_set) : M store unit :=
  match l with [] => mret_ tt | s :: l => ctx_conf p s ;;; ctx_confs p l end.

(** The file first, the directory when there is no usable file. *)
Definition locate (load : option bytes -> option bytes -> M store Z) (used : M store unit) : M store bool :=
  s <- fget conf_ ;;
  bundle_loaded <-
    (if 0 <? zlen (ca_file s) then
       r <- load (Some (ca_file s)) None ;;
       if r <=? 0 then mret_ false else used ;;; mret_ true
     else mret_ false) ;;
  if negb bundle_loaded && (0 <? zlen (ca_path s)) then
    r <- load None (Some (ca_path s)) ;; mret_ (negb (r <=? 0))
  else mret_ bundle_loaded.

Definition set_verify_locations (ctx : Z) : M store bool :=
  locate (fun file dir => ctx_conf ctx (LoadLocations file dir)) (fput (put_verify_file true)).

Definition load_trust_store : M store bool :=
  old <- fget trust_store_ ;;
  free_obj old ;;;
  p <- lcall X509_STORE_new ;;
  fput (put_trust (Some p)) ;;;
  locate (fun file dir => ctx_conf p (LoadLocations file dir)) (fput (put_store_file true)).

Definition client_ciphers : bytes := text "ALL:!ADH:!LOW:!aNULL:!EXP:!MD5:@STRENGTH".
Definition server_ciphers : bytes := text "ALL:!ADH:!LOW:!EXP:!MD5:@STRENGTH".

(** A context or the end of the process. *)
Definition new_ctx (m : method_t) : M store Z :=
  ctx <- lcall (SSL_CTX_new m) ;;
  match ctx with Some c => mret_ c | None => throw (process_exit 2) end.
Definition verified (ctx : Z) : M store unit :=
  ok <- set_verify_locations ctx ;; if ok : bool then mret_ tt else throw (process_exit 3).

Definition client_ctx_setup (ciphers : option bytes) : M store Z :=
  ctx <- new_ctx TLS_client ;;
  verified ctx ;;;
  s <- fget conf_ ;;
  ctx_confs ctx [CtxCipherList (default client_ciphers ciphers); CtxOptions (ktls s); CtxNoInternalCache;
                 CtxNewSessionCb; CtxKeylogCb] ;;;
  there <- lask (file_exists (ctlogfile s)) ;;
  (if there : bool then
     r <- ctx_conf ctx (CtxLogFile (ctlogfile s)) ;; when (r =? 1) (fput (put_ct true))
   else mret_ tt) ;;;
  mret_ ctx.

Definition client_dtls_ctx_setup (ciphers : option bytes) : M store Z :=
  ctx <- new_ctx DTLS_client ;;
  verified ctx ;;;
  ctx_confs ctx [CtxCipherList (default client_ciphers ciphers); CtxNoInternalCache; CtxKeylogCb] ;;;
  mret_ ctx.

(** The key and certificate of a server context; the process ends when they do not match. *)
Definition server_keys (ctx : Z) (priv cert_ : option Z) : M store unit :=
  sr <- fget def_sr ;;
  ctx_confs ctx [CtxUseKey (match priv with Some _ => priv | None => k_key sr end);
                 CtxUseCert (match cert_ with Some _ => cert_ | None => k_cert sr end)] ;;;
  ok <- lask (SSL_CTX_check_private_key ctx) ;;
  if ok : bool then mret_ tt else throw (process_exit 5).

Definition server_ctx_setup (priv cert_ : option Z) (ciphers : option bytes) : M store Z :=
  ctx <- new_ctx TLS_server ;;
  s <- fget conf_ ;;
  ctx_confs ctx [CtxCipherList (default server_ciphers ciphers); CtxOptions (ktls s); CtxNoInternalCache;
                 CtxNewSessionCb; CtxGetSessionCb] ;;;
  server_keys ctx priv cert_ ;;;
  ctx_confs ctx [CtxKeylogCb] ;;;
  mret_ ctx.

Definition server_dtls_ctx_setup (priv cert_ : option Z) (ciphers : option bytes) : M store Z :=
  ctx <- new_ctx DTLS_server ;;
  ctx_confs ctx [CtxCipherList (default server_ciphers ciphers); CtxNoInternalCache] ;;;
  server_keys ctx priv cert_ ;;;
  ctx_confs ctx [CtxKeylogCb] ;;;
  mret_ ctx.

(** ** Custom certificates *)

Definition load_cert_pair (fnm_key fnm_cert : bytes) (password : option bytes) : M store (option chain_ctx) :=
  fp_crt <- lask (fopen fnm_cert) ;;
  match fp_crt with
  | None => mret_ None
  | Some _ =>
      fp_key <- lask (fopen fnm_key) ;;
      match fp_key with
      | None => mret_ None
      | Some _ =>
          c <- lcall (PEM_read_X509 fnm_cert) ;;
          k <- lcall (PEM_read_PrivateKey fnm_key password) ;;
          mret_ (Some (CertificateChainCtx k c))
      end
  end.

(** The issuers, the last file first; an issuer that cannot be read is handed on as null. *)
Fixpoint load_issuers (files : list bytes) (ix : nat) (e : chain_ctx) (build_chain : Z) : M store (chain_ctx * Z) :=
  match files with
  | [] => mret_ (e, build_chain)
  | f :: files =>
      fp <- lask (fopen f) ;;
      match fp with
      | None => load_issuers files (S ix) e build_chain
      | Some _ =>
          i <- lcall (PEM_read_X509 f) ;;
          let e := mkChainCtx (mkChain (c_key (chain e)) (c_cert (chain e)) (<[ix := i]> (c_issuers (chain e)))) (c_ctx e) in
          let build_chain := if bool_decide (is_Some i) then build_chain + 1 else build_chain in
          (match c_ctx e with
           | Some ctx => match i with Some _ => ctx_conf ctx (CtxAddChain i) ;;; mret_ tt | None => undef end
           | None => mret_ tt
           end) ;;;
          load_issuers files (S ix) e build_chain
      end
  end.

Definition update_ssl_ctx (e : chain_ctx) (issuer1 issuer2 issuer3 : bytes) : M store (chain_ctx * bool) :=
  (match c_ctx e with
   | Some ctx => ctx_confs ctx [CtxUseCert (c_cert (chain e)); CtxUseKey (c_key (chain e))]
   | None => undef
   end) ;;;
  let! (e, build_chain) := load_issuers [issuer3; issuer2; issuer1] 0 e 0 in
  (if 0 <? build_chain then
     match c_ctx e with Some ctx => ctx_conf ctx CtxBuildChain ;;; mret_ tt | None => undef end
   else mret_ tt) ;;;
  mret_ (e, 0 <? build_chain).

Fixpoint load_entries (sub_path prefix : bytes) (names : list bytes) : M store unit :=
  match names with
  | [] => mret_ tt
  | name :: names =>
      let path := sub_path ++ name in
      pair <- load_cert_pair (path ++ text "/key.pem") (path ++ text "/cert.pem") None ;;
      (match pair with
       | None => mret_ tt
       | Some e =>
           ctx <- server_ctx_setup None None None ;;
           let! (e, _) := update_ssl_ctx (mkChainCtx (chain e) (Some ctx)) (path ++ text "/issuer.pem")
                            (path ++ text "/issuer2.pem") (path ++ text "/issuer3.pem") in
           add_custom (prefix ++ name) e ;;; mret_ tt
       end) ;;;
      load_entries sub_path prefix names
  end.

(** The directory is created when missing; an error of the file system is reported, and the
    answer is [true] all the same. *)
Definition load_certs_from (sub_dir prefix : bytes) : M store bool :=
  dir <- fget (fun f => certs_path (conf_ f)) ;;
  let sub_path := dir ++ sub_dir in
  there <- lask (dir_exists sub_path) ;;
  ok <- (if there : bool then mret_ true else lcall (create_directories sub_path)) ;;
  if negb ok then mret_ true else
  d <- lask (directory sub_path) ;;
  match d with
  | None => mret_ true
  | Some names => load_entries sub_path prefix names ;;; mret_ true
  end.

Definition load_custom_certificates : M store bool :=
  load_certs_from (text "sni/") (text "sni:") ;;;
  load_certs_from (text "ip/") (text "ip:") ;;;
  mret_ true.

(** ** The life of the factory *)

Definition destroy_pair (get_ : factory -> keypair) (put_ : keypair -> factory -> factory) : M store unit :=
  free_pair get_ ;;; fput (put_ (mkPair None None)).

Definition destroy : M store unit :=
  destroy_pair ca put_ca ;;;
  destroy_pair def_cl put_cl ;;;
  destroy_pair def_sr put_sr ;;;
  with_cache MITM (modify clear) ;;;
  with_cache CUSTOM (modify clear) ;;;
  t <- fget trust_store_ ;;
  free_obj t ;;;
  fput (put_trust None).

Definition load_from_files : M store bool :=
  t <- lask now ;;
  fput (fun f => put_serial (s64 (serial f + t)) f) ;;;
  a <- load_ca_cert ;;
  b <- (if a : bool then load_def_cl_cert else mret_ false) ;;
  c <- (if b : bool then load_def_sr_cert else mret_ false) ;;
  if negb c then destroy ;;; mret_ false
  else
    load_def_po_cert ;;;
    load_custom_certificates ;;;
    mret_ true.

Definition reset_caches : M store bool :=
  t <- lask now ;;
  fput (fun f => let v := clear (verify_results f) in
                 put_verify (mkCache (blocks v) (items v) (mode_ v) (max_size_ v) (dbs_ v) (Some (expired t))) f) ;;;
  mret_ true.

(** [init]; the guard marks the factory initialized when it returns. *)
Definition init : M store unit :=
  i <- fget is_initialized ;;
  if i : bool then mret_ tt
  else
    ret_files <- load_from_files ;;
    if negb ret_files then throw (process_exit 3) else
    ret_store <- load_trust_store ;;
    if negb ret_store then throw (process_exit 3) else
    c <- client_ctx_setup None ;;
    fput (put_cl_ctx (Some c)) ;;;
    c <- client_dtls_ctx_setup None ;;
    fput (put_dtls_cl_ctx (Some c)) ;;;
    c <- server_ctx_setup None None None ;;
    fput (put_sr_ctx (Some c)) ;;;
    c <- server_dtls_ctx_setup None None None ;;
    fput (put_dtls_sr_ctx (Some c)) ;;;
    reset_caches ;;;
    fput (put_init true).
End store.
