(* ===== verification/CertProps.v ===== *)
(** * CertProps: what the certificate store promises

    The certificate [spoof] makes, what the key of the cache tells apart, who owns the
    objects of cached entries, and loading from files. *)

From S2P Require Export CertStore.
From S2P Require Import Text TextProps.
From S2P Require Export PtrCacheProps.

(** ** What the theorems rely on of OpenSSL

    Getters return what setters were given ([apply_set]), a fresh object has one reference,
    freeing gives back one. *)
Class CertLaws `{CertLib} := {
  fields_do p s l l' : cert_do p s l = (true, l') -> fields p l' = apply_set s (fields p l);
  fields_other p q s l b l' : cert_do p s l = (b, l') -> q <> p -> fields q l' = fields q l;
  refs_do p q s l b l' : cert_do p s l = (b, l') -> refs q l' = refs q l;
  X509_new_fresh l p l' : X509_new l = (Some p, l') ->
    refs p l = 0 /\ refs p l' = 1 /\ fields p l' = no_fields /\
    forall q, q <> p -> refs q l' = refs q l /\ fields q l' = fields q l;
  X509_REQ_new_fresh l p l' : X509_REQ_new l = (Some p, l') ->
    refs p l = 0 /\ refs p l' = 1 /\ fields p l' = no_fields /\
    forall q, q <> p -> refs q l' = refs q l /\ fields q l' = fields q l;
  refs_free p l : 0 < refs p l -> refs p (obj_free p l) = refs p l - 1;
  refs_free_other p q l : q <> p -> refs q (obj_free p l) = refs q l;
  fields_free_other p q l : q <> p -> fields q (obj_free p l) = fields q l;
  conf_nid nid v e : EXT_conf_nid nid v = Some e -> ext_nid e = Some nid
}.

(** ** The made certificate *)

Section spoof.
Context `{CertLaws}.
Implicit Types (w : store) (x : cert_fields x509_name x509_ext pubkey).

(** The alternative names a made certificate gets: none when the original has no extension
    at all; else the names of the original, if it has any, and the additional ones, as far
    as OpenSSL can make an extension of their text up to its first NUL. *)
Definition spoofed_san x (additional : list bytes) : option x509_ext :=
  let add := string_csv additional 44 in
  match f_exts x with
  | None => None
  | Some exts =>
      EXT_conf_nid NID_subject_alt_name
        (c_str (if existsb is_san exts
                then get_sans_csv x ++ (if 0 <? zlen add then [44] ++ add else []) else add))
  end.

Definition exts_of (l : list x509_ext) : option (list (option x509_ext)) :=
  match l with [] => None | _ => Some (Some <$> l) end.

(** The extensions made of the entries of a list, one after the other from a state of the
    library, and the state after that: an entry is left out only when OpenSSL, asked in the
    state the ones before it led to, makes nothing of it. *)
Inductive made_from (issuer : option Z) (p : Z) : clib -> list (bytes * bytes) -> list x509_ext -> clib -> Prop :=
  | made_nil lib : made_from issuer p lib [] [] lib
  | made_skip lib n v l es lib' : EXT_conf issuer p n v lib = None ->
      made_from issuer p lib l es lib' -> made_from issuer p lib ((n, v) :: l) es lib'
  | made_cons lib n v l e es lib' : EXT_conf issuer p n v lib = Some e ->
      made_from issuer p (snd (cert_do p (AddExt e) lib)) l es lib' -> made_from issuer p lib ((n, v) :: l) (e :: es) lib'.

Definition all_succeed : Prop := forall p s l, fst (cert_do p s l) = true.

(** One setter. *)
Lemma cdo_ret w p s : all_succeed ->
  exists l, cdo p s w = Ret true (mkStore (fac w) l) /\
    fields p l = apply_set s (fields p (lib_ w)) /\
    (forall q, q <> p -> fields q l = fields q (lib_ w)) /\ (forall q, refs q l = refs q (lib_ w)).
Proof.
  intros Hok. unfold cdo, lcall. specialize (Hok p s (lib_ w)).
  destruct (cert_do p s (lib_ w)) as [b l] eqn:E. cbn in Hok. subst b. exists l.
  split; [done|]. split; [by apply fields_do|].
  split; [intros q Hq; by eapply fields_other|intros q; by eapply refs_do].
Qed.

(** What a run of setters on [p] leaves alone. *)
Definition only (p : Z) (w w' : store) : Prop :=
  fac w' = fac w /\ (forall q, q <> p -> fields q (lib_ w') = fields q (lib_ w)) /\
  (forall q, refs q (lib_ w') = refs q (lib_ w)).

#[local] Instance only_preorder p : PreOrder (only p).
Proof.
  split; [done|]. intros w1 w2 w3 (A1 & B1 & C1) (A2 & B2 & C2). split; [congruence|].
  split; [intros q Hq; by rewrite B2, B1|intros q; by rewrite C2, C1].
Qed.

Lemma cdo_only w p s : all_succeed ->
  exists w', cdo p s w = Ret true w' /\ only p w w' /\ fields p (lib_ w') = apply_set s (fields p (lib_ w)).
Proof.
  intros Hok. destruct (cdo_ret w p s Hok) as (l & E & F & G & R). eexists. split; [exact E|].
  split; [done|exact F].
Qed.

Lemma cdo_all_only p ss w : all_succeed ->
  exists w', cdo_all p ss w = Ret true w' /\ only p w w' /\
    fields p (lib_ w') = foldl (fun c s => apply_set s c) (fields p (lib_ w)) ss.
Proof.
  intros Hok. revert w. induction ss as [|s ss IH]; intros w; cbn [cdo_all].
  - exists w. split; [done|]. split; [reflexivity|done].
  - destruct (cdo_only w p s Hok) as (w1 & E & O & F). rewrite (bind_ret _ _ _ _ _ E). cbv iota.
    destruct (IH w1) as (w2 & E2 & O2 & F2). exists w2. split; [exact E2|].
    split; [by transitivity w1|]. rewrite F2, F. done.
Qed.

(** The configured extensions. *)
Lemma add_extensions_only p exts w : all_succeed ->
  exists w' es, add_extensions exts p w = Ret tt w' /\ only p w w' /\ made_from (k_cert (ca (fac w))) p (lib_ w) exts es (lib_ w') /\
    fields p (lib_ w') = foldl (fun c e => apply_set (AddExt e) c) (fields p (lib_ w)) es.
Proof.
  intros Hok. revert w. induction exts as [|[n v] exts IH]; intros w; cbn [add_extensions].
  - exists w, []. split; [done|]. split; [reflexivity|]. split; [constructor|done].
  - unfold fget. rewrite bind_gets. unfold lask. rewrite bind_gets.
    destruct (EXT_conf (k_cert (ca (fac w))) p n v (lib_ w)) as [e|] eqn:Ee.
    + rewrite bind_assoc. destruct (cdo_only w p (AddExt e) Hok) as (w1 & E & O & F).
      assert (lib_ w1 = snd (cert_do p (AddExt e) (lib_ w))) as El
        by (unfold cdo, lcall in E; destruct (cert_do _ _ _); by injection E as _ <-).
      rewrite (bind_ret _ _ _ _ _ E), bind_pure.
      destruct (IH w1) as (w2 & es & E2 & O2 & M & F2). exists w2, (e :: es). split; [exact E2|].
      split; [by transitivity w1|]. rewrite (proj1 O), El in M. split; [by econstructor|].
      rewrite F2, F. done.
    + rewrite bind_pure. destruct (IH w) as (w2 & es & E2 & O2 & M & F2). exists w2, es.
      split; [exact E2|]. split; [done|]. split; [by constructor|done].
Qed.

Lemma apply_exts es (c : cert_fields x509_name x509_ext pubkey) : f_exts c = None ->
  foldl (fun c e => apply_set (AddExt e) c) c es =
  mkFields (f_version c) (f_serial c) (f_subject c) (f_issuer c) (f_pubkey c) (f_not_before c) (f_not_after c)
    (exts_of es) (f_signer c).
Proof.
  intros Hc.
  assert (forall (c : cert_fields x509_name x509_ext pubkey) es l, f_exts c = Some l -> foldl (fun c e => apply_set (AddExt e) c) c es =
    mkFields (f_version c) (f_serial c) (f_subject c) (f_issuer c) (f_pubkey c) (f_not_before c) (f_not_after c)
    (Some (l ++ (Some <$> es))) (f_signer c)) as Hl.
  { clear. intros c es. revert c. induction es as [|e es IH]; intros c l Hl; cbn.
    - rewrite app_nil_r. destruct c; cbn in *. by rewrite Hl.
    - destruct c; cbn in *. subst. cbn. rewrite (IH _ (l ++ [Some e])) by done. cbn. by rewrite <- app_assoc. }
  destruct es as [|e es]; cbn.
  - destruct c; cbn in *. by rewrite Hc.
  - destruct c; cbn in *. subst. rewrite (Hl _ _ [Some e]) by done. done.
Qed.

Definition san_list (req_exts : option (list (option x509_ext))) : list x509_ext :=
  match req_exts ≫= fun l => find is_san l with Some (Some e) => [e] | _ => [] end.

Lemma fill_ret w p self_sign name issuer_name pkey req_exts :
  all_succeed -> fields p (lib_ w) = no_fields ->
  exists w' es, fill_certificate p self_sign name issuer_name pkey req_exts w = Ret true w' /\ only p w w' /\
    (exists l1 l2, made_from (k_cert (ca (fac w))) p l1 extensions_ es l2 /\
       fields p l1 = mkFields 2 (serial (fac w)) name issuer_name pkey (Some EXPIRE_START) (Some EXPIRE_SECS) None None) /\
    fields p (lib_ w') =
      mkFields 2 (serial (fac w)) name (if self_sign then name else issuer_name) pkey (Some EXPIRE_START)
        (Some EXPIRE_SECS) (exts_of (es ++ san_list req_exts))
        (k_key (if self_sign then def_sr (fac w) else ca (fac w))).
Proof.
  intros Hok Hp. unfold fill_certificate.
  destruct (cdo_only w p (SetVersion 2) Hok) as (w1 & E1 & O1 & F1). rewrite (bind_ret _ _ _ _ _ E1).
  cbn [negb]. unfold fget at 1. rewrite bind_gets.
  destruct (cdo_only w1 p (SetSerial (serial (fac w1))) Hok) as (w2 & E2 & O2 & F2). rewrite (bind_ret _ _ _ _ _ E2).
  destruct (cdo_only w2 p (SetSubject name) Hok) as (w3 & E3 & O3 & F3). rewrite (bind_ret _ _ _ _ _ E3).
  cbn [negb]. cbv zeta.
  destruct (cdo_all_only p [SetIssuer issuer_name; SetPubkey pkey; SetNotBefore EXPIRE_START; SetNotAfter EXPIRE_SECS]
              w3 Hok) as (w4 & E4 & O4 & F4). rewrite (bind_ret _ _ _ _ _ E4). cbn [negb].
  destruct (add_extensions_only p extensions_ w4 Hok) as (w5 & es & E5 & O5 & M & F5).
  rewrite (bind_ret _ _ _ _ _ E5).
  assert (exists w6, (match req_exts ≫= fun l => find is_san l with
                      | Some (Some e) => cdo p (AddExt e) | _ => mret_ true end) w5 = Ret true w6 /\
            only p w5 w6 /\ fields p (lib_ w6) =
              foldl (fun c e => apply_set (AddExt e) c) (fields p (lib_ w5)) (san_list req_exts)) as (w6 & E6 & O6 & F6).
  { unfold san_list. destruct (req_exts ≫= fun l => find is_san l) as [[e|]|].
    - destruct (cdo_only w5 p (AddExt e) Hok) as (w6 & E & O & F). exists w6. done.
    - exists w5. split; [done|]. split; [reflexivity|done].
    - exists w5. split; [done|]. split; [reflexivity|done]. }
  rewrite (bind_ret _ _ _ _ _ E6). cbn [negb]. unfold cert, lask. rewrite bind_gets.
  assert (fields p (lib_ w6) = mkFields 2 (serial (fac w)) name issuer_name pkey (Some EXPIRE_START)
            (Some EXPIRE_SECS) (exts_of (es ++ san_list req_exts)) None) as F.
  { rewrite F6, F5, <- foldl_app, F4, F3, F2, F1, Hp, (proj1 O1). cbn. by rewrite apply_exts. }
  assert (only p w w6) as O.
  { transitivity w1; [done|]. transitivity w2; [done|]. transitivity w3; [done|]. transitivity w4; [done|].
    by transitivity w5. }
  assert (exists l1 l2, made_from (k_cert (ca (fac w))) p l1 extensions_ es l2 /\
    fields p l1 = mkFields 2 (serial (fac w)) name issuer_name pkey (Some EXPIRE_START) (Some EXPIRE_SECS) None None) as M'.
  { exists (lib_ w4), (lib_ w5). split.
    - replace (fac w) with (fac w4); [done|]. rewrite (proj1 O4), (proj1 O3), (proj1 O2). apply O1.
    - by rewrite F4, F3, F2, F1, Hp, (proj1 O1). }
  rewrite F. cbn [f_subject]. destruct self_sign.
  - rewrite bind_assoc. destruct (cdo_only w6 p (SetIssuer name) Hok) as (w7 & E7 & O7 & F7).
    rewrite (bind_ret _ _ _ _ _ E7), bind_pure. unfold fget. rewrite bind_gets.
    destruct (cdo_only w7 p (Sign (k_key (def_sr (fac w7)))) Hok) as (w8 & E8 & O8 & F8).
    exists w8, es. split; [exact E8|]. split; [transitivity w7; [by transitivity w6|done]|].
    split; [done|]. rewrite F8, F7, F. cbn. by rewrite (proj1 O7), (proj1 O).
  - rewrite bind_pure. unfold fget. rewrite bind_gets.
    destruct (cdo_only w6 p (Sign (k_key (ca (fac w6)))) Hok) as (w8 & E8 & O8 & F8).
    exists w8, es. split; [exact E8|]. split; [by transitivity w6|].
    split; [done|]. rewrite F8, F. cbn. by rewrite (proj1 O).
Qed.

(** The stack of alternative names copied into the request. *)
Lemma copy_sans_spec exts san add sk added :
  copy_sans exts san add sk added =
  let v := c_str (san ++ (if 0 <? zlen add then [44] ++ add else [])) in
  (sk ++ (filter (fun ex => is_san ex = true) exts ≫= fun _ => option_list (EXT_conf_nid NID_subject_alt_name v)),
   added || existsb is_san exts).
Proof.
  revert sk added. induction exts as [|ex exts IH]; intros sk added; cbn [copy_sans].
  - cbn. by rewrite app_nil_r, orb_false_r.
  - rewrite filter_cons. cbn [existsb]. destruct (is_san ex) eqn:Es.
    + rewrite IH. cbv zeta. rewrite decide_True by done. cbn [mbind list_bind].
      rewrite orb_true_l, (orb_comm added true), orb_true_l. f_equal. unfold add_ext.
      destruct (EXT_conf_nid _ _); cbn; [by rewrite <- app_assoc|done].
    + rewrite IH. cbv zeta. rewrite decide_False by done. done.
Qed.

(** The first alternative name of the request is the one the specification names. *)
Lemma request_san x additional exts :
  f_exts x = Some exts ->
  let '(sk, added) := copy_sans exts (get_sans_csv x) (string_csv additional 44) [] false in
  san_list (Some (Some <$> (if added then sk else
    add_ext sk NID_subject_alt_name (c_str (string_csv additional 44))))) = option_list (spoofed_san x additional).
Proof.
  intros Hx. rewrite copy_sans_spec. cbv zeta. rewrite orb_false_l. unfold spoofed_san. rewrite Hx. cbv zeta.
  assert (forall v l, san_list (Some (Some <$> (option_list (EXT_conf_nid NID_subject_alt_name v) ++ l))) =
            match EXT_conf_nid NID_subject_alt_name v with
            | Some e => [e] | None => san_list (Some (Some <$> l)) end) as Hs.
  { intros v l. destruct (EXT_conf_nid NID_subject_alt_name v) as [e|] eqn:E; cbn; [|done].
    unfold san_list. cbn. by rewrite (conf_nid _ _ _ E), Z.eqb_refl. }
  assert (forall l : list (option x509_ext), existsb is_san l = true ->
    exists y r, filter (fun ex => is_san ex = true) l = y :: r) as Hf.
  { induction l as [|ex l IH]; intros Hl; [done|]. rewrite filter_cons. cbn in Hl.
    destruct (is_san ex) eqn:Es; [rewrite decide_True by done; eauto|].
    rewrite decide_False by congruence. by apply IH. }
  destruct (existsb is_san exts) eqn:Ee.
  - destruct (Hf exts Ee) as (y & r & ->). set (v := c_str (get_sans_csv x ++ _)).
    cbn [app mbind list_bind]. rewrite Hs. destruct (EXT_conf_nid NID_subject_alt_name v) as [e|] eqn:E; [done|].
    induction r as [|z r IHr]; [done|exact IHr].
  - assert (filter (fun ex => is_san ex = true) exts = []) as ->.
    { clear -Ee. induction exts as [|ex l IH]; [done|]. cbn in Ee. apply orb_false_elim in Ee as [E1 E2].
      rewrite filter_cons, decide_False by congruence. by apply IH. }
    cbn [app mbind list_bind]. unfold add_ext. set (v := c_str (string_csv additional 44)).
    specialize (Hs v []). rewrite app_nil_r in Hs. destruct (EXT_conf_nid NID_subject_alt_name v); exact Hs.
Qed.

(** What making an object on a library leaves alone: everything but the new one. *)
Definition fresh (q : Z) (w w' : store) : Prop :=
  fac w' = fac w /\ refs q (lib_ w) = 0 /\ refs q (lib_ w') = 1 /\
  forall r, r <> q -> refs r (lib_ w') = refs r (lib_ w) /\ fields r (lib_ w') = fields r (lib_ w).

Lemma fresh_only q w w' w'' : fresh q w w' -> only q w' w'' -> fresh q w w''.
Proof.
  intros (A & B & C & D) (A' & B' & C'). split; [congruence|]. split; [done|]. split; [by rewrite C'|].
  intros r Hr. destruct (D r Hr) as [D1 D2]. by rewrite C', D1, B', D2.
Qed.

Section made.
Hypothesis Hok : all_succeed.
Hypothesis Hreq : forall l, exists q l', X509_REQ_new l = (Some q, l').
Hypothesis Hnew : forall l, exists q l', X509_new l = (Some q, l').
Hypothesis Hname : forall l, X509_NAME_new l = true.

(** The request: the subject of the original, the key of the server certificate, the
    alternative names. *)
Lemma csr_ret w p0 self additional n sr :
  f_subject (fields p0 (lib_ w)) = Some n -> 0 < refs p0 (lib_ w) ->
  k_cert (def_sr (fac w)) = Some sr -> 0 < refs sr (lib_ w) ->
  exists q w', create_csr_from p0 self additional w = Ret (Some q) w' /\ fresh q w w' /\
    f_subject (fields q (lib_ w')) = Some n /\
    f_pubkey (fields q (lib_ w')) = f_pubkey (fields sr (lib_ w)) /\
    san_list (f_exts (fields q (lib_ w'))) = option_list (spoofed_san (fields p0 (lib_ w)) additional).
Proof.
  intros Hn Hp0 Hsr Hrsr. unfold create_csr_from, cert at 1, lask at 1. rewrite bind_gets, Hn.
  destruct (Hreq (lib_ w)) as (q & l1 & Eq).
  assert (lcall X509_REQ_new w = Ret (Some q) (mkStore (fac w) l1)) as E1 by (unfold lcall; by rewrite Eq).
  rewrite (bind_ret _ _ _ _ _ E1). destruct (X509_REQ_new_fresh _ _ _ Eq) as (Q0 & Q1 & QF & QO).
  assert (sr <> q) as Hsq by (intros ->; lia). assert (p0 <> q) as Hpq by (intros ->; lia).
  set (w1 := mkStore (fac w) l1) in *. assert (fresh q w w1) as Hfr by done.
  unfold lask at 1. rewrite bind_gets, Hname. unfold fget at 1. rewrite bind_gets. cbn [fac w1]. rewrite Hsr.
  rewrite bind_assoc. unfold cert at 1, lask at 1. rewrite bind_gets, bind_pure. cbn [lib_ w1].
  rewrite (proj2 (QO sr Hsq)).
  destruct (cdo_only w1 q (SetPubkey (f_pubkey (fields sr (lib_ w)))) Hok) as (w2 & E2 & O2 & F2).
  rewrite (bind_ret _ _ _ _ _ E2). cbn [negb].
  destruct (cdo_only w2 q (SetSubject (Some n)) Hok) as (w3 & E3 & O3 & F3).
  rewrite (bind_ret _ _ _ _ _ E3). cbn [negb]. cbv zeta.
  assert (forall w4, only q w3 w4 -> exists w5, sign_csr q w4 = Ret (Some q) w5 /\ only q w3 w5 /\
            fields q (lib_ w5) = apply_set (Sign (k_key (def_sr (fac w)))) (fields q (lib_ w4))) as Hsign.
  { intros w4 O4. unfold sign_csr, fget. rewrite bind_gets.
    destruct (cdo_only w4 q (Sign (k_key (def_sr (fac w4)))) Hok) as (w5 & E5 & O5 & F5).
    rewrite (bind_ret _ _ _ _ _ E5). exists w5. split; [done|]. split; [by transitivity w4|].
    rewrite F5. by rewrite (proj1 O4), (proj1 O3), (proj1 O2). }
  assert (fields q (lib_ w3) = mkFields 0 0 (Some n) None (f_pubkey (fields sr (lib_ w))) None None None None) as F3'.
  { rewrite F3, F2. cbn [lib_ w1]. by rewrite QF. }
  assert (forall w5, only q w3 w5 -> fresh q w w5) as Hfin.
  { intros w5 O5. eapply fresh_only; [exact Hfr|]. transitivity w2; [done|]. by transitivity w3. }
  destruct (f_exts (fields p0 (lib_ w))) as [exts|] eqn:Ex.
  - pose proof (request_san (fields p0 (lib_ w)) additional exts Ex) as HS.
    destruct (copy_sans _ _ _ _ _) as [sk added]. rewrite bind_assoc.
    set (sk' := if added then sk else _) in *.
    destruct (cdo_only w3 q (AddExts sk') Hok) as (w4 & E4 & O4 & F4). rewrite (bind_ret _ _ _ _ _ E4), bind_pure.
    destruct (Hsign w4 O4) as (w5 & E5 & O5 & F5). exists q, w5. split; [exact E5|]. split; [by apply Hfin|].
    rewrite F5, F4, F3'. split; [done|]. split; [done|exact HS].
  - rewrite bind_pure. destruct (Hsign w3) as (w5 & E5 & O5 & F5); [reflexivity|]. exists q, w5.
    split; [exact E5|]. split; [by apply Hfin|]. rewrite F5, F3'. split; [done|]. split; [done|].
    unfold spoofed_san. by rewrite Ex.
Qed.

(** [C5] The made certificate, when the factory has its server certificate and its authority,
    the original has a subject, and OpenSSL refuses to make no object and to set nothing:
    [spoof] answers with the key of
    the server certificate and a new X.509 v3 certificate, alone in having changed.  It has
    the next serial number, the subject of the original, the public key of the server
    certificate, and is valid from a day ago until 364 days from now; self-signed, it is issued by
    itself and signed with the server key, else issued by the authority and signed with the
    authority's key.  Its extensions are the configured ones, in their order and
    but for those OpenSSL makes nothing of, and the alternative names of [spoofed_san]: an original without any extension gets none, even
    when names were to be added. *)
Theorem spoof_exact w p0 self additional n sr ca_p ca_n k :
  f_subject (fields p0 (lib_ w)) = Some n -> 0 < refs p0 (lib_ w) ->
  k_cert (def_sr (fac w)) = Some sr -> 0 < refs sr (lib_ w) -> f_pubkey (fields sr (lib_ w)) = Some k ->
  k_cert (ca (fac w)) = Some ca_p -> 0 < refs ca_p (lib_ w) -> f_subject (fields ca_p (lib_ w)) = Some ca_n ->
  exists p w' es,
    spoof p0 self additional w = Ret (Some (CertificateChainCtx (k_key (def_sr (fac w))) (Some p))) w' /\
    fac w' = put_serial (s64 (serial (fac w) + 1)) (fac w) /\
    refs p (lib_ w) = 0 /\ refs p (lib_ w') = 1 /\
    (forall r, 0 < refs r (lib_ w) -> refs r (lib_ w') = refs r (lib_ w) /\ fields r (lib_ w') = fields r (lib_ w)) /\
    (exists l1 l2, made_from (Some ca_p) p l1 extensions_ es l2 /\
       fields p l1 = mkFields 2 (s64 (serial (fac w) + 1)) (Some n) (Some ca_n) (Some k) (Some EXPIRE_START)
         (Some EXPIRE_SECS) None None) /\
    fields p (lib_ w') =
      mkFields 2 (s64 (serial (fac w) + 1)) (Some n) (Some (if self then n else ca_n)) (Some k)
        (Some EXPIRE_START) (Some EXPIRE_SECS)
        (exts_of (es ++ option_list (spoofed_san (fields p0 (lib_ w)) additional)))
        (k_key (if self then def_sr (fac w) else ca (fac w))).
Proof.
  intros Hn Hp0 Hsr Hrsr Hk Hca Hrca Hcan. unfold spoof, fput. rewrite bind_modify.
  set (f1 := put_serial (s64 (serial (fac w) + 1)) (fac w)). set (w0 := mkStore f1 (lib_ w)).
  destruct (csr_ret w0 p0 self additional n sr Hn Hp0 Hsr Hrsr) as (q & w1 & E1 & (A1 & B1 & C1 & D1) & S1 & K1 & X1).
  rewrite (bind_ret _ _ _ _ _ E1).
  destruct (Hnew (lib_ w1)) as (p & l2 & Ep).
  assert (lcall X509_new w1 = Ret (Some p) (mkStore (fac w1) l2)) as E2 by (unfold lcall; by rewrite Ep).
  rewrite (bind_ret _ _ _ _ _ E2). destruct (X509_new_fresh _ _ _ Ep) as (P0 & P1 & PF & PO).
  cbn [lib_ w0] in *. assert (q <> p) as Hqp by (intros ->; lia).
  assert (ca_p <> q) as Hcq by (intros ->; lia).
  assert (ca_p <> p) as Hcp. { intros ->. rewrite (proj1 (D1 p Hcq)) in P0. lia. }
  set (w2 := mkStore (fac w1) l2). unfold cert at 1, lask at 1. rewrite bind_gets. cbn [lib_ w2].
  rewrite (proj2 (PO q Hqp)). unfold fget at 1. rewrite bind_gets. cbn [fac w2]. rewrite A1.
  change (k_cert (ca (fac w0))) with (k_cert (ca (fac w))). rewrite Hca.
  assert (deref (Some ca_p) w2 = Ret ca_p w2) as E3.
  { unfold deref, lask. rewrite bind_gets. cbn [lib_ w2].
    rewrite (proj1 (PO ca_p Hcp)), (proj1 (D1 ca_p Hcq)), (proj2 (Z.leb_gt _ _)) by lia. done. }
  rewrite (bind_ret _ _ _ _ _ E3). unfold cert at 1, lask at 1. rewrite bind_gets. cbn [lib_ w2].
  rewrite (proj2 (PO ca_p Hcp)), (proj2 (D1 ca_p Hcq)), Hcan, S1, K1, Hk. cbn [validate_spoof_requirements negb].
  destruct (fill_ret w2 p self (Some n) (Some ca_n) (Some k) (f_exts (fields q (lib_ w1))) Hok PF)
    as (w3 & es & E4 & (A3 & B3 & C3) & M & F). rewrite (bind_ret _ _ _ _ _ E4).
  assert (free_obj (Some q) w3 = Ret tt (mkStore (fac w3) (obj_free q (lib_ w3)))) as E5.
  { unfold free_obj, lask. rewrite bind_gets, C3. cbn [lib_ w2].
    rewrite (proj1 (PO q Hqp)), C1. cbn. done. }
  rewrite (bind_ret _ _ _ _ _ E5). unfold fget. rewrite bind_gets. cbn [fac].
  assert (fac w3 = f1) as Hf by (rewrite A3; cbn [fac w2]; by rewrite A1).
  assert (fac w2 = f1) as Hf2 by (cbn [fac w2]; by rewrite A1).
  exists p. eexists _, es. rewrite Hf. split; [reflexivity|]. cbn [fac lib_]. split; [done|].
  assert (refs p (lib_ w) = 0) as Hp. { rewrite <- P0. symmetry. apply D1. done. }
  split; [exact Hp|]. split.
  { rewrite refs_free_other by done. rewrite C3. exact P1. }
  split.
  { intros r Hr. assert (r <> q) as Hrq by (intros ->; lia). assert (r <> p) as Hrp by (intros ->; lia).
    rewrite refs_free_other, fields_free_other by done. rewrite C3, B3 by done. cbn [lib_ w2].
    rewrite (proj1 (PO r Hrp)), (proj2 (PO r Hrp)). apply D1, Hrq. }
  rewrite Hf2 in M, F. split; [by rewrite <- Hca|].
  rewrite fields_free_other by done. rewrite F, X1. f_equal. by destruct self.
Qed.
End made.
End spoof.

(** ** The key of a made certificate *)

Section key.
Context `{CertLib}.
Implicit Types (w : store).
Hypothesis Hpool : forall n, pool_gives n = true.

Definition san_part (s : bytes) : bytes := text "san:" ++ c_str s.

Lemma san_parts_inj (l l' : list bytes) : san_part <$> l = san_part <$> l' -> c_str <$> l = c_str <$> l'.
Proof.
  revert l'. induction l as [|a l IH]; intros [|b l'] He; try done.
  cbn [fmap list_fmap] in *. apply (f_equal (fun l => (hd [] l, tl l))) in He. cbn [hd tl] in He.
  apply pair_equal_spec in He as [Ha He]. apply app_inv_head in Ha. by rewrite Ha, (IH l' He).
Qed.

Lemma self_part_not_san (l : list bytes) r : [text "self_signed"] ++ r <> san_part <$> l.
Proof. destruct l as [|a l]; [done|]. intros He. apply (f_equal (fun l => nth 1 (hd [] l) 0)) in He. done. Qed.

(** The parts of the key, which are joined by plus signs. *)
Definition key_parts (x : cert_fields x509_name x509_ext pubkey) (nm : x509_name) (spo : SpoofOptions) : list bytes :=
  (text "subj:" ++ X509_NAME_oneline SSLCERTSTORE_ONELINE nm) ::
  (if self_signed spo then [text "self_signed"] else []) ++
  (san_part <$> get_sans x ++ sans spo).

Lemma format_ret r w : zlen r < 10240 -> format r w = Ret r w.
Proof. intros Hr. unfold format. by rewrite (proj1 (string_format_limit _ r Hpool) Hr). Qed.

Definition short (s : bytes) : Prop := zlen (c_str s) < 10235.

Lemma csv_snoc d l t : l <> [] -> string_csv (l ++ [t]) d = string_csv l d ++ d :: t.
Proof.
  induction l as [|a l IH]; intros Hl; [done|]. destruct l as [|b l]; [done|].
  change ((a :: b :: l) ++ [t]) with (a :: (b :: l) ++ [t]).
  change (string_csv (a :: (b :: l) ++ [t]) d) with (a ++ [d] ++ string_csv ((b :: l) ++ [t]) d).
  rewrite IH by done. change (string_csv (a :: b :: l) d) with (a ++ [d] ++ string_csv (b :: l) d).
  by rewrite <- !app_assoc.
Qed.

Lemma add_san_parts_ret l parts w : Forall short l -> parts <> [] ->
  add_san_parts l (string_csv parts 43) w = Ret (string_csv (parts ++ (san_part <$> l)) 43) w.
Proof.
  intros HF. revert parts. induction HF as [|s l Hs HF IH]; intros parts Hp; cbn [add_san_parts].
  - by rewrite app_nil_r.
  - assert (zlen (text "+san:" ++ c_str s) < 10240) as Hl.
    { rewrite zlen_app. change (zlen (text "+san:")) with 5. unfold short in Hs. lia. }
    rewrite (bind_ret _ _ _ _ _ (format_ret _ w Hl)).
    change (text "+san:" ++ c_str s) with (43 :: san_part s).
    rewrite <- csv_snoc by done. rewrite IH by (by destruct parts). by rewrite <- app_assoc.
Qed.

Lemma store_key_ret p spo nm w :
  f_subject (fields p (lib_ w)) = Some nm -> Forall short (get_sans (fields p (lib_ w)) ++ sans spo) ->
  make_store_key p spo w = Ret (string_csv (key_parts (fields p (lib_ w)) nm spo) 43) w.
Proof.
  intros Hn HF. apply Forall_app in HF as [H1 H2]. unfold make_store_key, lask. rewrite bind_gets.
  set (x := fields p (lib_ w)) in *. rewrite Hn. unfold oneline. rewrite bind_pure. cbv zeta.
  set (subj := text "subj:" ++ X509_NAME_oneline SSLCERTSTORE_ONELINE nm).
  assert (text "subj:" ++ X509_NAME_oneline SSLCERTSTORE_ONELINE nm ++
            (if self_signed spo then text "+self_signed" else []) =
          string_csv (subj :: (if self_signed spo then [text "self_signed"] else [])) 43) as ->.
  { destruct (self_signed spo); cbn [string_csv]; unfold subj; rewrite <- ?app_assoc, ?app_nil_r; done. }
  rewrite (bind_ret _ _ _ _ _ (add_san_parts_ret (get_sans x)
    (subj :: (if self_signed spo then [text "self_signed"] else [])) w H1 ltac:(done))).
  rewrite add_san_parts_ret by (done || by destruct (self_signed spo)).
  unfold key_parts. fold x. fold subj. do 2 f_equal. rewrite fmap_app. cbn [app]. f_equal. by rewrite <- app_assoc.
Qed.

Definition no_plus (s : bytes) : Prop := 43 ∉ s.

Lemma key_parts_split x nm spo :
  no_plus (X509_NAME_oneline SSLCERTSTORE_ONELINE nm) -> Forall no_plus (get_sans x ++ sans spo) ->
  string_split (string_csv (key_parts x nm spo) 43) 43 = key_parts x nm spo.
Proof.
  intros Hn HF. apply (split_csv_tokens 43).
  - assert (forall s, no_plus s -> no_plus (c_str s)) as Hc.
    { unfold no_plus. intros s. induction s as [|c s IH]; intros Hs; [done|]. cbn.
      apply not_elem_of_cons in Hs as [??]. destruct (c =? 0); [apply not_elem_of_nil|].
      apply not_elem_of_cons. auto. }
    assert (forall t s, no_plus t -> no_plus s -> no_plus (t ++ s)) as Ha.
    { unfold no_plus. intros t s ?? [?|?]%elem_of_app; done. }
    unfold key_parts. constructor; [apply Ha; [compute_done|done]|].
    apply Forall_app. split; [destruct (self_signed spo); repeat constructor; compute_done|].
    apply Forall_fmap. eapply Forall_impl; [exact HF|]. intros s Hs. apply Ha; [compute_done|by apply Hc].
  - unfold key_parts. generalize (get_sans x ++ sans spo). intros l.
    destruct l as [|s l _] using rev_ind.
    + destruct (self_signed spo); cbn; [done|]. by destruct (X509_NAME_oneline SSLCERTSTORE_ONELINE nm).
    + rewrite fmap_app, app_assoc, app_comm_cons. cbn [fmap list_fmap]. by rewrite last_last.
Qed.

(** [C17] What the key of the cache tells apart, names without a plus sign, short enough for
    the formatting buffer and with memory for it: two certificates that have subjects get the same
    key exactly when the subjects print the same into 512 bytes (which take the components up to
    the first that does not fit whole), both or neither are to be self-signed, and their
    alternative names agree one by one up to the first NUL byte.  Issuer, serial number,
    key and validity have no part in it, and neither has what follows a NUL in the four
    bytes of an IP address. *)
Theorem store_key_identifies p1 p2 spo1 spo2 n1 n2 w :
  let x1 := fields p1 (lib_ w) in let x2 := fields p2 (lib_ w) in
  f_subject x1 = Some n1 -> f_subject x2 = Some n2 ->
  no_plus (X509_NAME_oneline 512 n1) -> no_plus (X509_NAME_oneline 512 n2) ->
  Forall (fun s => short s /\ no_plus s) (get_sans x1 ++ sans spo1) ->
  Forall (fun s => short s /\ no_plus s) (get_sans x2 ++ sans spo2) ->
  make_store_key p1 spo1 w = make_store_key p2 spo2 w <->
  X509_NAME_oneline 512 n1 = X509_NAME_oneline 512 n2 /\
  self_signed spo1 = self_signed spo2 /\
  c_str <$> get_sans x1 ++ sans spo1 = c_str <$> get_sans x2 ++ sans spo2.
Proof.
  intros x1 x2 H1 H2 P1 P2 F1 F2. apply Forall_and in F1 as [S1 N1], F2 as [S2 N2].
  rewrite (store_key_ret p1 spo1 n1 w H1 S1), (store_key_ret p2 spo2 n2 w H2 S2). fold x1 x2. split.
  - intros E.
    assert (string_csv (key_parts x1 n1 spo1) 43 = string_csv (key_parts x2 n2 spo2) 43) as E0 by congruence.
    clear E. rename E0 into E.
    pose proof (key_parts_split x1 n1 spo1 P1 N1) as E1. pose proof (key_parts_split x2 n2 spo2 P2 N2) as E2.
    rewrite E, E2 in E1. unfold key_parts in E1.
    change SSLCERTSTORE_ONELINE with 512 in E1. injection E1 as Es Er. split; [done|].
    destruct (self_signed spo1), (self_signed spo2); cbn [app] in Er.
    + injection Er as Er. split; [done|]. symmetry. by apply san_parts_inj.
    + by destruct (self_part_not_san (get_sans x2 ++ sans spo2) (san_part <$> get_sans x1 ++ sans spo1)).
    + by destruct (self_part_not_san (get_sans x1 ++ sans spo1) (san_part <$> get_sans x2 ++ sans spo2)).
    + split; [done|]. symmetry. by apply san_parts_inj.
  - intros (Es & Eb & El). unfold key_parts. change SSLCERTSTORE_ONELINE with 512.
    assert (forall l : list bytes, san_part <$> l = (fun t => text "san:" ++ t) <$> (c_str <$> l)) as Hl.
    { intros l. by rewrite <- list_fmap_compose. }
    by rewrite Es, Eb, !Hl, El.
Qed.

(** An alternative name of more than 10235 bytes, which a server is free to send, makes the
    key read past the formatting buffer. *)
Theorem long_san_overreads p spo nm s w :
  f_subject (fields p (lib_ w)) = Some nm -> s ∈ get_sans (fields p (lib_ w)) -> 10235 < zlen (c_str s) ->
  make_store_key p spo w = Undef.
Proof.
  intros Hn Hs Hl. unfold make_store_key, lask. rewrite bind_gets, Hn. unfold oneline. rewrite bind_pure. cbv zeta.
  set (key := text "subj:" ++ _). generalize key. clear key.
  assert (forall l, s ∈ l -> forall key, add_san_parts l key w = Undef) as Ha; [|intros key; unfold mbind_; by rewrite Ha].
  induction l as [|a l IH]; intros Hin key; [by apply elem_of_nil in Hin|]. cbn [add_san_parts].
  assert (forall r, (exists t, format r w = Ret t w) \/ format r w = Undef) as Hf.
  { intros r. unfold format. pose proof (string_format_limit pool_gives r Hpool) as (A & B & C).
    destruct (Z.lt_trichotomy (zlen r) 10240) as [Hr|[Hr|Hr]].
    - rewrite A by done. eauto.
    - rewrite B by done. eauto.
    - rewrite C by done. auto. }
  apply elem_of_cons in Hin as [->|Hin].
  - unfold mbind_, format. rewrite (proj2 (proj2 (string_format_limit pool_gives _ Hpool))); [done|].
    rewrite zlen_app. change (zlen (text "+san:")) with 5. lia.
  - unfold mbind_ at 1. destruct (Hf (text "+san:" ++ c_str a)) as [[t ->]| ->]; [by apply IH|done].
Qed.
End key.

(** ** Who owns what the caches hold *)

Section owners.
Context `{CertLaws}.
Implicit Types (w : store) (c : cache bytes chain_ctx).

Definition count (p : Z) (l : list Z) : Z := Z.of_nat (count_occ Z.eq_dec l p).

Lemma count_app p l k : count p (l ++ k) = count p l + count p k.
Proof. unfold count. rewrite count_occ_app. lia. Qed.
Lemma count_nonneg p l : 0 <= count p l.
Proof. unfold count. lia. Qed.
Lemma count_perm p l k : Permutation l k -> count p l = count p k.
Proof. intros HP. unfold count. by rewrite (proj1 (Permutation_count_occ Z.eq_dec l k) HP p). Qed.
Lemma count_cons p q l : count p (q :: l) = (if decide (q = p) then 1 else 0) + count p l.
Proof. unfold count. cbn [count_occ]. destruct (Z.eq_dec q p), (decide (q = p)); try done; lia. Qed.

(** The references the entries of a cache stand for, and those of the factory. *)
Definition entries_of (m : gmap bytes (block chain_ctx)) : list Z :=
  map_to_list m ≫= fun e => chain_objects (b_ptr e.2).
Definition pair_objects (k : keypair) : list Z := omap id [k_cert k; k_key k].
Definition own_objects (f : factory) : list Z :=
  pair_objects (ca f) ++ pair_objects (def_cl f) ++ pair_objects (def_sr f) ++ option_list (trust_store_ f).
Definition owned (f : factory) : list Z :=
  entries_of (blocks (cert_mitm_cache f)) ++ entries_of (blocks (cert_custom_cache f)) ++ own_objects f.

(** The references nobody in the factory accounts for. *)
Definition surplus (p : Z) w : Z := refs p (lib_ w) - count p (owned (fac w)).

Definition plain (f : factory) : Prop := fifo (cert_mitm_cache f) /\ fifo (cert_custom_cache f).

Lemma entries_of_union m1 m2 : m1 ##ₘ m2 ->
  Permutation (entries_of (m1 ∪ m2)) (entries_of m1 ++ entries_of m2).
Proof.
  unfold entries_of. induction m1 as [|k b m1 Hk IH] using map_ind; intros Hd.
  - by rewrite (left_id_L ∅ _), map_to_list_empty.
  - apply map_disjoint_insert_l in Hd as [Hk2 Hd]. rewrite <- insert_union_l.
    rewrite !map_to_list_insert by (done || by rewrite lookup_union_None). cbn [mbind list_bind].
    by rewrite (IH Hd), app_assoc.
Qed.

Lemma entries_of_split m m' : m' ⊆ m -> Permutation (entries_of m) (entries_of m' ++ entries_of (m ∖ m')).
Proof.
  intros Hs. rewrite <- entries_of_union by (by apply map_disjoint_difference_r1). by rewrite map_difference_union.
Qed.

Lemma free_all_ret l w : (forall p, count p l <= refs p (lib_ w)) ->
  exists w', free_all l w = Ret tt w' /\ fac w' = fac w /\ forall p, refs p (lib_ w') = refs p (lib_ w) - count p l.
Proof.
  revert w. induction l as [|q l IH]; intros w Hc; cbn [free_all].
  - exists w. split; [done|]. split; [done|]. intros p. unfold count. cbn. lia.
  - assert (free_obj (Some q) w = Ret tt (mkStore (fac w) (obj_free q (lib_ w)))) as E.
    { unfold free_obj, lask. rewrite bind_gets. specialize (Hc q). rewrite count_cons, decide_True in Hc by done.
      pose proof (count_nonneg q l). by rewrite (proj2 (Z.leb_gt _ _)) by lia. }
    rewrite (bind_ret _ _ _ _ _ E).
    assert (0 < refs q (lib_ w)) as Hq.
    { specialize (Hc q). rewrite count_cons, decide_True in Hc by done. pose proof (count_nonneg q l). lia. }
    assert (forall p, refs p (obj_free q (lib_ w)) = refs p (lib_ w) - if decide (q = p) then 1 else 0) as Hr.
    { intros p. destruct (decide (q = p)) as [<-|Hne]; [by apply refs_free|]. rewrite refs_free_other by congruence. lia. }
    destruct (IH (mkStore (fac w) (obj_free q (lib_ w)))) as (w' & E' & Hf & Hp).
    { intros p. cbn [lib_]. rewrite Hr. specialize (Hc p). rewrite count_cons in Hc. lia. }
    exists w'. split; [exact E'|]. split; [done|]. intros p. rewrite Hp. cbn [lib_]. rewrite Hr, count_cons. lia.
Qed.

Lemma destroy_entries_ret l w : (forall p, count p (l ≫= chain_objects) <= refs p (lib_ w)) ->
  exists w', destroy_entries l w = Ret tt w' /\ fac w' = fac w /\
    forall p, refs p (lib_ w') = refs p (lib_ w) - count p (l ≫= chain_objects).
Proof.
  revert w. induction l as [|e l IH]; intros w Hc; cbn [destroy_entries].
  - exists w. split; [done|]. split; [done|]. intros p. unfold count. cbn. lia.
  - unfold entry_reset, release_objects. rewrite bind_assoc.
    destruct (free_all_ret (chain_objects e) w) as (w1 & E1 & F1 & R1).
    { intros p. specialize (Hc p). cbn [mbind list_bind] in Hc. rewrite count_app in Hc.
      pose proof (count_nonneg p (l ≫= chain_objects)). unfold mbind in *. lia. }
    rewrite (bind_ret _ _ _ _ _ E1), bind_pure. destruct (IH w1) as (w2 & E2 & F2 & R2).
    { intros p. rewrite R1. specialize (Hc p). cbn [mbind list_bind] in Hc. rewrite count_app in Hc.
      unfold mbind in *. lia. }
    exists w2. split; [exact E2|]. split; [congruence|]. intros p. rewrite R2, R1.
    cbn [mbind list_bind]. rewrite count_app. unfold mbind. lia.
Qed.

(** What one cache owns, and the rest. *)
Definition rest_of (k : which) (f : factory) : list Z :=
  match k with
  | MITM => entries_of (blocks (cert_custom_cache f)) ++ own_objects f
  | CUSTOM => entries_of (blocks (cert_mitm_cache f)) ++ own_objects f
  end.

Lemma count_owned p (k : which) f : count p (owned f) = count p (entries_of (blocks (cache_of k f))) + count p (rest_of k f).
Proof. unfold owned. destruct k; cbn [cache_of rest_of]; rewrite !count_app; lia. Qed.

Lemma dropped_objects c c' : (dropped c c' ≫= chain_objects) = entries_of (blocks c ∖ blocks c').
Proof.
  unfold dropped, entries_of. generalize (map_to_list (blocks c ∖ blocks c')).
  induction l as [|e l IH]; [done|]. cbn. f_equal. exact IH.
Qed.

(** A change of one cache in which the entries that go, and only those, are released; [new]
    is what comes in. *)
Lemma with_cache_balanced {A} (k : which) (m : M (cache bytes chain_ctx) A) w a c' new :
  m (cache_of k (fac w)) = Ret a c' ->
  Permutation (entries_of (blocks (cache_of k (fac w))) ++ new)
    (entries_of (blocks c') ++ entries_of (blocks (cache_of k (fac w)) ∖ blocks c')) ->
  (forall p, count p new <= surplus p w) ->
  exists w', with_cache k m w = Ret a w' /\ fac w' = put_cache k c' (fac w) /\
    forall p, surplus p w' = surplus p w - count p new.
Proof.
  intros Em HP Hs. unfold with_cache, fget. rewrite bind_gets, Em. unfold fput. rewrite bind_modify.
  assert (forall p, count p (entries_of (blocks (cache_of k (fac w)))) + count p new =
            count p (entries_of (blocks c')) + count p (entries_of (blocks (cache_of k (fac w)) ∖ blocks c'))) as HC.
  { intros p. rewrite <- !count_app. by apply count_perm. }
  destruct (destroy_entries_ret (dropped (cache_of k (fac w)) c') (mkStore (put_cache k c' (fac w)) (lib_ w)))
    as (w' & E & F & R).
  { intros p. rewrite dropped_objects. cbn [lib_]. specialize (Hs p). specialize (HC p).
    unfold surplus in Hs. rewrite (count_owned p k) in Hs. pose proof (count_nonneg p (rest_of k (fac w))).
    pose proof (count_nonneg p (entries_of (blocks c'))). lia. }
  cbn [fac lib_] in F, R.
  rewrite (bind_ret _ _ _ _ _ E). exists w'. split; [done|]. split; [done|]. intros p. unfold surplus.
  rewrite R, F, (count_owned p k (put_cache k c' (fac w))), (count_owned p k (fac w)), dropped_objects.
  cbn [fac lib_]. assert (cache_of k (put_cache k c' (fac w)) = c') as -> by by destruct k.
  assert (rest_of k (put_cache k c' (fac w)) = rest_of k (fac w)) as -> by by destruct k.
  specialize (HC p). lia.
Qed.

Lemma free_pair_ret get_ w : (forall p, count p (pair_objects (get_ (fac w))) <= refs p (lib_ w)) ->
  exists w', free_pair get_ w = Ret tt w' /\ fac w' = fac w /\
    forall p, refs p (lib_ w') = refs p (lib_ w) - count p (pair_objects (get_ (fac w))).
Proof.
  intros Hc. destruct (free_all_ret _ w Hc) as (w' & E & F). exists w'. split; [|exact F].
  rewrite <- E. unfold free_pair, fget, pair_objects. rewrite bind_gets.
  destruct (get_ (fac w)) as [[c|] [k|]]; cbn [k_cert k_key omap list_omap id]; cbn [free_all].
  - unfold free_obj at 1 3. rewrite !bind_assoc. unfold lask. rewrite !bind_gets.
    case_if; [done|]. unfold ldo. rewrite !bind_modify. unfold mbind_.
    by destruct (free_obj (Some k) _) as [[] ?|?|].
  - unfold free_obj at 2, mbind_. by destruct (free_obj (Some c) w) as [[] ?|?|].
  - unfold free_obj at 1. rewrite bind_pure. unfold mbind_. by destruct (free_obj (Some k) w) as [[] ?|?|].
  - done.
Qed.

(** A pair given up: what it accounted for is freed. *)
Lemma destroy_pair_balanced get_ put_ w :
  (forall p f, count p (owned (put_ (mkPair None None) f)) = count p (owned f) - count p (pair_objects (get_ f))) ->
  (forall p, 0 <= surplus p w) ->
  exists w', destroy_pair get_ put_ w = Ret tt w' /\ fac w' = put_ (mkPair None None) (fac w) /\
    forall p, surplus p w' = surplus p w.
Proof.
  intros Hput Hs. unfold destroy_pair. destruct (free_pair_ret get_ w) as (w1 & E & F & R).
  { intros p. specialize (Hs p). unfold surplus in Hs. pose proof (Hput p (fac w)).
    pose proof (count_nonneg p (owned (put_ (mkPair None None) (fac w)))). lia. }
  rewrite (bind_ret _ _ _ _ _ E). exists (mkStore (put_ (mkPair None None) (fac w1)) (lib_ w1)).
  split; [done|]. cbn [fac lib_]. rewrite F. split; [done|].
  intros p. unfold surplus. cbn [fac lib_]. rewrite R, Hput. lia.
Qed.

Lemma entries_of_same m : entries_of (m ∖ m) = [].
Proof. by rewrite map_difference_diag. Qed.

(** A change that only takes entries away. *)
Lemma with_cache_shrinks {A} (k : which) (m : M (cache bytes chain_ctx) A) w a c' :
  m (cache_of k (fac w)) = Ret a c' -> blocks c' ⊆ blocks (cache_of k (fac w)) -> (forall p, 0 <= surplus p w) ->
  exists w', with_cache k m w = Ret a w' /\ fac w' = put_cache k c' (fac w) /\ forall p, surplus p w' = surplus p w.
Proof.
  intros Em Hsub Hs. destruct (with_cache_balanced k m w a c' [] Em) as (w' & E & F & R).
  - rewrite app_nil_r. by apply entries_of_split.
  - intros p. specialize (Hs p). unfold count. cbn. lia.
  - exists w'. split; [done|]. split; [done|]. intros p. rewrite R. unfold count. cbn. lia.
Qed.

Lemma destroy_balanced w : (forall p, 0 <= surplus p w) ->
  exists w', destroy w = Ret tt w' /\ owned (fac w') = [] /\ (forall p, surplus p w' = surplus p w) /\
    (plain (fac w) -> plain (fac w')).
Proof.
  intros Hs. unfold destroy.
  destruct (destroy_pair_balanced ca put_ca w) as (w1 & E1 & F1 & R1); [|done|].
  { intros p f. unfold owned, own_objects. rewrite !count_app. change (pair_objects (mkPair None None)) with (@nil Z).
    cbn. unfold count at 3. cbn. lia. }
  rewrite (bind_ret _ _ _ _ _ E1).
  destruct (destroy_pair_balanced def_cl put_cl w1) as (w2 & E2 & F2 & R2); [|intros p; rewrite R1; apply Hs|].
  { intros p f. unfold owned, own_objects. rewrite !count_app. change (pair_objects (mkPair None None)) with (@nil Z).
    cbn. unfold count at 4. cbn. lia. }
  rewrite (bind_ret _ _ _ _ _ E2).
  destruct (destroy_pair_balanced def_sr put_sr w2) as (w3 & E3 & F3 & R3); [|intros p; rewrite R2, R1; apply Hs|].
  { intros p f. unfold owned, own_objects. rewrite !count_app. change (pair_objects (mkPair None None)) with (@nil Z).
    cbn. unfold count at 5. cbn. lia. }
  rewrite (bind_ret _ _ _ _ _ E3).
  destruct (with_cache_shrinks MITM (modify clear) w3 tt (clear (cache_of MITM (fac w3))) eq_refl) as (w4 & E4 & F4 & R4).
  { apply map_empty_subseteq. } { intros p. rewrite R3, R2, R1. apply Hs. }
  rewrite (bind_ret _ _ _ _ _ E4).
  destruct (with_cache_shrinks CUSTOM (modify clear) w4 tt (clear (cache_of CUSTOM (fac w4))) eq_refl) as (w5 & E5 & F5 & R5).
  { apply map_empty_subseteq. } { intros p. rewrite R4, R3, R2, R1. apply Hs. }
  rewrite (bind_ret _ _ _ _ _ E5). unfold fget. rewrite bind_gets.
  assert (forall p, surplus p w5 = surplus p w) as R by (intros p; by rewrite R5, R4, R3, R2, R1).
  assert (owned (fac w5) = option_list (trust_store_ (fac w5))) as Ho.
  { rewrite F5, F4, F3, F2, F1. unfold owned, entries_of. cbn. by rewrite map_to_list_empty. }
  assert (exists w6, free_obj (trust_store_ (fac w5)) w5 = Ret tt w6 /\ fac w6 = fac w5 /\
            forall p, refs p (lib_ w6) = refs p (lib_ w5) - count p (owned (fac w5))) as (w6 & E6 & F6 & R6).
  { destruct (free_all_ret (owned (fac w5)) w5) as (w6 & E6 & H6).
    { intros p. pose proof (R p) as Rp. specialize (Hs p). unfold surplus in *. lia. }
    exists w6. split; [|exact H6]. rewrite <- E6, Ho. destruct (trust_store_ (fac w5)) as [t|]; [|done].
    change (option_list (Some t)) with [t]. cbn [free_all]. unfold mbind_. by destruct (free_obj (Some t) w5) as [[] ?|?|]. }
  rewrite (bind_ret _ _ _ _ _ E6). exists (mkStore (put_trust None (fac w6)) (lib_ w6)).
  split; [done|]. cbn [fac lib_].
  assert (owned (put_trust None (fac w6)) = []) as Hz.
  { rewrite F6, F5, F4, F3, F2, F1. unfold owned, entries_of. cbn. by rewrite map_to_list_empty. }
  split; [exact Hz|]. split.
  - intros p. rewrite <- R. unfold surplus. cbn [fac lib_]. rewrite Hz, R6. unfold count at 2. cbn. lia.
  - intros Hp. rewrite F6, F5, F4, F3, F2, F1. exact Hp.
Qed.

(** ** Runs of the store *)

Inductive store_op : Type :=
  | OFind (k : which) (subject : bytes)
  | OErase (k : which) (subject : bytes)
  | OAdd (k : which) (store_key : bytes) (e : chain_ctx)
  | ODestroy.

Definition run_op (o : store_op) : M store bool :=
  match o with
  | OFind k s => find_cert k s ;;; mret_ false
  | OErase k s => erase_cert k s
  | OAdd k s e => add_to_cache k s e
  | ODestroy => destroy ;;; mret_ true
  end.
Fixpoint run_store (l : list store_op) : M store (list bool) :=
  match l with
  | [] => mret_ []
  | o :: l => b <- run_op o ;; r <- run_store l ;; mret_ (b :: r)
  end.

(** What a caller brings, and what the store takes over when it accepts. *)
Definition offered (o : store_op) : list Z := match o with OAdd _ _ e => chain_objects e | _ => [] end.
Definition taken (o : store_op) (b : bool) : list Z := if b then offered o else [].
Fixpoint taken_all (l : list store_op) (bs : list bool) : list Z :=
  match l, bs with o :: l, b :: bs => taken o b ++ taken_all l bs | _, _ => [] end.

Lemma fifo_of k f : plain f -> fifo (cache_of k f).
Proof. intros [? ?]. by destruct k. Qed.
Lemma plain_put k c f : plain f -> fifo c -> plain (put_cache k c f).
Proof. intros [? ?] ?. by destruct k. Qed.

(** Looking up changes nothing in a first-in-first-out cache. *)
Lemma find_ret (k : which) s w : plain (fac w) ->
  with_cache k (cache_get s) w = Ret (b_ptr <$> blocks (cache_of k (fac w)) !! s) w.
Proof.
  intros Hp. unfold with_cache, fget. rewrite bind_gets, fifo_get by by apply fifo_of.
  unfold fput. rewrite bind_modify. unfold dropped. rewrite map_difference_diag, map_to_list_empty.
  cbn [fmap list_fmap destroy_entries]. rewrite !bind_pure. unfold mret_. f_equal.
  destruct w as [f l], k, f; done.
Qed.

(** An entry taken in. *)
Lemma set_balanced (k : which) s e w :
  plain (fac w) -> blocks (cache_of k (fac w)) !! s = None -> (forall p, count p (chain_objects e) <= surplus p w) ->
  exists w', with_cache k (cache_set s e) w = Ret false w' /\ plain (fac w') /\
    forall p, surplus p w' = surplus p w - count p (chain_objects e).
Proof.
  intros Hp Eb Hs.
  destruct (set_fifo_new s e (cache_of k (fac w))) as (c' & m & Es & Hm & Hb & Hpc); [by apply fifo_of|done|].
  assert (m !! s = None) as Hms by (eapply lookup_weaken_None; [exact Eb|done]).
  destruct (with_cache_balanced k (cache_set s e) w false c' (chain_objects e) Es) as (w2 & E2 & F2 & R2); [|exact Hs|].
  - rewrite Hb. assert (blocks (cache_of k (fac w)) ∖ <[s := fresh_block e c']> m = blocks (cache_of k (fac w)) ∖ m) as ->.
    { apply map_eq. intros i. apply option_eq. intros x. rewrite !lookup_difference_Some.
      destruct (decide (i = s)) as [->|Hne]; [rewrite Eb; naive_solver|by rewrite lookup_insert_ne]. }
    unfold entries_of at 2. rewrite map_to_list_insert by done. cbn [mbind list_bind].
    fold (entries_of m). cbn [b_ptr fresh_block snd]. rewrite (entries_of_split _ _ Hm) at 1.
    rewrite (Permutation_app_comm _ (chain_objects e)), app_assoc. done.
  - exists w2. split; [exact E2|]. rewrite F2. split; [by apply plain_put|done].
Qed.

Lemma run_op_balanced o w :
  plain (fac w) -> (forall p, count p (offered o) <= surplus p w) ->
  exists b w', run_op o w = Ret b w' /\ plain (fac w') /\ forall p, surplus p w' = surplus p w - count p (taken o b).
Proof.
  intros Hp Hs. assert (forall p, 0 <= surplus p w) as Hpos.
  { intros p. specialize (Hs p). pose proof (count_nonneg p (offered o)). lia. }
  assert (forall p, surplus p w = surplus p w - count p []) as Hz by (intros p; unfold count; cbn; lia).
  destruct o as [k s|k s|k s e|]; cbn [run_op].
  - unfold find_cert. rewrite (bind_ret _ _ _ _ _ (find_ret k s w Hp)). by exists false, w.
  - unfold erase_cert. set (c := cache_of k (fac w)).
    assert (exists b c', erase s c = Ret b c' /\ blocks c' ⊆ blocks c /\ fifo c') as (b & c' & Ee & Hsub & Hpc).
    { pose proof (fifo_of k _ Hp) as Hpc. unfold erase. fold c in Hpc. destruct (blocks c !! s).
      - eexists _, _. split; [done|]. split; [apply delete_subseteq|done].
      - eexists _, _. split; [done|]. done. }
    destruct (with_cache_shrinks k (erase s) w b c' Ee Hsub Hpos) as (w' & E & F & R).
    rewrite (bind_ret _ _ _ _ _ E). exists true, w'. split; [done|]. rewrite F. split; [by apply plain_put|].
    intros p. rewrite R. apply Hz.
  - unfold add_to_cache.
    destruct (c_key (chain e)) eqn:Ek; [|exists false, w; done]. destruct (c_cert (chain e)) eqn:Ec; [|exists false, w; done].
    rewrite (bind_ret _ _ _ _ _ (find_ret k s w Hp)).
    destruct (blocks (cache_of k (fac w)) !! s) as [b|] eqn:Eb; cbn [fmap option_fmap option_map]; [by exists false, w|].
    destruct (set_balanced k s e w Hp Eb Hs) as (w2 & E2 & Hp2 & R2). rewrite (bind_ret _ _ _ _ _ E2).
    by exists true, w2.
  - destruct (destroy_balanced w Hpos) as (w' & E & _ & R & Hpl). rewrite (bind_ret _ _ _ _ _ E).
    exists true, w'. split; [done|]. split; [by apply Hpl|]. intros p. rewrite R. apply Hz.
Qed.

(** [C10] The store frees what it holds once and only once: in any run of finding, erasing,
    adding and destroying, where the caller holds a reference to each object it offers, no
    object is freed that is gone, and at the end every reference is either still accounted
    for by an entry or a field of the factory or was given back: the references nobody in
    the factory accounts for are those of the start less the ones handed over to accepted
    entries. *)
Theorem store_frees_once l w :
  plain (fac w) -> (forall p, count p (l ≫= offered) <= surplus p w) ->
  exists bs w', run_store l w = Ret bs w' /\ plain (fac w') /\
    forall p, surplus p w' = surplus p w - count p (taken_all l bs).
Proof.
  revert w. induction l as [|o l IH]; intros w Hp Hs; cbn [run_store].
  - exists [], w. split; [done|]. split; [done|]. intros p. unfold count. cbn. lia.
  - cbn [mbind list_bind] in Hs. destruct (run_op_balanced o w Hp) as (b & w1 & E & Hp1 & R).
    { intros p. specialize (Hs p). rewrite count_app in Hs. pose proof (count_nonneg p (l ≫= offered)).
      unfold mbind in *. lia. }
    rewrite (bind_ret _ _ _ _ _ E). destruct (IH w1 Hp1) as (bs & w2 & E2 & Hp2 & R2).
    { intros p. specialize (Hs p). rewrite count_app in Hs. rewrite R. unfold mbind in *.
      assert (count p (taken o b) <= count p (offered o)); [|lia].
      destruct b; cbn [taken]; [lia|]. apply count_nonneg. }
    rewrite (bind_ret _ _ _ _ _ E2). exists (b :: bs), w2. split; [done|]. split; [done|].
    intros p. rewrite R2, R. cbn [taken_all]. rewrite count_app. lia.
Qed.
End owners.

(** ** Reading files *)

(** [FILE_to_string] ends with the text of a file whose end is reached, in one turn more
    than it has characters; when reading fails before, which is not the end of the file,
    it never does, whatever the fuel: each turn appends another character. *)
Theorem file_read_ends s :
  FILE_to_string (S (length s)) s false = Some s /\ forall n, FILE_to_string n s true = None.
Proof.
  split.
  - induction s as [|c s IH]; [done|]. change (cons c <$> FILE_to_string (S (length s)) s false = Some (c :: s)).
    by rewrite IH.
  - intros n. revert s. induction n as [|n IH]; intros s; [done|]. destruct s as [|c s]; cbn; by rewrite IH.
Qed.
