(* ===== verification/Mitm.v ===== *)
(** * Mitm: the com that imitates the server it talks to (sslmitmcom.hpp, sslmitmcom.tpp)

    Once the right side has the certificate of the real server, [check_cert] compares it with
    the name the client asked for and has the left side present a certificate like it:
    a custom one bound to the name or the address, a cached one, or one made by the store.
    [init_server] of the left side (sslcom.tpp) with a preferred certificate and the
    destructor that gives its references back are here; [Tls] has the rest of the com.

    [SslObj] names the calls on the SSL object of a com. *)

From S2P Require Export CertStore Tls.
From S2P Require Import Text.

(** What is set on an SSL object. *)
Inductive ssl_set : Type :=
  | SslCipherList (s : string)
  | SslGroups (s : string)
  | SslUseCertificate (c : Z)
  | SslUsePrivateKey (k : Z)
  | SslNoSession
  | SslNoTicket
  | SslMode
  | SslSetFd (fd : Z)
  | SslCookieExchange
  | SslCallbacks.

Class SslObj `{CertLib} := {
  ssl_new : Z -> clib -> option Z * clib;
  ssl_free : Z -> clib -> clib;
  ssl_set_ : Z -> ssl_set -> clib -> Z * clib;
  peer_certificate : Z -> clib -> option Z * clib      (* with a reference for the caller *)
}.

Record mcom : Type := mkMcom {
  m_sni : bytes;                    (* sslcom_sni *)
  m_verify : Z;                     (* verify_status_ *)
  m_replace : bool;                 (* opt.cert.failed_check_replacement *)
  m_sni_search : bool;              (* opt.cert.mitm_cert_sni_search *)
  m_ip_search : bool;               (* opt.cert.mitm_cert_ip_search *)
  m_left : crypto_features;         (* opt.left *)
  m_host : option bytes;            (* owner_cx()->host(), when there is an owner *)
  m_peer_host : option bytes;       (* owner_cx()->peer()->host() *)
  m_proto : Z;                      (* l4_proto() *)
  m_socket : Z;
  m_shortcut : bool;                (* sslcom_peer_sni_shortcut *)
  m_server : bool;                  (* sslcom_server_ *)
  m_waiting : bool;                 (* sslcom_waiting *)
  m_upgraded : bool;                (* auto_upgraded_ *)
  m_status : bool;                  (* sslcom_status_ *)
  m_ctx : option Z;                 (* sslcom_ctx *)
  m_ssl : option Z;                 (* sslcom_ssl *)
  pref_cert : option Z;             (* sslcom_pref_cert *)
  pref_key : option Z;
  pref_ctx : option Z;
  m_counted : bool                  (* sslcom_refcount_incremented_ *)
}.

Definition mput_verify (v : Z) (c : mcom) : mcom :=
  mkMcom (m_sni c) v (m_replace c) (m_sni_search c) (m_ip_search c) (m_left c) (m_host c)
    (m_peer_host c) (m_proto c) (m_socket c) (m_shortcut c) (m_server c) (m_waiting c)
    (m_upgraded c) (m_status c) (m_ctx c) (m_ssl c) (pref_cert c) (pref_key c) (pref_ctx c)
    (m_counted c).
Definition mput_server (v : bool) (c : mcom) : mcom :=
  mkMcom (m_sni c) (m_verify c) (m_replace c) (m_sni_search c) (m_ip_search c) (m_left c)
    (m_host c) (m_peer_host c) (m_proto c) (m_socket c) (m_shortcut c) v (m_waiting c)
    (m_upgraded c) (m_status c) (m_ctx c) (m_ssl c) (pref_cert c) (pref_key c) (pref_ctx c)
    (m_counted c).
Definition mput_upgraded (v : bool) (c : mcom) : mcom :=
  mkMcom (m_sni c) (m_verify c) (m_replace c) (m_sni_search c) (m_ip_search c) (m_left c)
    (m_host c) (m_peer_host c) (m_proto c) (m_socket c) (m_shortcut c) (m_server c) (m_waiting c) v (m_status c) (m_ctx c) (m_ssl c) (pref_cert c) (pref_key c) (pref_ctx c) (m_counted c).
Definition mput_status (v : bool) (c : mcom) : mcom :=
  mkMcom (m_sni c) (m_verify c) (m_replace c) (m_sni_search c) (m_ip_search c) (m_left c)
    (m_host c) (m_peer_host c) (m_proto c) (m_socket c) (m_shortcut c) (m_server c) (m_waiting c) (m_upgraded c) v (m_ctx c) (m_ssl c) (pref_cert c) (pref_key c) (pref_ctx c) (m_counted c).
Definition mput_ctx (v : option Z) (c : mcom) : mcom :=
  mkMcom (m_sni c) (m_verify c) (m_replace c) (m_sni_search c) (m_ip_search c) (m_left c)
    (m_host c) (m_peer_host c) (m_proto c) (m_socket c) (m_shortcut c) (m_server c) (m_waiting c) (m_upgraded c) (m_status c) v (m_ssl c) (pref_cert c) (pref_key c) (pref_ctx c)
    (m_counted c).
Definition mput_ssl (v : option Z) (c : mcom) : mcom :=
  mkMcom (m_sni c) (m_verify c) (m_replace c) (m_sni_search c) (m_ip_search c) (m_left c)
    (m_host c) (m_peer_host c) (m_proto c) (m_socket c) (m_shortcut c) (m_server c) (m_waiting c) (m_upgraded c) (m_status c) (m_ctx c) v (pref_cert c) (pref_key c) (pref_ctx c)
    (m_counted c).
Definition mput_pref_ctx (v : option Z) (c : mcom) : mcom :=
  mkMcom (m_sni c) (m_verify c) (m_replace c) (m_sni_search c) (m_ip_search c) (m_left c)
    (m_host c) (m_peer_host c) (m_proto c) (m_socket c) (m_shortcut c) (m_server c) (m_waiting c) (m_upgraded c) (m_status c) (m_ctx c) (m_ssl c) (pref_cert c) (pref_key c) v (m_counted c).
Definition mput_counted (v : bool) (c : mcom) : mcom :=
  mkMcom (m_sni c) (m_verify c) (m_replace c) (m_sni_search c) (m_ip_search c) (m_left c)
    (m_host c) (m_peer_host c) (m_proto c) (m_socket c) (m_shortcut c) (m_server c) (m_waiting c) (m_upgraded c) (m_status c) (m_ctx c) (m_ssl c) (pref_cert c) (pref_key c) (pref_ctx c)
    v.
Definition mput_pref (x k : option Z) (c : mcom) : mcom :=
  mkMcom (m_sni c) (m_verify c) (m_replace c) (m_sni_search c) (m_ip_search c) (m_left c)
    (m_host c) (m_peer_host c) (m_proto c) (m_socket c) (m_shortcut c) (m_server c) (m_waiting c) (m_upgraded c) (m_status c) (m_ctx c) (m_ssl c) x k (pref_ctx c) (m_counted c).

(** ** The name asked for against the names of the certificate *)

Definition starts_with (p s : bytes) : bool := bool_decide (take (length p) s = p).

(** [substr(find("."))] *)
Fixpoint from_dot (s : bytes) : option bytes :=
  match s with
  | c :: s' => if c =? 46 then Some s else from_dot s'
  | [] => None
  end.
Definition sni_wild (sni : bytes) : bytes :=
  match from_dot sni with Some r => string_tolower (42 :: r) | None => [] end.

(** One entry: the name it was validated by.  The lower-case copy of the SNI the code makes
    for full names is not what it compares. *)
Definition item_valid (sni : bytes) (host : option bytes) (item : bytes) : option bytes :=
  if 0 <? zlen sni then
    if (4 <? zlen item) && starts_with (text "DNS:") item then
      let item := string_tolower (zdrop 4 item) in
      let asked := if starts_with (text "*.") item then sni_wild sni else sni in
      if bool_decide (asked = item) then Some (text "DNS:" ++ item) else None
    else None
  else if (3 <? zlen item) && starts_with (text "IP:") item then
    let item := zdrop 3 item in
    if bool_decide (host = Some item) then Some (text "IP:" ++ item) else None
  else None.

(** The first entry of a comma-separated candidate that is valid, and of the candidates. *)
Fixpoint items_valid (sni : bytes) (host : option bytes) (items : list bytes) : exn + option bytes :=
  match items with
  | [] => inr None
  | i :: items =>
      match string_trim i with
      | inl e => inl e
      | inr item => match item_valid sni host item with
                    | Some v => inr (Some v)
                    | None => items_valid sni host items
                    end
      end
  end.
Fixpoint candidates_valid (sni : bytes) (host : option bytes) (hostnames : list bytes) : exn + option bytes :=
  match hostnames with
  | [] => inr None
  | c :: hostnames =>
      match items_valid sni host (string_split c 44) with
      | inr None => candidates_valid sni host hostnames
      | r => r
      end
  end.

Section mitm.
Context `{SslObj}.

(** A com and the store. *)
Record cworld : Type := mkCworld { com : mcom; cw_store : store }.

Definition cmine {A} (f : mcom -> A) : M cworld A := gets (fun w => f (com w)).
Definition cset (f : mcom -> mcom) : M cworld unit := modify (fun w => mkCworld (f (com w)) (cw_store w)).
Definition in_store {A} (m : M store A) : M cworld A := fun w =>
  match m (cw_store w) with
  | Ret a s => Ret a (mkCworld (com w) s)
  | Throw e s => Throw e (mkCworld (com w) s)
  | Undef => Undef
  end.

(** ** Choosing the certificate to present *)

(** The pointers of a cached entry become the preferred ones; a context only when there is
    one. *)
Definition prefer (e : chain_ctx) : M cworld unit :=
  cset (mput_pref (c_cert (chain e)) (c_key (chain e))) ;;;
  match c_ctx e with Some ctx => cset (mput_pref_ctx (Some ctx)) | None => mret_ tt end.

Definition use_cert_sni (spo : SpoofOptions) : M cworld bool :=
  if negb (0 <? zlen (spo_sni spo)) then mret_ false
  else
    parek <- in_store (find_custom (text "sni:" ++ spo_sni spo)) ;;
    match parek with Some e => prefer e ;;; mret_ true | None => mret_ false end.

Definition use_cert_ip : M cworld bool :=
  address <- cmine m_peer_host ;;
  match address with
  | None => mret_ false
  | Some address =>
      if negb (0 <? zlen address) then mret_ false
      else
        parek <- in_store (find_custom (text "ip:" ++ address)) ;;
        match parek with Some e => prefer e ;;; mret_ true | None => mret_ false end
  end.

(** The key gets a reference for the cache; the certificate is new and has one. *)
Definition use_cert_mitm (cert_orig : Z) (spo : SpoofOptions) : M cworld bool :=
  store_key <- in_store (make_store_key cert_orig spo) ;;
  parek <- in_store (find_mitm store_key) ;;
  match parek with
  | Some e => prefer e ;;; mret_ true
  | None =>
      spoof_ret <- in_store (spoof cert_orig (self_signed spo) (sans spo)) ;;
      match spoof_ret with
      | None => mret_ false
      | Some e =>
          prefer e ;;;
          in_store (ref_obj (c_key (chain e))) ;;;
          in_store (add_mitm store_key e) ;;;
          mret_ true
      end
  end.

Definition spoof_cert (cert_orig : option Z) (spo : SpoofOptions) : M cworld bool :=
  by_sni <- cmine m_sni_search ;;
  a <- (if by_sni : bool then use_cert_sni spo else mret_ false) ;;
  if a : bool then mret_ true else
  by_ip <- cmine m_ip_search ;;
  b <- (if by_ip : bool then use_cert_ip else mret_ false) ;;
  if b : bool then mret_ true else
  x <- in_store (deref cert_orig) ;;
  use_cert_mitm x spo.

(** ** The server side with a preferred certificate *)

(** A call on the SSL object. *)
Definition ssl_put (s : ssl_set) : M cworld Z :=
  p <- cmine m_ssl ;;
  match p with Some p => in_store (lcall (ssl_set_ p s)) | None => undef end.

Definition free_ssl : M cworld unit :=
  p <- cmine m_ssl ;;
  match p with
  | Some p => in_store (ldo (ssl_free p)) ;;; cset (mput_ssl None)
  | None => mret_ tt
  end.

(** The custom context, else the one there is, else the default. *)
Definition choose_ctx (default_cx : factory -> option Z) : M cworld unit :=
  c <- cmine (fun c => c) ;;
  match pref_ctx c with
  | Some x => cset (mput_ctx (Some x))
  | None => match m_ctx c with
            | Some _ => mret_ tt
            | None => d <- in_store (fget default_cx) ;; cset (mput_ctx d)
            end
  end.
Definition new_ssl : M cworld unit :=
  x <- cmine m_ctx ;;
  ctx <- in_store (deref x) ;;
  p <- in_store (lcall (ssl_new ctx)) ;;
  cset (mput_ssl p).

(** The preferred pair is handed to the SSL object; the com takes a reference of its own the
    first time. *)
Definition load_preferred : M cworld unit :=
  c <- cmine (fun c => c) ;;
  match pref_ctx c, pref_cert c, pref_key c with
  | None, Some x, Some k =>
      in_store (deref (Some x)) ;;;
      ssl_put (SslUseCertificate x) ;;;
      in_store (deref (Some k)) ;;;
      ssl_put (SslUsePrivateKey k) ;;;
      if m_counted c then mret_ tt
      else in_store (ref_obj (Some k)) ;;; in_store (ref_obj (Some x)) ;;; cset (mput_counted true)
  | _, _, _ => mret_ tt
  end.

Definition init_server_pref : M cworld unit :=
  free_ssl ;;;
  proto <- cmine m_proto ;;
  (if proto =? SOCK_STREAM then choose_ctx def_sr_ctx ;;; new_ssl
   else if proto =? SOCK_DGRAM then
     choose_ctx def_dtls_sr_ctx ;;; new_ssl ;;; ssl_put SslCookieExchange ;;; mret_ tt
   else mret_ tt) ;;;
  o <- cmine m_left ;;
  (if kex_dh o then ssl_put (SslGroups "X25519:P-521:P-384:P-256:ffdhe2048") ;;; mret_ tt else mret_ tt) ;;;
  ssl_put (SslCipherList (cipher_filter o)) ;;;
  load_preferred ;;;
  cset (mput_server true) ;;;
  (if no_tickets o then ssl_put SslNoSession ;;; ssl_put SslNoTicket ;;; mret_ tt else mret_ tt) ;;;
  ssl_put SslMode ;;;
  fd <- cmine m_socket ;;
  ssl_put (SslSetFd fd) ;;;
  ssl_put SslCallbacks ;;;
  mret_ tt.

(** [~baseSSLCom]: the references of the pair that is preferred now. *)
Definition com_dtor : M cworld unit :=
  c <- cmine (fun c => c) ;;
  (if m_counted c then in_store (free_obj (pref_key c)) ;;; in_store (free_obj (pref_cert c)) else mret_ tt) ;;;
  free_ssl.

(** ** Checking the certificate of the server *)

Record mworld : Type := mkMworld { mw_me : mcom; mw_remote : option mcom; mw_store : store }.

Definition on_com {A} (m : M cworld A) : M mworld A := fun w =>
  match m (mkCworld (mw_me w) (mw_store w)) with
  | Ret a c => Ret a (mkMworld (com c) (mw_remote w) (cw_store c))
  | Throw e c => Throw e (mkMworld (com c) (mw_remote w) (cw_store c))
  | Undef => Undef
  end.
(** A call on the peer; there is one when it is made. *)
Definition on_remote {A} (m : M cworld A) : M mworld A := fun w =>
  match mw_remote w with
  | None => Undef
  | Some r =>
      match m (mkCworld r (mw_store w)) with
      | Ret a c => Ret a (mkMworld (mw_me w) (Some (com c)) (cw_store c))
      | Throw e c => Throw e (mkMworld (mw_me w) (Some (com c)) (cw_store c))
      | Undef => Undef
      end
  end.

Definition get_peer_certificate : M cworld (option Z) :=
  p <- cmine m_ssl ;;
  match p with Some p => in_store (lcall (peer_certificate p)) | None => undef end.

(** [baseSSLCom::check_cert]: whether there is a certificate. *)
Definition base_check_cert : M cworld bool :=
  peer <- get_peer_certificate ;;
  match peer with
  | None => mret_ false
  | Some _ => in_store (free_obj peer) ;;; cset (mput_status true) ;;; mret_ true
  end.

(** [print_cn]: [X509_NAME_get_text_by_NID] into a buffer of one byte less than there is. *)
Definition common_name (x : cert_fields x509_name x509_ext pubkey) : bytes :=
  match f_subject x with Some n => c_str (ztake (SSLCERTSTORE_BUFSIZE - 2) (name_cn n)) | None => [] end.

(** The names added so that a client accepts what it is shown. *)
Definition dns_name (sni : bytes) : M cworld bytes := in_store (format (text "DNS:" ++ c_str sni)).
Definition ip_name (host : bytes) : M cworld bytes := in_store (format (text "IP:" ++ c_str host)).

(** Not verified: self-signed, or, to have it replaced, with the name and the address. *)
Definition options_unverified : M cworld SpoofOptions :=
  c <- cmine (fun c => c) ;;
  if negb (m_replace c) then mret_ (mkSpoof (m_sni c) true [])
  else
    dns <- (if 0 <? zlen (m_sni c) then n <- dns_name (m_sni c) ;; mret_ [n] else mret_ []) ;;
    ip <- (match m_host c with Some h => n <- ip_name h ;; mret_ [n] | None => mret_ [] end) ;;
    mret_ (mkSpoof (m_sni c) false (dns ++ ip)).

(** Verified, but for another name. *)
Definition options_failed : M cworld SpoofOptions :=
  cset (fun c => mput_verify (flag_set (m_verify c) VRF_HOSTNAME_FAILED) c) ;;;
  c <- cmine (fun c => c) ;;
  if negb (m_replace c) then mret_ (mkSpoof (m_sni c) true [])
  else if 0 <? zlen (m_sni c) then n <- dns_name (m_sni c) ;; mret_ (mkSpoof (m_sni c) false [n])
  else match m_host c with
       | Some h => n <- ip_name h ;; mret_ (mkSpoof (m_sni c) false [n])
       | None => mret_ (mkSpoof (m_sni c) true [])
       end.

Definition options_verified (cert_ : option Z) : M cworld SpoofOptions :=
  p <- in_store (deref cert_) ;;
  x <- in_store (cert p) ;;
  c <- cmine (fun c => c) ;;
  match candidates_valid (m_sni c) (m_host c) (get_sans x ++ [text "DNS:" ++ common_name x]) with
  | inl e => throw e
  | inr (Some _) => mret_ (mkSpoof (m_sni c) false [])
  | inr None => options_failed
  end.

Definition spoof_options (cert_ : option Z) : M cworld SpoofOptions :=
  v <- cmine m_verify ;;
  if negb (v =? VRF_OK) then options_unverified else options_verified cert_.

(** The left side takes the certificate; one that waits for it starts its server. *)
Definition present (cert_ : option Z) (spo : SpoofOptions) : M mworld bool :=
  r <- on_remote (spoof_cert cert_ spo) ;;
  (if r : bool then
     on_remote
       (c <- cmine (fun c => c) ;;
        if m_waiting c && negb (m_upgraded c) then init_server_pref ;;; cset (mput_upgraded true)
        else mret_ tt)
   else mret_ tt) ;;;
  mret_ r.

Definition mitm_check_cert : M mworld bool :=
  r <- on_com base_check_cert ;;
  cert_ <- on_com get_peer_certificate ;;
  remote <- gets mw_remote ;;
  r <- (match remote with
        | None => mret_ r
        | Some _ =>
            on_remote (cset (mput_server true)) ;;;
            spo <- on_com (spoof_options cert_) ;;
            s <- gets (fun w => m_shortcut (mw_me w)) ;;
            if s : bool then mret_ r else present cert_ spo
        end) ;;
  on_com (in_store (free_obj cert_)) ;;;
  mret_ r.
End mitm.
