(* ===== verification/MitmProps.v ===== *)
(** * MitmProps: what the imitating com accepts and presents

    Which names of a certificate are taken for the one asked for, what the client is shown
    when they are not, and the certificate presented to clients of the same server. *)

From S2P Require Export Mitm CertProps.
From S2P Require Import Text TextProps.

(** ** The names *)

Lemma starts_with_spec p s : starts_with p s = true <-> exists r, s = p ++ r.
Proof.
  unfold starts_with. rewrite bool_decide_eq_true. split.
  - intros E. exists (drop (length p) s). rewrite <- E at 1. by rewrite take_drop.
  - intros [r ->]. by rewrite take_app_length.
Qed.

Lemma from_dot_spec s r : from_dot s = Some r <-> exists a b, s = a ++ 46 :: b /\ 46 ∉ a /\ r = 46 :: b.
Proof.
  induction s as [|c s IH]; cbn [from_dot].
  - split; [done|]. intros (a & b & E & _). by destruct a.
  - destruct (Z.eqb_spec c 46) as [->|Hc].
    + split.
      * intros [= <-]. exists [], s. split; [done|]. split; [apply not_elem_of_nil|done].
      * intros (a & b & E & Ha & ->). destruct a as [|x a]; cbn in E; [by injection E as ->|].
        injection E as <- _. by destruct Ha; left.
    + rewrite IH. split.
      * intros (a & b & -> & Ha & ->). exists (c :: a), b. split; [done|]. split; [|done].
        apply not_elem_of_cons. done.
      * intros (a & b & E & Ha & ->). destruct a as [|x a]; cbn in E; [congruence|]. injection E as <- ->.
        apply not_elem_of_cons in Ha as [_ Ha]. by exists a, b.
Qed.

(** A certificate name, already in lower case, that is taken for the one asked for: equal to
    it, letter case included, or a wildcard for all but its first label. *)
Definition name_covers (sni name : bytes) : Prop :=
  (exists r, name = 42 :: 46 :: r) /\
    (exists a b, sni = a ++ 46 :: b /\ 46 ∉ a /\ name = string_tolower (42 :: 46 :: b)) \/
  (~ (exists r, name = 42 :: 46 :: r)) /\ sni = name.

(** An entry that validates: a DNS name when a name was asked for, else an address that is,
    byte by byte, the text of the host. *)
Definition entry_covers (sni : bytes) (host : option bytes) (item : bytes) : Prop :=
  sni <> [] /\ (exists d, d <> [] /\ item = text "DNS:" ++ d /\ name_covers sni (string_tolower d)) \/
  sni = [] /\ exists h, h <> [] /\ item = text "IP:" ++ h /\ host = Some h.

Lemma zlen_pos_nonempty (s : bytes) : (0 <? zlen s) = true <-> s <> [].
Proof.
  destruct s as [|c s]; [done|]. rewrite zlen_cons. pose proof (zlen_nonneg s).
  rewrite Z.ltb_lt. split; [done|lia].
Qed.

(** A prefix and something after it. *)
Lemma tagged_spec (p s : bytes) n : zlen p = n ->
  (n <? zlen s) && starts_with p s = true <-> exists d, d <> [] /\ s = p ++ d.
Proof.
  intros Hp. rewrite andb_true_iff, starts_with_spec, Z.ltb_lt. split.
  - intros [Hl [d ->]]. exists d. split; [|done]. rewrite zlen_app in Hl.
    apply zlen_pos_nonempty, Z.ltb_lt. lia.
  - intros (d & Hd & ->). apply zlen_pos_nonempty in Hd. rewrite Z.ltb_lt in Hd. rewrite zlen_app.
    split; [lia|eauto].
Qed.

Lemma sni_wild_spec sni name : (exists r, name = 42 :: 46 :: r) ->
  sni_wild sni = name <-> exists a b, sni = a ++ 46 :: b /\ 46 ∉ a /\ name = string_tolower (42 :: 46 :: b).
Proof.
  intros [r ->]. unfold sni_wild. destruct (from_dot sni) as [d|] eqn:E.
  - pose proof (proj1 (from_dot_spec _ _) E) as (a & b & Es & Ha & ->). split.
    + intros <-. exists a, b. done.
    + intros (a' & b' & Es' & Ha' & ->).
      assert (from_dot sni = Some (46 :: b')) as E' by (apply from_dot_spec; eauto). congruence.
  - split; [done|]. intros (a & b & Es & Ha & _).
    assert (from_dot sni = Some (46 :: b)) as E' by (apply from_dot_spec; eauto). congruence.
Qed.

Lemma item_valid_spec sni host item : is_Some (item_valid sni host item) <-> entry_covers sni host item.
Proof.
  unfold item_valid, entry_covers. destruct (0 <? zlen sni) eqn:Es.
  - apply zlen_pos_nonempty in Es. destruct ((4 <? zlen item) && starts_with (text "DNS:") item) eqn:Ei.
    + pose proof (proj1 (tagged_spec (text "DNS:") item 4 eq_refl) Ei) as (d & Hd & ->).
      change (zdrop 4 (text "DNS:" ++ d)) with d. cbv zeta.
      assert (is_Some (if bool_decide ((if starts_with (text "*.") (string_tolower d) then sni_wild sni else sni)
                = string_tolower d) then Some (text "DNS:" ++ string_tolower d) else None) <->
              name_covers sni (string_tolower d)) as ->.
      { unfold name_covers. destruct (starts_with (text "*.") (string_tolower d)) eqn:Ew.
        - assert (exists r, string_tolower d = 42 :: 46 :: r) as Hr by exact (proj1 (starts_with_spec _ _) Ew).
          rewrite <- (sni_wild_spec sni _ Hr). case_bool_decide as Eq; split; try (by intros [? ?]).
          + intros _. left. done.
          + intros _. by eexists.
          + intros [[_ ?]|[Hn _]]; [done|]. by destruct Hn.
        - assert (~ exists r, string_tolower d = 42 :: 46 :: r) as Hr.
          { intros Hr. apply (starts_with_spec (text "*.")) in Hr. congruence. }
          case_bool_decide as Eq; split; try (by intros [? ?]).
          + intros _. right. done.
          + intros _. by eexists.
          + intros [[? _]|[_ ?]]; done. }
      split.
      * intros Hn. left. split; [done|]. by exists d.
      * intros [[_ (d' & _ & E & Hn)]|[? _]]; [|done]. apply app_inv_head in E. by subst.
    + split; [by intros [? ?]|]. intros [[_ (d & Hd & -> & _)]|[? _]]; [|done].
      rewrite (proj2 (tagged_spec (text "DNS:") _ 4 eq_refl)) in Ei by eauto. done.
  - assert (sni = []) as ->. { destruct sni; [done|]. by rewrite (proj2 (zlen_pos_nonempty _)) in Es. }
    destruct ((3 <? zlen item) && starts_with (text "IP:") item) eqn:Ei.
    + pose proof (proj1 (tagged_spec (text "IP:") item 3 eq_refl) Ei) as (d & Hd & ->).
      change (zdrop 3 (text "IP:" ++ d)) with d. cbv zeta. case_bool_decide as Eh; split; try (by intros [? ?]).
      * intros _. right. split; [done|]. by exists d.
      * intros _. by eexists.
      * intros [[? _]|[_ (h & _ & E & Hh)]]; [done|]. apply app_inv_head in E. by subst.
    + split; [by intros [? ?]|]. intros [[? _]|[_ (d & Hd & -> & _)]]; [done|].
      rewrite (proj2 (tagged_spec (text "IP:") _ 3 eq_refl)) in Ei by eauto. done.
Qed.

(** The outcome of a search: nothing thrown, and a find exactly when [P]. *)
Definition decides (r : exn + option bytes) (P : Prop) : Prop :=
  match r with inl _ => False | inr (Some _) => P | inr None => ~ P end.

Lemma items_valid_spec sni host items : Forall (fun i => zlen i < 2 ^ 62) items ->
  decides (items_valid sni host items) (exists i, i ∈ items /\ entry_covers sni host (drop_blanks i)).
Proof.
  induction 1 as [|i items Hi _ IH]; cbn [items_valid].
  - intros (i & Hi & _). by apply elem_of_nil in Hi.
  - rewrite trim_keeps_trailing by done. pose proof (item_valid_spec sni host (drop_blanks i)) as Hs.
    destruct (item_valid sni host (drop_blanks i)) as [v|].
    + exists i. split; [left|]. apply Hs. eauto.
    + destruct (items_valid sni host items) as [e|[v|]]; cbn in *; [done| |].
      * destruct IH as (j & Hj & Hc). exists j. split; [by right|done].
      * intros (j & [->|Hj]%elem_of_cons & Hc); [apply Hs in Hc as [? ?]; done|]. eauto.
Qed.

Lemma split_loop_bound d s : forall tok n, zlen tok + zlen s <= n -> Forall (fun i => zlen i <= n) (split_loop d s tok).
Proof.
  induction s as [|c s IH]; intros tok n Hn; cbn [split_loop].
  - destruct tok; repeat constructor. pose proof (zlen_nonneg (@nil Z)). lia.
  - rewrite zlen_cons in Hn. pose proof (zlen_nonneg tok). pose proof (zlen_nonneg s). case_if.
    + constructor; [lia|]. apply IH. rewrite zlen_nil. lia.
    + apply IH. rewrite zlen_app, zlen_cons. pose proof (zlen_nonneg (@nil Z)). zlen_lia.
Qed.

(** The check of the name decides what a candidate covers. *)
Lemma hostname_decides sni host hostnames :
  Forall (fun c => zlen c < 2 ^ 62) hostnames ->
  decides (candidates_valid sni host hostnames)
    (exists c i, c ∈ hostnames /\ i ∈ string_split c 44 /\ entry_covers sni host (drop_blanks i)).
Proof.
  induction 1 as [|c hostnames Hc _ IH]; cbn [candidates_valid].
  - intros (c & _ & Hc & _). by apply elem_of_nil in Hc.
  - pose proof (items_valid_spec sni host (string_split c 44)) as Hi.
    destruct (items_valid sni host (string_split c 44)) as [e|[v|]].
    + destruct Hi. eapply Forall_impl; [apply (split_loop_bound 44 c [] (zlen c))|intros i Hl; cbn in Hl; lia].
      rewrite zlen_nil. lia.
    + cbn in *. destruct Hi as (i & Hi & Hv).
      { eapply Forall_impl; [apply (split_loop_bound 44 c [] (zlen c))|intros i Hl; cbn in Hl; lia].
        rewrite zlen_nil. lia. }
      exists c, i. split; [left|]. done.
    + cbn in Hi. destruct (candidates_valid sni host hostnames) as [e|[v|]]; cbn in *; [done| |].
      * destruct IH as (c' & i & H1 & H2). exists c', i. split; [by right|done].
      * intros (c' & i & [->|H1]%elem_of_cons & H2 & H3); [|apply IH; eauto].
        apply Hi; [|eauto].
        eapply Forall_impl; [apply (split_loop_bound 44 c [] (zlen c))|intros j Hl; cbn in Hl; lia].
        rewrite zlen_nil. lia.
Qed.

(** [C6] The check of the name, as [check_cert] makes it on a verified certificate: it passes
    exactly when some candidate (an alternative name, or the common name), cut at its
    commas and without leading blanks, is a DNS entry covering the name asked for, or, when
    no name was asked for, an IP entry whose bytes are the text of the host. *)
Theorem hostname_check_exact sni host hostnames :
  Forall (fun c => zlen c < 2 ^ 62) hostnames ->
  decides (candidates_valid sni host hostnames)
    (exists c i, c ∈ hostnames /\ i ∈ string_split c 44 /\ entry_covers sni host (drop_blanks i)).
Proof. apply hostname_decides. Qed.

Lemma hostname_check_exact_witness :
  exists c i, c ∈ [text "IP:abcd"; text "DNS:other, DNS:*.Example.ORG"] /\ i ∈ string_split c 44 /\
    entry_covers (text "www.example.org") None (drop_blanks i).
Proof.
  exact (hostname_check_exact (text "www.example.org") None [text "IP:abcd"; text "DNS:other, DNS:*.Example.ORG"]
           ltac:(repeat constructor; vm_compute; reflexivity)).
Defined.

Lemma decides_yes r (P : Prop) : decides r P -> P -> exists v, r = inr (Some v).
Proof. destruct r as [e|[v|]]; cbn; [done|eauto|done]. Qed.
Lemma decides_no r (P : Prop) : decides r P -> ~ P -> r = inr None.
Proof. by destruct r as [e|[v|]]. Qed.

Lemma tolower_idemp s : string_tolower (string_tolower s) = string_tolower s.
Proof.
  unfold string_tolower. rewrite <- list_fmap_compose. apply list_fmap_ext. intros _ c _. unfold compose, tolower.
  destruct ((65 <=? c) && (c <=? 90)) eqn:E; [|by rewrite E]. reflect_bools.
  by rewrite (proj2 (Z.leb_gt (c + 32) 90)), andb_false_r by lia.
Qed.

(** A name asked for with a capital letter is not found among the full names of a
    certificate, not even when they hold it letter by letter: they are put to lower case,
    and the name is not. *)
Theorem capital_sni_rejected sni host hostnames :
  Forall (fun c => zlen c < 2 ^ 62) hostnames -> string_tolower sni <> sni ->
  (forall c i d, c ∈ hostnames -> i ∈ string_split c 44 -> drop_blanks i = text "DNS:" ++ d ->
     ~ exists r, string_tolower d = 42 :: 46 :: r) ->
  candidates_valid sni host hostnames = inr None.
Proof.
  intros HF Hs Hw. eapply decides_no; [by apply hostname_decides|].
  intros (c & i & Hc & Hi & [[_ (d & _ & Ed & Hn)]|[-> _]]); [|by apply Hs].
  destruct Hn as [[Hr _]|[_ ->]]; [by eapply Hw|]. apply Hs, tolower_idemp.
Qed.

(** One DNS name with a comma in it validates for the name after the comma. *)
Theorem comma_in_name_validates a victim host :
  44 ∉ a -> 44 ∉ victim -> victim <> [] -> string_tolower victim = victim ->
  ~ (exists r, victim = 42 :: 46 :: r) -> zlen a + zlen victim < 2 ^ 32 ->
  exists v, candidates_valid victim host [text "DNS:" ++ a ++ text ",DNS:" ++ victim] = inr (Some v).
Proof.
  intros Ha Hv Hne Hl Hw Hlen. eapply decides_yes.
  - apply hostname_decides. repeat constructor. rewrite !zlen_app.
    change (zlen (text "DNS:")) with 4. change (zlen (text ",DNS:")) with 5. lia.
  - eexists _, (text "DNS:" ++ victim). split; [left|]. split.
    + assert (string_split (string_csv [text "DNS:" ++ a; text "DNS:" ++ victim] 44) 44 =
                [text "DNS:" ++ a; text "DNS:" ++ victim]) as E.
      { apply split_csv_tokens; [|done]. repeat constructor; intros [Hx|Hx]%elem_of_app; try done; revert Hx; compute_done. }
      assert (text "DNS:" ++ a ++ text ",DNS:" ++ victim = string_csv [text "DNS:" ++ a; text "DNS:" ++ victim] 44) as ->
        by (cbn [string_csv]; by rewrite <- app_assoc).
      rewrite E. right. left.
    + left. split; [done|]. exists victim. split; [done|]. split; [done|]. right. rewrite Hl. done.
Qed.

(** Without a name asked for, an address is compared with the raw bytes of the
    certificate's: the four bytes of an address never match its text, which is longer, and
    sixteen bytes can hold the text of somebody else's. *)
Theorem ip_entries_are_raw :
  (forall host hostnames, 4 < zlen host ->
     Forall (fun c => exists v, c = text "IP:" ++ v /\ zlen v = 4) hostnames ->
     candidates_valid [] (Some host) hostnames = inr None) /\
  candidates_valid [] (Some (text "10.0.0.1")) [text "IP:10.0.0.1,AAAAAAA"] = inr (Some (text "IP:10.0.0.1")).
Proof.
  split; [|vm_compute; reflexivity]. intros host hostnames Hh HF. eapply decides_no.
  - apply hostname_decides. eapply Forall_impl; [exact HF|]. intros c (v & -> & Hv). rewrite zlen_app, Hv.
    change (zlen (text "IP:")) with 3. lia.
  - intros (c & i & Hc & Hi & [[Hs _]|[_ (h & Hne & Ei & [= ->])]]); [done|].
    destruct (proj1 (Forall_forall _ _) HF c Hc) as (v & -> & Hv).
    pose proof (split_loop_bound 44 (text "IP:" ++ v) [] 7) as Hb. rewrite zlen_app, Hv in Hb.
    change (zlen (text "IP:")) with 3 in Hb. specialize (Hb ltac:(rewrite zlen_nil; lia)).
    pose proof (proj1 (Forall_forall _ _) Hb i Hi) as Hl. cbn in Hl.
    assert (zlen (drop_blanks i) <= zlen i) as Hd.
    { clear. induction i as [|c s IH]; [done|]. cbn. rewrite zlen_cons. case_if; [lia|]. rewrite zlen_cons. lia. }
    rewrite Ei, zlen_app in Hd. change (zlen (text "IP:")) with 3 in Hd. lia.
Qed.

(** ** What is presented *)

Section present.
Context `{SslObj}.
Implicit Types (w : cworld).

(** The policy: what is made for a client, by what the check found. *)
Definition policy (c : mcom) (name_ok : bool) : SpoofOptions :=
  let dns := text "DNS:" ++ c_str (m_sni c) in
  let ip h := text "IP:" ++ c_str h in
  let asked := 0 <? zlen (m_sni c) in
  if negb (m_verify c =? VRF_OK) then
    if m_replace c then mkSpoof (m_sni c) false ((if asked then [dns] else []) ++ from_option (fun h => [ip h]) [] (m_host c))
    else mkSpoof (m_sni c) true []
  else if name_ok then mkSpoof (m_sni c) false []
  else if negb (m_replace c) then mkSpoof (m_sni c) true []
  else if asked then mkSpoof (m_sni c) false [dns]
  else match m_host c with Some h => mkSpoof (m_sni c) false [ip h] | None => mkSpoof (m_sni c) true [] end.

Hypothesis Hpool : forall n, pool_gives n = true.

Lemma in_store_ret {A} (m : M store A) w a s :
  m (cw_store w) = Ret a s -> in_store m w = Ret a (mkCworld (com w) s).
Proof. intros E. unfold in_store. by rewrite E. Qed.

Lemma named tag s w : zlen tag <= 4 -> zlen s < 10000 ->
  in_store (format (tag ++ c_str s)) w = Ret (tag ++ c_str s) w.
Proof.
  intros Ht Hs. rewrite (in_store_ret _ _ (tag ++ c_str s) (cw_store w)); [by destruct w|].
  apply format_ret; [done|]. rewrite zlen_app.
  assert (zlen (c_str s) <= zlen s); [|lia].
  clear. induction s as [|c s IH]; [done|]. cbn. rewrite zlen_cons. pose proof (zlen_nonneg s).
  case_if; [rewrite zlen_nil; lia|]. rewrite zlen_cons. lia.
Qed.

Definition small (c : mcom) : Prop := zlen (m_sni c) < 10000 /\ forall h, m_host c = Some h -> zlen h < 10000.

Lemma unverified_ret w : small (com w) -> m_verify (com w) <> VRF_OK ->
  options_unverified w = Ret (policy (com w) false) w.
Proof.
  intros [Hs Hh] Hv. unfold options_unverified, cmine, policy. rewrite bind_gets, (proj2 (Z.eqb_neq _ _) Hv).
  destruct (m_replace (com w)); cbn [negb]; [|done].
  assert ((if 0 <? zlen (m_sni (com w)) then n <- dns_name (m_sni (com w)) ;; mret_ [n] else mret_ []) w =
            Ret (if 0 <? zlen (m_sni (com w)) then [text "DNS:" ++ c_str (m_sni (com w))] else []) w) as E1.
  { case_if; [|done]. unfold dns_name. by rewrite (bind_ret _ _ _ _ _ (named (text "DNS:") _ w ltac:(done) Hs)). }
  rewrite (bind_ret _ _ _ _ _ E1).
  destruct (m_host (com w)) as [h|]; [|by rewrite bind_pure].
  rewrite bind_assoc. unfold ip_name. rewrite (bind_ret _ _ _ _ _ (named (text "IP:") h w ltac:(done) (Hh h eq_refl))).
  by rewrite bind_pure.
Qed.

Lemma failed_ret w : small (com w) -> m_verify (com w) = VRF_OK ->
  options_failed w =
    Ret (policy (com w) false) (mkCworld (mput_verify (flag_set (m_verify (com w)) VRF_HOSTNAME_FAILED) (com w)) (cw_store w)).
Proof.
  intros [Hs Hh] Hv. unfold options_failed, cset, policy. rewrite bind_modify. unfold cmine. rewrite bind_gets.
  rewrite Hv. cbn [negb Z.eqb VRF_OK Pos.eqb com m_replace m_sni m_host mput_verify].
  destruct (m_replace (com w)); cbn [negb]; [|done]. set (w1 := mkCworld _ _). case_if.
  - unfold dns_name. by rewrite (bind_ret _ _ _ _ _ (named (text "DNS:") _ w1 ltac:(done) Hs)).
  - destruct (m_host (com w)) as [h|]; [|done]. unfold ip_name.
    by rewrite (bind_ret _ _ _ _ _ (named (text "IP:") h w1 ltac:(done) (Hh h eq_refl))).
Qed.

(** The options of the imitation. *)
Lemma options_policy p w :
  small (com w) -> 0 < refs p (lib_ (cw_store w)) ->
  let x := fields p (lib_ (cw_store w)) in
  let hostnames := get_sans x ++ [text "DNS:" ++ common_name x] in
  Forall (fun c => zlen c < 2 ^ 62) hostnames ->
  exists name_ok : bool,
    (name_ok = true <-> exists c i, c ∈ hostnames /\ i ∈ string_split c 44 /\
                          entry_covers (m_sni (com w)) (m_host (com w)) (drop_blanks i)) /\
    spoof_options (Some p) w =
      Ret (policy (com w) name_ok)
        (mkCworld (if (m_verify (com w) =? VRF_OK) && negb name_ok
                   then mput_verify (flag_set (m_verify (com w)) VRF_HOSTNAME_FAILED) (com w) else com w) (cw_store w)).
Proof.
  intros Hsm Hr x hostnames HF.
  pose proof (hostname_decides (m_sni (com w)) (m_host (com w)) hostnames HF) as Hd.
  set (P := exists c i, _) in *.
  assert (exists name_ok : bool, (name_ok = true <-> P) /\
            exists v, candidates_valid (m_sni (com w)) (m_host (com w)) hostnames = inr v /\
              name_ok = bool_decide (is_Some v)) as (name_ok & HP & v & Ev & Hn).
  { destruct (candidates_valid _ _ _) as [e|[v|]]; [done|exists true|exists false]; (split; [naive_solver|eauto]). }
  exists name_ok. split; [exact HP|]. unfold spoof_options, cmine at 1. rewrite bind_gets.
  destruct (Z.eqb_spec (m_verify (com w)) VRF_OK) as [Eq|Hne]; cbn [negb andb].
  - unfold options_verified. 
    assert (deref (Some p) (cw_store w) = Ret p (cw_store w)) as E1.
    { unfold deref, lask. rewrite bind_gets. by rewrite (proj2 (Z.leb_gt _ _)) by lia. }
    rewrite (bind_ret _ _ w p w) by (rewrite (in_store_ret _ _ _ _ E1); by destruct w).
    rewrite (bind_ret _ _ w x w) by (unfold in_store, cert, lask, gets; by destruct w).
    unfold cmine. rewrite bind_gets. fold hostnames. rewrite Ev, Hn. destruct v as [v|]; cbn.
    + unfold policy. rewrite Eq. by destruct w.
    + by apply failed_ret.
  - rewrite (unverified_ret w Hsm Hne). unfold policy. rewrite (proj2 (Z.eqb_neq _ _) Hne). by destruct w.
Qed.


(** ** One certificate per server *)

(** Making a certificate leaves the caches alone. *)
Section caches.
Variables (m0 c0 : cache bytes chain_ctx).
Definition same_caches (s : store) : Prop := cert_mitm_cache (fac s) = m0 /\ cert_custom_cache (fac s) = c0.

Lemma keeps_lib {A} (f : clib -> A * clib) : upholds same_caches (lcall f).
Proof. intros s Hs. unfold lcall. by destruct (f (lib_ s)). Qed.
Lemma keeps_ldo f : upholds same_caches (ldo f).
Proof. apply upholds_modify. done. Qed.
Lemma keeps_ask {A} (f : clib -> A) : upholds same_caches (lask f).
Proof. apply upholds_gets. Qed.
Lemma keeps_fget {A} (f : factory -> A) : upholds same_caches (fget f).
Proof. apply upholds_gets. Qed.
Lemma keeps_deref x : upholds same_caches (deref x).
Proof.
  unfold deref. destruct x; [|apply upholds_undef]. apply upholds_bind; [apply keeps_ask|]. intros r.
  case_if; [apply upholds_undef|apply upholds_ret].
Qed.
Lemma keeps_free x : upholds same_caches (free_obj x).
Proof.
  unfold free_obj. destruct x; [|apply upholds_ret]. apply upholds_bind; [apply keeps_ask|]. intros r.
  case_if; [apply upholds_undef|apply keeps_ldo].
Qed.
End caches.

Ltac caches :=
  repeat first
    [ apply upholds_ret | apply upholds_undef | apply keeps_lib | apply keeps_ldo | apply keeps_ask | apply keeps_fget
    | apply keeps_deref | apply keeps_free | apply upholds_bind; [|intros ?] | case_match ].

Lemma cdo_all_caches m0 c0 x l : upholds (same_caches m0 c0) (cdo_all x l).
Proof. induction l as [|s l IH]; cbn [cdo_all]; unfold cdo; caches. exact IH. Qed.
Lemma add_extensions_caches m0 c0 l x : upholds (same_caches m0 c0) (add_extensions l x).
Proof.
  induction l as [|[n v] l IH]; cbn [add_extensions]; [caches|].
  unfold cdo. apply upholds_bind; [caches|intros ?]. apply upholds_bind; [caches|intros ?].
  apply upholds_bind; [caches|intros ?]. exact IH.
Qed.

Lemma spoof_caches m0 c0 x self l : upholds (same_caches m0 c0) (spoof x self l).
Proof.
  assert (forall y a n i k r, upholds (same_caches m0 c0) (fill_certificate y a n i k r)) as Hf.
  { intros. unfold fill_certificate, cdo, cert. caches; try apply cdo_all_caches; apply add_extensions_caches. }
  assert (upholds (same_caches m0 c0) (create_csr_from x self l)) as Hc.
  { unfold create_csr_from, sign_csr, cert, cdo. caches. }
  unfold spoof, cert. apply upholds_bind; [by apply upholds_modify|intros _].
  apply upholds_bind; [exact Hc|intros copy]. caches; apply Hf.
Qed.

(** A made chain names a certificate and the key of the server certificate. *)
Lemma spoof_shape x self l s e s' : spoof x self l s = Ret (Some e) s' ->
  is_Some (c_cert (chain e)) /\ c_ctx e = None.
Proof.
  intros E. unfold spoof in E. destruct (bind_inv _ _ _ _ _ E) as (? & s1 & _ & E1). clear E.
  destruct (bind_inv _ _ _ _ _ E1) as (copy & s2 & _ & E2). clear E1. destruct copy as [copy|]; [|done].
  destruct (bind_inv _ _ _ _ _ E2) as (p & s3 & _ & E3). clear E2.
  destruct (bind_inv _ _ _ _ _ E3) as (req & s4 & _ & E4). clear E3.
  destruct (bind_inv _ _ _ _ _ E4) as (ca_cert & s5 & _ & E5). clear E4.
  destruct (bind_inv _ _ _ _ _ E5) as (ca_p & s6 & _ & E6). clear E5.
  destruct (bind_inv _ _ _ _ _ E6) as (ca_x & s7 & _ & E7). clear E6.
  destruct (negb _); [done|]. destruct p as [p|]; [|done].
  destruct (bind_inv _ _ _ _ _ E7) as (r & s8 & _ & E8). clear E7.
  destruct (bind_inv _ _ _ _ _ E8) as (? & s9 & _ & E9). clear E8.
  destruct (bind_inv _ _ _ _ _ E9) as (key & s10 & _ & E10). unfold mret_ in E10.
  destruct r; [|done]. injection E10 as <- _. split; [by eexists|done].
Qed.

Lemma destroy_entries_caches m0 c0 l : upholds (same_caches m0 c0) (destroy_entries l).
Proof.
  assert (forall l, upholds (same_caches m0 c0) (free_all l)) as Hf.
  { clear. induction l as [|q l IH]; cbn [free_all]; caches. exact IH. }
  induction l as [|e l IH]; cbn [destroy_entries]; unfold entry_reset, release_objects; caches; [apply Hf|exact IH].
Qed.

(** What is found once [add_mitm] has answered. *)
Lemma add_mitm_found key e s b s' :
  plain (fac s) -> add_mitm key e s = Ret b s' -> blocks (cert_mitm_cache (fac s)) !! key = None ->
  is_Some (c_key (chain e)) -> is_Some (c_cert (chain e)) ->
  plain (fac s') /\ b_ptr <$> blocks (cert_mitm_cache (fac s')) !! key = Some e.
Proof.
  intros Hp E Hk [k Ek] [x Ex]. unfold add_mitm, add_to_cache in E. rewrite Ek, Ex in E.
  rewrite (bind_ret _ _ _ _ _ (find_ret MITM key s Hp)) in E. cbn [cache_of] in E. rewrite Hk in E.
  cbn [fmap option_fmap option_map] in E.
  destruct (bind_inv _ _ _ _ _ E) as (r & s1 & E1 & E2). unfold mret_ in E2. injection E2 as _ <-.
  destruct (set_fifo_new key e (cert_mitm_cache (fac s))) as (c' & m & Es & _ & Hb & Hpc); [apply Hp|done|].
  unfold with_cache, fget in E1. rewrite bind_gets in E1. cbn [cache_of] in E1. rewrite Es in E1.
  unfold fput in E1. rewrite bind_modify in E1. cbn [put_cache] in E1.
  destruct (bind_inv _ _ _ _ _ E1) as ([] & s2 & E3 & E4). unfold mret_ in E4. injection E4 as _ <-.
  assert (same_caches c' (cert_custom_cache (fac s)) (mkStore (put_mitm c' (fac s)) (lib_ s))) as Hsame by done.
  pose proof (upholds_out _ _ _ _ _ (destroy_entries_caches c' (cert_custom_cache (fac s)) _) Hsame E3)
    as [Hm Hc]. unfold plain. rewrite Hm, Hc. split; [split; [done|apply Hp]|].
  by rewrite Hb, lookup_insert_eq.
Qed.

Lemma find_mitm_in key w : plain (fac (cw_store w)) ->
  in_store (find_mitm key) w = Ret (b_ptr <$> blocks (cert_mitm_cache (fac (cw_store w))) !! key) w.
Proof.
  intros Hp. unfold find_mitm, find_cert. rewrite (in_store_ret _ w _ _ (find_ret MITM key _ Hp)). by destruct w.
Qed.

Lemma prefer_ret e w : exists c', prefer e w = Ret tt (mkCworld c' (cw_store w)) /\
  pref_cert c' = c_cert (chain e) /\ pref_key c' = c_key (chain e).
Proof. unfold prefer, cset. rewrite bind_modify. destruct (c_ctx e); eexists; done. Qed.

Lemma key_in x spo key w : make_store_key x spo (cw_store w) = Ret key (cw_store w) ->
  in_store (make_store_key x spo) w = Ret key w.
Proof. intros E. rewrite (in_store_ret _ _ _ _ E). by destruct w. Qed.

(** A cached entry is presented as it is. *)
Lemma use_cached x spo key e w :
  plain (fac (cw_store w)) -> make_store_key x spo (cw_store w) = Ret key (cw_store w) ->
  b_ptr <$> blocks (cert_mitm_cache (fac (cw_store w))) !! key = Some e ->
  exists c', use_cert_mitm x spo w = Ret true (mkCworld c' (cw_store w)) /\
    pref_cert c' = c_cert (chain e) /\ pref_key c' = c_key (chain e).
Proof.
  intros Hp K He. unfold use_cert_mitm. rewrite (bind_ret _ _ _ _ _ (key_in _ _ _ _ K)).
  rewrite (bind_ret _ _ _ _ _ (find_mitm_in key w Hp)), He.
  destruct (prefer_ret e w) as (c' & E & Hc). rewrite (bind_ret _ _ _ _ _ E). by exists c'.
Qed.

(** Making one caches what is presented. *)
Lemma use_made x spo key w w1 :
  plain (fac (cw_store w)) -> make_store_key x spo (cw_store w) = Ret key (cw_store w) ->
  blocks (cert_mitm_cache (fac (cw_store w))) !! key = None -> use_cert_mitm x spo w = Ret true w1 ->
  exists e, plain (fac (cw_store w1)) /\ b_ptr <$> blocks (cert_mitm_cache (fac (cw_store w1))) !! key = Some e /\
    pref_cert (com w1) = c_cert (chain e) /\ pref_key (com w1) = c_key (chain e).
Proof.
  intros Hp K Hn E. unfold use_cert_mitm in E. rewrite (bind_ret _ _ _ _ _ (key_in _ _ _ _ K)) in E.
  rewrite (bind_ret _ _ _ _ _ (find_mitm_in key w Hp)), Hn in E. cbn [fmap option_fmap option_map] in E.
  destruct (bind_inv _ _ _ _ _ E) as (sr & wa & Ea & Eb). clear E. unfold in_store in Ea.
  destruct (spoof x _ _ (cw_store w)) as [r s|?|] eqn:Es; [|done..]. injection Ea as <- <-.
  assert (same_caches (cert_mitm_cache (fac (cw_store w))) (cert_custom_cache (fac (cw_store w))) (cw_store w))
    as Hsame by done.
  pose proof (upholds_out _ _ _ _ _ (spoof_caches _ _ _ _ _) Hsame Es) as [Hm Hc].
  destruct r as [e|]; [|done]. exists e.
  destruct (prefer_ret e (mkCworld (com w) s)) as (c' & Ep & Xc & Kc). rewrite (bind_ret _ _ _ _ _ Ep) in Eb.
  cbn [cw_store] in Eb. destruct (bind_inv _ _ _ _ _ Eb) as ([] & wd & Ed & Ef). clear Eb. unfold in_store in Ed.
  cbn [cw_store com] in Ed. destruct (ref_obj _ s) as [[] sd|?|] eqn:Er; [|done..]. injection Ed as <-.
  assert (is_Some (c_key (chain e)) /\ fac sd = fac s) as [Hke Hfd].
  { unfold ref_obj in Er. destruct (c_key (chain e)) as [kk|]; [|done]. split; [by eexists|].
    unfold lask in Er. rewrite bind_gets in Er. case_if_in Er; [done|]. unfold ldo in Er. by injection Er as <-. }
  destruct (bind_inv _ _ _ _ _ Ef) as (b & we & Eg & Eh). unfold mret_ in Eh. injection Eh as <-.
  unfold in_store in Eg. cbn [cw_store com] in Eg. destruct (add_mitm key e sd) as [bb se|?|] eqn:Eadd; [|done..].
  injection Eg as _ <-. cbn [com cw_store]. destruct (spoof_shape _ _ _ _ _ _ Es) as [Hxe _].
  destruct (add_mitm_found key e sd bb se) as [Hp1 Hf1]; [|exact Eadd| |done|done|done].
  - rewrite Hfd. unfold plain. rewrite Hm, Hc. exact Hp.
  - by rewrite Hfd, Hm.
Qed.

(** [C16] Clients of servers with the same key are shown the same certificate: once one com
    was given a certificate under a key, another com asking with a certificate and options
    of the same key gets the very same pair, nothing is made for it, and the store is left
    as it was. Whatever happened to the store in between, as long as the entry of the key was not
    evicted, erased or replaced; the cache of made certificates is first-in-first-out, as the
    factory makes it. *)
Theorem one_certificate_per_key x1 spo1 x2 spo2 key w w1 w2 :
  plain (fac (cw_store w)) ->
  make_store_key x1 spo1 (cw_store w) = Ret key (cw_store w) ->
  use_cert_mitm x1 spo1 w = Ret true w1 ->
  plain (fac (cw_store w2)) ->
  b_ptr <$> blocks (cert_mitm_cache (fac (cw_store w2))) !! key =
    b_ptr <$> blocks (cert_mitm_cache (fac (cw_store w1))) !! key ->
  make_store_key x2 spo2 (cw_store w2) = Ret key (cw_store w2) ->
  exists c', use_cert_mitm x2 spo2 w2 = Ret true (mkCworld c' (cw_store w2)) /\
    pref_cert c' = pref_cert (com w1) /\ pref_key c' = pref_key (com w1).
Proof.
  intros Hp K1 E Hp2 Hkept K2.
  assert (exists e, b_ptr <$> blocks (cert_mitm_cache (fac (cw_store w1))) !! key = Some e /\
            pref_cert (com w1) = c_cert (chain e) /\ pref_key (com w1) = c_key (chain e)) as (e & He & -> & ->).
  { destruct (blocks (cert_mitm_cache (fac (cw_store w))) !! key) as [b|] eqn:Eb.
    - destruct (use_cached x1 spo1 key (b_ptr b) w Hp K1) as (c' & E' & Hc); [by rewrite Eb|].
      rewrite E in E'. injection E' as ->. exists (b_ptr b). split; [cbn; by rewrite Eb|done].
    - destruct (use_made _ _ _ _ _ Hp K1 Eb E) as (e & _ & ?). by exists e. }
  apply (use_cached x2 spo2 key e w2 Hp2 K2). by rewrite Hkept.
Qed.
End present.
