(* ===== verification/CertSim.v ===== *)
(** * CertSim: a library the theorems on the certificate store are evaluated on

    Objects are numbers with a reference count and, for certificates, their fields; names
    are bytes, an extension is its kind and its names, every setter succeeds. *)

From S2P Require Export MitmProps.
From S2P Require Import Text.

Definition sim_ext : Type := (Z * option (list (option (Z * bytes))))%type.
Record objects : Type := mkObjects {
  o_next : Z;
  o_refs : gmap Z Z;
  o_fields : gmap Z (cert_fields bytes sim_ext Z)
}.

(** No object has a number from [o_next] on. *)
Definition o_count (p : Z) (l : objects) : Z := if p <? o_next l then default 0 (o_refs l !! p) else 0.
Definition o_get (p : Z) (l : objects) : cert_fields bytes sim_ext Z := default no_fields (o_fields l !! p).
Definition o_ref (n : Z) (p : Z) (l : objects) : objects :=
  mkObjects (o_next l) (<[p := o_count p l + n]> (o_refs l)) (o_fields l).
Definition o_put (p : Z) (c : cert_fields bytes sim_ext Z) (l : objects) : objects :=
  mkObjects (o_next l) (o_refs l) (<[p := c]> (o_fields l)).
Definition o_new (l : objects) : Z * objects :=
  let p := o_next l in (p, mkObjects (p + 1) (<[p := 1]> (o_refs l)) (<[p := no_fields]> (o_fields l))).

#[local] Arguments o_new : simpl never.
#[local] Arguments o_ref : simpl never.
#[local] Arguments o_put : simpl never.

Definition sim_names (v : bytes) : list (option (Z * bytes)) :=
  (fun s => Some (GEN_DNS, zdrop 4 s)) <$> string_split v 44.

#[export] Instance sim_certs : CertLib := {|
  x509_name := bytes;
  x509_ext := sim_ext;
  pubkey := Z;
  clib := objects;
  refs := o_count;
  obj_free := o_ref (-1);
  up_ref := o_ref 1;
  X509_new l := let '(p, l) := o_new l in (Some p, l);
  X509_REQ_new l := let '(p, l) := o_new l in (Some p, l);
  X509_NAME_new _ := true;
  fields := o_get;
  cert_do p s l := (true, o_put p (apply_set s (o_get p l)) l);
  name_parts n := [n];
  name_cn n := n;
  ext_nid e := Some (fst e);
  ext_names := snd;
  EXT_conf_nid nid v := match v with [] => None | _ => Some (nid, Some (sim_names v)) end;
  EXT_conf _ _ name _ _ := Some (zlen name, None);
  SSL_CTX_new _ l := let '(p, l) := o_new l in (Some p, l);
  ctx_do _ _ l := (1, l);
  SSL_CTX_check_private_key _ _ := true;
  X509_STORE_new := o_new;
  fopen _ _ := Some (text "PEM", false);
  PEM_read_X509 _ l := let '(p, l) := o_new l in (Some p, l);
  PEM_read_PrivateKey _ _ l := let '(p, l) := o_new l in (Some p, l);
  dir_exists _ _ := true;
  create_directories _ l := (true, l);
  directory _ _ := Some [];
  file_exists _ _ := true;
  now _ := 1000;
  pool_gives _ := true
|}.

Lemma o_count_ref n p q l : 0 < o_count p l -> o_count q (o_ref n p l) = o_count q l + if decide (q = p) then n else 0.
Proof.
  unfold o_count, o_ref. cbn. intros Hp. destruct (decide (q = p)) as [->|Hne].
  - rewrite lookup_insert_eq. unfold o_count. destruct (p <? o_next l); [done|lia].
  - rewrite lookup_insert_ne by congruence. lia.
Qed.
Lemma o_count_other n p q l : q <> p -> o_count q (o_ref n p l) = o_count q l.
Proof. intros Hq. unfold o_count, o_ref. cbn. by rewrite lookup_insert_ne by congruence. Qed.
Lemma o_get_put p q c l : o_get q (o_put p c l) = if decide (q = p) then c else o_get q l.
Proof.
  unfold o_get, o_put. cbn. destruct (decide (q = p)) as [->|Hne]; [by rewrite lookup_insert_eq|].
  by rewrite lookup_insert_ne by congruence.
Qed.
Lemma o_new_fresh l p l' : o_new l = (p, l') ->
  o_count p l = 0 /\ o_count p l' = 1 /\ o_get p l' = no_fields /\
  forall q, q <> p -> o_count q l' = o_count q l /\ o_get q l' = o_get q l.
Proof.
  intros E. unfold o_new in E. injection E as <- <-. unfold o_count, o_get. cbn. split; [|split; [|split]].
  - by rewrite Z.ltb_irrefl.
  - rewrite (proj2 (Z.ltb_lt _ _)) by lia. by rewrite lookup_insert_eq.
  - by rewrite lookup_insert_eq.
  - intros q Hq. split; rewrite lookup_insert_ne by congruence; [|done].
    destruct (Z.ltb_spec q (o_next l + 1)), (Z.ltb_spec q (o_next l)); (done || lia).
Qed.

#[export] Instance sim_cert_laws : CertLaws.
Proof.
  split; cbn.
  - intros p s l l' [= <-]. rewrite o_get_put. by rewrite decide_True.
  - intros p q s l b l' [= <- <-] Hq. rewrite o_get_put. by rewrite decide_False.
  - by intros p q s l b l' [= <- <-].
  - intros l p l' E. destruct (o_new l) as [p' l''] eqn:En. injection E as -> ->. by apply o_new_fresh.
  - intros l p l' E. destruct (o_new l) as [p' l''] eqn:En. injection E as -> ->. by apply o_new_fresh.
  - intros p l Hp. rewrite o_count_ref, decide_True by done. lia.
  - intros p q l Hq. by apply o_count_other.
  - done.
  - intros nid v e E. destruct v; [done|]. by injection E as <-.
Qed.

#[export] Instance sim_sslobj : SslObj := {|
  ssl_new _ l := let '(p, l) := o_new l in (Some p, l);
  ssl_free _ l := l;
  ssl_set_ _ _ l := (1, l);
  peer_certificate _ l := (Some 1, o_ref 1 1 l)
|}.

(** The certificates of two servers (1, 6) and of two boxes known by address (8, 9), the
    authority (2, key 4), the server certificate (3, key 5), a context (7) and two keys
    (10, 11). *)
Definition sim_cert (subject : string) (key : Z) (names : list string) : cert_fields bytes sim_ext Z :=
  mkFields 2 7 (Some (text subject)) (Some (text "/CN=ca")) (Some key) None None
    (Some [Some (NID_subject_alt_name, Some ((fun s => Some (GEN_DNS, text s)) <$> names))]) None.
Definition sim_box (address : bytes) : cert_fields bytes sim_ext Z :=
  mkFields 2 7 (Some (text "/CN=box")) (Some (text "/CN=ca")) (Some 18) None None
    (Some [Some (NID_subject_alt_name, Some [Some (GEN_IPADD, address)])]) None.
Definition sim_objects : objects :=
  mkObjects 12 (list_to_map ((fun p => (p, 1)) <$> seqZ 1 11))
    (list_to_map [(1, sim_cert "/CN=one" 11 ["one.example"]); (2, sim_cert "/CN=ca" 12 []);
                  (3, sim_cert "/CN=proxy" 13 []); (6, sim_cert "/CN=two" 16 ["two.example"]);
                  (8, sim_box [10; 0; 0; 1]); (9, sim_box [10; 0; 0; 2])]).
Definition sim_settings : settings :=
  mkSettings (text "/etc/ssl") [] (text "./certs/") [] (text "ct") true.
Definition sim_factory (size : Z) : factory :=
  mkFactory sim_settings (fun _ => []) 100 (mkPair (Some 2) (Some 4)) (mkPair (Some 3) (Some 5)) (mkPair None None)
    (Some 7) None None None (mkCache ∅ [] FIFO size None None) (mkCache ∅ [] FIFO 100 None None)
    (mkCache ∅ [] FIFO 100 None None) None false false false true.
Definition sim_store (size : Z) : store := mkStore (sim_factory size) sim_objects.
Definition sim_com (sni : string) : mcom :=
  mkMcom (text sni) VRF_OK false true true (mkFeatures true true true true true false) (Some (text "10.0.0.1"))
    (Some (text "10.0.0.9")) SOCK_STREAM 5 false false true false false None (Some 8) None None None false.
Definition sim_spoof : SpoofOptions := mkSpoof (text "one.example") false [text "DNS:more.example"].
Definition sim_cworld (size : Z) : cworld := mkCworld (sim_com "one.example") (sim_store size).

(** ** Witnesses *)

Lemma spoof_exact_witness :
  exists p w', spoof 1 false [text "DNS:more.example"] (sim_store 10) =
      Ret (Some (CertificateChainCtx (Some 5) (Some p))) w' /\ refs p (lib_ w') = 1 /\
    serial (fac w') = 101.
Proof.
  destruct (@spoof_exact sim_certs sim_cert_laws (fun _ _ _ => eq_refl) (fun l => ex_intro _ _ (ex_intro _ _ eq_refl))
    (fun l => ex_intro _ _ (ex_intro _ _ eq_refl)) (fun _ => eq_refl) (sim_store 10) 1 false [text "DNS:more.example"]
    (text "/CN=one") 3 2 (text "/CN=ca") 13 ltac:(vm_compute; reflexivity) ltac:(vm_compute; reflexivity) eq_refl
    ltac:(vm_compute; reflexivity) ltac:(vm_compute; reflexivity) eq_refl ltac:(vm_compute; reflexivity)
    ltac:(vm_compute; reflexivity)) as (p & w' & es & E & F & _ & R & _).
  exists p, w'. split; [exact E|]. split; [exact R|]. rewrite F. vm_compute. reflexivity.
Defined.

(** Two boxes with different addresses share a key. *)
Lemma store_key_identifies_witness :
  make_store_key 8 sim_spoof (sim_store 10) = make_store_key 9 sim_spoof (sim_store 10).
Proof.
  apply (@store_key_identifies sim_certs (fun _ => eq_refl) 8 9 sim_spoof sim_spoof (text "/CN=box") (text "/CN=box") (sim_store 10));
    try (vm_compute; reflexivity); try compute_done.
Defined.

Definition sim_run : list store_op :=
  [OAdd MITM (text "a") (CertificateChainCtx (Some 10) (Some 6)); OFind MITM (text "a");
   OAdd MITM (text "b") (CertificateChainCtx (Some 11) (Some 1)); OErase CUSTOM (text "c"); ODestroy].

Lemma sim_offers p : count p (sim_run ≫= offered) <= surplus p (sim_store 1).
Proof.
  destruct (decide (p ∈ seqZ 1 11)) as [Hp|Hp].
  - revert p Hp. apply Forall_forall. repeat (apply Forall_cons; split; [vm_compute; discriminate|]). constructor.
  - assert (forall l, Forall (fun q => q ∈ seqZ 1 11) l -> count p l = 0) as Hc.
    { intros l Hl. unfold count. replace (count_occ Z.eq_dec l p) with 0%nat; [done|]. symmetry.
      apply count_occ_not_In. intros Hi. apply list_elem_of_In in Hi. apply Hp. revert p Hi Hp.
      intros p Hi _. exact (proj1 (Forall_forall _ _) Hl p Hi). }
    unfold surplus. rewrite !Hc by (repeat constructor; compute_done).
    assert (refs p (lib_ (sim_store 1)) = 0) as ->; [|lia]. cbn. unfold o_count.
    case_if; [|done]. destruct (o_refs sim_objects !! p) as [v|] eqn:El; [|done]. exfalso. apply Hp.
    unfold sim_objects in El. cbn [o_refs] in El. apply elem_of_list_to_map_2 in El.
    apply list_elem_of_fmap in El as (q & [= -> _] & Hq). exact Hq.
Qed.

Lemma store_frees_once_witness :
  exists bs w', run_store sim_run (sim_store 1) = Ret bs w' /\ forall p, surplus p w' = surplus p (sim_store 1) - count p (taken_all sim_run bs).
Proof.
  destruct (store_frees_once sim_run (sim_store 1) ltac:(by repeat split) sim_offers) as (bs & w' & E & _ & R).
  exists bs, w'. split; [exact E|exact R].
Defined.

(** The client's com waits for the certificate of the server of [sim_com]. *)
Definition sim_mworld : mworld := mkMworld (sim_com "one.example") (Some (sim_com "one.example")) (sim_store 10).
Definition world_after {A} (o : outcome mworld A) : mworld := match o with Ret _ w => w | _ => sim_mworld end.
Lemma after_ret {A} (o : outcome mworld A) (a : A) :
  match o with Ret b _ => b = a | _ => False end -> o = Ret a (world_after o).
Proof. destruct o; [by intros ->|done..]. Defined.

Definition sim_made : cworld :=
  match use_cert_mitm 1 sim_spoof (sim_cworld 10) with Ret _ w => w | _ => sim_cworld 10 end.
Definition sim_key : bytes :=
  match make_store_key 1 sim_spoof (sim_store 10) with Ret k _ => k | _ => [] end.

Lemma sim_made_ret : use_cert_mitm 1 sim_spoof (sim_cworld 10) = Ret true sim_made.
Proof.
  unfold sim_made. assert (match use_cert_mitm 1 sim_spoof (sim_cworld 10) with Ret true _ => true | _ => false end = true) as E
    by (vm_compute; reflexivity).
  by destruct (use_cert_mitm 1 sim_spoof (sim_cworld 10)) as [[] ?|?|].
Qed.

(** The key asks only for the names of the certificate. *)
Lemma sim_key_ret sni s : o_get 1 (lib_ s) = sim_cert "/CN=one" 11 ["one.example"] ->
  make_store_key 1 (mkSpoof sni false [text "DNS:more.example"]) s = Ret sim_key s.
Proof.
  intros E. rewrite (@store_key_ret sim_certs (fun _ => eq_refl) 1 _ (text "/CN=one")); cbn [fields sim_certs]; rewrite ?E.
  - f_equal.
  - reflexivity.
  - repeat constructor; vm_compute; reflexivity.
Qed.

(** Another server's certificate is made in between. *)
Definition sim_between : cworld :=
  match use_cert_mitm 6 sim_spoof (mkCworld (sim_com "two.example") (cw_store sim_made)) with Ret _ w => w | _ => sim_made end.
Lemma one_certificate_per_key_witness :
  exists c', use_cert_mitm 1 (mkSpoof [] false [text "DNS:more.example"]) sim_between =
      Ret true (mkCworld c' (cw_store sim_between)) /\
    pref_cert c' = pref_cert (com sim_made) /\ pref_key c' = pref_key (com sim_made).
Proof.
  apply (one_certificate_per_key 1 sim_spoof 1 (mkSpoof [] false [text "DNS:more.example"]) sim_key
           (sim_cworld 10) sim_made sim_between).
  - by repeat split.
  - by apply sim_key_ret.
  - exact sim_made_ret.
  - vm_compute. by repeat split.
  - vm_compute. reflexivity.
  - apply sim_key_ret. vm_compute. reflexivity.
Defined.

(** ** The pointers a com keeps *)

(** A com holds no reference to what it was given until its server starts: with a full cache
    another connection evicts the certificate, and starting uses an object that is gone. *)
Theorem evicted_certificate_dangles :
  match use_cert_mitm 1 sim_spoof (sim_cworld 1) with
  | Ret true w1 =>
      match use_cert_mitm 6 sim_spoof (mkCworld (sim_com "two.example") (cw_store w1)) with
      | Ret true w2 => init_server_pref (mkCworld (com w1) (cw_store w2)) = Undef
      | _ => False
      end
  | _ => False
  end.
Proof. vm_compute. reflexivity. Qed.

(** A com given another certificate after its server started, as happens when the other side
    connects anew, gives back references it never took: the cached certificate is freed
    under the cache. *)
Theorem second_certificate_overfreed :
  match (use_cert_mitm 1 sim_spoof ;;; init_server_pref ;;; use_cert_mitm 6 sim_spoof) (sim_cworld 10) with
  | Ret true w1 =>
      match com_dtor w1 with
      | Ret tt w2 =>
          match pref_cert (com w1) with
          | Some p => refs p (lib_ (cw_store w2)) = 0 /\
                      p ∈ entries_of (blocks (cert_mitm_cache (fac (cw_store w2))))
          | None => False
          end
      | _ => False
      end
  | _ => False
  end.
Proof. vm_compute. split; [reflexivity|]. by repeat (left || right). Qed.

(** A moved cache entry frees what it takes over. *)
Theorem moved_entry_is_freed :
  match entry_assign chain_ctx_null (CertificateChainCtx (Some 10) (Some 6)) (sim_store 1) with
  | Ret (e, _) w => c_cert (chain e) = Some 6 /\ refs 6 (lib_ w) = 0
  | _ => False
  end.
Proof. vm_compute. done. Qed.
