(* ===== verification/ShmTable.v ===== *)
(** * ShmTable: tables in shared memory (src/common/shmbuffer.hpp, shmtable.hpp)

    A [shared_buffer] maps a named memory object and opens the semaphore that guards it; a
    [shared_table] keeps a header and rows there and notices new versions; a [shared_map]
    also files the rows under their keys.

    The system calls are the class [ShmSys]; what may be accessed at a mapping is its bytes,
    and access outside of them is undefined.  The row type is the class [Row]; a row loads
    itself from a pointer, so what it reads is what lies behind it. *)

From stdpp Require Import gmap.
From S2P Require Export Effects.

Class ShmSys := {
  shm : Type;
  (* [true]: O_CREAT *)
  sem_open : bytes -> bool -> shm -> option Z * shm;
  sem_init : Z -> Z -> shm -> bool * shm;
  sem_getvalue : Z -> shm -> option Z;
  sem_post : Z -> shm -> Z * shm;
  sem_wait : Z -> shm -> Z * shm;
  sem_close : Z -> shm -> Z * shm;
  shm_open : bytes -> bool -> shm -> option Z * shm;
  ftruncate : Z -> Z -> shm -> bool * shm;
  stat_size : bytes -> shm -> option Z;              (* stat(2) of a path *)
  shm_close : Z -> shm -> Z * shm;
  mmap : Z -> Z -> shm -> option Z * shm;            (* size, descriptor *)
  munmap : Z -> Z -> shm -> Z * shm;
  mapped : Z -> shm -> bytes;
  poke : Z -> Z -> bytes -> shm -> shm               (* mapping, offset, bytes *)
}.

(** What is written to a mapping is read from it. *)
Class ShmMem `{ShmSys} := {
  poke_mapped : forall p o b s, 0 <= o -> o + zlen b <= zlen (mapped p s) ->
    mapped p (poke p o b s) = put_at o b (mapped p s)
}.

Class Row := {
  row : Type;
  row_sizeof : Z;                                    (* sizeof(RowType) *)
  record_size : Z;
  (* [load] of a fresh row from the bytes at the pointer: the row and the size it answers,
     or a read past them *)
  row_load : bytes -> option (row * Z);
  row_buf : row -> bytes                             (* buf() *)
}.

Section shared_buffer.
Context {SH : ShmSys}.

(** [shared_buffer] and the system. *)
Record sbuf : Type := mkSbuf {
  semaphore : option Z;
  semaphore_name : bytes;
  memory_name : bytes;
  memory_size : Z;
  memory_fd : Z;
  data_ : option Z;
  size_ : Z;
  capacity_ : Z;
  attached_ : bool
}.
Definition sbuf0 : sbuf := mkSbuf None [] [] 0 (-1) None 0 0 false.

Record bworld : Type := mkBw { buf_ : sbuf; os_ : shm }.

Definition bget {A} (f : sbuf -> A) : M bworld A := gets (fun w => f (buf_ w)).
Definition bset (f : sbuf -> sbuf) : M bworld unit := modify (fun w => mkBw (f (buf_ w)) (os_ w)).
Definition bcall {A} (f : shm -> A * shm) : M bworld A := fun w =>
  let '(a, s) := f (os_ w) in Ret a (mkBw (buf_ w) s).

Definition put_sem (v : option Z) (b : sbuf) : sbuf :=
  mkSbuf v (semaphore_name b) (memory_name b) (memory_size b) (memory_fd b) (data_ b) (size_ b) (capacity_ b)
    (attached_ b).
Definition put_memfd (v : Z) (b : sbuf) : sbuf :=
  mkSbuf (semaphore b) (semaphore_name b) (memory_name b) (memory_size b) v (data_ b) (size_ b) (capacity_ b)
    (attached_ b).
Definition put_attached (v : bool) (b : sbuf) : sbuf :=
  mkSbuf (semaphore b) (semaphore_name b) (memory_name b) (memory_size b) (memory_fd b) (data_ b) (size_ b)
    (capacity_ b) v.

(** The semaphore, made when there is none and that is asked for: whether to go on. *)
Definition open_semaphore (sem_name : bytes) (create_on_error : bool) : M bworld bool :=
  s <- bcall (sem_open sem_name false) ;;
  bset (put_sem s) ;;;
  match s with
  | Some _ => mret_ true
  | None =>
      if negb create_on_error then mret_ false
      else
        s <- bcall (sem_open sem_name true) ;;
        bset (put_sem s) ;;;
        match s with
        | None => mret_ false
        | Some p =>
            ok <- bcall (sem_init p 1) ;;
            if negb ok then mret_ false
            else v <- gets (fun w => sem_getvalue p (os_ w)) ;;
                 mret_ (match v with Some n => 0 <=? n | None => false end)
        end
  end.

(** The memory object: whether to go on, and whether it was made. *)
Definition open_memory (mem_name : bytes) (mem_size : Z) (create_on_error : bool) : M bworld (bool * bool) :=
  fd <- bcall (shm_open mem_name false) ;;
  bset (put_memfd (default (-1) fd)) ;;;
  match fd with
  | None =>
      if negb create_on_error then mret_ (false, false)
      else
        fd <- bcall (shm_open mem_name true) ;;
        bset (put_memfd (default (-1) fd)) ;;;
        match fd with
        | None => mret_ (false, false)
        | Some fd => ok <- bcall (ftruncate fd mem_size) ;; mret_ (ok : bool, ok : bool)
        end
  | Some fd =>
      st <- gets (fun w => stat_size mem_name (os_ w)) ;;
      match st with
      | Some 0 => ok <- bcall (ftruncate fd mem_size) ;; mret_ (ok : bool, false)
      | _ => mret_ (true, false)
      end
  end.

(** Bytes written to the memory. *)
Definition write_at (p o : Z) (b : bytes) : M bworld unit := fun w =>
  if (0 <=? o) && (o + zlen b <=? zlen (mapped p (os_ w))) then Ret tt (mkBw (buf_ w) (poke p o b (os_ w)))
  else Undef.

(** Giving up leaves what was opened before, and the members as they were set. *)
Definition attach (mem_name : bytes) (mem_size : Z) (sem_name : bytes) (create_on_error : bool) : M bworld bool :=
  a <- bget attached_ ;;
  if a : bool then mret_ true
  else
    bset (fun b => mkSbuf (semaphore b) sem_name mem_name mem_size (-1) (data_ b) (size_ b) (capacity_ b) false) ;;;
    s <- open_semaphore sem_name create_on_error ;;
    if negb s then mret_ false
    else
      let! (ok, will_initialize) := open_memory mem_name mem_size create_on_error in
      if negb ok then mret_ false
      else
        fd <- bget memory_fd ;;
        p <- bcall (mmap mem_size fd) ;;
        match p with
        | None => mret_ false
        | Some p =>
            when will_initialize (write_at p 0 (zrep mem_size 0)) ;;;
            bset (fun b => mkSbuf (semaphore b) (semaphore_name b) (memory_name b) (memory_size b) (memory_fd b)
                             (Some p) mem_size mem_size true) ;;;
            mret_ true
        end.

Definition dettach : M bworld bool :=
  b <- bget (fun b => b) ;;
  match semaphore b with
  | Some s =>
      r1 <- (match data_ b with Some p => bcall (munmap p (capacity_ b)) | None => mret_ (-1) end) ;;
      r2 <- (if 0 <? memory_fd b then bcall (shm_close (memory_fd b)) else mret_ 0) ;;
      r3 <- bcall (sem_close s) ;;
      bset (put_attached false) ;;;
      mret_ ((r1 =? 0) && negb (r2 =? -1) && (r3 =? 0))
  | None => undef
  end.

Definition release : M bworld Z :=
  s <- bget semaphore ;;
  match s with Some s => bcall (sem_post s) | None => undef end.
Definition acquire : M bworld Z :=
  s <- bget semaphore ;;
  match s with Some s => bcall (sem_wait s) | None => mret_ (-1) end.
End shared_buffer.

(** ** Tables *)

Section table.
Context {SH : ShmSys} {RW : Row} {K : Type} `{Countable K}.

Record header : Type := mkHeader { version : Z; entries : Z; row_size : Z }.
Definition header_sz : Z := 12.

(** [shared_table]; a [shared_map] has the key of a row and the rows by their keys. *)
Record table : Type := mkTable {
  t_buf : sbuf;
  t_entries : list row;
  seen_version : Z;
  cur_header : header;
  get_row_key : option (row -> K);
  map_entries : gmap K row
}.
Definition new_table (key : option (row -> K)) : table :=
  mkTable sbuf0 [] 0 (mkHeader 0 0 row_sizeof) key ∅.

Record tworld : Type := mkTw { tab : table; t_os : shm }.

Definition tget {A} (f : table -> A) : M tworld A := gets (fun w => f (tab w)).
Definition tset (f : table -> table) : M tworld unit := modify (fun w => mkTw (f (tab w)) (t_os w)).

Definition put_entries (v : list row) (t : table) : table :=
  mkTable (t_buf t) v (seen_version t) (cur_header t) (get_row_key t) (map_entries t).
Definition put_seen (v : Z) (t : table) : table :=
  mkTable (t_buf t) (t_entries t) v (cur_header t) (get_row_key t) (map_entries t).
Definition put_header (v : header) (t : table) : table :=
  mkTable (t_buf t) (t_entries t) (seen_version t) v (get_row_key t) (map_entries t).
Definition put_map (v : gmap K row) (t : table) : table :=
  mkTable (t_buf t) (t_entries t) (seen_version t) (cur_header t) (get_row_key t) v.

(** The bytes from [o] on. *)
Definition bytes_from (o : Z) : M tworld bytes := fun w =>
  match data_ (t_buf (tab w)) with
  | Some p => if (0 <=? o) && (o <=? zlen (mapped p (t_os w))) then Ret (zdrop o (mapped p (t_os w))) w else Undef
  | None => Undef
  end.
Definition put_bytes (o : Z) (b : bytes) : M tworld unit := fun w =>
  match data_ (t_buf (tab w)) with
  | Some p => if (0 <=? o) && (o + zlen b <=? zlen (mapped p (t_os w)))
              then Ret tt (mkTw (tab w) (poke p o b (t_os w))) else Undef
  | None => Undef
  end.

(** The header as it lies in memory. *)
Definition header_bytes (h : header) : bytes :=
  le_bytes 4 (version h) ++ le_bytes 4 (entries h) ++ le_bytes 4 (row_size h).
Definition header_at (b : bytes) : header :=
  mkHeader (le_value (at_off 0 4 b)) (le_value (at_off 4 4 b)) (le_value (at_off 8 4 b)).

Definition read_header : M tworld Z :=
  b <- bytes_from 0 ;;
  if zlen b <? header_sz then undef
  else
    let h := header_at b in
    tset (put_header h) ;;;
    mret_ (if row_sizeof =? row_size h then s32 (version h) else -1).

(** What the derived classes do with a version, a row read and a row to write. *)
Definition on_new_version : M tworld bool :=
  tset (fun t => if get_row_key t then put_map ∅ t else t) ;;; mret_ true.
Definition on_new_entry (r : row) : M tworld bool :=
  tset (fun t => match get_row_key t with Some k => put_map (<[k r := r]> (map_entries t)) t | None => t end) ;;;
  mret_ true.
Definition writes_row (t : table) (r : row) : bool :=
  match get_row_key t with
  | Some k => if map_entries t !! k r then true else false
  | None => true
  end.
Definition on_write_entry (o : Z) (r : row) : M tworld Z :=
  t <- tget (fun t => t) ;;
  if writes_row t r then put_bytes o (row_buf r) ;;; mret_ (zlen (row_buf r)) else mret_ 0.

(** [n] rows from offset [o] on. *)
Fixpoint load_rows (n : nat) (o : Z) : M tworld unit :=
  match n with
  | O => mret_ tt
  | S n =>
      b <- bytes_from o ;;
      match row_load b with
      | None => undef
      | Some (r, sz) =>
          keep <- on_new_entry r ;;
          when keep (tset (fun t => put_entries (t_entries t ++ [r]) t)) ;;;
          load_rows n (o + sz)
      end
  end.

Definition load : M tworld Z :=
  rh <- read_header ;;
  if rh <? 0 then mret_ rh
  else
    t <- tget (fun t => t) ;;
    let v := version (cur_header t) in
    if (seen_version t <? v) || ((v =? 0) && (0 <? seen_version t)) then
      clear <- on_new_version ;;
      when clear (tset (put_entries [])) ;;;
      tset (put_seen v) ;;;
      load_rows (Z.to_nat (entries (cur_header t))) header_sz ;;;
      tget (fun t => s32 (zlen (t_entries t)))
    else mret_ (-1).

Definition write_header (increase_version : bool) (n_entries : Z) : M tworld Z :=
  when increase_version
    (tset (fun t => put_header (mkHeader (u32 (version (cur_header t) + 1)) (entries (cur_header t)) (row_size (cur_header t)))
                      (put_seen (u32 (seen_version t + 1)) t))) ;;;
  tset (fun t => put_header (mkHeader (version (cur_header t))
                               (u32 (if 0 <=? n_entries then n_entries else zlen (t_entries t))) record_size) t) ;;;
  h <- tget cur_header ;;
  put_bytes 0 (header_bytes h) ;;;
  mret_ header_sz.

(** The rows written one behind the other: where the next would go and how many they are. *)
Fixpoint save_rows (l : list row) (o n : Z) : M tworld (Z * Z) :=
  match l with
  | [] => mret_ (o, n)
  | r :: l =>
      s <- on_write_entry o r ;;
      if 0 <? s then save_rows l (o + s) (n + 1) else save_rows l o n
  end.

Definition save (increase_version : bool) : M tworld Z :=
  l <- tget t_entries ;;
  let! (o, n) := save_rows l header_sz 0 in
  write_header increase_version n ;;;
  mret_ o.
End table.
