(* ===== verification/ShmProps.v ===== *)
(** * ShmProps: a table in shared memory is a register its readers see change

    One process publishes tables, others poll: each of them sees every table that is there
    when it looks, once, as it was published. *)

From S2P Require Export ShmTable.

Lemma Forall3_insert {A B C} (P : A -> B -> C -> Prop) l k k' x y z i :
  Forall3 P l k k' -> P x y z -> Forall3 P (<[i := x]> l) (<[i := y]> k) (<[i := z]> k').
Proof.
  intros HF Hp. revert i. induction HF as [|a b c l k k' Ha HF IH]; intros i; [constructor|].
  destruct i as [|i]; constructor; auto.
Qed.

Section rows.
Context {SH : ShmSys} {SM : ShmMem} {RW : Row} {K : Type} `{Countable K}.
Notation table := (table (K:=K)).
Notation tworld := (tworld (K:=K)).
Implicit Types (t : table) (w : tworld) (h : header) (l : list row).

(** A row type fit for a table: a row reads back as what it wrote, takes room, and its
    record is as large as the type says. *)
Class RowOk : Prop := {
  row_roundtrip : forall r rest, row_load (row_buf r ++ rest) = Some (r, zlen (row_buf r));
  row_nonempty : forall r, 0 < zlen (row_buf r);
  row_sized : record_size = row_sizeof;
  row_sizeof_fits : 0 < row_sizeof < 2 ^ 32
}.
Context {RO : RowOk}.

Definition rows_bytes l : bytes := concat (row_buf <$> l).

Lemma rows_bytes_cons r l : rows_bytes (r :: l) = row_buf r ++ rows_bytes l.
Proof. done. Qed.

(** ** Memory *)

Lemma put_at_app (a b c : bytes) o : zlen a = o -> put_at o b (a ++ c) = a ++ b ++ zdrop (zlen b) c.
Proof.
  intros <-. unfold put_at. rewrite ztake_app_exact by done. do 2 f_equal.
  pose proof (zlen_nonneg b). pose proof (zlen_nonneg a). unfold zdrop.
  rewrite Z2Nat.inj_add by done. rewrite <- drop_drop. f_equal.
  change (zdrop (zlen a) (a ++ c) = c). by apply zdrop_app_exact.
Qed.

Definition header_fits h : Prop :=
  0 <= version h < 2 ^ 32 /\ 0 <= entries h < 2 ^ 32 /\ 0 <= row_size h < 2 ^ 32.

Lemma zlen_table_header h : zlen (header_bytes h) = header_sz.
Proof. unfold header_bytes. by rewrite !zlen_app, !zlen_le_bytes. Qed.

Lemma le4 x : 0 <= x < 2 ^ 32 -> le_value (le_bytes 4 x) = x.
Proof. intros Hx. rewrite le_value_le_bytes. by apply Z.mod_small. Qed.

Lemma header_roundtrip h rest : header_fits h -> header_at (header_bytes h ++ rest) = h.
Proof.
  intros (Hv & He & Hr). unfold header_at, header_bytes, at_off. destruct h as [v e r]. cbn [version entries row_size] in *.
  rewrite <- !app_assoc.
  set (a := le_bytes 4 v). set (b := le_bytes 4 e). set (c := le_bytes 4 r).
  assert (Ha : zlen a = 4) by apply zlen_le_bytes. assert (Hb : zlen b = 4) by apply zlen_le_bytes.
  assert (Hc : zlen c = 4) by apply zlen_le_bytes.
  change (zdrop 0 ?x) with x. rewrite (ztake_app_exact 4 a), (zdrop_app_exact 4 a) by done.
  rewrite (ztake_app_exact 4 b) by done.
  replace (a ++ b ++ c ++ rest) with ((a ++ b) ++ c ++ rest) by by rewrite <- app_assoc.
  rewrite (zdrop_app_exact 8) by (rewrite zlen_app; lia). rewrite (ztake_app_exact 4 c) by done.
  unfold a, b, c. by rewrite !le4.
Qed.

(** The memory of an attached table: what is mapped there. *)
Definition mem_is p w (b : bytes) : Prop := data_ (t_buf (tab w)) = Some p /\ mapped p (t_os w) = b.

Lemma bytes_from_ret p w (a b : bytes) o : mem_is p w (a ++ b) -> zlen a = o -> bytes_from o w = Ret b w.
Proof.
  intros [Hd Hm] <-. unfold bytes_from. rewrite Hd, Hm, zlen_app. pose proof (zlen_nonneg a). pose proof (zlen_nonneg b).
  rewrite (proj2 (Z.leb_le 0 _)), (proj2 (Z.leb_le (zlen a) _)) by lia. cbn. by rewrite zdrop_app_exact.
Qed.

Lemma put_bytes_ret p w (a b c : bytes) o : mem_is p w (a ++ c) -> zlen a = o -> zlen b <= zlen c ->
  exists w', put_bytes o b w = Ret tt w' /\ tab w' = tab w /\ mem_is p w' (a ++ b ++ zdrop (zlen b) c).
Proof.
  intros [Hd Hm] <- Hl. unfold put_bytes. rewrite Hd, Hm, zlen_app. pose proof (zlen_nonneg a).
  rewrite (proj2 (Z.leb_le 0 _)), (proj2 (Z.leb_le _ _)) by lia. cbn. eexists. split; [done|]. split; [done|].
  split; [done|]. cbn. rewrite poke_mapped by (rewrite ?Hm, ?zlen_app; lia). rewrite Hm. by apply put_at_app.
Qed.

(** ** Saving *)

Definition written t l : list row := filter (fun r => writes_row t r = true) l.

Lemma save_rows_ret p l : forall w (a c : bytes) o n, mem_is p w (a ++ c) -> zlen a = o ->
  zlen (rows_bytes (written (tab w) l)) <= zlen c ->
  exists w', save_rows l o n w =
      Ret (o + zlen (rows_bytes (written (tab w) l)), n + zlen (written (tab w) l)) w' /\
    tab w' = tab w /\
    mem_is p w' (a ++ rows_bytes (written (tab w) l) ++ zdrop (zlen (rows_bytes (written (tab w) l))) c).
Proof.
  induction l as [|r l IH]; intros w a c o n Hm Ho Hc; cbn [save_rows].
  - exists w. unfold written, rows_bytes. cbn. change (zlen (@nil Z)) with 0. change (zlen (@nil row)) with 0.
    rewrite !Z.add_0_r. done.
  - unfold on_write_entry, tget. rewrite bind_assoc, bind_gets. unfold written in *. rewrite filter_cons in *.
    destruct (writes_row (tab w) r) eqn:Ew.
    + rewrite decide_True in * by done. rewrite rows_bytes_cons, zlen_app in *.
      pose proof (zlen_nonneg (rows_bytes (filter (fun r => writes_row (tab w) r = true) l))).
      pose proof (row_nonempty r) as Hr.
      destruct (put_bytes_ret p w a (row_buf r) c o Hm Ho) as (w1 & E1 & T1 & M1); [lia|].
      rewrite bind_assoc, (bind_ret _ _ _ _ _ E1), bind_pure. rewrite (proj2 (Z.ltb_lt _ _)) by done.
      destruct (IH w1 (a ++ row_buf r) (zdrop (zlen (row_buf r)) c) (o + zlen (row_buf r)) (n + 1)) as (w2 & E2 & T2 & M2).
      * by rewrite <- app_assoc.
      * rewrite zlen_app. lia.
      * rewrite T1, zlen_zdrop by lia. lia.
      * rewrite T1 in *. exists w2. split; [rewrite E2, zlen_cons; f_equal; f_equal; lia|]. split; [done|].
        replace (zdrop (zlen (row_buf r) + zlen (rows_bytes (filter (fun r0 => writes_row (tab w) r0 = true) l))) c)
          with (zdrop (zlen (rows_bytes (filter (fun r0 => writes_row (tab w) r0 = true) l))) (zdrop (zlen (row_buf r)) c)).
        -- by rewrite <- !app_assoc in M2 |- *.
        -- unfold zdrop. rewrite drop_drop. f_equal. lia.
    + rewrite decide_False in * by congruence. rewrite bind_pure. apply (IH w a c o n Hm Ho Hc).
Qed.

(** The header of what [t] publishes. *)
Definition published t l : header :=
  mkHeader (u32 (version (cur_header t) + 1)) (zlen l) record_size.

Lemma save_ret p w (b : bytes) : mem_is p w b ->
  let l := written (tab w) (t_entries (tab w)) in
  header_sz + zlen (rows_bytes l) <= zlen b -> zlen l < 2 ^ 32 ->
  exists w' rest, save true w = Ret (header_sz + zlen (rows_bytes l)) w' /\
    tab w' = put_header (published (tab w) l) (put_seen (u32 (seen_version (tab w) + 1)) (tab w)) /\
    mem_is p w' (header_bytes (published (tab w) l) ++ rows_bytes l ++ rest) /\
    zlen rest = zlen b - header_sz - zlen (rows_bytes l).
Proof.
  intros Hm l Hl Hn. unfold save, tget. rewrite bind_gets.
  assert (0 <= header_sz <= zlen b) as Hh by (pose proof (zlen_nonneg (rows_bytes l)); unfold header_sz in *; lia).
  rewrite <- (ztake_zdrop header_sz b) in Hm. pose proof (zlen_ztake header_sz b Hh) as Ht.
  pose proof (zlen_zdrop header_sz b Hh) as Hd.
  destruct (save_rows_ret p (t_entries (tab w)) w _ _ header_sz 0 Hm Ht) as (w1 & E1 & T1 & M1).
  { fold l. lia. }
  fold l in E1, M1. rewrite (bind_ret _ _ _ _ _ E1), Z.add_0_l. unfold write_header, when, tset. rewrite bind_assoc, bind_modify.
  rewrite bind_assoc, bind_modify. unfold tget. rewrite bind_assoc, bind_gets. cbn [tab].
  set (t' := put_header _ (put_header _ _)).
  assert (t' = put_header (published (tab w) l) (put_seen (u32 (seen_version (tab w) + 1)) (tab w))) as Et.
  { unfold t', published. rewrite T1. cbn. pose proof (zlen_nonneg l). rewrite (proj2 (Z.leb_le 0 (zlen l))) by done.
    rewrite (u32_small (zlen l)) by lia. done. }
  destruct (put_bytes_ret p (mkTw t' (t_os w1)) [] (header_bytes (cur_header t'))
              (ztake header_sz b ++ rows_bytes l ++ zdrop (zlen (rows_bytes l)) (zdrop header_sz b)) 0)
    as (w2 & E2 & T2 & M2); [|done| |].
  - destruct M1 as [D1 M1]. split; [|exact M1]. cbn [tab]. rewrite Et, T1 in *. exact D1.
  - rewrite zlen_table_header, zlen_app. pose proof (zlen_nonneg (rows_bytes l ++ zdrop (zlen (rows_bytes l)) (zdrop header_sz b))). lia.
  - rewrite bind_assoc, (bind_ret _ _ _ _ _ E2), bind_pure. cbn [tab] in T2.
    exists w2, (zdrop (zlen (rows_bytes l)) (zdrop header_sz b)).
    split; [reflexivity|]. split; [by rewrite T2|]. split.
    + rewrite Et in M2. cbn [cur_header put_header] in M2. cbn [app] in M2. rewrite zlen_table_header in M2.
      by rewrite zdrop_app_exact in M2.
    + rewrite zlen_zdrop by (pose proof (zlen_nonneg (rows_bytes l)); lia). lia.
Qed.

(** ** Loading *)

Definition filed (key : option (row -> K)) (m : gmap K row) l : gmap K row :=
  foldl (fun m r => match key with Some k => <[k r := r]> m | None => m end) m l.

Definition added l t : table := put_map (filed (get_row_key t) (map_entries t) l) (put_entries (t_entries t ++ l) t).

Lemma load_rows_ret p l : forall w (a rest : bytes) o, mem_is p w (a ++ rows_bytes l ++ rest) -> zlen a = o ->
  load_rows (length l) o w = Ret tt (mkTw (added l (tab w)) (t_os w)).
Proof.
  induction l as [|r l IH]; intros w a rest o Hm Ho; cbn [length load_rows].
  - unfold added, filed. cbn [foldl]. rewrite app_nil_r. destruct w as [[b e sv h k m] s]. reflexivity.
  - rewrite rows_bytes_cons, <- app_assoc in Hm. rewrite (bind_ret _ _ _ _ _ (bytes_from_ret p w a _ o Hm Ho)).
    rewrite row_roundtrip. unfold on_new_entry, tset. rewrite bind_assoc, bind_modify, bind_pure.
    unfold when. rewrite bind_modify. cbn [tab t_os].
    set (w1 := mkTw _ _). rewrite (IH w1 (a ++ row_buf r) rest (o + zlen (row_buf r))).
    + unfold w1, added. destruct w as [[b e sv h k m] s]. cbn. destruct k; cbn; by rewrite <- app_assoc.
    + destruct Hm as [Hd Hm]. split; [|by rewrite <- app_assoc].
      unfold w1. destruct w as [[b e sv h [k|] m] s]; exact Hd.
    + rewrite zlen_app. lia.
Qed.

(** The memory holds the table [l] as version [n]. *)
Definition holds p w n l : Prop :=
  exists rest, mem_is p w (header_bytes (mkHeader n (zlen l) row_sizeof) ++ rows_bytes l ++ rest).

Definition loaded n l t : table :=
  added l (put_entries [] (put_seen n (put_map (if get_row_key t then ∅ else map_entries t)
    (put_header (mkHeader n (zlen l) row_sizeof) t)))).

Lemma load_ret p w n l : holds p w n l -> 0 <= n < 2 ^ 31 -> zlen l < 2 ^ 31 ->
  load w = if (seen_version (tab w) <? n) || ((n =? 0) && (0 <? seen_version (tab w)))
           then Ret (zlen l) (mkTw (loaded n l (tab w)) (t_os w))
           else Ret (-1) (mkTw (put_header (mkHeader n (zlen l) row_sizeof) (tab w)) (t_os w)).
Proof.
  intros (rest & Hm) Hn Hl. pose proof (zlen_nonneg l) as H0. pose proof row_sizeof_fits.
  unfold load, read_header. rewrite bind_assoc, (bind_ret _ _ _ _ _ (bytes_from_ret p w [] _ 0 Hm eq_refl)).
  set (h := mkHeader n (zlen l) row_sizeof) in *. set (b := header_bytes h ++ rows_bytes l ++ rest) in *.
  assert (header_sz <= zlen b).
  { unfold b. rewrite zlen_app, zlen_table_header. pose proof (zlen_nonneg (rows_bytes l ++ rest)). lia. }
  rewrite (proj2 (Z.ltb_ge _ _)) by lia. rewrite bind_assoc. unfold tset. rewrite bind_modify, bind_pure.
  assert (header_at b = h) as ->.
  { apply header_roundtrip. unfold header_fits, h. cbn [version entries row_size]. lia. }
  change (row_size h) with row_sizeof. change (version h) with n. rewrite Z.eqb_refl, wraps_small by (change (2 ^ (32 - 1)) with (2 ^ 31); lia).
  rewrite (proj2 (Z.ltb_ge n 0)) by lia. unfold tget. rewrite bind_gets. cbn [tab].
  change (cur_header (put_header h (tab w))) with h. change (version h) with n.
  change (seen_version (put_header h (tab w))) with (seen_version (tab w)). destruct (_ || _); [|done].
  unfold on_new_version, tset. rewrite bind_assoc, bind_modify, bind_pure. unfold when. rewrite !bind_modify. cbn [tab t_os].
  set (t1 := put_seen n _). replace (Z.to_nat (entries h)) with (length l) by (unfold h; cbn [entries]; rewrite zlen_length; lia).
  assert (mem_is p (mkTw t1 (t_os w)) (header_bytes h ++ rows_bytes l ++ rest)) as Hm1.
  { destruct Hm as [Hd Hm]. split; [|exact Hm]. unfold t1. destruct w as [[? ? ? ? [k|] ?] ?]; exact Hd. }
  rewrite (bind_ret _ _ _ _ _ (load_rows_ret p l _ _ rest header_sz Hm1 (zlen_table_header h))).
  unfold gets. cbn [tab t_os]. assert (added l t1 = loaded n l (tab w)) as ->.
  { unfold t1, loaded, added. destruct w as [[? ? ? ? [k|] ?] ?]; reflexivity. }
  assert (t_entries (loaded n l (tab w)) = l) as ->.
  { unfold loaded. by destruct w as [[? ? ? ? [k|] ?] ?]. }
  by rewrite wraps_small by (change (2 ^ (32 - 1)) with (2 ^ 31); lia).
Qed.

(** ** What the header is trusted with *)

(** More rows announced than there are: the load reads past the memory. *)
Theorem announced_rows_overread p w n k l (rest : bytes) :
  mem_is p w (header_bytes (mkHeader n k row_sizeof) ++ rows_bytes l ++ rest) ->
  seen_version (tab w) < n < 2 ^ 31 -> 0 <= seen_version (tab w) -> zlen l < k < 2 ^ 32 -> row_load rest = None ->
  load w = Undef.
Proof.
  intros Hm Hn H0 Hk Hr. pose proof row_sizeof_fits. unfold load, read_header.
  rewrite bind_assoc, (bind_ret _ _ _ _ _ (bytes_from_ret p w [] _ 0 Hm eq_refl)).
  set (h := mkHeader n k row_sizeof) in *.
  rewrite (proj2 (Z.ltb_ge _ _)).
  2:{ rewrite !zlen_app, zlen_table_header. pose proof (zlen_nonneg (rows_bytes l)). pose proof (zlen_nonneg rest). lia. }
  rewrite bind_assoc. unfold tset at 1. rewrite bind_modify, bind_pure.
  pose proof (zlen_nonneg l).
  rewrite header_roundtrip by (unfold header_fits, h; cbn [version entries row_size]; lia).
  change (row_size h) with row_sizeof. change (version h) with n.
  rewrite Z.eqb_refl, wraps_small by (change (2 ^ (32 - 1)) with (2 ^ 31); lia).
  rewrite (proj2 (Z.ltb_ge n 0)) by lia. unfold tget at 1. rewrite bind_gets. cbn [tab].
  change (cur_header (put_header h (tab w))) with h. change (version h) with n.
  change (seen_version (put_header h (tab w))) with (seen_version (tab w)).
  rewrite (proj2 (Z.ltb_lt _ _)) by lia. cbn [orb].
  unfold on_new_version, tset. rewrite bind_assoc, bind_modify, bind_pure. unfold when. rewrite !bind_modify. cbn [tab t_os].
  set (t1 := put_seen n _). change (entries h) with k.
  assert (mem_is p (mkTw t1 (t_os w)) (header_bytes h ++ rows_bytes l ++ rest)) as Hm1.
  { destruct Hm as [Hd Hm]. split; [|exact Hm]. unfold t1. destruct w as [[? ? ? ? [key|] ?] ?]; exact Hd. }
  replace (Z.to_nat k) with (length l + S (Z.to_nat (k - zlen l - 1)))%nat by (rewrite zlen_length in *; lia).
  assert (forall q l w1 (a : bytes) o, mem_is p w1 (a ++ rows_bytes l ++ rest) -> zlen a = o ->
            load_rows (length l + S q) o w1 = Undef) as Hover.
  { clear -RO Hr. intros q l. induction l as [|r l IH]; intros w1 a o Hm Ho; cbn [length Nat.add load_rows];
      rewrite (bind_ret _ _ _ _ _ (bytes_from_ret p w1 a _ o Hm Ho)).
    - change (rows_bytes [] ++ rest) with rest. by rewrite Hr.
    - rewrite rows_bytes_cons, <- app_assoc, row_roundtrip. unfold on_new_entry, tset.
      rewrite bind_assoc, bind_modify, bind_pure. unfold when. rewrite bind_modify. cbn [tab t_os].
      apply (IH _ (a ++ row_buf r)).
      + destruct Hm as [Hd Hm]. rewrite rows_bytes_cons, <- app_assoc in Hm. split; [|by rewrite <- app_assoc].
        destruct w1 as [[? ? ? ? [key|] ?] ?]; exact Hd.
      + rewrite zlen_app. lia. }
  unfold mbind_. by rewrite (Hover _ l _ (header_bytes h) header_sz Hm1 (zlen_table_header h)).
Qed.

(** Rows of another size: nothing is ever loaded. *)
Theorem foreign_size_unread p w h (rest : bytes) :
  mem_is p w (header_bytes h ++ rest) -> header_fits h -> row_size h <> row_sizeof ->
  load w = Ret (-1) (mkTw (put_header h (tab w)) (t_os w)).
Proof.
  intros Hm Hf Hne. unfold load, read_header.
  rewrite bind_assoc, (bind_ret _ _ _ _ _ (bytes_from_ret p w [] _ 0 Hm eq_refl)).
  rewrite (proj2 (Z.ltb_ge _ _)) by (rewrite zlen_app, zlen_table_header; pose proof (zlen_nonneg rest); lia).
  rewrite bind_assoc. unfold tset at 1. rewrite bind_modify, bind_pure, header_roundtrip by done.
  by rewrite (proj2 (Z.eqb_neq _ _)) by congruence.
Qed.

(** A version below the one seen, as a writer leaves it that did not load before: not
    loaded, unless it is 0. *)
Theorem lower_version_unread p w n l : holds p w n l -> 0 < n < 2 ^ 31 -> zlen l < 2 ^ 31 ->
  n <= seen_version (tab w) -> exists t', load w = Ret (-1) (mkTw t' (t_os w)) /\ t_entries t' = t_entries (tab w).
Proof.
  intros Hh Hn Hl Hs. rewrite (load_ret p w n l Hh) by lia.
  rewrite (proj2 (Z.ltb_ge _ _)), (proj2 (Z.eqb_neq n 0)) by lia. cbn. by eexists.
Qed.

(** ** Attaching *)

Lemma bcall_bind {A B} (f : shm -> A * shm) (k : A -> M bworld B) b o a o' : f o = (a, o') ->
  mbind_ (bcall f) k (mkBw b o) = k a (mkBw b o').
Proof. intros E. unfold mbind_, bcall. cbn. by rewrite E. Qed.

(** A new object: attached, of the size asked for, all zeroes. *)
Theorem attach_makes_zeroes mem n sem o0 o1 o2 o3 o4 o5 s fd p :
  sem_open sem false o0 = (Some s, o1) -> shm_open mem false o1 = (None, o2) ->
  shm_open mem true o2 = (Some fd, o3) -> ftruncate fd n o3 = (true, o4) -> mmap n fd o4 = (Some p, o5) ->
  0 <= n -> zlen (mapped p o5) = n ->
  exists w' : bworld, attach mem n sem true (mkBw sbuf0 o0) = Ret true w' /\
    buf_ w' = mkSbuf (Some s) sem mem n fd (Some p) n n true /\ mapped p (os_ w') = zrep n 0.
Proof.
  intros E1 E2 E3 E4 E5 H0 Hl. unfold attach, bget at 1. rewrite bind_gets. cbn [attached_ buf_ sbuf0].
  unfold bset at 1. rewrite bind_modify. cbn [buf_ os_]. unfold open_semaphore. rewrite bind_assoc, (bcall_bind _ _ _ _ _ _ E1).
  unfold bset at 1. rewrite bind_assoc, bind_modify, bind_pure. cbn [negb buf_ os_].
  unfold open_memory. rewrite bind_assoc, (bcall_bind _ _ _ _ _ _ E2). unfold bset at 1. rewrite bind_assoc, bind_modify.
  cbn [negb buf_ os_]. rewrite bind_assoc, (bcall_bind _ _ _ _ _ _ E3). unfold bset at 1. rewrite bind_assoc, bind_modify.
  cbn [buf_ os_]. rewrite bind_assoc, (bcall_bind _ _ _ _ _ _ E4), bind_pure. cbn [negb].
  unfold bget. rewrite bind_gets. cbn [buf_ memory_fd put_memfd default]. rewrite (bcall_bind _ _ _ _ _ _ E5).
  cbn [when]. unfold write_at, mbind_ at 1. cbn [os_]. rewrite zlen_zrep, Hl by done.
  rewrite (proj2 (Z.leb_le (0 + n) n)) by lia. cbn. eexists. split; [reflexivity|]. split; [done|]. cbn.
  rewrite poke_mapped by (rewrite ?zlen_zrep; lia). unfold put_at. rewrite zlen_zrep by done.
  rewrite (zdrop_ge (0 + n)) by lia. change (ztake 0 ?x) with (@nil Z). cbn. apply app_nil_r.
Qed.

(** ** One writer and its readers *)

(** The processes that attached one object; each has a table of its own. *)
Record procs : Type := mkProcs { writer : table; readers : list table; sys : shm }.

Inductive event : Type :=
  | Publish (l : list row) (m : gmap K row)      (* the writer's entries and, in a map, its keys *)
  | Poll (j : nat).                              (* reader [j] loads *)

(** What a reader has after a load that found something. *)
Definition view : Type := list row * gmap K row.

Definition as_writer {A} (m : M tworld A) : M procs A := fun (w : procs) =>
  match m (mkTw (writer w) (sys w)) with
  | Ret a x => Ret a (mkProcs (tab x) (readers w) (t_os x))
  | Throw e x => Throw e (mkProcs (tab x) (readers w) (t_os x))
  | Undef => Undef
  end.
Definition as_reader {A} (j : nat) (t : table) (m : M tworld A) : M procs A := fun (w : procs) =>
  match m (mkTw t (sys w)) with
  | Ret a x => Ret a (mkProcs (writer w) (<[j := tab x]> (readers w)) (t_os x))
  | Throw e x => Throw e (mkProcs (writer w) (<[j := tab x]> (readers w)) (t_os x))
  | Undef => Undef
  end.

Lemma as_writer_ret {A} (m : M tworld A) (w : procs) a x : m (mkTw (writer w) (sys w)) = Ret a x ->
  as_writer m w = Ret a (mkProcs (tab x) (readers w) (t_os x)).
Proof. unfold as_writer. by intros ->. Qed.
Lemma as_reader_ret {A} j t (m : M tworld A) (w : procs) a x : m (mkTw t (sys w)) = Ret a x ->
  as_reader j t m w = Ret a (mkProcs (writer w) (<[j := tab x]> (readers w)) (t_os x)).
Proof. unfold as_reader. by intros ->. Qed.

Definition run_event (e : event) : M procs (option view) :=
  match e with
  | Publish l m => as_writer (tset (fun t => put_map m (put_entries l t)) ;;; save true) ;;; mret_ None
  | Poll j =>
      t <- gets (fun (w : procs) => readers w !! j) ;;
      match t with
      | None => undef
      | Some t => as_reader j t (n <- load ;; tget (fun t => if n <? 0 then None else Some (t_entries t, map_entries t)))
      end
  end.
Fixpoint run_events (l : list event) : M procs (list (option view)) :=
  match l with
  | [] => mret_ []
  | e :: l => o <- run_event e ;; os <- run_events l ;; mret_ (o :: os)
  end.

(** The register: the version and rows that are there, and what each reader saw last. *)
Record register : Type := mkReg { r_version : Z; r_rows : list row; r_seen : list Z }.

Section spec.
Context (wkey : option (row -> K)) (rkeys : list (option (row -> K))).

(** The rows of a writer that are published: in a map those whose key it has. *)
Definition kept (m : gmap K row) l : list row :=
  filter (fun r => match wkey with Some k => bool_decide (is_Some (m !! k r)) | None => true end = true) l.

Definition reg_step (e : event) (r : register) : option view * register :=
  match e with
  | Publish l m => (None, mkReg (r_version r + 1) (kept m l) (r_seen r))
  | Poll j =>
      match r_seen r !! j, rkeys !! j with
      | Some s, Some key =>
          if s <? r_version r
          then (Some (r_rows r, filed key ∅ (r_rows r)), mkReg (r_version r) (r_rows r) (<[j := r_version r]> (r_seen r)))
          else (None, r)
      | _, _ => (None, r)
      end
  end.
Fixpoint reg_run (l : list event) (r : register) : list (option view) * register :=
  match l with
  | [] => ([], r)
  | e :: l => let '(o, r) := reg_step e r in let '(os, r) := reg_run l r in (o :: os, r)
  end.

(** Events the memory of [L] bytes has room for, of readers that are there. *)
Definition fits (L : Z) (e : event) : Prop :=
  match e with
  | Publish l m => header_sz + zlen (rows_bytes (kept m l)) <= L /\ zlen (kept m l) < 2 ^ 31
  | Poll j => (j < length rkeys)%nat
  end.

Definition reader_ok (p n : Z) (key : option (row -> K)) (t : table) (seen : Z) : Prop :=
  data_ (t_buf t) = Some p /\ get_row_key t = key /\ (key = None -> map_entries t = ∅) /\
  seen_version t = seen /\ 0 <= seen <= n.

(** The memory: zeroes before the first version. *)
Definition memory_ok (p L : Z) (s : shm) (r : register) : Prop :=
  zlen (mapped p s) = L /\ 0 <= r_version r /\ zlen (r_rows r) < 2 ^ 31 /\
  ((exists rest, mapped p s = header_bytes (mkHeader (r_version r) (zlen (r_rows r)) row_sizeof)
                              ++ rows_bytes (r_rows r) ++ rest) \/
   r_version r = 0 /\ mapped p s = zrep L 0 /\ header_sz <= L).

Record sys_ok (p L : Z) (r : register) (w : procs) : Prop := {
  so_mem : memory_ok p L (sys w) r;
  so_data : data_ (t_buf (writer w)) = Some p;
  so_key : get_row_key (writer w) = wkey;
  so_version : version (cur_header (writer w)) = r_version r;
  so_readers : Forall3 (reader_ok p (r_version r)) rkeys (readers w) (r_seen r)
}.

Lemma written_kept t l : get_row_key t = wkey -> written t l = kept (map_entries t) l.
Proof.
  intros Hk. unfold written, kept. apply list_filter_iff. intros r. unfold writes_row. rewrite Hk.
  destruct wkey as [k|]; [|done]. by destruct (map_entries t !! k r).
Qed.

Lemma publish_ok p L l m r (w : procs) : sys_ok p L r w -> fits L (Publish l m) -> r_version r + 1 < 2 ^ 31 ->
  exists w' : procs, run_event (Publish l m) w = Ret None w' /\ sys_ok p L (mkReg (r_version r + 1) (kept m l) (r_seen r)) w'.
Proof.
  intros [(HL & H0 & _ & _) Hd Hk Hv Hr] [Hf Hn] Hb. cbn [run_event].
  set (t := put_map m (put_entries l (writer w))). set (w0 := mkTw t (sys w)).
  assert (written t l = kept m l) as Hw by by rewrite written_kept.
  destruct (save_ret p w0 (mapped p (sys w))) as (w1 & rest & E & T & [D Mm] & R); [done| | |].
  - change (written (tab w0) (t_entries (tab w0))) with (written t l). rewrite Hw. lia.
  - change (written (tab w0) (t_entries (tab w0))) with (written t l). rewrite Hw. lia.
  - cbn [w0 tab t] in *. change (t_entries t) with l in *. rewrite Hw in *.
    assert ((tset (fun t => put_map m (put_entries l t)) ;;; save true) (mkTw (writer w) (sys w)) =
      Ret (header_sz + zlen (rows_bytes (kept m l))) w1) as E' by (unfold tset; by rewrite bind_modify).
    rewrite (bind_ret _ _ _ _ _ (as_writer_ret _ w _ _ E')). eexists. split; [reflexivity|].
    assert (published t (kept m l) = mkHeader (r_version r + 1) (zlen (kept m l)) row_sizeof) as Ep.
    { unfold published. change (cur_header t) with (cur_header (writer w)). rewrite Hv, row_sized, u32_small by lia. done. }
    rewrite Ep in *. split; cbn [sys writer readers r_version r_rows r_seen].
    + unfold memory_ok. cbn [r_version r_rows]. split; [rewrite Mm, !zlen_app, zlen_table_header; lia|].
      split; [lia|]. split; [lia|]. left. by exists rest.
    + by rewrite T.
    + by rewrite T.
    + by rewrite T.
    + eapply Forall3_impl; [exact Hr|]. intros key t' s (? & ? & ? & ? & ?). repeat (split; [done|]). lia.
Qed.

Lemma header_at_zero L : header_at (zrep L 0) = mkHeader 0 0 0.
Proof.
  assert (forall o n, le_value (at_off o n (zrep L 0)) = 0) as Hz.
  { intros o n. unfold at_off, zrep, ztake, zdrop. rewrite drop_replicate, take_replicate.
    generalize (Z.to_nat n `min` (Z.to_nat L - Z.to_nat o))%nat. intros k. by induction k as [|k IH]; cbn; rewrite ?IH. }
  unfold header_at. by rewrite !Hz.
Qed.

Lemma poll_ok p L j r (w : procs) : sys_ok p L r w -> fits L (Poll j) -> r_version r < 2 ^ 31 ->
  exists w' : procs, run_event (Poll j) w = Ret (reg_step (Poll j) r).1 w' /\ sys_ok p L (reg_step (Poll j) r).2 w'.
Proof.
  intros [(HL & H0 & Hn & Hm) Hd Hk Hv Hr] Hj Hb. cbn [fits] in Hj. cbn [run_event reg_step].
  destruct (lookup_lt_is_Some_2 rkeys j Hj) as [key Ekey]. rewrite bind_gets.
  destruct (Forall3_lookup_l _ _ _ _ _ _ Hr Ekey) as (t & s & Et & Es & Ht). rewrite Et, Es, Ekey.
  destruct Ht as (Td & Tk & Tm & Ts & Tb).
  assert (forall t' s', reader_ok p (r_version r) key t' s' -> s' = s \/ s' = r_version r ->
            sys_ok p L (mkReg (r_version r) (r_rows r) (<[j := s']> (r_seen r)))
              (mkProcs (writer w) (<[j := t']> (readers w)) (sys w))) as Hstep.
  { intros t' s' Ht' _. split; try done. cbn. rewrite <- (list_insert_id rkeys j key Ekey). by apply Forall3_insert. }
  destruct Hm as [[rest Hm]|(Hz & Hm & HL12)].
  - assert (holds p (mkTw t (sys w)) (r_version r) (r_rows r)) as Hh by (exists rest; done).
    pose proof (load_ret p _ _ _ Hh (conj H0 Hb) Hn) as E. cbn [tab t_os] in E. rewrite Ts in E.
    assert ((r_version r =? 0) && (0 <? s) = false) as Hw.
    { destruct (Z.eqb_spec (r_version r) 0); [|done]. cbn. apply Z.ltb_ge. lia. }
    rewrite Hw, orb_false_r in E.
    destruct (Z.ltb_spec s (r_version r)) as [Hlt|Hge]; cbn [fst snd];
      (erewrite as_reader_ret; [|rewrite (bind_ret _ _ _ _ _ E); reflexivity]); cbn [tab t_os].
    + pose proof (zlen_nonneg (r_rows r)). rewrite (proj2 (Z.ltb_ge _ _)) by lia. eexists. split.
      * f_equal. unfold loaded, added. destruct t as [tb te tsv th [k|] tm]; cbn in *; subst key; [done|]. by rewrite Tm.
      * apply Hstep; [|by right]. unfold loaded, added, reader_ok.
        destruct t as [tb te tsv th [k|] tm]; cbn in *; subst key; (split; [done|]; split; [done|]; split; [|by split; [|lia]]).
        -- done.
        -- intros _. rewrite Tm by done. generalize (r_rows r) as l. induction l; [done|]. done.
    + rewrite (proj2 (Z.ltb_lt (-1) 0)) by lia. eexists. split; [done|].
      replace r with (mkReg (r_version r) (r_rows r) (<[j := s]> (r_seen r))) at 1.
      * apply Hstep; [|by left]. by destruct t.
      * rewrite (list_insert_id _ _ _ Es). by destruct r.
  - assert (load (mkTw t (sys w)) = Ret (-1) (mkTw (put_header (mkHeader 0 0 0) t) (sys w))) as E.
    { unfold load, read_header. rewrite bind_assoc.
      assert (mem_is p (mkTw t (sys w)) ([] ++ zrep L 0)) as Hm1 by done.
      rewrite (bind_ret _ _ _ _ _ (bytes_from_ret p _ [] _ 0 Hm1 eq_refl)).
      rewrite zlen_zrep by (unfold header_sz in HL12; lia). rewrite (proj2 (Z.ltb_ge _ _)) by done.
      rewrite bind_assoc. unfold tset at 1. rewrite bind_modify, bind_pure, header_at_zero. cbn [row_size].
      pose proof row_sizeof_fits. by rewrite (proj2 (Z.eqb_neq row_sizeof 0)) by lia. }
    erewrite as_reader_ret; [|rewrite (bind_ret _ _ _ _ _ E); reflexivity]. cbn [tab t_os].
    rewrite (proj2 (Z.ltb_ge s (r_version r))) by lia. cbn [fst snd]. eexists. split; [done|].
    replace r with (mkReg (r_version r) (r_rows r) (<[j := s]> (r_seen r))) at 1.
    + apply Hstep; [|by left]. by destruct t.
    + rewrite (list_insert_id _ _ _ Es). by destruct r.
Qed.

Definition is_publish (e : event) : Prop := match e with Publish _ _ => True | Poll _ => False end.
#[local] Instance is_publish_dec e : Decision (is_publish e).
Proof. destruct e; apply _. Defined.

Lemma events_ok p L (l : list event) : forall r (w : procs), sys_ok p L r w -> Forall (fits L) l ->
  r_version r + zlen (filter is_publish l) < 2 ^ 31 ->
  exists w' : procs, run_events l w = Ret (reg_run l r).1 w' /\ sys_ok p L (reg_run l r).2 w'.
Proof.
  induction l as [|e l IH]; intros r w Hs Hf Hb; cbn [run_events reg_run].
  - by exists w.
  - apply Forall_cons in Hf as [He Hf]. rewrite filter_cons in Hb. pose proof (zlen_nonneg (filter is_publish l)).
    assert (exists w1 : procs, run_event e w = Ret (reg_step e r).1 w1 /\ sys_ok p L (reg_step e r).2 w1 /\
              r_version (reg_step e r).2 + zlen (filter is_publish l) < 2 ^ 31) as (w1 & E & H1 & Hb1).
    { destruct e as [rs m|j].
      - rewrite decide_True, zlen_cons in Hb by done.
        destruct (publish_ok p L rs m r w Hs He) as (w1 & E & H1); [lia|]. exists w1. split; [done|]. split; [done|].
        cbn. lia.
      - rewrite decide_False in Hb by tauto. destruct (poll_ok p L j r w Hs He) as (w1 & E & H1); [lia|].
        exists w1. split; [done|]. split; [done|]. cbn. repeat case_match; cbn; lia. }
    rewrite (bind_ret _ _ _ _ _ E). destruct (reg_step e r) as [o r1]. cbn [fst snd] in *.
    destruct (IH r1 w1 H1 Hf Hb1) as (w2 & E2 & H2). rewrite (bind_ret _ _ _ _ _ E2).
    destruct (reg_run l r1) as [os r2]. by exists w2.
Qed.

(** Tables just attached at [p]. *)
Definition attached_at (p : Z) (key : option (row -> K)) : table :=
  mkTable (mkSbuf (semaphore sbuf0) [] [] 0 (-1) (Some p) 0 0 true) [] 0 (mkHeader 0 0 row_sizeof) key ∅.
Definition start (p : Z) (s : shm) : procs := mkProcs (attached_at p wkey) (attached_at p <$> rkeys) s.

(** [C20] One writer and any number of readers over zeroed shared memory, in any order of
    saves and loads: a load finds something exactly when a table was published that this
    reader has not loaded yet, and then it has all the rows of the last one and, in a map,
    their filing by key; a load that finds nothing changes nothing in what the others see.
    The rows published by a map are those whose keys it holds.  This is as long as the
    tables fit the memory and fewer than 2^31 are published. *)
Theorem table_is_register p L s (l : list event) :
  mapped p s = zrep L 0 -> header_sz <= L -> Forall (fits L) l -> zlen (filter is_publish l) < 2 ^ 31 ->
  exists w' : procs, run_events l (start p s) =
    Ret (reg_run l (mkReg 0 [] (replicate (length rkeys) 0))).1 w'.
Proof.
  intros Hm HL Hf Hb. destruct (events_ok p L l (mkReg 0 [] (replicate (length rkeys) 0)) (start p s)) as (w' & E & _);
    [|done|done|by exists w'].
  split; try done.
  - unfold memory_ok. cbn [sys start r_version r_rows]. rewrite Hm.
    split; [apply zlen_zrep; unfold header_sz in HL; lia|]. split; [done|]. split; [by rewrite zlen_nil|]. by right.
  - cbn. clear. induction rkeys as [|k l IH]; cbn; constructor; [|done].
    split; [done|]. split; [done|]. split; [done|]. split; [done|]. lia.
Qed.
End spec.
End rows.

(** * A system to evaluate on

    A system with one memory object and one semaphore, rows of one character. *)

(** The object (none before it is made), whether the semaphore exists, the calls that open
    and close. *)
Record sim_shm : Type := mkSim {
  object : option bytes;
  sem_there : bool;
  opened : list Z;       (* handles and descriptors open: 1 the semaphore, 2 the memory *)
  deny_mmap : bool
}.
Definition sim_opened (l : list Z) (s : sim_shm) : sim_shm := mkSim (object s) (sem_there s) l (deny_mmap s).

#[export] Instance sim_sys : ShmSys := {|
  shm := sim_shm;
  sem_open _ create s :=
    if sem_there s || create then (Some 1, mkSim (object s) true (1 :: opened s) (deny_mmap s)) else (None, s);
  sem_init _ _ s := (true, s);
  sem_getvalue _ _ := Some 1;
  sem_post _ s := (0, s);
  sem_wait _ s := (0, s);
  sem_close h s := (0, sim_opened (filter (fun x => x <> h) (opened s)) s);
  shm_open _ create s :=
    match object s with
    | Some _ => (Some 2, sim_opened (2 :: opened s) s)
    | None => if create then (Some 2, mkSim (Some []) (sem_there s) (2 :: opened s) (deny_mmap s)) else (None, s)
    end;
  ftruncate _ n s := (true, mkSim (Some (ztake n (default [] (object s)) ++ zrep (n - zlen (default [] (object s))) 0))
                              (sem_there s) (opened s) (deny_mmap s));
  stat_size _ _ := None;
  shm_close h s := (0, sim_opened (filter (fun x => x <> h) (opened s)) s);
  mmap _ _ s := (if deny_mmap s then None else Some 4096, s);
  munmap _ _ s := (0, s);
  mapped _ s := default [] (object s);
  poke _ o b s := mkSim (Some (put_at o b (default [] (object s)))) (sem_there s) (opened s) (deny_mmap s)
|}.
#[export] Instance sim_mem : ShmMem.
Proof. done. Qed.

Definition char_of (x : Z) : Ascii.ascii := Ascii.ascii_of_nat (Z.to_nat x).
Definition code_of (c : Ascii.ascii) : Z := Z.of_nat (Ascii.nat_of_ascii c).

#[export] Instance char_row : Row := {|
  row := Ascii.ascii;
  row_sizeof := 1;
  record_size := 1;
  row_load b := match b with x :: _ => Some (char_of x, 1) | [] => None end;
  row_buf c := [code_of c]
|}.
#[export] Instance char_row_ok : RowOk.
Proof.
  split; cbn; try done. intros r _. unfold char_of, code_of. by rewrite Nat2Z.id, Ascii.ascii_nat_embedding.
Qed.

Definition chars (s : string) : list Ascii.ascii := String.list_ascii_of_string s.
Definition keyed (s : string) : gmap Z Ascii.ascii := list_to_map ((fun c => (code_of c, c)) <$> chars s).

Definition blank : shm := mkSim (Some (zrep 20 0)) true [] false.
Definition by_code : option (row -> Z) := Some code_of.

(** A map of characters as the writer; a table and a map read.  The writer holds no key
    for [z]. *)
Lemma table_is_register_witness :
  let l := [Poll 0; Publish (chars "abz") (keyed "ab"); Poll 0; Poll 0; Poll 1; Publish (chars "c") (keyed "c"); Poll 0] in
  exists w' : procs,
    run_events l (start by_code [None; by_code] 4096 blank) =
      Ret [None; None; Some (chars "ab", ∅); None; Some (chars "ab", keyed "ab"); None; Some (chars "c", ∅)] w'.
Proof.
  intros l.
  destruct (table_is_register by_code [None; by_code] 4096 20 blank l)
    as [w' E].
  - reflexivity.
  - discriminate.
  - apply Forall_forall. intros e He. unfold l in He.
    repeat (apply elem_of_cons in He as [->|He]); try (by apply elem_of_nil in He); cbn;
      try lia; (split; [vm_compute; discriminate|vm_compute; reflexivity]).
  - vm_compute. reflexivity.
  - exists w'. rewrite E. vm_compute. reflexivity.
Defined.

(** ** What goes wrong *)

(** A second writer that starts on a table of version 2 publishes its own as version 1,
    which nobody who saw version 2 loads. *)
Definition publish_as (n : table (K:=Z)) (l : string) (s : shm) : option shm :=
  match save true (mkTw (put_entries (chars l) n) s) with Ret _ w => Some (t_os w) | _ => None end.
Theorem stale_writer_unseen :
  let t := attached_at 4096 (None : option (row -> Z)) in
  match run_events [Publish (chars "a") ∅; Publish (chars "b") ∅; Poll 0] (start None [None : option (row -> Z)] 4096 blank) with
  | Ret o r =>
      o = [None; None; Some (chars "b", ∅)] /\
      match publish_as t "c" (sys r) with
      | Some s =>
          match run_events [Poll 0] (mkProcs t (readers r) s) with Ret o' _ => o' = [None] | _ => False end
      | None => False
      end
  | _ => False
  end.
Proof. vm_compute. done. Qed.

(** An attach that fails leaves the semaphore and the memory open, and so does each that
    is tried again. *)
Theorem failed_attach_leaks :
  let once := attach (text "/t") 20 (text "/s") true in
  exists w, (once ;;; once) (mkBw sbuf0 (mkSim None true [] true)) = Ret false w /\ opened (os_ w) = [2; 1; 2; 1].
Proof. intros once. eexists. split; [vm_compute; reflexivity|reflexivity]. Qed.

(** An object that is there and empty: its size is asked of a file of its name, which there
    is not, so it stays empty; the attach succeeds and the first load reads what is not
    there. *)
Theorem empty_object_not_sized :
  exists w, attach (text "/t") 20 (text "/s") true (mkBw sbuf0 (mkSim (Some []) true [] false)) = Ret true w /\
    capacity_ (buf_ w) = 20 /\
    load (mkTw (K:=Z) (mkTable (buf_ w) [] 0 (mkHeader 0 0 1) None ∅) (os_ w)) = Undef.
Proof. eexists. split; [vm_compute; reflexivity|]. split; [reflexivity|vm_compute; reflexivity]. Qed.
