(* ===== verification/TcpCom.v ===== *)
(** * TcpCom: TCP and UNIX sockets (src/tcpcom.cpp, tcpcom.hpp, uxcom.cpp, uxcom.hpp)

    [TCPCom] over the system calls of [ComSock]; [UxCom] derives from it and has its own
    [connect] and [bind].  [made] and [closed] list the descriptors socket(2) gave out and
    those given to close(2), oldest first. *)

From S2P Require Export ComSock.
From S2P Require Import Numeric.

Definition AF_UNIX : Z := 1.
Definition SOCK_STREAM : Z := 1.
Definition MSG_PEEK : Z := 2.
Definition SHUT_RDWR : Z := 2.
Definition EAGAIN : Z := 11.
Definition EINPROGRESS : Z := 115.

(** getaddrinfo(3) with a family and a type (family, type, protocol and address of each
    answer), listen(2), accept(2), getsockopt(2) of SO_ERROR (its result and the error it
    stores), recv(2), send(2), shutdown(2). *)
Class TcpSys `{!SockSys} : Type := {
  ts_getaddrinfo : bytes -> bytes -> Z -> Z -> sk -> option (list (Z * Z * Z * bytes));
  ts_listen : Z -> Z -> sk -> Z * sk;
  ts_accept : Z -> sk -> Z * sk;
  ts_so_error : Z -> sk -> (Z * Z) * sk;
  ts_recv : Z -> Z -> Z -> sk -> (Z * bytes) * sk;
  ts_send : Z -> bytes -> sk -> Z * sk;
  ts_shutdown : Z -> Z -> sk -> Z * sk
}.

Section tcp.
Context {IN : Inet} {SK : SockSys} {PS : PeerSys} {TS : TcpSys}.

(** The members of [TCPCom] and of its base that it uses. *)
Record tcom : Type := mkTcom {
  t_fd : Z;                       (* socket() *)
  l3_proto : Z;
  nonlocal_src : bool;
  nonlocal_src_host : bytes;
  nonlocal_src_port : Z;
  nonlocal_dst : bool;
  connect_sock_family : Z;
  connect_sock_type : Z;
  bind_sock_family : Z;
  bind_sock_type : Z;
  bind_sock_protocol : Z;
  connect_proven : bool
}.

Definition new_tcpcom : tcom :=
  mkTcom 0 AF_INET false [] 0 false AF_UNSPEC SOCK_STREAM AF_INET6 SOCK_STREAM IPPROTO_TCP false.
Definition new_uxcom : tcom :=
  mkTcom 0 AF_UNIX false [] 0 false AF_UNIX SOCK_STREAM AF_UNIX SOCK_STREAM 0 false.
Definition listen_backlog : Z := 50.

(** The com, the sets of the poller of its master, [GLOBAL_IO_BLOCKING()]. *)
Record tworld : Type := mkTw {
  tc : tcom;
  in_read_set : gset Z;
  in_write_set : gset Z;
  io_blocking : bool;
  made : list Z;
  closed : list Z;
  tsys : sk
}.

Definition tset (f : tcom -> tcom) : M tworld unit :=
  modify (fun w => mkTw (f (tc w)) (in_read_set w) (in_write_set w) (io_blocking w) (made w) (closed w) (tsys w)).
Definition put_fd (v : Z) (c : tcom) : tcom :=
  mkTcom v (l3_proto c) (nonlocal_src c) (nonlocal_src_host c) (nonlocal_src_port c) (nonlocal_dst c)
    (connect_sock_family c) (connect_sock_type c) (bind_sock_family c) (bind_sock_type c) (bind_sock_protocol c)
    (connect_proven c).
Definition put_proven (v : bool) (c : tcom) : tcom :=
  mkTcom (t_fd c) (l3_proto c) (nonlocal_src c) (nonlocal_src_host c) (nonlocal_src_port c) (nonlocal_dst c)
    (connect_sock_family c) (connect_sock_type c) (bind_sock_family c) (bind_sock_type c) (bind_sock_protocol c) v.

(** Calls that open and close nothing, and those that do. *)
Definition on_sys {A} (m : M sk A) : M tworld A := fun w =>
  let back s := mkTw (tc w) (in_read_set w) (in_write_set w) (io_blocking w) (made w) (closed w) s in
  match m (tsys w) with
  | Ret a s => Ret a (back s)
  | Throw e s => Throw e (back s)
  | Undef => Undef
  end.
Definition sys1 (f : sk -> Z * sk) : M tworld Z := on_sys (syscall f).
Definition os_socket (family type protocol : Z) : M tworld Z := fun w =>
  let '(r, s) := sk_socket family type protocol (tsys w) in
  Ret r (mkTw (tc w) (in_read_set w) (in_write_set w) (io_blocking w) (if r <? 0 then made w else made w ++ [r]) (closed w) s).
Definition os_close (fd : Z) : M tworld Z := fun w =>
  let '(r, s) := sk_close fd (tsys w) in
  Ret r (mkTw (tc w) (in_read_set w) (in_write_set w) (io_blocking w) (made w) (closed w ++ [fd]) s).
Definition os_accept (fd : Z) : M tworld Z := fun w =>
  let '(r, s) := ts_accept fd (tsys w) in
  Ret r (mkTw (tc w) (in_read_set w) (in_write_set w) (io_blocking w) (if r <? 0 then made w else made w ++ [r]) (closed w) s).
Definition errno : M tworld Z := gets (fun w => sk_errno (tsys w)).

(** [baseCom::socket(int)]: a descriptor held before is only reported. *)
Definition set_socket (sock : Z) : M tworld Z := tset (put_fd sock) ;;; mret_ sock.

Definition on_new_socket (fd : Z) : M tworld unit :=
  if 0 <=? fd then on_sys (so_nodelay fd) ;;; on_sys (so_quickack fd) ;;; mret_ tt else mret_ tt.

(** [make_transparent]: bound to the source that is not local; a family that does not fit
    its type is AF_INET. *)
Definition make_transparent (sfd : Z) : M tworld bool :=
  c <- gets tc ;;
  r <- on_sys (namesocket sfd (nonlocal_src_host c) (nonlocal_src_port c)
                 (default AF_INET (down_cast_signed (mkIty 16 false) int_t (l3_proto c)))) ;;
  mret_ (r =? 0).

(** One address: whether the loop ends with this socket. *)
Definition connect_to (sfd : Z) (addr : bytes) : M tworld bool :=
  blocking <- gets io_blocking ;;
  if negb blocking then
    on_sys (unblock sfd) ;;;
    r <- sys1 (sk_connect sfd addr) ;;
    if r =? 0 then tset (put_proven true) ;;; mret_ true
    else e <- errno ;; mret_ (e =? EINPROGRESS)
  else r <- sys1 (sk_connect sfd addr) ;; mret_ (r =? 0).

Fixpoint connect_loop (l : list (Z * Z * Z * bytes)) (sfd : Z) : M tworld Z :=
  match l with
  | [] => mret_ sfd
  | (fam, type, proto, addr) :: l =>
      sfd <- os_socket fam type proto ;;
      if sfd <? 0 then connect_loop l sfd
      else
        on_new_socket sfd ;;;
        nonlocal <- gets (fun w => nonlocal_src (tc w)) ;;
        (if nonlocal : bool then make_transparent sfd ;;; mret_ tt else mret_ tt) ;;;
        stop <- connect_to sfd addr ;;
        if stop : bool then mret_ sfd
        else os_close sfd ;;; connect_loop l (-1)
  end.

Definition connect (host port : bytes) : M tworld Z :=
  c <- gets tc ;;
  gai <- gets (fun w => ts_getaddrinfo host port (connect_sock_family c) (connect_sock_type c) (tsys w)) ;;
  match gai with
  | None => mret_ (-2)
  | Some l => sfd <- connect_loop l (-1) ;; set_socket sfd
  end.

(** The address [bind] listens on: any. *)
Definition any_ss (family port : Z) : bytes :=
  let sa := put_at 0 (le_bytes 2 family) zero_ss in
  if (family =? AF_INET) || (family =? AF_INET6) then put_at 2 (be_bytes 2 port) sa else sa.

Definition bind (port : Z) : M tworld Z :=
  c <- gets tc ;;
  let fam := bind_sock_family c in
  sock <- os_socket fam (bind_sock_type c) (bind_sock_protocol c) ;;
  if sock =? -1 then mret_ (-129)
  else
    on_sys (so_reuseaddr sock) ;;;
    (if nonlocal_dst c then
       (if (fam =? AF_INET) || (fam =? AF_INET6) || (fam =? AF_UNSPEC) then on_sys (so_transparent_v4 sock) else mret_ 0) ;;;
       (if fam =? AF_INET6 then on_sys (so_transparent_v6 sock) else mret_ 0)
     else mret_ 0) ;;;
    r <- sys1 (sk_bind sock (any_ss fam port)) ;;
    if r =? -1 then os_close sock ;;; mret_ (-130)
    else
      r <- sys1 (ts_listen sock listen_backlog) ;;
      mret_ (if r =? -1 then -131 else sock).

Definition accept (sockfd : Z) : M tworld Z :=
  news <- os_accept sockfd ;;
  if news <? 0 then e <- errno ;; mret_ (if negb (e =? EAGAIN) then -1 else news)
  else on_new_socket news ;;; mret_ news.

(** ** Whether a connection is there

    The error SO_ERROR stores is overwritten by [errno], which a successful call leaves. *)
Definition is_connected (s : Z) : M tworld bool :=
  c <- gets tc ;;
  if connect_proven c then mret_ true
  else if t_fd c =? 0 then mret_ true
  else
    r <- on_sys (fun k => let '((r, _), k') := ts_so_error s k in Ret r k') ;;
    error_code <- errno ;;
    if r =? 0 then
      when (error_code =? 0) (tset (put_proven true)) ;;;
      if error_code =? EINPROGRESS then
        ready <- gets (fun w => bool_decide (s ∈ in_read_set w) || bool_decide (s ∈ in_write_set w)) ;;
        if ready : bool then tset (put_proven true) ;;; mret_ true else mret_ false
      else mret_ true
    else mret_ false.

Definition com_status : M tworld bool := c <- gets tc ;; is_connected (t_fd c).

(** ** Transfers: the value returned and the bytes stored *)

Definition read (fd n flags : Z) : M tworld (Z * bytes) :=
  on_sys (fun k => let '((r, b), k') := ts_recv fd n flags k in Ret (s32 r, b) k').
Definition peek (fd n flags : Z) : M tworld (Z * bytes) := read fd n (Z.lor flags MSG_PEEK).
Definition write (fd : Z) (b : bytes) : M tworld Z :=
  r <- sys1 (ts_send fd b) ;;
  if r <? 0 then e <- errno ;; mret_ (if e =? EAGAIN then 0 else r) else mret_ r.
Definition shutdown (fd : Z) : M tworld unit := sys1 (ts_shutdown fd SHUT_RDWR) ;;; mret_ tt.

(** ** UNIX sockets *)

(** [sockaddr_un]: the family, then [strncpy] into a zeroed path of 108 bytes, one less
    than its size. *)
Definition un_addr (family : Z) (path : bytes) : bytes :=
  le_bytes 2 family ++ ztake 107 path ++ zrep (108 - zlen (ztake 107 path)) 0.

Definition ux_connect (host : bytes) : M tworld Z :=
  c <- gets tc ;;
  sfd <- os_socket (connect_sock_family c) (connect_sock_type c) 0 ;;
  if sfd =? -1 then mret_ sfd
  else
    blocking <- gets io_blocking ;;
    sfd <- (if negb blocking then
              on_sys (unblock sfd) ;;;
              r <- sys1 (sk_connect sfd (un_addr (connect_sock_family c) host)) ;;
              if r <? 0 then
                e <- errno ;;
                if e =? EINPROGRESS then mret_ sfd else os_close sfd ;;; mret_ 0
              else mret_ sfd
            else
              r <- sys1 (sk_connect sfd (un_addr (connect_sock_family c) host)) ;;
              if negb (r =? 0) then os_close sfd ;;; mret_ 0 else mret_ sfd) ;;
    set_socket sfd.

Definition ux_bind_port (port : Z) : M tworld Z := mret_ (-1).
Definition ux_bind (name : bytes) : M tworld Z :=
  c <- gets tc ;;
  s <- os_socket (bind_sock_family c) (bind_sock_type c) (bind_sock_protocol c) ;;
  if s =? -1 then mret_ (-129)
  else
    on_sys (so_reuseaddr s) ;;;
    r <- sys1 (sk_bind s (un_addr (bind_sock_family c) name)) ;;
    if r =? -1 then os_close s ;;; mret_ (-130)
    else
      r <- sys1 (ts_listen s 10) ;;
      if r =? -1 then os_close s ;;; mret_ (-131) else mret_ s.
End tcp.
