(* ===== verification/TcpProps.v ===== *)
(** * TcpProps: descriptors of TCP and UNIX sockets, and what counts as connected *)

From S2P Require Export TcpCom.

Section props.
Context {IN : Inet} {SK : SockSys} {PS : PeerSys} {TS : TcpSys}.
Implicit Types w : tworld.

(** ** Computations that open and close nothing *)

Definition answers {A} (m : M sk A) : Prop := forall s, exists a s', m s = Ret a s'.

Lemma answers_syscall f : answers (syscall f).
Proof. intros s. unfold syscall. destruct (f s) as [r s']. by exists r, s'. Qed.
Lemma answers_ret {A} (a : A) : answers (mret_ a).
Proof. intros s. by exists a, s. Qed.
Lemma answers_gets {A} (f : sk -> A) : answers (gets f).
Proof. intros s. by exists (f s), s. Qed.
Lemma answers_bind {A B} (m : M sk A) (k : A -> M sk B) : answers m -> (forall a, answers (k a)) -> answers (mbind_ m k).
Proof. intros Hm Hk s. destruct (Hm s) as (a & s' & E). rewrite (bind_ret _ _ _ _ _ E). apply Hk. Qed.

(** [w'] has the com and the descriptors of [w]. *)
Definition same_com w w' : Prop :=
  tc w' = tc w /\ io_blocking w' = io_blocking w /\ in_read_set w' = in_read_set w /\
  in_write_set w' = in_write_set w /\ made w' = made w /\ closed w' = closed w.
Definition still {A} (m : M tworld A) : Prop := forall w, exists a w', m w = Ret a w' /\ same_com w w'.

Lemma still_sys {A} (m : M sk A) : answers m -> still (on_sys m).
Proof. intros Hm w. unfold on_sys. destruct (Hm (tsys w)) as (a & s & ->). by eexists _, _. Qed.
Lemma still_ret {A} (a : A) : still (mret_ a).
Proof. intros w. by exists a, w. Qed.
Lemma still_gets {A} (f : tworld -> A) : still (gets f).
Proof. intros w. by exists (f w), w. Qed.
Lemma still_bind {A B} (m : M tworld A) (k : A -> M tworld B) : still m -> (forall a, still (k a)) -> still (mbind_ m k).
Proof.
  intros Hm Hk w. destruct (Hm w) as (a & w1 & E & S1). rewrite (bind_ret _ _ _ _ _ E).
  destruct (Hk a w1) as (b & w2 & E2 & S2). exists b, w2. split; [done|].
  destruct S1 as (? & ? & ? & ? & ? & ?), S2 as (? & ? & ? & ? & ? & ?). repeat split; congruence.
Qed.
Lemma still_if {A} (b : bool) (m m' : M tworld A) : still m -> still m' -> still (if b then m else m').
Proof. by destruct b. Qed.

Create HintDb sockets.
Hint Resolve answers_syscall answers_ret answers_gets answers_bind still_sys still_ret still_gets still_bind still_if : sockets.

Lemma answers_setopt level name fd : answers (setopt level name fd).
Proof. apply answers_syscall. Qed.
Hint Resolve answers_setopt : sockets.
Lemma answers_unblock s : answers (unblock s).
Proof. unfold unblock. apply answers_bind; [eauto with sockets|]. intros f. case_if; eauto with sockets. Qed.
Lemma answers_name fd a p f : answers (namesocket fd a p f).
Proof.
  unfold namesocket, so_transparent_v4, so_transparent_v6. apply answers_bind; [repeat case_if; eauto with sockets|].
  intros _. apply answers_bind; [eauto with sockets|]. intros r. case_if; eauto with sockets.
Qed.
Hint Resolve answers_unblock answers_name : sockets.

Lemma still_new fd : still (on_new_socket fd).
Proof. unfold on_new_socket, so_nodelay, so_quickack. case_if; eauto with sockets. Qed.
Lemma still_transparent fd : still (make_transparent fd).
Proof. unfold make_transparent. eauto 6 with sockets. Qed.
Lemma still_sys1 f : still (sys1 f).
Proof. unfold sys1. eauto with sockets. Qed.
Hint Resolve still_new still_transparent still_sys1 : sockets.

(** ** Connecting *)

(** The com of [w] but for what a connect may have proven; its descriptors. *)
Definition tried w w' : Prop :=
  made w' = made w /\ closed w' = closed w /\ t_fd (tc w') = t_fd (tc w) /\
  (connect_proven (tc w) = true -> connect_proven (tc w') = true).

Lemma same_tried w w' : same_com w w' -> tried w w'.
Proof. intros (E & _ & _ & _ & ? & ?). unfold tried. rewrite E. done. Qed.
Lemma tried_trans a b c : tried a b -> tried b c -> tried a c.
Proof. intros (? & ? & ? & ?) (? & ? & ? & ?). split; [congruence|]. split; [congruence|]. split; [congruence|auto]. Qed.

Lemma connect_to_tried s addr w : exists b w', connect_to s addr w = Ret b w' /\ tried w w'.
Proof.
  unfold connect_to. rewrite bind_gets. destruct (io_blocking w); cbn [negb].
  - destruct (still_sys1 (sk_connect s addr) w) as (r & w1 & E & S1). rewrite (bind_ret _ _ _ _ _ E).
    eexists _, _. split; [done|]. by apply same_tried.
  - destruct (still_sys (unblock s) ltac:(eauto with sockets) w) as (r & w1 & E & S1). rewrite (bind_ret _ _ _ _ _ E).
    destruct (still_sys1 (sk_connect s addr) w1) as (r2 & w2 & E2 & S2). rewrite (bind_ret _ _ _ _ _ E2).
    pose proof (tried_trans _ _ _ (same_tried _ _ S1) (same_tried _ _ S2)) as Ht. case_if.
    + unfold tset. rewrite bind_modify. eexists _, _. split; [done|]. destruct Ht as (? & ? & ? & ?). done.
    + unfold errno. rewrite bind_gets. by eexists _, _.
Qed.

(** What was opened is closed but for the socket answered. *)
Definition accounts w w' (r : Z) : Prop :=
  exists cs, closed w' = closed w ++ cs /\ made w' = made w ++ cs ++ (if 0 <=? r then [r] else []).

Lemma connect_loop_accounts l : forall sfd w, sfd < 0 ->
  exists r w', connect_loop l sfd w = Ret r w' /\ accounts w w' r /\ t_fd (tc w') = t_fd (tc w) /\
    (connect_proven (tc w) = true -> connect_proven (tc w') = true).
Proof.
  induction l as [|[[[fam type] proto] addr] l IH]; intros sfd w Hs; cbn [connect_loop].
  - exists sfd, w. split; [done|]. split; [|done]. exists []. rewrite app_nil_r.
    by rewrite (proj2 (Z.leb_gt _ _)), app_nil_r by done.
  - unfold os_socket, mbind_ at 1. destruct (sk_socket fam type proto (tsys w)) as [s k].
    set (w0 := mkTw _ _ _ _ _ _ _). destruct (Z.ltb_spec s 0) as [Hn|Hp].
    + destruct (IH s w0 Hn) as (r & w' & E & HA & HF). by exists r, w'.
    + destruct (still_new s w0) as ([] & w1 & E1 & S1). rewrite (bind_ret _ _ _ _ _ E1), bind_gets.
      assert (still (if nonlocal_src (tc w1) then make_transparent s ;;; mret_ tt else mret_ tt)) as Hq
        by (apply still_if; [apply still_bind; [apply still_transparent|intros _; apply still_ret]|apply still_ret]).
      destruct (Hq w1) as ([] & w2 & E2 & S2).
      rewrite (bind_ret _ _ _ _ _ E2). destruct (connect_to_tried s addr w2) as (b & w3 & E3 & T3).
      rewrite (bind_ret _ _ _ _ _ E3).
      pose proof (tried_trans _ _ _ (tried_trans _ _ _ (same_tried _ _ S1) (same_tried _ _ S2)) T3) as (M & C & F & P).
      destruct b.
      * exists s, w3. split; [done|]. split; [|split; [exact F|exact P]]. exists []. rewrite C, M, app_nil_r.
        by rewrite (proj2 (Z.leb_le 0 s)).
      * unfold os_close, mbind_ at 1. destruct (sk_close s (tsys w3)) as [rc k3]. set (w4 := mkTw _ _ _ _ _ _ _).
        destruct (IH (-1) w4 ltac:(lia)) as (r & w' & E & (cs & A1 & A2) & HF & HP). exists r, w'. split; [done|].
        split; [|split; [by rewrite HF|by intros; apply HP, P]]. exists (s :: cs).
        rewrite A1, A2. cbn [w4 closed made]. rewrite C, M. cbn [w0 closed made]. by rewrite <- !app_assoc.
Qed.

(** [C32] Connecting leaves no socket behind. When [getaddrinfo] does not resolve the name, -2 is
    answered and nothing at all has changed: no socket was made, and the com has the one it had. When
    it gives addresses, however each socket(2), option and connect(2) ends, the call returns a
    descriptor, or a negative number for none, which the com then holds: of all sockets made for the
    addresses, in the order they were made, every one but the one answered has been closed again, once
    and in that order, and nothing else was closed. *)
Theorem connect_accounts host port w :
  match ts_getaddrinfo host port (connect_sock_family (tc w)) (connect_sock_type (tc w)) (tsys w) with
  | None => connect host port w = Ret (-2) w
  | Some _ => exists r w', connect host port w = Ret r w' /\ accounts w w' r /\ t_fd (tc w') = r
  end.
Proof.
  destruct (ts_getaddrinfo _ _ _ _ _) as [l|] eqn:E; unfold connect; rewrite !bind_gets, E; [|done].
  destruct (connect_loop_accounts l (-1) w ltac:(lia)) as (r & w1 & E1 & HA & _). rewrite (bind_ret _ _ _ _ _ E1).
  unfold set_socket, tset. rewrite bind_modify. eexists _, _. by split.
Qed.

(** A com that proved a connection once takes every later one for proven. *)
Theorem reconnect_trusts_old_proof host port w : connect_proven (tc w) = true ->
  exists r w', connect host port w = Ret r w' /\ forall s, is_connected s w' = Ret true w'.
Proof.
  intros Hp. unfold connect. rewrite !bind_gets. destruct (ts_getaddrinfo _ _ _ _ _) as [l|].
  - destruct (connect_loop_accounts l (-1) w ltac:(lia)) as (r & w1 & E & _ & _ & HP). rewrite (bind_ret _ _ _ _ _ E).
    unfold set_socket, tset. rewrite bind_modify. eexists _, _. split; [done|]. intros s. unfold is_connected.
    rewrite bind_gets. cbn. by rewrite HP.
  - eexists _, _. split; [done|]. intros s. unfold is_connected. by rewrite bind_gets, Hp.
Qed.

(** ** Binding *)

(** Binding: the socket answered is the one made and still open; one that cannot be
    bound is closed; one that cannot listen is lost, neither answered nor closed. *)
Theorem bind_accounts port w :
  exists r w', bind port w = Ret r w' /\ tc w' = tc w /\
    (r = -129 /\ made w' = made w /\ closed w' = closed w \/
     exists s, (0 <= s -> made w' = made w ++ [s]) /\
       (r = s /\ closed w' = closed w \/ r = -130 /\ closed w' = closed w ++ [s] \/ r = -131 /\ closed w' = closed w)).
Proof.
  unfold bind. rewrite bind_gets. unfold os_socket, mbind_ at 1.
  destruct (sk_socket (bind_sock_family (tc w)) (bind_sock_type (tc w)) (bind_sock_protocol (tc w)) (tsys w)) as [s k].
  set (w0 := mkTw _ _ _ _ _ _ _). destruct (Z.eqb_spec s (-1)) as [->|Hs].
  - exists (-129), w0. split; [done|]. split; [done|]. by left.
  - set (opts := if nonlocal_dst (tc w) then _ else _).
    assert (still opts) as Hq.
    { unfold opts, so_transparent_v4, so_transparent_v6. destruct (nonlocal_dst (tc w)); [|eauto with sockets].
      apply still_bind; [|intros _]; case_if; eauto with sockets. }
    destruct (still_sys (so_reuseaddr s) ltac:(eauto with sockets) w0) as (? & w1 & E1 & S1). rewrite (bind_ret _ _ _ _ _ E1).
    destruct (Hq w1) as (? & w2 & E2 & S2). rewrite (bind_ret _ _ _ _ _ E2).
    destruct (still_sys1 (sk_bind s (any_ss (bind_sock_family (tc w)) port)) w2) as (r & w3 & E3 & S3).
    rewrite (bind_ret _ _ _ _ _ E3).
    assert (tc w3 = tc w /\ made w3 = made w0 /\ closed w3 = closed w) as (T & Mk & Cl).
    { destruct S1 as (? & ? & ? & ? & ? & ?), S2 as (? & ? & ? & ? & ? & ?), S3 as (? & ? & ? & ? & ? & ?).
      assert (tc w0 = tc w) by done. assert (closed w0 = closed w) by done. repeat split; congruence. }
    assert (0 <= s -> made w3 = made w ++ [s]) as Hm.
    { intros. rewrite Mk. cbn. by rewrite (proj2 (Z.ltb_ge s 0)). }
    destruct (r =? -1).
    + unfold os_close, mbind_ at 1. destruct (sk_close s (tsys w3)) as [rc k3]. eexists _, _. split; [done|].
      split; [done|]. right. exists s. split; [done|]. right. left. cbn. by rewrite Cl.
    + destruct (still_sys1 (ts_listen s listen_backlog) w3) as (r2 & w4 & E4 & (T4 & _ & _ & _ & M4 & C4)).
      rewrite (bind_ret _ _ _ _ _ E4). eexists _, _. split; [done|]. split; [congruence|]. right. exists s.
      split; [by rewrite M4|]. rewrite C4, Cl. destruct (r2 =? -1); [right; by right|by left].
Qed.

(** ** Connected or not *)

(** Whether a com is connected, exactly: once proven, always; without a socket, always;
    else a failing getsockopt(2) says no, a last error EINPROGRESS says whether the poller
    shows the socket, and anything else says yes.  The error of the socket itself, which
    SO_ERROR stores, has no part in it: a refused connection is connected. *)
Theorem is_connected_exact s w r e k :
  ts_so_error s (tsys w) = ((r, e), k) ->
  let ready := bool_decide (s ∈ in_read_set w) || bool_decide (s ∈ in_write_set w) in
  let looked := negb (connect_proven (tc w)) && negb (t_fd (tc w) =? 0) in
  exists w', is_connected s w =
      Ret (if looked then (r =? 0) && (if sk_errno k =? EINPROGRESS then ready else true) else true) w' /\
    connect_proven (tc w') =
      connect_proven (tc w) || looked && (r =? 0) && ((sk_errno k =? 0) || (sk_errno k =? EINPROGRESS) && ready).
Proof.
  intros E ready looked. unfold looked, is_connected. rewrite bind_gets.
  destruct (connect_proven (tc w)) eqn:Ep; cbn [negb andb orb]; [by exists w|].
  destruct (Z.eqb_spec (t_fd (tc w)) 0); cbn [negb andb orb]; [by exists w|].
  set (w1 := mkTw (tc w) (in_read_set w) (in_write_set w) (io_blocking w) (made w) (closed w) k).
  assert (on_sys (fun k => let '((r, _), k') := ts_so_error s k in Ret r k') w = Ret r w1) as E1.
  { unfold on_sys. by rewrite E. }
  rewrite (bind_ret _ _ _ _ _ E1). unfold errno. rewrite bind_gets. cbn [tsys w1].
  destruct (Z.eqb_spec r 0); cbn [andb]; [|by exists w1].
  unfold when, tset. destruct (Z.eqb_spec (sk_errno k) 0) as [E0|E0]; cbn [orb].
  - rewrite bind_modify, E0. by eexists.
  - rewrite bind_pure. destruct (Z.eqb_spec (sk_errno k) EINPROGRESS) as [E2|E2]; cbn [andb]; [|by exists w1].
    rewrite bind_gets. cbn [in_read_set in_write_set w1]. fold ready. destruct ready; [|by exists w1].
    rewrite bind_modify. by eexists.
Qed.

(** A UNIX connect that failed answers descriptor 0, and the com counts as connected. *)
Theorem failed_ux_connect_looks_connected host w w' :
  ux_connect host w = Ret 0 w' -> com_status w' = Ret true w'.
Proof.
  intros E. unfold ux_connect in E. rewrite bind_gets in E.
  destruct (bind_inv _ _ _ _ _ E) as (s & w1 & E1 & E2). case_if_in E2; [injection E2 as E2 _; lia|].
  rewrite bind_gets in E2. destruct (bind_inv _ _ _ _ _ E2) as (s2 & w2 & E3 & E4).
  unfold set_socket, tset in E4. rewrite bind_modify in E4. injection E4 as -> <-.
  unfold com_status. rewrite bind_gets. unfold is_connected. rewrite bind_gets. cbn. by destruct (connect_proven (tc w2)).
Qed.

(** A UNIX com closes what it does not answer, also when it cannot listen. *)
Theorem ux_bind_accounts name w :
  exists r w', ux_bind name w = Ret r w' /\
    (r = -129 /\ made w' = made w /\ closed w' = closed w \/
     exists s, (0 <= s -> made w' = made w ++ [s]) /\
       (r = s /\ closed w' = closed w \/ (r = -130 \/ r = -131) /\ closed w' = closed w ++ [s])).
Proof.
  unfold ux_bind. rewrite bind_gets. unfold os_socket, mbind_ at 1.
  destruct (sk_socket (bind_sock_family (tc w)) (bind_sock_type (tc w)) (bind_sock_protocol (tc w)) (tsys w)) as [s k].
  set (w0 := mkTw _ _ _ _ _ _ _). destruct (Z.eqb_spec s (-1)) as [->|Hs].
  - exists (-129), w0. split; [done|]. by left.
  - destruct (still_sys (so_reuseaddr s) ltac:(eauto with sockets) w0) as (? & w1 & E1 & S1). rewrite (bind_ret _ _ _ _ _ E1).
    destruct (still_sys1 (sk_bind s (un_addr (bind_sock_family (tc w)) name)) w1) as (r & w2 & E2 & S2).
    rewrite (bind_ret _ _ _ _ _ E2).
    assert (made w2 = made w0 /\ closed w2 = closed w) as (Mk & Cl).
    { destruct S1 as (? & ? & ? & ? & ? & ?), S2 as (? & ? & ? & ? & ? & ?).
      assert (closed w0 = closed w) by done. split; congruence. }
    assert (0 <= s -> made w2 = made w ++ [s]) as Hm.
    { intros. rewrite Mk. cbn. by rewrite (proj2 (Z.ltb_ge s 0)). }
    destruct (r =? -1).
    + unfold os_close, mbind_ at 1. destruct (sk_close s (tsys w2)) as [rc k3]. eexists _, _. split; [done|].
      right. exists s. split; [done|]. right. split; [by left|]. cbn. by rewrite Cl.
    + destruct (still_sys1 (ts_listen s 10) w2) as (r2 & w4 & E4 & (T4 & _ & _ & _ & M4 & C4)).
      rewrite (bind_ret _ _ _ _ _ E4). destruct (r2 =? -1).
      * unfold os_close, mbind_ at 1. destruct (sk_close s (tsys w4)) as [rc k3]. eexists _, _. split; [done|].
        right. exists s. cbn. rewrite M4. split; [done|]. right. split; [by right|]. by rewrite C4, Cl.
      * eexists _, _. split; [done|]. right. exists s. rewrite M4. split; [done|]. left. by rewrite C4.
Qed.
End props.

(** * The com under a context

    [TCPCom] keeps the interface that [HostCX] asks of a com: with a kernel whose recv(2) and
    send(2) transfer what they are asked to, [tcp_com] is an instance of [Com].  The members
    a context does not see, whether a connection is proven, are kept by descriptor. *)

From S2P Require Import HostCX HostCXProps.
From S2P Require TcpCom.

Import TcpCom.

(** recv(2) and send(2): at most what is asked for, never 2^31 bytes at once. *)
Class TcpOk `{TcpSys} : Prop := {
  ts_recv_ok : forall fd n flags s r b s', ts_recv fd n flags s = ((r, b), s') -> 0 <= n ->
    -1 <= r <= Z.max 0 n /\ r < 2 ^ 31 /\ (0 < r -> zlen b = r);
  ts_send_ok : forall fd b s r s', ts_send fd b s = (r, s') -> r <= zlen b
}.

Section net.
Context {IN : Inet} {SK : SockSys} {PS : PeerSys} {TS : TcpSys} {TO : TcpOk}.

Record tnet : Type := mkTnet {
  proven : gset Z;
  tn_read_set : gset Z;
  tn_write_set : gset Z;
  tn_blocking : bool;
  tn_made : list Z;
  tn_closed : list Z;
  tn_sys : sk
}.

(** The com of a context as a [TCPCom], and back. *)
Definition world_of (n : tnet) (c : comst) : tworld :=
  mkTw (put_proven (bool_decide (fd_ c ∈ proven n)) (put_fd (fd_ c) new_tcpcom))
    (tn_read_set n) (tn_write_set n) (tn_blocking n) (tn_made n) (tn_closed n) (tn_sys n).
Definition net_of (w : tworld) (n : tnet) : tnet :=
  mkTnet (if connect_proven (tc w) then {[t_fd (tc w)]} ∪ proven n else proven n)
    (in_read_set w) (in_write_set w) (io_blocking w) (made w) (closed w) (tsys w).

Definition run {A} (d : A) (m : M tworld A) (n : tnet) (c : comst) : A * comst * tnet :=
  match m (world_of n c) with
  | Ret a w => (a, set_fd (t_fd (tc w)) c, net_of w n)
  | _ => (d, c, n)
  end.

Definition to_string (b : bytes) : string :=
  String.string_of_list_ascii ((fun x => Ascii.ascii_of_nat (Z.to_nat x)) <$> b).

Definition unblocked (n : tnet) (s : Z) : tnet :=
  mkTnet (proven n) (tn_read_set n) (tn_write_set n) (tn_blocking n) (tn_made n) (tn_closed n)
    (match unblock s (tn_sys n) with Ret _ k => k | _ => tn_sys n end).

#[export] Program Instance tcp_com : Com := {|
  net := tnet;
  HostCX.translate_socket s := s;
  com_read n c s m :=
    if m <? 0 then (m, [], c, n)
    else run (-1, []) (TcpCom.read s m 0) n c;
  com_write n c s b := run (-1) (TcpCom.write s b) n c;
  com_connect n c h p := run (-1) (TcpCom.connect (text h) (text p)) n c;
  com_shutdown n c s := let '(_, c, n) := run tt (TcpCom.shutdown s) n c in (c, n);
  HostCX.com_status n c := run false TcpCom.com_status n c;
  com_is_connected n c s := run false (TcpCom.is_connected s) n c;
  com_readable _ _ _ := true;
  com_writable _ _ _ := true;
  com_accept_socket n c _ := (c, n);
  com_delay_socket n c _ := (c, n);
  com_resolve_src n s :=
    match base_resolve_socket [] true s (tn_sys n) with
    | Some (h, p, _, _) => Some (to_string h, to_string p)
    | None => None
    end;
  com_unblock := unblocked
|}.
Next Obligation.
  intros n c s m r bs c' n' E. cbn in E. destruct (Z.ltb_spec m 0) as [Hm|Hm].
  { injection E as <- <- _ _. split; [lia|]. lia. }
  unfold run, TcpCom.read, on_sys in E. cbn in E.
  destruct (ts_recv s m 0 (tn_sys n)) as [[r0 b0] k0] eqn:Er. apply ts_recv_ok in Er as (H1 & H2 & H3); [|done].
  cbn in E. rewrite wraps_small in E by (change (2 ^ (32 - 1)) with (2 ^ 31); lia).
  injection E as <- <- _ _. split; [lia|exact H3].
Qed.
Next Obligation.
  intros n c s b r c' n' E. cbn in E. unfold run, TcpCom.write, sys1, on_sys, syscall, mbind_ in E. cbn in E.
  destruct (ts_send s b (tn_sys n)) as [r0 k0] eqn:Er. apply ts_send_ok in Er. pose proof (zlen_nonneg b).
  destruct (r0 <? 0); cbn in E.
  - unfold errno, gets, mret_ in E. cbn in E. injection E as <- _ _. destruct (_ =? EAGAIN); lia.
  - unfold mret_ in E. cbn in E. injection E as <- _ _. done.
Qed.
End net.

(** * A kernel to evaluate TCP sockets on

    Descriptors are numbered from 5 up; connecting is in progress at first, and refused when
    the socket is asked; [inbox] is what a receive gets. *)

From S2P Require Import SockInfo SockInfoProps HostCX HostCXProps.
From S2P Require TcpCom.

Record tsim : Type := mkTsim { inbox : bytes; next_fd : Z; last_errno : Z; so_errno : Z }.

Definition done_ok (s : tsim) : Z * tsim := (0, s).

#[export] Instance tsim_inet : Inet := raw_inet.
#[export] Instance tsim_sock : SockSys := {|
  sk := tsim;
  sk_socket _ _ _ s := (next_fd s, mkTsim (inbox s) (next_fd s + 1) (last_errno s) (so_errno s));
  sk_setsockopt _ _ _ _ := done_ok;
  sk_getfl _ := done_ok;
  sk_setfl _ _ := done_ok;
  sk_bind _ _ := done_ok;
  sk_connect _ _ s := (-1, mkTsim (inbox s) (next_fd s) TcpCom.EINPROGRESS (so_errno s));
  sk_close _ := done_ok
|}.
#[export] Instance tsim_peers : PeerSys := {| sk_peer _ _ _ := None; sk_errno := last_errno |}.
#[export] Instance tsim_tcp : TcpCom.TcpSys := {|
  TcpCom.ts_getaddrinfo _ _ _ _ _ := Some [(AF_INET, TcpCom.SOCK_STREAM, 0, zrep 16 0)];
  TcpCom.ts_listen _ _ s := (-1, s);
  TcpCom.ts_accept _ s := (Z.max 1 (Z.min (2 ^ 31 - 1) (next_fd s)), mkTsim (inbox s) (next_fd s + 1) (last_errno s) (so_errno s));
  TcpCom.ts_so_error _ s := ((0, so_errno s), s);
  TcpCom.ts_recv _ n _ s :=
    let b := ztake (Z.min n (2 ^ 31 - 1)) (inbox s) in
    ((zlen b, b), mkTsim (zdrop (zlen b) (inbox s)) (next_fd s) (last_errno s) (so_errno s));
  TcpCom.ts_send _ b s := (zlen b, s);
  TcpCom.ts_shutdown _ _ s := (0, s)
|}.
#[export] Instance tsim_ok : TcpOk.
Proof.
  split; cbn.
  - intros fd n flags s r b s' E Hn. injection E as <- <- _.
    pose proof (zlen_nonneg (ztake (Z.min n (2 ^ 31 - 1)) (inbox s))).
    assert (zlen (ztake (Z.min n (2 ^ 31 - 1)) (inbox s)) <= Z.min n (2 ^ 31 - 1)).
    { rewrite zlen_length. unfold ztake. rewrite length_take. lia. }
    lia.
  - intros fd b s r s' E. injection E as <- _. lia.
Qed.

Definition sim0 : tsim := mkTsim (text "hello") 5 0 111.
Definition tcp_start : TcpCom.tworld := TcpCom.mkTw TcpCom.new_tcpcom ∅ ∅ false [] [] sim0.

(** A connection that is refused (error 111 of the socket) while no call failed since:
    connected. *)
Lemma is_connected_exact_witness :
  let w := TcpCom.mkTw (TcpCom.put_fd 5 TcpCom.new_tcpcom) ∅ ∅ false [5] [] sim0 in
  exists w', TcpCom.is_connected 5 w = Ret true w' /\ TcpCom.connect_proven (TcpCom.tc w') = true.
Proof.
  intros w. assert (TcpCom.ts_so_error 5 (TcpCom.tsys w) = ((0, 111), sim0)) as H by reflexivity.
  destruct (is_connected_exact 5 w 0 111 sim0 H) as (w' & E & P). exists w'.
  split; [exact E|exact P].
Defined.

(** A port that cannot be listened on: the socket stays open and nobody has it. *)
Example unheard_socket_lost :
  exists w', TcpCom.bind 80 tcp_start = Ret (-131) w' /\ TcpCom.made w' = [5] /\ TcpCom.closed w' = [].
Proof. eexists. split; [vm_compute; reflexivity|done]. Qed.

(** A context reads through the TCP com what the kernel has. *)
Definition tcp_net : tnet := mkTnet ∅ ∅ ∅ false [] [] sim0.
Definition tcp_world : world (CO := tcp_com) :=
  mkWorld (CO := tcp_com) (<[1 := demo_cx 7 2 false []]> (<[2 := demo_cx 8 1 false []]> ∅))
    (mkEpoller (Some demo_poller) ∅ ∅) tcp_net 100 ∅ false.
Example context_reads_over_tcp :
  match HostCX.read (CO := tcp_com) 1 tcp_world with
  | Ret r w => r = 5 /\ (lb_data ∘ readbuf_) <$> w_cxs w !! 1 = Some (text "hello")
  | _ => False
  end.
Proof. vm_compute. done. Qed.
