(* ===== verification/Acceptor.v ===== *)
(** * Acceptor: connections handed to workers (src/threadedacceptor.cpp, threadedacceptor.hpp)

    The acceptor is a proxy that pushes what it accepts into the queue of [Fdq]; its workers
    are master proxies in threads of their own, each with its own contexts and poller, that
    pop a descriptor, make a context of it and go on with the round of a master.  One step
    of a thread is one handler; the network is the same for all of them.

    [new_cx] and [on_left_new] are virtual; [baseProxy]'s are those of [BaseProxy]. *)

From stdpp Require Import gmap.
From S2P Require Export Fdq MasterProxy ComSock.

Definition SO_ORIGINAL_DST : Z := 80.

(** getsockopt(2) of the destination a redirected connection had, and what the stack buffer
    of an address's text holds. *)
Class OrigDst `{!SockSys} : Type := {
  sk_orig_dst : Z -> Z -> Z -> sk -> option bytes;
  os_stack : bytes
}.

(** The sockets of a com's network. *)
Class NetSock `{Com} `{!SockSys} : Type := { net_sk : net -> sk }.

Section acceptor.
Context {EK : EpollKernel} {ST : Storage} {CO : Com} {PE : ProxyEnv} {EV : WorkerEnv} {DE : Destroy} {SY : FdSys}.
Context {IN : Inet} {SK : SockSys} {PS : PeerSys} {OD : OrigDst} {NS : NetSock}.

(** ** Where a connection was meant to go *)

(** [baseCom::resolve_redirected] *)
Definition resolve_redirected (s : Z) (k : sk) : option (bytes * bytes * bytes * option Z) :=
  let asked := match sk_orig_dst SOL_IP SO_ORIGINAL_DST s k with
               | Some p => Some p
               | None => sk_orig_dst SOL_IPV6 SO_ORIGINAL_DST s k
               end in
  end_text os_stack <$> asked.

Definition resolve_nonlocal_dst_socket (s : Z) (k : sk) : dst -> dst :=
  base_resolve_nonlocal_dst_socket os_stack s k.
Definition resolve_redirected_dst_socket (s : Z) (k : sk) : dst -> dst := resolved (resolve_redirected s k).

(** ** A worker *)

(** [me] is its proxy, [wk_dsts] what the coms of its contexts hold. *)
Record worker : Type := mkWorker {
  wk_id : Z;
  me : Z;
  wk_type : proxyType;
  wk_nonlocal_dst : bool;
  has_parent : bool;
  has_thread : bool;
  wk_m : mworld;
  wk_dsts : gmap Z dst
}.

(** A worker running, with the queue of its parent; [taken] lists what all workers took out
    of it, oldest first: the worker and the descriptor. *)
Record wworld : Type := mkWw { w_q : fdq; w_m : mworld; w_dsts : gmap Z dst; taken : list (Z * Z) }.

Definition on_q {A} (m : M fdq A) : M wworld A := fun w =>
  match m (w_q w) with
  | Ret a q => Ret a (mkWw q (w_m w) (w_dsts w) (taken w))
  | Throw e q => Throw e (mkWw q (w_m w) (w_dsts w) (taken w))
  | Undef => Undef
  end.
Definition in_m {A} (m : M mworld A) : M wworld A := fun w =>
  match m (w_m w) with
  | Ret a u => Ret a (mkWw (w_q w) u (w_dsts w) (taken w))
  | Throw e u => Throw e (mkWw (w_q w) u (w_dsts w) (taken w))
  | Undef => Undef
  end.
Definition upd_dst (i : Z) (f : dst -> dst) : M wworld unit :=
  modify (fun w => mkWw (w_q w) (w_m w) (<[i := f (default new_dst (w_dsts w !! i))]> (w_dsts w)) (taken w)).
Section worker.
Context (new_cx : Z -> M pworld Z) (on_left_new : Z -> M pworld unit) (wk : worker).

(** A member function of the worker's own proxy, and one of its world. *)
Definition in_p {A} (m : M pworld A) : M wworld A := in_m (in_r (on_proxy (me wk) m)).
Definition sockets_of : M wworld sk := gets (fun w => net_sk (w_net (r_w (m_r (w_m w))))).

(** What owns the context until it is released: an exception destroys it. *)
Definition owning (i : Z) (m : M wworld unit) : M wworld unit := fun w =>
  match m w with
  | Throw e w' => (in_p (lift (cx_destroy i)) ;;; throw e) w'
  | o => o
  end.

Definition note_taken (s : Z) : M wworld unit :=
  modify (fun w => mkWw (w_q w) (w_m w) (w_dsts w) (taken w ++ [(wk_id wk, s)])).

(** The body of the [try]: a context of the descriptor, and what is done with it. *)
Definition adopt (s : Z) : M wworld Z :=
  i <- in_p (new_cx s) ;;
  upd_dst i (fun _ => new_dst) ;;;
  owning i
    (waiting <- in_p (lift (read_waiting_for_peercom i)) ;;
     in_p (lift (if waiting then on_delay_socket i s else on_accept_socket i s)) ;;;
     upd_dst i (put_nonlocal (wk_nonlocal_dst wk)) ;;;
     k <- sockets_of ;;
     when (is_transparent (wk_type wk)) (upd_dst i (resolve_nonlocal_dst_socket s k)) ;;;
     when (negb (is_transparent (wk_type wk)) && is_redirect (wk_type wk))
       (upd_dst i (resolve_redirected_dst_socket s k))) ;;;
  mret_ i.
Definition hand_over (s : Z) : M wworld unit := i <- adopt s ;; in_p (on_left_new i).

(** What is popped, 0 when the queue is empty; the load is the number of sub-proxies. *)
Definition pick_up : M wworld Z :=
  n <- gets (fun w => zlen (m_subs (w_m w))) ;;
  on_q (update_load (wk_id wk) (u32 n)) ;;;
  on_q (pop (wk_id wk)).

(** [ThreadedAcceptorProxy::handle_sockets_once]; a worker without a parent dereferences it. *)
Definition worker_once (parent_dead : bool) (sched : nat -> list Z) (fuel : nat) : M wworld (option Z) :=
  if negb (has_parent wk) then undef
  else
    when parent_dead (in_p (pset (set_dead true))) ;;;
    s <- pick_up ;;
    when (0 <? s) (note_taken s ;;; try_catch (hand_over s) com_error (mret_ tt)) ;;;
    in_m (master_once sched fuel (me wk)).

(** One such round as the loop of [run] treats it: a runtime error ends the worker. *)
Definition worker_turn (parent_dead : bool) (sched : nat -> list Z) (fuel : nat) : M wworld unit := fun w =>
  match worker_once parent_dead sched fuel w with
  | Ret _ w' => Ret tt w'
  | Throw e w' => if is_runtime_error e then in_p (pset (set_dead true)) w' else Throw e w'
  | Undef => Undef
  end.
End worker.

(** ** The acceptor and its workers *)

(** The acceptor's own world has the network; [accepted] lists what was accepted and
    [sys_taken] what was taken, oldest first. *)
Record system : Type := mkSystem {
  acceptor : pworld;
  sys_q : fdq;
  proxy_type_ : proxyType;
  acc_nonlocal_dst : bool;
  workers : list worker;
  accepted : list Z;
  sys_taken : list (Z * Z)
}.

Definition in_acceptor {A} (m : M pworld A) : M system A := fun s =>
  let back u := mkSystem u (sys_q s) (proxy_type_ s) (acc_nonlocal_dst s) (workers s) (accepted s) (sys_taken s) in
  match m (acceptor s) with
  | Ret a u => Ret a (back u)
  | Throw e u => Throw e (back u)
  | Undef => Undef
  end.

(** [hint_push_all] *)
Definition hint_push_all (fd : Z) : M system Z := fun s =>
  let back q := mkSystem (acceptor s) q (proxy_type_ s) (acc_nonlocal_dst s) (workers s) (accepted s) (sys_taken s) in
  match push_all fd (sys_q s) with
  | Ret a q => Ret a (back q)
  | Throw e q => Throw e (back q)
  | Undef => Undef
  end.
Definition on_left_new_raw (fd : Z) : M system unit := hint_push_all fd ;;; mret_ tt.
Definition on_right_new_raw (fd : Z) : M system unit := hint_push_all fd ;;; mret_ tt.
Definition note_accepted (fd : Z) : M system unit :=
  modify (fun s => mkSystem (acceptor s) (sys_q s) (proxy_type_ s) (acc_nonlocal_dst s) (workers s) (accepted s ++ [fd]) (sys_taken s)).

(** [handle_sockets_accept] of the acceptor, whose [new_raw] its constructor sets. *)
Definition acceptor_accept (left : bool) (i : Z) : M system bool :=
  fd <- in_acceptor (look fds_ i) ;;
  client <- in_acceptor (lift (fun w => let '(r, n) := com_accept (w_net w) fd in Ret r (set_net n w))) ;;
  if client <? 0 then mret_ false
  else
    note_accepted client ;;;
    (if left then on_left_new_raw client else on_right_new_raw client) ;;;
    mret_ true.

(** A bound socket in the acceptor's round, as [accept_bound]. *)
Definition acceptor_bound (left : bool) (i : Z) : M system unit :=
  s <- in_acceptor (look fds_ i) ;;
  ready <- in_acceptor (in_readset s) ;;
  if ready then
    acceptor_accept left i ;;;
    if fd_locked s then in_acceptor (pset (or_status (if left then HANDLE_LEFT_NEW else HANDLE_RIGHT_NEW)))
    else throw runtime_error
  else mret_ tt.

(** The same as the loop of [run] treats it. *)
Definition acceptor_turn (left : bool) (i : Z) : M system unit := fun s =>
  match acceptor_bound left i s with
  | Throw e s' => if is_runtime_error e then in_acceptor (pset (set_dead true)) s' else Throw e s'
  | o => o
  end.

(** Run worker [k] with the queue and the network as they are. *)
Definition with_net (n : net) (u : mworld) : mworld := mkMworld (set_rw (set_net n (r_w (m_r u))) (m_r u)) (m_subs u) (m_tick u).
Definition put_world (w : wworld) (k : worker) : worker :=
  mkWorker (wk_id k) (me k) (wk_type k) (wk_nonlocal_dst k) (has_parent k) (has_thread k)
    (w_m w) (w_dsts w).
Definition enter (k : worker) (s : system) : wworld :=
  mkWw (sys_q s) (with_net (w_net (pw (acceptor s))) (wk_m k)) (wk_dsts k) (sys_taken s).
Definition leave (j : nat) (k : worker) (w : wworld) (s : system) : system :=
  mkSystem (mkPworld (set_net (w_net (r_w (m_r (w_m w)))) (pw (acceptor s))) (px (acceptor s)))
    (w_q w) (proxy_type_ s) (acc_nonlocal_dst s) (<[j := put_world w k]> (workers s)) (accepted s) (taken w).
Definition as_worker {A} (j : nat) (m : worker -> M wworld A) : M system A := fun s =>
  match workers s !! j with
  | None => Undef
  | Some k =>
      match m k (enter k s) with
      | Ret a w => Ret a (leave j k w s)
      | Throw e w => Throw e (leave j k w s)
      | Undef => Undef
      end
  end.

(** ** Starting and stopping *)

(** [run], but for the acceptor's own loop: the workers made and set up, their number.
    [make] is the world of a worker just made, whose proxy has the worker's number. *)
Definition start_worker (make : Z -> mworld) (nonlocal : bool) (t : task) : worker :=
  mkWorker (tk_id t) (tk_id t) (tk_type t) nonlocal true true (make (tk_id t)) ∅.
Definition acceptor_run (preference : Z) (make : Z -> mworld) : M system Z := fun s =>
  match create_workers 0 (proxy_type_ s) (mkHas (sys_q s) [] preference 0) with
  | Ret _ h =>
      Ret (zlen (tasks_ h))
        (mkSystem (acceptor s) (hw_q h) (proxy_type_ s) (acc_nonlocal_dst s)
           (start_worker make (acc_nonlocal_dst s) <$> tasks_ h) (accepted s) (sys_taken s))
  | Throw e h => Throw e s
  | Undef => Undef
  end.

(** [join_workers]: every worker is told to die, every thread waited for - a worker whose
    thread was not started has a null pointer there - and the workers are destroyed.  A
    thread ends with the turn it is in. *)
Fixpoint for_workers (m : worker -> M wworld unit) (js : list nat) : M system unit :=
  match js with [] => mret_ tt | j :: js => as_worker j m ;;; for_workers m js end.
Definition join_workers : M system unit :=
  js <- gets (fun s => seq 0 (length (workers s))) ;;
  for_workers (fun k => in_p k (pset (set_dead true))) js ;;;
  for_workers (fun k => if has_thread k then mret_ tt else undef) js ;;;
  for_workers (fun k => in_m (in_r (proxy_destroy (me k)))) js ;;;
  modify (fun s => mkSystem (acceptor s) (sys_q s) (proxy_type_ s) (acc_nonlocal_dst s) [] (accepted s) (sys_taken s)).
End acceptor.
