(* ===== verification/AcceptorProps.v ===== *)
(** * AcceptorProps: properties of the acceptor and its workers *)

From stdpp Require Import gmap.
From S2P Require Export Acceptor FdqProps ProxySafety.

(** accept(2) with standard input open. *)
Class AcceptOk `{ProxyEnv} : Prop := {
  com_accept_ok : forall n fd r n', com_accept n fd = (r, n') -> r < 0 \/ descriptor r
}.

(** ** Making workers *)

Section workers.
Context {SY : FdSys}.
Implicit Types h : has_workers.

Lemma pairs_find_set id p l : pairs_find id (pairs_set id p l) = Some p.
Proof.
  induction l as [|[k q] l IH]; cbn; [by rewrite Z.eqb_refl|].
  destruct (Z.eqb_spec k id) as [->|Hk]; [cbn; by rewrite Z.eqb_refl|].
  destruct (id <? k); cbn; [by rewrite Z.eqb_refl|]. by rewrite (proj2 (Z.eqb_neq k id)).
Qed.

Lemma pairs_find_other id id' p l : id <> id' -> pairs_find id' (pairs_set id p l) = pairs_find id' l.
Proof.
  intros Hn. induction l as [|[k q] l IH]; cbn; [by rewrite (proj2 (Z.eqb_neq id id'))|].
  destruct (Z.eqb_spec k id) as [->|Hk]; [cbn; by rewrite (proj2 (Z.eqb_neq id id'))|].
  destruct (id <? k); cbn; [by rewrite (proj2 (Z.eqb_neq id id'))|]. by rewrite IH.
Qed.

Lemma new_pair_ret id (q : fdq) : exists pa q', new_pair id q = Ret pa q' /\ sq_ q' = sq_ q /\
  worker_id_max_ q' = worker_id_max_ q /\ hint_pairs_ q' = pairs_set id (mkPipe pa 0) (hint_pairs_ q).
Proof.
  unfold new_pair, call, mbind_, modify, mret_.
  destruct (sys_socketpair (fq_sys q)) as [[pa|] n]; cbn; [by eexists _, _|].
  destruct (sys_pipe2 n) as [[pa|] n']; cbn; by eexists _, _.
Qed.

(** What making [n] workers leaves. *)
Lemma create_loop_ret t n : forall h, 0 <= worker_id_max_ (hw_q h) < 2 ^ 32 -> Z.of_nat n <= 2 ^ 32 ->
  exists h' l, create_loop n t h = Ret tt h' /\ tasks_ h' = tasks_ h ++ l /\ workers_total_ h' = workers_total_ h /\
    sq_ (hw_q h') = sq_ (hw_q h) /\
    (tk_id <$> l) = ((fun j => u32 (worker_id_max_ (hw_q h) + Z.of_nat j)) <$> seq 0 n) /\
    Forall (fun k => tk_type k = t /\ (pipe_to_scheduler <$> pairs_find (tk_id k) (hint_pairs_ (hw_q h'))) = Some (tk_hint k)) l /\
    (forall id, id ∉ tk_id <$> l -> pairs_find id (hint_pairs_ (hw_q h')) = pairs_find id (hint_pairs_ (hw_q h))).
Proof.
  induction n as [|n IH]; intros h Hid Hn; cbn [create_loop].
  { exists h, []. rewrite app_nil_r. by repeat split. }
  set (m := worker_id_max_ (hw_q h)) in *.
  set (q1 := mkFdq (sq_type_ (hw_q h)) (sq_ (hw_q h)) (u32 (m + 1)) (hint_pairs_ (hw_q h)) (feedback_queue_empty (hw_q h)) (fq_sys (hw_q h))).
  destruct (new_pair_ret m q1) as (pa & q2 & E & S2 & M2 & P2).
  set (h2 := mkHas q2 (tasks_ h ++ [mkTask m (fst pa) t]) (worker_count_preference_ h) (workers_total_ h)).
  assert (create_loop (S n) t h = create_loop n t h2) as Estep.
  { cbn [create_loop]. unfold in_fdq, next_worker_id, mbind_. cbn. fold m. fold q1. by rewrite E. }
  cbn [create_loop] in Estep. rewrite Estep.
  assert (worker_id_max_ q2 = u32 (m + 1)) as Hm by exact M2.
  destruct (IH h2) as (h' & l & E' & T' & W' & Q' & I' & F' & O').
  { cbn. rewrite Hm. apply u32_bound. }
  { lia. }
  cbn in T', W', Q', I', O'. rewrite Hm in I'. rewrite P2 in O'.
  exists h', (mkTask m (fst pa) t :: l). split; [exact E'|]. split; [by rewrite T', <- app_assoc|]. split; [done|].
  split; [by rewrite Q'|].
  assert ((tk_id <$> l) = ((fun j => u32 (m + Z.of_nat j)) <$> seq 1 n)) as Hl.
  { rewrite I', <- seq_shift, <- list_fmap_compose. apply list_fmap_ext. intros _ j _. cbn.
    unfold wrapu. rewrite Z.add_mod_idemp_l by lia. f_equal. lia. }
  assert (m ∉ tk_id <$> l) as Hnew.
  { rewrite Hl. intros (j & Ej & Hj)%list_elem_of_fmap. apply elem_of_seq in Hj.
    unfold wrapu in Ej. change (2 ^ 32) with 4294967296 in *. lia. }
  split; [|split].
  - cbn. rewrite Hl, Z.add_0_r, u32_small by lia. done.
  - constructor; [|exact F']. split; [done|]. cbn. rewrite (O' m Hnew), pairs_find_set. done.
  - intros id Hid'. cbn in Hid'. apply not_elem_of_cons in Hid' as [Hne Hid'].
    rewrite (O' id Hid'). by rewrite pairs_find_other.
Qed.
(** Making workers: as many as asked for or, for 0, as preferred, with consecutive
    numbers, each the hint socket of its own pair in the queue, which keeps what waits in
    it; a negative count makes none. *)
Theorem workers_registered count t h :
  0 <= worker_id_max_ (hw_q h) < 2 ^ 32 -> count < 2 ^ 31 -> 0 <= worker_count_preference_ h < 2 ^ 31 ->
  exists h' l, create_workers count t h = Ret (workers_total_ h') h' /\
    workers_total_ h' = (if count =? 0 then worker_count_preference_ h else count) /\
    tasks_ h' = tasks_ h ++ l /\ sq_ (hw_q h') = sq_ (hw_q h) /\
    zlen l = Z.max 0 (workers_total_ h') /\
    (tk_id <$> l) = ((fun j => u32 (worker_id_max_ (hw_q h) + Z.of_nat j)) <$> seq 0 (length l)) /\
    Forall (fun k => tk_type k = t /\
              (pipe_to_scheduler <$> pairs_find (tk_id k) (hint_pairs_ (hw_q h'))) = Some (tk_hint k)) l.
Proof.
  intros Hm Hc Hp. unfold create_workers. rewrite bind_gets. destruct (Z.ltb_spec count 0) as [Hn|Hn].
  - exists (set_total count h), []. rewrite bind_modify. split; [done|]. cbn.
    rewrite (proj2 (Z.eqb_neq count 0)), app_nil_r, zlen_nil, Z.max_l by lia. by repeat split.
  - set (n := if count =? 0 then worker_count_preference_ h else count).
    assert (thread_count count (worker_count_preference_ h) = n) as ->.
    { unfold thread_count, core_multiplier, n. case_match; [|done]. rewrite Z.mul_1_r, (u32_small (u32 _)) by apply u32_bound.
      by rewrite u32_small by lia. }
    assert (0 <= n < 2 ^ 31) as Hr by (unfold n; case_match; lia).
    rewrite bind_modify. set (h1 := set_total (s32 n) h).
    destruct (create_loop_ret t (Z.to_nat n) h1) as (h' & l & E & T & W & Q & I & F & _); [done|lia|].
    rewrite (bind_ret _ _ _ _ _ E). assert (workers_total_ h' = n) as Wn.
    { rewrite W. cbn. apply wraps_small; lia. }
    assert (length l = Z.to_nat n) as Hl.
    { rewrite <- (length_fmap tk_id l), I, length_fmap, length_seq. done. }
    exists h', l. rewrite Wn. split; [by rewrite wraps_small by lia|]. split; [done|]. split; [exact T|].
    split; [exact Q|]. split; [rewrite zlen_length, Hl; lia|]. split; [by rewrite Hl|]. exact F.
Qed.
End workers.

(** ** Taking a connection over *)

Section worker.
Context {EK : EpollKernel} {ST : Storage} {CO : Com} {PE : ProxyEnv} {EV : WorkerEnv} {DE : Destroy} {SY : FdSys}.
Context {IN : Inet} {SK : SockSys} {PS : PeerSys} {OD : OrigDst} {NS : NetSock}.
Implicit Types (w : wworld) (wk : worker) (p : proxy) (u : world).

Definition wk_world w : world := r_w (m_r (w_m w)).
Definition proxy_at (h : Z) w p : Prop := r_objs (m_r (w_m w)) !! h = Some (HProxy p).
Definition set_world u w : wworld :=
  mkWw (w_q w) (mkMworld (set_rw u (m_r (w_m w))) (m_subs (w_m w)) (m_tick (w_m w))) (w_dsts w) (taken w).
(** The proxy [h] and its world after a computation. *)
Definition set_pworld (h : Z) (v : pworld) w : wworld :=
  mkWw (w_q w)
    (mkMworld (mkRworld (pw v) (<[h := HProxy (px v)]> (r_objs (m_r (w_m w)))) (r_virt (m_r (w_m w)))
                 (r_polls (m_r (w_m w))) (r_result (m_r (w_m w)))) (m_subs (w_m w)) (m_tick (w_m w)))
    (w_dsts w) (taken w).

Lemma in_p_run {A} wk (m : M pworld A) w p : proxy_at (me wk) w p ->
  in_p wk m w = match m (mkPworld (wk_world w) p) with
                | Ret a v => Ret a (set_pworld (me wk) v w)
                | Throw e v => Throw e (set_pworld (me wk) v w)
                | Undef => Undef
                end.
Proof.
  intros Hp. unfold in_p, in_m, in_r, on_proxy. rewrite Hp. unfold wk_world. by destruct (m _).
Qed.

Lemma set_pworld_same h u w p : proxy_at h w p -> set_pworld h (mkPworld u p) w = set_world u w.
Proof. intros Hp. unfold set_pworld, set_world, set_rw. cbn. by rewrite insert_id. Qed.

Lemma in_p_lift {A} wk (m : M world A) w p : proxy_at (me wk) w p ->
  in_p wk (lift m) w = match m (wk_world w) with
                       | Ret a u => Ret a (set_world u w)
                       | Throw e u => Throw e (set_world u w)
                       | Undef => Undef
                       end.
Proof.
  intros Hp. rewrite (in_p_run _ _ _ p) by done. unfold lift. cbn.
  destruct (m (wk_world w)); by rewrite ?set_pworld_same.
Qed.

Lemma proxy_set_world h u w p : proxy_at h w p -> proxy_at h (set_world u w) p.
Proof. done. Qed.
Lemma set_world_twice u u' w : set_world u (set_world u' w) = set_world u w.
Proof. done. Qed.

(** What the context of a descriptor just taken is like, and the network after accepting. *)
Definition adopted_net (s : Z) u : net := snd (com_accept_socket (w_net u) com_default s).
Definition adopted_cx (s : Z) u : cx :=
  let c := set_com (fst (com_accept_socket (w_net u) com_default s)) (cx_init "" "" s (w_now u) com_default) in
  match com_resolve_src (adopted_net s u) s with
  | Some (h, p) => set_port p (set_host h c)
  | None => c
  end.
Definition adopted_dst wk (s : Z) (n : net) : dst :=
  let d := put_nonlocal (wk_nonlocal_dst wk) new_dst in
  match wk_type wk with
  | TRANSPARENT => resolve_nonlocal_dst_socket s (net_sk n) d
  | REDIRECT => resolve_redirected_dst_socket s (net_sk n) d
  | _ => d
  end.
Definition adopted_world (s : Z) u : world :=
  set_net (adopted_net s u) (set_cxs (<[new_id u := adopted_cx s u]> (w_cxs u)) u).
Definition adopted wk (s : Z) w : wworld :=
  mkWw (w_q w) (w_m (set_world (adopted_world s (wk_world w)) w))
    (<[new_id (wk_world w) := adopted_dst wk s (adopted_net s (wk_world w))]> (w_dsts w)) (taken w).

Lemma unpaused_ret i c u : w_cxs u !! i = Some c -> read_waiting_for_peercom_ c = false ->
  read_waiting_for_peercom i u = Ret false u.
Proof.
  intros H E. pose proof (not_waiting_read i c u mret_ H E) as E'. unfold mbind_ in E'.
  by destruct (read_waiting_for_peercom i u).
Qed.

Lemma accept_ret s i u c : w_cxs u !! i = Some c ->
  on_accept_socket i s u =
    Ret tt (let '(k, n) := com_accept_socket (w_net u) (com_ c) s in
            set_net n (set_cxs (<[i := let c := set_com k c in
                                       if reduced c then
                                         match com_resolve_src n s with
                                         | Some (h, p) => set_port p (set_host h c)
                                         | None => c
                                         end
                                       else c]> (w_cxs u)) u)).
Proof.
  intros Hc. unfold on_accept_socket, on_com_, on_com, upd, mbind_, gets. rewrite Hc.
  destruct (com_accept_socket (w_net u) (com_ c) s) as [k n]. cbn. rewrite lookup_insert_eq, insert_insert_eq. done.
Qed.

Lemma adopt_ret wk s w p : proxy_at (me wk) w p ->
  adopt new_cx wk s w = Ret (new_id (wk_world w)) (adopted wk s w).
Proof.
  intros Hp. set (u := wk_world w). set (i := new_id u). set (c := cx_init "" "" s (w_now u) com_default).
  set (u1 := set_cxs (<[i := c]> (w_cxs u)) u).
  assert (in_p wk (new_cx s) w = Ret i (set_world u1 w)) as E1.
  { rewrite (in_p_run _ _ _ p) by done. change (new_cx s (mkPworld (wk_world w) p)) with (Ret i (mkPworld u1 p)).
    cbn. by rewrite set_pworld_same. }
  unfold adopt. rewrite (bind_ret _ _ _ _ _ E1). unfold upd_dst at 1. rewrite bind_modify.
  set (w1 := mkWw _ _ _ _). assert (proxy_at (me wk) w1 p) as Hp1 by exact Hp.
  assert (w_cxs (wk_world w1) !! i = Some c) as Hc by apply lookup_insert_eq.
  assert (in_p wk (lift (read_waiting_for_peercom i)) w1 = Ret false w1) as E2.
  { rewrite (in_p_lift _ _ _ p) by done. by rewrite (unpaused_ret i c). }
  assert (in_p wk (lift (on_accept_socket i s)) w1 = Ret tt (set_world (adopted_world s u) w1)) as E3.
  { rewrite (in_p_lift _ _ _ p) by done. rewrite (accept_ret _ _ _ _ Hc). f_equal. f_equal.
    change (wk_world w1) with u1. unfold adopted_world, adopted_cx, adopted_net. cbn.
    destruct (com_accept_socket (w_net u) com_default s) as [k n]. cbn. rewrite insert_insert_eq. done. }
  assert (adopted wk s w = mkWw (w_q w) (w_m (set_world (adopted_world s u) w1))
            (<[i := adopted_dst wk s (adopted_net s u)]> (w_dsts w)) (taken w)) as -> by done.
  unfold owning, mbind_ at 1. rewrite (bind_ret _ _ _ _ _ E2). cbn iota.
  rewrite (bind_ret _ _ _ _ _ E3). unfold sockets_of, adopted_dst, upd_dst, when, mbind_, gets, modify, mret_.
  set (v := set_world (adopted_world s u) w1). assert (w_dsts v !! i = Some new_dst) as Hd by apply lookup_insert_eq.
  assert (forall d, <[i := d]> (w_dsts v) = <[i := d]> (w_dsts w)) as Hi by (intros; apply insert_insert_eq).
  destruct (wk_type wk); cbn -[v]; rewrite ?lookup_insert_eq, ?insert_insert_eq, Hd, Hi; done.
Qed.

(** ** No connection is lost

    [goes P m]: from a state with [P], [m] is defined and keeps [P], returning or throwing a
    runtime error. *)
Definition goes {W A} (P : W -> Prop) (m : M W A) (Q : A -> Prop) : Prop :=
  forall s, P s ->
    match m s with
    | Ret a s' => P s' /\ Q a
    | Throw e s' => e = runtime_error /\ P s'
    | Undef => False
    end.

Lemma goes_ret {W A} (P : W -> Prop) (a : A) (Q : A -> Prop) : Q a -> goes P (mret_ a) Q.
Proof. by intros HQ s Hs. Qed.
Lemma goes_bind {W A B} (P : W -> Prop) (m : M W A) (k : A -> M W B) Q R :
  goes P m Q -> (forall a, Q a -> goes P (k a) R) -> goes P (mbind_ m k) R.
Proof.
  intros Hm Hk s Hs. specialize (Hm s Hs). unfold mbind_.
  destruct (m s) as [a s'|e s'|]; [destruct Hm as [Hs' HQ]; by apply Hk|done|done].
Qed.
Lemma goes_throw {W A} (P : W -> Prop) (Q : A -> Prop) : goes P (throw runtime_error) Q.
Proof. by intros s Hs. Qed.

(** A worker whose proxy [h] is as [round_never_dangles] wants it, without sub-proxies. *)
Definition ready_at (h : Z) (u : mworld) : Prop :=
  m_subs u = [] /\ exists p, r_objs (m_r u) !! h = Some (HProxy p) /\ wfp (mkPworld (r_w (m_r u)) p).
(** What was taken and what waits is [L], oldest first. *)
Definition flows (L : list Z) (t : list (Z * Z)) (q : fdq) : Prop :=
  Forall descriptor (sq_ q) /\ L = (snd <$> t) ++ rev (sq_ q).
Definition worker_ok (h : Z) (L : list Z) w : Prop := ready_at h (w_m w) /\ flows L (taken w) (w_q w).

Lemma goes_in_p {A} wk L l (m : M pworld A) Q :
  safeq l m Q -> goes (fun w => worker_ok (me wk) L w /\ Forall (lives (wk_world w)) l) (in_p wk m) Q.
Proof.
  intros Hm w [[(Hs & p & Hp & Hw) Hf] Hl]. specialize (Hm (mkPworld (wk_world w) p) Hw Hl).
  rewrite (in_p_run _ _ _ p) by exact Hp. destruct (m _) as [a v|e v|]; [| |done].
  - destruct Hm as (H1 & G & HQ). split; [|done]. split; [split; [|exact Hf]|].
    + split; [exact Hs|]. exists (px v). cbn. rewrite lookup_insert_eq. split; [done|]. by destruct v.
    + by eapply grows_all.
  - destruct Hm as (-> & H1 & G). split; [done|]. split; [split; [|exact Hf]|].
    + split; [exact Hs|]. exists (px v). cbn. rewrite lookup_insert_eq. split; [done|]. by destruct v.
    + by eapply grows_all.
Qed.

Lemma goes_nil {A} h L (m : M wworld A) Q :
  goes (fun w => worker_ok h L w /\ Forall (lives (wk_world w)) []) m Q <-> goes (worker_ok h L) m Q.
Proof.
  split; intros H w Hw; specialize (H w).
  - specialize (H (conj Hw (Forall_nil_2 _))). destruct (m w); naive_solver.
  - destruct Hw as [Hw _]. specialize (H Hw). destruct (m w); naive_solver.
Qed.

(** The round of a master that owns nothing is its own. *)
Lemma goes_master wk L sched fuel : goes (worker_ok (me wk) L) (in_m (master_once sched fuel (me wk))) (fun _ => True).
Proof.
  intros w Hw. destruct Hw as [[Hs Hp] Hf].
  pose proof (proj1 (goes_nil _ _ _ _) (goes_in_p wk L [] (handle_sockets_once (r_result (m_r (w_m w)))) _ (safe_once _ _)) w
                (conj (conj Hs Hp) Hf)) as H.
  unfold in_p, in_m, in_r in *. unfold master_once, mbind_, gets.
  destruct (on_proxy (me wk) (handle_sockets_once (r_result (m_r (w_m w)))) (m_r (w_m w))) as [n r|e r|]; [| |done].
  - cbn. rewrite Hs, bool_decide_true by done. cbn. rewrite Hs in H. split; [apply H|done].
  - destruct H as (-> & H). by split.
Qed.

Lemma peer_adopted s u : peer_ (adopted_cx s u) = 0.
Proof. unfold adopted_cx. by destruct (com_resolve_src _ _) as [[h p]|]. Qed.

Lemma adopted_ok wk L s w : worker_ok (me wk) L w ->
  worker_ok (me wk) L (adopted wk s w) /\ lives (wk_world (adopted wk s w)) (new_id (wk_world w)).
Proof.
  intros [(Hs & p & Hp & Hw & Hl) Hf]. set (u := wk_world w) in *. set (i := new_id u).
  assert (grows u (adopted_world s u)) as Hg.
  { intros j [c Hj]. unfold lives, adopted_world. cbn. fold i. destruct (decide (i = j)) as [<-|Hn];
      [rewrite lookup_insert_eq|rewrite lookup_insert_ne by done]; by eexists. }
  split; [split; [split; [exact Hs|]|exact Hf]|].
  - exists p. split; [exact Hp|]. split.
    + intros j c Hj. cbn in Hj. fold u i in Hj. destruct (decide (i = j)) as [<-|Hn].
      * rewrite lookup_insert_eq in Hj. injection Hj as <-. left. apply peer_adopted.
      * rewrite lookup_insert_ne in Hj by done. destruct (Hw j c Hj) as [?|?]; [by left|right; by apply Hg].
    + intros b. by eapply grows_all.
  - unfold lives. cbn. rewrite lookup_insert_eq. by eexists.
Qed.

Lemma goes_hand_over wk L s : goes (worker_ok (me wk) L) (hand_over new_cx (add true) wk s) (fun _ => True).
Proof.
  intros w Hw. destruct Hw as [(Hs & p & Hp & Hwf) Hf].
  destruct (adopted_ok wk L s w) as [Ho Hi]; [by repeat (split; eauto)|].
  unfold hand_over. rewrite (bind_ret _ _ _ _ _ (adopt_ret wk s w p Hp)).
  pose proof (goes_in_p wk L [new_id (wk_world w)] (add true (new_id (wk_world w))) _ (safe_add _ _ _ ltac:(left))
                (adopted wk s w) (conj Ho (Forall_cons_2 _ _ _ Hi (Forall_nil_2 _)))) as H.
  destruct (in_p _ _ _) as [a v|e v|]; [| |done]; naive_solver.
Qed.

Lemma goes_try {A W} (P : W -> Prop) (m : M W A) h Q : goes P m Q -> goes P (try_catch m com_error h) Q.
Proof.
  intros Hm w Hw. specialize (Hm w Hw). unfold try_catch. destruct (m w) as [a v|e v|]; [done| |done].
  destruct Hm as [-> Hv]. by rewrite decide_False.
Qed.

(** What is popped. *)
Lemma pick_up_ret wk w : Forall descriptor (sq_ (w_q w)) ->
  exists s q, pick_up wk w = Ret s (mkWw q (w_m w) (w_dsts w) (taken w)) /\
    (0 < s /\ rev (sq_ (w_q w)) = s :: rev (sq_ q) \/ s = 0 /\ sq_ (w_q w) = [] /\ sq_ q = []).
Proof.
  intros Hq. destruct (update_load_ret (wk_id wk) (u32 (zlen (m_subs (w_m w)))) (w_q w)) as (q1 & E1 & H1).
  destruct (pop_ret (wk_id wk) q1) as (s & q2 & E2 & H2); [by rewrite H1|]. rewrite H1 in H2.
  exists s, q2. split; [|exact H2]. unfold pick_up. rewrite bind_gets. unfold on_q, mbind_. rewrite E1. cbn. by rewrite E2.
Qed.

Lemma flows_taken L t (q q' : fdq) j s : flows L t q -> rev (sq_ q) = s :: rev (sq_ q') -> flows L (t ++ [(j, s)]) q'.
Proof.
  intros [Hd ->] E. apply Forall_rev in Hd. rewrite E in Hd. apply Forall_cons in Hd as [_ Hd].
  split; [apply Forall_rev in Hd; by rewrite rev_involutive in Hd|]. by rewrite fmap_app, E, <- app_assoc.
Qed.

Lemma goes_worker_once wk L pd sched fuel : has_parent wk = true ->
  goes (worker_ok (me wk) L) (worker_once new_cx (add true) wk pd sched fuel) (fun _ => True).
Proof.
  intros Hpar. unfold worker_once. rewrite Hpar. cbn [negb].
  apply (goes_bind _ _ _ (fun _ => True)).
  { destruct pd; [|by apply goes_ret].
    apply goes_nil, goes_in_p, safe_pset_same. by intros p []. }
  intros _ _. intros w [Hr Hf]. destruct (pick_up_ret wk w) as (s & q & E & Hs); [apply Hf|].
  rewrite (bind_ret _ _ _ _ _ E). destruct Hs as [[Hs Hq]|(-> & Hq & Hq')].
  - rewrite (proj2 (Z.ltb_lt 0 s)) by done. cbn [when]. rewrite bind_assoc. unfold note_taken. rewrite bind_modify.
    apply (goes_bind (worker_ok (me wk) L) _ _ (fun _ => True) (fun _ => True)).
    + apply goes_try, goes_hand_over.
    + intros _ _. apply goes_master.
    + split; [exact Hr|]. by eapply flows_taken.
  - change (0 <? 0) with false. cbn [when]. rewrite bind_pure. apply goes_master. split; [exact Hr|]. destruct Hf as [Hd HL].
    split; cbn; rewrite Hq'; [constructor|]. by rewrite Hq in HL.
Qed.

Lemma worker_turn_ret wk L pd sched fuel w : has_parent wk = true -> worker_ok (me wk) L w ->
  exists w', worker_turn new_cx (add true) wk pd sched fuel w = Ret tt w' /\ worker_ok (me wk) L w'.
Proof.
  intros Hp Hw. unfold worker_turn. pose proof (goes_worker_once wk L pd sched fuel Hp w Hw) as H.
  destruct (worker_once _ _ _ _ _ _ w) as [a v|e v|]; [| |done].
  - exists v. by destruct H.
  - destruct H as [-> Hv]. cbn. destruct Hv as [(Hs & p & Hpx & Hwf) Hf].
    rewrite (in_p_run _ _ _ p) by done. eexists. split; [reflexivity|].
    split; [split; [exact Hs|]|exact Hf]. eexists. cbn. rewrite lookup_insert_eq. split; [done|]. exact Hwf.
Qed.

(** ** What taking over does *)

Lemma new_id_fresh u : w_cxs u !! new_id u = None.
Proof.
  apply not_elem_of_dom. unfold new_id.
  pose proof (is_fresh ({[0]} ∪ dom (w_cxs u) : gset Z)) as H. set_solver.
Qed.

Lemma fds_adopted s u : fds_ (adopted_cx s u) = s.
Proof. unfold adopted_cx. by destruct (com_resolve_src _ _) as [[h p]|]. Qed.

Definition add_socket (i : Z) (l : lists) : lists :=
  mkLists (sockets l ++ [i]) (bind_sockets l) (pc_cx l) (delayed_accepts l).
(** The poller with socket [s] monitored for handler [h]. *)
Definition watched (s h : Z) u : epoller :=
  set_poll_handler translate_socket s (Some h)
    (set_monitor (w_kernel0 u) (1000 * w_now u) translate_socket s (w_poll u)).

Lemma add_ret i u p c : w_cxs u !! i = Some c ->
  add true i (mkPworld u p) =
    Ret tt (mkPworld (set_cxs (<[i := set_parent_flag (Some 76) c]> (w_cxs u))
                        (set_poll (watched (fds_ c) (px_id p) u) (set_net (com_unblock (w_net u) (fds_ c)) u)))
              (set_lists true (add_socket i) p)).
Proof.
  intros Hc. unfold add, watch, look, change, field, upd, the, pget, pset, polling, monitor, poll_handler.
  unfold lift, mbind_, gets, modify. cbn. rewrite Hc. cbn. rewrite Hc. cbn. rewrite Hc. done.
Qed.

(** A worker that finds a connection [s] in the queue makes a context of it and gives it
    to its proxy: the descriptor leaves the queue; a new context, and no other, has it,
    named after the peer, its destination resolved as the type of the proxy says; its
    socket is watched for the proxy and the context the last of its left sockets.  Then
    comes the round of a master. *)
Theorem worker_takes_over wk pd sched fuel w p s l :
  has_parent wk = true -> proxy_at (me wk) w p -> Forall descriptor (sq_ (w_q w)) -> rev (sq_ (w_q w)) = s :: l ->
  let u := wk_world w in let i := new_id u in
  exists w' p', worker_once new_cx (add true) wk pd sched fuel w = in_m (master_once sched fuel (me wk)) w' /\
    rev (sq_ (w_q w')) = l /\ taken w' = taken w ++ [(wk_id wk, s)] /\
    w_cxs u !! i = None /\
    w_cxs (wk_world w') = <[i := set_parent_flag (Some 76) (adopted_cx s u)]> (w_cxs u) /\
    fds_ (adopted_cx s u) = s /\
    w_dsts w' = <[i := adopted_dst wk s (adopted_net s u)]> (w_dsts w) /\
    w_poll (wk_world w') = watched s (px_id p) u /\
    proxy_at (me wk) w' p' /\ sockets (px_left p') = sockets (px_left p) ++ [i] /\
    px_right p' = px_right p /\ dead p' = pd || dead p.
Proof.
  intros Hpar Hp Hd Hq u i.
  set (p1 := if pd then set_dead true p else p). set (w1 := set_pworld (me wk) (mkPworld u p1) w).
  assert (when pd (in_p wk (pset (set_dead true))) w = Ret tt w1) as E1.
  { unfold w1, p1. destruct pd; cbn [when].
    - by rewrite (in_p_run _ _ _ p).
    - rewrite set_pworld_same by done. by destruct w as [? [[] ?] ? ?]. }
  destruct (pick_up_ret wk w1) as (s' & q & E2 & Hs); [exact Hd|].
  destruct Hs as [[Hs Hq']|(_ & Hn & _)]; [|change (sq_ (w_q w) = []) in Hn; rewrite Hn in Hq; discriminate].
  change (w_q w1) with (w_q w) in Hq'. rewrite Hq in Hq'. injection Hq' as <- Hl.
  set (w2 := mkWw q (w_m w1) (w_dsts w1) (taken w ++ [(wk_id wk, s)])).
  assert (proxy_at (me wk) w2 p1) as Hp2 by (cbn; apply lookup_insert_eq).
  set (w3 := adopted wk s w2).
  assert (hand_over new_cx (add true) wk s w2 =
    Ret tt (set_pworld (me wk) (mkPworld (set_cxs (<[i := set_parent_flag (Some 76) (adopted_cx s u)]> (w_cxs (wk_world w3)))
                (set_poll (watched s (px_id p1) (wk_world w3)) (set_net (com_unblock (w_net (wk_world w3)) s) (wk_world w3))))
                (set_lists true (add_socket i) p1)) w3)) as E3.
  { unfold hand_over. rewrite (bind_ret _ _ _ _ _ (adopt_ret wk s w2 p1 Hp2)). fold w3.
    rewrite (in_p_run _ _ _ p1) by exact Hp2. rewrite (add_ret _ _ _ (adopted_cx s u)) by apply lookup_insert_eq.
    by rewrite fds_adopted. }
  eexists _, (set_lists true (add_socket i) p1). split.
  { unfold worker_once. rewrite Hpar. cbn [negb]. rewrite (bind_ret _ _ _ _ _ E1), (bind_ret _ _ _ _ _ E2).
    rewrite (proj2 (Z.ltb_lt 0 s)) by done. cbn [when]. rewrite bind_assoc. unfold note_taken. rewrite bind_modify.
    change (mkWw _ _ _ _) with w2. rewrite (bind_ret _ _ _ _ _ (try_ret _ _ _ _ _ _ E3)). reflexivity. }
  split; [by rewrite Hl|]. split; [done|]. split; [apply new_id_fresh|].
  split; [cbn; apply insert_insert_eq|]. split; [apply fds_adopted|]. split; [done|].
  split; [by unfold p1; destruct pd|]. split; [cbn; apply lookup_insert_eq|].
  unfold p1. by destruct pd.
Qed.

(** A proxy that refuses a context by throwing [com_error] from [on_left_new] strands it: the
    exception is caught, the context with the open socket is in no list of the proxy, and
    nobody destroys it. *)
Theorem refused_context_stranded wk s w p :
  proxy_at (me wk) w p -> wfp (mkPworld (wk_world w) p) ->
  let i := new_id (wk_world w) in
  exists w', try_catch (hand_over new_cx (fun _ => throw com_error) wk s) com_error (mret_ tt) w = Ret tt w' /\
    (fds_ <$> w_cxs (wk_world w') !! i) = Some s /\
    proxy_at (me wk) w' p /\ forall b, i ∉ members (side_lists b p).
Proof.
  intros Hp Hw i. exists (adopted wk s w). split; [|split; [|split; [exact Hp|]]].
  - apply (try_caught _ _ _ _ (adopted wk s w)). unfold hand_over.
    rewrite (bind_ret _ _ _ _ _ (adopt_ret wk s w p Hp)), (in_p_run _ _ _ p) by exact Hp. cbn -[adopted].
    by rewrite (set_pworld_same _ _ (adopted wk s w) p).
  - cbn. fold i. rewrite lookup_insert_eq. cbn. by rewrite fds_adopted.
  - intros b Hi. destruct Hw as [_ Hl]. destruct (proj1 (Forall_forall _ _) (Hl b) i Hi) as [c Hc].
    change (w_cxs (wk_world w) !! new_id (wk_world w) = Some c) in Hc. by rewrite new_id_fresh in Hc.
Qed.
End worker.

(** ** The acceptor and its workers *)

Section system.
Context {EK : EpollKernel} {ST : Storage} {CO : Com} {PE : ProxyEnv} {EV : WorkerEnv} {DE : Destroy} {SY : FdSys}.
Context {IN : Inet} {SK : SockSys} {PS : PeerSys} {OD : OrigDst} {NS : NetSock} {AO : AcceptOk}.
Implicit Types (s : system) (k : worker).

(** A listening context of the acceptor has its turn, or worker [j] has a round. *)
Inductive sysevent : Type :=
  | Incoming (on_left : bool) (i : Z)
  | WorkerTurn (j : nat) (sched : nat -> list Z) (fuel : nat).

Definition run_sysevent (e : sysevent) : M system unit := fun s =>
  match e with
  | Incoming on_left i => acceptor_turn on_left i s
  | WorkerTurn j sched fuel =>
      as_worker j (fun k => worker_turn new_cx (add true) k (dead (px (acceptor s))) sched fuel) s
  end.
Fixpoint run_sysevents (l : list sysevent) : M system unit :=
  match l with [] => mret_ tt | e :: l => run_sysevent e ;;; run_sysevents l end.

(** The acceptor listens on [binds], every worker is started; what was accepted is what
    was taken and what waits. *)
Definition system_ok (binds : list Z) (n : nat) s : Prop :=
  length (workers s) = n /\ wfp (acceptor s) /\ Forall (lives (pw (acceptor s))) binds /\
  Forall (fun k => has_parent k = true /\ ready_at (me k) (wk_m k)) (workers s) /\
  flows (accepted s) (sys_taken s) (sys_q s).

Lemma goes_in_acceptor {A} binds n (m : M pworld A) Q :
  safeq binds m Q -> goes (system_ok binds n) (in_acceptor m) Q.
Proof.
  intros Hm s (Hn & Hw & Hb & Hk & Hf). specialize (Hm _ Hw Hb). unfold in_acceptor.
  destruct (m (acceptor s)) as [a u|e u|]; [| |done].
  - destruct Hm as (H1 & G & HQ). split; [|done]. split; [done|]. split; [done|]. split; [by eapply grows_all|]. by split.
  - destruct Hm as (-> & H1 & G). split; [done|]. split; [done|]. split; [done|]. split; [by eapply grows_all|]. by split.
Qed.

(** What is accepted is pushed at once. *)
Lemma goes_pushed binds n (b : bool) client : descriptor client ->
  goes (system_ok binds n) (note_accepted client ;;; (if b then on_left_new_raw client else on_right_new_raw client) ;;; mret_ true)
    (fun _ => True).
Proof.
  intros Hc s (Hn & Hw & Hb & Hk & Hd & HL). unfold note_accepted. rewrite bind_modify.
  destruct (push_all_ret client (sys_q s)) as (r & q & E & Hq).
  assert ((if b then on_left_new_raw client else on_right_new_raw client) = (hint_push_all client ;;; mret_ tt)) as ->
    by (by destruct b).
  unfold hint_push_all, mbind_, mret_. cbn [sys_q]. rewrite E. split; [|done]. split; [done|]. split; [done|]. split; [done|]. split; [done|].
  split; cbn; rewrite Hq; [by constructor|]. cbn. by rewrite HL, app_assoc.
Qed.

Lemma goes_acceptor_bound binds n left i : i ∈ binds -> goes (system_ok binds n) (acceptor_bound left i) (fun _ => True).
Proof.
  intros Hi. unfold acceptor_bound.
  eapply goes_bind; [apply goes_in_acceptor; by apply safe_look|]. intros fd _.
  eapply goes_bind; [apply goes_in_acceptor, safe_in_readset|]. intros [] _; [|by apply goes_ret].
  apply (goes_bind _ _ _ (fun _ => True)).
  - unfold acceptor_accept. eapply goes_bind; [apply goes_in_acceptor; by apply safe_look|]. intros lfd _.
    apply (goes_bind _ _ _ (fun client => client < 0 \/ descriptor client)).
    + apply goes_in_acceptor. intros u Hu Hl. unfold lift. destruct (com_accept (w_net (pw u)) lfd) as [r net'] eqn:E.
      split; [exact Hu|]. split; [by intros j|]. by eapply com_accept_ok.
    + intros client Hc. destruct (Z.ltb_spec client 0); [by apply goes_ret|]. apply goes_pushed. by destruct Hc; [lia|].
  - intros _ _. destruct (fd_locked fd); [|apply goes_throw].
    apply goes_in_acceptor, safe_pset_same. intros p b. by destruct b.
Qed.

Lemma acceptor_turn_ret binds n left i s : i ∈ binds -> system_ok binds n s ->
  exists s', acceptor_turn left i s = Ret tt s' /\ system_ok binds n s'.
Proof.
  intros Hi Hs. unfold acceptor_turn. pose proof (goes_acceptor_bound binds n left i Hi s Hs) as H.
  destruct (acceptor_bound left i s) as [[] s'|e s'|]; [| |done].
  - exists s'. by destruct H.
  - destruct H as [-> (Hn & Hw & H)]. eexists. split; [reflexivity|]. split; [exact Hn|]. split; [|exact H]. exact Hw.
Qed.

Lemma worker_turn_sys binds n j sched fuel s : (j < n)%nat -> system_ok binds n s ->
  exists s', run_sysevent (WorkerTurn j sched fuel) s = Ret tt s' /\ system_ok binds n s'.
Proof.
  intros Hj (Hn & Hw & Hb & Hk & Hf). rewrite <- Hn in Hj. destruct (lookup_lt_is_Some_2 _ _ Hj) as [k Ek].
  pose proof (Forall_lookup_1 _ _ _ _ Hk Ek) as [Hp Hr].
  destruct (worker_turn_ret k (accepted s) (dead (px (acceptor s))) sched fuel (enter k s)) as (w & E & Hr' & Hf').
  { done. }
  { split; [|exact Hf]. destruct Hr as (Hs & p & Hpx & Hwf). split; [exact Hs|]. exists p. split; [exact Hpx|]. exact Hwf. }
  cbn [run_sysevent]. unfold as_worker. rewrite Ek, E. eexists. split; [reflexivity|]. split; [by rewrite <- Hn; apply length_insert|].
  split; [exact Hw|]. split; [exact Hb|]. split; [|exact Hf']. apply Forall_insert; [exact Hk|]. by split.
Qed.

(** [C19] No connection is lost, doubled or overtaken between the acceptor and its workers. The
    workers are started, have the acceptor as parent, hold no sub-proxies (a worker with sub-proxies
    may have a turn that never ends) and make contexts with the base [new_cx]; the listening
    contexts are in the acceptor's world; accept(2) fails or gives a positive descriptor (not 0, which
    the acceptor takes for a failure). Then, whatever the order in which the listening sockets become
    ready and the workers have their rounds, every turn comes to an end, and the descriptors
    accepted so far are, in this order, those the workers took out of the queue and those waiting in
    it. *)
Theorem connections_in_order binds n (l : list sysevent) s :
  system_ok binds n s ->
  Forall (fun e => match e with Incoming _ i => i ∈ binds | WorkerTurn j _ _ => (j < n)%nat end) l ->
  exists s', run_sysevents l s = Ret tt s' /\ system_ok binds n s' /\
    accepted s' = (snd <$> sys_taken s') ++ rev (sq_ (sys_q s')).
Proof.
  revert s. induction l as [|e l IH]; intros s Hs Hl.
  - exists s. split; [done|]. split; [done|]. apply Hs.
  - apply Forall_cons in Hl as [He Hl]. cbn [run_sysevents].
    assert (exists s1, run_sysevent e s = Ret tt s1 /\ system_ok binds n s1) as (s1 & E & H1).
    { destruct e as [b i|j sched fuel]; [by apply acceptor_turn_ret|by apply worker_turn_sys]. }
    rewrite (bind_ret _ _ _ _ _ E). by apply IH.
Qed.
End system.

(** * An acceptor over TCP

    The kernel of [TcpProps]; a queue whose calls succeed.  The acceptor listens on one socket,
    connections were meant for another host (192.0.2.7, port 80). *)

From S2P Require Export TcpProps.
From S2P Require Import HostCX HostCXProps BaseProxyProps MasterProps.
From S2P Require TcpCom.

(** The TCP com on that kernel. *)
Definition tcp_sim : Com := tcp_com.

#[export] Instance tcp_env : @ProxyEnv tcp_sim := {|
  com_accept (n : @net tcp_sim) fd := let '(r, _, n) := run (-1) (TcpCom.accept fd) n com_default in (r, n);
  new_message _ _ := false;
  on_timer n _ := n;
  fd_locked _ := true
|}.
#[export] Instance tcp_worker_env : @WorkerEnv _ tcp_sim := {|
  handle_event h w := w;
  resolve_dst n s := ("0.0.0.0", "80")%string;
  com_bind n p := (12, n)
|}.
#[export] Instance tcp_destroy : @Destroy tcp_sim := {| com_cleanup n k := n; com_close n fd := n |}.
#[export] Instance quiet_sys : FdSys := {|
  sys := unit;
  sys_socketpair n := (Some (20, 21), n);
  sys_pipe2 n := (None, n);
  sys_write1 n s := (1, n);
  sys_read1 n s := (1, n);
  sys_close n s := n
|}.
#[export] Instance tcp_orig_dst : OrigDst := {|
  sk_orig_dst level name s k := if level =? SOL_IP then Some (put_at 0 ([2; 0] ++ [0; 80] ++ [192; 0; 2; 7]) zero_ss) else None;
  os_stack := []
|}.
#[export] Instance tcp_sockets : @NetSock tcp_sim _ := {| net_sk (n : @net tcp_sim) := tn_sys n |}.

#[export] Instance tcp_accept_ok : @AcceptOk tcp_sim tcp_env.
Proof.
  split. intros n fd r n'. cbn. unfold run, TcpCom.accept, TcpCom.os_accept, mbind_. cbn.
  set (d := Z.max 1 (Z.min (2 ^ 31 - 1) (next_fd (tn_sys n)))). assert (1 <= d < 2 ^ 31) by lia.
  rewrite (proj2 (Z.ltb_ge d 0)) by lia. unfold TcpCom.on_new_socket. rewrite (proj2 (Z.leb_le 0 d)) by lia. cbn.
  intros E. injection E as <- _. right. unfold descriptor. lia.
Qed.

(** ** The acceptor (proxy 400, listening context 1 on socket 7) and its workers *)

Definition listening : cx := demo_cx 7 0 false [].
Definition acc_world : world (CO := tcp_sim) :=
  mkWorld (CO := tcp_sim) (<[1 := listening]> ∅)
    (mkEpoller (Some (set_sets {[7]} ∅ ∅ ∅ demo_poller)) ∅ ∅) tcp_net 100 ∅ false.
Definition new_queue : @fdq quiet_sys := fdq_new (SY := quiet_sys) tt false.
Definition acc_start (t : proxyType) : system (CO := tcp_sim) :=
  mkSystem (CO := tcp_sim) (mkPworld (CO := tcp_sim) acc_world (bare_proxy 400 [1])) new_queue t true [] [] [].

Definition fresh_worker (id : Z) : mworld (CO := tcp_sim) :=
  mkMworld (CO := tcp_sim)
    (mkRworld (CO := tcp_sim) (mkWorld (CO := tcp_sim) ∅ (mkEpoller (Some demo_poller) ∅ ∅) tcp_net 100 ∅ false)
       {[id := HProxy (bare_proxy id [])]} ∅ polls0 0) [] 0.

(** Two workers. *)
Definition started (t : proxyType) : system (CO := tcp_sim) :=
  match acceptor_run 2 fresh_worker (acc_start t) with Ret _ s => s | _ => acc_start t end.

Lemma peers_live_one i c : peer_ c = 0 -> forall u : world (CO := tcp_sim), w_cxs u = {[i := c]} -> peers_live u.
Proof. intros Hc u E j d Hj. rewrite E in Hj. apply lookup_singleton_Some in Hj as [_ <-]. by left. Qed.

Lemma fresh_ready id : ready_at (CO := tcp_sim) id (fresh_worker id).
Proof.
  split; [done|]. exists (bare_proxy id []). split; [apply lookup_singleton_eq|]. split.
  - intros j c Hj. cbn in Hj. by rewrite lookup_empty in Hj.
  - intros []; constructor.
Qed.

Lemma started_ok t : system_ok [1] 2 (started t).
Proof.
  assert (lives (pw (acceptor (started t))) 1) as H1 by by eexists.
  split; [reflexivity|]. split; [split|].
  - by apply (peers_live_one 1 listening).
  - intros []; cbn; repeat constructor. exact H1.
  - split; [by constructor|]. split; [|by split; [constructor|]].
    repeat constructor; apply fresh_ready.
Qed.

Lemma connections_in_order_witness :
  exists s', run_sysevents [Incoming true 1; Incoming true 1; WorkerTurn 1 (fun _ => []) 0; WorkerTurn 0 (fun _ => []) 0;
                            Incoming true 1] (started REDIRECT) = Ret tt s' /\
    accepted s' = (snd <$> sys_taken s') ++ rev (sq_ (sys_q s')).
Proof.
  destruct (connections_in_order [1] 2
              [Incoming true 1; Incoming true 1; WorkerTurn 1 (fun _ => []) 0; WorkerTurn 0 (fun _ => []) 0;
               Incoming true 1] (started REDIRECT)) as (s' & E & _ & H).
  - apply started_ok.
  - repeat constructor.
  - exists s'. split; [exact E|exact H].
Defined.

Example two_accepted :
  match run_sysevents [Incoming true 1; Incoming true 1] (started REDIRECT) with
  | Ret _ s => accepted s = [5; 6] /\ sq_ (sys_q s) = [6; 5]
  | _ => False
  end.
Proof. vm_compute. done. Qed.

(** Worker 1 takes the connection over and knows where it was to go. *)
Definition one_waiting : fdq := set_sq [5] (sys_q (started REDIRECT)).
Definition idle_worker : worker (CO := tcp_sim) := start_worker fresh_worker true (mkTask 1 20 REDIRECT).
Definition worker_world : wworld (CO := tcp_sim) := mkWw (CO := tcp_sim) one_waiting (fresh_worker 1) ∅ [].

Lemma worker_takes_over_witness :
  exists w' p', worker_once new_cx (add true) idle_worker false (fun _ => []) 0 worker_world =
      in_m (master_once (fun _ => []) 0 1) w' /\
    sq_ (w_q w') = [] /\ proxy_at 1 w' p' /\ zlen (sockets (px_left p')) = 1 /\
    (fds_ <$> w_cxs (wk_world w') !! new_id (wk_world worker_world)) = Some 5 /\
    ((fun d => (nonlocal_dst_host_ d, nonlocal_dst_port_ d)) <$> w_dsts w' !! new_id (wk_world worker_world)) =
      Some ([192; 0; 2; 7], 80).
Proof.
  destruct (worker_takes_over idle_worker false (fun _ => []) 0 worker_world (bare_proxy 1 []) 5 [])
    as (w' & p' & E & Hq & _ & _ & Hc & Hf & Hd & _ & Hp & Hs & _).
  - reflexivity.
  - apply lookup_singleton_eq.
  - by repeat constructor.
  - reflexivity.
  - exists w', p'. split; [exact E|]. split; [by rewrite <- (rev_involutive (sq_ (w_q w'))), Hq|].
    split; [exact Hp|]. split; [rewrite Hs; reflexivity|].
    split; [rewrite Hc, lookup_insert_eq; cbn [fmap option_fmap option_map]; f_equal; exact Hf|].
    rewrite Hd, lookup_insert_eq. vm_compute. reflexivity.
Defined.

Lemma workers_registered_witness :
  exists h', create_workers 0 TRANSPARENT (mkHas new_queue [] 2 0) = Ret 2 h' /\
    (tk_id <$> tasks_ h') = [0; 1] /\ workers_total_ h' = 2.
Proof.
  destruct (workers_registered 0 TRANSPARENT (mkHas new_queue [] 2 0)) as (h' & l & E & W & T & _ & L & I & _).
  - cbn. lia.
  - lia.
  - cbn. lia.
  - cbn in W. rewrite W in E, L. exists h'. split; [exact E|]. split; [|exact W].
    cbn in T. rewrite T, I. assert (length l = 2%nat) as -> by (rewrite zlen_length in L; lia). reflexivity.
Defined.

(** ** What goes wrong *)

(** A negative preference is four thousand million workers, not none. *)
Example negative_preference : thread_count 0 (-1) = 2 ^ 32 - 1.
Proof. reflexivity. Qed.

(** A thread that could not be started is waited for through a null pointer. *)
Example unstarted_thread_undefined :
  let s := started REDIRECT in
  let stopped k := mkWorker (CO := tcp_sim) (wk_id k) (me k) (wk_type k) (wk_nonlocal_dst k) true false (wk_m k) (wk_dsts k) in
  match join_workers (mkSystem (CO := tcp_sim) (acceptor s) (sys_q s) REDIRECT true (stopped <$> workers s) [] []) with
  | Undef => True
  | _ => False
  end.
Proof. vm_compute. done. Qed.
