(* ===== verification/Internet.v ===== *)
(** * Internet: downloads (src/common/internet.cpp, internet.hpp)

    Host lookup, a connection, and [download], a client of HTTP/1.0 that takes an address
    apart, sends its request and reads the answer over a poller of [Epoll].  The buffer of
    the caller is the bytes it holds.  [n_made] and [n_closed] list the sockets made and
    closed, oldest first. *)

From S2P Require Export SockInfo Text Epoll.

Definition AF_UNSPEC : Z := 0.
Definition SOCK_STREAM : Z := 1.

(** getaddrinfo(3) with a family (family and address of each answer), send(2), recv(2), the
    answers of the epoll_wait(2) calls of one wait, a new epoll instance, the seconds of
    time(2). *)
Class NetSys `{!SockSys} `{EpollKernel} : Type := {
  ns_getaddrinfo : bytes -> Z -> sk -> option (list (Z * bytes));
  ns_send : Z -> bytes -> sk -> Z * sk;
  ns_recv : Z -> Z -> sk -> (Z * bytes) * sk;
  ns_epoll : sk -> list wait_result * sk;
  ns_epoll_create : sk -> kstate;
  ns_time : sk -> Z
}.

(** ** Texts *)

(** The first place [p] holds at, from [o] on: [find_first_of] and its like. *)
Fixpoint find_first (p : Z -> bool) (s : bytes) : option Z :=
  match s with
  | [] => None
  | c :: s => if p c then Some 0 else (fun k => k + 1) <$> find_first p s
  end.
Definition find_from (p : Z -> bool) (o : Z) (s : bytes) : option Z :=
  (fun k => k + o) <$> find_first p (zdrop o s).
(** [find] of a text. *)
Fixpoint find_text (t s : bytes) : option Z :=
  if bool_decide (take (length t) s = t) then Some 0
  else match s with [] => None | _ :: s => (fun k => k + 1) <$> find_text t s end.

(** [s.substr(0, find(c))] and what is behind [c]. *)
Definition before (c : Z) (s : bytes) : bytes :=
  match find_first (Z.eqb c) s with Some k => ztake k s | None => s end.
Definition after (c : Z) (s : bytes) : option bytes :=
  (fun k => zdrop (k + 1) s) <$> find_first (Z.eqb c) s.

(** ** Addresses *)

Record url_parts : Type := mkUrl { protocol : bytes; domain : bytes; url_port : bytes; path : bytes }.

Definition starts (t s : bytes) : bool := bool_decide (ztake (zlen t) s = t).

(** The first part of [download]; the query is put behind the path again. *)
Definition parse_url (url : bytes) : url_parts :=
  let offset := if starts (text "https://") url then 8 else if starts (text "http://") url then 7 else 0 in
  let pos1 := find_from (Z.eqb 47) (offset + 1) url in
  let path := match pos1 with Some k => zdrop k url | None => [] end in
  let domain := match pos1 with Some k => ztake (k - offset) (zdrop offset url) | None => zdrop offset url end in
  let path := before 35 path in
  let url_port := default (text "80") (after 58 domain) in
  let domain := before 58 domain in
  let protocol := if 0 <? offset then ztake (offset - 3) url else [] in
  let query := default [] (after 63 path) in
  let path := before 63 path in
  let path := if bool_decide (path = []) then [47] else path in
  let path := if 0 <? zlen query then path ++ [63] ++ query else path in
  let url_port := if 0 <? zlen protocol then
                    if bool_decide (protocol = text "http") then text "80"
                    else if bool_decide (protocol = text "https") then text "443" else url_port
                  else url_port in
  mkUrl protocol domain url_port path.

Definition get_request (u : url_parts) : bytes :=
  text "GET " ++ path u ++ text " HTTP/1.0" ++ [13; 10] ++ text "Host: " ++ domain u ++ [13; 10; 13; 10].

(** ** Headers *)

Definition header_value (full_header header_name : bytes) : bytes :=
  match find_text header_name full_header with
  | None => []
  | Some pos =>
      let from := find_from (fun c => negb ((c =? 58) || (c =? 32))) (pos + zlen header_name) full_header in
      let until := find_from (fun c => (c =? 13) || (c =? 10) || (c =? 9) || (c =? 32))
                     (match from with Some b => b + 1 | None => 0 end) full_header in
      match from, until with
      | Some b, Some u => ztake (u - b) (zdrop b full_header)
      | _, _ => []
      end
  end.

(** [std::stringstream(s) >> n] on an int: nothing to read leaves [n], no number is 0, one
    out of range the bound. *)
Definition extract_int (s : bytes) (n : Z) : Z :=
  match skip_space s with
  | [] => n
  | s => match strto s with
         | None => 0
         | Some (neg, v) => let v := if neg : bool then - v else v in Z.max (- 2 ^ 31) (Z.min (2 ^ 31 - 1) v)
         end
  end.

Definition delim : list Z := [13; 10; 13; 10].
Definition delim_at (state : Z) : Z := default 0 (delim !! Z.to_nat state).

(** The loop over what was received, until the delimiter is complete: the header, the
    state, and the bytes behind. *)
Fixpoint scan (chunk header : bytes) (state : Z) : bytes * Z * bytes :=
  match chunk with
  | [] => (header, state, [])
  | c :: r =>
      if state <? 4 then scan r (header ++ [c]) (if c =? delim_at state then state + 1 else 0)
      else (header, state, chunk)
  end.

Section internet.
Context {IN : Inet} {SK : SockSys} {EK : EpollKernel} {NS : NetSys}.

(** ** Sockets *)

Record nworld : Type := mkNw { n_buf : bytes; n_made : list Z; n_closed : list Z; n_sys : sk }.

Definition ncall {A} (f : sk -> A * sk) : M nworld A := fun w =>
  let '(a, s) := f (n_sys w) in Ret a (mkNw (n_buf w) (n_made w) (n_closed w) s).
Definition n_socket (family type : Z) : M nworld Z := fun w =>
  let '(r, s) := sk_socket family type 0 (n_sys w) in
  Ret r (mkNw (n_buf w) (if r <? 0 then n_made w else n_made w ++ [r]) (n_closed w) s).
Definition n_close (fd : Z) : M nworld unit := fun w =>
  Ret tt (mkNw (n_buf w) (n_made w) (n_closed w ++ [fd]) (snd (sk_close fd (n_sys w)))).
Definition n_append (b : bytes) : M nworld unit :=
  modify (fun w => mkNw (n_buf w ++ b) (n_made w) (n_closed w) (n_sys w)).
Definition n_now : M nworld Z := gets (fun w => ns_time (n_sys w)).

Definition dns_lookup (host_name : bytes) (ipv : Z) : M nworld (list bytes) :=
  let ai_family := if ipv =? 6 then AF_INET6 else AF_INET in
  let ai_family := if ipv =? 0 then AF_UNSPEC else ai_family in
  res <- gets (fun w => ns_getaddrinfo host_name ai_family (n_sys w)) ;;
  mret_ (match res with
         | None => []
         | Some l => (fun a : Z * bytes => inet_ntop (fst a) (if fst a =? AF_INET then sin_addr (snd a) else sin6_addr (snd a))) <$> l
         end).

Definition is_ipv6_address (s : bytes) : bool := if inet_pton AF_INET6 s then true else false.
Definition is_ipv4_address (s : bytes) : bool := if inet_pton AF_INET s then true else false.

Definition final_sa (family off : Z) (ip_address : bytes) (port : Z) : bytes :=
  put_at 2 (be_bytes 2 (u16 port)) (put_at 0 (le_bytes 2 family) (put_addr off (inet_pton family ip_address) zero_ss)).

Definition socket_connect (ip_address : bytes) (port : Z) : M nworld Z :=
  match (if is_ipv4_address ip_address then Some (AF_INET, final_sa AF_INET 4 ip_address port)
         else if is_ipv6_address ip_address then Some (AF_INET6, final_sa AF_INET6 8 ip_address port) else None) with
  | None => mret_ (-1)
  | Some (family, sa) =>
      sd <- n_socket family SOCK_STREAM ;;
      if 0 <=? sd then
        connect_err <- ncall (sk_connect sd sa) ;;
        if connect_err =? 0 then mret_ sd else n_close sd ;;; mret_ (-2)
      else mret_ (-1)
  end.

(** ** One request *)

(** [send_request]: a turn for every byte at most. *)
Fixpoint send_loop (fuel : nat) (sd : Z) (request : bytes) (sent : Z) : M nworld Z :=
  match fuel with
  | O => undef
  | S fuel =>
      ret <- ncall (ns_send sd (zdrop sent request)) ;;
      if 0 <? ret then
        let sent := sent + ret in
        if sent <? zlen request then send_loop fuel sd request sent else mret_ (zlen request)
      else mret_ (-1)
  end.
Definition send_request (sd : Z) (request : bytes) : M nworld Z := send_loop (S (length request)) sd request 0.

(** What [receive_response] keeps between its turns. *)
Record response : Type := mkResp {
  r_epoll : epoll;
  header : bytes;
  bytes_sofar : Z;
  bytes_expected : Z;
  bytes_total : Z;
  state : Z
}.

(** [e.wait(1000)] *)
Definition r_wait (r : response) : M nworld (Z * response) := fun w =>
  let '(rs, s) := ns_epoll (n_sys w) in
  match epoll_wait_ (1000 * ns_time s) rs (replicate 50 (0, 0)) (r_epoll r) with
  | Ret n e => Ret (n, mkResp e (header r) (bytes_sofar r) (bytes_expected r) (bytes_total r) (state r))
                 (mkNw (n_buf w) (n_made w) (n_closed w) s)
  | _ => Undef
  end.

Definition recv_size : Z := 16384.

(** What is made of [b], which was received. *)
Definition take_chunk (b : bytes) (r : response) : M nworld response :=
  let '(h, st, body) := if state r <? 4 then scan b (header r) (state r) else (header r, state r, b) in
  let expected := if (bytes_expected r =? -1) && (st =? 4) then extract_int (header_value h (text "Content-Length")) (-2)
                  else bytes_expected r in
  when (st =? 4) (n_append body) ;;;
  mret_ (mkResp (r_epoll r) h (if st =? 4 then bytes_sofar r + zlen body else bytes_sofar r) expected (bytes_total r) st).

(** The loop; [None] when the fuel runs out.  Receiving more than an int counts overflows. *)
Fixpoint receive_loop (fuel : nat) (sd deadline : Z) (r : response) : M nworld (option Z) :=
  if bytes_sofar r =? bytes_expected r then mret_ (Some (bytes_sofar r))
  else match fuel with
  | O => mret_ None
  | S fuel =>
      let! (nfds, r) := r_wait r in
      if (0 <? nfds) && epoll_in_read_set sd (r_epoll r) then
        let! (n, b) := ncall (ns_recv sd recv_size) in
        let total := bytes_total r + n in
        if 2 ^ 31 <=? total then undef
        else
          now <- n_now ;;
          if deadline <? now then mret_ (Some (-1))
          else if n <=? 0 then mret_ (Some (bytes_sofar r))
          else
            r <- take_chunk b (mkResp (r_epoll r) (header r) (bytes_sofar r) (bytes_expected r) total (state r)) ;;
            receive_loop fuel sd deadline r
      else
        now <- n_now ;;
        if deadline <? now then mret_ (Some (-1)) else receive_loop fuel sd deadline r
  end.

Definition receive_response (fuel : nat) (sd timeout : Z) : M nworld (option Z) :=
  start_time <- n_now ;;
  k <- gets (fun w => ns_epoll_create (n_sys w)) ;;
  let e := snd (epoll_add sd EPOLLIN (epoll_new k (1000 * start_time))) in
  receive_loop fuel sd (start_time + timeout) (mkResp e [] 0 (-1) 0 0).

Definition http_get (fuel : nat) (request ip_address : bytes) (port timeout : Z) : M nworld (option Z) :=
  sd <- socket_connect ip_address (u16 port) ;;
  if 0 <=? sd then
    n <- send_request sd request ;;
    if n <? zlen request then n_close sd ;;; mret_ (Some (-1))
    else
      size <- receive_response fuel sd timeout ;;
      match size with
      | None => mret_ None
      | Some size => n_close sd ;;; mret_ (Some size)
      end
  else mret_ (Some 0).

(** The addresses in turn, as long as the result is 0. *)
Fixpoint try_addresses (fuel : nat) (request : bytes) (ips : list bytes) (port timeout ret : Z) : M nworld (option Z) :=
  match ips with
  | [] => mret_ (Some ret)
  | ip :: ips =>
      r <- http_get fuel request ip port timeout ;;
      match r with
      | None => mret_ None
      | Some r => if (r =? 0) then try_addresses fuel request ips port timeout r else mret_ (Some r)
      end
  end.

Definition addresses_of (domain : bytes) (ipv : Z) : M nworld (list bytes) :=
  if 0 <? zlen domain then
    if is_ipv4_address domain then mret_ [domain]
    else if is_ipv6_address domain then mret_ [domain]
    else dns_lookup domain ipv
  else mret_ [].

Definition download (fuel : nat) (url : bytes) (timeout ipv : Z) : M nworld (option Z) :=
  let u := parse_url url in
  ips <- addresses_of (domain u) ipv ;;
  if bool_decide (ips = []) then mret_ (Some 0)
  else match stoi (url_port u) with
       | inl e => throw e
       | inr port => try_addresses fuel (get_request u) ips (u16 port) timeout 0
       end.
End internet.
