(* ===== verification/InternetProps.v ===== *)
(** * InternetProps: properties of downloads *)

From S2P Require Export Internet TextProps.

(** ** Places in a text *)

Lemma find_first_none p s : Forall (fun c => p c = false) s -> find_first p s = None.
Proof. induction 1 as [|c s Hc _ IH]; [done|]. cbn. by rewrite Hc, IH. Qed.

Lemma find_first_at p a c s : Forall (fun x => p x = false) a -> p c = true -> find_first p (a ++ c :: s) = Some (zlen a).
Proof.
  intros Ha Hc. induction Ha as [|x a Hx _ IH]; cbn; [by rewrite Hc|]. rewrite Hx, IH. cbn. f_equal. zlen_lia.
Qed.

Lemma lacks (c : Z) s : c ∉ s -> Forall (fun x => (c =? x) = false) s.
Proof. intros H. apply Forall_forall. intros x Hx. apply Z.eqb_neq. by intros ->. Qed.

Lemma before_at c a s : c ∉ a -> before c (a ++ c :: s) = a.
Proof.
  intros Ha. unfold before. rewrite (find_first_at _ a) by (auto using lacks; apply Z.eqb_refl). by apply ztake_app_exact.
Qed.
Lemma before_none c a : c ∉ a -> before c a = a.
Proof. intros Ha. unfold before. by rewrite find_first_none by auto using lacks. Qed.
Lemma after_at c a s : c ∉ a -> after c (a ++ c :: s) = Some s.
Proof.
  intros Ha. unfold after. rewrite (find_first_at _ a) by (auto using lacks; apply Z.eqb_refl). cbn. f_equal.
  rewrite (app_assoc a [c] s : a ++ c :: s = (a ++ [c]) ++ s). apply zdrop_app_exact. zlen_lia.
Qed.
Lemma after_none c a : c ∉ a -> after c a = None.
Proof. intros Ha. unfold after. by rewrite find_first_none by auto using lacks. Qed.

(** ** Addresses *)

Inductive scheme : Type := Plain | Http | Https.
Definition scheme_name (s : scheme) : bytes := match s with Plain => [] | Http => text "http" | Https => text "https" end.
Definition scheme_prefix (s : scheme) : bytes :=
  match s with Plain => [] | Http => text "http://" | Https => text "https://" end.
(** A part of an address behind its mark, when it is there. *)
Definition marked (c : Z) (o : option bytes) : bytes := match o with Some t => c :: t | None => [] end.

Lemma lacks_marked c d a o : c <> d -> c ∉ a -> c ∉ default [] o -> c ∉ a ++ marked d o.
Proof.
  intros Hd Ha Ho [H|H]%elem_of_app; [done|]. destruct o as [t|]; cbn in *; [|by apply elem_of_nil in H].
  apply elem_of_cons in H as [H|H]; done.
Qed.
Lemma before_marked c a o : c ∉ a -> before c (a ++ marked c o) = a.
Proof. intros Ha. destruct o as [t|]; cbn; [by apply before_at|]. rewrite app_nil_r. by apply before_none. Qed.
Lemma after_marked c a o : c ∉ a -> after c (a ++ marked c o) = o.
Proof. intros Ha. destruct o as [t|]; cbn; [by apply after_at|]. rewrite app_nil_r. by apply after_none. Qed.

Definition print_url (s : scheme) (host : bytes) (port : option bytes) (path : bytes) (query fragment : option bytes) : bytes :=
  scheme_prefix s ++ (host ++ marked 58 port) ++ path ++ marked 63 query ++ marked 35 fragment.

(** The authority of an address and what is behind it. *)
Lemma authority pre rest tail : rest <> [] -> 47 ∉ rest -> tail = [] \/ (exists t, tail = 47 :: t) ->
  let url := pre ++ rest ++ tail in let offset := zlen pre in let pos1 := find_from (Z.eqb 47) (offset + 1) url in
  (match pos1 with Some k => zdrop k url | None => [] end) = tail /\
  (match pos1 with Some k => ztake (k - offset) (zdrop offset url) | None => zdrop offset url end) = rest.
Proof.
  intros Hr Hn Ht url offset pos1. destruct rest as [|x rest]; [done|]. apply not_elem_of_cons in Hn as [Hx Hn].
  assert (zdrop offset url = x :: rest ++ tail) as Hd by by apply zdrop_app_exact.
  assert (zdrop (offset + 1) url = rest ++ tail) as Hd1.
  { unfold url. rewrite (app_assoc pre [x] (rest ++ tail) : pre ++ (x :: rest) ++ tail = _). apply zdrop_app_exact. zlen_lia. }
  destruct Ht as [->|[t ->]].
  - assert (pos1 = None) as ->.
    { unfold pos1, find_from. rewrite Hd1, app_nil_r, find_first_none by auto using lacks. done. }
    rewrite Hd. by rewrite app_nil_r.
  - assert (pos1 = Some (zlen rest + (offset + 1))) as ->.
    { unfold pos1, find_from. rewrite Hd1, (find_first_at _ rest) by (auto using lacks). done. }
    rewrite Hd. split.
    + unfold url. rewrite (app_assoc pre (x :: rest) (47 :: t)). apply zdrop_app_exact. unfold offset. zlen_lia.
    + change (x :: rest ++ 47 :: t) with ((x :: rest) ++ 47 :: t). apply ztake_app_exact. zlen_lia.
Qed.

(** What is before the first slash of an address with a scheme ends in a colon. *)
Lemma starts_inv t url : starts t url = true -> exists r, url = t ++ r.
Proof.
  unfold starts. intros H%bool_decide_eq_true. exists (zdrop (zlen t) url). by rewrite <- H at 1; rewrite ztake_zdrop.
Qed.

Lemma plain_has_no_scheme w host port tail : 58 ∉ host -> 47 ∉ host -> port <> Some [] -> 47 ∉ default [] port ->
  58 ∉ w -> 47 ∉ w -> tail = [] \/ (exists t, tail = 47 :: t) ->
  starts (w ++ [58; 47; 47]) ((host ++ marked 58 port) ++ tail) = false.
Proof.
  intros Hc Hs Hp Hps Hwc Hws Ht. apply not_true_is_false. intros [r E]%starts_inv.
  assert (47 ∉ host ++ marked 58 port) as Ha by by apply lacks_marked.
  assert (before 47 ((w ++ [58; 47; 47]) ++ r) = w ++ [58]) as Hb.
  { rewrite <- app_assoc. cbn. rewrite (app_assoc w [58] (47 :: 47 :: r) : w ++ 58 :: 47 :: 47 :: r = _). apply before_at.
    intros [H|H]%elem_of_app; [done|]. by apply list_elem_of_singleton in H. }
  assert (host ++ marked 58 port = w ++ [58]) as E'.
  { rewrite <- Hb, <- E. destruct Ht as [->|[t ->]]; [rewrite app_nil_r; by rewrite before_none|by rewrite before_at]. }
  destruct port as [p|]; cbn in E'.
  - assert (after 58 (host ++ 58 :: p) = after 58 (w ++ [58])) as F by by rewrite E'.
    rewrite !after_at in F by done. injection F as ->. by apply Hp.
  - rewrite app_nil_r in E'. apply Hc. rewrite E'. apply elem_of_app. right. by left.
Qed.

Definition default_port (s : scheme) (port : option bytes) : bytes :=
  match s with Plain => default (text "80") port | Http => text "80" | Https => text "443" end.

(** A host name without colon or slash, a port that is not empty, and a path that begins with
    a slash or is all that is missing behind the host. *)
Definition url_ok (host : bytes) (port : option bytes) (path : bytes) (query fragment : option bytes) : Prop :=
  host <> [] /\ 58 ∉ host /\ 47 ∉ host /\ port <> Some [] /\ 47 ∉ default [] port /\
  35 ∉ path /\ 63 ∉ path /\ 35 ∉ default [] query /\
  ((exists p, path = 47 :: p) \/ path = [] /\ query = None /\ fragment = None).

Lemma offset_of s host port tail :
  host <> [] -> 58 ∉ host -> 47 ∉ host -> port <> Some [] -> 47 ∉ default [] port ->
  tail = [] \/ (exists t, tail = 47 :: t) ->
  let url := scheme_prefix s ++ (host ++ marked 58 port) ++ tail in
  (if starts (text "https://") url then 8 else if starts (text "http://") url then 7 else 0) = zlen (scheme_prefix s).
Proof.
  intros Hh H1 H2 H3 H4 H5 url. destruct s.
  - change (text "https://") with (text "https" ++ [58; 47; 47]). change (text "http://") with (text "http" ++ [58; 47; 47]).
    unfold url. cbn [scheme_prefix]. rewrite app_nil_l, !plain_has_no_scheme; try done; by apply (bool_decide_unpack _).
  - assert (starts (text "https://") url = false) as ->.
    { apply bool_decide_eq_false. unfold url. intros E%(f_equal (fun l => l !! 4%nat)). done. }
    assert (starts (text "http://") url = true) as -> by by apply bool_decide_eq_true, ztake_app_exact.
    done.
  - assert (starts (text "https://") url = true) as -> by by apply bool_decide_eq_true, ztake_app_exact.
    done.
Qed.

(** An address is taken apart as it was put together: scheme, host, path and query are
    those it was written with, the fragment is dropped - and with a scheme the port is
    the scheme's, whatever the address says. *)
Theorem url_roundtrip s host port path query fragment :
  url_ok host port path query fragment ->
  parse_url (print_url s host port path query fragment) =
    mkUrl (scheme_name s) host (default_port s port)
      ((if bool_decide (path = []) then [47] else path) ++ (if bool_decide (default [] query = []) then [] else marked 63 query)).
Proof.
  intros (Hh & Hc & Hs & Hp & Hps & Hpf & Hpq & Hqf & Htail).
  set (tail := path ++ marked 63 query ++ marked 35 fragment).
  assert (tail = [] \/ (exists t, tail = 47 :: t)) as Ht.
  { unfold tail. destruct Htail as [[p ->]|(-> & -> & ->)]; [right; by eexists|by left]. }
  assert (47 ∉ host ++ marked 58 port) as Ha by by apply lacks_marked.
  assert (host ++ marked 58 port <> []) as Hr by (by destruct host).
  pose proof (offset_of s host port tail Hh Hc Hs Hp Hps Ht) as Ho.
  pose proof (authority (scheme_prefix s) _ tail Hr Ha Ht) as [E1 E2].
  unfold parse_url, print_url. fold tail. cbv zeta in Ho, E1, E2. rewrite Ho. cbv zeta. rewrite E1, E2. clear Ho E1 E2.
  assert (before 35 tail = path ++ marked 63 query) as ->.
  { unfold tail. rewrite app_assoc. by apply before_marked, lacks_marked. }
  rewrite !before_marked, !after_marked by done.
  assert ((if 0 <? zlen (scheme_prefix s) then ztake (zlen (scheme_prefix s) - 3)
             (scheme_prefix s ++ (host ++ marked 58 port) ++ tail) else []) = scheme_name s) as ->.
  { destruct s; [done| |]; reflexivity. }
  assert ((if 0 <? zlen (default [] query) then (if bool_decide (path = []) then [47] else path) ++ [63] ++ default [] query
           else if bool_decide (path = []) then [47] else path) =
          (if bool_decide (path = []) then [47] else path) ++ (if bool_decide (default [] query = []) then [] else marked 63 query)) as ->.
  { destruct query as [[|c q]|]; cbn [default from_option id]; rewrite ?app_nil_r; try done. }
  by destruct s.
Qed.

(** ** Answers *)

Lemma scan_app a b h s :
  scan (a ++ b) h s =
    let '(h1, s1, r1) := scan a h s in
    if s1 <? 4 then scan b h1 s1 else (h1, s1, r1 ++ b).
Proof.
  revert h s. induction a as [|c a IH]; intros h s; cbn [app scan].
  - destruct (s <? 4) eqn:E; [done|]. destruct b; cbn; [done|]. by rewrite E.
  - destruct (s <? 4) eqn:E; [apply IH|]. by rewrite E.
Qed.

Lemma scan_open c h s : snd (fst (scan c h s)) < 4 -> fst (fst (scan c h s)) = h ++ c /\ snd (scan c h s) = [].
Proof.
  revert h s. induction c as [|x c IH]; intros h s H; cbn [scan] in *.
  - by rewrite app_nil_r.
  - destruct (Z.ltb_spec s 4); [|cbn in H; lia]. destruct (IH _ _ H) as [-> ->]. split; [|done]. by rewrite <- app_assoc.
Qed.

Lemma scan_state c h s : s <= 4 -> snd (fst (scan c h s)) <= 4.
Proof.
  revert h s. induction c as [|x c IH]; intros h s H; cbn [scan]; [done|].
  destruct (Z.ltb_spec s 4); [|done]. apply IH. case_if; lia.
Qed.

(** A header: the delimiter is found at its end. *)
Definition whole_header (h : bytes) : Prop := scan h [] 0 = (h, 4, []).

Lemma scan_part h p b : whole_header h -> h = p ++ b -> b <> [] ->
  exists s, scan p [] 0 = (p, s, []) /\ s < 4 /\ scan b p s = (h, 4, []).
Proof.
  intros Hh -> Hb. unfold whole_header in Hh. rewrite scan_app in Hh.
  destruct (scan p [] 0) as [[h1 s1] r1] eqn:E. destruct (Z.ltb_spec s1 4).
  - pose proof (scan_open p [] 0) as Ho. rewrite E in Ho. destruct (Ho ltac:(done)) as [E1 E2]. cbn in E1, E2. subst.
    by exists s1.
  - injection Hh as _ _ H0. by destruct r1, b.
Qed.

(** What the header [h] announces. *)
Definition announced (h : bytes) : Z := extract_int (header_value h (text "Content-Length")) (-2).

(** ** Headers as lines

    A header as a server writes it, said without the code: lines that are not empty, each
    ended by CR LF, and an empty one behind them. *)

Definition line_ok (s : bytes) : Prop := s <> [] /\ 13 ∉ s /\ 10 ∉ s.
Definition of_lines (ls : list bytes) : bytes := concat ((fun s => s ++ [13; 10]) <$> ls) ++ [13; 10].
Definition holds_text (t s : bytes) : Prop := exists a b, s = a ++ t ++ b.

(** A text that is the number [n] in base ten. *)
Definition numeral (ds : bytes) (n : Z) : Prop :=
  ds <> [] /\ Forall (fun c => isdigit c = true) ds /\ from_digits 10 ds = n.

(** The first line that holds the name says [n]: the name, a colon, blanks and the number. *)
Definition says_length (h : bytes) (n : Z) : Prop :=
  exists up down blanks ds,
    h = of_lines (up ++ (text "Content-Length:" ++ repeat 32 blanks ++ ds) :: down) /\
    Forall line_ok up /\ Forall line_ok down /\ Forall (fun s => ~ holds_text (text "Content-Length") s) up /\
    numeral ds n.

Lemma scan_plain s h r q : Forall (fun c => c <> 13 /\ c <> 10) s -> s <> [] -> 0 <= q < 4 ->
  scan (s ++ r) h q = scan r (h ++ s) 0.
Proof.
  intros Hs Hn. revert h q. induction Hs as [|c s [H1 H2] Hs IH]; intros h q Hq; [done|].
  cbn [app scan]. rewrite (proj2 (Z.ltb_lt _ _)) by lia.
  assert ((c =? delim_at q) = false) as ->.
  { apply Z.eqb_neq. assert (q = 0 \/ q = 1 \/ q = 2 \/ q = 3) as [-> | [-> | [-> | ->]]] by lia; assumption. }
  destruct s as [|d s]; [done|]. rewrite IH by (done || lia). by rewrite <- app_assoc.
Qed.

Lemma line_plain s : line_ok s -> Forall (fun c => c <> 13 /\ c <> 10) s /\ s <> [].
Proof.
  intros (Hn & H1 & H2). split; [|done]. apply Forall_forall. intros c Hc. by split; intros ->.
Qed.

Lemma scan_lines ls : Forall line_ok ls -> forall h q, q = 0 \/ q = 2 -> (ls = [] -> q = 2) ->
  scan (of_lines ls) h q = (h ++ of_lines ls, 4, []).
Proof.
  unfold of_lines. induction 1 as [|s ls Hs Hls IH]; intros h q Hq He.
  { rewrite He by done. cbn. by rewrite <- app_assoc. }
  apply line_plain in Hs as [Hs Hn]. cbn [fmap list_fmap concat]. rewrite <- !app_assoc.
  rewrite scan_plain by (done || lia). cbn [app scan]. change (0 <? 4) with true. change (13 =? delim_at 0) with true.
  cbn match. change (0 + 1 <? 4) with true. change (10 =? delim_at (0 + 1)) with true. cbn match.
  rewrite IH by (intros; lia). by rewrite <- !app_assoc.
Qed.

(** The code's scan ends at the end of such a header. *)
Lemma lines_scanned ls : Forall line_ok ls -> ls <> [] -> whole_header (of_lines ls).
Proof. intros H Hn. unfold whole_header. rewrite (scan_lines ls H); [done|by left|done]. Qed.

Lemma find_text_here t s : find_text t (t ++ s) = Some 0.
Proof.
  destruct (t ++ s) as [|c r] eqn:E; cbn [find_text]; by rewrite <- E, take_app_length, bool_decide_eq_true_2.
Qed.

(** The name is not found in a line that lacks it, nor across its end. *)
Lemma find_text_skip t s r : 13 ∉ t -> t <> [] -> ~ holds_text t s ->
  find_text t (s ++ 13 :: r) = (fun k => k + (zlen s + 1)) <$> find_text t r.
Proof.
  intros Ht Hn. induction s as [|c s IH]; intros Hs; cbn [app find_text].
  - rewrite bool_decide_eq_false_2; [by rewrite zlen_nil|]. intros E. apply Ht. rewrite <- E.
    destruct t; [done|]. by left.
  - rewrite bool_decide_eq_false_2.
    + rewrite IH by (intros (a & b & ->); apply Hs; by exists (c :: a), b).
      destruct (find_text t r); cbn; [|done]. f_equal. zlen_lia.
    + intros E. change (c :: s ++ 13 :: r) with ((c :: s) ++ 13 :: r) in E.
      destruct (decide (length t <= length (c :: s))%nat) as [Hl|Hl].
      * rewrite take_app_le in E by lia. apply Hs. exists [], (drop (length t) (c :: s)).
        cbn [app]. rewrite <- E at 1. by rewrite take_drop.
      * apply Ht. rewrite <- E. rewrite take_app_ge by lia.
        destruct (length t - length (c :: s))%nat eqn:Ed; [lia|]. apply elem_of_app. right. by left.
Qed.

Lemma find_text_lines t up r : 13 ∉ t -> 10 ∉ t -> t <> [] -> Forall (fun s => ~ holds_text t s) up ->
  find_text t (concat ((fun s => s ++ [13; 10]) <$> up) ++ t ++ r) =
  Some (zlen (concat ((fun s => s ++ [13; 10]) <$> up))).
Proof.
  intros H13 H10 Hn. induction 1 as [|s up Hs _ IH]; [exact (find_text_here t r)|].
  cbn [fmap list_fmap concat]. rewrite <- !app_assoc. cbn [app]. rewrite find_text_skip by done.
  cbn [find_text]. rewrite bool_decide_eq_false_2.
  - rewrite IH. cbn. f_equal. rewrite !zlen_app. zlen_lia.
  - intros E. apply H10. rewrite <- E. destruct t; [done|]. by left.
Qed.

Lemma find_from_at p o pre a c s : zlen pre = o -> Forall (fun x => p x = false) a -> p c = true ->
  find_from p o (pre ++ a ++ c :: s) = Some (o + zlen a).
Proof.
  intros Ho Ha Hc. unfold find_from. rewrite zdrop_app_exact by done. rewrite find_first_at by done. cbn. f_equal. lia.
Qed.

(** What the code takes behind a name: what is between the blanks and the end of the line. *)
Lemma header_value_at t up blanks c v down :
  13 ∉ t -> 10 ∉ t -> t <> [] -> Forall (fun s => ~ holds_text t s) up ->
  Forall (fun x => isdigit x = true) (c :: v) ->
  header_value (concat ((fun s => s ++ [13; 10]) <$> up) ++ t ++ 58 :: repeat 32 blanks ++ (c :: v) ++ 13 :: down) t = c :: v.
Proof.
  intros H13 H10 Hn Hup Hv. apply Forall_cons in Hv as [Hc Hv]. unfold header_value.
  rewrite find_text_lines by done. set (pre := concat _).
  assert (c <> 58 /\ c <> 32) as [C1 C2] by (apply isdigit_inv in Hc as [? _]; lia).
  rewrite (app_assoc pre). change (58 :: repeat 32 blanks ++ (c :: v) ++ 13 :: down) with
    ((58 :: repeat 32 blanks) ++ c :: (v ++ 13 :: down)).
  rewrite (find_from_at _ _ (pre ++ t)); [|by rewrite zlen_app| |].
  2: { constructor; [done|]. apply Forall_forall. by intros x ->%list_elem_of_In%repeat_spec. }
  2: { by rewrite (proj2 (Z.eqb_neq c 58)), (proj2 (Z.eqb_neq c 32)) by done. }
  set (b := _ + zlen (58 :: _)).
  assert (zlen ((pre ++ t) ++ 58 :: repeat 32 blanks) = b) as Hb by by rewrite !zlen_app.
  rewrite (app_assoc (pre ++ t)). change (c :: v ++ 13 :: down) with ([c] ++ v ++ 13 :: down).
  rewrite (app_assoc ((pre ++ t) ++ _) [c]). rewrite (find_from_at _ _ (((pre ++ t) ++ 58 :: repeat 32 blanks) ++ [c]) v 13);
    [|rewrite zlen_app, Hb; done| |done].
  - rewrite <- (app_assoc _ [c]). rewrite zdrop_app_exact by done.
    change ([c] ++ v ++ 13 :: down) with ((c :: v) ++ 13 :: down). apply ztake_app_exact. zlen_lia.
  - eapply Forall_impl; [exact Hv|]. intros x Hx. apply isdigit_inv in Hx as [Hx _].
    by rewrite !(proj2 (Z.eqb_neq x _)) by lia.
Qed.

(** The code's extraction finds the length such a header says. *)
Lemma length_extracted h n : says_length h n -> 0 <= n < 2 ^ 31 -> announced h = n.
Proof.
  intros (up & down & blanks & ds & -> & _ & _ & Hup & Hds & Hd & Hn) Hr. unfold announced, of_lines.
  destruct ds as [|c v]; [done|]. rewrite fmap_app, concat_app. cbn [fmap list_fmap concat]. rewrite <- !app_assoc.
  change (text "Content-Length:") with (text "Content-Length" ++ [58]). rewrite <- !app_assoc. cbn [app].
  assert (header_value (concat ((fun s => s ++ [13; 10]) <$> up) ++ text "Content-Length" ++
      58 :: repeat 32 blanks ++ (c :: v) ++ 13 :: 10 :: concat ((fun s => s ++ [13; 10]) <$> down) ++ [13; 10])
      (text "Content-Length") = c :: v) as E.
  { apply header_value_at; try done; by apply (bool_decide_unpack _). }
  cbn [app] in E. rewrite E. unfold extract_int.
  cbn [skip_space]. assert (isspace c = false) as -> by by apply Forall_cons in Hd as [[_ ?]%isdigit_inv _].
  rewrite strto_digits by done. rewrite digits_value_foldl by done.
  change (foldl _ 0 (c :: v)) with (from_digits 10 (c :: v)). rewrite Hn. lia.
Qed.

Lemma said_header_whole h n : says_length h n -> whole_header h.
Proof.
  intros (up & down & blanks & ds & -> & Hu & Hd & _ & _ & Hn & _). apply lines_scanned; [|by destruct up].
  apply Forall_app. split; [done|]. constructor; [|done]. split; [done|].
  assert (Forall (fun c => c <> 13 /\ c <> 10) (text "Content-Length:" ++ repeat 32 blanks ++ ds)) as H.
  { apply Forall_app. split; [by apply (bool_decide_unpack _)|]. apply Forall_app. split.
    - apply Forall_forall. by intros x ->%list_elem_of_In%repeat_spec.
    - eapply Forall_impl; [exact Hn|]. intros x ?%isdigit_inv. lia. }
  rewrite Forall_forall in H. split; intros E; apply H in E; lia.
Qed.

Section answers.
Context {IN : Inet} {SK : SockSys} {EK : EpollKernel} {NS : NetSys}.
Implicit Types (w : nworld) (r : response).

(** The state after [pre] of an answer with header [h], [got] of its body delivered. *)
Definition reading (h pre : bytes) r (got : bytes) : Prop :=
  (exists b, b <> [] /\ h = pre ++ b /\ scan pre [] 0 = (pre, state r, []) /\ header r = pre /\
     state r < 4 /\ bytes_sofar r = 0 /\ bytes_expected r = -1 /\ got = []) \/
  (pre = h ++ got /\ header r = h /\ state r = 4 /\ bytes_sofar r = zlen got /\ bytes_expected r = announced h).

Definition appended (b : bytes) w : nworld := mkNw (n_buf w ++ b) (n_made w) (n_closed w) (n_sys w).

Lemma take_chunk_ret h body pre c post r got w :
  whole_header h -> reading h pre r got -> pre ++ c ++ post = h ++ body ->
  exists r' extra, take_chunk c r w = Ret r' (appended extra w) /\ reading h (pre ++ c) r' (got ++ extra) /\
    r_epoll r' = r_epoll r /\ bytes_total r' = bytes_total r.
Proof.
  intros Hh Hr Hs. unfold take_chunk. destruct Hr as [(b & Hb & Eh & Es & E1 & E2 & E3 & E4 & ->)|(-> & E1 & E2 & E3 & E4)].
  - rewrite (proj2 (Z.ltb_lt _ _)) by done. rewrite E1, E3, E4. destruct (scan_part h pre b Hh Eh Hb) as (s & Es' & _ & Eb).
    assert (s = state r) as -> by congruence. rewrite Eh, <- app_assoc in Hs. apply app_inv_head in Hs.
    apply app_eq_inv in Hs as [(k & -> & Hk)|(k & -> & Hk)].
    + rewrite scan_app, Eb. cbn. eexists _, k. split; [reflexivity|]. split; [|done]. right. cbn.
      by rewrite Eh, <- app_assoc.
    + destruct (decide (k = [])) as [->|Hk0].
      * rewrite app_nil_r in Eb. rewrite Eb. cbn. eexists _, []. split; [reflexivity|]. split; [|done]. right. cbn.
        by rewrite Eh, !app_nil_r.
      * destruct (scan_part h (pre ++ c) k Hh) as (s & Ec & Hlt & _); [by rewrite <- app_assoc|done|].
        pose proof Ec as Ec'. rewrite scan_app, Es in Ec'. rewrite (proj2 (Z.ltb_lt _ _)) in Ec' by done. rewrite Ec'.
        rewrite (proj2 (Z.eqb_neq s 4)) by lia. cbn. eexists _, []. split; [unfold appended; rewrite app_nil_r; by destruct w|].
        split; [|done]. left. exists k. cbn. rewrite Eh, <- app_assoc. by repeat split.
  - rewrite E1, E2, E3, E4. cbn. eexists _, c. split; [reflexivity|]. split; [|done]. right. cbn.
    rewrite <- app_assoc, zlen_app. repeat split. case_match; reflect_bools; [|done]. done.
Qed.

(** The poller reports [sd], and a receive gets [b]. *)
Definition offers (sd deadline : Z) (k : sk) (b : bytes) (k' : sk) : Prop :=
  exists k1 m, ns_epoll k = ([Events [(sd, m)]], k1) /\ Z.land m EPOLLIN <> 0 /\
    ns_recv sd recv_size k1 = ((zlen b, b), k') /\ ns_time k' <= deadline.
Fixpoint serves (sd deadline : Z) (k : sk) (l : list bytes) (k' : sk) : Prop :=
  match l with
  | [] => k = k'
  | b :: l => exists k1, b <> [] /\ offers sd deadline k b k1 /\ serves sd deadline k1 l k'
  end.

Lemma wait_one now sd m p : Z.land m EPOLLIN <> 0 ->
  exists e, epoll_wait_ now [Events [(sd, m)]] (replicate 50 (0, 0)) p = Ret 1 e /\ epoll_in_read_set sd e = true.
Proof.
  intros Hm. unfold epoll_wait_, mbind_, modify.
  match goal with |- context [wait_loop _ _ _ ?q] => generalize q end. intros q.
  assert (process_epoll_events (fill_events [(sd, m)] (replicate 50 (0, 0))) 0 (Z.to_nat (0 + zlen [(sd, m)])) q =
          Ret tt (process_event (sd, m) q)) as E by reflexivity.
  cbn [wait_loop]. unfold mbind_. rewrite E. change (zlen [(sd, m)] =? EPOLLER_MAX_EVENTS) with false.
  eexists. split; [reflexivity|]. unfold epoll_in_read_set, enforced_to_inset. cbn [in_set set_sets].
  apply bool_decide_eq_true, elem_of_union. right. unfold process_event.
  rewrite (proj2 (Z.eqb_neq _ 0)) by done. unfold epoll_clear_idle_watch. cbn. case_match; cbn; set_solver.
Qed.

Lemma r_wait_ready sd m r w k : ns_epoll (n_sys w) = ([Events [(sd, m)]], k) -> Z.land m EPOLLIN <> 0 ->
  exists e, r_wait r w = Ret (1, mkResp e (header r) (bytes_sofar r) (bytes_expected r) (bytes_total r) (state r))
              (mkNw (n_buf w) (n_made w) (n_closed w) k) /\ epoll_in_read_set sd e = true.
Proof.
  intros E Hm. unfold r_wait. rewrite E. destruct (wait_one (1000 * ns_time k) sd m (r_epoll r) Hm) as (e & Ee & He).
  rewrite Ee. by exists e.
Qed.

Definition at_sys (k : sk) w : nworld := mkNw (n_buf w) (n_made w) (n_closed w) k.
Definition with_epoll (e : epoll) (n : Z) r : response :=
  mkResp e (header r) (bytes_sofar r) (bytes_expected r) n (state r).

(** One turn that receives [b]. *)
Lemma receive_turn fuel sd deadline r w b k :
  offers sd deadline (n_sys w) b k -> bytes_sofar r <> bytes_expected r -> bytes_total r + zlen b < 2 ^ 31 ->
  exists e, receive_loop (S fuel) sd deadline r w =
    if zlen b <=? 0 then Ret (Some (bytes_sofar r)) (at_sys k w)
    else mbind_ (take_chunk b (with_epoll e (bytes_total r + zlen b) r)) (receive_loop fuel sd deadline) (at_sys k w).
Proof.
  intros (k1 & m & E1 & Hm & E2 & Ht) Hn Hb. cbn [receive_loop]. rewrite (proj2 (Z.eqb_neq _ _)) by done.
  destruct (r_wait_ready sd m r w k1 E1 Hm) as (e & Ew & He). rewrite (bind_ret _ _ _ _ _ Ew). cbn [r_epoll fst snd].
  change (0 <? 1) with true. rewrite He. cbn [andb].
  assert (ncall (ns_recv sd recv_size) (mkNw (n_buf w) (n_made w) (n_closed w) k1) = Ret (zlen b, b) (at_sys k w)) as Er.
  { unfold ncall. cbn. by rewrite E2. }
  rewrite (bind_ret _ _ _ _ _ Er). cbn [bytes_total bytes_sofar bytes_expected header state].
  rewrite (proj2 (Z.leb_gt _ _)) by lia. unfold n_now. rewrite bind_gets. cbn [at_sys n_sys].
  rewrite (proj2 (Z.ltb_ge _ _)) by lia. exists e. by destruct (zlen b <=? 0).
Qed.

(** The loop up to any point of an answer. *)
Lemma receive_up_to h body l : forall fuel sd deadline pre post r got w k,
  whole_header h -> reading h pre r got -> pre ++ concat l ++ post = h ++ body ->
  (forall p, p `prefix_of` body -> p <> body -> zlen p <> announced h) ->
  bytes_total r + zlen (concat l) < 2 ^ 31 -> serves sd deadline (n_sys w) l k ->
  exists r' got', receive_loop (length l + fuel) sd deadline r w =
      receive_loop fuel sd deadline r' (mkNw (n_buf w ++ got') (n_made w) (n_closed w) k) /\
    reading h (pre ++ concat l) r' (got ++ got') /\ bytes_total r' = bytes_total r + zlen (concat l).
Proof.
  induction l as [|b l IH]; intros fuel sd deadline pre post r got w k Hh Hr Hs Hann Hsz Hk; cbn [concat length app] in *.
  - cbn in Hk. subst k. exists r, []. rewrite !app_nil_r, zlen_nil, Z.add_0_r. split; [by destruct w|done].
  - destruct Hk as (k1 & Hb & Ho & Hk).
    assert (bytes_sofar r <> bytes_expected r) as Hn.
    { destruct Hr as [(b' & Hb' & Eh & _ & _ & _ & E3 & E4 & _)|(-> & _ & _ & E3 & E4)]; [lia|]. rewrite E3, E4.
      rewrite <- app_assoc in Hs. apply app_inv_head in Hs. apply Hann.
      - rewrite <- Hs. by apply prefix_app_r.
      - intros ->. apply (f_equal length) in Hs. rewrite !length_app in Hs. destruct b; [done|cbn in Hs; lia]. }
    rewrite zlen_app in Hsz. pose proof (zlen_nonneg (concat l)).
    change (S (length l) + fuel)%nat with (S (length l + fuel)).
    destruct (receive_turn (length l + fuel) sd deadline r w b k1 Ho Hn ltac:(lia)) as (e & ->).
    rewrite (proj2 (Z.leb_gt (zlen b) 0)) by (destruct b; [done|]; zlen_lia; pose proof (zlen_nonneg b); lia).
    destruct (take_chunk_ret h body pre b (concat l ++ post) (with_epoll e (bytes_total r + zlen b) r) got (at_sys k1 w))
      as (r1 & x & Et & Hr1 & _ & Hn1); [done| |by rewrite <- app_assoc in Hs|].
    { destruct Hr as [(b' & ?)|?]; [left; by exists b'|by right]. }
    rewrite (bind_ret _ _ _ _ _ Et). cbn in Hn1.
    destruct (IH fuel sd deadline (pre ++ b) post r1 (got ++ x) (appended x (at_sys k1 w)) k) as (r' & g' & E & Hr' & Hn');
      [done|done|by rewrite <- !app_assoc; rewrite <- app_assoc in Hs|done|lia|done|].
    exists r', (x ++ g'). rewrite E, <- !app_assoc in *. split; [by cbn; rewrite <- app_assoc|].
    split; [exact Hr'|]. rewrite Hn', Hn1, zlen_app. lia.
Qed.

Lemma reading_all h body r got : reading h (h ++ body) r got ->
  got = body /\ bytes_sofar r = zlen body /\ bytes_expected r = announced h.
Proof.
  intros [(b & Hb & E & _)|(E & _ & _ & E3 & E4)].
  - rewrite <- app_assoc in E. apply (f_equal length) in E. rewrite !length_app in E.
    destruct b; [done|cbn in E; lia].
  - apply app_inv_head in E as ->. done.
Qed.

(** A whole answer in pieces, from the start. *)
Lemma receive_all h body l sd deadline w k e fuel :
  whole_header h -> concat l = h ++ body -> zlen (h ++ body) < 2 ^ 31 ->
  (forall p, p `prefix_of` body -> p <> body -> zlen p <> announced h) ->
  serves sd deadline (n_sys w) l k ->
  exists r, receive_loop (length l + fuel) sd deadline (mkResp e [] 0 (-1) 0 0) w =
      receive_loop fuel sd deadline r (mkNw (n_buf w ++ body) (n_made w) (n_closed w) k) /\
    bytes_sofar r = zlen body /\ bytes_expected r = announced h /\ bytes_total r = zlen (h ++ body).
Proof.
  intros Hh Hl Hz Ha Hk.
  destruct (receive_up_to h body l fuel sd deadline [] [] (mkResp e [] 0 (-1) 0 0) [] w k)
    as (r & got & E & Hr & Hn); [done| |by rewrite app_nil_r|done|by rewrite Hl|done|].
  - left. exists h. split; [by intros ->|]. by repeat split.
  - rewrite Hl in Hr, Hn. destruct (reading_all h body r got Hr) as (-> & H1 & H2).
    exists r. by rewrite E.
Qed.

(** [C31] An answer that announces its length is delivered whole, however the network cuts it.
    The header is said without the code: lines ended by CR LF, none empty, an empty line
    behind them, and the first line that holds the text Content-Length, written exactly so,
    is that name, a colon, any number of blanks and a decimal number, the length of the body.
    When header and body together are below 2^31 bytes and come in any pieces that are not
    empty, each announced by the poller in one call of epoll_wait as the only event, with
    EPOLLIN set, and then received whole by one recv, no later than the deadline, the call
    ends with the last piece, answers the length of the body and has appended exactly the
    body to the buffer. *)
Theorem announced_answer_delivered h body l fuel sd timeout w k :
  says_length h (zlen body) -> concat l = h ++ body -> zlen (h ++ body) < 2 ^ 31 ->
  serves sd (ns_time (n_sys w) + timeout) (n_sys w) l k -> (length l <= fuel)%nat ->
  receive_response fuel sd timeout w = Ret (Some (zlen body)) (mkNw (n_buf w ++ body) (n_made w) (n_closed w) k).
Proof.
  intros Hs Hl Hz Hk Hf. pose proof (said_header_whole _ _ Hs) as Hh.
  assert (announced h = zlen body) as Ha.
  { apply length_extracted; [done|]. pose proof (zlen_nonneg body). pose proof (zlen_nonneg h). rewrite zlen_app in Hz. lia. }
  unfold receive_response, n_now. rewrite !bind_gets.
  replace fuel with (length l + (fuel - length l))%nat by lia.
  destruct (receive_all h body l sd (ns_time (n_sys w) + timeout) w k
              (snd (epoll_add sd EPOLLIN (epoll_new (ns_epoll_create (n_sys w)) (1000 * ns_time (n_sys w)))))
              (fuel - length l)) as (r & E & H1 & H2 & _); try done.
  - intros p [q ->] Hp. rewrite Ha, zlen_app. destruct q; [by rewrite app_nil_r in Hp|]. zlen_lia. pose proof (zlen_nonneg q). lia.
  - rewrite E. destruct (fuel - length l)%nat; cbn [receive_loop]; by rewrite H1, H2, Ha, Z.eqb_refl.
Qed.

(** One that announces none is delivered up to the end of the connection. *)
Theorem closed_answer_delivered h body l fuel sd timeout w k k' :
  whole_header h -> announced h = -2 -> concat l = h ++ body -> zlen (h ++ body) < 2 ^ 31 ->
  serves sd (ns_time (n_sys w) + timeout) (n_sys w) l k ->
  offers sd (ns_time (n_sys w) + timeout) k [] k' -> (length l < fuel)%nat ->
  receive_response fuel sd timeout w = Ret (Some (zlen body)) (mkNw (n_buf w ++ body) (n_made w) (n_closed w) k').
Proof.
  intros Hh Ha Hl Hz Hk Hk' Hf. unfold receive_response, n_now. rewrite !bind_gets.
  replace fuel with (length l + S (fuel - S (length l)))%nat by lia.
  destruct (receive_all h body l sd (ns_time (n_sys w) + timeout) w k
              (snd (epoll_add sd EPOLLIN (epoll_new (ns_epoll_create (n_sys w)) (1000 * ns_time (n_sys w)))))
              (S (fuel - S (length l)))) as (r & E & H1 & H2 & H3); try done.
  - intros p _ _. rewrite Ha. pose proof (zlen_nonneg p). lia.
  - rewrite E. pose proof (zlen_nonneg body).
    destruct (receive_turn (fuel - S (length l)) sd (ns_time (n_sys w) + timeout) r
                (mkNw (n_buf w ++ body) (n_made w) (n_closed w) k) [] k' Hk') as (e & Et).
    + rewrite H1, H2, Ha. lia.
    + rewrite H3, zlen_nil. lia.
    + rewrite Et, zlen_nil. cbn. by rewrite H1.
Qed.
End answers.


(** ** Hosts *)

Section hosts.
Context {IN : Inet} {SK : SockSys} {EK : EpollKernel} {NS : NetSys}.

Lemma before_lacks c s : c ∉ before c s.
Proof.
  unfold before. induction s as [|x s IH]; cbn; [by intros ?%elem_of_nil|].
  destruct (Z.eqb_spec c x) as [->|Hx]; cbn; [by intros ?%elem_of_nil|].
  destruct (find_first (Z.eqb c) s) as [k|] eqn:E; cbn.
  - assert (0 <= k) as Hk.
    { clear IH. revert k E. induction s as [|y s IHs]; intros k E; cbn in E; [done|].
      destruct (c =? y); [injection E as <-; lia|]. destruct (find_first _ s) as [k0|]; [|done]. cbn in E.
      injection E as <-. specialize (IHs k0 eq_refl). lia. }
    unfold ztake. rewrite Z2Nat.inj_add by lia. rewrite Nat.add_comm. cbn. by intros [?|?]%elem_of_cons.
  - by intros [?|?]%elem_of_cons.
Qed.

(** The host of an address is cut at its first colon, so no address names its host by an IPv6
    address: the test for one is never passed. *)
Theorem ipv6_hosts_unreachable url :
  (forall t a, inet_pton AF_INET6 t = Some a -> 58 ∈ t) -> is_ipv6_address (domain (parse_url url)) = false.
Proof.
  intros Hp. unfold is_ipv6_address. destruct (inet_pton AF_INET6 (domain (parse_url url))) as [a|] eqn:E; [|done].
  apply Hp in E. by apply before_lacks in E.
Qed.

End hosts.

(** ** Sockets *)

(** Started with [P], [m] answers with [Q] and throws nothing. *)
Definition leads {W A} (P : W -> Prop) (m : M W A) (Q : A -> W -> Prop) : Prop :=
  forall w, P w -> match m w with Ret a w' => Q a w' | Throw _ _ => False | Undef => True end.

Lemma leads_ret {W A} (P : W -> Prop) (a : A) (Q : A -> W -> Prop) : (forall w, P w -> Q a w) -> leads P (mret_ a) Q.
Proof. intros H w. apply H. Qed.
Lemma leads_bind {W A B} (P : W -> Prop) (m : M W A) (Q : A -> W -> Prop) (k : A -> M W B) (R : B -> W -> Prop) :
  leads P m Q -> (forall a, leads (Q a) (k a) R) -> leads P (mbind_ m k) R.
Proof. intros Hm Hk w Hw. specialize (Hm w Hw). unfold mbind_. destruct (m w) as [a v|e v|]; [by apply Hk|done..]. Qed.
Lemma leads_undef {W A} (P : W -> Prop) (Q : A -> W -> Prop) : leads P undef Q.
Proof. done. Qed.
Lemma leads_if {W A} (P : W -> Prop) (b : bool) (m1 m2 : M W A) (Q : A -> W -> Prop) :
  leads P m1 Q -> leads P m2 Q -> leads P (if b then m1 else m2) Q.
Proof. by destruct b. Qed.

Section ledger.
Context {IN : Inet} {SK : SockSys} {EK : EpollKernel} {NS : NetSys}.
Implicit Types (w : nworld) (r : response).

(** The sockets made and closed so far. *)
Definition ledger (m c : list Z) w : Prop := n_made w = m /\ n_closed w = c.
Definition steady {A} (m : M nworld A) : Prop := forall a c, leads (ledger a c) m (fun _ => ledger a c).

Lemma steady_ret {A} (x : A) : steady (mret_ x).
Proof. intros a c. by apply leads_ret. Qed.
Lemma steady_undef {A} : steady (@undef nworld A).
Proof. done. Qed.
Lemma steady_bind {A B} (m : M nworld A) (k : A -> M nworld B) :
  steady m -> (forall x, steady (k x)) -> steady (mbind_ m k).
Proof. intros Hm Hk a c. eapply leads_bind; [apply Hm|]. intros x. apply Hk. Qed.
Lemma steady_if {A} (b : bool) (m1 m2 : M nworld A) : steady m1 -> steady m2 -> steady (if b then m1 else m2).
Proof. by destruct b. Qed.
Lemma steady_when b (m : M nworld unit) : steady m -> steady (when b m).
Proof. destruct b; [done|]. intros _. apply steady_ret. Qed.
Lemma steady_gets {A} (f : nworld -> A) : steady (gets f).
Proof. by intros a c w H. Qed.
Lemma steady_ncall {A} (f : sk -> A * sk) : steady (ncall f).
Proof. intros a c w H. unfold ncall. by destruct (f (n_sys w)). Qed.
Lemma steady_append b : steady (n_append b).
Proof. by intros a c w H. Qed.
Lemma steady_wait r : steady (r_wait r).
Proof.
  intros a c w H. unfold r_wait. destruct (ns_epoll (n_sys w)) as [rs s].
  by destruct (epoll_wait_ _ rs _ (r_epoll r)).
Qed.

Create HintDb steady.
#[local] Hint Resolve steady_ret steady_undef steady_bind steady_if steady_when steady_gets steady_ncall steady_append
  steady_wait : steady.

Lemma steady_send fuel sd request sent : steady (send_loop fuel sd request sent).
Proof. revert sent. induction fuel as [|fuel IH]; intros sent; cbn [send_loop]; eauto 8 with steady. Qed.
Lemma steady_take b r : steady (take_chunk b r).
Proof. unfold take_chunk. destruct (if state r <? 4 then _ else _) as [[h st] body]. eauto with steady. Qed.
#[local] Hint Resolve steady_send steady_take : steady.
Lemma steady_receive fuel sd deadline r : steady (receive_loop fuel sd deadline r).
Proof.
  revert r. induction fuel as [|fuel IH]; intros r; cbn [receive_loop]; apply steady_if; auto with steady.
  apply steady_bind; [auto with steady|]. intros [n r1]. unfold n_now. apply steady_if.
  - apply steady_bind; [auto with steady|]. intros [k b]. eauto 8 with steady.
  - eauto 8 with steady.
Qed.

(** Every socket made has been closed, in the order they were made. *)
Definition settled w : Prop := n_made w = n_closed w.
Definition settles {A} (m : M nworld (option A)) : Prop := leads settled m (fun x w => x <> None -> settled w).

Definition connected (c : list Z) (sd : Z) w : Prop := if 0 <=? sd then ledger (c ++ [sd]) c w else settled w.

Lemma connect_connected c ip port : leads (ledger c c) (socket_connect ip port) (connected c).
Proof.
  unfold socket_connect, connected, settled. destruct (if is_ipv4_address ip then _ else _) as [[family sa]|];
    [|intros w [H1 H2]; cbn; congruence].
  apply (leads_bind _ _ (connected c)).
  - intros w [H1 H2]. unfold n_socket, connected, settled. destruct (sk_socket _ _ _ (n_sys w)) as [sd s].
    destruct (Z.leb_spec 0 sd); [rewrite (proj2 (Z.ltb_ge sd 0)) by lia; split; cbn; congruence|].
    rewrite (proj2 (Z.ltb_lt sd 0)) by lia. cbn. congruence.
  - intros sd. unfold connected. destruct (Z.leb_spec 0 sd) as [Hsd|_]; [|by apply leads_ret].
    eapply leads_bind; [apply (steady_ncall _ (c ++ [sd]) c)|]. intros e. destruct (e =? 0).
    + apply leads_ret. by rewrite (proj2 (Z.leb_le 0 sd)).
    + intros w [H1 H2]. cbn. unfold settled. cbn. by rewrite H1, H2.
Qed.

Lemma leads_close c sd (x : option Z) : leads (ledger (c ++ [sd]) c) (n_close sd ;;; mret_ x) (fun x w => x <> None -> settled w).
Proof. intros w [H1 H2]. cbn. unfold settled. cbn. by rewrite H1, H2. Qed.

Lemma http_get_settles fuel request ip port timeout : settles (http_get fuel request ip port timeout).
Proof.
  assert (forall c, leads (ledger c c) (http_get fuel request ip port timeout) (fun x w => x <> None -> settled w)) as H.
  { intros c. unfold http_get. eapply leads_bind; [apply connect_connected|]. intros sd. unfold connected.
    destruct (0 <=? sd); [|by apply leads_ret]. eapply leads_bind; [apply steady_send|]. intros n.
    apply leads_if; [apply leads_close|].
    eapply leads_bind.
    - unfold receive_response. apply (steady_bind n_now); [apply steady_gets|]. intros t.
      apply steady_bind; [apply steady_gets|]. intros k. apply steady_receive.
    - intros [size|]; [apply leads_close|]. by apply leads_ret. }
  intros w Hw. apply (H (n_closed w)). by split.
Qed.

Lemma try_settles fuel request ips port timeout ret : settles (try_addresses fuel request ips port timeout ret).
Proof.
  revert ret. induction ips as [|ip ips IH]; intros ret; cbn [try_addresses]; [by apply leads_ret|].
  eapply leads_bind; [apply http_get_settles|]. intros [r|]; [|by apply leads_ret].
  apply leads_if; [|by apply leads_ret; auto]. intros w Hw. apply IH. by apply Hw.
Qed.

Lemma addresses_of_ret host ipv w : exists ips, addresses_of host ipv w = Ret ips w.
Proof. unfold addresses_of, dns_lookup. repeat case_match; by eexists. Qed.

(** A download gives back what it took: however many addresses it tried, and whether the
    connections, the sending or the receiving failed on the way, when it ends or throws
    every socket it made has been closed, once and in the order they were made. *)
Theorem download_closes fuel url timeout ipv w :
  n_made w = n_closed w ->
  match download fuel url timeout ipv w with
  | Ret (Some _) w' | Throw _ w' => n_made w' = n_closed w'
  | _ => True
  end.
Proof.
  intros Hw. unfold download. destruct (addresses_of_ret (domain (parse_url url)) ipv w) as [ips E].
  rewrite (bind_ret _ _ _ _ _ E). case_bool_decide; [done|]. destruct (stoi _) as [e|port]; [done|].
  pose proof (try_settles fuel (get_request (parse_url url)) ips (u16 port) timeout 0 w Hw) as Ht.
  destruct (try_addresses _ _ _ _ _ _ w) as [[x|] v|e v|]; [by apply Ht|done..].
Qed.
End ledger.

(** * A web server to download from

    Every call succeeds; descriptors are numbered from 5 up.  [answer] is what is still to
    come of the answer, in the pieces the network makes of it; the poller reports the first
    socket readable as long as there is one. *)

From S2P Require Import SockInfoProps.

Record web : Type := mkWeb { answer : list bytes; next_socket : Z; clock : Z }.

Definition web_ok (s : web) : Z * web := (0, s).
Definition web_recv (s : web) : (Z * bytes) * web :=
  match answer s with
  | [] => ((0, []), s)
  | b :: l => ((zlen b, b), mkWeb l (next_socket s) (clock s))
  end.

#[export] Instance web_inet : Inet := raw_inet.
#[export] Instance web_sock : SockSys := {|
  sk := web;
  sk_socket _ _ _ s := (next_socket s, mkWeb (answer s) (next_socket s + 1) (clock s));
  sk_setsockopt _ _ _ _ := web_ok;
  sk_getfl _ := web_ok;
  sk_setfl _ _ := web_ok;
  sk_bind _ _ := web_ok;
  sk_connect _ _ := web_ok;
  sk_close _ := web_ok
|}.
#[export] Instance web_net : NetSys := {|
  ns_getaddrinfo _ _ _ := Some [(AF_INET, zrep 4 0 ++ [10; 0; 0; 9] ++ zrep 8 0)];
  ns_send _ b s := (zlen b, s);
  ns_recv _ _ := web_recv;
  ns_epoll s := ([Events [(5, EPOLLIN)]], s);
  ns_epoll_create _ := ∅;
  ns_time := clock
|}.

(** A scheme, a port, a query and a fragment. *)
Lemma url_roundtrip_witness :
  parse_url (text "https://example.org:8443/a/b?c=d&e#f") = mkUrl (text "https") (text "example.org") (text "443") (text "/a/b?c=d&e").
Proof.
  pose proof (url_roundtrip Https (text "example.org") (Some (text "8443")) (text "/a/b") (Some (text "c=d&e")) (Some (text "f"))) as H.
  apply H. unfold url_ok. repeat match goal with |- _ /\ _ => split end; try by apply (bool_decide_unpack _).
  left. by eexists.
Defined.

Definition ok_header : bytes := text "HTTP/1.0 200 OK" ++ [13; 10] ++ text "Content-Length: 5" ++ [13; 10; 13; 10].
Definition pieces : list bytes := [ztake 20 ok_header; zdrop 20 ok_header ++ text "he"; text "llo"].
Definition web_start : nworld := mkNw (text "> ") [5] [] (mkWeb pieces 6 1000).

(** An answer in three pieces, one across the end of the header. *)
Lemma announced_answer_delivered_witness :
  exists w', receive_response 3 5 10 web_start = Ret (Some 5) w' /\ n_buf w' = text "> hello".
Proof.
  assert (serves 5 1010 (n_sys web_start) pieces (mkWeb [] 6 1000)) as Hk.
  { exists (mkWeb [zdrop 20 ok_header ++ text "he"; text "llo"] 6 1000). split; [done|]. split; [by do 2 eexists|].
    exists (mkWeb [text "llo"] 6 1000). split; [done|]. split; [by do 2 eexists|].
    exists (mkWeb [] 6 1000). split; [done|]. by split; [do 2 eexists|]. }
  exists (@mkNw web_sock (text "> hello") [5] [] (mkWeb [] 6 1000)). split; [|reflexivity].
  apply (announced_answer_delivered ok_header (text "hello") pieces 3 5 10 web_start (mkWeb [] 6 1000)); try by vm_compute.
  exists [text "HTTP/1.0 200 OK"], [], 1%nat, (text "5"). split; [done|].
  split; [repeat constructor; by apply (bool_decide_unpack _)|]. split; [done|]. split; [|by repeat constructor].
  constructor; [|done]. intros (a & b & E). apply (f_equal length) in E as El. rewrite !length_app in El. cbn in El.
  destruct a as [|? [|? a]]; cbn in E, El; [by injection E|by injection E|lia].
Defined.

(** The whole of a download, the answer of no length and ended by the peer. *)
Lemma download_closes_witness :
  match download 9 (text "http://example.org/") 10 4 (mkNw [] [] [] (mkWeb [text "HTTP/1.0 200 OK" ++ [13; 10; 13; 10]; text "body"] 5 0)) with
  | Ret (Some n) w' => n = 4 /\ n_buf w' = text "body" /\ n_made w' = [5] /\ n_made w' = n_closed w'
  | _ => False
  end.
Proof.
  set (w := mkNw _ _ _ _). pose proof (download_closes 9 (text "http://example.org/") 10 4 w eq_refl) as H.
  assert (match download 9 (text "http://example.org/") 10 4 w with
          | Ret (Some n) w' => n = 4 /\ n_buf w' = text "body" /\ n_made w' = [5] | _ => False end) as E
    by (vm_compute; repeat split).
  destruct (download 9 (text "http://example.org/") 10 4 w) as [[n|] w'|e w'|]; [|done..].
  destruct E as (E1 & E2 & E3). split; [exact E1|]. split; [exact E2|]. split; [exact E3|exact H].
Defined.

(** The port of an address with a scheme is not used. *)
Example explicit_port_overridden : url_port (parse_url (text "http://example.org:8080/")) = text "80".
Proof. reflexivity. Qed.
(** A query right behind the host becomes part of the host. *)
Example query_in_host : domain (parse_url (text "http://example.org?q=1")) = text "example.org?q=1".
Proof. reflexivity. Qed.
(** A carriage return too many before the end of the header: the delimiter is missed,
    although it is there. *)
Example delimiter_missed : snd (fst (scan [13; 13; 10; 13; 10] [] 0)) = 2.
Proof. reflexivity. Qed.
(** The header is searched for the name as it is written, wherever it is. *)
Example length_of_another_header :
  header_value (text "X-Content-Length: 7" ++ [13; 10] ++ text "Content-Length: 5" ++ [13; 10; 13; 10]) (text "Content-Length") = text "7".
Proof. reflexivity. Qed.
Example length_in_lower_case :
  header_value (text "content-length: 5" ++ [13; 10; 13; 10]) (text "Content-Length") = [].
Proof. reflexivity. Qed.
