(* ===== verification/Log.v ===== *)
(** * Log: logging (src/common/log)

    Levels, the loggers that share one level per topic, the multiplexer with its targets and
    profiles, and the ring of events with their details.  The number [th] of an operation is
    the thread that runs it; an operation is one step.  What a stream was given is listed in
    [written], oldest first. *)

From stdpp Require Import gmap.
From S2P Require Export Text.

(** ** Levels (loglevel.hpp, loglevel.cpp, loggermac.hpp) *)

Record loglevelmore : Type := mkMore { exclusive_topic : bool; exclusive_exact : bool }.

Record loglevel : Type := mkLevel {
  level : Z;
  topic : Z;
  more : option loglevelmore;
  flags : Z;
  subject : bytes;
  area : bytes
}.

Definition level_of (l : Z) : loglevel := mkLevel l 0 None 0 [] [].
Definition NON : loglevel := level_of 0.
Definition FAT : loglevel := level_of 1.
Definition CRI : loglevel := level_of 2.
Definition ERR : loglevel := level_of 3.
Definition WAR : loglevel := level_of 4.
Definition NOT : loglevel := level_of 5.
Definition INF : loglevel := level_of 6.
Definition DIA : loglevel := level_of 7.
Definition DEB : loglevel := level_of 8.
Definition DUM : loglevel := level_of 9.
Definition EXT : loglevel := level_of 10.
Definition LOG_EXTOPIC : loglevelmore := mkMore true false.
Definition LOG_EXEXACT : loglevelmore := mkMore true true.
Definition LOG_FLRAW : Z := 1.

(** [operator<=] and [operator<] compare the levels and nothing else. *)
Definition level_le (a b : loglevel) : bool := level a <=? level b.
Definition level_lt (a b : loglevel) : bool := level a <? level b.
(** [operator-] and [operator+] wrap. *)
Definition level_shift (a : loglevel) (d : Z) : loglevel :=
  mkLevel (u32 (level a + d)) (topic a) (more a) (flags a) (subject a) (area a).

Definition raw (l : loglevel) : bool := Z.testbit (flags l) 0.

Definition levels : list bytes :=
  text <$> ["None    "; "Fatal   "; "Critical"; "Error   "; "Warning "; "Notify  "; "Informat"; "Diagnose";
            "Debug   "; "Dumpit  "; "Extreme "]%string.

(** [%d] of an unsigned int. *)
Definition fmt_d (x : Z) : bytes := let v := s32 x in if v <? 0 then 45 :: decimal (- v) else decimal v.
Definition level_name (l : Z) : bytes :=
  if zlen levels - 1 <? l then text "loglev-" ++ fmt_d l else default [] (levels !! Z.to_nat l).

(** ** What is not the program's *)

(** printf(3): the rendering of a format with its arguments, none when they do not fit. *)
Class Printf : Type := { arg : Type; render : bytes -> list arg -> option bytes }.
(** A format without directives renders as itself. *)
Class PrintfOk `{!Printf} : Prop := { render_plain : forall f, 37 ∉ f -> render f [] = Some f }.

(** The seconds of time(2), the microseconds of the clock within a second and in all, the local time as text, the number
    of a thread in decimal and in hexadecimal, send(2) with its errno, whether
    [mempool_realloc] of a size succeeds. *)
Class LogSys : Type := {
  lsys : Type;
  ls_time : lsys -> Z;
  ls_usec : lsys -> Z;
  ls_stamp : Z -> bytes;
  ls_thread : Z -> bytes;
  ls_thread_hex : Z -> bytes;
  ls_micros : lsys -> Z;
  ls_send : Z -> bytes -> lsys -> (Z * Z) * lsys;
  ls_alloc : Z -> bool
}.
Definition EAGAIN : Z := 11.

(** ** State *)

Inductive logger_type_t : Type := FILE | REMOTE_RAW | REMOTE_SYSLOG.

Record profile : Type := mkProfile { logger_type : logger_type_t; facility : Z; severity : Z; level_ : loglevel }.

(** Messages above the debug level are sent as debug messages. *)
Definition prival (p : profile) : Z :=
  facility p * 8 + (if level DEB <? u32 (severity p) then level DEB else severity p).

Record timer_tt : Type := mkTimer { last : Z; timeout : Z }.

(** A target is the address of a stream or a socket; both share the key space of the profiles
    and the names. *)
Record LogMux : Type := mkMux {
  mux_level : loglevel;
  dup_to_cout_ : bool;
  last_period : Z;
  last_period_status : bool;
  targets_ : list Z;
  remote_targets_ : list Z;
  target_profiles_ : gmap Z profile;
  target_names_ : gmap Z bytes;
  timers : gmap bytes timer_tt
}.
Definition new_mux : LogMux := mkMux NON true 0 false [] [] ∅ {[0 := text "unknown"]} ∅.

(** The ring, the details by event, the counter all rings share, the number each thread has
    reserved (none is 0). *)
Record Events : Type := mkEvents {
  events_ : list (Z * bytes);
  event_detail_db_ : gmap Z bytes;
  event_count_ : Z;
  current_event_id_ : gmap Z Z
}.
Definition new_events : Events := mkEvents [] ∅ 100 ∅.

Inductive sink : Type := Stream (o : Z) | Cout | Cerr.

Section log.
Context {PF : Printf} {LS : LogSys}.

(** The catalogue of [logan], the context of each thread and the filter of contexts. *)
Record lworld : Type := mkLw {
  mux : LogMux;
  events : Events;
  topic_db_ : gmap bytes loglevel;
  context_ : gmap Z bytes;
  filter_active : bool;
  filter_value : bytes;
  written : list (sink * bytes);
  l_sys : lsys
}.

Definition put_mux (m : LogMux) (w : lworld) : lworld :=
  mkLw m (events w) (topic_db_ w) (context_ w) (filter_active w) (filter_value w) (written w) (l_sys w).
Definition put_events (e : Events) (w : lworld) : lworld :=
  mkLw (mux w) e (topic_db_ w) (context_ w) (filter_active w) (filter_value w) (written w) (l_sys w).
Definition put_db (d : gmap bytes loglevel) (w : lworld) : lworld :=
  mkLw (mux w) (events w) d (context_ w) (filter_active w) (filter_value w) (written w) (l_sys w).
Definition put_context (c : gmap Z bytes) (w : lworld) : lworld :=
  mkLw (mux w) (events w) (topic_db_ w) c (filter_active w) (filter_value w) (written w) (l_sys w).
Definition put_filter (a : bool) (v : bytes) (w : lworld) : lworld :=
  mkLw (mux w) (events w) (topic_db_ w) (context_ w) a v (written w) (l_sys w).
Definition put_sys (s : lsys) (w : lworld) : lworld :=
  mkLw (mux w) (events w) (topic_db_ w) (context_ w) (filter_active w) (filter_value w) (written w) s.

Definition emit (s : sink) (t : bytes) : M lworld unit :=
  modify (fun w => mkLw (mux w) (events w) (topic_db_ w) (context_ w) (filter_active w) (filter_value w)
                     (written w ++ [(s, t)]) (l_sys w)).
Definition ltime : M lworld Z := gets (fun w => ls_time (l_sys w)).
Definition in_events {A} (f : Events -> A * Events) : M lworld A := fun w =>
  let '(a, e) := f (events w) in Ret a (put_events e w).

(** [string_format(fmt, args...)] *)
Definition format (fmt : bytes) (args : list arg) : M lworld bytes := fun w =>
  match render fmt args with
  | None => Undef
  | Some r => match string_format ls_alloc r with Ret t _ => Ret t w | Throw e _ => Throw e w | Undef => Undef end
  end.

(** ** Events *)

Definition events_max_ : Z := 1000.

Definition current (th : Z) (e : Events) : Z := default 0 (current_event_id_ e !! th).
Definition put_current (th id : Z) (e : Events) : Events :=
  mkEvents (events_ e) (event_detail_db_ e) (event_count_ e) (<[th := id]> (current_event_id_ e)).
Definition put_count (n : Z) (e : Events) : Events :=
  mkEvents (events_ e) (event_detail_db_ e) n (current_event_id_ e).

Definition lock_event_id (th : Z) (e : Events) : Z * Events :=
  if 0 <? current th e then (current th e, e)
  else let id := u64 (event_count_ e + 1) in (id, put_current th id (put_count id e)).
Definition release_event_id (th : Z) (e : Events) : Events := put_current th 0 e.

(** What [insert] does under the lock with the text it made. *)
Definition push_event (th : Z) (t : bytes) (e : Events) : Z * Events :=
  let '(use_eid, e) := if 0 <? current th e then (current th e, e)
                       else let id := u64 (event_count_ e + 1) in (id, put_count id e) in
  let q := events_ e ++ [(use_eid, t)] in
  (use_eid,
   if events_max_ <? zlen q then
     match q with
     | [] => e
     | (eid, _) :: q => mkEvents q (delete eid (event_detail_db_ e)) (event_count_ e) (current_event_id_ e)
     end
   else mkEvents q (event_detail_db_ e) (event_count_ e) (current_event_id_ e)).
(** [emplace]: the first detail of an event stays. *)
Definition add_detail (eid : Z) (t : bytes) (e : Events) : Z * Events :=
  (eid, match event_detail_db_ e !! eid with
        | Some _ => e
        | None => mkEvents (events_ e) (<[eid := t]> (event_detail_db_ e)) (event_count_ e) (current_event_id_ e)
        end).
Definition clear (e : Events) : Events := mkEvents [] ∅ (event_count_ e) (current_event_id_ e).

Definition insert (th : Z) (l : loglevel) (fmt : bytes) (args : list arg) : M lworld Z :=
  prefix <- gets (fun w => if raw l then [] else
                    ls_stamp (ls_time (l_sys w)) ++ text "." ++ pad0 6 (decimal (ls_usec (l_sys w))) ++ text ": "
                    ++ level_name (level l) ++ text ": ") ;;
  body <- format fmt args ;;
  in_events (push_event th (prefix ++ body)).
Definition detail (eid : Z) (fmt : bytes) (args : list arg) : M lworld Z :=
  t <- format fmt args ;; in_events (add_detail eid t).

(** A scope that holds an [event_id_block]: its destructor releases the number, whoever
    reserved it. *)
Definition event_block {A} (th : Z) (m : Z -> M lworld A) : M lworld A := fun w =>
  match (eid <- in_events (lock_event_id th) ;; m eid) w with
  | Ret a w' => Ret a (put_events (release_event_id th (events w')) w')
  | Throw e w' => Throw e (put_events (release_event_id th (events w')) w')
  | Undef => Undef
  end.

(** ** The multiplexer *)

Definition should_log_topic (writer msg : loglevel) : bool :=
  let t := topic writer in
  if negb (topic msg =? 0) then
    match more msg with
    | None => true
    | Some m =>
        if exclusive_exact m && negb (t =? topic msg) then false
        else if exclusive_topic m then
          if t =? 0 then false
          else Z.lor 4294901760 (topic msg) =? Z.lor 4294901760 t
        else true
    end
  else negb (0 <? t).

(** Whether the profile [p] takes a message; without one [operator[]] makes a null pointer,
    which is then dereferenced. *)
Definition takes (key : Z) (l : loglevel) : M lworld (option profile) :=
  p <- gets (fun w => target_profiles_ (mux w) !! key) ;;
  match p with
  | None => undef
  | Some p => mret_ (if level_lt (level_ p) l then None else if should_log_topic (level_ p) l then Some p else None)
  end.

Definition endl (t : bytes) : bytes := t ++ [10].

Fixpoint write_targets (ts : list Z) (l : loglevel) (sss : bytes) : M lworld unit :=
  match ts with
  | [] => mret_ tt
  | t :: ts =>
      p <- takes t l ;;
      match p with None => mret_ tt | Some _ => emit (Stream t) (endl sss) end ;;;
      write_targets ts l sss
  end.

(** A message is offered to the socket [rep] times while it is full. *)
Fixpoint rep_log (rep : nat) (sock : Z) (str : bytes) : M lworld bool :=
  match rep with
  | O => mret_ false
  | S rep =>
      let! (sent, errno) := (fun w => let '(r, s) := ls_send sock str (l_sys w) in Ret r (put_sys s w)) in
      if 0 <=? sent then mret_ (0 <? sent)
      else if errno =? EAGAIN then rep_log rep sock str
      else mret_ false
  end.

Definition remote_text (p : profile) (sss : bytes) : bytes :=
  match logger_type p with
  | REMOTE_SYSLOG => text "<" ++ fmt_d (prival p) ++ text "> " ++ sss
  | _ => sss ++ [13; 10]
  end.

Fixpoint write_remotes (ts : list Z) (l : loglevel) (sss : bytes) : M lworld unit :=
  match ts with
  | [] => mret_ tt
  | t :: ts =>
      p <- takes (u64 t) l ;;
      match p with
      | None => mret_ tt
      | Some p =>
          let str := remote_text p sss in
          if bool_decide (str = []) then mret_ tt else rep_log 3 t str ;;; mret_ tt
      end ;;;
      write_remotes ts l sss
  end.

Definition write_log (l : loglevel) (sss : bytes) : M lworld Z :=
  really_dup <- gets (fun w => dup_to_cout_ (mux w)) ;;
  ts <- gets (fun w => targets_ (mux w)) ;;
  write_targets ts l sss ;;;
  rs <- gets (fun w => remote_targets_ (mux w)) ;;
  write_remotes rs l sss ;;;
  mine <- gets (fun w => mux_level (mux w)) ;;
  when (level_le l mine && really_dup) (emit (if level_le l ERR then Cerr else Cout) (endl sss)) ;;;
  mret_ (zlen sss).

(** [LogMux::log] *)
Definition mux_log (th : Z) (l : loglevel) (fmt : bytes) (args : list arg) : M lworld unit :=
  usec <- gets (fun w => ls_usec (l_sys w)) ;;
  tt_ <- ltime ;;
  str <- format fmt args ;;
  write_log l (if raw l then str
               else ls_stamp tt_ ++ text "." ++ pad0 6 (decimal usec) ++ text " <" ++ ls_thread_hex th ++ text "> "
                    ++ level_name (level l) ++ text " - " ++ str) ;;;
  mret_ tt.

Definition add_target (name : bytes) (o : Z) (m : LogMux) : LogMux :=
  mkMux (mux_level m) (dup_to_cout_ m) (last_period m) (last_period_status m) (targets_ m ++ [o]) (remote_targets_ m)
    (target_profiles_ m) (<[o := name]> (target_names_ m)) (timers m).
Definition add_remote_target (name : bytes) (s : Z) (m : LogMux) : LogMux :=
  mkMux (mux_level m) (dup_to_cout_ m) (last_period m) (last_period_status m) (targets_ m) (remote_targets_ m ++ [s])
    (target_profiles_ m) (<[u64 s := name]> (target_names_ m)) (timers m).
(** A name that is not there is that of target 0; without that one it would not end. *)
Definition target_name (k : Z) (m : LogMux) : option bytes :=
  match target_names_ m !! k with Some n => Some n | None => target_names_ m !! 0 end.

(** ** Timers *)

Definition put_period (last : Z) (status : bool) (m : LogMux) : LogMux :=
  mkMux (mux_level m) (dup_to_cout_ m) last status (targets_ m) (remote_targets_ m) (target_profiles_ m) (target_names_ m) (timers m).
Definition put_timer (n : bytes) (t : timer_tt) (m : LogMux) : LogMux :=
  mkMux (mux_level m) (dup_to_cout_ m) (last_period m) (last_period_status m) (targets_ m) (remote_targets_ m)
    (target_profiles_ m) (target_names_ m) (<[n := t]> (timers m)).

Definition periodic_start (s : Z) : M lworld bool := fun w =>
  let status := u64 (u64 (last_period (mux w)) + s) <? u64 (ls_time (l_sys w)) in
  Ret status (put_mux (put_period (last_period (mux w)) status (mux w)) w).
Definition periodic_end : M lworld bool := fun w =>
  if last_period_status (mux w) then Ret true (put_mux (put_period (ls_time (l_sys w)) true (mux w)) w)
  else Ret false w.

Definition timer_name (th : Z) (xname : bytes) : bytes := xname ++ text "_th" ++ ls_thread th.
Definition click_timer (th : Z) (xname : bytes) (interval : Z) : M lworld bool := fun w =>
  let name := timer_name th xname in
  let now := ls_time (l_sys w) in
  match timers (mux w) !! name with
  | Some r =>
      if last r + s32 (timeout r) <? now
      then Ret true (put_mux (put_timer name (mkTimer now (timeout r)) (mux w)) w)
      else Ret false w
  | None => Ret true (put_mux (put_timer name (mkTimer now (u32 interval)) (mux w)) w)
  end.

(** ** Loggers (logan.hpp, logan.cpp)

    [my_loglevel] is the topic whose shared level the logger holds. *)

Record logan_lite : Type := mkLite { lite_topic : bytes; my_loglevel : option bytes }.

(** [logan::entry] *)
Definition entry (s : bytes) : M lworld loglevel := fun w =>
  match topic_db_ w !! s with
  | Some l => Ret l w
  | None => let l := mkLevel 0 0 None 0 s [] in Ret l (put_db (<[s := l]> (topic_db_ w)) w)
  end.

Definition held (lg : logan_lite) (w : lworld) : option loglevel := my_loglevel lg ≫= fun s => topic_db_ w !! s.

Definition lite_level (lg : logan_lite) : M lworld (loglevel * logan_lite) := fun w =>
  match held lg w with
  | Some l => Ret (l, lg) w
  | None => (l <- entry (lite_topic lg) ;; mret_ (l, mkLite (lite_topic lg) (Some (lite_topic lg)))) w
  end.
Definition lite_set_level (l : loglevel) (lg : logan_lite) : M lworld logan_lite :=
  let! (_, lg) := lite_level lg in
  modify (fun w => match my_loglevel lg with None => w | Some s => put_db (<[s := l]> (topic_db_ w)) w end) ;;;
  mret_ lg.
(** [topic(s)] *)
Definition lite_set_topic (s : bytes) (lg : logan_lite) : logan_lite := mkLite s (my_loglevel lg).

Definition context (th : Z) (w : lworld) : bytes := default [] (context_ w !! th).
Definition set_context (th : Z) (s : bytes) : M lworld unit :=
  modify (fun w => put_context (<[th := s]> (context_ w)) w).
(** A scope that holds a [logan_context]. *)
Definition logan_context {A} (th : Z) (s : bytes) (m : M lworld A) : M lworld A := fun w =>
  let orig_pref := context th w in
  match (set_context th s ;;; m) w with
  | Ret a w' => Ret a (put_context (<[th := orig_pref]> (context_ w')) w')
  | Throw e w' => Throw e (put_context (<[th := orig_pref]> (context_ w')) w')
  | Undef => Undef
  end.

(** [context_filter.set(s)]: an empty value does not switch the filter off. *)
Definition filter_set (s : bytes) : M lworld unit :=
  modify (fun w => put_filter (if bool_decide (s = []) then filter_active w else true) s w).
Definition filter_switch (a : bool) : M lworld unit := modify (fun w => put_filter a (filter_value w) w).

(** [find] of a text. *)
Fixpoint occurs (t s : bytes) : bool :=
  bool_decide (take (length t) s = t) || match s with [] => false | _ :: s => occurs t s end.

Definition filtered (c : bytes) (w : lworld) : bool :=
  filter_active w && (bool_decide (c = []) || negb (occurs (filter_value w) c)).

Definition lite_log (th : Z) (lev : loglevel) (t fmt : bytes) (args : list arg) (lg : logan_lite) : M lworld logan_lite :=
  let! (mine, lg) := lite_level lg in
  c <- gets (context th) ;;
  f <- gets (filtered c) ;;
  if negb (level_le lev mine) then mret_ lg
  else if negb (raw lev) && f then mret_ lg
  else
    ms <- format fmt args ;;
    let head := if raw lev then [] else
                  text "[ " ++ t ++ (if bool_decide (c = []) then [] else text " | " ++ c) ++ text "]: " in
    mux_log th lev (head ++ ms) [] ;;; mret_ lg.

(** [fat] to [ext]: the levels a message is made with by name; the macros ask for the level
    before they evaluate the arguments, and a release build has no message below DIA. *)
Definition severities : list loglevel := [FAT; CRI; ERR; WAR; NOT; INF; DIA; DEB; DUM; EXT].
Definition lite_say (th : Z) (lev : loglevel) (fmt : bytes) (args : list arg) (lg : logan_lite) : M lworld logan_lite :=
  lite_log th lev (lite_topic lg) fmt args lg.
Definition if_level {A} (release : bool) (lev : loglevel) (m : logan_lite -> M lworld A) (lg : logan_lite) : M lworld (option A * logan_lite) :=
  if release && level_lt DIA lev then mret_ (None, lg)
  else
    let! (mine, lg) := lite_level lg in
    if level_le lev mine then a <- m lg ;; mret_ (Some a, lg) else mret_ (None, lg).

(** The level of an object: the higher one of its own and its class's. *)
Definition this_log_level (own class : loglevel) : loglevel := if level_lt class own then own else class.

(** [logan_tracer]: texts with the microseconds since it was made. *)
Record tracer : Type := mkTracer { start_ : Z; records_ : list (Z * bytes); name_ : bytes }.
Definition new_tracer : M lworld tracer := gets (fun w => mkTracer (ls_micros (l_sys w)) [] []).
Definition trace (str fmt : bytes) (args : list arg) (t : tracer) : M lworld tracer :=
  body <- format fmt args ;;
  now <- gets (fun w => ls_micros (l_sys w)) ;;
  let head := if bool_decide (name_ t = []) then [] else name_ t ++ text ": " in
  mret_ (mkTracer (start_ t) (records_ t ++ [(now - start_ t, head ++ str ++ text " => " ++ body)]) (name_ t)).

(** [logan::log] *)
Definition logan_log (th : Z) (lev : loglevel) (t fmt : bytes) (args : list arg) : M lworld unit :=
  topic_lev <- entry t ;;
  if level_le lev topic_lev then
    ms <- format fmt args ;;
    mux_log th lev (text "[" ++ t ++ text "]: " ++ ms) []
  else mret_ tt.
End log.
