(* ===== verification/LogProps.v ===== *)
(** * LogProps: properties of the log

    The ring of events and their details, who gets a message, and what loggers share. *)

From Stdlib Require Import Sorted.
From stdpp Require Import gmap.
From S2P Require Import TextProps.
From S2P Require Export Log.

(** ** Events *)

(** The steps of threads on a ring. *)
Inductive evop : Type := Insert (th : Z) (t : bytes) | Detail (eid : Z) (t : bytes) | Lock (th : Z) | Release (th : Z).

Definition ev_step (o : evop) (e : Events) : Events :=
  match o with
  | Insert th t => snd (push_event th t e)
  | Detail eid t => snd (add_detail eid t e)
  | Lock th => snd (lock_event_id th e)
  | Release th => release_event_id th e
  end.
Definition ev_run (l : list evop) (e : Events) : Events := foldl (fun e o => ev_step o e) e l.

(** The event a step adds, with its thread. *)
Definition made (o : evop) (e : Events) : list (Z * (Z * bytes)) :=
  match o with Insert th t => [(th, (fst (push_event th t e), t))] | _ => [] end.
Fixpoint produced (l : list evop) (e : Events) : list (Z * (Z * bytes)) :=
  match l with [] => [] | o :: l => made o e ++ produced l (ev_step o e) end.
(** The texts inserted. *)
Definition inserted (l : list evop) : list bytes := omap (fun o => match o with Insert _ t => Some t | _ => None end) l.

(** The number the next event of [th] gets. *)
Definition next_id (th : Z) (e : Events) : Z := if 0 <? current th e then current th e else u64 (event_count_ e + 1).

Lemma push_id th t e : fst (push_event th t e) = next_id th e.
Proof. unfold push_event, next_id. destruct (0 <? current th e); by case_match. Qed.
Lemma push_current th t e th' : current th' (snd (push_event th t e)) = current th' e.
Proof. unfold push_event. destruct (0 <? current th e); repeat case_match; done. Qed.
Lemma push_count th t e :
  event_count_ (snd (push_event th t e)) = if 0 <? current th e then event_count_ e else u64 (event_count_ e + 1).
Proof. unfold push_event. destruct (0 <? current th e); repeat case_match; done. Qed.
(** The last [n]. *)
Definition newest {A} (n : Z) (l : list A) : list A := zdrop (zlen l - n) l.

Lemma newest_all {A} n (l : list A) : zlen l <= n -> newest n l = l.
Proof. intros H. unfold newest, zdrop. by replace (Z.to_nat (zlen l - n)) with 0%nat by lia. Qed.
Lemma newest_tail {A} n (x : A) l : 0 <= n -> zlen l = n -> newest n (x :: l) = l.
Proof. intros Hn H. unfold newest. rewrite zlen_cons. by replace (zlen l + 1 - n) with 1 by lia. Qed.
Lemma newest_newest {A} n (l k : list A) : 0 <= n -> newest n (newest n l ++ k) = newest n (l ++ k).
Proof.
  intros Hn. destruct (decide (zlen l <= n)) as [H|H]; [by rewrite (newest_all n l)|].
  unfold newest. rewrite !zlen_app, zlen_zdrop by lia.
  replace (zlen l - (zlen l - n) + zlen k - n) with (zlen k) by lia. pose proof (zlen_nonneg k).
  unfold zdrop. rewrite !zlen_length in *. rewrite <- drop_app_le by lia. rewrite drop_drop. f_equal. lia.
Qed.
Lemma newest_le {A} n (l : list A) : 0 <= n -> zlen (newest n l) <= n.
Proof.
  intros Hn. destruct (decide (zlen l <= n)); [by rewrite newest_all|]. unfold newest. rewrite zlen_zdrop by lia. lia.
Qed.

Lemma push_events th t e : zlen (events_ e) <= events_max_ ->
  events_ (snd (push_event th t e)) = newest events_max_ (events_ e ++ [(next_id th e, t)]).
Proof.
  intros He. assert (forall id : Z, zlen (events_ e ++ [(id, t)]) = zlen (events_ e) + 1) as Hz by (intros; by rewrite zlen_app).
  unfold push_event, next_id. 
  assert (forall id f, events_ f = events_ e -> events_ (snd (let q := events_ f ++ [(id, t)] in
     (id, if events_max_ <? zlen q then match q with [] => f
       | (eid, _) :: q => mkEvents q (delete eid (event_detail_db_ f)) (event_count_ f) (current_event_id_ f) end
     else mkEvents q (event_detail_db_ f) (event_count_ f) (current_event_id_ f)))) = newest events_max_ (events_ e ++ [(id, t)])) as H.
  { intros id f ->. cbv zeta. cbn [snd]. specialize (Hz id). destruct (events_ e ++ [(id, t)]) as [|[x y] q]; [done|].
    rewrite zlen_cons in *. destruct (Z.ltb_spec events_max_ (zlen q + 1)).
    - cbn [events_]. rewrite newest_tail; unfold events_max_ in *; [done|lia..].
    - cbn [events_]. rewrite newest_all; [done|]. rewrite zlen_cons. lia. }
  destruct (0 <? current th e); by apply H.
Qed.

(** The ring holds the last thousand events, whatever the threads do. *)
Lemma run_events l : forall e, zlen (events_ e) <= events_max_ ->
  events_ (ev_run l e) = newest events_max_ (events_ e ++ (snd <$> produced l e)).
Proof.
  induction l as [|o l IH]; intros e He; cbn [ev_run foldl produced].
  - rewrite app_nil_r. by rewrite newest_all.
  - change (foldl _ (ev_step o e) l) with (ev_run l (ev_step o e)).
    assert (events_ (ev_step o e) = newest events_max_ (events_ e ++ (snd <$> made o e))) as Hs.
    { destruct o as [th t|eid t|th|th]; cbn [ev_step made].
      - rewrite push_events by done. by rewrite <- push_id with (t := t).
      - cbn. rewrite app_nil_r, newest_all by done. unfold add_detail. by case_match.
      - cbn. rewrite app_nil_r, newest_all by done. unfold lock_event_id. by case_match.
      - cbn. by rewrite app_nil_r, newest_all by done. }
    rewrite IH by (rewrite Hs; by apply newest_le). rewrite Hs, newest_newest by done.
    by rewrite <- app_assoc, fmap_app.
Qed.

Lemma produced_texts l : forall e, snd <$> (snd <$> produced l e) = inserted l.
Proof.
  induction l as [|o l IH]; intros e; [done|]. cbn [produced inserted omap list_omap]. rewrite !fmap_app, IH.
  by destruct o.
Qed.

(** [C28] The ring holds the newest thousand events, in the order they were inserted: whatever
    steps the threads make, in any interleaving, its texts are the last thousand of all
    that were inserted. *)
Theorem ring_holds_newest l :
  snd <$> events_ (ev_run l new_events) = newest events_max_ (inserted l).
Proof.
  rewrite run_events by done. cbn [events_ new_events app]. rewrite <- (produced_texts l new_events).
  unfold newest, zdrop. by rewrite fmap_drop, !zlen_length, !length_fmap.
Qed.

(** *** Numbers *)

(** Every number handed out so far is at most the counter, which is at most [n]. *)
Definition numbered (n : Z) (e : Events) : Prop :=
  0 <= event_count_ e <= n /\ (forall th, 0 <= current th e <= event_count_ e) /\
  Forall (fun p => fst p <= event_count_ e) (events_ e) /\ zlen (events_ e) <= events_max_.

Lemma u64_next n : 0 <= n < 2 ^ 64 - 1 -> u64 (n + 1) = n + 1.
Proof. intros H. apply u64_small. lia. Qed.

Lemma current_put th th' id e : current th (put_current th' id e) = if decide (th = th') then id else current th e.
Proof.
  unfold current, put_current. cbn. case_decide; subst; [by rewrite lookup_insert_eq|by rewrite lookup_insert_ne].
Qed.

Lemma newest_sub {A} n (l : list A) (P : A -> Prop) : Forall P l -> Forall P (newest n l).
Proof. apply Forall_drop. Qed.

Lemma step_numbered n o e : n < 2 ^ 64 - 1 -> numbered n e -> numbered (n + 1) (ev_step o e).
Proof.
  intros Hn (Hc & Ht & Hl & Hz). destruct o as [th t|eid t|th|th]; cbn [ev_step].
  - assert (event_count_ e <= event_count_ (snd (push_event th t e)) <= n + 1 /\
            next_id th e <= event_count_ (snd (push_event th t e))) as [H1 H2].
    { rewrite push_count. unfold next_id. rewrite u64_next by lia. specialize (Ht th). destruct (0 <? current th e); lia. }
    split; [lia|]. split; [intros th'; rewrite push_current; specialize (Ht th'); lia|].
    rewrite push_events by done. split; [|by apply newest_le]. apply newest_sub, Forall_app. split; [|by repeat constructor].
    eapply Forall_impl; [exact Hl|]. intros p Hp. cbn in *. lia.
  - unfold add_detail. case_match; cbn; (split; [cbn; lia|]; split; [exact Ht|by split]).
  - unfold lock_event_id. case_match; cbn; [split; [cbn; lia|]; split; [exact Ht|by split]|].
    rewrite u64_next by lia. split; [cbn; lia|]. split; [|split; [|done]].
    + intros th'. rewrite current_put. case_decide; [cbn; lia|]. change (current th' (put_count _ e)) with (current th' e).
      cbn. specialize (Ht th'). lia.
    + cbn. eapply Forall_impl; [exact Hl|]. intros p Hp. cbn in *. lia.
  - split; [cbn; lia|]. split; [|by split]. intros th'. unfold release_event_id. rewrite current_put. cbn.
    specialize (Ht th'). case_decide; lia.
Qed.

Lemma run_numbered l : forall n e, n + zlen l < 2 ^ 64 -> numbered n e -> numbered (n + zlen l) (ev_run l e).
Proof.
  induction l as [|o l IH]; intros n e Hn He; [by rewrite Z.add_0_r|]. rewrite zlen_cons in *. pose proof (zlen_nonneg l).
  cbn [ev_run foldl]. replace (n + (zlen l + 1)) with (n + 1 + zlen l) by lia. apply IH; [lia|]. apply step_numbered; [lia|done].
Qed.

(** While [th] holds the number [id] and nobody else does. *)
Definition owns (th id : Z) (e : Events) : Prop :=
  0 < id <= event_count_ e /\ current th e = id /\ forall th', th' <> th -> current th' e <> id.

Lemma step_owns n th id o e : o <> Release th -> n < 2 ^ 64 - 1 -> numbered n e -> owns th id e -> owns th id (ev_step o e).
Proof.
  intros Ho Hn (Hc & Ht & _) (Hi & Hm & Hothers). destruct o as [th1 t|eid t|th1|th1]; cbn [ev_step].
  - split; [|split; [by rewrite push_current|intros; rewrite push_current; by apply Hothers]].
    rewrite push_count, u64_next by lia. case_match; lia.
  - unfold add_detail. case_match; done.
  - unfold lock_event_id. case_match; [done|]. reflect_bools. cbv zeta. cbn [snd]. rewrite u64_next by lia. unfold owns.
    split; [cbn; lia|]. split; [|intros th' Hth]; rewrite current_put; case_decide; subst;
      try (change (current ?a (put_count _ e)) with (current a e)); [lia|done|lia|by apply Hothers].
  - split; [cbn; lia|]. assert (th1 <> th) by congruence. unfold release_event_id.
    split; [|intros th' Hth]; rewrite current_put; case_decide; subst; [done|done|lia|by apply Hothers].
Qed.

Lemma owned_ids th id l : forall n e, Release th ∉ l -> n + zlen l < 2 ^ 64 -> numbered n e -> owns th id e ->
  forall th' id' t, (th', (id', t)) ∈ produced l e -> id' = id <-> th' = th.
Proof.
  induction l as [|o l IH]; intros n e Hr Hn He Ho th' id' t Hin; [by apply elem_of_nil in Hin|].
  rewrite zlen_cons in Hn. pose proof (zlen_nonneg l). apply not_elem_of_cons in Hr as [Ho' Hr].
  cbn [produced] in Hin. apply elem_of_app in Hin as [Hin|Hin].
  - destruct o as [th1 t1|?|?|?]; cbn in Hin; try by apply elem_of_nil in Hin. apply list_elem_of_singleton in Hin.
    injection Hin as -> -> ->. rewrite push_id. unfold next_id. destruct Ho as (Hi & Hm & Hothers), He as (Hc & Ht & _).
    rewrite u64_next by lia. split.
    + intros E. destruct (decide (th1 = th)) as [|Hne]; [done|]. exfalso. specialize (Hothers th1 Hne). case_match; reflect_bools; lia.
    + intros ->. rewrite Hm. by rewrite (proj2 (Z.ltb_lt 0 id)) by lia.
  - eapply (IH (n + 1) (ev_step o e)); [done|lia|apply step_numbered; [lia|done]|eapply step_owns; [congruence| |done..]; lia|done].
Qed.

(** The number an event block reserves is its own: no event before it has it, and from then
    on, whatever the other threads insert, reserve or release, the events that get it are
    exactly those the thread of the block inserts before it releases the number. *)
Theorem block_owns_its_number pre ops th :
  zlen pre + zlen ops < 2 ^ 63 -> current th (ev_run pre new_events) = 0 -> Release th ∉ ops ->
  let e := ev_run pre new_events in
  let id := fst (lock_event_id th e) in
  (forall t, (id, t) ∉ events_ e) /\
  (forall th' id' t, (th', (id', t)) ∈ produced ops (ev_step (Lock th) e) -> id' = id <-> th' = th).
Proof.
  intros Hz Hth Hr e id. pose proof (zlen_nonneg pre). pose proof (zlen_nonneg ops).
  assert (numbered 100 new_events) as Hnew.
  { split; [done|]. split; [|by split]. intros th'. unfold current. cbn. rewrite lookup_empty. cbn. lia. }
  pose proof (run_numbered pre 100 new_events ltac:(lia) Hnew) as He. fold e in He, Hth.
  pose proof He as (Hc & Ht & Hl & _).
  assert (id = event_count_ e + 1 /\ ev_step (Lock th) e = put_current th id (put_count id e)) as [Ei E].
  { unfold id. cbn [ev_step]. unfold lock_event_id. rewrite Hth. cbn. by rewrite u64_next by lia. }
  split.
  - intros t Hin. rewrite Forall_forall in Hl. specialize (Hl _ Hin). cbn in Hl. lia.
  - apply (owned_ids th id ops (100 + zlen pre + 1)); [done|lia|by apply step_numbered; [lia|]|]. rewrite E. split; [cbn; lia|].
    split; [|intros th' Hne]; rewrite current_put; case_decide; [done|done|done|].
    change (current th' (put_count id e)) with (current th' e). specialize (Ht th'). lia.
Qed.

(** *** Details

    While no thread reserves a number, details are told apart by their event. *)

Definition ids (e : Events) : list Z := fst <$> events_ e.

(** Every event has a number of its own, and every detail an event of the ring. *)
Definition tidy (e : Events) : Prop :=
  (forall th, current th e = 0) /\ NoDup (ids e) /\ (forall eid, is_Some (event_detail_db_ e !! eid) -> eid ∈ ids e).

Definition plain_step (o : evop) (e : Events) : Prop :=
  match o with Insert _ _ | Release _ => True | Detail eid _ => eid ∈ ids e | Lock _ => False end.

Lemma push_plain n th t e : n < 2 ^ 64 - 1 -> numbered n e -> current th e = 0 ->
  let id := event_count_ e + 1 in
  id ∉ ids e /\
  ((zlen (events_ e) < events_max_ /\ snd (push_event th t e) =
      mkEvents (events_ e ++ [(id, t)]) (event_detail_db_ e) id (current_event_id_ e)) \/
   exists old u q, events_ e = (old, u) :: q /\ snd (push_event th t e) =
      mkEvents (q ++ [(id, t)]) (delete old (event_detail_db_ e)) id (current_event_id_ e)).
Proof.
  intros Hn (Hc & _ & Hl & Hz) Hth id. split.
  - intros Hin. apply list_elem_of_fmap in Hin as (p & E & Hp). rewrite Forall_forall in Hl. specialize (Hl p Hp). lia.
  - unfold push_event. rewrite Hth. cbn [Z.ltb Z.compare]. rewrite u64_next by lia. fold id. cbn [events_ put_count snd].
    rewrite zlen_app. change (zlen [(id, t)]) with 1. destruct (Z.ltb_spec events_max_ (zlen (events_ e) + 1)).
    + right. destruct (events_ e) as [|[old u] q] eqn:E; [rewrite zlen_nil in *; unfold events_max_ in *; lia|].
      by exists old, u, q.
    + left. split; [lia|done].
Qed.

(** As long as no block reserves a number, details follow their events: every event keeps a
    number of its own, a detail given for an event of the ring stays retrievable, unchanged,
    for as long as the event is in the ring, and no detail outlives its event. *)
Theorem details_follow_events n o e :
  n < 2 ^ 64 - 1 -> numbered n e -> tidy e -> plain_step o e ->
  let e' := ev_step o e in
  tidy e' /\
  (forall eid, eid ∈ ids e -> eid ∈ ids e' -> is_Some (event_detail_db_ e !! eid) ->
     event_detail_db_ e' !! eid = event_detail_db_ e !! eid) /\
  (forall eid t, o = Detail eid t -> event_detail_db_ e !! eid = None -> event_detail_db_ e' !! eid = Some t).
Proof.
  intros Hn He (Hcur & Hnd & Hdet) Hp e'. destruct o as [th t|eid t|th|th]; cbn in Hp; [| |done|].
  - split; [|split; [|done]]; unfold e'; cbn [ev_step];
      destruct (push_plain n th t e Hn He (Hcur th)) as [Hfresh [[Hlt E]|(old & u & q & Eq & E)]].
    + split; [by intros th'; rewrite push_current|]. rewrite E. unfold ids in *. cbn. rewrite fmap_app. cbn. split.
      * apply NoDup_app. split; [done|]. split; [|apply NoDup_singleton]. intros x Hx Hx'.
        apply list_elem_of_singleton in Hx' as ->. done.
      * intros eid Hs. apply elem_of_app. left. by apply Hdet.
    + split; [by intros th'; rewrite push_current|]. rewrite E. unfold ids in *. cbn. rewrite Eq in *. cbn in *.
      apply NoDup_cons in Hnd as [Hold Hnd]. rewrite fmap_app. cbn. split.
      * apply NoDup_app. split; [done|]. split; [|apply NoDup_singleton]. intros x Hx Hx'.
        apply list_elem_of_singleton in Hx' as ->. apply Hfresh. by right.
      * intros eid [x Hs]. apply lookup_delete_Some in Hs as [Hne Hs]. apply elem_of_app. left.
        assert (eid ∈ old :: q.*1) as Hin by (apply Hdet; by exists x). apply elem_of_cons in Hin as [->|]; done.
    + intros eid _ _ _. by rewrite E.
    + intros eid _ Hin _. rewrite E in *. unfold ids in Hin. cbn in *. apply lookup_delete_ne. intros ->.
      rewrite fmap_app in Hin. apply elem_of_app in Hin as [Hin|Hin].
      * unfold ids in Hnd. rewrite Eq in Hnd. cbn in Hnd. by apply NoDup_cons in Hnd as [Hold _].
      * apply list_elem_of_singleton in Hin. cbn in Hin. apply Hfresh. unfold ids. rewrite Eq, <- Hin. by left.
  - unfold e'. cbn. unfold add_detail. destruct (event_detail_db_ e !! eid) as [x|] eqn:E.
    + split; [done|]. split; [done|]. intros ? ? [= <- <-] H. by rewrite E in H.
    + cbn. split; [split; [done|split; [done|]]|split].
      * intros eid' [x Hs]. cbn in Hs. apply lookup_insert_Some in Hs as [[<- _]|[_ Hs]]; [done|]. apply Hdet. by exists x.
      * intros eid' _ _ [x Hs]. apply lookup_insert_ne. intros ->. congruence.
      * intros ? ? [= <- <-] _. by rewrite lookup_insert_eq.
  - split; [|split; [done|done]]. split; [|done]. intros th'. unfold e'. cbn. unfold release_event_id.
    rewrite current_put. by case_decide.
Qed.

Definition filled (n : nat) (e : Events) : Events := ev_run (replicate n (Insert 2 [])) e.

(** Two events of one block share a number: when the first leaves the ring, the detail is gone
    while the second is still there. *)
Example shared_number_loses_detail :
  let e := filled 999 (ev_run [Lock 1; Insert 1 (text "a"); Insert 1 (text "b"); Detail 101 (text "why"); Release 1] new_events) in
  101 ∈ ids e /\ event_detail_db_ e !! 101 = None.
Proof. vm_compute. split; [left|done]. Qed.
(** A detail that comes after its event has left the ring is never erased. *)
Example late_detail_leaks :
  let e := ev_run [Detail 101 (text "why")] (filled 1000 (ev_run [Insert 1 (text "a")] new_events)) in
  101 ∉ ids (filled 1000 e) /\ event_detail_db_ (filled 1000 e) !! 101 = Some (text "why").
Proof. split; [|by vm_compute]. apply (bool_decide_unpack _). by vm_compute. Qed.
(** The inner one of two nested blocks releases the number of the outer one. *)
Example nested_block_releases_outer :
  current 1 (ev_run [Lock 1; Lock 1; Release 1] new_events) = 0.
Proof. reflexivity. Qed.

(** ** Who gets a message *)

(** The rule of topics: a message without a topic is for generic writers; one with a topic is for
    all, one that excludes by topic for writers whose topic has the same lower half, one that
    is exact for writers of that very topic. *)
Definition topic_rule (writer msg : loglevel) : Prop :=
  if decide (topic msg = 0) then topic writer <= 0
  else match more msg with
       | None => True
       | Some m => (exclusive_exact m = true -> topic writer = topic msg) /\
                   (exclusive_topic m = true -> topic writer <> 0 /\ topic writer mod 2 ^ 16 = topic msg mod 2 ^ 16)
       end.

(** Setting the upper half of two words compares their lower halves. *)
Lemma upper_bits n : 0 <= n -> Z.testbit 4294901760 n = (16 <=? n) && (n <? 32).
Proof.
  intros Hn. change 4294901760 with (Z.shiftl (Z.ones 16) 16). rewrite Z.shiftl_spec by done.
  destruct (Z.leb_spec 16 n); [|by rewrite Z.testbit_neg_r by lia].
  destruct (Z.ltb_spec n 32); cbn [andb]; [apply Z.ones_spec_low; lia|apply Z.ones_spec_high; lia].
Qed.
Lemma lor_upper x n : 0 <= x < 2 ^ 32 -> 0 <= n ->
  Z.testbit (Z.lor 4294901760 x) n = if n <? 16 then Z.testbit (x mod 2 ^ 16) n else n <? 32.
Proof.
  intros Hx Hn. rewrite Z.lor_spec, upper_bits by done. destruct (Z.ltb_spec n 16).
  - rewrite (proj2 (Z.leb_gt 16 n)) by lia. by rewrite Z.mod_pow2_bits_low by lia.
  - rewrite (proj2 (Z.leb_le 16 n)) by lia. destruct (Z.ltb_spec n 32); [done|]. cbn.
    rewrite <- (Z.mod_small x (2 ^ 32)) by lia. apply Z.mod_pow2_bits_high. lia.
Qed.
Lemma lor_upper_eq x y : 0 <= x < 2 ^ 32 -> 0 <= y < 2 ^ 32 ->
  (Z.lor 4294901760 x =? Z.lor 4294901760 y) = true <-> x mod 2 ^ 16 = y mod 2 ^ 16.
Proof.
  intros Hx Hy. rewrite Z.eqb_eq. split; intros E; apply Z.bits_inj'; intros n Hn.
  - destruct (Z.lt_ge_cases n 16) as [Hlt|Hge]; [|by rewrite !Z.mod_pow2_bits_high by lia].
    pose proof (f_equal (fun z => Z.testbit z n) E) as H. cbv beta in H. rewrite !lor_upper in H by done.
    by rewrite (proj2 (Z.ltb_lt n 16)) in H by lia.
  - rewrite !lor_upper by done. by rewrite E.
Qed.

Lemma should_log_topic_rule writer msg : 0 <= topic writer < 2 ^ 32 -> 0 <= topic msg < 2 ^ 32 ->
  should_log_topic writer msg = true <-> topic_rule writer msg.
Proof.
  intros Hw Hm. unfold should_log_topic, topic_rule. destruct (Z.eqb_spec (topic msg) 0) as [E|E]; cbn [negb].
  - rewrite decide_True by done. rewrite negb_true_iff, Z.ltb_ge. done.
  - rewrite decide_False by done. destruct (more msg) as [[et ee]|]; [|done]. cbn [exclusive_exact exclusive_topic].
    destruct ee, et, (Z.eqb_spec (topic writer) (topic msg)) as [Ht|Ht]; cbn [negb andb];
      try (destruct (Z.eqb_spec (topic writer) 0) as [H0|H0]); rewrite ?lor_upper_eq by done;
      split; try (intros [H1 H2]); try (intros H1); try (split; intros); try done; try congruence; try naive_solver.
Qed.

(** A message about certificates (CRT) that excludes by topic reaches the writer of another area
    (ATH): the areas are in the half that is not compared. *)
Example exclusive_topic_ignores_area :
  should_log_topic (mkLevel 6 131072 None 0 [] []) (mkLevel 6 65536 (Some LOG_EXTOPIC) 0 [] []) = true.
Proof. reflexivity. Qed.

Section log.
Context {PF : Printf} {LS : LogSys}.
Implicit Types w : lworld.

(** The profile [p] takes the message. *)
Definition accepts (p : profile) (l : loglevel) : bool := negb (level_lt (level_ p) l) && should_log_topic (level_ p) l.

Definition profile_at (m : LogMux) (key : Z) (p : profile) : Prop := target_profiles_ m !! key = Some p.

Lemma takes_ret key l p w : profile_at (mux w) key p ->
  takes key l w = Ret (if accepts p l then Some p else None) w.
Proof.
  intros Hp. unfold takes. rewrite bind_gets, Hp. unfold accepts. by destruct (level_lt _ _), (should_log_topic _ _).
Qed.

Definition put_out (o : list (sink * bytes)) (s : lsys) w : lworld :=
  mkLw (mux w) (events w) (topic_db_ w) (context_ w) (filter_active w) (filter_value w) o s.

(** What the streams with the profiles [ps] are given. *)
Definition stream_lines (ts : list Z) (ps : list profile) (l : loglevel) (s : bytes) : list (sink * bytes) :=
  omap (fun tp => if accepts (snd tp) l then Some (Stream (fst tp), endl s) else None) (zip ts ps).

Lemma write_targets_ret ts l s : forall ps w,
  Forall2 (profile_at (mux w)) ts ps ->
  write_targets ts l s w = Ret tt (put_out (written w ++ stream_lines ts ps l s) (l_sys w) w).
Proof.
  induction ts as [|t ts IH]; intros ps w H; [inversion H; subst; unfold stream_lines; cbn; rewrite app_nil_r; by destruct w|].
  apply Forall2_cons_inv_l in H as (p & ps' & Hp & Hps & ->). cbn [write_targets].
  rewrite (bind_ret _ _ _ _ _ (takes_ret t l p w Hp)). unfold stream_lines. cbn. destruct (accepts p l).
  - unfold mbind_ at 1. cbn. etransitivity; [apply (IH ps'); exact Hps|]. unfold put_out. cbn. by rewrite <- app_assoc.
  - unfold mbind_ at 1. cbn. by apply IH.
Qed.

(** What [rep] offers of a message to a socket make of the system. *)
Fixpoint offered (rep : nat) (sock : Z) (str : bytes) (s : lsys) : lsys :=
  match rep with
  | O => s
  | S rep => let '(r, s) := ls_send sock str s in
             if (fst r <? 0) && (snd r =? EAGAIN) then offered rep sock str s else s
  end.
Definition remote_offers (ts : list Z) (ps : list profile) (l : loglevel) (str : bytes) (s : lsys) : lsys :=
  foldl (fun s tp => if accepts (snd tp) l && negb (bool_decide (remote_text (snd tp) str = []))
                     then offered 3 (fst tp) (remote_text (snd tp) str) s else s) s (zip ts ps).

Lemma rep_log_ret rep sock str : forall w, exists b,
  rep_log rep sock str w = Ret b (put_sys (offered rep sock str (l_sys w)) w).
Proof.
  induction rep as [|rep IH]; intros w; cbn [rep_log offered]; [exists false; by destruct w|].
  unfold mbind_. destruct (ls_send sock str (l_sys w)) as [[sent errno] s]. cbn [fst snd].
  destruct (Z.leb_spec 0 sent); [rewrite (proj2 (Z.ltb_ge sent 0)) by lia; cbn; by eexists|].
  rewrite (proj2 (Z.ltb_lt sent 0)) by lia. cbn [andb].
  destruct (errno =? EAGAIN); [|by eexists]. destruct (IH (put_sys s w)) as [b ->]. by exists b.
Qed.

Lemma write_remotes_ret ts l s : forall ps w,
  Forall2 (fun t p => profile_at (mux w) (u64 t) p) ts ps ->
  write_remotes ts l s w = Ret tt (put_sys (remote_offers ts ps l s (l_sys w)) w).
Proof.
  induction ts as [|t ts IH]; intros ps w H; [inversion H; by destruct w|].
  apply Forall2_cons_inv_l in H as (p & ps' & Hp & Hps & ->). cbn [write_remotes].
  rewrite (bind_ret _ _ _ _ _ (takes_ret (u64 t) l p w Hp)). unfold remote_offers. cbn [zip zip_with foldl fst snd].
  destruct (accepts p l); cbn [andb]; [|unfold mbind_, mret_; by apply IH].
  case_bool_decide; cbn [negb]; [unfold mbind_, mret_; by apply IH|].
  destruct (rep_log_ret 3 t (remote_text p s) w) as [b Eb]. unfold mbind_ at 1 2. rewrite Eb. unfold mret_.
  etransitivity; [by apply (IH ps')|]. done.
Qed.

(** The copy on the standard streams. *)
Definition console (w : lworld) (l : loglevel) (s : bytes) : list (sink * bytes) :=
  if level_le l (mux_level (mux w)) && dup_to_cout_ (mux w) then [(if level_le l ERR then Cerr else Cout, endl s)] else [].

(** A message reaches exactly those it is for: where every target has a profile, each stream
    whose profile accepts its level and topic is given the line once, in the order of the
    targets and with the copy for the console last, each socket whose profile accepts it is
    offered it at most three times, and nothing else changes. *)
Theorem message_reaches_its_targets l s ps rs w :
  Forall2 (profile_at (mux w)) (targets_ (mux w)) ps ->
  Forall2 (fun t p => profile_at (mux w) (u64 t) p) (remote_targets_ (mux w)) rs ->
  write_log l s w =
    Ret (zlen s) (put_out (written w ++ stream_lines (targets_ (mux w)) ps l s ++ console w l s)
                    (remote_offers (remote_targets_ (mux w)) rs l s (l_sys w)) w).
Proof.
  intros Hp Hr. unfold write_log. rewrite !bind_gets. rewrite (bind_ret _ _ _ _ _ (write_targets_ret _ l s ps w Hp)).
  rewrite bind_gets. cbn [mux put_out].
  rewrite (bind_ret _ _ _ _ _ (write_remotes_ret (remote_targets_ (mux w)) l s rs (put_out _ _ w) Hr)). rewrite bind_gets.
  unfold console. cbn [mux put_sys put_out dup_to_cout_ l_sys]. destruct (level_le l _ && _); cbn.
  - unfold mbind_, emit, modify, mret_, put_out. cbn. by rewrite <- app_assoc.
  - unfold put_out. by rewrite app_nil_r.
Qed.

(** A target without a profile brings the first message down that gets to it. *)
Theorem target_needs_profile t ts l s w : target_profiles_ (mux w) !! t = None -> write_targets (t :: ts) l s w = Undef.
Proof. intros H. cbn [write_targets]. unfold takes, mbind_, gets. by rewrite H. Qed.

(** ** Loggers *)

Lemma log_format_ret fmt args r w : render fmt args = Some r -> (forall c, ls_alloc c = true) -> zlen r < 10240 ->
  format fmt args w = Ret r w.
Proof. intros Hr Ha Hz. unfold format. rewrite Hr. by rewrite (proj1 (string_format_limit ls_alloc r Ha) Hz). Qed.

(** A logger that has its topic's level or has not asked for it. *)
Definition attached (lg : logan_lite) w : Prop :=
  my_loglevel lg = None \/ my_loglevel lg = Some (lite_topic lg) /\ is_Some (topic_db_ w !! lite_topic lg).
Definition level_at (t : bytes) w : loglevel := default (mkLevel 0 0 None 0 t []) (topic_db_ w !! t).
Definition with_entry (t : bytes) w : lworld := put_db (<[t := level_at t w]> (topic_db_ w)) w.

Lemma with_entry_id t w l : topic_db_ w !! t = Some l -> with_entry t w = w.
Proof. intros H. unfold with_entry, level_at, put_db. rewrite H. cbn. rewrite insert_id by done. by destruct w. Qed.

Lemma entry_ret t w : entry t w = Ret (level_at t w) (with_entry t w).
Proof.
  unfold entry. destruct (topic_db_ w !! t) as [l|] eqn:E; [by rewrite (with_entry_id t w l E); unfold level_at; rewrite E|].
  unfold with_entry, level_at. by rewrite E.
Qed.

Lemma lite_level_ret lg w : attached lg w ->
  lite_level lg w = Ret (level_at (lite_topic lg) w, mkLite (lite_topic lg) (Some (lite_topic lg))) (with_entry (lite_topic lg) w).
Proof.
  intros [H|[H [l Hl]]]; unfold lite_level, held; rewrite H; cbn.
  - by rewrite (bind_ret _ _ _ _ _ (entry_ret (lite_topic lg) w)).
  - rewrite Hl, (with_entry_id _ _ _ Hl). unfold level_at. rewrite Hl. by destruct lg; cbn in *; subst.
Qed.

(** Loggers of one topic share its level: a level set through one of them is what every
    other one of the topic, attached or not, answers from then on, and no other topic's
    level changes. *)
Theorem level_is_shared l lg w :
  attached lg w -> exists w' lg',
    lite_set_level l lg w = Ret lg' w' /\
    (forall lg2, lite_topic lg2 = lite_topic lg -> attached lg2 w -> exists lg3, lite_level lg2 w' = Ret (l, lg3) w') /\
    (forall t, t <> lite_topic lg -> level_at t w' = level_at t w).
Proof.
  intros Ha. unfold lite_set_level. rewrite (bind_ret _ _ _ _ _ (lite_level_ret lg w Ha)). cbn [fst snd my_loglevel].
  eexists _, _. split; [reflexivity|]. unfold with_entry, put_db. cbn [topic_db_]. split.
  - intros lg2 E Ha2. eexists. rewrite lite_level_ret; [|destruct Ha2 as [?|[? ?]]; [by left|right; split; [done|]]].
    + rewrite E. unfold level_at. cbn. rewrite lookup_insert_eq. cbn. unfold with_entry, put_db, level_at. cbn.
      rewrite lookup_insert_eq. cbn. rewrite insert_insert_eq. done.
    + rewrite E. cbn. rewrite lookup_insert_eq. by eexists.
  - intros t Ht. unfold level_at. cbn. by rewrite !lookup_insert_ne by done.
Qed.

(** The line of a logger, without time and thread. *)
Definition lite_head (lev : loglevel) (t c : bytes) : bytes :=
  if raw lev then [] else text "[ " ++ t ++ (if bool_decide (c = []) then [] else text " | " ++ c) ++ text "]: ".
Definition log_line (th : Z) (lev : loglevel) (str : bytes) w : bytes :=
  if raw lev then str
  else ls_stamp (ls_time (l_sys w)) ++ text "." ++ pad0 6 (decimal (ls_usec (l_sys w))) ++ text " <" ++ ls_thread_hex th
       ++ text "> " ++ level_name (level lev) ++ text " - " ++ str.

(** Whether a message of a logger is for the log at all. *)
Definition passes (th : Z) (lev : loglevel) (lg : logan_lite) w : bool :=
  level_le lev (level_at (lite_topic lg) w) && (raw lev || negb (filtered (context th w) w)).

Lemma lite_log_split th lev t fmt args lg w : attached lg w ->
  lite_log th lev t fmt args lg w =
    (if passes th lev lg w
     then (ms <- format fmt args ;; mux_log th lev (lite_head lev t (context th w) ++ ms) [] ;;;
           mret_ (mkLite (lite_topic lg) (Some (lite_topic lg))))
     else mret_ (mkLite (lite_topic lg) (Some (lite_topic lg)))) (with_entry (lite_topic lg) w).
Proof.
  intros Ha. unfold lite_log. rewrite (bind_ret _ _ _ _ _ (lite_level_ret lg w Ha)). cbn [fst snd]. rewrite !bind_gets.
  change (context th (with_entry (lite_topic lg) w)) with (context th w).
  change (filtered (context th w) (with_entry (lite_topic lg) w)) with (filtered (context th w) w).
  unfold passes. destruct (level_le _ _); cbn [negb andb]; [|done].
  destruct (raw lev) eqn:Er, (filtered _ _); cbn [negb andb orb]; try done; unfold lite_head; by rewrite Er.
Qed.

(** A message is logged as it was rendered or not at all: what is below the level of the topic,
    or whose context the filter does not let pass, leaves no trace; any other one without a
    percent sign goes to the targets as one line of time, thread, level, topic, context and
    text. *)
Theorem message_logged_exactly th lev t fmt args ms lg w :
  attached lg w -> (forall c, ls_alloc c = true) -> render fmt args = Some ms ->
  (forall f, 37 ∉ f -> render f [] = Some f) ->
  let str := lite_head lev t (context th w) ++ ms in
  37 ∉ str -> zlen str < 10240 ->
  let lg' := mkLite (lite_topic lg) (Some (lite_topic lg)) in
  lite_log th lev t fmt args lg w =
    (if passes th lev lg w then write_log lev (log_line th lev str w) ;;; mret_ lg' else mret_ lg') (with_entry (lite_topic lg) w).
Proof.
  intros Ha Hal Hr Hplain str Hs Hz lg'. rewrite lite_log_split by done. destruct (passes _ _ _ _); [|done].
  assert (zlen ms < 10240) as Hm.
  { unfold str in Hz. rewrite zlen_app in Hz. pose proof (zlen_nonneg (lite_head lev t (context th w))). lia. }
  rewrite (bind_ret _ _ _ _ _ (log_format_ret fmt args ms _ Hr Hal Hm)). fold str lg'.
  unfold mux_log, ltime. rewrite bind_assoc, bind_gets, bind_assoc, bind_gets.
  rewrite bind_assoc, (bind_ret _ _ _ _ _ (log_format_ret str [] str _ (Hplain str Hs) Hal Hz)).
  unfold log_line. cbn [with_entry put_db l_sys]. rewrite bind_assoc. unfold mbind_ at 1 3.
  destruct (write_log _ _ _); done.
Qed.

(** A message is used as a format a second time: where its text is not a format without
    arguments - a name from the network with a percent sign in it - the behaviour is undefined. *)
Theorem message_is_a_format th lev t fmt args ms lg w :
  attached lg w -> (forall c, ls_alloc c = true) -> render fmt args = Some ms -> zlen ms < 10240 ->
  passes th lev lg w = true -> render (lite_head lev t (context th w) ++ ms) [] = None ->
  lite_log th lev t fmt args lg w = Undef.
Proof.
  intros Ha Hal Hr Hz Hp Hn. rewrite lite_log_split, Hp by done.
  rewrite (bind_ret _ _ _ _ _ (log_format_ret fmt args ms _ Hr Hal Hz)). unfold mux_log, ltime.
  rewrite bind_assoc, bind_gets, bind_assoc, bind_gets. unfold mbind_, format. by rewrite Hn.
Qed.

(** ** Timers *)

(** The results of one thread's calls for one name, at the moments [ss]. *)
Fixpoint clicks (th : Z) (xname : bytes) (interval : Z) (ss : list lsys) w : list (Z * bool) :=
  match ss with
  | [] => []
  | s :: ss => match click_timer th xname interval (put_sys s w) with
               | Ret b w' => (ls_time s, b) :: clicks th xname interval ss w'
               | _ => []
               end
  end.
Definition granted (l : list (Z * bool)) : list Z := omap (fun p => if snd p : bool then Some (fst p) else None) l.

(** A timer grants one call in every interval: for one name in one thread the first call is
    granted, between granted calls lies more than the interval, and none is refused that comes
    later than that. *)
Theorem clicks_are_spaced th xname interval ss s w :
  0 <= interval < 2 ^ 31 -> timers (mux w) !! timer_name th xname = None ->
  let l := clicks th xname interval (s :: ss) w in
  zlen l = zlen ss + 1 /\
  exists ts, granted l = ls_time s :: ts /\ Sorted (fun a b => a + interval < b) (ls_time s :: ts) /\
    forall pre t post, l = pre ++ (t, false) :: post -> exists g, g ∈ granted pre /\ t <= g + interval.
Proof.
  intros Hi Hn.
  assert (forall ss last w, timers (mux w) !! timer_name th xname = Some (mkTimer last interval) ->
    let l := clicks th xname interval ss w in
    zlen l = zlen ss /\ Sorted (fun a b => a + interval < b) (last :: granted l) /\
    forall pre t post, l = pre ++ (t, false) :: post -> exists g, g ∈ last :: granted pre /\ t <= g + interval) as Hrun.
  { clear s ss w Hn. induction ss as [|s ss IH]; intros last w Hw; cbn [clicks].
    - split; [done|]. split; [by repeat constructor|]. intros pre t post E. by destruct pre.
    - unfold click_timer. cbn [put_sys mux l_sys]. rewrite Hw. cbn [Log.last timeout].
      rewrite (wraps_small 32 interval) by lia.
      destruct (Z.ltb_spec (last + interval) (ls_time s)) as [Hlt|Hge]; cbn [clicks].
      + match goal with |- context [clicks _ _ _ ss ?w'] => destruct (IH (ls_time s) w') as (H1 & H2 & H3) end.
        { cbn. by rewrite lookup_insert_eq. }
        split; [rewrite !zlen_cons; lia|]. cbn [granted omap list_omap snd fst].
        split; [constructor; [exact H2|by constructor]|].
        intros [|p pre] t post E; [done|]. injection E as <- E. destruct (H3 pre t post E) as (g & Hg & Hle).
        exists g. split; [|done]. cbn. by right.
      + destruct (IH last (put_sys s w) Hw) as (H1 & H2 & H3). split; [rewrite !zlen_cons; lia|]. split; [done|].
        intros [|p pre] t post E; [injection E as <- _; exists last; split; [by left|done]|]. injection E as <- E.
        by destruct (H3 pre t post E) as (g & Hg & Hle); exists g. }
  cbn [clicks]. unfold click_timer. cbn [put_sys mux l_sys]. rewrite Hn.
  match goal with |- context [clicks _ _ _ ss ?w'] => destruct (Hrun ss (ls_time s) w') as (H1 & H2 & H3) end.
  { cbn. rewrite lookup_insert_eq. by rewrite (wrapu_small 32 interval) by lia. }
  split; [rewrite !zlen_cons; lia|]. eexists. cbn [granted omap list_omap snd fst]. split; [reflexivity|]. split; [done|].
  intros [|p pre] t post E; [done|]. injection E as <- E. by destruct (H3 pre t post E) as (g & Hg & Hle); exists g.
Qed.

(** A later call cannot change the interval. *)
Lemma interval_of_first_call th xname i j w s :
  timers (mux w) !! timer_name th xname = Some (mkTimer (ls_time s) i) -> 0 <= i < 2 ^ 31 ->
  click_timer th xname j (put_sys s w) = Ret false (put_sys s w).
Proof.
  intros H Hi. unfold click_timer. cbn. rewrite H. cbn. rewrite (wraps_small 32 i) by lia.
  by rewrite (proj2 (Z.ltb_ge _ _)) by lia.
Qed.
End log.

(** ** A log to evaluate on

    Formats know %s, %d of a number in text and %%; sending to the socket 7 always finds it full. *)

Fixpoint sim_render (f : bytes) (args : list bytes) : option bytes :=
  match f with
  | [] => Some []
  | 37 :: 115 :: f | 37 :: 100 :: f => match args with a :: args => (fun t => a ++ t) <$> sim_render f args | [] => None end
  | 37 :: 37 :: f => (fun t => 37 :: t) <$> sim_render f args
  | 37 :: _ => None
  | c :: f => (fun t => c :: t) <$> sim_render f args
  end.
#[export] Instance sim_printf : Printf := {| arg := bytes; render := sim_render |}.
Lemma sim_render_plain f : 37 ∉ f -> sim_render f [] = Some f.
Proof.
  induction f as [|c f IH]; intros Hf; [done|]. apply not_elem_of_cons in Hf as [Hc Hf].
  assert (sim_render (c :: f) [] = (fun t => c :: t) <$> sim_render f []) as ->; [|by rewrite IH].
  cbn. repeat case_match; subst; done.
Qed.
#[export] Instance sim_printf_ok : PrintfOk := {| render_plain := sim_render_plain |}.

(** Time and microseconds, and how many sends there were. *)
#[export] Instance sim_log : LogSys := {|
  lsys := Z * Z;
  ls_time := fst;
  ls_usec _ := 42;
  ls_stamp _ := text "24-01-02 03:04:05";
  ls_thread := decimal;
  ls_thread_hex := decimal;
  ls_micros s := fst s * 1000000;
  ls_send sock b s := ((if sock =? 7 then (-1, EAGAIN) else (zlen b, 0)), (fst s, snd s + 1));
  ls_alloc _ := true
|}.

Definition one_arg (a : bytes) : list arg := [a].
Definition at_times (l : list (Z * Z)) : list lsys := l.

Definition writer (l : Z) : profile := mkProfile FILE 23 6 (level_of l).
Definition sim_mux : LogMux :=
  mkMux INF true 0 false [1000; 2000] [7] {[1000 := writer 6; 2000 := writer 3; 7 := mkProfile REMOTE_SYSLOG 23 6 (level_of 6)]} ∅ ∅.
Definition log_start : lworld :=
  mkLw sim_mux new_events {[text "com.ssl" := level_of 6]} {[1 := text "proxy-5"]} true (text "proxy") [] (5, 0).

(** One of two files takes an informational line, a full syslog socket is tried three times. *)
Lemma message_reaches_its_targets_witness :
  write_log INF (text "up") log_start =
    Ret 2 (put_out [(Stream 1000, text "up" ++ [10]); (Cout, text "up" ++ [10])] (5, 3) log_start).
Proof.
  rewrite (message_reaches_its_targets INF (text "up") [writer 6; writer 3] [mkProfile REMOTE_SYSLOG 23 6 (level_of 6)] log_start).
  - reflexivity.
  - by repeat constructor.
  - by repeat constructor.
Defined.

Definition ssl_logger : logan_lite := mkLite (text "com.ssl") None.

Lemma message_logged_exactly_witness :
  exists w', lite_log 1 INF (text "com.ssl") (text "peer %s") (one_arg (text "a.org")) ssl_logger log_start =
    Ret (mkLite (text "com.ssl") (Some (text "com.ssl"))) w' /\
  head (written w') = Some (Stream 1000, text "24-01-02 03:04:05.000042 <1> Informat - [ com.ssl | proxy-5]: peer a.org" ++ [10]).
Proof.
  eexists. split.
  - rewrite (message_logged_exactly 1 INF (text "com.ssl") (text "peer %s") (one_arg (text "a.org")) (text "peer a.org") ssl_logger log_start);
      [reflexivity|by left|done|reflexivity|apply sim_render_plain|by apply (bool_decide_unpack _)|by vm_compute].
  - reflexivity.
Defined.

(** A name with a percent sign in it. *)
Lemma message_is_a_format_witness :
  lite_log 1 INF (text "com.ssl") (text "peer %s") (one_arg (text "%s.org")) ssl_logger log_start = Undef.
Proof.
  apply (message_is_a_format 1 INF (text "com.ssl") (text "peer %s") (one_arg (text "%s.org")) (text "peer %s.org")); try by vm_compute.
  by left.
Defined.

Lemma block_owns_its_number_witness :
  let e := ev_run [Insert 2 (text "x")] new_events in
  fst (lock_event_id 1 e) = 102 /\ (forall t, (102, t) ∉ events_ e) /\
  forall th' id' t, (th', (id', t)) ∈ produced [Insert 1 (text "a"); Insert 2 (text "y"); Lock 2; Insert 1 (text "b")] (ev_step (Lock 1) e) ->
    id' = 102 <-> th' = 1.
Proof.
  split; [reflexivity|].
  apply (block_owns_its_number [Insert 2 (text "x")] [Insert 1 (text "a"); Insert 2 (text "y"); Lock 2; Insert 1 (text "b")] 1);
    [by vm_compute|reflexivity|]. intros H. repeat (apply elem_of_cons in H as [H|H]; [done|]). by apply elem_of_nil in H.
Defined.

Lemma details_follow_events_witness :
  let e := ev_run [Insert 1 (text "a"); Detail 101 (text "why")] new_events in
  event_detail_db_ (ev_step (Insert 1 (text "b")) e) !! 101 = Some (text "why").
Proof.
  intros e. assert (numbered 200 e /\ tidy e) as [He Ht].
  { assert (forall th, current th e = 0) as Hc by (intros th; change (default 0 ((∅ : gmap Z Z) !! th) = 0); by rewrite lookup_empty).
    split.
    - split; [by vm_compute|]. split; [intros th; by rewrite Hc|]. split; [by repeat constructor|by vm_compute].
    - split; [exact Hc|]. split; [by apply NoDup_singleton|]. intros eid [x H]. change (event_detail_db_ e) with ({[101 := text "why"]} : gmap Z bytes) in H.
      apply lookup_singleton_Some in H as [<- _]. by left. }
  destruct (details_follow_events 200 (Insert 1 (text "b")) e ltac:(done) He Ht I) as (_ & H & _).
  rewrite (H 101); [reflexivity|by left|by left|by eexists].
Defined.

Lemma level_is_shared_witness :
  exists w' lg', lite_set_level DEB ssl_logger log_start = Ret lg' w' /\
    exists lg3, lite_level (mkLite (text "com.ssl") (Some (text "com.ssl"))) w' = Ret (DEB, lg3) w'.
Proof.
  destruct (level_is_shared DEB ssl_logger log_start (or_introl eq_refl)) as (w' & lg' & E & H & _).
  exists w', lg'. split; [exact E|]. apply H; [reflexivity|]. right. split; [reflexivity|]. by eexists.
Defined.

(** A logger that is renamed after it was used keeps the level of its old topic. *)
Example renamed_logger_keeps_level :
  match (lite_set_level DEB ssl_logger ;;; mret_ tt) log_start with
  | Ret _ w => match lite_level (lite_set_topic (text "quiet") (mkLite (text "com.ssl") (Some (text "com.ssl")))) w with
               | Ret (l, _) _ => level l = 8 | _ => False end
  | _ => False
  end.
Proof. reflexivity. Qed.

Lemma clicks_are_spaced_witness :
  granted (clicks 1 (text "stat") 10 (at_times [(0, 0); (5, 0); (11, 0); (21, 0); (22, 0)]) log_start) = [0; 11; 22].
Proof.
  destruct (clicks_are_spaced 1 (text "stat") 10 (at_times [(5, 0); (11, 0); (21, 0); (22, 0)]) (0, 0) log_start) as (_ & _); [done|reflexivity|].
  reflexivity.
Defined.
