(* ===== verification/Codec.v ===== *)
(** * Codec: checksums and base64 (src/common/crc32.cpp, crc32.hpp, base64.hpp)

    The table-driven CRC-32 and the bit-wise register it stands for; the encoder and the decoder
    of base64, a read outside of their tables being undefined. *)

From S2P Require Export Text.

(** ** CRC-32 *)

Definition crc_tab : list Z := [
  0; 1996959894; 3993919788; 2567524794; 124634137; 1886057615; 3915621685; 2657392035; 249268274; 2044508324;
  3772115230; 2547177864; 162941995; 2125561021; 3887607047; 2428444049; 498536548; 1789927666; 4089016648;
  2227061214; 450548861; 1843258603; 4107580753; 2211677639; 325883990; 1684777152; 4251122042; 2321926636;
  335633487; 1661365465; 4195302755; 2366115317; 997073096; 1281953886; 3579855332; 2724688242; 1006888145;
  1258607687; 3524101629; 2768942443; 901097722; 1119000684; 3686517206; 2898065728; 853044451; 1172266101;
  3705015759; 2882616665; 651767980; 1373503546; 3369554304; 3218104598; 565507253; 1454621731; 3485111705;
  3099436303; 671266974; 1594198024; 3322730930; 2970347812; 795835527; 1483230225; 3244367275; 3060149565;
  1994146192; 31158534; 2563907772; 4023717930; 1907459465; 112637215; 2680153253; 3904427059; 2013776290;
  251722036; 2517215374; 3775830040; 2137656763; 141376813; 2439277719; 3865271297; 1802195444; 476864866;
  2238001368; 4066508878; 1812370925; 453092731; 2181625025; 4111451223; 1706088902; 314042704; 2344532202;
  4240017532; 1658658271; 366619977; 2362670323; 4224994405; 1303535960; 984961486; 2747007092; 3569037538;
  1256170817; 1037604311; 2765210733; 3554079995; 1131014506; 879679996; 2909243462; 3663771856; 1141124467;
  855842277; 2852801631; 3708648649; 1342533948; 654459306; 3188396048; 3373015174; 1466479909; 544179635;
  3110523913; 3462522015; 1591671054; 702138776; 2966460450; 3352799412; 1504918807; 783551873; 3082640443;
  3233442989; 3988292384; 2596254646; 62317068; 1957810842; 3939845945; 2647816111; 81470997; 1943803523;
  3814918930; 2489596804; 225274430; 2053790376; 3826175755; 2466906013; 167816743; 2097651377; 4027552580;
  2265490386; 503444072; 1762050814; 4150417245; 2154129355; 426522225; 1852507879; 4275313526; 2312317920;
  282753626; 1742555852; 4189708143; 2394877945; 397917763; 1622183637; 3604390888; 2714866558; 953729732;
  1340076626; 3518719985; 2797360999; 1068828381; 1219638859; 3624741850; 2936675148; 906185462; 1090812512;
  3747672003; 2825379669; 829329135; 1181335161; 3412177804; 3160834842; 628085408; 1382605366; 3423369109;
  3138078467; 570562233; 1426400815; 3317316542; 2998733608; 733239954; 1555261956; 3268935591; 3050360625;
  752459403; 1541320221; 2607071920; 3965973030; 1969922972; 40735498; 2617837225; 3943577151; 1913087877;
  83908371; 2512341634; 3803740692; 2075208622; 213261112; 2463272603; 3855990285; 2094854071; 198958881;
  2262029012; 4057260610; 1759359992; 534414190; 2176718541; 4139329115; 1873836001; 414664567; 2282248934;
  4279200368; 1711684554; 285281116; 2405801727; 4167216745; 1634467795; 376229701; 2685067896; 3608007406;
  1308918612; 956543938; 2808555105; 3495958263; 1231636301; 1047427035; 2932959818; 3654703836; 1088359270;
  936918000; 2847714899; 3736837829; 1202900863; 817233897; 3183342108; 3401237130; 1404277552; 615818150;
  3134207493; 3453421203; 1423857449; 601450431; 3009837614; 3294710456; 1567103746; 711928724; 3020668471;
  3272380065; 1510334235; 755167117].

Definition crc_turn (crc b : Z) : Z :=
  Z.lxor (default 0 (crc_tab !! Z.to_nat (Z.land (Z.lxor crc b) 255))) (Z.shiftr crc 8).
Definition crc32 (crc : Z) (buf : bytes) : Z :=
  Z.lxor (foldl crc_turn (Z.lxor crc (2 ^ 32 - 1)) buf) (2 ^ 32 - 1).

(** ** Base64 *)

Definition getChar64 : bytes := text "ABCDEFGHIJKLMNOPQRSTUVWXYZabcdefghijklmnopqrstuvwxyz0123456789+/".
Definition getChar (bin : Z) : Z := default 0 (getChar64 !! Z.to_nat bin).

(** From '+' to 'z'. *)
Definition binaryConvert : list Z :=
  [62; 48; 49; 50; 63; 52; 53; 54; 55; 56; 57; 58; 59; 60; 61; 249; 250; 251; 252; 253; 254; 255; 0; 1; 2; 3; 4; 5; 6; 7; 8; 9;
   10; 11; 12; 13; 14; 15; 16; 17; 18; 19; 20; 21; 22; 23; 24; 25; 20; 21; 22; 23; 24; 25; 26; 27; 28; 29; 30; 31; 32; 33;
   34; 35; 36; 37; 38; 39; 40; 41; 42; 43; 44; 45; 46; 47; 48; 49; 50; 51].
Definition toBinary (c : Z) : option Z := if c <? 43 then None else binaryConvert !! Z.to_nat (c - 43).

Definition getEncodingSize (n : Z) : Z := (n + 2 - (n + 2) mod 3) / 3 * 4.
Definition getDecodingSize (res : Z) : Z := res * 3 / 4.

(** The four characters of a group. *)
Definition char1 (a : Z) : Z := getChar (Z.shiftr (Z.land a 252) 2).
Definition char2 (a b : Z) : Z := getChar (Z.shiftl (Z.land a 3) 4 + Z.shiftr (Z.land b 240) 4).
Definition char3 (b c : Z) : Z := getChar (Z.shiftl (Z.land b 15) 2 + Z.shiftr (Z.land c 192) 6).
Definition char4 (c : Z) : Z := getChar (Z.land c 63).

Fixpoint encode (binary : bytes) : bytes :=
  match binary with
  | [] => []
  | [a] => [char1 a; char2 a 0; 61; 61]
  | [a; b] => [char1 a; char2 a b; char3 b 0; 61]
  | a :: b :: c :: r => char1 a :: char2 a b :: char3 b c :: char4 c :: encode r
  end.

Definition byte1 (first second : Z) : Z := u8 (Z.shiftl first 2 + Z.shiftr (Z.land second 48) 4).
Definition byte2 (second third : Z) : Z := u8 (Z.shiftl (Z.land second 15) 4 + Z.shiftr (Z.land third 60) 2).
Definition byte3 (third fourth : Z) : Z := u8 (Z.shiftl (Z.land third 3) 6 + fourth).

(** The groups without padding: how many, and what is left of the text. *)
Fixpoint decode_groups (n : nat) (s : bytes) : option (bytes * bytes) :=
  match n with
  | O => Some ([], s)
  | S n =>
      match s with
      | a :: b :: c :: d :: s =>
          first ← toBinary a; second ← toBinary b; third ← toBinary c; fourth ← toBinary d;
          '(r, s) ← decode_groups n s;
          Some (byte1 first second :: byte2 second third :: byte3 third fourth :: r, s)
      | _ => None
      end
  end.
(** The last group; there may be nothing behind its second character. *)
Definition decode_last (s : bytes) : option bytes :=
  match s with
  | a :: b :: s =>
      second ← toBinary b; first ← toBinary a;
      let r := [byte1 first second] in
      match s with
      | [] => Some r
      | c :: s =>
          if c =? 61 then Some r
          else
            third ← toBinary c;
            let r := r ++ [byte2 second third] in
            match s with
            | [] => Some r
            | d :: _ => if d =? 61 then Some r else fourth ← toBinary d; Some (r ++ [byte3 third fourth])
            end
      end
  | _ => None
  end.

(** The characters looked for are a C string, but [getChar64] has no terminator: [behind] is what
    lies behind the table up to the first null. *)
Fixpoint find_first_not_of (set s : bytes) : option nat :=
  match s with
  | [] => None
  | c :: s => if bool_decide (c ∈ set) then S <$> find_first_not_of set s else Some O
  end.
Definition acceptable (behind encoded : bytes) : bool :=
  let length := zlen encoded in
  if negb (length mod 4 =? 0) then false
  else if length =? 0 then false
  else match find_first_not_of (getChar64 ++ behind) encoded with
       | None => true
       | Some pos =>
           if negb (default 0 (encoded !! pos) =? 61) then false
           else if Z.of_nat pos =? length - 1 then true
           else if negb (Z.of_nat pos =? length - 2) then false
           else default 0 (encoded !! S pos) =? 61
       end.

(** [SAFETY] checks first; without it an empty text makes the number of groups wrap. *)
Definition decode (safety : bool) (behind encoded : bytes) : option bytes :=
  if safety && negb (acceptable behind encoded) then Some []
  else
    match Z.to_nat (zlen encoded / 4) with
    | O => None
    | S n => '(r, s) ← decode_groups n encoded; l ← decode_last s; Some (r ++ l)
    end.

(** ** Properties of the checksum *)

(** One turn of the register: shift, and the polynomial when a one falls out. *)
Definition poly : Z := 3988292384.
Definition bit_turn (c : Z) : Z := if Z.testbit c 0 then Z.lxor (Z.shiftr c 1) poly else Z.shiftr c 1.
Definition byte_turn (c b : Z) : Z := Nat.iter 8 bit_turn (Z.lxor c b).
Definition crc32_ref (crc : Z) (buf : bytes) : Z :=
  Z.lxor (foldl byte_turn (Z.lxor crc (2 ^ 32 - 1)) buf) (2 ^ 32 - 1).

Lemma byte_cases (P : Z -> bool) n : forallb P (seqZ 0 n) = true -> forall x, 0 <= x < n -> P x = true.
Proof. intros H x Hx. rewrite forallb_forall in H. apply H, list_elem_of_In, elem_of_seqZ. lia. Qed.

Lemma bit_turn_lxor a b : bit_turn (Z.lxor a b) = Z.lxor (bit_turn a) (bit_turn b).
Proof.
  unfold bit_turn. rewrite Z.lxor_spec, Z.shiftr_lxor. generalize (Z.shiftr a 1) (Z.shiftr b 1). intros x y.
  destruct (Z.testbit a 0), (Z.testbit b 0); cbn [xorb]; apply Z.bits_inj'; intros n _; rewrite ?Z.lxor_spec;
    destruct (Z.testbit x n), (Z.testbit y n), (Z.testbit poly n); done.
Qed.
Lemma bits_turn_lxor n a b : Nat.iter n bit_turn (Z.lxor a b) = Z.lxor (Nat.iter n bit_turn a) (Nat.iter n bit_turn b).
Proof. induction n as [|n IH]; [done|]. by rewrite !Nat.iter_succ, IH, bit_turn_lxor. Qed.

(** Zeros below a number are shifted out. *)
Lemma bits_turn_shiftl n x : Nat.iter n bit_turn (Z.shiftl x (Z.of_nat n)) = x.
Proof.
  revert x. induction n as [|n IH]; intros x; [apply Z.shiftl_0_r|]. rewrite Nat.iter_succ.
  rewrite Nat2Z.inj_succ, <- Z.add_1_l, <- Z.shiftl_shiftl by lia. rewrite IH. unfold bit_turn.
  rewrite Z.shiftl_spec_low by lia. rewrite Z.shiftr_shiftl_l by lia. apply Z.shiftl_0_r.
Qed.

Lemma table_is_eight_turns x : 0 <= x < 256 -> default 0 (crc_tab !! Z.to_nat x) = Nat.iter 8 bit_turn x.
Proof.
  intros Hx. apply Z.eqb_eq.
  apply (byte_cases (fun x => default 0 (crc_tab !! Z.to_nat x) =? Nat.iter 8 bit_turn x) 256); [vm_compute; reflexivity|done].
Qed.

Lemma split_byte c : c = Z.lxor (Z.land c 255) (Z.shiftl (Z.shiftr c 8) 8).
Proof.
  apply Z.bits_inj'. intros n Hn. change 255 with (Z.ones 8). rewrite Z.lxor_spec, Z.land_spec, Z.shiftl_spec by done.
  destruct (Z.lt_ge_cases n 8).
  - rewrite Z.ones_spec_low, (Z.testbit_neg_r _ (n - 8)) by lia. by destruct (Z.testbit c n).
  - rewrite Z.ones_spec_high, Z.shiftr_spec by lia. replace (n - 8 + 8) with n by lia. by destruct (Z.testbit c n).
Qed.

Lemma crc_turn_ref c b : 0 <= b < 256 -> crc_turn c b = byte_turn c b.
Proof.
  intros Hb. unfold crc_turn, byte_turn. assert (Z.shiftr c 8 = Z.shiftr (Z.lxor c b) 8) as ->.
  { rewrite Z.shiftr_lxor. rewrite (Z.shiftr_div_pow2 b) by lia. rewrite Z.div_small by lia. by rewrite Z.lxor_0_r. }
  generalize (Z.lxor c b). intros x. rewrite (split_byte x) at 3. rewrite bits_turn_lxor. rewrite (bits_turn_shiftl 8).
  rewrite table_is_eight_turns; [done|]. change 255 with (Z.ones 8). rewrite Z.land_ones by lia. apply Z.mod_pos_bound. lia.
Qed.

(** [C36] The table-driven checksum is the one its polynomial defines: for every start value and
    every data it is what a register that takes one bit at a time computes. *)
Theorem crc32_is_bitwise crc buf : all_bytes buf -> crc32 crc buf = crc32_ref crc buf.
Proof.
  intros Hb. unfold crc32, crc32_ref. f_equal. generalize (Z.lxor crc (2 ^ 32 - 1)). induction Hb as [|b buf Hb _ IH]; intros c; [done|].
  cbn [foldl]. rewrite crc_turn_ref by exact Hb. apply IH.
Qed.

(** A checksum continued over a second part is that of the whole. *)
Theorem crc32_continues crc a b : crc32 (crc32 crc a) b = crc32 crc (a ++ b).
Proof. unfold crc32. rewrite Z.lxor_assoc, Z.lxor_nilpotent, Z.lxor_0_r. by rewrite foldl_app. Qed.

Lemma crc32_is_bitwise_witness : crc32 0 (text "123456789") = 3421780262 /\ crc32_ref 0 (text "123456789") = 3421780262.
Proof.
  split; [reflexivity|]. rewrite <- (crc32_is_bitwise 0 (text "123456789")); [reflexivity|].
  by apply (bool_decide_unpack _).
Defined.

(** ** Properties of base64 *)

Ltac by_bytes := apply Z.eqb_eq; match goal with
  | H : 0 <= ?x < ?n |- (?a =? ?b) = true =>
      apply (byte_cases (fun x => ltac:(let t := eval pattern x in (a =? b) in match t with ?f _ => exact (f x) end)) n); [vm_compute; reflexivity|exact H]
  end.

Lemma bits252 x : 0 <= x < 256 -> Z.shiftr (Z.land x 252) 2 = x / 4.
Proof. intros H. by_bytes. Qed.
Lemma bits3 x : 0 <= x < 256 -> Z.shiftl (Z.land x 3) 4 = x mod 4 * 16.
Proof. intros H. by_bytes. Qed.
Lemma bits240 x : 0 <= x < 256 -> Z.shiftr (Z.land x 240) 4 = x / 16.
Proof. intros H. by_bytes. Qed.
Lemma bits15 x : 0 <= x < 256 -> Z.shiftl (Z.land x 15) 2 = x mod 16 * 4.
Proof. intros H. by_bytes. Qed.
Lemma bits192 x : 0 <= x < 256 -> Z.shiftr (Z.land x 192) 6 = x / 64.
Proof. intros H. by_bytes. Qed.
Lemma bits63 x : 0 <= x < 256 -> Z.land x 63 = x mod 64.
Proof. intros H. by_bytes. Qed.
Lemma bits48 x : 0 <= x < 64 -> Z.shiftr (Z.land x 48) 4 = x / 16.
Proof. intros H. by_bytes. Qed.
Lemma bits15' x : 0 <= x < 64 -> Z.shiftl (Z.land x 15) 4 = x mod 16 * 16.
Proof. intros H. by_bytes. Qed.
Lemma bits60 x : 0 <= x < 64 -> Z.shiftr (Z.land x 60) 2 = x / 4.
Proof. intros H. by_bytes. Qed.
Lemma bits3' x : 0 <= x < 64 -> Z.shiftl (Z.land x 3) 6 = x mod 4 * 64.
Proof. intros H. by_bytes. Qed.

(** A character of the table stands for its place, and is not the padding. *)
Lemma toBinary_getChar v : 0 <= v < 64 -> toBinary (getChar v) = Some v.
Proof.
  intros H. pose proof (byte_cases (fun v => match toBinary (getChar v) with Some x => x =? v | None => false end) 64
    ltac:(vm_compute; reflexivity) v H) as E. cbv beta in E.
  destruct (toBinary (getChar v)); [|done]. by apply Z.eqb_eq in E as ->.
Qed.
Lemma getChar_no_pad v : 0 <= v < 64 -> (getChar v =? 61) = false.
Proof.
  intros H. apply negb_true_iff.
  exact (byte_cases (fun v => negb (getChar v =? 61)) 64 ltac:(vm_compute; reflexivity) v H).
Qed.
Lemma getChar_in v : 0 <= v < 64 -> getChar v ∈ getChar64.
Proof.
  intros H. pose proof (byte_cases (fun v => existsb (Z.eqb (getChar v)) getChar64) 64 ltac:(vm_compute; reflexivity) v H) as E.
  cbv beta in E. apply existsb_exists in E as (x & Hx & ->%Z.eqb_eq). by apply list_elem_of_In.
Qed.

(** The sextets of a group. *)
Definition sx1 (a : Z) : Z := a / 4.
Definition sx2 (a b : Z) : Z := a mod 4 * 16 + b / 16.
Definition sx3 (b c : Z) : Z := b mod 16 * 4 + c / 64.
Definition sx4 (c : Z) : Z := c mod 64.

Ltac euclid := unfold sx1, sx2, sx3, sx4, is_byte in *; Z.to_euclidean_division_equations; lia.

Lemma chars_sextets a b c : is_byte a -> is_byte b -> is_byte c ->
  char1 a = getChar (sx1 a) /\ char2 a b = getChar (sx2 a b) /\ char3 b c = getChar (sx3 b c) /\ char4 c = getChar (sx4 c) /\
  0 <= sx1 a < 64 /\ 0 <= sx2 a b < 64 /\ 0 <= sx3 b c < 64 /\ 0 <= sx4 c < 64.
Proof.
  intros Ha Hb Hc. unfold char1, char2, char3, char4. rewrite bits252, bits3, bits240, bits15, bits192, bits63 by done.
  do 4 (split; [done|]). split; [euclid|]. split; [euclid|]. split; euclid.
Qed.
Lemma bytes_back a b c : is_byte a -> is_byte b -> is_byte c ->
  byte1 (sx1 a) (sx2 a b) = a /\ byte2 (sx2 a b) (sx3 b c) = b /\ byte3 (sx3 b c) (sx4 c) = c.
Proof.
  intros Ha Hb Hc. destruct (chars_sextets a b c Ha Hb Hc) as (_ & _ & _ & _ & H1 & H2 & H3 & H4).
  unfold byte1, byte2, byte3. rewrite bits48, bits15', bits60, bits3' by done. rewrite Z.shiftl_mul_pow2 by lia.
  change (2 ^ 2) with 4. repeat split; (rewrite u8_small; [|euclid]); euclid.
Qed.

Definition decode_all (s : bytes) : option bytes :=
  match Z.to_nat (zlen s / 4) with
  | O => None
  | S n => '(r, s) ← decode_groups n s; l ← decode_last s; Some (r ++ l)
  end.

Lemma zlen_encode b : exists n, zlen (encode b) = 4 * Z.of_nat n /\ (b <> [] -> n <> O).
Proof.
  remember (length b) as k eqn:Hk. revert b Hk. induction k as [k IH] using lt_wf_ind. intros b ->.
  destruct b as [|x [|y [|z r]]]; [exists 0%nat; done|exists 1%nat; done|exists 1%nat; done|].
  destruct (IH (length r)) with (b := r) as (n & E & _); [cbn; lia|done|].
  exists (S n). split; [|done]. cbn [encode]. rewrite !zlen_cons, E. lia.
Qed.

Lemma decode_all_encode b : all_bytes b -> b <> [] -> decode_all (encode b) = Some b.
Proof.
  remember (length b) as k eqn:Hk. revert b Hk. induction k as [k IH] using lt_wf_ind. intros b -> Hb Hne.
  assert (is_byte 0) as H0 by done.
  destruct b as [|x [|y [|z r]]]; [done| | |].
  - apply Forall_cons in Hb as [Hx _]. destruct (chars_sextets x 0 0 Hx H0 H0) as (E1 & E2 & _ & _ & R1 & R2 & _).
    destruct (bytes_back x 0 0 Hx H0 H0) as (B1 & _). cbn [encode]. unfold decode_all. cbn [decode_last].
    change (Z.to_nat (zlen [char1 x; char2 x 0; 61; 61] / 4)) with 1%nat. cbn [decode_groups]. cbn [mbind option_bind decode_last].
    rewrite E1, E2, !toBinary_getChar by done. cbn. by rewrite B1.
  - apply Forall_cons in Hb as [Hx [Hy _]%Forall_cons].
    destruct (chars_sextets x y 0 Hx Hy H0) as (E1 & E2 & E3 & _ & R1 & R2 & R3 & _).
    destruct (bytes_back x y 0 Hx Hy H0) as (B1 & B2 & _). cbn [encode]. unfold decode_all.
    change (Z.to_nat (zlen [char1 x; char2 x y; char3 y 0; 61] / 4)) with 1%nat. cbn [decode_groups mbind option_bind decode_last].
    rewrite E1, E2, E3, !toBinary_getChar, getChar_no_pad by done. cbn. by rewrite B1, B2.
  - apply Forall_cons in Hb as [Hx [Hy [Hz Hr]%Forall_cons]%Forall_cons].
    destruct (chars_sextets x y z Hx Hy Hz) as (E1 & E2 & E3 & E4 & R1 & R2 & R3 & R4).
    destruct (bytes_back x y z Hx Hy Hz) as (B1 & B2 & B3).
    cbn [encode]. unfold decode_all. rewrite E1, E2, E3, E4. destruct (decide (r = [])) as [->|Hrn].
    + cbn [encode]. match goal with |- context [Z.to_nat (zlen ?l / 4)] => change (Z.to_nat (zlen l / 4)) with 1%nat end.
      cbn [decode_groups mbind option_bind decode_last].
      rewrite !toBinary_getChar, !getChar_no_pad by done. cbn. by rewrite B1, B2, B3.
    + specialize (IH (length r) ltac:(cbn; lia) r eq_refl Hr Hrn). unfold decode_all in IH.
      destruct (zlen_encode r) as (n & En & Hn). specialize (Hn Hrn). destruct n as [|n]; [done|].
      assert (Z.to_nat (zlen (encode r) / 4) = S n) as Er.
      { rewrite En, (Z.mul_comm 4), Z.div_mul by done. lia. }
      rewrite Er in IH. rewrite !zlen_cons.
      assert (Z.to_nat ((zlen (encode r) + 1 + 1 + 1 + 1) / 4) = S (S n)) as ->.
      { rewrite En. replace (4 * Z.of_nat (S n) + 1 + 1 + 1 + 1) with (Z.of_nat (S (S n)) * 4) by lia. rewrite Z.div_mul by done. lia. }
      cbn [decode_groups]. rewrite !toBinary_getChar by done. cbn [mbind option_bind].
      destruct (decode_groups n (encode r)) as [[g s]|]; [|done]. cbn [mbind option_bind] in *.
      destruct (decode_last s) as [l|]; [|done]. cbn in *. injection IH as IH. by rewrite B1, B2, B3, IH.
Qed.

(** What an encoded text looks like: characters of the table, and padding at its end. *)
Lemma encode_shape b : all_bytes b -> exists t p, encode b = t ++ p /\ Forall (fun c => c ∈ getChar64) t /\
  p ∈ [[]; [61]; [61; 61]].
Proof.
  remember (length b) as k eqn:Hk. revert b Hk. induction k as [k IH] using lt_wf_ind. intros b -> Hb.
  assert (is_byte 0) as H0 by done.
  destruct b as [|x [|y [|z r]]].
  - exists [], []. split; [done|]. split; [constructor|by left].
  - apply Forall_cons in Hb as [Hx _]. destruct (chars_sextets x 0 0 Hx H0 H0) as (E1 & E2 & _ & _ & R1 & R2 & _).
    exists [char1 x; char2 x 0], [61; 61]. split; [done|]. rewrite E1, E2. split; [by repeat (apply Forall_cons_2; [by apply getChar_in|])|].
    by right; right; left.
  - apply Forall_cons in Hb as [Hx [Hy _]%Forall_cons].
    destruct (chars_sextets x y 0 Hx Hy H0) as (E1 & E2 & E3 & _ & R1 & R2 & R3 & _).
    exists [char1 x; char2 x y; char3 y 0], [61]. split; [done|]. rewrite E1, E2, E3.
    split; [by repeat (apply Forall_cons_2; [by apply getChar_in|])|]. by right; left.
  - apply Forall_cons in Hb as [Hx [Hy [Hz Hr]%Forall_cons]%Forall_cons].
    destruct (chars_sextets x y z Hx Hy Hz) as (E1 & E2 & E3 & E4 & R1 & R2 & R3 & R4).
    destruct (IH (length r)) with (b := r) as (t & p & E & Ht & Hp); [cbn; lia|done|done|].
    exists (char1 x :: char2 x y :: char3 y z :: char4 z :: t), p. cbn [encode]. rewrite E. split; [done|].
    rewrite E1, E2, E3, E4. split; [by repeat (apply Forall_cons_2; [by apply getChar_in|])|exact Hp].
Qed.

Lemma find_first_not_of_app set t s : Forall (fun c => c ∈ set) t ->
  find_first_not_of set (t ++ s) = (fun n => (length t + n)%nat) <$> find_first_not_of set s.
Proof.
  intros Ht. induction Ht as [|c t Hc _ IH]; [by cbn; destruct (find_first_not_of set s)|]. cbn [app find_first_not_of length].
  rewrite bool_decide_eq_true_2 by done. rewrite IH. by destruct (find_first_not_of set s).
Qed.

Lemma acceptable_encode behind b : all_bytes b -> b <> [] -> acceptable behind (encode b) = true.
Proof.
  intros Hb Hne. unfold acceptable. destruct (zlen_encode b) as (n & En & Hn). specialize (Hn Hne).
  rewrite En, (Z.mul_comm 4), Z.mod_mul by done. change (negb (0 =? 0)) with false. cbn iota.
  rewrite (proj2 (Z.eqb_neq (Z.of_nat n * 4) 0)) by lia. destruct (encode_shape b Hb) as (t & p & E & Ht & Hp).
  assert (zlen (t ++ p) = Z.of_nat n * 4) as Hz by (rewrite <- E; lia). rewrite E.
  rewrite find_first_not_of_app by (eapply Forall_impl; [exact Ht|]; intros c Hc; apply elem_of_app; by left).
  rewrite zlen_app, zlen_length in Hz.
  assert (forall k, default 0 ((t ++ p) !! (length t + k)%nat) = default 0 (p !! k)) as Hl.
  { intros k. rewrite lookup_app_r by lia. by replace (length t + k - length t)%nat with k by lia. }
  assert (61 ∉ getChar64) as H61 by (apply (bool_decide_unpack _); by vm_compute).
  rewrite !elem_of_cons in Hp. destruct Hp as [->|[->|[->|Hp]]]; [done| | |by apply elem_of_nil in Hp];
    cbn [find_first_not_of]; (case_bool_decide as Hin; cbn; [try done|]);
    rewrite ?Nat.add_0_r; try (rewrite <- (Nat.add_0_r (length t)) at 1; rewrite Hl; cbn).
  - rewrite zlen_cons, zlen_nil in Hz. by rewrite (proj2 (Z.eqb_eq _ _)) by lia.
  - rewrite !zlen_cons, zlen_nil in Hz. rewrite (proj2 (Z.eqb_neq _ _)) by lia. rewrite (proj2 (Z.eqb_eq _ _)) by lia. cbn.
    replace (S (length t)) with (length t + 1)%nat by lia. by rewrite Hl.
Qed.

(** Decoding gives back what was encoded, with and without the check of the text, whatever lies
    behind the table that the check reads on into. *)
Theorem base64_roundtrip safety behind b :
  all_bytes b -> safety = true \/ b <> [] -> decode safety behind (encode b) = Some b.
Proof.
  intros Hb Hs. unfold decode. destruct (decide (b = [])) as [->|Hne].
  - destruct safety; [done|]. by destruct Hs.
  - rewrite (acceptable_encode behind b Hb Hne). rewrite andb_false_r. exact (decode_all_encode b Hb Hne).
Qed.

Theorem encode_size b : zlen (encode b) = getEncodingSize (zlen b).
Proof.
  remember (length b) as k eqn:Hk. revert b Hk. induction k as [k IH] using lt_wf_ind. intros b ->.
  destruct b as [|x [|y [|z r]]]; [done|done|done|]. cbn [encode]. rewrite !zlen_cons, (IH (length r)) with (b := r); [|cbn; lia|done].
  unfold getEncodingSize. pose proof (zlen_nonneg r). Z.to_euclidean_division_equations. lia.
Qed.

Lemma base64_roundtrip_witness : encode (text "hello") = text "aGVsbG8=" /\ decode true [] (text "aGVsbG8=") = Some (text "hello").
Proof.
  split; [reflexivity|]. apply (base64_roundtrip true [] (text "hello")); [by apply (bool_decide_unpack _)|by left].
Defined.

(** The check does not stop at the end of its table: with a byte 200 behind it, a text with that
    character passes and is looked up outside of the table. *)
Example decode_reads_outside : decode true [200] [65; 65; 65; 200] = None /\ decode true [] [65; 65; 65; 200] = Some [].
Proof. split; reflexivity. Qed.
