(* ===== verification/SObject.v ===== *)
(** * SObject: the database of live objects and the owners of values (src/sobject.cpp,
    sobject.hpp, vars.hpp, peering.hpp)

    Every object registers itself under its address and under an identifier of its own.
    Counted pointers, owners that run a deleter, and pairs of peers follow.  The meter of
    sobject.hpp is in [Meter].  Built without SOCLE_MEM_PROFILE, so no backtraces are kept. *)

From stdpp Require Import gmap.
From S2P Require Export Meter Text.

(** ** The database *)

Definition id_start : Z := 222900662221338.   (* 0xCABA1ACABA1A *)
Definition id_key : Z := 57533968631055.      (* 0x3453ABC3450F *)

(** [created_] of each object by its address, the address by identifier, the counter, the
    meters; [oid_of] is the member [oid_] of each live object. *)
Record registry : Type := mkRegistry {
  db_ : gmap Z Z;
  oid_db_ : gmap Z Z;
  id_current : Z;
  mtr_created : meter;
  mtr_deleted : meter;
  oid_of : gmap Z Z
}.
Definition new_registry (now : Z) : registry := mkRegistry ∅ ∅ id_start (meter_new 1 now) (meter_new 1 now) ∅.

(** The constructor; [now] is the clock in nanoseconds.  An identifier that is taken would
    delete the object that has it. *)
Definition sobject_new (this now : Z) : M registry Z := fun r =>
  let oid := Z.lxor id_key (id_current r) in
  match oid_db_ r !! oid with
  | Some _ => Undef
  | None =>
      Ret oid (mkRegistry (<[this := now / second]> (db_ r)) (<[oid := this]> (oid_db_ r)) (u64 (id_current r + 1))
                 (snd (meter_update now 1 (mtr_created r))) (mtr_deleted r) (<[this := oid]> (oid_of r)))
  end.
(** The destructor; of what is no live object it is undefined. *)
Definition sobject_delete (this now : Z) : M registry unit := fun r =>
  match oid_of r !! this with
  | None => Undef
  | Some oid =>
      Ret tt (mkRegistry (delete this (db_ r)) (delete oid (oid_db_ r)) (id_current r)
                (mtr_created r) (snd (meter_update now 1 (mtr_deleted r))) (delete this (oid_of r)))
  end.

(** What is virtual in an object: its type's name and where that is, its text, and what it does when it is asked to
    end (its answer and the effect on the rest of the program). *)
Class Objects : Type := {
  os_world : Type;
  os_type : Z -> bytes;
  os_type_at : Z -> Z;
  os_text : Z -> Z -> bytes;
  os_ask : Z -> os_world -> bool * os_world;
  (** a float of the quotient of two sums, as a stream prints it *)
  os_average : Z -> Z -> bytes
}.

Section objects.
Context {OB : Objects}.

Definition ask_destroy (ptr : Z) (r : registry) (w : os_world) : Z * os_world :=
  match db_ r !! ptr with
  | None => (-1, w)
  | Some _ => let '(b, w) := os_ask ptr w in (if b : bool then 1 else 0, w)
  end.

Definition lower_hex (x : Z) : bytes := digits 16 false 16 x.

(** [text] in [s]. *)
Fixpoint contains (t s : bytes) : bool :=
  bool_decide (take (length t) s = t) || match s with [] => false | _ :: s => contains t s end.

Definition prefix_is (n : Z) (t s : bytes) : bool := bool_decide (ztake n s = t).

Definition matches (criteria : bytes) (oid ptr : Z) : bool :=
  if bool_decide (criteria = []) then true
  else if prefix_is 2 (text "0x") criteria then bool_decide (text "0x" ++ lower_hex ptr = criteria)
  else if prefix_is 3 (text "oid") criteria then bool_decide (decimal oid = zdrop 3 criteria)
  else bool_decide (os_type ptr = criteria) || bool_decide (criteria = text "*").

Definition info_text (verbosity age : Z) : bytes :=
  if 6 <? u32 verbosity then text "    sobject_info: age: " ++ (if age <? 0 then 45 :: decimal (- age) else decimal age) ++ text "s" else [].

(** One line, none for an object that does not match.  The order of the objects is not
    specified; it is that of [map_to_list] here. *)
Definition list_line (criteria : bytes) (delimiter : option bytes) (verbosity : Z) (content : option bytes)
    (now : Z) (r : registry) (e : Z * Z) : bytes :=
  let '(ptr, created) := e in
  let oid := default 0 (oid_of r !! ptr) in
  if matches criteria oid ptr then
    let obj_string := os_text ptr verbosity in
    if match content with Some c => negb (contains c obj_string) | None => false end then []
    else text "OID: " ++ lower_hex oid ++ text " ptr: 0x" ++ lower_hex ptr ++ text " | " ++ obj_string
         ++ (if 8 <=? u32 verbosity then [10] ++ info_text verbosity (now / second - created) else [])
         ++ match delimiter with None => [10] | Some d => d end
  else [].
(** An address that is null is skipped. *)
Definition str_list (criteria : option bytes) (delimiter : option bytes) (verbosity : Z) (content : option bytes)
    (now : Z) (r : registry) : bytes :=
  concat (list_line (default [] criteria) delimiter verbosity content now r <$> filter (fun e => fst e <> 0) (map_to_list (db_ r))).

Record stats : Type := mkStats { object_counter : Z; youngest_age : Z; oldest_age : Z; sum_age : Z }.
Definition count_object (age : Z) (s : stats) : stats :=
  mkStats (object_counter s + 1) (Z.min (youngest_age s) age) (Z.max (oldest_age s) age) (sum_age s + age).
(** A criterion is a C string, its address and its text; the addresses are compared. *)
Definition counted (criteria : option (Z * bytes)) (e : Z * Z) : bool :=
  negb (fst e =? 0) && match criteria with None => true | Some c => os_type_at (fst e) =? fst c end.
Definition gather (criteria : option (Z * bytes)) (now : Z) (l : list (Z * Z)) : stats :=
  foldl (fun s e => if counted criteria e then count_object (now / second - snd e) s else s) (mkStats 0 0 0 0) l.

Definition show_int (x : Z) : bytes := if x <? 0 then 45 :: decimal (- x) else decimal x.

Definition str_stats (criteria : option (Z * bytes)) (now : Z) (r : registry) : bytes :=
  let s := gather criteria now (map_to_list (db_ r)) in
  text "Performance: " ++ decimal (meter_get now (mtr_created r)) ++ text " new objects per second, "
  ++ decimal (meter_get now (mtr_deleted r)) ++ text " deleted objects per second." ++ [10]
  ++ text "Totals: " ++ decimal (total_ (mtr_created r)) ++ text " objects created," ++ decimal (total_ (mtr_deleted r)) ++ text " deleted"
  ++ text "Database contains: " ++ decimal (object_counter s) ++ text " matching entries (" ++ default (text "*") (snd <$> criteria)
  ++ text "), oldest " ++ show_int (s32 (oldest_age s)) ++ text "s, "
  ++ text "youngest age " ++ show_int (youngest_age s) ++ text "s, average age is "
  ++ os_average (if 0 <? object_counter s then sum_age s else 0) (if 0 <? object_counter s then object_counter s else 1) ++ text "s." ++ [10]
  ++ text "Full DB size: " ++ decimal (Z.of_nat (size (db_ r))) ++ text " full OID DB size: " ++ decimal (Z.of_nat (size (oid_db_ r))).
End objects.

(** ** Counted pointers

    Numbers name the pointers and the references that live; [heap] has the values. *)

Record cell : Type := mkCell { pointer_ : option Z; count_ : Z }.
Record pointers : Type := mkPointers { cells : gmap Z cell; refs : gmap Z (option Z); heap : gset Z }.

Definition put_cells (c : gmap Z cell) (w : pointers) : pointers := mkPointers c (refs w) (heap w).
Definition put_refs (r : gmap Z (option Z)) (w : pointers) : pointers := mkPointers (cells w) r (heap w).

(** A member of a pointer that is not there is undefined. *)
Definition with_cell (sp : Z) : M pointers cell := fun w =>
  match cells w !! sp with Some c => Ret c w | None => Undef end.
Definition set_cell (sp : Z) (c : cell) : M pointers unit := modify (fun w => put_cells (<[sp := c]> (cells w)) w).
Definition get_ref (r : Z) : M pointers (option Z) := fun w =>
  match refs w !! r with Some v => Ret v w | None => Undef end.
Definition set_ref (r : Z) (v : option Z) : M pointers unit := modify (fun w => put_refs (<[r := v]> (refs w)) w).

(** [delete] of a value, twice is undefined. *)
Definition delete_value (p : option Z) : M pointers unit := fun w =>
  match p with
  | None => Ret tt w
  | Some v => if decide (v ∈ heap w) then Ret tt (mkPointers (cells w) (refs w) (heap w ∖ {[v]})) else Undef
  end.

Definition spointer_new (sp : Z) (p : option Z) : M pointers unit := set_cell sp (mkCell p 0).
Definition invalidate (sp : Z) : M pointers unit :=
  c <- with_cell sp ;; delete_value (pointer_ c) ;;; set_cell sp (mkCell None 0).
Definition set_ptr (sp : Z) (p : option Z) : M pointers unit :=
  invalidate sp ;;; c <- with_cell sp ;; set_cell sp (mkCell p (count_ c)).
Definition spointer_delete (sp : Z) : M pointers unit :=
  c <- with_cell sp ;; delete_value (pointer_ c) ;;; modify (fun w => put_cells (delete sp (cells w)) w).
Definition use (sp : Z) : M pointers unit := c <- with_cell sp ;; set_cell sp (mkCell (pointer_ c) (s32 (count_ c + 1))).
Definition unuse (sp : Z) : M pointers unit :=
  c <- with_cell sp ;;
  let n := if 0 <? count_ c then count_ c - 1 else count_ c in
  set_cell sp (mkCell (pointer_ c) (if n <? 0 then 0 else n)).

Definition use_if (v : option Z) : M pointers unit := match v with Some sp => use sp | None => mret_ tt end.
Definition sref_new (r : Z) (v : option Z) : M pointers unit := set_ref r v ;;; use_if v.
Definition unref (r : Z) : M pointers unit :=
  v <- get_ref r ;;
  match v with None => mret_ tt | Some sp => unuse sp ;;; set_ref r None end.
Definition sref_copy (r other : Z) : M pointers unit := v <- get_ref other ;; set_ref r v ;;; use_if v.
Definition sref_assign (r other : Z) : M pointers unit :=
  if r =? other then mret_ tt
  else unref r ;;; v <- get_ref other ;; set_ref r v ;;; use_if v.
(** [newref] forgets what was referred to without giving it back, [ref] does not. *)
Definition newref (r : Z) (n : option Z) : M pointers unit := set_ref r n ;;; use_if n.
Definition ref (r : Z) (n : option Z) : M pointers unit := unref r ;;; newref r n.
Definition refval (r : Z) : M pointers (option Z) :=
  v <- get_ref r ;;
  match v with None => mret_ None | Some sp => c <- with_cell sp ;; mret_ (pointer_ c) end.
Definition sref_delete (r : Z) : M pointers unit := unref r ;;; modify (fun w => put_refs (delete r (refs w)) w).

(** ** Owners with a deleter (vars.hpp)

    [deleted] lists the values the deleter ran on. *)

Record owner : Type := mkOwner { value : Z; own : bool }.

(** [lax]: assignment deletes what it held and shares what it is given. *)
Definition lax_assign (v o : owner) : M (list Z) owner := modify (fun d => d ++ [value o]) ;;; mret_ (mkOwner (value v) true).
(** [lax], [var] and [guard] run the deleter at their end, [unique] unless it was released. *)
Definition lax_end (o : owner) : M (list Z) unit := modify (fun d => d ++ [value o]).
Definition unique_release (o : owner) : Z * owner := (value o, mkOwner (value o) false).
Definition unique_end (o : owner) : M (list Z) unit := if own o then modify (fun d => d ++ [value o]) else mret_ tt.

(** [dynamic_cast_cache]: the cast of the last address, whatever lives there now. *)
Definition cached_cast (cast : Z -> option Z) (p : Z) (c : Z * option Z) : option Z * (Z * option Z) :=
  if p =? fst c then (snd c, c) else (cast p, (p, cast p)).

Inductive side_t : Type := LEFT | RIGHT.
Definition to_side (s : Z) : side_t := if (s =? 82) || (s =? 114) then RIGHT else LEFT.
Definition from_side (s : side_t) : Z := match s with RIGHT => 82 | LEFT => 76 end.
Definition arrow_from_side (s : side_t) : Z := match s with RIGHT => 60 | LEFT => 62 end.

(** ** Peers (peering.hpp)

    A peering makes its shared half on first use; the other half is referred to weakly.  Halves
    are numbered; [held] tells which peering keeps a half alive. *)

Record half : Type := mkHalf { self : Z; other : option Z }.
Record peers : Type := mkPeers { halves : gmap Z half; peer_ : gmap Z (option Z); owner_of : gmap Z Z; next_half : Z }.

Definition put_halves (h : gmap Z half) (w : peers) : peers := mkPeers h (peer_ w) (owner_of w) (next_half w).

Definition peering_new (p owner : Z) : M peers unit :=
  modify (fun w => mkPeers (halves w) (<[p := None]> (peer_ w)) (<[p := owner]> (owner_of w)) (next_half w)).
Definition fetch (p : Z) : M peers (option Z) := fun w =>
  match peer_ w !! p with Some h => Ret h w | None => Undef end.
Definition get_half (p : Z) : M peers Z := fun w =>
  match peer_ w !! p, owner_of w !! p with
  | Some (Some h), _ => Ret h w
  | Some None, Some o =>
      let h := next_half w in
      Ret h (mkPeers (<[h := mkHalf o None]> (halves w)) (<[p := Some h]> (peer_ w)) (owner_of w) (h + 1))
  | _, _ => Undef
  end.
Definition set_other (h : Z) (o : option Z) : M peers unit :=
  modify (fun w => match halves w !! h with Some x => put_halves (<[h := mkHalf (self x) o]> (halves w)) w | None => w end).
Definition peering_attach (p q : Z) : M peers unit := a <- get_half p ;; b <- get_half q ;; set_other a (Some b).
Definition peering_detach (p : Z) : M peers unit :=
  h <- fetch p ;; match h with Some h => set_other h None | None => mret_ tt end.
(** The owner of the other half while that one is alive; a half has one holder beside the
    caller. *)
Definition peering_peer (p : Z) : M peers (option Z) :=
  f <- fetch p ;;
  match f with
  | None => mret_ None
  | Some h => gets (fun w => o ← halves w !! h; k ← other o; x ← halves w !! k; Some (self x))
  end.
(** The end of a peering, with a guard before it. *)
Definition peering_delete (p : Z) : M peers unit :=
  peering_detach p ;;;
  h <- fetch p ;;
  modify (fun w => mkPeers (match h with Some h => delete h (halves w) | None => halves w end)
                     (delete p (peer_ w)) (delete p (owner_of w)) (next_half w)).
