(* ===== verification/SObjectProps.v ===== *)
(** * SObjectProps: properties of the database of objects, counted pointers and peers *)

From stdpp Require Import gmap.
From S2P Require Export SObject.

(** ** The database *)

Lemma iter_total n s m : total_ (Nat.iter n (push_score s) m) = total_ m.
Proof. induction n as [|n IH]; [done|]. by rewrite Nat.iter_succ. Qed.
Lemma meter_update_total now v m : total_ (snd (meter_update now v m)) = u64 (total_ m + v).
Proof. unfold meter_update. cbn. repeat case_match; cbn; by rewrite ?iter_total. Qed.

#[local] Opaque meter_update.

(** The databases a program reaches, with the identifiers given out so far, the newest first.
    An object is made where none lives. *)
Inductive reach : registry -> list Z -> Prop :=
| reach_start now : reach (new_registry now) []
| reach_new r l this now oid r' : reach r l -> oid_of r !! this = None -> sobject_new this now r = Ret oid r' -> reach r' (oid :: l)
| reach_delete r l this now r' : reach r l -> sobject_delete this now r = Ret tt r' -> reach r' l.

(** The identifier of the [k]-th object. *)
Definition nth_oid (k : Z) : Z := Z.lxor id_key (id_start + k).

Lemma nth_oid_inj j k : nth_oid j = nth_oid k -> j = k.
Proof.
  intros E. apply (f_equal (Z.lxor id_key)) in E. unfold nth_oid in E.
  rewrite <- !Z.lxor_assoc, Z.lxor_nilpotent, !Z.lxor_0_l in E. lia.
Qed.

Record consistent (r : registry) (l : list Z) : Prop := {
  c_next : id_current r = id_start + zlen l;
  c_given : forall oid, oid ∈ l -> exists k, 0 <= k < zlen l /\ oid = nth_oid k;
  c_nodup : NoDup l;
  c_db : forall this, is_Some (db_ r !! this) <-> is_Some (oid_of r !! this);
  c_oids : forall oid this, oid_db_ r !! oid = Some this <-> oid_of r !! this = Some oid;
  c_issued : forall this oid, oid_of r !! this = Some oid -> oid ∈ l;
  c_size : Z.of_nat (size (db_ r)) <= zlen l;
  c_created : total_ (mtr_created r) = zlen l;
  c_deleted : total_ (mtr_deleted r) = zlen l - Z.of_nat (size (db_ r))
}.

Lemma next_is_new r l : consistent r l -> Z.lxor id_key (id_current r) = nth_oid (zlen l) /\ nth_oid (zlen l) ∉ l /\
  oid_db_ r !! nth_oid (zlen l) = None.
Proof.
  intros C. rewrite (c_next r l C). assert (nth_oid (zlen l) ∉ l) as Hn.
  { intros Hin. destruct (c_given r l C _ Hin) as (k & Hk & E). apply nth_oid_inj in E. lia. }
  split; [done|]. split; [done|]. destruct (oid_db_ r !! nth_oid (zlen l)) as [this|] eqn:E; [|done].
  apply (c_oids r l C) in E. by apply (c_issued r l C) in E.
Qed.

Lemma reach_consistent r l : reach r l -> zlen l < 2 ^ 63 -> consistent r l.
Proof.
  induction 1 as [now|r l this now oid r' Hr IH Hfree E|r l this now r' Hr IH E]; intros Hz.
  - split; try done.
    + by intros oid H%elem_of_nil.
    + constructor.
  - rewrite zlen_cons in Hz. pose proof (IH ltac:(lia)) as C. destruct (next_is_new r l C) as (En & Hn & Hd).
    unfold sobject_new in E. rewrite En, Hd in E. injection E as <- <-.
    assert (db_ r !! this = None) as Hdb.
    { apply eq_None_not_Some. intros H%(c_db r l C). rewrite Hfree in H. by destruct H. }
    pose proof (zlen_nonneg l). pose proof (c_next r l C). pose proof (c_deleted r l C) as Hdel.
    split; cbn [id_current db_ oid_db_ oid_of mtr_created mtr_deleted]; rewrite ?zlen_cons.
    + rewrite u64_small; unfold id_start in *; lia.
    + intros oid [->|Hin]%elem_of_cons; [exists (zlen l); split; [lia|done]|].
      destruct (c_given r l C oid Hin) as (k & Hk & ->). exists k. split; [lia|done].
    + constructor; [done|apply C].
    + intros t. destruct (decide (this = t)) as [->|Ht]; [rewrite !lookup_insert_eq; split; by eexists|].
      rewrite !lookup_insert_ne by done. apply (c_db r l C).
    + intros oid t. rewrite !lookup_insert_Some. rewrite <- (c_oids r l C oid t). split.
      * intros [[<- <-]|[H1 H2]]; [by left|]. right. split; [|done]. intros ->. apply (c_oids r l C) in H2. congruence.
      * intros [[<- <-]|[H1 H2]]; [by left|]. right. split; [|done]. intros <-. rewrite Hd in H2. done.
    + intros t oid [[_ <-]|[_ H2]]%lookup_insert_Some; [by left|]. right. by eapply (c_issued r l C).
    + rewrite map_size_insert_None by done. pose proof (c_size r l C). lia.
    + rewrite meter_update_total, (c_created r l C), u64_small; lia.
    + rewrite map_size_insert_None by done. lia.
  - pose proof (IH Hz) as C. unfold sobject_delete in E. destruct (oid_of r !! this) as [oid|] eqn:Eo; [|done]. injection E as <-.
    assert (is_Some (db_ r !! this)) as Hdb by (apply (c_db r l C); by eexists).
    pose proof (c_deleted r l C) as Hdel. pose proof (c_size r l C) as Hle. pose proof (zlen_nonneg l).
    assert (Z.of_nat (size (db_ r)) = Z.of_nat (size (delete this (db_ r))) + 1) as Hs.
    { destruct Hdb as [x Hx]. rewrite map_size_delete_Some by (by eexists).
      assert (size (db_ r) <> 0)%nat; [|lia]. intros H0%map_size_empty_inv. rewrite H0 in Hx. by rewrite lookup_empty in Hx. }
    split; cbn [id_current db_ oid_db_ oid_of mtr_created mtr_deleted]; try apply C.
    + intros t. destruct (decide (this = t)) as [->|Ht]; [rewrite !lookup_delete_eq; done|].
      rewrite !lookup_delete_ne by done. apply (c_db r l C).
    + intros o t. rewrite !lookup_delete_Some. rewrite <- (c_oids r l C o t). split; intros [H1 H2]; (split; [|done]).
      * intros <-. apply (c_oids r l C) in H2. congruence.
      * intros <-. apply (c_oids r l C) in Eo. congruence.
    + intros t o [_ H2]%lookup_delete_Some. by eapply (c_issued r l C).
    + lia.
    + rewrite meter_update_total, Hdel. rewrite u64_small; lia.
Qed.

(** The database is the set of live objects: whatever objects were made and deleted, the
    addresses it lists are those of the live objects, the identifiers lead to them and back,
    no identifier was given out twice, the totals of the meters differ by the number of
    entries, and one more object can be made, with an identifier nobody had. *)
Theorem database_is_live_set r l :
  reach r l -> zlen l < 2 ^ 63 ->
  (forall this, is_Some (db_ r !! this) <-> is_Some (oid_of r !! this)) /\
  (forall oid this, oid_db_ r !! oid = Some this <-> oid_of r !! this = Some oid) /\
  NoDup l /\ total_ (mtr_created r) - total_ (mtr_deleted r) = Z.of_nat (size (db_ r)) /\
  (forall this now, exists oid r', sobject_new this now r = Ret oid r' /\ oid ∉ l).
Proof.
  intros Hr Hz. pose proof (reach_consistent r l Hr Hz) as C. destruct (next_is_new r l C) as (En & Hn & Hd).
  split; [apply C|]. split; [apply C|]. split; [apply C|]. split.
  - rewrite (c_created r l C), (c_deleted r l C). lia.
  - intros this now. unfold sobject_new. rewrite En, Hd. by do 2 eexists.
Qed.

Section stats.
Context {OB : Objects}.

(** The ages of the objects that are counted. *)
Definition ages (criteria : option (Z * bytes)) (now : Z) (l : list (Z * Z)) : list Z :=
  omap (fun e => if counted criteria e then Some (now / second - snd e) else None) l.

Definition lowest (l : list Z) : Z := foldr Z.min 0 l.
Definition highest (l : list Z) : Z := foldr Z.max 0 l.
Definition total (l : list Z) : Z := foldr Z.add 0 l.

Lemma bounds_zero a : lowest a <= 0 <= highest a.
Proof. unfold lowest, highest. induction a as [|x a IH]; cbn; lia. Qed.

Lemma gather_from criteria now l : forall s, youngest_age s <= 0 <= oldest_age s ->
  foldl (fun s e => if counted criteria e then count_object (now / second - snd e) s else s) s l =
    let a := ages criteria now l in
    mkStats (object_counter s + zlen a) (Z.min (youngest_age s) (lowest a)) (Z.max (oldest_age s) (highest a)) (sum_age s + total a).
Proof.
  induction l as [|e l IH]; intros s Hs; cbn [foldl ages omap list_omap]; cbv zeta.
  - destruct s as [n y o t]; cbn in *. rewrite zlen_nil. f_equal; lia.
  - destruct (counted criteria e); [|by apply IH]. rewrite IH by (cbn; lia). fold (ages criteria now l). cbv zeta.
    cbn [count_object object_counter youngest_age oldest_age sum_age]. rewrite zlen_cons.
    unfold lowest, highest, total. cbn [foldr]. f_equal; lia.
Qed.

(** The statistics count what matches, sum its ages and find the oldest; the youngest age is
    the smallest one or 0, from which it starts. *)
Theorem stats_exact criteria now l :
  gather criteria now l = let a := ages criteria now l in mkStats (zlen a) (lowest a) (highest a) (total a).
Proof.
  unfold gather. rewrite gather_from by done. cbv zeta. cbn [object_counter youngest_age oldest_age sum_age].
  pose proof (bounds_zero (ages criteria now l)). f_equal; lia.
Qed.

(** Nothing is counted for a type that is named by a text of the caller's own. *)
Theorem own_text_counts_nothing a t now l :
  (forall e, e ∈ l -> os_type_at (fst e) <> a) -> object_counter (gather (Some (a, t)) now l) = 0.
Proof.
  intros H. rewrite stats_exact. cbn [object_counter]. induction l as [|e l IH]; [done|].
  assert (counted (Some (a, t)) e = false) as Hc.
  { unfold counted. cbn [fst]. rewrite (proj2 (Z.eqb_neq (os_type_at (fst e)) a)); [by rewrite andb_false_r|]. apply H. by left. }
  unfold ages in *. cbn [omap list_omap]. rewrite Hc. apply IH. intros x Hx. apply H. by right.
Qed.

(** Unless the clock was set back, the youngest age is always printed as 0. *)
Theorem youngest_is_zero criteria now l :
  Forall (fun x => 0 <= x) (ages criteria now l) -> youngest_age (gather criteria now l) = 0.
Proof.
  intros H. rewrite stats_exact. cbn. unfold lowest. induction H as [|x a Hx _ IH]; [done|]. cbn. rewrite IH. lia.
Qed.
End stats.

(** ** Counted pointers *)

Definition refcount (sp : Z) (m : gmap Z (option Z)) : Z := Z.of_nat (size (filter (fun p : Z * option Z => snd p = Some sp) m)).

Lemma refcount_attach sp r v m : m !! r = None \/ m !! r = Some None ->
  refcount sp (<[r := v]> m) = refcount sp m + if decide (v = Some sp) then 1 else 0.
Proof.
  intros Hr. unfold refcount. case_decide as Hv.
  - rewrite map_filter_insert_True by done. rewrite map_size_insert_None; [lia|].
    apply map_lookup_filter_None. destruct Hr as [Hr|Hr]; [by left|right]. intros x Hx. rewrite Hr in Hx. injection Hx as <-. done.
  - rewrite map_filter_insert_False by done. rewrite map_filter_delete_not; [lia|].
    intros x Hx. destruct Hr as [Hr|Hr]; rewrite Hr in Hx; [done|]. by injection Hx as <-.
Qed.
Lemma refcount_detach sp r v m : m !! r = Some v ->
  refcount sp (<[r := None]> m) = refcount sp m - if decide (v = Some sp) then 1 else 0.
Proof.
  intros Hr. unfold refcount. rewrite map_filter_insert_False by done. case_decide as Hv.
  - rewrite map_filter_delete. assert (is_Some (filter (fun p : Z * option Z => snd p = Some sp) m !! r)) as Hs.
    { exists v. by apply map_lookup_filter_Some. }
    rewrite map_size_delete_Some by done.
    assert (size (filter (fun p : Z * option Z => snd p = Some sp) m) <> 0)%nat; [|lia].
    intros H0%map_size_empty_inv. rewrite H0 in Hs. destruct Hs as [x Hx]. by rewrite lookup_empty in Hx.
  - rewrite map_filter_delete_not; [lia|]. intros x Hx. rewrite Hr in Hx. by injection Hx as <-.
Qed.
Lemma refcount_delete sp r m : m !! r = Some None -> refcount sp (delete r m) = refcount sp m.
Proof.
  intros Hr. unfold refcount. rewrite map_filter_delete_not; [done|]. intros x Hx. rewrite Hr in Hx. by injection Hx as <-.
Qed.
Lemma refcount_nonneg sp m : 0 <= refcount sp m <= Z.of_nat (size m).
Proof. unfold refcount. split; [lia|]. apply inj_le, map_size_filter. Qed.
Lemma refcount_pos sp r m : m !! r = Some (Some sp) -> 0 < refcount sp m.
Proof.
  intros Hr. unfold refcount. assert (size (filter (fun p : Z * option Z => snd p = Some sp) m) <> 0)%nat; [|lia].
  intros H0%map_size_empty_inv. assert (filter (fun p : Z * option Z => snd p = Some sp) m !! r = Some (Some sp)) as H by by apply map_lookup_filter_Some.
  by rewrite H0, lookup_empty in H.
Qed.
Lemma refcount_zero sp m : (forall r, m !! r <> Some (Some sp)) -> refcount sp m = 0.
Proof.
  intros H. unfold refcount. assert (filter (fun p : Z * option Z => snd p = Some sp) m = ∅) as ->; [|done].
  apply map_empty. intros r. apply map_lookup_filter_None. right. intros x Hx E. cbn in E. subst. by apply (H r).
Qed.

(** The count of a pointer is the number of its references, references lead to pointers that
    are there, and no two pointers share a value. *)
Record counted_refs (w : pointers) : Prop := {
  p_count : forall sp c, cells w !! sp = Some c -> count_ c = refcount sp (refs w);
  p_there : forall r sp, refs w !! r = Some (Some sp) -> is_Some (cells w !! sp);
  p_value : forall sp c v, cells w !! sp = Some c -> pointer_ c = Some v ->
    v ∈ heap w /\ forall sp' c', cells w !! sp' = Some c' -> pointer_ c' = Some v -> sp' = sp;
  p_size : Z.of_nat (size (refs w)) < 2 ^ 31
}.

Definition target (v : option Z) (w : pointers) : Prop := match v with Some sp => is_Some (cells w !! sp) | None => True end.

(** What an operation on references may change: the references, and the counts. *)
Definition same_cells (w w' : pointers) : Prop :=
  heap w' = heap w /\ forall sp, pointer_ <$> cells w' !! sp = pointer_ <$> cells w !! sp.

Lemma same_refl w : same_cells w w.
Proof. by split. Qed.
Lemma same_trans a b c : same_cells a b -> same_cells b c -> same_cells a c.
Proof. intros [H1 H2] [H3 H4]. split; [congruence|]. intros sp. by rewrite H4, H2. Qed.
Lemma same_target w w' v : same_cells w w' -> target v w -> target v w'.
Proof.
  intros [_ H]. destruct v as [sp|]; [|done]. cbn. specialize (H sp). destruct (cells w !! sp), (cells w' !! sp); try done.
Qed.

Lemma counted_same w r' c' :
  counted_refs w -> same_cells w (mkPointers c' r' (heap w)) ->
  (forall sp c, c' !! sp = Some c -> count_ c = refcount sp r') ->
  (forall r sp, r' !! r = Some (Some sp) -> is_Some (cells w !! sp)) -> Z.of_nat (size r') < 2 ^ 31 ->
  counted_refs (mkPointers c' r' (heap w)).
Proof.
  intros Hw [_ Hs] Hc Ht Hz. cbn in Hs. split; cbn; [done| | |done].
  - intros r sp H. destruct (Ht r sp H) as [c E]. specialize (Hs sp). rewrite E in Hs. destruct (c' !! sp); [by eexists|done].
  - assert (forall sp c, c' !! sp = Some c -> exists c0, cells w !! sp = Some c0 /\ pointer_ c = pointer_ c0) as Hback.
    { intros sp c E. specialize (Hs sp). rewrite E in Hs. destruct (cells w !! sp) as [c0|]; [|done]. exists c0. split; [done|]. by injection Hs. }
    intros sp c v E Ev. destruct (Hback sp c E) as (c0 & E0 & Ep). destruct (p_value w Hw sp c0 v E0) as [H1 H2]; [congruence|].
    split; [done|]. intros sp' c1 E1 Ev1. destruct (Hback sp' c1 E1) as (c2 & E2 & Ep2). apply (H2 sp' c2 E2). congruence.
Qed.

Lemma attach_ok r v w : counted_refs w -> refs w !! r = None \/ refs w !! r = Some None -> target v w ->
  Z.of_nat (size (<[r := v]> (refs w))) < 2 ^ 31 ->
  exists w', newref r v w = Ret tt w' /\ counted_refs w' /\ same_cells w w' /\ refs w' = <[r := v]> (refs w).
Proof.
  intros Hw Hr Hv Hz. unfold newref, set_ref, use_if, use. destruct v as [sp|].
  - destruct Hv as [c Ec]. unfold mbind_, modify, with_cell, set_cell. cbn. rewrite Ec. eexists. split; [reflexivity|].
    unfold put_cells, put_refs. cbn.
    assert (same_cells w (mkPointers (<[sp := mkCell (pointer_ c) (s32 (count_ c + 1))]> (cells w)) (<[r := Some sp]> (refs w)) (heap w))) as Hs.
    { split; [done|]. intros sp'. cbn. destruct (decide (sp = sp')) as [<-|Hne]; [rewrite lookup_insert_eq, Ec; done|by rewrite lookup_insert_ne]. }
    split; [|by split]. apply counted_same; [done..| | |done].
    + intros sp' c' [[<- <-]|[Hne E]]%lookup_insert_Some; rewrite refcount_attach by done.
      * cbn. rewrite decide_True by done. rewrite (p_count w Hw sp c Ec). pose proof (refcount_nonneg sp (<[r := Some sp]> (refs w))) as Hb.
        rewrite refcount_attach, decide_True in Hb by done. apply wraps_small; lia.
      * rewrite decide_False by congruence. rewrite (p_count w Hw sp' c' E). lia.
    + intros r' sp' [[_ E]|[_ E]]%lookup_insert_Some; [injection E as <-; by eexists|by eapply (p_there w Hw)].
  - eexists. split; [reflexivity|]. unfold put_refs. cbn.
    assert (same_cells w (mkPointers (cells w) (<[r := None]> (refs w)) (heap w))) as Hs by by split.
    split; [|by split]. apply counted_same; [done..| | |done].
    + intros sp' c' E. rewrite refcount_attach by done. rewrite decide_False by done. rewrite (p_count w Hw sp' c' E). lia.
    + intros r' sp' [[_ E]|[_ E]]%lookup_insert_Some; [done|by eapply (p_there w Hw)].
Qed.

Lemma size_same_key r v (m : gmap Z (option Z)) : is_Some (m !! r) -> size (<[r := v]> m) = size m.
Proof. apply map_size_insert_Some. Qed.

Lemma unref_ok r w : counted_refs w -> is_Some (refs w !! r) ->
  exists w', unref r w = Ret tt w' /\ counted_refs w' /\ same_cells w w' /\ refs w' = <[r := None]> (refs w).
Proof.
  intros Hw [v Hr]. unfold unref, get_ref, mbind_. rewrite Hr. destruct v as [sp|].
  - destruct (p_there w Hw r sp Hr) as [c Ec]. unfold unuse, mbind_, with_cell, set_cell, set_ref, modify. rewrite Ec.
    eexists. split; [reflexivity|]. unfold put_cells, put_refs. cbn.
    pose proof (refcount_pos sp r _ Hr) as Hpos. rewrite (p_count w Hw sp c Ec). rewrite (proj2 (Z.ltb_lt 0 _)) by done.
    rewrite (proj2 (Z.ltb_ge _ 0)) by lia.
    match goal with |- counted_refs (mkPointers ?c' ?r' _) /\ _ => assert (same_cells w (mkPointers c' r' (heap w))) as Hs end.
    { split; [done|]. intros sp'. cbn. destruct (decide (sp = sp')) as [<-|Hne]; [rewrite lookup_insert_eq, Ec; done|by rewrite lookup_insert_ne]. }
    split; [|by split]. apply counted_same; [done..| | |].
    + intros sp' c' [[<- <-]|[Hne E]]%lookup_insert_Some; rewrite (refcount_detach _ _ (Some sp)) by done.
      * cbn. by rewrite decide_True.
      * rewrite decide_False by congruence. rewrite (p_count w Hw sp' c' E). lia.
    + intros r' sp' [[_ E]|[_ E]]%lookup_insert_Some; [done|by eapply (p_there w Hw)].
    + rewrite size_same_key by (by eexists). apply Hw.
  - unfold mret_. exists w. split; [done|]. split; [done|]. split; [apply same_refl|]. by rewrite insert_id.
Qed.

(** The operations on pointers and references. *)
Inductive pop : Type := NewPointer (sp : Z) (v : option Z) | NewRef (r : Z) (v : option Z) | Unref (r : Z) | Copy (r o : Z)
  | Assign (r o : Z) | Refer (r : Z) (v : option Z) | EndRef (r : Z) | EndPointer (sp : Z).
Definition pop_run (o : pop) : M pointers unit :=
  match o with
  | NewPointer sp v => spointer_new sp v | NewRef r v => sref_new r v | Unref r => unref r | Copy r o => sref_copy r o
  | Assign r o => sref_assign r o | Refer r v => ref r v | EndRef r => sref_delete r | EndPointer sp => spointer_delete sp
  end.
(** New names are new, values have one owner, and a pointer ends when [usage] is 0. *)
Definition allowed (o : pop) (w : pointers) : Prop :=
  match o with
  | NewPointer sp v => cells w !! sp = None /\
      match v with None => True | Some x => x ∈ heap w /\ forall sp c, cells w !! sp = Some c -> pointer_ c <> Some x end
  | NewRef r v => refs w !! r = None /\ target v w /\ Z.of_nat (size (refs w)) + 1 < 2 ^ 31
  | Unref r | EndRef r => is_Some (refs w !! r)
  | Copy r o => refs w !! r = None /\ is_Some (refs w !! o) /\ Z.of_nat (size (refs w)) + 1 < 2 ^ 31
  | Assign r o => is_Some (refs w !! r) /\ is_Some (refs w !! o)
  | Refer r v => is_Some (refs w !! r) /\ target v w
  | EndPointer sp => exists c, cells w !! sp = Some c /\ count_ c = 0
  end.

Lemma attach_new r v w : counted_refs w -> refs w !! r = None -> target v w -> Z.of_nat (size (refs w)) + 1 < 2 ^ 31 ->
  exists w', newref r v w = Ret tt w' /\ counted_refs w'.
Proof.
  intros Hw Hr Hv Hz. destruct (attach_ok r v w Hw (or_introl Hr) Hv) as (w' & E & Hw' & _).
  - rewrite map_size_insert_None by done. lia.
  - by exists w'.
Qed.
Lemma attach_again r v w w1 : counted_refs w -> counted_refs w1 -> same_cells w w1 -> refs w1 = <[r := None]> (refs w) ->
  is_Some (refs w !! r) -> target v w -> exists w', newref r v w1 = Ret tt w' /\ counted_refs w'.
Proof.
  intros Hw H1 Hs Hr Hsome Hv. destruct (attach_ok r v w1 H1) as (w' & E & Hw' & _).
  - right. by rewrite Hr, lookup_insert_eq.
  - by eapply same_target.
  - rewrite Hr, insert_insert_eq, size_same_key by done. apply Hw.
  - by exists w'.
Qed.

(** [C27] Reference counts are exact: with references that are taken and given back through their
    own operations, and pointers that end when their count is 0, every operation is defined,
    and afterwards again the count of every pointer is the number of references to it and no
    reference leads to a pointer that has ended. *)
Theorem counts_are_exact o w :
  counted_refs w -> allowed o w -> exists w', pop_run o w = Ret tt w' /\ counted_refs w'.
Proof.
  intros Hw Ha. destruct o as [sp v|r v|r|r o|r o|r v|r|sp]; cbn [pop_run allowed] in *.
  - destruct Ha as [Hsp Hv]. eexists. split; [reflexivity|].
    assert (forall r, refs w !! r <> Some (Some sp)) as Hno by (intros r E; destruct (p_there w Hw r sp E); congruence).
    unfold put_cells. split; cbn; [| | |apply Hw].
    + intros sp' c [[<- <-]|[Hne E]]%lookup_insert_Some; [by rewrite refcount_zero|by apply (p_count w Hw)].
    + intros r sp' E. destruct (decide (sp = sp')) as [<-|Hne]; [rewrite lookup_insert_eq; by eexists|].
      rewrite lookup_insert_ne by done. by eapply (p_there w Hw).
    + intros sp' c x [[<- <-]|[Hne E]]%lookup_insert_Some Ex; cbn in Ex; subst.
      * destruct Hv as [Hx Hu]. split; [done|]. intros sp' c' [[<- _]|[_ E]]%lookup_insert_Some Ex; [done|]. by destruct (Hu sp' c').
      * destruct (p_value w Hw sp' c x E Ex) as [Hx Hu]. split; [done|].
        intros sp2 c2 [[<- <-]|[_ E2]]%lookup_insert_Some Ex2; [cbn in Ex2; subst; by destruct (proj2 Hv sp' c)|by apply (Hu sp2 c2)].
  - destruct Ha as (Hr & Hv & Hz). by apply (attach_new r v w).
  - destruct (unref_ok r w Hw Ha) as (w' & E & Hw' & _). by exists w'.
  - destruct Ha as (Hr & [v Ho] & Hz). unfold sref_copy, get_ref, mbind_ at 1. rewrite Ho. apply (attach_new r v w); try done.
    destruct v as [sp|]; [by eapply (p_there w Hw)|done].
  - destruct Ha as (Hr & [v Ho]). unfold sref_assign. destruct (Z.eqb_spec r o) as [->|Hne]; [by exists w|].
    destruct (unref_ok r w Hw Hr) as (w1 & E1 & H1 & Hs & Er). rewrite (bind_ret _ _ _ _ _ E1).
    assert (refs w1 !! o = Some v) as Ho1 by (by rewrite Er, lookup_insert_ne).
    unfold get_ref, mbind_ at 1. rewrite Ho1. apply (attach_again r v w w1); try done.
    destruct v as [sp|]; [by eapply (p_there w Hw)|done].
  - destruct Ha as [Hr Hv]. unfold ref. destruct (unref_ok r w Hw Hr) as (w1 & E1 & H1 & Hs & Er).
    rewrite (bind_ret _ _ _ _ _ E1). by apply (attach_again r v w w1).
  - unfold sref_delete. destruct (unref_ok r w Hw Ha) as (w1 & E1 & H1 & Hs & Er). rewrite (bind_ret _ _ _ _ _ E1).
    eexists. split; [reflexivity|]. assert (refs w1 !! r = Some None) as Hn by (by rewrite Er, lookup_insert_eq).
    unfold put_refs. split; cbn; [| |apply H1|].
    + intros sp c E. rewrite refcount_delete by done. by apply (p_count w1 H1).
    + intros r' sp [_ E]%lookup_delete_Some. by eapply (p_there w1 H1).
    + pose proof (p_size w1 H1). rewrite map_size_delete_Some by (by eexists). lia.
  - destruct Ha as (c & Ec & H0). unfold spointer_delete, with_cell, mbind_, delete_value, modify. rewrite Ec.
    assert (forall r, refs w !! r <> Some (Some sp)) as Hno.
    { intros r E. pose proof (refcount_pos sp r _ E). rewrite <- (p_count w Hw sp c Ec) in *. lia. }
    assert (forall h, (forall sp' c' v, sp' <> sp -> cells w !! sp' = Some c' -> pointer_ c' = Some v -> v ∈ h) ->
              counted_refs (mkPointers (delete sp (cells w)) (refs w) h)) as Hend.
    { intros h Hh. split; cbn; [| | |apply Hw].
      - intros sp' c' [_ E]%lookup_delete_Some. by apply (p_count w Hw).
      - intros r sp' E. rewrite lookup_delete_ne by (intros ->; by apply (Hno r)). by eapply (p_there w Hw).
      - intros sp' c' v [Hne E]%lookup_delete_Some Ev. destruct (p_value w Hw sp' c' v E Ev) as [Hv Hu]. split.
        + by eapply Hh.
        + intros sp2 c2 [_ E2]%lookup_delete_Some. by apply Hu. }
    destruct (pointer_ c) as [v|] eqn:Ev.
    + destruct (p_value w Hw sp c v Ec Ev) as [Hv Hu]. rewrite decide_True by done. eexists. split; [reflexivity|]. apply Hend.
      intros sp' c' x Hne E Ex. cbn. apply elem_of_difference. split; [by destruct (p_value w Hw sp' c' x E Ex)|].
      intros ->%elem_of_singleton. by apply Hne, (Hu sp' c').
    + eexists. split; [reflexivity|]. apply Hend. intros sp' c' x _ E Ex. by destruct (p_value w Hw sp' c' x E Ex).
Qed.

(** One pointer to the value 7, two references, and a copy of one of them. *)
Definition two_refs : pointers := mkPointers {[1 := mkCell (Some 7) 2]} {[10 := Some 1; 11 := Some 1]} {[7]}.
Lemma counts_are_exact_witness : exists w', pop_run (Copy 12 10) two_refs = Ret tt w' /\ counted_refs w' /\ cells w' !! 1 = Some (mkCell (Some 7) 3).
Proof.
  assert (forall sp c, cells two_refs !! sp = Some c -> 1 = sp /\ mkCell (Some 7) 2 = c) as Hone.
  { intros sp c H. by apply lookup_singleton_Some. }
  assert (counted_refs two_refs) as Hw.
  { split; [| | |done].
    - intros sp c H. apply Hone in H as [<- <-]. reflexivity.
    - intros r sp H. unfold two_refs in H. cbn in H.
      apply lookup_insert_Some in H as [[_ [= <-]]|[_ [_ [= <-]]%lookup_singleton_Some]]; by eexists.
    - intros sp c v H Ev. apply Hone in H as [<- <-]. injection Ev as <-.
      split; [change (7 ∈ ({[7]} : gset Z)); by apply elem_of_singleton|]. intros sp' c' H _. by apply Hone in H as [<- _]. }
  destruct (counts_are_exact (Copy 12 10) two_refs Hw) as (w' & E & Hw'); [split; [done|]; split; [by eexists|done]|].
  exists w'. split; [exact E|]. split; [exact Hw'|]. injection E as <-. reflexivity.
Defined.

(** [newref] on a reference that is in use leaves the old pointer a count too high. *)
Example newref_leaks_count :
  match newref 10 None two_refs with Ret _ w => cells w !! 1 = Some (mkCell (Some 7) 2) /\ refcount 1 (refs w) = 1 | _ => False end.
Proof. split; reflexivity. Qed.
(** Invalidating a pointer forgets its references, which then give back those of later ones. *)
Example stale_reference_takes_count :
  match (invalidate 1 ;;; sref_new 12 (Some 1) ;;; unref 10) two_refs with
  | Ret _ w => cells w !! 1 = Some (mkCell None 0) /\ refs w !! 12 = Some (Some 1) | _ => False end.
Proof. split; reflexivity. Qed.

(** ** Owners *)

(** After an assignment both owners delete the same value. *)
Example lax_assignment_deletes_twice :
  (o <- lax_assign (mkOwner 5 true) (mkOwner 6 true) ;; lax_end o ;;; lax_end (mkOwner 5 true)) [] = Ret tt [6; 5; 5].
Proof. reflexivity. Qed.
(** Another object at the address of the last cast is taken for that one. *)
Example cast_of_reused_address : fst (cached_cast (fun _ => None) 4096 (4096, Some 4096)) = Some 4096.
Proof. reflexivity. Qed.

Lemma sides_back s : to_side (from_side s) = s.
Proof. by destruct s. Qed.

(** ** Peers *)

Inductive peer_op : Type := NewPeering (p o : Z) | Attach (p q : Z) | Detach (p : Z) | EndPeering (p : Z).
Definition peer_run (o : peer_op) : M peers unit :=
  match o with
  | NewPeering p o => peering_new p o | Attach p q => peering_attach p q | Detach p => peering_detach p | EndPeering p => peering_delete p
  end.

(** The states a program reaches that makes peerings anew and uses those that are there. *)
Inductive peers_reach : peers -> Prop :=
| peers_start : peers_reach (mkPeers ∅ ∅ ∅ 0)
| peers_step w o w' : peers_reach w ->
    match o with NewPeering p _ => peer_ w !! p = None | _ => True end ->
    peer_run o w = Ret tt w' -> peers_reach w'.

(** Every half that is there is held by a peering, whose owner it names; numbers are new. *)
Record held_halves (w : peers) : Prop := {
  h_held : forall k x, halves w !! k = Some x -> exists p, peer_ w !! p = Some (Some k) /\ owner_of w !! p = Some (self x);
  h_next : forall p k, peer_ w !! p = Some (Some k) -> k < next_half w;
  h_owner : forall p, is_Some (peer_ w !! p) -> is_Some (owner_of w !! p)
}.

Lemma set_other_held h o w : held_halves w -> exists w', set_other h o w = Ret tt w' /\ held_halves w'.
Proof.
  intros Hw. unfold set_other, modify. eexists. split; [reflexivity|]. destruct (halves w !! h) as [x|] eqn:E; [|done].
  unfold put_halves. split; cbn; [|apply Hw|apply Hw].
  intros k y [[<- <-]|[_ Ey]]%lookup_insert_Some; [exact (h_held w Hw h x E)|exact (h_held w Hw k y Ey)].
Qed.

Lemma get_half_held p w k w' : held_halves w -> get_half p w = Ret k w' -> held_halves w'.
Proof.
  intros Hw E. unfold get_half in E. destruct (peer_ w !! p) as [[h|]|] eqn:Ep; [by injection E as <- <-| |done].
  destruct (owner_of w !! p) as [o|] eqn:Eo; [|done]. injection E as <- <-. split; cbn.
  - intros k x [[<- <-]|[Hne Ex]]%lookup_insert_Some.
    + exists p. by rewrite lookup_insert_eq.
    + destruct (h_held w Hw k x Ex) as (q & Eq & Ho). exists q. rewrite lookup_insert_ne; [done|]. intros <-. congruence.
  - intros q k [[<- [= <-]]|[_ Eq]]%lookup_insert_Some; [lia|]. pose proof (h_next w Hw q k Eq). lia.
  - intros q [x Hq]. destruct (decide (p = q)) as [<-|Hne]; [by eexists|]. rewrite lookup_insert_ne in Hq by done.
    apply (h_owner w Hw q). by eexists.
Qed.

Lemma peers_held w : peers_reach w -> held_halves w.
Proof.
  induction 1 as [|w o w' _ Hw Hok E]; [split; cbn; intros *; rewrite ?lookup_empty; try done; by intros [? ?]|].
  destruct o as [p ow|p q|p|p]; cbn [peer_run] in E.
  - injection E as <-. split; cbn.
    + intros k x Ex. destruct (h_held w Hw k x Ex) as (q & Eq & Ho). exists q.
      assert (p <> q) by (intros <-; congruence). by rewrite !lookup_insert_ne.
    + intros q k [[_ ?]|[_ Eq]]%lookup_insert_Some; [done|]. by eapply (h_next w Hw).
    + intros q Hq. destruct (decide (p = q)) as [<-|Hne]; [rewrite lookup_insert_eq; by eexists|].
      rewrite lookup_insert_ne in Hq by done. rewrite lookup_insert_ne by done. by apply (h_owner w Hw).
  - unfold peering_attach in E. apply bind_inv in E as (a & w1 & E1 & E). apply bind_inv in E as (b & w2 & E2 & E).
    pose proof (get_half_held _ _ _ _ (get_half_held _ _ _ _ Hw E1) E2) as H2.
    destruct (set_other_held a (Some b) w2 H2) as (w3 & E3 & H3). congruence.
  - unfold peering_detach in E. apply bind_inv in E as (h & w1 & E1 & E). unfold fetch in E1.
    destruct (peer_ w !! p) as [h'|]; [|done]. injection E1 as <- <-. destruct h' as [h'|]; [|by injection E as <-].
    destruct (set_other_held h' None w Hw) as (w3 & E3 & H3). congruence.
  - unfold peering_delete in E. apply bind_inv in E as ([] & w1 & E1 & E).
    assert (held_halves w1 /\ peer_ w1 = peer_ w) as [H1 _].
    { unfold peering_detach in E1. apply bind_inv in E1 as (h & wx & Ex & E1). unfold fetch in Ex.
      destruct (peer_ w !! p) as [h'|]; [|done]. injection Ex as <- <-. destruct h' as [h'|]; [|by injection E1 as <-].
      destruct (set_other_held h' None w Hw) as (w3 & E3 & H3). assert (w3 = w1) as <- by congruence. split; [done|].
      unfold set_other, modify in E3. injection E3 as <-. by case_match. }
    apply bind_inv in E as (h & w2 & E2 & E). unfold fetch in E2. destruct (peer_ w1 !! p) as [h'|] eqn:Ep; [|done].
    injection E2 as <- <-. injection E as <-. split; cbn.
    + intros k x Ex. assert (halves w1 !! k = Some x /\ h' <> Some k) as [Ex1 Hne].
      { destruct h' as [h'|]; [|done]. apply lookup_delete_Some in Ex as [? ?]. split; [done|congruence]. }
      destruct (h_held w1 H1 k x Ex1) as (q & Eq & Ho). exists q. assert (p <> q) by (intros <-; congruence).
      by rewrite !lookup_delete_ne.
    + intros q k [_ Eq]%lookup_delete_Some. by eapply (h_next w1 H1).
    + intros q Hq. destruct (decide (p = q)) as [<-|Hne]; [rewrite lookup_delete_eq in Hq; by destruct Hq|].
      rewrite lookup_delete_ne in Hq by done. rewrite lookup_delete_ne by done. by apply (h_owner w1 H1).
Qed.

(** A peer is never a dangling one: whatever peerings are made, attached, detached and ended, the
    owner [peer] answers is the owner of a peering that is still there. *)
Theorem peer_is_alive w p w' o :
  peers_reach w -> peering_peer p w = Ret (Some o) w' -> exists q k, peer_ w !! q = Some (Some k) /\ owner_of w !! q = Some o.
Proof.
  intros Hr E. unfold peering_peer in E. apply bind_inv in E as (f & w1 & E1 & E). unfold fetch in E1.
  destruct (peer_ w !! p) as [h|]; [|done]. injection E1 as <- <-. destruct h as [h|]; [|done]. injection E as E _.
  destruct (halves w !! h) as [x|]; [|done]. cbn in E. destruct (other x) as [k|]; [|done]. cbn in E.
  destruct (halves w !! k) as [y|] eqn:Ey; [|done]. cbn in E. injection E as <-.
  destruct (h_held w (peers_held w Hr) k y Ey) as (q & Eq & Ho). by exists q, k.
Qed.

(** Two that are attached; then one ends. *)
Definition peer_after (o : peer_op) (w : peers) : peers := match peer_run o w with Ret _ w' => w' | _ => w end.
Definition two_peerings : peers := peer_after (NewPeering 2 200) (peer_after (NewPeering 1 100) (mkPeers ∅ ∅ ∅ 0)).
Definition attached_peers : peers := peer_after (Attach 1 2) two_peerings.
Lemma attached_reach : peers_reach attached_peers.
Proof.
  apply (peers_step two_peerings (Attach 1 2)); [|exact I|reflexivity].
  apply (peers_step (peer_after (NewPeering 1 100) (mkPeers ∅ ∅ ∅ 0)) (NewPeering 2 200)); [|reflexivity|reflexivity].
  apply (peers_step (mkPeers ∅ ∅ ∅ 0) (NewPeering 1 100)); [apply peers_start|reflexivity|reflexivity].
Qed.
Lemma peer_is_alive_witness :
  peering_peer 1 attached_peers = Ret (Some 200) attached_peers /\
  (exists q k, peer_ attached_peers !! q = Some (Some k) /\ owner_of attached_peers !! q = Some 200) /\
  match (peering_delete 2 ;;; peering_peer 1) attached_peers with Ret o _ => o = None | _ => False end.
Proof.
  split; [reflexivity|]. split; [|reflexivity]. apply (peer_is_alive attached_peers 1 attached_peers 200); [apply attached_reach|reflexivity].
Defined.

(** Attaching goes one way. *)
Example attach_is_one_way : peering_peer 2 attached_peers = Ret None attached_peers.
Proof. reflexivity. Qed.

(** One object is made, another one, and the first is deleted. *)
Definition after_new (this now : Z) (r : registry) : registry := match sobject_new this now r with Ret _ r' => r' | _ => r end.
Definition after_delete (this now : Z) (r : registry) : registry := match sobject_delete this now r with Ret _ r' => r' | _ => r end.
Definition some_objects : registry := after_delete 1 9 (after_new 2 8 (after_new 1 7 (new_registry 0))).
Lemma database_is_live_set_witness :
  reach some_objects [nth_oid 1; nth_oid 0] /\ oid_db_ some_objects !! nth_oid 1 = Some 2 /\
  (oid_db_ some_objects !! nth_oid 1 = Some 2 <-> oid_of some_objects !! 2 = Some (nth_oid 1)).
Proof.
  assert (reach some_objects [nth_oid 1; nth_oid 0]) as Hr.
  { apply (reach_delete (after_new 2 8 (after_new 1 7 (new_registry 0))) _ 1 9); [|reflexivity].
    apply (reach_new (after_new 1 7 (new_registry 0)) _ 2 8); [|reflexivity|reflexivity].
    apply (reach_new (new_registry 0) _ 1 7); [apply reach_start|reflexivity|reflexivity]. }
  destruct (database_is_live_set some_objects _ Hr) as (_ & H & _); [reflexivity|].
  split; [exact Hr|]. split; [reflexivity|]. apply H.
Defined.
