(* ===== verification/TlsServer.v ===== *)
(** * TlsServer: the accepting TLS com, its reports and its key exchange (sslcom.tpp, sslcom.cpp, sslcom_dh.cpp)

    What a com does with a socket that was accepted, what the callbacks of OpenSSL report of
    alerts and of certificates, with the text made of a certificate (sslcertstore.cpp), and the
    parameters of the key exchange for libraries before OpenSSL 3. *)

From S2P Require Import TextProps ComSock Udp LogProps Codec CertStore.
From S2P Require Export Tls.

(** ** Accepting a socket *)

(** The call of OpenSSL that [accept_socket] adds to those of [SslLib]. *)
Class AcceptLib {SL : SslLib} : Type := { DTLSv1_listen : sslw -> Z * sslw }.

Section accept.
Context `{EpollKernel} {SL : SslLib} {AL : AcceptLib} {IN : Inet} {SK : SockSys} {PS : PeerSys} {US : UdpSys}.

(** The com below, [L4Proto]: a TCP com, with what it knows of where the connection was meant to go,
    or a UDP com with its pools; and the system. *)
Inductive transport : Type := OverTcp (d : dst) (k : sk) | OverUdp (u : uworld).

Record aworld : Type := mkAw { a_tls : tworld; a_l4 : transport }.

Definition l4_sys (t : transport) : sk := match t with OverTcp _ k => k | OverUdp u => usys u end.
Definition put_sys (k : sk) (t : transport) : transport :=
  match t with OverTcp d _ => OverTcp d k | OverUdp u =>
      OverUdp (mkU (datagrams_received u) (in_virt_set u) (conns u) (ucom u) (closed u) k) end.

Definition in_tls {A} (m : M tworld A) : M aworld A := fun w =>
  match m (a_tls w) with
  | Ret a t => Ret a (mkAw t (a_l4 w))
  | Throw e t => Throw e (mkAw t (a_l4 w))
  | Undef => Undef
  end.
Definition in_sys {A} (m : M sk A) : M aworld A := fun w =>
  match m (l4_sys (a_l4 w)) with
  | Ret a s => Ret a (mkAw (a_tls w) (put_sys s (a_l4 w)))
  | Throw e s => Throw e (mkAw (a_tls w) (put_sys s (a_l4 w)))
  | Undef => Undef
  end.

(** [TCPCom::on_new_socket], and [baseCom::on_new_socket] for the other, which does nothing. *)
Definition on_new_socket (fd : Z) : M aworld unit :=
  t <- gets a_l4 ;;
  match t with
  | OverTcp _ _ =>
      if 0 <=? fd then in_sys (so_nodelay fd) ;;; in_sys (so_quickack fd) ;;; mret_ tt else mret_ tt
  | OverUdp _ => mret_ tt
  end.

(** [baseCom::accept_socket]: a com that goes where the connection was meant to go finds out where
    that is, the UDP com with a [resolve_socket] of its own. *)
Definition l4_accept_socket (fd : Z) : M aworld unit := fun w =>
  match a_l4 w with
  | OverTcp d k =>
      Ret tt (mkAw (a_tls w)
        (OverTcp (if nonlocal_dst_ d then base_resolve_nonlocal_dst_socket us_stack fd k d else d) k))
  | OverUdp u =>
      if nonlocal_dst (ucom u) then
        match resolve_nonlocal_dst_socket fd u with
        | Ret _ u => Ret tt (mkAw (a_tls w) (OverUdp u))
        | Throw e u => Throw e (mkAw (a_tls w) (OverUdp u))
        | Undef => Undef
        end
      else Ret tt w
  end.

(** The pool of early datagrams, when this is a UDP com. *)
Definition a_pool (w : aworld) : option (gmap Z Datagram) :=
  match a_l4 w with OverUdp u => Some (datagrams_received u) | OverTcp _ _ => None end.

(** The key under which [find(sockfd)] looks: the [int] is widened with its sign. *)
Definition pool_key (sockfd : Z) : Z := u64 sockfd.

(** A real socket for a virtual one, which is meant to have the addresses of its datagrams. *)
Definition accept_virtual (sockfd : Z) : M aworld unit :=
  pool <- gets a_pool ;;
  match pool with
  | None => mret_ tt
  | Some pool =>
      match pool !! pool_key sockfd with
      | None => mret_ tt
      | Some record =>
          let family := ss_family (dg_dst record) in
          fd <- in_sys (syscall (sk_socket family SOCK_DGRAM IPPROTO_UDP)) ;;
          in_tls (set_socket fd) ;;;
          if 0 <? fd then
            (if (family =? AF_INET) || (family =? AF_INET6) || (family =? AF_UNSPEC)
             then in_sys (so_transparent_v4 sockfd) ;;; mret_ tt else mret_ tt) ;;;
            (if family =? AF_INET6 then in_sys (so_transparent_v6 sockfd) ;;; mret_ tt else mret_ tt) ;;;
            in_sys (syscall (sk_connect fd (dg_src record))) ;;;
            in_sys (syscall (sk_bind fd (dg_dst record))) ;;;
            mret_ tt
          else in_tls (on_me (com_error ERROR_SOCKET))
      end
  end.

(** The first attempt of the handshake. *)
Definition accept_handshake : M tworld unit :=
  r <- ssl_ret SSL_accept ;;
  when (0 <? r)
    (on_me (tick prof_accept_ok) ;;;
     on_me (put_waiting false) ;;;
     force_rw ;;;
     reused <- ssl_ask SSL_session_reused ;;
     when reused (on_me (put_hsk_reused true))) ;;;
  on_me (tick prof_accept_cnt).

(** A datagram com first waits for a ClientHello with a cookie. *)
Definition accept_listen : M tworld unit :=
  proto <- mine s_l4_proto ;;
  if proto =? SOCK_DGRAM then
    r <- ssl_call DTLSv1_listen ;;
    if r =? 0 then mret_ tt else accept_handshake
  else accept_handshake.

Definition accept_socket (sockfd : Z) : M aworld unit :=
  on_new_socket sockfd ;;;
  l4_accept_socket sockfd ;;;
  proto <- in_tls (mine s_l4_proto) ;;
  when ((proto =? SOCK_DGRAM) && (sockfd <? 0)) (accept_virtual sockfd) ;;;
  in_tls (upgrade_server_socket sockfd) ;;;
  bypass <- in_tls (mine s_bypass) ;;
  if bypass : bool then in_tls (on_me (tick prof_accept_bypass_cnt))
  else in_tls accept_listen.

(** A socket that waits for its other side is only remembered. *)
Definition delay_socket (sockfd : Z) : M tworld unit := set_socket sockfd.
End accept.

(** ** Parameters of the key exchange

    For libraries before OpenSSL 3, which take them by callback. A group is its prime, as the
    bytes handed to [BN_bin2bn], and its generator; the texts are the published form each
    function has behind it. *)

Record dh : Type := mkDh { dh_p : bytes; dh_g : bytes }.

Definition get_dh512 : dh := mkDh [
  0xE1; 0x5A; 0xAF; 0x8D; 0xDF; 0x2E; 0xAB; 0x2B; 0x6B; 0xD3; 0x9D; 0x2B; 0xB7; 0x03; 0x81; 0x0A; 0x04; 0xD3;
  0x6A; 0x8F; 0xE6; 0x09; 0xC2; 0x92; 0x1F; 0x70; 0x79; 0x78; 0x1D; 0xB0; 0x54; 0xC6; 0x9C; 0x66; 0x16; 0xFC;
  0x71; 0xB2; 0x64; 0x84; 0xB3; 0xBD; 0x7D; 0x2A; 0x24; 0x9E; 0x80; 0x0E; 0xA7; 0xCB; 0xF8; 0xDF; 0xA8; 0xDF;
  0x00; 0x69; 0x98; 0x5E; 0x89; 0x19; 0xE2; 0xA2; 0xF7; 0x1B] [0x02].
Definition pem_dh512 : bytes :=
  text "MEYCQQDhWq+N3y6rK2vTnSu3A4EKBNNqj+YJwpIfcHl4HbBUxpxmFvxxsmSEs719" ++
  text "KiSegA6ny/jfqN8AaZheiRniovcbAgEC".
Definition get_dh768 : dh := mkDh [
  0xA7; 0x08; 0xCF; 0xD7; 0x88; 0x9F; 0x70; 0x67; 0xD8; 0x81; 0xF4; 0x6F; 0x34; 0xD2; 0x25; 0x29; 0xA7; 0xF2;
  0x55; 0x12; 0xE5; 0x69; 0x1A; 0x4B; 0x7C; 0xD9; 0x1A; 0xC9; 0x38; 0xC0; 0x77; 0x58; 0xEF; 0xEF; 0x83; 0xE0;
  0x5B; 0x21; 0xAA; 0x59; 0x6D; 0x3A; 0x19; 0x7B; 0x07; 0x99; 0xC6; 0x96; 0x10; 0x78; 0x53; 0x8B; 0x05; 0xFC;
  0x24; 0xFA; 0x3D; 0xB2; 0xE8; 0xF6; 0xA4; 0xDC; 0x7F; 0xD1; 0x18; 0x7C; 0x88; 0x54; 0xFD; 0x58; 0x27; 0x6C;
  0x8E; 0x95; 0x5B; 0x50; 0xA2; 0x9C; 0x14; 0xAF; 0xBA; 0xDE; 0xCC; 0xF1; 0x91; 0xFA; 0xFF; 0xE3; 0x0E; 0xDA;
  0x27; 0x3F; 0xE2; 0x46; 0xFB; 0xE3] [0x02].
Definition pem_dh768 : bytes :=
  text "MGYCYQCnCM/XiJ9wZ9iB9G800iUpp/JVEuVpGkt82RrJOMB3WO/vg+BbIapZbToZ" ++
  text "eweZxpYQeFOLBfwk+j2y6Pak3H/RGHyIVP1YJ2yOlVtQopwUr7rezPGR+v/jDton" ++
  text "P+JG++MCAQI=".
Definition get_dh1024 : dh := mkDh [
  0x9F; 0x79; 0x24; 0x87; 0x4E; 0x9E; 0xDC; 0x1E; 0xDC; 0x3B; 0x45; 0xAB; 0x30; 0x9C; 0x40; 0xCA; 0xDC; 0x4A;
  0x42; 0xB0; 0x57; 0x84; 0xBC; 0xE1; 0xB5; 0x36; 0x2D; 0x46; 0x5E; 0xBE; 0x8E; 0xD0; 0xB8; 0x20; 0x3F; 0x6B;
  0x17; 0x64; 0xFD; 0xD3; 0xC0; 0x60; 0x08; 0x2E; 0xC9; 0x4B; 0x94; 0x56; 0x38; 0x51; 0x97; 0x0C; 0x27; 0x89;
  0x44; 0x13; 0xA6; 0xB1; 0x41; 0xA9; 0xB3; 0x1A; 0x63; 0x4C; 0x13; 0xC4; 0xAD; 0xB2; 0xFC; 0x57; 0x6A; 0x39;
  0x6D; 0x37; 0x0D; 0x6D; 0x45; 0x0F; 0x1B; 0x40; 0xFD; 0xC3; 0xC5; 0x11; 0xD6; 0x73; 0x88; 0x49; 0xB9; 0x1D;
  0x46; 0xCE; 0x56; 0x1A; 0xEC; 0xD2; 0x4C; 0x7F; 0xB8; 0x0F; 0x20; 0xEA; 0x4E; 0x66; 0x8C; 0xB2; 0x93; 0xCB;
  0xCD; 0x17; 0x3D; 0x8E; 0xA0; 0xEB; 0x98; 0x6B; 0xC8; 0x43; 0xDC; 0x45; 0xE9; 0x75; 0x5E; 0x73; 0xC0; 0x8A;
  0x4A; 0x7B] [0x02].
Definition pem_dh1024 : bytes :=
  text "MIGHAoGBAJ95JIdOntwe3DtFqzCcQMrcSkKwV4S84bU2LUZevo7QuCA/axdk/dPA" ++
  text "YAguyUuUVjhRlwwniUQTprFBqbMaY0wTxK2y/FdqOW03DW1FDxtA/cPFEdZziEm5" ++
  text "HUbOVhrs0kx/uA8g6k5mjLKTy80XPY6g65hryEPcRel1XnPAikp7AgEC".
Definition get_dh1536 : dh := mkDh [
  0x9A; 0xA6; 0xDB; 0x93; 0x5C; 0x29; 0x3D; 0x51; 0x12; 0x04; 0xDD; 0x41; 0x72; 0xDA; 0x54; 0xB4; 0x21; 0x76;
  0xF1; 0xBD; 0xB8; 0x35; 0xDA; 0x5E; 0xD8; 0x38; 0x73; 0x34; 0x8F; 0xA6; 0x2A; 0x38; 0x99; 0x52; 0xF8; 0x4A;
  0xE4; 0x15; 0x19; 0x4A; 0x69; 0x5E; 0xA3; 0x73; 0x51; 0xB1; 0x90; 0x97; 0x62; 0xCF; 0xF7; 0x76; 0x07; 0x89;
  0x2E; 0xB6; 0xD3; 0x71; 0x7B; 0xE2; 0x32; 0x90; 0xA9; 0xF1; 0x2A; 0x37; 0x6B; 0xFB; 0xF9; 0x7A; 0xD8; 0x56;
  0xB3; 0xE0; 0x5C; 0x7C; 0xAD; 0xE3; 0x4B; 0x9B; 0x7C; 0xEE; 0x3C; 0xF9; 0xEE; 0xC7; 0xFF; 0xD1; 0x26; 0x1F;
  0x8F; 0xE0; 0x9B; 0x11; 0x53; 0x75; 0x2E; 0x4E; 0xED; 0x48; 0x52; 0xAD; 0x73; 0x8D; 0xBD; 0x35; 0xFB; 0xE0;
  0xD4; 0x8E; 0xAB; 0xAE; 0xFA; 0xAE; 0x33; 0xB7; 0xB9; 0x56; 0xAB; 0x6B; 0xBE; 0x59; 0xDA; 0x7E; 0x55; 0x2A;
  0x0F; 0xFC; 0x5E; 0xEC; 0x54; 0xE9; 0x3C; 0x3A; 0x61; 0x48; 0x03; 0x18; 0xCF; 0x47; 0x55; 0x2B; 0x03; 0xE4;
  0x1B; 0xF3; 0xD7; 0x5D; 0x5E; 0x66; 0x53; 0xF8; 0xD7; 0xD0; 0x18; 0x27; 0x4F; 0x30; 0xB6; 0x3D; 0xA1; 0x69;
  0x6C; 0xA5; 0xBA; 0x0A; 0x2E; 0xB6; 0x21; 0xFC; 0x77; 0x2C; 0xD4; 0xD0; 0x6E; 0x13; 0x4C; 0xEF; 0x03; 0x84;
  0x2E; 0xC1; 0x79; 0x92; 0xAC; 0x3C; 0x4C; 0x96; 0xB8; 0xF8; 0x85; 0xEB] [0x02].
Definition pem_dh1536 : bytes :=
  text "MIHHAoHBAJqm25NcKT1REgTdQXLaVLQhdvG9uDXaXtg4czSPpio4mVL4SuQVGUpp" ++
  text "XqNzUbGQl2LP93YHiS6203F74jKQqfEqN2v7+XrYVrPgXHyt40ubfO48+e7H/9Em" ++
  text "H4/gmxFTdS5O7UhSrXONvTX74NSOq676rjO3uVara75Z2n5VKg/8XuxU6Tw6YUgD" ++
  text "GM9HVSsD5Bvz111eZlP419AYJ08wtj2haWylugoutiH8dyzU0G4TTO8DhC7BeZKs" ++
  text "PEyWuPiF6wIBAg==".
Definition get_dh2048 : dh := mkDh [
  0x93; 0x04; 0x46; 0x1C; 0xB5; 0x0B; 0x33; 0x36; 0x8E; 0x4B; 0xE1; 0x5E; 0x2B; 0x1A; 0xD5; 0xA5; 0x1F; 0x0B;
  0x79; 0xFC; 0xB0; 0x6C; 0x7D; 0x75; 0x85; 0xBA; 0xFB; 0x67; 0x5D; 0x61; 0xFD; 0x86; 0x33; 0x28; 0xFE; 0xB1;
  0x97; 0xE1; 0xF2; 0xA0; 0x4A; 0x51; 0xFC; 0x93; 0xED; 0x04; 0x4F; 0xFC; 0x81; 0x01; 0xBC; 0x7F; 0x71; 0x8A;
  0x9C; 0x5A; 0xD3; 0x8C; 0x88; 0x12; 0xA5; 0x19; 0xE1; 0x29; 0x79; 0xBF; 0x88; 0x07; 0xB0; 0xE7; 0x32; 0x8D;
  0x0D; 0xE0; 0x3F; 0xE0; 0x26; 0xA2; 0xB2; 0xC0; 0xB1; 0x0D; 0xA4; 0xFE; 0x30; 0xB0; 0x35; 0x1A; 0x7B; 0xE7;
  0x99; 0xF3; 0x26; 0xB4; 0xA5; 0x9B; 0x46; 0xFC; 0xB1; 0xC8; 0xFB; 0x8A; 0xF5; 0x40; 0x4C; 0x31; 0x06; 0x60;
  0x94; 0xA9; 0xE3; 0xD8; 0x88; 0xFE; 0x64; 0x6B; 0xEF; 0xA6; 0xB2; 0x8A; 0x12; 0x23; 0x07; 0x35; 0xBD; 0x87;
  0xC3; 0x7A; 0xC8; 0x81; 0xB6; 0xC2; 0x88; 0x66; 0xC2; 0xE0; 0x95; 0xB1; 0x28; 0x5C; 0x8E; 0x41; 0x92; 0x9C;
  0x9B; 0x92; 0xEA; 0x2D; 0x76; 0x31; 0x1A; 0x1E; 0x17; 0xF2; 0xE3; 0x2F; 0x5B; 0x14; 0x80; 0x1B; 0x3F; 0x81;
  0x52; 0x1B; 0x79; 0xB0; 0x40; 0xF0; 0x48; 0x83; 0x8E; 0xA2; 0xCD; 0x42; 0x37; 0xFE; 0xF5; 0x54; 0xB7; 0xBB;
  0x6D; 0xE3; 0xA2; 0x8E; 0x66; 0xC8; 0x26; 0x97; 0x3A; 0x52; 0xA4; 0x08; 0xF3; 0xF1; 0x61; 0x1F; 0xDE; 0xF9;
  0xB5; 0xC5; 0x19; 0x7B; 0xAA; 0x12; 0xA8; 0xC3; 0x0E; 0xFD; 0x26; 0xD6; 0x08; 0x17; 0xF2; 0x11; 0x4D; 0xCF;
  0xD5; 0xDA; 0xB5; 0x7C; 0x7B; 0x12; 0xAB; 0x64; 0xB5; 0x58; 0xB4; 0x47; 0x00; 0x95; 0x3B; 0xC8; 0x51; 0x39;
  0xB6; 0xE7; 0x6B; 0x55; 0xCE; 0x55; 0xC2; 0xBE; 0x8B; 0x41; 0x62; 0x97; 0x67; 0x0C; 0xEA; 0x2A; 0x30; 0xB8;
  0xC5; 0xDE; 0xB8; 0x4B] [0x02].
Definition pem_dh2048 : bytes :=
  text "MIIBCAKCAQEAkwRGHLULMzaOS+FeKxrVpR8LefywbH11hbr7Z11h/YYzKP6xl+Hy" ++
  text "oEpR/JPtBE/8gQG8f3GKnFrTjIgSpRnhKXm/iAew5zKNDeA/4CaissCxDaT+MLA1" ++
  text "GnvnmfMmtKWbRvyxyPuK9UBMMQZglKnj2Ij+ZGvvprKKEiMHNb2Hw3rIgbbCiGbC" ++
  text "4JWxKFyOQZKcm5LqLXYxGh4X8uMvWxSAGz+BUht5sEDwSIOOos1CN/71VLe7beOi" ++
  text "jmbIJpc6UqQI8/FhH975tcUZe6oSqMMO/SbWCBfyEU3P1dq1fHsSq2S1WLRHAJU7" ++
  text "yFE5tudrVc5Vwr6LQWKXZwzqKjC4xd64SwIBAg==".
Definition get_dh3072 : dh := mkDh [
  0xDA; 0xD6; 0xB8; 0xE6; 0x49; 0x45; 0xC1; 0xFA; 0xE7; 0x13; 0x2B; 0xAC; 0x63; 0x63; 0x32; 0x2F; 0x72; 0x35;
  0xF9; 0x11; 0x20; 0x2B; 0x7F; 0xCD; 0x9A; 0x13; 0x1F; 0x2B; 0x2B; 0x82; 0x89; 0xE4; 0x16; 0x4E; 0xD2; 0x63;
  0x2F; 0x7A; 0xA4; 0xE0; 0xBF; 0x81; 0xED; 0x5C; 0x5B; 0xCA; 0xD3; 0xED; 0x71; 0xEC; 0xA8; 0xBF; 0x36; 0x58;
  0x8E; 0x02; 0x48; 0xA3; 0x81; 0x7D; 0x50; 0xC4; 0x0C; 0xB4; 0x4A; 0x4D; 0xC1; 0x15; 0x01; 0x94; 0x88; 0x7A;
  0xF5; 0x04; 0x62; 0x4D; 0x35; 0xFA; 0x7D; 0x45; 0x45; 0xC2; 0x0C; 0x4D; 0x79; 0xB3; 0xEC; 0x4B; 0x2F; 0xD1;
  0xFA; 0xF7; 0xBD; 0xE3; 0xFB; 0xE3; 0xA9; 0x3C; 0x52; 0xA7; 0x08; 0x59; 0x2A; 0x06; 0x65; 0xAB; 0x26; 0x07;
  0x05; 0xBB; 0x39; 0x6F; 0x4D; 0x68; 0x9E; 0x10; 0x93; 0x60; 0x82; 0x82; 0xE7; 0x8B; 0x7A; 0xF3; 0x27; 0x47;
  0xBA; 0xF3; 0x4F; 0xA1; 0xD9; 0x5A; 0x67; 0x68; 0xA0; 0x02; 0x99; 0xBB; 0xC1; 0xC3; 0xC2; 0x57; 0x3B; 0x51;
  0x2E; 0x53; 0x55; 0x05; 0x61; 0x0A; 0x08; 0x9D; 0xD2; 0xF6; 0x3B; 0xDA; 0x5E; 0x93; 0xAD; 0x44; 0x85; 0xD6;
  0x7F; 0xEA; 0x70; 0x9E; 0x08; 0x26; 0xCA; 0x32; 0xD9; 0xAB; 0x74; 0xEB; 0x70; 0x4F; 0x39; 0xFC; 0x69; 0x2C;
  0x2F; 0x0B; 0x62; 0xEA; 0x37; 0xC1; 0x2C; 0xF5; 0xED; 0x3C; 0x54; 0x5D; 0x37; 0x87; 0x5C; 0xA4; 0xFB; 0xC8;
  0x18; 0x3C; 0x0F; 0xCB; 0xC9; 0xD0; 0x67; 0x96; 0xD5; 0x90; 0xC0; 0x9A; 0xD0; 0x80; 0x05; 0x58; 0x6A; 0x7C;
  0xA8; 0xDD; 0xDA; 0x23; 0x4A; 0x37; 0xE9; 0x01; 0x17; 0x66; 0xA0; 0x30; 0x17; 0xA2; 0x23; 0xC8; 0xE6; 0x07;
  0x0D; 0x13; 0x38; 0xCC; 0x78; 0xF8; 0x19; 0x23; 0x86; 0xA7; 0x88; 0xFA; 0xD4; 0x7F; 0x62; 0xE9; 0xC6; 0xE8;
  0xB0; 0x6C; 0x63; 0xBD; 0x0E; 0xB6; 0x81; 0x24; 0xA7; 0x03; 0xCC; 0x67; 0xC1; 0x81; 0xE3; 0xA1; 0x01; 0xE8;
  0x89; 0x0E; 0x2A; 0xD1; 0x04; 0xB7; 0x3C; 0x05; 0x64; 0xC6; 0x48; 0xBF; 0x59; 0x84; 0xCE; 0x3C; 0x0A; 0x19;
  0x46; 0x32; 0x68; 0x18; 0x25; 0x0B; 0x55; 0x43; 0xDD; 0x6B; 0x4D; 0x7C; 0x30; 0x9B; 0x7A; 0xAF; 0x7A; 0x4C;
  0x69; 0xDE; 0x8E; 0xE9; 0xCD; 0x52; 0x2F; 0x02; 0xA2; 0x08; 0x15; 0x45; 0x94; 0xAB; 0x07; 0xA0; 0x20; 0xF7;
  0xE4; 0xBA; 0xF0; 0xBD; 0x73; 0x56; 0x3D; 0x50; 0x39; 0x3C; 0x07; 0x27; 0x1C; 0xEF; 0x69; 0x53; 0x41; 0xD1;
  0x83; 0x7F; 0xF8; 0x2D; 0xC8; 0xEE; 0xF5; 0xE3; 0x4B; 0x87; 0x9B; 0x8C; 0x78; 0xEC; 0x59; 0x28; 0xFF; 0x45;
  0x67; 0x0C; 0x4F; 0xB7; 0x11; 0x68; 0xB1; 0xE2; 0x37; 0x95; 0xD3; 0xB1; 0xD0; 0x1B; 0x96; 0x0F; 0xC3; 0xE2;
  0x51; 0x82; 0x5B; 0x42; 0xE2; 0x0B] [0x02].
Definition pem_dh3072 : bytes :=
  text "MIIBiAKCAYEA2ta45klFwfrnEyusY2MyL3I1+REgK3/NmhMfKyuCieQWTtJjL3qk" ++
  text "4L+B7VxbytPtceyovzZYjgJIo4F9UMQMtEpNwRUBlIh69QRiTTX6fUVFwgxNebPs" ++
  text "Sy/R+ve94/vjqTxSpwhZKgZlqyYHBbs5b01onhCTYIKC54t68ydHuvNPodlaZ2ig" ++
  text "Apm7wcPCVztRLlNVBWEKCJ3S9jvaXpOtRIXWf+pwnggmyjLZq3TrcE85/GksLwti" ++
  text "6jfBLPXtPFRdN4dcpPvIGDwPy8nQZ5bVkMCa0IAFWGp8qN3aI0o36QEXZqAwF6Ij" ++
  text "yOYHDRM4zHj4GSOGp4j61H9i6cbosGxjvQ62gSSnA8xnwYHjoQHoiQ4q0QS3PAVk" ++
  text "xki/WYTOPAoZRjJoGCULVUPda018MJt6r3pMad6O6c1SLwKiCBVFlKsHoCD35Lrw" ++
  text "vXNWPVA5PAcnHO9pU0HRg3/4Lcju9eNLh5uMeOxZKP9FZwxPtxFoseI3ldOx0BuW" ++
  text "D8PiUYJbQuILAgEC".
Definition get_dh4096 : dh := mkDh [
  0xB5; 0x13; 0xEE; 0x0B; 0x33; 0x08; 0xE6; 0x6B; 0xA0; 0x73; 0x86; 0x59; 0xAB; 0xDD; 0xE4; 0x08; 0xAE; 0x45;
  0xD3; 0xA4; 0x72; 0x68; 0x62; 0xEC; 0xCA; 0x71; 0x35; 0xF4; 0xA6; 0x46; 0xE2; 0x0E; 0xE5; 0x03; 0x15; 0xFE;
  0xAA; 0x50; 0xE3; 0x6E; 0x35; 0x69; 0x55; 0xBD; 0xB7; 0x9E; 0xE6; 0xD9; 0x2C; 0xC3; 0x90; 0x84; 0xAF; 0x9C;
  0xAD; 0x7F; 0xDA; 0x6A; 0x70; 0x82; 0x93; 0x07; 0xC9; 0x3F; 0x2A; 0x69; 0x2B; 0x15; 0xAE; 0x0C; 0x84; 0xEA;
  0x9C; 0x5D; 0xA2; 0x6C; 0x82; 0xBF; 0xA1; 0x9E; 0x86; 0x20; 0x8C; 0xE7; 0x06; 0x7B; 0x37; 0x00; 0x37; 0x6D;
  0xB2; 0x4C; 0x54; 0x5F; 0x5D; 0xCC; 0xB5; 0xE0; 0xE4; 0x37; 0xB2; 0x95; 0xD7; 0x3A; 0x09; 0x7F; 0x18; 0x9A;
  0xC0; 0x66; 0x3B; 0x71; 0x52; 0x62; 0x25; 0x07; 0xA1; 0xC8; 0xC8; 0x65; 0x2D; 0x1C; 0x9C; 0x24; 0x6D; 0x27;
  0xDA; 0xA1; 0x1D; 0xA2; 0x41; 0x00; 0x56; 0x91; 0xD0; 0xE4; 0x32; 0x2F; 0x2C; 0xC4; 0xE7; 0x9B; 0xD6; 0x48;
  0xA1; 0xF8; 0xC3; 0x10; 0x7F; 0xC5; 0x33; 0x63; 0x10; 0x07; 0xC8; 0x92; 0x1D; 0x5D; 0xAE; 0xDB; 0x0A; 0x1F;
  0x2A; 0xE9; 0xF4; 0xDB; 0x17; 0xD0; 0xF2; 0x4C; 0xE1; 0xCA; 0x90; 0xB1; 0x47; 0xE7; 0x6F; 0x09; 0x26; 0x03;
  0x3B; 0x7E; 0x08; 0x9E; 0xC5; 0x48; 0x18; 0xD5; 0x00; 0xE6; 0xD7; 0x18; 0xE8; 0x2F; 0x36; 0x2E; 0x48; 0x08;
  0xC5; 0x3C; 0x28; 0xC5; 0x43; 0xF6; 0x12; 0x5B; 0x86; 0xDC; 0x87; 0x4B; 0xCA; 0xD8; 0x7D; 0x87; 0x6E; 0x94;
  0xB8; 0x4C; 0xA8; 0x8F; 0x86; 0x44; 0x3D; 0xD8; 0x40; 0x4F; 0x31; 0xEF; 0xE5; 0x10; 0xB7; 0x5E; 0xAF; 0xC8;
  0xF2; 0x56; 0x75; 0xFD; 0x4F; 0xAF; 0x80; 0x0C; 0x3A; 0x0F; 0xA2; 0xD4; 0x8E; 0x59; 0x45; 0xBC; 0xF0; 0x86;
  0x7F; 0xBF; 0xB4; 0xE8; 0xEE; 0x8C; 0xAB; 0x93; 0x12; 0x84; 0xBE; 0xC3; 0x6B; 0x68; 0x04; 0xFA; 0xEB; 0x59;
  0x10; 0xE3; 0x2F; 0x71; 0xCF; 0x34; 0x3F; 0xDD; 0x3A; 0x96; 0x45; 0x9A; 0x84; 0x11; 0x81; 0x85; 0x77; 0x20;
  0xAF; 0x52; 0x1D; 0xDB; 0xD3; 0xF3; 0x57; 0xD5; 0xC3; 0xFB; 0x0F; 0x22; 0x32; 0xE1; 0xC9; 0x8D; 0x9B; 0x6C;
  0x97; 0x72; 0x98; 0xE1; 0xF3; 0x44; 0x55; 0x2B; 0xAE; 0xF8; 0x5E; 0xB4; 0x1B; 0xE2; 0x7D; 0x36; 0x5B; 0x7F;
  0xAA; 0x80; 0x15; 0xE5; 0x67; 0x17; 0x03; 0xF5; 0x00; 0x9D; 0x75; 0xF8; 0x30; 0x1B; 0x08; 0x2A; 0xEF; 0x4B;
  0x73; 0xEA; 0xD4; 0xAF; 0x64; 0x11; 0x7B; 0xEF; 0x1C; 0x2C; 0xCA; 0x1F; 0xBF; 0x61; 0x49; 0x4C; 0x53; 0x01;
  0x1F; 0x35; 0xFC; 0xD3; 0xC5; 0xE9; 0xAF; 0x38; 0x6C; 0xD8; 0x52; 0xB0; 0xFC; 0xE6; 0xB4; 0x10; 0xB7; 0xC3;
  0x01; 0x55; 0xEB; 0xF0; 0x88; 0x1F; 0x39; 0x19; 0x2D; 0x73; 0xE2; 0x9E; 0x19; 0x3B; 0x05; 0x0B; 0x5E; 0xE8;
  0xBB; 0xEB; 0x7E; 0x3A; 0x23; 0x19; 0x5F; 0x71; 0xD7; 0xA9; 0xE9; 0xC0; 0xBC; 0x79; 0x10; 0x37; 0xBA; 0x4C;
  0x72; 0xA9; 0x20; 0xA9; 0x9A; 0x84; 0x21; 0x51; 0x58; 0xE2; 0x01; 0x51; 0xED; 0xB6; 0x42; 0xA5; 0x81; 0x11;
  0x0F; 0x28; 0xFE; 0x2B; 0x6D; 0x9A; 0xF2; 0x4F; 0x5E; 0x11; 0x78; 0xA7; 0xED; 0x89; 0x7F; 0xD6; 0xE2; 0x6C;
  0x47; 0x66; 0x94; 0x09; 0x14; 0x17; 0x4E; 0xF1; 0x32; 0x74; 0xEE; 0xB8; 0x38; 0x1B; 0x14; 0x80; 0x51; 0xF4;
  0x08; 0x4C; 0x8F; 0x02; 0x82; 0x49; 0x80; 0xA5; 0x69; 0xC8; 0xF0; 0x34; 0x52; 0x3C; 0x65; 0x18; 0xD1; 0xA3;
  0x67; 0x7C; 0x48; 0x83; 0x6B; 0x18; 0x69; 0x68; 0xDB; 0x87; 0x25; 0x83; 0xAA; 0xA8; 0xA0; 0xCA; 0xB9; 0x9A;
  0x25; 0x8D; 0x21; 0xBB; 0x72; 0x9D; 0xCA; 0xB3] [0x02].
Definition pem_dh4096 : bytes :=
  text "MIICCAKCAgEAtRPuCzMI5mugc4ZZq93kCK5F06RyaGLsynE19KZG4g7lAxX+qlDj" ++
  text "bjVpVb23nubZLMOQhK+crX/aanCCkwfJPyppKxWuDITqnF2ibIK/oZ6GIIznBns3" ++
  text "ADdtskxUX13MteDkN7KV1zoJfxiawGY7cVJiJQehyMhlLRycJG0n2qEdokEAVpHQ" ++
  text "5DIvLMTnm9ZIofjDEH/FM2MQB8iSHV2u2wofKun02xfQ8kzhypCxR+dvCSYDO34I" ++
  text "nsVIGNUA5tcY6C82LkgIxTwoxUP2EluG3IdLyth9h26UuEyoj4ZEPdhATzHv5RC3" ++
  text "Xq/I8lZ1/U+vgAw6D6LUjllFvPCGf7+06O6Mq5MShL7Da2gE+utZEOMvcc80P906" ++
  text "lkWahBGBhXcgr1Id29PzV9XD+w8iMuHJjZtsl3KY4fNEVSuu+F60G+J9Nlt/qoAV" ++
  text "5WcXA/UAnXX4MBsIKu9Lc+rUr2QRe+8cLMofv2FJTFMBHzX808Xprzhs2FKw/Oa0" ++
  text "ELfDAVXr8IgfORktc+KeGTsFC17ou+t+OiMZX3HXqenAvHkQN7pMcqkgqZqEIVFY" ++
  text "4gFR7bZCpYERDyj+K22a8k9eEXin7Yl/1uJsR2aUCRQXTvEydO64OBsUgFH0CEyP" ++
  text "AoJJgKVpyPA0UjxlGNGjZ3xIg2sYaWjbhyWDqqigyrmaJY0hu3KdyrMCAQI=".

Definition ssl_dh_callback (key_length : Z) : dh :=
  if (key_length =? 512) || (key_length =? 768) || (key_length =? 1024) then get_dh1024
  else if key_length =? 1536 then get_dh1536
  else if key_length =? 2048 then get_dh2048
  else get_dh2048.

(** The number a group's bytes denote, and its size. *)
Definition bn (b : bytes) : Z := foldl (fun n x => 256 * n + x) 0 b.
Definition dh_bits (g : dh) : Z := Z.log2 (bn (dh_p g)) + 1.

(** DER: a length, an INTEGER, and the SEQUENCE of both numbers. *)
Definition der_length (n : Z) : bytes :=
  if n <? 128 then [n] else if n <? 256 then [129; n] else [130; n / 256; n mod 256].
Definition der_integer (b : bytes) : bytes :=
  let b := if 128 <=? hd 0 b then 0 :: b else b in 2 :: der_length (zlen b) ++ b.
Definition der_dh (g : dh) : bytes :=
  let c := der_integer (dh_p g) ++ der_integer (dh_g g) in 48 :: der_length (zlen c) ++ c.

(** The groups of the file with the size in their name and their published form. *)
Definition dh_groups : list (Z * dh * bytes) :=
  [(512, get_dh512, pem_dh512); (768, get_dh768, pem_dh768); (1024, get_dh1024, pem_dh1024);
   (1536, get_dh1536, pem_dh1536); (2048, get_dh2048, pem_dh2048); (3072, get_dh3072, pem_dh3072);
   (4096, get_dh4096, pem_dh4096)].

(** Every group of the file is the one published with it: the published text is base64 that
    the decoder of the library reads, and it decodes to the DER form of exactly the numbers in
    the code. Their sizes are the ones in their names, the generator is 2, and the primes are 11
    modulo 24, the residue that safe primes with this generator are chosen from. *)
Theorem dh_parameters_published :
  Forall (fun '(bits, g, pem) =>
    Codec.decode true [0] pem = Some (der_dh g) /\ Codec.encode (der_dh g) = pem /\
    dh_bits g = bits /\ bn (dh_g g) = 2 /\ bn (dh_p g) mod 24 = 11) dh_groups.
Proof. unfold dh_groups. repeat constructor; vm_compute; reflexivity. Qed.

(** Whatever is asked for, the group given has 1024 bits at least, and not fewer than were asked
    for up to 2048; more than that is never given. *)
Theorem dh_callback_policy n :
  1024 <= dh_bits (ssl_dh_callback n) <= 2048 /\ (n <= 2048 -> n <= dh_bits (ssl_dh_callback n)) /\
  (n = 1024 \/ n = 1536 \/ n = 2048 -> dh_bits (ssl_dh_callback n) = n).
Proof.
  assert (dh_bits get_dh1024 = 1024) as E1 by (vm_compute; reflexivity).
  assert (dh_bits get_dh1536 = 1536) as E2 by (vm_compute; reflexivity).
  assert (dh_bits get_dh2048 = 2048) as E3 by (vm_compute; reflexivity).
  unfold ssl_dh_callback.
  destruct (Z.eqb_spec n 512), (Z.eqb_spec n 768), (Z.eqb_spec n 1024), (Z.eqb_spec n 1536), (Z.eqb_spec n 2048);
    cbn [orb]; rewrite ?E1, ?E2, ?E3; lia.
Qed.

(** ** What accepting does *)

(** [ends P m Q]: from a state with [P], [m] returns, to a state with [P] and with a value with
    [Q]. *)
Definition ends {W A} (P : W -> Prop) (m : M W A) (Q : A -> Prop) : Prop :=
  forall w, P w -> exists a w', m w = Ret a w' /\ P w' /\ Q a.
Abbreviation always := (fun _ => True).

Section ends.
Context {W : Type} (P : W -> Prop).

Lemma ends_ret {A} (a : A) : ends P (mret_ a) always.
Proof. intros w Hw. by exists a, w. Qed.
Lemma ends_gets {A} (f : W -> A) : ends P (gets f) always.
Proof. intros w Hw. by exists (f w), w. Qed.
Lemma ends_modify f : (forall w, P w -> P (f w)) -> ends P (modify f) always.
Proof. intros Hf w Hw. exists tt, (f w). auto. Qed.
Lemma ends_bind {A B} (m : M W A) (k : A -> M W B) Q R :
  ends P m Q -> (forall a, Q a -> ends P (k a) R) -> ends P (mbind_ m k) R.
Proof.
  intros Hm Hk w Hw. destruct (Hm w Hw) as (a & w1 & E & H1 & Ha). destruct (Hk a Ha w1 H1) as (b & w2 & E2 & H2).
  exists b, w2. by rewrite (bind_ret _ _ _ _ _ E).
Qed.
Lemma ends_then {A B} (m : M W A) (k : A -> M W B) R :
  ends P m always -> (forall a, ends P (k a) R) -> ends P (mbind_ m k) R.
Proof. intros Hm Hk. apply (ends_bind m k always R Hm). auto. Qed.
Lemma ends_if {A} (b : bool) (m k : M W A) Q : ends P m Q -> ends P k Q -> ends P (if b then m else k) Q.
Proof. by destruct b. Qed.
Lemma ends_when b m : ends P m always -> ends P (when b m) always.
Proof. intros Hm. destruct b; [done|apply ends_ret]. Qed.
End ends.

Create HintDb ends.
#[export] Hint Resolve ends_ret ends_gets ends_then ends_if ends_when : ends.

Section accepted.
Context `{EpollKernel} {SL : SslLib} {AL : AcceptLib} {IN : Inet} {SK : SockSys} {PS : PeerSys} {US : UdpSys}.

(** *** What a server's object is made with

    The calls of the library in their order, on its state alone. *)
Definition unblocked (s : Z) (l : sslw) : sslw :=
  let '(f, l) := fcntl_getfl s l in
  if Z.land f O_NONBLOCK =? 0 then snd (fcntl_setfl s (Z.lor f O_NONBLOCK) l) else l.
Definition with_confs (cs : list conf) (l : sslw) : sslw := foldl (fun l c => SSL_conf c l) l cs.
Definition used (c : use_call) (l : sslw) : sslw :=
  let '(r, l) := SSL_use c l in if r =? 1 then l else snd (ERR_get_error l).

(** The preferred pair is loaded when there is one and no preferred context. *)
Definition pair_loaded (i : identity) : bool := match i_pref_ctx i with Some _ => false | None => i_pref_pair i end.

Definition server_cx (proto : Z) : ssl_ctx := if proto =? SOCK_STREAM then TlsServerCx else DtlsServerCx.
Definition server_object (c : sslcom) (l : sslw) : sslw :=
  snd (SSL_new (server_ctx (s_ident c) (server_cx (s_l4_proto c))) (if s_ssl c then SSL_free l else l)).
Definition confs_first (c : sslcom) : list conf :=
  let o := opt_left (s_opt c) in
  (if s_l4_proto c =? SOCK_DGRAM then [CookieExchange] else []) ++
  (if kex_dh o then [Groups "X25519:P-521:P-384:P-256:ffdhe2048"] else []) ++ [CipherList (cipher_filter o)].
Definition confs_last (c : sslcom) : list conf :=
  let o := opt_left (s_opt c) in
  (if no_tickets o then [SetSession false; NoTicket] else []) ++ [Mode; SetFd (com_socket c); MsgCallback] ++
  (if kex_dh o then [DhAuto; EcdhAuto] else []) ++ [ExData; AlpnSelectCb].
Definition pair_given (i : identity) (l : sslw) : sslw :=
  if pair_loaded i then
    let l := used UsePrivateKey (used UseCertificate l) in if i_counted i then l else SSL_conf RefPair l
  else l.

Definition server_library (c : sslcom) (l : sslw) : sslw :=
  with_confs (confs_last c) (pair_given (s_ident c) (with_confs (confs_first c) (server_object c l))).

(** The com with its object and its role. *)
Definition serving (c : sslcom) : sslcom :=
  let i := s_ident c in
  put_server true (put_ssl true (put_ident
    (mkIdentity (server_ctx i (server_cx (s_l4_proto c))) (i_pref_ctx i) (i_pref_pair i) (i_counted i || pair_loaded i)) c)).

(** [SSL_new] is documented to fail for want of memory, or of a context. *)
Context (SSL_new_works : forall x l, fst (SSL_new (Some x) l) = true).

(** The com and the library of a world; the rest of it is as it was. *)
Definition at_ (w : tworld) (c : sslcom) (l : sslw) : tworld := tw_put_me c (tw_put_lib l w).
Lemma at_self w : w = at_ w (tw_me w) (tw_lib w).
Proof. by destruct w. Qed.

Lemma conf_run w c l x : s_ssl c = true -> ssl_do (SSL_conf x) (at_ w c l) = Ret tt (at_ w c (SSL_conf x l)).
Proof. intros Hs. unfold ssl_do, mine. rewrite bind_gets. cbn [at_ tw_me tw_put_me]. by rewrite Hs. Qed.

Lemma configure_run w c cs l : s_ssl c = true -> configure cs (at_ w c l) = Ret tt (at_ w c (with_confs cs l)).
Proof.
  intros Hs. revert l. induction cs as [| x cs IH]; intros l; [done|]. cbn [configure fold_right].
  rewrite (bind_ret _ _ _ _ _ (conf_run w c l x Hs)). apply IH.
Qed.

Lemma with_confs_app a b l : with_confs (a ++ b) l = with_confs b (with_confs a l).
Proof. apply foldl_app. Qed.

Lemma use_run w c l u : s_ssl c = true -> use_pref u (at_ w c l) = Ret tt (at_ w c (used u l)).
Proof.
  intros Hs. unfold use_pref, ssl_call, mine. rewrite bind_assoc, bind_gets. cbn [at_ tw_me tw_put_me]. rewrite Hs.
  unfold libcall, mbind_ at 1. cbn [at_ tw_lib tw_put_lib tw_put_me used]. unfold used.
  destruct (SSL_use u l) as [r l1]. destruct (r =? 1); [done|]. cbn [negb when]. unfold mbind_. cbn.
  by destruct (ERR_get_error l1).
Qed.

Lemma load_pref_run w c l : s_ssl c = true ->
  load_pref (at_ w c l) =
    Ret tt (at_ w (put_ident (mkIdentity (i_ctx (s_ident c)) (i_pref_ctx (s_ident c)) (i_pref_pair (s_ident c))
                                (i_counted (s_ident c) || pair_loaded (s_ident c))) c)
              (pair_given (s_ident c) l)).
Proof.
  intros Hs. unfold load_pref, mine, pair_given, pair_loaded. rewrite bind_gets. cbn [at_ tw_me tw_put_me].
  assert (forall b, b = i_counted (s_ident c) -> put_ident (mkIdentity (i_ctx (s_ident c)) (i_pref_ctx (s_ident c))
    (i_pref_pair (s_ident c)) b) c = c) as Hid by (intros b ->; by destruct c as [? ? ? ? ? ? ? ? ? ? ? ? ? ? ? ? ? ? ? ? ? ? ? ? ? ? ? ? []]).
  destruct (i_pref_ctx (s_ident c)) as [x|] eqn:Ex.
  { cbn [negb andb]. rewrite bool_decide_eq_true_2 by by eexists. cbn [negb andb]. rewrite orb_false_r.
    by rewrite Hid. }
  rewrite bool_decide_eq_false_2 by (by intros [? ?]). cbn [negb andb]. destruct (i_pref_pair (s_ident c)) eqn:Ep.
  - rewrite (bind_ret _ _ _ _ _ (use_run w c l UseCertificate Hs)), (bind_ret _ _ _ _ _ (use_run w c _ UsePrivateKey Hs)).
    destruct (i_counted (s_ident c)) eqn:Ec; cbn [negb when orb].
    + by rewrite Hid.
    + unfold libdo, on_me, mbind_, modify. unfold at_. cbn. by rewrite Ex, Ep.
  - rewrite orb_false_r. by rewrite Hid.
Qed.

Lemma callbacks_run w c l : s_ssl c = true -> sslcom_server c = true ->
  init_ssl_callbacks (at_ w c l) = Ret tt (at_ w c (with_confs ([MsgCallback] ++
    (if kex_dh (opt_left (s_opt c)) then [DhAuto; EcdhAuto] else []) ++ [ExData; AlpnSelectCb]) l)).
Proof.
  intros Hs Hr. unfold init_ssl_callbacks, mine. rewrite bind_gets. cbn [at_ tw_me tw_put_me]. rewrite Hr.
  rewrite (bind_ret _ _ _ _ _ (configure_run w c _ l Hs)).
  destruct (kex_dh (opt_left (s_opt c))); cbn [app].
  - rewrite (bind_ret _ _ _ _ _ (configure_run w c _ _ Hs)), (bind_ret _ _ _ _ _ (configure_run w c _ _ Hs)).
    by rewrite (configure_run w c _ _ Hs).
  - rewrite bind_pure, (bind_ret _ _ _ _ _ (configure_run w c _ _ Hs)). by rewrite (configure_run w c _ _ Hs).
Qed.

(** The old object goes and the new one is made, from the context that was chosen. *)
Lemma object_run w c l x : s_ssl c = false ->
  new_ssl (Some x) (at_ w c l) =
    Ret tt (at_ w (put_ssl true (put_ctx (Some x) c)) (snd (SSL_new (Some x) l))).
Proof.
  intros Hs. unfold new_ssl, libcall, on_me, mbind_, modify. cbn. pose proof (SSL_new_works x l) as Hn.
  destruct (SSL_new (Some x) l) as [ok l']. cbn in Hn. by subst ok.
Qed.
Lemma free_run w c l : free_ssl (at_ w c l) = Ret tt (at_ w (put_ssl false c) (if s_ssl c then SSL_free l else l)).
Proof.
  unfold free_ssl, mine. rewrite bind_gets. cbn [at_ tw_me tw_put_me]. destruct (s_ssl c) eqn:Hs; [done|].
  cbn [when]. unfold mret_. do 2 f_equal. destruct c. cbn in Hs. by subst.
Qed.

(** The server's object is made: nothing but the object, its context and the role changes. *)
Lemma init_server_run w c l : s_l4_proto c = SOCK_STREAM \/ s_l4_proto c = SOCK_DGRAM ->
  init_server (at_ w c l) = Ret tt (at_ w (serving c) (server_library c l)).
Proof.
  intros Hp. unfold init_server. rewrite (bind_ret _ _ _ _ _ (free_run w c l)). unfold mine at 1 2. rewrite !bind_gets.
  change (s_l4_proto (tw_me _)) with (s_l4_proto c). change (s_ident (tw_me _)) with (s_ident c).
  set (l1 := if s_ssl c then SSL_free l else l).
  assert (exists x, server_ctx (s_ident c) (server_cx (s_l4_proto c)) = Some x) as [x Ex].
  { unfold server_ctx. destruct (i_pref_ctx (s_ident c)); [by eexists|]. destruct (i_ctx (s_ident c)); by eexists. }
  set (c1 := put_ssl true (put_ctx (Some x) (put_ssl false c))). set (l2 := snd (SSL_new (Some x) l1)).
  assert ((if s_l4_proto c =? SOCK_STREAM then new_ssl (server_ctx (s_ident c) TlsServerCx)
           else if s_l4_proto c =? SOCK_DGRAM then new_ssl (server_ctx (s_ident c) DtlsServerCx) ;;; configure [CookieExchange]
           else mret_ tt) (at_ w (put_ssl false c) l1)
    = Ret tt (at_ w c1 (with_confs (if s_l4_proto c =? SOCK_DGRAM then [CookieExchange] else []) l2))) as E.
  { destruct Hp as [Hp | Hp]; rewrite Hp in *; cbn [Z.eqb Pos.eqb SOCK_STREAM SOCK_DGRAM] in *.
    - change (server_cx SOCK_STREAM) with TlsServerCx in Ex. rewrite Ex. by apply object_run.
    - change (server_cx SOCK_DGRAM) with DtlsServerCx in Ex. rewrite Ex, (bind_ret _ _ _ _ _ (object_run w (put_ssl false c) l1 x eq_refl)).
      by apply configure_run. }
  rewrite (bind_ret _ _ _ _ _ E). unfold mine at 1. rewrite bind_gets. change (tw_me (at_ w c1 _)) with c1.
  change (s_opt c1) with (s_opt c). change (com_socket c1) with (com_socket c).
  unfold server_library, server_object, confs_first, confs_last. rewrite Ex. fold l1 l2.
  set (o := opt_left (s_opt c)). rewrite !with_confs_app.
  set (l3 := with_confs _ l2).
  assert (when (kex_dh o) (configure [Groups "X25519:P-521:P-384:P-256:ffdhe2048"]) (at_ w c1 l3) =
    Ret tt (at_ w c1 (with_confs (if kex_dh o then [Groups "X25519:P-521:P-384:P-256:ffdhe2048"] else []) l3))) as E4
    by (destruct (kex_dh o); [by apply configure_run | done]).
  rewrite (bind_ret _ _ _ _ _ E4), (bind_ret _ _ _ _ _ (configure_run w c1 _ _ eq_refl)),
    (bind_ret _ _ _ _ _ (load_pref_run w c1 _ eq_refl)). unfold on_me at 1. rewrite bind_modify.
  change (pair_given (s_ident c)) with (pair_given (s_ident c1)).
  set (l5 := pair_given _ _). set (c2 := put_ident _ c1).
  change (tw_put_me _ (at_ w c2 l5)) with (at_ w (put_server true c2) l5).
  assert (when (no_tickets o) (configure [SetSession false; NoTicket]) (at_ w (put_server true c2) l5) =
    Ret tt (at_ w (put_server true c2) (with_confs (if no_tickets o then [SetSession false; NoTicket] else []) l5))) as E6
    by (destruct (no_tickets o); [by apply configure_run | done]).
  rewrite (bind_ret _ _ _ _ _ E6), (bind_ret _ _ _ _ _ (configure_run w (put_server true c2) _ _ eq_refl)),
    (callbacks_run w (put_server true c2) _ eq_refl eq_refl).
  unfold serving. rewrite Ex. change (opt_left (s_opt (put_server true c2))) with o.
  rewrite <- !with_confs_app. by destruct c.
Qed.

Definition accepting (sockfd : Z) (c : sslcom) : sslcom := put_waiting true (put_base (set_fd sockfd (s_base c)) c).

Lemma unblock_run w c l s : exists r, unblock s (at_ w c l) = Ret r (at_ w c (unblocked s l)).
Proof.
  unfold unblock, unblocked, libcall, mbind_. cbn. destruct (fcntl_getfl s l) as [f l1]. destruct (_ =? 0); [| by eexists].
  cbn. destruct (fcntl_setfl _ _ l1) as [r l2]. by eexists.
Qed.

(** The com past its upgrade, and its library. *)
Definition upgraded_com (sockfd : Z) (c : sslcom) : sslcom := put_upgraded true (serving (accepting sockfd c)).
Definition upgraded_lib (sockfd : Z) (c : sslcom) (l : sslw) : sslw :=
  server_library (accepting sockfd c) (unblocked sockfd l).

Lemma upgrade_run w c l sockfd : s_l4_proto c = SOCK_STREAM \/ s_l4_proto c = SOCK_DGRAM ->
  s_bypass c = false -> upgraded c = false ->
  upgrade_server_socket sockfd (at_ w c l) = Ret sockfd (at_ w (upgraded_com sockfd c) (upgraded_lib sockfd c l)).
Proof.
  intros Hp Hb Hu. unfold upgrade_server_socket, set_socket, on_me at 1 2. rewrite !bind_modify.
  change (tw_put_me _ (tw_put_me _ (at_ w c l))) with (at_ w (accepting sockfd c) l).
  destruct (unblock_run w (accepting sockfd c) l sockfd) as [r E]. rewrite (bind_ret _ _ _ _ _ E).
  unfold mine. rewrite !bind_gets. change (s_bypass (tw_me _)) with (s_bypass c). rewrite Hb, bind_gets.
  change (upgraded (tw_me _)) with (upgraded c). rewrite Hu. cbn [negb when].
  rewrite bind_assoc, (bind_ret _ _ _ _ _ (init_server_run w (accepting sockfd c) (unblocked sockfd l) Hp)).
  unfold on_me. by rewrite bind_modify.
Qed.

Lemma bypass_run w c l sockfd : s_bypass c = true ->
  upgrade_server_socket sockfd (at_ w c l) = Ret sockfd (at_ w (accepting sockfd c) (unblocked sockfd l)).
Proof.
  intros Hb. unfold upgrade_server_socket, set_socket, on_me at 1 2. rewrite !bind_modify.
  change (tw_put_me _ (tw_put_me _ (at_ w c l))) with (at_ w (accepting sockfd c) l).
  destruct (unblock_run w (accepting sockfd c) l sockfd) as [r E]. rewrite (bind_ret _ _ _ _ _ E).
  unfold mine. rewrite bind_gets. change (s_bypass (tw_me _)) with (s_bypass c). by rewrite Hb.
Qed.

(** The first attempt: what [SSL_accept] returned decides. *)
Definition attempted (r : Z) (reused : bool) (c : sslcom) : sslcom :=
  if 0 <? r then
    let c := put_waiting false (tick prof_accept_ok (put_ret r c)) in
    let c := put_base (set_forced_write true (set_forced_read true (s_base c))) c in
    tick prof_accept_cnt (if reused then put_hsk_reused true c else c)
  else tick prof_accept_cnt (put_ret r c).

Lemma ssl_ret_run w c l (f : sslw -> Z * sslw) : s_ssl c = true ->
  ssl_ret f (at_ w c l) = let r := f (ERR_clear_error l) in Ret (fst r) (at_ w (put_ret (fst r) c) (snd r)).
Proof.
  intros Hs. unfold ssl_ret, ssl_call, libdo, mine, libcall, on_me, mbind_, modify, gets. cbn. rewrite Hs.
  by destruct (f _).
Qed.

Lemma ssl_ret_me (f : sslw -> Z * sslw) (t : tworld) : s_ssl (tw_me t) = true ->
  ssl_ret f t = let r := f (ERR_clear_error (tw_lib t)) in
    Ret (fst r) (tw_put_me (put_ret (fst r) (tw_me t)) (tw_put_lib (snd r) t)).
Proof. intros Hs. rewrite (at_self t) at 1. exact (ssl_ret_run t _ _ f Hs). Qed.

Lemma handshake_run w c l : s_ssl c = true ->
  accept_handshake (at_ w c l) = let r := SSL_accept (ERR_clear_error l) in
    Ret tt (at_ w (attempted (fst r) (SSL_session_reused (snd r)) c) (snd r)).
Proof.
  intros Hs. unfold accept_handshake. rewrite (bind_ret _ _ _ _ _ (ssl_ret_run w c l _ Hs)). cbv zeta.
  destruct (SSL_accept _) as [r l']. cbn [fst snd]. unfold attempted. destruct (0 <? r); cbn [when]; [| done].
  unfold on_me, force_rw, ssl_ask, mine, libask, on_me, mbind_, modify, gets.
  cbn [at_ tw_me tw_put_me tw_put_lib s_ssl put_base put_waiting tick put_counters put_ret tw_lib]. rewrite Hs.
  change (tw_lib _) with l'. by destruct (SSL_session_reused l').
Qed.

Lemma in_tls_ret {A B} (m : M tworld A) (k : A -> M aworld B) w a t' :
  m (a_tls w) = Ret a t' -> mbind_ (in_tls m) k w = k a (mkAw t' (a_l4 w)).
Proof. intros E. unfold mbind_, in_tls. by rewrite E. Qed.

(** The TCP com below takes a socket: its options are set, and it looks where the connection was
    meant to go when it has to go there. *)
Definition tcp_options (fd : Z) (k : sk) : sk :=
  if 0 <=? fd then snd (sk_setsockopt fd IPPROTO_TCP TCP_QUICKACK one (snd (sk_setsockopt fd IPPROTO_TCP TCP_NODELAY one k)))
  else k.
Definition tcp_taken (fd : Z) (d : dst) (k : sk) : transport :=
  let k := tcp_options fd k in
  OverTcp (if nonlocal_dst_ d then base_resolve_nonlocal_dst_socket us_stack fd k d else d) k.

Lemma tcp_takes {B} (m : M aworld B) fd t d k :
  (on_new_socket fd ;;; l4_accept_socket fd ;;; m) (mkAw t (OverTcp d k)) = m (mkAw t (tcp_taken fd d k)).
Proof.
  unfold on_new_socket, l4_accept_socket, tcp_taken, tcp_options. rewrite bind_assoc. unfold mbind_ at 1, gets. cbn [a_l4].
  destruct (0 <=? fd); [| done].
  unfold in_sys, so_nodelay, so_quickack, setopt, syscall, mbind_, mret_. cbn [a_l4 l4_sys a_tls put_sys].
  destruct (sk_setsockopt fd IPPROTO_TCP TCP_NODELAY one k) as [r1 k1]. cbn [a_l4 l4_sys a_tls put_sys snd].
  by destruct (sk_setsockopt fd IPPROTO_TCP TCP_QUICKACK one k1) as [r2 k2].
Qed.


(** A bypassed com is only counted: OpenSSL is not called, and the socket goes on in plain. *)
Theorem bypassed_accept_is_plain sockfd w d k :
  let me := tw_me (a_tls w) in
  a_l4 w = OverTcp d k -> s_l4_proto me = SOCK_STREAM -> s_bypass me = true ->
  accept_socket sockfd w = Ret tt (mkAw
    (tw_put_me (tick prof_accept_bypass_cnt (accepting sockfd me)) (tw_put_lib (unblocked sockfd (tw_lib (a_tls w))) (a_tls w)))
    (tcp_taken sockfd d k)).
Proof.
  intros me H4 Hp Hb. destruct w as [t t4]. cbn [a_l4 a_tls] in *. subst t4. unfold accept_socket.
  rewrite tcp_takes. rewrite (in_tls_ret _ _ _ SOCK_STREAM t) by (cbn; by rewrite <- Hp).
  change ((SOCK_STREAM =? SOCK_DGRAM) && _) with false. cbn [when]. rewrite bind_pure.
  pose proof (bypass_run t me (tw_lib t) sockfd Hb) as E2.
  rewrite <- at_self in E2. rewrite (in_tls_ret _ _ (mkAw t _) _ _ E2). cbn [a_l4].
  by rewrite (in_tls_ret _ _ _ true (at_ t (accepting sockfd me) (unblocked sockfd (tw_lib t)))) by (cbn; by rewrite <- Hb).
Qed.

(** ** Virtual sockets

    A pool as the receiver fills it: the keys are 32-bit session keys. *)
Definition session_keys (pool : gmap Z Datagram) : Prop := forall k, is_Some (pool !! k) -> 0 <= k < 2 ^ 32.

(** A descriptor that is negative is looked for under a key no session has: widening keeps its
    sign, while the pool, and every other lookup, has 32 bits. So the record is never found,
    though it is there, and accepting makes no system call for it. *)
Theorem virtual_accept_finds_nothing sockfd w pool record :
  a_pool w = Some pool -> session_keys pool -> - 2 ^ 31 <= sockfd < 0 -> pool !! dkey sockfd = Some record ->
  pool !! pool_key sockfd = None /\ accept_virtual sockfd w = Ret tt w.
Proof.
  intros Hp Hk Hs _.
  assert (pool !! pool_key sockfd = None) as E.
  { apply eq_None_not_Some. intros Hf. apply Hk in Hf. unfold pool_key, u64 in Hf. change (2 ^ 64) with 18446744073709551616 in Hf.
    change (2 ^ 32) with 4294967296 in Hf. change (2 ^ 31) with 2147483648 in Hs.
    rewrite <- (Z.mod_unique sockfd 18446744073709551616 (-1) (sockfd + 18446744073709551616)) in Hf by lia. lia. }
  split; [exact E|]. unfold accept_virtual. rewrite bind_gets, Hp, E. done.
Qed.

(** Where the record would be found, the real socket is lost: what is made transparent is the
    virtual descriptor, the real one is connected and then bound, and the com ends with
    the virtual one, no call having closed the other. *)
Theorem found_socket_is_lost sockfd w u record fd s1 :
  let me := tw_me (a_tls w) in let family := ss_family (dg_dst record) in
  s_l4_proto me = SOCK_DGRAM -> s_bypass me = false -> upgraded me = false ->
  a_l4 w = OverUdp u -> nonlocal_dst (ucom u) = false -> sockfd < 0 ->
  datagrams_received u !! pool_key sockfd = Some record ->
  sk_socket family SOCK_DGRAM IPPROTO_UDP (usys u) = (fd, s1) -> 0 < fd ->
  let s2 := if (family =? AF_INET) || (family =? AF_INET6) || (family =? AF_UNSPEC)
            then snd (sk_setsockopt sockfd SOL_IP IP_TRANSPARENT one s1) else s1 in
  let s3 := if family =? AF_INET6 then snd (sk_setsockopt sockfd SOL_IPV6 IPV6_TRANSPARENT one s2) else s2 in
  let s4 := snd (sk_bind fd (dg_dst record) (snd (sk_connect fd (dg_src record) s3))) in
  exists t', accept_socket sockfd w = Ret tt (mkAw t' (put_sys s4 (OverUdp u))) /\ com_socket (tw_me t') = sockfd.
Proof.
  intros me family Hp Hb Hu H4 Hn Hs Hrec Hsock Hfd s2 s3 s4. destruct w as [t t4]. cbn [a_l4 a_tls] in *. subst t4.
  unfold accept_socket. unfold on_new_socket. rewrite bind_assoc, bind_gets. cbn [a_l4]. rewrite bind_pure.
  unfold l4_accept_socket. unfold mbind_ at 1. cbn [a_l4]. rewrite Hn.
  rewrite (in_tls_ret _ _ _ SOCK_DGRAM t) by (cbn; by rewrite <- Hp).
  rewrite (proj2 (Z.ltb_lt _ _) Hs). change ((SOCK_DGRAM =? SOCK_DGRAM) && true) with true. cbn [when].
  set (c1 := put_base (set_fd fd (s_base me)) me).
  assert (accept_virtual sockfd (mkAw t (OverUdp u)) = Ret tt (mkAw (at_ t c1 (tw_lib t)) (put_sys s4 (OverUdp u)))) as E.
  { unfold accept_virtual. rewrite bind_gets. unfold a_pool. cbn [a_l4]. rewrite Hrec. fold family.
    unfold in_sys, syscall, so_transparent_v4, so_transparent_v6, setopt, set_socket, mbind_, in_tls, on_me, modify, syscall.
    cbn [a_l4 l4_sys a_tls put_sys].
    rewrite Hsock. cbn [a_l4 l4_sys a_tls put_sys usys]. rewrite (proj2 (Z.ltb_lt _ _) Hfd). unfold s4, s3, s2.
    destruct ((family =? AF_INET) || (family =? AF_INET6) || (family =? AF_UNSPEC)), (family =? AF_INET6); unfold mret_;
      cbn [a_l4 l4_sys a_tls put_sys usys];
      repeat match goal with |- context [let '(_, _) := ?x in _] => destruct x; cbn [a_l4 l4_sys a_tls put_sys usys snd] end;
      by destruct t. }
  rewrite (bind_ret _ _ _ _ _ E).
  pose proof (upgrade_run t c1 (tw_lib t) sockfd (or_intror Hp) Hb Hu) as E3.
  rewrite (in_tls_ret _ _ (mkAw (at_ t c1 (tw_lib t)) _) _ _ E3). cbn [a_l4]. set (c2 := upgraded_com sockfd c1) in *. set (l2 := upgraded_lib _ _ _).
  rewrite (in_tls_ret _ _ _ false (at_ t c2 l2)) by (cbn; by rewrite <- Hb).
  unfold in_tls at 1, accept_listen, mine. rewrite bind_gets. cbn [a_tls a_l4].
  change (s_l4_proto (tw_me (at_ t c2 l2))) with (s_l4_proto me). rewrite Hp. change (SOCK_DGRAM =? SOCK_DGRAM) with true. cbv iota.
  unfold ssl_call, mine. rewrite bind_assoc, bind_gets. change (s_ssl (tw_me (at_ t c2 l2))) with true. cbv iota.
  unfold libcall, mbind_ at 1. change (tw_lib (at_ t c2 l2)) with l2.
  destruct (DTLSv1_listen l2) as [r l] eqn:El. destruct (r =? 0).
  - by eexists.
  - change (tw_put_lib l (at_ t c2 l2)) with (at_ t c2 l). rewrite (handshake_run t c2 l eq_refl).
    eexists. split; [reflexivity|]. cbv zeta. unfold attempted. destruct (SSL_accept _) as [v l']. cbn [fst snd].
    by destruct (0 <? v), (SSL_session_reused l').
Qed.

(** ** One SSL object for the life of a connection *)

Context (k0 : kstate) (tr : Z -> Z).

(** The object, the role and the count of attempts of a server com past its upgrade. *)
Definition object (c : sslcom) := (s_ssl c, sslcom_server c, upgraded c, com_socket c, s_counters c prof_accept_cnt).
Definition held (l : sslw) (s n : Z) (w : tworld) : Prop :=
  tw_lib w = l /\ object (tw_me w) = (true, true, true, s, n).

Lemma held_me l s n f : (forall c, object (f c) = object c) -> ends (held l s n) (on_me f) always.
Proof. intros Hf. apply ends_modify. intros w [Hl Ho]. split; [done|]. cbn. by rewrite Hf. Qed.
Lemma held_polls l s n f : ends (held l s n) (polls k0 tr f) always.
Proof. by apply ends_modify. Qed.
Lemma held_ssl l s n w : held l s n w -> s_ssl (tw_me w) = true /\ sslcom_server (tw_me w) = true /\ upgraded (tw_me w) = true.
Proof. intros [_ Ho]. unfold object in Ho. by injection Ho. Qed.
Lemma held_ask {A} l s n (f : sslw -> A) : ends (held l s n) (ssl_ask f) always.
Proof.
  intros w Hw. unfold ssl_ask, mine. rewrite bind_gets, (proj1 (held_ssl _ _ _ _ Hw)). unfold libask, gets. by eexists _, _.
Qed.
Lemma held_server l s n : ends (held l s n) (mine sslcom_server) (fun b => b = true).
Proof. intros w Hw. exists true, w. unfold mine, gets. by rewrite (proj1 (proj2 (held_ssl _ _ _ _ Hw))). Qed.
Hint Resolve held_polls held_ask : ends.
Hint Extern 1 (ends (held _ _ _) (on_me _) _) => apply held_me; done : ends.

(** What is made of the result takes one error off OpenSSL's queue and nothing else from the
    connection. *)
Lemma result_held op l s n w : held l s n w ->
  exists r w', handshake_result k0 tr op w = Ret r w' /\ held (snd (ERR_get_error l)) s n w'.
Proof.
  intros Hw. unfold handshake_result.
  destruct (held_ask l s n (SSL_get_error op) w Hw) as (err & w1 & E & [<- Ho] & _).
  rewrite (bind_ret _ _ _ _ _ E). unfold libcall at 1, mbind_ at 1.
  destruct (ERR_get_error (tw_lib w1)) as [err2 l2] eqn:El. cbn [snd]. set (w2 := tw_put_lib l2 w1).
  assert (held l2 s n w2) as H2 by (by split). unfold mine at 1. rewrite bind_gets.
  match goal with |- exists r w', ?m w2 = _ /\ _ => enough (ends (held l2 s n) m always) as Hm by
    (destruct (Hm w2 H2) as (r & w' & Er & H' & _); by exists r, w') end.
  unfold tls_monitor, tls_rescan_read, tls_rescan_write, tls_write_monitor_only.
  apply ends_if; [unfold mine; auto 20 with ends|]. apply ends_if; [auto with ends|]. apply ends_if; [auto with ends|].
  apply ends_then; [auto with ends|]. intros reused. apply ends_then; [auto with ends|]. intros _.
  eapply ends_bind; [apply held_server|]. intros b ->. cbn [negb]. auto with ends.
Qed.

(** After the upgrade a handshake, however often it is called, is a call of [SSL_accept] on the
    object accepting made: nothing is allocated, configured or freed again, every call counts
    as an attempt, and the com keeps its object, its role and its socket. *)
Theorem handshake_goes_on fuel (w : tworld) :
  s_ssl (tw_me w) = true -> sslcom_server (tw_me w) = true -> upgraded (tw_me w) = true ->
  exists r w', handshake k0 tr fuel w = Ret r w' /\
    tw_lib w' = snd (ERR_get_error (snd (SSL_accept (ERR_clear_error (ERR_clear_error (tw_lib w)))))) /\
    object (tw_me w') = (true, true, true, com_socket (tw_me w), s_counters (tw_me w) prof_accept_cnt + 1).
Proof.
  intros Hs Hr Hu. unfold handshake, mine at 1. rewrite bind_gets, Hs. cbn [negb andb]. unfold libdo at 1. rewrite bind_modify.
  cbn [tw_me tw_put_lib]. rewrite Hr. cbn [negb]. set (w1 := tw_put_lib _ w).
  assert (exists op w2, handshake_server fuel w1 = Ret op w2 /\
            held (snd (SSL_accept (ERR_clear_error (tw_lib w1)))) (com_socket (tw_me w)) (s_counters (tw_me w) prof_accept_cnt + 1) w2)
    as (op & w2 & E & H2).
  { unfold handshake_server, mine at 1. rewrite bind_gets. cbn [tw_me tw_put_lib w1]. rewrite Hu, andb_false_r. cbn [negb].
    rewrite bind_pure, (bind_ret _ _ _ _ _ (ssl_ret_me SSL_accept w1 Hs)). cbv zeta. set (w3 := tw_put_me _ _).
    set (r := fst (SSL_accept _)).
    assert ((if r =? 1 then store_session_if_needed ;;; mret_ tt else mret_ tt) w3 = Ret tt w3) as E3.
    { destruct (r =? 1); [|done]. unfold store_session_if_needed, mine at 1. rewrite bind_assoc, bind_gets. cbn. by rewrite Hr. }
    rewrite (bind_ret _ _ _ _ _ E3). unfold on_me. rewrite bind_modify. eexists _, _. split; [reflexivity|]. split; [done|].
    unfold object. cbn. unfold counter_tick, counter_put. rewrite decide_True by done. by rewrite Hs, Hr, Hu. }
  rewrite (bind_ret _ _ _ _ _ E). destruct (result_held op _ _ _ w2 H2) as (r & w' & Er & [Hl Ho]).
  by exists r, w'.
Qed.
End accepted.

(** ** The text of a certificate (sslcertstore.cpp)

    Texts are made in one buffer that keeps what it held when a call fails. *)

Definition SSLCERTSTORE_BUFSIZE : Z := 512.

(** What OpenSSL says of a certificate, a size being the room there is for the text; [None] is a call that fails. *)
Class CertText : Type := {
  x509 : Type;
  subject_cn : x509 -> option bytes;             (* X509_NAME_get_text_by_NID: the value *)
  issuer_cn : x509 -> option bytes;
  subject_oneline : Z -> x509 -> bytes;          (* X509_NAME_oneline *)
  issuer_oneline : x509 -> option (Z -> bytes);  (* when there is an issuer name *)
  signature_type : x509 -> bytes;                (* OBJ_nid2ln(X509_get_signature_type) *)
  not_before : x509 -> option bytes;             (* ASN1_TIME_print *)
  not_after : x509 -> option bytes;
  extensions_print : Z -> x509 -> option bytes;  (* X509V3_extensions_print, unless there is no BIO *)
  digest_sha1 : x509 -> option bytes             (* X509_digest *)
}.

Section certificate.
Context {CT : CertText} (pool_gives : Z -> bool).

(** [X509_NAME_get_text_by_NID] into the buffer [tmp]. *)
Definition get_text (t : option bytes) (tmp : bytes) : bytes :=
  match t with Some t => c_str (ztake (SSLCERTSTORE_BUFSIZE - 2) t) | None => tmp end.
(** [BIO_gets]: up to the end of a line. *)
Fixpoint line (s : bytes) : bytes :=
  match s with [] => [] | c :: s => if c =? 10 then [c] else c :: line s end.
Definition convert_ASN1TIME (t : option bytes) (tmp : bytes) : bytes :=
  match t with Some t => c_str (ztake (SSLCERTSTORE_BUFSIZE - 2) (line t)) | None => tmp end.

Definition print_cn (x : x509) : bytes := get_text (subject_cn x) [].
Definition print_issuer (x : x509) : bytes := get_text (issuer_cn x) [].
Definition print_not_before (x : x509) : bytes := convert_ASN1TIME (not_before x) [].
Definition print_not_after (x : x509) : bytes := convert_ASN1TIME (not_after x) [].

Definition print_cert (x : option x509) (indent : Z) (add_cr : bool) : M unit bytes :=
  match x with
  | None => mret_ []
  | Some x =>
      let nl := (if add_cr then [13] else []) ++ [10; 32] in
      let pref := zrep indent 32 in
      let tmp := get_text (subject_cn x) [] in
      let s := pref ++ text "Common Name: " ++ tmp ++ nl in
      let tmp := c_str (subject_oneline (SSLCERTSTORE_BUFSIZE - 1) x) in
      let s := s ++ pref ++ text "Subject: " ++ tmp ++ nl in
      let! (tmp, s) :=
        (match issuer_oneline x with
         | None => mret_ (tmp, s ++ pref ++ text "# Issuer: <unable to obtain issuer from certificate> " ++ nl)
         | Some issuer =>
             let tmp := c_str (issuer (SSLCERTSTORE_BUFSIZE - 1)) in
             i <- (fun _ => string_format pool_gives (text "Issuer: '" ++ tmp ++ text "'")) ;;
             mret_ (tmp, s ++ pref ++ i ++ nl ++ nl)
         end) in
      let s := s ++ pref ++ text "Signature type: " ++ signature_type x ++ nl in
      let tmp := convert_ASN1TIME (not_before x) tmp in
      let s := s ++ pref ++ text "Valid from: " ++ tmp ++ nl in
      let tmp := convert_ASN1TIME (not_after x) tmp in
      let s := s ++ pref ++ text "Valid to: " ++ tmp ++ nl in
      mret_ (match extensions_print indent x with
             | None => s ++ text " ... unable to allocate BIO"
             | Some it => s ++ pref ++ it
             end)
  end.

(** %02x of a byte. *)
Definition fmt_02x (b : Z) : bytes := [digit false (b / 16); digit false (b mod 16)].
(** When the digest fails its length is not set. *)
Definition fingerprint (x : option x509) : M unit bytes :=
  match x with
  | None => mret_ []
  | Some x => match digest_sha1 x with Some d => mret_ (d ≫= fmt_02x) | None => undef end
  end.

Definition ssl_error_details (target issuer : option x509) : M unit bytes :=
  t <- print_cert target 4 false ;;
  i <- print_cert issuer 4 false ;;
  mret_ (text "Target certificate: " ++ [13; 10] ++ t ++ [13; 10] ++ text "Issuer certificate:  " ++ [13; 10] ++ i ++ [13; 10]).

(** [p] is a part of [s]. *)
Definition part_of (p s : bytes) : Prop := exists a b, s = a ++ p ++ b.
Lemma part_here p b : part_of p (p ++ b).
Proof. by exists [], b. Qed.
Lemma part_right p a s : part_of p s -> part_of p (a ++ s).
Proof. intros (x & y & ->). exists (a ++ x), y. by rewrite <- app_assoc. Qed.

(** A date OpenSSL cannot print shows the name of the issuer in its place. *)
Theorem unreadable_date_shows_issuer x name indent cr :
  issuer_oneline x = Some name -> not_before x = None -> (forall n, pool_gives n = true) ->
  zlen (c_str (name (SSLCERTSTORE_BUFSIZE - 1))) < 1000 ->
  exists t, print_cert (Some x) indent cr tt = Ret t tt /\
    part_of (text "Valid from: " ++ c_str (name (SSLCERTSTORE_BUFSIZE - 1))) t.
Proof.
  intros Hi Hd Hp Hz. cbn [print_cert]. rewrite Hi, Hd. cbn [convert_ASN1TIME].
  set (t := c_str (name _)) in *. set (r := text "Issuer: '" ++ t ++ text "'").
  assert (string_format pool_gives r = Ret r tt) as E.
  { apply string_format_limit; [exact Hp|]. unfold r. rewrite !zlen_app. change (zlen (text "Issuer: '")) with 9.
    change (zlen (text "'")) with 1. lia. }
  unfold mbind_. rewrite E. unfold mret_. cbv beta iota. destruct (extensions_print indent x) as [it|];
    (eexists; split; [reflexivity|]); rewrite <- !app_assoc, (app_assoc (text "Valid from: ") t);
    repeat first [apply part_here | apply part_right].
Qed.

Lemma digit_inj up a b : 0 <= a < 16 -> 0 <= b < 16 -> digit up a = digit up b -> a = b.
Proof. unfold digit. intros Ha Hb. destruct (Z.ltb_spec a 10), (Z.ltb_spec b 10), up; lia. Qed.

(** Fingerprints tell digests apart, and they are twice as long. *)
Theorem fingerprint_is_the_digest x y d e :
  digest_sha1 x = Some d -> digest_sha1 y = Some e -> all_bytes d -> all_bytes e ->
  exists s t, fingerprint (Some x) tt = Ret s tt /\ fingerprint (Some y) tt = Ret t tt /\
    zlen s = 2 * zlen d /\ (s = t <-> d = e).
Proof.
  intros Hx Hy Hd He. unfold fingerprint. rewrite Hx, Hy. exists (d ≫= fmt_02x), (e ≫= fmt_02x).
  split; [done|]. split; [done|]. split.
  - clear. induction d as [|b d IH]; [done|]. cbn. rewrite !zlen_cons, IH. lia.
  - split; [|by intros ->]. clear Hx Hy. revert e He. induction Hd as [|b d Hb Hd IH]; intros e He; destruct He as [|c e Hc He]; try done.
    unfold is_byte in Hb, Hc. cbn. intros [= H1 H2 H3]. f_equal; [|by apply IH].
    apply digit_inj in H1; [|split; [apply Z.div_pos; lia|apply Z.div_lt_upper_bound; lia]..].
    apply digit_inj in H2; [|apply Z.mod_pos_bound; lia..].
    rewrite (Z.div_mod b 16), (Z.div_mod c 16) by lia. by rewrite H1, H2.
Qed.
End certificate.

(** ** Names of connections (sslcom.cpp) *)

(** A com as its name is made: the name of its context, the name of its kind, and the server
    name when it is a TLS com over TCP. *)
Record party : Type := mkParty { p_owner_cx : option bytes; p_shortname : bytes; p_sni : option bytes }.

Definition party_name (p : party) : bytes := default (p_shortname p) (p_owner_cx p).

(** The com and its peer; the left one is used without looking whether it is there. *)
Definition connection_name (com peer : option party) (reverse : bool) : option bytes :=
  match com with
  | None => Some []
  | Some com =>
      let l := if reverse then peer else Some com in
      let r := if reverse then Some com else peer in
      l ← l;
      Some (party_name l ++
        match r with
        | None => []
        | Some r =>
            match p_owner_cx r with
            | Some name => match p_sni r with
                           | Some sni => text "->[sni:" ++ sni ++ text "]" ++ name
                           | None => text "->" ++ name
                           end
            | None => text "->" ++ p_shortname r
            end
        end)
  end.

(** ** Reports *)

(** Arguments of formats, and OpenSSL's texts for codes. *)
Class ReportText {PF : Printf} : Type := {
  arg_s : bytes -> arg;
  arg_d : Z -> arg;
  alert_type : Z -> bytes;
  alert_desc : Z -> bytes;
  verify_error : Z -> bytes
}.
(** %s alone gives the C string of its argument. *)
Class ReportTextOk `{!Printf} `{!ReportText} : Prop := {
  render_s : forall t, render (text "%s") [arg_s t] = Some (c_str t)
}.

Section reports.
Context `{EpollKernel} {SL : SslLib} {PF : Printf} {LS : LogSys} {RT : ReportText} {CT : CertText}.

(** [ssl_error_details] for a com with these certificates, as an argument. *)
Definition details_text (target issuer : option x509) : M lworld bytes := fun w =>
  match ssl_error_details ls_alloc target issuer tt with Ret d _ => Ret d w | Throw e _ => Throw e w | Undef => Undef end.
Definition some_or_undef {W A} (o : option A) : M W A := match o with Some a => mret_ a | None => undef end.

Definition report_certificate_problem (th : Z) (com peer : option party) (target issuer err_cert : option x509)
    (err_code : Z) : M lworld unit :=
  better_name <- some_or_undef (connection_name com peer true) ;;
  event_block th (fun eid =>
    Log.insert th ERR (text "[%s]: certificate verify problem: %d:%s")
      [arg_s better_name; arg_d err_code; arg_s (verify_error err_code)] ;;;
    match err_cert with
    | Some x =>
        Log.insert th ERR (text "[%s]: certificate verify problem: '%s' issued by '%s'")
          [arg_s better_name; arg_s (print_cn x); arg_s (print_issuer x)] ;;;
        d <- details_text target issuer ;;
        detail eid (text "%s") [arg_s d] ;;;
        mret_ tt
    | None => Log.insert th ERR (text "%s: no server certificate") [arg_s better_name] ;;; mret_ tt
    end).

(** The reports of one call of the verify callback: one when OpenSSL's verdict is bad, and one
    for the code. *)
Definition vrfy_reports (th : Z) (com peer : option party) (target issuer err_cert : option x509)
    (lib_preverify err_code : Z) (o : SSLComOptionsCert) : M lworld unit :=
  when (lib_preverify =? 0) (report_certificate_problem th com peer target issuer err_cert err_code) ;;;
  match vrfy_problem err_code o with
  | Some _ => report_certificate_problem th com peer target issuer err_cert err_code
  | None => mret_ tt
  end.

(** The com, the log and the certificates of the com and of its peer. *)
Record cbworld : Type := mkCb {
  cb_tls : tworld;
  cb_log : lworld;
  cb_mine : option x509 * option x509;
  cb_peer : option x509 * option x509
}.
Definition on_tls {A} (m : M tworld A) : M cbworld A := fun w =>
  match m (cb_tls w) with
  | Ret a t => Ret a (mkCb t (cb_log w) (cb_mine w) (cb_peer w))
  | Throw e t => Throw e (mkCb t (cb_log w) (cb_mine w) (cb_peer w))
  | Undef => Undef
  end.
Definition on_log {A} (m : M lworld A) : M cbworld A := fun w =>
  match m (cb_log w) with
  | Ret a l => Ret a (mkCb (cb_tls w) l (cb_mine w) (cb_peer w))
  | Throw e l => Throw e (mkCb (cb_tls w) l (cb_mine w) (cb_peer w))
  | Undef => Undef
  end.

Definition to_string (c : sslcom) : bytes :=
  c_str (text "SSLCom[" ++ (if sslcom_server c then text "server] <-" else text "client] ->")
         ++ text "sni:" ++ sslcom_sni_ (s_info c) ++ text " alpn: " ++ s_alpn c
         ++ (if s_bypass c then text " bypassed" else [])).

Definition log_alert (th : Z) (c : sslcom) (int_code level code : Z) (details : option (option x509 * option x509)) : M lworld unit :=
  event_block th (fun eid =>
    let side_comment := if sslcom_server c then text "server side" else text "client side" in
    Log.insert th ERR (text "[%s|%s]: TLS alert: %s/%s [%d/%d]")
      [arg_s (to_string c); arg_s side_comment; arg_s (alert_type int_code); arg_s (alert_desc int_code); arg_d level; arg_d code] ;;;
    match details with
    | Some (target, issuer) =>
        d <- details_text target issuer ;;
        detail eid (text "%s") [arg_s d] ;;;
        mret_ tt
    | None => mret_ tt
    end).

(** [ssl_msg_callback]: an alert's two bytes are read whatever its length; other messages are only logged. *)
Definition ssl_msg_callback (th content_type : Z) (buf : bytes) (have_com : bool) : M cbworld unit :=
  if content_type =? 21 then
    match buf with
    | level :: code :: _ =>
        let int_code := level * 256 + code in
        if have_com && (1 <? level) then
          on_tls (on_me (com_error ERROR_UNSPEC)) ;;;
          c <- on_tls (mine (fun c => c)) ;;
          p <- on_tls (gets tw_peer) ;;
          certs <- gets (fun w => if sslcom_server c then match p with SslPeer _ => Some (cb_peer w) | _ => None end
                                  else Some (cb_mine w)) ;;
          on_log (log_alert th c int_code level code certs)
        else mret_ tt
    | _ => undef
    end
  else mret_ tt.

(** ** What the reports do *)

Context (memory : forall n, ls_alloc n = true) {RO : ReportTextOk}.

(** What precedes the text of an event. *)
Definition stamp (l : loglevel) (s : lsys) : bytes :=
  if raw l then [] else ls_stamp (ls_time s) ++ text "." ++ pad0 6 (decimal (ls_usec s)) ++ text ": " ++ level_name (level l) ++ text ": ".

Lemma insert_run th l fmt args r w : render fmt args = Some r -> zlen r < 10240 ->
  Log.insert th l fmt args w = let p := push_event th (stamp l (l_sys w) ++ r) (Log.events w) in
    Ret (fst p) (put_events (snd p) w).
Proof.
  intros Hr Hz. unfold Log.insert. rewrite bind_gets. rewrite (bind_ret _ _ _ _ _ (log_format_ret fmt args r w Hr memory Hz)).
  unfold in_events, stamp. by destruct (push_event _ _ _).
Qed.
Lemma detail_run eid d w : zlen (c_str d) < 10240 ->
  detail eid (text "%s") [arg_s d] w = Ret eid (put_events (snd (add_detail eid (c_str d) (Log.events w))) w).
Proof. intros Hz. unfold detail. by rewrite (bind_ret _ _ _ _ _ (log_format_ret _ _ _ w (render_s d) memory Hz)). Qed.

(** A number of a thread: what is inserted and described under it. *)
Definition under (th id : Z) (e : Log.Events) : Prop := current th e = id /\ 0 < id.
Lemma push_under th id t e : under th id e -> zlen (events_ e) < events_max_ ->
  push_event th t e = (id, mkEvents (events_ e ++ [(id, t)]) (event_detail_db_ e) (event_count_ e) (current_event_id_ e)).
Proof.
  intros [Hc Hid] Hz. unfold push_event. rewrite Hc, (proj2 (Z.ltb_lt _ _) Hid). cbn [events_].
  rewrite (proj2 (Z.ltb_ge _ _)); [done|]. rewrite zlen_app. change (zlen [(id, t)]) with 1. lia.
Qed.

(** The number a block gets and the ring it starts from, when the thread has none. *)
Definition next_id (e : Log.Events) : Z := u64 (event_count_ e + 1).
Definition locked (th : Z) (e : Log.Events) : Log.Events := put_current th (next_id e) (put_count (next_id e) e).
Lemma block_run {A} th (m : Z -> M lworld A) w a w' :
  current th (Log.events w) = 0 -> m (next_id (Log.events w)) (put_events (locked th (Log.events w)) w) = Ret a w' ->
  event_block th m w = Ret a (put_events (put_current th 0 (Log.events w')) w').
Proof.
  intros Hc Hm. unfold event_block, in_events, mbind_, lock_event_id. rewrite Hc. cbn [Z.ltb Z.compare].
  fold (next_id (Log.events w)). fold (locked th (Log.events w)). by rewrite Hm.
Qed.
Lemma locked_under th e : 0 < next_id e -> under th (next_id e) (locked th e).
Proof. intros Hi. split; [|done]. unfold locked. rewrite current_put. by rewrite decide_True. Qed.

Lemma add_new eid t e : event_detail_db_ e !! eid = None ->
  add_detail eid t e = (eid, mkEvents (events_ e) (<[eid := t]> (event_detail_db_ e)) (event_count_ e) (current_event_id_ e)).
Proof. intros Hn. unfold add_detail. by rewrite Hn. Qed.
Lemma room {A} (l : list A) p n : zlen l + 2 <= n -> zlen (l ++ [p]) < n.
Proof. rewrite zlen_app, zlen_cons, zlen_nil. lia. Qed.

(** The texts of one report, [r1] and [r2], and its detail [d]. *)
Definition report_texts (com peer : option party) (target issuer : option x509) (x : x509) (code : Z) (r1 r2 d : bytes) : Prop :=
  exists name, connection_name com peer true = Some name /\
    render (text "[%s]: certificate verify problem: %d:%s") [arg_s name; arg_d code; arg_s (verify_error code)] = Some r1 /\
    render (text "[%s]: certificate verify problem: '%s' issued by '%s'") [arg_s name; arg_s (print_cn x); arg_s (print_issuer x)] = Some r2 /\
    ssl_error_details ls_alloc target issuer tt = Ret d tt /\ zlen r1 < 10240 /\ zlen r2 < 10240.

(** One report: two events under a new number, the texts of both certificates as the detail,
    and the number given back. *)
Lemma report_run th com peer target issuer x code w r1 r2 d :
  report_texts com peer target issuer x code r1 r2 d -> zlen (c_str d) < 10240 ->
  let e := Log.events w in let id := next_id e in
  current th e = 0 -> 0 < id -> zlen (events_ e) + 2 <= events_max_ -> event_detail_db_ e !! id = None ->
  exists e', report_certificate_problem th com peer target issuer (Some x) code w = Ret tt (put_events e' w) /\
    events_ e' = events_ e ++ [(id, stamp ERR (l_sys w) ++ r1); (id, stamp ERR (l_sys w) ++ r2)] /\
    event_detail_db_ e' = <[id := c_str d]> (event_detail_db_ e) /\ current th e' = 0 /\ event_count_ e' = id.
Proof.
  intros (name & Hn & Hr1 & Hr2 & Hd & Hz1 & Hz2) Hzd e id Hc Hid Hz Hdb.
  unfold report_certificate_problem, some_or_undef. rewrite Hn, bind_pure.
  pose proof (locked_under th e Hid) as Hu. fold id in Hu.
  erewrite block_run; [|exact Hc|].
  2: { rewrite (bind_ret _ _ _ _ _ (insert_run _ _ _ _ _ _ Hr1 Hz1)). cbn [Log.events put_events l_sys].
    rewrite (push_under th id); [|exact Hu|change (zlen (events_ e) < events_max_); lia]. cbn [fst snd].
    rewrite (bind_ret _ _ _ _ _ (insert_run _ _ _ _ _ _ Hr2 Hz2)). cbn [Log.events put_events l_sys].
    rewrite (push_under th id); [|exact Hu|apply room; exact Hz]. cbn [fst snd].
    unfold mbind_ at 1, details_text. rewrite Hd. rewrite (bind_ret _ _ _ _ _ (detail_run _ _ _ Hzd)).
    rewrite add_new by exact Hdb. reflexivity. }
  eexists. split; [reflexivity|]. cbn [Log.events put_events snd events_ event_detail_db_ put_current event_count_].
  split; [by rewrite <- app_assoc|]. split; [done|]. split; [|done]. rewrite current_put. by rewrite decide_True.
Qed.

(** A problem that OpenSSL's verification found is reported twice, once for its verdict and
    once for its code: four events under two numbers, each with the same detail. *)
Theorem problem_reported_twice th com peer target issuer x code o w r1 r2 d :
  report_texts com peer target issuer x code r1 r2 d -> zlen (c_str d) < 10240 -> is_Some (vrfy_problem code o) ->
  let e := Log.events w in let id := event_count_ e + 1 in
  current th e = 0 -> 0 < id -> id + 1 < 2 ^ 64 -> zlen (events_ e) + 4 <= events_max_ ->
  event_detail_db_ e !! id = None -> event_detail_db_ e !! (id + 1) = None ->
  exists e', vrfy_reports th com peer target issuer (Some x) 0 code o w = Ret tt (put_events e' w) /\
    events_ e' = events_ e ++ [(id, stamp ERR (l_sys w) ++ r1); (id, stamp ERR (l_sys w) ++ r2);
                               (id + 1, stamp ERR (l_sys w) ++ r1); (id + 1, stamp ERR (l_sys w) ++ r2)] /\
    event_detail_db_ e' = <[id + 1 := c_str d]> (<[id := c_str d]> (event_detail_db_ e)).
Proof.
  intros Ht Hzd [v Hv] e id Hc Hid Hmax Hz Hdb Hdb2. unfold vrfy_reports. cbn [Z.eqb when]. rewrite Hv.
  assert (next_id e = id) as Eid by (unfold next_id, u64; apply Z.mod_small; lia).
  destruct (report_run th com peer target issuer x code w r1 r2 d Ht Hzd) as (e1 & E1 & Hev1 & Hd1 & Hc1 & Hn1);
    [done|fold e; lia|fold e; lia|fold e; by rewrite Eid|]. rewrite (bind_ret _ _ _ _ _ E1). fold e in Hev1, Hd1, Hn1. rewrite Eid in *.
  assert (next_id e1 = id + 1) as Eid1 by (unfold next_id, u64; rewrite Hn1; apply Z.mod_small; lia).
  destruct (report_run th com peer target issuer x code (put_events e1 w) r1 r2 d Ht Hzd) as (e2 & E2 & Hev2 & Hd2 & _);
    cbn [Log.events put_events] in *; [done|lia| | |].
  - rewrite Hev1, zlen_app, !zlen_cons, zlen_nil. lia.
  - rewrite Eid1, Hd1. by rewrite lookup_insert_ne by lia.
  - exists e2. split; [exact E2|]. rewrite Hev2, Hd2, Hev1, Hd1, Eid1. by rewrite <- app_assoc.
Qed.

(** A certificate whose text is longer than the formatting buffer, as one with many names or
    long extensions is, makes its own report read past that buffer. *)
Theorem large_certificate_overruns th com peer target issuer x code w r1 r2 d :
  report_texts com peer target issuer x code r1 r2 d -> 10240 < zlen (c_str d) ->
  report_certificate_problem th com peer target issuer (Some x) code w = Undef.
Proof.
  intros (name & Hn & Hr1 & Hr2 & Hd & Hz1 & Hz2) Hzd. unfold report_certificate_problem, some_or_undef. rewrite Hn, bind_pure.
  unfold event_block, in_events, mbind_ at 1. destruct (lock_event_id th (Log.events w)) as [id e].
  rewrite (bind_ret _ _ _ _ _ (insert_run _ _ _ _ _ _ Hr1 Hz1)). cbv zeta.
  rewrite (bind_ret _ _ _ _ _ (insert_run _ _ _ _ _ _ Hr2 Hz2)). cbv zeta.
  unfold mbind_ at 1, details_text. rewrite Hd. unfold mbind_, detail, mbind_, Log.format. rewrite render_s.
  by rewrite (proj2 (proj2 (string_format_limit ls_alloc (c_str d) memory)) Hzd).
Qed.

(** A com without a peer, a plain client, does not survive a problem: its name is made from
    the peer's. *)
Theorem report_needs_peer th com target issuer x pre code o w :
  pre = 0 \/ is_Some (vrfy_problem code o) ->
  vrfy_reports th (Some com) None target issuer x pre code o w = Undef.
Proof.
  intros Hp. assert (forall w, report_certificate_problem th (Some com) None target issuer x code w = Undef) as Hr by done.
  unfold vrfy_reports. destruct (Z.eqb_spec pre 0) as [_|Hne]; cbn [when]; [unfold mbind_; by rewrite Hr|].
  rewrite bind_pure. destruct Hp as [|[v ->]]; [done|]. apply Hr.
Qed.

(** *** One alert in the log, whatever the ring holds

    The number it gets, the events and the details that are kept when there is no room, and the
    detail an event already has. *)
Definition alert_id (th : Z) (e : Log.Events) : Z := if 0 <? current th e then current th e else next_id e.
Definition newest_kept (l : list (Z * bytes)) : list (Z * bytes) := if events_max_ <? zlen l then tail l else l.
Definition details_kept (l : list (Z * bytes)) (db : gmap Z bytes) : gmap Z bytes :=
  if events_max_ <? zlen l then match l with (i, _) :: _ => delete i db | [] => db end else db.
Definition first_detail (id : Z) (d : bytes) (db : gmap Z bytes) : gmap Z bytes :=
  match db !! id with Some _ => db | None => <[id := d]> db end.

Lemma lock_run th e : 0 < alert_id th e ->
  lock_event_id th e = (alert_id th e, snd (lock_event_id th e)) /\
  under th (alert_id th e) (snd (lock_event_id th e)) /\
  events_ (snd (lock_event_id th e)) = events_ e /\ event_detail_db_ (snd (lock_event_id th e)) = event_detail_db_ e.
Proof.
  intros Hid. unfold alert_id, lock_event_id in *. destruct (Z.ltb_spec 0 (current th e)); cbn [snd].
  - by repeat split.
  - split; [done|]. split; [|done]. split; [|done]. rewrite current_put. by rewrite decide_True.
Qed.

Lemma push_run th id t e : under th id e ->
  let p := push_event th t e in
  fst p = id /\ events_ (snd p) = newest_kept (events_ e ++ [(id, t)]) /\
  event_detail_db_ (snd p) = details_kept (events_ e ++ [(id, t)]) (event_detail_db_ e) /\
  current_event_id_ (snd p) = current_event_id_ e.
Proof.
  intros [Hc Hid]. unfold push_event, newest_kept, details_kept. rewrite Hc, (proj2 (Z.ltb_lt _ _) Hid). cbv zeta.
  destruct (events_max_ <? _); [| done]. by destruct (events_ e) as [| [i u] l].
Qed.

Lemma alert_run th c int_code level code certs w r :
  render (text "[%s|%s]: TLS alert: %s/%s [%d/%d]")
    [arg_s (to_string c); arg_s (if sslcom_server c then text "server side" else text "client side");
     arg_s (alert_type int_code); arg_s (alert_desc int_code); arg_d level; arg_d code] = Some r ->
  zlen r < 10240 ->
  (forall t i, certs = Some (t, i) -> exists d, ssl_error_details ls_alloc t i tt = Ret d tt /\ zlen (c_str d) < 10240) ->
  let e := Log.events w in let id := alert_id th e in
  0 < id ->
  let l := events_ e ++ [(id, stamp ERR (l_sys w) ++ r)] in
  let db := details_kept l (event_detail_db_ e) in
  exists e', log_alert th c int_code level code certs w = Ret tt (put_events e' w) /\
    events_ e' = newest_kept l /\ current th e' = 0 /\
    match certs with
    | Some (t, i) => exists d, ssl_error_details ls_alloc t i tt = Ret d tt /\ event_detail_db_ e' = first_detail id (c_str d) db
    | None => event_detail_db_ e' = db
    end.
Proof.
  intros Hr Hz Hcerts e id Hid l db. destruct (lock_run th e Hid) as (El & Hu & Eev & Edb).
  set (e1 := snd (lock_event_id th e)) in *. destruct (push_run th id (stamp ERR (l_sys w) ++ r) e1 Hu) as (P1 & P2 & P3 & P4).
  set (e2 := snd (push_event th _ e1)) in *. rewrite Eev in P2, P3. rewrite Edb in P3. fold l in P2, P3. fold db in P3.
  unfold log_alert, event_block. unfold mbind_ at 1. unfold in_events at 1. fold e. rewrite El.
  rewrite (bind_ret _ _ _ _ _ (insert_run th ERR _ _ r (put_events e1 w) Hr Hz)). cbv zeta.
  change (Log.events (put_events e1 w)) with e1. change (l_sys (put_events e1 w)) with (l_sys w). fold e2.
  destruct certs as [[t i]|].
  - destruct (Hcerts t i eq_refl) as (d & Hd & Hzd). unfold mbind_ at 1, details_text. rewrite Hd.
    rewrite (bind_ret _ _ _ _ _ (detail_run id d _ Hzd)). change (Log.events (put_events e2 _)) with e2.
    eexists. split; [reflexivity|]. unfold release_event_id. rewrite current_put, decide_True by done.
    cbn [Log.events put_events put_current events_ event_detail_db_]. unfold add_detail, first_detail. rewrite P3.
    destruct (db !! id) eqn:Edi; cbn [snd events_ event_detail_db_]; rewrite P2; (split; [done|]); (split; [done|]); exists d;
      by rewrite ?P3, ?Edi.
  - eexists. split; [reflexivity|]. unfold release_event_id. rewrite current_put, decide_True by done.
    cbn [Log.events put_events put_current events_ event_detail_db_]. by rewrite P2, P3.
Qed.

(** The certificates an alert is described by: the server's of a client com, of a server com
    those of the client com on the other side. *)
Definition alert_certs (w : cbworld) : option (option x509 * option x509) :=
  if sslcom_server (tw_me (cb_tls w)) then match tw_peer (cb_tls w) with SslPeer _ => Some (cb_peer w) | _ => None end
  else Some (cb_mine w).

(** [C34] The message callback of a TLS com on an alert record.  An alert of level 1 or less changes
    nothing.  Another, sent or received, puts the com into its error state and is one event, under
    the number the thread holds or else the next one, which is positive: the last of the ring, which
    when full loses its oldest event and that event's detail.  Its detail is the text of the
    certificates (a client com's own, a server com's those of the TLS com on the other side), unless
    there is none or that number has a detail already; the thread holds no number afterwards. This
    is for a text of the alert and, where there are certificates, of their details under 10240
    bytes, the size of the formatting buffer, and with memory for them. *)
Theorem alert_is_reported th level code rest w r :
  let me := tw_me (cb_tls w) in let e := Log.events (cb_log w) in let id := alert_id th e in
  render (text "[%s|%s]: TLS alert: %s/%s [%d/%d]")
    [arg_s (to_string (com_error ERROR_UNSPEC me)); arg_s (if sslcom_server me then text "server side" else text "client side");
     arg_s (alert_type (level * 256 + code)); arg_s (alert_desc (level * 256 + code)); arg_d level; arg_d code] = Some r ->
  zlen r < 10240 ->
  (forall t i, alert_certs w = Some (t, i) -> exists d, ssl_error_details ls_alloc t i tt = Ret d tt /\ zlen (c_str d) < 10240) ->
  0 < id ->
  (level <= 1 -> ssl_msg_callback th 21 (level :: code :: rest) true w = Ret tt w) /\
  (1 < level -> exists e', ssl_msg_callback th 21 (level :: code :: rest) true w =
       Ret tt (mkCb (tw_put_me (com_error ERROR_UNSPEC me) (cb_tls w)) (put_events e' (cb_log w)) (cb_mine w) (cb_peer w)) /\
     let l := events_ e ++ [(id, stamp ERR (l_sys (cb_log w)) ++ r)] in
     let db := details_kept l (event_detail_db_ e) in
     events_ e' = newest_kept l /\ current th e' = 0 /\
     match alert_certs w with
     | Some (t, i) => exists d, ssl_error_details ls_alloc t i tt = Ret d tt /\ event_detail_db_ e' = first_detail id (c_str d) db
     | None => event_detail_db_ e' = db
     end).
Proof.
  intros me e id Hr Hz Hcerts Hid. unfold ssl_msg_callback. change (21 =? 21) with true. cbv iota. cbn [andb].
  split; intros Hl; [by rewrite (proj2 (Z.ltb_ge _ _)) by lia|]. rewrite (proj2 (Z.ltb_lt _ _)) by lia. cbv zeta.
  unfold mbind_, on_tls, on_me, modify, mine, gets. cbn [cb_tls tw_put_me tw_me tw_peer cb_log cb_mine cb_peer].
  match goal with |- context [log_alert th _ _ _ _ ?c] => assert (c = alert_certs w) as -> by done end.
  unfold on_log. cbn [cb_log cb_tls cb_mine cb_peer].
  destruct (alert_run th (com_error ERROR_UNSPEC me) (level * 256 + code) level code (alert_certs w) (cb_log w) r Hr Hz Hcerts Hid)
    as (e' & E & He'). fold me. rewrite E. by exists e'.
Qed.
End reports.

(** ** The theorems evaluated

    A client that shakes hands at once, and certificates that are the length of the text of their extensions. *)

From S2P Require Import SockSim SslSim.

#[export] Instance sim_accept : AcceptLib := {|
  DTLSv1_listen l := (1, l)
|}.

Definition sim_server (proto : Z) : sslcom :=
  mkSsl (set_fd 0 com_default) proto false sim_options false 0 0 0 0 false false false false false true
    false false (zrep 100 0) no_info [] None false VRF_NOTTESTED (-1) (fun _ => 0) 0 0 0 no_identity.
Definition server_world (proto : Z) : tworld :=
  mkTw (sim_server proto) NoPeer None (mkEpoller None ∅ ∅) (mkWire [] [] []) (mkCache ∅ [] FIFO 100 None None) true true.
Definition sim_transport : transport := OverTcp (put_nonlocal true new_dst) (mkSim [] 0).
Definition sim_early : uworld := mkU {[dkey (-5) := mkDatagram (zrep 16 0) (zrep 16 0) None false empty_rx]} ∅ ∅
  (mkUdp 0 false None [] AF_INET false [] 0 false [] 0 false AF_INET ∅ 0 zero_ss) [] (mkSim [] 0).


Lemma handshake_goes_on_witness :
  let w := tw_put_me (put_upgraded true (put_server true (put_ssl true (sim_server SOCK_STREAM)))) (server_world SOCK_STREAM) in
  exists r w', handshake no_interest (fun s => s) 4 w = Ret r w' /\ object (tw_me w') = (true, true, true, 0, 1).
Proof.
  intros w. destruct (handshake_goes_on no_interest (fun s => s) 4 w ltac:(done) ltac:(done) ltac:(done)) as (r & w' & E & _ & Ho).
  by exists r, w'.
Defined.

Lemma virtual_accept_finds_nothing_witness :
  let w := mkAw (server_world SOCK_DGRAM) (OverUdp sim_early) in accept_virtual (-5) w = Ret tt w.
Proof.
  intros w. apply (virtual_accept_finds_nothing (-5) w (datagrams_received sim_early)
    (mkDatagram (zrep 16 0) (zrep 16 0) None false empty_rx)); [done| |by vm_compute|by vm_compute].
  intros k [d Hk]. cbn [datagrams_received sim_early] in Hk. apply lookup_singleton_Some in Hk as [<- _]. by vm_compute.
Defined.

#[export] Instance sim_cert : CertText := {|
  x509 := Z;
  subject_cn _ := Some (text "a.org"); issuer_cn _ := Some (text "ca");
  subject_oneline _ _ := text "/CN=a.org"; issuer_oneline _ := Some (fun _ => text "/CN=ca");
  signature_type _ := text "sha256WithRSAEncryption";
  not_before _ := Some (text "Jan  1 00:00:00 2024 GMT"); not_after _ := None;
  extensions_print _ x := Some (zrep x 65);
  digest_sha1 x := Some [x]
|}.
#[export] Instance sim_report : ReportText := {|
  arg_s := c_str; arg_d := fmt_d; alert_type _ := text "fatal"; alert_desc _ := text "bad certificate"; verify_error _ := text "expired"
|}.
Lemma sim_render_s t : render (text "%s") [arg_s t] = Some (c_str t).
Proof. cbn. by rewrite app_nil_r. Qed.
#[export] Instance sim_report_ok : ReportTextOk := {| render_s := sim_render_s |}.

Definition client : party := mkParty (Some (text "server")) (text "tcp") (Some (text "a.org")).
Definition peer_party : party := mkParty (Some (text "client")) (text "tcp") None.

Lemma problem_reported_twice_witness :
  exists e', vrfy_reports 1 (Some client) (Some peer_party) (Some 3) None (Some 3) 0 10 opt_cert_default log_start =
      Ret tt (put_events e' log_start) /\ fst <$> events_ e' = [101; 101; 102; 102].
Proof.
  edestruct (problem_reported_twice ltac:(done) 1 (Some client) (Some peer_party) (Some 3) None 3 10 opt_cert_default log_start)
    as (e' & E & Hev & _); [exists (text "client->[sni:a.org]server"); repeat split; by vm_compute|by vm_compute|by eexists|by vm_compute..|].
  exists e'. split; [exact E|]. by rewrite Hev.
Defined.

Lemma large_certificate_overruns_witness :
  report_certificate_problem 1 (Some client) (Some peer_party) (Some 12000) None (Some 3) 10 log_start = Undef.
Proof.
  eapply (large_certificate_overruns ltac:(done) 1 (Some client) (Some peer_party) (Some 12000) None 3 10 log_start);
    [exists (text "client->[sni:a.org]server"); repeat split; by vm_compute|by vm_compute].
Defined.

Definition alert_world : cbworld := mkCb (server_world SOCK_STREAM) log_start (Some 3, None) (None, None).

Lemma alert_is_reported_witness :
  exists e', ssl_msg_callback 1 21 [2; 42] true alert_world =
    Ret tt (mkCb (tw_put_me (TlsData.com_error ERROR_UNSPEC (sim_server SOCK_STREAM)) (server_world SOCK_STREAM)) (put_events e' log_start) (Some 3, None) (None, None)) /\
    is_Some (event_detail_db_ e' !! 101).
Proof.
  edestruct (alert_is_reported ltac:(done) 1 2 42 [] alert_world) as [_ Hf]; [by vm_compute|by vm_compute| |by vm_compute..|].
  - intros t i [= <- <-]. eexists. split; [vm_compute; reflexivity|by vm_compute].
  - destruct (Hf ltac:(lia)) as (e' & E & _ & _ & d & _ & Hd). exists e'. split; [exact E|]. rewrite Hd. by eexists.
Defined.
